(* ===== verification/_CoqProject ===== *)
-Q . S2P
Prelude.v
Returns.v
Rbsp.v
Leb128.v
BitReader.v
TypesBits.v
Float64.v
MapSum.v
Serial.v
LossTracker.v
Ring.v
RingBuffer.v
Eviction.v
Memory.v
MemoryRace.v
SizedBuffer.v
Depacketizer.v
H264.v
HEVC.v
DepackMemory.v
Heap.v
JitterBuffer.v
Frame.v
Reorderer.v
DtsCalculator.v
TsAlign.v
Continuity.v
Pes.v
Fragment.v
Validation.v
AnnexB.v
Codec.v
Detectors.v
Assembler.v
TsParser.v
TsTotal.v
TsRoundTrip.v
Gop.v
GopBuffer.v
GopBooks.v
GopDetector.v
GopPipeline.v
TimestampMapper.v
TrackSync.v
TimeBase.v
AVSync.v
RateLimit.v
Reconnect.v
RtpValidator.v
Backpressure.v
HybridQueue.v
BitSyntax.v
SpsH264.v
SpsHEVC.v
Resolution.v
AV1.v
JpegXs.v
AccumMemory.v
GoStrings.v
CodecDetect.v
CodecFactory.v
CodecSession.v
ParamSets.v
ParamCache.v
ParamValidator.v
ParamVersions.v
ParamSession.v
ParamContext.v
ParamStream.v
ParamMigration.v
KeyFrames.v
Recovery.v
StreamRecovery.v
Quality.v
SmartRecovery.v
SessionSets.v
StreamHandler.v
