(* ===== verification/Prelude.v ===== *)
(** * A model of the mirror ingestion server

    mirror receives live video over RTP and SRT, depacketizes it, keeps it in
    bounded buffers and serves it on.  This library models the core of
    [src/internal/ingestion] and [src/internal/queue] and proves what its
    components promise each other.  Paths below are relative to
    [src/internal/ingestion] unless they begin with [src/].

    ** The program and where it is modelled

    An RTP packet is validated ([RtpValidator]) and passes the sequence tracker
    ([LossTracker]) and the jitter buffer ([JitterBuffer]); its codec is known
    from the session ([CodecDetect], [CodecSession]), whose depacketizer the
    factory makes ([CodecFactory]); the depacketizer ([H264], [HEVC], both
    clients of [Depacketizer], [AV1], [JpegXs]) turns payloads into NAL units or
    OBUs and charges the memory it holds to the memory controller
    ([DepackMemory], [AccumMemory], [Memory], [Eviction], [MemoryRace]).  SRT
    messages are realigned to transport-stream packets, parsed and checked
    ([TsAlign], [TsParser], [Continuity], [Pes], [Validation]).  The packets'
    time stamps are mapped to presentation times ([TimestampMapper]) and kept in
    step between audio and video ([TrackSync], [TimeBase], [AVSync]).  The
    assembler makes frames of them ([Assembler], with the [Detectors] of the
    codecs and the scanners of [AnnexB]), the reorderer puts these in decode
    order ([Reorderer], [DtsCalculator]), the detector of groups of pictures
    closes groups ([GopDetector]) that the buffer keeps within limits
    ([GopBuffer], [GopBooks]; the two joined in [GopPipeline]).  The parameter
    sets of a stream are parsed, cached, limited, versioned and put in front of
    single frames ([ParamSets] to [ParamMigration]); the picture size is read
    from them ([SpsH264], [SpsHEVC], [Resolution]).  Bytes wait in ring buffers
    ([Ring], [RingBuffer], [SizedBuffer]) and queues ([HybridQueue]) under
    limits ([RateLimit], [Backpressure]); connections are re-established by
    [Reconnect].

    Foundations:
    - [Prelude]: this file; outcomes, methods, machine integers, slices, time.
      [Returns]: the logic of code that returns.  [MapSum]: sums over maps.
    - [Float64]: Go's float64, on the Standard Library's [SpecFloat].
      [GoStrings]: what is used of Go's [strings] and [strconv].
    - [Heap]: container/heap, generic in its interface.

    Codes and bit streams:
    - [Rbsp]: types/rbsp.go.  [Leb128]: security/leb128.go.
    - [BitReader]: resolution/golomb.go.  [TypesBits]: the reader and writer of
      types/h264_parser.go.  [BitSyntax]: reference writers for the parsers of
      bit syntax.  [AnnexB]: the start-code scanners of frame/assembler.go and
      the frame detectors.

    Memory and buffers:
    - [Ring]: ring storage, the class [ByteFifo] and its stream theorem;
      [RingBuffer]: buffer/ring.go; [SizedBuffer]: buffer/sized.go.
    - [Eviction], [Memory], [MemoryRace]: memory/eviction.go and
      memory/controller.go, calls run alone and interleaved at their atomic
      accesses.
    - [HybridQueue]: src/internal/queue/hybrid_queue.go.

    RTP:
    - [Serial], [Fragment]: validation/fragment.go.  [LossTracker]:
      rtp/packet_loss_tracker.go.  [RtpValidator]: rtp/validator.go.
      [JitterBuffer]: rtp/jitter_buffer.go.
    - [Depacketizer]: the network (loss, duplication, reordering) and the class
      [NalReceiver]; [H264], [HEVC], [AV1], [JpegXs]: codec/*_depacketizer.go;
      [DepackMemory], [AccumMemory]: their memory wrappers, against the classes
      [BaseDepacketizer] and [AccumBase].
    - [CodecDetect]: codec/types.go, codec/detector.go; [CodecFactory]:
      codec/factory.go; [CodecSession]: codec_detection.go.

    Transport streams:
    - [TsAlign], [Continuity], [Pes], [Validation]: validation/*.go.
    - [TsParser]: mpegts/parser.go, with [TsTotal] (it returns on any input) and
      [TsRoundTrip] (what it makes of well-formed streams).

    Frames and time:
    - [Codec]: types/codec.go, types/packet.go.  [Frame]: types/frame.go,
      types/rational.go.  [Gop]: types/gop.go.
    - [Detectors]: frame/*_detector.go behind the class [Detector];
      [Assembler]: frame/assembler.go; [Reorderer], [DtsCalculator]:
      frame/bframe_reorderer.go.
    - [GopDetector], [GopBuffer], [GopBooks]: gop/detector.go, gop/buffer.go.
    - [TimestampMapper]: timestamp/mapper.go; [TrackSync], [TimeBase],
      [AVSync]: sync/*.go.

    Parameter sets:
    - [SpsH264], [SpsHEVC], [Resolution]: resolution/*.go.
    - [ParamSets]: the parsers of types/h264_parser.go and the validators beside
      them; [ParamCache], [ParamValidator], [ParamVersions], [ParamSession],
      [ParamMigration]: types/parameter_cache.go, parameter_validator.go,
      parameter_set_versioning.go, encoder_session.go,
      parameter_set_migration.go.
    - [ParamContext], [ParamStream]: types/parameter_context.go.

    Control:
    - [RateLimit]: ratelimit/ratelimit.go; [Reconnect]: reconnect/reconnect.go;
      [Backpressure]: backpressure/controller.go.
    - Errors of a stream: [KeyFrames] (frame/idr_detector.go), [Recovery]
      (recovery/recovery.go), on top of it [SmartRecovery]
      (recovery/smart_recovery.go), [StreamRecovery] (recovery/stream_recovery.go)
      and [Quality] (recovery/adaptive_quality.go).
    - The parameter sets a stream keeps: [SessionSets] (gop/buffer.go and
      stream_handler.go), on top of [GopBuffer] and [ParamContext].
    - A stream as a whole: [StreamHandler] (stream_handler.go), one state over
      [GopDetector], [GopBuffer], [Recovery], [AVSync], [Resolution],
      [Backpressure], [HybridQueue] and [SessionSets], and a step for each
      thing its goroutines do.

    ** How code becomes definitions

    A Go struct is a [Record], a method a function from the receiver to the
    receiver after the call and the results; a constant, field or function
    keeps its Go name.  Run-time panics are [Panic], errors are values of an
    inductive type per component, and a method that returns an error still
    returns the receiver with the writes made before.  Objects shared by pointer
    live in a store ([GopBuffer], [ParamMigration]).  Loops are structural
    where the data allows and otherwise take a fuel argument; the calling
    definition passes a bound (the length of the input plus one, 10 or 33 for
    the bounded codes, one more than the number of heap entries) and the
    totality theorems show that [NoFuel] is never returned.  Integers are [Z]
    with wrap-around written at each conversion ([u16], [i64], ...); [int] is
    64 bits wide.  Times are nanoseconds, the zero time is [0], and every
    reading of the clock is an argument.  A method that holds its object's
    mutex for its whole body is one atomic step; waits on a condition variable
    give a separate [Blocked] outcome; a goroutine is a script of steps or a
    step relation, as are the atomic accesses of lock-free code.  What a
    [select] finds ready, the order of a map iteration (the class
    [ParamSession.MapOrder]), SHA-256 and the answers of files and connections
    are arguments.  Log calls and metrics counters outside the modelled state
    are left out.

    ** What is proved

    - Depacketizers never deliver a NAL unit the sender did not send, whatever
      the network does ([H264.h264_integrity], [HEVC.hevc_integrity]), deliver
      everything on a lossless one, never panic and keep their bounds; so does
      AV1 for packets of whole OBUs or of one fragment ([AV1.av1_transport]).
    - Memory accounting: sequential ([Memory.accounting]), concurrent but for
      one race ([MemoryRace.concurrent_limits]), the eviction strategies' choices, and
      the books of buffers and depacketizers against the controller
      ([AccumMemory.accum_charges]).
    - Rings and queues deliver the bytes written, in order
      ([RingBuffer.ring_stream], [SizedBuffer.sized_stream],
      [HybridQueue.queue_delivers]).
    - The jitter buffer plays out in sequence order and loses no packet
      unaccounted ([JitterBuffer.playout_order], [JitterBuffer.jitter_books]);
      the reorderer outputs in DTS order and keeps its books; the loss tracker
      refines unbounded sequence numbers.
    - Frames: the scanners agree with one definition of splitting
      ([AnnexB.annexb_split]), the assembler loses and invents nothing
      ([Assembler.assembled_frames]), groups partition the frames
      ([GopDetector.detector_partition]) and the buffer keeps its limits and
      indices ([GopBooks.gop_books], [GopPipeline.pipeline_books]).
    - Transport streams: the parser returns on any input
      ([TsTotal.parser_total]) and acquires what the reference writer wrote
      ([TsRoundTrip.program_acquired]); realignment, continuity counters and
      the life of a PES packet.
    - Time: unwrapped time stamps ([TimestampMapper.rtp_unwrapped]),
      presentation times ([TrackSync.presentation_exact]), bounded correction
      of drift ([AVSync.drift_control]).
    - Parameter sets: the parsers against reference writers and each other
      ([SpsH264.h264_sps_size], [SpsHEVC.hevc_sps_size],
      [ParamSets.sps_parsers_agree]; the H.264 profiles 134, 135 and 139 are
      misread and left out); the cache refines a list
      ([ParamCache.cache_refines]); limits, versions, sessions, copies,
      migrations; the streams generated for a frame are closed
      ([ParamStream.decodable_stream], [ParamStream.best_effort_outcome],
      [ParamStream.remap_changes_ids]).
    - Control: admission limits, the pressure tiers and the end of reconnection
      ([RateLimit.admission_limits], [Reconnect.reconnect_ends]).
    - Codes: round trips of RBSP, LEB128 and Exp-Golomb, and the exact results
      of the decoders.
    - Errors: which frames are taken for key frames, for AV1 under conditions
      ([KeyFrames.key_frames_detected]); a stream that recovers has exactly one
      waiter that ends it ([Recovery.recovery_supervised]), outside a recovery
      corrupted frames and those behind them and no others are dropped
      ([Recovery.corruption_recovery]), at most one
      recovery runs and it ends ([StreamRecovery.one_recovery]), when an error
      blocks on its own lock ([SmartRecovery.smart_deadlock]), and the quality
      follows the load by single steps ([Quality.quality_follows_load]).
    - Sessions: extraction loses no parameter set, and a dropped GOP's are kept
      until the session has counted 500 ([SessionSets.session_sets]).
    - Streams: what happens to a frame in every state a stream comes into
      ([StreamHandler.frame_outcome]); nothing empties the queue, so every stream
      stops at 9501 messages ([StreamHandler.queue_saturates]).
    - Findings, as examples or theorems where they can be: the concurrent
      eviction race, the silence of the jitter buffer after half a timestamp
      cycle, the panic on a dangling picture set, migrations counted twice, and
      others next to the code they concern.

    ** Not modelled

    Sockets and their listeners, the RTP and SRT sessions and adapters around
    the modelled components, HTTP handlers, the Redis registry, commands,
    logging and metrics are input, output and glue over packages that are not
    part of the repository.  The pipeline and the manager start goroutines and
    pass channels between the modelled components; only the step of
    [GopPipeline] is modelled.
    Stream integrity and monitoring are float64 scores and reports.  Of the
    helpers of parameter sets, the prober, the fallback strategies and the
    per-stream registry are not modelled, nor is recovery/frame_recovery.go. *)

From Stdlib Require Export ZArith Lia Bool.
From stdpp Require Export base tactics option list gmap.
#[global] Open Scope Z_scope.

(** ** Outcomes of Go code

    [Ret a] is a normal return, [Panic] a Go run-time panic (index or slice
    out of range, integer division by zero) and [NoFuel] an exhausted loop
    bound of the model, which every component shows to be unreachable. *)
Inductive res (A : Type) : Type :=
| Ret (a : A)
| Panic
| NoFuel.
Arguments Ret {A} a.
Arguments Panic {A}.
Arguments NoFuel {A}.

#[export] Instance res_ret : MRet res := fun _ a => Ret a.
#[export] Instance res_bind : MBind res := fun _ _ f m =>
  match m with Ret a => f a | Panic => Panic | NoFuel => NoFuel end.

#[export] Instance res_eq_dec {A} `{EqDecision A} : EqDecision (res A).
Proof. solve_decision. Defined.

Lemma bind_Ret {A B} (a : A) (f : A -> res B) : (Ret a ≫= f) = f a.
Proof. reflexivity. Qed.

Lemma bind_Ret_inv {A B} (m : res A) (f : A -> res B) (b : B) :
  (m ≫= f) = Ret b -> exists a, m = Ret a /\ f a = Ret b.
Proof. destruct m; simpl; [eauto | discriminate | discriminate]. Qed.

(** Go's [(value, error)] results where the value is unused on error. *)
Inductive exn (E A : Type) : Type :=
| Val (a : A)
| Err (e : E).
Arguments Val {E A} a.
Arguments Err {E A} e.

#[export] Instance exn_eq_dec {E A} `{EqDecision E, EqDecision A} : EqDecision (exn E A).
Proof. solve_decision. Defined.

(** Methods that change a receiver of type [S], may panic and may fail with
    an [E]: the receiver is returned on the error path too, because a Go
    method leaves its writes in place when it returns an error. *)
Definition method (S E A : Type) : Type := S -> res (S * exn E A).

#[export] Instance method_ret {S E} : MRet (method S E) := fun _ a s => Ret (s, Val a).
#[export] Instance method_bind {S E} : MBind (method S E) := fun _ _ f m s =>
  match m s with
  | Ret (s', Val a) => f a s'
  | Ret (s', Err e) => Ret (s', Err e)
  | Panic => Panic
  | NoFuel => NoFuel
  end.
Definition fail {S E A} (e : E) : method S E A := fun s => Ret (s, Err e).
Definition get {S E} : method S E S := fun s => Ret (s, Val s).
Definition put {S E} (s' : S) : method S E unit := fun _ => Ret (s', Val tt).
(** An expression that may panic but neither fails nor writes. *)
Definition pure_res {S E A} (r : res A) : method S E A := fun s => a ← r; Ret (s, Val a).

Lemma method_bind_Val {S E A B} (m : method S E A) (f : A -> method S E B) s s' a :
  m s = Ret (s', Val a) -> (m ≫= f) s = f a s'.
Proof. intros H. unfold mbind, method_bind. by rewrite H. Qed.
Lemma method_bind_Err {S E A B} (m : method S E A) (f : A -> method S E B) s s' e :
  m s = Ret (s', Err e) -> (m ≫= f) s = Ret (s', Err e).
Proof. intros H. unfold mbind, method_bind. by rewrite H. Qed.

(** ** Records with field update

    [Eta R] lists the projections of a record once; [r <| f := v |>] is then
    the Go assignment [r.f = v] as a functional update. *)
Class Eta (R : Type) := eta : R -> R.
Class Upd {R T : Type} (f : R -> T) := upd : T -> R -> R.
Arguments upd {R T} f {_} v r /.

Ltac solve_upd :=
  lazymatch goal with
  | |- @Upd ?R ?T ?f =>
      let e := constr:(ltac:(typeclasses eauto) : Eta R) in
      let e := eval red in e in
      let g := constr:(fun r : R => ltac:(
         let b := eval cbv beta in (e r) in
         let p := eval pattern (f r) in b in
         lazymatch p with ?g _ => exact g end)) in
      let t := eval cbv beta in (fun (v : T) (r : R) => g r v) in exact t
  end.
#[export] Hint Extern 0 (Upd _) => solve_upd : typeclass_instances.

Notation "r <| f := v |>" := (upd f v r)
  (at level 1, f at next level, left associativity, only parsing).

(** ** Machine integers

    A [w]-bit Go integer is a [Z] kept in range by the conversions below,
    which are Go's conversions and wrap-around arithmetic. *)
Definition u8 (z : Z) : Z := z mod 2 ^ 8.
Definition u16 (z : Z) : Z := z mod 2 ^ 16.
Definition u32 (z : Z) : Z := z mod 2 ^ 32.
Definition u64 (z : Z) : Z := z mod 2 ^ 64.
Definition i16 (z : Z) : Z := (z + 2 ^ 15) mod 2 ^ 16 - 2 ^ 15.
Definition i32 (z : Z) : Z := (z + 2 ^ 31) mod 2 ^ 32 - 2 ^ 31.
Definition i64 (z : Z) : Z := (z + 2 ^ 63) mod 2 ^ 64 - 2 ^ 63.

Definition min_i64 : Z := - 2 ^ 63.
Definition max_i64 : Z := 2 ^ 63 - 1.

#[global] Arguments u8 z : simpl never.
#[global] Arguments u16 z : simpl never.
#[global] Arguments u32 z : simpl never.
#[global] Arguments u64 z : simpl never.
#[global] Arguments i16 z : simpl never.
#[global] Arguments i32 z : simpl never.
#[global] Arguments i64 z : simpl never.

(** [mlia] is [lia] after unfolding the conversions and exposing the
    quotients and remainders they are made of. *)
Ltac pow_consts :=
  change (2 ^ 7) with 128 in *; change (2 ^ 8) with 256 in *;
  change (2 ^ 15) with 32768 in *; change (2 ^ 16) with 65536 in *;
  change (2 ^ 31) with 2147483648 in *; change (2 ^ 32) with 4294967296 in *;
  change (2 ^ 33) with 8589934592 in *;
  change (2 ^ 63) with 9223372036854775808 in *;
  change (2 ^ 64) with 18446744073709551616 in *.
Ltac mlia :=
  unfold u8, u16, u32, u64, i16, i32, i64, min_i64, max_i64 in *;
  pow_consts; Z.to_euclidean_division_equations; lia.

Lemma u8_range z : 0 <= u8 z < 2 ^ 8.
Proof. mlia. Qed.
Lemma u16_range z : 0 <= u16 z < 2 ^ 16.
Proof. mlia. Qed.
Lemma u32_range z : 0 <= u32 z < 2 ^ 32.
Proof. mlia. Qed.
Lemma u64_range z : 0 <= u64 z < 2 ^ 64.
Proof. mlia. Qed.
Lemma i16_range z : - 2 ^ 15 <= i16 z < 2 ^ 15.
Proof. mlia. Qed.
Lemma i64_range z : - 2 ^ 63 <= i64 z < 2 ^ 63.
Proof. mlia. Qed.
Lemma u16_id z : 0 <= z < 2 ^ 16 -> u16 z = z.
Proof. intros. by apply Z.mod_small. Qed.
Lemma u32_id z : 0 <= z < 2 ^ 32 -> u32 z = z.
Proof. intros. by apply Z.mod_small. Qed.
Lemma u64_id z : 0 <= z < 2 ^ 64 -> u64 z = z.
Proof. intros. by apply Z.mod_small. Qed.
Lemma i64_id z : - 2 ^ 63 <= z < 2 ^ 63 -> i64 z = z.
Proof. intros. unfold i64. rewrite Z.mod_small; lia. Qed.

(** *** Bit operations *)

Lemma land_ones_mod z n : 0 <= n -> Z.land z (Z.ones n) = z mod 2 ^ n.
Proof. apply Z.land_ones. Qed.
Lemma land_7F z : Z.land z 127 = z mod 128.
Proof. exact (Z.land_ones z 7 ltac:(lia)). Qed.

Lemma land_1 z : Z.land z 1 = z mod 2.
Proof. exact (Z.land_ones z 1 ltac:(lia)). Qed.

(** Joining disjoint bit ranges with [|] is addition. *)
Lemma lor_shiftl_add a b n :
  0 <= n -> 0 <= a < 2 ^ n -> Z.lor a (Z.shiftl b n) = a + b * 2 ^ n.
Proof.
  intros Hn Ha. rewrite <- Z.shiftl_mul_pow2 by done.
  assert (Z.land a (Z.shiftl b n) = 0) as Hl.
  { apply Z.bits_inj'; intros i Hi. rewrite Z.land_spec, Z.bits_0, Z.shiftl_spec by done.
    destruct (Z.ltb_spec i n).
    - rewrite (Z.testbit_neg_r b) by lia. apply andb_false_r.
    - rewrite <- (Z.mod_small a (2 ^ n)) by done. by rewrite Z.mod_pow2_bits_high by lia. }
  rewrite <- Z.lxor_lor by done. symmetry. by apply Z.add_nocarry_lxor.
Qed.

Lemma lor_shl_join x y n : 0 <= n -> 0 <= x < 2 ^ n -> Z.lor (Z.shiftl y n) x = x + y * 2 ^ n.
Proof. intros. rewrite Z.lor_comm. by apply lor_shiftl_add. Qed.

Lemma lor_128 a : 0 <= a < 128 -> Z.lor a 128 = a + 128.
Proof. intros. exact (lor_shiftl_add a 1 7 ltac:(lia) ltac:(lia)). Qed.

(** A single bit test [b & 0x80 == 0] on a byte. *)
Lemma land_80 b : 0 <= b < 256 -> Z.land b 128 = if b <? 128 then 0 else 128.
Proof.
  intros. change 128 with (2 ^ 7) at 1. apply Z.bits_inj'. intros i Hi.
  rewrite Z.land_spec, Z.pow2_bits_eqb by lia.
  destruct (Z.eqb_spec 7 i) as [<-|Hne]; rewrite ?andb_true_r, ?andb_false_r.
  - rewrite Z.testbit_eqb by lia. change (2 ^ 7) with 128.
    destruct (Z.ltb_spec b 128).
    + by rewrite Z.div_small, Z.bits_0 by lia.
    + by replace (b / 128) with 1 by (Z.to_euclidean_division_equations; lia).
  - destruct (b <? 128); [by rewrite Z.bits_0|].
    change 128 with (2 ^ 7). symmetry. by rewrite Z.pow2_bits_false by lia.
Qed.

(** ** Slices

    Go slices are lists; [len] is [len(s)] and every index is a [Z].  [idx]
    and [slice] panic where Go does.  (A Go slice expression may also reach
    into the capacity beyond the length; [slice] panics there, so a theorem
    that rules panics out holds for every capacity.) *)
Definition len {A} (l : list A) : Z := Z.of_nat (length l).

Definition idx {A} (l : list A) (i : Z) : res A :=
  if i <? 0 then Panic
  else match l !! Z.to_nat i with Some a => Ret a | None => Panic end.

(** [s\[i\] = a] *)
Definition set_idx {A} (l : list A) (i : Z) (a : A) : res (list A) :=
  if (i <? 0) || (len l <=? i) then Panic else Ret (<[Z.to_nat i := a]> l).

(** [take]/[drop] at a [Z] offset, for expressions already known in range. *)
Definition takeZ {A} (n : Z) (l : list A) : list A := take (Z.to_nat n) l.
Definition dropZ {A} (n : Z) (l : list A) : list A := drop (Z.to_nat n) l.

(** [s\[lo:hi\]] *)
Definition slice {A} (l : list A) (lo hi : Z) : res (list A) :=
  if (0 <=? lo) && (lo <=? hi) && (hi <=? len l)
  then Ret (takeZ (hi - lo) (dropZ lo l)) else Panic.

(** [copy(dst\[at:at+len src\], src)] into a buffer that has the room. *)
Definition blit {A} (dst : list A) (at_ : Z) (src : list A) : list A :=
  takeZ at_ dst ++ src ++ dropZ (at_ + len src) dst.

(** [make(\[\]byte, n)], integer [%] and [/], and [copy(dst\[at:\], src)]. *)
Definition make_bytes (n : Z) : res (list Z) :=
  if n <? 0 then Panic else Ret (replicate (Z.to_nat n) 0).
Definition go_rem (a b : Z) : res Z := if b =? 0 then Panic else Ret (Z.rem a b).
Definition go_quot (a b : Z) : res Z := if b =? 0 then Panic else Ret (i64 (Z.quot a b)).
Definition copy_at {A} (dst : list A) (at_ : Z) (src : list A) : res (list A) :=
  if (at_ <? 0) || (len dst <? at_) then Panic
  else Ret (blit dst at_ (takeZ (len dst - at_) src)).

Section slices.
Context {A : Type}.
Implicit Types (l k : list A) (i n : Z).

Lemma len_nonneg l : 0 <= len l.
Proof. unfold len; lia. Qed.
Lemma len_nil : len (@nil A) = 0.
Proof. reflexivity. Qed.
Lemma len_cons x l : len (x :: l) = 1 + len l.
Proof. unfold len; simpl; lia. Qed.
Lemma len_cons_lt1 x l : (len (x :: l) <? 1) = false.
Proof. rewrite len_cons. pose proof (len_nonneg l). lia. Qed.
Lemma len_cons_eq0 x l : (len (x :: l) =? 0) = false.
Proof. rewrite len_cons. pose proof (len_nonneg l). lia. Qed.
Lemma len_app l k : len (l ++ k) = len l + len k.
Proof. unfold len; rewrite length_app; lia. Qed.
Lemma len_takeZ n l : 0 <= n <= len l -> len (takeZ n l) = n.
Proof. unfold len, takeZ; intros; rewrite length_take; lia. Qed.
Lemma len_dropZ n l : 0 <= n <= len l -> len (dropZ n l) = len l - n.
Proof. unfold len, dropZ; intros; rewrite length_drop; lia. Qed.
Lemma len_0_nil l : len l = 0 -> l = [].
Proof. destruct l; [done | rewrite len_cons; pose proof (len_nonneg l); lia]. Qed.

Lemma takeZ_dropZ n l : takeZ n l ++ dropZ n l = l.
Proof. apply take_drop. Qed.
Lemma takeZ_all n l : len l <= n -> takeZ n l = l.
Proof. unfold takeZ, len; intros; apply take_ge; lia. Qed.
Lemma takeZ_0 n l : n <= 0 -> takeZ n l = [].
Proof. unfold takeZ; intros. by replace (Z.to_nat n) with 0%nat by lia. Qed.
Lemma dropZ_0 n l : n <= 0 -> dropZ n l = l.
Proof. unfold dropZ; intros. by replace (Z.to_nat n) with 0%nat by lia. Qed.
Lemma dropZ_all n l : len l <= n -> dropZ n l = [].
Proof. unfold dropZ, len; intros; apply drop_ge; lia. Qed.
Lemma takeZ_app_le n l k : n <= len l -> takeZ n (l ++ k) = takeZ n l.
Proof. unfold takeZ, len; intros; apply take_app_le; lia. Qed.
Lemma takeZ_app_ge n l k : len l <= n -> takeZ n (l ++ k) = l ++ takeZ (n - len l) k.
Proof.
  unfold takeZ, len; intros. rewrite take_app_ge by lia. do 2 f_equal. lia.
Qed.
Lemma dropZ_app_le n l k : n <= len l -> dropZ n (l ++ k) = dropZ n l ++ k.
Proof. unfold dropZ, len; intros; apply drop_app_le; lia. Qed.
Lemma dropZ_app_ge n l k : len l <= n -> dropZ n (l ++ k) = dropZ (n - len l) k.
Proof.
  unfold dropZ, len; intros. rewrite drop_app_ge by lia. f_equal. lia.
Qed.
Lemma dropZ_dropZ n m l : 0 <= n -> 0 <= m -> dropZ m (dropZ n l) = dropZ (n + m) l.
Proof. unfold dropZ; intros; rewrite drop_drop; f_equal; lia. Qed.

Lemma idx_Ret l i : 0 <= i < len l -> exists a, idx l i = Ret a /\ l !! Z.to_nat i = Some a.
Proof.
  unfold idx, len; intros. destruct (Z.ltb_spec i 0); [lia|].
  destruct (lookup_lt_is_Some_2 l (Z.to_nat i)) as [a Ha]; [lia|].
  rewrite Ha; eauto.
Qed.
Lemma slice_Ret l lo hi :
  0 <= lo <= hi -> hi <= len l -> slice l lo hi = Ret (takeZ (hi - lo) (dropZ lo l)).
Proof.
  unfold slice; intros.
  by rewrite (proj2 (Z.leb_le 0 lo)), (proj2 (Z.leb_le lo hi)), (proj2 (Z.leb_le hi _)) by lia.
Qed.
Lemma len_blit (dst : list A) n (src : list A) :
  0 <= n -> n + len src <= len dst -> len (blit dst n src) = len dst.
Proof.
  intros. unfold blit. pose proof (len_nonneg src).
  rewrite !len_app, len_takeZ, len_dropZ; lia.
Qed.
Lemma copy_at_Ret (dst : list A) n (src : list A) :
  0 <= n -> n + len src <= len dst -> copy_at dst n src = Ret (blit dst n src).
Proof.
  intros. pose proof (len_nonneg src). unfold copy_at.
  rewrite (proj2 (Z.ltb_ge n 0)), (proj2 (Z.ltb_ge (len dst) n)), takeZ_all by lia. done.
Qed.
Lemma copy_at_trunc (dst : list A) n (src : list A) :
  0 <= n <= len dst -> copy_at dst n src = Ret (blit dst n (takeZ (len dst - n) src)).
Proof.
  intros. unfold copy_at. by rewrite (proj2 (Z.ltb_ge n 0)), (proj2 (Z.ltb_ge (len dst) n)) by lia.
Qed.
Lemma blit_app_tail (pre : list A) (suf src : list A) :
  len src <= len suf -> blit (pre ++ suf) (len pre) src = (pre ++ src) ++ dropZ (len src) suf.
Proof.
  intros. pose proof (len_nonneg src). unfold blit.
  rewrite takeZ_app_le, takeZ_all, dropZ_app_ge by lia.
  rewrite <- app_assoc. do 3 f_equal. lia.
Qed.
End slices.

Lemma make_bytes_Ret n : 0 <= n -> make_bytes n = Ret (replicate (Z.to_nat n) 0).
Proof. intros. unfold make_bytes. by rewrite (proj2 (Z.ltb_ge n 0)) by lia. Qed.
Lemma len_replicate {A} n (x : A) : 0 <= n -> len (replicate (Z.to_nat n) x) = n.
Proof. intros. unfold len. rewrite length_replicate. lia. Qed.
Lemma go_rem_Ret a b : 0 <= a -> 0 < b -> go_rem a b = Ret (a mod b).
Proof.
  intros. unfold go_rem. rewrite (proj2 (Z.eqb_neq b 0)) by lia. by rewrite Z.rem_mod_nonneg by lia.
Qed.
Lemma go_quot_Ret a b : - 2 ^ 63 <= a < 2 ^ 63 -> 0 < b -> go_quot a b = Ret (Z.quot a b).
Proof.
  intros. unfold go_quot. rewrite (proj2 (Z.eqb_neq b 0)), i64_id; [done| |lia].
  pose proof (Z.quot_le_upper_bound (Z.abs a) b (Z.abs a) ltac:(lia) ltac:(nia)).
  destruct (Z.abs_spec a) as [[? E]|[? E]]; rewrite E in *.
  - pose proof (Z.quot_pos a b ltac:(lia) ltac:(lia)). lia.
  - rewrite Z.quot_opp_l in * by lia. pose proof (Z.quot_pos (- a) b ltac:(lia) ltac:(lia)) as Hq.
    rewrite Z.quot_opp_l in Hq by lia. lia.
Qed.
Lemma go_quot_neg_div a b : 0 <= a <= 2 ^ 63 -> 0 < b -> go_quot (- a) b = Ret (- (a / b)).
Proof. intros. rewrite go_quot_Ret by lia. by rewrite Z.quot_opp_l, Z.quot_div_nonneg by lia. Qed.

#[global] Arguments len {A} l : simpl never.
#[global] Arguments idx {A} l i : simpl never.
#[global] Arguments set_idx {A} l i a : simpl never.
#[global] Arguments takeZ {A} n l : simpl never.
#[global] Arguments dropZ {A} n l : simpl never.
#[global] Arguments slice {A} l lo hi : simpl never.
#[global] Arguments blit {A} dst at_ src : simpl never.
#[global] Arguments make_bytes n : simpl never.
#[global] Arguments go_rem a b : simpl never.
#[global] Arguments go_quot a b : simpl never.
#[global] Arguments copy_at {A} dst at_ src : simpl never.

Lemma slice_tail {A} (pre l : list A) n : n = len pre -> slice (pre ++ l) n (len (pre ++ l)) = Ret l.
Proof.
  intros ->. pose proof (len_nonneg pre). pose proof (len_nonneg l). rewrite len_app, slice_Ret by (rewrite ?len_app; lia).
  rewrite dropZ_app_ge, Z.sub_diag, dropZ_0, takeZ_all by lia. done.
Qed.
Lemma idx_tail {A} (pre l : list A) i : 0 <= i -> idx (pre ++ l) (len pre + i) = idx l i.
Proof.
  intros Hi. pose proof (len_nonneg pre). unfold idx. rewrite (proj2 (Z.ltb_ge (len pre + i) 0)), (proj2 (Z.ltb_ge i 0)) by lia.
  rewrite lookup_app_r by (unfold len; lia). unfold len. by replace (Z.to_nat (_ + i) - length pre)%nat with (Z.to_nat i) by lia.
Qed.
Lemma idx_tail0 {A} (pre l : list A) : idx (pre ++ l) (len pre) = idx l 0.
Proof. rewrite <- (Z.add_0_r (len pre)). by apply idx_tail. Qed.

Create HintDb mirror discriminated.
Create Rewrite HintDb mirror.
#[export] Hint Rewrite @len_nil @len_cons @len_app : mirror.
#[export] Hint Resolve len_nonneg u16_range u32_range u64_range : mirror.

(** [case_bool] splits on the condition of the first [if] of the goal and
    leaves its propositional reading in the context. *)
Ltac case_bool :=
  match goal with
  | |- context [if ?c then _ else _] =>
      lazymatch c with
      | ?a <? ?b => destruct (Z.ltb_spec a b)
      | ?a <=? ?b => destruct (Z.leb_spec a b)
      | ?a =? ?b => destruct (Z.eqb_spec a b)
      | _ => destruct c eqn:?
      end
  end.

(** [zbool] turns boolean integer tests among the hypotheses into [Prop]. *)
Ltac zbool :=
  repeat match goal with
  | H : (_ && _) = true |- _ => apply andb_true_iff in H as [? ?]
  | H : (_ || _) = false |- _ => apply orb_false_iff in H as [? ?]
  | H : negb _ = true |- _ => apply negb_true_iff in H
  | H : negb _ = false |- _ => apply negb_false_iff in H
  | H : (_ <? _) = true |- _ => apply Z.ltb_lt in H
  | H : (_ <? _) = false |- _ => apply Z.ltb_ge in H
  | H : (_ <=? _) = true |- _ => apply Z.leb_le in H
  | H : (_ <=? _) = false |- _ => apply Z.leb_gt in H
  | H : (_ =? _) = true |- _ => apply Z.eqb_eq in H
  | H : (_ =? _) = false |- _ => apply Z.eqb_neq in H
  end.

(** ** Bytes *)
Definition is_byte (b : Z) : Prop := 0 <= b < 256.

(** A statement about all bytes is checked by running through them. *)
Lemma byte_forall (P : Z -> bool) :
  forallb (fun n => P (Z.of_nat n)) (seq 0 256) = true -> forall b, is_byte b -> P b = true.
Proof.
  intros H b [H0 H1]. rewrite forallb_forall in H. specialize (H (Z.to_nat b)).
  rewrite Z2Nat.id in H by lia. apply H. apply in_seq. lia.
Qed.

(** ** Time

    A [time.Time] is a number of nanoseconds since the zero time, which is
    [0]; a [time.Duration] is a signed 64-bit number of nanoseconds and
    [time_sub] saturates as [Time.Sub] does. *)
Definition millisecond : Z := 1000000.
Definition second : Z := 1000000000.
Definition zero_time : Z := 0.
Definition is_zero_time (t : Z) : bool := t =? 0.
Definition time_sub (t u : Z) : Z := Z.max min_i64 (Z.min max_i64 (t - u)).

(** A closed decidable goal, by evaluating its decision. *)
Ltac decide_goal := match goal with |- ?P => refine (bool_decide_unpack P _); vm_compute; exact I end.
