(* ===== verification/Returns.v ===== *)
(** * Code that returns

    [returns m P]: the Go expression [m] returns normally, with a value of which
    [P] holds.  The parsers' totality proofs are runs of [go], which takes one
    step of the code and leaves the bounds of its indices to [lia]. *)

From S2P Require Import Prelude.

Definition returns {A} (m : res A) (P : A -> Prop) : Prop := exists a, m = Ret a /\ P a.

Lemma returns_Ret {A} (a : A) (P : A -> Prop) : P a -> returns (Ret a) P.
Proof. intros. by exists a. Qed.
Lemma returns_bind {A B} (m : res A) (f : A -> res B) (P : A -> Prop) (Q : B -> Prop) :
  returns m P -> (forall a, P a -> returns (f a) Q) -> returns (m ≫= f) Q.
Proof. intros (a & -> & Ha) Hf. rewrite bind_Ret. auto. Qed.
Lemma returns_weaken {A} (m : res A) (P Q : A -> Prop) :
  returns m P -> (forall a, P a -> Q a) -> returns m Q.
Proof. intros (a & -> & Ha) HQ. exists a. auto. Qed.
Lemma returns_inv {A} (a : A) (P : A -> Prop) : returns (Ret a) P -> P a.
Proof. intros (b & Hb & HP). by injection Hb as <-. Qed.

Abbreviation bytes := (Forall is_byte).

Lemma bytes_takeZ n l : bytes l -> bytes (takeZ n l).
Proof. apply Forall_take. Qed.
Lemma bytes_dropZ n l : bytes l -> bytes (dropZ n l).
Proof. apply Forall_drop. Qed.
Lemma bytes_app l k : bytes l -> bytes k -> bytes (l ++ k).
Proof. intros. by apply Forall_app. Qed.

Lemma returns_idx (l : list Z) i : bytes l -> 0 <= i < len l -> returns (idx l i) is_byte.
Proof.
  intros Hl Hi. destruct (idx_Ret l i Hi) as (b & -> & Hb). exists b. split; [done|].
  rewrite Forall_forall in Hl. apply Hl. by eapply list_elem_of_lookup_2.
Qed.
Lemma returns_slice (l : list Z) lo hi :
  bytes l -> 0 <= lo <= hi -> hi <= len l -> returns (slice l lo hi) (fun k => bytes k /\ len k = hi - lo).
Proof.
  intros Hl Hlo Hhi. rewrite slice_Ret by done. apply returns_Ret.
  split; [by apply bytes_takeZ, bytes_dropZ|]. rewrite len_takeZ; [done|]. rewrite len_dropZ; lia.
Qed.

Lemma shiftl_nonneg a n : 0 <= a -> 0 <= Z.shiftl a n.
Proof. apply Z.shiftl_nonneg. Qed.
Lemma lor_nonneg a b : 0 <= a -> 0 <= b -> 0 <= Z.lor a b.
Proof. intros. by apply Z.lor_nonneg. Qed.
Lemma land_bound a m : 0 <= m -> 0 <= Z.land a m <= m.
Proof.
  intros Hm. split; [apply Z.land_nonneg; by right|].
  destruct (Z.eq_dec m 0) as [->|Hne]; [by rewrite Z.land_0_r|].
  apply Z.ldiff_le; [done|]. apply Z.bits_inj'. intros n Hn.
  rewrite Z.ldiff_spec, Z.land_spec, Z.bits_0. by destruct (Z.testbit a n), (Z.testbit m n).
Qed.

(** One step of the code at the head of a [returns] goal. *)
Ltac go :=
  lazymatch goal with
  | |- returns (Ret _) _ => apply returns_Ret
  | |- returns (idx _ _ ≫= _) _ =>
      eapply returns_bind; [apply returns_idx; [solve [eauto using bytes_takeZ, bytes_dropZ, bytes_app]|]
                           |let b := fresh "b" in let H := fresh "Hb" in intros b H; cbv beta]
  | |- returns (slice _ _ _ ≫= _) _ =>
      eapply returns_bind; [apply returns_slice; [solve [eauto using bytes_takeZ, bytes_dropZ, bytes_app]| |]
                           |let k := fresh "k" in let H := fresh "Hk" in let H' := fresh "Hlen" in
                            intros k [H H']; cbv beta]
  | |- returns (Ret _ ≫= _) _ => rewrite bind_Ret; cbv beta iota
  | |- returns (if ?c then _ else _) _ =>
      lazymatch c with
      | ?a <? ?b => destruct (Z.ltb_spec a b)
      | ?a <=? ?b => destruct (Z.leb_spec a b)
      | ?a =? ?b => destruct (Z.eqb_spec a b)
      | _ => let H := fresh "Hif" in destruct c eqn:H
      end
  | |- returns (let _ := _ in _) _ => cbv zeta
  end.
