(* ===== verification/Rbsp.v ===== *)
(** * Emulation prevention in NAL units (types/rbsp.go)

    Removal and insertion of the 0x03 emulation prevention bytes of H.264
    Annex B, the validator of raw payloads and the comparison of two
    payloads.  The loops walk the byte slice from the left with the number of
    zero bytes just seen, as the Go loops do. *)

From S2P Require Import Prelude.

Inductive rbsp_error : Type :=
| EmptyNALUnitData
| NALUnitTooShort
| InvalidRBSP (b offset : Z)
| RemoveFailed (e : rbsp_error).

#[export] Instance rbsp_error_eq_dec : EqDecision rbsp_error.
Proof. solve_decision. Defined.

(** ** Operations *)

(** The zero counter after a byte that is kept. *)
Definition count_zero (zeroCount b : Z) : Z := if b =? 0 then zeroCount + 1 else 0.

Fixpoint remove_loop (zeroCount : Z) (data : list Z) : list Z :=
  match data with
  | [] => []
  | b :: rest =>
      let keep := b :: remove_loop (count_zero zeroCount b) rest in
      if (2 <=? zeroCount) && (b =? 3) then
        match rest with
        | next :: _ => if next <=? 3 then remove_loop 0 rest else keep
        | [] => remove_loop 0 rest
        end
      else keep
  end.

Definition RemoveEmulationPreventionBytes (data : list Z) : exn rbsp_error (list Z) :=
  if len data <? 1 then Err EmptyNALUnitData else Val (remove_loop 0 data).

Fixpoint add_loop (zeroCount : Z) (data : list Z) : list Z :=
  match data with
  | [] => []
  | b :: rest =>
      if (2 <=? zeroCount) && (b <=? 3)
      then 3 :: b :: add_loop (if b =? 0 then 1 else 0) rest
      else b :: add_loop (count_zero zeroCount b) rest
  end.

Definition AddEmulationPreventionBytes (data : list Z) : list Z :=
  if len data <? 1 then data else add_loop 0 data.

Fixpoint validate_loop (zeroCount i : Z) (data : list Z) : option rbsp_error :=
  match data with
  | [] => None
  | b :: rest =>
      if (2 <=? zeroCount) && (b <=? 3) then Some (InvalidRBSP b (i - 2))
      else validate_loop (count_zero zeroCount b) (i + 1) rest
  end.

Definition ValidateRBSP (data : list Z) : option rbsp_error := validate_loop 0 0 data.

Definition ExtractRBSPFromNALUnit (nalUnit : list Z) : exn rbsp_error (list Z) :=
  if len nalUnit <? 1 then Err NALUnitTooShort
  else
    let rbspData := dropZ 1 nalUnit in
    if len rbspData =? 0 then Val []
    else match RemoveEmulationPreventionBytes rbspData with
         | Err e => Err (RemoveFailed e)
         | Val sodb => Val sodb
         end.

Definition ExtractRBSPFromPayload (payload : list Z) : exn rbsp_error (list Z) :=
  if len payload =? 0 then Val []
  else match RemoveEmulationPreventionBytes payload with
       | Err e => Err (RemoveFailed e)
       | Val sodb => Val sodb
       end.

(** [for lastNonZero >= 0 && data\[lastNonZero\] == 0 { lastNonZero-- }], on
    the bytes from the end: the index reached, from [n] bytes. *)
Fixpoint last_non_zero (rev_data : list Z) (lastNonZero : Z) : Z :=
  match rev_data with
  | [] => lastNonZero
  | b :: rest => if b =? 0 then last_non_zero rest (lastNonZero - 1) else lastNonZero
  end.

(** [for stopBitPos >= 0 && lastByte & (1 << stopBitPos) == 0 { stopBitPos-- }] *)
Fixpoint stop_bit_pos (fuel : nat) (lastByte stopBitPos : Z) : Z :=
  match fuel with
  | O => stopBitPos
  | S fuel =>
      if (0 <=? stopBitPos) && (Z.land lastByte (Z.shiftl 1 stopBitPos) =? 0)
      then stop_bit_pos fuel lastByte (stopBitPos - 1) else stopBitPos
  end.

Definition removeTrailingBytes (data : list Z) : res (list Z) :=
  if len data =? 0 then Ret data
  else
    let lastNonZero := last_non_zero (rev data) (len data - 1) in
    if lastNonZero <? 0 then Ret []
    else
      lastByte ← idx data lastNonZero;
      let stopBitPos := stop_bit_pos 9 lastByte 7 in
      if stopBitPos <? 0 then slice data 0 (lastNonZero + 1)
      else if stopBitPos =? 7 then slice data 0 lastNonZero
      else slice data 0 (lastNonZero + 1).

Definition CompareRBSP (a b : list Z) : bool :=
  if (len a =? 0) && (len b =? 0) then true
  else if (len a =? 0) || (len b =? 0) then false
  else match RemoveEmulationPreventionBytes a with
       | Err _ => false
       | Val aClean =>
           match RemoveEmulationPreventionBytes b with
           | Err _ => false
           | Val bClean => bool_decide (aClean = bClean)
           end
       end.

(** ** Lemmas *)

(** An emulation pattern at offset [i]: two zero bytes followed by a byte of
    at most [m]. *)
Definition pattern_at (m : Z) (l : list Z) (i : nat) (x : Z) : Prop :=
  l !! i = Some 0 /\ l !! S i = Some 0 /\ l !! S (S i) = Some x /\ x <= m.

(** [clean m zc l]: no emulation pattern in [l] preceded by [zc] zeros. *)
Fixpoint clean (m zc : Z) (l : list Z) : Prop :=
  match l with
  | [] => True
  | b :: r => ~ (2 <= zc /\ b <= m) /\ clean m (count_zero zc b) r
  end.

Lemma count_zero_nonneg zc b : 0 <= zc -> 0 <= count_zero zc b.
Proof. unfold count_zero. case_bool; lia. Qed.
#[local] Hint Resolve count_zero_nonneg : mirror.

Lemma remove_add_loop zc data : remove_loop zc (add_loop zc data) = data.
Proof.
  revert zc; induction data as [|b r IH]; intros zc; [done|]. simpl.
  destruct ((2 <=? zc) && (b <=? 3)) eqn:Hc.
  - zbool. simpl. rewrite (proj2 (Z.leb_le 2 zc)), (proj2 (Z.leb_le b 3)) by done. simpl.
    rewrite IH. unfold count_zero. by destruct (b =? 0).
  - simpl. destruct ((2 <=? zc) && (b =? 3)) eqn:Hc'; [|by rewrite IH].
    zbool. subst b. simpl in *. apply andb_false_iff in Hc as [?|?]; zbool; lia.
Qed.

Lemma clean_add_loop zc data : clean 2 zc (add_loop zc data).
Proof.
  revert zc; induction data as [|b r IH]; intros zc; simpl; [done|].
  destruct ((2 <=? zc) && (b <=? 3)) eqn:Hc; simpl.
  - change (count_zero zc 3) with 0. split; [lia|]. split; [lia|].
    replace (count_zero 0 b) with (if b =? 0 then 1 else 0)
      by (unfold count_zero; by destruct (b =? 0)). apply IH.
  - split; [|apply IH]. apply andb_false_iff in Hc as [?|?]; zbool; lia.
Qed.

Lemma clean_pattern m zc l : 0 <= zc -> clean m zc l -> forall i x, ~ pattern_at m l i x.
Proof.
  revert zc; induction l as [|b r IH]; intros zc Hz Hcl i x (H0 & H1 & H2 & Hx); [done|].
  destruct Hcl as [_ Hcl]. destruct i as [|i].
  - simpl in *. simplify_eq. destruct r as [|b r]; [done|]. simpl in *. simplify_eq.
    destruct r as [|b r]; [done|]. simpl in *. simplify_eq.
    destruct Hcl as (_ & Hn & _). apply Hn. cbn. lia.
  - apply (IH (count_zero zc b) (count_zero_nonneg _ _ Hz) Hcl i x).
    unfold pattern_at. eauto.
Qed.

Lemma pattern_clean m zc l :
  0 <= zc -> (forall i x, ~ pattern_at m (replicate (Z.to_nat (Z.min zc 2)) 0 ++ l) i x) ->
  clean m zc l.
Proof.
  revert zc; induction l as [|b r IH]; intros zc Hz Hp; simpl; [done|]. split.
  - intros [Hzc Hb]. apply (Hp 0%nat b).
    replace (Z.min zc 2) with 2 by lia. done.
  - apply IH; [auto with mirror|]. intros i x Hpat. unfold count_zero in Hpat.
    destruct (Z.eqb_spec b 0) as [->|Hb].
    + destruct (decide (2 <= zc)).
      * apply (Hp (S i) x). by replace (Z.min zc 2) with 2 by lia; replace (Z.min (zc+1) 2) with 2 in Hpat by lia.
      * apply (Hp i x). replace (Z.min (zc + 1) 2) with (zc + 1) in Hpat by lia.
        replace (Z.min zc 2) with zc by lia.
        replace (Z.to_nat (zc + 1)) with (Z.to_nat zc + 1)%nat in Hpat by lia.
        by rewrite replicate_add, <- app_assoc in Hpat.
    + apply (Hp (Z.to_nat (Z.min zc 2) + S i)%nat x).
      destruct Hpat as (H0 & H1 & H2 & Hx). simpl in *.
      split_and!; [| | |done];
        (rewrite lookup_app_r by (rewrite length_replicate; lia); rewrite length_replicate).
      * by replace (_ - _)%nat with (S i) by lia.
      * by replace (_ - _)%nat with (S (S i)) by lia.
      * by replace (_ - _)%nat with (S (S (S i))) by lia.
Qed.

Lemma remove_loop_clean zc l : clean 3 zc l -> remove_loop zc l = l.
Proof.
  revert zc; induction l as [|b r IH]; intros zc Hc; [done|]. destruct Hc as [Hn Hc]. simpl.
  rewrite (IH (count_zero zc b)) by done. destruct ((2 <=? zc) && (b =? 3)) eqn:E; [|done].
  zbool. exfalso. lia.
Qed.

Lemma validate_loop_clean zc i l : validate_loop zc i l = None <-> clean 3 zc l.
Proof.
  revert zc i; induction l as [|b r IH]; intros zc i; simpl; [done|].
  destruct ((2 <=? zc) && (b <=? 3)) eqn:E.
  - zbool. split; [done | intros [? _]; lia].
  - rewrite IH. apply andb_false_iff in E. split; [|by intros [_ ?]].
    intros Hc. split; [|done]. destruct E; zbool; lia.
Qed.

Lemma len_add_loop zc data :
  0 <= zc ->
  len data <= len (add_loop zc data) /\
  2 * len (add_loop zc data) <= 3 * len data + Z.min zc 2.
Proof.
  revert zc; induction data as [|b r IH]; intros zc Hz; simpl.
  { autorewrite with mirror. lia. }
  destruct ((2 <=? zc) && (b <=? 3)) eqn:E.
  - zbool. autorewrite with mirror.
    destruct (IH (if b =? 0 then 1 else 0)); [by destruct (b =? 0)|].
    destruct (b =? 0); lia.
  - autorewrite with mirror. destruct (IH (count_zero zc b)); [auto with mirror|].
    unfold count_zero in *. destruct (b =? 0); lia.
Qed.

Lemma add_is_loop data : AddEmulationPreventionBytes data = add_loop 0 data.
Proof.
  unfold AddEmulationPreventionBytes. destruct data; [done|]. by rewrite len_cons_lt1.
Qed.

Lemma remove_is_loop data :
  data <> [] -> RemoveEmulationPreventionBytes data = Val (remove_loop 0 data).
Proof.
  unfold RemoveEmulationPreventionBytes. destruct data; [done|].
  by rewrite len_cons_lt1.
Qed.

Lemma add_loop_nonempty zc data : data <> [] -> add_loop zc data <> [].
Proof. destruct data as [|b r]; simpl; [done|]. by destruct ((2 <=? zc) && (b <=? 3)). Qed.

(** The offset a validation error carries is that of the first pattern. *)
Lemma validate_loop_Some zc i l e :
  validate_loop zc i l = Some e ->
  exists pre b post, l = pre ++ b :: post /\ clean 3 zc pre /\ b <= 3 /\
    e = InvalidRBSP b (i + len pre - 2).
Proof.
  revert zc i; induction l as [|b r IH]; intros zc i; simpl; [done|].
  destruct ((2 <=? zc) && (b <=? 3)) eqn:E; intros He.
  - zbool. simplify_eq. exists [], b, r. split_and!; [done|done|done|].
    autorewrite with mirror. f_equal. lia.
  - destruct (IH _ _ He) as (pre & b' & post & -> & Hcl & Hb' & ->).
    exists (b :: pre), b', post. split_and!; [done| |done|].
    + split; [|done]. apply andb_false_iff in E as [?|?]; zbool; lia.
    + autorewrite with mirror. f_equal. lia.
Qed.

Lemma removeTrailingBytes_total data : exists out, removeTrailingBytes data = Ret out.
Proof.
  unfold removeTrailingBytes. destruct (Z.eqb_spec (len data) 0); [eauto|].
  assert (forall l n, n - len l <= last_non_zero l n <= n) as Hlast.
  { induction l as [|b l IH]; intros n'; simpl; [rewrite len_nil; lia|].
    rewrite len_cons. pose proof (len_nonneg l).
    case_bool; [specialize (IH (n' - 1)); lia|lia]. }
  specialize (Hlast (rev data) (len data - 1)).
  assert (len (rev data) = len data) by (unfold len; by rewrite length_rev).
  case_bool; [eauto|].
  destruct (idx_Ret data (last_non_zero (rev data) (len data - 1))) as (b & -> & _); [lia|].
  rewrite bind_Ret. repeat case_bool; (rewrite slice_Ret; [eauto|lia|lia]).
Qed.

(** A final byte whose top bit is set is dropped whole: the scan from bit 7
    finds the highest set bit, while the stop bit is the lowest one. *)
Lemma removeTrailingBytes_drops_payload : removeTrailingBytes [64; 255] = Ret [64].
Proof. reflexivity. Qed.

(** ** Properties *)

(** for every non-empty payload, removing the emulation prevention bytes
    from the output of the insertion gives the payload back, so comparing two
    escaped payloads with CompareRBSP is equality of the payloads. *)
Theorem remove_add_roundtrip (data other : list Z) :
  data <> [] ->
  RemoveEmulationPreventionBytes (AddEmulationPreventionBytes data) = Val data /\
  (CompareRBSP (AddEmulationPreventionBytes data) (AddEmulationPreventionBytes other) = true
   <-> data = other).
Proof.
  intros Hd. rewrite !add_is_loop. pose proof (add_loop_nonempty 0 data Hd) as Hd'.
  rewrite remove_is_loop, remove_add_loop by done. split; [done|].
  unfold CompareRBSP. destruct (add_loop 0 data) as [|d ds] eqn:Ed; [done|].
  rewrite len_cons_eq0. simpl.
  destruct other as [|o os]; [simpl; by split; [|intros ->]|].
  pose proof (add_loop_nonempty 0 (o :: os) ltac:(done)) as Ho'.
  destruct (add_loop 0 (o :: os)) as [|p ps] eqn:Eo; [done|].
  rewrite len_cons_eq0, !remove_is_loop by done.
  rewrite <- Ed, <- Eo, !remove_add_loop. apply bool_decide_eq_true.
Qed.

Lemma remove_add_roundtrip_witness :
  RemoveEmulationPreventionBytes (AddEmulationPreventionBytes [0; 0; 0; 0; 0; 3; 7]) =
    Val [0; 0; 0; 0; 0; 3; 7] /\
  AddEmulationPreventionBytes [0; 0; 0; 0; 0; 3; 7] = [0; 0; 3; 0; 0; 3; 0; 3; 7].
Proof.
  split; [|reflexivity].
  exact (proj1 (remove_add_roundtrip [0; 0; 0; 0; 0; 3; 7] [] ltac:(discriminate))).
Defined.

(** the output of AddEmulationPreventionBytes holds no start code prefix
    (two zero bytes followed by 0x00, 0x01 or 0x02) at any offset, is at
    least as long as the input and at most half as long again: the capacity
    [len(data)*3/2] the code allocates is never exceeded. *)
Theorem add_start_code_free (data : list Z) :
  (forall i x, ~ pattern_at 2 (AddEmulationPreventionBytes data) i x) /\
  len data <= len (AddEmulationPreventionBytes data) <= len data * 3 / 2.
Proof.
  rewrite add_is_loop. split.
  - apply (clean_pattern 2 0); [lia|apply clean_add_loop].
  - destruct (len_add_loop 0 data) as [H1 H2]; [lia|]. split; [done|].
    apply Z.div_le_lower_bound; lia.
Qed.

(** ValidateRBSP accepts exactly the payloads without an emulation pattern
    (two zeros and a byte up to 0x03), and what it accepts is left unchanged
    by the removal; what it rejects it reports at the first pattern, with
    everything before that byte acceptable. *)
Theorem validate_exact (data : list Z) :
  (ValidateRBSP data = None <-> forall i x, ~ pattern_at 3 data i x) /\
  (ValidateRBSP data = None -> data <> [] -> RemoveEmulationPreventionBytes data = Val data) /\
  (forall e, ValidateRBSP data = Some e -> exists pre b post,
     data = pre ++ b :: post /\ ValidateRBSP pre = None /\ b <= 3 /\
     e = InvalidRBSP b (len pre - 2)).
Proof.
  unfold ValidateRBSP. split_and!.
  - rewrite validate_loop_clean. split; [apply clean_pattern; lia|].
    intros H. apply pattern_clean; [lia|done].
  - intros Hv Hd. rewrite remove_is_loop by done.
    by rewrite remove_loop_clean by by eapply validate_loop_clean.
  - intros e (pre & b & post & -> & Hc & Hb & ->)%validate_loop_Some.
    exists pre, b, post. split_and!; [done|by apply validate_loop_clean|done|done].
Qed.

Lemma validate_exact_witness :
  ValidateRBSP [9; 0; 0; 7] = None /\ RemoveEmulationPreventionBytes [9; 0; 0; 7] = Val [9; 0; 0; 7].
Proof.
  split; [reflexivity|].
  exact (proj1 (proj2 (validate_exact [9; 0; 0; 7])) eq_refl ltac:(discriminate)).
Defined.
