(* ===== verification/Leb128.v ===== *)
(** * Unsigned LEB128 (security/leb128.go, security/limits.go)

    The bounded decoder over a slice, the same decoder over an [io.Reader],
    the encoder and the size function. *)

From S2P Require Import Prelude.

Definition MaxLEB128Bytes : Z := 10.

Inductive leb_error : Type :=
| ErrLEB128Overflow
| ErrLEB128TooManyBytes
| ErrLEB128Incomplete
| ReaderEOF
| ReaderError.

#[export] Instance leb_error_eq_dec : EqDecision leb_error.
Proof. solve_decision. Defined.

(** [(value, bytesRead, err)] *)
Definition leb_result : Type := Z * Z * option leb_error.

(** ** Operations *)

(** One turn of the decoding loop on the byte [b], after [bytesRead++]:
    either the function returns, or the loop goes on with a new value and
    shift. *)
Definition leb_byte (b value shift bytesRead : Z) : leb_result + Z * Z :=
  if 64 <=? shift then inl (0, bytesRead, Some ErrLEB128Overflow)
  else
    let lowBits := u64 (Z.land b 127) in
    if (shift =? 63) && (1 <? lowBits) then inl (0, bytesRead, Some ErrLEB128Overflow)
    else if (63 <? shift) && negb (lowBits =? 0) then inl (0, bytesRead, Some ErrLEB128Overflow)
    else
      let value' := Z.lor value (u64 (Z.shiftl lowBits shift)) in
      let shift' := shift + 7 in
      if Z.land b 128 =? 0 then inl (value', bytesRead, None) else inr (value', shift').

(** [for bytesRead < len(data) && bytesRead < MaxLEB128Bytes], on the bytes
    of [data] not read yet. *)
Fixpoint read_loop (data : list Z) (value shift bytesRead : Z) : leb_result :=
  let after := if MaxLEB128Bytes <=? bytesRead
               then (0, bytesRead, Some ErrLEB128TooManyBytes)
               else (0, bytesRead, Some ErrLEB128Incomplete) in
  match data with
  | [] => after
  | b :: rest =>
      if bytesRead <? MaxLEB128Bytes then
        match leb_byte b value shift (bytesRead + 1) with
        | inl r => r
        | inr (value', shift') => read_loop rest value' shift' (bytesRead + 1)
        end
      else after
  end.

Definition ReadLEB128 (data : list Z) : leb_result :=
  if len data =? 0 then (0, 0, Some ErrLEB128Incomplete) else read_loop data 0 0 0.

(** What one [r.Read(buf)] on a one-byte buffer returns: [n], the byte left in
    the buffer and the error.  An exhausted reader returns [0, io.EOF]. *)
Inductive read_event : Type :=
| ReadOk (n b : Z)
| ReadFail (n b : Z) (eof : bool).

Definition next_event (r : list read_event) : read_event * list read_event :=
  match r with [] => (ReadFail 0 0 true, []) | e :: r' => (e, r') end.

(** [for bytesRead < MaxLEB128Bytes]; [fuel] bounds the remaining turns. *)
Fixpoint reader_loop (fuel : nat) (r : list read_event) (value shift bytesRead : Z)
    : res (leb_result * list read_event) :=
  if bytesRead <? MaxLEB128Bytes then
    match fuel with
    | O => NoFuel
    | S fuel =>
        let '(e, r') := next_event r in
        match e with
        | ReadFail _ _ eof =>
            if eof && (0 <? bytesRead) then Ret ((0, bytesRead, Some ErrLEB128Incomplete), r')
            else Ret ((0, bytesRead, Some (if eof then ReaderEOF else ReaderError)), r')
        | ReadOk n b =>
            if n =? 0 then Ret ((0, bytesRead, Some ErrLEB128Incomplete), r')
            else
              match leb_byte b value shift (bytesRead + 1) with
              | inl x => Ret (x, r')
              | inr (value', shift') => reader_loop fuel r' value' shift' (bytesRead + 1)
              end
        end
    end
  else Ret ((0, bytesRead, Some ErrLEB128TooManyBytes), r).

Definition ReadLEB128FromReader (r : list read_event) : res (leb_result * list read_event) :=
  reader_loop 10 r 0 0 0.

(** [for { ... }] of the encoder; every turn shifts [value] right by 7. *)
Fixpoint write_loop (fuel : nat) (value : Z) : res (list Z) :=
  match fuel with
  | O => NoFuel
  | S fuel =>
      let b := u8 (Z.land value 127) in
      let value := Z.shiftr value 7 in
      let b := if negb (value =? 0) then Z.lor b 128 else b in
      if value =? 0 then Ret [b]
      else rest ← write_loop fuel value; Ret (b :: rest)
  end.

Definition WriteLEB128 (value : Z) : res (list Z) := write_loop 10 value.

Fixpoint size_loop (fuel : nat) (value size : Z) : res Z :=
  if value =? 0 then Ret size
  else match fuel with
       | O => NoFuel
       | S fuel => size_loop fuel (Z.shiftr value 7) (size + 1)
       end.

Definition LEB128Size (value : Z) : res Z := size_loop 9 (Z.shiftr value 7) 1.

(** ** Specification *)

(** The number a little-endian base-128 byte string stands for. *)
Fixpoint leb_value (l : list Z) : Z :=
  match l with [] => 0 | b :: r => b mod 128 + 128 * leb_value r end.

(** The length of the longest prefix of continuation bytes. *)
Fixpoint cont_prefix (l : list Z) : Z :=
  match l with [] => 0 | b :: r => if b <? 128 then 0 else 1 + cont_prefix r end.

(** What the format and the limit of ten bytes prescribe, read off the whole
    input at once. *)
Definition leb_spec (data : list Z) : leb_result :=
  let k := cont_prefix data in
  let tenth := default 0 (data !! 9%nat) mod 128 in
  if (9 <=? k) && (10 <=? len data) && (1 <? tenth) then (0, 10, Some ErrLEB128Overflow)
  else if 10 <=? k then (0, 10, Some ErrLEB128TooManyBytes)
  else if k <? len data then (leb_value (takeZ (k + 1) data), k + 1, None)
  else (0, len data, Some ErrLEB128Incomplete).

(** ** Lemmas *)

Lemma cont_prefix_bound l : 0 <= cont_prefix l <= len l.
Proof.
  induction l as [|b r IH]; simpl; [rewrite (@len_nil Z); cbn; lia|]. rewrite len_cons.
  pose proof (len_nonneg r). case_bool; lia.
Qed.

Lemma leb_value_bound l : 0 <= leb_value l < 2 ^ (7 * len l).
Proof.
  induction l as [|b r IH]; [rewrite (@len_nil Z); cbn; lia|]. rewrite len_cons. cbn [leb_value].
  replace (7 * (1 + len r)) with (7 * len r + 7) by lia.
  rewrite Z.pow_add_r by (pose proof (len_nonneg r); lia). change (2 ^ 7) with 128.
  pose proof (Z.mod_pos_bound b 128). lia.
Qed.

Lemma leb_value_app l k : leb_value (l ++ k) = leb_value l + 2 ^ (7 * len l) * leb_value k.
Proof.
  induction l as [|b r IH]; [cbn [app leb_value]; rewrite (@len_nil Z), Z.mul_0_r, Z.pow_0_r; lia|].
  cbn [app leb_value]. rewrite IH, len_cons.
  replace (7 * (1 + len r)) with (7 + 7 * len r) by lia.
  rewrite Z.pow_add_r by (pose proof (len_nonneg r); lia). change (2 ^ 7) with 128. lia.
Qed.

Lemma cont_prefix_app pre l :
  Forall (fun b => 128 <= b) pre -> cont_prefix (pre ++ l) = len pre + cont_prefix l.
Proof.
  induction 1 as [|b r Hb _ IH]; [done|]. simpl. rewrite IH, len_cons.
  case_bool; lia.
Qed.

(** A non-final byte at [shift = 7 * n] adds its seven bits above the value. *)
Lemma leb_byte_step b pre :
  is_byte b -> len pre < 10 ->
  leb_byte b (leb_value pre) (7 * len pre) (len pre + 1) =
  if (len pre =? 9) && (1 <? b mod 128) then inl (0, 10, Some ErrLEB128Overflow)
  else if b <? 128 then inl (leb_value (pre ++ [b]), len pre + 1, None)
  else inr (leb_value (pre ++ [b]), 7 * len (pre ++ [b])).
Proof.
  intros Hb Hn. pose proof (len_nonneg pre) as H0. unfold leb_byte.
  rewrite (proj2 (Z.leb_gt 64 _)) by lia. rewrite land_7F.
  pose proof (Z.mod_pos_bound b 128 ltac:(lia)) as Hlow.
  rewrite (u64_id (b mod 128)) by lia.
  replace (7 * len pre =? 63) with (len pre =? 9) by lia.
  destruct ((len pre =? 9) && (1 <? b mod 128)) eqn:E9.
  { zbool. by replace (len pre + 1) with 10 by lia. }
  rewrite (proj2 (Z.ltb_ge 63 _)) by lia. simpl negb. cbn [andb].
  assert (b mod 128 * 2 ^ (7 * len pre) < 2 ^ 64) as Hsmall.
  { apply andb_false_iff in E9 as [E9|E9]; zbool.
    - apply Z.le_lt_trans with (127 * 2 ^ 56); [|done].
      apply Z.mul_le_mono_nonneg; [lia|lia|by apply Z.pow_nonneg|apply Z.pow_le_mono_r; lia].
    - apply Z.le_lt_trans with (1 * 2 ^ 63); [|done].
      apply Z.mul_le_mono_nonneg; [lia|lia|by apply Z.pow_nonneg|apply Z.pow_le_mono_r; lia]. }
  pose proof (leb_value_bound pre) as Hv.
  rewrite u64_id by (rewrite Z.shiftl_mul_pow2 by lia; split; [apply Z.mul_nonneg_nonneg; [lia|by apply Z.pow_nonneg]|done]).
  rewrite lor_shiftl_add, land_80 by (done || lia).
  rewrite leb_value_app. cbn [leb_value].
  replace (b mod 128 + 128 * 0) with (b mod 128) by lia.
  replace (2 ^ (7 * len pre) * (b mod 128)) with (b mod 128 * 2 ^ (7 * len pre)) by lia.
  destruct (b <? 128); simpl; [done|]. autorewrite with mirror. do 2 f_equal. lia.
Qed.

Definition tenth_ok (pre : list Z) : Prop := len pre = 10 -> default 0 (pre !! 9%nat) mod 128 <= 1.

Lemma leb_read_loop_spec rest pre :
  Forall is_byte rest -> Forall (fun b => 128 <= b) pre -> len pre <= 10 -> tenth_ok pre ->
  read_loop rest (leb_value pre) (7 * len pre) (len pre) = leb_spec (pre ++ rest).
Proof.
  revert pre. induction rest as [|b rest IH]; intros pre Hby Hpre Hlen Hten.
  - unfold leb_spec. rewrite app_nil_r.
    assert (cont_prefix pre = len pre) as Hk
      by (rewrite <- (app_nil_r pre) at 1; rewrite cont_prefix_app by done; simpl; lia).
    rewrite Hk, (Z.ltb_irrefl (len pre)). cbn [read_loop]. unfold MaxLEB128Bytes.
    destruct (Z.leb_spec 10 (len pre)) as [H10|H10].
    + rewrite (proj2 (Z.ltb_ge 1 _)) by (apply Hten; lia). rewrite andb_false_r.
      by replace (len pre) with 10 by lia.
    + by rewrite andb_false_r.
  - inversion_clear Hby as [|? ? Hb Hrest]. cbn [read_loop]. unfold MaxLEB128Bytes.
    assert (Htenth : len pre = 9 -> (pre ++ b :: rest) !! 9%nat = Some b).
    { unfold len; intros. rewrite lookup_app_r by lia.
      by replace (9 - length pre)%nat with 0%nat by lia. }
    destruct (Z.ltb_spec (len pre) 10) as [Hlt|Hge].
    + rewrite leb_byte_step by done.
      destruct ((len pre =? 9) && (1 <? b mod 128)) eqn:E9.
      { zbool. unfold leb_spec. rewrite cont_prefix_app by done. rewrite Htenth by done. simpl default.
        pose proof (cont_prefix_bound (b :: rest)). pose proof (len_nonneg rest).
        autorewrite with mirror.
        by rewrite !(proj2 (Z.leb_le _ _)), (proj2 (Z.ltb_lt 1 _)) by lia. }
      destruct (Z.ltb_spec b 128) as [Hfin|Hcont].
      * unfold leb_spec. rewrite cont_prefix_app by done. simpl cont_prefix.
        rewrite (proj2 (Z.ltb_lt b 128)), Z.add_0_r by lia.
        assert ((9 <=? len pre) && (10 <=? len (pre ++ b :: rest)) &&
                (1 <? default 0 ((pre ++ b :: rest) !! 9%nat) mod 128) = false) as ->.
        { destruct (Z.eqb_spec (len pre) 9) as [H9|H9].
          - rewrite Htenth by done. simpl in *. rewrite E9. apply andb_false_r.
          - by rewrite (proj2 (Z.leb_gt 9 _)) by lia. }
        rewrite (proj2 (Z.leb_gt 10 _)) by lia. pose proof (len_nonneg rest).
        rewrite (proj2 (Z.ltb_lt _ _)) by (autorewrite with mirror; lia).
        rewrite takeZ_app_ge by lia. by replace (len pre + 1 - len pre) with 1 by lia.
      * replace (len pre + 1) with (len (pre ++ [b])) by (autorewrite with mirror; lia).
        rewrite IH; [by rewrite <- app_assoc|done|by apply Forall_app_2; [|constructor]| |].
        -- autorewrite with mirror. lia.
        -- unfold tenth_ok. autorewrite with mirror. intros H10.
           replace ((pre ++ [b]) !! 9%nat) with (Some b)
             by (symmetry; unfold len in *; rewrite lookup_app_r by lia;
                 by replace (9 - length pre)%nat with 0%nat by lia).
           simpl. rewrite (proj2 (Z.eqb_eq (len pre) 9)) in E9 by lia. simpl in E9. zbool. lia.
    + unfold leb_spec. rewrite cont_prefix_app by done.
      pose proof (cont_prefix_bound (b :: rest)).
      assert (default 0 ((pre ++ b :: rest) !! 9%nat) mod 128 <= 1).
      { rewrite lookup_app_l by (unfold len in *; lia). apply Hten. lia. }
      rewrite (proj2 (Z.ltb_ge 1 _)), andb_false_r by done.
      rewrite !(proj2 (Z.leb_le _ _)) by lia. by replace (len pre) with 10 by lia.
Qed.

Lemma ReadLEB128_is_spec data : Forall is_byte data -> ReadLEB128 data = leb_spec data.
Proof.
  intros H. unfold ReadLEB128. destruct (Z.eqb_spec (len data) 0) as [H0|H0].
  - by rewrite (len_0_nil _ H0).
  - apply (leb_read_loop_spec data []); [done|constructor|by rewrite (@len_nil Z)|by unfold tenth_ok].
Qed.

(** *** The encoder *)

(** What the encoder guarantees of its output [l] for [v]. *)
Definition encodes (v : Z) (l : list Z) : Prop :=
  leb_value l = v /\ cont_prefix l = len l - 1 /\ Forall is_byte l /\ 1 <= len l /\
  (len l = 1 \/ 2 ^ (7 * (len l - 1)) <= v).

Lemma encoded_byte v : 0 <= v -> u8 (Z.land v 127) = v mod 128.
Proof. intros. rewrite land_7F. mlia. Qed.

Lemma write_loop_encodes n v :
  0 <= v < 2 ^ (7 * Z.of_nat n) -> (n <> 0)%nat ->
  exists l, write_loop n v = Ret l /\ encodes v l /\ len l <= Z.of_nat n.
Proof.
  revert v. induction n as [|n IH]; intros v Hv Hn; [done|]. cbn [write_loop].
  rewrite encoded_byte by lia. pose proof (Z.mod_pos_bound v 128 ltac:(lia)) as Hm.
  rewrite Z.shiftr_div_pow2 by lia. change (2 ^ 7) with 128.
  pose proof (Z.div_mod v 128 ltac:(lia)) as Hdm.
  destruct (Z.eqb_spec (v / 128) 0) as [H0|H0]; simpl negb; cbv iota.
  - exists [v mod 128]. split; [done|]. unfold encodes, is_byte. rewrite len_cons, (@len_nil Z).
    split_and!; [cbn; rewrite Z.mod_mod; lia|cbn; by rewrite (proj2 (Z.ltb_lt _ _)) by lia|
      constructor; [lia|constructor]|lia|lia|lia].
  - assert (0 <= v / 128) by (apply Z.div_pos; lia).
    destruct (IH (v / 128)) as (l & -> & (Hl & Hk & Hb & H1 & Hmin) & Hlen).
    { split; [done|]. apply Z.div_lt_upper_bound; [lia|].
      replace (7 * Z.of_nat (S n)) with (7 + 7 * Z.of_nat n) in Hv by lia.
      rewrite Z.pow_add_r in Hv by lia. change (2 ^ 7) with 128 in Hv. lia. }
    { intros ->. change (7 * Z.of_nat 1) with 7 in Hv. apply H0, Z.div_small. lia. }
    rewrite bind_Ret. eexists; split; [reflexivity|].
    rewrite lor_128 by lia.
    unfold encodes, is_byte in *. rewrite len_cons. split_and!; [| | |lia| |lia].
    + cbn [leb_value]. rewrite Hl. replace (v mod 128 + 128) with (v mod 128 + 1 * 128) by lia.
      rewrite Z.mod_add, Z.mod_mod; lia.
    + cbn [cont_prefix]. rewrite (proj2 (Z.ltb_ge _ _)) by lia. lia.
    + constructor; [lia|done].
    + right. replace (7 * (1 + len l - 1)) with (7 + 7 * (len l - 1)) by lia.
      rewrite Z.pow_add_r by lia. change (2 ^ 7) with 128.
      destruct Hmin as [->|Hmin]; [change (2 ^ (7 * (1 - 1))) with 1; lia|lia].
Qed.

Lemma size_loop_write n v l s :
  0 <= v -> write_loop (S n) v = Ret l -> size_loop n (Z.shiftr v 7) s = Ret (s + len l - 1).
Proof.
  revert v l s. induction n as [|n IH]; intros v l s Hv; cbn [write_loop size_loop];
    (destruct (Z.eqb_spec (Z.shiftr v 7) 0) as [H0|H0]; intros Hw;
      [simplify_eq/=; rewrite len_cons, (@len_nil Z); f_equal; lia|]).
  - done.
  - apply bind_Ret_inv in Hw as (rest & Hr & [= <-]).
    rewrite (IH (Z.shiftr v 7) rest) by (done || by apply Z.shiftr_nonneg).
    rewrite len_cons. f_equal. lia.
Qed.

Lemma WriteLEB128_encodes v :
  0 <= v < 2 ^ 64 ->
  exists l, WriteLEB128 v = Ret l /\ encodes v l /\ len l <= 10 /\ LEB128Size v = Ret (len l).
Proof.
  intros Hv. destruct (write_loop_encodes 10 v) as (l & Hw & He & Hl); [|done|].
  { split; [lia|]. apply Z.lt_trans with (2 ^ 64); [lia|done]. }
  exists l. split_and!; [done|done|done|].
  unfold LEB128Size. rewrite (size_loop_write 9 v l 1) by (done || lia). f_equal. lia.
Qed.

(** The tenth byte of an encoding of a 64-bit number carries one bit. *)
Lemma tenth_bit l :
  len l = 10 -> (leb_value l < 2 ^ 64 <-> default 0 (l !! 9%nat) mod 128 <= 1).
Proof.
  intros H. destruct (idx_Ret l 9) as (x & _ & Hx); [lia|]. change (Z.to_nat 9) with 9%nat in Hx.
  rewrite Hx. simpl default.
  assert (l = takeZ 9 l ++ [x]) as ->.
  { rewrite <- (takeZ_dropZ 9 l) at 1. f_equal. unfold takeZ, dropZ, len in *.
    change (Z.to_nat 9) with 9%nat. rewrite (drop_S l x 9) by done.
    by rewrite drop_ge by lia. }
  rewrite leb_value_app. pose proof (leb_value_bound (takeZ 9 l)) as Hb.
  rewrite len_takeZ in * by lia. cbn [leb_value].
  change (2 ^ (7 * 9)) with (2 ^ 63) in *. pose proof (Z.mod_pos_bound x 128 ltac:(lia)).
  pow_consts. split; lia.
Qed.

Lemma leb_spec_encoded v l rest :
  encodes v l -> len l <= 10 -> v < 2 ^ 64 -> leb_spec (l ++ rest) = (v, len l, None).
Proof.
  intros (Hv & Hk & Hb & H1 & _) Hl Hlt. unfold leb_spec.
  assert (cont_prefix (l ++ rest) = len l - 1) as ->.
  { clear -Hk H1. revert Hk H1. induction l as [|b l IH]; [rewrite (@len_nil Z); lia|].
    cbn [cont_prefix app]. rewrite len_cons. case_bool; [lia|]. intros Hk _.
    destruct l; [rewrite (@len_nil Z) in *; simpl in *; lia|]. rewrite IH; rewrite len_cons in *;
      pose proof (len_nonneg l); lia. }
  pose proof (len_nonneg rest) as Hr. rewrite len_app.
  assert ((9 <=? len l - 1) && (10 <=? len l + len rest) &&
          (1 <? default 0 ((l ++ rest) !! 9%nat) mod 128) = false) as ->.
  { destruct (decide (len l = 10)) as [H10|]; [|by rewrite (proj2 (Z.leb_gt 9 _)) by lia].
    rewrite lookup_app_l by (unfold len in *; lia).
    rewrite (proj2 (Z.ltb_ge 1 _)), andb_false_r; [done|]. apply tenth_bit; lia. }
  rewrite (proj2 (Z.leb_gt 10 _)), (proj2 (Z.ltb_lt _ _)) by lia.
  replace (len l - 1 + 1) with (len l) by lia.
  rewrite takeZ_app_le, takeZ_all by lia. by rewrite Hv.
Qed.

(** A successful decoding: what was read and that it fits 64 bits. *)
Lemma leb_spec_ok data v n :
  leb_spec data = (v, n, None) ->
  v = leb_value (takeZ n data) /\ 1 <= n <= len data /\ n <= 10 /\ 0 <= v < 2 ^ 64 /\
  cont_prefix data = n - 1.
Proof.
  unfold leb_spec. pose proof (cont_prefix_bound data) as Hk.
  destruct (_ && (1 <? _)) eqn:Eo; [done|]. case_bool; [done|]. case_bool; [|done].
  intros [= <- <-]. split_and!; try lia.
  - apply leb_value_bound.
  - destruct (decide (cont_prefix data = 9)) as [H9|H9].
    + apply tenth_bit; [rewrite len_takeZ by lia; lia|].
      unfold takeZ. rewrite lookup_take_lt by lia.
      rewrite (proj2 (Z.leb_le 9 _)), (proj2 (Z.leb_le 10 _)) in Eo by lia. simpl in Eo. by zbool.
    + eapply Z.lt_le_trans; [apply leb_value_bound|]. apply Z.pow_le_mono_r; [lia|].
      rewrite len_takeZ by lia. lia.
Qed.

(** *** The reader variant *)

Lemma leb_byte_count b v s n r : leb_byte b v s n = inl r -> r.1.2 = n.
Proof. unfold leb_byte. intros H. repeat case_match; by simplify_eq. Qed.

Lemma read_loop_count rest v s n : n <= (read_loop rest v s n).1.2.
Proof.
  revert v s n. induction rest as [|b r IH]; intros v s n; cbn [read_loop]; unfold MaxLEB128Bytes.
  - case_bool; simpl; lia.
  - case_bool; [|case_bool; simpl; lia]. destruct (leb_byte b v s (n + 1)) as [x|[v' s']] eqn:E.
    + rewrite (leb_byte_count _ _ _ _ _ E). lia.
    + specialize (IH v' s' (n + 1)). lia.
Qed.

Lemma reader_loop_slice fuel rest v s n :
  0 <= n <= 10 -> 10 - n <= Z.of_nat fuel -> (0 < n \/ rest <> []) ->
  reader_loop fuel (map (ReadOk 1) rest) v s n =
  Ret (read_loop rest v s n, map (ReadOk 1) (dropZ ((read_loop rest v s n).1.2 - n) rest)).
Proof.
  revert rest v s n. induction fuel as [|fuel IH]; intros rest v s n Hn Hf Hr;
    cbn [reader_loop]; unfold MaxLEB128Bytes.
  - replace n with 10 by lia. by destruct rest.
  - destruct (Z.ltb_spec n 10) as [Hlt|Hge].
    + destruct rest as [|b rest]; cbn [map next_event read_loop]; unfold MaxLEB128Bytes.
      * destruct Hr as [Hr|Hr]; [|done]. rewrite (proj2 (Z.ltb_lt 0 n)), (proj2 (Z.leb_gt 10 n)) by lia.
        by rewrite dropZ_0 by (simpl; lia).
      * rewrite (proj2 (Z.ltb_lt n 10)) by lia. change (1 =? 0) with false. cbv iota.
        destruct (leb_byte b v s (n + 1)) as [x|[v' s']] eqn:E.
        { rewrite (leb_byte_count _ _ _ _ _ E). by replace (n + 1 - n) with 1 by lia. }
        rewrite IH by lia. pose proof (read_loop_count rest v' s' (n + 1)).
        do 3 f_equal. unfold dropZ. by replace (Z.to_nat ((read_loop rest v' s' (n + 1)).1.2 - n))
          with (S (Z.to_nat ((read_loop rest v' s' (n + 1)).1.2 - (n + 1)))) by lia.
    + replace n with 10 by lia. by destruct rest.
Qed.

(** A reader that hands over its last byte together with [io.EOF], as
    [io.Reader] allows, loses that byte. *)
Lemma reader_drops_byte_with_eof :
  ReadLEB128FromReader [ReadFail 1 5 true] = Ret ((0, 0, Some ReaderEOF), []) /\
  ReadLEB128 [5] = (5, 1, None).
Proof. done. Qed.

(** ** Properties *)

(** WriteLEB128 terminates on every uint64 with between one and ten bytes,
    LEB128Size is the length of its output, and ReadLEB128 reads the value
    back from it, consuming exactly those bytes, whatever follows them. *)
Theorem write_read_roundtrip (v : Z) (rest : list Z) :
  0 <= v < 2 ^ 64 -> Forall is_byte rest ->
  exists l, WriteLEB128 v = Ret l /\ LEB128Size v = Ret (len l) /\ 1 <= len l <= 10 /\
    Forall is_byte l /\ ReadLEB128 (l ++ rest) = (v, len l, None).
Proof.
  intros Hv Hr. destruct (WriteLEB128_encodes v Hv) as (l & Hw & He & Hl & Hs).
  pose proof He as (_ & _ & Hb & H1 & _). exists l. split_and!; try done.
  rewrite ReadLEB128_is_spec by by apply Forall_app_2. apply leb_spec_encoded; [done|done|lia].
Qed.

Lemma write_read_roundtrip_witness :
  exists l, WriteLEB128 (2 ^ 64 - 1) = Ret l /\ LEB128Size (2 ^ 64 - 1) = Ret (len l) /\
    1 <= len l <= 10 /\ Forall is_byte l /\ ReadLEB128 (l ++ [7]) = (2 ^ 64 - 1, len l, None).
Proof.
  apply (write_read_roundtrip (2 ^ 64 - 1) [7]);
    [lia | constructor; [unfold is_byte; lia|constructor]].
Defined.

(** on every byte slice the bounded decoding loop returns what the format
    prescribes for the slice as a whole: the base-128 value and length of the
    terminated prefix, overflow when the tenth byte carries more than the one
    bit left, too-many-bytes when the first ten bytes all continue, and
    incomplete when the input ends first.  On success the value fits a
    uint64, at most ten bytes were read, and no shorter encoding exists than
    LEB128Size says. *)
Theorem ReadLEB128_correct (data : list Z) :
  Forall is_byte data ->
  ReadLEB128 data = leb_spec data /\
  (forall v n, ReadLEB128 data = (v, n, None) ->
     v = leb_value (takeZ n data) /\ 0 <= v < 2 ^ 64 /\ 1 <= n <= 10 /\ n <= len data /\
     exists m, LEB128Size v = Ret m /\ m <= n).
Proof.
  intros Hb. rewrite ReadLEB128_is_spec by done. split; [done|]. intros v n Hok.
  destruct (leb_spec_ok data v n Hok) as (Hv & Hn & H10 & H64 & _).
  split_and!; try (done || lia).
  destruct (WriteLEB128_encodes v H64) as (l & _ & (_ & _ & _ & H1 & Hmin) & _ & Hs).
  exists (len l). split; [done|]. destruct Hmin as [->|Hmin]; [lia|].
  destruct (Z.le_gt_cases (len l) n) as [|Hgt]; [done|exfalso].
  pose proof (leb_value_bound (takeZ n data)) as Hub. rewrite <- Hv, len_takeZ in Hub by lia.
  assert (2 ^ (7 * n) <= 2 ^ (7 * (len l - 1))) by (apply Z.pow_le_mono_r; lia). lia.
Qed.

Lemma ReadLEB128_correct_witness :
  ReadLEB128 [229; 142; 38; 255] = (624485, 3, None) /\
  ReadLEB128 [229; 142; 38; 255] = leb_spec [229; 142; 38; 255].
Proof.
  split; [reflexivity|].
  apply (ReadLEB128_correct [229; 142; 38; 255]).
  repeat (constructor; [unfold is_byte; lia|]). constructor.
Defined.

(** Reading from an io.Reader that delivers the bytes of a non-empty slice
    one per call and then io.EOF gives the result of decoding the slice and
    leaves exactly the bytes after it unread. *)
Theorem reader_equiv (data : list Z) :
  data <> [] ->
  ReadLEB128FromReader (map (ReadOk 1) data) =
    Ret (ReadLEB128 data, map (ReadOk 1) (dropZ (ReadLEB128 data).1.2 data)).
Proof.
  intros Hd. unfold ReadLEB128FromReader, ReadLEB128.
  destruct data as [|b r]; [done|]. rewrite len_cons_eq0.
  rewrite reader_loop_slice by (done || lia || by right). by rewrite Z.sub_0_r.
Qed.

Lemma reader_equiv_witness :
  ReadLEB128FromReader (map (ReadOk 1) [129; 1; 9]) = Ret ((129, 2, None), [ReadOk 1 9]).
Proof. exact (reader_equiv [129; 1; 9] ltac:(discriminate)). Defined.
