(* ===== verification/BitReader.v ===== *)
(** * Bit reader and Exp-Golomb codes (resolution/golomb.go)

    The reader keeps a byte position and a bit position inside that byte; its
    abstract state is the list of bits not read yet. *)

From S2P Require Import Prelude.

Record BitReader := mkBitReader { data : list Z; bitPos : Z; bytePos : Z }.
#[export] Instance eta_BitReader : Eta BitReader := fun r =>
  mkBitReader (data r) (bitPos r) (bytePos r).

Inductive bit_error : Type :=
| EndOfData
| InvalidBitCount (n : Z)
| NotEnoughBits (need have : Z)
| TooManyLeadingZeros.

Abbreviation reader A := (method BitReader bit_error A).

(** ** Operations *)

Definition NewBitReader (d : list Z) : BitReader := mkBitReader d 0 0.

(** [b >> n] on a byte: a negative shift count panics. *)
Definition shr_byte (b n : Z) : res Z := if n <? 0 then Panic else Ret (Z.shiftr b n).

Definition ReadBit : reader Z := fun br =>
  if len (data br) <=? bytePos br then Ret (br, Err EndOfData)
  else
    byte ← idx (data br) (bytePos br);
    shifted ← shr_byte byte (7 - bitPos br);
    let bit := Z.land shifted 1 in
    let br := br <| bitPos := bitPos br + 1 |> in
    let br := if bitPos br =? 8
              then br <| bitPos := 0 |> <| bytePos := bytePos br + 1 |> else br in
    Ret (br, Val (u32 bit)).

(** [for i := 0; i < n; i++ { result = (result << 1) | bit }] *)
Fixpoint read_bits_loop (n : nat) (result : Z) : reader Z :=
  match n with
  | O => mret result
  | S n => bit ← ReadBit; read_bits_loop n (Z.lor (u32 (Z.shiftl result 1)) bit)
  end.

Definition totalBitsAvailable (br : BitReader) : Z :=
  (len (data br) - bytePos br) * 8 - bitPos br.

Definition ReadBits (n : Z) : reader Z := fun br =>
  if (32 <? n) || (n <? 0) then Ret (br, Err (InvalidBitCount n))
  else if totalBitsAvailable br <? n then Ret (br, Err (NotEnoughBits n (totalBitsAvailable br)))
  else read_bits_loop (Z.to_nat n) 0 br.

(** The prefix loop of ReadUE: it stops at a one bit, at an error or when
    [leadingZeros] passes 31. *)
Fixpoint leading_zeros_loop (fuel : nat) (leadingZeros : Z) : reader Z :=
  match fuel with
  | O => fun _ => NoFuel
  | S fuel =>
      bit ← ReadBit;
      if bit =? 1 then mret leadingZeros
      else
        let leadingZeros := leadingZeros + 1 in
        if 31 <? leadingZeros then fail TooManyLeadingZeros
        else leading_zeros_loop fuel leadingZeros
  end.

Definition ReadUE : reader Z :=
  leadingZeros ← leading_zeros_loop 33 0;
  if leadingZeros =? 0 then mret 0
  else
    suffix ← ReadBits leadingZeros;
    mret (u32 (u32 (Z.shiftl 1 leadingZeros) - 1 + suffix)).

Definition ReadSE : reader Z :=
  ue ← ReadUE;
  if ue mod 2 =? 0 then mret (i32 (- i32 (ue / 2)))
  else mret (i32 (u32 (ue + 1) / 2)).

Fixpoint skip_loop (n : nat) : reader unit :=
  match n with
  | O => mret tt
  | S n => _ ← ReadBit; skip_loop n
  end.

Definition SkipBits (n : Z) : reader unit := skip_loop (Z.to_nat n).

Definition BytesRemaining (br : BitReader) : Z :=
  let remaining := len (data br) - bytePos br in
  if 0 <? bitPos br then remaining - 1 else remaining.

Definition IsAligned (br : BitReader) : bool := bitPos br =? 0.

Definition AlignToByte (br : BitReader) : BitReader :=
  if negb (bitPos br =? 0)
  then br <| bitPos := 0 |> <| bytePos := bytePos br + 1 |> else br.

(** ** Specification: the bits of a byte slice and the Exp-Golomb codewords *)

(** The [k] low bits of [v], most significant first. *)
Fixpoint bits_w (k : nat) (v : Z) : list Z :=
  match k with O => [] | S k => (v / 2 ^ Z.of_nat k) mod 2 :: bits_w k v end.

Definition bits_of (d : list Z) : list Z := mjoin (map (bits_w 8) d).

Fixpoint bits_value (l : list Z) : Z :=
  match l with [] => 0 | b :: r => b * 2 ^ len r + bits_value r end.

Definition remaining (br : BitReader) : list Z :=
  dropZ (8 * bytePos br + bitPos br) (bits_of (data br)).

(** A reader between two operations. *)
Definition wf (br : BitReader) : Prop :=
  Forall is_byte (data br) /\ 0 <= bitPos br < 8 /\ 0 <= bytePos br /\
  8 * bytePos br + bitPos br <= 8 * len (data br).

(** ue(v): [k] zeros, a one and the [k] low bits of [v + 1], [k = log2 (v+1)]. *)
Definition ue_bits (v : Z) : list Z :=
  let k := Z.to_nat (Z.log2 (v + 1)) in replicate k 0 ++ 1 :: bits_w k (v + 1).

(** se(v) maps 0, 1, -1, 2, -2, ... to 0, 1, 2, 3, 4, ... *)
Definition se_code (z : Z) : Z := if z <=? 0 then - 2 * z else 2 * z - 1.

(** ** Lemmas on bit lists *)

Lemma length_bits_w k v : length (bits_w k v) = k.
Proof. induction k; simpl; lia. Qed.

Lemma len_bits_of d : len (bits_of d) = 8 * len d.
Proof.
  unfold bits_of. induction d as [|b d IH]; [done|].
  change (mjoin (map (bits_w 8) (b :: d))) with (bits_w 8 b ++ mjoin (map (bits_w 8) d)).
  rewrite len_app, IH, len_cons. unfold len at 1. rewrite length_bits_w. lia.
Qed.

Lemma bits_w_range k v : Forall (fun b => b = 0 \/ b = 1) (bits_w k v).
Proof.
  induction k; simpl; constructor; [|done].
  pose proof (Z.mod_pos_bound (v / 2 ^ Z.of_nat k) 2). lia.
Qed.

Lemma bits_of_range d : Forall (fun b => b = 0 \/ b = 1) (bits_of d).
Proof. unfold bits_of. induction d; [constructor|]. apply Forall_app_2; [apply bits_w_range|done]. Qed.

Lemma remaining_range br : Forall (fun b => b = 0 \/ b = 1) (remaining br).
Proof. apply Forall_drop, bits_of_range. Qed.

Lemma bits_value_w k v : bits_value (bits_w k v) = v mod 2 ^ Z.of_nat k.
Proof.
  induction k as [|k IH]; [by rewrite Z.mod_1_r|]. cbn [bits_w bits_value]. rewrite IH.
  unfold len. rewrite length_bits_w, Nat2Z.inj_succ, Z.pow_succ_r by lia.
  pose proof (Z.pow_pos_nonneg 2 (Z.of_nat k)). rewrite (Z.mul_comm 2), Z.rem_mul_r by lia. lia.
Qed.

Lemma bits_value_bound l : Forall (fun b => b = 0 \/ b = 1) l -> 0 <= bits_value l < 2 ^ len l.
Proof.
  induction 1 as [|b r Hb _ IH]; [done|]. cbn [bits_value]. rewrite len_cons.
  pose proof (len_nonneg r). rewrite Z.pow_add_r by lia. change (2 ^ 1) with 2. destruct Hb; subst; lia.
Qed.

Lemma bits_w_value l v :
  Forall (fun b => b = 0 \/ b = 1) l -> v mod 2 ^ len l = bits_value l -> bits_w (length l) v = l.
Proof.
  intros Hl. revert v. induction Hl as [|b r Hb Hr IH]; intros v Hv; [done|].
  cbn [bits_value bits_w length] in *. rewrite len_cons in Hv. fold (len r).
  pose proof (len_nonneg r). pose proof (bits_value_bound r Hr).
  replace (1 + len r) with (len r + 1) in Hv by lia.
  rewrite Z.pow_add_r in Hv by lia. change (2 ^ 1) with 2 in Hv.
  pose proof (Z.pow_pos_nonneg 2 (len r)). rewrite Z.rem_mul_r in Hv by lia.
  pose proof (Z.mod_pos_bound v (2 ^ len r)). pose proof (Z.mod_pos_bound (v / 2 ^ len r) 2).
  assert ((v / 2 ^ len r) mod 2 = b) as Hd by (destruct Hb; subst; nia).
  f_equal; [done|]. apply IH. nia.
Qed.

Lemma dropZ_cons_lookup {A} (l : list A) n x :
  0 <= n -> l !! Z.to_nat n = Some x -> dropZ n l = x :: dropZ (n + 1) l.
Proof.
  intros Hn Hx. unfold dropZ. rewrite (drop_S l x) by done. do 2 f_equal. lia.
Qed.

Lemma bits_of_lookup d i j b :
  d !! i = Some b -> (j < 8)%nat ->
  bits_of d !! (8 * i + j)%nat = Some ((b / 2 ^ Z.of_nat (7 - j)) mod 2).
Proof.
  unfold bits_of. revert i. induction d as [|x d IH]; intros i; [done|].
  change (mjoin (map (bits_w 8) (x :: d))) with (bits_w 8 x ++ mjoin (map (bits_w 8) d)).
  destruct i as [|i]; intros Hi Hj.
  - simplify_eq/=. do 8 (destruct j as [|j]; [done|]). lia.
  - rewrite lookup_app_r by (rewrite length_bits_w; lia). rewrite length_bits_w.
    replace (8 * S i + j - 8)%nat with (8 * i + j)%nat by lia. by apply IH.
Qed.

(** ** The operations on the abstract state *)

Lemma len_remaining br : wf br -> len (remaining br) = totalBitsAvailable br.
Proof.
  intros (_ & ? & ? & ?). unfold remaining, totalBitsAvailable.
  rewrite len_dropZ; rewrite len_bits_of; lia.
Qed.

Lemma ReadBit_nil br : wf br -> remaining br = [] -> ReadBit br = Ret (br, Err EndOfData).
Proof.
  intros Hwf Hr. pose proof (len_remaining br Hwf) as Hl. rewrite Hr in Hl.
  destruct Hwf as (_ & ? & ? & ?). unfold ReadBit, totalBitsAvailable in *.
  rewrite (@len_nil Z) in Hl. by rewrite (proj2 (Z.leb_le _ _)) by lia.
Qed.

Lemma ReadBit_cons br b rest :
  wf br -> remaining br = b :: rest ->
  exists br', ReadBit br = Ret (br', Val b) /\ wf br' /\ remaining br' = rest /\
    data br' = data br.
Proof.
  intros Hwf Hr. pose proof (len_remaining br Hwf) as Hl. rewrite Hr, len_cons in Hl.
  pose proof (len_nonneg rest). destruct Hwf as (Hby & Hb & Hp & Hle).
  unfold ReadBit, totalBitsAvailable in *. rewrite (proj2 (Z.leb_gt _ _)) by lia.
  destruct (idx_Ret (data br) (bytePos br)) as (x & -> & Hx); [lia|].
  rewrite bind_Ret. unfold shr_byte. rewrite (proj2 (Z.ltb_ge _ _)), bind_Ret by lia.
  assert (is_byte x) as Hxb by (eapply Forall_lookup_1; eauto).
  pose proof (bits_of_lookup _ _ (Z.to_nat (bitPos br)) _ Hx ltac:(lia)) as Hbit.
  replace (8 * _ + _)%nat with (Z.to_nat (8 * bytePos br + bitPos br)) in Hbit by lia.
  unfold remaining in Hr. rewrite (dropZ_cons_lookup _ (8 * bytePos br + bitPos br) _ ltac:(lia) Hbit) in Hr.
  injection Hr as Hr1 Hr2.
  replace (Z.of_nat (7 - Z.to_nat (bitPos br))) with (7 - bitPos br) in Hr1 by lia.
  rewrite Z.shiftr_div_pow2 by lia.
  rewrite land_1, Hr1.
  pose proof (Z.mod_pos_bound (x / 2 ^ (7 - bitPos br)) 2). rewrite u32_id by lia.
  eexists; split; [reflexivity|]. simpl. unfold wf, remaining.
  destruct (Z.eqb_spec (bitPos br + 1) 8); simpl; split_and!; try (done || lia); rewrite <- Hr2; f_equal; lia.
Qed.

Lemma read_bits_loop_spec n acc br l rest :
  wf br -> remaining br = l ++ rest -> length l = n ->
  0 <= acc -> acc * 2 ^ Z.of_nat n + bits_value l < 2 ^ 32 ->
  exists br', read_bits_loop n acc br = Ret (br', Val (acc * 2 ^ Z.of_nat n + bits_value l)) /\
    wf br' /\ remaining br' = rest /\ data br' = data br.
Proof.
  revert acc br l. induction n as [|n IH]; intros acc br l Hwf Hr Hl Hacc Hfit.
  - destruct l; [|done]. exists br. cbn in *. split_and!; [|done|done|done].
    unfold mret, method_ret. do 3 f_equal. lia.
  - destruct l as [|b l]; [done|]. injection Hl as Hl.
    pose proof (remaining_range br) as Hrange. rewrite Hr in Hrange.
    apply Forall_app in Hrange as [Hrange _]. inversion_clear Hrange as [|? ? Hb Hl'].
    pose proof (bits_value_bound l Hl').
    destruct (ReadBit_cons br b (l ++ rest) Hwf Hr) as (br1 & H1 & Hwf1 & Hr1 & Hd1).
    cbn [read_bits_loop]. rewrite (method_bind_Val _ _ _ _ _ H1).
    cbn [bits_value] in *. rewrite Nat2Z.inj_succ, Z.pow_succ_r in * by lia.
    replace (len l) with (Z.of_nat n) in * by (unfold len; lia).
    pose proof (Z.pow_pos_nonneg 2 (Z.of_nat n)).
    assert (u32 (Z.shiftl acc 1) = acc * 2) as ->
      by (rewrite Z.shiftl_mul_pow2 by lia; apply u32_id; change (2 ^ 1) with 2; nia).
    assert (Z.lor (acc * 2) b = acc * 2 + b) as ->.
    { rewrite Z.lor_comm. change 2 with (2 ^ 1) at 1. rewrite <- Z.shiftl_mul_pow2 by lia.
      rewrite lor_shiftl_add by lia. lia. }
    destruct (IH (acc * 2 + b) br1 l) as (br' & -> & Hwf' & Hr' & Hd'); [done|done|done|lia|nia|].
    exists br'. split_and!; [|done|done|congruence]. do 3 f_equal. ring.
Qed.

Lemma ReadBits_spec n br :
  wf br -> 0 <= n <= 32 ->
  (len (remaining br) < n -> ReadBits n br = Ret (br, Err (NotEnoughBits n (len (remaining br))))) /\
  (n <= len (remaining br) -> exists br',
    ReadBits n br = Ret (br', Val (bits_value (takeZ n (remaining br)))) /\
    wf br' /\ remaining br' = dropZ n (remaining br) /\ data br' = data br).
Proof.
  intros Hwf Hn. unfold ReadBits.
  rewrite (proj2 (Z.ltb_ge 32 n)), (proj2 (Z.ltb_ge n 0)) by lia. simpl orb. cbv iota.
  rewrite <- len_remaining by done. split; intros Hlen.
  - by rewrite (proj2 (Z.ltb_lt _ _)) by lia.
  - rewrite (proj2 (Z.ltb_ge _ _)) by lia.
    assert (length (takeZ n (remaining br)) = Z.to_nat n) as Hl
      by (pose proof (len_takeZ n (remaining br)); unfold len in *; lia).
    assert (bits_value (takeZ n (remaining br)) < 2 ^ 32).
    { eapply Z.lt_le_trans; [apply bits_value_bound; apply Forall_take, remaining_range|].
      rewrite len_takeZ by lia. apply Z.pow_le_mono_r; lia. }
    destruct (read_bits_loop_spec (Z.to_nat n) 0 br (takeZ n (remaining br)) (dropZ n (remaining br)))
      as (br' & -> & ? & ? & ?); [done|by rewrite takeZ_dropZ|done|lia|lia|]. eauto.
Qed.

Lemma skip_loop_spec n br :
  wf br -> exists br' r, skip_loop n br = Ret (br', r) /\ wf br' /\ data br' = data br /\
    if (Z.of_nat n <=? len (remaining br))
    then r = Val tt /\ remaining br' = dropZ (Z.of_nat n) (remaining br)
    else r = Err EndOfData /\ remaining br' = [].
Proof.
  revert br. induction n as [|n IH]; intros br Hwf.
  - exists br, (Val tt). rewrite (proj2 (Z.leb_le _ _)) by (simpl; apply len_nonneg).
    split_and!; done.
  - cbn [skip_loop]. destruct (remaining br) as [|b rest] eqn:Hr.
    + rewrite (method_bind_Err _ _ _ _ _ (ReadBit_nil br Hwf Hr)).
      exists br, (Err EndOfData). rewrite (@len_nil Z), (proj2 (Z.leb_gt _ _)) by lia.
      split_and!; done.
    + destruct (ReadBit_cons br b rest Hwf Hr) as (br1 & H1 & Hwf1 & Hr1 & Hd1).
      rewrite (method_bind_Val _ _ _ _ _ H1).
      destruct (IH br1 Hwf1) as (br' & r & -> & Hwf' & Hd' & Hres). exists br', r.
      rewrite Hr1 in Hres. rewrite len_cons.
      split; [done|]. split; [done|]. split; [congruence|].
      destruct (Z.leb_spec (Z.of_nat n) (len rest)) as [Hle|Hgt];
        [|by rewrite (proj2 (Z.leb_gt _ _)) by lia].
      rewrite (proj2 (Z.leb_le _ _)) by lia.
      destruct Hres as [-> Hres]. split; [done|]. rewrite Hres. unfold dropZ.
      by replace (Z.to_nat (Z.of_nat (S n))) with (S (Z.to_nat (Z.of_nat n))) by lia.
Qed.

Lemma AlignToByte_spec br :
  wf br -> wf (AlignToByte br) /\
    remaining (AlignToByte br) = dropZ ((8 - bitPos br) mod 8) (remaining br) /\
    BytesRemaining br = len (remaining br) / 8.
Proof.
  intros Hwf. pose proof (len_remaining br Hwf) as Hlen. unfold totalBitsAvailable in Hlen.
  rewrite Hlen. destruct Hwf as (Hby & Hb & Hp & Hle).
  unfold AlignToByte, remaining, wf, BytesRemaining.
  destruct (Z.eqb_spec (bitPos br) 0) as [H0|H0]; simpl.
  - rewrite H0. split_and!; [done|lia|lia|lia|lia|symmetry; by apply dropZ_0|].
    simpl. Z.to_euclidean_division_equations; lia.
  - rewrite (Z.mod_small (8 - bitPos br)) by lia.
    assert (bytePos br < len (data br)) by (Z.to_euclidean_division_equations; lia).
    rewrite dropZ_dropZ by lia.
    rewrite (proj2 (Z.ltb_lt 0 _)) by lia. split_and!; [done|lia|lia|lia|lia|f_equal; lia|].
    Z.to_euclidean_division_equations; lia.
Qed.

(** *** Exp-Golomb *)

Lemma leading_zeros_ok fuel k lz br rest :
  wf br -> remaining br = replicate k 0 ++ 1 :: rest -> 0 <= lz -> lz + Z.of_nat k <= 31 ->
  (k < fuel)%nat ->
  exists br', leading_zeros_loop fuel lz br = Ret (br', Val (lz + Z.of_nat k)) /\
    wf br' /\ remaining br' = rest /\ data br' = data br.
Proof.
  revert k lz br. induction fuel as [|fuel IH]; intros k lz br Hwf Hr H0 H31 Hf; [lia|].
  cbn [leading_zeros_loop]. destruct k as [|k].
  - destruct (ReadBit_cons br 1 rest Hwf Hr) as (br' & H1 & ? & ? & ?).
    rewrite (method_bind_Val _ _ _ _ _ H1). simpl. exists br'. split_and!; try done.
    unfold mret, method_ret. do 3 f_equal. lia.
  - destruct (ReadBit_cons br 0 _ Hwf Hr) as (br1 & H1 & Hwf1 & Hr1 & Hd1).
    rewrite (method_bind_Val _ _ _ _ _ H1). simpl. rewrite (proj2 (Z.ltb_ge 31 _)) by lia.
    destruct (IH k (lz + 1) br1) as (br' & -> & ? & ? & ?); [done|done|lia|lia|lia|].
    exists br'. split_and!; try (done || congruence). do 3 f_equal. lia.
Qed.

(** Closes the error branch of a totality statement. *)
Ltac err_case := eexists _, _; split; [reflexivity|]; split_and!; (done || congruence).

Lemma leading_zeros_total fuel lz br :
  wf br -> 0 <= lz <= 31 -> 32 - lz < Z.of_nat fuel ->
  exists br' r, leading_zeros_loop fuel lz br = Ret (br', r) /\ wf br' /\ data br' = data br /\
    (forall n, r = Val n -> lz <= n <= 31 /\
       remaining br = replicate (Z.to_nat (n - lz)) 0 ++ 1 :: remaining br').
Proof.
  revert lz br. induction fuel as [|fuel IH]; intros lz br Hwf Hlz Hf; [lia|].
  cbn [leading_zeros_loop]. destruct (remaining br) as [|b rest] eqn:Hr.
  - rewrite (method_bind_Err _ _ _ _ _ (ReadBit_nil br Hwf Hr)). err_case.
  - destruct (ReadBit_cons br b rest Hwf Hr) as (br1 & H1 & Hwf1 & Hr1 & Hd1).
    rewrite (method_bind_Val _ _ _ _ _ H1). destruct (Z.eqb_spec b 1) as [->|Hb].
    + exists br1, (Val lz). split_and!; try done. intros n [= <-].
      rewrite Z.sub_diag, Hr1. split; [lia|done].
    + pose proof (remaining_range br) as Hrange. rewrite Hr in Hrange.
      inversion_clear Hrange as [|? ? [->| ->] _]; [|done].
      destruct (Z.ltb_spec 31 (lz + 1)); [err_case|].
      destruct (IH (lz + 1) br1) as (br' & r & -> & Hwf' & Hd' & Hv); [done|lia|lia|].
      exists br', r. split_and!; try (done || congruence). intros n Hn.
      destruct (Hv n Hn) as [Hn' Hr']. split; [lia|]. rewrite <- Hr1, Hr'.
      by replace (Z.to_nat (n - lz)) with (S (Z.to_nat (n - (lz + 1)))) by lia.
Qed.

Lemma log2_succ_bounds v :
  0 <= v < 2 ^ 32 - 1 -> let k := Z.log2 (v + 1) in 0 <= k <= 31 /\ 2 ^ k <= v + 1 < 2 * 2 ^ k.
Proof.
  intros Hv k. pose proof (Z.log2_nonneg (v + 1)). pose proof (Z.log2_spec (v + 1) ltac:(lia)) as Hs.
  fold k in H, Hs. rewrite Z.pow_succ_r in Hs by done. split; [|done].
  split; [done|]. assert (k < 32); [|lia]. apply Z.log2_lt_pow2; lia.
Qed.

Lemma golomb_value k s : 0 <= k <= 31 -> 0 <= s < 2 ^ k -> u32 (u32 (Z.shiftl 1 k) - 1 + s) = 2 ^ k - 1 + s.
Proof.
  intros Hk Hs. rewrite Z.shiftl_1_l.
  assert (2 ^ k <= 2 ^ 31) by (apply Z.pow_le_mono_r; lia).
  pose proof (Z.pow_pos_nonneg 2 k). rewrite (u32_id (2 ^ k)) by (pow_consts; lia).
  apply u32_id. pow_consts; lia.
Qed.

Lemma ReadUE_complete br v rest :
  wf br -> 0 <= v < 2 ^ 32 - 1 -> remaining br = ue_bits v ++ rest ->
  exists br', ReadUE br = Ret (br', Val v) /\ wf br' /\ remaining br' = rest /\ data br' = data br.
Proof.
  intros Hwf Hv Hr. pose proof (log2_succ_bounds v Hv) as (Hk & Hlo & Hhi).
  unfold ue_bits in Hr. set (k := Z.log2 (v + 1)) in *. rewrite <- app_assoc in Hr.
  unfold ReadUE.
  destruct (leading_zeros_ok 33 (Z.to_nat k) 0 br (bits_w (Z.to_nat k) (v + 1) ++ rest))
    as (br1 & H1 & Hwf1 & Hr1 & Hd1); [done|done|lia|lia|lia|].
  rewrite (method_bind_Val _ _ _ _ _ H1). replace (0 + Z.of_nat (Z.to_nat k)) with k by lia.
  assert (len (bits_w (Z.to_nat k) (v + 1)) = k) as Hlen by (unfold len; rewrite length_bits_w; lia).
  destruct (Z.eqb_spec k 0) as [Hk0|Hk0].
  - exists br1. rewrite Hk0 in *. simpl in *. split_and!; try done.
    unfold mret, method_ret. do 3 f_equal. lia.
  - destruct (proj2 (ReadBits_spec k br1 Hwf1 ltac:(lia))) as (br' & H2 & Hwf' & Hr' & Hd').
    { rewrite Hr1, len_app. pose proof (len_nonneg rest). lia. }
    rewrite (method_bind_Val _ _ _ _ _ H2). exists br'.
    rewrite Hr1, takeZ_app_le, takeZ_all, bits_value_w in * by lia.
    rewrite Z2Nat.id by lia. pose proof (Z.mod_pos_bound (v + 1) (2 ^ k)).
    rewrite golomb_value by lia. split_and!; [|done| |congruence].
    + assert ((v + 1) mod 2 ^ k = v + 1 - 2 ^ k) as ->.
      { symmetry. apply Z.mod_unique with 1; lia. }
      unfold mret, method_ret. do 3 f_equal. lia.
    + rewrite Hr'. rewrite dropZ_app_ge by lia. by rewrite dropZ_0 by lia.
Qed.

Lemma ReadUE_sound br :
  wf br -> exists br' r, ReadUE br = Ret (br', r) /\ wf br' /\ data br' = data br /\
    forall v, r = Val v -> 0 <= v < 2 ^ 32 - 1 /\ remaining br = ue_bits v ++ remaining br'.
Proof.
  intros Hwf. unfold ReadUE.
  destruct (leading_zeros_total 33 0 br) as (br1 & r1 & H1 & Hwf1 & Hd1 & Hn); [done|lia|lia|].
  destruct r1 as [n|e]; [|rewrite (method_bind_Err _ _ _ _ _ H1); err_case].
  rewrite (method_bind_Val _ _ _ _ _ H1). destruct (Hn n eq_refl) as [Hn31 Hr]. clear Hn.
  rewrite Z.sub_0_r in Hr. destruct (Z.eqb_spec n 0) as [->|Hn0].
  - exists br1, (Val 0). split_and!; try done. intros v [= <-]. split; [lia|exact Hr].
  - destruct (ReadBits_spec n br1 Hwf1 ltac:(lia)) as [Hshort Hlong].
    destruct (Z.lt_ge_cases (len (remaining br1)) n) as [Hlt|Hge].
    + rewrite (method_bind_Err _ _ _ _ _ (Hshort Hlt)). err_case.
    + destruct (Hlong Hge) as (br' & H2 & Hwf' & Hr' & Hd').
      rewrite (method_bind_Val _ _ _ _ _ H2). set (l := takeZ n (remaining br1)) in *.
      assert (len l = n) as Hl by (apply len_takeZ; lia).
      assert (Forall (fun b => b = 0 \/ b = 1) l) as Hrange by apply Forall_take, remaining_range.
      pose proof (bits_value_bound l Hrange) as Hb. rewrite Hl in Hb.
      rewrite golomb_value by lia. eexists br', _. split_and!; [done|done|congruence|].
      intros v [= <-]. assert (2 ^ n <= 2 ^ 31) by (apply Z.pow_le_mono_r; lia).
      pose proof (Z.pow_pos_nonneg 2 n). split; [pow_consts; lia|].
      assert (Z.log2 (2 ^ n - 1 + bits_value l + 1) = n) as Hlog
        by (apply Z.log2_unique; [lia|]; rewrite Z.pow_succ_r; lia).
      unfold ue_bits. rewrite Hlog. rewrite Hr, <- app_assoc. do 2 f_equal. simpl. f_equal.
      replace (Z.to_nat n) with (length l) by (unfold len in Hl; lia).
      rewrite bits_w_value; [rewrite Hr'; symmetry; apply takeZ_dropZ|done|].
      rewrite Hl. symmetry. apply Z.mod_unique with 1; lia.
Qed.

(** The signed value of an unsigned code. *)
Definition se_of (v : Z) : Z := if v mod 2 =? 0 then - (v / 2) else (v + 1) / 2.

Lemma se_code_of v : 0 <= v -> se_code (se_of v) = v.
Proof. intros. unfold se_code, se_of. repeat case_bool; mlia. Qed.
Lemma se_of_code z : se_of (se_code z) = z.
Proof. unfold se_code, se_of. repeat case_bool; mlia. Qed.

Lemma ReadSE_of_UE br br' v :
  ReadUE br = Ret (br', Val v) -> 0 <= v < 2 ^ 32 - 1 -> ReadSE br = Ret (br', Val (se_of v)).
Proof.
  intros H Hv. unfold ReadSE. rewrite (method_bind_Val _ _ _ _ _ H). unfold se_of.
  destruct (Z.eqb_spec (v mod 2) 0); unfold mret, method_ret; do 3 f_equal; mlia.
Qed.

(** ** Properties *)

(** on a well-formed reader every bit operation acts on the list of unread
    bits and never panics: ReadBits(n) with 0 <= n <= 32 returns the number
    the next n bits spell and drops them, or fails without moving when fewer
    are left; other counts are rejected; SkipBits drops n bits; AlignToByte
    drops the rest of the current byte and BytesRemaining counts the whole
    bytes left. *)
Theorem bits_refinement (br : BitReader) (n : Z) :
  wf br ->
  (0 <= n <= 32 -> n <= len (remaining br) -> exists br',
     ReadBits n br = Ret (br', Val (bits_value (takeZ n (remaining br)))) /\
     wf br' /\ remaining br' = dropZ n (remaining br)) /\
  (0 <= n <= 32 -> len (remaining br) < n ->
     ReadBits n br = Ret (br, Err (NotEnoughBits n (len (remaining br))))) /\
  (~ 0 <= n <= 32 -> ReadBits n br = Ret (br, Err (InvalidBitCount n))) /\
  (0 <= n <= len (remaining br) -> exists br',
     SkipBits n br = Ret (br', Val tt) /\ wf br' /\ remaining br' = dropZ n (remaining br)) /\
  wf (AlignToByte br) /\
  remaining (AlignToByte br) = dropZ ((8 - bitPos br) mod 8) (remaining br) /\
  BytesRemaining br = len (remaining br) / 8.
Proof.
  intros Hwf. destruct (AlignToByte_spec br Hwf) as (? & ? & ?). split_and!; try done.
  - intros Hn Hl. destruct (proj2 (ReadBits_spec n br Hwf Hn) Hl) as (br' & ? & ? & ? & _). eauto.
  - intros Hn Hl. by apply ReadBits_spec.
  - intros Hn. unfold ReadBits. case_bool; [done|]. apply orb_false_iff in Heqb. lia.
  - intros [Hn Hl]. unfold SkipBits.
    destruct (skip_loop_spec (Z.to_nat n) br Hwf) as (br' & r & -> & Hwf' & _ & Hres).
    rewrite Z2Nat.id, (proj2 (Z.leb_le _ _)) in Hres by lia. destruct Hres as [-> Hr]. eauto.
Qed.

Lemma bits_refinement_witness :
  let br := NewBitReader [202; 254] in
  wf br /\ exists br', ReadBits 5 br = Ret (br', Val 25) /\ wf br' /\ remaining br' = dropZ 5 (remaining br).
Proof.
  assert (wf (NewBitReader [202; 254])) as Hwf.
  { unfold wf, is_byte; simpl. split_and!; [repeat (constructor; [lia|]); constructor|lia..|unfold len; simpl; lia]. }
  split; [exact Hwf|].
  exact (proj1 (bits_refinement (NewBitReader [202; 254]) 5 Hwf) ltac:(lia) ltac:(vm_compute; congruence)).
Defined.

(** ReadUE and ReadSE are exact decoders: on every well-formed reader they
    terminate without panic, leave it well formed, and return [v] (in range for
    the 32-bit result, without wrap-around) exactly when the unread bits start
    with the Exp-Golomb codeword of [v], which is then what they consumed. *)
Theorem golomb_exact (br : BitReader) :
  wf br ->
  (exists br' r, ReadUE br = Ret (br', r) /\ wf br') /\
  (forall v rest, 0 <= v < 2 ^ 32 - 1 ->
     (remaining br = ue_bits v ++ rest <->
      exists br', ReadUE br = Ret (br', Val v) /\ wf br' /\ remaining br' = rest)) /\
  (forall v br', ReadUE br = Ret (br', Val v) -> 0 <= v < 2 ^ 32 - 1) /\
  (forall z rest, - 2 ^ 31 < z < 2 ^ 31 ->
     (remaining br = ue_bits (se_code z) ++ rest <->
      exists br', ReadSE br = Ret (br', Val z) /\ wf br' /\ remaining br' = rest)).
Proof.
  intros Hwf. destruct (ReadUE_sound br Hwf) as (br1 & r1 & H1 & Hwf1 & _ & Hs).
  assert (Hcomp : forall v rest, 0 <= v < 2 ^ 32 - 1 -> remaining br = ue_bits v ++ rest ->
    exists br', ReadUE br = Ret (br', Val v) /\ wf br' /\ remaining br' = rest).
  { intros v rest Hv Hr. destruct (ReadUE_complete br v rest Hwf Hv Hr) as (b & ? & ? & ? & _). eauto. }
  split_and!; [eauto| | |].
  - intros v rest Hv. split; [by apply Hcomp|]. intros (br' & H2 & _ & <-).
    rewrite H1 in H2. simplify_eq. by apply Hs.
  - intros v br' H2. rewrite H1 in H2. simplify_eq. by apply Hs.
  - intros z rest Hz. assert (0 <= se_code z < 2 ^ 32 - 1) by (unfold se_code; case_bool; pow_consts; lia).
    split.
    + intros Hr. destruct (Hcomp _ _ H Hr) as (br' & H2 & Hwf' & Hr').
      exists br'. split; [|done]. rewrite (ReadSE_of_UE _ _ _ H2 H). by rewrite se_of_code.
    + intros (br' & H2 & _ & <-). destruct r1 as [v|e].
      * destruct (Hs v eq_refl) as [Hv Hr]. rewrite (ReadSE_of_UE _ _ _ H1 Hv) in H2. simplify_eq.
        by rewrite se_code_of by lia.
      * unfold ReadSE in H2. rewrite (method_bind_Err _ _ _ _ _ H1) in H2. discriminate.
Qed.

Lemma golomb_exact_witness :
  let br := NewBitReader [38; 66] in
  wf br /\ remaining br = ue_bits 3 ++ [1; 1; 0; 0; 1; 0; 0; 0; 0; 1; 0] /\
  exists br', ReadUE br = Ret (br', Val 3) /\ wf br' /\ remaining br' = [1; 1; 0; 0; 1; 0; 0; 0; 0; 1; 0].
Proof.
  assert (wf (NewBitReader [38; 66])) as Hwf.
  { unfold wf, is_byte; simpl. split_and!; [repeat (constructor; [lia|]); constructor|lia..|unfold len; simpl; lia]. }
  split; [exact Hwf|]. split; [reflexivity|].
  exact (proj1 (proj1 (proj2 (golomb_exact (NewBitReader [38; 66]) Hwf)) 3
    [1; 1; 0; 0; 1; 0; 0; 0; 0; 1; 0] ltac:(lia)) eq_refl).
Defined.
