(* ===== verification/TypesBits.v ===== *)
(** * Bit reader and writer of the parameter-set code (types/h264_parser.go)

    The package has its own reader next to the one of [BitReader]; both keep the
    same three fields, so they share the record, and they are shown to agree.
    The writer builds bitstreams; what it writes the reader reads back. *)

From S2P Require Import Prelude.
From S2P Require BitReader.
Import BitReader(BitReader, mkBitReader, data, bitPos, bytePos, bit_error, EndOfData,
  InvalidBitCount, NotEnoughBits, TooManyLeadingZeros, shr_byte, wf, remaining, bits_of, bits_w, bits_value,
  ue_bits, se_code).
#[local] Existing Instance BitReader.eta_BitReader.

Abbreviation reader A := (method BitReader bit_error A).

(** ** Reader *)

Definition NewBitReader (d : list Z) : BitReader := mkBitReader d 0 0.

Definition ReadBit : reader Z := fun br =>
  if len (data br) <=? bytePos br then Ret (br, Err EndOfData)
  else
    byte ← idx (data br) (bytePos br);
    shifted ← shr_byte byte (7 - bitPos br);
    let bit := Z.land shifted 1 in
    let br := br <| bitPos := bitPos br + 1 |> in
    let br := if 8 <=? bitPos br then br <| bitPos := 0 |> <| bytePos := bytePos br + 1 |> else br in
    Ret (br, Val bit).

Fixpoint read_bits_loop (n : nat) (result : Z) : reader Z :=
  match n with
  | O => mret result
  | S n => bit ← ReadBit; read_bits_loop n (Z.lor (u32 (Z.shiftl result 1)) bit)
  end.

Definition ReadBits (n : Z) : reader Z := fun br =>
  if (n <? 0) || (32 <? n) then Ret (br, Err (InvalidBitCount n))
  else if n =? 0 then Ret (br, Val 0)
  else
    let bitsRemaining := (len (data br) - bytePos br) * 8 - bitPos br in
    if bitsRemaining <? n then Ret (br, Err (NotEnoughBits n bitsRemaining))
    else read_bits_loop (Z.to_nat n) 0 br.

Definition GetBitPosition (br : BitReader) : Z := bytePos br * 8 + bitPos br.
Definition SeekToBit (pos : Z) (br : BitReader) : BitReader :=
  br <| bytePos := Z.quot pos 8 |> <| bitPos := Z.rem pos 8 |>.
Definition HasMoreBits (br : BitReader) : bool := bytePos br <? len (data br).

Fixpoint leading_zeros_loop (fuel : nat) (leadingZeros : Z) : reader Z :=
  match fuel with
  | O => fun _ => NoFuel
  | S fuel =>
      bit ← ReadBit;
      if bit =? 1 then mret leadingZeros
      else if 31 <? leadingZeros + 1 then fail TooManyLeadingZeros
      else leading_zeros_loop fuel (leadingZeros + 1)
  end.

(** The base [1 << leadingZeros] is never 0 as a [uint32]: the code's overflow
    test is kept. *)
Definition ReadUE : reader Z :=
  leadingZeros ← leading_zeros_loop 33 0;
  if leadingZeros =? 0 then mret 0
  else
    value ← ReadBits leadingZeros;
    let base := u32 (Z.shiftl 1 leadingZeros) in
    if base =? 0 then fail TooManyLeadingZeros else mret (u32 (base - 1 + value)).

Definition ReadSE : reader Z :=
  ue ← ReadUE;
  if ue =? 0 then mret 0
  else if 0xFFFFFFFE <? ue then fail TooManyLeadingZeros
  else if ue mod 2 =? 1 then mret (i32 (u32 (ue + 1) / 2))
  else mret (i32 (- i32 (ue / 2))).

(** ** Writer *)

Record BitWriter := mkBitWriter { w_data : list Z; w_bytePos : Z; w_bitPos : Z }.
#[export] Instance eta_BitWriter : Eta BitWriter := fun w => mkBitWriter (w_data w) (w_bytePos w) (w_bitPos w).

Definition NewBitWriter : BitWriter := mkBitWriter [] 0 0.

(** [for len(bw.data) <= bw.bytePos { append 0 }] *)
Definition extend (d : list Z) (pos : Z) : list Z := d ++ replicate (Z.to_nat (pos + 1 - len d)) 0.

Definition WriteBit (bit : Z) (w : BitWriter) : res BitWriter :=
  let d := extend (w_data w) (w_bytePos w) in
  d ← (if Z.land bit 1 =? 1 then
         if 7 - w_bitPos w <? 0 then Panic
         else b ← idx d (w_bytePos w); set_idx d (w_bytePos w) (Z.lor b (u8 (Z.shiftl 1 (7 - w_bitPos w))))
       else Ret d);
  let w := w <| w_data := d |> <| w_bitPos := w_bitPos w + 1 |> in
  Ret (if 8 <=? w_bitPos w then w <| w_bitPos := 0 |> <| w_bytePos := w_bytePos w + 1 |> else w).

(** [for i := n-1; i >= 0; i--] *)
Fixpoint WriteBits (value : Z) (n : nat) (w : BitWriter) : res BitWriter :=
  match n with
  | O => Ret w
  | S n => w ← WriteBit (u8 (Z.land (Z.shiftr value (Z.of_nat n)) 1)) w; WriteBits value n w
  end.

(** [for temp > 1 { temp >>= 1; leadingZeros++ }] *)
Fixpoint count_zeros (fuel : nat) (temp : Z) : res Z :=
  match fuel with
  | O => NoFuel
  | S fuel => if 1 <? temp then n ← count_zeros fuel (Z.shiftr temp 1); Ret (n + 1) else Ret 0
  end.

Definition WriteUE (value : Z) (w : BitWriter) : res BitWriter :=
  if value =? 0 then WriteBit 1 w
  else
    n ← count_zeros 33 (u32 (value + 1));
    w ← WriteBits 0 (Z.to_nat n) w;
    WriteBits (u32 (value + 1)) (Z.to_nat (n + 1)) w.

Definition WriteSE (value : Z) (w : BitWriter) : res BitWriter :=
  if value <=? 0 then WriteUE (u32 (i32 (i32 (- value) * 2))) w
  else WriteUE (u32 (i32 (i32 (value * 2) - 1))) w.

Definition GetBytes (w : BitWriter) : res (BitWriter * list Z) :=
  let w := if 0 <? w_bitPos w
           then w <| w_data := extend (w_data w) (w_bytePos w) |> <| w_bytePos := w_bytePos w + 1 |> else w in
  l ← slice (w_data w) 0 (w_bytePos w);
  Ret (w, l).

(** ** The two readers agree *)

Lemma ReadBit_agree br : wf br -> ReadBit br = BitReader.ReadBit br.
Proof.
  intros (Hd & Hb & Hp & _). unfold ReadBit, BitReader.ReadBit. destruct (Z.leb_spec (len (data br)) (bytePos br)); [done|].
  destruct (idx_Ret (data br) (bytePos br)) as (x & -> & _); [lia|]. rewrite !bind_Ret. unfold shr_byte.
  rewrite (proj2 (Z.ltb_ge _ _)) by lia. rewrite !bind_Ret. cbn [bitPos upd].
  pose proof (Z.mod_pos_bound (Z.shiftr x (7 - bitPos br)) 2 ltac:(lia)).
  rewrite u32_id by (rewrite land_1; change (2 ^ 32) with 4294967296; lia).
  destruct (Z.leb_spec 8 (bitPos br + 1)), (Z.eqb_spec (bitPos br + 1) 8); try lia; done.
Qed.

(** A reader's step keeps it well formed. *)
Lemma ReadBit_wf br br' r : wf br -> BitReader.ReadBit br = Ret (br', r) -> wf br'.
Proof.
  intros Hwf Hr. destruct (remaining br) as [|b rest] eqn:E.
  - rewrite BitReader.ReadBit_nil in Hr by done. by injection Hr as <- _.
  - destruct (BitReader.ReadBit_cons br b rest Hwf E) as (br1 & E1 & Hwf1 & _). rewrite E1 in Hr. by injection Hr as <- _.
Qed.

Lemma bind_agree {A B} (m m' : reader A) (f f' : A -> reader B) br :
  m br = m' br -> (forall a br', m' br = Ret (br', Val a) -> f a br' = f' a br') ->
  (m ≫= f) br = (m' ≫= f') br.
Proof.
  intros Hm Hf. unfold mbind, method_bind. rewrite Hm. destruct (m' br) as [[br' [a|e]]| |] eqn:E; try done. by apply Hf.
Qed.

Lemma read_bits_agree n acc br : wf br -> read_bits_loop n acc br = BitReader.read_bits_loop n acc br.
Proof.
  revert acc br. induction n as [|n IH]; intros acc br Hwf; [done|]. cbn [read_bits_loop BitReader.read_bits_loop].
  apply bind_agree; [by apply ReadBit_agree|]. intros b br' Hb. apply IH. by eapply ReadBit_wf.
Qed.

Lemma ReadBits_agree n br : wf br -> ReadBits n br = BitReader.ReadBits n br.
Proof.
  intros Hwf. unfold ReadBits, BitReader.ReadBits, BitReader.totalBitsAvailable. rewrite (orb_comm (n <? 0)).
  case_bool; [done|]. destruct (Z.eqb_spec n 0) as [->|Hn].
  - destruct Hwf as (_ & ? & ? & ?). by rewrite (proj2 (Z.ltb_ge _ 0)) by lia.
  - case_bool; [done|]. by apply read_bits_agree.
Qed.

Lemma leading_zeros_agree fuel n br :
  wf br -> leading_zeros_loop fuel n br = BitReader.leading_zeros_loop fuel n br.
Proof.
  revert n br. induction fuel as [|fuel IH]; intros n br Hwf; [done|]. cbn [leading_zeros_loop BitReader.leading_zeros_loop].
  apply bind_agree; [by apply ReadBit_agree|]. intros b br' Hb. case_bool; [done|]. cbv zeta. case_bool; [done|].
  apply IH. by eapply ReadBit_wf.
Qed.

Lemma ReadUE_agree br : wf br -> ReadUE br = BitReader.ReadUE br.
Proof.
  intros Hwf. unfold ReadUE, BitReader.ReadUE. apply bind_agree; [by apply leading_zeros_agree|].
  intros n br' Hn. case_bool; [done|].
  destruct (BitReader.leading_zeros_total 33 0 br) as (br1 & r & E & Hwf1 & _ & Hv); [done|lia|lia|].
  rewrite E in Hn. injection Hn as -> ->. destruct (Hv n eq_refl) as [Hr _].
  apply bind_agree; [by apply ReadBits_agree|]. intros v br2 Hb. cbv zeta.
  assert (u32 (Z.shiftl 1 n) = 2 ^ n) as ->.
  { rewrite Z.shiftl_1_l. apply u32_id. assert (2 ^ n <= 2 ^ 31) by (apply Z.pow_le_mono_r; lia). pow_consts. lia. }
  pose proof (Z.pow_pos_nonneg 2 n ltac:(lia) ltac:(lia)). by rewrite (proj2 (Z.eqb_neq (2 ^ n) 0)) by lia.
Qed.

Lemma ReadSE_agree br : wf br -> ReadSE br = BitReader.ReadSE br.
Proof.
  intros Hwf. unfold ReadSE, BitReader.ReadSE. apply bind_agree; [by apply ReadUE_agree|]. intros v br' Hv.
  destruct (BitReader.ReadUE_sound br Hwf) as (br1 & r & E & _ & _ & Hr). rewrite E in Hv. injection Hv as -> ->.
  destruct (Hr v eq_refl) as [Hb _]. destruct (Z.eqb_spec v 0) as [->|Hne]; [done|].
  rewrite (proj2 (Z.ltb_ge 0xFFFFFFFE v)) by lia.
  destruct (Z.eqb_spec (v mod 2) 1), (Z.eqb_spec (v mod 2) 0); try done; mlia.
Qed.

(** ** What the writer holds *)

Abbreviation bit b := (b = 0 \/ b = 1).
Definition zeros (n : Z) : list Z := replicate (Z.to_nat n) 0.

(** The writer holds the bits [l], padded with zeros to whole bytes. *)
Record holds (w : BitWriter) (l : list Z) : Prop := {
  h_bytes : Forall is_byte (w_data w);
  h_pos : 0 <= w_bitPos w < 8 /\ 0 <= w_bytePos w;
  h_len : len (w_data w) = w_bytePos w + (if 0 <? w_bitPos w then 1 else 0);
  h_bits : Forall (fun b => bit b) l;
  h_count : len l = 8 * w_bytePos w + w_bitPos w;
  h_data : bits_of (w_data w) = l ++ zeros (8 * len (w_data w) - len l)
}.

Lemma bits_of_app d e : bits_of (d ++ e) = bits_of d ++ bits_of e.
Proof. unfold bits_of. rewrite map_app. by rewrite join_app. Qed.
Lemma bits_of_single x : bits_of [x] = bits_w 8 x.
Proof. unfold bits_of. cbn [map mjoin list_join]. apply app_nil_r. Qed.

Lemma bits_value_app p q : bits_value (p ++ q) = bits_value p * 2 ^ len q + bits_value q.
Proof.
  induction p as [|b p IH]; [by cbn; lia|]. cbn [app bits_value]. rewrite IH, len_app.
  pose proof (len_nonneg p). pose proof (len_nonneg q). rewrite Z.pow_add_r by lia. lia.
Qed.
Lemma bits_value_zeros n : bits_value (replicate n 0) = 0.
Proof. induction n as [|n IH]; [done|]. cbn [replicate bits_value]. rewrite IH. lia. Qed.

(** Setting the next bit of a byte whose further bits are zero. *)
Lemma byte_set x p b n :
  is_byte x -> bit b -> 0 <= n -> len p = 7 - n -> Forall (fun b => bit b) p -> bits_w 8 x = p ++ zeros (n + 1) ->
  let y := if b =? 1 then Z.lor x (u8 (Z.shiftl 1 n)) else x in
  is_byte y /\ bits_w 8 y = p ++ b :: zeros n.
Proof.
  intros Hx Hb Hn Hp Hbits Hw. pose proof (len_nonneg p). unfold zeros in *.
  assert (x = bits_value p * 2 ^ (n + 1)) as Ex.
  { pose proof (BitReader.bits_value_w 8 x) as Hv. rewrite Hw, bits_value_app, bits_value_zeros in Hv.
    rewrite len_replicate in Hv by lia. rewrite Z.mod_small in Hv by (unfold is_byte in *; lia). lia. }
  assert (bits_w 8 (x + b * 2 ^ n) = p ++ b :: replicate (Z.to_nat n) 0 /\ is_byte (x + b * 2 ^ n)) as [Hl Hy].
  { set (l := p ++ b :: replicate (Z.to_nat n) 0).
    assert (length l = 8%nat) as Hlen.
    { subst l. rewrite length_app. cbn [length]. rewrite length_replicate. unfold len in Hp. lia. }
    assert (bits_value l = x + b * 2 ^ n) as Hv.
    { subst l. rewrite bits_value_app. cbn [bits_value]. rewrite bits_value_zeros, len_cons, len_replicate by lia.
      rewrite Ex, (Z.add_comm 1 n). lia. }
    assert (Forall (fun b => bit b) l) as Hf.
    { subst l. apply Forall_app. split; [done|]. constructor; [done|]. apply Forall_replicate. by left. }
    pose proof (BitReader.bits_value_bound l Hf) as Hr. unfold len in Hr. rewrite Hlen in Hr. change (2 ^ Z.of_nat 8) with 256 in Hr.
    split; [|unfold is_byte; lia]. rewrite <- Hlen at 1. apply BitReader.bits_w_value; [done|].
    unfold len. rewrite Hlen. rewrite <- Hv. apply Z.mod_small. lia. }
  destruct Hb as [-> | ->]; cbn.
  - rewrite Z.add_0_r in *. done.
  - assert (Z.lor x (u8 (Z.shiftl 1 n)) = x + 1 * 2 ^ n) as ->; [|done].
    rewrite Z.shiftl_1_l. assert (2 ^ n <= 2 ^ 7) by (apply Z.pow_le_mono_r; lia).
    pose proof (Z.pow_pos_nonneg 2 n ltac:(lia) ltac:(lia)). unfold u8. rewrite Z.mod_small by (pow_consts; lia).
    rewrite Ex, <- Z.shiftl_mul_pow2 by lia. rewrite lor_shl_join; [rewrite Z.shiftl_mul_pow2 by lia; lia|lia|].
    rewrite Z.pow_add_r by lia. lia.
Qed.

(** The data split before the byte being written. *)
Lemma holds_split w l :
  holds w l -> exists d0 x p, extend (w_data w) (w_bytePos w) = d0 ++ [x] /\ len d0 = w_bytePos w /\
    Forall is_byte d0 /\ is_byte x /\ l = bits_of d0 ++ p /\ len p = w_bitPos w /\ bits_w 8 x = p ++ zeros (8 - w_bitPos w).
Proof.
  intros [Hb [Hp Hq] Hl _ Hc Hd]. unfold extend. rewrite Hl. destruct (Z.ltb_spec 0 (w_bitPos w)) as [Hpos|H0].
  - replace (Z.to_nat (w_bytePos w + 1 - (w_bytePos w + 1))) with O by lia. cbn [replicate]. rewrite app_nil_r.
    destruct (w_data w) as [|y d _] eqn:E using rev_ind; [rewrite (@len_nil Z) in Hl; lia|].
    rewrite len_app in Hl. change (len [y]) with 1 in Hl. apply Forall_app in Hb as [Hd0 Hy]. apply Forall_cons in Hy as [Hy _].
    rewrite bits_of_app, bits_of_single in Hd. exists d, y, (dropZ (8 * len d) l).
    pose proof (BitReader.len_bits_of d) as Hbl. rewrite len_app in Hd. change (len [y]) with 1 in Hd.
    assert (takeZ (8 * len d) l = bits_of d) as Ht.
    { apply (f_equal (takeZ (8 * len d))) in Hd. rewrite !takeZ_app_le, (takeZ_all _ (bits_of d)) in Hd by lia. done. }
    split_and!; [done|lia|done|done| | |].
    + rewrite <- Ht. symmetry. apply takeZ_dropZ.
    + rewrite len_dropZ by lia. lia.
    + apply (f_equal (dropZ (8 * len d))) in Hd. rewrite dropZ_app_ge, Hbl, Z.sub_diag, dropZ_0 in Hd by lia.
      rewrite dropZ_app_le in Hd by lia. rewrite Hd. do 2 f_equal. lia.
  - replace (Z.to_nat (w_bytePos w + 1 - (w_bytePos w + 0))) with 1%nat by lia. cbn [replicate].
    exists (w_data w), 0, []. rewrite app_nil_r. split_and!; [done|lia|done|done| |rewrite (@len_nil Z); lia|].
    + rewrite Hd. replace (8 * len (w_data w) - len l) with 0 by lia. by rewrite app_nil_r.
    + by replace (8 - w_bitPos w) with 8 by lia.
Qed.

Lemma WriteBit_spec b w l :
  holds w l -> bit b -> exists w', WriteBit b w = Ret w' /\ holds w' (l ++ [b]).
Proof.
  intros Hw Hb. pose proof (h_pos w l Hw) as [Hp Hq]. pose proof (h_bits w l Hw) as Hbits.
  destruct (holds_split w l Hw) as (d0 & x & p & He & Hd0 & Hby & Hx & -> & Hlp & Hxp).
  assert (Forall (fun b => bit b) p) as Hpb by (by apply Forall_app in Hbits as [_ ?]).
  destruct (byte_set x p b (7 - w_bitPos w)) as [Hy Hyb]; try done; [lia|lia|by replace (7 - w_bitPos w + 1) with (8 - w_bitPos w) by lia|].
  set (y := if b =? 1 then _ else x) in *.
  unfold WriteBit. rewrite He. assert ((if Z.land b 1 =? 1 then
      if 7 - w_bitPos w <? 0 then Panic
      else b0 ← idx (d0 ++ [x]) (w_bytePos w); set_idx (d0 ++ [x]) (w_bytePos w) (Z.lor b0 (u8 (Z.shiftl 1 (7 - w_bitPos w))))
    else Ret (d0 ++ [x])) = Ret (d0 ++ [y])) as ->.
  { subst y. destruct Hb as [-> | ->]; [done|]. change (Z.land 1 1 =? 1) with true. change (1 =? 1) with true. cbn iota.
    rewrite (proj2 (Z.ltb_ge _ 0)) by lia. unfold idx, set_idx. rewrite (proj2 (Z.ltb_ge _ 0)) by lia.
    rewrite lookup_app_r by (unfold len in Hd0; lia). unfold len in Hd0. replace (_ - length d0)%nat with O by lia.
    cbn [lookup list_lookup]. rewrite bind_Ret. rewrite (proj2 (Z.leb_gt _ _)) by (rewrite len_app; unfold len; simpl; lia).
    cbn [orb]. rewrite insert_app_r_alt by lia. by replace (_ - length d0)%nat with O by lia. }
  rewrite bind_Ret. eexists. split; [done|]. cbn [w_bitPos upd].
  pose proof (BitReader.len_bits_of d0) as Hbl.
  assert (bits_of (d0 ++ [y]) = ((bits_of d0 ++ p) ++ [b]) ++ zeros (7 - w_bitPos w)) as Hdata
    by (rewrite bits_of_app, bits_of_single, Hyb, <- !app_assoc; done).
  assert (len ((bits_of d0 ++ p) ++ [b]) = 8 * w_bytePos w + w_bitPos w + 1) as Hcount
    by (rewrite !len_app, Hbl, Hd0, Hlp; change (len [b]) with 1; lia).
  assert (len (d0 ++ [y]) = w_bytePos w + 1) as Hlen by (rewrite len_app, Hd0; done).
  assert (Forall is_byte (d0 ++ [y])) as Hall by (apply Forall_app; split; [done|by constructor]).
  assert (Forall (fun b => bit b) ((bits_of d0 ++ p) ++ [b])) as Hab by (apply Forall_app; split; [done|by constructor]).
  destruct (Z.leb_spec 8 (w_bitPos w + 1)); split; cbn [w_data w_bitPos w_bytePos upd]; try done.
  - lia.
  - by rewrite Hlen, Z.add_0_r.
  - lia.
  - rewrite Hdata. do 2 f_equal. lia.
  - lia.
  - rewrite (proj2 (Z.ltb_lt 0 _)) by lia. done.
  - lia.
  - rewrite Hdata. do 2 f_equal. lia.
Qed.

Lemma WriteBits_spec v n w l :
  0 <= v -> holds w l -> exists w', WriteBits v n w = Ret w' /\ holds w' (l ++ bits_w n v).
Proof.
  intros Hv. revert w l. induction n as [|n IH]; intros w l Hw.
  { exists w. split; [done|]. by rewrite app_nil_r. }
  cbn [WriteBits bits_w]. rewrite Z.shiftr_div_pow2, land_1 by lia.
  pose proof (Z.mod_pos_bound (v / 2 ^ Z.of_nat n) 2 ltac:(lia)). unfold u8. rewrite (Z.mod_small _ (2 ^ 8)) by (pow_consts; lia).
  destruct (WriteBit_spec ((v / 2 ^ Z.of_nat n) mod 2) w l) as (w1 & -> & Hw1); [done|lia|]. rewrite bind_Ret.
  destruct (IH w1 _ Hw1) as (w2 & E & Hw2). exists w2. split; [done|]. by rewrite <- app_assoc in Hw2.
Qed.

Lemma count_zeros_spec fuel t : 1 <= t < 2 ^ Z.of_nat fuel -> count_zeros fuel t = Ret (Z.log2 t).
Proof.
  revert t. induction fuel as [|fuel IH]; intros t Ht; [cbn in Ht; lia|]. cbn [count_zeros].
  rewrite Nat2Z.inj_succ, Z.pow_succ_r in Ht by lia. destruct (Z.ltb_spec 1 t) as [H1|H1].
  - rewrite Z.shiftr_div_pow2 by lia. change (2 ^ 1) with 2.
    rewrite IH by (Z.to_euclidean_division_equations; lia). rewrite bind_Ret. f_equal.
    rewrite <- Z.div2_div. destruct (Z.Even_or_Odd t) as [[k ->]|[k ->]].
    + replace (Z.div2 (2 * k)) with k by (rewrite Z.div2_div; Z.to_euclidean_division_equations; lia).
      rewrite (Z.log2_double k) by lia. lia.
    + replace (Z.div2 (2 * k + 1)) with k by (rewrite Z.div2_div; Z.to_euclidean_division_equations; lia).
      rewrite (Z.log2_succ_double k) by lia. lia.
  - by replace t with 1 by lia.
Qed.

Lemma bits_w_zero n : bits_w n 0 = replicate n 0.
Proof. induction n as [|n IH]; [done|]. cbn [bits_w replicate]. by rewrite Z.div_0_l, IH by (apply Z.pow_nonzero; lia). Qed.

Lemma WriteUE_spec v w l :
  0 <= v < 2 ^ 32 - 1 -> holds w l -> exists w', WriteUE v w = Ret w' /\ holds w' (l ++ ue_bits v).
Proof.
  intros Hv Hw. unfold WriteUE. destruct (Z.eqb_spec v 0) as [->|Hne]; [by apply WriteBit_spec; [|right]|].
  destruct (BitReader.log2_succ_bounds v Hv) as (Hk & Hlo & Hhi). rewrite u32_id by lia.
  rewrite count_zeros_spec by (change (2 ^ Z.of_nat 33) with 8589934592; lia). rewrite bind_Ret. set (k := Z.log2 (v + 1)) in *.
  destruct (WriteBits_spec 0 (Z.to_nat k) w l) as (w1 & -> & Hw1); [lia|done|]. rewrite bind_Ret.
  destruct (WriteBits_spec (v + 1) (Z.to_nat (k + 1)) w1 _ ltac:(lia) Hw1) as (w2 & E & Hw2). exists w2. split; [done|].
  unfold ue_bits. fold k. rewrite bits_w_zero, <- app_assoc in Hw2.
  replace (Z.to_nat (k + 1)) with (S (Z.to_nat k)) in Hw2 by lia. cbn [bits_w] in Hw2. rewrite Z2Nat.id in Hw2 by lia.
  replace ((v + 1) / 2 ^ k) with 1 in Hw2; [done|]. apply Z.div_unique with (v + 1 - 2 ^ k); [|lia].
  left. lia.
Qed.

Lemma WriteSE_spec z w l :
  - 2 ^ 31 < z < 2 ^ 31 -> holds w l -> exists w', WriteSE z w = Ret w' /\ holds w' (l ++ ue_bits (se_code z)).
Proof.
  intros Hz Hw. unfold WriteSE. assert ((if z <=? 0 then u32 (i32 (i32 (- z) * 2)) else u32 (i32 (i32 (z * 2) - 1))) = se_code z) as E.
  { unfold se_code. case_bool; mlia. }
  assert (0 <= se_code z < 2 ^ 32 - 1) by (unfold se_code; case_bool; pow_consts; lia).
  case_bool; rewrite E; by apply WriteUE_spec.
Qed.

Lemma GetBytes_spec w l :
  holds w l -> exists w', GetBytes w = Ret (w', w_data w) /\ Forall is_byte (w_data w) /\
    exists n, 0 <= n < 8 /\ bits_of (w_data w) = l ++ zeros n.
Proof.
  intros [Hb [Hp Hq] Hl _ Hc Hd]. unfold GetBytes. destruct (Z.ltb_spec 0 (w_bitPos w)) as [H0|H0].
  - unfold extend. rewrite Hl. replace (Z.to_nat (w_bytePos w + 1 - (w_bytePos w + 1))) with O by lia. cbn [replicate].
    rewrite app_nil_r. cbn [w_data w_bytePos upd]. rewrite slice_Ret by lia. rewrite Z.sub_0_r, dropZ_0, takeZ_all by lia.
    eexists. split; [done|]. split; [done|]. exists (8 * len (w_data w) - len l). split; [lia|done].
  - pose proof (len_nonneg (w_data w)). rewrite slice_Ret by lia. rewrite Z.sub_0_r, dropZ_0, takeZ_all by lia.
    eexists. split; [done|]. split; [done|]. exists (8 * len (w_data w) - len l). split; [lia|done].
Qed.

(** ** Round trip *)

(** Syntax elements: [n] bits, ue(v), se(v). *)
Inductive item : Type := IBits (v n : Z) | IUE (v : Z) | ISE (z : Z).

Definition item_ok (i : item) : Prop :=
  match i with
  | IBits v n => 0 <= n <= 32 /\ 0 <= v < 2 ^ n
  | IUE v => 0 <= v < 2 ^ 32 - 1
  | ISE z => - 2 ^ 31 < z < 2 ^ 31
  end.
Definition item_value (i : item) : Z := match i with IBits v _ => v | IUE v => v | ISE z => z end.
Definition write_item (i : item) (w : BitWriter) : res BitWriter :=
  match i with IBits v n => WriteBits v (Z.to_nat n) w | IUE v => WriteUE v w | ISE z => WriteSE z w end.
(** A parser that knows the kinds and widths. *)
Definition read_item (i : item) : reader Z :=
  match i with IBits _ n => ReadBits n | IUE _ => ReadUE | ISE _ => ReadSE end.

Fixpoint write_items (l : list item) (w : BitWriter) : res BitWriter :=
  match l with [] => Ret w | i :: l => w ← write_item i w; write_items l w end.
Fixpoint read_items (l : list item) : reader (list Z) :=
  match l with [] => mret [] | i :: l => v ← read_item i; vs ← read_items l; mret (v :: vs) end.

Definition item_bits (i : item) : list Z :=
  match i with IBits v n => bits_w (Z.to_nat n) v | IUE v => ue_bits v | ISE z => ue_bits (se_code z) end.

Lemma write_item_spec i w l :
  item_ok i -> holds w l -> exists w', write_item i w = Ret w' /\ holds w' (l ++ item_bits i).
Proof.
  destruct i as [v n|v|z]; cbn [item_ok write_item item_bits]; intros Hi Hw;
    [apply WriteBits_spec; [lia|done]|by apply WriteUE_spec|by apply WriteSE_spec].
Qed.
Lemma write_items_spec its w l :
  Forall item_ok its -> holds w l -> exists w', write_items its w = Ret w' /\ holds w' (l ++ mjoin (item_bits <$> its)).
Proof.
  intros Hi. revert w l. induction Hi as [|i its Hi _ IH]; intros w l Hw.
  { exists w. split; [done|]. by rewrite app_nil_r. }
  cbn [write_items]. destruct (write_item_spec i w l Hi Hw) as (w1 & -> & Hw1). rewrite bind_Ret.
  destruct (IH w1 _ Hw1) as (w2 & E & Hw2). exists w2. split; [done|]. by rewrite <- app_assoc in Hw2.
Qed.

Lemma read_item_spec i br rest :
  item_ok i -> wf br -> remaining br = item_bits i ++ rest ->
  exists br', read_item i br = Ret (br', Val (item_value i)) /\ wf br' /\ remaining br' = rest.
Proof.
  destruct i as [v n|v|z]; cbn [item_ok read_item item_bits item_value]; intros Hi Hwf Hr.
  - rewrite ReadBits_agree by done. pose proof (len_nonneg rest).
    assert (len (bits_w (Z.to_nat n) v) = n) as Hl by (unfold len; rewrite BitReader.length_bits_w; lia).
    destruct (proj2 (BitReader.ReadBits_spec n br Hwf ltac:(lia))) as (br' & E & Hwf' & Hr' & _); [rewrite Hr, len_app; lia|].
    exists br'. rewrite E, Hr'. split; [|split; [done|]].
    + rewrite Hr, takeZ_app_le, takeZ_all, BitReader.bits_value_w by lia. rewrite Z2Nat.id, Z.mod_small by lia. done.
    + rewrite Hr, dropZ_app_ge, Hl, Z.sub_diag, dropZ_0 by lia. done.
  - rewrite ReadUE_agree by done. destruct (BitReader.ReadUE_complete br v rest Hwf Hi Hr) as (br' & ? & ? & ? & _). eauto.
  - rewrite ReadSE_agree by done.
    assert (0 <= se_code z < 2 ^ 32 - 1) as Hc by (unfold se_code; case_bool; pow_consts; lia).
    destruct (BitReader.ReadUE_complete br (se_code z) rest Hwf Hc Hr) as (br' & E & Hwf' & Hr' & _).
    exists br'. rewrite (BitReader.ReadSE_of_UE _ _ _ E Hc), BitReader.se_of_code. done.
Qed.
Lemma read_items_spec its br rest :
  Forall item_ok its -> wf br -> remaining br = mjoin (item_bits <$> its) ++ rest ->
  exists br', read_items its br = Ret (br', Val (item_value <$> its)) /\ wf br' /\ remaining br' = rest.
Proof.
  intros Hi. revert br. induction Hi as [|i its Hi _ IH]; intros br Hwf Hr; [by exists br|].
  cbn [read_items]. change (mjoin (item_bits <$> i :: its)) with (item_bits i ++ mjoin (item_bits <$> its)) in Hr.
  rewrite <- app_assoc in Hr. destruct (read_item_spec i br _ Hi Hwf Hr) as (br1 & E1 & Hwf1 & Hr1).
  rewrite (method_bind_Val _ _ _ _ _ E1). destruct (IH br1 Hwf1 Hr1) as (br2 & E2 & Hwf2 & Hr2).
  rewrite (method_bind_Val _ _ _ _ _ E2). by exists br2.
Qed.

(** syntax elements written with a bit writer - fixed-width fields, ue(v)
    up to 2^32-2 and se(v) within 31 bits, in any number and order - are read
    back with the same values from the bytes the writer returns; what is left
    over is less than a byte of zero padding. *)
Theorem write_read_items (its : list item) :
  Forall item_ok its ->
  exists w w' bytes br, write_items its NewBitWriter = Ret w /\ GetBytes w = Ret (w', bytes) /\
    Forall is_byte bytes /\
    read_items its (NewBitReader bytes) = Ret (br, Val (item_value <$> its)) /\
    exists n, 0 <= n < 8 /\ remaining br = zeros n.
Proof.
  intros Hi. destruct (write_items_spec its NewBitWriter [] Hi) as (w & E & Hw); [by split|].
  destruct (GetBytes_spec w _ Hw) as (w' & E' & Hb & n & Hn & Hbits). exists w, w', (w_data w).
  assert (wf (NewBitReader (w_data w))) as Hwf.
  { split; [done|]. pose proof (len_nonneg (w_data w)). cbn. lia. }
  destruct (read_items_spec its (NewBitReader (w_data w)) (zeros n) Hi Hwf) as (br & Er & _ & Hr).
  { unfold remaining. cbn [bitPos bytePos data NewBitReader]. by rewrite dropZ_0, Hbits by lia. }
  exists br. split_and!; try done. by exists n.
Qed.

Lemma write_read_items_witness :
  let its := [IBits 0x64 8; IUE 0; ISE (-3); IUE 4294967294; IBits 5 3; ISE 2147483647] in
  Forall item_ok its /\ exists w w' bytes br, write_items its NewBitWriter = Ret w /\ GetBytes w = Ret (w', bytes) /\
    read_items its (NewBitReader bytes) = Ret (br, Val [0x64; 0; -3; 4294967294; 5; 2147483647]).
Proof.
  intros its. assert (Forall item_ok its) as Hi by (repeat (constructor; [cbn; lia|]); constructor).
  split; [exact Hi|]. destruct (write_read_items its Hi) as (w & w' & b & br & H1 & H2 & _ & H3 & _).
  exists w, w', b, br. split; [exact H1|]. split; [exact H2|exact H3].
Defined.

(** The last value of a [uint32] overflows: one zero bit is written. *)
Example WriteUE_max :
  (w ← WriteUE 4294967295 NewBitWriter; GetBytes w) = Ret (mkBitWriter [0] 1 1, [0]).
Proof. reflexivity. Qed.
(** The least [int32] is written as 0. *)
Example WriteSE_min : WriteSE (- 2147483648) NewBitWriter = WriteSE 0 NewBitWriter.
Proof. reflexivity. Qed.
