(* ===== verification/Float64.v ===== *)
(** * Go's float64 on the standard library's exact model of IEEE 754

    Executable binary64 arithmetic, for the few places where the program
    converts counters to [float64]: ratios, pressures and durations in
    seconds.  Rounding is to nearest, ties to even, as in Go. *)

From Stdlib Require Import SpecFloat.
From S2P Require Import Prelude.

Abbreviation float64 := spec_float.

(** [float64(z)] for an integer [z]. *)
Definition f64_of_Z (z : Z) : float64 := binary_normalize 53 1024 z 0 false.
Definition f64_add (x y : float64) : float64 := SFadd 53 1024 x y.
Definition f64_sub (x y : float64) : float64 := SFsub 53 1024 x y.
Definition f64_mul (x y : float64) : float64 := SFmul 53 1024 x y.
Definition f64_div (x y : float64) : float64 := SFdiv 53 1024 x y.
Definition f64_ltb (x y : float64) : bool := SFltb x y.
Definition f64_leb (x y : float64) : bool := SFleb x y.

(** A decimal literal [n / 10^k] of the source: both operands are exact, so
    the correctly rounded quotient is the literal's value. *)
Definition f64_dec (n k : Z) : float64 := f64_div (f64_of_Z n) (f64_of_Z (10 ^ k)).

(** [int64(x)]: truncation towards zero.  Out of range (or NaN) the language
    leaves the result to the implementation; amd64 gives the least int64. *)
Definition f64_trunc (x : float64) : Z :=
  match x with
  | S754_zero _ => 0
  | S754_finite s m e =>
      let a := if e <? 0 then Z.pos m / 2 ^ (- e) else Z.pos m * 2 ^ e in
      let v := if s then - a else a in
      if (min_i64 <=? v) && (v <=? max_i64) then v else min_i64
  | _ => min_i64
  end.

Lemma f64_trunc_range x : min_i64 <= f64_trunc x <= max_i64.
Proof.
  unfold f64_trunc. destruct x; try (unfold min_i64, max_i64; lia).
  case_bool; zbool; [lia | unfold min_i64, max_i64; lia].
Qed.

(** [time.Duration.Seconds] *)
Definition seconds_of (d : Z) : float64 :=
  f64_add (f64_of_Z (Z.quot d second)) (f64_div (f64_of_Z (Z.rem d second)) (f64_of_Z second)).

(** [time.Duration.Minutes] *)
Definition minutes_of (d : Z) : float64 :=
  f64_add (f64_of_Z (Z.quot d (60 * second))) (f64_div (f64_of_Z (Z.rem d (60 * second))) (f64_of_Z (60 * second))).

(** [math.Round]: to the nearest integer, halves away from zero. *)
Definition f64_round (x : float64) : float64 :=
  match x with
  | S754_finite s m e =>
      if 0 <=? e then x
      else
        let q := (Z.pos m + 2 ^ (- e - 1)) / 2 ^ (- e) in
        if q =? 0 then S754_zero s else f64_of_Z (if s then - q else q)
  | _ => x
  end.

Example round_halves :
  (fun n => f64_trunc (f64_round (f64_dec n 1))) <$> [4; 5; 14; 25; -5; -14; -26] = [0; 1; 1; 3; -1; -1; -3].
Proof. vm_compute. reflexivity. Qed.
