(* ===== verification/MapSum.v ===== *)
(** * Sums over a map of counters

    What the counters per stream add up to, for the components that keep the
    total next to them. *)

From stdpp Require Import strings.
From S2P Require Import Prelude.

Definition msum (m : gmap string Z) : Z := map_fold (fun _ u acc => u + acc) 0 m.

Lemma msum_empty : msum ∅ = 0.
Proof. apply map_fold_empty. Qed.
Lemma msum_insert_None m k v : m !! k = None -> msum (<[k:=v]> m) = v + msum m.
Proof. intros Hk. unfold msum. apply map_fold_insert_L; [intros; lia|done]. Qed.
Lemma msum_delete m k : msum (delete k m) = msum m - default 0 (m !! k).
Proof.
  destruct (m !! k) as [u|] eqn:Hk; simpl.
  - rewrite <- (insert_delete_id m k u) at 2 by done.
    rewrite msum_insert_None by apply lookup_delete_eq. lia.
  - rewrite delete_id by done. lia.
Qed.
Lemma msum_insert m k v : msum (<[k:=v]> m) = msum m - default 0 (m !! k) + v.
Proof.
  rewrite <- insert_delete_eq, msum_insert_None by apply lookup_delete_eq. rewrite msum_delete. lia.
Qed.
Lemma msum_bounds m : (forall k u, m !! k = Some u -> 0 <= u) ->
  0 <= msum m /\ forall k u, m !! k = Some u -> u <= msum m.
Proof.
  induction m as [|k v m Hk IH] using map_ind; intros Hm.
  - rewrite msum_empty. split; [lia|]. intros k u. by rewrite lookup_empty.
  - rewrite msum_insert_None by done.
    assert (0 <= v) by (apply (Hm k); apply lookup_insert_eq).
    destruct IH as [IH1 IH2].
    { intros k' u Hu. apply (Hm k'). rewrite lookup_insert_ne; [done|]. intros ->. congruence. }
    split; [lia|]. intros k' u Hu. destruct (decide (k = k')) as [->|Hne].
    + rewrite lookup_insert_eq in Hu. injection Hu as ->. lia.
    + rewrite lookup_insert_ne in Hu by done. specialize (IH2 k' u Hu). lia.
Qed.
