(* ===== verification/Serial.v ===== *)
(** * 16-bit RTP sequence arithmetic (validation/fragment.go)

    The signed distance [int(int16(s1 - s2))] that the depacketizers, the loss
    tracker and the fragment validator all use, and its relation to unbounded
    sequence numbers. *)

From S2P Require Import Prelude.

Definition sequenceDistance (s1 s2 : Z) : Z := i16 (u16 (s1 - s2)).

Definition is_u16 (s : Z) : Prop := 0 <= s < 2 ^ 16.

(** The numbers [n] and [m] are at most half the sequence space apart. *)
Definition in_window (n m : Z) : Prop := - 2 ^ 15 <= n - m < 2 ^ 15.

Lemma sequenceDistance_range s1 s2 : - 2 ^ 15 <= sequenceDistance s1 s2 < 2 ^ 15.
Proof. unfold sequenceDistance. mlia. Qed.

Lemma sequenceDistance_window n m :
  in_window n m -> sequenceDistance (u16 n) (u16 m) = n - m.
Proof. unfold sequenceDistance, in_window. mlia. Qed.

Lemma sequenceDistance_0 s1 s2 :
  is_u16 s1 -> is_u16 s2 -> sequenceDistance s1 s2 = 0 <-> s1 = s2.
Proof. unfold sequenceDistance, is_u16. intros. split; [|intros ->]; mlia. Qed.

Lemma sequenceDistance_1 s1 s2 :
  is_u16 s1 -> is_u16 s2 -> sequenceDistance s1 s2 = 1 <-> s1 = u16 (s2 + 1).
Proof. unfold sequenceDistance, is_u16. intros. split; mlia. Qed.

(** The distance leads from [s2] back to [s1]. *)
Lemma sequenceDistance_add s1 s2 : is_u16 s1 -> u16 (s2 + sequenceDistance s1 s2) = s1.
Proof. unfold sequenceDistance, is_u16. intros. mlia. Qed.

Lemma u16_is_u16 n : is_u16 (u16 n).
Proof. apply u16_range. Qed.

#[export] Hint Resolve u16_is_u16 : mirror.

(** On 16-bit sequence numbers the distance is the difference of any two
    unbounded sequence numbers they stand for that lie within half the
    sequence space of each other; it always leads back from the second number
    to the first, and reversing the arguments negates it except at exactly
    half the space, where both directions give -32768. *)
Theorem sequenceDistance_serial (n m s1 s2 : Z) :
  is_u16 s1 -> is_u16 s2 ->
  (in_window n m -> sequenceDistance (u16 n) (u16 m) = n - m) /\
  u16 (s2 + sequenceDistance s1 s2) = s1 /\
  (sequenceDistance s2 s1 = - sequenceDistance s1 s2 \/
   (sequenceDistance s1 s2 = - 2 ^ 15 /\ sequenceDistance s2 s1 = - 2 ^ 15)).
Proof.
  intros H1 H2. split; [apply sequenceDistance_window|]. split; [by apply sequenceDistance_add|].
  unfold sequenceDistance, is_u16 in *. mlia.
Qed.

Lemma sequenceDistance_serial_witness :
  sequenceDistance (u16 65540) (u16 65530) = 10.
Proof.
  exact (proj1 (sequenceDistance_serial 65540 65530 4 65530 ltac:(unfold is_u16; lia)
    ltac:(unfold is_u16; lia)) ltac:(unfold in_window; lia)).
Defined.
