(* ===== verification/LossTracker.v ===== *)
(** * RTP packet loss tracking (rtp/packet_loss_tracker.go)

    The tracker's record, its operations and their relation to the unbounded
    sequence numbers of the sender.  The mutex covers every method, so each
    operation is one step; the [time.Now()] readings are arguments. *)

From S2P Require Import Prelude Float64 Serial.

Record PacketLossTracker := mkPLT {
  initialized : bool;
  highestSeq : Z;
  baseSeq : Z;
  cycles : Z;
  extendedSeq : Z;
  expectedPackets : Z;
  receivedPackets : Z;
  lostPackets : Z;
  lossEvents : Z;
  maxConsecutiveLoss : Z;
  currentLossStreak : Z;
  recoveredPackets : Z;
  unrecoverableLoss : Z;
  recentLosses : list Z;
  recentLossIndex : Z;
  recentLossSize : Z;
  lastPacketTime : Z;
  lastLossTime : Z;
  lossWindowStart : Z;
  lossWindowPackets : Z;
  lossWindowLosses : Z;
  maxRecentLosses : Z;
  lossWindowDuration : Z
}.

#[export] Instance eta_PLT : Eta PacketLossTracker := fun p => mkPLT
  (initialized p) (highestSeq p) (baseSeq p) (cycles p) (extendedSeq p) (expectedPackets p)
  (receivedPackets p) (lostPackets p) (lossEvents p) (maxConsecutiveLoss p)
  (currentLossStreak p) (recoveredPackets p) (unrecoverableLoss p) (recentLosses p)
  (recentLossIndex p) (recentLossSize p) (lastPacketTime p) (lastLossTime p)
  (lossWindowStart p) (lossWindowPackets p) (lossWindowLosses p) (maxRecentLosses p)
  (lossWindowDuration p).

Inductive plt_error : Type :=
| DuplicatePacket (seq : Z)
| SequenceReset (from to distance : Z).

(** ** Operations *)

Definition NewPacketLossTracker (now : Z) : PacketLossTracker :=
  mkPLT false 0 0 0 0 0 0 0 0 0 0 0 0 (replicate 1000 0) 0 0 zero_time zero_time now 0 0
    1000 (10 * second).

(** [for seq := startSeq; seq != endSeq+1 && size < max; seq++] *)
Fixpoint record_loop (fuel : nat) (seq stop : Z) (p : PacketLossTracker) : res PacketLossTracker :=
  if negb (seq =? stop) && (recentLossSize p <? maxRecentLosses p) then
    match fuel with
    | O => NoFuel
    | S fuel =>
        losses ← set_idx (recentLosses p) (recentLossIndex p) seq;
        let p := p <| recentLosses := losses |>
                   <| recentLossIndex := Z.rem (recentLossIndex p + 1) (maxRecentLosses p) |> in
        let p := if recentLossSize p <? maxRecentLosses p
                 then p <| recentLossSize := recentLossSize p + 1 |> else p in
        record_loop fuel (u16 (seq + 1)) stop p
    end
  else Ret p.

Definition recordLoss (startSeq endSeq count now : Z) (p : PacketLossTracker)
    : res PacketLossTracker :=
  let p := p <| lostPackets := u64 (lostPackets p + count) |>
             <| lossEvents := u64 (lossEvents p + 1) |>
             <| lastLossTime := now |>
             <| lossWindowLosses := u64 (lossWindowLosses p + count) |>
             <| currentLossStreak := u16 (currentLossStreak p + u16 count) |> in
  let p := if maxConsecutiveLoss p <? currentLossStreak p
           then p <| maxConsecutiveLoss := currentLossStreak p |> else p in
  record_loop (Z.to_nat (maxRecentLosses p - recentLossSize p)) startSeq (u16 (endSeq + 1)) p.

(** The ring slot of the [i]-th most recent loss. *)
Definition recent_slot (p : PacketLossTracker) (i : Z) : Z :=
  Z.rem (recentLossIndex p - 1 - i + maxRecentLosses p) (maxRecentLosses p).

Fixpoint recently_lost_loop (n : nat) (i seq : Z) (p : PacketLossTracker) : res bool :=
  match n with
  | O => Ret false
  | S n =>
      s ← idx (recentLosses p) (recent_slot p i);
      if s =? seq then Ret true else recently_lost_loop n (i + 1) seq p
  end.

Definition wasRecentlyLost (seq : Z) (p : PacketLossTracker) : res bool :=
  recently_lost_loop (Z.to_nat (recentLossSize p)) 0 seq p.

Definition updateLossWindow (now : Z) (p : PacketLossTracker) : PacketLossTracker :=
  let p := if lossWindowDuration p <? time_sub now (lossWindowStart p)
           then p <| lossWindowStart := now |> <| lossWindowPackets := 0 |>
                  <| lossWindowLosses := 0 |>
           else p in
  p <| lossWindowPackets := u64 (lossWindowPackets p + 1) |>.

(** [now] is the reading at the start of the method, [nowLoss] the one taken
    by recordLoss. *)
Definition ProcessSequence (seq now nowLoss : Z) : method PacketLossTracker plt_error unit := fun p =>
  if negb (initialized p) then
    Ret (p <| initialized := true |> <| baseSeq := seq |> <| highestSeq := seq |>
           <| extendedSeq := seq |> <| lastPacketTime := now |>
           <| receivedPackets := 1 |> <| expectedPackets := 1 |>, Val tt)
  else
    let p := p <| lastPacketTime := now |> in
    let distance := sequenceDistance seq (highestSeq p) in
    if distance =? 0 then Ret (p, Err (DuplicatePacket seq))
    else if (0 <? distance) && (distance <? 32768) then
      p ← (if 1 <? distance
           then recordLoss (u16 (highestSeq p + 1)) (u16 (seq - 1)) (u64 (distance - 1)) nowLoss p
           else Ret p);
      let p := if seq <? highestSeq p then p <| cycles := u32 (cycles p + 1) |> else p in
      let p := p <| highestSeq := seq |> in
      let p := p <| extendedSeq := Z.lor (u64 (Z.shiftl (cycles p) 16)) seq |>
                 <| receivedPackets := u64 (receivedPackets p + 1) |>
                 <| expectedPackets := u64 (expectedPackets p + u64 distance) |>
                 <| currentLossStreak := 0 |> in
      Ret (updateLossWindow now p, Val tt)
    else if (distance <? 0) && (-100 <? distance) then
      lost ← wasRecentlyLost seq p;
      let p := if (lost : bool) then p <| recoveredPackets := u64 (recoveredPackets p + 1) |> else p in
      let p := p <| receivedPackets := u64 (receivedPackets p + 1) |> in
      Ret (updateLossWindow now p, Val tt)
    else Ret (p, Err (SequenceReset (highestSeq p) seq distance)).

(** [for i := 0; i < size && i < 10; i++] *)
Fixpoint detected_loop (n : nat) (i startIdx : Z) (p : PacketLossTracker) : res (list Z) :=
  match n with
  | O => Ret []
  | S n =>
      if (i <? recentLossSize p) && (i <? 10) then
        s ← idx (recentLosses p) (Z.rem (startIdx + i) (maxRecentLosses p));
        rest ← detected_loop n (i + 1) startIdx p;
        Ret (s :: rest)
      else Ret []
  end.

Definition detectPacketLoss (seq now nowLoss : Z)
    : method PacketLossTracker plt_error (list Z) := fun p =>
  '(p, err) ← ProcessSequence seq now nowLoss p;
  match err with
  | Err e => Ret (p, Err e)
  | Val _ =>
      if 0 <? recentLossSize p then
        let startIdx := recentLossIndex p - recentLossSize p in
        let startIdx := if startIdx <? 0 then startIdx + maxRecentLosses p else startIdx in
        lost ← detected_loop 10 0 startIdx p;
        Ret (p, Val lost)
      else Ret (p, Val [])
  end.

Record RecoveryStats := mkRecoveryStats {
  TotalLost : Z;
  TotalRecovered : Z;
  UnrecoverableLoss : Z;
  CurrentLossRate : float64;
  AverageLossRate : float64;
  MaxConsecutiveLoss : Z;
  LossEvents : Z
}.

Definition GetStats (p : PacketLossTracker) : RecoveryStats :=
  {| TotalLost := lostPackets p;
     TotalRecovered := recoveredPackets p;
     UnrecoverableLoss := u64 (lostPackets p - recoveredPackets p);
     CurrentLossRate := if 0 <? lossWindowPackets p
       then f64_div (f64_of_Z (lossWindowLosses p)) (f64_of_Z (lossWindowPackets p))
       else f64_of_Z 0;
     AverageLossRate := if 0 <? expectedPackets p
       then f64_div (f64_of_Z (lostPackets p)) (f64_of_Z (expectedPackets p))
       else f64_of_Z 0;
     MaxConsecutiveLoss := maxConsecutiveLoss p;
     LossEvents := lossEvents p |}.

Fixpoint lost_packets_loop (n : nat) (i : Z) (p : PacketLossTracker) : res (list Z) :=
  match n with
  | O => Ret []
  | S n =>
      s ← idx (recentLosses p) (recent_slot p i);
      rest ← lost_packets_loop n (i + 1) p;
      Ret (s :: rest)
  end.

Definition GetLostPackets (maxCount : Z) (p : PacketLossTracker) : res (list Z) :=
  let count := recentLossSize p in
  let count := if maxCount <? count then maxCount else count in
  lost_packets_loop (Z.to_nat count) 0 p.

Definition Reset (now : Z) (p : PacketLossTracker) : PacketLossTracker :=
  p <| initialized := false |> <| highestSeq := 0 |> <| baseSeq := 0 |> <| cycles := 0 |>
    <| extendedSeq := 0 |> <| expectedPackets := 0 |> <| receivedPackets := 0 |>
    <| lostPackets := 0 |> <| lossEvents := 0 |> <| maxConsecutiveLoss := 0 |>
    <| currentLossStreak := 0 |> <| recoveredPackets := 0 |> <| unrecoverableLoss := 0 |>
    <| recentLossIndex := 0 |> <| recentLossSize := 0 |> <| lossWindowStart := now |>
    <| lossWindowPackets := 0 |> <| lossWindowLosses := 0 |>.

(** A run: each arriving sequence number with the two clock readings of its
    call; errors are returned to a caller that goes on. *)
Definition arrival : Type := Z * Z * Z.

Fixpoint process_all (arrivals : list arrival) (p : PacketLossTracker) : res PacketLossTracker :=
  match arrivals with
  | [] => Ret p
  | (seq, now, nowLoss) :: rest =>
      '(p, _) ← ProcessSequence seq now nowLoss p; process_all rest p
  end.

Example detect_ex :
  (p ← process_all [(65534, 0, 0)] (NewPacketLossTracker 0);
   '(_, r) ← detectPacketLoss 2 0 0 p; Ret r) = Ret (Val [65535; 0; 1]).
Proof. vm_compute. reflexivity. Qed.

(** ** The ring of recent losses *)

Definition ring_ok (p : PacketLossTracker) : Prop :=
  0 < maxRecentLosses p /\ len (recentLosses p) = maxRecentLosses p /\
  0 <= recentLossIndex p < maxRecentLosses p /\ 0 <= recentLossSize p <= maxRecentLosses p.

(** The sequence numbers the ring remembers. *)
Definition ring_mem (p : PacketLossTracker) (s : Z) : Prop :=
  exists j, 0 <= j < recentLossSize p /\
    recentLosses p !! Z.to_nat (recent_slot p j) = Some s.

Definition wf (p : PacketLossTracker) : Prop := ring_ok p /\ is_u16 (highestSeq p).

(** [p'] differs from [p] at most in the ring. *)
Definition ring_only (p p' : PacketLossTracker) : Prop :=
  p' = p <| recentLosses := recentLosses p' |> <| recentLossIndex := recentLossIndex p' |>
         <| recentLossSize := recentLossSize p' |>.

Lemma recent_slot_mod p j :
  ring_ok p -> 0 <= j < maxRecentLosses p ->
  recent_slot p j = (recentLossIndex p - 1 - j) mod maxRecentLosses p.
Proof.
  intros (H0 & _ & Hi & _) Hj. unfold recent_slot. rewrite Z.rem_mod_nonneg by lia.
  replace (recentLossIndex p - 1 - j + maxRecentLosses p)
    with (recentLossIndex p - 1 - j + 1 * maxRecentLosses p) by lia.
  by rewrite Z.mod_add by lia.
Qed.

Lemma recent_slot_range p j :
  ring_ok p -> 0 <= j < maxRecentLosses p -> 0 <= recent_slot p j < maxRecentLosses p.
Proof.
  intros Hr Hj. rewrite recent_slot_mod by done. apply Z.mod_pos_bound. by destruct Hr.
Qed.

(** Writing at the index and advancing it adds one remembered number. *)
Lemma ring_push p s :
  ring_ok p -> recentLossSize p < maxRecentLosses p ->
  let p' := p <| recentLosses := <[Z.to_nat (recentLossIndex p) := s]> (recentLosses p) |>
              <| recentLossIndex := Z.rem (recentLossIndex p + 1) (maxRecentLosses p) |>
              <| recentLossSize := recentLossSize p + 1 |> in
  ring_ok p' /\ forall x, ring_mem p' x <-> x = s \/ ring_mem p x.
Proof.
  intros Hr Hlt p'. pose proof Hr as (H0 & Hlen & Hi & Hn).
  assert (ring_ok p') as Hr'.
  { unfold ring_ok, p'; simpl. unfold len in *. rewrite length_insert.
    rewrite Z.rem_mod_nonneg by lia. pose proof (Z.mod_pos_bound (recentLossIndex p + 1) (maxRecentLosses p)).
    lia. }
  split; [done|].
  assert (Hslot0 : recent_slot p' 0 = recentLossIndex p).
  { rewrite recent_slot_mod by (unfold p' in *; simpl; (done || lia)). unfold p'; simpl.
    rewrite Z.rem_mod_nonneg by lia. rewrite <- Z.sub_add_distr, Zminus_mod_idemp_l.
    replace (recentLossIndex p + 1 - (1 + 0)) with (recentLossIndex p) by lia. by apply Z.mod_small. }
  assert (HslotS : forall j, 0 <= j < recentLossSize p ->
    recent_slot p' (j + 1) = recent_slot p j /\ recent_slot p j <> recentLossIndex p).
  { intros j Hj. rewrite (recent_slot_mod p') by (unfold p' in *; simpl; (done || lia)).
    rewrite (recent_slot_mod p) by (done || lia). unfold p'; simpl.
    rewrite Z.rem_mod_nonneg by lia. split.
    - rewrite <- Z.sub_add_distr, Zminus_mod_idemp_l. f_equal; lia.
    - intros Heq. destruct (Z.lt_ge_cases j (recentLossIndex p)).
      + rewrite Z.mod_small in Heq by lia. lia.
      + rewrite <- (Z.mod_add _ 1), Z.mod_small in Heq by lia. lia. }
  intros x. unfold ring_mem. split.
  - intros (j & Hj & Hx). change (recentLossSize p') with (recentLossSize p + 1) in Hj.
    destruct (decide (j = 0)) as [->|Hj0].
    + rewrite Hslot0 in Hx. unfold p' in Hx; simpl in Hx. unfold len in *.
      rewrite list_lookup_insert_eq in Hx by lia. left. congruence.
    + right. exists (j - 1). split; [lia|]. destruct (HslotS (j - 1)) as [E Hne]; [lia|].
      replace (j - 1 + 1) with j in E by lia. rewrite E in Hx. unfold p' in Hx; simpl in Hx.
      pose proof (recent_slot_range p (j - 1) Hr ltac:(lia)).
      by rewrite list_lookup_insert_ne in Hx by lia.
  - intros [-> | (j & Hj & Hx)].
    + exists 0. split; [unfold p'; simpl; lia|]. rewrite Hslot0. unfold p'; simpl. unfold len in *.
      apply list_lookup_insert_eq. lia.
    + exists (j + 1). split; [unfold p'; simpl; lia|]. destruct (HslotS j Hj) as [-> Hne].
      pose proof (recent_slot_range p j Hr ltac:(lia)). unfold p'; simpl.
      by rewrite list_lookup_insert_ne by lia.
Qed.

Lemma ring_only_refl p : ring_only p p.
Proof. by destruct p. Qed.

Lemma ring_only_step p l i n p' :
  ring_only (p <| recentLosses := l |> <| recentLossIndex := i |> <| recentLossSize := n |>) p' ->
  ring_only p p'.
Proof. unfold ring_only. intros H. rewrite H. by destruct p. Qed.

(** The recording loop never panics or runs out of fuel, touches only the
    ring, remembers nothing once the ring is full, and remembers the whole
    range when there is room for it. *)
Lemma record_loop_spec fuel seq stop p :
  ring_ok p -> is_u16 seq -> is_u16 stop ->
  maxRecentLosses p - recentLossSize p <= Z.of_nat fuel ->
  exists p', record_loop fuel seq stop p = Ret p' /\ ring_ok p' /\ ring_only p p' /\
    (recentLossSize p = maxRecentLosses p -> p' = p) /\
    (forall x, ring_mem p x -> ring_mem p' x) /\
    (recentLossSize p + u16 (stop - seq) <= maxRecentLosses p ->
     forall x, ring_mem p' x <-> ring_mem p x \/ (is_u16 x /\ u16 (x - seq) < u16 (stop - seq))).
Proof.
  revert seq p. induction fuel as [|fuel IH]; intros seq p Hr Hs Hst Hf; cbn [record_loop];
    pose proof Hr as (H0 & Hlen & Hi & Hn).
  - rewrite (proj2 (Z.ltb_ge _ _)), andb_false_r by lia. exists p.
    split_and!; try (done || apply ring_only_refl || auto).
    intros Hroom x. assert (u16 (stop - seq) = 0) as -> by mlia. split; [auto|].
    intros [?|[_ ?]]; [done|]. pose proof (u16_range (x - seq)). lia.
  - destruct (Z.eqb_spec seq stop) as [->|Hne]; simpl negb; cbn [andb].
    { exists p. split_and!; try (done || apply ring_only_refl || auto).
      intros _ x. rewrite Z.sub_diag. change (u16 0) with 0. split; [auto|].
      intros [?|[_ ?]]; [done|]. pose proof (u16_range (x - stop)). lia. }
    destruct (Z.ltb_spec (recentLossSize p) (maxRecentLosses p)) as [Hlt|Hge].
    + unfold set_idx. rewrite (proj2 (Z.ltb_ge _ 0)), (proj2 (Z.leb_gt _ _)) by lia.
      cbn [orb]. rewrite bind_Ret. cbv zeta.
      destruct (ring_push p seq Hr Hlt) as [Hr' Hmem']. cbv zeta in Hr', Hmem'.
      simpl in Hr', Hmem' |- *. rewrite (proj2 (Z.ltb_lt _ _)) by lia.
      match type of Hr' with ring_ok ?q => set (p1 := q) in * end.
      destruct (IH (u16 (seq + 1)) p1) as (p' & Hrun & Hok & Honly & _ & Hkeep & Hmem);
        [done|apply u16_is_u16|done|unfold p1; simpl; lia|].
      exists p'. split; [exact Hrun|]. split; [done|]. split.
      { exact (ring_only_step p (recentLosses p1) (recentLossIndex p1) (recentLossSize p1) p' Honly). }
      split; [lia|]. split; [intros x Hx; apply Hkeep, Hmem'; auto|].
      assert (u16 (stop - u16 (seq + 1)) = u16 (stop - seq) - 1) as Hcnt by (unfold is_u16 in *; mlia).
      intros Hroom x. rewrite Hmem, Hmem', Hcnt by (unfold p1; simpl; lia).
      assert (is_u16 x -> u16 (x - seq) < u16 (stop - seq) <->
        x = seq \/ u16 (x - u16 (seq + 1)) < u16 (stop - seq) - 1) as Hx
        by (unfold is_u16 in *; mlia).
      split; [intros [[->|?]|[Hu ?]]|intros [?|[Hu ?]]]; auto.
      * right. split; [done|]. apply Hx; auto.
      * right. split; [done|]. apply Hx; auto.
      * destruct (proj1 (Hx Hu) H) as [->|?]; auto.
    + exists p. split_and!; try (done || apply ring_only_refl || auto).
      intros Hroom x. assert (u16 (stop - seq) = 0) as -> by mlia. split; [auto|].
      intros [?|[_ ?]]; [done|]. pose proof (u16_range (x - seq)). lia.
Qed.

Lemma recently_lost_loop_spec n i seq p :
  ring_ok p -> 0 <= i -> i + Z.of_nat n <= recentLossSize p ->
  exists b, recently_lost_loop n i seq p = Ret b /\
    (b = true <-> exists j, i <= j < i + Z.of_nat n /\
                    recentLosses p !! Z.to_nat (recent_slot p j) = Some seq).
Proof.
  intros Hr. revert i. induction n as [|n IH]; intros i Hi Hn; cbn [recently_lost_loop].
  - exists false. split; [done|]. split; [done|]. intros (j & ? & _). lia.
  - pose proof Hr as (H0 & Hlen & _ & Hsz).
    destruct (idx_Ret (recentLosses p) (recent_slot p i)) as (s & -> & Hs).
    { rewrite Hlen. apply recent_slot_range; [done|lia]. }
    rewrite bind_Ret. destruct (Z.eqb_spec s seq) as [->|Hne].
    + exists true. split; [done|]. split; [|done]. intros _. exists i. split; [lia|done].
    + destruct (IH (i + 1)) as (b & -> & Hb); [lia|lia|]. exists b. split; [done|]. rewrite Hb.
      split; intros (j & Hj & Hl); exists j; (split; [|done]); [lia|].
      destruct (decide (j = i)) as [->|]; [congruence|lia].
Qed.

Lemma wasRecentlyLost_spec seq p :
  ring_ok p -> exists b, wasRecentlyLost seq p = Ret b /\ (b = true <-> ring_mem p seq).
Proof.
  intros Hr. pose proof Hr as (_ & _ & _ & Hsz).
  destruct (recently_lost_loop_spec (Z.to_nat (recentLossSize p)) 0 seq p Hr) as (b & H & Hb);
    [lia|lia|]. exists b. split; [exact H|]. rewrite Hb. unfold ring_mem.
  replace (0 + Z.of_nat (Z.to_nat (recentLossSize p))) with (recentLossSize p) by lia. done.
Qed.

(** What recordLoss and updateLossWindow leave alone. *)
Definition same_seq (p p' : PacketLossTracker) : Prop :=
  initialized p' = initialized p /\ highestSeq p' = highestSeq p /\ baseSeq p' = baseSeq p /\
  cycles p' = cycles p /\ extendedSeq p' = extendedSeq p /\
  expectedPackets p' = expectedPackets p /\ receivedPackets p' = receivedPackets p /\
  recoveredPackets p' = recoveredPackets p /\ maxRecentLosses p' = maxRecentLosses p.

Lemma same_seq_trans p q r : same_seq p q -> same_seq q r -> same_seq p r.
Proof. unfold same_seq. intuition congruence. Qed.

Lemma ring_only_frame p p' :
  ring_only p p' -> same_seq p p' /\ lostPackets p' = lostPackets p.
Proof. unfold ring_only, same_seq. intros ->. by destruct p. Qed.

Lemma recordLoss_spec startSeq endSeq count now p :
  ring_ok p -> is_u16 startSeq ->
  exists p', recordLoss startSeq endSeq count now p = Ret p' /\ ring_ok p' /\
    same_seq p p' /\ lostPackets p' = u64 (lostPackets p + count) /\
    (recentLossSize p = maxRecentLosses p -> recentLosses p' = recentLosses p) /\
    (recentLossSize p + u16 (endSeq + 1 - startSeq) <= maxRecentLosses p ->
     forall x, ring_mem p' x <->
       ring_mem p x \/ (is_u16 x /\ u16 (x - startSeq) < u16 (endSeq + 1 - startSeq))).
Proof.
  intros Hr Hs. unfold recordLoss.
  match goal with |- context [if ?c then ?a else ?b] => set (p1 := if c then a else b) end.
  assert (ring_ok p1 /\ (forall x, ring_mem p1 x <-> ring_mem p x) /\ same_seq p p1 /\
    lostPackets p1 = u64 (lostPackets p + count) /\ recentLossSize p1 = recentLossSize p /\
    maxRecentLosses p1 = maxRecentLosses p /\ recentLosses p1 = recentLosses p)
    as (Hr1 & Hmem1 & Hf1 & Hl1 & Hn1 & Hm1 & Hls1) 
    by (unfold p1; case_bool; (split; [exact Hr|split; [intros x; reflexivity|repeat split]])).
  destruct (record_loop_spec (Z.to_nat (maxRecentLosses p1 - recentLossSize p1)) startSeq
    (u16 (endSeq + 1)) p1 Hr1 Hs (u16_is_u16 _)) as (p' & Hrun & Hok & Honly & Hfull & _ & Hmem);
    [lia|].
  destruct (ring_only_frame _ _ Honly) as [Hf Hl].
  assert (u16 (u16 (endSeq + 1) - startSeq) = u16 (endSeq + 1 - startSeq)) as Hcnt by mlia.
  rewrite Hcnt in Hmem. exists p'. split; [done|]. split; [done|]. split; [by eapply same_seq_trans|].
  split; [congruence|]. split.
  - intros Hfullp. rewrite Hfull; congruence.
  - intros Hroom x. rewrite Hmem, Hmem1 by congruence. done.
Qed.

(** ** The whole operation *)

Lemma updateLossWindow_frame now p :
  same_seq p (updateLossWindow now p) /\
  lostPackets (updateLossWindow now p) = lostPackets p /\
  ring_ok (updateLossWindow now p) = ring_ok p /\
  recentLosses (updateLossWindow now p) = recentLosses p /\
  recentLossSize (updateLossWindow now p) = recentLossSize p /\
  (forall x, ring_mem (updateLossWindow now p) x = ring_mem p x).
Proof. unfold updateLossWindow, same_seq. case_bool; repeat split. Qed.

(** Forward progress: one step of the tracker on the next number received. *)
Lemma process_forward seq now nowLoss p :
  wf p -> is_u16 seq -> initialized p = true ->
  0 < sequenceDistance seq (highestSeq p) ->
  exists p', ProcessSequence seq now nowLoss p = Ret (p', Val tt) /\ wf p' /\
    initialized p' = true /\ highestSeq p' = seq /\ baseSeq p' = baseSeq p /\
    cycles p' = (if seq <? highestSeq p then u32 (cycles p + 1) else cycles p) /\
    extendedSeq p' = Z.lor (u64 (Z.shiftl (cycles p') 16)) seq /\
    expectedPackets p' = u64 (expectedPackets p + sequenceDistance seq (highestSeq p)) /\
    receivedPackets p' = u64 (receivedPackets p + 1) /\
    recoveredPackets p' = recoveredPackets p /\
    (u64 (lostPackets p) = lostPackets p ->
     lostPackets p' = u64 (lostPackets p + (sequenceDistance seq (highestSeq p) - 1))) /\
    maxRecentLosses p' = maxRecentLosses p /\
    (recentLossSize p = maxRecentLosses p -> recentLosses p' = recentLosses p) /\
    (recentLossSize p + (sequenceDistance seq (highestSeq p) - 1) <= maxRecentLosses p ->
     forall x, ring_mem p' x <-> ring_mem p x \/
       (is_u16 x /\ u16 (x - (highestSeq p + 1)) < sequenceDistance seq (highestSeq p) - 1)).
Proof.
  intros [Hr Hh] Hs Hi Hd. pose proof (sequenceDistance_range seq (highestSeq p)) as Hrange.
  unfold ProcessSequence. rewrite Hi. cbn [negb]. cbv zeta.
  set (p0 := p <| lastPacketTime := now |>).
  change (highestSeq p0) with (highestSeq p). set (d := sequenceDistance seq (highestSeq p)) in *.
  rewrite (proj2 (Z.eqb_neq d 0)), (proj2 (Z.ltb_lt 0 d)), (proj2 (Z.ltb_lt d 32768)) by lia. cbn [andb].
  assert (exists p1, (if 1 <? d then recordLoss (u16 (highestSeq p + 1)) (u16 (seq - 1)) (u64 (d - 1)) nowLoss p0
      else Ret p0) = Ret p1 /\ ring_ok p1 /\ same_seq p p1 /\
      (u64 (lostPackets p) = lostPackets p -> lostPackets p1 = u64 (lostPackets p + (d - 1))) /\
      (recentLossSize p = maxRecentLosses p -> recentLosses p1 = recentLosses p) /\
      (recentLossSize p + (d - 1) <= maxRecentLosses p -> forall x, ring_mem p1 x <-> ring_mem p x \/
         (is_u16 x /\ u16 (x - (highestSeq p + 1)) < d - 1)))
    as (p1 & -> & Hr1 & Hf1 & Hl1 & Hfull1 & Hmem1).
  { destruct (Z.ltb_spec 1 d) as [H1|H1].
    - destruct (recordLoss_spec (u16 (highestSeq p + 1)) (u16 (seq - 1)) (u64 (d - 1)) nowLoss p0 Hr
        (u16_is_u16 _)) as (p1 & Hrun & Hok & Hf & Hl & Hfull & Hmem).
      exists p1. split_and!; try done.
      + intros _. rewrite Hl. change (lostPackets p0) with (lostPackets p). mlia.
      + assert (u16 (u16 (seq - 1) + 1 - u16 (highestSeq p + 1)) = d - 1) as Hcnt
          by (unfold d, sequenceDistance, is_u16 in *; mlia).
        rewrite Hcnt in Hmem. intros Hroom x. rewrite Hmem by done.
        assert (u16 (x - u16 (highestSeq p + 1)) = u16 (x - (highestSeq p + 1))) as -> by mlia. done.
    - exists p0. split_and!; try done.
      + intros Hl. change (lostPackets p0) with (lostPackets p). rewrite <- Hl at 1. f_equal; lia.
      + intros _ x. split; [auto|]. intros [?|[_ ?]]; [done|].
        pose proof (u16_range (x - (highestSeq p + 1))). lia. }
  rewrite bind_Ret. destruct Hf1 as (Ei & Eh & Eb & Ec & Ee & Eex & Erc & Erv & Em). rewrite Eh.
  eexists. split; [reflexivity|].
  match goal with |- context [updateLossWindow now ?q] =>
    destruct (updateLossWindow_frame now q) as ((Gi & Gh & Gb & Gc & Ge & Gex & Grc & Grv & Gm) & Fl & Fr & Frl & Frs & Fm);
    set (p3 := updateLossWindow now q) in *; clearbody p3; set (p2 := q) in *
  end.
  assert (u64 d = d) as Hud by (apply u64_id; lia).
  assert (ring_ok p2 /\ highestSeq p2 = seq) as [Hr2 Hs2]
    by (unfold p2; destruct (seq <? highestSeq p); by split).
  split; [unfold wf; rewrite Fr, Gh, Hs2; by split|].
  rewrite Gi, Gh, Gb, Gc, Ge, Gex, Grc, Grv, Gm, Fl, Frl.
  unfold p2. destruct (seq <? highestSeq p); simpl;
    rewrite ?Ei, ?Eh, ?Eb, ?Ec, ?Eex, ?Erc, ?Erv, ?Em, ?Hud; split_and!; try done;
    (intros Hroom x; rewrite Fm; exact (Hmem1 Hroom x)).
Qed.

(** A late packet within the last hundred numbers. *)
Lemma process_late seq now nowLoss p :
  wf p -> initialized p = true -> -100 < sequenceDistance seq (highestSeq p) < 0 ->
  exists p' b, ProcessSequence seq now nowLoss p = Ret (p', Val tt) /\ wf p' /\
    (b = true <-> ring_mem p seq) /\ initialized p' = true /\ highestSeq p' = highestSeq p /\
    recoveredPackets p' = (if b : bool then u64 (recoveredPackets p + 1) else recoveredPackets p) /\
    receivedPackets p' = u64 (receivedPackets p + 1) /\ lostPackets p' = lostPackets p /\
    (forall x, ring_mem p' x <-> ring_mem p x).
Proof.
  intros [Hr Hh] Hi Hd. unfold ProcessSequence. rewrite Hi. cbn [negb]. cbv zeta.
  set (p0 := p <| lastPacketTime := now |>). change (highestSeq p0) with (highestSeq p).
  set (d := sequenceDistance seq (highestSeq p)) in *.
  rewrite (proj2 (Z.eqb_neq d 0)), (proj2 (Z.ltb_ge 0 d)), (proj2 (Z.ltb_lt d 0)) by lia. cbn [andb].
  rewrite (proj2 (Z.ltb_lt (-100) d)) by lia.
  destruct (wasRecentlyLost_spec seq p0 Hr) as (b & -> & Hb). rewrite bind_Ret.
  eexists _, b. split; [reflexivity|].
  match goal with |- context [updateLossWindow now ?q] =>
    destruct (updateLossWindow_frame now q) as ((Gi & Gh & _ & _ & _ & _ & Grc & Grv & _) & Fl & Fr & _ & _ & Fm);
    set (p3 := updateLossWindow now q) in *; clearbody p3; set (p2 := q) in *
  end.
  assert (ring_ok p2 /\ highestSeq p2 = highestSeq p /\ forall x, ring_mem p2 x <-> ring_mem p x)
    as (Hr2 & Hs2 & Hm2).
  { unfold p2. destruct b; (split; [exact Hr|split; [done|intros x; reflexivity]]). }
  split; [unfold wf; rewrite Fr, Gh, Hs2; by split|]. split; [exact Hb|].
  split; [rewrite Gi; unfold p2; by destruct b|]. split; [congruence|].
  rewrite Grv, Grc, Fl. unfold p2. split_and!; try (by destruct b).
  intros x. rewrite Fm. apply Hm2.
Qed.

Lemma NewPacketLossTracker_wf now : wf (NewPacketLossTracker now).
Proof. unfold wf, ring_ok, is_u16, NewPacketLossTracker, len; simpl; lia. Qed.

(** ** Refinement to unbounded sequence numbers *)

(** The tracker after receiving [cnt] packets whose first and highest
    unbounded numbers are [first] and [hi]. *)
Definition tracks (p : PacketLossTracker) (first hi cnt : Z) : Prop :=
  wf p /\ initialized p = true /\ baseSeq p = first /\ highestSeq p = u16 hi /\
  cycles p = hi / 2 ^ 16 /\ extendedSeq p = hi /\
  expectedPackets p = hi - first + 1 /\ receivedPackets p = cnt /\
  lostPackets p = hi - first + 1 - cnt.

(** Increasing numbers, each less than half the sequence space ahead. *)
Fixpoint in_order (hi : Z) (ns : list Z) : Prop :=
  match ns with [] => True | n :: r => hi < n < hi + 2 ^ 15 /\ in_order n r end.

Definition number (a : arrival) : Z := a.1.1.

Definition on_wire (a : arrival) : arrival := (u16 a.1.1, a.1.2, a.2).

Lemma last_cons_default (n d : Z) l : List.last (n :: l) d = List.last l n.
Proof.
  revert n d; induction l as [|x l IH]; intros n d; [done|].
  change (List.last (n :: x :: l) d) with (List.last (x :: l) d). by rewrite !IH.
Qed.

Lemma in_order_last hi ns : in_order hi ns -> hi + len ns <= List.last ns hi.
Proof.
  revert hi. induction ns as [|n r IH]; intros hi H; [rewrite (@len_nil Z); simpl; lia|].
  destruct H as [H1 H2]. specialize (IH n H2). rewrite last_cons_default, len_cons. lia.
Qed.

Lemma tracks_step p first hi cnt n now nowLoss :
  tracks p first hi cnt -> 0 <= first <= hi -> 0 <= cnt <= hi - first + 1 ->
  hi < n < hi + 2 ^ 15 -> n < 2 ^ 48 ->
  exists p', ProcessSequence (u16 n) now nowLoss p = Ret (p', Val tt) /\ tracks p' first n (cnt + 1).
Proof.
  intros (Hwf & Hi & Hb & Hh & Hc & He & Hex & Hrc & Hl) Hf Hcnt Hn Hmax.
  assert (sequenceDistance (u16 n) (highestSeq p) = n - hi) as Hd
    by (rewrite Hh; apply sequenceDistance_window; unfold in_window; lia).
  destruct (process_forward (u16 n) now nowLoss p Hwf (u16_is_u16 n) Hi ltac:(lia))
    as (p' & Hrun & Hwf' & Hi' & Hh' & Hb' & Hc' & He' & Hex' & Hrc' & _ & Hl' & _ & _ & _).
  rewrite Hd in *. exists p'. split; [exact Hrun|].
  assert (Hcyc : cycles p' = n / 2 ^ 16).
  { rewrite Hc', Hh, Hc. change (2 ^ 48) with 281474976710656 in *.
    destruct (Z.ltb_spec (u16 n) (u16 hi)); mlia. }
  unfold tracks. split_and!; try (done || congruence).
  - rewrite He', Hcyc. change (2 ^ 48) with 281474976710656 in *.
    rewrite u64_id by (rewrite Z.shiftl_mul_pow2 by lia; mlia).
    rewrite Z.lor_comm, lor_shiftl_add by (lia || apply u16_range). mlia.
  - rewrite Hex', Hex, u64_id; change (2 ^ 48) with 281474976710656 in *; pow_consts; lia.
  - rewrite Hrc', Hrc, u64_id; change (2 ^ 48) with 281474976710656 in *; pow_consts; lia.
  - change (2 ^ 48) with 281474976710656 in *. rewrite Hl', Hl by (rewrite Hl; apply u64_id; pow_consts; lia).
    rewrite u64_id; pow_consts; lia.
Qed.

(** ** Properties *)

(** for packets received in increasing order of their unbounded sequence
    numbers, with gaps of less than half the 16-bit space, the tracker never
    fails and its extended sequence number is the last unbounded number (the
    cycle count following every wrap), the expected count is the span since
    the first packet, the received count the number of packets, and the lost
    count exactly the difference. *)
Theorem in_order_refinement (t0 first now nowLoss : Z) (arrivals : list arrival) :
  0 <= first < 2 ^ 16 -> in_order first (map number arrivals) ->
  List.last (map number arrivals) first < 2 ^ 48 ->
  exists p, process_all (map on_wire ((first, now, nowLoss) :: arrivals)) (NewPacketLossTracker t0) = Ret p /\
    tracks p first (List.last (map number arrivals) first) (1 + len arrivals).
Proof.
  intros Hf Hord Hmax. cbn [map process_all on_wire fst snd]. rewrite (u16_id first) by done.
  unfold ProcessSequence at 1. cbn [initialized NewPacketLossTracker negb]. rewrite bind_Ret.
  match goal with |- context [process_all _ ?q] => set (p0 := q) end.
  assert (tracks p0 first first 1) as Ht.
  { unfold tracks, p0; simpl. rewrite u16_id by done. split_and!; try (done || lia).
    - by rewrite Z.div_small by lia. }
  clearbody p0.
  assert (Hrun : forall hi cnt p, tracks p first hi cnt -> first <= hi -> 0 <= cnt <= hi - first + 1 ->
    in_order hi (map number arrivals) -> List.last (map number arrivals) hi < 2 ^ 48 ->
    exists p', process_all (map on_wire arrivals) p = Ret p' /\
      tracks p' first (List.last (map number arrivals) hi) (cnt + len arrivals)).
  { clear -Hf. induction arrivals as [|[[n na] nl] rest IH]; intros hi cnt p Htr Hle Hcnt Ho Hm.
    - exists p. rewrite len_nil, Z.add_0_r. done.
    - cbn [map number fst snd in_order] in *. rewrite last_cons_default in *. destruct Ho as [Hn Ho].
      pose proof (in_order_last n _ Ho) as Hlast. pose proof (len_nonneg (map number rest)).
      destruct (tracks_step p first hi cnt n na nl Htr) as (p1 & Hp1 & Ht1); [lia|lia|lia|lia|].
      cbn [process_all on_wire fst snd]. rewrite Hp1, bind_Ret.
      destruct (IH n (cnt + 1) p1 Ht1) as (p' & Hp' & Ht'); [lia|lia|done|done|].
      exists p'. split; [done|]. rewrite len_cons.
      by replace (cnt + (1 + len rest)) with (cnt + 1 + len rest) by lia. }
  apply Hrun; (done || lia).
Qed.

Lemma in_order_refinement_witness :
  exists p, process_all (map on_wire [(65534, 0, 0); (65535, 1, 1); (65540, 2, 2); (65541, 3, 3)])
      (NewPacketLossTracker 0) = Ret p /\ tracks p 65534 65541 4.
Proof.
  apply (in_order_refinement 0 65534 0 0 [(65535, 1, 1); (65540, 2, 2); (65541, 3, 3)]).
  - lia.
  - unfold number; simpl; lia.
  - vm_compute; reflexivity.
Defined.

(** the tracker is total: from any state with a sound loss ring, every
    16-bit sequence number is processed without panic, the ring stays sound,
    and an error is reported exactly for a repetition of the highest number
    and for a number 100 or more behind it (or exactly half the space away),
    with the counters untouched. *)
Theorem ProcessSequence_total (seq now nowLoss : Z) (p : PacketLossTracker) :
  wf p -> is_u16 seq ->
  exists p' r, ProcessSequence seq now nowLoss p = Ret (p', r) /\ wf p' /\
    (initialized p = false -> r = Val tt /\ highestSeq p' = seq /\ extendedSeq p' = seq) /\
    (initialized p = true ->
       let d := sequenceDistance seq (highestSeq p) in
       r = (if d =? 0 then Err (DuplicatePacket seq)
            else if d <=? -100 then Err (SequenceReset (highestSeq p) seq d)
            else Val tt) /\
       (d = 0 \/ d <= -100 -> p' = p <| lastPacketTime := now |>) /\
       highestSeq p' = (if 0 <? d then seq else highestSeq p)).
Proof.
  intros Hwf Hs. destruct (initialized p) eqn:Hi.
  - set (d := sequenceDistance seq (highestSeq p)).
    destruct (Z.lt_trichotomy 0 d) as [Hd|[Hd|Hd]].
    + destruct (process_forward seq now nowLoss p Hwf Hs Hi Hd) as (p' & -> & Hwf' & _ & Hh' & _).
      exists p', (Val tt). split_and!; [done|done|done|]. intros _. cbv zeta.
      rewrite (proj2 (Z.eqb_neq d 0)), (proj2 (Z.leb_gt d _)), (proj2 (Z.ltb_lt 0 d)) by lia.
      split_and!; [done|lia|done].
    + unfold ProcessSequence. rewrite Hi. cbn [negb]. cbv zeta.
      change (highestSeq (p <| lastPacketTime := now |>)) with (highestSeq p). fold d.
      rewrite <- Hd. simpl. eexists _, _. split; [reflexivity|]. split; [exact Hwf|]. done.
    + destruct (Z.lt_ge_cases (-100) d) as [Hl|Hl].
      * destruct (process_late seq now nowLoss p Hwf Hi (conj Hl Hd)) as (p' & b & -> & Hwf' & _ & _ & Hh' & _).
        exists p', (Val tt). split_and!; [done|done|done|]. intros _. cbv zeta.
        rewrite (proj2 (Z.eqb_neq d 0)), (proj2 (Z.leb_gt d _)), (proj2 (Z.ltb_ge 0 d)) by lia.
        split_and!; [done|lia|done].
      * unfold ProcessSequence. rewrite Hi. cbn [negb]. cbv zeta.
        change (highestSeq (p <| lastPacketTime := now |>)) with (highestSeq p). fold d.
        rewrite (proj2 (Z.eqb_neq d 0)), (proj2 (Z.ltb_ge 0 d)), (proj2 (Z.ltb_lt d 0)),
          (proj2 (Z.ltb_ge (-100) d)), (proj2 (Z.leb_le d _)) by lia. cbn [andb].
        eexists _, _. split; [reflexivity|]. split; [exact Hwf|]. done.
  - unfold ProcessSequence. rewrite Hi. cbn [negb]. eexists _, _. split; [reflexivity|].
    split; [by split; [apply Hwf|]|]. done.
Qed.

Lemma ProcessSequence_total_witness :
  exists p' r, ProcessSequence 7 0 0 (NewPacketLossTracker 0) = Ret (p', r) /\ wf p'.
Proof.
  destruct (ProcessSequence_total 7 0 0 (NewPacketLossTracker 0) (NewPacketLossTracker_wf 0)
    ltac:(unfold is_u16; lia)) as (p' & r & H & Hwf & _).
  exists p', r. exact (conj H Hwf).
Defined.

(** What the recovery accounting does.  Numbers skipped by a forward step
    are all remembered while the ring has room, and a late packet counts as
    recovered exactly when its number is remembered; but nothing forgets a
    number, so the same late packet counts again at every repetition: after
    1, 3, 2, 2 the tracker reports one loss, two recoveries and 2^64 - 1
    unrecoverable packets.  And a full ring records no new loss at all. *)
Theorem recovery_accounting (seq now nowLoss : Z) (p : PacketLossTracker) :
  wf p -> is_u16 seq -> initialized p = true ->
  let d := sequenceDistance seq (highestSeq p) in
  (0 < d -> recentLossSize p + (d - 1) <= maxRecentLosses p ->
     exists p', ProcessSequence seq now nowLoss p = Ret (p', Val tt) /\
       forall x, ring_mem p' x <->
         ring_mem p x \/ (is_u16 x /\ u16 (x - (highestSeq p + 1)) < d - 1)) /\
  (0 < d -> recentLossSize p = maxRecentLosses p ->
     exists p', ProcessSequence seq now nowLoss p = Ret (p', Val tt) /\
       recentLosses p' = recentLosses p) /\
  (-100 < d < 0 -> ring_mem p seq ->
     exists p', ProcessSequence seq now nowLoss p = Ret (p', Val tt) /\ ring_mem p' seq /\
       recoveredPackets p' = u64 (recoveredPackets p + 1) /\ lostPackets p' = lostPackets p) /\
  (s ← process_all [(1, 0, 0); (3, 0, 0); (2, 0, 0); (2, 0, 0)] (NewPacketLossTracker 0);
   Ret (TotalLost (GetStats s), TotalRecovered (GetStats s), UnrecoverableLoss (GetStats s)))
  = Ret (1, 2, 2 ^ 64 - 1).
Proof.
  intros Hwf Hs Hi d. split_and!; [| | |vm_compute; reflexivity].
  - intros Hd Hroom.
    destruct (process_forward seq now nowLoss p Hwf Hs Hi Hd) as (p' & Hrun & Hrest). exists p'.
    split; [exact Hrun|]. apply Hrest. exact Hroom.
  - intros Hd Hfull.
    destruct (process_forward seq now nowLoss p Hwf Hs Hi Hd) as (p' & Hrun & Hrest). exists p'.
    split; [exact Hrun|]. by apply Hrest.
  - intros Hd Hm. destruct (process_late seq now nowLoss p Hwf Hi Hd)
      as (p' & b & Hrun & _ & Hb & _ & _ & Hrec & _ & Hl & Hmem). exists p'.
    rewrite (proj2 Hb Hm) in Hrec. split_and!; [done| |done|done]. by apply Hmem.
Qed.

Lemma recovery_accounting_witness :
  let p := (NewPacketLossTracker 0) <| initialized := true |> <| highestSeq := 10 |> in
  exists p', ProcessSequence 13 0 0 p = Ret (p', Val tt) /\
    forall x, ring_mem p' x <-> ring_mem p x \/ (is_u16 x /\ u16 (x - (10 + 1)) < 3 - 1).
Proof.
  assert (wf ((NewPacketLossTracker 0) <| initialized := true |> <| highestSeq := 10 |>)) as Hwf.
  { split; [apply (NewPacketLossTracker_wf 0)|unfold is_u16; simpl; lia]. }
  exact (proj1 (recovery_accounting 13 0 0 _ Hwf ltac:(unfold is_u16; lia) eq_refl)
    ltac:(vm_compute; reflexivity) ltac:(vm_compute; congruence)).
Defined.
