(* ===== verification/Ring.v ===== *)
(** * Circular byte stores and the queue interface

    The storage lemmas both circular buffers rest on - a ring of [len d] bytes
    seen from its read position - and the interface [ByteFifo] that states
    what a buffer promises its clients: an accepted write is appended, a read
    takes a prefix, and nothing else changes the queue.  The client theorem
    [fifo_stream] is proved against the interface alone. *)

From S2P Require Import Prelude.

(** ** The ring seen from position [p] *)

Definition view (d : list Z) (p : Z) : list Z := dropZ p d ++ takeZ p d.

(** [n] bytes from position [p], wrapping at the end. *)
Definition ring_read (d : list Z) (p n : Z) : list Z :=
  if p + n <=? len d then takeZ n (dropZ p d)
  else dropZ p d ++ takeZ (n - (len d - p)) d.

(** [src] written at position [w], wrapping at the end. *)
Definition ring_write (d : list Z) (w : Z) (src : list Z) : list Z :=
  if w + len src <=? len d then blit d w src
  else blit (blit d w (takeZ (len d - w) src)) 0 (dropZ (len d - w) src).

(** The queue of a ring with read position [p] and [used] bytes. *)
Definition ring_contents (d : list Z) (p used : Z) : list Z := takeZ used (view d p).

Lemma len_view d p : 0 <= p <= len d -> len (view d p) = len d.
Proof. intros. unfold view. rewrite len_app, len_takeZ, len_dropZ; lia. Qed.

Lemma view_lookup d p i :
  0 <= p < len d -> 0 <= i < len d ->
  view d p !! Z.to_nat i = d !! Z.to_nat ((p + i) mod len d).
Proof.
  intros Hp Hi. unfold view. destruct (Z.lt_ge_cases (p + i) (len d)).
  - rewrite Z.mod_small by lia.
    rewrite lookup_app_l by (pose proof (len_dropZ p d); unfold len in *; lia).
    unfold dropZ. rewrite lookup_drop. f_equal; lia.
  - replace ((p + i) mod len d) with (p + i - len d)
      by (symmetry; rewrite <- (Z.mod_add _ (-1)), Z.mod_small; lia).
    pose proof (len_dropZ p d ltac:(lia)) as Hl.
    rewrite lookup_app_r by (unfold len in *; lia).
    unfold takeZ. rewrite lookup_take_lt by (unfold len in *; lia). f_equal. unfold len in *. lia.
Qed.

Lemma ring_read_view d p n :
  0 <= p < len d -> 0 <= n <= len d -> ring_read d p n = takeZ n (view d p).
Proof.
  intros Hp Hn. unfold ring_read, view. destruct (Z.leb_spec (p + n) (len d)).
  - rewrite takeZ_app_le; [done|]. rewrite len_dropZ by lia. lia.
  - rewrite takeZ_app_ge by (rewrite len_dropZ; lia). rewrite len_dropZ by lia. f_equal.
    unfold takeZ. rewrite take_take. f_equal. lia.
Qed.

Lemma blit_lookup (d : list Z) w src j :
  0 <= w -> w + len src <= len d -> 0 <= j ->
  blit d w src !! Z.to_nat j =
    if (w <=? j) && (j <? w + len src) then src !! Z.to_nat (j - w) else d !! Z.to_nat j.
Proof.
  intros Hw Hfit Hj. unfold blit. pose proof (len_takeZ w d) as Ht. pose proof (len_nonneg src).
  destruct (Z.leb_spec w j); simpl.
  - rewrite lookup_app_r by (unfold len in *; lia).
    replace (Z.to_nat j - length (takeZ w d))%nat with (Z.to_nat (j - w)) by (unfold len in *; lia).
    destruct (Z.ltb_spec j (w + len src)).
    + rewrite lookup_app_l; [done|]. unfold len in *. lia.
    + rewrite lookup_app_r by (unfold len in *; lia). unfold dropZ. rewrite lookup_drop.
      f_equal. unfold len in *. lia.
  - rewrite lookup_app_l by (unfold len in *; lia). unfold takeZ. by rewrite lookup_take_lt by lia.
Qed.

Lemma len_ring_write d w src :
  0 <= w < len d -> len src <= len d -> len (ring_write d w src) = len d.
Proof.
  intros Hw Hs. unfold ring_write. pose proof (len_nonneg src). case_bool.
  - apply len_blit; lia.
  - pose proof (len_takeZ (len d - w) src). pose proof (len_dropZ (len d - w) src).
    rewrite !len_blit; rewrite ?len_blit; lia.
Qed.

(** Each byte of the ring after a write. *)
Lemma ring_write_lookup d w src j :
  0 <= w < len d -> len src <= len d -> 0 <= j < len d ->
  ring_write d w src !! Z.to_nat j =
    if (j - w) mod len d <? len src then src !! Z.to_nat ((j - w) mod len d) else d !! Z.to_nat j.
Proof.
  intros Hw Hs Hj. unfold ring_write. pose proof (len_nonneg src) as H0.
  assert ((j - w) mod len d = if w <=? j then j - w else j - w + len d) as ->.
  { destruct (Z.leb_spec w j); [by apply Z.mod_small; lia|].
    rewrite <- (Z.mod_add _ 1), Z.mod_small; lia. }
  destruct (Z.leb_spec (w + len src) (len d)).
  - rewrite blit_lookup by lia. destruct (Z.leb_spec w j); simpl.
    + by replace (j <? w + len src) with (j - w <? len src) by lia.
    + by rewrite (proj2 (Z.ltb_ge _ _)) by lia.
  - pose proof (len_takeZ (len d - w) src ltac:(lia)) as Ht.
    pose proof (len_dropZ (len d - w) src ltac:(lia)) as Hd.
    rewrite blit_lookup by (rewrite ?len_blit; lia). rewrite Hd.
    rewrite (proj2 (Z.leb_le 0 j)) by lia. simpl.
    destruct (Z.leb_spec w j) as [Hwj|Hwj].
    + rewrite (proj2 (Z.ltb_ge j _)), (proj2 (Z.ltb_lt _ (len src))) by lia.
      rewrite blit_lookup by lia. rewrite Ht, (proj2 (Z.leb_le w j)), (proj2 (Z.ltb_lt j _)) by lia.
      simpl. unfold takeZ. by rewrite lookup_take_lt by lia.
    + destruct (Z.ltb_spec j (0 + (len src - (len d - w)))).
      * rewrite (proj2 (Z.ltb_lt _ (len src))) by lia. unfold dropZ. rewrite lookup_drop. f_equal. lia.
      * rewrite (proj2 (Z.ltb_ge _ (len src))) by lia.
        rewrite blit_lookup by lia. by rewrite (proj2 (Z.leb_gt w j)) by lia.
Qed.

Lemma list_eq_lookupZ (l k : list Z) :
  len l = len k -> (forall i, 0 <= i < len l -> l !! Z.to_nat i = k !! Z.to_nat i) -> l = k.
Proof.
  intros Hl H. apply list_eq_same_length with (length l); [unfold len in *; lia|done|].
  intros i x y Hi Hx Hy. specialize (H (Z.of_nat i) ltac:(unfold len; lia)).
  rewrite Nat2Z.id in H. congruence.
Qed.

Lemma takeZ_lookup (l : list Z) n i : 0 <= i < n -> takeZ n l !! Z.to_nat i = l !! Z.to_nat i.
Proof. intros. unfold takeZ. apply lookup_take_lt. lia. Qed.

(** Appending at the write position appends to the queue. *)
Lemma ring_write_contents d p used src :
  0 <= p < len d -> 0 <= used -> used + len src <= len d ->
  ring_contents (ring_write d ((p + used) mod len d) src) p (used + len src) =
  ring_contents d p used ++ src.
Proof.
  intros Hp Hu Hfit. pose proof (len_nonneg src) as H0.
  pose proof (Z.mod_pos_bound (p + used) (len d) ltac:(lia)) as Hw.
  set (w := (p + used) mod len d) in *.
  pose proof (len_ring_write d w src Hw ltac:(lia)) as Hlen.
  unfold ring_contents. apply list_eq_lookupZ.
  - rewrite len_app, !len_takeZ; rewrite ?len_view; lia.
  - intros i Hi. rewrite len_takeZ in Hi by (rewrite len_view; lia).
    rewrite takeZ_lookup by lia. rewrite view_lookup by (rewrite Hlen; lia). rewrite Hlen.
    pose proof (Z.mod_pos_bound (p + i) (len d) ltac:(lia)).
    rewrite ring_write_lookup by lia. unfold w. rewrite <- Zminus_mod.
    replace (p + i - (p + used)) with (i - used) by lia.
    assert (len (takeZ used (view d p)) = used) as Hlu by (rewrite len_takeZ; rewrite ?len_view; lia).
    destruct (Z.lt_ge_cases i used).
    + rewrite <- (Z.mod_add _ 1), Z.mod_small, (proj2 (Z.ltb_ge _ _)) by lia.
      rewrite lookup_app_l by (unfold len in *; lia). rewrite takeZ_lookup by lia.
      by rewrite view_lookup by lia.
    + rewrite Z.mod_small, (proj2 (Z.ltb_lt _ _)) by lia.
      rewrite lookup_app_r by (unfold len in *; lia). f_equal. unfold len in *. lia.
Qed.

(** Advancing the read position removes a prefix of the queue. *)
Lemma ring_advance d p used n :
  0 <= p < len d -> 0 <= n <= used -> used <= len d ->
  ring_contents d p used = takeZ n (view d p) ++ ring_contents d ((p + n) mod len d) (used - n).
Proof.
  intros Hp Hn Hu. pose proof (Z.mod_pos_bound (p + n) (len d) ltac:(lia)) as Hp'.
  assert (len (takeZ n (view d p)) = n) as Hln by (rewrite len_takeZ; rewrite ?len_view; lia).
  unfold ring_contents. apply list_eq_lookupZ.
  - rewrite len_app, !len_takeZ; rewrite ?len_view; lia.
  - intros i Hi. rewrite len_takeZ in Hi by (rewrite len_view; lia).
    rewrite takeZ_lookup by lia. destruct (Z.lt_ge_cases i n).
    + rewrite lookup_app_l by (unfold len in *; lia). by rewrite takeZ_lookup by lia.
    + rewrite lookup_app_r by (unfold len in *; lia).
      replace (Z.to_nat i - length (takeZ n (view d p)))%nat with (Z.to_nat (i - n)) by (unfold len in *; lia).
      rewrite takeZ_lookup, !view_lookup by lia. rewrite Zplus_mod_idemp_l.
      by replace (p + n + (i - n)) with (p + i) by lia.
Qed.

Lemma len_ring_contents d p used :
  0 <= p < len d -> 0 <= used <= len d -> len (ring_contents d p used) = used.
Proof. intros. unfold ring_contents. rewrite len_takeZ; rewrite ?len_view; lia. Qed.

(** ** The queue interface *)

(** [fifo_put t t' l] is a write of [l] (with the clock readings the
    implementation may take), [fifo_take n] a read into [n] bytes; the result
    says whether the write was accepted, and which bytes were read. *)
Class ByteFifo (B : Type) := {
  fifo_ok : B -> Prop;
  fifo_contents : B -> list Z;
  fifo_put : Z -> Z -> list Z -> B -> res (B * bool);
  fifo_take : Z -> B -> res (B * option (list Z));
  fifo_put_spec : forall b t t' l, fifo_ok b ->
    exists b' accepted, fifo_put t t' l b = Ret (b', accepted) /\ fifo_ok b' /\
      fifo_contents b' = fifo_contents b ++ (if accepted then l else []);
  fifo_take_spec : forall b n, fifo_ok b -> 0 <= n ->
    exists b' r, fifo_take n b = Ret (b', r) /\ fifo_ok b' /\
      match r with
      | Some l => fifo_contents b = l ++ fifo_contents b' /\
                  len l = Z.min n (len (fifo_contents b))
      | None => fifo_contents b' = fifo_contents b
      end
}.

Inductive fifo_op : Type :=
| Put (t t' : Z) (l : list Z)
| Take (n : nat).

(** A run: the final buffer, the bytes accepted and the bytes read, in order. *)
Fixpoint fifo_run {B} `{ByteFifo B} (ops : list fifo_op) (b : B) : res (B * list Z * list Z) :=
  match ops with
  | [] => Ret (b, [], [])
  | Put t t' l :: ops =>
      '(b, accepted) ← fifo_put t t' l b;
      '(b, wr, rd) ← fifo_run ops b;
      Ret (b, (if accepted : bool then l else []) ++ wr, rd)
  | Take n :: ops =>
      '(b, r) ← fifo_take (Z.of_nat n) b;
      '(b, wr, rd) ← fifo_run ops b;
      Ret (b, wr, default [] r ++ rd)
  end.

(** Whatever the interleaving of writes and reads, no byte is lost, repeated
    or reordered: what was read followed by what is still queued is what was
    queued followed by what was accepted. *)
Lemma fifo_stream {B} `{ByteFifo B} ops (b : B) :
  fifo_ok b ->
  exists b' wr rd, fifo_run ops b = Ret (b', wr, rd) /\ fifo_ok b' /\
    rd ++ fifo_contents b' = fifo_contents b ++ wr.
Proof.
  revert b. induction ops as [|[t t' l|n] ops IH]; intros b Hok; cbn [fifo_run].
  - exists b, [], []. split_and!; [done|done|]. by rewrite app_nil_r.
  - destruct (fifo_put_spec b t t' l Hok) as (b1 & acc & -> & Hok1 & Hc1). rewrite bind_Ret.
    destruct (IH b1 Hok1) as (b' & wr & rd & -> & Hok' & Hc). rewrite bind_Ret.
    eexists _, _, _. split_and!; [reflexivity|done|]. by rewrite Hc, Hc1, app_assoc.
  - destruct (fifo_take_spec b (Z.of_nat n) Hok ltac:(lia)) as (b1 & r & -> & Hok1 & Hr). rewrite bind_Ret.
    destruct (IH b1 Hok1) as (b' & wr & rd & -> & Hok' & Hc). rewrite bind_Ret.
    eexists _, _, _. split_and!; [reflexivity|done|]. rewrite <- app_assoc, Hc.
    destruct r as [l|]; simpl; [destruct Hr as [-> _]; by rewrite app_assoc|by rewrite Hr].
Qed.
