(* ===== verification/RingBuffer.v ===== *)
(** * The stream ring buffer (buffer/ring.go)

    A mutex-protected circular byte buffer.  [written] and [read] are running
    int64 counters that may wrap; the queue is what lies between [readPos] and
    [writePos].  A method runs under the mutex and is one atomic step; a
    method that waits on [readCond] returns [Blocked] and is run again from
    the state in which it is woken. *)

From stdpp Require Import strings.
From S2P Require Import Prelude Float64 Ring.
#[local] Open Scope Z_scope.

(** ** Data (ring.go:11-50, 301-309) *)

Record bitrateEntry := { be_timestamp : Z; be_bytes : Z }.

(** The errors of the package, with the fields that depend on the state.  The
    [Hint] text of ErrBufferFullDetailed prints [Pressure] and the count of
    consecutive drops. *)
Inductive buffer_error : Type :=
| ErrBufferClosed
| ErrTimeout
| ErrAlreadyClosed
| ErrPacketTooLarge (StreamID : string) (PacketSize MaxSize : Z)
| ErrBufferFullDetailed (StreamID : string) (Required Available : Z) (Pressure : float64) (drops : Z).

Record RingBuffer := mkRingBuffer {
  streamID : string;
  data : list Z;
  size : Z;
  maxPacketSize : Z;
  writePos : Z;
  readPos : Z;
  written : Z;
  read : Z;
  closed : bool;
  drops : Z;
  consecutiveDrops : Z;
  maxLatency : Z;
  lastDropTime : Z;
  bitrateWindow : list bitrateEntry;
  bitrateIndex : Z;
  avgBytesPerSec : float64;
  lastBitrateCalc : Z
}.
#[export] Instance eta_RingBuffer : Eta RingBuffer := fun r =>
  mkRingBuffer (streamID r) (data r) (size r) (maxPacketSize r) (writePos r) (readPos r)
    (written r) (read r) (closed r) (drops r) (consecutiveDrops r) (maxLatency r) (lastDropTime r)
    (bitrateWindow r) (bitrateIndex r) (avgBytesPerSec r) (lastBitrateCalc r).

Record BufferStats := mkBufferStats {
  Size : Z; Written : Z; Read_ : Z; Available : Z; Drops : Z; MaxLatency : Z
}.

(** ** Operations *)

(** [NewRingBuffer] (ring.go:53); a negative size panics in [make]. *)
Definition NewRingBuffer (streamID : string) (size : Z) : res RingBuffer :=
  d ← make_bytes size;
  Ret {| streamID := streamID; data := d; size := size; maxPacketSize := 65536;
         writePos := 0; readPos := 0; written := 0; read := 0; closed := false;
         drops := 0; consecutiveDrops := 0; maxLatency := 0; lastDropTime := zero_time;
         bitrateWindow := replicate 100 {| be_timestamp := zero_time; be_bytes := 0 |};
         bitrateIndex := 0; avgBytesPerSec := f64_of_Z 0; lastBitrateCalc := zero_time |}.

(** [SetMaxPacketSize] (ring.go:67) *)
Definition SetMaxPacketSize (n : Z) (rb : RingBuffer) : RingBuffer := rb <| maxPacketSize := n |>.

(** [minInt64] (ring.go:416) *)
Definition minInt64 (a b : Z) : Z := if a <? b then a else b.

(** The copying loop of [Write] (ring.go:135-141): the ring and its write
    position after [src] is copied in. *)
Fixpoint write_loop (fuel : nat) (d : list Z) (size pos : Z) (src : list Z) (written : Z)
    : res (list Z * Z) :=
  match fuel with
  | O => NoFuel
  | S fuel =>
      if written <? len src then
        let writeSize := minInt64 (len src - written) (size - pos) in
        chunk ← slice src written (written + writeSize);
        _ ← slice d pos (pos + writeSize);
        d ← copy_at d pos chunk;
        pos ← go_rem (pos + writeSize) size;
        write_loop fuel d size pos src (written + writeSize)
      else Ret (d, pos)
  end.

(** The copying loop of [Read], [ReadTimeout] and [GetPreview]
    (ring.go:177-183, 240-246, 394-400): the destination, the ring position
    and the count after [toRead] bytes are copied out. *)
Fixpoint read_loop (fuel : nat) (d : list Z) (size pos toRead : Z) (dst : list Z) (read : Z)
    : res (list Z * Z * Z) :=
  match fuel with
  | O => NoFuel
  | S fuel =>
      if read <? toRead then
        let readSize := minInt64 (toRead - read) (size - pos) in
        chunk ← slice d pos (pos + readSize);
        _ ← slice dst read (read + readSize);
        dst ← copy_at dst read chunk;
        pos ← go_rem (pos + readSize) size;
        read_loop fuel d size pos toRead dst (read + readSize)
      else Ret (dst, pos, read)
  end.

(** Both loops run at most twice: fuel 3 covers the two chunks and the exit. *)
Definition copy_fuel : nat := 3.

(** The scan of [calculateAverageBitrate] (ring.go:338-348). *)
Fixpoint bitrate_scan (cutoff : Z) (w : list bitrateEntry) (acc : Z * Z * Z) : Z * Z * Z :=
  match w with
  | [] => acc
  | e :: w =>
      let '(total, oldest, newest) := acc in
      bitrate_scan cutoff w
        (if (cutoff <? be_timestamp e) && negb (is_zero_time (be_timestamp e)) then
           (i64 (total + be_bytes e),
            if be_timestamp e <? oldest then be_timestamp e else oldest,
            if newest <? be_timestamp e then be_timestamp e else newest)
         else acc)
  end.

(** [calculateAverageBitrate] (ring.go:330) at clock reading [now]. *)
Definition calculateAverageBitrate (now : Z) (rb : RingBuffer) : RingBuffer :=
  let cutoff := now - 10 * second in
  let '(totalBytes, oldestTime, newestTime) :=
    bitrate_scan cutoff (bitrateWindow rb) (0, now, cutoff) in
  let duration := seconds_of (time_sub newestTime oldestTime) in
  if f64_ltb (f64_of_Z 0) duration
  then rb <| avgBytesPerSec := f64_div (f64_of_Z totalBytes) duration |>
  else rb.

(** [trackBitrate] (ring.go:312) at clock reading [now]; the average is
    computed at a second reading [now']. *)
Definition trackBitrate (now now' bytes : Z) (rb : RingBuffer) : res RingBuffer :=
  w ← set_idx (bitrateWindow rb) (bitrateIndex rb) {| be_timestamp := now; be_bytes := bytes |};
  let rb := rb <| bitrateWindow := w |> in
  i ← go_rem (bitrateIndex rb + 1) (len (bitrateWindow rb));
  let rb := rb <| bitrateIndex := i |> in
  if second <=? time_sub now (lastBitrateCalc rb)
  then Ret ((calculateAverageBitrate now' rb) <| lastBitrateCalc := now |>)
  else Ret rb.

(** [Write] (ring.go:74): the receiver and the count or the error. *)
Definition Write (now now' : Z) (src : list Z) (rb : RingBuffer)
    : res (RingBuffer * exn buffer_error Z) :=
  if closed rb then Ret (rb, Err ErrBufferClosed)
  else
    let dataLen := len src in
    if maxPacketSize rb <? dataLen
    then Ret (rb, Err (ErrPacketTooLarge (streamID rb) dataLen (maxPacketSize rb)))
    else if size rb <? dataLen
    then Ret (rb, Err (ErrPacketTooLarge (streamID rb) dataLen (size rb)))
    else
      let available := i64 (size rb - i64 (written rb - read rb)) in
      if available <? dataLen then
        let pressure := f64_div (f64_of_Z (i64 (written rb - read rb))) (f64_of_Z (size rb)) in
        let rb :=
          if time_sub now (lastDropTime rb) <? second
          then rb <| consecutiveDrops := i64 (consecutiveDrops rb + 1) |>
          else rb <| consecutiveDrops := 1 |> in
        let rb := rb <| lastDropTime := now |> in
        let rb := rb <| drops := i64 (drops rb + dataLen) |> in
        Ret (rb, Err (ErrBufferFullDetailed (streamID rb) dataLen available pressure
                        (consecutiveDrops rb)))
      else
        '(d, pos) ← write_loop copy_fuel (data rb) (size rb) (writePos rb) src 0;
        let rb := (rb <| data := d |>) <| writePos := pos |> in
        let rb := rb <| written := i64 (written rb + dataLen) |> in
        rb ← trackBitrate now now' dataLen rb;
        Ret (rb, Val dataLen).

(** What a call that may wait on the condition variable does. *)
Inductive wait (A : Type) : Type :=
| Done (a : A)
| Blocked.
Arguments Done {A} a.
Arguments Blocked {A}.

(** The part of [Read] and [ReadTimeout] after the wait (ring.go:173-188,
    236-251): the caller's slice after the copy, and the count. *)
Definition take_available (dst : list Z) (rb : RingBuffer)
    : res (RingBuffer * list Z * exn buffer_error Z) :=
  if written rb =? read rb then Ret (rb, dst, Err ErrBufferClosed)
  else
    let available := i64 (written rb - read rb) in
    let toRead := minInt64 (len dst) available in
    '(dst, pos, n) ← read_loop copy_fuel (data rb) (size rb) (readPos rb) toRead dst 0;
    let rb := rb <| readPos := pos |> in
    let rb := rb <| read := i64 (read rb + n) |> in
    Ret (rb, dst, Val n).

(** [Read] (ring.go:156) into the slice [dst]. *)
Definition Read (dst : list Z) (rb : RingBuffer)
    : res (wait (RingBuffer * list Z * exn buffer_error Z)) :=
  if closed rb && (written rb =? read rb) then Ret (Done (rb, dst, Err ErrBufferClosed))
  else if (written rb =? read rb) && negb (closed rb) then Ret Blocked
  else r ← take_available dst rb; Ret (Done r).

(** The waiting loop of [ReadTimeout] (ring.go:213-230).  [now] is the reading
    of [time.Until]; every wake-up [(rb, now, now')] gives the buffer found,
    the reading compared with the deadline and the next [time.Until]. *)
Fixpoint timeout_loop (deadline : Z) (dst : list Z) (wakes : list (RingBuffer * Z * Z))
    (now : Z) (rb : RingBuffer) : res (wait (RingBuffer * list Z * exn buffer_error Z)) :=
  if (written rb =? read rb) && negb (closed rb) then
    if time_sub deadline now <=? 0 then Ret (Done (rb, dst, Err ErrTimeout))
    else match wakes with
         | [] => Ret Blocked
         | (rb, now, now') :: wakes =>
             if deadline <? now then Ret (Done (rb, dst, Err ErrTimeout))
             else timeout_loop deadline dst wakes now' rb
         end
  else r ← take_available dst rb; Ret (Done r).

(** [ReadTimeout] (ring.go:194), called at clock reading [t0]. *)
Definition ReadTimeout (t0 timeout : Z) (dst : list Z) (wakes : list (RingBuffer * Z * Z))
    (now : Z) (rb : RingBuffer) : res (wait (RingBuffer * list Z * exn buffer_error Z)) :=
  if timeout <=? 0 then Read dst rb
  else if closed rb && (written rb =? read rb) then Ret (Done (rb, dst, Err ErrBufferClosed))
  else timeout_loop (t0 + timeout) dst wakes now rb.

(** [Close] (ring.go:255) *)
Definition Close (rb : RingBuffer) : RingBuffer * exn buffer_error unit :=
  if closed rb then (rb, Err ErrAlreadyClosed) else (rb <| closed := true |>, Val tt).

(** [Stats] (ring.go:269) *)
Definition Stats (rb : RingBuffer) : BufferStats :=
  {| Size := size rb; Written := written rb; Read_ := read rb;
     Available := i64 (written rb - read rb); Drops := drops rb; MaxLatency := maxLatency rb |}.

(** [Reset] (ring.go:284) *)
Definition Reset_ (rb : RingBuffer) : RingBuffer :=
  (((((rb <| writePos := 0 |>) <| readPos := 0 |>) <| written := 0 |>) <| read := 0 |>)
    <| drops := 0 |>).

(** [Reopen] (ring.go:297) *)
Definition Reopen (rb : RingBuffer) : RingBuffer := rb <| closed := false |>.

(** [GetPreview] (ring.go:357): the preview and the estimated sample count. *)
Definition GetPreview (seconds : float64) (rb : RingBuffer) : res (list Z * Z) :=
  let bytesPerSecond :=
    if f64_leb (avgBytesPerSec rb) (f64_of_Z 0) then f64_of_Z 6250000 else avgBytesPerSec rb in
  let previewBytes := f64_trunc (f64_mul seconds bytesPerSecond) in
  let available := i64 (written rb - read rb) in
  let previewBytes := if available <? previewBytes then available else previewBytes in
  let previewBytes := if size rb <? previewBytes then size rb else previewBytes in
  previewData ← make_bytes previewBytes;
  let previewReadPos := i64 (written rb - previewBytes) in
  let '(previewReadPos, previewBytes) :=
    if previewReadPos <? read rb then (read rb, i64 (written rb - read rb))
    else (previewReadPos, previewBytes) in
  actualReadPos ← go_rem (i64 (readPos rb + i64 (previewReadPos - read rb))) (size rb);
  '(out, _, copied) ← read_loop copy_fuel (data rb) (size rb) actualReadPos previewBytes previewData 0;
  preview ← slice out 0 copied;
  Ret (preview, Z.quot previewBytes 4096).

(** [GetBitrate] (ring.go:408) *)
Definition GetBitrate (rb : RingBuffer) : float64 := avgBytesPerSec rb.

(** ** The queue behind the buffer *)

Definition used (rb : RingBuffer) : Z := i64 (written rb - read rb).
Definition contents (rb : RingBuffer) : list Z := ring_contents (data rb) (readPos rb) (used rb).

Record rb_ok (rb : RingBuffer) : Prop := {
  ok_size : 0 < size rb <= 2 ^ 62;
  ok_data : len (data rb) = size rb;
  ok_read : 0 <= readPos rb < size rb;
  ok_used : 0 <= used rb <= size rb;
  ok_write : writePos rb = (readPos rb + used rb) mod size rb;
  ok_counters : min_i64 <= written rb <= max_i64 /\ min_i64 <= read rb <= max_i64;
  ok_window : len (bitrateWindow rb) = 100;
  ok_index : 0 <= bitrateIndex rb < 100
}.

Lemma minInt64_min a b : minInt64 a b = Z.min a b.
Proof. unfold minInt64. case_bool; lia. Qed.

(** The writing loop is the ring write. *)
Lemma write_loop_spec d size pos src :
  0 < size -> len d = size -> 0 <= pos < size -> len src <= size ->
  write_loop copy_fuel d size pos src 0 = Ret (ring_write d pos src, (pos + len src) mod size).
Proof.
  intros Hs Hd Hp Hl. pose proof (len_nonneg src) as H0. unfold copy_fuel, ring_write. subst size.
  cbn [write_loop]. destruct (Z.ltb_spec 0 (len src)).
  2: { assert (src = []) as -> by (apply len_0_nil; lia).
       rewrite (@len_nil Z), Z.add_0_r, (proj2 (Z.leb_le pos _)), Z.mod_small by lia.
       unfold blit. rewrite (@len_nil Z), Z.add_0_r. cbn [app]. by rewrite takeZ_dropZ. }
  rewrite minInt64_min, !Z.sub_0_r, Z.add_0_l. destruct (Z.leb_spec (pos + len src) (len d)).
  - rewrite Z.min_l by lia. rewrite !slice_Ret by lia. rewrite !bind_Ret, Z.sub_0_r, dropZ_0, takeZ_all by lia.
    rewrite copy_at_Ret, bind_Ret, go_rem_Ret, bind_Ret by lia. by rewrite Z.ltb_irrefl.
  - rewrite Z.min_r by lia. rewrite !slice_Ret by lia. rewrite !bind_Ret, Z.sub_0_r, dropZ_0 by lia.
    pose proof (len_takeZ (len d - pos) src ltac:(lia)) as Ht.
    pose proof (len_dropZ (len d - pos) src ltac:(lia)) as Hdr.
    rewrite copy_at_Ret, bind_Ret, go_rem_Ret, bind_Ret by lia.
    replace (pos + (len d - pos)) with (len d) by lia. rewrite Z_mod_same_full.
    rewrite (proj2 (Z.ltb_lt _ _)), minInt64_min, Z.min_l by lia.
    rewrite !slice_Ret by (rewrite ?len_blit; lia). rewrite !bind_Ret.
    rewrite (takeZ_all _ (dropZ _ _)) by lia. rewrite copy_at_Ret, bind_Ret, go_rem_Ret, bind_Ret by (rewrite ?len_blit; lia).
    rewrite (proj2 (Z.ltb_ge _ _)) by lia. do 2 f_equal.
    rewrite !Z.mod_small by lia. rewrite <- (Z.mod_add (pos + len src) (-1)), Z.mod_small; lia.
Qed.

(** The reading loop copies out the ring read. *)
Lemma ring_read_loop_spec d size pos n dst :
  0 < size -> len d = size -> 0 <= pos < size -> 0 <= n <= size -> n <= len dst ->
  read_loop copy_fuel d size pos n dst 0 =
    Ret (ring_read d pos n ++ dropZ n dst, (pos + n) mod size, n).
Proof.
  intros Hs Hd Hp Hn Hl. unfold copy_fuel, ring_read. subst size.
  cbn [read_loop]. destruct (Z.ltb_spec 0 n).
  2: { assert (n = 0) as -> by lia. rewrite Z.add_0_r, (proj2 (Z.leb_le pos _)), Z.mod_small by lia.
       by rewrite takeZ_0, dropZ_0 by lia. }
  rewrite minInt64_min, !Z.sub_0_r, Z.add_0_l.
  pose proof (len_dropZ pos d ltac:(lia)) as Hdd.
  destruct (Z.leb_spec (pos + n) (len d)).
  - rewrite Z.min_l by lia. rewrite !slice_Ret by lia. rewrite !bind_Ret.
    pose proof (len_takeZ n (dropZ pos d) ltac:(lia)) as Ht. replace (pos + n - pos) with n by lia.
    rewrite copy_at_Ret, bind_Ret, go_rem_Ret, bind_Ret by lia. rewrite Z.ltb_irrefl.
    unfold blit. rewrite Ht, takeZ_0 by lia. done.
  - rewrite Z.min_r by lia. rewrite !slice_Ret by lia. rewrite !bind_Ret.
    replace (pos + (len d - pos)) with (len d) by lia.
    rewrite (takeZ_all (len d - pos)) by lia.
    rewrite copy_at_Ret, bind_Ret, go_rem_Ret, bind_Ret by lia. rewrite Z_mod_same_full.
    rewrite (proj2 (Z.ltb_lt _ _)), minInt64_min, Z.min_l by lia.
    assert (blit dst 0 (dropZ pos d) = dropZ pos d ++ dropZ (len d - pos) dst) as ->.
    { unfold blit. rewrite takeZ_0 by lia. simpl. by rewrite Hdd. }
    pose proof (len_dropZ (len d - pos) dst ltac:(lia)).
    rewrite !slice_Ret by (rewrite ?len_app; lia). rewrite !bind_Ret, (dropZ_0 0), Z.add_0_l, Z.sub_0_r by lia.
    pose proof (len_takeZ (n - (len d - pos)) d ltac:(lia)) as Ht.
    rewrite <- Hdd at 2. rewrite copy_at_Ret by (rewrite ?len_app; lia).
    rewrite bind_Ret, go_rem_Ret, bind_Ret by lia. rewrite (proj2 (Z.ltb_ge _ _)) by lia.
    rewrite blit_app_tail by lia. rewrite dropZ_dropZ by lia. do 3 f_equal.
    + f_equal. f_equal. lia.
    + rewrite <- (Z.mod_add (pos + n) (-1)) by lia. f_equal. lia.
    + lia.
Qed.

(** Two buffers that agree on everything but the statistics. *)
Record same_queue (a b : RingBuffer) : Prop := {
  sq_data : data b = data a; sq_size : size b = size a; sq_max : maxPacketSize b = maxPacketSize a;
  sq_wp : writePos b = writePos a; sq_rp : readPos b = readPos a;
  sq_wr : written b = written a; sq_rd : read b = read a; sq_cl : closed b = closed a;
  sq_drops : drops b = drops a
}.

Lemma same_queue_contents a b : same_queue a b -> contents b = contents a /\ used b = used a.
Proof. intros [? ? ? ? ? Hw Hr ? ?]. unfold contents, used. rewrite Hw, Hr. split; congruence. Qed.

Lemma calculateAverageBitrate_frame now rb :
  same_queue rb (calculateAverageBitrate now rb) /\
  bitrateWindow (calculateAverageBitrate now rb) = bitrateWindow rb /\
  bitrateIndex (calculateAverageBitrate now rb) = bitrateIndex rb.
Proof.
  unfold calculateAverageBitrate. destruct (bitrate_scan _ _ _) as [[tot old] new]. case_bool; done.
Qed.

Lemma trackBitrate_frame now now' n rb :
  len (bitrateWindow rb) = 100 -> 0 <= bitrateIndex rb < 100 ->
  exists rb', trackBitrate now now' n rb = Ret rb' /\ same_queue rb rb' /\
    len (bitrateWindow rb') = 100 /\ 0 <= bitrateIndex rb' < 100.
Proof.
  intros Hw Hi. unfold trackBitrate, set_idx.
  rewrite (proj2 (Z.ltb_ge _ 0)), (proj2 (Z.leb_gt _ _)) by lia. cbn [orb]. rewrite bind_Ret. simpl.
  set (w := <[_ := _]> (bitrateWindow rb)).
  assert (len w = 100) as Hlw by (unfold w, len in *; by rewrite length_insert).
  rewrite Hlw, go_rem_Ret, bind_Ret by lia. clearbody w.
  pose proof (Z.mod_pos_bound (bitrateIndex rb + 1) 100 ltac:(lia)).
  case_bool; eexists; (split; [reflexivity|]); [|done].
  match goal with |- context [calculateAverageBitrate now' ?r] =>
    destruct (calculateAverageBitrate_frame now' r) as ([? ? ? ? ? ? ? ? ?] & Hw' & Hi') end.
  simpl in *. split_and!; [constructor; simpl; congruence|congruence|lia|lia].
Qed.

(** The conditions under which [Write] takes a packet. *)
Definition accepts (rb : RingBuffer) (src : list Z) : bool :=
  negb (closed rb) && (len src <=? maxPacketSize rb) && (used rb + len src <=? size rb).

(** The error [Write] reports when it does not. *)
Definition write_error (now : Z) (rb : RingBuffer) (src : list Z) : buffer_error :=
  if closed rb then ErrBufferClosed
  else if maxPacketSize rb <? len src then ErrPacketTooLarge (streamID rb) (len src) (maxPacketSize rb)
  else if size rb <? len src then ErrPacketTooLarge (streamID rb) (len src) (size rb)
  else ErrBufferFullDetailed (streamID rb) (len src) (size rb - used rb)
         (f64_div (f64_of_Z (used rb)) (f64_of_Z (size rb)))
         (if time_sub now (lastDropTime rb) <? second then i64 (consecutiveDrops rb + 1) else 1).

Lemma rb_ok_same a b :
  rb_ok a -> same_queue a b -> len (bitrateWindow b) = 100 -> 0 <= bitrateIndex b < 100 -> rb_ok b.
Proof.
  intros [? ? ? ? ? ? ? ?] Hq Hw Hi. destruct (same_queue_contents _ _ Hq) as [_ Hu].
  destruct Hq as [Hd Hs ? Hwp Hrp Hwr Hrd ? ?]. constructor; rewrite ?Hu, ?Hd, ?Hs, ?Hwp, ?Hrp, ?Hwr, ?Hrd; done.
Qed.

Lemma used_written rb n w :
  rb_ok rb -> 0 <= n -> used rb + n <= size rb -> w = i64 (written rb + n) ->
  i64 (w - read rb) = used rb + n.
Proof. intros Hok Hn Hf ->. pose proof (ok_size _ Hok). pose proof (ok_used _ Hok). unfold used in *. mlia. Qed.

Lemma Write_accepted now now' src rb :
  rb_ok rb -> accepts rb src = true ->
  exists rb', Write now now' src rb = Ret (rb', Val (len src)) /\ rb_ok rb' /\
    contents rb' = contents rb ++ src /\ drops rb' = drops rb /\
    written rb' = i64 (written rb + len src) /\ read rb' = read rb /\
    closed rb' = closed rb /\ maxPacketSize rb' = maxPacketSize rb /\ size rb' = size rb.
Proof.
  intros Hok Hacc. unfold accepts in Hacc. zbool. pose proof (len_nonneg src) as Hln.
  pose proof Hok as [Hs Hd Hr Hu Hw Hc Hbw Hbi].
  unfold Write. rewrite H, (proj2 (Z.ltb_ge _ _)), (proj2 (Z.ltb_ge _ (len src))) by lia. cbv zeta.
  fold (used rb). rewrite i64_id by (pow_consts; lia).
  rewrite (proj2 (Z.ltb_ge _ _)) by lia.
  rewrite write_loop_spec, bind_Ret by (rewrite ?Hw; try (apply Z.mod_pos_bound); lia).
  simpl.
  match goal with |- context [trackBitrate now now' (len src) ?r] => set (rb1 := r) end.
  destruct (trackBitrate_frame now now' (len src) rb1) as (rb2 & -> & Hq & Hw2 & Hi2); [done|done|].
  rewrite bind_Ret. exists rb2. split; [done|].
  assert (used rb1 = used rb + len src) as Hu1 by (by apply (used_written rb _ (written rb1))).
  pose proof (i64_range (written rb + len src)).
  assert (rb_ok rb1) as Hok1.
  { constructor; rewrite ?Hu1; simpl; try done; try lia.
    - by rewrite len_ring_write by (rewrite ?Hw, Hd; try (apply Z.mod_pos_bound); lia).
    - rewrite Hw, Zplus_mod_idemp_l. f_equal. lia.
    - split; [|tauto]. unfold min_i64, max_i64. lia. }
  split; [by apply (rb_ok_same rb1)|]. destruct (same_queue_contents _ _ Hq) as [Hcn _].
  destruct Hq. change (closed rb1) with (closed rb) in *. split_and!; try done; [|congruence]. rewrite Hcn. unfold contents. rewrite Hu1. simpl. rewrite Hw.
  rewrite <- Hd. apply ring_write_contents; lia.
Qed.

Lemma Write_rejected now now' src rb :
  rb_ok rb -> accepts rb src = false ->
  exists rb', Write now now' src rb = Ret (rb', Err (write_error now rb src)) /\ rb_ok rb' /\
    contents rb' = contents rb /\ written rb' = written rb /\ read rb' = read rb /\
    closed rb' = closed rb /\
    drops rb' = (if closed rb || (maxPacketSize rb <? len src) || (size rb <? len src)
                 then drops rb else i64 (drops rb + len src)).
Proof.
  intros Hok Hacc. unfold accepts in Hacc. pose proof (len_nonneg src) as H0.
  pose proof Hok as [Hs Hd Hr Hu Hw Hc Hbw Hbi].
  unfold Write, write_error. destruct (closed rb) eqn:Hcl; [by eexists|]. cbn [negb andb orb] in *.
  destruct (Z.ltb_spec (maxPacketSize rb) (len src)); [by eexists|].
  destruct (Z.ltb_spec (size rb) (len src)); [by eexists|].
  rewrite (proj2 (Z.leb_le _ _)) in Hacc by lia. simpl in Hacc. apply Z.leb_gt in Hacc.
  cbv zeta. fold (used rb). rewrite (i64_id (size rb - used rb)) by (pow_consts; lia).
  rewrite (proj2 (Z.ltb_lt _ _)) by lia.
  case_bool; simpl; eexists; (split; [reflexivity|]); (split; [by constructor|done]).
Qed.

Lemma written_eq_read rb : rb_ok rb -> (written rb =? read rb) = (used rb =? 0).
Proof.
  intros [? ? ? Hu ? [? ?] ? ?]. unfold used in *.
  destruct (Z.eqb_spec (written rb) (read rb)), (Z.eqb_spec (i64 (written rb - read rb)) 0); try done;
    exfalso; mlia.
Qed.

Lemma ring_contents_len rb : rb_ok rb -> len (contents rb) = used rb.
Proof. intros [? ? ? ? ? ? ? ?]. unfold contents. apply len_ring_contents; lia. Qed.

(** The bytes handed out are the oldest ones, and they leave the queue. *)
Lemma take_available_spec dst rb :
  rb_ok rb -> used rb <> 0 ->
  exists rb' l, take_available dst rb = Ret (rb', l ++ dropZ (len l) dst, Val (len l)) /\ rb_ok rb' /\
    len l = Z.min (len dst) (used rb) /\ contents rb = l ++ contents rb' /\
    closed rb' = closed rb /\ drops rb' = drops rb /\ written rb' = written rb.
Proof.
  intros Hok Hne. pose proof (len_nonneg dst) as Hln. pose proof Hok as [Hs Hd Hr Hu Hw [Hc1 Hc2] Hbw Hbi].
  unfold take_available. rewrite written_eq_read, (proj2 (Z.eqb_neq _ _)) by done. cbv zeta.
  fold (used rb). rewrite minInt64_min. set (n := Z.min (len dst) (used rb)).
  rewrite ring_read_loop_spec, bind_Ret by lia. simpl. rewrite ring_read_view by lia.
  assert (len (takeZ n (view (data rb) (readPos rb))) = n) as Hl by (rewrite len_takeZ; rewrite ?len_view; lia).
  set (l := takeZ n _) in *. exists (rb <| readPos := (readPos rb + n) mod size rb |> <| read := i64 (read rb + n) |>), l.
  simpl. rewrite Hl. split; [done|].
  match goal with |- rb_ok ?r /\ _ => set (rb1 := r) end.
  assert (used rb1 = used rb - n) as Hu1 by (unfold rb1, used in *; simpl; unfold n; clear -Hu Hln Hs; mlia).
  pose proof (Z.mod_pos_bound (readPos rb + n) (size rb) ltac:(lia)). pose proof (i64_range (read rb + n)).
  split; [|split; [done|split; [|done]]].
  - constructor; rewrite ?Hu1; simpl; try done; try lia.
    + rewrite Hw, Zplus_mod_idemp_l. f_equal. lia.
    + split; [done|]. unfold min_i64, max_i64. lia.
  - unfold contents. rewrite Hu1. simpl. rewrite <- Hd. apply ring_advance; lia.
Qed.

Lemma ring_Read_spec dst rb :
  rb_ok rb ->
  if used rb =? 0 then
    Read dst rb = if closed rb then Ret (Done (rb, dst, Err ErrBufferClosed)) else Ret Blocked
  else exists rb' l, Read dst rb = Ret (Done (rb', l ++ dropZ (len l) dst, Val (len l))) /\ rb_ok rb' /\
    len l = Z.min (len dst) (used rb) /\ contents rb = l ++ contents rb' /\
    closed rb' = closed rb /\ drops rb' = drops rb /\ written rb' = written rb.
Proof.
  intros Hok. unfold Read. rewrite written_eq_read by done.
  destruct (Z.eqb_spec (used rb) 0) as [He|Hne].
  - destruct (closed rb); reflexivity.
  - rewrite andb_false_r. simpl.
    destruct (take_available_spec dst rb Hok Hne) as (rb' & l & -> & Hrest). rewrite bind_Ret. eauto.
Qed.

Lemma NewRingBuffer_ok sid n :
  0 < n <= 2 ^ 62 ->
  exists rb, NewRingBuffer sid n = Ret rb /\ rb_ok rb /\ contents rb = [] /\ closed rb = false /\
    maxPacketSize rb = 65536 /\ size rb = n.
Proof.
  intros Hn. unfold NewRingBuffer. rewrite make_bytes_Ret, bind_Ret by lia.
  eexists. split; [reflexivity|]. split; [|done].
  constructor; try change (used _) with 0; simpl; try done; try lia.
  - apply len_replicate. lia.
Qed.

(** ** The queue interface *)

#[export] Instance RingBuffer_fifo : ByteFifo RingBuffer.
Proof.
  refine {| fifo_ok := rb_ok; fifo_contents := contents;
    fifo_put := fun t t' l b => '(b, r) ← Write t t' l b;
                  Ret (b, match r with Val _ => true | Err _ => false end);
    fifo_take := fun n b => r ← Read (replicate (Z.to_nat n) 0) b;
                  match r with
                  | Done (b, l, Val n) => Ret (b, Some (takeZ n l))
                  | Done (b, _, Err _) => Ret (b, None)
                  | Blocked => Ret (b, None)
                  end |}.
  - intros b t t' l Hok. destruct (accepts b l) eqn:Ha.
    + destruct (Write_accepted t t' l b Hok Ha) as (b' & -> & ? & ? & _). rewrite bind_Ret. eauto.
    + destruct (Write_rejected t t' l b Hok Ha) as (b' & -> & ? & ? & _). rewrite bind_Ret.
      eexists _, false. rewrite app_nil_r. eauto.
  - intros b n Hok Hn. pose proof (ring_Read_spec (replicate (Z.to_nat n) 0) b Hok) as H.
    rewrite len_replicate in H by done. destruct (Z.eqb_spec (used b) 0).
    + rewrite H. destruct (closed b); rewrite bind_Ret; eexists _, None; eauto.
    + destruct H as (b' & l & -> & Hok' & Hl & Hc & _). rewrite bind_Ret. eexists _, (Some l).
      rewrite takeZ_app_le, takeZ_all, ring_contents_len by (done || lia). eauto.
Defined.

(** ** Properties *)

(** [Write] never panics.  It takes the packet exactly when the buffer is
    open, the packet is within [maxPacketSize] and fits the free space; the
    packet is then appended whole and the count of written bytes advances by
    it.  Otherwise the queue and the counters are as before, the error names
    the first condition that fails with the exact free space, and only a
    packet refused for lack of room is added to [drops]. *)
Theorem Write_exact now now' src rb :
  rb_ok rb ->
  exists rb' r, Write now now' src rb = Ret (rb', r) /\ rb_ok rb' /\ closed rb' = closed rb /\
    if accepts rb src
    then r = Val (len src) /\ contents rb' = contents rb ++ src /\
         Available (Stats rb') = Available (Stats rb) + len src /\ Drops (Stats rb') = Drops (Stats rb)
    else r = Err (write_error now rb src) /\ contents rb' = contents rb /\
         Available (Stats rb') = Available (Stats rb) /\
         Drops (Stats rb') = (if closed rb || (maxPacketSize rb <? len src) || (size rb <? len src)
                              then Drops (Stats rb) else i64 (Drops (Stats rb) + len src)).
Proof.
  intros Hok. destruct (accepts rb src) eqn:Ha.
  - destruct (Write_accepted now now' src rb Hok Ha) as (rb' & -> & Hok' & Hc & Hd & Hw & Hr & Hcl & _).
    eexists _, _. split_and!; try done. simpl. unfold accepts in Ha. zbool.
    rewrite Hr. apply (used_written rb); [done|apply len_nonneg|done|done].
  - destruct (Write_rejected now now' src rb Hok Ha) as (rb' & -> & Hok' & Hc & Hw & Hr & Hcl & Hd).
    eexists _, _. split_and!; try done. simpl. congruence.
Qed.

Definition ring4 : RingBuffer :=
  match NewRingBuffer "s" 4 with Ret rb => rb | _ => mkRingBuffer "" [] 0 0 0 0 0 0 true 0 0 0 0 [] 0 (f64_of_Z 0) 0 end.

Lemma Write_exact_witness :
  rb_ok ring4 /\ accepts ring4 [1; 2; 3] = true /\
  exists rb' r, Write 5 5 [1; 2; 3] ring4 = Ret (rb', r) /\ contents rb' = [1; 2; 3].
Proof.
  destruct (NewRingBuffer_ok "s" 4 ltac:(lia)) as (rb & Hrb & Hok & Hc & _).
  assert (ring4 = rb) as He by (unfold ring4; by rewrite Hrb). rewrite He in *. split; [done|].
  split; [by rewrite <- He|].
  destruct (Write_exact 5 5 [1; 2; 3] rb Hok) as (rb' & r & Hw & _ & _ & Hr).
  replace (accepts rb [1; 2; 3]) with true in Hr by (by rewrite <- He). eexists _, _. split; [done|].
  destruct Hr as (_ & -> & _). by rewrite Hc.
Defined.

(** C4: stream integrity.  Take a new ring buffer and any interleaving of
    writes and reads: no operation panics, and the bytes read followed by the
    bytes still queued are the accepted packets, in order, none lost, none
    repeated; [Stats] reports exactly the queued bytes as available, never
    more than the size. *)
Theorem ring_stream sid n ops :
  0 < n <= 2 ^ 62 ->
  exists rb0 rb wr rd, NewRingBuffer sid n = Ret rb0 /\
    fifo_run ops rb0 = Ret (rb, wr, rd) /\ rd ++ contents rb = wr /\
    len (contents rb) = Available (Stats rb) /\ Available (Stats rb) <= Size (Stats rb).
Proof.
  intros Hn. destruct (NewRingBuffer_ok sid n Hn) as (rb0 & -> & Hok & Hc & _ & _ & Hs).
  destruct (@fifo_stream _ RingBuffer_fifo ops rb0 Hok) as (rb & wr & rd & Hrun & Hok' & Heq).
  exists rb0, rb, wr, rd. split; [done|]. split; [done|].
  change (fifo_contents rb) with (contents rb) in Heq. change (fifo_contents rb0) with (contents rb0) in Heq.
  rewrite Hc in Heq. split; [done|]. split; [by apply ring_contents_len|]. apply (ok_used _ Hok').
Qed.

Lemma ring_stream_witness :
  exists rb0 rb, NewRingBuffer "s" 4 = Ret rb0 /\
    fifo_run [Put 1 1 [1; 2; 3]; Take 2; Put 2 2 [4; 5; 6]; Put 3 3 [7]; Take 9] rb0 =
      Ret (rb, [1; 2; 3; 4; 5; 6], [1; 2; 3; 4; 5; 6]) /\ contents rb = [].
Proof.
  destruct (ring_stream "s" 4 [Put 1 1 [1; 2; 3]; Take 2; Put 2 2 [4; 5; 6]; Put 3 3 [7]; Take 9]
              ltac:(lia)) as (rb0 & rb & wr & rd & H0 & Hrun & Heq & _).
  exists rb0, rb. split; [done|]. injection H0 as <-.
  match type of Hrun with ?r = _ =>
    assert (exists x, r = Ret (x, [1; 2; 3; 4; 5; 6], [1; 2; 3; 4; 5; 6])) as [x Hx]
      by (eexists; vm_compute; reflexivity) end.
  rewrite Hx in Hrun. injection Hrun as -> <- <-. split; [done|].
  by apply (app_inv_head [1; 2; 3; 4; 5; 6]); rewrite app_nil_r.
Defined.

(** What the waiting loop may return, in terms of the buffers [seen] by the
    call: the first one and those found at wake-ups. *)
Definition wait_outcome (dst : list Z) (deadline : Z) (seen : list RingBuffer) (last : list Z)
    (o : wait (RingBuffer * list Z * exn buffer_error Z)) : Prop :=
  match o with
  | Blocked => Forall (fun rb => used rb = 0 /\ closed rb = false) seen /\
               Forall (fun t => t <= deadline) last
  | Done (rb', dst', Val n) => exists rb l, rb ∈ seen /\ rb_ok rb' /\ dst' = l ++ dropZ n dst /\
      len l = n /\ n = Z.min (len dst) (used rb) /\ contents rb = l ++ contents rb'
  | Done (rb', dst', Err ErrTimeout) => rb' ∈ seen /\ dst' = dst
  | Done (rb', dst', Err ErrBufferClosed) =>
      rb' ∈ seen /\ dst' = dst /\ closed rb' = true /\ contents rb' = []
  | _ => False
  end.

Lemma contents_nil rb : rb_ok rb -> used rb = 0 -> contents rb = [].
Proof. intros Hok Hu. apply len_0_nil. by rewrite ring_contents_len. Qed.

Lemma take_available_outcome dst deadline last rb :
  rb_ok rb -> (used rb =? 0) && negb (closed rb) = false ->
  exists r, take_available dst rb = Ret r /\ wait_outcome dst deadline [rb] last (Done r).
Proof.
  intros Hok Hb. destruct (Z.eqb_spec (used rb) 0) as [Hu|Hu].
  - exists (rb, dst, Err ErrBufferClosed). unfold take_available. rewrite written_eq_read, Hu by done.
    split; [done|]. simpl in *. zbool. rewrite contents_nil by done. set_solver.
  - destruct (take_available_spec dst rb Hok Hu) as (rb' & l & -> & Hok' & Hl & Hc & _).
    eexists. split; [done|]. simpl. exists rb, l. pose proof (len_nonneg l).
    split_and!; try done; set_solver.
Qed.

Lemma wait_outcome_weaken dst deadline seen seen' last last' r :
  seen ⊆ seen' -> wait_outcome dst deadline seen last (Done r) ->
  wait_outcome dst deadline seen' last' (Done r).
Proof.
  intros Hs. destruct r as [[rb' dst'] [n|e]]; simpl; [|destruct e; set_solver].
  intros (rb & l & Hin & Hrest). exists rb, l. split; [by apply Hs|done].
Qed.

Lemma time_sub_le0 t u : (time_sub t u <=? 0) = (t <=? u).
Proof. unfold time_sub. destruct (Z.leb_spec t u); [apply Z.leb_le|apply Z.leb_gt]; mlia. Qed.

Lemma timeout_loop_outcome deadline dst wakes now rb :
  rb_ok rb -> Forall (fun w => rb_ok w.1.1) wakes ->
  exists o, timeout_loop deadline dst wakes now rb = Ret o /\
    wait_outcome dst deadline (rb :: map (fun w => w.1.1) wakes) (now :: map (fun w => w.1.2) wakes) o.
Proof.
  intros Hok Hw. revert now rb Hok. induction Hw as [|[[rb1 n1] n1'] wakes Hok1 Hw IH]; intros now rb Hok;
    cbn [timeout_loop]; rewrite written_eq_read, time_sub_le0 by done;
    destruct ((used rb =? 0) && negb (closed rb)) eqn:Hb;
    try (destruct (take_available_outcome dst deadline [] rb Hok Hb) as (r & -> & Ho); rewrite bind_Ret;
         eexists; split; [done|]; eapply wait_outcome_weaken; [|exact Ho]; set_solver);
    zbool; (destruct (Z.leb_spec deadline now); [eexists; split; [done|]; simpl; set_solver|]).
  - eexists. split; [done|]. simpl. rewrite !Forall_cons, !Forall_nil. split_and!; done || lia.
  - simpl in Hok1. destruct (Z.ltb_spec deadline n1); [eexists; split; [done|]; simpl; set_solver|].
    destruct (IH n1' rb1 Hok1) as (o & -> & Ho). exists o. split; [done|].
    destruct o as [r|].
    + eapply wait_outcome_weaken; [|exact Ho]. simpl. set_solver.
    + destruct Ho as [Ho1 Ho2]. apply Forall_cons in Ho2 as [_ Ho2]. simpl.
      split; [by constructor|]. rewrite !Forall_cons. split_and!; [lia|lia|done].
Qed.

(** a blocking read that times out loses nothing.  Whatever the buffers
    found at its wake-ups, [ReadTimeout] never panics; it either hands out the
    oldest bytes of the buffer it last found (as many as fit), or leaves that
    buffer and the caller's slice untouched and reports a timeout, or reports
    closure of an empty closed buffer.  It is still waiting only if every
    buffer it found was open and empty and no wake-up was past the deadline,
    so the deadline timer ends the call. *)
Theorem ReadTimeout_exact t0 timeout dst wakes now rb :
  rb_ok rb -> Forall (fun w => rb_ok w.1.1) wakes ->
  exists o, ReadTimeout t0 timeout dst wakes now rb = Ret o /\
    if 0 <? timeout
    then wait_outcome dst (t0 + timeout) (rb :: map (fun w => w.1.1) wakes)
           (map (fun w => w.1.2) wakes) o
    else wait_outcome dst t0 [rb] [] o.
Proof.
  intros Hok Hw. unfold ReadTimeout. destruct (Z.leb_spec timeout 0).
  - rewrite (proj2 (Z.ltb_ge _ _)) by lia. pose proof (ring_Read_spec dst rb Hok) as Hr.
    destruct (Z.eqb_spec (used rb) 0) as [Hu|Hu].
    + rewrite Hr. destruct (closed rb) eqn:Hc; eexists; (split; [done|]); simpl.
      * rewrite contents_nil by done. set_solver.
      * by repeat constructor.
    + destruct Hr as (rb' & l & -> & Hok' & Hl & Hc & _). eexists. split; [done|]. simpl.
      exists rb, l. split_and!; try done. set_solver.
  - rewrite (proj2 (Z.ltb_lt _ _)) by lia. rewrite written_eq_read by done.
    destruct (closed rb && (used rb =? 0)) eqn:Hb.
    + zbool. eexists. split; [done|]. simpl. rewrite contents_nil by done. set_solver.
    + destruct (timeout_loop_outcome (t0 + timeout) dst wakes now rb Hok Hw) as ([r|] & -> & Ho);
        (eexists; split; [done|]); [by eapply wait_outcome_weaken|].
      destruct Ho as [Ho1 Ho2]. by apply Forall_cons in Ho2 as [_ Ho2].
Qed.

Lemma ReadTimeout_exact_witness :
  rb_ok ring4 /\
  exists o, ReadTimeout 100 50 [0; 0] [(ring4, 120, 121); (ring4, 151, 152)] 101 ring4 = Ret o /\
    o = Done (ring4, [0; 0], Err ErrTimeout).
Proof.
  destruct (NewRingBuffer_ok "s" 4 ltac:(lia)) as (rb & Hrb & Hok & _).
  assert (ring4 = rb) as He by (unfold ring4; by rewrite Hrb). rewrite <- He in Hok. split; [done|].
  destruct (ReadTimeout_exact 100 50 [0; 0] [(ring4, 120, 121); (ring4, 151, 152)] 101 ring4 Hok)
    as (o & Hr & _); [by repeat constructor|].
  exists o. split; [done|]. vm_compute in Hr. injection Hr as <-. vm_compute. reflexivity.
Defined.

(** the preview is the newest data.  As long as the running counters have
    not wrapped, [GetPreview] of a non-negative byte count never panics, does
    not change the buffer and returns the last bytes of the queue: as many as
    the bitrate makes of the seconds asked, at most what is queued. *)
Theorem GetPreview_newest seconds rb :
  rb_ok rb -> read rb + used rb = written rb ->
  let want := f64_trunc (f64_mul seconds
                (if f64_leb (avgBytesPerSec rb) (f64_of_Z 0) then f64_of_Z 6250000 else avgBytesPerSec rb)) in
  0 <= want ->
  let n := Z.min want (used rb) in
  GetPreview seconds rb = Ret (dropZ (used rb - n) (contents rb), n / 4096).
Proof.
  intros Hok Hnw want Hwant n. pose proof Hok as [Hs Hd Hr Hu Hw [Hc1 Hc2] Hbw Hbi].
  unfold GetPreview. cbv zeta. fold want. fold (used rb). clearbody want.
  assert ((if used rb <? want then used rb else want) = n) as -> by (unfold n; case_bool; lia).
  rewrite (proj2 (Z.ltb_ge (size rb) n)) by lia. assert (0 <= n <= used rb) as Hn by lia. clearbody n.
  rewrite make_bytes_Ret, bind_Ret by lia. unfold min_i64, max_i64 in *.
  rewrite (i64_id (written rb - n)) by lia. rewrite (proj2 (Z.ltb_ge _ (read rb))) by lia.
  rewrite (i64_id (written rb - n - read rb)), i64_id by (pow_consts; lia).
  rewrite go_rem_Ret, bind_Ret by lia.
  pose proof (Z.mod_pos_bound (readPos rb + (written rb - n - read rb)) (size rb) ltac:(lia)) as Hm.
  rewrite ring_read_loop_spec, bind_Ret by (rewrite ?len_replicate; lia).
  rewrite (dropZ_all n) by (rewrite len_replicate; lia). rewrite app_nil_r, ring_read_view by lia.
  set (l := takeZ n _). assert (len l = n) as Hl by (unfold l; rewrite len_takeZ; rewrite ?len_view; lia).
  rewrite slice_Ret, bind_Ret, Z.sub_0_r, dropZ_0, takeZ_all by lia.
  rewrite Z.quot_div_nonneg by lia. do 2 f_equal.
  unfold contents. rewrite (ring_advance (data rb) (readPos rb) (used rb) (used rb - n)) by lia.
  rewrite dropZ_app_ge, dropZ_0; rewrite ?len_takeZ; rewrite ?len_view; try lia.
  unfold l, ring_contents. f_equal; [lia|]. f_equal. rewrite Hd. f_equal. lia.
Qed.

Lemma GetPreview_newest_witness :
  exists rb, Write 5 5 [1; 2; 3] ring4 = Ret (rb, Val 3) /\ GetPreview (f64_of_Z 1) rb = Ret ([1; 2; 3], 0).
Proof.
  destruct (NewRingBuffer_ok "s" 4 ltac:(lia)) as (rb0 & Hrb & Hok & _).
  assert (ring4 = rb0) as He by (unfold ring4; by rewrite Hrb). rewrite <- He in Hok.
  destruct (Write_accepted 5 5 [1; 2; 3] ring4 Hok eq_refl) as (rb & Hw & Hok' & Hc & _).
  exists rb. split; [done|]. change (contents ring4) with (@nil Z) in Hc. simpl in Hc.
  vm_compute in Hw. injection Hw as <-.
  etrans; [apply GetPreview_newest; [done|reflexivity|by vm_compute]|]. by rewrite Hc.
Defined.
