(* ===== verification/Eviction.v ===== *)
(** * Eviction strategies and the stream tracker (memory/eviction.go)

    The strategies sort the streams and take the head of the order until the
    requested bytes are covered.  [sort.Slice] is not stable, so the order of
    ties is left open: the theorems hold for every sorting function that
    satisfies [GoSort], whose instance is the insertion sort Go itself runs on
    short slices. *)

From Stdlib Require Import Sorted.
From stdpp Require Import strings sorting.
From S2P Require Import Prelude Float64.
#[local] Open Scope Z_scope.

(** ** [sort.Slice] *)

(** [less] as Go requires it: a strict weak order. *)
Definition weak_order {A} (less : A -> A -> bool) : Prop :=
  (forall x y, less x y = true -> less y x = false) /\
  (forall x y z, less y x = false -> less z y = false -> less z x = false).

Class GoSort := {
  sort_slice : forall {A}, (A -> A -> bool) -> list A -> list A;
  sort_slice_perm : forall A (less : A -> A -> bool) l, sort_slice less l ≡ₚ l;
  sort_slice_sorted : forall A (less : A -> A -> bool) l, weak_order less ->
    StronglySorted (fun x y => less y x = false) (sort_slice less l)
}.

(** Go's [insertionSort], on the reversed sorted part: the element moves left
    while it is less than its neighbour. *)
Fixpoint insert_rev {A} (less : A -> A -> bool) (x : A) (l : list A) : list A :=
  match l with
  | [] => [x]
  | y :: l => if less x y then y :: insert_rev less x l else x :: y :: l
  end.
Definition insertion_sort {A} (less : A -> A -> bool) (l : list A) : list A :=
  reverse (foldl (fun acc x => insert_rev less x acc) [] l).

Lemma insert_rev_perm {A} (less : A -> A -> bool) x l : insert_rev less x l ≡ₚ x :: l.
Proof. induction l as [|y l IH]; simpl; [done|]. case_bool; [|done]. rewrite IH. by constructor. Qed.

Lemma insert_rev_sorted {A} (less : A -> A -> bool) x l : weak_order less ->
  StronglySorted (fun a b => less a b = false) l ->
  StronglySorted (fun a b => less a b = false) (insert_rev less x l).
Proof.
  intros [Has Htr]. induction 1 as [|y l Hl IH Hy]; simpl; [by repeat constructor|].
  destruct (less x y) eqn:E.
  - constructor; [done|]. rewrite insert_rev_perm, Forall_cons. split; [by apply Has|done].
  - constructor; [by constructor|]. rewrite Forall_cons. split; [done|].
    eapply Forall_impl; [exact Hy|]. simpl. intros z Hz. by apply (Htr z y x).
Qed.

Lemma insertion_fold_perm {A} (less : A -> A -> bool) l acc :
  foldl (fun acc x => insert_rev less x acc) acc l ≡ₚ acc ++ l.
Proof.
  revert acc. induction l as [|x l IH]; intros acc; simpl; [by rewrite app_nil_r|].
  by rewrite IH, insert_rev_perm, <- Permutation_middle.
Qed.

Lemma insertion_fold_sorted {A} (less : A -> A -> bool) l acc : weak_order less ->
  StronglySorted (fun a b => less a b = false) acc ->
  StronglySorted (fun a b => less a b = false) (foldl (fun acc x => insert_rev less x acc) acc l).
Proof.
  intros Hw. revert acc. induction l as [|x l IH]; intros acc Ha; simpl; [done|].
  apply IH. by apply insert_rev_sorted.
Qed.

Lemma StronglySorted_snoc {A} (R : A -> A -> Prop) l x :
  StronglySorted R l -> Forall (fun y => R y x) l -> StronglySorted R (l ++ [x]).
Proof.
  induction 1 as [|y l Hl IH Hy]; intros Hx; simpl; [by repeat constructor|].
  apply Forall_cons in Hx as [Hyx Hx]. constructor; [by apply IH|].
  apply Forall_app. split; [done|by constructor].
Qed.

Lemma StronglySorted_reverse {A} (R : A -> A -> Prop) l :
  StronglySorted R l -> StronglySorted (fun x y => R y x) (reverse l).
Proof.
  induction 1 as [|y l Hl IH Hy]; [constructor|]. rewrite reverse_cons.
  apply StronglySorted_snoc; [done|]. by rewrite reverse_Permutation.
Qed.

Definition insertion_GoSort : GoSort.
Proof.
  refine {| sort_slice := @insertion_sort |}.
  - intros A less l. unfold insertion_sort. rewrite reverse_Permutation. apply insertion_fold_perm.
  - intros A less l Hw. unfold insertion_sort. apply StronglySorted_reverse.
    apply (insertion_fold_sorted less l []); [done|constructor].
Defined.

(** ** Data (eviction.go:15-22, 103-108, 202-213) *)

Record StreamInfo := mkStreamInfo {
  StreamID : string;
  MemoryUsage : Z;
  LastAccess : Z;
  Priority : Z;
  IsActive : bool;
  CreatedAt : Z
}.

Record HybridEvictionStrategy := {
  AgeWeight : float64;
  SizeWeight : float64;
  PriorityWeight : float64
}.

Record trackedStream := mkTracked {
  ts_streamID : string;
  lastAccess : Z;
  createdAt : Z;
  priority : Z;
  isActive : bool
}.
#[export] Instance eta_trackedStream : Eta trackedStream := fun t =>
  mkTracked (ts_streamID t) (lastAccess t) (createdAt t) (priority t) (isActive t).

Definition StreamTracker := gmap string trackedStream.

(** ** The stream tracker (eviction.go:215-284) *)

Definition NewStreamTracker : StreamTracker := ∅.

Definition TrackStream (id : string) (prio now : Z) (t : StreamTracker) : StreamTracker :=
  <[id := mkTracked id now now prio true]> t.

Definition UpdateAccess (id : string) (now : Z) (t : StreamTracker) : StreamTracker :=
  match t !! id with
  | Some s => <[id := s <| lastAccess := now |>]> t
  | None => t
  end.

Definition SetActive (id : string) (active : bool) (t : StreamTracker) : StreamTracker :=
  match t !! id with
  | Some s => <[id := s <| isActive := active |>]> t
  | None => t
  end.

Definition RemoveStream (id : string) (t : StreamTracker) : StreamTracker := delete id t.

(** An unknown stream counts as active, of medium priority and just used. *)
Definition GetStreamInfo (id : string) (memoryUsage now : Z) (t : StreamTracker) : StreamInfo :=
  match t !! id with
  | Some s => mkStreamInfo (ts_streamID s) memoryUsage (lastAccess s) (priority s) (isActive s) (createdAt s)
  | None => mkStreamInfo id memoryUsage now 5 true now
  end.

(** ** Selection *)

(** The selecting loops (eviction.go:41-47, 68-74, 91-97). *)
Fixpoint select_loop (targetBytes : Z) (streams : list StreamInfo)
    (selected : list string) (totalBytes : Z) : list string * Z :=
  match streams with
  | [] => (selected, totalBytes)
  | s :: streams =>
      if targetBytes <=? totalBytes then (selected, totalBytes)
      else select_loop targetBytes streams (selected ++ [StreamID s]) (i64 (totalBytes + MemoryUsage s))
  end.

(** [containsString] (eviction.go:286) *)
Definition containsString (l : list string) (str : string) : bool :=
  existsb (fun s => bool_decide (s = str)) l.

Section selection.
Context `{GoSort}.

(** Inactive streams first, the least recently used first among equals
    (eviction.go:29-36). *)
Definition lru_less (a b : StreamInfo) : bool :=
  if negb (Bool.eqb (IsActive a) (IsActive b)) then negb (IsActive a)
  else LastAccess a <? LastAccess b.

Definition SelectLRU (streams : list StreamInfo) (targetBytes : Z) : list string :=
  (select_loop targetBytes (sort_slice lru_less streams) [] 0).1.

(** (eviction.go:57-63) *)
Definition priority_less (a b : StreamInfo) : bool :=
  if negb (Priority a =? Priority b) then Priority b <? Priority a
  else LastAccess a <? LastAccess b.

Definition SelectPriority (streams : list StreamInfo) (targetBytes : Z) : list string :=
  (select_loop targetBytes (sort_slice priority_less streams) [] 0).1.

(** (eviction.go:84-86) *)
Definition size_less (a b : StreamInfo) : bool := MemoryUsage b <? MemoryUsage a.

Definition SelectSizeBased (streams : list StreamInfo) (targetBytes : Z) : list string :=
  (select_loop targetBytes (sort_slice size_less streams) [] 0).1.

(** The largest age and size, from zero (eviction.go:125-133). *)
Definition max_age (now : Z) (streams : list StreamInfo) : Z :=
  foldl (fun m s => if m <? time_sub now (LastAccess s) then time_sub now (LastAccess s) else m) 0 streams.
Definition max_size (streams : list StreamInfo) : Z :=
  foldl (fun m s => if m <? MemoryUsage s then MemoryUsage s else m) 0 streams.

(** The score of a stream (eviction.go:139-163). *)
Definition score (h : HybridEvictionStrategy) (now maxAge maxSize : Z) (s : StreamInfo) : float64 :=
  if IsActive s then f64_of_Z (-1)
  else
    let ageScore :=
      if 0 <? maxAge then f64_div (f64_of_Z (time_sub now (LastAccess s))) (f64_of_Z maxAge)
      else f64_of_Z 0 in
    let sizeScore :=
      if 0 <? maxSize then f64_div (f64_of_Z (MemoryUsage s)) (f64_of_Z maxSize) else f64_of_Z 0 in
    let priorityScore := f64_div (f64_of_Z (Priority s)) (f64_of_Z 10) in
    f64_add (f64_add (f64_mul (AgeWeight h) ageScore) (f64_mul (SizeWeight h) sizeScore))
      (f64_mul (PriorityWeight h) priorityScore).

Definition score_less (a b : StreamInfo * float64) : bool := f64_ltb b.2 a.2.
Definition is_negative (x : float64) : bool := f64_ltb x (f64_of_Z 0).

(** The first loop skips negative scores (eviction.go:174-183), the second
    takes them when the target is not met (eviction.go:187-195). *)
Fixpoint hybrid_first (targetBytes : Z) (scored : list (StreamInfo * float64))
    (selected : list string) (totalBytes : Z) : list string * Z :=
  match scored with
  | [] => (selected, totalBytes)
  | (s, x) :: scored =>
      if targetBytes <=? totalBytes then (selected, totalBytes)
      else if is_negative x then hybrid_first targetBytes scored selected totalBytes
      else hybrid_first targetBytes scored (selected ++ [StreamID s]) (i64 (totalBytes + MemoryUsage s))
  end.
Fixpoint hybrid_second (targetBytes : Z) (scored : list (StreamInfo * float64))
    (selected : list string) (totalBytes : Z) : list string * Z :=
  match scored with
  | [] => (selected, totalBytes)
  | (s, x) :: scored =>
      if targetBytes <=? totalBytes then (selected, totalBytes)
      else if is_negative x && negb (containsString selected (StreamID s)) then
        hybrid_second targetBytes scored (selected ++ [StreamID s]) (i64 (totalBytes + MemoryUsage s))
      else hybrid_second targetBytes scored selected totalBytes
  end.

Definition SelectHybrid (h : HybridEvictionStrategy) (now : Z) (streams : list StreamInfo)
    (targetBytes : Z) : list string :=
  let maxAge := max_age now streams in
  let maxSize := max_size streams in
  let scored := map (fun s => (s, score h now maxAge maxSize s)) streams in
  let scored := sort_slice score_less scored in
  let '(selected, totalBytes) := hybrid_first targetBytes scored [] 0 in
  if totalBytes <? targetBytes then (hybrid_second targetBytes scored selected totalBytes).1
  else selected.
End selection.

(** ** Specification of a selection *)

Definition usage_sum (l : list StreamInfo) : Z := foldr (fun s n => MemoryUsage s + n) 0 l.
Definition ids (l : list StreamInfo) : list string := map StreamID l.

(** Sizes are non-negative and their sum is an int64. *)
Definition sizes_ok (l : list StreamInfo) : Prop :=
  Forall (fun s => 0 <= MemoryUsage s) l /\ usage_sum l <= max_i64.

(** [taken] covers the target unless everything is taken, and stops as soon
    as it does. *)
Definition covers (target : Z) (taken rest : list StreamInfo) : Prop :=
  (rest = [] \/ target <= usage_sum taken) /\
  (forall pre x, taken = pre ++ [x] -> usage_sum pre < target).

(** The selection of an order: the least streams, just enough of them. *)
Definition selects (less : StreamInfo -> StreamInfo -> bool) (target : Z)
    (streams : list StreamInfo) (selected : list string) : Prop :=
  exists taken rest, taken ++ rest ≡ₚ streams /\ selected = ids taken /\ covers target taken rest /\
    (forall x y, x ∈ taken -> y ∈ rest -> less y x = false).

Lemma usage_sum_app l k : usage_sum (l ++ k) = usage_sum l + usage_sum k.
Proof. unfold usage_sum. induction l as [|s l IH]; simpl; [done|]. rewrite IH. lia. Qed.
Lemma usage_sum_perm l k : l ≡ₚ k -> usage_sum l = usage_sum k.
Proof. unfold usage_sum. induction 1; simpl; lia. Qed.
Lemma usage_sum_nonneg l : Forall (fun s => 0 <= MemoryUsage s) l -> 0 <= usage_sum l.
Proof. unfold usage_sum. induction 1; simpl; lia. Qed.
Lemma sizes_ok_perm l k : l ≡ₚ k -> sizes_ok l -> sizes_ok k.
Proof. intros Hp [H1 H2]. split; [by rewrite <- Hp|]. by rewrite <- (usage_sum_perm l k). Qed.
Lemma sizes_ok_cons s l : sizes_ok (s :: l) -> 0 <= MemoryUsage s /\ sizes_ok l /\ MemoryUsage s + usage_sum l <= max_i64.
Proof.
  intros [H1 H2]. apply Forall_cons in H1 as [H0 H1]. change (usage_sum (s :: l)) with (MemoryUsage s + usage_sum l) in H2.
  split_and!; [done| |done]. split; [done|lia].
Qed.

(** Appending one more stream to what was taken. *)
Lemma last_snoc {A} (P : list A -> Prop) acc s taken :
  P acc -> (forall pre x, taken = pre ++ [x] -> P (acc ++ s :: pre)) ->
  forall pre x, s :: taken = pre ++ [x] -> P (acc ++ pre).
Proof.
  intros H0 H [|y pre] x; simpl; intros [= -> Heq]; [by rewrite app_nil_r|]. by eapply H.
Qed.

Lemma select_loop_spec target l sel tot :
  sizes_ok l -> 0 <= tot -> tot + usage_sum l <= max_i64 ->
  exists taken rest, l = taken ++ rest /\
    select_loop target l sel tot = (sel ++ ids taken, tot + usage_sum taken) /\
    (rest = [] \/ target <= tot + usage_sum taken) /\
    (forall pre x, taken = pre ++ [x] -> tot + usage_sum pre < target).
Proof.
  revert sel tot. induction l as [|s l IH]; intros sel tot Hok Ht Hsum; cbn [select_loop].
  - exists [], []. split_and!; [done|by rewrite app_nil_r, Z.add_0_r|by left|by intros []].
  - apply sizes_ok_cons in Hok as (H0 & Hok & _).
    change (usage_sum (s :: l)) with (MemoryUsage s + usage_sum l) in Hsum.
    destruct (Z.leb_spec target tot) as [Hle|Hgt].
    + exists [], (s :: l). split_and!; [done|by rewrite app_nil_r, Z.add_0_r|simpl; right; lia|by intros []].
    + pose proof (usage_sum_nonneg l (proj1 Hok)). rewrite i64_id by (unfold max_i64 in *; lia).
      destruct (IH (sel ++ [StreamID s]) (tot + MemoryUsage s) Hok ltac:(lia) ltac:(lia))
        as (taken & rest & -> & -> & Hcov & Hmin).
      exists (s :: taken), rest. split_and!; [done| |simpl; destruct Hcov; [by left|right; lia]|].
      * rewrite <- app_assoc. simpl. f_equal. lia.
      * apply (last_snoc (fun pre => tot + usage_sum pre < target) [] s taken); [simpl; lia|].
        intros pre x Heq. specialize (Hmin pre x Heq). simpl. lia.
Qed.

Section order.
Context `{GoSort}.

Lemma StronglySorted_app_rel {A} (R : A -> A -> Prop) l k x y :
  StronglySorted R (l ++ k) -> x ∈ l -> y ∈ k -> R x y.
Proof.
  induction l as [|z l IH]; simpl; intros Hs Hx Hy; [by apply not_elem_of_nil in Hx|].
  inversion Hs as [|? ? Hs' Hf]; subst. apply elem_of_cons in Hx as [->|Hx]; [|by apply IH].
  rewrite Forall_forall in Hf. apply Hf. apply elem_of_app. by right.
Qed.

Lemma order_selects less target streams :
  weak_order less -> sizes_ok streams ->
  selects less target streams (select_loop target (sort_slice less streams) [] 0).1.
Proof.
  intros Hw Hok. pose proof (sort_slice_perm _ less streams) as Hp.
  apply (sizes_ok_perm _ _ (symmetry Hp)) in Hok.
  destruct (select_loop_spec target (sort_slice less streams) [] 0 Hok) as (taken & rest & Heq & -> & Hc & Hm);
    [lia|apply Hok|].
  exists taken, rest. split_and!; [by rewrite <- Heq|done|by split|].
  intros x y Hx Hy. pose proof (sort_slice_sorted _ less streams Hw) as Hs. rewrite Heq in Hs.
  exact (StronglySorted_app_rel _ _ _ x y Hs Hx Hy).
Qed.

Lemma lru_weak_order : weak_order lru_less.
Proof.
  unfold lru_less. split.
  - intros x y. destruct (IsActive x), (IsActive y); simpl; try done; rewrite Z.ltb_ge, Z.ltb_lt; lia.
  - intros x y z. destruct (IsActive x), (IsActive y), (IsActive z); simpl; try done; rewrite !Z.ltb_ge; lia.
Qed.
Lemma priority_weak_order : weak_order priority_less.
Proof. unfold priority_less. split; intros *; repeat case_bool; simpl; zbool; try done; rewrite ?Z.ltb_ge, ?Z.ltb_lt in *; lia. Qed.
Lemma size_weak_order : weak_order size_less.
Proof. unfold size_less. split; intros *; rewrite !Z.ltb_ge, ?Z.ltb_lt; lia. Qed.
End order.

(** ** The hybrid strategy as two greedy selections *)

(** The streams whose score is negative ([b = true]) or not, in order. *)
Definition part (b : bool) (l : list (StreamInfo * float64)) : list StreamInfo :=
  map fst (List.filter (fun p => Bool.eqb (is_negative p.2) b) l).

Lemma part_perm l : part false l ++ part true l ≡ₚ map fst l.
Proof.
  unfold part. induction l as [|[s x] l IH]; simpl; [done|]. destruct (is_negative x); simpl.
  - by rewrite <- Permutation_middle, IH.
  - by rewrite IH.
Qed.

Lemma select_loop_done target l sel tot :
  target <= tot -> select_loop target l sel tot = (sel, tot).
Proof. intros Ht. destruct l; simpl; [done|]. by rewrite (proj2 (Z.leb_le _ _)). Qed.

Lemma hybrid_first_part target l sel tot :
  hybrid_first target l sel tot = select_loop target (part false l) sel tot.
Proof.
  revert sel tot. induction l as [|[s x] l IH]; intros sel tot; [done|]. cbn [hybrid_first].
  destruct (Z.leb_spec target tot); [by rewrite select_loop_done|].
  unfold part. simpl. destruct (is_negative x); simpl; [apply IH|].
  rewrite (proj2 (Z.leb_gt _ _)) by lia. apply IH.
Qed.

Lemma containsString_in l s : containsString l s = bool_decide (s ∈ l).
Proof.
  unfold containsString. induction l as [|t l IH]; simpl; [done|]. rewrite IH.
  repeat case_bool_decide; set_solver.
Qed.

Lemma hybrid_second_part target l sel tot :
  NoDup (ids (map fst l)) -> (forall s, s ∈ part true l -> StreamID s ∉ sel) ->
  hybrid_second target l sel tot = select_loop target (part true l) sel tot.
Proof.
  revert sel tot. induction l as [|[s x] l IH]; intros sel tot Hnd Hsel; [done|]. cbn [hybrid_second].
  simpl in Hnd. apply NoDup_cons in Hnd as [Hs Hnd].
  destruct (Z.leb_spec target tot); [by rewrite select_loop_done|].
  revert Hsel. unfold part. simpl. destruct (is_negative x) eqn:Hx; simpl; intros Hsel.
  - rewrite containsString_in, bool_decide_eq_false_2 by (apply Hsel; set_solver). simpl.
    rewrite (proj2 (Z.leb_gt _ _)) by lia. apply IH; [done|]. intros s' Hs' Hin.
    apply elem_of_app in Hin as [Hin|Hin%list_elem_of_singleton]; [revert Hin; apply Hsel; set_solver|].
    apply Hs. rewrite <- Hin. unfold ids. apply list_elem_of_fmap_2. change (s' ∈ part true l) in Hs'.
    rewrite <- part_perm. set_solver.
  - by apply IH.
Qed.

Section hybrid.
Context `{GoSort}.

(** What the hybrid strategy selects: streams of non-negative score first,
    the others (active streams score -1) only when all of those are taken. *)
Definition hybrid_selects (h : HybridEvictionStrategy) (now target : Z)
    (streams : list StreamInfo) (selected : list string) : Prop :=
  let negative s := is_negative (score h now (max_age now streams) (max_size streams) s) in
  exists taken rest, taken ++ rest ≡ₚ streams /\ selected = ids taken /\ covers target taken rest /\
    (forall x y, x ∈ taken -> y ∈ rest -> negative x = true -> negative y = true).

Lemma part_negative h now ma ms streams l b s :
  l ≡ₚ map (fun s => (s, score h now ma ms s)) streams ->
  s ∈ part b l -> is_negative (score h now ma ms s) = b.
Proof.
  intros Hp. unfold part. intros ([s' x] & -> & Hin)%list_elem_of_fmap. simpl.
  apply list_elem_of_In, filter_In in Hin as [Hin Hb%Bool.eqb_prop].
  apply list_elem_of_In in Hin. rewrite Hp in Hin. apply list_elem_of_fmap in Hin as (? & [= <- ->] & _). done.
Qed.

Lemma hybrid_spec h now target streams :
  NoDup (ids streams) -> sizes_ok streams ->
  hybrid_selects h now target streams (SelectHybrid h now streams target).
Proof.
  intros Hnd Hok. unfold SelectHybrid, hybrid_selects. set (ma := max_age now streams). set (ms := max_size streams).
  set (l0 := map _ streams). pose proof (sort_slice_perm _ score_less l0) as Hp.
  set (l := sort_slice score_less l0) in *. clearbody l.
  assert (map fst l ≡ₚ streams) as Hl.
  { rewrite Hp. unfold l0. rewrite map_map. simpl. by rewrite map_id. }
  assert (sizes_ok (part false l ++ part true l)) as Hsz.
  { eapply sizes_ok_perm; [|exact Hok]. by rewrite part_perm, Hl. }
  destruct Hsz as [[Hf1 Hf2]%Forall_app Hs]. rewrite usage_sum_app in Hs.
  pose proof (usage_sum_nonneg _ Hf1). pose proof (usage_sum_nonneg _ Hf2).
  rewrite hybrid_first_part.
  destruct (select_loop_spec target (part false l) [] 0) as (t1 & r1 & E1 & -> & C1 & M1); [split; [done|lia]|lia..|].
  simpl in *. rewrite Z.add_0_l in *.
  assert (forall b s, s ∈ part b l -> is_negative (score h now ma ms s) = b) as Hneg.
  { intros b s. by apply (part_negative _ _ _ _ streams). }
  pose proof (part_perm l) as Hpp. rewrite Hl in Hpp.
  destruct (Z.ltb_spec (usage_sum t1) target) as [Hlt|Hge].
  - destruct C1 as [->|?]; [|lia]. rewrite app_nil_r in E1. subst t1.
    rewrite hybrid_second_part; cycle 1.
    { unfold ids in *. by rewrite Hl. }
    { intros s Hs1 Hs2. unfold ids in *. rewrite <- Hpp, map_app in Hnd. apply NoDup_app in Hnd as (_ & Hd & _).
      apply (Hd _ Hs2). by apply list_elem_of_fmap_2. }
    destruct (select_loop_spec target (part true l) (ids (part false l)) (usage_sum (part false l)))
      as (t2 & r2 & E2 & -> & C2 & M2); [split; [done|lia]|lia..|].
    exists (part false l ++ t2), r2. split_and!.
    + by rewrite <- app_assoc, <- E2.
    + unfold ids. by rewrite map_app.
    + split; [rewrite usage_sum_app; destruct C2; [by left|right; lia]|].
      intros pre x Heq. destruct t2 as [|z t2 _] using rev_ind.
      * rewrite app_nil_r in Heq. by apply (M1 pre x).
      * rewrite app_assoc in Heq. apply app_inj_tail in Heq as [<- <-].
        rewrite usage_sum_app. by apply (M2 t2 z).
    + intros x y _ Hy _. apply Hneg. rewrite E2. set_solver.
  - exists t1, (r1 ++ part true l). split_and!.
    + by rewrite app_assoc, <- E1.
    + done.
    + split; [by right|done].
    + intros x y Hx _ Hn. assert (x ∈ part false l) as Hin by (rewrite E1; set_solver).
      apply Hneg in Hin. congruence.
Qed.
End hybrid.

(** ** Properties *)

(** the three ordering strategies.  Whatever sorting function is used,
    the selection is a set of least streams of the strategy's order (inactive
    before active and then least recently used; highest priority number; the
    largest), it covers the requested bytes or is everything, and no shorter
    head of it would do. *)
Theorem strategies_select `{GoSort} streams target :
  sizes_ok streams ->
  selects lru_less target streams (SelectLRU streams target) /\
  selects priority_less target streams (SelectPriority streams target) /\
  selects size_less target streams (SelectSizeBased streams target).
Proof.
  intros Hok. split_and!; apply order_selects; try done;
    auto using lru_weak_order, priority_weak_order, size_weak_order.
Qed.

(** the default strategy.  [SelectHybrid] names no stream twice, covers
    the requested bytes or selects everything, takes no more streams than
    needed, and touches a stream of negative score - every active stream
    scores -1 - only when all streams of non-negative score are selected. *)
Theorem hybrid_spares_active `{GoSort} h now target streams :
  NoDup (ids streams) -> sizes_ok streams ->
  hybrid_selects h now target streams (SelectHybrid h now streams target) /\
  NoDup (SelectHybrid h now streams target) /\
  (forall s, IsActive s = true ->
     is_negative (score h now (max_age now streams) (max_size streams) s) = true).
Proof.
  intros Hnd Hok. pose proof (hybrid_spec h now target streams Hnd Hok) as Hs. split; [done|]. split.
  - destruct Hs as (taken & rest & Hp & -> & _). unfold ids in *. rewrite <- Hp, map_app in Hnd.
    by apply NoDup_app in Hnd as [? _].
  - intros s Ha. unfold score. by rewrite Ha.
Qed.

Definition sample_streams : list StreamInfo :=
  [mkStreamInfo "a" 100 10 5 true 0; mkStreamInfo "b" 50 20 5 false 0; mkStreamInfo "c" 70 5 2 false 0].

Lemma sample_ok : NoDup (ids sample_streams) /\ sizes_ok sample_streams.
Proof.
  split; [by apply (bool_decide_unpack _); vm_compute|]. split; [|by vm_compute].
  repeat (apply Forall_cons; split; [simpl; lia|]). apply Forall_nil. done.
Qed.

Lemma strategies_select_witness :
  selects lru_less 80 sample_streams ["c"; "b"] /\ selects size_less 80 sample_streams ["a"].
Proof.
  destruct (@strategies_select insertion_GoSort sample_streams 80 (proj2 sample_ok)) as (Hl & _ & Hs).
  split; [exact Hl|exact Hs].
Defined.

Lemma hybrid_spares_active_witness :
  hybrid_selects {| AgeWeight := f64_dec 4 1; SizeWeight := f64_dec 4 1; PriorityWeight := f64_dec 2 1 |}
    100 130 sample_streams ["c"; "b"; "a"].
Proof.
  destruct (@hybrid_spares_active insertion_GoSort
    {| AgeWeight := f64_dec 4 1; SizeWeight := f64_dec 4 1; PriorityWeight := f64_dec 2 1 |}
    100 130 sample_streams (proj1 sample_ok) (proj2 sample_ok)) as [Hh _].
  match type of Hh with hybrid_selects _ _ _ _ ?s =>
    assert (s = ["c"; "b"; "a"]) as He by (vm_compute; reflexivity) end.
  rewrite He in Hh. exact Hh.
Defined.
