(* ===== verification/Memory.v ===== *)
(** * The memory controller (memory/controller.go)

    Budgets of the ingestion service: one global counter and one counter per
    stream.  This file treats an operation as one step; MemoryRace.v opens the
    atomic steps of [RequestMemory] and [ReleaseMemory] to interleaving.  The
    eviction strategy is the interface the controller calls, the eviction
    callback is client code: both are parameters. *)

From stdpp Require Import strings.
From S2P Require Import Prelude Float64 MapSum Eviction.
#[local] Open Scope Z_scope.

(** ** State (controller.go:20-41) *)

Inductive mem_error : Type := ErrGlobalMemoryLimit | ErrStreamMemoryLimit.

Record Controller := mkController {
  maxMemory : Z;
  perStreamLimit : Z;
  usage : Z;
  streamUsage : gmap string Z;
  pressureThreshold : float64;
  hasCallback : bool;   (* evictionCallback <> nil *)
  streamTracker : StreamTracker;
  allocationCount : Z;
  releaseCount : Z;
  evictionCount : Z;
  lastGCTime : Z
}.
#[export] Instance eta_Controller : Eta Controller := fun c =>
  mkController (maxMemory c) (perStreamLimit c) (usage c) (streamUsage c) (pressureThreshold c)
    (hasCallback c) (streamTracker c) (allocationCount c) (releaseCount c) (evictionCount c) (lastGCTime c).

(** [NewController] (controller.go:44) *)
Definition NewController (maxMemory perStreamLimit now : Z) : Controller :=
  {| maxMemory := maxMemory; perStreamLimit := perStreamLimit; usage := 0; streamUsage := ∅;
     pressureThreshold := f64_dec 8 1; hasCallback := false; streamTracker := NewStreamTracker;
     allocationCount := 0; releaseCount := 0; evictionCount := 0; lastGCTime := now |}.

Definition SetEvictionCallback (c : Controller) : Controller := c <| hasCallback := true |>.

(** [c.usage.Add(n)]: the counter after the addition. *)
Definition addUsage (n : Z) (c : Controller) : Controller := c <| usage := i64 (usage c + n) |>.
Definition setStream (id : string) (n : Z) (c : Controller) : Controller :=
  c <| streamUsage := <[id := n]> (streamUsage c) |>.

(** [getOrCreateStreamUsage] (controller.go:125) *)
Definition getOrCreateStreamUsage (id : string) (c : Controller) : Controller * Z :=
  match streamUsage c !! id with
  | Some u => (c, u)
  | None => (setStream id 0 c, 0)
  end.

(** The label [checkStreamLimit] of [RequestMemory] (controller.go:108-121). *)
Definition checkStreamLimit (id : string) (size : Z) (c : Controller) : Controller * exn mem_error unit :=
  let '(c, u) := getOrCreateStreamUsage id c in
  let u := i64 (u + size) in
  let c := setStream id u c in
  if perStreamLimit c <? u then
    let c := setStream id (i64 (u - size)) c in
    let c := addUsage (- size) c in
    (c, Err ErrStreamMemoryLimit)
  else (c <| allocationCount := i64 (allocationCount c + 1) |>, Val tt).

(** [ReleaseMemory] (controller.go:147); alone, its compare-and-swap succeeds
    at once. *)
Definition ReleaseMemory (id : string) (size : Z) (c : Controller) : Controller :=
  match streamUsage c !! id with
  | None => c
  | Some oldUsage =>
      let c :=
        if oldUsage <=? 0 then c
        else if size <=? oldUsage then addUsage (- size) (setStream id (i64 (oldUsage - size)) c)
        else addUsage (- oldUsage) (setStream id 0 c) in
      c <| releaseCount := i64 (releaseCount c + 1) |>
  end.

(** [GetPressure], [GetStreamUsage] (controller.go:182, 187) *)
Definition GetPressure (c : Controller) : float64 := f64_div (f64_of_Z (usage c)) (f64_of_Z (maxMemory c)).
Definition GetStreamUsage (id : string) (c : Controller) : Z := default 0 (streamUsage c !! id).

(** [ResetStreamUsage] (controller.go:285) *)
Definition ResetStreamUsage (id : string) (c : Controller) : Controller :=
  let c :=
    match streamUsage c !! id with
    | Some remaining =>
        let c := c <| streamUsage := delete id (streamUsage c) |> in
        if 0 <? remaining then addUsage (- remaining) c else c
    | None => c
    end in
  c <| streamTracker := RemoveStream id (streamTracker c) |>.

(** The tracker's operations (controller.go:297-309) *)
Definition TrackStream (id : string) (prio now : Z) (c : Controller) : Controller :=
  c <| streamTracker := Eviction.TrackStream id prio now (streamTracker c) |>.
Definition UpdateStreamAccess (id : string) (now : Z) (c : Controller) : Controller :=
  c <| streamTracker := UpdateAccess id now (streamTracker c) |>.
Definition SetStreamActive (id : string) (active : bool) (c : Controller) : Controller :=
  c <| streamTracker := SetActive id active (streamTracker c) |>.

(** [Stats] (controller.go:196) without the derived percentages; [Range]
    visits the streams in an unspecified order. *)
Record MemoryStats := {
  GlobalUsage : Z;
  GlobalLimit : Z;
  GlobalPressure : float64;
  PerStreamLimit : Z;
  ActiveStreams : Z;
  StreamStats : list (string * Z * float64);
  AllocationCount : Z;
  ReleaseCount : Z;
  EvictionCount : Z;
  PressureThreshold : float64
}.
Definition active_streams (c : Controller) : list (string * Z) :=
  List.filter (fun p => 0 <? p.2) (map_to_list (streamUsage c)).
Definition Stats (c : Controller) : MemoryStats :=
  {| GlobalUsage := usage c; GlobalLimit := maxMemory c;
     GlobalPressure := f64_div (f64_of_Z (usage c)) (f64_of_Z (maxMemory c));
     PerStreamLimit := perStreamLimit c; ActiveStreams := len (active_streams c);
     StreamStats := map (fun p => (p.1, p.2,
       f64_mul (f64_div (f64_of_Z p.2) (f64_of_Z (perStreamLimit c))) (f64_of_Z 100))) (active_streams c);
     AllocationCount := allocationCount c; ReleaseCount := releaseCount c;
     EvictionCount := evictionCount c; PressureThreshold := pressureThreshold c |}.

Section eviction.
Context (strategy : list StreamInfo -> Z -> list string).
Context (evictionCallback : string -> Z -> Controller -> Controller).

(** The evicting loop (controller.go:265-279). *)
Fixpoint evict_loop (selected : list string) (c : Controller) (totalEvicted : Z) : Controller * Z :=
  match selected with
  | [] => (c, totalEvicted)
  | id :: selected =>
      match streamUsage c !! id with
      | None => evict_loop selected c totalEvicted
      | Some usageBefore =>
          let c := setStream id 0 c in
          let '(c, totalEvicted) :=
            if 0 <? usageBefore then (addUsage (- usageBefore) c, i64 (totalEvicted + usageBefore))
            else (c, totalEvicted) in
          let c := evictionCallback id usageBefore c in
          let c := c <| evictionCount := i64 (evictionCount c + 1) |> in
          evict_loop selected c totalEvicted
      end
  end.

(** [evictMemory] (controller.go:234) *)
Definition evictMemory (targetSize now : Z) (c : Controller) : Controller * Z :=
  if negb (hasCallback c) then (c, 0)
  else
    let streams := map (fun p => GetStreamInfo p.1 p.2 now (streamTracker c)) (active_streams c) in
    if len streams =? 0 then (c, 0)
    else evict_loop (strategy streams targetSize) c 0.

(** [RequestMemory] (controller.go:67).  [now] is the reading of [time.Since],
    [now'] the reading stored in [lastGCTime]. *)
Definition RequestMemory (id : string) (size now now' : Z) (c : Controller)
    : Controller * exn mem_error unit :=
  let c := addUsage size c in
  if maxMemory c <? usage c then
    let c := addUsage (- size) c in
    let '(c, fits) :=
      if 10 * second <? time_sub now (lastGCTime c) then
        let c := c <| lastGCTime := now' |> in
        let c := addUsage size c in
        if usage c <=? maxMemory c then (c, true) else (addUsage (- size) c, false)
      else (c, false) in
    if fits : bool then checkStreamLimit id size c
    else
      let pressure := f64_div (f64_of_Z (usage c)) (f64_of_Z (maxMemory c)) in
      if f64_ltb (pressureThreshold c) pressure then
        let '(c, evicted) := evictMemory size now' c in
        if 0 <? evicted then
          let c := addUsage size c in
          if usage c <=? maxMemory c then checkStreamLimit id size c
          else (addUsage (- size) c, Err ErrGlobalMemoryLimit)
        else (c, Err ErrGlobalMemoryLimit)
      else (c, Err ErrGlobalMemoryLimit)
  else checkStreamLimit id size c.
End eviction.

(** ** The accounting invariant *)

(** The global counter is the sum of the stream counters, and no counter is
    negative or above its limit. *)
Record mem_ok (c : Controller) : Prop := {
  mo_max : 0 <= maxMemory c <= 2 ^ 62;
  mo_limit : 0 <= perStreamLimit c <= 2 ^ 62;
  mo_stream : forall id u, streamUsage c !! id = Some u -> 0 <= u <= perStreamLimit c;
  mo_sum : usage c = msum (streamUsage c);
  mo_usage : usage c <= maxMemory c
}.

Definition same_limits (c c' : Controller) : Prop :=
  maxMemory c' = maxMemory c /\ perStreamLimit c' = perStreamLimit c.

(** Controllers that account the same, streams without a counter having 0. *)
Definition same_usage (c c' : Controller) : Prop :=
  usage c' = usage c /\ forall id, GetStreamUsage id c' = GetStreamUsage id c.

(** [n] more bytes held by stream [id]. *)
Definition charged (id : string) (n : Z) (c c' : Controller) : Prop :=
  usage c' = usage c + n /\
  forall id', GetStreamUsage id' c' = GetStreamUsage id' c + (if decide (id' = id) then n else 0).

Lemma mem_ok_usage c : mem_ok c -> 0 <= usage c /\ forall id, 0 <= GetStreamUsage id c <= usage c /\ GetStreamUsage id c <= perStreamLimit c.
Proof.
  intros [? Hl Hs Hm ?]. destruct (msum_bounds (streamUsage c)) as [H0 H1].
  { intros k u Hk. apply (Hs k u Hk). }
  split; [lia|]. intros id. unfold GetStreamUsage. destruct (streamUsage c !! id) as [u|] eqn:E; simpl; [|lia].
  specialize (Hs _ _ E). specialize (H1 _ _ E). lia.
Qed.

Lemma setStream_usage id n c id' :
  GetStreamUsage id' (setStream id n c) = if decide (id' = id) then n else GetStreamUsage id' c.
Proof.
  unfold GetStreamUsage, setStream. simpl. destruct (decide (id' = id)) as [->|Hne].
  - by rewrite lookup_insert_eq.
  - by rewrite lookup_insert_ne.
Qed.

(** Replacing one counter and moving the global one by the difference. *)
Lemma mem_ok_move c c' id n :
  mem_ok c -> same_limits c c' -> streamUsage c' = <[id := n]> (streamUsage c) ->
  usage c' = usage c - GetStreamUsage id c + n -> 0 <= n <= perStreamLimit c -> usage c' <= maxMemory c ->
  mem_ok c'.
Proof.
  intros [? ? Hs Hm ?] [Hl1 Hl2] Hc Hu Hn Hmax. constructor; rewrite ?Hl1, ?Hl2; try done.
  - intros id' u. rewrite Hc. destruct (decide (id = id')) as [->|Hne].
    + rewrite lookup_insert_eq. intros [= <-]. done.
    + rewrite lookup_insert_ne by done. apply Hs.
  - rewrite Hc, msum_insert, Hu, Hm. unfold GetStreamUsage. done.
Qed.

Lemma mem_ok_ext c c' :
  mem_ok c -> same_limits c c' -> streamUsage c' = streamUsage c -> usage c' = usage c -> mem_ok c'.
Proof. intros [? ? ? ? ?] [H1 H2] Hs Hu. constructor; rewrite ?H1, ?H2, ?Hs, ?Hu; done. Qed.

(** The second half of [RequestMemory], entered with [size] already added to
    the global counter. *)
Lemma checkStreamLimit_spec id size c :
  mem_ok c -> 0 <= size < 2 ^ 62 -> usage c + size <= maxMemory c ->
  let '(c', r) := checkStreamLimit id size (addUsage size c) in
  mem_ok c' /\ same_limits c c' /\ hasCallback c' = hasCallback c /\
  if GetStreamUsage id c + size <=? perStreamLimit c
  then r = Val tt /\ charged id size c c'
  else r = Err ErrStreamMemoryLimit /\ same_usage c c'.
Proof.
  intros Hok Hsz Hfit. destruct (mem_ok_usage c Hok) as [H0 Hus]. pose proof (Hus id) as [Hu1 Hu2].
  pose proof (mo_limit _ Hok). pose proof (mo_max _ Hok).
  unfold checkStreamLimit.
  assert (exists c1, getOrCreateStreamUsage id (addUsage size c) = (c1, GetStreamUsage id c) /\
            (forall n, <[id := n]> (streamUsage c1) = <[id := n]> (streamUsage c)) /\
            usage c1 = usage c + size /\ same_limits c c1 /\ hasCallback c1 = hasCallback c) as (c1 & -> & Hins & Hg & Hl & Hcb).
  { unfold getOrCreateStreamUsage, GetStreamUsage. simpl. destruct (streamUsage c !! id) eqn:E; simpl.
    - eexists. split; [reflexivity|]. simpl. rewrite i64_id by (pow_consts; lia). done.
    - eexists. split; [reflexivity|]. simpl. rewrite i64_id by (pow_consts; lia).
      split; [intros; apply insert_insert_eq|done]. }
  set (u := GetStreamUsage id c) in *. rewrite (i64_id (u + size)) by (pow_consts; lia).
  destruct Hl as [Hl1 Hl2]. change (perStreamLimit (setStream id (u + size) c1)) with (perStreamLimit c1). rewrite Hl2.
  destruct (Z.leb_spec (u + size) (perStreamLimit c)); [rewrite (proj2 (Z.ltb_ge _ _)) by lia|rewrite (proj2 (Z.ltb_lt _ _)) by lia].
  - split; [apply (mem_ok_move c _ id (u + size)); simpl; unfold same_limits; simpl; fold u; rewrite ?Hins; try done; lia|].
    split_and!; [done|done|done|split; [simpl; lia|]].
    intros id'. change (GetStreamUsage id' (setStream id (u + size) c1) = GetStreamUsage id' c + (if decide (id' = id) then size else 0)).
    unfold GetStreamUsage. simpl. rewrite Hins. destruct (decide (id' = id)) as [->|Hne].
    + rewrite lookup_insert_eq. done.
    + rewrite lookup_insert_ne by done. lia.
  - rewrite (i64_id (u + size - size)) by (pow_consts; lia). replace (u + size - size) with u by lia.
    unfold addUsage, setStream. simpl. rewrite insert_insert_eq, Hins, Hg, i64_id by (pow_consts; lia).
    split; [apply (mem_ok_move c _ id u); simpl; unfold same_limits; simpl; fold u; try done; lia|].
    split_and!; [done|done|done|split; [simpl; lia|]]. intros id'. unfold GetStreamUsage. simpl.
    destruct (decide (id' = id)) as [->|Hne]; [by rewrite lookup_insert_eq|by rewrite lookup_insert_ne].
Qed.

Lemma ReleaseMemory_spec id size c :
  mem_ok c -> 0 <= size ->
  mem_ok (ReleaseMemory id size c) /\ same_limits c (ReleaseMemory id size c) /\
  charged id (- Z.min size (GetStreamUsage id c)) c (ReleaseMemory id size c).
Proof.
  intros Hok Hsz. destruct (mem_ok_usage c Hok) as [H0 Hus]. pose proof (Hus id) as [Hu1 Hu2].
  pose proof (mo_limit _ Hok). pose proof (mo_max _ Hok). pose proof (mo_usage _ Hok).
  unfold ReleaseMemory, charged. destruct (streamUsage c !! id) as [u|] eqn:E.
  2: { assert (GetStreamUsage id c = 0) as Hz by (unfold GetStreamUsage; by rewrite E).
       rewrite Hz, Z.min_r by lia. split; [done|]. split; [done|]. split; [lia|]. intros id'. case_decide; lia. }
  assert (GetStreamUsage id c = u) as Hu by (unfold GetStreamUsage; by rewrite E). rewrite Hu in *.
  destruct (Z.leb_spec u 0).
  { split; [by apply (mem_ok_ext c)|]. split; [done|]. rewrite Z.min_r by lia. simpl. split; [lia|].
    intros id'. change (GetStreamUsage id' c = GetStreamUsage id' c + (if decide (id' = id) then - u else 0)).
    case_decide; lia. }
  assert (forall n d c', d = n - u -> 0 <= n <= u -> streamUsage c' = <[id := n]> (streamUsage c) -> usage c' = usage c - u + n ->
            same_limits c c' -> mem_ok c' /\ same_limits c c' /\ usage c' = usage c + d /\
            forall id', GetStreamUsage id' c' = GetStreamUsage id' c + (if decide (id' = id) then d else 0)) as Hmove.
  { intros n d c' -> Hn Hs Hg Hl. split_and!; [apply (mem_ok_move c _ id n); try done; lia|apply Hl..|lia|].
    intros id'. unfold GetStreamUsage in *. rewrite Hs. case_decide; subst.
    - rewrite lookup_insert_eq. simpl. lia.
    - rewrite lookup_insert_ne by done. lia. }
  destruct (Z.leb_spec size u).
  - rewrite Z.min_l by lia. apply (Hmove (u - size)); [lia|lia|simpl; by rewrite i64_id by (pow_consts; lia)|simpl; rewrite i64_id by (pow_consts; lia); lia|done].
  - rewrite Z.min_r by lia. apply (Hmove 0); [lia|lia|done|simpl; rewrite i64_id by (pow_consts; lia); lia|done].
Qed.

Lemma ResetStreamUsage_spec id c :
  mem_ok c ->
  mem_ok (ResetStreamUsage id c) /\ same_limits c (ResetStreamUsage id c) /\
  charged id (- GetStreamUsage id c) c (ResetStreamUsage id c).
Proof.
  intros Hok. destruct (mem_ok_usage c Hok) as [H0 Hus]. pose proof (Hus id) as [Hu1 Hu2].
  pose proof Hok as [? ? Hs Hm ?].
  assert (usage (ResetStreamUsage id c) = usage c - GetStreamUsage id c /\
          streamUsage (ResetStreamUsage id c) = delete id (streamUsage c) /\ same_limits c (ResetStreamUsage id c))
    as (Hg & Hd & Hl).
  { unfold ResetStreamUsage, GetStreamUsage in *. destruct (streamUsage c !! id) as [u|] eqn:E; simpl in *.
    - destruct (Z.ltb_spec 0 u); simpl; [rewrite i64_id by (pow_consts; lia)|]; split_and!; try done; lia.
    - rewrite delete_id by done. split_and!; try done; lia. }
  pose proof Hl as [Hl1 Hl2]. split_and!; try done.
  - constructor; rewrite ?Hl1, ?Hl2, ?Hg, ?Hd; try done; [|rewrite msum_delete; unfold GetStreamUsage; lia|lia].
    intros id' u. destruct (decide (id = id')) as [->|Hne]; [by rewrite lookup_delete_eq|].
    rewrite lookup_delete_ne by done. apply Hs.
  - split; [lia|]. intros id'. unfold GetStreamUsage. rewrite Hd. case_decide; subst.
    + rewrite lookup_delete_eq. simpl. lia.
    + rewrite lookup_delete_ne by done. lia.
Qed.

(** ** Eviction and requests *)

Lemma same_limits_trans a b c : same_limits a b -> same_limits b c -> same_limits a c.
Proof. unfold same_limits. intuition congruence. Qed.

Section requests.
Context (strategy : list StreamInfo -> Z -> list string).
Context (evictionCallback : string -> Z -> Controller -> Controller).

(** What the controller relies on: the callback may use the controller, but
    only through operations that keep the books. *)
Definition callback_ok : Prop := forall id n c, mem_ok c ->
  mem_ok (evictionCallback id n c) /\ same_limits c (evictionCallback id n c).
Context (Hcallback : callback_ok).

Lemma evict_loop_ok selected c total :
  mem_ok c ->
  mem_ok (evict_loop evictionCallback selected c total).1 /\
  same_limits c (evict_loop evictionCallback selected c total).1.
Proof.
  revert c total. induction selected as [|id sel IH]; intros c total Hok; cbn [evict_loop]; [done|].
  destruct (streamUsage c !! id) as [u|] eqn:E; [|by apply IH].
  destruct (mem_ok_usage c Hok) as [H0 Hus]. pose proof (Hus id) as [Hu1 Hu2].
  pose proof (mo_limit _ Hok). pose proof (mo_max _ Hok). pose proof (mo_usage _ Hok).
  assert (GetStreamUsage id c = u) as Hu by (unfold GetStreamUsage; by rewrite E). rewrite Hu in *.
  assert (exists c1 t1, (if 0 <? u then (addUsage (- u) (setStream id 0 c), i64 (total + u))
                         else (setStream id 0 c, total)) = (c1, t1) /\ mem_ok c1 /\ same_limits c c1)
    as (c1 & t1 & -> & Hok1 & Hl1).
  { destruct (Z.ltb_spec 0 u); (eexists _, _; split; [reflexivity|]; split; [|done]);
      (apply (mem_ok_move c _ id 0); simpl; rewrite ?i64_id by (pow_consts; lia); rewrite ?Hu; try done; lia). }
  destruct (Hcallback id u c1 Hok1) as [Hok2 Hl2].
  destruct (IH ((evictionCallback id u c1) <| evictionCount := i64 (evictionCount (evictionCallback id u c1) + 1) |>) t1)
    as [Hok3 Hl3]; [by apply (mem_ok_ext (evictionCallback id u c1))|].
  split; [exact Hok3|]. apply (same_limits_trans c c1 _ Hl1).
  apply (same_limits_trans _ (evictionCallback id u c1) _ Hl2). exact Hl3.
Qed.

Lemma evictMemory_ok target now c :
  mem_ok c ->
  mem_ok (evictMemory strategy evictionCallback target now c).1 /\
  same_limits c (evictMemory strategy evictionCallback target now c).1.
Proof.
  intros Hok. unfold evictMemory. do 2 (case_bool; [done|]). by apply evict_loop_ok.
Qed.

(** A request that the budget cannot hold at once. *)
Lemma over_budget_spec id size now' c :
  mem_ok c -> 0 <= size < 2 ^ 62 ->
  let '(c', r) :=
    if f64_ltb (pressureThreshold c) (f64_div (f64_of_Z (usage c)) (f64_of_Z (maxMemory c))) then
      let '(c, evicted) := evictMemory strategy evictionCallback size now' c in
      if 0 <? evicted then
        let c := addUsage size c in
        if usage c <=? maxMemory c then checkStreamLimit id size c
        else (addUsage (- size) c, Err ErrGlobalMemoryLimit)
      else (c, Err ErrGlobalMemoryLimit)
    else (c, Err ErrGlobalMemoryLimit) in
  mem_ok c' /\ same_limits c c' /\
  match r with
  | Val _ => exists c1, c1 = (evictMemory strategy evictionCallback size now' c).1 /\ mem_ok c1 /\
               hasCallback c = true /\ charged id size c1 c'
  | Err _ => hasCallback c = false -> same_usage c c' /\ r = Err ErrGlobalMemoryLimit
  end.
Proof.
  intros Hok Hsz. case_bool; [|by split_and!].
  destruct (evictMemory_ok size now' c Hok) as [Hok1 Hl1].
  destruct (hasCallback c) eqn:Hcb.
  2: { unfold evictMemory. rewrite Hcb. simpl. by split_and!. }
  destruct (evictMemory strategy evictionCallback size now' c) as [c1 ev]. simpl in Hok1, Hl1.
  destruct (Z.ltb_spec 0 ev); [|by split_and!].
  pose proof (mem_ok_usage c1 Hok1) as [H1 _]. pose proof (mo_usage _ Hok1). pose proof (mo_max _ Hok1).
  cbv zeta. change (usage (addUsage size c1)) with (i64 (usage c1 + size)).
  change (maxMemory (addUsage size c1)) with (maxMemory c1).
  rewrite i64_id by (pow_consts; lia). destruct (Z.leb_spec (usage c1 + size) (maxMemory c1)).
  - pose proof (checkStreamLimit_spec id size c1 Hok1 Hsz ltac:(lia)) as Hs.
    destruct (checkStreamLimit id size _) as [c' r]. destruct Hs as (Hok' & Hl' & _ & Hr).
    split; [done|]. split; [exact (same_limits_trans _ _ _ Hl1 Hl')|].
    destruct (_ <=? perStreamLimit c1); destruct Hr as [-> Hr]; [by exists c1|done].
  - split; [|by split]. apply (mem_ok_ext c1); simpl; try done.
    rewrite (i64_id (usage c1 + size)), i64_id by (pow_consts; lia). lia.
Qed.

Lemma addUsage_cancel size c :
  min_i64 <= usage c <= max_i64 -> addUsage (- size) (addUsage size c) = c.
Proof.
  intros Hu. destruct c. unfold addUsage. simpl in *. f_equal.
  unfold i64, min_i64, max_i64 in *. pow_consts. Z.to_euclidean_division_equations. lia.
Qed.

(** The state a refused first attempt leaves: the books are unchanged. *)
Lemma RequestMemory_over id size now now' c :
  mem_ok c -> 0 <= size < 2 ^ 62 -> maxMemory c < usage c + size ->
  exists c1, mem_ok c1 /\ same_limits c c1 /\ same_usage c c1 /\ streamUsage c1 = streamUsage c /\
    hasCallback c1 = hasCallback c /\
    RequestMemory strategy evictionCallback id size now now' c =
    (if f64_ltb (pressureThreshold c1) (f64_div (f64_of_Z (usage c1)) (f64_of_Z (maxMemory c1))) then
      let '(c, evicted) := evictMemory strategy evictionCallback size now' c1 in
      if 0 <? evicted then
        let c := addUsage size c in
        if usage c <=? maxMemory c then checkStreamLimit id size c
        else (addUsage (- size) c, Err ErrGlobalMemoryLimit)
      else (c, Err ErrGlobalMemoryLimit)
    else (c1, Err ErrGlobalMemoryLimit)).
Proof.
  intros Hok Hsz Hover. destruct (mem_ok_usage c Hok) as [H0 _].
  pose proof (mo_max _ Hok). pose proof (mo_usage _ Hok).
  assert (min_i64 <= usage c <= max_i64) as Hr by (unfold min_i64, max_i64; pow_consts; lia).
  unfold RequestMemory. change (usage (addUsage size c)) with (i64 (usage c + size)).
  change (maxMemory (addUsage size c)) with (maxMemory c).
  rewrite i64_id, (proj2 (Z.ltb_lt (maxMemory c) _)), addUsage_cancel by (pow_consts; lia).
  destruct (10 * second <? time_sub now (lastGCTime c)); cbv zeta; [|by exists c].
  set (c1 := c <| lastGCTime := now' |>).
  change (usage (addUsage size c1)) with (i64 (usage c + size)).
  change (maxMemory (addUsage size c1)) with (maxMemory c).
  rewrite i64_id, (proj2 (Z.leb_gt _ (maxMemory c))), addUsage_cancel by (done || (pow_consts; lia)).
  exists c1. split; [by apply (mem_ok_ext c)|done].
Qed.

Lemma RequestMemory_fits id size now now' c :
  mem_ok c -> 0 <= size < 2 ^ 62 -> usage c + size <= maxMemory c ->
  RequestMemory strategy evictionCallback id size now now' c = checkStreamLimit id size (addUsage size c).
Proof.
  intros Hok Hsz Hfit. destruct (mem_ok_usage c Hok) as [H0 _]. pose proof (mo_max _ Hok).
  unfold RequestMemory. change (usage (addUsage size c)) with (i64 (usage c + size)).
  change (maxMemory (addUsage size c)) with (maxMemory c).
  by rewrite i64_id, (proj2 (Z.ltb_ge (maxMemory c) _)) by (pow_consts; lia).
Qed.

Lemma RequestMemory_ok id size now now' c :
  mem_ok c -> 0 <= size < 2 ^ 62 ->
  mem_ok (RequestMemory strategy evictionCallback id size now now' c).1 /\
  same_limits c (RequestMemory strategy evictionCallback id size now now' c).1.
Proof.
  intros Hok Hsz. destruct (Z.le_gt_cases (usage c + size) (maxMemory c)) as [Hfit|Hover].
  - rewrite RequestMemory_fits by done. pose proof (checkStreamLimit_spec id size c Hok Hsz Hfit) as Hs.
    destruct (checkStreamLimit id size _) as [c' r]. by destruct Hs as (? & ? & _).
  - destruct (RequestMemory_over id size now now' c Hok Hsz ltac:(lia)) as (c1 & Hok1 & Hl1 & _ & _ & _ & ->).
    pose proof (over_budget_spec id size now' c1 Hok1 Hsz) as Hs.
    match type of Hs with let '(_, _) := ?x in _ => destruct x as [c' r] end.
    destruct Hs as (? & Hl & _). split; [done|]. exact (same_limits_trans _ _ _ Hl1 Hl).
Qed.

(** ** Histories *)

Inductive mem_op : Type :=
| Request (id : string) (size now now' : Z)
| Release (id : string) (size : Z)
| ResetStream (id : string)
| Track (id : string) (prio now : Z)
| Access (id : string) (now : Z)
| Active (id : string) (active : bool).

Definition mem_step (c : Controller) (o : mem_op) : Controller :=
  match o with
  | Request id size now now' => (RequestMemory strategy evictionCallback id size now now' c).1
  | Release id size => ReleaseMemory id size c
  | ResetStream id => ResetStreamUsage id c
  | Track id prio now => TrackStream id prio now c
  | Access id now => UpdateStreamAccess id now c
  | Active id b => SetStreamActive id b c
  end.

(** Sizes are non-negative and below 2^62 bytes. *)
Definition op_ok (o : mem_op) : Prop :=
  match o with Request _ n _ _ | Release _ n => 0 <= n < 2 ^ 62 | _ => True end.

Lemma mem_step_ok c o : mem_ok c -> op_ok o -> mem_ok (mem_step c o) /\ same_limits c (mem_step c o).
Proof.
  intros Hok Ho. destruct o; simpl in *.
  - by apply RequestMemory_ok.
  - destruct (ReleaseMemory_spec id size c Hok) as (? & ? & _); [lia|done].
  - by destruct (ResetStreamUsage_spec id c Hok) as (? & ? & _).
  - split; [by apply (mem_ok_ext c)|done].
  - split; [by apply (mem_ok_ext c)|done].
  - split; [by apply (mem_ok_ext c)|done].
Qed.

(** C2: the books are right after every history.  Whatever requests, releases
    and resets are made, with whatever eviction strategy and callback, the
    global usage is the sum of the stream usages, every stream is between 0
    and its limit, and the global usage never exceeds the budget. *)
Theorem accounting maxMem limit now ops :
  0 <= maxMem <= 2 ^ 62 -> 0 <= limit <= 2 ^ 62 -> Forall op_ok ops ->
  let c := foldl mem_step (SetEvictionCallback (NewController maxMem limit now)) ops in
  GlobalUsage (Stats c) = msum (streamUsage c) /\ 0 <= GlobalUsage (Stats c) <= maxMem /\
  (forall id, 0 <= GetStreamUsage id c <= limit).
Proof.
  intros Hm Hl Hops c.
  assert (mem_ok c /\ maxMemory c = maxMem /\ perStreamLimit c = limit) as (Hok & Hcm & Hcl).
  { unfold c. set (c0 := SetEvictionCallback _).
    assert (mem_ok c0 /\ maxMemory c0 = maxMem /\ perStreamLimit c0 = limit) as H0.
    { split; [|done]. constructor; simpl; try done; try lia. }
    clearbody c0. revert c0 H0. induction Hops as [|o ops Ho Hops IH]; intros c0 (Hok & H1 & H2); [done|].
    simpl. apply IH. destruct (mem_step_ok c0 o Hok Ho) as [Hok' [Hl1 Hl2]]. split; [done|]. by rewrite Hl1, Hl2. }
  destruct (mem_ok_usage c Hok) as [Hu Hs]. destruct Hok. simpl. split_and!; [done|lia|lia|].
  intros id. specialize (Hs id). lia.
Qed.

Lemma request_spec id size now now' c :
  mem_ok c -> 0 <= size < 2 ^ 62 ->
  let '(c', r) := RequestMemory strategy evictionCallback id size now now' c in
  mem_ok c' /\
  (if usage c + size <=? maxMemory c then
     if GetStreamUsage id c + size <=? perStreamLimit c
     then r = Val tt /\ charged id size c c' /\ same_usage c (ReleaseMemory id size c')
     else r = Err ErrStreamMemoryLimit /\ same_usage c c'
   else match r with
        | Val _ => hasCallback c = true /\ exists c0 c1, same_usage c c0 /\
            c1 = (evictMemory strategy evictionCallback size now' c0).1 /\ charged id size c1 c'
        | Err _ => hasCallback c = false -> r = Err ErrGlobalMemoryLimit /\ same_usage c c'
        end) /\
  (forall n, 0 <= n -> charged id (- Z.min n (GetStreamUsage id c')) c' (ReleaseMemory id n c')).
Proof.
  intros Hok Hsz. pose proof (RequestMemory_ok id size now now' c Hok Hsz) as [Hok' _].
  assert (forall c', mem_ok c' -> forall n, 0 <= n -> charged id (- Z.min n (GetStreamUsage id c')) c' (ReleaseMemory id n c')) as Hrel.
  { intros c' Hc' n Hn. by destruct (ReleaseMemory_spec id n c' Hc' Hn) as (_ & _ & ?). }
  destruct (Z.leb_spec (usage c + size) (maxMemory c)) as [Hfit|Hover].
  - rewrite RequestMemory_fits in * by done. pose proof (checkStreamLimit_spec id size c Hok Hsz Hfit) as Hs.
    destruct (checkStreamLimit id size _) as [c' r]. destruct Hs as (_ & _ & _ & Hr). simpl in Hok'.
    split; [done|]. split; [|by apply Hrel]. case_bool; destruct Hr as [-> Hr]; [|done].
    split; [done|]. split; [done|]. destruct (mem_ok_usage c Hok) as [_ Hu]. specialize (Hu id).
    destruct Hr as [Hr1 Hr2]. pose proof (Hr2 id) as Hid. rewrite decide_True in Hid by done.
    destruct (Hrel c' Hok' size ltac:(lia)) as [Hg Hs]. rewrite Hid, Z.min_l in Hg, Hs by lia.
    split; [lia|]. intros id'. rewrite Hs, Hr2. case_decide; lia.
  - destruct (RequestMemory_over id size now now' c Hok Hsz ltac:(lia)) as (c0 & Hok0 & Hl0 & Hs0 & _ & Hcb & Heq).
    rewrite Heq in *. pose proof (over_budget_spec id size now' c0 Hok0 Hsz) as Hs.
    match type of Hs with let '(_, _) := ?x in _ => destruct x as [c' r] end.
    destruct Hs as (Hok1 & _ & Hr). split; [done|]. split; [|by apply Hrel]. rewrite Hcb in Hr.
    destruct r as [[]|e].
    + destruct Hr as (c1 & -> & _ & Hcb' & Hch). eauto 6.
    + intros Hno. destruct (Hr Hno) as [[Hu Hg] [= ->]]. split; [done|]. destruct Hs0 as [Hu0 Hg0].
      split; [congruence|]. intros id'. by rewrite Hg, Hg0.
Qed.

(** what a request and a release do.  A request that the budget holds is
    granted exactly when the stream's limit holds it; then that stream and the
    global usage grow by the size and nothing else changes, otherwise the books
    are as before.  A request beyond the budget is refused with the books
    unchanged when there is no eviction callback; with one it can only be
    granted on top of the books the eviction leaves.  A release takes what the
    stream holds and no more, and undoes a granted request. *)
Theorem request_exact id size now now' c :
  mem_ok c -> 0 <= size < 2 ^ 62 ->
  let '(c', r) := RequestMemory strategy evictionCallback id size now now' c in
  mem_ok c' /\
  (if usage c + size <=? maxMemory c then
     if GetStreamUsage id c + size <=? perStreamLimit c
     then r = Val tt /\ charged id size c c' /\ same_usage c (ReleaseMemory id size c')
     else r = Err ErrStreamMemoryLimit /\ same_usage c c'
   else match r with
        | Val _ => hasCallback c = true /\ exists c0 c1, same_usage c c0 /\
            c1 = (evictMemory strategy evictionCallback size now' c0).1 /\ charged id size c1 c'
        | Err _ => hasCallback c = false -> r = Err ErrGlobalMemoryLimit /\ same_usage c c'
        end) /\
  (forall n, 0 <= n -> charged id (- Z.min n (GetStreamUsage id c')) c' (ReleaseMemory id n c')).
Proof. apply request_spec. Qed.
End requests.

(** A callback that resets the evicted stream, as a client may. *)
Definition reset_callback (id : string) (n : Z) (c : Controller) : Controller := ResetStreamUsage id c.

Lemma reset_callback_ok : callback_ok reset_callback.
Proof. intros id n c Hok. by destruct (ResetStreamUsage_spec id c Hok) as (? & ? & _). Qed.

Definition lru_strategy : list StreamInfo -> Z -> list string := @SelectLRU insertion_GoSort.

Definition sample_history : list mem_op :=
  [Request "a" 60 1 1; Request "b" 30 2 2; Request "c" 50 3 3; Release "c" 10].

Lemma accounting_witness :
  let c := foldl (mem_step lru_strategy reset_callback) (SetEvictionCallback (NewController 100 80 0)) sample_history in
  GlobalUsage (Stats c) = 70 /\ 0 <= GlobalUsage (Stats c) <= 100.
Proof.
  destruct (accounting lru_strategy reset_callback reset_callback_ok 100 80 0 sample_history)
    as (_ & Hu & _); [lia|lia|repeat (apply Forall_cons; split; [simpl; lia|]); by apply Forall_nil|].
  split; [vm_compute; reflexivity|exact Hu].
Defined.

Lemma NewController_ok m l now : 0 <= m <= 2 ^ 62 -> 0 <= l <= 2 ^ 62 -> mem_ok (NewController m l now).
Proof. intros Hm Hl. constructor; simpl; try done; lia. Qed.

Lemma request_exact_witness :
  let '(c', r) := RequestMemory lru_strategy reset_callback "a" 60 1 1 (NewController 100 80 0) in
  r = Val tt /\ usage c' = 60 /\ same_usage (NewController 100 80 0) (ReleaseMemory "a" 60 c').
Proof.
  pose proof (request_exact lru_strategy reset_callback reset_callback_ok "a" 60 1 1 (NewController 100 80 0)
    (NewController_ok 100 80 0 ltac:(lia) ltac:(lia)) ltac:(lia)) as H.
  destruct (RequestMemory _ _ _ _ _ _ _) as [c' r]. destruct H as (_ & H & _).
  destruct H as (Hr & [Hu _] & Hs). split; [exact Hr|]. split; [exact Hu|exact Hs].
Defined.
