(* ===== verification/MemoryRace.v ===== *)
(** * Interleaved requests and releases (memory/controller.go)

    [RequestMemory] takes no lock: it adds to atomic counters, tests the sum it
    got back, and undoes its additions when a limit is exceeded.  Here every
    atomic access is a step of its own and the threads interleave freely,
    evictions and releases of any size among them.  The limits hold for what is
    granted at every moment of every interleaving, and the books balance when
    no call is in flight, with one exception: an access that takes more off a
    stream's counter than its clients hold (the swap of [evictMemory], or a
    release beyond what is held) at the moment when a request of the same
    stream is between its two additions.  See [evict_race] for what happens
    then.  [ResetStreamUsage], which also deletes the stream's counter, is not
    among the threads. *)

From stdpp Require Import strings relations.
From S2P Require Import Prelude MapSum Memory.
#[local] Open Scope Z_scope.

(** ** Threads (controller.go:67-122, 147-179, 265-273)

    The state of a call is the atomic access it is about to make. *)
Inductive thread : Type :=
| ReqAdd (id : string) (size : Z)          (* usage.Add(size), then the global test *)
| ReqUndo (id : string) (size : Z)         (* usage.Add(-size) after the global limit *)
| ReqStream (id : string) (size : Z)       (* streamUsage.Add(size), then the stream test *)
| ReqStreamUndo (id : string) (size : Z)   (* streamUsage.Add(-size) *)
| ReqGlobalUndo (id : string) (size : Z)   (* usage.Add(-size) after the stream limit *)
| RelCas (id : string) (size : Z)          (* Load and CompareAndSwap *)
| RelGlobal (n : Z)                        (* usage.Add(-n) *)
| EvSwap (id : string)                     (* Swap(0) of evictMemory *)
| Done.

Record state := mkState { global : Z; streams : gmap string Z; threads : list thread }.

Definition stream (m : gmap string Z) (id : string) : Z := default 0 (m !! id).

Section interleaving.
Context (maxMemory perStreamLimit : Z).

(** One atomic access.  [retry] chooses whether a request refused by the
    global test tries again (after a collection) or fails. *)
Definition thread_step (retry : bool) (g : Z) (m : gmap string Z) (t : thread) : Z * gmap string Z * thread :=
  match t with
  | ReqAdd id size =>
      let newUsage := i64 (g + size) in
      (newUsage, m, if maxMemory <? newUsage then ReqUndo id size else ReqStream id size)
  | ReqUndo id size => (i64 (g - size), m, if retry then ReqAdd id size else Done)
  | ReqStream id size =>
      let u := i64 (stream m id + size) in
      (g, <[id := u]> m, if perStreamLimit <? u then ReqStreamUndo id size else Done)
  | ReqStreamUndo id size => (g, <[id := i64 (stream m id - size)]> m, ReqGlobalUndo id size)
  | ReqGlobalUndo id size => (i64 (g - size), m, Done)
  | RelCas id size =>
      match m !! id with
      | None => (g, m, Done)
      | Some old =>
          if old <=? 0 then (g, m, Done)
          else if size <=? old then (g, <[id := i64 (old - size)]> m, RelGlobal size)
          else (g, <[id := 0]> m, RelGlobal old)
      end
  | RelGlobal n => (i64 (g - n), m, Done)
  | EvSwap id => (g, <[id := 0]> m, if 0 <? stream m id then RelGlobal (stream m id) else Done)
  | Done => (g, m, Done)
  end.

(** Bytes added to a stream's counter by requests that will take them back. *)
Definition rolling_of (id : string) (t : thread) : Z :=
  match t with ReqStreamUndo id' n => if decide (id' = id) then n else 0 | _ => 0 end.

Definition tsum (f : thread -> Z) (ts : list thread) : Z := foldr (fun t n => f t + n) 0 ts.

(** What a stream's clients hold on the books: its counter less what is being
    undone (an eviction takes it off them). *)
Definition held (s : state) (id : string) : Z := stream (streams s) id - tsum (rolling_of id) (threads s).

(** An access that lowers a stream's counter takes no more than the clients
    hold, or comes while no request of the stream is being undone. *)
Definition orderly (s : state) (t : thread) : bool :=
  match t with
  | RelCas id n => (n <=? held s id) || (tsum (rolling_of id) (threads s) =? 0)
  | EvSwap id => tsum (rolling_of id) (threads s) =? 0
  | _ => true
  end.

(** Thread [i] makes its access. *)
Inductive step (s : state) : state -> Prop :=
| step_thread i t retry g m t' :
    threads s !! i = Some t ->
    orderly s t = true ->
    thread_step retry (global s) (streams s) t = (g, m, t') ->
    step s (mkState g m (<[i := t']> (threads s))).

(** ** The invariant *)

Definition size_of (t : thread) : Z :=
  match t with
  | ReqAdd _ n | ReqUndo _ n | ReqStream _ n | ReqStreamUndo _ n | ReqGlobalUndo _ n
  | RelCas _ n => n
  | RelGlobal _ | EvSwap _ | Done => 0
  end.
(** Bytes in the global counter that are in no stream counter. *)
Definition pending (t : thread) : Z :=
  match t with ReqUndo _ n | ReqStream _ n | ReqGlobalUndo _ n | RelGlobal n => n | _ => 0 end.
(** Bytes within the budget that are in no stream counter: those that passed
    the global test and are still to be charged, and those taken off a stream
    and still to be taken off the global counter. *)
Definition committed (t : thread) : Z := match t with ReqStream _ n | RelGlobal n => n | _ => 0 end.
Definition rolling (t : thread) : Z := match t with ReqStreamUndo _ n => n | _ => 0 end.

Record inv (W : Z) (s : state) : Prop := {
  inv_global : global s = msum (streams s) + tsum pending (threads s);
  inv_budget : msum (streams s) - tsum rolling (threads s) + tsum committed (threads s) <= maxMemory;
  inv_stream : forall id, 0 <= held s id <= perStreamLimit;
  inv_sizes : Forall (fun t => 0 <= size_of t /\ 0 <= committed t) (threads s);
  inv_total : tsum size_of (threads s) <= W
}.

Lemma tsum_insert f ts i t t' : ts !! i = Some t -> tsum f (<[i := t']> ts) = tsum f ts - f t + f t'.
Proof.
  unfold tsum. revert i. induction ts as [|u ts IH]; intros [|i]; simpl; try done.
  - intros [= ->]. lia.
  - intros Hi. rewrite (IH i Hi). lia.
Qed.
Lemma tsum_le f g ts P : Forall P ts -> (forall t, P t -> f t <= g t) -> tsum f ts <= tsum g ts.
Proof. intros Hf Hle. unfold tsum. induction Hf as [|t ts Ht Hts IH]; simpl; [lia|]. specialize (Hle t Ht). lia. Qed.
Lemma tsum_ge0 f ts P : Forall P ts -> (forall t, P t -> 0 <= f t) -> 0 <= tsum f ts.
Proof. intros Hf Hle. unfold tsum. induction Hf as [|t ts Ht Hts IH]; simpl; [lia|]. specialize (Hle t Ht). lia. Qed.
Lemma tsum_elem f ts i t P : ts !! i = Some t -> Forall P ts -> (forall t, P t -> 0 <= f t) -> f t <= tsum f ts.
Proof.
  intros Hi Hf Hle. unfold tsum. revert i Hi. induction Hf as [|u ts Hu Hts IH]; intros [|i] Hi; simpl in *; try done.
  - injection Hi as ->. pose proof (tsum_ge0 f ts P Hts Hle). unfold tsum in *. lia.
  - specialize (IH i Hi). specialize (Hle u Hu). lia.
Qed.
Lemma tsum_add f g h ts : (forall t, h t = f t + g t) -> tsum h ts = tsum f ts + tsum g ts.
Proof. intros He. unfold tsum. induction ts as [|t ts IH]; simpl; [done|]. rewrite He. lia. Qed.

Lemma stream_insert m id n id' : stream (<[id := n]> m) id' = if decide (id' = id) then n else stream m id'.
Proof.
  unfold stream. case_decide; subst; [by rewrite lookup_insert_eq|by rewrite lookup_insert_ne].
Qed.
Lemma msum_stream m id n : msum (<[id := n]> m) = msum m - stream m id + n.
Proof. apply msum_insert. Qed.

(** ** Preservation *)

Context (W : Z).
Context (Hmax : 0 <= maxMemory) (Hlim : 0 <= perStreamLimit).
Context (HWmax : maxMemory + W <= max_i64) (HWlim : perStreamLimit + W <= max_i64).

(** Everything the steps need to know of the sums, for thread [t]. *)
Lemma inv_facts s i t :
  inv W s -> threads s !! i = Some t ->
  0 <= size_of t /\ 0 <= committed t /\ 0 <= tsum rolling (threads s) /\
  tsum committed (threads s) <= tsum pending (threads s) /\ 0 <= tsum committed (threads s) /\
  0 <= msum (streams s) /\ 0 <= global s /\
  global s + (size_of t - (pending t - committed t + rolling t)) <= max_i64 /\
  (forall id, 0 <= tsum (rolling_of id) (threads s) <= stream (streams s) id /\
     rolling_of id t <= tsum (rolling_of id) (threads s) /\ stream (streams s) id <= msum (streams s) /\
     stream (streams s) id + (size_of t - rolling t) <= max_i64).
Proof.
  intros [Hg Hb Hs Hsz Ht] Hi. set (ts := threads s) in *.
  set (P := fun t => 0 <= size_of t /\ 0 <= committed t) in Hsz.
  assert (P t) as [Ht0 Hev] by (eapply Forall_lookup_1; eauto).
  set (slack := fun t => size_of t - (pending t - committed t + rolling t)).
  assert (forall t, P t -> 0 <= slack t) as Hsl by (intros [] [H1 H2]; simpl in *; unfold slack; simpl; lia).
  assert (forall t, P t -> 0 <= rolling t) as Hro by (intros [] [H1 H2]; simpl in *; lia).
  assert (forall t, P t -> committed t <= pending t) as Hcp by (intros [] [H1 H2]; simpl in *; lia).
  assert (forall t, P t -> 0 <= committed t) as Hc0 by (intros [] [H1 H2]; simpl in *; lia).
  assert (forall id t, P t -> 0 <= rolling_of id t <= rolling t) as Hri
    by (intros id [] [H1 H2]; simpl in *; try case_decide; lia).
  pose proof (tsum_ge0 rolling ts P Hsz Hro) as R0. pose proof (tsum_le committed pending ts P Hsz Hcp) as CP.
  pose proof (tsum_ge0 committed ts P Hsz Hc0) as C0.
  pose proof (tsum_elem slack ts i t P Hi Hsz Hsl) as Sl.
  assert (tsum slack ts = tsum size_of ts - tsum pending ts + tsum committed ts - tsum rolling ts) as Hsum.
  { unfold tsum, slack. clear. induction ts as [|u ts IH]; simpl in *; lia. }
  assert (forall id, 0 <= tsum (rolling_of id) ts <= tsum rolling ts /\ rolling_of id t <= tsum (rolling_of id) ts) as Hrt.
  { intros id. split; [split|].
    - apply (tsum_ge0 _ _ P Hsz). intros u Hu. by apply Hri.
    - apply (tsum_le _ _ _ P Hsz). intros u Hu. by apply Hri.
    - apply (tsum_elem _ _ i t P Hi Hsz). intros u Hu. by apply Hri. }
  assert (forall id, 0 <= stream (streams s) id) as Hst.
  { intros id. specialize (Hs id). specialize (Hrt id). unfold held in Hs. fold ts in Hs. lia. }
  destruct (msum_bounds (streams s)) as [Hm0 Hm1].
  { intros id u Hu. specialize (Hst id). unfold stream in Hst. by rewrite Hu in Hst. }
  set (slack2 := fun t => size_of t - rolling t).
  assert (slack2 t <= tsum slack2 ts) as Sl2.
  { apply (tsum_elem _ _ i t P Hi Hsz). intros [] [H1 H2]; simpl in *; unfold slack2; simpl; lia. }
  assert (tsum slack2 ts = tsum size_of ts - tsum rolling ts) as Hsum2.
  { unfold tsum, slack2. clear. induction ts as [|u ts IH]; simpl in *; lia. }
  assert (slack2 t = size_of t - rolling t) as Hsl2 by done.
  fold (slack t). assert (slack t = size_of t - (pending t - committed t + rolling t)) as Hslt by done.
  assert (0 <= pending t - committed t) by (specialize (Hcp t (conj Ht0 Hev)); lia).
  split_and!; try done; try lia. intros id. specialize (Hs id). specialize (Hrt id). specialize (Hst id).
  unfold held in Hs. fold ts in Hs.
  assert (stream (streams s) id <= msum (streams s)).
  { unfold stream. destruct (streams s !! id) eqn:E; simpl; [by eapply Hm1|lia]. }
  split; [lia|]. split; [lia|]. split; [done|]. lia.
Qed.

(** What a step must establish, in terms of the sums before it. *)
Lemma inv_step s i t t' g m :
  inv W s -> threads s !! i = Some t ->
  g = msum m + (tsum pending (threads s) - pending t + pending t') ->
  msum m - (tsum rolling (threads s) - rolling t + rolling t')
    + (tsum committed (threads s) - committed t + committed t') <= maxMemory ->
  (forall id, 0 <= stream m id - (tsum (rolling_of id) (threads s) - rolling_of id t + rolling_of id t')
                <= perStreamLimit) ->
  0 <= size_of t' <= size_of t -> 0 <= committed t' ->
  inv W (mkState g m (<[i := t']> (threads s))).
Proof.
  intros [Hg Hb Hs Hsz Ht] Hi Hg' Hb' Hs' Hst' Hev'. constructor; simpl.
  - by rewrite (tsum_insert _ _ _ _ _ Hi).
  - by rewrite !(tsum_insert _ _ _ _ _ Hi).
  - intros id. unfold held. simpl. rewrite (tsum_insert _ _ _ _ _ Hi). apply Hs'.
  - apply Forall_insert; [done|]. split; [lia|done].
  - rewrite (tsum_insert _ _ _ _ _ Hi). lia.
Qed.

Lemma step_inv s s' : inv W s -> step s s' -> inv W s'.
Proof.
  intros Hinv [i t retry g m t' Hi Hguard Hstep].
  destruct (inv_facts s i t Hinv Hi) as (F1 & F2 & F3 & F4 & F5 & F6 & F7 & F8 & F9).
  pose proof Hinv as [Hg Hb Hs Hsz Ht]. unfold held in Hs. unfold max_i64 in *. pow_consts.
  destruct t as [id n|id n|id n|id n|id n|id n|n|id|]; simpl in Hstep, F1, F2, F8; try done;
    cbv zeta in Hstep.
  - injection Hstep as <- <- <-. rewrite i64_id by (pow_consts; lia).
    destruct (Z.ltb_spec maxMemory (global s + n)); eapply inv_step; eauto; simpl; try lia;
      intros id'; specialize (Hs id'); lia.
  - assert (n <= tsum pending (threads s)).
    { apply (tsum_elem pending _ i (ReqUndo id n) _ Hi Hsz). intros [] [? ?]; simpl in *; lia. }
    injection Hstep as <- <- <-. rewrite i64_id by (pow_consts; lia).
    destruct retry; eapply inv_step; eauto; simpl; try lia; intros id'; specialize (Hs id'); lia.
  - destruct (F9 id) as (G1 & _ & _ & G4). simpl in G4.
    injection Hstep as <- <- <-. rewrite i64_id by (pow_consts; lia).
    assert (forall id', 0 <= stream (<[id := stream (streams s) id + n]> (streams s)) id' - tsum (rolling_of id') (threads s)
              <= if decide (id' = id) then stream (streams s) id + n - tsum (rolling_of id) (threads s) else perStreamLimit) as Hs'.
    { intros id'. rewrite stream_insert. specialize (Hs id'). case_decide; subst; lia. }
    destruct (Z.ltb_spec perStreamLimit (stream (streams s) id + n)); eapply inv_step; eauto; simpl;
      rewrite ?msum_stream; try lia; intros id'; specialize (Hs' id'); specialize (Hs id'); rewrite stream_insert in *;
      repeat case_decide; subst; try congruence; try lia.
  - destruct (F9 id) as (G1 & G2 & _ & G4). simpl in G2, G4. rewrite decide_True in G2 by done.
    injection Hstep as <- <- <-. rewrite i64_id by (pow_consts; lia).
    eapply inv_step; eauto; simpl; rewrite ?msum_stream; try lia.
    intros id'. specialize (Hs id'). rewrite stream_insert. repeat case_decide; subst; try congruence; lia.
  - assert (n <= tsum pending (threads s)).
    { apply (tsum_elem pending _ i (ReqGlobalUndo id n) _ Hi Hsz). intros [] [? ?]; simpl in *; lia. }
    injection Hstep as <- <- <-. rewrite i64_id by (pow_consts; lia).
    eapply inv_step; eauto; simpl; try lia; intros id'; specialize (Hs id'); lia.
  - destruct (F9 id) as (G1 & _ & _ & G4). simpl in G4, Hguard.
    assert (n <= held s id \/ tsum (rolling_of id) (threads s) = 0) as Hg2.
    { apply orb_true_iff in Hguard as [?%Z.leb_le| ?%Z.eqb_eq]; auto. }
    clear Hguard. unfold held in Hg2.
    unfold stream in Hg2, G1, G4. destruct (streams s !! id) as [old|] eqn:E; simpl in Hg2, G1, G4.
    + assert (stream (streams s) id = old) as Ho by (unfold stream; by rewrite E).
      destruct (Z.leb_spec old 0).
      * injection Hstep as <- <- <-. eapply inv_step; eauto; simpl; try lia; intros id'; specialize (Hs id'); lia.
      * destruct (Z.leb_spec n old).
        -- rewrite i64_id in Hstep by (pow_consts; lia). injection Hstep as <- <- <-.
           eapply inv_step; eauto; simpl; rewrite ?msum_stream; try lia.
           intros id'. specialize (Hs id'). rewrite stream_insert. case_decide; subst; lia.
        -- injection Hstep as <- <- <-. eapply inv_step; eauto; simpl; rewrite ?msum_stream; try lia.
           intros id'. specialize (Hs id'). rewrite stream_insert. case_decide; subst; lia.
    + injection Hstep as <- <- <-. eapply inv_step; eauto; simpl; try lia; intros id'; specialize (Hs id'); lia.
  - assert (n <= tsum pending (threads s)).
    { apply (tsum_elem pending _ i (RelGlobal n) _ Hi Hsz). intros [] [? ?]; simpl in *; lia. }
    injection Hstep as <- <- <-. rewrite i64_id by (pow_consts; lia).
    eapply inv_step; eauto; simpl; try lia; intros id'; specialize (Hs id'); lia.
  - destruct (F9 id) as (G1 & _). simpl in Hguard. apply Z.eqb_eq in Hguard.
    injection Hstep as <- <- <-. pose proof (Hs id).
    destruct (Z.ltb_spec 0 (stream (streams s) id)); eapply inv_step; eauto; simpl; rewrite ?msum_stream; try lia;
      intros id'; specialize (Hs id'); rewrite stream_insert; case_decide; subst; lia.
  - injection Hstep as <- <- <-. eapply inv_step; eauto; simpl; try lia; intros id'; specialize (Hs id'); lia.
Qed.

Lemma reachable_inv s s' : inv W s -> rtc step s s' -> inv W s'.
Proof. intros Hi Hr. revert Hi. induction Hr as [|x y z Hxy _ IH]; [done|]. intros Hi. apply IH. by eapply step_inv. Qed.

(** Threads that have not started. *)
Definition starting (t : thread) : bool :=
  match t with ReqAdd _ n | RelCas _ n => 0 <=? n | EvSwap _ => true | _ => false end.

Lemma initial_inv ts :
  Forall (fun t => starting t = true) ts -> tsum size_of ts <= W -> inv W (mkState 0 ∅ ts).
Proof.
  intros Hst Hsum.
  assert (forall f, (forall t, starting t = true -> f t = 0) -> tsum f ts = 0) as H0.
  { intros f Hf. unfold tsum. clear Hsum. induction Hst as [|t ts Ht _ IH]; simpl; [done|]. rewrite IH, Hf; done. }
  assert (tsum pending ts = 0) by (apply H0; by intros []).
  assert (tsum rolling ts = 0) by (apply H0; by intros []).
  assert (tsum committed ts = 0) by (apply H0; by intros []).
  pose proof msum_empty. constructor; simpl; try lia.
  - intros id. unfold held. simpl. rewrite (H0 (rolling_of id)) by (by intros []).
    unfold stream. rewrite lookup_empty. simpl. lia.
  - eapply Forall_impl; [exact Hst|]. intros [] Ht; simpl in *; try done; (split; [lia|done]).
Qed.

(** C3: no orderly interleaving exceeds a limit.  Let any number of requests,
    releases of any size and evictions' swaps run concurrently, one atomic
    access at a time in any order, each refused request retrying or not; only,
    no swap, and no release of more than the stream's clients hold, comes
    between the two additions of a request the stream limit refuses on that
    same stream ([orderly]; [evict_race] shows the limits broken otherwise).
    At every moment what a stream's clients hold is between 0 and the stream
    limit and all they hold together is within the budget; and when every call
    has returned the global counter is the sum of the stream counters and
    within the budget. *)
Theorem concurrent_limits ts s :
  Forall (fun t => starting t = true) ts -> tsum size_of ts <= W ->
  rtc step (mkState 0 ∅ ts) s ->
  (forall id, 0 <= held s id <= perStreamLimit) /\
  msum (streams s) - tsum rolling (threads s) <= maxMemory /\
  (Forall (fun t => t = Done) (threads s) ->
     global s = msum (streams s) /\ 0 <= global s <= maxMemory /\
     forall id, 0 <= stream (streams s) id <= perStreamLimit).
Proof.
  intros Hst Hsum Hr. pose proof (reachable_inv _ _ (initial_inv ts Hst Hsum) Hr) as Hinv.
  pose proof Hinv as [Hg Hb Hs Hsz Ht]. split; [done|].
  assert (0 <= tsum committed (threads s)) as Hc.
  { apply (tsum_ge0 _ _ _ Hsz). intros [] [? ?]; simpl in *; lia. }
  split; [lia|]. intros Hd.
  assert (forall f, f Done = 0 -> tsum f (threads s) = 0) as H0.
  { intros f Hf. unfold tsum. clear -Hd Hf. induction Hd as [|t ts -> _ IH]; simpl; lia. }
  rewrite H0 in Hg, Hb, Hb by done.
  assert (forall id, 0 <= stream (streams s) id <= perStreamLimit) as Hst'.
  { intros id. specialize (Hs id). unfold held in Hs. rewrite H0 in Hs by done. lia. }
  destruct (msum_bounds (streams s)) as [Hm0 _].
  { intros id u Hu. specialize (Hst' id). unfold stream in Hst'. rewrite Hu in Hst'; simpl in Hst'; lia. }
  split_and!; try lia; done.
Qed.

(** ** A call that runs alone *)

Fixpoint run_alone (n : nat) (g : Z) (m : gmap string Z) (t : thread) : Z * gmap string Z * thread :=
  match n with
  | O => (g, m, t)
  | S n => let '(g, m, t) := thread_step false g m t in run_alone n g m t
  end.
End interleaving.

(** the steps are the code.  Run without interference, the atomic
    accesses of a request and of a release end in the counters that the
    sequential [RequestMemory] (without eviction callback) and
    [ReleaseMemory] compute. *)
Theorem alone_agrees strategy callback id size now now' c :
  mem_ok c -> hasCallback c = false -> callback_ok callback -> 0 <= size < 2 ^ 62 ->
  let c' := (RequestMemory strategy callback id size now now' c).1 in
  run_alone (maxMemory c) (perStreamLimit c) 4 (usage c) (streamUsage c) (ReqAdd id size)
    = (usage c', streamUsage c', Done) /\
  let c'' := ReleaseMemory id size c in
  run_alone (maxMemory c) (perStreamLimit c) 2 (usage c) (streamUsage c) (RelCas id size)
    = (usage c'', streamUsage c'', Done).
Proof.
  intros Hok Hcb Hcbk Hsz. destruct (mem_ok_usage c Hok) as [H0 Hus]. pose proof (Hus id) as [Hu1 Hu2].
  pose proof (mo_limit _ Hok). pose proof (mo_max _ Hok). pose proof (mo_usage _ Hok). split.
  - destruct (Z.le_gt_cases (usage c + size) (maxMemory c)) as [Hfit|Hover].
    + rewrite RequestMemory_fits by done. cbn [run_alone thread_step].
      assert (i64 (usage c + size) = usage c + size) as Hi by (apply i64_id; pow_consts; lia).
      rewrite Hi, (proj2 (Z.ltb_ge _ _)) by lia.
      cbn [run_alone thread_step]. unfold checkStreamLimit, getOrCreateStreamUsage, stream, addUsage, setStream. simpl.
      destruct (streamUsage c !! id) as [u|] eqn:E; simpl; rewrite ?Hi; case_bool; simpl; unfold stream;
        rewrite ?lookup_insert_eq; simpl; rewrite ?insert_insert_eq; done.
    + destruct (RequestMemory_over strategy callback id size now now' c Hok Hsz ltac:(lia))
        as (c1 & Hok1 & Hl1 & [Hs1 _] & Hm1 & Hcb1 & ->).
      unfold evictMemory. rewrite Hcb1, Hcb. simpl.
      rewrite (i64_id (usage c + size)), (proj2 (Z.ltb_lt _ _)) by (pow_consts; lia). simpl.
      rewrite i64_id by (pow_consts; lia). replace (usage c + size - size) with (usage c) by lia.
      rewrite <- Hs1, <- Hm1. by case_bool.
  - simpl. unfold ReleaseMemory. destruct (streamUsage c !! id) as [old|] eqn:E; [|done].
    do 2 (case_bool; [done|]). done.
Qed.

Lemma alone_agrees_witness :
  run_alone 100 80 4 0 ∅ (ReqAdd "a" 90) = (0, <["a" := 0]> ∅, Done) /\
  run_alone 100 80 4 0 ∅ (ReqAdd "a" 70) = (70, <["a" := 70]> ∅, Done).
Proof.
  split.
  - etrans; [apply (proj1 (alone_agrees lru_strategy reset_callback "a" 90 1 1 (NewController 100 80 0)
      (NewController_ok 100 80 0 ltac:(lia) ltac:(lia)) eq_refl reset_callback_ok ltac:(lia)))|].
    vm_compute. reflexivity.
  - etrans; [apply (proj1 (alone_agrees lru_strategy reset_callback "a" 70 1 1 (NewController 100 80 0)
      (NewController_ok 100 80 0 ltac:(lia) ltac:(lia)) eq_refl reset_callback_ok ltac:(lia)))|].
    vm_compute. reflexivity.
Defined.

(** Executable schedules: thread index, the retry choice; [ok] says which
    accesses may be made. *)
Fixpoint run_schedule (ok : state -> thread -> bool) (maxMem limit : Z) (sched : list (nat * bool)) (s : state) : option state :=
  match sched with
  | [] => Some s
  | (i, retry) :: sched =>
      match threads s !! i with
      | None => None
      | Some t =>
          if ok s t then
            let '(g, m, t') := thread_step maxMem limit retry (global s) (streams s) t in
            run_schedule ok maxMem limit sched (mkState g m (<[i := t']> (threads s)))
          else None
      end
  end.

Lemma run_schedule_rtc maxMem limit sched s s' :
  run_schedule orderly maxMem limit sched s = Some s' -> rtc (step maxMem limit) s s'.
Proof.
  revert s. induction sched as [|[i retry] sched IH]; intros s; simpl; [intros [= ->]; apply rtc_refl|].
  destruct (threads s !! i) as [t|] eqn:E; [|done]. destruct (orderly s t) eqn:Ho; [|done].
  destruct (thread_step _ _ _ _ _ _) as [[g m] t'] eqn:Et. intros Hrun.
  eapply rtc_l; [|by apply IH]. by apply (step_thread _ _ s i t retry g m t').
Qed.

(** Two requests, a release beyond what is left and an eviction interleaved:
    the second request overshoots the stream limit while the first is between
    its two additions, and the eviction comes once it is undone. *)
Definition sample_threads : list thread := [ReqAdd "a" 60; ReqAdd "a" 50; RelCas "a" 20; EvSwap "a"; ReqAdd "b" 40; RelCas "a" 40].
Definition sample_schedule : list (nat * bool) :=
  [(0, false); (1, false); (0, false); (1, false); (2, false); (1, false); (2, false); (1, false);
   (4, false); (3, false); (5, false); (4, false); (3, false)]%nat.

Lemma concurrent_limits_witness :
  exists s, rtc (step 200 80) (mkState 0 ∅ sample_threads) s /\
    threads s = [Done; Done; Done; Done; Done; Done] /\ global s = 40 /\ global s = msum (streams s) /\ global s <= 200.
Proof.
  destruct (run_schedule orderly 200 80 sample_schedule (mkState 0 ∅ sample_threads)) as [s|] eqn:E; [|by vm_compute in E].
  pose proof (run_schedule_rtc _ _ _ _ _ E) as Hr. exists s. split; [done|].
  destruct (concurrent_limits 200 80 1000 ltac:(lia) ltac:(lia) ltac:(unfold max_i64; lia)
    ltac:(unfold max_i64; lia) sample_threads s) as (_ & _ & Hd);
    [by repeat constructor|by vm_compute|done|].
  vm_compute in E. injection E as <-. specialize (Hd ltac:(by repeat constructor)). destruct Hd as (Hg & Hb & _).
  split; [done|]. split; [done|]. split; [exact Hg|exact (proj2 Hb)].
Defined.

(** Eviction is not safe against a request being undone: the swap takes the
    undone bytes too, the counter goes negative, and the stream is later
    granted more than its limit. *)
Lemma evict_race :
  let ts := [ReqAdd "a" 60; ReqAdd "a" 50; EvSwap "a"; ReqAdd "a" 130] in
  exists s, run_schedule (fun _ _ => true) 1000 80
    [(0, false); (0, false); (1, false); (1, false); (2, false); (2, false); (1, false); (1, false);
     (3, false); (3, false)]%nat (mkState 0 ∅ ts) = Some s /\
    threads s = [Done; Done; Done; Done] /\ stream (streams s) "a" = 80 /\ 80 < size_of (ReqAdd "a" 130).
Proof. eexists. split; [vm_compute; reflexivity|]. done. Qed.
