(* ===== verification/SizedBuffer.v ===== *)
(** * The bitrate-sized buffer (buffer/sized.go)

    A circular buffer of thirty seconds at the stream's bitrate, its memory
    charged to the memory controller.  One byte is always left free, so the
    positions alone tell full from empty.  Waiting and locking are modelled as
    in RingBuffer.v. *)

From stdpp Require Import strings.
From S2P Require Import Prelude Float64 Ring RingBuffer Memory.
#[local] Open Scope Z_scope.

(** ** Data (sized.go:14-58) *)

Definition maxBitrate : Z := 1000000000.
Definition minBitrate : Z := 1000.

Record ProperSizedBuffer := mkSized {
  streamID : string;
  bitrate : Z;
  data : list Z;
  size : Z;
  hotStart : Z;
  warmStart : Z;
  coldStart : Z;
  writePos : Z;
  readPos : Z;
  allocated : Z;
  closed : bool;
  totalWritten : Z;
  totalRead : Z;
  drops : Z
}.
#[export] Instance eta_Sized : Eta ProperSizedBuffer := fun b =>
  mkSized (streamID b) (bitrate b) (data b) (size b) (hotStart b) (warmStart b) (coldStart b)
    (writePos b) (readPos b) (allocated b) (closed b) (totalWritten b) (totalRead b) (drops b).

Inductive sized_error : Type :=
| ErrBufferClosed
| ErrAlreadyClosed
| ErrInvalidBitrate
| ErrAllocation (e : mem_error)
| ErrBufferFullDetailed (StreamID : string) (Required Available : Z) (Pressure : float64).

(** ** Operations *)

(** [NewProperSizedBuffer] (sized.go:61): the controller after the request,
    and the buffer or the error. *)
Definition NewProperSizedBuffer (strategy : list Eviction.StreamInfo -> Z -> list string)
    (callback : string -> Z -> Controller -> Controller)
    (streamID : string) (bitrate now now' : Z) (c : Controller)
    : res (Controller * exn sized_error ProperSizedBuffer) :=
  if bitrate <=? 0 then Ret (c, Err ErrInvalidBitrate)
  else if bitrate <? minBitrate then Ret (c, Err ErrInvalidBitrate)
  else
    let bitrate := if maxBitrate <? bitrate then maxBitrate else bitrate in
    let bytesPerSecond := Z.quot bitrate 8 in
    let totalSize := bytesPerSecond * 30 in
    let '(c, r) := RequestMemory strategy callback streamID totalSize now now' c in
    match r with
    | Err e => Ret (c, Err (ErrAllocation e))
    | Val _ =>
        d ← make_bytes totalSize;
        Ret (c, Val {| streamID := streamID; bitrate := bitrate; data := d; size := totalSize;
                       hotStart := 0; warmStart := bytesPerSecond * 2; coldStart := bytesPerSecond * 10;
                       writePos := 0; readPos := 0; allocated := totalSize; closed := false;
                       totalWritten := 0; totalRead := 0; drops := 0 |})
    end.

(** [Write] (sized.go:109) *)
Definition Write (src : list Z) (b : ProperSizedBuffer) : res (ProperSizedBuffer * exn sized_error Z) :=
  if closed b then Ret (b, Err ErrBufferClosed)
  else
    let dataLen := len src in
    let available :=
      if readPos b <=? writePos b then size b - writePos b + readPos b - 1
      else readPos b - writePos b - 1 in
    if available <? dataLen then
      let b := b <| drops := i64 (drops b + dataLen) |> in
      let pressure := f64_sub (f64_of_Z 1) (f64_div (f64_of_Z available) (f64_of_Z (size b))) in
      Ret (b, Err (ErrBufferFullDetailed (streamID b) dataLen available pressure))
    else
      d ← (if writePos b + dataLen <=? size b then copy_at (data b) (writePos b) src
           else
             let firstPart := size b - writePos b in
             head ← slice src 0 firstPart;
             d ← copy_at (data b) (writePos b) head;
             tail ← slice src firstPart (len src);
             copy_at d 0 tail);
      let b := b <| data := d |> in
      pos ← go_rem (writePos b + dataLen) (size b);
      let b := b <| writePos := pos |> in
      let b := b <| totalWritten := i64 (totalWritten b + dataLen) |> in
      Ret (b, Val dataLen).

(** [Read] (sized.go:163) into the slice [dst]. *)
Definition Read (dst : list Z) (b : ProperSizedBuffer)
    : res (wait (ProperSizedBuffer * list Z * exn sized_error Z)) :=
  if closed b && (writePos b =? readPos b) then Ret (RingBuffer.Done (b, dst, Err ErrBufferClosed))
  else if (writePos b =? readPos b) && negb (closed b) then Ret Blocked
  else if writePos b =? readPos b then Ret (RingBuffer.Done (b, dst, Err ErrBufferClosed))
  else
    let available :=
      if readPos b <? writePos b then writePos b - readPos b
      else size b - readPos b + writePos b in
    let toRead := if available <? len dst then available else len dst in
    dst ← (if readPos b + toRead <=? size b then
             chunk ← slice (data b) (readPos b) (readPos b + toRead);
             copy_at dst 0 chunk
           else
             let firstPart := size b - readPos b in
             first ← slice (data b) (readPos b) (len (data b));
             _ ← slice dst 0 firstPart;
             dst ← copy_at dst 0 (takeZ firstPart first);
             second ← slice (data b) 0 (toRead - firstPart);
             copy_at dst firstPart second);
    pos ← go_rem (readPos b + toRead) (size b);
    let b := b <| readPos := pos |> in
    let b := b <| totalRead := i64 (totalRead b + toRead) |> in
    Ret (RingBuffer.Done (b, dst, Val toRead)).

(** [GetHotData] (sized.go:215) *)
Definition GetHotData (b : ProperSizedBuffer) : res (list Z) :=
  let bytesPerSecond := Z.quot (bitrate b) 8 in
  let hotBytes := 2 * bytesPerSecond in
  let startPos := writePos b - hotBytes in
  let startPos := if startPos <? 0 then startPos + size b else startPos in
  let totalData := i64 (totalWritten b - totalRead b) in
  let '(hotBytes, startPos) :=
    if totalData <? hotBytes then (totalData, readPos b) else (hotBytes, startPos) in
  result ← make_bytes hotBytes;
  if startPos + hotBytes <=? size b then
    chunk ← slice (data b) startPos (startPos + hotBytes);
    copy_at result 0 chunk
  else
    let firstPart := size b - startPos in
    first ← slice (data b) startPos (len (data b));
    _ ← slice result 0 firstPart;
    result ← copy_at result 0 (takeZ firstPart first);
    second ← slice (data b) 0 (hotBytes - firstPart);
    copy_at result firstPart second.

(** [Close] (sized.go:250); the controller is absent in some tests. *)
Definition Close (b : ProperSizedBuffer) (memCtrl : option Controller)
    : ProperSizedBuffer * option Controller * exn sized_error unit :=
  if closed b then (b, memCtrl, Err ErrAlreadyClosed)
  else
    let b := b <| closed := true |> in
    let memCtrl := match memCtrl with
                   | Some c => Some (ReleaseMemory (streamID b) (allocated b) c)
                   | None => None
                   end in
    (b, memCtrl, Val tt).

(** [Stats] (sized.go:269) *)
Record ProperBufferStats := {
  Size : Z; Used : Z; Available : Z; Pressure : float64;
  TotalWritten : Z; TotalRead : Z; Drops : Z; Bitrate : Z
}.
Definition Stats (b : ProperSizedBuffer) : ProperBufferStats :=
  let used := if readPos b <=? writePos b then writePos b - readPos b
              else size b - readPos b + writePos b in
  {| Size := size b; Used := used; Available := size b - used;
     Pressure := f64_div (f64_of_Z used) (f64_of_Z (size b));
     TotalWritten := totalWritten b; TotalRead := totalRead b; Drops := drops b; Bitrate := bitrate b |}.

(** The byte-wise loop of [GetPreview] (sized.go:340-343). *)
Fixpoint preview_loop (n : nat) (d : list Z) (size pos : Z) : res (list Z) :=
  match n with
  | O => Ret []
  | S n =>
      x ← idx d pos;
      pos ← go_rem (pos + 1) size;
      rest ← preview_loop n d size pos;
      Ret (x :: rest)
  end.

(** [GetPreview] (sized.go:297) *)
Definition GetPreview (seconds : float64) (b : ProperSizedBuffer) : res (list Z * Z) :=
  let bytesPerSecond := Z.quot (bitrate b) 8 in
  let previewBytes := f64_trunc (f64_mul seconds (f64_of_Z bytesPerSecond)) in
  let available := if readPos b <=? writePos b then writePos b - readPos b
                   else size b - readPos b + writePos b in
  let previewBytes := if available <? previewBytes then available else previewBytes in
  let previewStartPos := i64 (writePos b - previewBytes) in
  let previewStartPos := if previewStartPos <? 0 then previewStartPos + size b else previewStartPos in
  let '(previewStartPos, previewBytes) :=
    if (readPos b <=? writePos b) && (previewStartPos <? readPos b) then
      (readPos b, writePos b - readPos b)
    else if (writePos b <? readPos b) && (previewStartPos <? readPos b) && (writePos b <=? previewStartPos) then
      (readPos b, size b - readPos b + writePos b)
    else (previewStartPos, previewBytes) in
  _ ← make_bytes previewBytes;
  previewData ← preview_loop (Z.to_nat previewBytes) (data b) (size b) previewStartPos;
  Ret (previewData, Z.quot previewBytes 4096).

(** ** The copies are ring copies *)

Lemma copy_in_spec d w src :
  0 <= w < len d -> len src <= len d ->
  (if w + len src <=? len d then copy_at d w src
   else head ← slice src 0 (len d - w); d1 ← copy_at d w head;
        tail ← slice src (len d - w) (len src); copy_at d1 0 tail) = Ret (ring_write d w src).
Proof.
  intros Hw Hs. unfold ring_write. destruct (Z.leb_spec (w + len src) (len d)).
  - rewrite copy_at_Ret by lia. done.
  - rewrite !slice_Ret by lia. rewrite bind_Ret, (dropZ_0 0), Z.sub_0_r by lia.
    pose proof (len_takeZ (len d - w) src ltac:(lia)) as Ht.
    pose proof (len_dropZ (len d - w) src ltac:(lia)) as Hd.
    rewrite copy_at_Ret, !bind_Ret by lia.
    rewrite (takeZ_all _ (dropZ _ _)) by lia. rewrite copy_at_Ret; rewrite ?len_blit; try lia. done.
Qed.

Lemma copy_out_spec d pos n dst :
  0 <= pos < len d -> 0 <= n <= len d -> n <= len dst ->
  (if pos + n <=? len d then chunk ← slice d pos (pos + n); copy_at dst 0 chunk
   else first ← slice d pos (len d); _ ← slice dst 0 (len d - pos);
        dst ← copy_at dst 0 (takeZ (len d - pos) first);
        second ← slice d 0 (n - (len d - pos)); copy_at dst (len d - pos) second)
  = Ret (ring_read d pos n ++ dropZ n dst).
Proof.
  intros Hp Hn Hl. unfold ring_read. pose proof (len_dropZ pos d ltac:(lia)) as Hdd.
  destruct (Z.leb_spec (pos + n) (len d)).
  - rewrite slice_Ret, bind_Ret by lia. replace (pos + n - pos) with n by lia.
    pose proof (len_takeZ n (dropZ pos d) ltac:(lia)) as Ht.
    rewrite copy_at_Ret by lia. unfold blit. by rewrite Ht, takeZ_0 by lia.
  - rewrite !slice_Ret by lia. rewrite !bind_Ret.
    rewrite !(takeZ_all _ (dropZ pos d)) by lia. rewrite copy_at_Ret, !bind_Ret by lia.
    rewrite (dropZ_0 0), Z.sub_0_r by lia.
    assert (blit dst 0 (dropZ pos d) = dropZ pos d ++ dropZ (len d - pos) dst) as ->.
    { unfold blit. rewrite takeZ_0 by lia. simpl. by rewrite Hdd. }
    pose proof (len_dropZ (len d - pos) dst ltac:(lia)).
    pose proof (len_takeZ (n - (len d - pos)) d ltac:(lia)) as Ht.
    rewrite <- Hdd at 2. rewrite copy_at_Ret by (rewrite ?len_app; lia).
    rewrite blit_app_tail by lia. rewrite Ht, dropZ_dropZ by lia. do 3 f_equal. lia.
Qed.

(** ** The queue behind the buffer *)

Definition used (b : ProperSizedBuffer) : Z := (writePos b - readPos b) mod size b.
Definition contents (b : ProperSizedBuffer) : list Z := ring_contents (data b) (readPos b) (used b).

Record sb_ok (b : ProperSizedBuffer) : Prop := {
  ok_size : 0 < size b <= 2 ^ 62;
  ok_data : len (data b) = size b;
  ok_read : 0 <= readPos b < size b;
  ok_write : 0 <= writePos b < size b;
  ok_count : i64 (totalWritten b - totalRead b) = used b;
  ok_rate : 0 <= Z.quot (bitrate b) 8 /\ 2 * Z.quot (bitrate b) 8 <= size b
}.

Lemma used_cases b : sb_ok b ->
  used b = if readPos b <=? writePos b then writePos b - readPos b else size b - readPos b + writePos b.
Proof.
  intros [? ? ? ? ? ?]. unfold used. case_bool.
  - apply Z.mod_small. lia.
  - rewrite <- (Z.mod_add _ 1) by lia. rewrite Z.mod_small; lia.
Qed.

Lemma used_range b : sb_ok b -> 0 <= used b < size b.
Proof. intros [? ? ? ? ? ?]. unfold used. apply Z.mod_pos_bound. lia. Qed.

Lemma write_pos b : sb_ok b -> writePos b = (readPos b + used b) mod size b.
Proof.
  intros [? ? ? ? ? ?]. unfold used. rewrite Zplus_mod_idemp_r.
  replace (readPos b + (writePos b - readPos b)) with (writePos b) by lia. by rewrite Z.mod_small.
Qed.

Lemma sized_contents_len b : sb_ok b -> len (contents b) = used b.
Proof. intros Hok. pose proof (used_range b Hok). destruct Hok. unfold contents. apply len_ring_contents; lia. Qed.

Lemma empty_iff b : sb_ok b -> (writePos b =? readPos b) = (used b =? 0).
Proof.
  intros Hok. pose proof (used_cases b Hok) as Hu. destruct Hok.
  destruct (Z.eqb_spec (writePos b) (readPos b)), (Z.eqb_spec (used b) 0), (Z.leb_spec (readPos b) (writePos b)); lia.
Qed.

Lemma Write_spec src b :
  sb_ok b ->
  exists b' r, Write src b = Ret (b', r) /\ sb_ok b' /\ closed b' = closed b /\
    (size b' = size b /\ bitrate b' = bitrate b /\ allocated b' = allocated b /\ streamID b' = streamID b) /\
    if negb (closed b) && (used b + len src <? size b)
    then r = Val (len src) /\ contents b' = contents b ++ src /\ drops b' = drops b
    else r = Err (if closed b then ErrBufferClosed
                  else ErrBufferFullDetailed (streamID b) (len src) (size b - 1 - used b)
                         (f64_sub (f64_of_Z 1) (f64_div (f64_of_Z (size b - 1 - used b)) (f64_of_Z (size b))))) /\
         contents b' = contents b /\ drops b' = if closed b then drops b else i64 (drops b + len src).
Proof.
  intros Hok. pose proof (used_range b Hok) as Hu. pose proof (used_cases b Hok) as Huc. pose proof (len_nonneg src) as Hl.
  pose proof (write_pos b Hok) as Hw. pose proof Hok as [Hs Hd Hr Hwr Hc Hbr].
  unfold Write. destruct (closed b) eqn:Hcl; simpl; [by exists b, (Err ErrBufferClosed)|].
  assert ((if readPos b <=? writePos b then size b - writePos b + readPos b - 1 else readPos b - writePos b - 1)
          = size b - 1 - used b) as -> by (rewrite Huc; case_bool; lia).
  destruct (Z.ltb_spec (used b + len src) (size b)).
  - rewrite (proj2 (Z.ltb_ge _ _)) by lia.
    pose proof (copy_in_spec (data b) (writePos b) src ltac:(lia) ltac:(lia)) as Hcp. rewrite Hd in Hcp.
    rewrite Hcp, bind_Ret. simpl. rewrite go_rem_Ret, bind_Ret by lia.
    eexists _, _. split; [reflexivity|].
    match goal with |- sb_ok ?x /\ _ => set (b1 := x) end.
    assert (used b1 = used b + len src) as Hu1.
    { unfold used, b1. simpl. rewrite Zminus_mod_idemp_l.
      replace (writePos b + len src - readPos b) with (writePos b - readPos b + len src) by lia.
      rewrite <- Zplus_mod_idemp_l. fold (used b). apply Z.mod_small. lia. }
    split; [constructor; simpl|].
    + done.
    + rewrite len_ring_write by lia. done.
    + done.
    + apply Z.mod_pos_bound. lia.
    + rewrite Hu1. revert Hc. clear -Hl Hu Hs H. intros Hc. mlia.
    + done.
    + split_and!; try done. unfold contents. rewrite Hu1. simpl. rewrite Hw at 1. rewrite <- Hd.
      apply ring_write_contents; lia.
  - rewrite (proj2 (Z.ltb_lt _ _)) by lia. eexists _, _. split; [reflexivity|]. split; [by constructor|]. simpl.
    by rewrite Hcl.
Qed.

Lemma sized_Read_spec dst b :
  sb_ok b ->
  if used b =? 0 then
    Read dst b = if closed b then Ret (RingBuffer.Done (b, dst, Err ErrBufferClosed)) else Ret Blocked
  else exists b' l, Read dst b = Ret (RingBuffer.Done (b', l ++ dropZ (len l) dst, Val (len l))) /\ sb_ok b' /\
    len l = Z.min (len dst) (used b) /\ contents b = l ++ contents b' /\ closed b' = closed b.
Proof.
  intros Hok. pose proof (used_range b Hok) as Hu. pose proof (used_cases b Hok) as Huc. pose proof (len_nonneg dst) as Hl.
  pose proof (empty_iff b Hok) as He. pose proof Hok as [Hs Hd Hr Hwr Hc Hbr].
  unfold Read. rewrite He. destruct (Z.eqb_spec (used b) 0) as [Hz|Hz].
  { destruct (closed b); reflexivity. }
  rewrite andb_false_r. cbn [andb].
  assert ((if readPos b <? writePos b then writePos b - readPos b else size b - readPos b + writePos b) = used b) as ->.
  { rewrite Huc. revert Huc. destruct (Z.ltb_spec (readPos b) (writePos b)), (Z.leb_spec (readPos b) (writePos b)); lia. }
  assert ((if used b <? len dst then used b else len dst) = Z.min (len dst) (used b)) as -> by (case_bool; lia).
  set (n := Z.min (len dst) (used b)). cbv zeta.
  pose proof (copy_out_spec (data b) (readPos b) n dst ltac:(lia) ltac:(lia) ltac:(lia)) as Hcp. rewrite Hd in *.
  rewrite Hcp, bind_Ret. simpl. rewrite go_rem_Ret, bind_Ret by lia.
  rewrite ring_read_view by lia.
  assert (len (takeZ n (view (data b) (readPos b))) = n) as Hln by (rewrite len_takeZ; rewrite ?len_view; lia).
  set (l := takeZ n _) in *. eexists _, l. rewrite Hln. split; [reflexivity|].
  match goal with |- sb_ok ?x /\ _ => set (b1 := x) end.
  assert (used b1 = used b - n) as Hu1.
  { unfold used, b1. simpl. rewrite Zminus_mod_idemp_r.
    replace (writePos b - (readPos b + n)) with (writePos b - readPos b - n) by lia.
    rewrite <- Zminus_mod_idemp_l. fold (used b). apply Z.mod_small. lia. }
  split; [constructor; simpl|].
  - done.
  - done.
  - apply Z.mod_pos_bound. lia.
  - done.
  - rewrite Hu1. revert Hc. clear -Hl Hu Hs n. intros Hc. unfold n. mlia.
  - done.
  - split; [done|]. split; [|done]. unfold contents. rewrite Hu1. simpl. rewrite <- Hd. apply ring_advance; lia.
Qed.

#[export] Instance SizedBuffer_fifo : ByteFifo ProperSizedBuffer.
Proof.
  refine {| fifo_ok := sb_ok; fifo_contents := contents;
    fifo_put := fun _ _ l b => '(b, r) ← Write l b;
                  Ret (b, match r with Val _ => true | Err _ => false end);
    fifo_take := fun n b => r ← Read (replicate (Z.to_nat n) 0) b;
                  match r with
                  | RingBuffer.Done (b, l, Val n) => Ret (b, Some (takeZ n l))
                  | RingBuffer.Done (b, _, Err _) => Ret (b, None)
                  | Blocked => Ret (b, None)
                  end |}.
  - intros b _ _ l Hok. destruct (Write_spec l b Hok) as (b' & r & -> & Hok' & _ & _ & H).
    rewrite bind_Ret. destruct (_ && _); destruct H as (-> & Hc & _).
    + eauto.
    + eexists _, false. rewrite app_nil_r. eauto.
  - intros b n Hok Hn. pose proof (sized_Read_spec (replicate (Z.to_nat n) 0) b Hok) as H.
    rewrite len_replicate in H by done. destruct (Z.eqb_spec (used b) 0).
    + rewrite H. destruct (closed b); rewrite bind_Ret; eexists _, None; eauto.
    + destruct H as (b' & l & -> & Hok' & Hl & Hc & _). rewrite bind_Ret. eexists _, (Some l).
      rewrite takeZ_app_le, takeZ_all, sized_contents_len by (done || lia). eauto.
Defined.

(** ** The newest bytes *)

Lemma contents_tail b n :
  sb_ok b -> 0 <= n <= used b ->
  takeZ n (view (data b) ((writePos b - n) mod size b)) = dropZ (used b - n) (contents b).
Proof.
  intros Hok Hn. pose proof (used_range b Hok) as Hu. pose proof (write_pos b Hok) as Hw.
  pose proof Hok as [Hs Hd Hr Hwr Hc Hbr].
  unfold contents. rewrite (ring_advance (data b) (readPos b) (used b) (used b - n)) by lia.
  rewrite dropZ_app_ge, dropZ_0; rewrite ?len_takeZ; rewrite ?len_view; try lia.
  unfold ring_contents. f_equal; [lia|]. f_equal. rewrite Hw, Zminus_mod_idemp_l, Hd. f_equal. lia.
Qed.

Lemma start_pos b n :
  sb_ok b -> 0 <= n <= used b ->
  (writePos b - n) mod size b = if writePos b - n <? 0 then writePos b - n + size b else writePos b - n.
Proof.
  intros Hok Hn. pose proof (used_range b Hok) as Hu. pose proof Hok as [Hs Hd Hr Hwr Hc Hbr].
  case_bool; [rewrite <- (Z.mod_add _ 1) by lia|]; rewrite Z.mod_small; lia.
Qed.

Lemma preview_loop_spec n d pos :
  0 <= pos < len d -> Z.of_nat n <= len d ->
  preview_loop n d (len d) pos = Ret (takeZ (Z.of_nat n) (view d pos)).
Proof.
  revert pos. induction n as [|n IH]; intros pos Hp Hn; cbn [preview_loop].
  { by rewrite takeZ_0. }
  destruct (idx_Ret d pos Hp) as (x & -> & Hx). rewrite bind_Ret, go_rem_Ret, bind_Ret by lia.
  pose proof (Z.mod_pos_bound (pos + 1) (len d) ltac:(lia)).
  rewrite IH, bind_Ret by lia. f_equal.
  pose proof (ring_advance d pos (Z.of_nat (S n)) 1 Hp ltac:(lia) ltac:(lia)) as Ha.
  unfold ring_contents in Ha. replace (Z.of_nat (S n) - 1) with (Z.of_nat n) in Ha by lia. rewrite Ha.
  assert (takeZ 1 (view d pos) = [x]) as ->; [|done].
  apply list_eq_lookupZ; [rewrite len_takeZ; rewrite ?len_view; done || lia|].
  intros i Hi. rewrite len_takeZ in Hi by (rewrite len_view; lia). assert (i = 0) as -> by lia.
  rewrite takeZ_lookup, view_lookup by lia. rewrite Z.add_0_r, Z.mod_small by lia. done.
Qed.

(** ** Properties *)

Lemma NewProperSizedBuffer_spec strategy callback sid rate now now' c :
  mem_ok c -> callback_ok callback -> minBitrate <= rate ->
  let total := Z.quot (Z.min rate maxBitrate) 8 * 30 in
  let '(c1, r) := RequestMemory strategy callback sid total now now' c in
  match r with
  | Err e => NewProperSizedBuffer strategy callback sid rate now now' c = Ret (c1, Err (ErrAllocation e))
  | Val _ => exists b, NewProperSizedBuffer strategy callback sid rate now now' c = Ret (c1, Val b) /\
      sb_ok b /\ contents b = [] /\ size b = total /\ allocated b = total /\ streamID b = sid /\ closed b = false
  end.
Proof.
  intros Hok Hcb Hr. unfold NewProperSizedBuffer, minBitrate, maxBitrate in *.
  rewrite (proj2 (Z.leb_gt _ _)), (proj2 (Z.ltb_ge _ _)) by lia.
  replace (if 1000000000 <? rate then 1000000000 else rate) with (Z.min rate 1000000000) by (case_bool; lia).
  cbv zeta. set (rt := Z.min rate 1000000000).
  assert (125 <= Z.quot rt 8 <= 125000000) as Hq by (unfold rt; Z.to_euclidean_division_equations; lia).
  destruct (RequestMemory _ _ _ _ _ _ _) as [c1 [[]|e]]; [|done].
  rewrite make_bytes_Ret, bind_Ret by lia. eexists. split; [reflexivity|]. split.
  - constructor; simpl; try lia.
    + rewrite len_replicate; lia.
    + unfold used. simpl. by rewrite Z.mod_0_l by lia.
  - split_and!; done.
Qed.

(** stream integrity of the bitrate-sized buffer.  From a newly created
    buffer, any interleaving of writes and reads runs without panic; the bytes
    read followed by the bytes queued are the accepted writes in order, and
    [Stats] reports the queue's length, always short of the size by at least
    the reserved byte. *)
Theorem sized_stream strategy callback sid rate now now' c c1 b ops :
  mem_ok c -> callback_ok callback ->
  NewProperSizedBuffer strategy callback sid rate now now' c = Ret (c1, Val b) ->
  exists b' wr rd, fifo_run ops b = Ret (b', wr, rd) /\ rd ++ contents b' = wr /\
    len (contents b') = Used (Stats b') /\ Used (Stats b') < Size (Stats b').
Proof.
  intros Hok Hcb Hnew.
  assert (minBitrate <= rate) as Hr.
  { unfold NewProperSizedBuffer in Hnew. destruct (Z.leb_spec rate 0); [done|].
    destruct (Z.ltb_spec rate minBitrate); done. }
  pose proof (NewProperSizedBuffer_spec strategy callback sid rate now now' c Hok Hcb Hr) as H.
  cbv zeta in H. destruct (RequestMemory _ _ _ _ _ _ _) as [c' [[]|e]]; [|rewrite H in Hnew; done].
  destruct H as (b0 & Hb0 & Hb & Hc & _). rewrite Hb0 in Hnew. injection Hnew as <- <-.
  destruct (@fifo_stream _ SizedBuffer_fifo ops b0 Hb) as (b' & wr & rd & Hrun & Hok' & Heq).
  change (fifo_contents b') with (contents b') in Heq. change (fifo_contents b0) with (contents b0) in Heq.
  rewrite Hc in Heq. exists b', wr, rd. split; [done|]. split; [done|].
  pose proof (used_cases b' Hok') as Hu. simpl. rewrite <- Hu.
  split; [by apply sized_contents_len|by apply used_range].
Qed.

Lemma sized_write_read_run strategy callback :
  callback_ok callback -> forall c, mem_ok c -> usage c = 0 -> GetStreamUsage "s" c = 0 ->
  3750 <= maxMemory c -> 3750 <= perStreamLimit c ->
  exists c1 b, NewProperSizedBuffer strategy callback "s" 1000 1 1 c = Ret (c1, Val b) /\ sb_ok b /\
    charged "s" 3750 c c1 /\ allocated b = 3750 /\ streamID b = "s" /\ closed b = false.
Proof.
  intros Hcb c Hok Hu0 Hs0 Hm Hl.
  pose proof (NewProperSizedBuffer_spec strategy callback "s" 1000 1 1 c Hok Hcb ltac:(done)) as H.
  change (Z.quot (Z.min 1000 maxBitrate) 8 * 30) with 3750 in H. cbv zeta in H.
  pose proof (request_spec strategy callback Hcb "s" 3750 1 1 c Hok ltac:(lia)) as Hr.
  destruct (RequestMemory _ _ _ _ _ _ _) as [c1 r]. rewrite Hu0, Hs0 in Hr.
  rewrite (proj2 (Z.leb_le _ (maxMemory c))), (proj2 (Z.leb_le _ (perStreamLimit c))) in Hr by lia.
  destruct Hr as (_ & (-> & Hch & _) & _). destruct H as (b & Hb & Hok' & _ & _ & Ha & Hid & Hc). eauto 10.
Qed.

Definition sample_controller : Controller := NewController 10000 5000 0.
Lemma sample_controller_ok : mem_ok sample_controller.
Proof. apply NewController_ok; lia. Qed.

Lemma sized_stream_witness :
  exists c1 b b', NewProperSizedBuffer lru_strategy reset_callback "s" 1000 1 1 sample_controller = Ret (c1, Val b) /\
    fifo_run [Put 0 0 [1; 2; 3]; Take 2; Put 0 0 [4]] b = Ret (b', [1; 2; 3; 4], [1; 2]) /\ contents b' = [3; 4].
Proof.
  destruct (sized_write_read_run lru_strategy reset_callback reset_callback_ok sample_controller sample_controller_ok
    eq_refl eq_refl ltac:(done) ltac:(done)) as (c1 & b & Hb & _).
  destruct (sized_stream lru_strategy reset_callback "s" 1000 1 1 sample_controller c1 b
    [Put 0 0 [1; 2; 3]; Take 2; Put 0 0 [4]] sample_controller_ok reset_callback_ok Hb)
    as (b' & wr & rd & Hrun & Heq & _).
  exists c1, b, b'. split; [done|]. vm_compute in Hb. injection Hb as <- <-.
  match type of Hrun with ?r = _ =>
    assert (exists x, r = Ret (x, [1; 2; 3; 4], [1; 2])) as [x Hx] by (eexists; vm_compute; reflexivity) end.
  rewrite Hx in Hrun. injection Hrun as -> <- <-. split; [done|].
  by apply (app_inv_head [1; 2]).
Defined.

(** The hot section and the preview.  [GetHotData] returns the newest
    bytes of the queue, two seconds of the bitrate or all that is queued.
    [GetPreview] of a non-negative byte count returns the newest bytes too,
    with one exception: when the wanted count is zero and the queue wraps
    around the end of the store, it returns the whole queue. *)
Theorem newest_bytes seconds b :
  sb_ok b ->
  let hot := Z.min (2 * Z.quot (bitrate b) 8) (used b) in
  let want := f64_trunc (f64_mul seconds (f64_of_Z (Z.quot (bitrate b) 8))) in
  let n := Z.min want (used b) in
  GetHotData b = Ret (dropZ (used b - hot) (contents b)) /\
  (0 <= want ->
   GetPreview seconds b =
     if (n =? 0) && (writePos b <? readPos b) then Ret (contents b, used b / 4096)
     else Ret (dropZ (used b - n) (contents b), n / 4096)).
Proof.
  intros Hok. cbv zeta. set (rate := Z.quot (bitrate b) 8). set (want := f64_trunc _).
  pose proof (used_range b Hok) as Hu. pose proof (used_cases b Hok) as Huc.
  pose proof Hok as [Hs Hd Hr Hwr Hc Hbr]. fold rate in Hbr. split.
  - unfold GetHotData. fold rate. rewrite Hc. set (n := Z.min (2 * rate) (used b)).
    assert (exists p, (if used b <? 2 * rate then (used b, readPos b)
              else (2 * rate, if writePos b - 2 * rate <? 0 then writePos b - 2 * rate + size b else writePos b - 2 * rate))
              = (n, p) /\ p = (writePos b - n) mod size b) as (p & Hp & Hpm).
    { destruct (Z.ltb_spec (used b) (2 * rate)); eexists; (split; [f_equal; unfold n; lia|]).
      - replace n with (used b) by (unfold n; lia). rewrite (start_pos b (used b)) by (done || lia). revert Huc.
        destruct (Z.leb_spec (readPos b) (writePos b)), (Z.ltb_spec (writePos b - used b) 0); lia.
      - replace n with (2 * rate) by (unfold n; lia). by rewrite (start_pos b (2 * rate)) by (done || lia). }
    cbv zeta. rewrite Hp. assert (0 <= n <= used b) as Hn by lia. clearbody n. clear Hp.
    pose proof (Z.mod_pos_bound (writePos b - n) (size b) ltac:(lia)) as Hpb. rewrite <- Hpm in Hpb.
    rewrite make_bytes_Ret, bind_Ret by lia.
    pose proof (copy_out_spec (data b) p n (replicate (Z.to_nat n) 0) ltac:(lia) ltac:(lia)
      ltac:(rewrite len_replicate; lia)) as Hcp. rewrite Hd in *. rewrite Hcp.
    rewrite dropZ_all, app_nil_r by (rewrite len_replicate; lia). rewrite ring_read_view by lia.
    f_equal. rewrite Hpm. by apply contents_tail.
  - intros Hw. unfold GetPreview. cbv zeta. fold rate. fold want. rewrite <- Huc. clearbody want.
    replace (if used b <? want then used b else want) with (Z.min want (used b)) by (case_bool; lia).
    set (n := Z.min want (used b)). assert (0 <= n <= used b) as Hn by lia. clearbody n.
    rewrite i64_id by (pow_consts; lia). rewrite <- start_pos by done.
    assert (exists p m, (if (readPos b <=? writePos b) && ((writePos b - n) mod size b <? readPos b)
              then (readPos b, writePos b - readPos b)
              else if (writePos b <? readPos b) && ((writePos b - n) mod size b <? readPos b) &&
                      (writePos b <=? (writePos b - n) mod size b)
              then (readPos b, size b - readPos b + writePos b) else ((writePos b - n) mod size b, n)) = (p, m) /\
            m = (if (n =? 0) && (writePos b <? readPos b) then used b else n) /\
            p = (writePos b - m) mod size b) as (p & m & -> & Hm & Hp).
    { rewrite start_pos by done. revert Huc. clear -Hn Hr Hwr Hs Hok Hu. intros Huc.
      destruct (Z.leb_spec (readPos b) (writePos b)), (Z.ltb_spec (writePos b) (readPos b)); try lia;
        destruct (Z.eqb_spec n 0), (Z.ltb_spec (writePos b - n) 0); cbn [andb];
        repeat case_bool; zbool; simpl in *; try lia;
        (eexists _, _; split; [reflexivity|]; split; [done || lia|]; rewrite start_pos by (done || lia); case_bool; lia). }
    assert (0 <= m <= used b) as Hmu by (rewrite Hm; case_bool; lia).
    pose proof (Z.mod_pos_bound (writePos b - m) (size b) ltac:(lia)) as Hpb. rewrite <- Hp in Hpb.
    rewrite make_bytes_Ret, bind_Ret by lia. rewrite <- Hd, preview_loop_spec, bind_Ret, Z2Nat.id by lia.
    rewrite Hp, contents_tail, Z.quot_div_nonneg by (done || lia). rewrite Hm.
    case_bool; [|done]. by rewrite Z.sub_diag, dropZ_0.
Qed.

(** the buffer's memory is accounted for its whole life.  Creation below
    the minimum bitrate fails without touching the controller; otherwise it
    charges the stream exactly the buffer's size when the controller grants it
    and fails with the controller's error when not.  The first [Close] of a
    buffer whose memory is still charged gives exactly that back, so the books
    return to what they were; a second [Close] reports an error and releases
    nothing. *)
Theorem memory_lifecycle strategy callback sid rate now now' c :
  mem_ok c -> callback_ok callback ->
  let total := Z.quot (Z.min rate maxBitrate) 8 * 30 in
  if rate <? minBitrate
  then NewProperSizedBuffer strategy callback sid rate now now' c = Ret (c, Err ErrInvalidBitrate)
  else exists c1 r, NewProperSizedBuffer strategy callback sid rate now now' c = Ret (c1, r) /\ mem_ok c1 /\
    match r with
    | Err e => exists m, e = ErrAllocation m /\
        (usage c + total <= maxMemory c -> m = ErrStreamMemoryLimit /\ same_usage c c1)
    | Val b => size b = total /\
        (usage c + total <= maxMemory c -> charged sid total c c1) /\
        let '(b1, c2, r2) := Close b (Some c1) in
        r2 = Val tt /\ Close b1 c2 = (b1, c2, Err ErrAlreadyClosed) /\
        exists c', c2 = Some c' /\ charged sid (- Z.min total (GetStreamUsage sid c1)) c1 c' /\
          (usage c + total <= maxMemory c -> same_usage c c')
    end.
Proof.
  intros Hok Hcb total. destruct (Z.ltb_spec rate minBitrate) as [Hlow|Hr].
  { unfold NewProperSizedBuffer. case_bool; [done|]. by rewrite (proj2 (Z.ltb_lt _ _)). }
  pose proof (NewProperSizedBuffer_spec strategy callback sid rate now now' c Hok Hcb Hr) as Hn.
  assert (0 <= total < 2 ^ 62) as Ht.
  { unfold total, minBitrate, maxBitrate in *. Z.to_euclidean_division_equations; lia. }
  cbv zeta in Hn. fold total in Hn. clearbody total.
  pose proof (request_spec strategy callback Hcb sid total now now' c Hok Ht) as Hq.
  destruct (RequestMemory _ _ _ _ _ _ _) as [c1 r]. destruct Hq as (Hok1 & Hq & Hrel). destruct r as [[]|e].
  - destruct Hn as (b & -> & Hb & _ & Hsz & Hal & Hid & Hcl). eexists _, _. split; [reflexivity|]. split; [done|].
    split; [done|].
    assert (usage c + total <= maxMemory c -> charged sid total c c1 /\ same_usage c (ReleaseMemory sid total c1)) as Hfit.
    { intros Hle. rewrite (proj2 (Z.leb_le _ _)) in Hq by done. case_match; [tauto|]. by destruct Hq. }
    split; [tauto|]. unfold Close. rewrite Hcl. simpl. rewrite Hid, Hal. split; [done|]. split; [done|].
    eexists. split; [reflexivity|]. split; [apply Hrel; lia|]. tauto.
  - rewrite Hn. eexists _, _. split; [reflexivity|]. split; [done|]. exists e. split; [done|].
    intros Hle. rewrite (proj2 (Z.leb_le _ _)) in Hq by done. case_match; destruct Hq as [[= ->] Hq]; done.
Qed.

Lemma memory_lifecycle_witness :
  exists c1 b, NewProperSizedBuffer lru_strategy reset_callback "s" 1000 1 1 sample_controller = Ret (c1, Val b) /\
    usage c1 = 3750 /\ exists b1 c', Close b (Some c1) = (b1, Some c', Val tt) /\ usage c' = 0.
Proof.
  pose proof (memory_lifecycle lru_strategy reset_callback "s" 1000 1 1 sample_controller
    sample_controller_ok reset_callback_ok) as H. cbv zeta in H.
  change (1000 <? minBitrate) with false in H. cbv iota in H.
  destruct H as (c1 & r & Hn & _ & Hr).
  destruct (sized_write_read_run lru_strategy reset_callback reset_callback_ok sample_controller sample_controller_ok
    eq_refl eq_refl ltac:(done) ltac:(done)) as (c1' & b & Hb & _ & [Hu _] & _).
  rewrite Hb in Hn. injection Hn as <- <-. destruct Hr as (_ & _ & Hr). exists c1', b. split; [done|].
  split; [exact Hu|]. destruct (Close b (Some c1')) as [[b1 c2] r2] eqn:Hc.
  destruct Hr as (-> & _ & c' & -> & _ & Hsame). exists b1, c'. split; [done|].
  apply Hsame. vm_compute. done.
Defined.

Lemma newest_bytes_witness :
  exists b, Write [1; 2; 3] (mkSized "s" 8 [0; 0; 0; 0] 4 0 0 0 0 0 4 false 0 0 0) = Ret (b, Val 3) /\
    GetHotData b = Ret [2; 3].
Proof.
  eexists. split; [vm_compute; reflexivity|].
  refine (eq_trans (proj1 (newest_bytes (f64_of_Z 1) (mkSized "s" 8 [1; 2; 3; 0] 4 0 0 0 3 0 4 false 3 0 0) _)) _).
  - constructor; vm_compute; done || (split; done).
  - vm_compute. reflexivity.
Defined.
