(* ===== verification/Depacketizer.v ===== *)
(** * Receivers of packetised NAL units

    What the H.264 and HEVC depacketizers promise: a sender cuts NAL units
    into packets, the network loses, repeats and reorders them, and the
    receiver hands out only units that were sent; when nothing is lost it
    hands out all of them.  The interface [NalReceiver] states one receive
    step; both theorems are proved against it. *)

From S2P Require Import Prelude Serial.

(** ** Packets *)

(** A packet that carries whole units, or part [j] of the unit
    [hdr ++ concat parts], [hdr] being the start code and the unit header. *)
Inductive pkt : Type :=
| PWhole (payload : list Z) (units : list (list Z))
| PFrag (hdr : list Z) (parts : list (list Z)) (j : nat).

Definition units_of (p : pkt) : list (list Z) :=
  match p with PWhole _ us => us | PFrag hdr parts _ => [hdr ++ concat parts] end.

(** What a sender has to send: whole units in one packet, or a unit cut into
    at least two parts. *)
Inductive item : Type :=
| Whole (payload : list Z) (units : list (list Z))
| Fragmented (hdr : list Z) (parts : list (list Z)).
Definition packets_of (it : item) : list pkt :=
  match it with
  | Whole payload us => [PWhole payload us]
  | Fragmented hdr parts => map (PFrag hdr parts) (seq 0 (length parts))
  end.
Definition item_units (it : item) : list (list Z) :=
  match it with Whole _ us => us | Fragmented hdr parts => [hdr ++ concat parts] end.
Definition packets (items : list item) : list pkt := concat (map packets_of items).

(** ** Wire formats shared by the two codecs *)

Definition startCode : list Z := [0; 0; 0; 1].
Definition MaxNALUnitSize : Z := 10 * 1024 * 1024.
Definition MaxFragmentSize : Z := 10 * 1024 * 1024.

(** [binary.BigEndian.Uint16] and its inverse. *)
Definition be16 (hi lo : Z) : Z := hi * 256 + lo.
Definition put_be16 (n : Z) : list Z := [n / 256; n mod 256].

(** Aggregated units, each behind its 16-bit length. *)
Definition aggregate (nals : list (list Z)) : list Z :=
  concat (map (fun n => put_be16 (len n) ++ n) nals).

(** [prependStartCode] *)
Definition prependStartCode (nalUnit : list Z) : list Z := startCode ++ nalUnit.

(** The total length of the fragments held. *)
Definition frag_size (fr : list (list Z)) : Z := foldl (fun n (f : list Z) => n + len f) 0 fr.

#[global] Arguments frag_size fr : simpl never.

Lemma foldl_len fr n : foldl (fun n (f : list Z) => n + len f) n fr = n + len (concat fr).
Proof.
  revert n. induction fr as [|f fr IH]; intros n; simpl; [unfold len; simpl; lia|].
  rewrite IH, len_app. lia.
Qed.
Lemma frag_size_concat fr : frag_size fr = len (concat fr).
Proof. unfold frag_size. rewrite foldl_len. lia. Qed.

Lemma frag_size_app fr f : frag_size (fr ++ [f]) = frag_size fr + len f.
Proof. rewrite !frag_size_concat, concat_app, len_app. simpl. by rewrite app_nil_r. Qed.
Lemma len_pos_ne {A} (l : list A) : (0 <? len l) = true <-> l <> [].
Proof. destruct l; [done|]. rewrite Z.ltb_lt, len_cons. pose proof (len_nonneg l). split; [done|lia]. Qed.

Lemma idx_nth (l : list Z) i : 0 <= i < len l -> idx l i = Ret (nth (Z.to_nat i) l 0).
Proof.
  intros Hi. destruct (idx_Ret l i Hi) as (x & -> & Hx). by rewrite (nth_lookup_Some _ _ _ _ Hx).
Qed.

Lemma nth_byte (l : list Z) n : Forall is_byte l -> is_byte (nth n l 0).
Proof.
  intros Hl. destruct (nth_in_or_default n l 0) as [Hin| ->]; [|done].
  rewrite Forall_forall in Hl. apply Hl. by apply list_elem_of_In.
Qed.

Lemma put_be16_spec n : 0 <= n < 2 ^ 16 -> be16 (n / 256) (n mod 256) = n.
Proof. unfold be16. intros. mlia. Qed.

(** ** One receive step, seen from outside *)

Definition is_start (j : nat) : bool := (j =? 0)%nat.
Definition is_end (parts : list (list Z)) (j : nat) : bool := (S j =? length parts)%nat.

(** What may happen to the fragments held when part [part] arrives at serial
    distance [gap] from the last packet: they may always be dropped. *)
Inductive fu_step (hdr part : list Z) (start end_ : bool) (gap : Z)
    : list (list Z) -> list (list Z) -> list (list Z) -> Prop :=
| fu_drop fr : fu_step hdr part start end_ gap fr [] []
| fu_ignore fr : start = false -> fr = [] \/ gap = 0 -> fu_step hdr part start end_ gap fr fr []
| fu_start fr : start = true -> end_ = false -> fu_step hdr part start end_ gap fr [hdr; part] []
| fu_append fr : start = false -> end_ = false -> fr <> [] -> gap = 1 ->
    fu_step hdr part start end_ gap fr (fr ++ [part]) []
| fu_finish fr : start = false -> end_ = true -> fr <> [] -> gap = 1 ->
    fu_step hdr part start end_ gap fr [] [concat (fr ++ [part])].

Definition recv_spec (p : pkt) (gap : Z) (fr fr' out : list (list Z)) : Prop :=
  match p with
  | PWhole _ us => (fr' = fr \/ fr' = []) /\ out = us
  | PFrag hdr parts j => fu_step hdr (nth j parts []) (is_start j) (is_end parts j) gap fr fr' out
  end.

(** The step when no limit interferes. *)
Definition recv_exact (p : pkt) (fr fr' out : list (list Z)) : Prop :=
  match p with
  | PWhole _ us => out = us
  | PFrag hdr parts j =>
      if is_start j then fr' = [hdr; nth j parts []] /\ out = []
      else if is_end parts j then fr' = [] /\ out = [concat (fr ++ [nth j parts []])]
      else fr' = fr ++ [nth j parts []] /\ out = []
  end.

(** ** The interface *)

(** [nr_recv now now' payload seq]: a packet with the two clock readings the
    step may take.  [nr_ready lo hi] says that clock readings in [lo, hi]
    cannot make the fragments time out. *)
Class NalReceiver (D E : Type) := {
  nr_frags : D -> list (list Z);
  nr_last : D -> Z;
  nr_inv : D -> Prop;
  nr_ready : Z -> Z -> D -> Prop;
  nr_recv : Z -> Z -> list Z -> Z -> D -> res (D * exn E (list (list Z)));
  nr_payload : pkt -> list Z;
  nr_wf : pkt -> Prop;
  nr_fits : pkt -> Prop;
  nr_spec : forall d seq now now' p, nr_inv d -> is_u16 seq -> nr_wf p ->
    exists d' out, nr_recv now now' (nr_payload p) seq d = Ret (d', Val out) /\ nr_inv d' /\
      nr_last d' = seq /\
      recv_spec p (sequenceDistance seq (nr_last d)) (nr_frags d) (nr_frags d') out;
  nr_exact : forall d seq now now' lo hi p d' out, nr_inv d -> is_u16 seq -> nr_wf p -> nr_fits p ->
    nr_ready lo hi d -> lo <= now <= hi -> lo <= now' <= hi ->
    match p with
    | PFrag hdr parts (S j) => nr_frags d = hdr :: take (S j) parts /\ sequenceDistance seq (nr_last d) = 1
    | _ => True
    end ->
    nr_recv now now' (nr_payload p) seq d = Ret (d', Val out) ->
    recv_exact p (nr_frags d) (nr_frags d') out /\ nr_ready lo hi d'
}.

(** A packet as received: payload, sequence number, clock readings. *)
Record delivery := { dl_payload : list Z; dl_seq : Z; dl_now : Z; dl_now' : Z }.

(** Receiving in order; a packet refused with an error yields no units. *)
Fixpoint nr_run {D E} `{NalReceiver D E} (ds : list delivery) (d : D) : res (D * list (list Z)) :=
  match ds with
  | [] => Ret (d, [])
  | x :: ds =>
      '(d, r) ← nr_recv (dl_now x) (dl_now' x) (dl_payload x) (dl_seq x) d;
      '(d, out) ← nr_run ds d;
      Ret (d, (match r with Val us => us | Err _ => [] end) ++ out)
  end.

(** The same, keeping every call's result, errors included. *)
Fixpoint nr_results {D E} `{NalReceiver D E} (ds : list delivery) (d : D) : res (D * list (exn E (list (list Z)))) :=
  match ds with
  | [] => Ret (d, [])
  | x :: ds =>
      '(d, r) ← nr_recv (dl_now x) (dl_now' x) (dl_payload x) (dl_seq x) d;
      '(d, rs) ← nr_results ds d;
      Ret (d, r :: rs)
  end.

Definition result_units {E} (r : exn E (list (list Z))) : list (list Z) :=
  match r with Val us => us | Err _ => [] end.

Lemma nr_run_results {D E} `{NalReceiver D E} ds d d' rs :
  nr_results ds d = Ret (d', rs) -> nr_run ds d = Ret (d', concat (map result_units rs)).
Proof.
  revert d rs. induction ds as [|x ds IH]; intros d rs; cbn [nr_results nr_run]; [by intros [= <- <-]|].
  destruct (nr_recv _ _ _ _ _) as [[d1 r]| |]; [|done|done]. rewrite !bind_Ret.
  destruct (nr_results ds d1) as [[d2 rs2]| |] eqn:E2; [|done|done]. rewrite bind_Ret. intros [= <- <-]. by rewrite (IH _ _ E2), bind_Ret.
Qed.

(** ** Structure of a sent sequence *)

Lemma packets_prev items i hdr parts j :
  packets items !! i = Some (PFrag hdr parts (S j)) ->
  exists i', i = S i' /\ packets items !! i' = Some (PFrag hdr parts j).
Proof.
  revert i. induction items as [|it items IH]; intros i; [done|].
  change (packets (it :: items)) with (packets_of it ++ packets items). intros Hi.
  destruct (decide (i < length (packets_of it))%nat) as [Hlt|Hge].
  - rewrite lookup_app_l in Hi by done. destruct it as [pl us|h ps]; simpl in *.
    + destruct i; simpl in Hi; [done|]. by rewrite lookup_nil in Hi.
    + rewrite length_map, length_seq in Hlt. apply list_lookup_fmap_Some in Hi as (k & Heq & Hk).
      apply lookup_seq in Hk as [-> _]. injection Heq as -> -> Hj. simpl in *.
      exists j. split; [done|].
      rewrite lookup_app_l by (rewrite length_map, length_seq; lia).
      apply list_lookup_fmap_Some. exists j. split; [done|]. apply lookup_seq. lia.
  - rewrite lookup_app_r in Hi by lia. destruct (IH _ Hi) as (i' & Hi' & Hp).
    exists (i - 1)%nat. split; [lia|]. rewrite lookup_app_r by lia. rewrite <- Hp. f_equal. lia.
Qed.

Lemma packets_part items i hdr parts j :
  packets items !! i = Some (PFrag hdr parts j) -> (j < length parts)%nat.
Proof.
  revert i. induction items as [|it items IH]; intros i; [done|].
  change (packets (it :: items)) with (packets_of it ++ packets items). intros Hi.
  destruct (decide (i < length (packets_of it))%nat) as [Hlt|Hge].
  - rewrite lookup_app_l in Hi by done. destruct it as [pl us|h ps]; simpl in *.
    + destruct i; simpl in Hi; [done|]. by rewrite lookup_nil in Hi.
    + apply list_lookup_fmap_Some in Hi as (k & Heq & Hk). apply lookup_seq in Hk as [-> ?].
      injection Heq as -> -> Hj. simpl in *. lia.
  - rewrite lookup_app_r in Hi by lia. by eapply IH.
Qed.

Lemma concat_take_nth (parts : list (list Z)) j :
  (j < length parts)%nat -> take (S j) parts = take j parts ++ [nth j parts []].
Proof.
  intros Hj. destruct (lookup_lt_is_Some_2 parts j Hj) as [x Hx].
  rewrite (take_S_r _ _ _ Hx). f_equal. by rewrite (nth_lookup_Some _ _ _ _ Hx).
Qed.

(** The units completed by packet [p]. *)
Definition completes (p : pkt) : list (list Z) :=
  match p with
  | PWhole _ us => us
  | PFrag hdr parts j => if negb (is_start j) && is_end parts j then [hdr ++ concat parts] else []
  end.

Lemma completes_units its :
  (forall hdr parts, Fragmented hdr parts ∈ its -> (2 <= length parts)%nat) ->
  concat (map completes (packets its)) = concat (map item_units its).
Proof.
  induction its as [|it its IH]; intros H2; [done|].
  change (packets (it :: its)) with (packets_of it ++ packets its). rewrite map_app, concat_app, IH by set_solver.
  cbn [map concat]. f_equal. destruct it as [pl us|hdr parts]; simpl; [by rewrite app_nil_r|].
  specialize (H2 hdr parts ltac:(set_solver)). rewrite map_map.
  destruct parts as [|x parts' _] using rev_ind; [simpl in H2; lia|].
  rewrite length_app in H2 |- *. simpl in H2 |- *. rewrite seq_app, map_app, concat_app.
  assert (forall n k, (n + k <= length parts')%nat ->
            concat (map (fun j => completes (PFrag hdr (parts' ++ [x]) j)) (seq n k)) = []) as H0.
  { intros n k. revert n. induction k as [|k IHk]; intros n Hn; cbn [seq map concat]; [done|].
    rewrite IHk by lia. cbn [completes]. unfold is_end. rewrite length_app. cbn [length].
    rewrite (proj2 (Nat.eqb_neq _ _)) by lia. by rewrite andb_false_r. }
  rewrite H0 by lia. cbn [seq map concat app completes]. unfold is_start, is_end. rewrite length_app. cbn [length].
  rewrite (proj2 (Nat.eqb_neq _ 0)), (proj2 (Nat.eqb_eq _ _)) by lia. done.
Qed.
(** ** Integrity under loss, repetition and reordering *)

Section receiver.
Context {D E : Type} `{NalReceiver D E}.
Context (base : Z) (items : list item).
Context (Hwf : Forall nr_wf (packets items)).

(** The number of packet [i] on the wire. *)
Definition wire_seq (i : nat) : Z := u16 (base + Z.of_nat i).

(** The fragments held after packet [li] was the last one received: none, or
    the first parts of a unit, up to [li] if [li] is a part at all. *)
Definition holds (li : nat) (fr : list (list Z)) : Prop :=
  fr = [] \/ exists hdr parts c, (1 <= c)%nat /\ fr = hdr :: take c parts /\
    (packets items !! li = Some (PFrag hdr parts (c - 1)) \/
     exists pl us, packets items !! li = Some (PWhole pl us)).

Lemma holds_step li i p fr fr' out :
  in_window (Z.of_nat i) (Z.of_nat li) -> packets items !! i = Some p ->
  holds li fr -> recv_spec p (sequenceDistance (wire_seq i) (wire_seq li)) fr fr' out ->
  holds i fr' /\ Forall (fun u => u ∈ units_of p) out.
Proof.
  intros Hw Hp Hh Hr.
  assert (sequenceDistance (wire_seq i) (wire_seq li) = Z.of_nat i - Z.of_nat li) as Hd.
  { unfold wire_seq. rewrite sequenceDistance_window; [lia|]. unfold in_window in *. lia. }
  rewrite Hd in Hr. clear Hd. destruct p as [pl us|hdr parts j]; simpl in Hr.
  { destruct Hr as [[-> | ->] ->]; (split; [|rewrite Forall_forall; simpl; done]); [|by left].
    destruct Hh as [->|(h & ps & c & Hc & -> & _)]; [by left|]. right. exists h, ps, c. eauto 6. }
  pose proof (packets_part _ _ _ _ _ Hp) as Hj.
  unfold is_start, is_end in Hr. destruct Hr as [fr|fr Hs Hor|fr Hs He|fr Hs He Hne Hg|fr Hs He Hne Hg].
  - split; [by left|constructor].
  - split; [|constructor]. destruct Hor as [->|Hg]; [by left|].
    assert (i = li) as -> by lia. done.
  - apply Nat.eqb_eq in Hs as ->. split; [|constructor]. right. exists hdr, parts, 1%nat.
    split; [lia|]. split; [|by left]. rewrite concat_take_nth by done. done.
  - destruct j as [|j]; [done|]. destruct (packets_prev _ _ _ _ _ Hp) as (i' & -> & Hprev).
    assert (i' = li) as -> by lia. destruct Hh as [->|(h & ps & c & Hc & -> & Hl)]; [done|].
    destruct Hl as [Hl|(pl & us & Hl)]; rewrite Hprev in Hl; [|done]. injection Hl as <- <- Hjc.
    split; [|constructor]. right. exists hdr, parts, (S c). split; [lia|]. split; [|left; rewrite Hp; do 2 f_equal; lia].
    simpl app. f_equal. rewrite concat_take_nth by lia. do 3 f_equal. lia.
  - destruct j as [|j]; [done|]. destruct (packets_prev _ _ _ _ _ Hp) as (i' & -> & Hprev).
    assert (i' = li) as -> by lia. destruct Hh as [->|(h & ps & c & Hc & -> & Hl)]; [done|].
    destruct Hl as [Hl|(pl & us & Hl)]; rewrite Hprev in Hl; [|done]. injection Hl as <- <- Hjc.
    split; [by left|]. apply Nat.eqb_eq in He. apply Forall_singleton, list_elem_of_singleton.
    simpl. f_equal. replace (S j) with c by lia. rewrite <- concat_take_nth by lia.
    by rewrite take_ge by lia.
Qed.

(** The network: indices of sent packets with clock readings. *)
Definition network : Type := list (nat * Z * Z).
Definition received (net : network) : list delivery :=
  map (fun x => {| dl_payload := match packets items !! x.1.1 with Some p => nr_payload p | None => [] end;
                   dl_seq := wire_seq x.1.1; dl_now := x.1.2; dl_now' := x.2 |}) net.

(** Every packet delivered was sent, and two packets delivered one after the
    other are less than half the sequence space apart. *)
Fixpoint plausible (prev : nat) (net : network) : Prop :=
  match net with
  | [] => True
  | x :: net => (x.1.1 < length (packets items))%nat /\ in_window (Z.of_nat x.1.1) (Z.of_nat prev) /\ plausible x.1.1 net
  end.

Lemma unit_sent i p u :
  packets items !! i = Some p -> u ∈ units_of p -> exists it, it ∈ items /\ u ∈ item_units it.
Proof.
  intros Hp Hu. apply list_elem_of_lookup_2 in Hp. unfold packets in Hp.
  apply list_elem_of_In, in_concat in Hp as (l & Hl & Hpl).
  apply in_map_iff in Hl as (it & <- & Hit). exists it. split; [by apply list_elem_of_In|].
  destruct it as [pl us|h ps]; simpl in *.
  - destruct Hpl as [<-|[]]. done.
  - apply in_map_iff in Hpl as (k & <- & _). done.
Qed.

(** A call that succeeds, with units that were sent. *)
Definition delivers (r : exn E (list (list Z))) : Prop :=
  exists us, r = Val us /\ Forall (fun u => exists it, it ∈ items /\ u ∈ item_units it) us.

Lemma delivers_sent i p us :
  packets items !! i = Some p -> Forall (fun u => u ∈ units_of p) us -> delivers (Val us).
Proof. intros Hp Hus. exists us. split; [done|]. eapply Forall_impl; [exact Hus|]. intros u Hu. by apply (unit_sent i p). Qed.

Lemma integrity_run li net d :
  nr_inv d -> nr_last d = wire_seq li -> holds li (nr_frags d) -> plausible li net ->
  exists d' rs, nr_results (received net) d = Ret (d', rs) /\ nr_inv d' /\ Forall delivers rs.
Proof.
  revert li d. induction net as [|[[i t] t'] net IH]; intros li d Hinv Hlast Hh Hpl.
  { exists d, []. split_and!; [done|done|constructor]. }
  destruct Hpl as (Hi & Hw & Hpl). simpl in Hi, Hw, Hpl.
  destruct (lookup_lt_is_Some_2 _ _ Hi) as [p Hp]. cbn [received map nr_results dl_payload dl_seq dl_now dl_now' fst snd].
  rewrite Hp. pose proof (Forall_lookup_1 _ _ _ _ Hwf Hp) as Hwfp.
  destruct (nr_spec d (wire_seq i) t t' p Hinv ltac:(apply u16_range) Hwfp) as (d1 & out1 & -> & Hinv1 & Hlast1 & Hspec).
  rewrite bind_Ret. rewrite Hlast in Hspec. destruct (holds_step _ _ _ _ _ _ Hw Hp Hh Hspec) as [Hh1 Hout1].
  destruct (IH i d1 Hinv1 Hlast1 Hh1 Hpl) as (d' & rs & Hrun & Hinv' & Hout).
  unfold received in Hrun. rewrite Hrun, bind_Ret. eexists _, _. split; [reflexivity|]. split; [done|].
  apply Forall_cons. split; [|done]. by apply (delivers_sent i p).
Qed.

(** The first packet of a receiver that holds nothing. *)
Lemma holds_first i p gap fr' out :
  packets items !! i = Some p -> recv_spec p gap [] fr' out ->
  holds i fr' /\ Forall (fun u => u ∈ units_of p) out.
Proof.
  intros Hp Hr. destruct p as [pl us|hdr parts j]; simpl in Hr.
  { destruct Hr as [[-> | ->] ->]; (split; [by left|rewrite Forall_forall; simpl; done]). }
  pose proof (packets_part _ _ _ _ _ Hp) as Hj. unfold is_start, is_end in Hr.
  remember (@nil (list Z)) as fr0 eqn:E0.
  destruct Hr as [fr|fr Hs Hor|fr Hs He|fr Hs He Hne Hg|fr Hs He Hne Hg]; subst; try done.
  - split; [by left|constructor].
  - split; [by left|constructor].
  - apply Nat.eqb_eq in Hs as ->. split; [|constructor]. right. exists hdr, parts, 1%nat.
    split; [lia|]. split; [|by left]. rewrite concat_take_nth by done. done.
Qed.

(** From a receiver that holds nothing, whatever the network does, only units
    that were sent come out. *)
Definition plausible_from (net : network) : Prop :=
  match net with
  | [] => True
  | x :: net' => (x.1.1 < length (packets items))%nat /\ plausible x.1.1 net'
  end.

Lemma integrity_results net d :
  nr_inv d -> nr_frags d = [] -> plausible_from net ->
  exists d' rs, nr_results (received net) d = Ret (d', rs) /\ Forall delivers rs.
Proof.
  intros Hinv Hfr Hpl. destruct net as [|[[i t] t'] net]; [exists d, []; split; [done|constructor]|].
  destruct Hpl as [Hi Hpl]. simpl in Hi, Hpl. destruct (lookup_lt_is_Some_2 _ _ Hi) as [p Hp].
  cbn [received map nr_results dl_payload dl_seq dl_now dl_now' fst snd]. rewrite Hp.
  pose proof (Forall_lookup_1 _ _ _ _ Hwf Hp) as Hwfp.
  destruct (nr_spec d (wire_seq i) t t' p Hinv ltac:(apply u16_range) Hwfp) as (d1 & out1 & -> & Hinv1 & Hlast1 & Hspec).
  rewrite bind_Ret. rewrite Hfr in Hspec. destruct (holds_first _ _ _ _ _ Hp Hspec) as [Hh1 Hout1].
  destruct (integrity_run i net d1 Hinv1 Hlast1 Hh1 Hpl) as (d' & rs & Hrun & _ & Hout).
  unfold received in Hrun. rewrite Hrun, bind_Ret. eexists _, _. split; [reflexivity|].
  apply Forall_cons. split; [|done]. by apply (delivers_sent i p).
Qed.

Lemma integrity_fresh net d :
  nr_inv d -> nr_frags d = [] -> plausible_from net ->
  exists d' out, nr_run (received net) d = Ret (d', out) /\
    Forall (fun u => exists it, it ∈ items /\ u ∈ item_units it) out.
Proof.
  intros Hinv Hfr Hpl. destruct (integrity_results net d Hinv Hfr Hpl) as (d' & rs & Hrun & Hrs).
  exists d', (concat (map result_units rs)). split; [by apply nr_run_results|].
  clear Hrun. induction Hrs as [|r rs (us & -> & Hus) _ IH]; [constructor|]. simpl. by apply Forall_app.
Qed.

(** Whatever is received, the invariant stays. *)
Lemma received_inv net d d' out :
  nr_inv d -> Forall (fun x => (x.1.1 < length (packets items))%nat) net -> nr_run (received net) d = Ret (d', out) -> nr_inv d'.
Proof.
  intros Hinv Hn. revert d out Hinv. induction Hn as [|[[i t] t'] net Hi Hn IH]; intros d out Hinv; [by intros [= <- _]|].
  cbn [fst] in Hi. destruct (lookup_lt_is_Some_2 _ _ Hi) as [p Hp].
  cbn [received map nr_run dl_payload dl_seq dl_now dl_now' fst snd]. rewrite Hp.
  destruct (nr_spec d (wire_seq i) t t' p Hinv ltac:(apply u16_range) (Forall_lookup_1 _ _ _ _ Hwf Hp)) as (d1 & out1 & -> & Hinv1 & _).
  rewrite bind_Ret. intros Hr. apply bind_Ret_inv in Hr as ([d2 out2] & Hr & [= <- _]). by apply (IH d1 out2).
Qed.

(** ** Completeness without loss *)

Context (Hfits : Forall nr_fits (packets items)).

(** Packets [i .. i+n-1] in order, with clock readings in [lo, hi]. *)
Definition timely (lo hi : Z) (ts : list (Z * Z)) : Prop :=
  Forall (fun t => lo <= t.1 <= hi /\ lo <= t.2 <= hi) ts.
Definition in_order (i : nat) (ts : list (Z * Z)) : network :=
  zip_with (fun k t => (k, t.1, t.2)) (seq i (length ts)) ts.

(** What is held before packet [i] of a loss-free reception. *)
Definition expects (i : nat) (fr : list (list Z)) : Prop :=
  match packets items !! i with
  | Some (PFrag hdr parts (S j)) => fr = hdr :: take (S j) parts
  | _ => True
  end.

Lemma exact_step i p fr fr' out :
  packets items !! i = Some p -> expects i fr -> recv_exact p fr fr' out ->
  out = completes p /\ expects (S i) fr'.
Proof.
  intros Hp He Hr. unfold expects in *. rewrite Hp in He.
  assert (forall hdr parts k, packets items !! S i = Some (PFrag hdr parts (S k)) -> p = PFrag hdr parts k) as Hnext.
  { intros hdr parts k Hk. destruct (packets_prev _ _ _ _ _ Hk) as (i' & [= <-] & Hq). congruence. }
  destruct p as [pl us|hdr parts j]; cbn [recv_exact completes] in *.
  - subst out. split; [done|].
    destruct (packets items !! S i) as [[|h ps [|k]]|] eqn:E2; try done. by specialize (Hnext _ _ _ eq_refl).
  - pose proof (packets_part _ _ _ _ _ Hp) as Hj.
    destruct j as [|j]; [change (is_start 0) with true in * |change (is_start (S j)) with false in *]; cbn [negb andb] in *.
    + destruct Hr as [-> ->]. split; [done|].
      destruct (packets items !! S i) as [[|h ps [|k]]|] eqn:E2; try done.
      specialize (Hnext _ _ _ eq_refl). injection Hnext as -> -> <-. by rewrite concat_take_nth by done.
    + subst fr. assert (is_end parts (S j) = true <-> S (S j) = length parts) as Hie by apply Nat.eqb_eq.
      destruct (is_end parts (S j)); [pose proof (proj1 Hie eq_refl) as Hend|].
      * destruct Hr as [-> ->]. split.
        { simpl. do 2 f_equal. rewrite <- concat_take_nth by done. by rewrite take_ge by lia. }
        destruct (packets items !! S i) as [[|h ps [|k]]|] eqn:E2; try done.
        specialize (Hnext _ _ _ eq_refl). injection Hnext as -> -> <-.
        apply packets_part in E2. lia.
      * destruct Hr as [-> ->]. split; [done|].
        destruct (packets items !! S i) as [[|h ps [|k]]|] eqn:E2; try done.
        specialize (Hnext _ _ _ eq_refl). injection Hnext as -> -> <-. simpl.
        by rewrite (concat_take_nth ps (S j)) by done.
Qed.

Lemma exact_run lo hi i ts d :
  nr_inv d -> nr_ready lo hi d -> timely lo hi ts -> (i + length ts = length (packets items))%nat ->
  expects i (nr_frags d) -> (i = 0%nat \/ nr_last d = wire_seq (i - 1)) ->
  exists d', nr_run (received (in_order i ts)) d =
    Ret (d', concat (map completes (drop i (packets items)))) /\ nr_inv d' /\ nr_ready lo hi d'.
Proof.
  revert i d. induction ts as [|[t t'] ts IH]; intros i d Hinv Hready Ht Hlen He Hlast.
  { exists d. split; [|done]. simpl in *. by rewrite drop_ge by lia. }
  apply Forall_cons in Ht as [[Ht1 Ht2] Ht]. simpl in Hlen, Ht1, Ht2.
  destruct (lookup_lt_is_Some_2 (packets items) i) as [p Hp]; [lia|].
  unfold in_order. cbn [length seq zip_with received map nr_run dl_payload dl_seq dl_now dl_now' fst snd]. rewrite Hp.
  pose proof (Forall_lookup_1 _ _ _ _ Hwf Hp) as Hwfp. pose proof (Forall_lookup_1 _ _ _ _ Hfits Hp) as Hfp.
  destruct (nr_spec d (wire_seq i) t t' p Hinv ltac:(apply u16_range) Hwfp) as (d1 & out1 & Hr & Hinv1 & Hlast1 & _).
  destruct (nr_exact d (wire_seq i) t t' lo hi p d1 out1 Hinv ltac:(apply u16_range) Hwfp Hfp Hready Ht1 Ht2) as [Hex Hready1];
    [|done|].
  { destruct p as [|hdr parts [|j]]; try done. unfold expects in He. rewrite Hp in He. split; [done|].
    destruct (packets_prev _ _ _ _ _ Hp) as (i' & -> & _). destruct Hlast as [?| ->]; [done|].
    unfold wire_seq. rewrite sequenceDistance_window; unfold in_window; lia. }
  rewrite Hr, bind_Ret. destruct (exact_step i p _ _ _ Hp He Hex) as [-> He1].
  destruct (IH (S i) d1 Hinv1 Hready1 Ht ltac:(lia) He1) as (d' & Hrun & Hinv' & Hready').
  { right. rewrite Hlast1. f_equal. lia. }
  unfold received, in_order in Hrun. rewrite Hrun, bind_Ret. exists d'. split; [|done].
  rewrite (drop_S _ _ _ Hp). done.
Qed.

End receiver.
