(* ===== verification/H264.v ===== *)
(** * H.264 depacketizer (codec/h264_depacketizer.go)

    RFC 6184: single NAL unit packets, STAP-A aggregation and FU-A
    fragmentation.  [handleFUA] keeps the fragments of the unit in progress
    and drops them on any gap, timeout or size violation. *)

From S2P Require Import Prelude Serial Depacketizer.

(** ** State and errors (h264_depacketizer.go:17-35) *)

Record H264Depacketizer := mkH264 {
  fragments : list (list Z);
  lastSeq : Z;
  fuInProgress : bool;
  fragmentStartTime : Z;
  fragmentTimeout : Z
}.
#[export] Instance eta_H264 : Eta H264Depacketizer := fun d =>
  mkH264 (fragments d) (lastSeq d) (fuInProgress d) (fragmentStartTime d) (fragmentTimeout d).

Definition nalTypeSTAPA : Z := 24.
Definition nalTypeFUA : Z := 28.

Inductive h264_error : Type :=
| ErrTooShort
| ErrForbiddenBit
| ErrReserved (nalType : Z)
| ErrUnsupported (nalType : Z)
| ErrSTAPATruncated (offset : Z)
| ErrSTAPAZeroSize (offset : Z)
| ErrNALTooLarge (size : Z)
| ErrSTAPABounds (offset size : Z)
| ErrSTAPATooMany (count : Z).

(** ** STAP-A (h264_depacketizer.go:107-150) *)

(** The loop, one unit per iteration; every iteration advances [offset], so
    the payload's length bounds the iterations. *)
Fixpoint stapa_loop (fuel : nat) (payload : list Z) (offset : Z) (nalUnits : list (list Z))
    : res (exn h264_error (list (list Z))) :=
  match fuel with
  | O => NoFuel
  | S fuel =>
      if (offset <? len payload) && (len nalUnits <? 100) then
        if len payload <? offset + 2 then Ret (Err (ErrSTAPATruncated offset))
        else
          hi ← idx payload offset;
          lo ← idx payload (offset + 1);
          let nalSize := be16 hi lo in
          let offset := offset + 2 in
          if nalSize =? 0 then Ret (Err (ErrSTAPAZeroSize (offset - 2)))
          else if MaxNALUnitSize <? nalSize then Ret (Err (ErrNALTooLarge nalSize))
          else if len payload <? offset + nalSize then Ret (Err (ErrSTAPABounds offset nalSize))
          else
            nal ← slice payload offset (offset + nalSize);
            stapa_loop fuel payload (offset + nalSize) (nalUnits ++ [prependStartCode nal])
      else if 100 <=? len nalUnits then Ret (Err (ErrSTAPATooMany (len nalUnits)))
      else Ret (Val nalUnits)
  end.
Definition handleSTAPA (payload : list Z) : res (exn h264_error (list (list Z))) :=
  stapa_loop (S (length payload)) payload 1 [].

(** ** FU-A (h264_depacketizer.go:154-309) *)

(** The reset of the assembly: [fragments], [fuInProgress] and
    [fragmentStartTime] cleared. *)
Definition reset_fu (d : H264Depacketizer) : H264Depacketizer :=
  ((d <| fragments := [] |>) <| fuInProgress := false |>) <| fragmentStartTime := zero_time |>.

(** Adding the payload to the fragments (h264_depacketizer.go:248-276);
    [None] when the call returns early. *)
Definition add_fragment (fuPayload : list Z) (d : H264Depacketizer) : H264Depacketizer * bool :=
  if 0 <? len (fragments d) then
    if MaxNALUnitSize <? frag_size (fragments d) + len fuPayload then (reset_fu d, false)
    else
      let d := d <| fragments := fragments d ++ [fuPayload] |> in
      if 1000 <? len (fragments d) then (reset_fu d, false) else (d, true)
  else (d, true).

(** The end of the function (h264_depacketizer.go:278-308). *)
Definition finish_fu (endBit : bool) (seq : Z) (d : H264Depacketizer)
    : H264Depacketizer * option (list Z) :=
  if endBit && (0 <? len (fragments d)) then
    if MaxNALUnitSize <? frag_size (fragments d) then
      ((d <| fragments := [] |>) <| fragmentStartTime := zero_time |>, None)
    else
      let nalUnit := concat (fragments d) in
      let d := ((d <| fragments := [] |>) <| fragmentStartTime := zero_time |>) <| fuInProgress := false |> in
      (d <| lastSeq := seq |>, Some nalUnit)
  else (d <| lastSeq := seq |>, None).

(** The assembly proper (h264_depacketizer.go:197-308): timeout, start of a
    unit, gap check, addition and completion. *)
Definition assemble (now now' : Z) (startBit endBit : bool) (nalHeader : Z) (fuPayload : list Z)
    (seq : Z) (d : H264Depacketizer) : H264Depacketizer * option (list Z) :=
  let d :=
    if (0 <? fragmentTimeout d) && negb (is_zero_time (fragmentStartTime d)) &&
       (fragmentTimeout d <? time_sub now (fragmentStartTime d))
    then reset_fu d else d in
  let d :=
    if startBit then
      (((d <| fragments := [] |>) <| fragmentStartTime := now' |>) <| fuInProgress := true |>)
        <| fragments := [startCode ++ [nalHeader]] |>
    else d in
  let gap := sequenceDistance seq (lastSeq d) in
  let checked := fuInProgress d && negb startBit && (0 <? len (fragments d)) in
  if checked && (gap =? 0) then (d, None)
  else if checked && negb (gap =? 1) then (reset_fu d, None)
  else
    let '(d, ok) := add_fragment fuPayload d in
    if ok : bool then finish_fu endBit seq d else (d, None).

Definition handleFUA (now now' : Z) (payload : list Z) (seq : Z) (d : H264Depacketizer)
    : res (H264Depacketizer * option (list Z)) :=
  if len payload <? 2 then Ret (d, None)
  else
    fuIndicator ← idx payload 0;
    fuHeader ← idx payload 1;
    let startBit := negb (Z.land fuHeader 0x80 =? 0) in
    let endBit := negb (Z.land fuHeader 0x40 =? 0) in
    let nalType := Z.land fuHeader 0x1F in
    let nalHeader := Z.lor (Z.land fuIndicator 0xE0) nalType in
    if startBit && endBit then
      rest ← slice payload 2 (len payload);
      Ret (d <| lastSeq := seq |>, Some (startCode ++ [nalHeader] ++ rest))
    else if len payload <=? 2 then Ret (d, None)
    else
      fuPayload ← slice payload 2 (len payload);
      if MaxFragmentSize <? len fuPayload then Ret (reset_fu d, None)
      else Ret (assemble now now' startBit endBit nalHeader fuPayload seq d).

(** ** The packet handler (h264_depacketizer.go:38-104) *)
Definition Depacketize (now now' : Z) (payload : list Z) (seq : Z) (d : H264Depacketizer)
    : res (H264Depacketizer * exn h264_error (list (list Z))) :=
  if len payload <? 1 then Ret (d, Err ErrTooShort)
  else
    nalHeader ← idx payload 0;
    if negb (Z.land nalHeader 0x80 =? 0) then Ret (d, Err ErrForbiddenBit)
    else
      let nalType := Z.land nalHeader 0x1F in
      if (nalType =? 0) || (nalType =? 30) || (nalType =? 31) then Ret (d, Err (ErrReserved nalType))
      else if (1 <=? nalType) && (nalType <=? 23) then
        Ret (d <| lastSeq := seq |>, Val [prependStartCode payload])
      else if nalType =? nalTypeSTAPA then
        r ← handleSTAPA payload;
        match r with
        | Err e => Ret (d, Err e)
        | Val nalUnits => Ret (d <| lastSeq := seq |>, Val nalUnits)
        end
      else if nalType =? nalTypeFUA then
        '(d, r) ← handleFUA now now' payload seq d;
        let d := d <| lastSeq := seq |> in
        Ret (d, Val (match r with Some nalUnit => [nalUnit] | None => [] end))
      else Ret (d, Err (ErrUnsupported nalType)).

(** [Reset] (h264_depacketizer.go:330) keeps the last sequence number. *)
Definition Reset_ (d : H264Depacketizer) : H264Depacketizer := reset_fu d.

(** [GetNALType], [IsKeyFrame] (h264_depacketizer.go:339, 344) *)
Definition GetNALType (nalHeader : Z) : Z := Z.land nalHeader 0x1F.
Definition IsKeyFrame (nalType : Z) : bool := nalType =? 5.

(** The depacketizer [NewH264DepacketizerWithMemory] embeds. *)
Definition NewH264Depacketizer : H264Depacketizer :=
  {| fragments := []; lastSeq := 0; fuInProgress := false; fragmentStartTime := zero_time;
     fragmentTimeout := 5 * second |}.

(** ** Invariant *)

(** What the depacketizer holds: at most 1000 fragments of at most
    [MaxNALUnitSize] bytes in total, and only while an assembly is on. *)
Record h264_inv (d : H264Depacketizer) : Prop := {
  hi_progress : fragments d <> [] -> fuInProgress d = true;
  hi_size : frag_size (fragments d) <= MaxNALUnitSize;
  hi_count : len (fragments d) <= 1000;
  hi_seq : is_u16 (lastSeq d)
}.

Lemma h264_reset_fu_inv d : h264_inv d -> h264_inv (reset_fu d).
Proof. intros [? ? ? ?]. by constructor. Qed.

(** Adding to fragments that passed the gap check, then completing. *)
Lemma h264_add_finish_spec endBit seq part d :
  h264_inv d -> is_u16 seq -> fragments d <> [] ->
  let '(d', r) := (let '(d, ok) := add_fragment part d in
                   if ok : bool then finish_fu endBit seq d else (d, None)) in
  h264_inv d' /\ fragmentTimeout d' = fragmentTimeout d /\
  (frag_size (fragments d) + len part <= MaxNALUnitSize -> len (fragments d) < 1000 ->
     fragments d' = (if endBit then [] else fragments d ++ [part]) /\
     r = if endBit then Some (concat (fragments d ++ [part])) else None) /\
  ((fragments d' = [] /\ r = None) \/
   (fragments d' = [] /\ endBit = true /\ r = Some (concat (fragments d ++ [part])) /\
    len (concat (fragments d ++ [part])) <= MaxNALUnitSize) \/
   (fragments d' = fragments d ++ [part] /\ endBit = false /\ r = None)) /\
  (fragmentStartTime d' = fragmentStartTime d \/ fragmentStartTime d' = zero_time).
Proof.
  intros Hinv Hseq Hne. pose proof Hinv as [Hp Hs Hc Hq]. unfold add_fragment, finish_fu.
  rewrite (proj2 (len_pos_ne _) Hne).
  destruct (Z.ltb_spec MaxNALUnitSize (frag_size (fragments d) + len part)).
  { split; [by apply h264_reset_fu_inv|]. split; [done|]. split; [lia|]. split; [by left|by right]. }
  simpl. rewrite len_app. change (len [part]) with 1.
  destruct (Z.ltb_spec 1000 (len (fragments d) + 1)).
  { split; [by constructor|]. split; [done|]. split; [lia|]. split; [by left|by right]. }
  simpl. rewrite frag_size_app, ?len_app. change (len [part]) with 1. rewrite (proj2 (Z.ltb_ge MaxNALUnitSize _)) by lia.
  assert ((0 <? len (fragments d) + 1) = true) as -> by (pose proof (len_nonneg (fragments d)); lia).
  rewrite andb_true_r. destruct endBit; simpl.
  - split; [by constructor|]. split; [done|]. split; [done|]. split; [|by right]. right. left.
    split; [done|]. split; [done|]. split; [done|]. rewrite <- frag_size_concat, frag_size_app. lia.
  - split; [constructor; simpl; rewrite ?frag_size_app, ?len_app; try done; try lia; by intros _; apply Hp|].
    split; [done|]. split; [done|]. split; [|by left]. by right; right.
Qed.

Lemma h264_assemble_spec now now' startBit endBit h part seq d :
  h264_inv d -> is_u16 seq -> startBit && endBit = false ->
  let '(d', r) := assemble now now' startBit endBit h part seq d in
  h264_inv d' /\ fragmentTimeout d' = fragmentTimeout d /\
  fu_step (startCode ++ [h]) part startBit endBit (sequenceDistance seq (lastSeq d))
    (fragments d) (fragments d') (option_list r) /\
  (forall nal, r = Some nal -> len nal <= MaxNALUnitSize).
Proof.
  intros Hinv Hseq Hse. unfold assemble.
  set (d1 := if _ && _ then reset_fu d else d).
  assert (h264_inv d1 /\ fragmentTimeout d1 = fragmentTimeout d /\ lastSeq d1 = lastSeq d /\
          (fragments d1 = fragments d \/ fragments d1 = [])) as (Hinv1 & Ht1 & Hl1 & Hf1).
  { unfold d1. case_bool; [|by auto]. split; [by apply h264_reset_fu_inv|auto]. }
  clearbody d1. destruct startBit; cbv zeta.
  - destruct endBit; [done|]. rewrite andb_false_r. simpl.
    match goal with |- context [add_fragment part ?x] => set (d2 := x) end.
    assert (h264_inv d2) as Hinv2 by (constructor; simpl; try done; apply Hinv1).
    pose proof (h264_add_finish_spec false seq part d2 Hinv2 Hseq ltac:(done)) as Hs.
    destruct (let '(d, ok) := add_fragment part d2 in _) as [d' r].
    destruct Hs as (Hinv' & Ht' & _ & Hcase & _). split; [done|]. split; [by rewrite Ht'|].
    destruct Hcase as [[-> ->]|[(_ & ? & _)|(-> & _ & ->)]]; [|done|].
    + split; [constructor|done].
    + split; [by constructor|done].
  - rewrite andb_true_r, Hl1. destruct (fragments d1) as [|f fr] eqn:Ef.
    + change (0 <? len (@nil (list Z))) with false. rewrite andb_false_r. cbn [andb].
      unfold add_fragment. rewrite Ef. change (0 <? len (@nil (list Z))) with false. cbv iota beta.
      unfold finish_fu. rewrite Ef. change (0 <? len (@nil (list Z))) with false. rewrite andb_false_r.
      split; [destruct Hinv1; by constructor|]. split; [done|]. simpl. rewrite Ef. split; [constructor|done].
    + destruct Hf1 as [Hf1|Hf1]; [|congruence]. rewrite <- Ef in *.
      assert (fragments d1 <> []) as Hne by (rewrite Ef; done).
      rewrite (hi_progress _ Hinv1 Hne), (proj2 (len_pos_ne _) Hne). simpl.
      destruct (Z.eqb_spec (sequenceDistance seq (lastSeq d)) 0) as [Hg|Hg]; simpl.
      { split; [done|]. split; [done|]. rewrite Hf1. split; [by constructor; auto|done]. }
      destruct (Z.eqb_spec (sequenceDistance seq (lastSeq d)) 1) as [Hg1|Hg1]; simpl.
      * pose proof (h264_add_finish_spec endBit seq part d1 Hinv1 Hseq Hne) as Hs.
        destruct (let '(d, ok) := add_fragment part d1 in _) as [d' r].
        destruct Hs as (Hinv' & Ht' & _ & Hcase & _). split; [done|]. split; [congruence|].
        rewrite Hf1 in *. destruct Hcase as [[-> ->]|[(-> & -> & -> & Hlen)|(-> & -> & ->)]].
        -- split; [constructor|done].
        -- split; [by constructor|]. by intros nal [= <-].
        -- split; [by constructor|done].
      * split; [by apply h264_reset_fu_inv|]. split; [done|]. split; [constructor|done].
Qed.

(** The step when neither time nor size interferes. *)
Lemma h264_assemble_exact now now' startBit endBit h part seq d :
  h264_inv d -> is_u16 seq -> startBit && endBit = false ->
  (fragmentTimeout d <= 0 \/ fragmentStartTime d = 0 \/ now - fragmentStartTime d <= fragmentTimeout d) ->
  (startBit = false -> fragments d <> [] /\ sequenceDistance seq (lastSeq d) = 1) ->
  (let held := if startBit then [startCode ++ [h]] else fragments d in
   frag_size held + len part <= MaxNALUnitSize /\ len held < 1000) ->
  let '(d', r) := assemble now now' startBit endBit h part seq d in
  (if startBit then fragments d' = [startCode ++ [h]; part] /\ r = None
   else if endBit then fragments d' = [] /\ r = Some (concat (fragments d ++ [part]))
   else fragments d' = fragments d ++ [part] /\ r = None) /\
  (fragmentStartTime d' = 0 \/ fragmentStartTime d' = (if startBit then now' else fragmentStartTime d)).
Proof.
  intros Hinv Hseq Hse Htime Hcont Hfit. unfold assemble.
  replace (_ && _ && (fragmentTimeout d <? time_sub now (fragmentStartTime d))) with false; cycle 1.
  { symmetry. destruct Htime as [?|[->|?]].
    - by rewrite (proj2 (Z.ltb_ge 0 _)) by lia.
    - by rewrite andb_false_r.
    - destruct (Z.ltb_spec 0 (fragmentTimeout d)); [|done].
      rewrite (proj2 (Z.ltb_ge (fragmentTimeout d) _)); [apply andb_false_r|]. unfold time_sub, min_i64, max_i64 in *. lia. }
  destruct startBit; cbv zeta in Hfit |- *.
  - destruct endBit; [done|]. rewrite andb_false_r. simpl.
    match goal with |- context [add_fragment part ?x] => set (d2 := x) end.
    assert (h264_inv d2) as Hinv2 by (constructor; simpl; try done; apply Hinv).
    pose proof (h264_add_finish_spec false seq part d2 Hinv2 Hseq ltac:(done)) as Hs.
    destruct (let '(d, ok) := add_fragment part d2 in _) as [d' r].
    destruct Hs as (_ & _ & Hex & _ & Hst). destruct (Hex ltac:(apply Hfit) ltac:(apply Hfit)) as [-> ->].
    split; [done|]. simpl in Hst. destruct Hst; auto.
  - destruct (Hcont eq_refl) as [Hne Hg]. rewrite Hg.
    rewrite (hi_progress _ Hinv Hne), (proj2 (len_pos_ne _) Hne). simpl.
    pose proof (h264_add_finish_spec endBit seq part d Hinv Hseq Hne) as Hs.
    destruct (let '(d, ok) := add_fragment part d in _) as [d' r].
    destruct Hs as (_ & _ & Hex & _ & Hst). destruct (Hex ltac:(apply Hfit) ltac:(apply Hfit)) as [-> ->].
    split; [by destruct endBit|]. destruct Hst; auto.
Qed.


(** Any FU-A payload: no panic, the invariant, the bound on what is made. *)
Lemma handleFUA_total now now' payload seq d :
  h264_inv d -> is_u16 seq ->
  exists d' r, handleFUA now now' payload seq d = Ret (d', r) /\ h264_inv d' /\
    (forall nal, r = Some nal -> len nal <= Z.max MaxNALUnitSize (len payload + 3)).
Proof.
  intros Hinv Hseq. unfold handleFUA. pose proof (len_nonneg payload).
  destruct (Z.ltb_spec (len payload) 2); [by eexists _, _|].
  rewrite !idx_nth, !bind_Ret by lia. cbv zeta.
  match goal with |- context [if ?s && ?e then _ else _] => destruct (s && e) eqn:Hse end.
  - rewrite slice_Ret, bind_Ret by lia. set (u := startCode ++ _).
    assert (len u = len payload + 3) as Hu.
    { unfold u. pose proof (len_dropZ 2 payload ltac:(lia)). rewrite !len_app, len_cons, len_nil, takeZ_all by lia.
      change (len startCode) with 4. lia. }
    clearbody u. eexists _, _. split; [reflexivity|]. split; [by destruct Hinv|]. intros nal [= <-]. lia.
  - destruct (Z.leb_spec (len payload) 2); [by eexists _, _|].
    rewrite slice_Ret, bind_Ret by lia. case_bool.
    + eexists _, _. split; [reflexivity|]. split; [by apply h264_reset_fu_inv|done].
    + match goal with |- context [assemble now now' ?s ?e ?h ?p seq d] =>
        pose proof (h264_assemble_spec now now' s e h p seq d Hinv Hseq Hse) as Ha;
        destruct (assemble now now' s e h p seq d) as [d' r] end.
      destruct Ha as (Hinv' & _ & _ & Hlen). eexists _, _. split; [reflexivity|]. split; [done|].
      intros nal ->. specialize (Hlen nal eq_refl). lia.
Qed.

(** *** STAP-A *)


Lemma stapa_total fuel payload offset acc :
  Forall is_byte payload -> 0 <= offset <= len payload -> len payload - offset < Z.of_nat fuel ->
  Forall (fun n => len n <= len payload + 4) acc ->
  exists r, stapa_loop fuel payload offset acc = Ret r /\
    (forall us, r = Val us -> Forall (fun n => len n <= len payload + 4) us /\ len us < 100).
Proof.
  intros Hb. revert offset acc. induction fuel as [|fuel IH]; intros offset acc Ho Hf Hacc; [lia|].
  cbn [stapa_loop]. destruct ((offset <? len payload) && (len acc <? 100)) eqn:Hc.
  - zbool. case_bool; [by eexists|]. rewrite !idx_nth, !bind_Ret by lia. cbv zeta.
    set (n := be16 _ _). assert (0 <= n) as Hn.
    { unfold n, be16. pose proof (nth_byte payload (Z.to_nat offset) Hb).
      pose proof (nth_byte payload (Z.to_nat (offset + 1)) Hb). unfold is_byte in *. lia. }
    clearbody n. destruct (Z.eqb_spec n 0); [by eexists|]. case_bool; [by eexists|]. case_bool; [by eexists|].
    rewrite slice_Ret, bind_Ret by lia. apply IH; [lia|lia|].
    apply Forall_app. split; [done|]. apply Forall_singleton. unfold prependStartCode.
    pose proof (len_dropZ (offset + 2) payload ltac:(lia)).
    rewrite len_app, len_takeZ by lia. change (len startCode) with 4. lia.
  - case_bool; [by eexists|]. eexists. split; [reflexivity|]. intros us [= <-]. split; [done|lia].
Qed.


(** The loop reads back aggregated units. *)
Lemma stapa_aggregate fuel pre nals acc :
  Forall (fun n => 1 <= len n < 2 ^ 16) nals -> (length nals < fuel)%nat -> len acc + len nals < 100 ->
  stapa_loop fuel (pre ++ aggregate nals) (len pre) acc = Ret (Val (acc ++ map prependStartCode nals)).
Proof.
  intros Hn. revert fuel pre acc. induction Hn as [|n nals Hn Hns IH]; intros fuel pre acc Hf Hc.
  - destruct fuel as [|fuel]; [simpl in Hf; lia|]. cbn [stapa_loop aggregate map concat]. rewrite !app_nil_r, Z.ltb_irrefl.
    change (len (@nil (list Z))) with 0 in Hc. cbn [andb]. by rewrite (proj2 (Z.leb_gt _ _)) by lia.
  - destruct fuel as [|fuel]; [simpl in Hf; lia|]. cbn [length] in Hf. rewrite len_cons in Hc.
    pose proof (len_nonneg acc). pose proof (len_nonneg nals). pose proof (len_nonneg pre).
    change (aggregate (n :: nals)) with (([len n / 256; len n mod 256] ++ n) ++ aggregate nals).
    set (rest := aggregate nals). pose proof (len_nonneg rest).
    assert (len (pre ++ ([len n / 256; len n mod 256] ++ n) ++ rest) = len pre + (2 + len n) + len rest) as Hlen
      by (rewrite !len_app; change (len [len n / 256; len n mod 256]) with 2; lia).
    assert (nth (Z.to_nat (len pre)) (pre ++ ([len n / 256; len n mod 256] ++ n) ++ rest) 0 = len n / 256) as Hhi.
    { rewrite app_nth2 by (unfold len; lia). replace (Z.to_nat (len pre) - length pre)%nat with 0%nat by (unfold len; lia). done. }
    assert (nth (Z.to_nat (len pre + 1)) (pre ++ ([len n / 256; len n mod 256] ++ n) ++ rest) 0 = len n mod 256) as Hlo.
    { rewrite app_nth2 by (unfold len; lia). replace (Z.to_nat (len pre + 1) - length pre)%nat with 1%nat by (unfold len; lia). done. }
    assert (takeZ (len n) (dropZ (len pre + 2) (pre ++ ([len n / 256; len n mod 256] ++ n) ++ rest)) = n) as Hbody.
    { rewrite dropZ_app_ge by lia. replace (len pre + 2 - len pre) with 2 by lia.
      change (dropZ 2 (([len n / 256; len n mod 256] ++ n) ++ rest)) with (n ++ rest).
      rewrite takeZ_app_le, takeZ_all by lia. done. }
    specialize (IH fuel (pre ++ [len n / 256; len n mod 256] ++ n) (acc ++ [prependStartCode n]) ltac:(lia)).
    fold rest in IH. rewrite <- app_assoc in IH.
    set (full := pre ++ ([len n / 256; len n mod 256] ++ n) ++ rest) in *.
    assert (len (pre ++ [len n / 256; len n mod 256] ++ n) = len pre + 2 + len n) as Hpre
      by (rewrite !len_app; change (len [len n / 256; len n mod 256]) with 2; lia).
    rewrite Hpre, len_app in IH. change (len [prependStartCode n]) with 1 in IH. specialize (IH ltac:(lia)).
    clearbody full. cbn [stapa_loop]. rewrite (proj2 (Z.ltb_lt _ _)), (proj2 (Z.ltb_lt (len acc) _)) by lia. cbn [andb].
    rewrite (proj2 (Z.ltb_ge _ _)) by lia. rewrite !idx_nth, !bind_Ret by lia.
    rewrite Hhi, Hlo, put_be16_spec by lia. cbv zeta.
    rewrite (proj2 (Z.eqb_neq (len n) 0)) by lia.
    rewrite (proj2 (Z.ltb_ge MaxNALUnitSize _)) by (unfold MaxNALUnitSize; lia).
    rewrite (proj2 (Z.ltb_ge _ _)) by lia. rewrite slice_Ret, bind_Ret by lia.
    replace (len pre + 2 + len n - (len pre + 2)) with (len n) by lia.
    rewrite Hbody, IH. by rewrite <- app_assoc.
Qed.

(** ** The sender *)

(** The packet carrying part [j] of a unit with header [h]: FU indicator, FU
    header with the start bit on the first and the end bit on the last part. *)
Definition fua_packet (h : Z) (parts : list (list Z)) (j : nat) : list Z :=
  [Z.lor (Z.land h 0xE0) 28;
   Z.lor (if is_start j then 0x80 else if is_end parts j then 0x40 else 0) (Z.land h 0x1F)] ++ nth j parts [].

Definition h264_payload (p : pkt) : list Z :=
  match p with PWhole pl _ => pl | PFrag hdr parts j => fua_packet (nth 4 hdr 0) parts j end.

(** Packets of RFC 6184: a single unit, an aggregation of fewer than 100
    units, a part of a unit cut in two or more. *)
Definition h264_wf (p : pkt) : Prop :=
  match p with
  | PWhole pl us =>
      (exists h t, pl = h :: t /\ is_byte h /\ Z.land h 0x80 = 0 /\ 1 <= Z.land h 0x1F <= 23 /\ us = [prependStartCode pl]) \/
      (exists h nals, pl = h :: aggregate nals /\ is_byte h /\ Z.land h 0x80 = 0 /\ Z.land h 0x1F = nalTypeSTAPA /\
         Forall (fun n => 1 <= len n < 2 ^ 16) nals /\ len nals < 100 /\ us = map prependStartCode nals)
  | PFrag hdr parts j =>
      exists h, hdr = startCode ++ [h] /\ 0 <= h < 128 /\ (2 <= length parts)%nat /\ (j < length parts)%nat /\
        Forall (fun x => 1 <= len x <= MaxFragmentSize) parts
  end.

Definition h264_fits (p : pkt) : Prop :=
  match p with
  | PWhole _ _ => True
  | PFrag hdr parts _ => len (hdr ++ concat parts) <= MaxNALUnitSize /\ len parts < 1000
  end.

(** The header bytes, over all values. *)
Definition fua_check (se h : Z) : bool :=
  let ind := Z.lor (Z.land h 0xE0) 28 in let fh := Z.lor se (Z.land h 0x1F) in
  (128 <=? h) || ((Z.land ind 0x80 =? 0) && (Z.land ind 0x1F =? 28) &&
    (Z.land fh 0x80 =? (if se =? 0x80 then 0x80 else 0)) &&
    (Z.land fh 0x40 =? (if se =? 0x40 then 0x40 else 0)) &&
    (Z.lor (Z.land ind 0xE0) (Z.land fh 0x1F) =? h)).

Lemma fua_bytes h se :
  0 <= h < 128 -> se = 0x80 \/ se = 0x40 \/ se = 0 ->
  let ind := Z.lor (Z.land h 0xE0) 28 in let fh := Z.lor se (Z.land h 0x1F) in
  Z.land ind 0x80 = 0 /\ Z.land ind 0x1F = 28 /\
  Z.land fh 0x80 = (if se =? 0x80 then 0x80 else 0) /\ Z.land fh 0x40 = (if se =? 0x40 then 0x40 else 0) /\
  Z.lor (Z.land ind 0xE0) (Z.land fh 0x1F) = h.
Proof.
  intros Hh Hse ind fh.
  assert (fua_check se h = true) as H.
  { apply byte_forall; [|unfold is_byte; lia]. destruct Hse as [->|[->| ->]]; vm_compute; reflexivity. }
  unfold fua_check in H. rewrite (proj2 (Z.leb_gt _ _)) in H by lia. simpl orb in H. zbool. auto.
Qed.

(** The code's view of a fragment packet. *)
Lemma handleFUA_fragment now now' h parts j seq d :
  0 <= h < 128 -> (2 <= length parts)%nat -> (j < length parts)%nat ->
  Forall (fun x => 1 <= len x <= MaxFragmentSize) parts ->
  handleFUA now now' (fua_packet h parts j) seq d =
    Ret (assemble now now' (is_start j) (is_end parts j) h (nth j parts []) seq d) /\
  is_start j && is_end parts j = false.
Proof.
  intros Hh H2 Hj Hp. assert (1 <= len (nth j parts []) <= MaxFragmentSize) as Hlen.
  { rewrite Forall_forall in Hp. apply Hp. apply list_elem_of_In, nth_In. lia. }
  assert (is_start j && is_end parts j = false) as Hse.
  { unfold is_start, is_end. destruct (Nat.eqb_spec j 0) as [->|]; [|done]. apply Nat.eqb_neq. lia. }
  split; [|done]. unfold handleFUA, fua_packet.
  set (se := if is_start j then 0x80 else if is_end parts j then 0x40 else 0).
  destruct (fua_bytes h se Hh) as (_ & _ & Hs & He & Hhd); [unfold se; destruct (is_start j), (is_end parts j); auto|].
  set (ind := Z.lor (Z.land h 0xE0) 28) in *. set (fh := Z.lor se (Z.land h 0x1F)) in *.
  set (part := nth j parts []) in *. rewrite len_app. change (len [ind; fh]) with 2.
  rewrite (proj2 (Z.ltb_ge _ _)) by lia. cbn [app]. rewrite !idx_nth, !bind_Ret by (rewrite !len_cons; lia).
  change (nth (Z.to_nat 0) (ind :: fh :: part) 0) with ind.
  change (nth (Z.to_nat 1) (ind :: fh :: part) 0) with fh. cbv zeta. rewrite Hs, He, Hhd.
  replace (negb ((if se =? 128 then 128 else 0) =? 0)) with (is_start j) by (unfold se; destruct (is_start j), (is_end parts j); done).
  replace (negb ((if se =? 64 then 64 else 0) =? 0)) with (negb (is_start j) && is_end parts j)
    by (unfold se; destruct (is_start j), (is_end parts j); done).
  replace (negb (is_start j) && is_end parts j) with (is_end parts j)
    by (destruct (is_start j), (is_end parts j); done).
  rewrite Hse. rewrite (proj2 (Z.leb_gt _ _)) by lia.
  rewrite slice_Ret, bind_Ret by (rewrite ?len_cons; lia).
  change (dropZ 2 (ind :: fh :: part)) with part. rewrite takeZ_all by lia.
  by rewrite (proj2 (Z.ltb_ge _ _)) by lia.
Qed.

Lemma h264_Depacketize_whole now now' pl us seq d :
  h264_wf (PWhole pl us) ->
  Depacketize now now' pl seq d = Ret (d <| lastSeq := seq |>, Val us).
Proof.
  intros [(h & t & -> & Hb & H80 & Ht & ->)|(h & nals & -> & Hb & H80 & Ht & Hn & Hc & ->)];
    unfold Depacketize; rewrite len_cons_lt1, idx_nth, bind_Ret by (rewrite len_cons; match goal with |- context [len ?l] => pose proof (len_nonneg l) end; lia).
  - change (nth (Z.to_nat 0) (h :: t) 0) with h. rewrite H80. cbv zeta. simpl negb.
    rewrite (proj2 (Z.eqb_neq _ 0)), (proj2 (Z.eqb_neq _ 30)), (proj2 (Z.eqb_neq _ 31)) by lia.
    by rewrite (proj2 (Z.leb_le 1 _)), (proj2 (Z.leb_le _ 23)) by lia.
  - change (nth (Z.to_nat 0) (h :: aggregate nals) 0) with h. rewrite H80, Ht. cbv zeta. simpl.
    pose proof (stapa_aggregate (S (length (h :: aggregate nals))) [h] nals [] Hn) as Hs.
    change (len [h]) with 1 in Hs. unfold handleSTAPA. cbn [app] in Hs. rewrite Hs; [done| |done].
    assert (length nals <= length (aggregate nals))%nat; [|simpl; lia].
    clear. unfold aggregate. induction nals as [|n nals IH]; simpl; [lia|]. rewrite !length_app. simpl in *. lia.
Qed.

Lemma h264_Depacketize_fragment now now' hdr parts j seq d :
  h264_wf (PFrag hdr parts j) ->
  exists h, hdr = startCode ++ [h] /\ is_start j && is_end parts j = false /\
    Depacketize now now' (h264_payload (PFrag hdr parts j)) seq d =
      (let '(d, r) := assemble now now' (is_start j) (is_end parts j) h (nth j parts []) seq d in
       Ret (d <| lastSeq := seq |>, Val (option_list r))).
Proof.
  intros (h & -> & Hh & H2 & Hj & Hp). exists h. split; [done|].
  destruct (handleFUA_fragment now now' h parts j seq d Hh H2 Hj Hp) as [Hf Hse]. split; [done|].
  change (h264_payload (PFrag (startCode ++ [h]) parts j)) with (fua_packet h parts j).
  unfold Depacketize. rewrite Hf. clear Hf.
  set (se := if is_start j then 0x80 else if is_end parts j then 0x40 else 0).
  destruct (fua_bytes h se Hh) as (H80 & H1F & _); [unfold se; destruct (is_start j), (is_end parts j); auto|].
  unfold fua_packet. fold se. cbn [app]. rewrite len_cons_lt1, idx_nth, bind_Ret
    by (rewrite !len_cons; pose proof (len_nonneg (nth j parts [])); lia).
  match goal with |- context [nth (Z.to_nat 0) (?a :: _) 0] =>
    change (nth (Z.to_nat 0) (a :: Z.lor se (Z.land h 0x1F) :: nth j parts []) 0) with a end.
  rewrite H80, H1F. simpl. destruct (assemble _ _ _ _ _ _ _ _) as [d' r]. done.
Qed.

Definition h264_ready (lo hi : Z) (d : H264Depacketizer) : Prop :=
  fragmentTimeout d <= 0 \/
  (hi - lo <= fragmentTimeout d /\ (fragmentStartTime d = 0 \/ lo <= fragmentStartTime d <= hi)).

#[export] Instance H264_receiver : NalReceiver H264Depacketizer h264_error.
Proof.
  refine {| nr_frags := fragments; nr_last := lastSeq; nr_inv := h264_inv; nr_ready := h264_ready;
            nr_recv := Depacketize; nr_payload := h264_payload; nr_wf := h264_wf; nr_fits := h264_fits |}.
  - intros d seq now now' p Hinv Hseq Hwf. destruct p as [pl us|hdr parts j].
    + simpl h264_payload. rewrite (h264_Depacketize_whole now now' pl us seq d Hwf). eexists _, _. split; [reflexivity|].
      split; [destruct Hinv; by constructor|]. split; [done|]. split; [by left|done].
    + destruct (h264_Depacketize_fragment now now' hdr parts j seq d Hwf) as (h & -> & Hse & ->).
      pose proof (h264_assemble_spec now now' (is_start j) (is_end parts j) h (nth j parts []) seq d Hinv Hseq Hse) as Ha.
      destruct (assemble _ _ _ _ _ _ _ _) as [d' r]. destruct Ha as (Hinv' & _ & Hstep & _).
      eexists _, _. split; [reflexivity|]. split; [destruct Hinv'; by constructor|]. done.
  - intros d seq now now' lo hi p d' out Hinv Hseq Hwf Hfits Hready Hnow Hnow' Hcont.
    destruct p as [pl us|hdr parts j].
    + simpl h264_payload. rewrite (h264_Depacketize_whole now now' pl us seq d Hwf). intros [= <- <-]. done.
    + pose proof Hwf as (h0 & _ & _ & H2 & Hj & Hp).
      destruct (h264_Depacketize_fragment now now' hdr parts j seq d Hwf) as (h & -> & Hse & ->). destruct Hfits as [Hf1 Hf2].
      pose proof (h264_assemble_spec now now' (is_start j) (is_end parts j) h (nth j parts []) seq d Hinv Hseq Hse) as Hsp.
      pose proof (h264_assemble_exact now now' (is_start j) (is_end parts j) h (nth j parts []) seq d Hinv Hseq Hse) as Ha.
      destruct (assemble _ _ _ _ _ _ _ _) as [d1 r]. destruct Hsp as (_ & Hto & _).
      intros [= <- <-]. simpl.
      assert (forall k, (k <= length parts)%nat -> len (startCode ++ [h]) + len (concat (take k parts)) <= MaxNALUnitSize /\
                len (take k parts) + 1 <= 1000) as Hpre.
      { intros k Hk. rewrite <- (take_drop k parts) in Hf1, Hf2. rewrite concat_app, !len_app in Hf1. rewrite len_app in Hf2.
        rewrite len_app. pose proof (len_nonneg (concat (drop k parts))). pose proof (len_nonneg (drop k parts)). lia. }
      assert (forall k, (k < length parts)%nat -> frag_size ((startCode ++ [h]) :: take k parts) + len (nth k parts []) <= MaxNALUnitSize /\
                len ((startCode ++ [h]) :: take k parts) < 1000) as Hfit.
      { intros k Hk. destruct (Hpre (S k) ltac:(lia)) as [Ha1 Ha2]. rewrite concat_take_nth in Ha1, Ha2 by done.
        rewrite concat_app, len_app in Ha1. rewrite len_app in Ha2. simpl concat in Ha1. rewrite app_nil_r in Ha1.
        rewrite frag_size_concat, len_cons.
        change (concat ((startCode ++ [h]) :: take k parts)) with ((startCode ++ [h]) ++ concat (take k parts)).
        rewrite !len_app in *. change (len [nth k parts []]) with 1 in Ha2. lia. }
      destruct Ha as [Ha Hst].
      * unfold h264_ready in Hready. destruct Hready as [?|[? [?|?]]]; [by left|right; by left|right; right; lia].
      * destruct j as [|j]; [done|]. intros _. destruct Hcont as [-> ->]. done.
      * destruct j as [|j]; cbv zeta; [apply (Hfit 0%nat); lia|]. destruct Hcont as [-> _].
        change (is_start (S j)) with false. cbv iota. apply (Hfit (S j)). lia.
      * split.
        { destruct j as [|j]; [change (is_start 0) with true in *; by destruct Ha as [-> ->]|].
          change (is_start (S j)) with false in *. destruct (is_end parts (S j)); destruct Ha as [-> ->]; done. }
        unfold h264_ready in *. simpl. rewrite Hto. destruct Hready as [?|[? Hr]]; [by left|]. right. split; [done|].
        destruct Hst as [->| ->]; [by left|]. destruct (is_start j); [right; lia|done].
Defined.

Lemma NewH264_inv : h264_inv NewH264Depacketizer.
Proof. by constructor. Qed.

(** The handler on any payload. *)
Lemma h264_Depacketize_total now now' payload seq d :
  h264_inv d -> is_u16 seq -> Forall is_byte payload ->
  exists d' r, Depacketize now now' payload seq d = Ret (d', r) /\ h264_inv d' /\
    (forall us, r = Val us ->
       lastSeq d' = seq /\ len us < 100 /\ Forall (fun u => len u <= Z.max MaxNALUnitSize (len payload + 4)) us) /\
    (forall e, r = Err e -> d' = d).
Proof.
  intros Hinv Hseq Hb. unfold Depacketize. pose proof (len_nonneg payload).
  destruct (Z.ltb_spec (len payload) 1); [by eexists _, _|].
  rewrite idx_nth, bind_Ret by lia. case_bool; [by eexists _, _|]. cbv zeta. case_bool; [by eexists _, _|].
  assert (h264_inv (d <| lastSeq := seq |>)) as Hinv1 by (destruct Hinv; by constructor).
  case_bool; [|case_bool; [|case_bool]].
  - eexists _, _. split; [reflexivity|]. split; [done|]. split; [|done]. intros us [= <-].
    split_and!; [done|by vm_compute|]. apply Forall_singleton. unfold prependStartCode. rewrite len_app.
    change (len startCode) with 4. lia.
  - destruct (stapa_total (S (length payload)) payload 1 [] Hb) as (r & Hr & Hus); [lia|unfold len; lia|constructor|].
    unfold handleSTAPA. rewrite Hr, bind_Ret. destruct r as [us|err]; (eexists _, _; split; [reflexivity|]); [|done].
    split; [done|]. split; [|done]. intros us' [= <-]. destruct (Hus us eq_refl) as [Hu Hc].
    split_and!; [done|done|]. eapply Forall_impl; [exact Hu|]. simpl. lia.
  - destruct (handleFUA_total now now' payload seq d Hinv Hseq) as (d' & r & -> & Hinv' & Hlen). rewrite bind_Ret.
    eexists _, _. split; [reflexivity|]. split; [destruct Hinv'; by constructor|]. split; [|done].
    intros us [= <-]. destruct r as [nal|]; (split_and!; [done|by vm_compute|]); [|constructor].
    apply Forall_singleton. specialize (Hlen nal eq_refl). lia.
  - by eexists _, _.
Qed.

(** ** Properties *)

(** completeness.  When the packets arrive in order and none is lost,
    within the five seconds of the fragment timeout, and every unit is within
    10 MB and 999 parts, the units handed out are exactly the units sent. *)
Theorem h264_lossless base items lo hi ts :
  Forall h264_wf (packets items) -> Forall h264_fits (packets items) ->
  (forall hdr parts, Fragmented hdr parts ∈ items -> (2 <= length parts)%nat) ->
  length ts = length (packets items) -> timely lo hi ts -> hi - lo <= 5 * second ->
  exists d', nr_run (received base items (in_order 0 ts)) NewH264Depacketizer =
    Ret (d', concat (map item_units items)).
Proof.
  intros Hwf Hf H2 Hlen Ht Hhi.
  destruct (@exact_run _ _ H264_receiver base items Hwf Hf lo hi 0 ts NewH264Depacketizer NewH264_inv) as (d' & Hrun & _);
    [right; simpl; split; [done|by left]|done|by rewrite Hlen| |by left|].
  - unfold expects. destruct (packets items !! 0%nat) as [[|h ps [|j]]|] eqn:E; try done.
    by destruct (packets_prev _ _ _ _ _ E) as (? & ? & _).
  - exists d'. rewrite Hrun. change (drop 0 (packets items)) with (packets items). by rewrite completes_units.
Qed.


(** safety on arbitrary input.  Whatever bytes a packet carries, in
    whatever state, the handler returns without panic; what it then holds is
    at most 1000 fragments of at most 10 MB together, and no unit it hands out
    is larger than that or than the packet itself with a start code. *)
Theorem h264_safe now now' payload seq d :
  h264_inv d -> is_u16 seq -> Forall is_byte payload ->
  exists d' r, Depacketize now now' payload seq d = Ret (d', r) /\ h264_inv d' /\
    (forall us, r = Val us ->
       lastSeq d' = seq /\ len us < 100 /\ Forall (fun u => len u <= Z.max MaxNALUnitSize (len payload + 4)) us) /\
    (forall e, r = Err e -> d' = d).
Proof. apply h264_Depacketize_total. Qed.

(** ** Witnesses *)

Definition sample_items : list item :=
  [Whole [0x67; 1] [startCode ++ [0x67; 1]];
   Fragmented (startCode ++ [0x65]) [[1; 2]; [3]; [4; 5]];
   Whole (24 :: aggregate [[0x68; 7]; [0x06; 9; 9]]) [startCode ++ [0x68; 7]; startCode ++ [0x06; 9; 9]]].

Lemma h264_sample_wf : Forall h264_wf (packets sample_items) /\ Forall h264_fits (packets sample_items).
Proof.
  assert (Forall (fun x => 1 <= len x <= MaxFragmentSize) [[1; 2]; [3]; [4; 5]]) as Hp.
  { repeat (apply Forall_cons; split; [by vm_compute|]). by apply Forall_nil. }
  split; unfold packets, sample_items; simpl; repeat (apply Forall_cons; split); try apply Forall_nil; try done.
  - left. exists 0x67, [1]. by vm_compute.
  - exists 0x65. by repeat (split; [done || (simpl; lia)|]).
  - exists 0x65. by repeat (split; [done || (simpl; lia)|]).
  - exists 0x65. by repeat (split; [done || (simpl; lia)|]).
  - right. exists 24, [[0x68; 7]; [0x06; 9; 9]]. repeat (split; [done || by vm_compute|]).
    split; [repeat (apply Forall_cons; split; [by vm_compute|]); by apply Forall_nil|done].
Qed.


Lemma h264_lossless_witness :
  exists d', nr_run (received 65534 sample_items (in_order 0 [(1, 1); (2, 2); (3, 3); (4, 4); (5, 5)])) NewH264Depacketizer
    = Ret (d', [startCode ++ [0x67; 1]; startCode ++ [0x65; 1; 2; 3; 4; 5]; startCode ++ [0x68; 7]; startCode ++ [0x06; 9; 9]]).
Proof.
  apply (h264_lossless 65534 sample_items 0 10 [(1, 1); (2, 2); (3, 3); (4, 4); (5, 5)] (proj1 h264_sample_wf) (proj2 h264_sample_wf)).
  - intros hdr parts Hin. unfold sample_items in Hin. set_unfold in Hin.
    destruct Hin as [?|[[= -> ->]|[?|[]]]]; [done|simpl; lia|done].
  - done.
  - repeat (apply Forall_cons; split; [simpl; lia|]). by apply Forall_nil.
  - unfold second. lia.
Defined.

Lemma h264_safe_witness :
  h264_inv NewH264Depacketizer /\
  exists d' r, Depacketize 1 1 [28; 0x85] 7 NewH264Depacketizer = Ret (d', r) /\ h264_inv d' /\ r = Val [].
Proof.
  split; [apply NewH264_inv|].
  destruct (h264_safe 1 1 [28; 0x85] 7 NewH264Depacketizer NewH264_inv) as (d' & r & Hr & Hinv & _);
    [by vm_compute|repeat (apply Forall_cons; split; [by vm_compute|]); by apply Forall_nil|].
  exists d', r. split; [exact Hr|]. split; [exact Hinv|]. vm_compute in Hr. by injection Hr as <- <-.
Defined.
