(* ===== verification/HEVC.v ===== *)
(** * HEVC depacketizer (codec/hevc_depacketizer.go)

    RFC 7798: single NAL unit packets, aggregation packets and fragmentation
    units, with two-byte unit headers.  There is no fragment timeout here. *)

From S2P Require Import Prelude Serial Depacketizer.

(** ** State and errors (hevc_depacketizer.go:15-29) *)

Record HEVCDepacketizer := mkHEVC {
  fragments : list (list Z);
  lastSeq : Z;
  fuInProgress : bool
}.
#[export] Instance eta_HEVC : Eta HEVCDepacketizer := fun d =>
  mkHEVC (fragments d) (lastSeq d) (fuInProgress d).

Definition nalTypeAP : Z := 48.
Definition nalTypeFU : Z := 49.

Inductive hevc_error : Type :=
| ErrTooShort
| ErrForbiddenBit
| ErrTemporalId
| ErrUnsupported (nalType : Z)
| ErrAPTruncated (offset : Z)
| ErrAPZeroSize (offset : Z)
| ErrNALTooLarge (size : Z)
| ErrAPBounds (offset size : Z)
| ErrAPNested (nalType : Z).

(** ** Aggregation packets (hevc_depacketizer.go:103-157) *)

(** The type of the nested unit, for units with a header
    (hevc_depacketizer.go:137-138). *)
Definition nested_type (payload : list Z) (offset nalSize : Z) : res Z :=
  if 2 <=? nalSize then b ← idx payload offset; Ret (Z.land (Z.shiftr b 1) 0x3F) else Ret 0.

Fixpoint ap_loop (fuel : nat) (payload : list Z) (offset : Z) (nalUnits : list (list Z))
    : res (exn hevc_error (list (list Z))) :=
  match fuel with
  | O => NoFuel
  | S fuel =>
      if offset <? len payload then
        if len payload <? offset + 2 then Ret (Err (ErrAPTruncated offset))
        else
          hi ← idx payload offset;
          lo ← idx payload (offset + 1);
          let nalSize := Z.lor (Z.shiftl hi 8) lo in
          let offset := offset + 2 in
          if nalSize =? 0 then Ret (Err (ErrAPZeroSize (offset - 2)))
          else if MaxNALUnitSize <? nalSize then Ret (Err (ErrNALTooLarge nalSize))
          else if len payload <? offset + nalSize then Ret (Err (ErrAPBounds offset nalSize))
          else
            nested ← nested_type payload offset nalSize;
            if (2 <=? nalSize) && (48 <=? nested) then Ret (Err (ErrAPNested nested))
            else
              nal ← slice payload offset (offset + nalSize);
              ap_loop fuel payload (offset + nalSize) (nalUnits ++ [[0; 0; 0; 1] ++ nal])
      else Ret (Val nalUnits)
  end.
Definition handleAggregationPacket (payload : list Z) : res (exn hevc_error (list (list Z))) :=
  ap_loop (S (length payload)) payload 0 [].

(** ** Fragmentation units (hevc_depacketizer.go:161-255) *)

Definition reset_fu (d : HEVCDepacketizer) : HEVCDepacketizer :=
  (d <| fragments := [] |>) <| fuInProgress := false |>.

(** (hevc_depacketizer.go:214-229) *)
Definition add_fragment (fuPayload : list Z) (d : HEVCDepacketizer) : HEVCDepacketizer * bool :=
  if 0 <? len (fragments d) then
    if MaxNALUnitSize <? frag_size (fragments d) + len fuPayload then (reset_fu d, false)
    else (d <| fragments := fragments d ++ [fuPayload] |>, true)
  else (d, true).

(** (hevc_depacketizer.go:231-254) *)
Definition finish_fu (endBit : bool) (d : HEVCDepacketizer) : HEVCDepacketizer * option (list Z) :=
  if endBit && (0 <? len (fragments d)) then
    if MaxNALUnitSize <? frag_size (fragments d) then (reset_fu d, None)
    else (reset_fu d, Some (concat (fragments d)))
  else (d, None).

(** The assembly proper (hevc_depacketizer.go:180-254). *)
Definition assemble (startBit endBit : bool) (h0 h1 : Z) (fuPayload : list Z) (seq : Z)
    (d : HEVCDepacketizer) : HEVCDepacketizer * option (list Z) :=
  let d :=
    if startBit then
      ((d <| fragments := [] |>) <| fuInProgress := true |>) <| fragments := [[0; 0; 0; 1; h0; h1]] |>
    else d in
  let gap := sequenceDistance seq (lastSeq d) in
  let checked := fuInProgress d && negb startBit && (0 <? len (fragments d)) in
  if checked && (gap =? 0) then (d, None)
  else if checked && negb (gap =? 1) then (reset_fu d, None)
  else
    let '(d, ok) := add_fragment fuPayload d in
    if ok : bool then finish_fu endBit d else (d, None).

Definition handleFragmentationUnit (payload : list Z) (seq : Z) (d : HEVCDepacketizer)
    : res (HEVCDepacketizer * option (list Z)) :=
  if len payload <? 3 then Ret (d, None)
  else
    fuHeader ← idx payload 2;
    let startBit := negb (Z.land fuHeader 0x80 =? 0) in
    let endBit := negb (Z.land fuHeader 0x40 =? 0) in
    let fuType := Z.land fuHeader 0x3F in
    if startBit && endBit then Ret (d, None)
    else
      fuPayload ← slice payload 3 (len payload);
      p0 ← idx payload 0;
      p1 ← idx payload 1;
      Ret (assemble startBit endBit (Z.lor (Z.land p0 0x81) (u8 (Z.shiftl fuType 1))) p1 fuPayload seq d).

(** ** The packet handler (hevc_depacketizer.go:32-100) *)
Definition Depacketize (payload : list Z) (seq : Z) (d : HEVCDepacketizer)
    : res (HEVCDepacketizer * exn hevc_error (list (list Z))) :=
  if len payload <? 2 then Ret (d, Err ErrTooShort)
  else
    p0 ← idx payload 0;
    p1 ← idx payload 1;
    let nalHeader := Z.lor (u16 (Z.shiftl p0 8)) p1 in
    if negb (Z.land p0 0x80 =? 0) then Ret (d, Err ErrForbiddenBit)
    else
      let tid := Z.land p1 0x07 in
      if tid =? 0 then Ret (d, Err ErrTemporalId)
      else
        let nalType := Z.land (Z.shiftr nalHeader 9) 0x3F in
        if nalType <? nalTypeAP then
          Ret (d <| lastSeq := seq |>, Val [prependStartCode payload])
        else if nalType =? nalTypeAP then
          body ← slice payload 2 (len payload);
          r ← handleAggregationPacket body;
          match r with
          | Err e => Ret (d, Err e)
          | Val nalUnits => Ret (d <| lastSeq := seq |>, Val nalUnits)
          end
        else if nalType =? nalTypeFU then
          '(d, r) ← handleFragmentationUnit payload seq d;
          let d := d <| lastSeq := seq |> in
          Ret (d, Val (match r with Some nalUnit => [nalUnit] | None => [] end))
        else if nalType =? 50 then Ret (d, Val [])
        else Ret (d, Err (ErrUnsupported nalType)).

(** [Reset] (hevc_depacketizer.go:267) also forgets the sequence number. *)
Definition Reset_ (d : HEVCDepacketizer) : HEVCDepacketizer :=
  ((d <| fragments := [] |>) <| lastSeq := 0 |>) <| fuInProgress := false |>.

(** The depacketizer [NewHEVCDepacketizerWithMemory] embeds. *)
Definition NewHEVCDepacketizer : HEVCDepacketizer :=
  {| fragments := []; lastSeq := 0; fuInProgress := false |}.

(** ** Invariant *)

Record hevc_inv (d : HEVCDepacketizer) : Prop := {
  he_progress : fragments d <> [] -> fuInProgress d = true;
  he_size : frag_size (fragments d) <= MaxNALUnitSize;
  he_seq : is_u16 (lastSeq d)
}.

Lemma hevc_reset_fu_inv d : hevc_inv d -> hevc_inv (reset_fu d).
Proof. intros [? ? ?]. by constructor. Qed.

Lemma hevc_add_finish_spec endBit part d :
  hevc_inv d -> fragments d <> [] ->
  let '(d', r) := (let '(d, ok) := add_fragment part d in
                   if ok : bool then finish_fu endBit d else (d, None)) in
  hevc_inv d' /\
  (frag_size (fragments d) + len part <= MaxNALUnitSize ->
     fragments d' = (if endBit then [] else fragments d ++ [part]) /\
     r = if endBit then Some (concat (fragments d ++ [part])) else None) /\
  ((fragments d' = [] /\ r = None) \/
   (fragments d' = [] /\ endBit = true /\ r = Some (concat (fragments d ++ [part])) /\
    len (concat (fragments d ++ [part])) <= MaxNALUnitSize) \/
   (fragments d' = fragments d ++ [part] /\ endBit = false /\ r = None)).
Proof.
  intros Hinv Hne. pose proof Hinv as [Hp Hs Hq]. unfold add_fragment, finish_fu.
  rewrite (proj2 (len_pos_ne _) Hne).
  destruct (Z.ltb_spec MaxNALUnitSize (frag_size (fragments d) + len part)).
  { split; [by apply hevc_reset_fu_inv|]. split; [lia|]. by left. }
  simpl. rewrite len_app, frag_size_app. change (len [part]) with 1.
  rewrite (proj2 (Z.ltb_ge MaxNALUnitSize _)) by lia.
  assert ((0 <? len (fragments d) + 1) = true) as -> by (pose proof (len_nonneg (fragments d)); lia).
  rewrite andb_true_r. destruct endBit; simpl.
  - split; [by constructor|]. split; [done|]. right. left.
    split; [done|]. split; [done|]. split; [done|]. rewrite <- frag_size_concat, frag_size_app. lia.
  - split; [constructor; simpl; rewrite ?frag_size_app; try done; try lia; by intros _; apply Hp|].
    split; [done|]. by right; right.
Qed.

Lemma hevc_assemble_spec startBit endBit h0 h1 part seq d :
  hevc_inv d -> startBit && endBit = false ->
  let '(d', r) := assemble startBit endBit h0 h1 part seq d in
  hevc_inv d' /\
  fu_step (startCode ++ [h0; h1]) part startBit endBit (sequenceDistance seq (lastSeq d))
    (fragments d) (fragments d') (option_list r) /\
  (forall nal, r = Some nal -> len nal <= MaxNALUnitSize).
Proof.
  intros Hinv Hse. unfold assemble. destruct startBit; cbv zeta.
  - destruct endBit; [done|]. rewrite andb_false_r. simpl.
    match goal with |- context [add_fragment part ?x] => set (d2 := x) end.
    assert (hevc_inv d2) as Hinv2 by (constructor; simpl; try done; apply Hinv).
    pose proof (hevc_add_finish_spec false part d2 Hinv2 ltac:(done)) as Hs.
    destruct (let '(d, ok) := add_fragment part d2 in _) as [d' r].
    destruct Hs as (Hinv' & _ & Hcase). split; [done|].
    destruct Hcase as [[-> ->]|[(_ & ? & _)|(-> & _ & ->)]]; [|done|].
    + split; [constructor|done].
    + split; [by constructor|done].
  - rewrite andb_true_r. destruct (fragments d) as [|f fr] eqn:Ef.
    + change (0 <? len (@nil (list Z))) with false. rewrite andb_false_r. cbn [andb].
      unfold add_fragment. rewrite Ef. change (0 <? len (@nil (list Z))) with false. cbv iota beta.
      unfold finish_fu. rewrite Ef. change (0 <? len (@nil (list Z))) with false. rewrite andb_false_r.
      split; [done|]. simpl. rewrite Ef. split; [constructor|done].
    + rewrite <- Ef in *. assert (fragments d <> []) as Hne by (rewrite Ef; done).
      rewrite (he_progress _ Hinv Hne), (proj2 (len_pos_ne _) Hne). simpl.
      destruct (Z.eqb_spec (sequenceDistance seq (lastSeq d)) 0) as [Hg|Hg]; simpl.
      { split; [done|]. split; [by constructor; auto|done]. }
      destruct (Z.eqb_spec (sequenceDistance seq (lastSeq d)) 1) as [Hg1|Hg1]; simpl.
      * pose proof (hevc_add_finish_spec endBit part d Hinv Hne) as Hs.
        destruct (let '(d, ok) := add_fragment part d in _) as [d' r].
        destruct Hs as (Hinv' & _ & Hcase). split; [done|].
        destruct Hcase as [[-> ->]|[(-> & -> & -> & Hlen)|(-> & -> & ->)]].
        -- split; [constructor|done].
        -- split; [by constructor|]. by intros nal [= <-].
        -- split; [by constructor|done].
      * split; [by apply hevc_reset_fu_inv|]. split; [constructor|done].
Qed.

Lemma hevc_assemble_exact startBit endBit h0 h1 part seq d :
  hevc_inv d -> startBit && endBit = false ->
  (startBit = false -> fragments d <> [] /\ sequenceDistance seq (lastSeq d) = 1) ->
  frag_size (if startBit then [startCode ++ [h0; h1]] else fragments d) + len part <= MaxNALUnitSize ->
  let '(d', r) := assemble startBit endBit h0 h1 part seq d in
  if startBit then fragments d' = [startCode ++ [h0; h1]; part] /\ r = None
  else if endBit then fragments d' = [] /\ r = Some (concat (fragments d ++ [part]))
  else fragments d' = fragments d ++ [part] /\ r = None.
Proof.
  intros Hinv Hse Hcont Hfit. unfold assemble. destruct startBit; cbv zeta.
  - destruct endBit; [done|]. rewrite andb_false_r. simpl.
    match goal with |- context [add_fragment part ?x] => set (d2 := x) end.
    assert (hevc_inv d2) as Hinv2 by (constructor; simpl; try done; apply Hinv).
    pose proof (hevc_add_finish_spec false part d2 Hinv2 ltac:(done)) as Hs.
    destruct (let '(d, ok) := add_fragment part d2 in _) as [d' r].
    destruct Hs as (_ & Hex & _). by destruct (Hex Hfit) as [-> ->].
  - destruct (Hcont eq_refl) as [Hne Hg]. rewrite Hg.
    rewrite (he_progress _ Hinv Hne), (proj2 (len_pos_ne _) Hne). simpl.
    pose proof (hevc_add_finish_spec endBit part d Hinv Hne) as Hs.
    destruct (let '(d, ok) := add_fragment part d in _) as [d' r].
    destruct Hs as (_ & Hex & _). destruct (Hex Hfit) as [-> ->]. by destruct endBit.
Qed.

(** ** Headers *)

Lemma nal_type_of p0 p1 :
  is_byte p0 -> is_byte p1 ->
  Z.land (Z.shiftr (Z.lor (u16 (Z.shiftl p0 8)) p1) 9) 0x3F = Z.land (Z.shiftr p0 1) 0x3F.
Proof.
  intros H0 H1. unfold is_byte in *.
  assert (u16 (Z.shiftl p0 8) = Z.shiftl p0 8) as ->.
  { apply u16_id. rewrite Z.shiftl_mul_pow2 by lia. lia. }
  rewrite Z.lor_comm, lor_shiftl_add by lia. rewrite !Z.shiftr_div_pow2 by lia. f_equal.
  change (2 ^ 8) with 256. change (2 ^ 9) with 512. change (2 ^ 1) with 2. Z.to_euclidean_division_equations. lia.
Qed.

(** The packet carrying part [j] of a unit with header [h0 h1]. *)
Definition fu_packet (h0 h1 : Z) (parts : list (list Z)) (j : nat) : list Z :=
  [Z.lor (Z.land h0 0x81) 98; h1;
   Z.lor (if is_start j then 0x80 else if is_end parts j then 0x40 else 0) (Z.land (Z.shiftr h0 1) 0x3F)]
  ++ nth j parts [].

Definition hevc_payload (p : pkt) : list Z :=
  match p with PWhole pl _ => pl | PFrag hdr parts j => fu_packet (nth 4 hdr 0) (nth 5 hdr 0) parts j end.

(** A unit that may be nested in an aggregation packet. *)
Definition nested_ok (n : list Z) : Prop :=
  1 <= len n < 2 ^ 16 /\ (2 <= len n -> Z.land (Z.shiftr (nth 0 n 0) 1) 0x3F < 48).

Definition hevc_wf (p : pkt) : Prop :=
  match p with
  | PWhole pl us => exists h0 h1 t, pl = h0 :: h1 :: t /\ is_byte h0 /\ is_byte h1 /\
      Z.land h0 0x80 = 0 /\ Z.land h1 0x07 <> 0 /\
      ((Z.land (Z.shiftr h0 1) 0x3F < nalTypeAP /\ us = [prependStartCode pl]) \/
       (Z.land (Z.shiftr h0 1) 0x3F = nalTypeAP /\ exists nals, t = aggregate nals /\ Forall nested_ok nals /\
          us = map prependStartCode nals))
  | PFrag hdr parts j =>
      exists h0 h1, hdr = startCode ++ [h0; h1] /\ 0 <= h0 < 128 /\ is_byte h1 /\ Z.land h1 0x07 <> 0 /\
        (2 <= length parts)%nat /\ (j < length parts)%nat
  end.

Definition hevc_fits (p : pkt) : Prop :=
  match p with PWhole _ _ => True | PFrag hdr parts _ => len (hdr ++ concat parts) <= MaxNALUnitSize end.

Definition fu_check (se h : Z) : bool :=
  let ind := Z.lor (Z.land h 0x81) 98 in let fh := Z.lor se (Z.land (Z.shiftr h 1) 0x3F) in
  (128 <=? h) || ((0 <=? ind) && (ind <? 256) && (Z.land ind 0x80 =? 0) && (Z.land (Z.shiftr ind 1) 0x3F =? 49) &&
    (Z.land fh 0x80 =? (if se =? 0x80 then 0x80 else 0)) &&
    (Z.land fh 0x40 =? (if se =? 0x40 then 0x40 else 0)) &&
    (Z.lor (Z.land ind 0x81) (u8 (Z.shiftl (Z.land fh 0x3F) 1)) =? h)).

Lemma fu_bytes h se :
  0 <= h < 128 -> se = 0x80 \/ se = 0x40 \/ se = 0 ->
  let ind := Z.lor (Z.land h 0x81) 98 in let fh := Z.lor se (Z.land (Z.shiftr h 1) 0x3F) in
  is_byte ind /\ Z.land ind 0x80 = 0 /\ Z.land (Z.shiftr ind 1) 0x3F = 49 /\
  Z.land fh 0x80 = (if se =? 0x80 then 0x80 else 0) /\ Z.land fh 0x40 = (if se =? 0x40 then 0x40 else 0) /\
  Z.lor (Z.land ind 0x81) (u8 (Z.shiftl (Z.land fh 0x3F) 1)) = h.
Proof.
  intros Hh Hse ind fh.
  assert (fu_check se h = true) as H.
  { apply byte_forall; [|unfold is_byte; lia]. destruct Hse as [->|[->| ->]]; vm_compute; reflexivity. }
  unfold fu_check in H. rewrite (proj2 (Z.leb_gt _ _)) in H by lia. simpl orb in H. zbool. by split_and!.
Qed.

Lemma handleFU_fragment h0 h1 parts j seq d :
  0 <= h0 < 128 -> (2 <= length parts)%nat ->
  handleFragmentationUnit (fu_packet h0 h1 parts j) seq d =
    Ret (assemble (is_start j) (is_end parts j) h0 h1 (nth j parts []) seq d) /\
  is_start j && is_end parts j = false.
Proof.
  intros Hh H2.
  assert (is_start j && is_end parts j = false) as Hse.
  { unfold is_start, is_end. destruct (Nat.eqb_spec j 0) as [->|]; [|done]. apply Nat.eqb_neq. lia. }
  split; [|done]. unfold handleFragmentationUnit, fu_packet.
  set (se := if is_start j then 0x80 else if is_end parts j then 0x40 else 0).
  destruct (fu_bytes h0 se Hh) as (_ & _ & _ & Hs & He & Hhd); [unfold se; destruct (is_start j), (is_end parts j); auto|].
  set (ind := Z.lor (Z.land h0 0x81) 98) in *. set (fh := Z.lor se (Z.land (Z.shiftr h0 1) 0x3F)) in *.
  set (part := nth j parts []) in *. pose proof (len_nonneg part). rewrite len_app. change (len [ind; h1; fh]) with 3.
  rewrite (proj2 (Z.ltb_ge _ _)) by lia. cbn [app]. rewrite !idx_nth, !bind_Ret by (rewrite !len_cons; lia).
  change (nth (Z.to_nat 0) (ind :: h1 :: fh :: part) 0) with ind.
  change (nth (Z.to_nat 1) (ind :: h1 :: fh :: part) 0) with h1.
  change (nth (Z.to_nat 2) (ind :: h1 :: fh :: part) 0) with fh. cbv zeta. rewrite Hs, He.
  replace (negb ((if se =? 128 then 128 else 0) =? 0)) with (is_start j)
    by (unfold se; destruct (is_start j), (is_end parts j); done).
  replace (negb ((if se =? 64 then 64 else 0) =? 0)) with (negb (is_start j) && is_end parts j)
    by (unfold se; destruct (is_start j), (is_end parts j); done).
  replace (negb (is_start j) && is_end parts j) with (is_end parts j)
    by (destruct (is_start j), (is_end parts j); done).
  rewrite Hse. rewrite slice_Ret, !bind_Ret by (rewrite ?len_cons; lia).
  change (nth (Z.to_nat 0) (ind :: h1 :: fh :: part) 0) with ind.
  change (nth (Z.to_nat 1) (ind :: h1 :: fh :: part) 0) with h1. rewrite Hhd.
  change (dropZ 3 (ind :: h1 :: fh :: part)) with part. by rewrite takeZ_all by lia.
Qed.

(** *** Aggregation packets *)

Lemma ap_aggregate fuel pre nals acc :
  Forall nested_ok nals -> (length nals < fuel)%nat ->
  ap_loop fuel (pre ++ aggregate nals) (len pre) acc = Ret (Val (acc ++ map prependStartCode nals)).
Proof.
  intros Hn. revert fuel pre acc. induction Hn as [|n nals [Hn Hnest] Hns IH]; intros fuel pre acc Hf.
  - destruct fuel as [|fuel]; [simpl in Hf; lia|]. cbn [ap_loop aggregate map concat]. by rewrite !app_nil_r, Z.ltb_irrefl.
  - destruct fuel as [|fuel]; [simpl in Hf; lia|]. cbn [length] in Hf.
    pose proof (len_nonneg pre).
    change (aggregate (n :: nals)) with (([len n / 256; len n mod 256] ++ n) ++ aggregate nals).
    set (rest := aggregate nals). pose proof (len_nonneg rest).
    assert (len (pre ++ ([len n / 256; len n mod 256] ++ n) ++ rest) = len pre + (2 + len n) + len rest) as Hlen
      by (rewrite !len_app; change (len [len n / 256; len n mod 256]) with 2; lia).
    assert (forall i, 0 <= i -> nth (Z.to_nat (len pre + i)) (pre ++ ([len n / 256; len n mod 256] ++ n) ++ rest) 0 =
              nth (Z.to_nat i) (([len n / 256; len n mod 256] ++ n) ++ rest) 0) as Hnth.
    { intros i Hi. rewrite app_nth2 by (unfold len; lia). f_equal. unfold len. lia. }
    assert (nth (Z.to_nat (len pre)) (pre ++ ([len n / 256; len n mod 256] ++ n) ++ rest) 0 = len n / 256) as Hhi.
    { specialize (Hnth 0 ltac:(lia)). rewrite Z.add_0_r in Hnth. by rewrite Hnth. }
    assert (nth (Z.to_nat (len pre + 1)) (pre ++ ([len n / 256; len n mod 256] ++ n) ++ rest) 0 = len n mod 256) as Hlo
      by (by rewrite Hnth by lia).
    assert (nth (Z.to_nat (len pre + 2)) (pre ++ ([len n / 256; len n mod 256] ++ n) ++ rest) 0 = nth 0 n 0) as H2.
    { rewrite Hnth by lia. destruct n as [|x n]; [unfold len in Hn; simpl in Hn; lia|done]. }
    assert (takeZ (len n) (dropZ (len pre + 2) (pre ++ ([len n / 256; len n mod 256] ++ n) ++ rest)) = n) as Hbody.
    { rewrite dropZ_app_ge by lia. replace (len pre + 2 - len pre) with 2 by lia.
      change (dropZ 2 (([len n / 256; len n mod 256] ++ n) ++ rest)) with (n ++ rest).
      rewrite takeZ_app_le, takeZ_all by lia. done. }
    specialize (IH fuel (pre ++ [len n / 256; len n mod 256] ++ n) (acc ++ [prependStartCode n]) ltac:(lia)).
    fold rest in IH. rewrite <- app_assoc in IH.
    set (full := pre ++ ([len n / 256; len n mod 256] ++ n) ++ rest) in *.
    assert (len (pre ++ [len n / 256; len n mod 256] ++ n) = len pre + 2 + len n) as Hpre
      by (rewrite !len_app; change (len [len n / 256; len n mod 256]) with 2; lia).
    rewrite Hpre in IH. clearbody full. clear Hnth. cbn [ap_loop]. rewrite (proj2 (Z.ltb_lt _ _)) by lia.
    rewrite (proj2 (Z.ltb_ge _ _)) by lia. rewrite !idx_nth, !bind_Ret by lia.
    assert (Z.lor (Z.shiftl (len n / 256) 8) (len n mod 256) = len n) as Hsz.
    { rewrite Z.lor_comm, lor_shiftl_add; [|lia|mlia]. change (2 ^ 8) with 256. mlia. }
    rewrite Hhi, Hlo, Hsz. cbv zeta.
    rewrite (proj2 (Z.eqb_neq (len n) 0)) by lia.
    rewrite (proj2 (Z.ltb_ge MaxNALUnitSize _)) by (unfold MaxNALUnitSize; lia).
    rewrite (proj2 (Z.ltb_ge _ _)) by lia.
    assert (nested_type full (len pre + 2) (len n) = Ret (if 2 <=? len n then Z.land (Z.shiftr (nth 0 n 0) 1) 63 else 0)) as ->.
    { unfold nested_type. case_bool; [|done]. rewrite idx_nth, bind_Ret, H2 by lia. done. }
    rewrite bind_Ret.
    assert ((2 <=? len n) && (48 <=? (if 2 <=? len n then Z.land (Z.shiftr (nth 0 n 0) 1) 63 else 0)) = false) as ->.
    { destruct (Z.leb_spec 2 (len n)); [|done]. simpl. apply Z.leb_gt. auto. }
    rewrite slice_Ret, bind_Ret by lia.
    replace (len pre + 2 + len n - (len pre + 2)) with (len n) by lia.
    rewrite Hbody. change ([0; 0; 0; 1] ++ n) with (prependStartCode n). rewrite IH. by rewrite <- app_assoc.
Qed.

Lemma ap_total fuel payload offset acc :
  Forall is_byte payload -> 0 <= offset <= len payload -> len payload - offset < Z.of_nat fuel ->
  Forall (fun n => len n <= len payload + 4) acc ->
  exists r, ap_loop fuel payload offset acc = Ret r /\
    (forall us, r = Val us -> Forall (fun n => len n <= len payload + 4) us /\
       len us <= len acc + (len payload - offset)).
Proof.
  intros Hb. revert offset acc. induction fuel as [|fuel IH]; intros offset acc Ho Hf Hacc; [lia|].
  cbn [ap_loop]. destruct (Z.ltb_spec offset (len payload)).
  - case_bool; [by eexists|]. rewrite !idx_nth, !bind_Ret by lia. cbv zeta.
    set (n := Z.lor _ _). assert (0 <= n) as Hn.
    { pose proof (nth_byte payload (Z.to_nat offset) Hb) as B0.
      pose proof (nth_byte payload (Z.to_nat (offset + 1)) Hb) as B1. unfold is_byte in *.
      apply Z.lor_nonneg. split; [apply Z.shiftl_nonneg; lia|lia]. }
    clearbody n. destruct (Z.eqb_spec n 0); [by eexists|]. case_bool; [by eexists|]. case_bool; [by eexists|].
    assert (exists b, nested_type payload (offset + 2) n = Ret b) as [b ->].
    { unfold nested_type. case_bool; [|by eexists]. rewrite idx_nth, bind_Ret by lia. by eexists. }
    rewrite bind_Ret. case_bool; [by eexists|].
    rewrite slice_Ret, bind_Ret by lia.
    match goal with |- context [ap_loop fuel payload ?o ?a] => destruct (IH o a) as (r & Hr & Hus); [lia|lia| |] end.
    + apply Forall_app. split; [done|]. apply Forall_singleton.
      pose proof (len_dropZ (offset + 2) payload ltac:(lia)).
      rewrite len_app, len_takeZ by lia. change (len [0; 0; 0; 1]) with 4. lia.
    + exists r. split; [exact Hr|]. intros us Hu. destruct (Hus us Hu) as [Hu1 Hu2]. split; [done|].
      rewrite len_app, len_cons, len_nil in Hu2. lia.
  - eexists. split; [reflexivity|]. intros us [= <-]. split; [done|lia].
Qed.

(** ** The handler on packets of the sender *)

(** The tests of the handler before the dispatch on the type. *)
Lemma Depacketize_header h0 h1 t seq d :
  is_byte h0 -> is_byte h1 -> Z.land h0 0x80 = 0 -> Z.land h1 0x07 <> 0 ->
  Depacketize (h0 :: h1 :: t) seq d =
    let nalType := Z.land (Z.shiftr h0 1) 0x3F in
    if nalType <? nalTypeAP then Ret (d <| lastSeq := seq |>, Val [prependStartCode (h0 :: h1 :: t)])
    else if nalType =? nalTypeAP then
      r ← handleAggregationPacket t;
      match r with Err e => Ret (d, Err e) | Val us => Ret (d <| lastSeq := seq |>, Val us) end
    else if nalType =? nalTypeFU then
      '(d, r) ← handleFragmentationUnit (h0 :: h1 :: t) seq d;
      let d := d <| lastSeq := seq |> in
      Ret (d, Val (match r with Some nalUnit => [nalUnit] | None => [] end))
    else if nalType =? 50 then Ret (d, Val [])
    else Ret (d, Err (ErrUnsupported nalType)).
Proof.
  intros Hb0 Hb1 H80 H7. unfold Depacketize. pose proof (len_nonneg t).
  rewrite (proj2 (Z.ltb_ge _ 2)) by (rewrite !len_cons; lia). rewrite !idx_nth by (rewrite !len_cons; lia).
  rewrite !bind_Ret. change (nth (Z.to_nat 0) (h0 :: h1 :: t) 0) with h0.
  change (nth (Z.to_nat 1) (h0 :: h1 :: t) 0) with h1. rewrite H80, nal_type_of by done. cbv zeta. simpl negb.
  rewrite (proj2 (Z.eqb_neq _ 0)) by done. cbv iota.
  rewrite slice_Ret, bind_Ret by (rewrite ?len_cons; lia).
  change (dropZ 2 (h0 :: h1 :: t)) with t. rewrite takeZ_all by (rewrite !len_cons; lia). done.
Qed.

Lemma hevc_Depacketize_whole pl us seq d :
  hevc_wf (PWhole pl us) -> Depacketize pl seq d = Ret (d <| lastSeq := seq |>, Val us).
Proof.
  intros (h0 & h1 & t & -> & Hb0 & Hb1 & H80 & H7 & [[Ht ->]|(Ht & nals & -> & Hn & ->)]);
    rewrite Depacketize_header by done; cbv zeta.
  - by rewrite (proj2 (Z.ltb_lt _ _)).
  - rewrite Ht. simpl. pose proof (ap_aggregate (S (length (aggregate nals))) [] nals [] Hn) as Hs.
    change (len []) with 0 in Hs. unfold handleAggregationPacket. cbn [app] in Hs. rewrite Hs; [done|].
    clear. unfold aggregate. induction nals as [|n nals IH]; simpl; [lia|]. rewrite !length_app. simpl in *. lia.
Qed.

Lemma hevc_Depacketize_fragment hdr parts j seq d :
  hevc_wf (PFrag hdr parts j) ->
  exists h0 h1, hdr = startCode ++ [h0; h1] /\ is_start j && is_end parts j = false /\
    Depacketize (hevc_payload (PFrag hdr parts j)) seq d =
      (let '(d, r) := assemble (is_start j) (is_end parts j) h0 h1 (nth j parts []) seq d in
       Ret (d <| lastSeq := seq |>, Val (option_list r))).
Proof.
  intros (h0 & h1 & -> & Hh & Hb1 & H7 & H2 & Hj). exists h0, h1. split; [done|].
  destruct (handleFU_fragment h0 h1 parts j seq d Hh H2) as [Hf Hse]. split; [done|].
  change (hevc_payload (PFrag (startCode ++ [h0; h1]) parts j)) with (fu_packet h0 h1 parts j).
  set (se := if is_start j then 0x80 else if is_end parts j then 0x40 else 0).
  destruct (fu_bytes h0 se Hh) as (Hbi & H80 & Ht & _); [unfold se; destruct (is_start j), (is_end parts j); auto|].
  unfold fu_packet in *. fold se in Hf |- *. cbn [app] in *. rewrite Depacketize_header by done.
  rewrite Ht, Hf. simpl. destruct (assemble _ _ _ _ _ _ _) as [d' r]. done.
Qed.

#[export] Instance HEVC_receiver : NalReceiver HEVCDepacketizer hevc_error.
Proof.
  refine {| nr_frags := fragments; nr_last := lastSeq; nr_inv := hevc_inv; nr_ready := fun _ _ _ => True;
            nr_recv := fun _ _ => Depacketize; nr_payload := hevc_payload; nr_wf := hevc_wf; nr_fits := hevc_fits |}.
  - intros d seq _ _ p Hinv Hseq Hwf. destruct p as [pl us|hdr parts j].
    + simpl hevc_payload. rewrite (hevc_Depacketize_whole pl us seq d Hwf). eexists _, _. split; [reflexivity|].
      split; [destruct Hinv; by constructor|]. split; [done|]. split; [by left|done].
    + destruct (hevc_Depacketize_fragment hdr parts j seq d Hwf) as (h0 & h1 & -> & Hse & ->).
      pose proof (hevc_assemble_spec (is_start j) (is_end parts j) h0 h1 (nth j parts []) seq d Hinv Hse) as Ha.
      destruct (assemble _ _ _ _ _ _ _) as [d' r]. destruct Ha as (Hinv' & Hstep & _).
      eexists _, _. split; [reflexivity|]. split; [destruct Hinv'; by constructor|]. done.
  - intros d seq _ _ lo hi p d' out Hinv Hseq Hwf Hfits _ _ _ Hcont.
    destruct p as [pl us|hdr parts j].
    + simpl hevc_payload. rewrite (hevc_Depacketize_whole pl us seq d Hwf). intros [= <- <-]. done.
    + pose proof Hwf as (_ & _ & _ & _ & _ & _ & H2 & Hj).
      destruct (hevc_Depacketize_fragment hdr parts j seq d Hwf) as (h0 & h1 & -> & Hse & ->).
      pose proof (hevc_assemble_exact (is_start j) (is_end parts j) h0 h1 (nth j parts []) seq d Hinv Hse) as Ha.
      destruct (assemble _ _ _ _ _ _ _) as [d1 r]. intros [= <- <-]. simpl.
      assert (forall k, (k < length parts)%nat ->
                frag_size ((startCode ++ [h0; h1]) :: take k parts) + len (nth k parts []) <= MaxNALUnitSize) as Hfit.
      { intros k Hk. change (len ((startCode ++ [h0; h1]) ++ concat parts) <= MaxNALUnitSize) in Hfits.
        rewrite <- (take_drop (S k) parts), concat_take_nth, !concat_app in Hfits by done.
        rewrite frag_size_concat. change (concat ((startCode ++ [h0; h1]) :: take k parts))
          with ((startCode ++ [h0; h1]) ++ concat (take k parts)).
        change (concat [nth k parts []]) with (nth k parts [] ++ []) in Hfits. rewrite app_nil_r in Hfits.
        pose proof (len_nonneg (concat (drop (S k) parts))). rewrite !len_app in *. lia. }
      split; [|done]. destruct j as [|j].
      * change (is_start 0) with true in *. destruct Ha as [-> ->]; [done|apply (Hfit 0%nat); lia|done].
      * destruct Hcont as [Hfr Hg]. change (is_start (S j)) with false in *.
        destruct (is_end parts (S j)); (destruct Ha as [-> ->];
          [intros _; rewrite Hfr; done|rewrite Hfr; apply (Hfit (S j)); lia|by rewrite Hfr]).
Defined.

Lemma NewHEVC_inv : hevc_inv NewHEVCDepacketizer.
Proof. by constructor. Qed.

(** The handler on any payload. *)
Lemma hevc_Depacketize_total payload seq d :
  hevc_inv d -> is_u16 seq -> Forall is_byte payload ->
  exists d' r, Depacketize payload seq d = Ret (d', r) /\ hevc_inv d' /\
    (forall us, r = Val us -> Forall (fun u => len u <= Z.max MaxNALUnitSize (len payload + 4)) us /\
       len us <= len payload) /\
    (forall e, r = Err e -> d' = d).
Proof.
  intros Hinv Hseq Hb. unfold Depacketize. pose proof (len_nonneg payload).
  destruct (Z.ltb_spec (len payload) 2); [by eexists _, _|].
  rewrite !idx_nth, !bind_Ret by lia. cbv zeta. case_bool; [by eexists _, _|]. case_bool; [by eexists _, _|].
  assert (hevc_inv (d <| lastSeq := seq |>)) as Hinv1 by (destruct Hinv; by constructor).
  pose proof (len_dropZ 2 payload ltac:(lia)) as Hd.
  case_bool; [|case_bool; [|case_bool; [|case_bool]]].
  - eexists _, _. split; [reflexivity|]. split; [done|]. split; [|done]. intros us [= <-].
    split; [|change (1 <= len payload); lia].
    apply Forall_singleton. unfold prependStartCode. rewrite len_app. change (len startCode) with 4. lia.
  - rewrite slice_Ret, bind_Ret, takeZ_all by lia. unfold handleAggregationPacket.
    destruct (ap_total (S (length (dropZ 2 payload))) (dropZ 2 payload) 0 []) as (r & -> & Hus);
      [by apply Forall_drop|lia|unfold len; lia|constructor|]. rewrite bind_Ret.
    destruct r as [us|err]; (eexists _, _; split; [reflexivity|]); [|done].
    split; [done|]. split; [|done]. intros us' [= <-].
    destruct (Hus us eq_refl) as [Hu1 Hu2]. change (len []) with 0 in Hu2. split; [|lia].
    eapply Forall_impl; [exact Hu1|]. simpl. lia.
  - unfold handleFragmentationUnit. destruct (Z.ltb_spec (len payload) 3).
    { rewrite bind_Ret. eexists _, _. split; [reflexivity|]. split; [done|]. split; [|done]. intros us [= <-]. by split; [constructor|]. }
    rewrite !idx_nth, !bind_Ret by lia. cbv zeta.
    match goal with |- context [if ?s && ?e then _ else _] => destruct (s && e) eqn:Hse end.
    { rewrite bind_Ret. eexists _, _. split; [reflexivity|]. split; [done|]. split; [|done]. intros us [= <-]. by split; [constructor|]. }
    rewrite slice_Ret, !bind_Ret by lia.
    match goal with |- context [assemble ?s ?e ?h0 ?h1 ?p seq d] =>
      pose proof (hevc_assemble_spec s e h0 h1 p seq d Hinv Hse) as Ha; destruct (assemble s e h0 h1 p seq d) as [d' r] end.
    destruct Ha as (Hinv' & _ & Hlen). eexists _, _. split; [reflexivity|].
    split; [destruct Hinv'; by constructor|]. split; [|done]. intros us [= <-].
    destruct r as [nal|]; [|by split; [constructor|]]. split; [|change (1 <= len payload); lia].
    apply Forall_singleton. specialize (Hlen nal eq_refl). lia.
  - eexists _, _. split; [reflexivity|]. split; [done|]. split; [|done]. intros us [= <-]. by split; [constructor|].
  - by eexists _, _.
Qed.

(** ** Properties *)

(** C5: integrity and completeness for HEVC.  Under any loss, repetition and
    reordering within half the sequence space the depacketizer never panics or
    fails and hands out only units that were sent; packets that arrive in
    order without loss give exactly the units sent, when each is within 10 MB. *)
Theorem hevc_integrity base items (net : network) ts :
  Forall hevc_wf (packets items) -> plausible_from items net ->
  (exists d' out, nr_run (received base items net) NewHEVCDepacketizer = Ret (d', out) /\
     Forall (fun u => exists it, it ∈ items /\ u ∈ item_units it) out) /\
  (Forall hevc_fits (packets items) ->
   (forall hdr parts, Fragmented hdr parts ∈ items -> (2 <= length parts)%nat) ->
   length ts = length (packets items) ->
   exists d', nr_run (received base items (in_order 0 ts)) NewHEVCDepacketizer =
     Ret (d', concat (map item_units items))).
Proof.
  intros Hwf Hpl.
  split; [by apply (@integrity_fresh _ _ HEVC_receiver base items Hwf net NewHEVCDepacketizer NewHEVC_inv)|].
  intros Hf H2 Hlen.
  assert (exists lo hi, timely lo hi ts) as (lo & hi & Ht).
  { clear. unfold timely. induction ts as [|[a b] ts (lo & hi & IH)]; [exists 0, 0; constructor|].
    exists (Z.min lo (Z.min a b)), (Z.max hi (Z.max a b)). apply Forall_cons. split; [simpl; lia|].
    eapply Forall_impl; [exact IH|]. simpl. intros; lia. }
  destruct (@exact_run _ _ HEVC_receiver base items Hwf Hf lo hi 0 ts NewHEVCDepacketizer NewHEVC_inv) as (d' & Hrun & _);
    [done|done|by rewrite Hlen| |by left|].
  - unfold expects. destruct (packets items !! 0%nat) as [[|h ps [|j]]|] eqn:E; try done.
    by destruct (packets_prev _ _ _ _ _ E) as (? & ? & _).
  - exists d'. rewrite Hrun. change (drop 0 (packets items)) with (packets items). by rewrite completes_units.
Qed.

(** safety on arbitrary input.  Whatever bytes a packet carries, in
    whatever state, the handler returns without panic; the fragments held stay
    within 10 MB, no unit handed out is larger than that or than the packet
    with a start code, and an error leaves the state as it was. *)
Theorem hevc_safe payload seq d :
  hevc_inv d -> is_u16 seq -> Forall is_byte payload ->
  exists d' r, Depacketize payload seq d = Ret (d', r) /\ hevc_inv d' /\
    (forall us, r = Val us -> Forall (fun u => len u <= Z.max MaxNALUnitSize (len payload + 4)) us /\
       len us <= len payload) /\
    (forall e, r = Err e -> d' = d).
Proof. apply hevc_Depacketize_total. Qed.

(** ** Witnesses *)

Definition sample_items : list item :=
  [Whole [0x40; 1; 5] [startCode ++ [0x40; 1; 5]];
   Fragmented (startCode ++ [0x26; 1]) [[1; 2]; []; [4; 5]];
   Whole (0x60 :: 1 :: aggregate [[0x42; 1; 7]; [0x44]]) [startCode ++ [0x42; 1; 7]; startCode ++ [0x44]]].

Lemma hevc_sample_wf : Forall hevc_wf (packets sample_items) /\ Forall hevc_fits (packets sample_items).
Proof.
  split; unfold packets, sample_items; simpl; repeat (apply Forall_cons; split); try apply Forall_nil; try done.
  - exists 0x40, 1, [5]. do 5 (split; [done || by vm_compute|]). left. by split.
  - exists 0x26, 1. split_and!; try done; try (by vm_compute); simpl; lia.
  - exists 0x26, 1. split_and!; try done; try (by vm_compute); simpl; lia.
  - exists 0x26, 1. split_and!; try done; try (by vm_compute); simpl; lia.
  - exists 0x60, 1, (aggregate [[0x42; 1; 7]; [0x44]]). do 5 (split; [done || by vm_compute|]). right. split; [done|].
    exists [[0x42; 1; 7]; [0x44]]. split; [done|]. split; [|done].
    repeat (apply Forall_cons; split; [by vm_compute|]). by apply Forall_nil.
Qed.

Lemma hevc_integrity_witness :
  exists d', nr_run (received 65534 sample_items (in_order 0 [(1, 1); (2, 2); (3, 3); (4, 4); (5, 5)])) NewHEVCDepacketizer
    = Ret (d', concat (map item_units sample_items)).
Proof.
  apply (hevc_integrity 65534 sample_items [(3%nat, 0, 0)] [(1, 1); (2, 2); (3, 3); (4, 4); (5, 5)] (proj1 hevc_sample_wf)).
  - simpl. split; [lia|done].
  - exact (proj2 hevc_sample_wf).
  - intros hdr parts Hin. unfold sample_items in Hin. set_unfold in Hin.
    destruct Hin as [?|[[= -> ->]|[?|[]]]]; [done|simpl; lia|done].
  - done.
Defined.

Lemma hevc_safe_witness :
  hevc_inv NewHEVCDepacketizer /\
  exists d' r, Depacketize [98; 1; 0xC1] 7 NewHEVCDepacketizer = Ret (d', r) /\ hevc_inv d' /\ r = Val [].
Proof.
  split; [apply NewHEVC_inv|].
  destruct (hevc_safe [98; 1; 0xC1] 7 NewHEVCDepacketizer NewHEVC_inv) as (d' & r & Hr & Hinv & _);
    [by vm_compute|repeat (apply Forall_cons; split; [by vm_compute|]); by apply Forall_nil|].
  exists d', r. split; [exact Hr|]. split; [exact Hinv|]. vm_compute in Hr. by injection Hr as <- <-.
Defined.
