(* ===== verification/DepackMemory.v ===== *)
(** * Memory-aware depacketizers (the WithMemory types of codec/*.go)

    The H.264 and HEVC wrappers are the same code around two depacketizers:
    [WithMemory] is written once over the interface [BaseDepacketizer], and
    instantiated twice. *)

From stdpp Require Import strings.
From S2P Require Import Prelude Serial Eviction Depacketizer H264 HEVC Memory.
#[local] Open Scope Z_scope.

(** The bytes of the units handed out (h264_depacketizer.go:402-405). *)
Definition units_size (us : list (list Z)) : Z := foldl (fun n (u : list Z) => i64 (n + len u)) 0 us.

Lemma units_size_total us M N :
  Forall (fun u => len u <= M) us -> len us <= N -> 0 <= M -> N * M < 2 ^ 63 ->
  units_size us = len (concat us) /\ 0 <= len (concat us).
Proof.
  intros HM HN HM0 Hb. split; [|apply len_nonneg]. unfold units_size.
  assert (forall n, 0 <= n -> n + M * len us < 2 ^ 63 ->
            foldl (fun n (u : list Z) => i64 (n + len u)) n us = n + len (concat us)) as Hf.
  { clear -HM HM0. induction HM as [|u us Hu Hus IH]; intros n Hn Hb; simpl; [change (len []) with 0; lia|].
    rewrite len_cons in Hb. pose proof (len_nonneg us). pose proof (len_nonneg u).
    rewrite (i64_id (n + len u)) by (pow_consts; nia). rewrite IH by nia. rewrite len_app. lia. }
  rewrite Hf; [lia|lia|]. pose proof (len_nonneg us). nia.
Qed.

(** The [Depacketizer] interface of the codec package, with what the wrapper
    relies on: on packets of bytes the handler returns, and keeps its
    invariant; a failure leaves it unchanged; the units of one packet of less
    than a gigabyte are together smaller than 2^62 bytes. *)
Class BaseDepacketizer (D E : Type) := {
  bd_recv : Z -> Z -> list Z -> Z -> D -> res (D * exn E (list (list Z)));
  bd_reset : D -> D;
  bd_inv : D -> Prop;
  bd_total : forall now now' payload seq d, bd_inv d -> is_u16 seq -> Forall is_byte payload ->
    exists d' r, bd_recv now now' payload seq d = Ret (d', r) /\ bd_inv d' /\ (forall e, r = Err e -> d' = d) /\
      (forall us, r = Val us -> len payload < 2 ^ 30 -> units_size us = len (concat us))
}.

#[export] Instance H264_base : BaseDepacketizer H264Depacketizer h264_error.
Proof.
  refine {| bd_recv := H264.Depacketize; bd_reset := H264.Reset_; bd_inv := h264_inv |}.
  intros now now' payload seq d Hinv Hseq Hb.
  destruct (h264_Depacketize_total now now' payload seq d Hinv Hseq Hb) as (d' & r & ? & ? & Hus & ?).
  exists d', r. split_and!; [done..|]. intros us -> Hl. destruct (Hus us eq_refl) as (_ & Hc & Hu).
  apply (units_size_total us (2 ^ 31) 100); [|lia|lia|lia].
  eapply Forall_impl; [exact Hu|]. simpl. unfold MaxNALUnitSize. lia.
Defined.

#[export] Instance HEVC_base : BaseDepacketizer HEVCDepacketizer hevc_error.
Proof.
  refine {| bd_recv := fun _ _ => HEVC.Depacketize; bd_reset := HEVC.Reset_; bd_inv := hevc_inv |}.
  intros now now' payload seq d Hinv Hseq Hb.
  destruct (hevc_Depacketize_total payload seq d Hinv Hseq Hb) as (d' & r & ? & ? & Hus & ?).
  exists d', r. split_and!; [done..|]. intros us -> Hl. destruct (Hus us eq_refl) as (Hu & Hc).
  apply (units_size_total us (2 ^ 31) (2 ^ 30)); [|lia|lia|lia].
  eapply Forall_impl; [exact Hu|]. simpl. unfold MaxNALUnitSize. lia.
Defined.

(** ** The wrapper *)

(** The controller is shared with the other streams and is passed along. *)
Record WithMemory (D : Type) := mkWithMemory {
  inner : D;
  streamID : string;
  memoryLimit : Z;
  currentUsage : Z
}.
Arguments mkWithMemory {D}.
Arguments inner {D}.
Arguments streamID {D}.
Arguments memoryLimit {D}.
Arguments currentUsage {D}.
#[export] Instance eta_WithMemory D : Eta (WithMemory D) := fun w =>
  mkWithMemory (inner w) (streamID w) (memoryLimit w) (currentUsage w).

Inductive wm_error (E : Type) : Type :=
| ErrMemoryLimit (current needed limit : Z)
| ErrMemoryAllocation (e : mem_error)
| ErrInner (e : E).
Arguments ErrMemoryLimit {E}.
Arguments ErrMemoryAllocation {E}.
Arguments ErrInner {E}.

(** ** The wrapper's operations *)

Section wrapper.
Context {D E : Type} `{BaseDepacketizer D E}.
Context (strategy : list StreamInfo -> Z -> list string).
Context (evictionCallback : string -> Z -> Controller -> Controller).

(** [Depacketize] with memory accounting (h264_depacketizer.go:373-419,
    hevc_depacketizer.go:297-343).  [t], [t'] are the controller's clock
    readings, [now], [now'] the depacketizer's. *)
Definition DepacketizeWithMemory (t t' now now' : Z) (payload : list Z) (seq : Z)
    (w : WithMemory D) (c : Controller)
    : res (WithMemory D * Controller * exn (wm_error E) (list (list Z))) :=
  let estimatedSize := i64 (len payload * 2) in
  if memoryLimit w <? i64 (currentUsage w + estimatedSize) then
    Ret (w, c, Err (ErrMemoryLimit (currentUsage w) estimatedSize (memoryLimit w)))
  else
    let '(c, r) := RequestMemory strategy evictionCallback (streamID w) estimatedSize t t' c in
    match r with
    | Err e => Ret (w, c, Err (ErrMemoryAllocation e))
    | Val _ =>
        let w := w <| currentUsage := i64 (currentUsage w + estimatedSize) |> in
        '(d, r) ← bd_recv now now' payload seq (inner w);
        let w := w <| inner := d |> in
        match r with
        | Err e =>
            let c := ReleaseMemory (streamID w) estimatedSize c in
            let w := w <| currentUsage := i64 (currentUsage w - estimatedSize) |> in
            Ret (w, c, Err (ErrInner e))
        | Val nalUnits =>
            if 0 <? len nalUnits then
              let actualSize := units_size nalUnits in
              let '(w, c) :=
                if actualSize <? estimatedSize then
                  let excessMemory := i64 (estimatedSize - actualSize) in
                  (w <| currentUsage := i64 (currentUsage w - excessMemory) |>,
                   ReleaseMemory (streamID w) excessMemory c)
                else (w, c) in
              let w := w <| currentUsage := 0 |> in
              Ret (w, c, Val nalUnits)
            else Ret (w, c, Val nalUnits)
        end
    end.

(** [Reset] (h264_depacketizer.go:422-430, hevc_depacketizer.go:346-354) *)
Definition ResetWithMemory (w : WithMemory D) (c : Controller) : WithMemory D * Controller :=
  let '(w, c) :=
    if 0 <? currentUsage w
    then (w <| currentUsage := 0 |>, ReleaseMemory (streamID w) (currentUsage w) c)
    else (w, c) in
  (w <| inner := bd_reset (inner w) |>, c).
End wrapper.

(** ** The two codecs *)

Definition NewH264DepacketizerWithMemory (streamID : string) (limit : Z) : WithMemory H264Depacketizer :=
  {| inner := NewH264Depacketizer; streamID := streamID; memoryLimit := limit; currentUsage := 0 |}.
Definition DepacketizeH264WithMemory strategy callback t t' now now' payload seq
    (w : WithMemory H264Depacketizer) c :=
  DepacketizeWithMemory strategy callback t t' now now' payload seq w c.
Definition ResetH264WithMemory (w : WithMemory H264Depacketizer) c := ResetWithMemory w c.

Definition NewHEVCDepacketizerWithMemory (streamID : string) (limit : Z) : WithMemory HEVCDepacketizer :=
  {| inner := NewHEVCDepacketizer; streamID := streamID; memoryLimit := limit; currentUsage := 0 |}.
Definition DepacketizeHEVCWithMemory strategy callback t t' now now' payload seq
    (w : WithMemory HEVCDepacketizer) c :=
  DepacketizeWithMemory strategy callback t t' now now' payload seq w c.
Definition ResetHEVCWithMemory (w : WithMemory HEVCDepacketizer) c := ResetWithMemory w c.

(** ** Accounting *)

Section books.
Context {D E : Type} `{BaseDepacketizer D E}.
Context (strategy : list StreamInfo -> Z -> list string).
Context (evictionCallback : string -> Z -> Controller -> Controller).
Context (Hcallback : callback_ok evictionCallback).

(** Taking back what was charged restores the books. *)
Lemma charge_refund id n m c1 c2 c3 :
  charged id n c1 c2 -> charged id (- m) c2 c3 -> charged id (n - m) c1 c3.
Proof.
  intros [Hu1 Hs1] [Hu2 Hs2]. split; [lia|]. intros id'. rewrite Hs2, Hs1. case_decide; lia.
Qed.
Lemma charge_zero id c1 c2 : charged id 0 c1 c2 -> same_usage c1 c2.
Proof. intros [Hu Hs]. split; [lia|]. intros id'. rewrite Hs. case_decide; lia. Qed.

(** what a memory-aware depacketizer charges its stream.  For a packet
    whose estimate the budget holds the call returns, stays within its own
    limit, and: a refusal, a failed allocation or a depacketizing error leave
    the depacketizer and the books as they were; a packet that completes no
    unit stays charged with twice its size; a packet that completes units
    leaves the smaller of its estimate and the units' bytes charged while
    [currentUsage] is set to 0, so that the wrapper's [Reset] does not give
    those bytes back. *)
Theorem wrapper_books t t' now now' payload seq (w : WithMemory D) c :
  mem_ok c -> bd_inv (inner w) -> is_u16 seq -> Forall is_byte payload -> len payload < 2 ^ 30 ->
  0 <= currentUsage w <= memoryLimit w -> memoryLimit w < 2 ^ 62 ->
  let est := 2 * len payload in usage c + est <= maxMemory c ->
  exists w' c' r,
    DepacketizeWithMemory strategy evictionCallback t t' now now' payload seq w c = Ret (w', c', r) /\
    mem_ok c' /\ bd_inv (inner w') /\ 0 <= currentUsage w' <= memoryLimit w /\
    match r with
    | Err e => w' = w /\ same_usage c c' /\ (memoryLimit w < currentUsage w + est -> c' = c)
    | Val [] => charged (streamID w) est c c' /\ currentUsage w' = currentUsage w + est
    | Val us => charged (streamID w) (Z.min est (len (concat us))) c c' /\ currentUsage w' = 0 /\
                ResetWithMemory w' c' = (w' <| inner := bd_reset (inner w') |>, c')
    end.
Proof.
  intros Hok Hinv Hseq Hb Hlen Hcur Hlim est Hfit. pose proof (len_nonneg payload) as Hl0.
  unfold DepacketizeWithMemory. rewrite (i64_id (len payload * 2)) by (pow_consts; lia).
  replace (len payload * 2) with est by (unfold est; lia). rewrite i64_id by (pow_consts; lia).
  destruct (Z.ltb_spec (memoryLimit w) (currentUsage w + est)) as [Hover|Hin]; cbv zeta.
  { eexists _, _, _. split; [reflexivity|]. split_and!; try done; lia. }
  pose proof (request_spec strategy evictionCallback Hcallback (streamID w) est t t' c Hok ltac:(unfold est; lia)) as Hr.
  destruct (RequestMemory _ _ _ _ _ _ _) as [c1 r0]. destruct Hr as (Hok1 & Hr & Hrel).
  rewrite (proj2 (Z.leb_le _ _)) in Hr by done.
  destruct (GetStreamUsage (streamID w) c + est <=? perStreamLimit c).
  2: { destruct Hr as [-> Hsame]. eexists _, _, _. split; [reflexivity|]. split_and!; try done; lia. }
  destruct Hr as (-> & Hch & _).
  assert (GetStreamUsage (streamID w) c1 = GetStreamUsage (streamID w) c + est) as Hid.
  { destruct Hch as [_ Hs]. by rewrite Hs, decide_True. }
  destruct (mem_ok_usage c Hok) as [_ Hus]. specialize (Hus (streamID w)).
  destruct (bd_total now now' payload seq (inner w) Hinv Hseq Hb) as (d' & r & Hrecv & Hinv' & Herr & Hus').
  simpl. rewrite Hrecv, bind_Ret. destruct r as [us|e].
  - specialize (Hus' us eq_refl Hlen). destruct us as [|u us].
    { eexists _, _, _. split; [reflexivity|]. split; [done|]. split; [done|]. simpl. split; [lia|]. done. }
    rewrite (proj2 (Z.ltb_lt 0 (len (u :: us)))) by (rewrite len_cons; pose proof (len_nonneg us); lia).
    rewrite Hus'. set (actual := len (concat (u :: us))). assert (0 <= actual) by apply len_nonneg.
    set (w' := {| inner := d'; streamID := streamID w; memoryLimit := memoryLimit w; currentUsage := 0 |}).
    assert (exists c', mem_ok c' /\ charged (streamID w) (Z.min est actual) c c' /\
              (if actual <? est then c' = ReleaseMemory (streamID w) (i64 (est - actual)) c1 else c' = c1)) as (c' & Hokc & Hchc & Hc').
    { destruct (Z.ltb_spec actual est).
      - rewrite i64_id by (unfold est in *; pow_consts; lia). eexists. split; [|split; [|reflexivity]].
        + by destruct (ReleaseMemory_spec (streamID w) (est - actual) c1 Hok1) as [? _]; [lia|].
        + pose proof (Hrel (est - actual) ltac:(lia)) as Hr2. rewrite Hid, Z.min_l in Hr2 by lia.
          replace (Z.min est actual) with (est - (est - actual)) by lia. by eapply charge_refund.
      - exists c1. split; [done|]. split; [|done]. by rewrite Z.min_l by lia. }
    exists w', c', (Val (u :: us)). split; [destruct (actual <? est); subst c'; reflexivity|].
    split; [done|]. split; [done|]. split; [simpl; lia|]. done.
  - rewrite (Herr e eq_refl). eexists _, _, _. split; [reflexivity|].
    pose proof (Hrel est ltac:(unfold est; lia)) as Hr2. rewrite Hid, Z.min_l in Hr2 by lia.
    assert (same_usage c (ReleaseMemory (streamID w) est c1)) as Hsame.
    { apply (charge_zero (streamID w)). replace 0 with (est - est) by lia. by eapply charge_refund. }
    destruct (ReleaseMemory_spec (streamID w) est c1 Hok1 ltac:(unfold est; lia)) as [Hok2 _].
    assert (i64 (currentUsage w + est - est) = currentUsage w) as -> by (rewrite i64_id; pow_consts; lia).
    split; [done|]. split; [done|]. split; [simpl; lia|]. split; [by destruct w|]. split; [done|]. lia.
Qed.
End books.

Lemma wrapper_books_witness :
  exists w' c', DepacketizeH264WithMemory lru_strategy reset_callback 1 1 1 1 [0x67; 1; 2] 7
      (NewH264DepacketizerWithMemory "s" 1000) (NewController 10000 5000 0) =
    Ret (w', c', Val [[0; 0; 0; 1; 0x67; 1; 2]]) /\
    charged "s" 6 (NewController 10000 5000 0) c' /\ currentUsage w' = 0.
Proof.
  destruct (wrapper_books lru_strategy reset_callback reset_callback_ok 1 1 1 1 [0x67; 1; 2] 7
    (NewH264DepacketizerWithMemory "s" 1000) (NewController 10000 5000 0)) as (w' & c' & r & Hr & _ & _ & _ & Hc).
  - apply NewController_ok; lia.
  - apply NewH264_inv.
  - by vm_compute.
  - repeat (apply Forall_cons; split; [by vm_compute|]). by apply Forall_nil.
  - by vm_compute.
  - by vm_compute.
  - by vm_compute.
  - by vm_compute.
  - exists w', c'. unfold DepacketizeH264WithMemory. rewrite Hr.
    assert (r = Val [[0; 0; 0; 1; 0x67; 1; 2]]) as -> by (vm_compute in Hr; by injection Hr as <- <- <-).
    split; [reflexivity|]. destruct Hc as (Hc & Hu & _). split; [exact Hc|exact Hu].
Defined.
