(* ===== verification/Heap.v ===== *)
(** * Go's container/heap

    [up], [down], [Push] and [Pop] of the standard library's binary heap over
    a slice, generic in the [heap.Interface] the two users of the program
    implement: the RTP jitter buffer (rtp/jitter_buffer.go) and the B-frame
    reorderer (frame/bframe_reorderer.go).  Every operation terminates, keeps
    the elements, and keeps the heap order whenever the comparison agrees
    with an integer key on the elements held. *)

From S2P Require Import Prelude.

(** [place i a] is what [Swap], [Push] and [Pop] of the implementation store
    of an element that moves to index [i] (a heap may record the index). *)
Class Interface (A : Type) := {
  Less : A -> A -> bool;
  place : Z -> A -> A
}.

Section heap.
Context {A : Type} {I : Interface A}.
Implicit Types (h : list A) (i j n fuel : nat).

Definition less_at h i j : res bool :=
  match h !! i, h !! j with Some a, Some b => Ret (Less a b) | _, _ => Panic end.

Definition swap h i j : res (list A) :=
  match h !! i, h !! j with
  | Some a, Some b => Ret (<[j := place (Z.of_nat j) a]> (<[i := place (Z.of_nat i) b]> h))
  | _, _ => Panic
  end.

Definition parent j : nat := ((j - 1) / 2)%nat.

Fixpoint up fuel h j : res (list A) :=
  match fuel with
  | O => NoFuel
  | S fuel =>
      let i := parent j in
      if decide (i = j) then Ret h
      else
        b ← less_at h j i;
        if negb b then Ret h
        else h' ← swap h i j; up fuel h' i
  end.

Fixpoint down fuel h i n : res (list A) :=
  match fuel with
  | O => NoFuel
  | S fuel =>
      let j1 := (2 * i + 1)%nat in
      if decide (n <= j1)%nat then Ret h
      else
        j ← (let j2 := (j1 + 1)%nat in
             if decide (j2 < n)%nat
             then b ← less_at h j2 j1; Ret (if b : bool then j2 else j1)
             else Ret j1);
        b ← less_at h j i;
        if negb b then Ret h
        else h' ← swap h i j; down fuel h' j n
  end.

(** [heap.Push]: append, then sift up. *)
Definition Push h (x : A) : res (list A) :=
  let h1 := h ++ [place (len h) x] in up (length h1) h1 (length h).

(** [heap.Pop]: exchange with the last, sift down, cut the last off. *)
Definition Pop h : res (A * list A) :=
  match length h with
  | O => Panic
  | S n =>
      h1 ← swap h 0 n;
      h2 ← down (S n) h1 0 n;
      match h2 !! n with
      | Some x => Ret (place (-1) x, take n h2)
      | None => Panic
      end
  end.
End heap.

(** A heap that does not record indices. *)
Definition plain {A} (lt : A -> A -> bool) : Interface A := {| Less := lt; place := fun _ a => a |}.

(** ** Exchanging two positions *)

Section exchange.
Context {A : Type}.
Implicit Types (h : list A) (i j : nat).

Definition exchange h i j (a b : A) : list A := <[j := a]> (<[i := b]> h).

Lemma length_exchange h i j a b : length (exchange h i j a b) = length h.
Proof. unfold exchange. by rewrite !length_insert. Qed.

Lemma lookup_exchange h i j a b k :
  h !! i = Some a -> h !! j = Some b ->
  exchange h i j a b !! k =
  if decide (k = j) then Some a else if decide (k = i) then Some b else h !! k.
Proof.
  intros Hi Hj. unfold exchange.
  pose proof (lookup_lt_Some _ _ _ Hi). pose proof (lookup_lt_Some _ _ _ Hj).
  destruct (decide (k = j)) as [->|].
  - by rewrite list_lookup_insert_eq by (rewrite length_insert; lia).
  - rewrite list_lookup_insert_ne by done. destruct (decide (k = i)) as [->|].
    + by rewrite list_lookup_insert_eq.
    + by rewrite list_lookup_insert_ne.
Qed.

Lemma exchange_perm h i j a b :
  h !! i = Some a -> h !! j = Some b -> exchange h i j a b ≡ₚ h.
Proof.
  intros Hi Hj. apply Permutation_inj. split; [apply length_exchange|].
  exists (fun k => if decide (k = j) then i else if decide (k = i) then j else k). split.
  - intros x y. repeat case_decide; subst; congruence.
  - intros k. rewrite (lookup_exchange _ _ _ _ _ _ Hi Hj).
    repeat case_decide; subst; congruence.
Qed.
End exchange.

Lemma parent_lt j : (0 < j)%nat -> (parent j < j)%nat.
Proof. intros. unfold parent. apply Nat.Div0.div_lt_upper_bound; lia. Qed.
Lemma parent_child j i : (0 < j)%nat -> parent j = i <-> (j = 2 * i + 1 \/ j = 2 * i + 2)%nat.
Proof.
  intros. unfold parent.
  pose proof (Nat.div_mod_eq (j - 1) 2). pose proof (Nat.mod_upper_bound (j - 1) 2). lia.
Qed.
Lemma parent_0 : parent 0 = 0%nat.
Proof. reflexivity. Qed.

(** ** Order and elements, for a heap that records no index *)

Section theory.
Context {A : Type} (lt : A -> A -> bool) (key : A -> Z).
Implicit Types (h : list A) (i j n fuel : nat).

(** The key at a position, and the order between a position and its parent. *)
Definition key_at h k : Z := match h !! k with Some a => key a | None => 0 end.
Definition edge h j : Prop := key_at h (parent j) <= key_at h j.

Lemma edge_0 h : edge h 0.
Proof. unfold edge. rewrite parent_0. lia. Qed.

(** The first [n] positions form a heap. *)
Definition heap_to n h : Prop := forall j, (j < n)%nat -> edge h j.
Definition heap_ok h : Prop := heap_to (length h) h.

(** The comparison is the order of the keys, on the elements of [h]. *)
Definition agree h : Prop := forall a b, a ∈ h -> b ∈ h -> lt a b = (key a <? key b).

Lemma agree_perm h h' : h' ≡ₚ h -> agree h -> agree h'.
Proof. intros Hp Ha a b Hin Hin'. rewrite Hp in Hin, Hin'. by apply Ha. Qed.

#[local] Abbreviation I := (plain lt).

Lemma less_at_Ret h i j :
  (i < length h)%nat -> (j < length h)%nat ->
  exists b, @less_at A I h i j = Ret b /\ (agree h -> b = (key_at h i <? key_at h j)).
Proof.
  intros Hi Hj. apply lookup_lt_is_Some in Hi as [a Ha], Hj as [b Hb].
  exists (lt a b). unfold less_at, key_at. rewrite Ha, Hb. split; [done|].
  intros Hag. apply Hag; by eapply list_elem_of_lookup_2.
Qed.

(** What an exchange of [i] and [j] does to the keys. *)
Lemma swap_Ret h i j :
  (i < length h)%nat -> (j < length h)%nat ->
  exists h', @swap A I h i j = Ret h' /\ h' ≡ₚ h /\
    (forall k, k <> i -> k <> j -> h' !! k = h !! k) /\
    h' !! j = h !! i /\ h' !! i = h !! j.
Proof.
  intros Hi Hj. apply lookup_lt_is_Some in Hi as [a Ha], Hj as [b Hb].
  exists (exchange h i j a b). unfold swap. rewrite Ha, Hb. split; [done|].
  split; [by apply exchange_perm|].
  split; [|split]; intros; rewrite (lookup_exchange _ _ _ _ _ _ Ha Hb);
    repeat case_decide; subst; congruence.
Qed.

Lemma key_at_eq h h' j k : h' !! j = h !! k -> key_at h' j = key_at h k.
Proof. unfold key_at. by intros ->. Qed.

Lemma up_spec fuel h j :
  (j < fuel)%nat -> (j < length h)%nat ->
  exists h', @up A I fuel h j = Ret h' /\ h' ≡ₚ h /\
    (agree h ->
     (forall k, (k < length h)%nat -> k <> j -> edge h k) ->
     (forall k, (0 < k < length h)%nat -> parent k = j -> key_at h (parent j) <= key_at h k) ->
     heap_ok h').
Proof.
  revert h j. induction fuel as [|fuel IH]; intros h j Hf Hj; [lia|]. cbn [up].
  case_decide as He.
  { exists h. split_and!; [done..|]. intros _ Hedge _ k Hk.
    destruct (decide (k = j)) as [->|]; [unfold edge; by rewrite He|by apply Hedge]. }
  assert (0 < j)%nat as Hj0 by (destruct j; [by rewrite parent_0 in He|lia]).
  pose proof (parent_lt j Hj0) as Hp.
  destruct (less_at_Ret h j (parent j)) as (b & -> & Hb); [lia..|]. rewrite bind_Ret.
  destruct b; cbn [negb].
  2: { exists h. split_and!; [done..|]. intros Hag Hedge _ k Hk. specialize (Hb Hag).
       destruct (decide (k = j)) as [->|]; [unfold edge; zbool; lia|by apply Hedge]. }
  destruct (swap_Ret h (parent j) j) as (h1 & Hs & Hperm & Hne & Hat_j & Hat_i); [lia..|].
  rewrite Hs, bind_Ret. pose proof (Permutation_length Hperm) as Hlen.
  destruct (IH h1 (parent j)) as (h' & -> & Hperm' & Hord); [lia..|].
  exists h'. split; [done|]. split; [by rewrite Hperm'|].
  intros Hag Hedge Hgrand. specialize (Hb Hag). symmetry in Hb. zbool.
  apply key_at_eq in Hat_j, Hat_i.
  assert (forall k, k <> parent j -> k <> j -> key_at h1 k = key_at h k) as Hk.
  { intros k ??. apply key_at_eq. by apply Hne. }
  apply Hord; [by apply (agree_perm h)| |].
  - intros k Hkl Hkp. unfold edge. destruct (decide (k = j)) as [->|].
    { lia. }
    rewrite (Hk k) by done. destruct (decide (k = 0%nat)) as [->|].
    { rewrite parent_0, Hk by done. lia. }
    destruct (decide (parent k = j)) as [Hpk|].
    { rewrite Hpk, Hat_j. apply (Hgrand k); lia. }
    pose proof (Hedge k ltac:(lia) ltac:(done)) as Hek. unfold edge in Hek.
    destruct (decide (parent k = parent j)) as [Hpk|].
    { rewrite Hpk in *. lia. }
    by rewrite Hk.
  - intros k Hkl Hkp.
    assert (key_at h1 (parent (parent j)) <= key_at h (parent j)) as Hpp.
    { destruct (decide (parent j = 0%nat)) as [H0|].
      - rewrite H0, parent_0 in *. lia.
      - pose proof (parent_lt (parent j) ltac:(lia)).
        rewrite Hk by lia. apply (Hedge (parent j)); lia. }
    destruct (decide (k = j)) as [->|]; [lia|].
    pose proof (parent_lt k ltac:(lia)).
    rewrite (Hk k) by lia. pose proof (Hedge k ltac:(lia) ltac:(done)) as Hek.
    unfold edge in Hek. rewrite Hkp in Hek. lia.
Qed.

(** The child [down] looks at. *)
Lemma min_child h i n :
  (n <= length h)%nat -> (2 * i + 1 < n)%nat ->
  exists j,
    (if decide (2 * i + 1 + 1 < n)%nat
     then b ← @less_at A I h (2 * i + 1 + 1) (2 * i + 1);
          Ret (if b : bool then (2 * i + 1 + 1)%nat else (2 * i + 1)%nat)
     else Ret (2 * i + 1)%nat) = Ret j /\
    (i < j < n)%nat /\ parent j = i /\
    (agree h -> forall k, (0 < k < n)%nat -> parent k = i -> key_at h j <= key_at h k).
Proof.
  intros Hn Hj. case_decide as H2.
  - destruct (less_at_Ret h (2 * i + 1 + 1) (2 * i + 1)) as (b & -> & Hb); [lia..|].
    rewrite bind_Ret. exists (if b then 2 * i + 1 + 1 else 2 * i + 1)%nat.
    split; [done|]. split; [destruct b; lia|].
    split; [apply parent_child; destruct b; lia|].
    intros Hag k Hk Hpk. apply parent_child in Hpk; [|lia]. specialize (Hb Hag). symmetry in Hb.
    replace (2 * i + 2)%nat with (2 * i + 1 + 1)%nat in Hpk by lia.
    destruct b; zbool; destruct Hpk as [-> | ->]; lia.
  - exists (2 * i + 1)%nat. split_and!; [done|lia|lia|apply parent_child; lia|].
    intros _ k Hk Hpk. apply parent_child in Hpk; [|lia].
    by replace k with (2 * i + 1)%nat by lia.
Qed.

Lemma down_spec fuel h i n :
  (i <= n < i + fuel)%nat -> (n <= length h)%nat ->
  exists h', @down A I fuel h i n = Ret h' /\ h' ≡ₚ h /\
    (forall k, (n <= k)%nat -> h' !! k = h !! k) /\
    (agree h ->
     (forall k, (0 < k < n)%nat -> parent k <> i -> edge h k) ->
     (forall k, (0 < k < n)%nat -> parent k = i -> (0 < i)%nat ->
        key_at h (parent i) <= key_at h k) ->
     heap_to n h').
Proof.
  revert h i. induction fuel as [|fuel IH]; intros h i Hf Hn; cbn [down].
  { lia. }
  case_decide as Hle.
  { exists h. split_and!; [done..|]. intros _ Hedge _ k Hk.
    destruct (decide (k = 0%nat)) as [->|]; [apply edge_0|]. apply Hedge; [lia|].
    intros Hp. apply parent_child in Hp; lia. }
  destruct (min_child h i n) as (j & -> & Hij & Hpj & Hmin); [lia..|]. rewrite bind_Ret.
  destruct (less_at_Ret h j i) as (b & -> & Hb); [lia..|]. rewrite bind_Ret.
  destruct b; cbn [negb].
  2: { exists h. split_and!; [done..|]. intros Hag Hedge _ k Hk.
       destruct (decide (k = 0%nat)) as [->|]; [apply edge_0|].
       destruct (decide (parent k = i)) as [Hpk|]; [|by apply Hedge; [lia|]].
       specialize (Hb Hag). symmetry in Hb. zbool. unfold edge. rewrite Hpk.
       pose proof (Hmin Hag k ltac:(lia) Hpk). lia. }
  destruct (swap_Ret h i j) as (h1 & Hs & Hperm & Hne & Hat_j & Hat_i); [lia..|].
  rewrite Hs, bind_Ret. pose proof (Permutation_length Hperm) as Hlen.
  destruct (IH h1 j) as (h' & -> & Hperm' & Hrest & Hord); [lia..|].
  exists h'. split; [done|]. split; [by rewrite Hperm'|].
  split; [intros k Hk; rewrite Hrest, Hne by lia; done|].
  intros Hag Hedge Hgrand. specialize (Hb Hag). symmetry in Hb. zbool.
  apply key_at_eq in Hat_j, Hat_i.
  assert (forall k, k <> i -> k <> j -> key_at h1 k = key_at h k) as Hk.
  { intros k ??. apply key_at_eq. by apply Hne. }
  apply Hord; [by apply (agree_perm h)| |].
  - intros k Hkl Hkp. unfold edge. pose proof (parent_lt k ltac:(lia)).
    destruct (decide (parent k = i)) as [Hpk|Hpk].
    + rewrite Hpk, Hat_i. destruct (decide (k = j)) as [->|]; [lia|].
      rewrite (Hk k) by lia. by apply Hmin.
    + rewrite (Hk (parent k)) by done.
      destruct (decide (k = i)) as [->|].
      { rewrite Hat_i. apply Hgrand; [lia|done|lia]. }
      rewrite (Hk k); [by apply Hedge|done|]. intros ->. done.
  - intros k Hkl Hkp _. pose proof (parent_lt k ltac:(lia)).
    rewrite Hpj, Hat_i, (Hk k) by lia.
    pose proof (Hedge k ltac:(lia) ltac:(lia)) as Hek. unfold edge in Hek. by rewrite Hkp in Hek.
Qed.

Lemma key_at_app h x k : (k < length h)%nat -> key_at (h ++ [x]) k = key_at h k.
Proof. intros. unfold key_at. by rewrite lookup_app_l. Qed.

Lemma Push_plain h x :
  exists h', @Push A I h x = Ret h' /\ h' ≡ₚ x :: h /\
    (agree (x :: h) -> heap_ok h -> heap_ok h').
Proof.
  unfold Push. cbn [place plain].
  destruct (up_spec (length (h ++ [x])) (h ++ [x]) (length h)) as (h' & -> & Hperm & Hord).
  1, 2: rewrite length_app; simpl; lia.
  exists h'. split; [done|]. split; [rewrite Hperm, Permutation_app_comm; done|].
  intros Hag Hok. apply Hord.
  - apply (agree_perm (x :: h)); [by rewrite Permutation_app_comm|done].
  - intros k Hk Hne. rewrite length_app in Hk; simpl in Hk. unfold edge.
    assert (parent k <= k)%nat.
    { destruct k; [by rewrite parent_0|]. pose proof (parent_lt (S k) ltac:(lia)). lia. }
    rewrite !key_at_app by lia. apply Hok. lia.
  - intros k Hk Hpk. rewrite length_app in Hk; simpl in Hk.
    pose proof (parent_lt k ltac:(lia)). lia.
Qed.

(** The root of a heap holds the least key. *)
Lemma root_min h k : heap_ok h -> (k < length h)%nat -> key_at h 0 <= key_at h k.
Proof.
  intros Hok. induction k as [k IH] using lt_wf_ind. intros Hk.
  destruct (decide (k = 0%nat)) as [->|]; [lia|].
  pose proof (parent_lt k ltac:(lia)). specialize (IH (parent k) ltac:(lia) ltac:(lia)).
  pose proof (Hok k Hk) as He. unfold edge in He. lia.
Qed.

Lemma root_least h x : heap_ok h -> h !! 0%nat = Some x -> Forall (fun y => key x <= key y) h.
Proof.
  intros Hok Hx. apply Forall_lookup. intros k y Hy.
  pose proof (root_min h k Hok (lookup_lt_Some _ _ _ Hy)) as Hle.
  unfold key_at in Hle. by rewrite Hx, Hy in Hle.
Qed.

Lemma Pop_plain h x :
  h !! 0%nat = Some x ->
  exists h', @Pop A I h = Ret (x, h') /\ h ≡ₚ x :: h' /\
    (agree h -> heap_ok h -> heap_ok h').
Proof.
  intros Hx. unfold Pop. pose proof (lookup_lt_Some _ _ _ Hx).
  destruct (length h) as [|n] eqn:Hlen; [lia|].
  destruct (swap_Ret h 0 n) as (h1 & -> & Hperm & Hne & Hat_n & Hat_0); [lia..|].
  rewrite bind_Ret. pose proof (Permutation_length Hperm) as Hl1.
  destruct (down_spec (S n) h1 0 n) as (h2 & -> & Hperm2 & Hrest & Hord); [lia..|].
  rewrite bind_Ret, (Hrest n), Hat_n, Hx by lia.
  pose proof (Permutation_length Hperm2) as Hl2.
  exists (take n h2). split; [done|].
  assert (h2 = take n h2 ++ [x]) as Hsplit.
  { rewrite <- (take_drop n h2) at 1. f_equal.
    rewrite (drop_S h2 x n), drop_ge by (try lia; by rewrite Hrest, Hat_n by lia). done. }
  split.
  { rewrite <- Hperm, <- Hperm2, Hsplit at 1. by rewrite Permutation_app_comm. }
  intros Hag Hok.
  assert (heap_to n h2) as Hh2.
  { apply Hord; [by apply (agree_perm h)| |lia].
    intros k Hk Hpk. pose proof (parent_lt k ltac:(lia)). unfold edge.
    rewrite (key_at_eq h h1 k k), (key_at_eq h h1 (parent k) (parent k)) by (apply Hne; lia).
    apply Hok. lia. }
  intros k Hk. rewrite length_take in Hk. specialize (Hh2 k ltac:(lia)).
  assert (parent k <= k)%nat.
  { destruct k; [by rewrite parent_0|]. pose proof (parent_lt (S k) ltac:(lia)). lia. }
  unfold edge, key_at in *. rewrite !lookup_take_lt by lia. done.
Qed.
End theory.

(** ** Heaps that record indices

    Seen through [proj], which forgets what [place] writes, a heap runs as
    the plain one. *)

Section simulation.
Context {A B : Type} {I : Interface A} (lt : B -> B -> bool) (proj : A -> B) (key : B -> Z).
Context (place_proj : forall i a, proj (place i a) = proj a).
Context (Less_proj : forall a b, Less a b = lt (proj a) (proj b)).
Implicit Types (h : list A) (i j n fuel : nat).

Definition seen (r : res (list A)) : res (list B) :=
  (r : res (list A)) ≫= (fun h : list A => Ret (proj <$> h : list B)).

Lemma less_at_seen h i j : less_at h i j = @less_at B (plain lt) (proj <$> h) i j.
Proof.
  unfold less_at. rewrite !list_lookup_fmap.
  destruct (h !! i), (h !! j); simpl; by rewrite ?Less_proj.
Qed.

Lemma swap_seen h i j : seen (swap h i j) = @swap B (plain lt) (proj <$> h) i j.
Proof.
  unfold swap, seen. rewrite !list_lookup_fmap.
  destruct (h !! i), (h !! j); try done. rewrite bind_Ret, !list_fmap_insert, !place_proj. done.
Qed.

Lemma bind_seen (r : res (list A)) (f : list A -> res (list A)) (g : list B -> res (list B)) :
  (forall h, seen (f h) = g (proj <$> h)) -> seen (r ≫= f) = (seen r ≫= g).
Proof. intros Hfg. unfold seen in *. destruct r; simpl in *; by rewrite ?Hfg. Qed.

Lemma up_seen fuel h j : seen (up fuel h j) = @up B (plain lt) fuel (proj <$> h) j.
Proof.
  revert h j. induction fuel as [|fuel IH]; intros h j; [done|]. cbn [up].
  case_decide; [done|]. rewrite <- less_at_seen.
  destruct (less_at h j (parent j)) as [b| |]; [|done..].
  rewrite !bind_Ret. destruct b; [|done]. cbn [negb].
  rewrite (bind_seen _ _ (fun k : list B => @up B (plain lt) fuel k (parent j))), swap_seen by auto.
  done.
Qed.

Lemma down_seen fuel h i n : seen (down fuel h i n) = @down B (plain lt) fuel (proj <$> h) i n.
Proof.
  revert h i. induction fuel as [|fuel IH]; intros h i; [done|]. cbn [down].
  case_decide; [done|]. rewrite <- !less_at_seen.
  destruct (if decide _ then _ else _) as [j| |]; [|done..]. rewrite !bind_Ret, <- !less_at_seen.
  destruct (less_at h j i) as [b| |]; [|done..].
  rewrite !bind_Ret. destruct b; [|done]. cbn [negb].
  rewrite (bind_seen _ _ (fun k : list B => @down B (plain lt) fuel k j n)), swap_seen by auto.
  done.
Qed.

Lemma seen_Ret r k : seen r = Ret k -> exists h, r = Ret h /\ proj <$> h = k.
Proof. destruct r as [h| |]; [|done..]. intros [= <-]. by exists h. Qed.

Lemma Push_spec h x :
  exists h', Push h x = Ret h' /\ proj <$> h' ≡ₚ proj x :: (proj <$> h) /\
    (agree lt key (proj x :: (proj <$> h)) -> heap_ok key (proj <$> h) ->
     heap_ok key (proj <$> h')).
Proof.
  destruct (Push_plain lt key (proj <$> h) (proj x)) as (k & Hk & Hp & Ho).
  destruct (seen_Ret (Push h x) k) as (h' & Hh & <-); [|by exists h'].
  rewrite <- Hk. unfold Push. rewrite up_seen, fmap_app, !length_app, length_fmap.
  simpl. by rewrite place_proj.
Qed.

Lemma Pop_spec h a :
  h !! 0%nat = Some a ->
  exists a' h', Pop h = Ret (a', h') /\ proj a' = proj a /\
    proj <$> h ≡ₚ proj a :: (proj <$> h') /\
    (agree lt key (proj <$> h) -> heap_ok key (proj <$> h) -> heap_ok key (proj <$> h')).
Proof.
  intros Ha. pose proof (lookup_lt_Some _ _ _ Ha) as Hpos.
  destruct (Pop_plain lt key (proj <$> h) (proj a)) as (k & Hk & Hp & Ho).
  { by rewrite list_lookup_fmap, Ha. }
  unfold Pop in *. rewrite length_fmap in Hk. destruct (length h) as [|n]; [lia|].
  rewrite <- swap_seen in Hk. destruct (swap h 0 n) as [h1| |]; [|done..].
  unfold seen in Hk. rewrite !bind_Ret in *. rewrite <- down_seen in Hk.
  destruct (down (S n) h1 0 n) as [h2| |]; [|done..].
  unfold seen in Hk. rewrite !bind_Ret in *. rewrite list_lookup_fmap in Hk.
  destruct (h2 !! n) as [x|]; [|done]. simpl in Hk. injection Hk as Hx <-.
  exists (place (-1) x), (take n h2). rewrite fmap_take, place_proj. auto.
Qed.
End simulation.
