(* ===== verification/JitterBuffer.v ===== *)
(** * The RTP jitter buffer (rtp/jitter_buffer.go)

    Packets wait in a binary heap ordered by 16-bit sequence number and are
    handed out once their playout time (base time + timestamp offset + target
    delay) has come.  Every method holds the buffer's mutex, so each is one
    step; [time.Now()] readings are arguments. *)

From stdpp Require Import sorting.
From S2P Require Import Prelude Heap.

(** *** Data *)

(** The fields of [rtp.Packet] the buffer reads, and the payload it carries. *)
Record Packet := mkPacket { SequenceNumber : Z; Timestamp : Z; Payload : list Z }.

Record packetEntry := mkEntry { packet : Packet; arrivalTime : Z; index : Z }.
#[export] Instance eta_entry : Eta packetEntry :=
  fun e => mkEntry (packet e) (arrivalTime e) (index e).

Record JitterBufferStats := mkJStats {
  PacketsBuffered : Z;
  PacketsDelivered : Z;
  PacketsDropped : Z;
  PacketsLate : Z;
  CurrentDepth : Z;
  MaxDepth : Z;
  UnderrunCount : Z;
  OverrunCount : Z
}.
#[export] Instance eta_jstats : Eta JitterBufferStats := fun s =>
  mkJStats (PacketsBuffered s) (PacketsDelivered s) (PacketsDropped s) (PacketsLate s)
    (CurrentDepth s) (MaxDepth s) (UnderrunCount s) (OverrunCount s).

Record JitterBuffer := mkJitter {
  packets : list packetEntry;
  seqSeen : gmap Z bool;
  maxSize : Z;
  targetDelay : Z;
  clockRate : Z;
  baseTime : Z;
  baseTS : Z;
  hasBaseTime : bool;
  lastGetWasEmpty : bool;
  stats : JitterBufferStats
}.
#[export] Instance eta_jitter : Eta JitterBuffer := fun b =>
  mkJitter (packets b) (seqSeen b) (maxSize b) (targetDelay b) (clockRate b) (baseTime b)
    (baseTS b) (hasBaseTime b) (lastGetWasEmpty b) (stats b).

(** *** packetHeap *)

(** [Less] on two sequence numbers, with its 16-bit wrap. *)
Definition seq_less (seqI seqJ : Z) : bool :=
  let diff := i32 (seqI - seqJ) in
  let diff := if 32768 <? diff then diff - 65536
              else if diff <? -32768 then diff + 65536 else diff in
  diff <? 0.

Definition packet_less (p q : Packet) : bool := seq_less (SequenceNumber p) (SequenceNumber q).

(** [Swap], [Push] and [Pop] keep each entry's [index] up to date. *)
Definition packetHeap : Interface packetEntry := {|
  Less := fun e f => packet_less (packet e) (packet f);
  place := fun i e => e <| index := i |>
|}.
#[export] Existing Instance packetHeap.

(** *** Operations *)

Definition incr (n : Z) : Z := u64 (n + 1).

Definition NewJitterBuffer (maxSize_ delay rate : Z) : res JitterBuffer :=
  if maxSize_ <? 0 then Panic
  else Ret (mkJitter [] ∅ maxSize_ delay rate zero_time 0 false false
              (mkJStats 0 0 0 0 0 0 0 0)).

Definition seen_before (s : Z) (jb : JitterBuffer) : bool := default false (seqSeen jb !! s).

Definition note_drop (st : JitterBufferStats) : JitterBufferStats :=
  st <| PacketsDropped := incr (PacketsDropped st) |> <| OverrunCount := incr (OverrunCount st) |>.

(** The capacity check of [Add]: drop the first packet of a full buffer. *)
Definition make_room (jb : JitterBuffer) : res JitterBuffer :=
  if maxSize jb <=? len (packets jb) then
    '(oldest, h) ← Pop (packets jb);
    Ret (jb <| packets := h |>
            <| seqSeen := delete (SequenceNumber (packet oldest)) (seqSeen jb) |>
            <| stats := note_drop (stats jb) |>)
  else Ret jb.

Definition note_depth (st : JitterBufferStats) (d : Z) : JitterBufferStats :=
  st <| PacketsBuffered := incr (PacketsBuffered st) |>
     <| CurrentDepth := d |>
     <| MaxDepth := if MaxDepth st <? d then d else MaxDepth st |>.

Definition Add (now1 now2 : Z) (p : Packet) (jb : JitterBuffer) : res JitterBuffer :=
  let jb := if hasBaseTime jb then jb
            else jb <| baseTime := now1 |> <| baseTS := Timestamp p |> <| hasBaseTime := true |> in
  if seen_before (SequenceNumber p) jb then Ret jb
  else
    let jb := jb <| seqSeen := <[SequenceNumber p := true]> (seqSeen jb) |> in
    jb ← make_room jb;
    h ← Push (packets jb) (mkEntry p now2 0);
    Ret (jb <| packets := h |> <| stats := note_depth (stats jb) (len h) |>).

(** [baseTime.Add(tsDiff * 1e9 / clockRate).Add(targetDelay)] *)
Definition playoutTime (jb : JitterBuffer) (p : Packet) : res Z :=
  let tsDiff := i32 (u32 (Timestamp p - baseTS jb)) in
  d ← go_quot (i64 (tsDiff * 1000000000)) (clockRate jb);
  Ret (baseTime jb + d + targetDelay jb).

Fixpoint get_loop (fuel : nat) (now : Z) (jb : JitterBuffer) (ready : list Packet)
    : res (JitterBuffer * list Packet) :=
  match fuel with
  | O => NoFuel
  | S fuel =>
      match packets jb with
      | [] => Ret (jb, ready)
      | entry :: _ =>
          t ← playoutTime jb (packet entry);
          if now <? t then Ret (jb, ready)
          else
            '(_, h) ← Pop (packets jb);
            let jb := jb <| packets := h |>
                         <| seqSeen := delete (SequenceNumber (packet entry)) (seqSeen jb) |> in
            if targetDelay jb <? time_sub now t then
              get_loop fuel now
                (jb <| stats := (stats jb) <| PacketsLate := incr (PacketsLate (stats jb)) |> |>)
                ready
            else
              get_loop fuel now
                (jb <| stats := (stats jb) <| PacketsDelivered := incr (PacketsDelivered (stats jb)) |> |>)
                (ready ++ [packet entry])
      end
  end.

Definition Get (now : Z) (jb : JitterBuffer) : res (JitterBuffer * list Packet) :=
  match packets jb with
  | [] =>
      let st := stats jb in
      let st := if negb (lastGetWasEmpty jb) && (0 <? PacketsDelivered st)
                then st <| UnderrunCount := incr (UnderrunCount st) |> else st in
      Ret (jb <| stats := st |> <| lastGetWasEmpty := true |>, [])
  | _ =>
      '(jb, ready) ← get_loop (S (length (packets jb))) now jb [];
      let jb := jb <| stats := (stats jb) <| CurrentDepth := len (packets jb) |> |> in
      let jb := match ready with [] => jb | _ => jb <| lastGetWasEmpty := false |> end in
      Ret (jb, ready)
  end.

Definition Flush (jb : JitterBuffer) : JitterBuffer :=
  jb <| packets := [] |> <| seqSeen := ∅ |>
     <| stats := (stats jb) <| CurrentDepth := 0 |> |>
     <| hasBaseTime := false |>.

Definition SetTargetDelay (delay : Z) (jb : JitterBuffer) : JitterBuffer :=
  jb <| targetDelay := delay |>.

Definition GetStats (jb : JitterBuffer) : JitterBufferStats := stats jb.
Definition GetCurrentDepth (jb : JitterBuffer) : Z := len (packets jb).

(** *** What a call of [Get] takes out *)

Definition buffered (jb : JitterBuffer) : list Packet := packet <$> packets jb.
Definition seqs (l : list Packet) : list Z := SequenceNumber <$> l.

(** [is_due]: the playout time has come; [is_late]: it is further back than
    the target delay. *)
Definition is_due (now : Z) (jb : JitterBuffer) (p : Packet) : bool :=
  match playoutTime jb p with Ret t => t <=? now | _ => false end.
Definition is_late (now : Z) (jb : JitterBuffer) (p : Packet) : bool :=
  match playoutTime jb p with Ret t => targetDelay jb <? time_sub now t | _ => false end.
Definition on_time (now : Z) (jb : JitterBuffer) (l : list Packet) : list Packet :=
  filter (fun p => is_late now jb p = false) l.

(** The fields no [Get] changes. *)
Definition config (jb : JitterBuffer) :=
  (maxSize jb, targetDelay jb, clockRate jb, baseTime jb, baseTS jb, hasBaseTime jb).
Definition other_stats (st : JitterBufferStats) :=
  (PacketsBuffered st, PacketsDropped st, MaxDepth st, OverrunCount st).

Record got (now : Z) (jb jb' : JitterBuffer) (popped : list Packet) : Prop := {
  got_config : config jb' = config jb;
  got_elems : buffered jb ≡ₚ popped ++ buffered jb';
  got_due : Forall (fun p => is_due now jb p = true) popped;
  got_rest : match buffered jb' with [] => True | p :: _ => is_due now jb p = false end;
  got_seen s : seen_before s jb' = true <-> seen_before s jb = true /\ s ∉ seqs popped;
  got_delivered : PacketsDelivered (stats jb') =
    u64 (PacketsDelivered (stats jb) + len (on_time now jb popped));
  got_late : PacketsLate (stats jb') =
    u64 (PacketsLate (stats jb) + (len popped - len (on_time now jb popped)));
  got_stats : other_stats (stats jb') = other_stats (stats jb)
}.

(** The heap holds the packets in the order of [key]. *)
Definition keyed (key : Packet -> Z) (jb : JitterBuffer) : Prop :=
  agree packet_less key (buffered jb) /\ heap_ok key (buffered jb).

Definition before (key : Packet -> Z) (l k : list Packet) : Prop :=
  forall x y, x ∈ l -> y ∈ k -> key x <= key y.

Lemma seen_delete s t jb (m := seqSeen jb) :
  default false (delete t m !! s) = true <-> seen_before s jb = true /\ s <> t.
Proof.
  unfold seen_before. fold m. destruct (decide (s = t)) as [->|].
  - rewrite lookup_delete_eq. simpl. split; [done|tauto].
  - rewrite lookup_delete_ne by done. tauto.
Qed.

Lemma playoutTime_config jb jb' p : config jb' = config jb -> playoutTime jb' p = playoutTime jb p.
Proof. unfold config, playoutTime. intros [= _ -> -> -> -> _]. done. Qed.
Lemma is_due_config now jb jb' p : config jb' = config jb -> is_due now jb' p = is_due now jb p.
Proof. intros. unfold is_due. by rewrite (playoutTime_config jb jb'). Qed.
Lemma is_late_config now jb jb' p : config jb' = config jb -> is_late now jb' p = is_late now jb p.
Proof.
  intros Hc. unfold is_late. rewrite (playoutTime_config jb jb') by done.
  unfold config in Hc. by injection Hc as _ -> _ _ _ _.
Qed.
Lemma on_time_config now jb jb' l : config jb' = config jb -> on_time now jb' l = on_time now jb l.
Proof. intros. apply list_filter_iff. intros p. by rewrite (is_late_config now jb jb'). Qed.

Lemma playoutTime_Ret jb p : clockRate jb <> 0 -> exists t, playoutTime jb p = Ret t.
Proof.
  intros. unfold playoutTime, go_quot. rewrite (proj2 (Z.eqb_neq _ _)) by done. eauto.
Qed.

Definition is_u64 (z : Z) : Prop := 0 <= z < 2 ^ 64.
Lemma incr_u64 n : is_u64 (incr n).
Proof. apply u64_range. Qed.

Lemma packet_place i (e : packetEntry) : packet (place i e) = packet e.
Proof. reflexivity. Qed.
Lemma packet_Less (e f : packetEntry) : Less e f = packet_less (packet e) (packet f).
Proof. reflexivity. Qed.

(** Popping the heap of packets. *)
Lemma pop_packets key (h : list packetEntry) e k :
  h = e :: k ->
  exists e' h', Pop h = Ret (e', h') /\ packet e' = packet e /\
    packet <$> h ≡ₚ packet e :: (packet <$> h') /\
    (agree packet_less key (packet <$> h) -> heap_ok key (packet <$> h) ->
     heap_ok key (packet <$> h') /\ Forall (fun q => key (packet e) <= key q) (packet <$> h)).
Proof.
  intros ->. destruct (Pop_spec packet_less packet key packet_place packet_Less
    (e :: k) e eq_refl) as (e' & h' & Hpop & He & Hp & Ho).
  exists e', h'. split_and!; [done..|]. intros Ha Hh. split; [by apply Ho|].
  by apply root_least.
Qed.

(** One round of the loop takes the root out and counts it. *)
Record got1 (now : Z) (jb jb1 : JitterBuffer) (p : Packet) : Prop := {
  got1_config : config jb1 = config jb;
  got1_elems : buffered jb ≡ₚ p :: buffered jb1;
  got1_due : is_due now jb p = true;
  got1_seen s : seen_before s jb1 = true <-> seen_before s jb = true /\ s <> SequenceNumber p;
  got1_delivered : PacketsDelivered (stats jb1) =
    if is_late now jb p then PacketsDelivered (stats jb) else incr (PacketsDelivered (stats jb));
  got1_late : PacketsLate (stats jb1) =
    if is_late now jb p then incr (PacketsLate (stats jb)) else PacketsLate (stats jb);
  got1_stats : other_stats (stats jb1) = other_stats (stats jb)
}.

Lemma u64_incr_add n m : u64 (incr n + m) = u64 (n + (1 + m)).
Proof. unfold incr. mlia. Qed.

Lemma on_time_cons now jb p l :
  on_time now jb (p :: l) = if is_late now jb p then on_time now jb l else p :: on_time now jb l.
Proof. unfold on_time. rewrite filter_cons. destruct (is_late now jb p); done. Qed.

Lemma got_cons now jb jb1 jb' p popped :
  got1 now jb jb1 p -> got now jb1 jb' popped -> got now jb jb' (p :: popped).
Proof.
  intros [Hc He Hd Hs Hdl Hl Hst] [Hc' He' Hd' Hr' Hs' Hdl' Hl' Hst'].
  rewrite (on_time_config now jb jb1) in Hdl', Hl' by done.
  split.
  - by rewrite Hc'.
  - by rewrite He, He'.
  - constructor; [done|]. eapply Forall_impl; [done|]. intros q. cbv beta. by rewrite (is_due_config now jb jb1).
  - destruct (buffered jb'); [done|]. by rewrite (is_due_config now jb jb1) in Hr'.
  - intros s. rewrite Hs', Hs. cbn [seqs fmap list_fmap]. rewrite not_elem_of_cons. tauto.
  - rewrite Hdl', Hdl, on_time_cons. destruct (is_late now jb p); [done|].
    by rewrite len_cons, u64_incr_add.
  - rewrite Hl', Hl, on_time_cons, len_cons. destruct (is_late now jb p).
    + rewrite u64_incr_add. f_equal. lia.
    + rewrite len_cons. f_equal. lia.
  - by rewrite Hst'.
Qed.

Lemma got_nil now jb :
  is_u64 (PacketsDelivered (stats jb)) -> is_u64 (PacketsLate (stats jb)) ->
  match buffered jb with [] => True | p :: _ => is_due now jb p = false end ->
  got now jb jb [].
Proof.
  unfold is_u64. intros Hd Hl Hr. split; try done.
  - intros s. unfold seqs. simpl. rewrite elem_of_nil. tauto.
  - change (len _) with 0. by rewrite Z.add_0_r, u64_id by lia.
  - change (len [] - _) with 0. by rewrite Z.add_0_r, u64_id by lia.
Qed.

Lemma get_loop_spec key fuel now jb ready :
  clockRate jb <> 0 -> (length (packets jb) < fuel)%nat ->
  is_u64 (PacketsDelivered (stats jb)) -> is_u64 (PacketsLate (stats jb)) ->
  exists jb' popped,
    get_loop fuel now jb ready = Ret (jb', ready ++ on_time now jb popped) /\
    got now jb jb' popped /\
    (lastGetWasEmpty jb' = lastGetWasEmpty jb) /\
    (keyed key jb -> keyed key jb' /\ StronglySorted (fun p q => key p <= key q) popped /\
       before key popped (buffered jb')).
Proof.
  revert jb ready. induction fuel as [|fuel IH]; intros jb ready Hrate Hf Hd Hl; [lia|].
  cbn [get_loop]. destruct (packets jb) as [|e k] eqn:Hpk.
  { exists jb, []. cbn. rewrite app_nil_r. split_and!; [done| |done|].
    - apply got_nil; [done..|]. unfold buffered. by rewrite Hpk.
    - intros Hk. split_and!; [done|constructor|]. intros x y Hx. by apply elem_of_nil in Hx. }
  destruct (playoutTime_Ret jb (packet e) Hrate) as [t Ht]. rewrite Ht, bind_Ret.
  assert (is_due now jb (packet e) = (t <=? now)) as Hdue by (unfold is_due; by rewrite Ht).
  assert (is_late now jb (packet e) = (targetDelay jb <? time_sub now t)) as Hlate
    by (unfold is_late; by rewrite Ht).
  destruct (Z.ltb_spec now t).
  { exists jb, []. cbn. rewrite app_nil_r. split_and!; [done| |done|].
    - apply got_nil; [done..|]. unfold buffered. rewrite Hpk. simpl. rewrite Hdue. lia.
    - intros Hk. split_and!; [done|constructor|]. intros x y Hx. by apply elem_of_nil in Hx. }
  destruct (pop_packets key (packets jb) e k Hpk) as (e' & h' & Hpop & He' & Hperm & Hord).
  rewrite <- Hpk, Hpop, bind_Ret. cbv beta zeta iota.
  set (jb0 := upd seqSeen _ _). change (targetDelay jb0) with (targetDelay jb). rewrite <- Hlate.
  set (jb1 := if is_late now jb (packet e)
    then jb0 <| stats := (stats jb0) <| PacketsLate := incr (PacketsLate (stats jb0)) |> |>
    else jb0 <| stats := (stats jb0) <| PacketsDelivered := incr (PacketsDelivered (stats jb0)) |> |>).
  assert (got1 now jb jb1 (packet e)) as H1.
  { subst jb1 jb0. split; destruct (is_late now jb (packet e)); try done; try (rewrite Hdue; lia).
    all: intros s; apply seen_delete. }
  pose proof (Permutation_length Hperm) as Hlen. simpl in Hlen. rewrite !length_fmap, Hpk in Hlen.
  simpl in Hlen, Hf.
  assert (packets jb1 = h') as Hpk1 by (subst jb1; by destruct (is_late _ _ _)).
  destruct (IH jb1 (if is_late now jb (packet e) then ready else ready ++ [packet e]))
    as (jb' & popped & Hrun & Hgot & Hlast & Hk).
  { pose proof (got1_config _ _ _ _ H1) as Hc. unfold config in Hc. by injection Hc as _ _ -> _ _ _. }
  { rewrite Hpk1. lia. }
  { rewrite (got1_delivered _ _ _ _ H1). destruct (is_late _ _ _); [done|apply incr_u64]. }
  { rewrite (got1_late _ _ _ _ H1). destruct (is_late _ _ _); [apply incr_u64|done]. }
  exists jb', (packet e :: popped). split; [|split; [by apply (got_cons now jb jb1)|split]].
  - rewrite on_time_cons, <- (on_time_config now jb jb1) by apply H1.
    subst jb1. destruct (is_late _ _ _); rewrite Hrun; [done|]. by rewrite <- app_assoc.
  - rewrite Hlast. subst jb1 jb0. by destruct (is_late _ _ _).
  - intros [Hag Hh]. destruct (Hord Hag Hh) as [Hh' Hmin].
    assert (keyed key jb1) as Hk1.
    { split; [|unfold buffered; by rewrite Hpk1].
      intros a b Ha Hb. unfold buffered in Ha, Hb. rewrite Hpk1 in Ha, Hb.
      apply Hag; unfold buffered; rewrite Hperm; by right. }
    destruct (Hk Hk1) as (Hk' & Hss & Hbef). split; [done|].
    rewrite Forall_forall in Hmin.
    pose proof (got_elems _ _ _ _ Hgot) as Hel. unfold buffered in Hel at 1. rewrite Hpk1 in Hel.
    split.
    + constructor; [done|]. apply Forall_forall. intros q Hq. apply Hmin.
      rewrite Hperm. right. rewrite Hel. apply elem_of_app. by left.
    + intros x y Hx Hy. apply elem_of_cons in Hx as [-> |Hx]; [|by apply Hbef].
      apply Hmin. rewrite Hperm. right. rewrite Hel. apply elem_of_app. by right.
Qed.

(** *** What a call of [Add] puts in *)

Definition full (jb : JitterBuffer) : bool := maxSize jb <=? len (packets jb).

Lemma len_buffered jb : len (buffered jb) = len (packets jb).
Proof. unfold buffered, len. by rewrite length_fmap. Qed.

Lemma agree_sub lt (key : Packet -> Z) (l k : list Packet) :
  (forall x, x ∈ k -> x ∈ l) -> agree lt key l -> agree lt key k.
Proof. intros Hs Ha a b ??. by apply Ha; apply Hs. Qed.

Lemma make_room_spec key jb :
  1 <= maxSize jb ->
  exists jb' dropped,
    make_room jb = Ret jb' /\ buffered jb ≡ₚ dropped ++ buffered jb' /\
    len dropped = (if full jb then 1 else 0) /\
    config jb' = config jb /\
    (forall s, seen_before s jb' = true <-> seen_before s jb = true /\ s ∉ seqs dropped) /\
    stats jb' = (if full jb then note_drop (stats jb) else stats jb) /\
    (keyed key jb -> keyed key jb' /\ before key dropped (buffered jb')).
Proof.
  intros Hm. unfold make_room, full. destruct (Z.leb_spec (maxSize jb) (len (packets jb))) as [Hf|Hf].
  - destruct (packets jb) as [|e k] eqn:Hpk; [rewrite len_nil in Hf; lia|].
    destruct (pop_packets key (packets jb) e k Hpk) as (e' & h' & Hpop & He' & Hperm & Hord).
    rewrite <- Hpk, Hpop, bind_Ret. cbv beta zeta iota. rewrite He'.
    eexists _, [packet e]. split; [done|]. split; [exact Hperm|]. split_and!; try done.
    + intros s. unfold seqs. simpl. rewrite list_elem_of_singleton. apply seen_delete.
    + intros [Ha Hh]. destruct (Hord Ha Hh) as [Hh' Hmin]. rewrite Forall_forall in Hmin.
      split; [split; [|exact Hh']|].
      * apply (agree_sub _ _ (buffered jb)); [|done]. intros x Hx.
        unfold buffered. rewrite Hperm. by right.
      * intros x y Hx Hy. apply list_elem_of_singleton in Hx as ->. apply Hmin.
        rewrite Hperm. by right.
  - exists jb, []. split_and!; try done.
    + intros s. unfold seqs. simpl. rewrite elem_of_nil. tauto.
    + intros Hk. split; [done|]. intros x y Hx. by apply elem_of_nil in Hx.
Qed.

(** The buffer after [p] was accepted and [dropped] thrown out for it. *)
Record accepted (p : Packet) (jb jb' : JitterBuffer) (dropped : list Packet) : Prop := {
  acc_rest : exists rest, buffered jb ≡ₚ dropped ++ rest /\ buffered jb' ≡ₚ p :: rest;
  acc_dropped : len dropped = if full jb then 1 else 0;
  acc_seen s : seen_before s jb' = true <->
    (s = SequenceNumber p \/ seen_before s jb = true) /\ s ∉ seqs dropped;
  acc_stats : stats jb' =
    note_depth (if full jb then note_drop (stats jb) else stats jb) (len (packets jb'))
}.

Lemma Add_spec key now1 now2 p jb :
  1 <= maxSize jb ->
  exists jb',
    Add now1 now2 p jb = Ret jb' /\
    (maxSize jb', targetDelay jb', clockRate jb', hasBaseTime jb') =
      (maxSize jb, targetDelay jb, clockRate jb, true) /\
    if seen_before (SequenceNumber p) jb
    then (packets jb', seqSeen jb', stats jb') = (packets jb, seqSeen jb, stats jb)
    else exists dropped, accepted p jb jb' dropped /\
      (agree packet_less key (p :: buffered jb) -> heap_ok key (buffered jb) -> keyed key jb' /\
         forall x y, x ∈ dropped -> y ∈ buffered jb -> key x <= key y).
Proof.
  intros Hm. unfold Add.
  set (jb0 := if hasBaseTime jb then jb else _).
  assert ((packets jb0, seqSeen jb0, stats jb0) = (packets jb, seqSeen jb, stats jb) /\
    (maxSize jb0, targetDelay jb0, clockRate jb0, hasBaseTime jb0) =
      (maxSize jb, targetDelay jb, clockRate jb, true)) as [H0 Hc0].
  { subst jb0. destruct (hasBaseTime jb) eqn:Hb; by rewrite ?Hb. }
  injection H0 as Hpk0 Hs0 Hst0.
  assert (seen_before (SequenceNumber p) jb0 = seen_before (SequenceNumber p) jb) as ->
    by (unfold seen_before; by rewrite Hs0).
  assert (full jb0 = full jb) as Hfull.
  { unfold full. rewrite Hpk0. by injection Hc0 as -> _ _ _. }
  destruct (seen_before (SequenceNumber p) jb) eqn:Hseen.
  { exists jb0. split; [done|]. split; [done|]. congruence. }
  set (jb1 := upd seqSeen _ jb0).
  destruct (make_room_spec key jb1) as (jb2 & dropped & -> & Hperm & Hdrop & Hc2 & Hseen2 & Hst2 & Hk2).
  { injection Hc0 as He _ _ _. subst jb1. change (1 <= maxSize jb0). lia. }
  rewrite bind_Ret.
  destruct (Push_spec packet_less packet key packet_place packet_Less (packets jb2) (mkEntry p now2 0))
    as (h & -> & Hpush & Hord).
  rewrite bind_Ret. eexists. split; [done|].
  assert (buffered jb1 = buffered jb) as Hb1.
  { unfold buffered. change (packets jb1) with (packets jb0). by rewrite Hpk0. }
  change (full jb1) with (full jb0) in Hdrop, Hst2. rewrite Hfull in Hdrop, Hst2.
  split; [unfold config in Hc2; simpl in *; simplify_eq; congruence|].
  exists dropped. split; [split|].
  - exists (buffered jb2). rewrite <- Hb1. split; [done|exact Hpush].
  - done.
  - intros s. change (seen_before s (upd stats _ _)) with (seen_before s jb2). rewrite Hseen2.
    assert (seen_before s jb1 = true <-> s = SequenceNumber p \/ seen_before s jb = true) as ->; [|done].
    unfold seen_before. change (seqSeen jb1) with (<[SequenceNumber p := true]> (seqSeen jb0)).
    rewrite Hs0. destruct (decide (s = SequenceNumber p)) as [->|].
    + rewrite lookup_insert_eq. simpl. tauto.
    + rewrite lookup_insert_ne by done. tauto.
  - simpl. change (stats jb2) with (stats jb2). rewrite Hst2. change (stats jb1) with (stats jb0).
    by rewrite Hst0.
  - intros Ha Hh.
    assert (keyed key jb1) as Hk1.
    { split; rewrite Hb1; [|done]. apply (agree_sub _ _ (p :: buffered jb)); [|done]. by right. }
    destruct (Hk2 Hk1) as [[Ha2 Hh2] Hbef].
    assert (agree packet_less key (p :: buffered jb2)) as Ha3.
    { apply (agree_sub _ _ (p :: buffered jb)); [|done].
      intros x Hx. apply elem_of_cons in Hx as [->|Hx]; [by left|]. right. rewrite <- Hb1, Hperm.
      apply elem_of_app. by right. }
    split.
    + split; [|by apply Hord]. change (agree packet_less key (packet <$> h)).
      eapply agree_perm; [exact Hpush|]. exact Ha3.
    + intros x y Hx Hy. rewrite <- Hb1, Hperm in Hy. apply elem_of_app in Hy as [Hy|Hy]; [|by apply Hbef].
      destruct dropped as [|z [|z1 dr]]; [by apply elem_of_nil in Hx| |].
      * apply list_elem_of_singleton in Hx as ->, Hy as ->. lia.
      * rewrite !len_cons in Hdrop. pose proof (len_nonneg dr). destruct (full jb); lia.
Qed.

Lemma Get_spec key now jb :
  clockRate jb <> 0 ->
  is_u64 (PacketsDelivered (stats jb)) -> is_u64 (PacketsLate (stats jb)) ->
  exists jb' popped,
    Get now jb = Ret (jb', on_time now jb popped) /\ got now jb jb' popped /\
    (CurrentDepth (stats jb) = len (packets jb) -> CurrentDepth (stats jb') = len (packets jb')) /\
    (keyed key jb -> keyed key jb' /\ StronglySorted (fun p q => key p <= key q) popped /\
       before key popped (buffered jb')).
Proof.
  intros Hr Hd Hl. unfold Get. destruct (packets jb) as [|e k] eqn:Hpk.
  - set (st := if negb _ && _ then _ else _). eexists _, []. split; [done|].
    assert (buffered jb = []) as Hb by (unfold buffered; by rewrite Hpk).
    assert ((PacketsDelivered st, PacketsLate st, CurrentDepth st, other_stats st) =
      (PacketsDelivered (stats jb), PacketsLate (stats jb), CurrentDepth (stats jb),
       other_stats (stats jb))) as Hst.
    { subst st. by destruct (_ && _). }
    split.
    + assert (got now jb jb []) as [] by (apply got_nil; [done..|by rewrite Hb]).
      clearbody st. injection Hst as H1 H2 H3 H4. split; simpl; try done; try congruence.
      unfold other_stats. congruence.
    + split.
      * simpl. rewrite Hpk. congruence.
      * intros Hk. split; [done|]. split; [constructor|]. intros x y Hx. by apply elem_of_nil in Hx.
  - rewrite <- Hpk. destruct (get_loop_spec key (S (length (packets jb))) now jb [] Hr ltac:(lia) Hd Hl)
      as (jb' & popped & -> & Hgot & _ & Hk). rewrite bind_Ret. cbv beta zeta iota. rewrite app_nil_l.
    set (jb1 := upd stats _ jb').
    set (jb2 := match _ with [] => jb1 | _ => _ end).
    assert ((packets jb2, seqSeen jb2, stats jb2, config jb2) =
            (packets jb', seqSeen jb', stats jb1, config jb')) as Hj.
    { subst jb2 jb1. by destruct (on_time now jb popped). }
    clearbody jb2. unfold config in Hj. injection Hj as Hp2 Hs2 Hst2 ??????.
    assert (buffered jb2 = buffered jb') as Hb2 by (unfold buffered; by rewrite Hp2).
    exists jb2, popped. split; [done|]. split.
    + destruct Hgot. split; rewrite ?Hb2, ?Hst2; try done; [unfold config in *; congruence|].
      intros s. unfold seen_before. rewrite Hs2. apply got_seen0.
    + split; [intros _; rewrite Hst2, Hp2; done|].
      intros Hkey. unfold keyed. rewrite Hb2. by apply Hk.
Qed.

(** *** Runs and their books *)

Inductive jitter_op : Type :=
| OpAdd (now1 now2 : Z) (p : Packet)
| OpGet (now : Z)
| OpFlush
| OpDelay (delay : Z).

Definition jitter_step (op : jitter_op) (jb : JitterBuffer) : res (JitterBuffer * list Packet) :=
  match op with
  | OpAdd n1 n2 p => jb' ← Add n1 n2 p jb; Ret (jb', [])
  | OpGet now => Get now jb
  | OpFlush => Ret (Flush jb, [])
  | OpDelay d => Ret (SetTargetDelay d jb, [])
  end.

(** What the outside saw: packets offered, packets delivered, and how many
    were thrown away by [Flush]. *)
Record ledger := mkLedger { offered : list Packet; delivered : list Packet; flushed : Z }.

Definition entry (op : jitter_op) (jb : JitterBuffer) (out : list Packet) (lg : ledger) : ledger :=
  mkLedger (match op with OpAdd _ _ p => p :: offered lg | _ => offered lg end)
    (delivered lg ++ out)
    (flushed lg + match op with OpFlush => len (packets jb) | _ => 0 end).

Fixpoint jitter_run (ops : list jitter_op) (jb : JitterBuffer) (lg : ledger)
    : res (JitterBuffer * ledger) :=
  match ops with
  | [] => Ret (jb, lg)
  | op :: ops => '(jb', out) ← jitter_step op jb; jitter_run ops jb' (entry op jb out lg)
  end.

Definition empty_ledger : ledger := mkLedger [] [] 0.

Record jitter_ok (size rate : Z) (lg : ledger) (jb : JitterBuffer) : Prop := {
  jo_size : maxSize jb = size;
  jo_rate : clockRate jb = rate;
  jo_bound : len (packets jb) <= size;
  jo_nodup : NoDup (seqs (buffered jb));
  jo_seen s : seen_before s jb = true <-> s ∈ seqs (buffered jb);
  jo_depth : CurrentDepth (stats jb) = len (packets jb);
  jo_max : len (packets jb) <= MaxDepth (stats jb) <= size;
  jo_over : OverrunCount (stats jb) = PacketsDropped (stats jb);
  jo_delivered : PacketsDelivered (stats jb) = u64 (len (delivered lg));
  jo_late : is_u64 (PacketsLate (stats jb));
  jo_books : PacketsBuffered (stats jb) =
    u64 (PacketsDelivered (stats jb) + PacketsLate (stats jb) + PacketsDropped (stats jb) +
         len (packets jb) + flushed lg);
  jo_once : delivered lg ++ buffered jb ⊆+ offered lg
}.

Lemma seqs_app l k : seqs (l ++ k) = seqs l ++ seqs k.
Proof. apply fmap_app. Qed.
Lemma seqs_perm l k : l ≡ₚ k -> seqs l ≡ₚ seqs k.
Proof. intros H. unfold seqs. by rewrite H. Qed.

Lemma Add_ok size rate lg jb n1 n2 p :
  1 <= size -> jitter_ok size rate lg jb ->
  exists jb', Add n1 n2 p jb = Ret jb' /\
    jitter_ok size rate (entry (OpAdd n1 n2 p) jb [] lg) jb'.
Proof.
  intros Hsz [Hs Hr Hb Hnd Hseen Hd Hm Ho Hdl Hlt Hbk Hon].
  destruct (Add_spec (fun _ => 0) n1 n2 p jb) as (jb' & -> & Hc & Hcase); [lia|].
  exists jb'. split; [done|]. injection Hc as Hc1 Hc2 Hc3 Hc4.
  unfold entry. rewrite app_nil_r, Z.add_0_r.
  destruct (seen_before (SequenceNumber p) jb) eqn:Hdup.
  - injection Hcase as Hp Hsq Hst.
    assert (buffered jb' = buffered jb) as Hbf by (unfold buffered; by rewrite Hp).
    split; rewrite ?Hbf, ?Hst, ?Hp; try done; try congruence; try lia.
    + intros s. rewrite <- Hseen. unfold seen_before. by rewrite Hsq.
    + simpl. by apply submseteq_cons.
  - destruct Hcase as (dropped & [(rest & Hel & Hel') Hdr Hsn Hst] & _).
    pose proof (seqs_perm _ _ Hel) as Hq. pose proof (seqs_perm _ _ Hel') as Hq'.
    rewrite seqs_app in Hq. cbn [seqs fmap list_fmap] in Hq'.
    rewrite Hq in Hnd. apply NoDup_app in Hnd as (Hnd1 & Hnd2 & Hnd3).
    assert (SequenceNumber p ∉ seqs (buffered jb)) as Hfresh.
    { rewrite <- Hseen, Hdup. done. }
    rewrite Hq, not_elem_of_app in Hfresh.
    pose proof (Permutation_length Hel) as Hl. pose proof (Permutation_length Hel') as Hl'.
    assert (len (packets jb') = 1 + (len (packets jb) - len dropped)) as Hlen.
    { rewrite <- !len_buffered. unfold len. rewrite length_app in Hl. simpl in Hl'. lia. }
    split; rewrite ?Hst; try done; try congruence.
    + unfold full in Hdr. rewrite Hlen, Hdr, Hs. case_bool; lia.
    + rewrite Hq'. constructor; [tauto|done].
    + intros s. rewrite Hsn, Hseen, Hq, Hq', elem_of_cons, elem_of_app.
      specialize (Hnd2 s). split; [tauto|]. intros [->|Hin]; [tauto|].
      split; [tauto|]. intros Hx. by apply (Hnd2 Hx).
    + simpl. unfold full in Hdr |- *. rewrite Hs in *. rewrite Hlen, Hdr. simpl.
      case_bool; simpl; case_bool; lia.
    + simpl. by destruct (full jb); simpl; rewrite ?Ho.
    + simpl. destruct (full jb); done.
    + simpl. destruct (full jb); done.
    + simpl. rewrite Hlen, Hdr. unfold incr. destruct (full jb); simpl; rewrite Hbk; unfold incr; mlia.
    + simpl. rewrite Hel'. rewrite Permutation_app_comm. simpl. apply submseteq_skip.
      rewrite Permutation_app_comm. etrans; [|exact Hon]. apply submseteq_app; [done|].
      rewrite Hel. by apply submseteq_inserts_l.
Qed.

Lemma on_time_le now jb l : len (on_time now jb l) <= len l.
Proof. unfold on_time, len. pose proof (length_filter (fun p => is_late now jb p = false) l). lia. Qed.
Lemma on_time_sub now jb l : on_time now jb l ⊆+ l.
Proof. apply sublist_submseteq, sublist_filter. Qed.

Lemma Get_ok size rate lg jb now :
  rate <> 0 -> jitter_ok size rate lg jb ->
  exists jb' out, Get now jb = Ret (jb', out) /\
    jitter_ok size rate (entry (OpGet now) jb out lg) jb'.
Proof.
  intros Hr0 [Hs Hr Hb Hnd Hseen Hd Hm Ho Hdl Hlt Hbk Hon].
  destruct (Get_spec (fun _ => 0) now jb) as (jb' & popped & -> & [Hc Hel _ _ Hsn Hdl' Hlt' Hst] & Hdep & _).
  { congruence. }
  { rewrite Hdl. apply u64_range. }
  { done. }
  eexists _, _. split; [done|]. specialize (Hdep Hd).
  unfold config in Hc. injection Hc as Hc1 Hc2 Hc3 Hc4 Hc5 Hc6.
  unfold other_stats in Hst. injection Hst as Hst1 Hst2 Hst3 Hst4.
  pose proof (seqs_perm _ _ Hel) as Hq. rewrite seqs_app in Hq.
  rewrite Hq in Hnd. apply NoDup_app in Hnd as (Hnd1 & Hnd2 & Hnd3).
  assert (len (packets jb) = len popped + len (packets jb')) as Hlen.
  { apply Permutation_length in Hel. rewrite length_app in Hel. rewrite <- !len_buffered. unfold len. lia. }
  pose proof (len_nonneg popped). unfold entry; rewrite Z.add_0_r.
  split; try done; try congruence; try lia; cbn [delivered offered flushed].
  - intros s. rewrite Hsn, Hseen, Hq, elem_of_app. specialize (Hnd2 s). tauto.
  - rewrite Hdl', Hdl, len_app. mlia.
  - rewrite Hlt'. apply u64_range.
  - rewrite Hst1, Hbk, Hlt', Hdl', Hst2, Hlen. mlia.
  - etrans; [|exact Hon]. rewrite <- app_assoc. apply submseteq_app; [done|]. rewrite Hel.
    apply submseteq_app; [apply on_time_sub|done].
Qed.

Lemma jitter_Flush_ok size rate lg jb :
  0 <= size -> jitter_ok size rate lg jb ->
  jitter_ok size rate (entry OpFlush jb [] lg) (Flush jb).
Proof.
  intros H0 [Hs Hr Hb Hnd Hseen Hd Hm Ho Hdl Hlt Hbk Hon].
  pose proof (len_nonneg (packets jb)).
  unfold entry. rewrite app_nil_r. split; try done; cbn; try (rewrite len_nil; lia); try lia.
  - constructor.
  - intros s. unfold seqs, buffered, Flush, seen_before. simpl. rewrite lookup_empty, elem_of_nil. done.
  - rewrite Hbk, len_nil. f_equal. lia.
  - rewrite app_nil_r. etrans; [|exact Hon]. by apply submseteq_inserts_r.
Qed.

Lemma step_ok size rate lg jb op :
  1 <= size -> rate <> 0 -> jitter_ok size rate lg jb ->
  exists jb' out, jitter_step op jb = Ret (jb', out) /\
    jitter_ok size rate (entry op jb out lg) jb'.
Proof.
  intros Hs Hr Hok. destruct op as [n1 n2 p|now| |d]; simpl.
  - destruct (Add_ok size rate lg jb n1 n2 p) as (jb' & -> & Hok'); [done..|]. rewrite bind_Ret. eauto.
  - by apply Get_ok.
  - eexists _, _. split; [done|]. apply jitter_Flush_ok; [lia|done].
  - eexists _, _. split; [done|]. destruct Hok. unfold entry. rewrite app_nil_r, Z.add_0_r.
    by split.
Qed.

Lemma jitter_New_ok size delay rate jb :
  NewJitterBuffer size delay rate = Ret jb -> jitter_ok size rate empty_ledger jb.
Proof.
  unfold NewJitterBuffer. case_bool; [done|]. intros [= <-].
  split; try done; cbn; try (rewrite len_nil; lia).
  - constructor.
  - intros s. unfold seen_before, seqs. simpl. rewrite lookup_empty, elem_of_nil. done.
Qed.

Lemma run_ok size rate lg jb ops :
  1 <= size -> rate <> 0 -> jitter_ok size rate lg jb ->
  exists jb' lg', jitter_run ops jb lg = Ret (jb', lg') /\ jitter_ok size rate lg' jb'.
Proof.
  intros Hs Hr. revert jb lg. induction ops as [|op ops IH]; intros jb lg Hok; simpl; [eauto|].
  destruct (step_ok size rate lg jb op) as (jb' & out & -> & Hok'); [done..|].
  rewrite bind_Ret. by apply IH.
Qed.

(** C8: a jitter buffer with room for at least one packet and a clock rate
    never panics, whatever packets, clock readings, flushes and delay changes
    it sees.  It holds at most [maxSize] packets, no two with one sequence
    number, and [seqSeen] is exactly the set of buffered numbers; the packets
    delivered and buffered were offered, each at most as often as offered;
    and every buffered packet is accounted for: buffered = delivered + late +
    dropped + depth + flushed (modulo 2^64), with [CurrentDepth], [MaxDepth],
    [OverrunCount] and [PacketsDelivered] equal to what they claim. *)
Theorem jitter_books (size delay rate : Z) (jb0 : JitterBuffer) (ops : list jitter_op) :
  1 <= size -> rate <> 0 -> NewJitterBuffer size delay rate = Ret jb0 ->
  exists jb lg, jitter_run ops jb0 empty_ledger = Ret (jb, lg) /\ jitter_ok size rate lg jb.
Proof. intros ? ? H%jitter_New_ok. by apply run_ok. Qed.

Definition packet_at (seq ts : Z) : Packet := mkPacket seq ts [].

Lemma jitter_books_witness :
  exists jb lg, jitter_run
    [OpAdd 0 0 (packet_at 10 0); OpAdd 0 0 (packet_at 10 0); OpAdd 0 0 (packet_at 9 0);
     OpAdd 0 0 (packet_at 12 0); OpGet 50; OpFlush; OpGet 60]
    (mkJitter [] ∅ 2 20 90000 zero_time 0 false false (mkJStats 0 0 0 0 0 0 0 0)) empty_ledger
    = Ret (jb, lg) /\ jitter_ok 2 90000 lg jb.
Proof. apply (jitter_books 2 20 90000); [lia|lia|reflexivity]. Defined.

(** *** Playout order *)

Lemma seq_less_window n m :
  - 2 ^ 15 < n - m < 2 ^ 15 -> seq_less (u16 n) (u16 m) = (n <? m).
Proof. intros. unfold seq_less. repeat (case_bool; [mlia|]). mlia. Qed.

(** [near ext l p]: the 16-bit number of [p], and of every packet of [l], is
    that of an unbounded number [ext], less than half the space from [p]'s. *)
Definition near (ext : Packet -> Z) (l : list Packet) (p : Packet) : Prop :=
  SequenceNumber p = u16 (ext p) /\
  Forall (fun q => SequenceNumber q = u16 (ext q) /\ - 2 ^ 15 < ext p - ext q < 2 ^ 15) l.

Fixpoint windowed (ext : Packet -> Z) (ops : list jitter_op) (jb : JitterBuffer) : Prop :=
  match ops with
  | [] => True
  | op :: ops =>
      match op with OpAdd _ _ p => near ext (buffered jb) p | _ => True end /\
      match jitter_step op jb with Ret (jb', _) => windowed ext ops jb' | _ => True end
  end.

(** The same as a test. *)
Definition nearb (ext : Packet -> Z) (l : list Packet) (p : Packet) : bool :=
  (SequenceNumber p =? u16 (ext p)) &&
  forallb (fun q => (SequenceNumber q =? u16 (ext q)) &&
    ((- 2 ^ 15 <? ext p - ext q) && (ext p - ext q <? 2 ^ 15))) l.
Fixpoint windowedb (ext : Packet -> Z) (ops : list jitter_op) (jb : JitterBuffer) : bool :=
  match ops with
  | [] => true
  | op :: ops =>
      match op with OpAdd _ _ p => nearb ext (buffered jb) p | _ => true end &&
      match jitter_step op jb with Ret (jb', _) => windowedb ext ops jb' | _ => true end
  end.

Lemma nearb_near ext l p : nearb ext l p = true -> near ext l p.
Proof.
  unfold nearb, near. intros [Hp Hl]%andb_true_iff. split; [by apply Z.eqb_eq|].
  rewrite forallb_forall in Hl. apply Forall_forall. intros q Hq.
  apply list_elem_of_In, Hl in Hq. zbool. done.
Qed.
Lemma windowedb_windowed ext ops jb : windowedb ext ops jb = true -> windowed ext ops jb.
Proof.
  revert jb. induction ops as [|op ops IH]; intros jb; [done|]. simpl.
  intros [H1 H2]%andb_true_iff. split; [destruct op; try done; by apply nearb_near|].
  destruct (jitter_step op jb) as [[jb' out]| |]; try done. by apply IH.
Qed.

Lemma near_agree ext l p :
  near ext l p -> agree packet_less ext l -> agree packet_less ext (p :: l).
Proof.
  intros [Hp Hl] Ha a b Hin Hin'. rewrite Forall_forall in Hl. unfold packet_less.
  apply elem_of_cons in Hin as [->|Hin], Hin' as [->|Hin'].
  - rewrite Hp. apply seq_less_window. lia.
  - destruct (Hl b Hin') as [-> ?]. rewrite Hp. by apply seq_less_window.
  - destruct (Hl a Hin) as [-> ?]. rewrite Hp. apply seq_less_window. lia.
  - by apply Ha.
Qed.

Lemma keyed_same ext jb jb' : packets jb' = packets jb -> keyed ext jb -> keyed ext jb'.
Proof. unfold keyed, buffered. by intros ->. Qed.

Lemma step_keyed ext size rate lg jb op jb' out :
  1 <= size -> rate <> 0 -> jitter_ok size rate lg jb -> keyed ext jb ->
  match op with OpAdd _ _ p => near ext (buffered jb) p | _ => True end ->
  jitter_step op jb = Ret (jb', out) -> keyed ext jb'.
Proof.
  intros Hs Hr Hok Hk Hn Hstep. destruct op as [n1 n2 p|now| |d]; simpl in Hstep.
  - destruct (Add_spec ext n1 n2 p jb) as (jb1 & Hadd & _ & Hcase); [by rewrite (jo_size _ _ _ _ Hok)|].
    rewrite Hadd in Hstep. injection Hstep as <- _. destruct (seen_before _ _).
    + injection Hcase as Hp _ _. by apply (keyed_same ext jb).
    + destruct Hcase as (dr & _ & Hord). destruct Hk as [Ha Hh]. apply Hord; [|done].
      by apply near_agree.
  - destruct (Get_spec ext now jb) as (jb1 & popped & Hget & _ & _ & Hord).
    + by rewrite (jo_rate _ _ _ _ Hok).
    + rewrite (jo_delivered _ _ _ _ Hok). apply u64_range.
    + by apply (jo_late _ _ _ _ Hok).
    + rewrite Hget in Hstep. injection Hstep as <- _. by apply Hord.
  - injection Hstep as <- _. split; [|intros j Hj; simpl in Hj; lia].
    intros a b Ha. by apply elem_of_nil in Ha.
  - injection Hstep as <- _. by apply (keyed_same ext jb).
Qed.

Lemma run_keyed ext size rate lg jb ops :
  1 <= size -> rate <> 0 -> jitter_ok size rate lg jb -> keyed ext jb -> windowed ext ops jb ->
  exists jb' lg', jitter_run ops jb lg = Ret (jb', lg') /\ jitter_ok size rate lg' jb' /\
    keyed ext jb'.
Proof.
  intros Hs Hr. revert jb lg. induction ops as [|op ops IH]; intros jb lg Hok Hk Hw; simpl; [eauto|].
  destruct (step_ok size rate lg jb op) as (jb1 & out & Hstep & Hok1); [done..|].
  destruct Hw as [Hn Hw]. rewrite Hstep in Hw |- *. rewrite bind_Ret.
  apply IH; [done| |done]. exact (step_keyed ext size rate lg jb op jb1 out Hs Hr Hok Hk Hn Hstep).
Qed.

Lemma New_keyed ext size delay rate jb : NewJitterBuffer size delay rate = Ret jb -> keyed ext jb.
Proof.
  unfold NewJitterBuffer. case_bool; [done|]. intros [= <-].
  split; [|intros j Hj; simpl in Hj; lia]. intros a b Ha. by apply elem_of_nil in Ha.
Qed.

(** C6: as long as every packet added is less than half the sequence space
    away from those then buffered, a [Get] takes out exactly the due prefix of
    the buffered packets in sequence order, across the 16-bit wrap: the
    packets taken are sorted, all due and all before those that stay, and the
    first that stays is not due.  It returns those taken that are no more than
    the target delay late, in that order. *)
Theorem playout_order (ext : Packet -> Z) (size delay rate : Z) (jb0 : JitterBuffer)
    (ops : list jitter_op) (now : Z) :
  1 <= size -> rate <> 0 -> NewJitterBuffer size delay rate = Ret jb0 ->
  windowed ext ops jb0 ->
  exists jb lg jb' popped,
    jitter_run ops jb0 empty_ledger = Ret (jb, lg) /\
    Get now jb = Ret (jb', on_time now jb popped) /\
    buffered jb ≡ₚ popped ++ buffered jb' /\
    StronglySorted (fun p q => ext p <= ext q) popped /\
    before ext popped (buffered jb') /\
    Forall (fun p => is_due now jb p = true) popped /\
    match buffered jb' with
    | [] => True
    | p :: l => is_due now jb p = false /\ Forall (fun q => ext p <= ext q) l
    end.
Proof.
  intros Hs Hr Hnew Hw.
  destruct (run_keyed ext size rate empty_ledger jb0 ops Hs Hr (jitter_New_ok _ _ _ _ Hnew)
    (New_keyed _ _ _ _ _ Hnew) Hw) as (jb & lg & Hrun & Hok & Hk).
  destruct (Get_spec ext now jb) as (jb' & popped & Hget & Hgot & _ & Hord).
  { by rewrite (jo_rate _ _ _ _ Hok). }
  { rewrite (jo_delivered _ _ _ _ Hok). apply u64_range. }
  { by apply (jo_late _ _ _ _ Hok). }
  destruct (Hord Hk) as ([_ Hh] & Hss & Hbef). destruct Hgot.
  exists jb, lg, jb', popped. split_and!; try done.
  destruct (buffered jb') as [|p l] eqn:Hb; [done|]. split; [done|].
  pose proof (root_least ext (p :: l) p Hh eq_refl) as Hm. by inversion Hm.
Qed.

Definition order_ext (p : Packet) : Z :=
  if SequenceNumber p <? 100 then SequenceNumber p + 65536 else SequenceNumber p.
Definition order_ops : list jitter_op :=
  [OpAdd 1000 1000 (packet_at 65534 0); OpAdd 1001 1001 (packet_at 1 180);
   OpAdd 1002 1002 (packet_at 65535 90); OpAdd 1003 1003 (packet_at 0 90)].
Definition order_start : JitterBuffer :=
  mkJitter [] ∅ 8 10000000 90000 zero_time 0 false false (mkJStats 0 0 0 0 0 0 0 0).

Example order_run :
  (r ← jitter_run order_ops order_start empty_ledger;
   '(jb, out) ← Get 11001100 r.1; Ret (seqs out, seqs (buffered jb)))
  = Ret ([65534; 65535; 0], [1]).
Proof. vm_compute. reflexivity. Qed.

Lemma playout_order_witness :
  exists jb lg jb' popped,
    jitter_run order_ops order_start empty_ledger = Ret (jb, lg) /\
    Get 11001100 jb = Ret (jb', on_time 11001100 jb popped) /\
    buffered jb ≡ₚ popped ++ buffered jb' /\
    StronglySorted (fun p q => order_ext p <= order_ext q) popped /\
    before order_ext popped (buffered jb') /\
    Forall (fun p => is_due 11001100 jb p = true) popped /\
    match buffered jb' with
    | [] => True
    | p :: l => is_due 11001100 jb p = false /\ Forall (fun q => order_ext p <= order_ext q) l
    end.
Proof.
  apply (playout_order order_ext 8 10000000 90000); [lia|lia|reflexivity|].
  apply windowedb_windowed. vm_compute. reflexivity.
Defined.

Lemma floor_sum a b c d : 0 < c -> (d + 2) * c <= a + b -> d < a / c + b / c.
Proof.
  intros Hc Hd. pose proof (Z.div_mod a c ltac:(lia)). pose proof (Z.mod_pos_bound a c Hc).
  pose proof (Z.div_mod b c ltac:(lia)). pose proof (Z.mod_pos_bound b c Hc).
  destruct (Z.lt_ge_cases d (a / c + b / c)) as [|Hle]; [done|].
  pose proof (Z.mul_le_mono_nonneg_l _ _ c ltac:(lia) Hle). lia.
Qed.

(** a session longer than half the 32-bit timestamp cycle loses its video:
    [baseTS] is only set by the first packet and by the first after a flush,
    so the signed offset of a packet [T] ticks into the session wraps once
    [T] reaches 2^31.  A packet polled exactly at its ideal playout time is
    then thrown away as late, for every such [T] up to the full cycle (from
    6.6 to 13.2 hours at 90 kHz), unless the target delay is that long. *)
Theorem half_cycle_silence (jb : JitterBuffer) (e : packetEntry) (T : Z) :
  packets jb = [e] -> 0 < clockRate jb < 2 ^ 32 ->
  2 ^ 31 <= T < 2 ^ 32 -> Timestamp (packet e) = u32 (baseTS jb + T) ->
  0 <= targetDelay jb < 2 ^ 62 ->
  (targetDelay jb + 2) * clockRate jb <= 2 ^ 32 * 1000000000 ->
  is_u64 (PacketsDelivered (stats jb)) -> is_u64 (PacketsLate (stats jb)) ->
  exists jb',
    Get (baseTime jb + T * 1000000000 / clockRate jb + targetDelay jb) jb = Ret (jb', []) /\
    packets jb' = [] /\
    PacketsLate (stats jb') = incr (PacketsLate (stats jb)).
Proof.
  intros Hpk Hr HT Hts Hdel Hlong Hd Hl.
  set (now := baseTime jb + T * 1000000000 / clockRate jb + targetDelay jb).
  assert (playoutTime jb (packet e) =
    Ret (baseTime jb + - ((2 ^ 32 - T) * 1000000000 / clockRate jb) + targetDelay jb)) as Hp.
  { unfold playoutTime. rewrite Hts.
    replace (i32 (u32 (u32 (baseTS jb + T) - baseTS jb))) with (- (2 ^ 32 - T)) by mlia.
    rewrite i64_id by lia. by rewrite Z.mul_opp_l, go_quot_neg_div, bind_Ret by lia. }
  assert (0 <= (2 ^ 32 - T) * 1000000000 / clockRate jb) by (apply Z.div_pos; lia).
  assert (2 ^ 31 * 1000000000 < 2 ^ 63) by lia.
  pose proof (Z.div_pos (T * 1000000000) (clockRate jb) ltac:(lia) ltac:(lia)).
  assert (targetDelay jb <
    T * 1000000000 / clockRate jb + (2 ^ 32 - T) * 1000000000 / clockRate jb) as Hsum.
  { apply floor_sum; lia. }
  assert (is_due now jb (packet e) = true) as Hdue.
  { unfold is_due. rewrite Hp. apply Z.leb_le. subst now. lia. }
  assert (is_late now jb (packet e) = true) as Hlate.
  { unfold is_late. rewrite Hp. apply Z.ltb_lt. subst now. unfold time_sub, min_i64, max_i64. lia. }
  destruct (Get_spec (fun _ => 0) now jb ltac:(lia) Hd Hl)
    as (jb' & popped & Hget & Hgot & _). destruct Hgot.
  unfold buffered in got_elems0, got_rest0. rewrite Hpk in got_elems0. simpl in got_elems0.
  assert (popped = [packet e] /\ packets jb' = []) as [-> Hnil].
  { pose proof (Permutation_length got_elems0) as Hlen. rewrite length_app in Hlen. simpl in Hlen.
    destruct popped as [|q [|??]]; simpl in *.
    - destruct (packet <$> packets jb') as [|q [|??]] eqn:Hq; try done.
      apply Permutation_singleton_l in got_elems0. simplify_eq. by rewrite Hdue in got_rest0.
    - destruct (packets jb'); simpl in *; [|lia].
      apply Permutation_singleton_l in got_elems0. simplify_eq. done.
    - lia. }
  rewrite on_time_cons, Hlate in Hget, got_late0.
  exists jb'. split; [exact Hget|]. split; [done|]. rewrite got_late0. done.
Qed.

Definition half_cycle_start : JitterBuffer :=
  mkJitter [mkEntry (packet_at 7 2147483648) 0 0] {[7 := true]} 8 100000000 90000 1000 0 true false
    (mkJStats 1 0 0 0 1 1 0 0).
Lemma half_cycle_silence_witness :
  exists jb', Get (1000 + 2147483648 * 1000000000 / 90000 + 100000000) half_cycle_start = Ret (jb', []) /\
    packets jb' = [] /\ PacketsLate (stats jb') = 1.
Proof.
  apply (half_cycle_silence half_cycle_start (mkEntry (packet_at 7 2147483648) 0 0) 2147483648);
    try reflexivity; simpl; try lia; unfold is_u64; simpl; lia.
Defined.
