(* ===== verification/Frame.v ===== *)
(** * Video frames and rational time bases (types/frame.go, types/rational.go) *)

From stdpp Require Import strings.
From S2P Require Import Prelude Float64.

Inductive FrameType : Type :=
| FrameTypeI | FrameTypeP | FrameTypeB | FrameTypeIDR
| FrameTypeSPS | FrameTypePPS | FrameTypeVPS | FrameTypeSEI | FrameTypeAUD
| FrameTypeCRA | FrameTypeBLA.
#[export] Instance FrameType_eq_dec : EqDecision FrameType.
Proof. solve_decision. Defined.

Definition ft_eqb (a b : FrameType) : bool := bool_decide (a = b).

Definition FrameType_String (f : FrameType) : string :=
  match f with
  | FrameTypeI => "I" | FrameTypeP => "P" | FrameTypeB => "B" | FrameTypeIDR => "IDR"
  | FrameTypeSPS => "SPS" | FrameTypePPS => "PPS" | FrameTypeVPS => "VPS"
  | FrameTypeSEI => "SEI" | FrameTypeAUD => "AUD" | FrameTypeCRA => "CRA"
  | FrameTypeBLA => "BLA"
  end.

Definition FrameType_IsKeyframe (f : FrameType) : bool :=
  ft_eqb f FrameTypeI || ft_eqb f FrameTypeIDR || ft_eqb f FrameTypeCRA || ft_eqb f FrameTypeBLA.
Definition FrameType_IsReference (f : FrameType) : bool :=
  ft_eqb f FrameTypeI || ft_eqb f FrameTypeP || ft_eqb f FrameTypeIDR || ft_eqb f FrameTypeCRA ||
  ft_eqb f FrameTypeBLA.
Definition FrameType_IsDiscardable (f : FrameType) : bool :=
  ft_eqb f FrameTypeB || ft_eqb f FrameTypeSEI.

(** [FrameFlags] is a 16-bit set of the bits below. *)
Definition FrameFlagKeyframe : Z := Z.shiftl 1 0.
Definition FrameFlagReference : Z := Z.shiftl 1 1.
Definition FrameFlagCorrupted : Z := Z.shiftl 1 2.
Definition FrameFlagDroppable : Z := Z.shiftl 1 3.
Definition FrameFlagLastInGOP : Z := Z.shiftl 1 4.
Definition FrameFlagSceneChange : Z := Z.shiftl 1 5.
Definition FrameFlagInterlaced : Z := Z.shiftl 1 6.

Record NALUnit := mkNAL { nal_Type : Z; nal_Data : list Z; nal_Importance : Z; nal_RefIdc : Z }.

(** [CodecData], an untyped slot, is the one field left out. *)
Record VideoFrame := mkFrame {
  ID : Z;
  StreamID : string;
  FrameNumber : Z;
  NALUnits : list NALUnit;
  TotalSize : Z;
  PTS : Z;
  DTS : Z;
  Duration : Z;
  CaptureTime : Z;
  CompleteTime : Z;
  FType : FrameType;
  Flags : Z;
  GOPId : Z;
  GOPPosition : Z;
  References : list Z;
  ReferencedBy : list Z;
  QP : Z;
  PSNR : float64;
  PresentationTime : Z
}.
#[export] Instance eta_frame : Eta VideoFrame := fun f =>
  mkFrame (ID f) (StreamID f) (FrameNumber f) (NALUnits f) (TotalSize f) (PTS f) (DTS f)
    (Duration f) (CaptureTime f) (CompleteTime f) (FType f) (Flags f) (GOPId f) (GOPPosition f)
    (References f) (ReferencedBy f) (QP f) (PSNR f) (PresentationTime f).

Definition HasFlag (flag : Z) (f : VideoFrame) : bool := negb (Z.land (Flags f) flag =? 0).
Definition SetFlag (flag : Z) (f : VideoFrame) : VideoFrame := f <| Flags := Z.lor (Flags f) flag |>.
Definition IsKeyframe (f : VideoFrame) : bool :=
  FrameType_IsKeyframe (FType f) || HasFlag FrameFlagKeyframe f.
Definition IsReference (f : VideoFrame) : bool :=
  FrameType_IsReference (FType f) || HasFlag FrameFlagReference f.
Definition IsCorrupted (f : VideoFrame) : bool := HasFlag FrameFlagCorrupted f.
Definition CanDrop (f : VideoFrame) : bool :=
  FrameType_IsDiscardable (FType f) || HasFlag FrameFlagDroppable f.

Definition GetNALUnitByType (t : Z) (f : VideoFrame) : option NALUnit :=
  List.find (fun n => nal_Type n =? t) (NALUnits f).
Definition HasNALUnitType (t : Z) (f : VideoFrame) : bool :=
  match GetNALUnitByType t f with Some _ => true | None => false end.

Definition CalculateBitrate (f : VideoFrame) : float64 :=
  if Duration f <=? 0 then f64_of_Z 0
  else f64_div (f64_of_Z (i64 (TotalSize f * 8))) (f64_div (f64_of_Z (Duration f)) (f64_of_Z 90000)).

Record Rational := mkRational { Num : Z; Den : Z }.
Definition NewRational (num den : Z) : Rational :=
  mkRational num (if den =? 0 then 1 else den).
Definition Rational_Float64 (r : Rational) : float64 :=
  if Den r =? 0 then f64_of_Z 0 else f64_div (f64_of_Z (Num r)) (f64_of_Z (Den r)).
Definition Invert (r : Rational) : Rational := mkRational (Den r) (Num r).

(** A frame with the fields the ordering code reads. *)
Definition frame_of (id : Z) (t : FrameType) (pts dts capture : Z) : VideoFrame :=
  mkFrame id "" 0 [] 0 pts dts 0 capture 0 t 0 0 0 [] [] 0 (f64_of_Z 0) 0.

Lemma ft_eqb_spec a b : ft_eqb a b = true <-> a = b.
Proof. apply bool_decide_eq_true. Qed.
Lemma ft_eqb_false a b : ft_eqb a b = false <-> a <> b.
Proof. apply bool_decide_eq_false. Qed.

(** A frame type is never at once a reference and discardable, and a key frame
    is a reference. *)
Lemma frame_type_classes t :
  (FrameType_IsKeyframe t = true -> FrameType_IsReference t = true) /\
  (FrameType_IsReference t = true -> FrameType_IsDiscardable t = false).
Proof. by destruct t. Qed.
