(* ===== verification/Reorderer.v ===== *)
(** * B-frame reordering (frame/bframe_reorderer.go)

    Frames wait in a min-heap by DTS until the buffer is deep enough, the
    frame is old enough or its type lets it go.  Methods hold the reorderer's
    mutex; the readings of [time.Since] in the output loop are a clock
    [nat -> Z], one reading per round.  The log calls have no effect on the
    state and are left out. *)

From stdpp Require Import sorting.
From S2P Require Import Prelude Float64 Heap Frame.

Record BFrameReorderer := mkReorderer {
  maxReorderDepth : Z;
  maxDelay : Z;
  buffer : list VideoFrame;
  lastOutputPTS : Z;
  lastOutputDTS : Z;
  baseTime : Z;
  framesReordered : Z;
  framesDropped : Z;
  maxBufferSize : Z
}.
#[export] Instance eta_reorderer : Eta BFrameReorderer := fun r =>
  mkReorderer (maxReorderDepth r) (maxDelay r) (buffer r) (lastOutputPTS r) (lastOutputDTS r)
    (baseTime r) (framesReordered r) (framesDropped r) (maxBufferSize r).

Inductive reorder_error : Type := NilFrame.

(** [frameHeap]: [Less] compares DTS; [Swap] records nothing. *)
Definition frame_less (a b : VideoFrame) : bool := DTS a <? DTS b.
Definition frameHeap : Interface VideoFrame := plain frame_less.
#[export] Existing Instance frameHeap.

Definition NewBFrameReorderer (depth delay : Z) : BFrameReorderer :=
  mkReorderer (if depth <=? 0 then 3 else depth)
    (if delay <=? 0 then 200 * millisecond else delay) [] (-1) (-1) zero_time 0 0 0.

(** A nil frame is refused; a zero DTS with a non-zero PTS is replaced, in the
    caller's frame, by the PTS. *)
Definition validateFrame (frame : option VideoFrame) : exn reorder_error VideoFrame :=
  match frame with
  | None => Err NilFrame
  | Some f => Val (if (DTS f =? 0) && negb (PTS f =? 0) then f <| DTS := PTS f |> else f)
  end.

Definition maxDTS33Wrap : Z := Z.shiftl 1 33.
Definition maxReasonableJump : Z := 90000 * 10.

Definition reset_order (r : BFrameReorderer) : BFrameReorderer :=
  r <| lastOutputDTS := -1 |> <| lastOutputPTS := -1 |>.

Definition isValidOutput (f : VideoFrame) (r : BFrameReorderer) : BFrameReorderer * bool :=
  if lastOutputPTS r <? 0 then (r, true)
  else if DTS f <? lastOutputDTS r then
    let dtsDiff := i64 (lastOutputDTS r - DTS f) in
    if Z.quot maxDTS33Wrap 2 <? dtsDiff then (r, true)
    else if maxReasonableJump <? dtsDiff then (reset_order r, true)
    else (r, false)
  else if negb (ft_eqb (FType f) FrameTypeB) && (PTS f <? lastOutputPTS r) then
    let ptsDiff := i64 (lastOutputPTS r - PTS f) in
    if Z.quot maxDTS33Wrap 2 <? ptsDiff then (r, true)
    else if maxReasonableJump <? ptsDiff then (reset_order r, true)
    else (r, false)
  else (r, true).

Definition updateOutputState (f : VideoFrame) (r : BFrameReorderer) : BFrameReorderer :=
  (if ft_eqb (FType f) FrameTypeB then r else r <| lastOutputPTS := PTS f |>)
  <| lastOutputDTS := DTS f |>.

Definition estimateFrameDuration (frame1 frame2 : VideoFrame) : Z :=
  let dtsDiff := i64 (DTS frame2 - DTS frame1) in
  if (dtsDiff <=? 0) || (10000 <? dtsDiff) then 3000 else dtsDiff.

(** The smaller of the root's two children. *)
Definition second_frame (b : list VideoFrame) : res VideoFrame :=
  second ← idx b 1;
  if 2 <? len b then third ← idx b 2; Ret (if DTS third <? DTS second then third else second)
  else Ret second.

Definition gap_fires (next second : VideoFrame) : bool :=
  (ft_eqb (FType second) FrameTypeI || ft_eqb (FType second) FrameTypeP) &&
  (i64 (2 * estimateFrameDuration next second) <? i64 (DTS second - DTS next)).

(** Conditions 1 to 5 of [checkOutput], in the source's order. *)
Definition should_output (now : Z) (next : VideoFrame) (r : BFrameReorderer) : res bool :=
  let n := len (buffer r) in
  let full := maxReorderDepth r <? n in
  let old := negb (is_zero_time (baseTime r)) &&
             (maxDelay r <? time_sub now (CaptureTime next)) in
  let enough := maxReorderDepth r <=? n in
  let idr := ft_eqb (FType next) FrameTypeIDR in
  let intra := ft_eqb (FType next) FrameTypeI && (1 <? n) in
  p ← (if ft_eqb (FType next) FrameTypeP && (1 <? n) then
         second ← second_frame (buffer r);
         Ret (gap_fires next second || (Z.quot (maxReorderDepth r + 1) 2 <=? n))
       else Ret false);
  Ret (full || old || enough || idr || intra || p).

Definition bump (n : Z) : Z := u64 (n + 1).

Fixpoint checkOutput (fuel : nat) (clk : nat -> Z) (k : nat) (r : BFrameReorderer)
    (output : list VideoFrame) : res (BFrameReorderer * list VideoFrame) :=
  match fuel with
  | O => NoFuel
  | S fuel =>
      match buffer r with
      | [] => Ret (r, output)
      | nextFrame :: _ =>
          go ← should_output (clk k) nextFrame r;
          if negb go then Ret (r, output)
          else
            '(f, h) ← Pop (buffer r);
            let (r, ok) := isValidOutput f (r <| buffer := h |>) in
            if ok : bool then
              let r := updateOutputState f r in
              checkOutput fuel clk (S k) (r <| framesReordered := bump (framesReordered r) |>)
                (output ++ [f])
            else checkOutput fuel clk (S k) (r <| framesDropped := bump (framesDropped r) |>) output
      end
  end.

Definition AddFrame (clk : nat -> Z) (frame : option VideoFrame) (r : BFrameReorderer)
    : res (BFrameReorderer * exn reorder_error (list VideoFrame)) :=
  match validateFrame frame with
  | Err e => Ret (r <| framesDropped := bump (framesDropped r) |>, Err e)
  | Val f =>
      let r := if is_zero_time (baseTime r) then r <| baseTime := CaptureTime f |> else r in
      h ← Push (buffer r) f;
      let r := r <| buffer := h |> in
      let r := if maxBufferSize r <? len (buffer r) then r <| maxBufferSize := len (buffer r) |>
               else r in
      '(r, out) ← checkOutput (S (length (buffer r))) clk 0 r [];
      Ret (r, Val out)
  end.

Fixpoint flush_loop (fuel : nat) (r : BFrameReorderer) (output : list VideoFrame)
    : res (BFrameReorderer * list VideoFrame) :=
  match fuel with
  | O => NoFuel
  | S fuel =>
      match buffer r with
      | [] => Ret (r, output)
      | _ =>
          '(f, h) ← Pop (buffer r);
          let (r, ok) := isValidOutput f (r <| buffer := h |>) in
          if ok : bool then flush_loop fuel (updateOutputState f r) (output ++ [f])
          else flush_loop fuel r output
      end
  end.
Definition Flush (r : BFrameReorderer) : res (BFrameReorderer * list VideoFrame) :=
  flush_loop (S (length (buffer r))) r [].

Record BFrameReordererStats := mkRStats {
  FramesReordered : Z; FramesDropped : Z; CurrentBuffer : Z; MaxBufferSize : Z }.
Definition GetStats (r : BFrameReorderer) : BFrameReordererStats :=
  mkRStats (framesReordered r) (framesDropped r) (len (buffer r)) (maxBufferSize r).

(** *** What may follow what *)

Definition wide (z : Z) : Prop := - 2 ^ 62 <= z < 2 ^ 62.
Definition wide_frame (f : VideoFrame) : Prop := wide (DTS f) /\ wide (PTS f).
Definition in_range (r : BFrameReorderer) : Prop :=
  Forall wide_frame (buffer r) /\ wide (lastOutputDTS r) /\ wide (lastOutputPTS r).

(** The frame [f] may be output in state [r]: nothing to compare with yet, or
    a jump back of more than ten seconds, or no DTS going back and, for other
    than B-frames, no PTS going back by up to ten seconds. *)
Definition fresh (r : BFrameReorderer) (f : VideoFrame) : Prop :=
  lastOutputPTS r < 0 \/
  maxReasonableJump < lastOutputDTS r - DTS f \/
  (lastOutputDTS r <= DTS f /\
   (FType f = FrameTypeB \/ lastOutputPTS r <= PTS f \/
    maxReasonableJump < lastOutputPTS r - PTS f)).

Lemma jump_const : maxReasonableJump = 900000.
Proof. reflexivity. Qed.
Lemma wrap_const : Z.quot maxDTS33Wrap 2 = 4294967296.
Proof. reflexivity. Qed.

Lemma isValidOutput_spec f r :
  exists r' ok, isValidOutput f r = (r', ok) /\
    (r' = r \/ (ok = true /\ r' = reset_order r)) /\
    (wide (DTS f) -> wide (PTS f) -> wide (lastOutputDTS r) -> wide (lastOutputPTS r) ->
     (ok = true <-> fresh r f)).
Proof.
  unfold isValidOutput, fresh. rewrite wrap_const, jump_const.
  assert (forall a b, wide a -> wide b -> i64 (a - b) = a - b) as Hi.
  { unfold wide. intros. apply i64_id. lia. }
  case_bool; [eexists _, _; split; [done|]; split; [by left|]; intros; split; [by left|done]|].
  case_bool.
  - destruct (4294967296 <? i64 _) eqn:Hw; [|destruct (900000 <? i64 _) eqn:Hj];
      eexists _, _; (split; [done|]); (split; [auto|]); intros; rewrite Hi in * by done; zbool;
      intuition (lia || discriminate).
  - destruct (ft_eqb (FType f) FrameTypeB) eqn:Hb; cbn [negb andb].
    { apply ft_eqb_spec in Hb. eexists _, _; split; [done|]; split; [auto|]. intuition lia. }
    apply ft_eqb_false in Hb. case_bool.
    + destruct (4294967296 <? i64 _) eqn:Hw; [|destruct (900000 <? i64 _) eqn:Hj];
        eexists _, _; (split; [done|]); (split; [auto|]); intros; rewrite Hi in * by done; zbool;
        intuition (lia || discriminate).
    + eexists _, _; split; [done|]; split; [auto|]. intuition lia.
Qed.

(** *** Taking frames out of the buffer *)

Definition dts_le (f g : VideoFrame) : Prop := DTS f <= DTS g.
Definition settings (r : BFrameReorderer) :=
  (maxReorderDepth r, maxDelay r, baseTime r, maxBufferSize r).
Definition last_out (r r' : BFrameReorderer) (out : list VideoFrame) : Prop :=
  match out with
  | [] => lastOutputDTS r' = lastOutputDTS r /\ lastOutputPTS r' = lastOutputPTS r
  | g :: _ => (in_range r -> fresh r g)
  end /\
  (forall g, last out = Some g -> lastOutputDTS r' = DTS g).

(** From [r] to [r'] the frames [out] were output, in that order, and [lost]
    were dropped: together the lowest DTS of the buffer, whose order is kept. *)
Record taken (r r' : BFrameReorderer) (out lost : list VideoFrame) : Prop := {
  tk_elems : buffer r ≡ₚ out ++ lost ++ buffer r';
  tk_heap : heap_ok DTS (buffer r');
  tk_sorted : StronglySorted dts_le out;
  tk_before x y : x ∈ out ++ lost -> y ∈ buffer r' -> DTS x <= DTS y;
  tk_settings : settings r' = settings r;
  tk_last : last_out r r' out;
  tk_range : in_range r -> in_range r'
}.

Lemma taken_refl r : heap_ok DTS (buffer r) -> taken r r [] [].
Proof.
  intros. split; try done; [constructor|]. intros x y Hx. by apply elem_of_nil in Hx.
Qed.

(** The counters do not matter. *)
Definition same_queue (r s : BFrameReorderer) : Prop :=
  buffer r = buffer s /\ lastOutputDTS r = lastOutputDTS s /\ lastOutputPTS r = lastOutputPTS s /\
  settings r = settings s.

Lemma taken_same r s r' o l : same_queue r s -> taken r r' o l -> taken s r' o l.
Proof.
  intros (Hb & Hd & Hp & Hs) [He Hh Hso Hbe Hc Hl Hr].
  assert (in_range r <-> in_range s) as Hir by (unfold in_range; by rewrite Hb, Hd, Hp).
  split; rewrite <- ?Hb, <- ?Hs, <- ?Hir; try done.
  destruct Hl as [Hl1 Hl2]. split; [|done]. destruct o; [by rewrite <- Hd, <- Hp|].
  rewrite <- Hir. unfold fresh in *. by rewrite <- Hd, <- Hp.
Qed.

Lemma taken_trans r r1 r2 o l o' l' :
  taken r r1 o l -> taken r1 r2 o' l' -> taken r r2 (o ++ o') (l ++ l').
Proof.
  intros [He Hh Hs Hb Hc [Hl1 Hl2] Hr] [He' Hh' Hs' Hb' Hc' [Hl1' Hl2'] Hr'].
  assert (forall x, x ∈ o' ++ l' ++ buffer r2 -> x ∈ buffer r1) as Hin by (intros x Hx; by rewrite He').
  split; [|done| | |congruence| |by auto].
  - rewrite He, He'. solve_Permutation.
  - apply StronglySorted_app_2; [|done..]. intros x y Hx Hy.
    apply Hb; [apply elem_of_app; by left|]. apply Hin, elem_of_app. by left.
  - intros x y Hx Hy. assert (x ∈ o ++ l \/ x ∈ o' ++ l') as [Hx'|Hx'].
    { repeat rewrite elem_of_app in Hx. rewrite !elem_of_app. tauto. }
    + apply Hb; [done|]. apply Hin. rewrite !elem_of_app. tauto.
    + by apply Hb'.
  - split.
    + destruct o as [|g o]; [|done]. simpl in *. destruct Hl1 as [E1 E2].
      destruct o' as [|g o']; [by rewrite <- E1, <- E2|].
      intros Hir. unfold fresh. rewrite <- E1, <- E2. by apply Hl1', Hr.
    + intros g Hg. destruct o' as [|g' o'].
      * rewrite app_nil_r in Hg. rewrite (proj1 Hl1'). by apply Hl2.
      * apply Hl2'. by rewrite last_app_cons in Hg.
Qed.

Lemma frame_agree (h : list VideoFrame) : agree frame_less DTS h.
Proof. done. Qed.

Lemma pop_frame (h : list VideoFrame) f k :
  h = f :: k -> heap_ok DTS h ->
  exists h', Pop h = Ret (f, h') /\ h ≡ₚ f :: h' /\ heap_ok DTS h' /\
    Forall (fun g => DTS f <= DTS g) h.
Proof.
  intros -> Hok. destruct (Pop_plain frame_less DTS (f :: k) f eq_refl) as (h' & Hpop & Hp & Ho).
  exists h'. split_and!; [done..| |by apply root_least]. apply Ho; [apply frame_agree|done].
Qed.

Lemma push_frame (h : list VideoFrame) f :
  exists h', Push h f = Ret h' /\ h' ≡ₚ f :: h /\ (heap_ok DTS h -> heap_ok DTS h').
Proof.
  destruct (Push_plain frame_less DTS h f) as (h' & Hpush & Hp & Ho).
  exists h'. split_and!; [done..|]. apply Ho, frame_agree.
Qed.

Definition after_pop (f : VideoFrame) (r1 : BFrameReorderer) (ok : bool) : BFrameReorderer :=
  if ok then updateOutputState f r1 else r1.

#[global] Arguments updateOutputState f r : simpl never.
Lemma updateOutputState_fields f r :
  buffer (updateOutputState f r) = buffer r /\ settings (updateOutputState f r) = settings r /\
  (framesReordered (updateOutputState f r), framesDropped (updateOutputState f r)) =
    (framesReordered r, framesDropped r) /\
  lastOutputDTS (updateOutputState f r) = DTS f /\
  (lastOutputPTS (updateOutputState f r) = PTS f \/
   lastOutputPTS (updateOutputState f r) = lastOutputPTS r).
Proof. unfold updateOutputState. destruct (ft_eqb _ _); simpl; split_and!; auto. Qed.

(** One round: the root leaves the buffer and is output or dropped. *)
Lemma round_spec r f k :
  buffer r = f :: k -> heap_ok DTS (buffer r) ->
  exists h r1 ok,
    Pop (buffer r) = Ret (f, h) /\ isValidOutput f (r <| buffer := h |>) = (r1, ok) /\
    taken r (after_pop f r1 ok) (if ok then [f] else []) (if ok then [] else [f]) /\
    (framesReordered (after_pop f r1 ok), framesDropped (after_pop f r1 ok)) =
      (framesReordered r, framesDropped r) /\
    buffer (after_pop f r1 ok) = h.
Proof.
  intros Hbuf Hok. destruct (pop_frame (buffer r) f k Hbuf Hok) as (h & Hpop & Hp & Hh & Hmin).
  destruct (isValidOutput_spec f (r <| buffer := h |>)) as (r1 & ok & Hv & Hr1 & Hiff).
  exists h, r1, ok. split; [done|]. split; [done|].
  set (r2 := after_pop f r1 ok).
  assert (buffer r2 = h /\ settings r2 = settings r /\
    (framesReordered r2, framesDropped r2) = (framesReordered r, framesDropped r) /\
    (if ok then lastOutputDTS r2 = DTS f /\
       (lastOutputPTS r2 = PTS f \/ lastOutputPTS r2 = lastOutputPTS r \/ lastOutputPTS r2 = -1)
     else lastOutputDTS r2 = lastOutputDTS r /\ lastOutputPTS r2 = lastOutputPTS r))
    as (Hb2 & Hset & Hcnt & Hlast).
  { subst r2. unfold after_pop. destruct ok.
    - destruct (updateOutputState_fields f r1) as (-> & -> & -> & -> & Hl).
      destruct Hr1 as [->|[_ ->]]; simpl in *; split_and!; tauto.
    - destruct Hr1 as [->|[? _]]; [done|done]. }
  split; [|done].
  rewrite Forall_forall in Hmin.
  split; rewrite ?Hb2; try done.
  - by destruct ok.
  - destruct ok; repeat constructor.
  - intros x y Hx Hy. assert (x = f) as ->.
    { destruct ok; simpl in Hx; by apply list_elem_of_singleton in Hx. }
    apply Hmin. rewrite Hp. by right.
  - destruct ok; [|by split]. split; [|intros g [= <-]; tauto].
    intros (Hw & Hd & Hpt). rewrite Forall_forall in Hw.
    destruct (Hw f) as [??]; [rewrite Hp; by left|]. by apply (proj1 (Hiff ltac:(done) ltac:(done) Hd Hpt)).
  - intros (Hw & Hd & Hpt). rewrite Hp, Forall_cons in Hw. destruct Hw as [[Hfd Hfp] Hw].
    split; [by rewrite Hb2|]. destruct ok; destruct Hlast as [-> Hl]; [|by rewrite Hl].
    split; [done|]. destruct Hl as [-> |[-> | ->]]; try done; unfold wide; lia.
Qed.

Lemma second_frame_Ret b : 1 < len b -> exists f, second_frame b = Ret f.
Proof.
  intros. unfold second_frame. destruct (idx_Ret b 1) as (f & -> & _); [lia|]. rewrite bind_Ret.
  case_bool; [|eauto]. destruct (idx_Ret b 2) as (g & -> & _); [lia|]. rewrite bind_Ret. eauto.
Qed.

Lemma should_output_Ret now f r :
  exists b, should_output now f r = Ret b /\ (b = false -> len (buffer r) < maxReorderDepth r).
Proof.
  unfold should_output. set (p := if ft_eqb (FType f) FrameTypeP && _ then _ else _).
  assert (exists b, p = Ret b) as (b & ->).
  { subst p. destruct (ft_eqb _ _); [|eauto]. case_bool; [|eauto].
    destruct (second_frame_Ret (buffer r)) as (g & ->); [by apply Z.ltb_lt|]. rewrite bind_Ret. eauto. }
  rewrite bind_Ret. eexists. split; [done|]. intros Hf. zbool. lia.
Qed.

Definition is_u64 (z : Z) : Prop := 0 <= z < 2 ^ 64.
Lemma bump_u64 n : is_u64 (bump n).
Proof. apply u64_range. Qed.
Lemma u64_bump_add n m : u64 (bump n + m) = u64 (n + (1 + m)).
Proof. unfold bump. mlia. Qed.

(** The counters count the frames output and dropped. *)
Definition counted (r r' : BFrameReorderer) (out lost : list VideoFrame) : Prop :=
  framesReordered r' = u64 (framesReordered r + len out) /\
  framesDropped r' = u64 (framesDropped r + len lost).

Lemma counted_refl r : is_u64 (framesReordered r) -> is_u64 (framesDropped r) -> counted r r [] [].
Proof. unfold counted, is_u64. intros. rewrite !len_nil, !Z.add_0_r, !u64_id by lia. done. Qed.

Lemma checkOutput_spec fuel clk k r acc :
  (length (buffer r) < fuel)%nat -> heap_ok DTS (buffer r) ->
  is_u64 (framesReordered r) -> is_u64 (framesDropped r) ->
  exists r' out lost,
    checkOutput fuel clk k r acc = Ret (r', acc ++ out) /\
    taken r r' out lost /\ counted r r' out lost /\
    (buffer r' = [] \/ len (buffer r') < maxReorderDepth r).
Proof.
  revert k r acc. induction fuel as [|fuel IH]; intros k r acc Hf Hok Hu1 Hu2; [lia|].
  cbn [checkOutput]. destruct (buffer r) as [|f b] eqn:Hbuf.
  { exists r, [], []. rewrite app_nil_r.
    split_and!; [done|apply taken_refl; by rewrite Hbuf|by apply counted_refl|by left]. }
  destruct (should_output_Ret (clk k) f r) as (go & -> & Hgo). rewrite bind_Ret.
  destruct go; cbn [negb].
  2: { exists r, [], []. rewrite app_nil_r.
       split_and!; [done|apply taken_refl; by rewrite Hbuf|by apply counted_refl|right; auto]. }
  rewrite <- Hbuf in *. destruct (round_spec r f b Hbuf Hok) as (h & r1 & ok & -> & Hv & Ht & Hcnt & Hh).
  rewrite bind_Ret. cbv beta iota. rewrite Hv.
  pose proof (Permutation_length (tk_elems _ _ _ _ Ht)) as Hlen. rewrite !length_app in Hlen.
  pose proof (tk_settings _ _ _ _ Ht) as Hset. unfold settings in Hset. injection Hset as Hs1 Hs2 Hs3 Hs4.
  injection Hcnt as Hc1 Hc2. destruct ok; cbn [after_pop] in *; cbn [length app Nat.add] in Hlen.
  - set (r2 := upd framesReordered _ _).
    destruct (IH (S k) r2 (acc ++ [f])) as (r' & out & lost & -> & Ht' & [Hn1 Hn2] & Hend).
    { change (buffer r2) with (buffer (updateOutputState f r1)). lia. }
    { apply (tk_heap _ _ _ _ Ht). }
    { apply bump_u64. } { change (is_u64 (framesDropped (updateOutputState f r1))). by rewrite Hc2. }
    exists r', (f :: out), lost. rewrite <- app_assoc. split; [done|].
    split; [apply (taken_trans _ (updateOutputState f r1) _ [f] [] out lost Ht);
      by apply (taken_same r2)|]. split.
    + split; [|rewrite Hn2; change (framesDropped r2) with (framesDropped (updateOutputState f r1)); congruence].
      rewrite Hn1. subst r2. change (framesReordered (upd _ _ _)) with (bump (framesReordered (updateOutputState f r1))).
      rewrite Hc1, len_cons. apply u64_bump_add.
    + change (maxReorderDepth r2) with (maxReorderDepth (updateOutputState f r1)) in Hend. by rewrite Hs1 in Hend.
  - set (r2 := upd framesDropped _ _).
    destruct (IH (S k) r2 acc) as (r' & out & lost & -> & Ht' & [Hn1 Hn2] & Hend).
    { change (buffer r2) with (buffer r1). lia. }
    { apply (tk_heap _ _ _ _ Ht). }
    { change (is_u64 (framesReordered r1)). by rewrite Hc1. } { apply bump_u64. }
    exists r', out, (f :: lost). split; [done|].
    split; [apply (taken_trans _ r1 _ [] [f] out lost Ht);
      by apply (taken_same r2)|]. split.
    + split; [rewrite Hn1; change (framesReordered r2) with (framesReordered r1); congruence|].
      rewrite Hn2. subst r2. change (framesDropped (upd _ _ _)) with (bump (framesDropped r1)).
      rewrite Hc2, len_cons. apply u64_bump_add.
    + change (maxReorderDepth r2) with (maxReorderDepth r1) in Hend. by rewrite Hs1 in Hend.
Qed.

Lemma flush_loop_spec fuel r acc :
  (length (buffer r) < fuel)%nat -> heap_ok DTS (buffer r) ->
  exists r' out lost,
    flush_loop fuel r acc = Ret (r', acc ++ out) /\ taken r r' out lost /\ buffer r' = [] /\
    (framesReordered r', framesDropped r') = (framesReordered r, framesDropped r).
Proof.
  revert r acc. induction fuel as [|fuel IH]; intros r acc Hf Hok; [lia|].
  cbn [flush_loop]. destruct (buffer r) as [|f b] eqn:Hbuf.
  { exists r, [], []. rewrite app_nil_r. split_and!; [done|apply taken_refl; by rewrite Hbuf|done|done]. }
  rewrite <- Hbuf in *. destruct (round_spec r f b Hbuf Hok) as (h & r1 & ok & -> & Hv & Ht & Hcnt & Hh).
  rewrite bind_Ret. cbv beta iota. rewrite Hv.
  pose proof (Permutation_length (tk_elems _ _ _ _ Ht)) as Hlen. rewrite !length_app in Hlen.
  set (r2 := after_pop f r1 ok) in *.
  destruct (IH r2 (if ok then acc ++ [f] else acc)) as (r' & out & lost & Hrun & Ht' & Hnil & Hc').
  { clearbody r2. destruct ok; simpl in Hlen; lia. }
  { apply (tk_heap _ _ _ _ Ht). }
  exists r', ((if ok then [f] else []) ++ out), ((if ok then [] else [f]) ++ lost).
  split; [|split; [exact (taken_trans _ _ _ _ _ out lost Ht Ht')|split; [done|congruence]]].
  subst r2. destruct ok; simpl in *; rewrite Hrun; [by rewrite <- app_assoc|done].
Qed.

(** *** Runs *)

Inductive reorder_op : Type :=
| OpAddFrame (clk : nat -> Z) (frame : option VideoFrame)
| OpFlush.

(** The frames a step returns (none on error). *)
Definition reorder_step (op : reorder_op) (r : BFrameReorderer)
    : res (BFrameReorderer * list VideoFrame) :=
  match op with
  | OpAddFrame clk frame =>
      '(r', out) ← AddFrame clk frame r;
      Ret (r', match out with Val l => l | Err _ => [] end)
  | OpFlush => Flush r
  end.

(** What went in and came out: frames taken in (as [validateFrame] left
    them), refused nil frames, output by [AddFrame], output by [Flush]. *)
Record ledger := mkLedger {
  offered : list VideoFrame; nils : Z; from_add : list VideoFrame; from_flush : list VideoFrame }.

Definition entry (op : reorder_op) (out : list VideoFrame) (lg : ledger) : ledger :=
  match op with
  | OpAddFrame _ frame =>
      match validateFrame frame with
      | Val f => mkLedger (f :: offered lg) (nils lg) (from_add lg ++ out) (from_flush lg)
      | Err _ => mkLedger (offered lg) (nils lg + 1) (from_add lg) (from_flush lg)
      end
  | OpFlush => mkLedger (offered lg) (nils lg) (from_add lg) (from_flush lg ++ out)
  end.

Fixpoint reorder_run (ops : list reorder_op) (r : BFrameReorderer) (lg : ledger)
    : res (BFrameReorderer * ledger) :=
  match ops with
  | [] => Ret (r, lg)
  | op :: ops => '(r', out) ← reorder_step op r; reorder_run ops r' (entry op out lg)
  end.

Definition empty_ledger : ledger := mkLedger [] 0 [] [].

(** The books: [lost] went missing in [AddFrame] and [flush_lost] in [Flush]. *)
Record reorder_ok (depth : Z) (lg : ledger) (r : BFrameReorderer) (lost flush_lost : list VideoFrame)
    : Prop := {
  ro_depth : maxReorderDepth r = depth;
  ro_heap : heap_ok DTS (buffer r);
  ro_bound : len (buffer r) < depth;
  ro_max : maxBufferSize r <= depth;
  ro_elems : offered lg ≡ₚ from_add lg ++ from_flush lg ++ lost ++ flush_lost ++ buffer r;
  ro_reordered : framesReordered r = u64 (len (from_add lg));
  ro_dropped : framesDropped r = u64 (len lost + nils lg);
  ro_range : Forall wide_frame (offered lg) -> in_range r
}.

(** What a step outputs, seen from the state before it. *)
Definition ordered_output (r r' : BFrameReorderer) (out : list VideoFrame) : Prop :=
  StronglySorted dts_le out /\
  (forall x y, x ∈ out -> y ∈ buffer r' -> DTS x <= DTS y) /\
  last_out r r' out.

Lemma AddFrame_ok depth lg r lost fl clk frame :
  1 <= depth -> reorder_ok depth lg r lost fl ->
  exists r' out lost', reorder_step (OpAddFrame clk frame) r = Ret (r', out) /\
    reorder_ok depth (entry (OpAddFrame clk frame) out lg) r' lost' fl /\
    (Forall wide_frame (offered (entry (OpAddFrame clk frame) out lg)) -> ordered_output r r' out).
Proof.
  intros Hd [Hdep Hok Hb Hmax Hel Hro Hdr Hrg]. unfold reorder_step, AddFrame, entry.
  destruct (validateFrame frame) as [f|e].
  2: { eexists _, _, lost. rewrite bind_Ret. split; [done|]. split.
       - split; try done; simpl. rewrite Hdr. unfold bump. mlia.
       - intros _. split; [constructor|]. split; [intros x y Hx; by apply elem_of_nil in Hx|]. by split. }
  set (r0 := if is_zero_time _ then _ else r).
  assert (buffer r0 = buffer r /\ lastOutputDTS r0 = lastOutputDTS r /\
    lastOutputPTS r0 = lastOutputPTS r /\ maxReorderDepth r0 = depth /\
    maxBufferSize r0 = maxBufferSize r /\ framesReordered r0 = framesReordered r /\
    framesDropped r0 = framesDropped r) as (Hb0 & Hl0 & Hp0 & Hd0 & Hm0 & Hf0 & Hg0).
  { subst r0. by destruct (is_zero_time _). }
  clearbody r0.
  destruct (push_frame (buffer r0) f) as (h & -> & Hpush & Hh). rewrite bind_Ret.
  set (r1 := upd buffer h r0). set (r2 := if _ <? _ then _ else r1).
  assert (len h = 1 + len (buffer r)) as Hlen.
  { apply Permutation_length in Hpush. simpl in Hpush. unfold len. rewrite Hb0 in Hpush. lia. }
  assert (buffer r2 = h /\ lastOutputDTS r2 = lastOutputDTS r /\
    lastOutputPTS r2 = lastOutputPTS r /\ maxReorderDepth r2 = depth /\
    maxBufferSize r2 <= depth /\ framesReordered r2 = framesReordered r /\
    framesDropped r2 = framesDropped r) as (Hb2 & Hl2 & Hp2 & Hd2 & Hm2 & Hf2 & Hg2).
  { subst r2 r1. simpl. case_bool; simpl; split_and!; try done; lia. }
  clearbody r2. clear r1.
  destruct (checkOutput_spec (S (length (buffer r2))) clk 0 r2 [])
    as (r' & out & l & -> & Ht & [Hc1 Hc2] & Hend).
  { lia. } { rewrite Hb2. apply Hh; by rewrite Hb0. }
  { rewrite Hf2, Hro. apply u64_range. } { rewrite Hg2, Hdr. apply u64_range. }
  rewrite bind_Ret. simpl. exists r', out, (lost ++ l). split; [done|].
  destruct Ht as [He Hh' Hs Hbe Hset Hlast Hran]. unfold settings in Hset. injection Hset as S1 S2 S3 S4.
  assert (offered lg ≡ₚ from_add lg ++ from_flush lg ++ lost ++ fl ++ buffer r0) as Hel0 by (by rewrite Hb0).
  assert (Forall wide_frame (f :: offered lg) -> in_range r2) as Hr2.
  { intros [Hwf Hwo]%Forall_cons. destruct (Hrg Hwo) as (R1 & R2 & R3).
    unfold in_range. rewrite Hb2, Hl2, Hp2, Hpush, Hb0. split; [by constructor|done]. }
  split; [split|]; simpl; try done; try congruence.
  - destruct Hend as [->|Hend]; [rewrite len_nil; lia|by rewrite Hd2 in Hend].
  - rewrite Hel0. rewrite Hb2, Hpush in He.
    transitivity (from_add lg ++ from_flush lg ++ lost ++ fl ++ (f :: buffer r0)); [solve_Permutation|].
    rewrite He. solve_Permutation.
  - rewrite Hc1, Hf2, Hro, len_app. mlia.
  - rewrite Hc2, Hg2, Hdr, len_app. mlia.
  - auto.
  - intros Hw. split; [done|]. split; [intros x y Hx; apply Hbe, elem_of_app; by left|].
    destruct Hlast as [L1 L2]. split; [|done]. destruct out as [|g out]; [by rewrite <- Hl2, <- Hp2|].
    intros _. unfold fresh. rewrite <- Hl2, <- Hp2. by apply L1, Hr2.
Qed.

Lemma reorder_Flush_ok depth lg r lost fl :
  1 <= depth -> reorder_ok depth lg r lost fl ->
  exists r' out fl', reorder_step OpFlush r = Ret (r', out) /\
    reorder_ok depth (entry OpFlush out lg) r' lost fl' /\
    ordered_output r r' out /\ buffer r' = [].
Proof.
  intros Hd [Hdep Hok Hb Hmax Hel Hro Hdr Hrg]. simpl. unfold Flush.
  destruct (flush_loop_spec (S (length (buffer r))) r [] ltac:(lia) Hok)
    as (r' & out & l & -> & Ht & Hnil & Hcnt).
  destruct Ht as [He Hh' Hs Hbe Hset Hlast Hran]. unfold settings in Hset. injection Hset as S1 S2 S3 S4.
  injection Hcnt as C1 C2. exists r', out, (fl ++ l). split; [done|]. split; [|split; [|done]].
  - split; simpl; try done; try congruence.
    + rewrite Hnil, len_nil. lia.
    + rewrite Hel, He. solve_Permutation.
    + auto.
  - split; [done|]. split; [|done]. intros x y Hx. apply Hbe, elem_of_app. by left.
Qed.

Lemma reorder_step_ok depth lg r lost fl op :
  1 <= depth -> reorder_ok depth lg r lost fl ->
  exists r' out lost' fl', reorder_step op r = Ret (r', out) /\
    reorder_ok depth (entry op out lg) r' lost' fl' /\
    (Forall wide_frame (offered (entry op out lg)) -> ordered_output r r' out).
Proof.
  intros Hd Hok. destruct op as [clk frame|].
  - destruct (AddFrame_ok depth lg r lost fl clk frame) as (r' & out & l' & ? & ? & ?); [done..|].
    by exists r', out, l', fl.
  - destruct (reorder_Flush_ok depth lg r lost fl) as (r' & out & l' & ? & ? & ? & ?); [done..|].
    by exists r', out, lost, l'.
Qed.

Lemma reorder_run_ok depth lg r lost fl ops :
  1 <= depth -> reorder_ok depth lg r lost fl ->
  exists r' lg' lost' fl', reorder_run ops r lg = Ret (r', lg') /\ reorder_ok depth lg' r' lost' fl'.
Proof.
  intros Hd. revert r lg lost fl. induction ops as [|op ops IH]; intros r lg lost fl Hok; simpl.
  { by exists r, lg, lost, fl. }
  destruct (reorder_step_ok depth lg r lost fl op Hd Hok) as (r' & out & l1 & l2 & -> & Hok' & _).
  rewrite bind_Ret. by apply (IH _ _ l1 l2).
Qed.

(** The depth in force. *)
Definition depth_of (depth : Z) : Z := if depth <=? 0 then 3 else depth.

Lemma depth_pos d : 1 <= depth_of d.
Proof. unfold depth_of. case_bool; lia. Qed.

Lemma reorder_New_ok depth delay : reorder_ok (depth_of depth) empty_ledger (NewBFrameReorderer depth delay) [] [].
Proof.
  pose proof (depth_pos depth). split; simpl; try done; try (rewrite ?len_nil; lia).
Qed.

(** whatever frames, clocks and flushes a reorderer sees, no call panics,
    its loops end, and between calls it holds fewer frames than its reorder
    depth.  Every frame taken in is output once, by [AddFrame] or [Flush],
    dropped, or still held, and nothing else is output; [framesReordered]
    counts the frames [AddFrame] output, and [framesDropped] the refused and
    dropped ones (modulo 2^64), but neither counts what [Flush] outputs or
    drops. *)
Theorem reorder_books (depth delay : Z) (ops : list reorder_op) :
  exists r lg lost flush_lost,
    reorder_run ops (NewBFrameReorderer depth delay) empty_ledger = Ret (r, lg) /\
    reorder_ok (depth_of depth) lg r lost flush_lost.
Proof. apply (reorder_run_ok _ _ _ [] []); [apply depth_pos|apply reorder_New_ok]. Qed.

(** C7: the frames one call returns are in DTS order, no frame the call leaves
    in the buffer has a lower DTS, and fewer frames than the reorder depth are
    left.  While [lastOutputPTS] is not negative the first frame returned
    follows the last one output before: its DTS does not go back, nor, unless
    it is a B-frame, its PTS, except by more than ten seconds (a reset or a
    33-bit wrap).  While it is negative, that is as long as only B-frames (or
    negative PTS) were output since the start or the last reset, the next frame
    may go back by any amount.  For timestamps of at most 62 bits. *)
Theorem output_in_order (depth delay : Z) (ops : list reorder_op) (op : reorder_op) :
  exists r lg r' out,
    reorder_run ops (NewBFrameReorderer depth delay) empty_ledger = Ret (r, lg) /\
    reorder_step op r = Ret (r', out) /\ len (buffer r') < depth_of depth /\
    (Forall wide_frame (offered (entry op out lg)) -> ordered_output r r' out).
Proof.
  destruct (reorder_run_ok (depth_of depth) empty_ledger (NewBFrameReorderer depth delay) [] [] ops
    (depth_pos depth) (reorder_New_ok depth delay)) as (r & lg & l & fl & Hrun & Hok).
  destruct (reorder_step_ok (depth_of depth) lg r l fl op (depth_pos depth) Hok)
    as (r' & out & l1 & l2 & Hstep & Hok' & Hord).
  exists r, lg, r', out. split_and!; [done|done|apply (ro_bound _ _ _ _ _ Hok')|done].
Qed.

(** *** Findings *)

Lemma estimate_gap next second :
  wide (DTS next) -> wide (DTS second) ->
  (i64 (2 * estimateFrameDuration next second) <? i64 (DTS second - DTS next)) =
  (10000 <? DTS second - DTS next).
Proof.
  unfold wide, estimateFrameDuration. intros. rewrite (i64_id (DTS second - DTS next)) by lia.
  case_bool; zbool; [|rewrite i64_id by lia; lia]. change (i64 (2 * 3000)) with 6000.
  destruct (Z.leb_spec (DTS second - DTS next) 0); lia.
Qed.

(** The heap's second smallest is the smaller child of the root. *)
Lemma second_frame_least b f g :
  heap_ok DTS b -> second_frame b = Ret g -> b !! 0%nat = Some f ->
  g ∈ b /\ forall k h, (0 < k)%nat -> b !! k = Some h -> DTS g <= DTS h.
Proof.
  intros Hok Hs Hf.
  assert (forall k, (0 < k < length b)%nat ->
    key_at DTS b 1 <= key_at DTS b k \/ ((2 < length b)%nat /\ key_at DTS b 2 <= key_at DTS b k)) as Hmin.
  { induction k as [k IH] using lt_wf_ind. intros Hk.
    pose proof (Hok k ltac:(lia)) as He. unfold edge in He.
    destruct (decide (k = 1%nat)) as [->|]; [left; lia|].
    destruct (decide (k = 2%nat)) as [->|]; [right; split; [lia|lia]|].
    pose proof (parent_lt k ltac:(lia)).
    assert (0 < parent k)%nat.
    { destruct (parent k) eqn:Hp; [|lia]. apply parent_child in Hp; lia. }
    destruct (IH (parent k)) as [?|[? ?]]; [lia|lia|left; lia|right; split; [lia|lia]]. }
  unfold second_frame in Hs. destruct (idx b 1) as [s| |] eqn:H1; [|done..]. rewrite bind_Ret in Hs.
  assert (forall i x, idx b i = Ret x -> 0 <= i -> b !! Z.to_nat i = Some x) as Hidx.
  { intros i x Hi Hpos. unfold idx in Hi. destruct (Z.ltb_spec i 0); [lia|]. by destruct (b !! Z.to_nat i); simplify_eq. }
  apply Hidx in H1; [|lia]. change (Z.to_nat 1) with 1%nat in H1.
  destruct (Z.ltb_spec 2 (len b)) as [Hl|Hl].
  - destruct (idx b 2) as [t| |] eqn:H2; [|done..]. rewrite bind_Ret in Hs.
    apply Hidx in H2; [|lia]. change (Z.to_nat 2) with 2%nat in H2.
    split. { destruct (Z.ltb_spec (DTS t) (DTS s)); simplify_eq; by eapply list_elem_of_lookup_2. }
    intros k h Hk Hh. pose proof (lookup_lt_Some _ _ _ Hh).
    specialize (Hmin k ltac:(lia)). unfold key_at in Hmin. rewrite H1, H2, Hh in Hmin.
    destruct (Z.ltb_spec (DTS t) (DTS s)); simplify_eq; lia.
  - simplify_eq. split; [by eapply list_elem_of_lookup_2|].
    intros k h Hk Hh. pose proof (lookup_lt_Some _ _ _ Hh). unfold len in Hl.
    specialize (Hmin k ltac:(lia)). unfold key_at in Hmin. rewrite H1, Hh in Hmin. lia.
Qed.

(** the second frame the P-frame test looks at is the second lowest DTS
    of the buffer (the smaller child of the heap's root), but the test itself
    compares the gap with twice itself unless it exceeds 10000 ticks: it fires
    exactly for gaps above 10000 ticks (111 ms at 90 kHz) before an I- or
    P-frame, whatever the frame rate, and so misses the gap of three frame
    durations it is there to find at 30 frames per second. *)
Theorem gap_test_is_constant (b : list VideoFrame) (next second : VideoFrame) :
  heap_ok DTS b -> b !! 0%nat = Some next -> second_frame b = Ret second ->
  Forall wide_frame b ->
  second ∈ b /\ (forall k h, (0 < k)%nat -> b !! k = Some h -> DTS second <= DTS h) /\
  gap_fires next second =
    (ft_eqb (FType second) FrameTypeI || ft_eqb (FType second) FrameTypeP) &&
    (10000 <? DTS second - DTS next).
Proof.
  intros Hok Hn Hs Hw. destruct (second_frame_least b next second Hok Hs Hn) as [Hin Hmin].
  split; [done|]. split; [done|]. rewrite Forall_forall in Hw. unfold gap_fires.
  rewrite estimate_gap; [done|apply Hw; by eapply list_elem_of_lookup_2|by apply Hw].
Qed.

Definition gap_buffer : list VideoFrame :=
  [frame_of 1 FrameTypeP 9000 9000 0; frame_of 3 FrameTypeP 21000 21000 0;
   frame_of 2 FrameTypeP 18000 18000 0].
Lemma gap_test_is_constant_witness :
  gap_fires (frame_of 1 FrameTypeP 9000 9000 0) (frame_of 2 FrameTypeP 18000 18000 0) = false.
Proof.
  refine (proj2 (proj2 (gap_test_is_constant gap_buffer (frame_of 1 FrameTypeP 9000 9000 0)
    (frame_of 2 FrameTypeP 18000 18000 0) _ eq_refl eq_refl _))).
  - intros j Hj. unfold gap_buffer in Hj. simpl in Hj.
    destruct j as [|[|[|j]]]; [| | |lia]; unfold edge, key_at; simpl; lia.
  - repeat constructor; simpl; lia.
Defined.

(** A run around the 33-bit wrap: the frame after the wrap has the lowest DTS
    of the buffer, so it leaves first and the frame before it follows. *)
Definition still (t : Z) (_ : nat) : Z := t.
Example wrap_reverses_order :
  (r ← reorder_run
     [OpAddFrame (still 100) (Some (frame_of 1 FrameTypeP 8589933092 8589933092 100));
      OpAddFrame (still 110) (Some (frame_of 2 FrameTypeP 1503 1503 110)); OpFlush]
     (NewBFrameReorderer 3 0) empty_ledger;
   Ret (ID <$> from_add r.2, ID <$> from_flush r.2)) = Ret ([2], [1]).
Proof. vm_compute. reflexivity. Qed.
