(* ===== verification/DtsCalculator.v ===== *)
(** * DTS from PTS (frame/bframe_reorderer.go, DTSCalculator)

    A calculator for streams without DTS; one caller, no lock.  The frame
    duration is the source's float64 expression. *)

From S2P Require Import Prelude Float64 Frame.

Record frameInfo := mkInfo { pts : Z; frameType : FrameType }.

Record DTSCalculator := mkCalc {
  frameRate : float64;
  timeBase : Rational;
  maxBFrames : Z;
  lastPTS : Z;
  lastDTS : Z;
  frameBuffer : list frameInfo;
  frameIndex : Z
}.
#[export] Instance eta_calc : Eta DTSCalculator := fun c =>
  mkCalc (frameRate c) (timeBase c) (maxBFrames c) (lastPTS c) (lastDTS c) (frameBuffer c)
    (frameIndex c).

(** The buffer is made with capacity [maxBFrames+2], which must not be negative. *)
Definition NewDTSCalculator (rate : float64) (tb : Rational) (maxB : Z) : res DTSCalculator :=
  if maxB + 2 <? 0 then Panic else Ret (mkCalc rate tb maxB (-1) (-1) [] 0).

Definition calculateFrameDuration (c : DTSCalculator) : Z :=
  f64_trunc (f64_div (f64_of_Z (Den (timeBase c)))
                     (f64_mul (frameRate c) (f64_of_Z (Num (timeBase c))))).

Definition is_B (t : FrameType) : bool := ft_eqb t FrameTypeB.

(** The loop from the last but one entry down: B-frames before the first
    other frame. *)
Fixpoint leading_b (l : list frameInfo) : Z :=
  match l with
  | [] => 0
  | f :: l => if is_B (frameType f) then 1 + leading_b l else 0
  end.
Definition bFrameCount (buf : list frameInfo) : Z := leading_b (tail (rev buf)).

Definition CalculateDTS (p : Z) (t : FrameType) (c : DTSCalculator) : res (DTSCalculator * Z) :=
  if maxBFrames c =? 0 then Ret (c <| lastDTS := p |>, p)
  else
    let c := c <| frameBuffer := frameBuffer c ++ [mkInfo p t] |> in
    let dur := calculateFrameDuration c in
    if len (frameBuffer c) <? maxBFrames c + 1 then
      if negb (is_B t) then
        let dts := i64 (p - i64 (maxBFrames c * dur)) in
        let dts := if dts <? 0 then 0 else dts in
        Ret (c <| lastDTS := dts |>, dts)
      else
        let c := c <| lastDTS := i64 (lastDTS c + dur) |> in Ret (c, lastDTS c)
    else
      let c := if is_B t then c <| lastDTS := i64 (lastDTS c + dur) |>
               else c <| lastDTS := i64 (p - i64 (bFrameCount (frameBuffer c) * dur)) |> in
      buf ← (if maxBFrames c * 2 <? len (frameBuffer c)
             then slice (frameBuffer c) 1 (len (frameBuffer c)) else Ret (frameBuffer c));
      let c := c <| frameBuffer := buf |> in
      Ret (c, lastDTS c).

(** The buffer stays within twice the B-frame depth. *)
Definition buffer_limit (c : DTSCalculator) : Z := Z.max 0 (maxBFrames c * 2).

Lemma trim_Ret (buf : list frameInfo) m :
  0 < len buf ->
  exists buf', (if m * 2 <? len buf then slice buf 1 (len buf) else Ret buf) = Ret buf' /\
    len buf' = (if m * 2 <? len buf then len buf - 1 else len buf).
Proof.
  intros Hl. case_bool; [|eauto]. rewrite slice_Ret by lia. eexists. split; [done|].
  rewrite takeZ_all by (rewrite len_dropZ by lia; lia). by rewrite len_dropZ by lia.
Qed.

(** Every call returns, keeps the configuration and the buffer's bound. *)
Lemma CalculateDTS_total p t c :
  len (frameBuffer c) <= buffer_limit c ->
  exists c' dts, CalculateDTS p t c = Ret (c', dts) /\ lastDTS c' = dts /\
    (frameRate c', timeBase c', maxBFrames c') = (frameRate c, timeBase c, maxBFrames c) /\
    len (frameBuffer c') <= buffer_limit c' /\
    (maxBFrames c = 0 -> dts = p /\ frameBuffer c' = frameBuffer c).
Proof.
  unfold buffer_limit, CalculateDTS. intros Hl. pose proof (len_nonneg (frameBuffer c)).
  case_bool. { eexists _, _; split; [done|]. simpl. split_and!; try done. }
  set (c1 := upd frameBuffer _ c).
  assert (len (frameBuffer c1) = len (frameBuffer c) + 1) as Hl1.
  { simpl. rewrite len_app, len_cons, len_nil. lia. }
  assert (maxBFrames c1 = maxBFrames c) as Hm1 by done.
  assert ((frameRate c1, timeBase c1) = (frameRate c, timeBase c)) as Hc1 by done.
  clearbody c1. rewrite <- Hm1 in *. injection Hc1 as Hc1 Hc2.
  case_bool.
  { destruct (is_B t); cbn [negb]; eexists _, _; (split; [done|]);
      simpl; split_and!; try done; try lia; congruence. }
  set (c2 := if is_B t then _ else _).
  assert (maxBFrames c2 = maxBFrames c1 /\ frameBuffer c2 = frameBuffer c1 /\
    frameRate c2 = frameRate c /\ timeBase c2 = timeBase c) as (Hm2 & Hb2 & Hr2 & Ht2).
  { subst c2. destruct (is_B t); simpl; split_and!; congruence. }
  clearbody c2.
  destruct (trim_Ret (frameBuffer c2) (maxBFrames c2)) as (buf & -> & Hbuf); [rewrite Hb2; lia|].
  rewrite bind_Ret. eexists _, _. split; [done|]. simpl. split_and!; try done; try lia.
  - congruence.
  - rewrite Hbuf, Hb2, Hm2, Hl1. case_bool; lia.
Qed.

Lemma bFrameCount_snoc buf f : bFrameCount (buf ++ [f]) = leading_b (rev buf).
Proof. unfold bFrameCount. by rewrite rev_app_distr. Qed.

(** in the steady state the calculator gives a P-frame at [p] that follows
    [g] buffered B-frames the DTS [p - g*dur], one frame duration too late: the
    first B-frame of the next group of [g], shown at [p - g*dur], then gets a
    DTS one duration after its own PTS, so it would have to be shown before it
    is decoded. *)
Theorem dts_exceeds_pts (c : DTSCalculator) (p g dur : Z) :
  1 <= maxBFrames c -> maxBFrames c <= len (frameBuffer c) <= buffer_limit c ->
  calculateFrameDuration c = dur -> leading_b (rev (frameBuffer c)) = g ->
  0 < dur < 2 ^ 31 -> 0 <= g < 2 ^ 31 -> 0 <= p < 2 ^ 62 ->
  exists c1 c2,
    CalculateDTS p FrameTypeP c = Ret (c1, p - g * dur) /\
    CalculateDTS (p - g * dur) FrameTypeB c1 = Ret (c2, (p - g * dur) + dur).
Proof.
  intros Hm Hl Hdur Hg Hd Hgr Hp. unfold buffer_limit in Hl.
  assert (0 <= g * dur < 2 ^ 62) as Hgd by nia.
  unfold CalculateDTS at 1. rewrite (proj2 (Z.eqb_neq _ _)) by lia.
  set (c0 := upd frameBuffer _ c).
  assert (len (frameBuffer c0) = len (frameBuffer c) + 1) as Hl0.
  { simpl. rewrite len_app, len_cons, len_nil. lia. }
  change (calculateFrameDuration c0) with (calculateFrameDuration c). rewrite Hdur.
  change (maxBFrames c0) with (maxBFrames c).
  rewrite (proj2 (Z.ltb_ge _ _)) by lia. cbn [is_B ft_eqb]. change (is_B FrameTypeP) with false.
  replace (bFrameCount (frameBuffer c0)) with g by (symmetry; by simpl; rewrite bFrameCount_snoc).
  rewrite (i64_id (g * dur)), (i64_id (p - g * dur)) by lia.
  set (c1 := upd lastDTS _ c0). cbv beta iota zeta.
  destruct (trim_Ret (frameBuffer c1) (maxBFrames c1)) as (buf & -> & Hbuf).
  { change (frameBuffer c1) with (frameBuffer c0). pose proof (len_nonneg (frameBuffer c)). lia. }
  rewrite bind_Ret. set (c1' := upd frameBuffer buf c1).
  change (frameBuffer c1) with (frameBuffer c0) in Hbuf.
  change (maxBFrames c1) with (maxBFrames c) in Hbuf. rewrite Hl0 in Hbuf.
  assert (maxBFrames c <= len buf) as Hlb by (rewrite Hbuf; case_bool; lia).
  exists c1'.
  unfold CalculateDTS. change (maxBFrames c1') with (maxBFrames c).
  rewrite (proj2 (Z.eqb_neq _ _)) by lia. set (c2 := upd frameBuffer _ c1').
  change (calculateFrameDuration c2) with (calculateFrameDuration c). rewrite Hdur.
  assert (len (frameBuffer c2) = len buf + 1) as Hl2.
  { simpl. rewrite len_app, len_cons, len_nil. lia. }
  change (maxBFrames c2) with (maxBFrames c). rewrite (proj2 (Z.ltb_ge _ _)) by lia.
  change (is_B FrameTypeB) with true. cbv iota.
  change (lastDTS c2) with (p - g * dur). rewrite i64_id by lia.
  set (c3 := upd lastDTS _ c2). cbv beta iota zeta.
  destruct (trim_Ret (frameBuffer c3) (maxBFrames c3)) as (buf' & -> & _).
  { change (frameBuffer c3) with (frameBuffer c2). pose proof (len_nonneg buf). lia. }
  rewrite bind_Ret. by eexists.
Qed.

(** 30 frames per second at 90 kHz, two B-frames per group. *)
Definition group_calc : DTSCalculator :=
  mkCalc (f64_of_Z 30) (mkRational 1 90000) 2 (-1) 15000
    [mkInfo 9000 FrameTypeP; mkInfo 3000 FrameTypeB; mkInfo 6000 FrameTypeB] 0.
Lemma dts_exceeds_pts_witness :
  exists c1 c2,
    CalculateDTS 18000 FrameTypeP group_calc = Ret (c1, 12000) /\
    CalculateDTS 12000 FrameTypeB c1 = Ret (c2, 15000).
Proof.
  apply (dts_exceeds_pts group_calc 18000 2 3000); try reflexivity; try lia;
    unfold buffer_limit; simpl; try lia; split; unfold len; simpl; lia.
Defined.
