(* ===== verification/TsAlign.v ===== *)
(** * MPEG-TS packet alignment (validation/alignment.go)

    SRT messages do not respect the 188-byte packets of the transport stream:
    the validator carries the tail of one message over to the next. *)

From S2P Require Import Prelude.

Definition tsPacketSize : Z := 188.
Definition syncByte : Z := 0x47.

Record AlignmentValidator := mkAlign {
  partialPacketBuffer : list Z;
  hasPartialPacket : bool;
  alignmentErrors : Z;
  packetsProcessed : Z;
  partialPackets : Z
}.
#[export] Instance eta_align : Eta AlignmentValidator := fun v =>
  mkAlign (partialPacketBuffer v) (hasPartialPacket v) (alignmentErrors v) (packetsProcessed v)
    (partialPackets v).

Inductive align_error : Type :=
| SyncByteMissing (packet offset byte : Z)
| NoSyncByte (bytes : Z).

Definition NewAlignmentValidator : AlignmentValidator := mkAlign [] false 0 0 0.

(** The loop of [ValidateMPEGTSAlignment]: the first packet without its sync
    byte, if any. *)
Fixpoint sync_loop (fuel : nat) (i completePackets : Z) (data : list Z) : res (option (Z * Z)) :=
  match fuel with
  | O => NoFuel
  | S fuel =>
      if i <? completePackets then
        b ← idx data (i * tsPacketSize);
        if negb (b =? syncByte) then Ret (Some (i, b))
        else sync_loop fuel (i + 1) completePackets data
      else Ret None
  end.

(** The count, the rest of the data and the error. *)
Definition ValidateMPEGTSAlignment (data : list Z) (v : AlignmentValidator)
    : res (AlignmentValidator * (Z * option (list Z) * option align_error)) :=
  if len data =? 0 then Ret (v, (0, None, None))
  else
    let completePackets := Z.quot (len data) tsPacketSize in
    let remainder := Z.rem (len data) tsPacketSize in
    bad ← sync_loop (S (Z.to_nat completePackets)) 0 completePackets data;
    match bad with
    | Some (i, b) =>
        rest ← slice data (i * tsPacketSize) (len data);
        Ret (v <| alignmentErrors := i64 (alignmentErrors v + 1) |>,
             (i, Some rest, Some (SyncByteMissing i (i * tsPacketSize) b)))
    | None =>
        let v := v <| packetsProcessed := i64 (packetsProcessed v + completePackets) |> in
        if 0 <? remainder then
          rest ← slice data (len data - remainder) (len data);
          Ret (v <| partialPackets := i64 (partialPackets v + 1) |>,
               (completePackets, Some rest, None))
        else Ret (v, (completePackets, None, None))
    end.

(** [findSyncByte]: a sync byte with another one packet later, or too close to
    the end to tell; -1 when there is none. *)
Fixpoint find_loop (fuel : nat) (i : Z) (data : list Z) : res Z :=
  match fuel with
  | O => NoFuel
  | S fuel =>
      if i <? len data then
        b ← idx data i;
        if b =? syncByte then
          ok ← (if i + tsPacketSize <? len data
                then b' ← idx data (i + tsPacketSize); Ret (b' =? syncByte) else Ret false);
          if (ok : bool) || (len data <=? i + tsPacketSize) then Ret i
          else find_loop fuel (i + 1) data
        else find_loop fuel (i + 1) data
      else Ret (-1)
  end.
Definition findSyncByte (data : list Z) : res Z := find_loop (S (length data)) 0 data.

(** The part of [ProcessWithAlignment] after the sync byte is found: split off
    the complete packets and keep the remainder. *)
Definition split_packets (processData : list Z) (v : AlignmentValidator)
    : res (AlignmentValidator * exn align_error (list Z)) :=
  let completeLength := Z.quot (len processData) tsPacketSize * tsPacketSize in
  v ← (if completeLength <? len processData then
         remainder ← slice processData completeLength (len processData);
         Ret (v <| partialPacketBuffer := remainder |> <| hasPartialPacket := true |>)
       else Ret v);
  if 0 <? completeLength then out ← slice processData 0 completeLength; Ret (v, Val out)
  else Ret (v, Val []).

Definition ProcessWithAlignment (data : list Z) (v : AlignmentValidator)
    : res (AlignmentValidator * exn align_error (list Z)) :=
  let '(processData, v) :=
    if hasPartialPacket v && (0 <? len (partialPacketBuffer v))
    then (partialPacketBuffer v ++ data,
          v <| partialPacketBuffer := [] |> <| hasPartialPacket := false |>)
    else (data, v) in
  synced ← (match processData with b :: _ => Ret (b =? syncByte) | [] => Ret true end);
  if synced : bool then split_packets processData v
  else
    syncOffset ← findSyncByte processData;
    if syncOffset <? 0 then
      Ret (v <| partialPacketBuffer := partialPacketBuffer v ++ processData |>
             <| hasPartialPacket := true |>
             <| alignmentErrors := i64 (alignmentErrors v + 1) |>,
           Err (NoSyncByte (len processData)))
    else
      processData ← slice processData syncOffset (len processData);
      split_packets processData v.

Definition GetPartialPacket (v : AlignmentValidator) : option (list Z) :=
  if hasPartialPacket v then Some (partialPacketBuffer v) else None.
Definition HasPartialPacket (v : AlignmentValidator) : bool := hasPartialPacket v.

Record AlignmentStats := mkAlignStats {
  AlignmentErrors : Z; PacketsProcessed : Z; PartialPackets : Z }.
Definition GetStats (v : AlignmentValidator) : AlignmentStats :=
  mkAlignStats (alignmentErrors v) (packetsProcessed v) (partialPackets v).
Definition Reset (v : AlignmentValidator) : AlignmentValidator := mkAlign [] false 0 0 0.

(** ** Reassembly *)

(** A transport stream: a sync byte at every packet boundary. *)
Definition ts_stream (s : list Z) : Prop :=
  forall i, 0 <= i -> i * tsPacketSize < len s -> idx s (i * tsPacketSize) = Ret syncByte.

(** The length of the complete packets of [n] bytes. *)
Definition whole (n : Z) : Z := n / tsPacketSize * tsPacketSize.

Lemma whole_bounds n : 0 <= n -> 0 <= whole n <= n /\ n < whole n + tsPacketSize.
Proof. unfold whole, tsPacketSize. intros. mlia. Qed.
Lemma whole_add n m : 0 <= n -> 0 <= m -> whole n + whole (n - whole n + m) = whole (n + m).
Proof. unfold whole, tsPacketSize. intros. mlia. Qed.
Lemma quot_whole n : 0 <= n -> Z.quot n tsPacketSize * tsPacketSize = whole n.
Proof. intros. unfold whole. by rewrite Z.quot_div_nonneg by (unfold tsPacketSize; lia). Qed.

Lemma takeZ_takeZ_dropZ {A} (l : list A) n m :
  0 <= n -> 0 <= m -> takeZ n l ++ takeZ m (dropZ n l) = takeZ (n + m) l.
Proof.
  intros. unfold takeZ, dropZ. rewrite Z2Nat.inj_add by lia.
  rewrite <- (take_drop (Z.to_nat n) (take (Z.to_nat n + Z.to_nat m) l)).
  rewrite take_take, Nat.min_l by lia. f_equal. by rewrite take_drop_commute.
Qed.

Lemma idx_dropZ {A} (l : list A) n i : 0 <= n -> 0 <= i -> idx (dropZ n l) i = idx l (n + i).
Proof.
  intros. unfold idx, dropZ. rewrite !(proj2 (Z.ltb_ge _ 0)) by lia.
  rewrite lookup_drop. by rewrite Z2Nat.inj_add by lia.
Qed.

(** The bytes carried over, and the flag that goes with them. *)
Definition carries (v : AlignmentValidator) (rest : list Z) : Prop :=
  partialPacketBuffer v = rest /\ hasPartialPacket v = (0 <? len rest).

Lemma split_packets_spec d v :
  carries v [] ->
  exists v', split_packets d v = Ret (v', Val (takeZ (whole (len d)) d)) /\
    carries v' (dropZ (whole (len d)) d) /\ alignmentErrors v' = alignmentErrors v.
Proof.
  intros [Hb Hp]. pose proof (len_nonneg d) as Hd. pose proof (whole_bounds _ Hd).
  unfold split_packets. rewrite quot_whole by done. unfold carries.
  assert (len (dropZ (whole (len d)) d) = len d - whole (len d)) as Hl by (apply len_dropZ; lia).
  rewrite Hl. destruct (Z.ltb_spec (whole (len d)) (len d)).
  - rewrite (slice_Ret d (whole (len d)) (len d)), bind_Ret by lia. set (v1 := upd hasPartialPacket _ _).
    rewrite bind_Ret. exists v1.
    split.
    + case_bool; [rewrite slice_Ret, bind_Ret, Z.sub_0_r, dropZ_0 by lia; done|].
      by rewrite takeZ_0 by lia.
    + split; [|done]. subst v1. simpl. split.
      * rewrite takeZ_all; [done|lia].
      * symmetry. apply Z.ltb_lt. lia.
  - rewrite bind_Ret. exists v. split.
    + case_bool; [rewrite slice_Ret, bind_Ret, Z.sub_0_r, dropZ_0 by lia; done|].
      by rewrite takeZ_0 by lia.
    + split; [|done]. rewrite dropZ_all by lia. split; [done|]. rewrite Hp. change (0 <? len []) with false. symmetry. apply Z.ltb_ge. lia.
Qed.

(** One message of a transport stream, of which [s] came before. *)
Lemma process_aligned s chunk v :
  ts_stream (s ++ chunk) -> carries v (dropZ (whole (len s)) s) ->
  exists v',
    ProcessWithAlignment chunk v =
      Ret (v', Val (takeZ (whole (len (s ++ chunk)) - whole (len s)) (dropZ (whole (len s)) (s ++ chunk)))) /\
    carries v' (dropZ (whole (len (s ++ chunk))) (s ++ chunk)) /\
    alignmentErrors v' = alignmentErrors v.
Proof.
  intros Hs [Hb Hp]. pose proof (len_nonneg s) as Hn. pose proof (len_nonneg chunk) as Hc.
  pose proof (whole_bounds _ Hn). pose proof (whole_add (len s) (len chunk) Hn Hc) as Hw.
  set (w := whole (len s)) in *. set (d := dropZ w (s ++ chunk)).
  assert (d = dropZ w s ++ chunk) as Hd by (unfold d; by rewrite dropZ_app_le by lia).
  assert (len d = len s - w + len chunk) as Hld by (rewrite Hd, len_app, len_dropZ by lia; lia).
  unfold ProcessWithAlignment. rewrite Hb, Hp, andb_diag.
  set (pv := if 0 <? len (dropZ w s) then _ else _).
  assert (exists v0, pv = (d, v0) /\ carries v0 [] /\ alignmentErrors v0 = alignmentErrors v)
    as (v0 & -> & Hv0 & He0).
  { subst pv. destruct (Z.ltb_spec 0 (len (dropZ w s))) as [Hl|Hl].
    - eexists. rewrite <- Hd. split; [done|]. by split.
    - exists v. rewrite Hd. assert (dropZ w s = []) as Hnil.
      { apply len_0_nil. pose proof (len_nonneg (dropZ w s)). lia. }
      rewrite Hnil in *. split; [done|]. split; [|done]. split; [done|]. rewrite Hp. done. }
  cbv beta iota.
  assert (match d with b :: _ => Ret (b =? syncByte) | [] => Ret true end = Ret true) as ->.
  { destruct d as [|b d'] eqn:Hdd; [done|]. f_equal. apply Z.eqb_eq.
    assert (idx d 0 = Ret syncByte) as Hi.
    { unfold d. rewrite idx_dropZ, Z.add_0_r by lia. apply (Hs (len s / tsPacketSize)).
      - apply Z.div_pos; [lia|unfold tsPacketSize; lia].
      - change (w < len (s ++ chunk)). rewrite len_app.
        pose proof (len_nonneg d'). rewrite ?Hdd, len_cons in Hld. lia. }
    fold d in Hi. rewrite ?Hdd in Hi. by injection Hi. }
  rewrite bind_Ret. destruct (split_packets_spec d v0 Hv0) as (v' & -> & Hv' & He').
  exists v'. rewrite Hld, len_app in *.
  replace (whole (len s + len chunk) - w) with (whole (len s - w + len chunk)) by lia.
  split; [done|]. split; [|congruence].
  unfold d in Hv'. rewrite dropZ_dropZ, Hw in Hv'; [done|lia|].
  apply whole_bounds. lia.
Qed.

(** The messages of a connection, one call each. *)
Fixpoint align_run (chunks : list (list Z)) (v : AlignmentValidator)
    : res (AlignmentValidator * list (exn align_error (list Z))) :=
  match chunks with
  | [] => Ret (v, [])
  | c :: chunks =>
      '(v, r) ← ProcessWithAlignment c v;
      '(v, rs) ← align_run chunks v;
      Ret (v, r :: rs)
  end.

Definition no_error {E A} (r : exn E A) : bool := match r with Val _ => true | Err _ => false end.
Definition payload {E A} (r : exn E (list A)) : list A := match r with Val l => l | Err _ => [] end.

Lemma ts_stream_prefix s k : ts_stream (s ++ k) -> ts_stream s.
Proof.
  intros Hs i Hi Hl. pose proof (len_nonneg k).
  rewrite <- (Hs i Hi) by (rewrite len_app; lia). unfold idx, tsPacketSize, len in *.
  rewrite (proj2 (Z.ltb_ge _ 0)) by lia. by rewrite lookup_app_l by lia.
Qed.

Lemma realign_from s chunks v :
  ts_stream (s ++ concat chunks) -> carries v (dropZ (whole (len s)) s) ->
  exists v' rs,
    align_run chunks v = Ret (v', rs) /\ forallb no_error rs = true /\
    takeZ (whole (len s)) s ++ concat (payload <$> rs) =
      takeZ (whole (len (s ++ concat chunks))) (s ++ concat chunks) /\
    carries v' (dropZ (whole (len (s ++ concat chunks))) (s ++ concat chunks)) /\
    alignmentErrors v' = alignmentErrors v.
Proof.
  revert s v. induction chunks as [|c chunks IH]; intros s v Hs Hv; cbn [align_run concat].
  { exists v, []. simpl. rewrite !app_nil_r. done. }
  cbn [concat] in Hs. rewrite app_assoc in Hs.
  destruct (process_aligned s c v (ts_stream_prefix _ _ Hs) Hv) as (v1 & -> & Hv1 & He1).
  rewrite bind_Ret. cbv beta iota. destruct (IH (s ++ c) v1 Hs Hv1) as (v' & rs & -> & Hok & Hout & Hv' & He').
  rewrite bind_Ret. cbv beta iota. eexists v', (_ :: rs). rewrite (app_assoc s c (concat chunks)).
  split; [done|]. split; [done|]. split; [|split; [done|congruence]].
  rewrite <- Hout. cbn [fmap list_fmap concat payload]. rewrite app_assoc. f_equal.
  pose proof (len_nonneg s). pose proof (len_nonneg c). pose proof (whole_bounds (len s)).
  pose proof (whole_add (len s) (len c)). pose proof (whole_bounds (len s - whole (len s) + len c)).
  rewrite <- (takeZ_app_le (whole (len s)) s c) by lia.
  rewrite takeZ_takeZ_dropZ by (rewrite ?len_app; lia). f_equal. lia.
Qed.

(** however a transport stream is cut into messages, no message is refused
    and the packets handed on are exactly the complete packets of the stream
    so far, in order; what is carried over is exactly the incomplete rest. *)
Theorem realign_stream (chunks : list (list Z)) :
  ts_stream (concat chunks) ->
  exists v rs,
    align_run chunks NewAlignmentValidator = Ret (v, rs) /\ forallb no_error rs = true /\
    concat (payload <$> rs) = takeZ (whole (len (concat chunks))) (concat chunks) /\
    default [] (GetPartialPacket v) = dropZ (whole (len (concat chunks))) (concat chunks) /\
    alignmentErrors v = 0.
Proof.
  intros Hs. destruct (realign_from [] chunks NewAlignmentValidator) as (v & rs & Hrun & Hok & Hout & [Hb Hp] & He).
  { done. } { by split. }
  exists v, rs. rewrite !app_nil_l in *. cbn [app] in Hout. split_and!; try done.
  unfold GetPartialPacket. rewrite Hp. destruct (Z.ltb_spec 0 (len (partialPacketBuffer v))) as [Hl|Hl];
    rewrite Hb in *; rewrite ?(proj2 (Z.ltb_lt _ _)), ?(proj2 (Z.ltb_ge _ _)) by done; [done|].
  symmetry. apply len_0_nil. pose proof (len_nonneg (dropZ (whole (len (concat chunks))) (concat chunks))). lia.
Qed.

(** A two-packet stream in three messages that cut both packets. *)
Definition sample_packet (b : Z) : list Z := syncByte :: replicate 187 b.
Definition sample_chunks : list (list Z) :=
  [takeZ 100 (sample_packet 1); dropZ 100 (sample_packet 1) ++ takeZ 10 (sample_packet 2);
   dropZ 10 (sample_packet 2) ++ [syncByte; 9]].

Lemma ts_stream_check s :
  forallb (fun n => match idx s (Z.of_nat n * tsPacketSize) with Ret b => b =? syncByte | _ => false end)
    (seq 0 (Z.to_nat ((len s + 187) / 188))) = true -> ts_stream s.
Proof.
  intros Hf i Hi Hl. rewrite forallb_forall in Hf. unfold tsPacketSize in *.
  specialize (Hf (Z.to_nat i)). rewrite Z2Nat.id in Hf by lia.
  destruct (idx s (i * 188)) as [b| |]; [|discriminate Hf|discriminate Hf].
  - f_equal. apply Z.eqb_eq, Hf, in_seq. mlia.
  - apply in_seq. mlia.
  - apply in_seq. mlia.
Qed.

Lemma realign_stream_witness :
  exists v rs,
    align_run sample_chunks NewAlignmentValidator = Ret (v, rs) /\ forallb no_error rs = true /\
    concat (payload <$> rs) = takeZ (whole (len (concat sample_chunks))) (concat sample_chunks) /\
    default [] (GetPartialPacket v) = dropZ (whole (len (concat sample_chunks))) (concat sample_chunks) /\
    alignmentErrors v = 0.
Proof. apply (realign_stream sample_chunks). apply ts_stream_check. vm_compute. reflexivity. Defined.

(** ** Data without a sync byte *)

Definition no_sync (s : list Z) : Prop := Forall (fun b => b <> syncByte) s.

Lemma find_loop_none fuel i data :
  no_sync data -> 0 <= i <= len data -> len data < Z.of_nat fuel + i -> find_loop fuel i data = Ret (-1).
Proof.
  intros Hn. revert i. induction fuel as [|fuel IH]; intros i Hi Hf; [lia|].
  cbn [find_loop]. case_bool; [|done].
  destruct (idx_Ret data i) as (b & -> & Hb); [lia|]. rewrite bind_Ret.
  unfold no_sync in Hn. rewrite Forall_lookup in Hn. specialize (Hn _ _ Hb).
  rewrite (proj2 (Z.eqb_neq _ _)) by done. apply IH; lia.
Qed.

Lemma process_junk rest chunk v :
  no_sync (rest ++ chunk) -> carries v rest ->
  exists v' r, ProcessWithAlignment chunk v = Ret (v', r) /\ payload r = [] /\
    carries v' (rest ++ chunk).
Proof.
  intros Hn [Hb Hp]. set (d := rest ++ chunk) in *.
  unfold ProcessWithAlignment. rewrite Hb, Hp, andb_diag.
  set (pv := if 0 <? len rest then _ else _).
  assert (exists v0, pv = (d, v0) /\ carries v0 []) as (v0 & -> & Hv0).
  { subst pv. destruct (Z.ltb_spec 0 (len rest)) as [Hl|Hl]; [eexists; by split|].
    assert (rest = []) as -> by (apply len_0_nil; pose proof (len_nonneg rest); lia).
    exists v. by split. }
  cbv beta iota. destruct d as [|b l] eqn:Hd.
  - rewrite bind_Ret. destruct (split_packets_spec [] v0 Hv0) as (v' & -> & Hv' & _).
    by eexists _, _.
  - inversion_clear Hn as [|? ? Hb47 Hl47].
    rewrite bind_Ret, (proj2 (Z.eqb_neq _ _)) by done. unfold findSyncByte.
    rewrite find_loop_none; [|by constructor|pose proof (len_nonneg (b :: l)); lia|unfold len; lia].
    rewrite bind_Ret. change (-1 <? 0) with true. cbv iota. eexists _, _. split; [done|].
    split; [done|]. destruct Hv0 as [Hb0 Hp0]. split; simpl; [by rewrite Hb0|].
    symmetry. apply Z.ltb_lt. rewrite len_cons. pose proof (len_nonneg l). lia.
Qed.

(** data without a sync byte is never given up: every message of it is
    appended to what is carried over, so after any number of such messages the
    validator holds all of their bytes and has handed on none, without any
    bound. *)
Theorem junk_is_kept (chunks : list (list Z)) :
  no_sync (concat chunks) ->
  exists v rs,
    align_run chunks NewAlignmentValidator = Ret (v, rs) /\
    concat (payload <$> rs) = [] /\
    len (partialPacketBuffer v) = len (concat chunks).
Proof.
  assert (forall cs v rest, no_sync (rest ++ concat cs) -> carries v rest ->
    exists v' rs, align_run cs v = Ret (v', rs) /\ concat (payload <$> rs) = [] /\
      carries v' (rest ++ concat cs)) as Hgen.
  { induction cs as [|c cs IH]; intros v rest Hn Hv; cbn [align_run concat] in *.
    { exists v, []. by rewrite app_nil_r. }
    rewrite app_assoc in Hn. assert (no_sync (rest ++ c)) as Hn1 by (by apply Forall_app in Hn as [? _]).
    destruct (process_junk rest c v Hn1 Hv) as (v1 & r & -> & Hr & Hv1). rewrite bind_Ret.
    destruct (IH v1 (rest ++ c) Hn Hv1) as (v' & rs & -> & Hrs & Hv'). rewrite bind_Ret.
    eexists _, _. split; [done|]. rewrite app_assoc. split; [|done]. by rewrite fmap_cons, concat_cons, Hr, Hrs. }
  intros Hn. destruct (Hgen chunks NewAlignmentValidator [] Hn) as (v & rs & Hrun & Hout & [Hb _]).
  { by split. }
  exists v, rs. split_and!; try done. by rewrite Hb.
Qed.

Lemma junk_is_kept_witness :
  exists v rs,
    align_run [[1; 2; 3]; [4]; [5; 6]] NewAlignmentValidator = Ret (v, rs) /\
    concat (payload <$> rs) = [] /\ len (partialPacketBuffer v) = 6.
Proof.
  apply (junk_is_kept [[1; 2; 3]; [4]; [5; 6]]).
  unfold no_sync, syncByte. repeat constructor; lia.
Defined.

(** ** Whole messages *)

Lemma sync_loop_spec fuel i n data :
  0 <= i <= n -> n * tsPacketSize <= len data -> n - i < Z.of_nat fuel ->
  exists r, sync_loop fuel i n data = Ret r /\
    match r with
    | None => forall k, i <= k < n -> idx data (k * tsPacketSize) = Ret syncByte
    | Some (k, b) => i <= k < n /\ idx data (k * tsPacketSize) = Ret b /\ b <> syncByte /\
        forall j, i <= j < k -> idx data (j * tsPacketSize) = Ret syncByte
    end.
Proof.
  revert i. induction fuel as [|fuel IH]; intros i Hi Hl Hf; [lia|]. cbn [sync_loop]. case_bool.
  2: { exists None. split; [done|]. intros k Hk. lia. }
  assert (0 <= i * tsPacketSize < len data) as Hr by (unfold tsPacketSize in *; lia).
  destruct (idx_Ret data (i * tsPacketSize) Hr) as (b & Hb & _). rewrite Hb, bind_Ret.
  destruct (Z.eqb_spec b syncByte) as [->|Hne]; cbn [negb].
  - destruct (IH (i + 1)) as (r & -> & Hr'); [lia..|]. exists r. split; [done|].
    destruct r as [[k b]|].
    + destruct Hr' as (Hk & Hkb & Hkn & Hj). split_and!; try done; try lia.
      intros j Hj'. destruct (decide (j = i)) as [->|]; [done|]. apply Hj. lia.
    + intros k Hk. destruct (decide (k = i)) as [->|]; [done|]. apply Hr'. lia.
  - exists (Some (i, b)). split; [done|]. split_and!; try done; try lia; intros; lia.
Qed.

(** [ValidateMPEGTSAlignment] returns on every message, counts the complete
    packets before the first one without its sync byte, and fails exactly when
    there is one. *)
Lemma ValidateMPEGTSAlignment_spec data v :
  exists v' n rest err, ValidateMPEGTSAlignment data v = Ret (v', (n, rest, err)) /\
    0 <= n <= len data / tsPacketSize /\
    (forall k, 0 <= k < n -> idx data (k * tsPacketSize) = Ret syncByte) /\
    match err with
    | None => n = len data / tsPacketSize
    | Some _ => n < len data / tsPacketSize /\ idx data (n * tsPacketSize) <> Ret syncByte
    end.
Proof.
  unfold ValidateMPEGTSAlignment. pose proof (len_nonneg data) as Hl.
  destruct (Z.eqb_spec (len data) 0) as [H0|H0].
  { eexists _, _, _, _. split; [done|]. rewrite H0. split; [done|]. split; [lia|done]. }
  rewrite Z.quot_div_nonneg, Z.rem_mod_nonneg by (unfold tsPacketSize; lia).
  set (n := len data / tsPacketSize).
  assert (0 <= n /\ n * tsPacketSize <= len data) as [Hn Hnl] by (unfold n, tsPacketSize; mlia).
  destruct (sync_loop_spec (S (Z.to_nat n)) 0 n data) as (r & -> & Hr); [lia|lia|lia|].
  rewrite bind_Ret. destruct r as [[k b]|].
  - destruct Hr as (Hk & Hkb & Hkn & Hj). rewrite slice_Ret, bind_Ret by (unfold tsPacketSize in *; lia).
    eexists _, _, _, _. split; [done|]. split_and!; try lia; try done. rewrite Hkb. congruence.
  - case_bool.
    + assert (0 <= len data mod tsPacketSize <= len data) by (unfold tsPacketSize; mlia).
      rewrite slice_Ret, bind_Ret by lia. eexists _, _, _, _. split; [done|]. split_and!; try lia; done.
    + eexists _, _, _, _. split; [done|]. split_and!; try lia; done.
Qed.
