(* ===== verification/Continuity.v ===== *)
(** * MPEG-TS continuity counters (validation/continuity.go)

    A 4-bit counter per PID; the validator keeps the last value and the next
    one expected.  Methods hold the validator's mutex.  The states are shared
    by pointer only inside the map, so the map holds their values. *)

From S2P Require Import Prelude.

Record continuityState := mkCont {
  lastCounter : Z;
  expectedNext : Z;
  initialized : bool;
  discontinuities : Z
}.
#[export] Instance eta_cont : Eta continuityState := fun s =>
  mkCont (lastCounter s) (expectedNext s) (initialized s) (discontinuities s).

Record ContinuityStats := mkContStats {
  TotalDiscontinuities : Z; PIDs : Z; PacketsValidated : Z }.
#[export] Instance eta_contstats : Eta ContinuityStats := fun s =>
  mkContStats (TotalDiscontinuities s) (PIDs s) (PacketsValidated s).

Record ContinuityValidator := mkCV { counters : gmap Z continuityState; stats : ContinuityStats }.
#[export] Instance eta_cv : Eta ContinuityValidator := fun v => mkCV (counters v) (stats v).

Inductive cont_error : Type :=
| NoIncrementExpected (pid expected got : Z)
| ContinuityError (pid expected got : Z).

Definition NewContinuityValidator : ContinuityValidator := mkCV ∅ (mkContStats 0 0 0).

(** [(counter + 1) & 0x0F] on a byte. *)
Definition next_counter (counter : Z) : Z := Z.land (u8 (counter + 1)) 0x0F.

Definition new_state : continuityState := mkCont 0 0 false 0.

Definition follow (counter : Z) (s : continuityState) : continuityState :=
  s <| lastCounter := counter |> <| expectedNext := next_counter counter |>.

(** The PID's state after the packet, and the error. *)
Definition check_counter (pid counter : Z) (hasPayload hasAdaptation : bool) (s : continuityState)
    : continuityState * exn cont_error unit :=
  if negb (initialized s) then (follow counter s <| initialized := true |>, Val tt)
  else if negb hasPayload && hasAdaptation then
    if negb (counter =? lastCounter s)
    then (s <| discontinuities := i64 (discontinuities s + 1) |>,
          Err (NoIncrementExpected pid (lastCounter s) counter))
    else (s, Val tt)
  else if negb (counter =? expectedNext s) then
    if counter =? lastCounter s then (s, Val tt)
    else (follow counter (s <| discontinuities := i64 (discontinuities s + 1) |>),
          Err (ContinuityError pid (expectedNext s) counter))
  else (follow counter s, Val tt).

Definition ValidateContinuity (pid counter : Z) (hasPayload hasAdaptation : bool)
    (v : ContinuityValidator) : ContinuityValidator * exn cont_error unit :=
  let state := default new_state (counters v !! pid) in
  let '(state, r) := check_counter pid counter hasPayload hasAdaptation state in
  let st := (stats v) <| PacketsValidated := i64 (PacketsValidated (stats v) + 1) |> in
  let st := match r with
            | Err _ => st <| TotalDiscontinuities := i64 (TotalDiscontinuities st + 1) |>
            | Val _ => st
            end in
  (v <| counters := <[pid := state]> (counters v) |> <| stats := st |>, r).

Definition GetStats (v : ContinuityValidator) : ContinuityStats :=
  (stats v) <| PIDs := Z.of_nat (size (counters v)) |>.
Definition GetPIDStats (pid : Z) (v : ContinuityValidator) : Z * bool :=
  match counters v !! pid with Some s => (discontinuities s, true) | None => (0, false) end.
Definition Reset (v : ContinuityValidator) : ContinuityValidator := NewContinuityValidator.
Definition ResetPID (pid : Z) (v : ContinuityValidator) : ContinuityValidator :=
  v <| counters := delete pid (counters v) |>.

(** ** Detection *)

(** The state of a PID whose last accepted payload packet had number [n]. *)
Definition tracking (n : Z) (s : continuityState) : Prop :=
  initialized s = true /\ lastCounter s = n mod 16 /\ expectedNext s = (n + 1) mod 16.

Lemma next_counter_mod n : next_counter (n mod 16) = (n + 1) mod 16.
Proof.
  unfold next_counter, u8. change (2 ^ 8) with 256. change 0x0F with (Z.ones 4).
  rewrite Z.land_ones by lia. change (2 ^ 4) with 16. mlia.
Qed.

Lemma tracking_follow n s : initialized s = true -> tracking n (follow (n mod 16) s).
Proof. intros. unfold tracking, follow. simpl. by rewrite next_counter_mod. Qed.

(** after payload packet [n] of a PID was accepted, a later payload packet
    [m] of it is accepted without error exactly when none was lost in between,
    when it repeats the last one, or when the number lost is 15 or 16 modulo
    16, which the 4-bit counter cannot show; and after every accepted or
    refused packet the validator tracks the packet just seen.  Packets of other
    PIDs are not affected. *)
Theorem continuity_exact (pid n m : Z) (ad : bool) (v : ContinuityValidator) (s : continuityState) :
  counters v !! pid = Some s -> tracking n s -> n <= m ->
  exists v' s',
    (ValidateContinuity pid (m mod 16) true ad v).1 = v' /\
    counters v' !! pid = Some s' /\
    tracking m s' /\
    ((ValidateContinuity pid (m mod 16) true ad v).2 = Val tt <-> (m - n) mod 16 = 0 \/ (m - n) mod 16 = 1) /\
    (forall pid', pid' <> pid -> counters v' !! pid' = counters v !! pid').
Proof.
  intros Hs (Hi & Hl & He) Hnm. unfold ValidateContinuity. rewrite Hs.
  change (default new_state (Some s)) with s. cbv zeta.
  unfold check_counter. rewrite Hi. cbn [negb andb]. rewrite Hl, He.
  destruct (Z.eqb_spec (m mod 16) ((n + 1) mod 16)) as [H1|H1]; cbn [negb].
  - eexists _, _. split; [done|]. cbn [fst snd]. simpl. rewrite lookup_insert_eq.
    split; [done|]. split; [by apply tracking_follow|].
    split; [split; [intros _; right; mlia|done]|]. intros. by rewrite lookup_insert_ne.
  - destruct (Z.eqb_spec (m mod 16) (n mod 16)) as [H0|H0].
    + eexists _, _. split; [done|]. cbn [fst snd]. simpl. rewrite lookup_insert_eq.
      split; [done|]. split; [split; [done|split; [congruence|mlia]]|].
      split; [split; [intros _; left; mlia|done]|]. intros. by rewrite lookup_insert_ne.
    + eexists _, _. split; [done|]. cbn [fst snd]. simpl. rewrite lookup_insert_eq.
      split; [done|]. split; [by apply tracking_follow|].
      split; [split; [discriminate|intros [?|?]; exfalso; mlia]|]. intros. by rewrite lookup_insert_ne.
Qed.

Definition seen_once : ContinuityValidator :=
  (ValidateContinuity 256 14 true false NewContinuityValidator).1.
Lemma continuity_exact_witness :
  exists v' s',
    (ValidateContinuity 256 (17 mod 16) true false seen_once).1 = v' /\
    counters v' !! 256 = Some s' /\ tracking 17 s' /\
    ((ValidateContinuity 256 (17 mod 16) true false seen_once).2 = Val tt <->
     (17 - 14) mod 16 = 0 \/ (17 - 14) mod 16 = 1) /\
    (forall pid', pid' <> 256 -> counters v' !! pid' = counters seen_once !! pid').
Proof.
  apply (continuity_exact 256 14 17 false seen_once (mkCont 14 15 true 0));
    [reflexivity|repeat split|lia].
Defined.

(** The first packet of a PID is always accepted and starts the tracking. *)
Lemma first_packet pid n hp ad v :
  counters v !! pid = None ->
  exists s, (ValidateContinuity pid (n mod 16) hp ad v).2 = Val tt /\
    counters (ValidateContinuity pid (n mod 16) hp ad v).1 !! pid = Some s /\ tracking n s.
Proof.
  intros Hn. unfold ValidateContinuity. rewrite Hn. simpl. rewrite lookup_insert_eq.
  eexists. split; [done|]. split; [done|]. split; [done|]. split; [done|]. apply next_counter_mod.
Qed.
