(* ===== verification/Pes.v ===== *)
(** * PES packet assembly state (validation/pes.go)

    Per-PID bookkeeping of the PES packet being assembled.  Methods hold the
    validator's mutex; the states are only shared through the map. *)

From S2P Require Import Prelude.

Record pesStreamState := mkPes {
  inProgress : bool;
  startTime : Z;
  bytesAccumulated : Z;
  expectedLength : Z;
  hasLength : bool;
  packetsReceived : Z;
  lastActivity : Z
}.
#[export] Instance eta_pes : Eta pesStreamState := fun s =>
  mkPes (inProgress s) (startTime s) (bytesAccumulated s) (expectedLength s) (hasLength s)
    (packetsReceived s) (lastActivity s).

Record PESValidator := mkPesV { streams : gmap Z pesStreamState; timeout : Z; maxPESSize : Z }.
#[export] Instance eta_pesv : Eta PESValidator := fun v =>
  mkPesV (streams v) (timeout v) (maxPESSize v).

Inductive pes_error : Type :=
| HeaderTooShort (bytes : Z)
| InvalidStartCode (b0 b1 b2 : Z)
| IncompletePES (pid bytes : Z)
| PESTooLarge (bytes limit : Z)
| ContinuationWithoutStart (pid : Z)
| PESExceedsMaximum (pid bytes : Z)
| PESOverrun (pid expected bytes : Z).

Definition NewPESValidator (timeout_ : Z) : PESValidator := mkPesV ∅ timeout_ (65536 * 3).

Definition ValidatePESStart (pid now1 now2 : Z) (data : list Z) (v : PESValidator)
    : res (PESValidator * exn pes_error unit) :=
  if len data <? 6 then Ret (v, Err (HeaderTooShort (len data)))
  else
    b0 ← idx data 0; b1 ← idx data 1; b2 ← idx data 2;
    if negb (b0 =? 0) || negb (b1 =? 0) || negb (b2 =? 1)
    then Ret (v, Err (InvalidStartCode b0 b1 b2))
    else
      _ ← idx data 3;
      b4 ← idx data 4; b5 ← idx data 5;
      let pesLength := Z.lor (u16 (Z.shiftl b4 8)) b5 in
      match streams v !! pid with
      | Some {| inProgress := true; bytesAccumulated := n |} => Ret (v, Err (IncompletePES pid n))
      | _ =>
          let state := mkPes true now1 (len data) (pesLength + 6) (0 <? pesLength) 1 now2 in
          if hasLength state && (maxPESSize v <? expectedLength state)
          then Ret (v, Err (PESTooLarge (expectedLength state) (maxPESSize v)))
          else Ret (v <| streams := <[pid := state]> (streams v) |>, Val tt)
      end.

Definition ValidatePESContinuation (pid dataLen now : Z) (v : PESValidator)
    : PESValidator * exn pes_error unit :=
  match streams v !! pid with
  | None => (v, Err (ContinuationWithoutStart pid))
  | Some state =>
      if negb (inProgress state) then (v, Err (ContinuationWithoutStart pid))
      else
        let state := state <| bytesAccumulated := i64 (bytesAccumulated state + dataLen) |>
                           <| packetsReceived := i64 (packetsReceived state + 1) |>
                           <| lastActivity := now |> in
        let put s := v <| streams := <[pid := s]> (streams v) |> in
        if maxPESSize v <? bytesAccumulated state
        then (put (state <| inProgress := false |>), Err (PESExceedsMaximum pid (bytesAccumulated state)))
        else if hasLength state && (expectedLength state <=? bytesAccumulated state) then
          let state := state <| inProgress := false |> in
          if expectedLength state <? bytesAccumulated state
          then (put state, Err (PESOverrun pid (expectedLength state) (bytesAccumulated state)))
          else (put state, Val tt)
        else (put state, Val tt)
  end.

Definition CompletePES (pid : Z) (v : PESValidator) : PESValidator :=
  match streams v !! pid with
  | Some s => v <| streams := <[pid := s <| inProgress := false |>]> (streams v) |>
  | None => v
  end.

Definition timed_out (now timeout_ : Z) (s : pesStreamState) : bool :=
  inProgress s && (timeout_ <? time_sub now (lastActivity s)).
(** The map is ranged over in an unspecified order: the PIDs are a set. *)
Definition CheckTimeouts (now : Z) (v : PESValidator) : PESValidator * gset Z :=
  (v <| streams := (fun s => if timed_out now (timeout v) s then s <| inProgress := false |> else s)
                   <$> streams v |>,
   dom (filter (fun kv => timed_out now (timeout v) kv.2 = true) (streams v))).

Definition GetStreamState (pid : Z) (v : PESValidator) : bool * Z * Z :=
  match streams v !! pid with
  | Some s => (inProgress s, bytesAccumulated s, packetsReceived s)
  | None => (false, 0, 0)
  end.
Definition Reset (v : PESValidator) : PESValidator := v <| streams := ∅ |>.
Definition ResetPID (pid : Z) (v : PESValidator) : PESValidator :=
  v <| streams := delete pid (streams v) |>.
(** [GetStats] only fills in the number of active streams. *)
Definition GetStats (v : PESValidator) : Z :=
  Z.of_nat (size (filter (fun kv => inProgress kv.2 = true) (streams v))).

(** ** Assembly *)

(** A PES header that declares [n] further bytes (0 for an open length). *)
Definition header_ok (data : list Z) (n : Z) : Prop :=
  exists b3 hi lo rest,
    data = 0 :: 0 :: 1 :: b3 :: hi :: lo :: rest /\ is_byte hi /\ is_byte lo /\ n = hi * 256 + lo.

Definition idle (pid : Z) (v : PESValidator) : Prop :=
  match streams v !! pid with Some s => inProgress s = false | None => True end.

(** The PID is assembling, with [got] bytes of [want] (open length: none). *)
Definition assembling (pid got : Z) (want : option Z) (v : PESValidator) : Prop :=
  exists s, streams v !! pid = Some s /\ inProgress s = true /\ bytesAccumulated s = got /\
    match want with
    | Some n => hasLength s = true /\ expectedLength s = n
    | None => hasLength s = false
    end.

Definition wanted (n : Z) : option Z := if 0 <? n then Some (n + 6) else None.

Lemma header_range data n : header_ok data n -> 0 <= n < 65536.
Proof. intros (b3 & hi & lo & rest & _ & Hh & Hl & ->). unfold is_byte in *. lia. Qed.

Lemma ValidatePESStart_spec pid now1 now2 data n v :
  header_ok data n -> 65541 <= maxPESSize v ->
  (idle pid v ->
   exists v', ValidatePESStart pid now1 now2 data v = Ret (v', Val tt) /\
     assembling pid (len data) (wanted n) v' /\ maxPESSize v' = maxPESSize v) /\
  (forall got want, assembling pid got want v ->
   ValidatePESStart pid now1 now2 data v = Ret (v, Err (IncompletePES pid got))).
Proof.
  intros Hh Hm. pose proof (header_range _ _ Hh) as Hr.
  destruct Hh as (b3 & hi & lo & rest & -> & Hhi & Hlo & ->).
  assert (Z.lor (u16 (Z.shiftl hi 8)) lo = hi * 256 + lo) as Hlen.
  { unfold is_byte in *. rewrite Z.shiftl_mul_pow2 by lia. rewrite u16_id by lia.
    rewrite Z.lor_comm. rewrite <- Z.shiftl_mul_pow2 by lia.
    rewrite lor_shiftl_add by lia. lia. }
  unfold ValidatePESStart. rewrite (proj2 (Z.ltb_ge _ 6)).
  2: { rewrite !len_cons. pose proof (len_nonneg rest). lia. }
  set (d := 0 :: 0 :: 1 :: b3 :: hi :: lo :: rest).
  assert (idx d 0 = Ret 0 /\ idx d 1 = Ret 0 /\ idx d 2 = Ret 1 /\ idx d 3 = Ret b3 /\
    idx d 4 = Ret hi /\ idx d 5 = Ret lo) as (-> & -> & -> & -> & -> & ->) by done.
  rewrite !bind_Ret. cbn [Z.eqb negb orb]. change (0 =? 0) with true. change (1 =? 1) with true.
  cbn [negb orb]. rewrite Hlen. unfold idle, assembling, wanted. split.
  - intros Hi.
    assert ((if (0 <? hi * 256 + lo) && (maxPESSize v <? hi * 256 + lo + 6) then true else false) = false) as Hbig.
    { case_bool; [|done]. zbool. lia. }
    destruct (streams v !! pid) as [[[] ? ? ? ? ? ?]|]; [done| |];
      cbn [hasLength expectedLength];
      (destruct ((0 <? hi * 256 + lo) && (maxPESSize v <? hi * 256 + lo + 6)); [done|]);
      eexists; (split; [done|]); (split; [|done]);
      eexists; (split; [apply lookup_insert_eq|]); simpl; (split; [done|]); (split; [done|]);
      by case_bool.
  - intros got want (s & Hs & Hip & Hb & _). rewrite Hs. destruct s; simpl in *. by subst.
Qed.

Lemma continuation_spec pid got want d now v :
  assembling pid got want v -> 0 <= got -> 0 <= d -> got + d <= maxPESSize v < 2 ^ 62 ->
  exists v' r, ValidatePESContinuation pid d now v = (v', r) /\ maxPESSize v' = maxPESSize v /\
    match want with
    | Some n =>
        if got + d <? n then r = Val tt /\ assembling pid (got + d) want v'
        else idle pid v' /\ r = (if got + d =? n then Val tt else Err (PESOverrun pid n (got + d)))
    | None => r = Val tt /\ assembling pid (got + d) want v'
    end.
Proof.
  intros (s & Hs & Hip & Hb & Hw) Hg Hd Hm. unfold ValidatePESContinuation. rewrite Hs, Hip.
  cbn [negb]. rewrite Hb, (i64_id (got + d)) by lia. set (st := upd lastActivity now _).
  assert (bytesAccumulated st = got + d /\ hasLength st = hasLength s /\
    expectedLength st = expectedLength s /\ inProgress st = inProgress s) as (Hb' & Hh' & He' & Hi') by done.
  clearbody st. rewrite Hb', (proj2 (Z.ltb_ge (maxPESSize v) (got + d))) by lia.
  destruct want as [n|]; [destruct Hw as [Hh He]|]; rewrite Hh', ?Hh, ?Hw; cbn [andb].
  - rewrite He', He. destruct (Z.leb_spec n (got + d)).
    + rewrite (proj2 (Z.ltb_ge (got + d) n)) by lia.
      change (expectedLength (upd inProgress false st)) with (expectedLength st).
      change (bytesAccumulated (upd inProgress false st)) with (bytesAccumulated st). rewrite He', He, Hb'.
      destruct (Z.ltb_spec n (got + d)); eexists _, _; (split; [done|]); (split; [done|]);
        unfold idle; simpl; rewrite lookup_insert_eq; (split; [done|]).
      * by rewrite (proj2 (Z.eqb_neq (got + d) n)) by lia.
      * by rewrite (proj2 (Z.eqb_eq (got + d) n)) by lia.
    + rewrite (proj2 (Z.ltb_lt (got + d) n)) by lia. eexists _, _. split; [done|]. split; [done|].
      split; [done|]. exists st. simpl. rewrite lookup_insert_eq. split_and!; congruence.
  - eexists _, _. split; [done|]. split; [done|]. split; [done|].
    exists st. simpl. rewrite lookup_insert_eq. split_and!; congruence.
Qed.

(** Continuations of one PID, one call per transport packet. *)
Fixpoint continue_run (pid now : Z) (ds : list Z) (v : PESValidator)
    : PESValidator * list (exn pes_error unit) :=
  match ds with
  | [] => (v, [])
  | d :: ds =>
      let '(v, r) := ValidatePESContinuation pid d now v in
      let '(v, rs) := continue_run pid now ds v in (v, r :: rs)
  end.
Definition total (ds : list Z) : Z := foldr Z.add 0 ds.
Definition accepted (r : exn pes_error unit) : bool := match r with Val _ => true | Err _ => false end.

Lemma continue_run_spec pid n now ds got v :
  assembling pid got (Some n) v -> 0 <= got -> Forall (fun d => 0 <= d) ds ->
  got + total ds < n -> n <= maxPESSize v < 2 ^ 62 ->
  exists v' rs, continue_run pid now ds v = (v', rs) /\ forallb accepted rs = true /\
    assembling pid (got + total ds) (Some n) v' /\ maxPESSize v' = maxPESSize v.
Proof.
  intros Ha Hg Hds. revert got v Ha Hg.
  induction Hds as [|d ds Hd Hds IH]; intros got v Ha Hg Hn Hm; cbn [continue_run total foldr] in *.
  { exists v, []. rewrite Z.add_0_r. done. }
  change (foldr Z.add 0 ds) with (total ds) in *.
  assert (0 <= total ds) by (clear -Hds; induction Hds; simpl; [lia|unfold total in *; simpl; lia]).
  destruct (continuation_spec pid got (Some n) d now v Ha Hg Hd) as (v1 & r & -> & Hm1 & Hr); [lia|].
  rewrite (proj2 (Z.ltb_lt (got + d) n)) in Hr by lia. destruct Hr as [-> Ha1].
  destruct (IH (got + d) v1 Ha1) as (v' & rs & -> & Hok & Ha' & Hm'); [lia|lia|lia|].
  eexists _, _. split; [done|]. split; [done|]. split; [|congruence].
  by replace (got + (d + total ds)) with (got + d + total ds) by lia.
Qed.

(** a PES packet that declares its length is accepted piece by piece: its
    start is accepted when the PID is idle, every further piece is accepted
    and counted while the total stays below the declared length plus the
    6-byte header, and the piece that reaches it ends the packet, without
    error exactly when it ends there.  Another start before that is refused. *)
Theorem pes_assembly (pid now : Z) (data data' : list Z) (n n' d : Z) (ds : list Z) (v : PESValidator) :
  header_ok data n -> 0 < n -> header_ok data' n' ->
  Forall (fun d => 0 <= d) ds -> 0 <= d ->
  len data + total ds < n + 6 -> len data + total ds + d <= maxPESSize v ->
  65541 <= maxPESSize v < 2 ^ 62 -> idle pid v ->
  exists v1 v2 rs v3 r,
    ValidatePESStart pid now now data v = Ret (v1, Val tt) /\
    continue_run pid now ds v1 = (v2, rs) /\ forallb accepted rs = true /\
    ValidatePESStart pid now now data' v2 = Ret (v2, Err (IncompletePES pid (len data + total ds))) /\
    ValidatePESContinuation pid d now v2 = (v3, r) /\
    (let got := len data + total ds + d in
     if got <? n + 6 then r = Val tt /\ assembling pid got (Some (n + 6)) v3
     else idle pid v3 /\ r = (if got =? n + 6 then Val tt else Err (PESOverrun pid (n + 6) got))).
Proof.
  intros Hh Hn Hh' Hds Hd Hlt Hle Hm Hi. pose proof (header_range _ _ Hh). pose proof (len_nonneg data).
  assert (0 <= total ds) by (clear -Hds; induction Hds; simpl; [lia|unfold total in *; simpl; lia]).
  destruct (proj1 (ValidatePESStart_spec pid now now data n v Hh ltac:(lia)) Hi) as (v1 & Hst & Ha & Hm1).
  unfold wanted in Ha. rewrite (proj2 (Z.ltb_lt 0 n)) in Ha by lia.
  destruct (continue_run_spec pid (n + 6) now ds (len data) v1 Ha) as (v2 & rs & Hrun & Hok & Ha2 & Hm2);
    [lia|done|lia|lia|].
  destruct (continuation_spec pid (len data + total ds) (Some (n + 6)) d now v2 Ha2)
    as (v3 & r & Hc & _ & Hr); [lia|done|lia|].
  exists v1, v2, rs, v3, r. split_and!; try done.
  apply (ValidatePESStart_spec pid now now data' n' v2 Hh' ltac:(lia)) in Ha2. done.
Qed.

Definition pes_header (hi lo : Z) : list Z := [0; 0; 1; 224; hi; lo].
Lemma pes_header_ok hi lo : is_byte hi -> is_byte lo -> header_ok (pes_header hi lo) (hi * 256 + lo).
Proof. intros. by exists 224, hi, lo, []. Qed.

Lemma pes_assembly_witness :
  exists v1 v2 rs v3 r,
    ValidatePESStart 256 5 5 (pes_header 1 4) (NewPESValidator 1) = Ret (v1, Val tt) /\
    continue_run 256 5 [100; 60] v1 = (v2, rs) /\ forallb accepted rs = true /\
    ValidatePESStart 256 5 5 (pes_header 0 0) v2 = Ret (v2, Err (IncompletePES 256 166)) /\
    ValidatePESContinuation 256 101 5 v2 = (v3, r) /\
    (if 267 <? 266 then r = Val tt /\ assembling 256 267 (Some 266) v3
     else idle 256 v3 /\ r = (if 267 =? 266 then Val tt else Err (PESOverrun 256 266 267))).
Proof.
  apply (pes_assembly 256 5 (pes_header 1 4) (pes_header 0 0) 260 0 101 [100; 60] (NewPESValidator 1));
    try (apply (pes_header_ok 1 4); unfold is_byte; lia);
    try (apply (pes_header_ok 0 0); unfold is_byte; lia);
    try (repeat constructor; lia); unfold len; simpl; try lia; done.
Defined.

(** a PES packet whose start already holds all of its declared bytes is
    left in progress, because only a continuation completes a packet; the
    next PES packet of the PID, and every later one, is then refused as if the
    first were incomplete. *)
Theorem whole_packet_blocks (pid now now' : Z) (data data' : list Z) (n n' : Z) (v : PESValidator) :
  header_ok data n -> 0 < n -> len data = n + 6 -> header_ok data' n' ->
  65541 <= maxPESSize v -> idle pid v ->
  exists v1, ValidatePESStart pid now now data v = Ret (v1, Val tt) /\
    ValidatePESStart pid now' now' data' v1 = Ret (v1, Err (IncompletePES pid (n + 6))).
Proof.
  intros Hh Hn Hl Hh' Hm Hi.
  destruct (proj1 (ValidatePESStart_spec pid now now data n v Hh Hm) Hi) as (v1 & Hst & Ha & Hm1).
  exists v1. split; [done|]. rewrite <- Hl.
  exact (proj2 (ValidatePESStart_spec pid now' now' data' n' v1 Hh' ltac:(lia)) _ _ Ha).
Qed.

Lemma whole_packet_blocks_witness :
  exists v1, ValidatePESStart 256 1 1 (pes_header 0 2 ++ [7; 8]) (NewPESValidator 1) = Ret (v1, Val tt) /\
    ValidatePESStart 256 2 2 (pes_header 0 9) v1 = Ret (v1, Err (IncompletePES 256 8)).
Proof.
  apply (whole_packet_blocks 256 1 2 (pes_header 0 2 ++ [7; 8]) (pes_header 0 9) 2 9 (NewPESValidator 1));
    try done; try lia.
  - exists 224, 0, 2, [7; 8]. unfold is_byte. split_and!; try done; lia.
  - apply (pes_header_ok 0 9); unfold is_byte; lia.
Defined.
