(* ===== verification/Fragment.v ===== *)
(** * RTP fragment validation (validation/fragment.go)

    Bookkeeping of a fragment assembly: sizes, sequence gaps, timeout.  The
    caller owns the validator and the state; there is no lock. *)

From S2P Require Import Prelude Serial Depacketizer.

Inductive fragment_error : Type :=
| ErrFragmentTooLarge | ErrFragmentTimeout | ErrTooManyFragments | ErrInvalidFragmentOrder
| ErrDuplicateFragment | ErrFragmentGapTooLarge.
#[export] Instance fragment_error_eq_dec : EqDecision fragment_error.
Proof. solve_decision. Defined.

Record FragmentValidator := mkFragV {
  maxFragmentSize : Z;
  maxFragments : Z;
  maxSequenceGap : Z;
  fragmentTimeout : Z;
  maxAssemblySize : Z;
  allowDuplicates : bool;
  enforceStrictOrder : bool
}.

Definition NewFragmentValidator : FragmentValidator :=
  mkFragV MaxFragmentSize 1000 5 (5 * second) MaxNALUnitSize false true.

Record FragmentInfo := mkInfo {
  SequenceNumber : Z; Timestamp : Z; Size : Z; ReceivedAt : Z; IsStart : bool; IsEnd : bool }.

Record FragmentState := mkState {
  fragments : list FragmentInfo;
  totalSize : Z;
  startTime : Z;
  lastSequence : Z;
  expectedSeq : Z
}.
#[export] Instance eta_state : Eta FragmentState := fun s =>
  mkState (fragments s) (totalSize s) (startTime s) (lastSequence s) (expectedSeq s).

Definition NewFragmentState (now : Z) : FragmentState := mkState [] 0 now 0 0.

Definition ValidateFragment (v : FragmentValidator) (info : FragmentInfo) : exn fragment_error unit :=
  if maxFragmentSize v <? Size info then Err ErrFragmentTooLarge else Val tt.

Definition ValidateSequence (v : FragmentValidator) (state : FragmentState) (newSeq : Z)
    : exn fragment_error unit :=
  if len (fragments state) =? 0 then Val tt
  else
    let gap := sequenceDistance newSeq (lastSequence state) in
    if (gap =? 0) && negb (allowDuplicates v) then Err ErrDuplicateFragment
    else if (gap <? 0) && enforceStrictOrder v then Err ErrInvalidFragmentOrder
    else if maxSequenceGap v <? gap then Err ErrFragmentGapTooLarge
    else Val tt.

Definition ValidateAssembly (v : FragmentValidator) (now : Z) (state : FragmentState)
    : exn fragment_error unit :=
  if fragmentTimeout v <? time_sub now (startTime state) then Err ErrFragmentTimeout
  else if maxFragments v <? len (fragments state) then Err ErrTooManyFragments
  else if maxAssemblySize v <? totalSize state then Err ErrFragmentTooLarge
  else Val tt.

(** The fragment is added before the assembly is validated, and stays added
    when the validation fails. *)
Definition AddFragment (v : FragmentValidator) (now : Z) (info : FragmentInfo) (state : FragmentState)
    : FragmentState * exn fragment_error unit :=
  match ValidateFragment v info with
  | Err e => (state, Err e)
  | Val _ =>
      match ValidateSequence v state (SequenceNumber info) with
      | Err e => (state, Err e)
      | Val _ =>
          let state := state <| fragments := fragments state ++ [info] |>
                             <| totalSize := i64 (totalSize state + Size info) |>
                             <| lastSequence := SequenceNumber info |> in
          (state, ValidateAssembly v now state)
      end
  end.

Definition IsComplete (state : FragmentState) : bool :=
  if len (fragments state) =? 0 then false
  else existsb IsStart (fragments state) && existsb IsEnd (fragments state).

Definition Reset (now : Z) (state : FragmentState) : FragmentState := mkState [] 0 now 0 0.

(** [ValidateRTPPacket] on the packet's version and payload; nil is [None]. *)
Inductive rtp_error : Type := NilPacket | InvalidVersion | EmptyPayload | PayloadTooLarge.
Definition MaxPacketSize : Z := 65536.
Definition ValidateRTPPacket (packet : option (Z * list Z)) : exn rtp_error unit :=
  match packet with
  | None => Err NilPacket
  | Some (version, payload) =>
      if negb (version =? 2) then Err InvalidVersion
      else if len payload =? 0 then Err EmptyPayload
      else if MaxPacketSize <? len payload then Err PayloadTooLarge
      else Val tt
  end.

Record FragmentMetrics := mkMetrics {
  TotalFragments : Z; CompleteAssemblies : Z; TimeoutAssemblies : Z; DroppedFragments : Z;
  OutOfOrderFragments : Z; DuplicateFragments : Z; LargeGaps : Z }.
#[export] Instance eta_metrics : Eta FragmentMetrics := fun m =>
  mkMetrics (TotalFragments m) (CompleteAssemblies m) (TimeoutAssemblies m) (DroppedFragments m)
    (OutOfOrderFragments m) (DuplicateFragments m) (LargeGaps m).
Definition UpdateMetrics (err : exn fragment_error unit) (m : FragmentMetrics) : FragmentMetrics :=
  match err with
  | Val _ => m
  | Err ErrFragmentTimeout => m <| TimeoutAssemblies := i64 (TimeoutAssemblies m + 1) |>
  | Err ErrDuplicateFragment => m <| DuplicateFragments := i64 (DuplicateFragments m + 1) |>
  | Err ErrInvalidFragmentOrder => m <| OutOfOrderFragments := i64 (OutOfOrderFragments m + 1) |>
  | Err ErrFragmentGapTooLarge => m <| LargeGaps := i64 (LargeGaps m + 1) |>
  | Err _ => m <| DroppedFragments := i64 (DroppedFragments m + 1) |>
  end.

(** ** Which sequences of fragments are accepted *)

(** A fragment as it arrives: the unbounded number its 16-bit sequence number
    stands for, the clock, the fragment. *)
Record arrival := mkArrival { a_number : Z; a_now : Z; a_info : FragmentInfo }.

Fixpoint feed (v : FragmentValidator) (l : list arrival) (s : FragmentState)
    : FragmentState * list (exn fragment_error unit) :=
  match l with
  | [] => (s, [])
  | a :: l =>
      let '(s, r) := AddFragment v (a_now a) (a_info a) s in
      let '(s, rs) := feed v l s in (s, r :: rs)
  end.
Definition ok (r : exn fragment_error unit) : bool := match r with Val _ => true | Err _ => false end.

Fixpoint sizes (l : list arrival) : Z :=
  match l with [] => 0 | a :: l => Size (a_info a) + sizes l end.
(** Consecutive numbers, from [m] on, advance by [lo] to [hi]. *)
Fixpoint advances (lo hi m : Z) (l : list arrival) : Prop :=
  match l with [] => True | a :: l => lo <= a_number a - m <= hi /\ advances lo hi (a_number a) l end.

(** A well-formed arrival: the sequence number is that of the number, the size
    is a length, the clock does not overflow. *)
Definition arrives (t0 : Z) (a : arrival) : Prop :=
  SequenceNumber (a_info a) = u16 (a_number a) /\ 0 <= Size (a_info a) < 2 ^ 32 /\
  - 2 ^ 62 <= a_now a - t0 < 2 ^ 62.

(** The closed form of acceptance, for the limits of [v]. *)
Definition acceptable (v : FragmentValidator) (t0 count total : Z) (l : list arrival) : Prop :=
  Forall (fun a => Size (a_info a) <= maxFragmentSize v /\ a_now a - t0 <= fragmentTimeout v) l /\
  count + len l <= maxFragments v /\ total + sizes l <= maxAssemblySize v.

Definition strict (v : FragmentValidator) : Prop :=
  allowDuplicates v = false /\ enforceStrictOrder v = true /\ 0 <= fragmentTimeout v < 2 ^ 62 /\
  0 <= maxSequenceGap v /\ 0 <= maxAssemblySize v < 2 ^ 62.

Lemma sizes_nonneg t0 l : Forall (arrives t0) l -> 0 <= sizes l.
Proof. intros Hl. induction Hl as [|a l (_ & ? & _) Hl IH]; simpl; lia. Qed.

Lemma time_sub_id a b : - 2 ^ 62 <= a - b < 2 ^ 62 -> time_sub a b = a - b.
Proof. unfold time_sub, min_i64, max_i64. lia. Qed.

(** One fragment in the middle of an assembly. *)
Lemma AddFragment_spec v a m s :
  strict v -> arrives (startTime s) a ->
  (fragments s <> [] -> lastSequence s = u16 m /\ - 2 ^ 15 <= a_number a - m < 2 ^ 15) ->
  0 <= totalSize s <= maxAssemblySize v ->
  ok (AddFragment v (a_now a) (a_info a) s).2 = true <->
  ((fragments s <> [] -> 1 <= a_number a - m <= maxSequenceGap v) /\
   Size (a_info a) <= maxFragmentSize v /\ a_now a - startTime s <= fragmentTimeout v /\
   len (fragments s) + 1 <= maxFragments v /\ totalSize s + Size (a_info a) <= maxAssemblySize v).
Proof.
  intros (Hdup & Hord & Hto & Hgap & Has) (Hseq & Hsz & Hnow) Hlast Htot.
  unfold AddFragment, ValidateFragment.
  destruct (Z.ltb_spec (maxFragmentSize v) (Size (a_info a))); [simpl; intuition (lia || discriminate)|].
  unfold ValidateSequence. rewrite Hdup, Hord. cbn [negb]. rewrite !andb_true_r.
  assert (forall s', startTime s' = startTime s -> len (fragments s') = len (fragments s) + 1 ->
    totalSize s' = totalSize s + Size (a_info a) ->
    ok (ValidateAssembly v (a_now a) s') = true <->
    a_now a - startTime s <= fragmentTimeout v /\ len (fragments s) + 1 <= maxFragments v /\
    totalSize s + Size (a_info a) <= maxAssemblySize v) as Hva.
  { intros s' H1 H2 H3. unfold ValidateAssembly. rewrite H1, H2, H3, time_sub_id by done.
    repeat case_bool; simpl; intuition (lia || discriminate). }
  set (s' := upd lastSequence _ _).
  specialize (Hva s' eq_refl ltac:(simpl; rewrite len_app, len_cons, len_nil; lia)
    ltac:(simpl; rewrite i64_id by lia; done)).
  destruct (fragments s) as [|f fs] eqn:Hf.
  { rewrite len_nil in *. change (0 =? 0) with true. cbn [snd]. rewrite Hva.
    split; [intros; split_and!; try done; try tauto; lia|tauto]. }
  rewrite len_cons_eq0. destruct (Hlast ltac:(done)) as [Hl Hw]. rewrite Hl, Hseq.
  rewrite sequenceDistance_window by exact Hw.
  assert (f :: fs <> []) as Hne by done.
  destruct (Z.eqb_spec (a_number a - m) 0); [simpl; intuition (lia || discriminate)|].
  destruct (Z.ltb_spec (a_number a - m) 0); [simpl; intuition (lia || discriminate)|].
  destruct (Z.ltb_spec (maxSequenceGap v) (a_number a - m)); [simpl; intuition (lia || discriminate)|].
  cbn [snd]. rewrite Hva. intuition lia.
Qed.

Lemma AddFragment_state v a s :
  ok (AddFragment v (a_now a) (a_info a) s).2 = true ->
  (AddFragment v (a_now a) (a_info a) s).1 =
    s <| fragments := fragments s ++ [a_info a] |>
      <| totalSize := i64 (totalSize s + Size (a_info a)) |>
      <| lastSequence := SequenceNumber (a_info a) |>.
Proof. unfold AddFragment. destruct (ValidateFragment _ _); [|done]. by destruct (ValidateSequence _ _ _). Qed.

(** Arrivals within half the sequence space of each other. *)
Definition close (m : Z) (l : list arrival) : Prop := advances (- 2 ^ 15) (2 ^ 15 - 1) m l.

Lemma feed_accepts v m l s :
  strict v -> Forall (arrives (startTime s)) l ->
  fragments s <> [] -> lastSequence s = u16 m -> close m l ->
  0 <= totalSize s <= maxAssemblySize v -> len (fragments s) <= maxFragments v ->
  (forallb ok (feed v l s).2 = true <->
   advances 1 (maxSequenceGap v) m l /\
   acceptable v (startTime s) (len (fragments s)) (totalSize s) l) /\
  (forallb ok (feed v l s).2 = true ->
   fragments (feed v l s).1 = fragments s ++ (a_info <$> l) /\
   totalSize (feed v l s).1 = totalSize s + sizes l).
Proof.
  intros Hv. revert m s. induction l as [|a l IH]; intros m s Har Hne Hlast Hcl Htot Hlen.
  { simpl. unfold acceptable. simpl. rewrite len_nil, app_nil_r, !Z.add_0_r.
    split; [split; [intros _; split_and!; auto; lia|done]|]. intros _. split; [done|lia]. }
  apply Forall_cons in Har as [Ha Har]. destruct Hcl as [Hw Hcl].
  pose proof (AddFragment_spec v a m s Hv Ha ltac:(intros _; split; [done|lia]) Htot) as Hspec.
  pose proof (AddFragment_state v a s) as Hst. pose proof (sizes_nonneg _ _ Har) as Hsn.
  cbn [feed]. destruct (AddFragment v (a_now a) (a_info a) s) as [s1 r] eqn:Hadd. cbn [snd fst] in *.
  destruct (feed v l s1) as [s2 rs] eqn:Hfeed. cbn [snd fst forallb].
  unfold acceptable. rewrite Forall_cons, len_cons. cbn [sizes advances].
  destruct (ok r) eqn:Hr; cbn [andb].
  2: { split; [|done]. split; [done|]. intros ((Hg & _) & ((Hsz & Ht) & _) & Hc & Hsum). exfalso.
       assert (false = true) as Hx; [|done]. apply Hspec. pose proof (len_nonneg l).
       split_and!; try lia; done. }
  specialize (Hst eq_refl). destruct (proj1 Hspec eq_refl) as (Hg & Hsz & Ht & Hc & Hsum).
  destruct Ha as (Hseq & Hsz0 & Hnow).
  assert (fragments s1 = fragments s ++ [a_info a] /\ startTime s1 = startTime s /\
    lastSequence s1 = u16 (a_number a) /\ totalSize s1 = totalSize s + Size (a_info a)) as (F1 & F2 & F3 & F4).
  { rewrite Hst. simpl. split_and!; try done. apply i64_id. destruct Hv as (_ & _ & _ & _ & ?). lia. }
  assert (len (fragments s1) = len (fragments s) + 1) as F5 by (rewrite F1, len_app, len_cons, len_nil; lia).
  destruct (IH (a_number a) s1) as [Hiff Hfin]; rewrite ?F2, ?F3, ?F4, ?F5; try done; try lia.
  { rewrite F1. by destruct (fragments s). }
  rewrite Hfeed, F2, F4, F5 in Hiff. rewrite Hfeed, F4 in Hfin. cbn [snd fst] in Hiff, Hfin. split.
  - rewrite Hiff. unfold acceptable. specialize (Hg Hne).
    split; intros; intuition lia.
  - intros Hok. destruct (Hfin Hok) as [-> ->]. rewrite F1, <- app_assoc. split; [done|lia].
Qed.

(** starting from an empty assembly, every fragment of a sequence is
    accepted exactly when each is within the size limit and on time, each
    sequence number (across the 16-bit wrap) is 1 to 5 above the one before,
    there are at most 1000 and their total size is within the limit; the
    assembly then holds exactly these fragments and their total size, and is
    complete exactly when a start and an end fragment are among them (whatever
    is missing in between). *)
Theorem fragments_exact (t0 : Z) (a : arrival) (l : list arrival) :
  Forall (arrives t0) (a :: l) -> close (a_number a) l ->
  let v := NewFragmentValidator in
  let '(s, rs) := feed v (a :: l) (NewFragmentState t0) in
  (forallb ok rs = true <-> advances 1 5 (a_number a) l /\ acceptable v t0 0 0 (a :: l)) /\
  (forallb ok rs = true ->
   fragments s = a_info <$> (a :: l) /\ totalSize s = sizes (a :: l) /\
   IsComplete s = existsb IsStart (a_info <$> (a :: l)) && existsb IsEnd (a_info <$> (a :: l))).
Proof.
  intros Har Hcl v. assert (strict v) as Hv by (unfold strict, v; simpl; unfold second, MaxNALUnitSize; split_and!; try done; lia).
  apply Forall_cons in Har as [Ha Har]. set (s0 := NewFragmentState t0).
  pose proof (AddFragment_spec v a 0 s0 Hv Ha ltac:(done) ltac:(unfold v, s0; simpl; unfold MaxNALUnitSize; lia)) as Hspec.
  pose proof (AddFragment_state v a s0) as Hst. pose proof (sizes_nonneg _ _ Har) as Hsn.
  cbn [feed]. destruct (AddFragment v (a_now a) (a_info a) s0) as [s1 r] eqn:Hadd. cbn [snd fst] in *.
  destruct (feed v l s1) as [s2 rs] eqn:Hfeed. cbn [snd fst forallb].
  unfold acceptable. rewrite Forall_cons, len_cons. cbn [sizes].
  change (startTime s0) with t0 in *. change (totalSize s0) with 0 in *.
  change (len (fragments s0)) with 0 in *.
  destruct (ok r) eqn:Hr; cbn [andb].
  2: { split; [|done]. split; [done|]. intros (Hg & ((Hsz & Ht) & _) & Hc & Hsum). exfalso.
       assert (false = true) as Hx; [|done]. apply Hspec. pose proof (len_nonneg l).
       split_and!; try lia; done. }
  specialize (Hst eq_refl). destruct (proj1 Hspec eq_refl) as (_ & Hsz & Ht & Hc & Hsum).
  destruct Ha as (Hseq & Hsz0 & Hnow).
  assert (fragments s1 = [a_info a] /\ startTime s1 = t0 /\
    lastSequence s1 = u16 (a_number a) /\ totalSize s1 = Size (a_info a)) as (F1 & F2 & F3 & F4).
  { rewrite Hst. simpl. split_and!; try done. rewrite Z.add_0_l. apply i64_id. lia. }
  destruct (feed_accepts v (a_number a) l s1) as [Hiff Hfin]; rewrite ?F2, ?F3, ?F4, ?F1; try done; try lia.
  rewrite Hfeed, F2, F4, F1 in Hiff. rewrite Hfeed, F4, F1 in Hfin. cbn [snd fst] in Hiff, Hfin.
  change (len [a_info a]) with 1 in Hiff. unfold acceptable in Hiff.
  change (maxSequenceGap v) with 5 in Hiff. split.
  - rewrite Hiff. intuition lia.
  - intros Hok. destruct (Hfin Hok) as [E1 E2]. split; [exact E1|]. split; [exact E2|].
    unfold IsComplete. rewrite E1. cbn [app]. by rewrite len_cons_eq0.
Qed.

Definition frag (n size : Z) (st en : bool) : arrival :=
  mkArrival n 10 (mkInfo (u16 n) 0 size 10 st en).
Lemma fragments_exact_witness :
  let '(s, rs) := feed NewFragmentValidator [frag 65535 700 true false; frag 65536 800 false false; frag 65540 20 false true]
                    (NewFragmentState 0) in
  (forallb ok rs = true <-> advances 1 5 65535 [frag 65536 800 false false; frag 65540 20 false true] /\
     acceptable NewFragmentValidator 0 0 0 [frag 65535 700 true false; frag 65536 800 false false; frag 65540 20 false true]) /\
  (forallb ok rs = true ->
   fragments s = a_info <$> [frag 65535 700 true false; frag 65536 800 false false; frag 65540 20 false true] /\
   totalSize s = 1520 /\ IsComplete s = true).
Proof.
  refine (fragments_exact 0 (frag 65535 700 true false) [frag 65536 800 false false; frag 65540 20 false true] _ _).
  - repeat constructor; simpl; lia.
  - repeat constructor; simpl; lia.
Defined.
