(* ===== verification/Validation.v ===== *)
(** * Stateless validators and PTS/DTS validation (validation/validation.go,
    validation/pts_dts_validator.go) *)

From stdpp Require Import strings.
From S2P Require Import Prelude.

(** ** Packets, buffers, sizes and timestamps *)

Definition MaxNALUnitSize : Z := 10 * 1024 * 1024.
Definition MaxFrameSize : Z := 50 * 1024 * 1024.
Definition MaxNALUnitsPerFrame : Z := 1000.

Record PacketValidator := mkPacketValidator { maxPacketSize : Z; maxPayloadSize : Z; syncByteEnabled : bool }.
Definition NewPacketValidator : PacketValidator := mkPacketValidator 65536 65536 true.

Inductive packet_error : Type :=
| PacketWrongSize (n : Z) | WrongSyncByte (b : Z)
| RTPTooSmall (n : Z) | RTPTooLarge (n : Z) | RTPBadVersion (v : Z)
| EmptyNALUnit | NALUnitTooLarge (n : Z) | ForbiddenBit
| EmptyFrame | FrameTooLarge (n : Z) | TooManyNALUnits (n : Z).

Definition ValidateMPEGTSPacket (data : list Z) (v : PacketValidator) : res (exn packet_error unit) :=
  if negb (len data =? 188) then Ret (Err (PacketWrongSize (len data)))
  else
    b ← (if syncByteEnabled v then idx data 0 else Ret 0x47);
    if syncByteEnabled v && negb (b =? 0x47) then Ret (Err (WrongSyncByte b)) else Ret (Val tt).

Definition ValidateRTPPacket (data : list Z) (v : PacketValidator) : res (exn packet_error unit) :=
  if len data <? 12 then Ret (Err (RTPTooSmall (len data)))
  else if maxPacketSize v <? len data then Ret (Err (RTPTooLarge (len data)))
  else
    b ← idx data 0;
    let version := Z.land (Z.shiftr b 6) 3 in
    if negb (version =? 2) then Ret (Err (RTPBadVersion version)) else Ret (Val tt).

Definition ValidateNALUnit (data : list Z) : res (exn packet_error unit) :=
  if len data =? 0 then Ret (Err EmptyNALUnit)
  else if MaxNALUnitSize <? len data then Ret (Err (NALUnitTooLarge (len data)))
  else
    b ← idx data 0;
    if negb (Z.land b 0x80 =? 0) then Ret (Err ForbiddenBit) else Ret (Val tt).

Definition ValidateFrame (data : list Z) (nalUnits : Z) : exn packet_error unit :=
  if len data =? 0 then Err EmptyFrame
  else if MaxFrameSize <? len data then Err (FrameTooLarge (len data))
  else if MaxNALUnitsPerFrame <? nalUnits then Err (TooManyNALUnits nalUnits)
  else Val tt.

Inductive bound_error : Type :=
| NegativeOffset (n : Z) | NegativeLength (n : Z) | OffsetExceeds (o n : Z) | AccessExceeds (lo hi n : Z).

Definition ValidateBufferAccess {A} (buffer : list A) (offset length_ : Z) : exn bound_error unit :=
  if offset <? 0 then Err (NegativeOffset offset)
  else if length_ <? 0 then Err (NegativeLength length_)
  else if len buffer <? offset then Err (OffsetExceeds offset (len buffer))
  else if len buffer <? i64 (offset + length_) then Err (AccessExceeds offset (i64 (offset + length_)) (len buffer))
  else Val tt.

Inductive start_code_error : Type := StartCodeTooShort (pos : Z) | NoStartCode (pos : Z).

Definition ValidateStartCode (data : list Z) (pos : Z) : res (exn start_code_error Z) :=
  if len data <? pos + 3 then Ret (Err (StartCodeTooShort pos))
  else
    a ← idx data pos;
    if negb (a =? 0) then Ret (Err (NoStartCode pos))
    else
      b ← idx data (pos + 1);
      if negb (b =? 0) then Ret (Err (NoStartCode pos))
      else
        c ← idx data (pos + 2);
        if c =? 1 then Ret (Val 3)
        else if (pos + 4 <=? len data) && (c =? 0) then
          d ← idx data (pos + 3);
          if d =? 1 then Ret (Val 4) else Ret (Err (NoStartCode pos))
        else Ret (Err (NoStartCode pos)).

Inductive size_error : Type := UnknownSizeType (s : string) | NegativeSize (n : Z) | SizeExceeds (n limit : Z).

Definition SizeValidator : Type := gmap string Z.
Definition NewSizeValidator : SizeValidator :=
  {["packet"%string := 65536; "frame"%string := MaxFrameSize; "nalunit"%string := MaxNALUnitSize;
    "buffer"%string := 104857600; "gop"%string := 209715200]}.
Definition SetLimit (limitType : string) (n : Z) (s : SizeValidator) : SizeValidator :=
  @insert _ _ (gmap string Z) _ limitType n s.
Definition ValidateSize (sizeType : string) (n : Z) (s : SizeValidator) : exn size_error unit :=
  match @lookup _ _ (gmap string Z) _ sizeType s with
  | None => Err (UnknownSizeType sizeType)
  | Some limit => if n <? 0 then Err (NegativeSize n) else if limit <? n then Err (SizeExceeds n limit) else Val tt
  end.

Record TimestampValidator := mkTimestampValidator { maxPTS : Z; maxDTS : Z }.
Definition NewTimestampValidator : TimestampValidator := mkTimestampValidator (Z.shiftl 1 33) (Z.shiftl 1 33).

Inductive stamp_error : Type :=
| NegativePTS (t : Z) | PTSOutOfRange (t : Z) | NegativeDTS (t : Z) | DTSOutOfRange (t : Z)
| PTSBeforeDTS (p d : Z) | DTSBackward (last_ d : Z).

Definition ValidatePTS (pts : Z) (t : TimestampValidator) : exn stamp_error unit :=
  if pts <? 0 then Err (NegativePTS pts) else if maxPTS t <=? pts then Err (PTSOutOfRange pts) else Val tt.
Definition ValidateDTS (dts : Z) (t : TimestampValidator) : exn stamp_error unit :=
  if dts <? 0 then Err (NegativeDTS dts) else if maxDTS t <=? dts then Err (DTSOutOfRange dts) else Val tt.
Definition ValidatePTSDTSOrder (pts dts : Z) (t : TimestampValidator) : exn stamp_error unit :=
  match ValidatePTS pts t with
  | Err e => Err e
  | Val _ =>
      match ValidateDTS dts t with
      | Err e => Err e
      | Val _ => if pts <? dts then Err (PTSBeforeDTS pts dts) else Val tt
      end
  end.

(** ** PTS/DTS validator *)

Definition MaxPTSValue : Z := Z.shiftl 1 33 - 1.
Definition PTSWrapThreshold : Z := Z.quot MaxPTSValue 2.
Definition MaxTimestampJump : Z := 10 * 90000.

Record PTSDTSValidator := mkPtsV {
  pv_streamID : string;
  lastPTS : Z;
  lastDTS : Z;
  ptsWrapCount : Z;
  dtsWrapCount : Z;
  pv_initialized : bool;
  errorCount : Z
}.
#[export] Instance eta_ptsv : Eta PTSDTSValidator := fun v =>
  mkPtsV (pv_streamID v) (lastPTS v) (lastDTS v) (ptsWrapCount v) (dtsWrapCount v) (pv_initialized v)
    (errorCount v).

Inductive stamp_warning : Type :=
| LargeDifference (d : Z) | PTSWraparound (last_ p n : Z) | LargePTSJump (last_ p : Z) | PTSWentBackward (last_ p : Z)
| DTSWraparound (last_ d n : Z).

(** [Valid] is the absence of an error. *)
Record ValidationResult := mkResult {
  vr_Error : option stamp_error;
  Warnings : list stamp_warning;
  CorrectedPTS : Z;
  CorrectedDTS : Z;
  PTSWrapped : bool;
  DTSWrapped : bool
}.
#[export] Instance eta_vresult : Eta ValidationResult := fun r =>
  mkResult (vr_Error r) (Warnings r) (CorrectedPTS r) (CorrectedDTS r) (PTSWrapped r) (DTSWrapped r).
Definition Valid (r : ValidationResult) : bool := match vr_Error r with None => true | Some _ => false end.

Definition NewPTSDTSValidator (id : string) : PTSDTSValidator := mkPtsV id 0 0 0 0 false 0.

Definition warn (w : stamp_warning) (r : ValidationResult) : ValidationResult := r <| Warnings := Warnings r ++ [w] |>.
Definition reject (e : stamp_error) (r : ValidationResult) (v : PTSDTSValidator)
    : PTSDTSValidator * ValidationResult :=
  (v <| errorCount := i64 (errorCount v + 1) |>, r <| vr_Error := Some e |>).

(** The range and order checks. *)
Definition stamp_check (pts dts : Z) : option stamp_error :=
  if pts <? 0 then Some (NegativePTS pts)
  else if MaxPTSValue <? pts then Some (PTSOutOfRange pts)
  else if dts =? 0 then None
  else if dts <? 0 then Some (NegativeDTS dts)
  else if MaxPTSValue <? dts then Some (DTSOutOfRange dts)
  else if pts <? dts then Some (PTSBeforeDTS pts dts)
  else None.

(** [timestamp + wrapCount * 2^33] *)
Definition HandleWraparound (timestamp wrapCount : Z) : Z :=
  i64 (timestamp + i64 (wrapCount * (MaxPTSValue + 1))).

Definition check_pts (pts : Z) (v : PTSDTSValidator) (r : ValidationResult) : PTSDTSValidator * ValidationResult :=
  let d := i64 (pts - lastPTS v) in
  if d <? - PTSWrapThreshold then
    let v' := v <| ptsWrapCount := i64 (ptsWrapCount v + 1) |> in
    (v', (warn (PTSWraparound (lastPTS v) pts (ptsWrapCount v')) r)
           <| PTSWrapped := true |> <| CorrectedPTS := HandleWraparound pts (ptsWrapCount v') |>)
  else if MaxTimestampJump <? d then (v, warn (LargePTSJump (lastPTS v) pts) r)
  else if (d <? 0) && (- MaxTimestampJump <? d) then (v, warn (PTSWentBackward (lastPTS v) pts) r)
  else (v, r).

Definition ValidateTimestamps (pts dts : Z) (v : PTSDTSValidator) : PTSDTSValidator * ValidationResult :=
  let r := mkResult None [] pts dts false false in
  match stamp_check pts dts with
  | Some e => reject e r v
  | None =>
      let r := if negb (dts =? 0) && (90000 <? i64 (pts - dts)) then warn (LargeDifference (i64 (pts - dts))) r else r in
      if negb (pv_initialized v) then
        (v <| lastPTS := pts |> <| lastDTS := dts |> <| pv_initialized := true |>, r)
      else
        let '(v, r) := check_pts pts v r in
        let record v := v <| lastPTS := pts |> <| lastDTS := dts |> in
        if negb (dts =? 0) && negb (lastDTS v =? 0) then
          let d := i64 (dts - lastDTS v) in
          if d <? - PTSWrapThreshold then
            let v' := v <| dtsWrapCount := i64 (dtsWrapCount v + 1) |> in
            (record v', (warn (DTSWraparound (lastDTS v) dts (dtsWrapCount v')) r)
                          <| DTSWrapped := true |> <| CorrectedDTS := HandleWraparound dts (dtsWrapCount v') |>)
          else if (d <? 0) && (- MaxTimestampJump <? d) then reject (DTSBackward (lastDTS v) dts) r v
          else (record v, r)
        else (record v, r)
  end.

Definition Reset (v : PTSDTSValidator) : PTSDTSValidator := mkPtsV (pv_streamID v) 0 0 0 0 false 0.

Definition PTSDTSValidationService : Type := gmap string PTSDTSValidator.
(** The validator of a stream, made on first use. *)
Definition GetValidator (id : string) (s : gmap string PTSDTSValidator)
    : gmap string PTSDTSValidator * PTSDTSValidator :=
  match s !! id with
  | Some v => (s, v)
  | None => (<[id := NewPTSDTSValidator id]> s, NewPTSDTSValidator id)
  end.
Definition RemoveValidator (id : string) (s : gmap string PTSDTSValidator) : gmap string PTSDTSValidator :=
  delete id s.

Definition ValidatePTSRange (pts : Z) : exn stamp_error unit :=
  if pts <? 0 then Err (NegativePTS pts) else if MaxPTSValue <? pts then Err (PTSOutOfRange pts) else Val tt.
Definition ValidateDTSRange (dts : Z) : exn stamp_error unit :=
  if dts <? 0 then Err (NegativeDTS dts) else if MaxPTSValue <? dts then Err (DTSOutOfRange dts) else Val tt.
Definition CheckPTSDTSOrder (pts dts : Z) : exn stamp_error unit :=
  if negb (dts =? 0) && (pts <? dts) then Err (PTSBeforeDTS pts dts) else Val tt.

Definition CalculateTimeDuration (timestamp clockRate : Z) : Z :=
  if clockRate =? 0 then 0 else i64 (Z.quot (i64 (timestamp * 1000000000)) clockRate).
Definition IsLikelyWraparound (oldTS newTS : Z) : bool := i64 (newTS - oldTS) <? - PTSWrapThreshold.

(** ** Unwrapping *)

Lemma threshold_const : PTSWrapThreshold = 2 ^ 32 - 1.
Proof. reflexivity. Qed.
Lemma max_pts_const : MaxPTSValue = 2 ^ 33 - 1.
Proof. reflexivity. Qed.

(** A stamp of the unwrapped time line, as the 33-bit field shows it; the
    DTS is the same or absent. *)
Definition shown (t : Z * bool) : Z * Z := (t.1 mod 2 ^ 33, if t.2 then t.1 mod 2 ^ 33 else 0).

Fixpoint run_stamps (ts : list (Z * bool)) (v : PTSDTSValidator) : PTSDTSValidator * list ValidationResult :=
  match ts with
  | [] => (v, [])
  | t :: ts =>
      let '(v, r) := ValidateTimestamps (fst (shown t)) (snd (shown t)) v in
      let '(v, rs) := run_stamps ts v in (v, r :: rs)
  end.

(** Time does not go back and no step reaches half the range. *)
Fixpoint advancing (t0 : Z) (ts : list (Z * bool)) : Prop :=
  match ts with
  | [] => True
  | t :: ts => t0 <= t.1 < t0 + 2 ^ 32 /\ advancing t.1 ts
  end.

Definition on_line (t : Z) (v : PTSDTSValidator) : Prop :=
  pv_initialized v = true /\ lastPTS v = t mod 2 ^ 33 /\ ptsWrapCount v = t / 2 ^ 33 /\
  (lastDTS v = 0 \/ lastDTS v = t mod 2 ^ 33).

Lemma stamp_check_shown t : stamp_check (fst (shown t)) (snd (shown t)) = None.
Proof.
  destruct t as [p b]. unfold shown, stamp_check. simpl. rewrite max_pts_const.
  pose proof (Z.mod_pos_bound p (2 ^ 33) ltac:(lia)). destruct b; repeat case_bool; zbool; try done; lia.
Qed.

Lemma step_on_line t0 t v :
  0 <= t0 -> t0 <= t.1 < t0 + 2 ^ 32 -> t.1 < 2 ^ 60 -> on_line t0 v ->
  exists v' r, ValidateTimestamps (fst (shown t)) (snd (shown t)) v = (v', r) /\ Valid r = true /\
    PTSWrapped r = (t0 / 2 ^ 33 <? t.1 / 2 ^ 33) /\ on_line t.1 v'.
Proof.
  intros H0 Ht Hmax (Hi & Hp & Hw & Hd). unfold ValidateTimestamps. rewrite stamp_check_shown.
  destruct t as [p b]. cbn [shown fst snd] in *. set (q := p mod 2 ^ 33) in *.
  set (r0 := if _ && _ then _ else _). assert (vr_Error r0 = None /\ PTSWrapped r0 = false) as [Hr1 Hr2]
    by (subst r0; by case_bool). clearbody r0. rewrite Hi. cbn [negb].
  assert (q - lastPTS v = p - t0 - 2 ^ 33 * (p / 2 ^ 33 - t0 / 2 ^ 33)) as Hdiff.
  { subst q. rewrite Hp. pose proof (Z.div_mod p (2 ^ 33)). pose proof (Z.div_mod t0 (2 ^ 33)). lia. }
  assert (p / 2 ^ 33 = t0 / 2 ^ 33 \/ p / 2 ^ 33 = t0 / 2 ^ 33 + 1) as Hcase.
  { pow_consts. Z.to_euclidean_division_equations. lia. }
  pose proof (Z.mod_pos_bound p (2 ^ 33) ltac:(lia)) as Hq. fold q in Hq.
  pose proof (Z.mod_pos_bound t0 (2 ^ 33) ltac:(lia)) as Ht0. rewrite <- Hp in Ht0.
  assert (i64 (ptsWrapCount v + 1) = ptsWrapCount v + 1) as Hwc.
  { rewrite Hw. apply i64_id. pow_consts. Z.to_euclidean_division_equations. lia. }
  destruct (check_pts q v r0) as [v1 r1] eqn:Hcp.
  assert (pv_initialized v1 = true /\ lastDTS v1 = lastDTS v /\ ptsWrapCount v1 = p / 2 ^ 33 /\
    vr_Error r1 = None /\ PTSWrapped r1 = (t0 / 2 ^ 33 <? p / 2 ^ 33)) as (Hi1 & Hd1 & Hw1 & He1 & Hb1).
  { unfold check_pts in Hcp. rewrite i64_id, threshold_const in Hcp by lia.
    destruct (Z.ltb_spec (q - lastPTS v) (- (2 ^ 32 - 1))) as [Hlt|Hge].
    - injection Hcp as <- <-. assert (p / 2 ^ 33 = t0 / 2 ^ 33 + 1) as Hn by lia.
      cbn. rewrite Hwc. split_and!; try done; [lia|symmetry; apply Z.ltb_lt; lia].
    - assert (p / 2 ^ 33 = t0 / 2 ^ 33) as Hn by lia.
      destruct (_ <? _); [|destruct (_ && _)]; injection Hcp as <- <-; cbn; rewrite Hn, Z.ltb_irrefl;
        split_and!; try done; lia. }
  assert (forall v2 : PTSDTSValidator, pv_initialized v2 = pv_initialized v1 -> ptsWrapCount v2 = ptsWrapCount v1 ->
    on_line p (v2 <| lastPTS := q |> <| lastDTS := if b then q else 0 |>)) as Hon.
  { intros v2 E1 E2. split; [by rewrite <- Hi1, <- E1|]. split; [done|]. split; [by rewrite <- Hw1, <- E2|].
    destruct b; [by right|by left]. }
  destruct (negb ((if b then q else 0) =? 0) && negb (lastDTS v1 =? 0)) eqn:Hz.
  2: { eexists _, _. split; [done|]. unfold Valid. rewrite He1. split; [done|]. split; [done|]. by apply Hon. }
  apply andb_true_iff in Hz as [Hz1 Hz2]. destruct b; [|done]. rewrite Hd1 in Hz2 |- *.
  destruct Hd as [Hd|Hd]; [by rewrite Hd in Hz2|]. rewrite Hd, <- Hp, i64_id, threshold_const by lia.
  destruct (Z.ltb_spec (q - lastPTS v) (- (2 ^ 32 - 1))).
  { eexists _, _. split; [done|]. unfold Valid. cbn. rewrite He1. split; [done|]. split; [done|]. by apply Hon. }
  rewrite (proj2 (Z.ltb_ge (q - lastPTS v) 0)) by lia. cbn [andb].
  eexists _, _. split; [done|]. unfold Valid. rewrite He1. split; [done|]. split; [done|]. by apply Hon.
Qed.

(** Where the 33-bit field wraps. *)
Fixpoint wraps (t0 : Z) (ts : list (Z * bool)) : list bool :=
  match ts with [] => [] | t :: ts => (t0 / 2 ^ 33 <? t.1 / 2 ^ 33) :: wraps t.1 ts end.
Definition end_of (t0 : Z) (ts : list (Z * bool)) : Z := foldl (fun _ t => t.1) t0 ts.

Lemma run_on_line ts t0 v :
  0 <= t0 -> advancing t0 ts -> Forall (fun t => t.1 < 2 ^ 60) ts -> on_line t0 v ->
  let '(v', rs) := run_stamps ts v in
  Forall (fun r => Valid r = true) rs /\ PTSWrapped <$> rs = wraps t0 ts /\ on_line (end_of t0 ts) v'.
Proof.
  revert t0 v. induction ts as [|t ts IH]; intros t0 v H0 Ha Hb Hv; cbn [run_stamps]; [by split|].
  destruct Ha as [Ht Ha]. apply Forall_cons in Hb as [Hb Hbs].
  destruct (step_on_line t0 t v H0 Ht Hb Hv) as (v1 & r & -> & Hr & Hw & Hv1).
  specialize (IH t.1 v1 ltac:(lia) Ha Hbs Hv1). destruct (run_stamps ts v1) as [v2 rs].
  destruct IH as (IH1 & IH2 & IH3). split; [by constructor|]. split; [|done].
  cbn [fmap list_fmap wraps]. by rewrite Hw, <- IH2.
Qed.

Lemma end_bound ts t0 :
  0 <= t0 < 2 ^ 60 -> advancing t0 ts -> Forall (fun t => t.1 < 2 ^ 60) ts -> 0 <= end_of t0 ts < 2 ^ 60.
Proof.
  unfold end_of. revert t0. induction ts as [|t ts IH]; intros t0 H0 Ha Hb; [done|]. destruct Ha as [Ht Ha].
  apply Forall_cons in Hb as [Hb Hbs]. apply IH; done || lia.
Qed.

(** On stamps that advance by less than half the 33-bit range, DTS equal to
    PTS or absent, every stamp is valid, a wrap is reported exactly where the
    field wraps, and [HandleWraparound] of the last PTS and the wrap count is the
    unwrapped time since the first cycle. *)
Theorem pts_unwrapped id (t0 : Z * bool) (ts : list (Z * bool)) :
  0 <= t0.1 < 2 ^ 33 -> advancing t0.1 ts -> Forall (fun t => t.1 < 2 ^ 60) ts ->
  let '(v, rs) := run_stamps (t0 :: ts) (NewPTSDTSValidator id) in
  Forall (fun r => Valid r = true) rs /\ PTSWrapped <$> rs = false :: wraps t0.1 ts /\
  HandleWraparound (lastPTS v) (ptsWrapCount v) = end_of t0.1 ts.
Proof.
  intros H0 Ha Hb. cbn [run_stamps].
  assert (exists v1 r, ValidateTimestamps (fst (shown t0)) (snd (shown t0)) (NewPTSDTSValidator id) = (v1, r) /\
    Valid r = true /\ PTSWrapped r = false /\ on_line t0.1 v1) as (v1 & r & -> & Hr & Hw & Hv1).
  { unfold ValidateTimestamps. rewrite stamp_check_shown. destruct t0 as [p b]. cbn [shown fst snd] in *.
    set (r0 := if _ && _ then _ else _). assert (vr_Error r0 = None /\ PTSWrapped r0 = false) as [E1 E2]
      by (subst r0; by case_bool). eexists _, r0. split; [done|]. unfold Valid. rewrite E1. split; [done|].
    split; [done|]. split; [done|]. split; [done|]. split; [by rewrite Z.div_small|]. destruct b; [by right|by left]. }
  pose proof (run_on_line ts t0.1 v1 ltac:(lia) Ha Hb Hv1) as Hrun. destruct (run_stamps ts v1) as [v2 rs].
  destruct Hrun as (R1 & R2 & (_ & R3 & R4 & _)). split; [by constructor|]. split; [cbn; by rewrite Hw, R2|].
  rewrite R3, R4. unfold HandleWraparound. rewrite max_pts_const. replace (2 ^ 33 - 1 + 1) with (2 ^ 33) by lia. set (e := end_of t0.1 ts).
  assert (0 <= e < 2 ^ 60) as He by (apply end_bound; done || lia).
  pose proof (Z.div_mod e (2 ^ 33) ltac:(lia)). pose proof (Z.mod_pos_bound e (2 ^ 33) ltac:(lia)).
  rewrite (i64_id (_ * _)) by lia. rewrite i64_id by lia. lia.
Qed.

Lemma pts_unwrapped_witness :
  let '(v, rs) := run_stamps [(8589934000, true); (8589934500, true); (8589935000, false); (8589935100, true)]
                    (NewPTSDTSValidator "s") in
  PTSWrapped <$> rs = [false; false; true; false] /\ HandleWraparound (lastPTS v) (ptsWrapCount v) = 8589935100.
Proof.
  pose proof (pts_unwrapped "s" (8589934000, true) [(8589934500, true); (8589935000, false); (8589935100, true)]) as H.
  destruct (run_stamps _ _) as [v rs]. apply H; [by vm_compute|vm_compute; intuition congruence|by repeat constructor].
Defined.
