(* ===== verification/AnnexB.v ===== *)
(** * Splitting byte streams at start codes (frame/assembler.go,
    frame/h264_detector.go, frame/hevc_detector.go)

    Three scanners find the NAL units between the start codes [00 00 01] and
    [00 00 00 01].  They differ only in the bounds they test before they look at
    a byte, in the limits they enforce and in what they do without a start code. *)

From S2P Require Import Prelude Returns Validation.

(** ** The scanners *)

(** The length of the start code at [i], 0 if there is none; a four-byte code
    is looked for below [last4] only. *)
Definition code_at (last4 i : Z) (data : list Z) : res Z :=
  a ← idx data i;
  if negb (a =? 0) then Ret 0
  else
    b ← idx data (i + 1);
    if negb (b =? 0) then Ret 0
    else
      c ← idx data (i + 2);
      if c =? 1 then Ret 3
      else if (i <? last4) && (c =? 0) then d ← idx data (i + 3); Ret (if d =? 1 then 4 else 0)
      else Ret 0.

(** The first start code from [j] on below [bound], or the end. *)
Fixpoint next_code (fuel : nat) (bound last4 j : Z) (data : list Z) : res Z :=
  match fuel with
  | O => NoFuel
  | S fuel =>
      if j <? bound then
        n ← code_at last4 j data;
        if 0 <? n then Ret j else next_code fuel bound last4 (j + 1) data
      else Ret (len data)
  end.

(** [Assembler.findStartCodeUnits] *)
Fixpoint start_code_units (fuel : nat) (i : Z) (data : list Z) (units : list (list Z)) : res (list (list Z)) :=
  match fuel with
  | O => NoFuel
  | S fuel =>
      if i <? len data - 3 then
        n ← code_at (len data - 4) i data;
        if 0 <? n then
          e ← next_code (S (length data)) (len data - 3) (len data - 4) (i + n) data;
          units ← (if i + n <? e then u ← slice data (i + n) e; Ret (units ++ [u]) else Ret units);
          start_code_units fuel e data units
        else start_code_units fuel (i + 1) data units
      else Ret units
  end.
Definition findStartCodeUnits (data : list Z) : res (list (list Z)) :=
  units ← start_code_units (S (length data)) 0 data [];
  Ret (if (len units =? 0) && (0 <? len data) then [data] else units).

Inductive nal_error : Type := NALTooLarge (n : Z) | TooManyNALs (n : Z).

(** One unit of a detector's scan: the units and the place to go on. *)
Definition take_unit (nalStart e : Z) (data : list Z) (units : list (list Z))
    : res (exn nal_error (list (list Z))) :=
  let nalSize := e - nalStart in
  if (0 <? nalSize) && (nalSize <=? MaxNALUnitSize)
  then u ← slice data nalStart e; Ret (Val (units ++ [u]))
  else if MaxNALUnitSize <? nalSize then Ret (Err (NALTooLarge nalSize))
  else Ret (Val units).

(** The result of a scan: the units found and the error; both detectors use
    the units only without an error. *)
Definition limit_units (units : list (list Z)) : exn nal_error (list (list Z)) :=
  if MaxNALUnitsPerFrame <=? len units then Err (TooManyNALs (len units)) else Val units.

(** [H264Detector.findNALUnits] *)
Fixpoint h264_units (fuel : nat) (i : Z) (data : list Z) (units : list (list Z))
    : res (exn nal_error (list (list Z))) :=
  match fuel with
  | O => NoFuel
  | S fuel =>
      if (i <? len data) && (len units <? MaxNALUnitsPerFrame) then
        if len data <? i + 3 then Ret (limit_units units)
        else
          n ← code_at (len data - 3) i data;
          if 0 <? n then
            if len data <=? i + n then Ret (limit_units units)
            else
              e ← next_code (S (length data)) (len data - 2) (len data - 3) (i + n) data;
              r ← take_unit (i + n) e data units;
              match r with
              | Err err => Ret (Err err)
              | Val units => h264_units fuel e data units
              end
          else h264_units fuel (i + 1) data units
      else Ret (limit_units units)
  end.
Definition H264_findNALUnits (data : list Z) : res (exn nal_error (list (list Z))) :=
  if len data <? 3 then Ret (Val []) else h264_units (S (length data)) 0 data [].

(** [HEVCDetector.findNALUnits] *)
Fixpoint hevc_units (fuel : nat) (i : Z) (data : list Z) (units : list (list Z))
    : res (exn nal_error (list (list Z))) :=
  match fuel with
  | O => NoFuel
  | S fuel =>
      if (i <? len data - 3) && (len units <? MaxNALUnitsPerFrame) then
        n ← code_at (len data - 3) i data;
        if 0 <? n then
          if len data <=? i + n then Ret (limit_units units)
          else
            e ← next_code (S (length data)) (len data - 2) (len data - 3) (i + n) data;
            r ← take_unit (i + n) e data units;
            match r with
            | Err err => Ret (Err err)
            | Val units => hevc_units fuel e data units
            end
        else hevc_units fuel (i + 1) data units
      else Ret (limit_units units)
  end.
Definition HEVC_findNALUnits (data : list Z) : res (exn nal_error (list (list Z))) :=
  if len data <? 4 then Ret (Val []) else hevc_units (S (length data)) 0 data [].

(** ** Annex B streams *)

Definition start_code (long : bool) : list Z := if long then [0; 0; 0; 1] else [0; 0; 1].

(** A byte stream: each unit behind a start code of either length. *)
Definition annexb (l : list (bool * list Z)) : list Z := flat_map (fun e => start_code e.1 ++ e.2) l.

(** No three-byte start code within, and the last byte is not zero. *)
Fixpoint code_free (u : list Z) : bool :=
  match u with
  | a :: (b :: c :: _) as t => negb ((a =? 0) && (b =? 0) && (c =? 1)) && code_free t
  | _ => true
  end.
Definition unit_ok (u : list Z) : Prop := exists l x, u = l ++ [x] /\ x <> 0 /\ code_free u = true.

Definition code_len (l : list Z) : Z :=
  match l with
  | a :: b :: c :: t =>
      if (a =? 0) && (b =? 0) then
        if c =? 1 then 3
        else match t with d :: _ => if (c =? 0) && (d =? 1) then 4 else 0 | [] => 0 end
      else 0
  | _ => 0
  end.

Lemma code_at_spec last4 pre l :
  3 <= len l -> len pre < last4 \/ code_len l <> 4 -> last4 <= len pre + len l - 3 ->
  code_at last4 (len pre) (pre ++ l) = Ret (code_len l).
Proof.
  intros Hl Hc Hlast. destruct l as [|a [|b [|c t]]]; rewrite ?len_cons, ?len_nil in Hl; try (exfalso; lia).
  unfold code_at. rewrite idx_tail0, !idx_tail by lia. change (idx _ 0) with (Ret a). change (idx _ 1) with (Ret b).
  change (idx _ 2) with (Ret c). rewrite !bind_Ret. cbn [code_len] in *.
  destruct (a =? 0); cbn [negb andb]; [|done]. rewrite ?bind_Ret. destruct (b =? 0); cbn [negb]; [|done]. rewrite ?bind_Ret.
  destruct (Z.eqb_spec c 1); [done|]. destruct t as [|d t].
  { rewrite !len_cons, (@len_nil Z) in Hlast. rewrite (proj2 (Z.ltb_ge (len pre) last4)) by lia. done. }
  change (idx _ 3) with (Ret d). destruct (Z.ltb_spec (len pre) last4); [destruct (c =? 0); done|].
  cbn [andb]. case_bool; [|done]. destruct Hc; [lia|done].
Qed.

(** Inside a unit, followed by nothing or by a start code, no code begins. *)
Lemma code_free_inside v x rest :
  code_free (v ++ [x]) = true -> x <> 0 -> v ++ [x] <> [] -> code_len ((v ++ [x]) ++ rest) = 0.
Proof.
  intros Hf Hx _. destruct v as [|a [|b [|c v]]]; cbn [app code_len].
  - rewrite (proj2 (Z.eqb_neq x 0)) by done. destruct rest as [|? [|? ?]]; done.
  - rewrite (proj2 (Z.eqb_neq x 0)) by done. rewrite andb_false_r. by destruct rest.
  - cbn [app code_free] in Hf. destruct ((a =? 0) && (b =? 0)); [|done]. cbn [andb] in Hf.
    destruct (x =? 1); [done|]. destruct rest; [done|]. by rewrite (proj2 (Z.eqb_neq x 0)).
  - cbn [app code_free] in Hf. apply andb_true_iff in Hf as [Hf1 Hf2].
    destruct (a =? 0) eqn:Ha, (b =? 0) eqn:Hb; cbn [andb negb] in *; try done.
    destruct (c =? 1); [done|]. destruct (Z.eqb_spec c 0) as [Hc|Hc]; cbn [andb].
    + destruct v as [|d v]; cbn [app code_free andb] in *; [by destruct (x =? 1)|by destruct (d =? 1)].
    + by destruct v.
Qed.

Lemma code_len_start b u rest : code_len (start_code b ++ u ++ rest) = len (start_code b).
Proof. by destruct b. Qed.
Lemma len_start_code b : 3 <= len (start_code b) <= 4.
Proof. destruct b; split; unfold len; simpl; lia. Qed.

Lemma code_free_tail a u : code_free (a :: u) = true -> code_free u = true.
Proof. destruct u as [|b [|c t]]; cbn [code_free]; [done|done|]. intros H. by apply andb_true_iff in H as [_ H]. Qed.

(** What follows a unit. *)
Definition next_ok (rest : list Z) : Prop :=
  rest = [] \/ exists b u rest', rest = start_code b ++ u ++ rest' /\ 1 <= len u.

(** The search from inside a unit ends at the end of the unit. *)
Lemma next_code_unit fuel bound last4 pre v x rest :
  code_free (v ++ [x]) = true -> x <> 0 -> next_ok rest -> (length v + 2 <= fuel)%nat ->
  let data := pre ++ (v ++ [x]) ++ rest in
  (bound = len data - 3 /\ last4 = len data - 4) \/ (bound = len data - 2 /\ last4 = len data - 3) ->
  next_code fuel bound last4 (len pre) data = Ret (len (pre ++ v ++ [x])).
Proof.
  intros Hf Hx Hr Hfuel data Hb. subst data. revert pre v Hf Hfuel Hb.
  induction fuel as [|fuel IH]; intros pre v Hf Hfuel Hb; [lia|]. cbn [next_code].
  pose proof (len_nonneg rest). set (data := pre ++ (v ++ [x]) ++ rest) in *.
  assert (len data = len pre + len v + 1 + len rest) as Hlen
    by (subst data; rewrite !len_app; change (len [x]) with 1; lia).
  pose proof (len_nonneg v). rewrite Hlen in Hb. destruct (Z.ltb_spec (len pre) bound) as [Hlt|Hge].
  - assert (code_len ((v ++ [x]) ++ rest) = 0) as Hcode by (apply code_free_inside; [done|done|by destruct v]).
    assert (code_at last4 (len pre) data = Ret 0) as ->.
    { subst data. rewrite code_at_spec; [by rewrite Hcode| |right; by rewrite Hcode|];
        rewrite !len_app; change (len [x]) with 1; lia. }
    rewrite bind_Ret. change (0 <? 0) with false. cbn iota. destruct v as [|a v].
    + destruct fuel as [|fuel]; [simpl in Hfuel; lia|]. cbn [next_code]. rewrite (@len_nil Z) in *.
      rewrite (len_app pre ([] ++ [x])). change (len ([] ++ [x])) with 1.
      destruct (Z.ltb_spec (len pre + 1) bound) as [Hlt'|Hge'].
      * destruct Hr as [->|(b & u & rest' & -> & Hu)]; [rewrite (@len_nil Z) in *; lia|].
        pose proof (len_start_code b). pose proof (len_nonneg rest'). rewrite !len_app in Hb.
        assert (data = (pre ++ [x]) ++ start_code b ++ u ++ rest') as -> by (subst data; by rewrite <- (app_assoc pre)).
        replace (len pre + 1) with (len (pre ++ [x])) by (by rewrite len_app).
        rewrite code_at_spec; [rewrite code_len_start, bind_Ret; by rewrite (proj2 (Z.ltb_lt 0 _)) by lia| |
          destruct b; [left|right; by rewrite code_len_start]|];
          rewrite !len_app; change (len [x]) with 1; change (len (start_code true)) with 4 in *; lia.
      * destruct Hr as [->|(b & u & rest' & -> & Hu)]; [rewrite Hlen, (@len_nil Z); f_equal; lia|].
        pose proof (len_start_code b). pose proof (len_nonneg rest'). rewrite !len_app in Hb. lia.
    + specialize (IH (pre ++ [a]) v).
      assert ((pre ++ [a]) ++ (v ++ [x]) ++ rest = data) as E by (subst data; by rewrite <- !app_assoc).
      rewrite E in IH. rewrite len_cons in *. replace (len pre + 1) with (len (pre ++ [a])) by (by rewrite len_app).
      rewrite IH; [by rewrite <- !app_assoc|by eapply code_free_tail|simpl in Hfuel; lia|].
      rewrite Hlen. lia.
  - assert (rest = []) as ->.
    { destruct Hr as [->|(b & u & rest' & -> & Hu)]; [done|]. pose proof (len_start_code b). pose proof (len_nonneg rest').
      rewrite !len_app in Hb. lia. }
    subst data. by rewrite !app_nil_r.
Qed.

(** One unit of the stream, at its start code. *)
Lemma annexb_next l : Forall (fun e => unit_ok e.2) l -> next_ok (annexb l).
Proof.
  destruct 1 as [|[b u] l (v & x & Hu & _ & _) _]; [by left|]. right. cbn in Hu. subst u. exists b, (v ++ [x]), (annexb l).
  split; [cbn; by rewrite <- app_assoc|]. rewrite len_app. pose proof (len_nonneg v). change (len [x]) with 1. lia.
Qed.

Lemma unit_step pre b u l (last4 : Z) :
  unit_ok u -> Forall (fun e => unit_ok e.2) l ->
  let data := pre ++ annexb ((b, u) :: l) in
  let bound := last4 + 1 in
  last4 = len data - 4 \/ last4 = len data - 3 ->
  code_at last4 (len pre) data = Ret (len (start_code b)) /\
  next_code (S (length data)) bound last4 (len pre + len (start_code b)) data = Ret (len (pre ++ start_code b ++ u)) /\
  slice data (len pre + len (start_code b)) (len (pre ++ start_code b ++ u)) = Ret u /\
  data = (pre ++ start_code b ++ u) ++ annexb l /\ 1 <= len u /\ len pre + len (start_code b) + len u <= len data.
Proof.
  intros (v & x & -> & Hx & Hf) Hl data bound Hlast. set (rest := annexb l).
  assert (data = pre ++ start_code b ++ (v ++ [x]) ++ rest) as E by (subst data; cbn; by rewrite <- app_assoc).
  pose proof (len_start_code b). pose proof (len_nonneg pre). pose proof (len_nonneg v). pose proof (len_nonneg rest).
  assert (len data = len pre + len (start_code b) + (len v + 1) + len rest) as Hlen
    by (rewrite E, !len_app; change (len [x]) with 1; lia).
  split_and!.
  - rewrite E. rewrite code_at_spec; [by rewrite code_len_start| |destruct b; [left|right; by rewrite code_len_start]|];
      rewrite ?E, ?len_app in *; change (len [x]) with 1 in *; change (len (start_code true)) with 4 in *; lia.
  - assert (data = (pre ++ start_code b) ++ (v ++ [x]) ++ rest) as E' by (by rewrite E, <- (app_assoc pre)).
    replace (len pre + len (start_code b)) with (len (pre ++ start_code b)) by (by rewrite len_app).
    rewrite E' at 2. rewrite next_code_unit; [by rewrite <- (app_assoc pre)|done|done|by apply annexb_next| |].
    + unfold len in *. lia.
    + rewrite <- E'. subst bound. lia.
  - rewrite !len_app. change (len [x]) with 1. rewrite slice_Ret by lia. rewrite E, app_assoc.
    rewrite dropZ_app_ge by (rewrite len_app; lia). rewrite len_app, Z.sub_diag, dropZ_0 by lia.
    rewrite takeZ_app_le, takeZ_all by (rewrite len_app; change (len [x]) with 1; lia). done.
  - rewrite E, <- !app_assoc. done.
  - rewrite len_app. change (len [x]) with 1. lia.
  - rewrite len_app. change (len [x]) with 1. lia.
Qed.

Lemma start_code_units_annexb l pre fuel units :
  Forall (fun e => unit_ok e.2) l -> (length l < fuel)%nat ->
  start_code_units fuel (len pre) (pre ++ annexb l) units = Ret (units ++ (snd <$> l)).
Proof.
  intros Hl. revert pre fuel units. induction Hl as [|[b u] l Hu Hl IH]; intros pre fuel units Hf;
    (destruct fuel as [|fuel]; [simpl in Hf; lia|]); cbn [start_code_units].
  - cbn [annexb flat_map]. rewrite app_nil_r, (proj2 (Z.ltb_ge _ _)) by lia. cbn. by rewrite app_nil_r.
  - destruct (unit_step pre b u l _ Hu Hl (or_introl eq_refl)) as (E1 & E2 & E3 & E4 & H1 & Hlen).
    pose proof (len_start_code b). rewrite (proj2 (Z.ltb_lt _ _)) by lia. rewrite E1, bind_Ret.
    rewrite (proj2 (Z.ltb_lt 0 _)) by lia. replace (len _ - 4 + 1) with (len (pre ++ annexb ((b, u) :: l)) - 3) in E2 by lia.
    rewrite E2, bind_Ret. rewrite (proj2 (Z.ltb_lt _ (len (pre ++ start_code b ++ u)))) by (rewrite !len_app; lia).
    rewrite E3, !bind_Ret. rewrite E4. rewrite (IH (pre ++ start_code b ++ u)) by (simpl in Hf; lia).
    by rewrite <- app_assoc.
Qed.

Lemma take_unit_ok nalStart e data u units :
  slice data nalStart e = Ret u -> 1 <= e - nalStart <= MaxNALUnitSize ->
  take_unit nalStart e data units = Ret (Val (units ++ [u])).
Proof.
  intros Hs Hn. unfold take_unit. rewrite (proj2 (Z.ltb_lt 0 _)), (proj2 (Z.leb_le _ MaxNALUnitSize)) by lia. cbn [andb].
  by rewrite Hs.
Qed.

Definition sized (e : bool * list Z) : Prop := unit_ok e.2 /\ len e.2 <= MaxNALUnitSize.

Lemma h264_units_annexb l pre fuel units :
  Forall sized l -> (length l < fuel)%nat -> len units + len l < MaxNALUnitsPerFrame ->
  h264_units fuel (len pre) (pre ++ annexb l) units = Ret (Val (units ++ (snd <$> l))).
Proof.
  intros Hl. revert pre fuel units. induction Hl as [|[b u] l [Hu Hs] Hl IH]; intros pre fuel units Hf Hn;
    (destruct fuel as [|fuel]; [simpl in Hf; lia|]); cbn [h264_units].
  - cbn [annexb flat_map]. rewrite app_nil_r, (proj2 (Z.ltb_ge _ _)) by lia. cbn [andb]. unfold limit_units.
    rewrite (@len_nil (bool * list Z)) in Hn. rewrite (proj2 (Z.leb_gt _ _)) by lia. cbn. by rewrite app_nil_r.
  - rewrite len_cons in Hn. pose proof (len_nonneg l).
    assert (Forall (fun e => unit_ok e.2) l) as Hl' by (eapply Forall_impl; [exact Hl|]; by intros e []).
    destruct (unit_step pre b u l _ Hu Hl' (or_intror eq_refl)) as (E1 & E2 & E3 & E4 & H1 & Hlen).
    pose proof (len_start_code b). pose proof (len_nonneg pre).
    rewrite (proj2 (Z.ltb_lt (len pre) _)), (proj2 (Z.ltb_lt (len units) _)) by lia. cbn [andb].
    rewrite (proj2 (Z.ltb_ge _ (len pre + 3))) by lia. rewrite E1, bind_Ret. rewrite (proj2 (Z.ltb_lt 0 _)) by lia.
    rewrite (proj2 (Z.leb_gt _ (len pre + _))) by lia.
    replace (len _ - 3 + 1) with (len (pre ++ annexb ((b, u) :: l)) - 2) in E2 by lia. rewrite E2, bind_Ret. cbn in Hs.
    rewrite (take_unit_ok _ _ _ u) by (done || rewrite !len_app; lia). rewrite bind_Ret. rewrite E4.
    rewrite (IH (pre ++ start_code b ++ u)); [by rewrite <- app_assoc|simpl in Hf; lia|].
    rewrite len_app. change (len [u]) with 1. lia.
Qed.

Lemma hevc_units_annexb l pre fuel units :
  Forall sized l -> (length l < fuel)%nat -> len units + len l < MaxNALUnitsPerFrame ->
  hevc_units fuel (len pre) (pre ++ annexb l) units = Ret (Val (units ++ (snd <$> l))).
Proof.
  intros Hl. revert pre fuel units. induction Hl as [|[b u] l [Hu Hs] Hl IH]; intros pre fuel units Hf Hn;
    (destruct fuel as [|fuel]; [simpl in Hf; lia|]); cbn [hevc_units].
  - cbn [annexb flat_map]. rewrite app_nil_r, (proj2 (Z.ltb_ge _ _)) by lia. cbn [andb]. unfold limit_units.
    rewrite (@len_nil (bool * list Z)) in Hn. rewrite (proj2 (Z.leb_gt _ _)) by lia. cbn. by rewrite app_nil_r.
  - rewrite len_cons in Hn. pose proof (len_nonneg l).
    assert (Forall (fun e => unit_ok e.2) l) as Hl' by (eapply Forall_impl; [exact Hl|]; by intros e []).
    destruct (unit_step pre b u l _ Hu Hl' (or_intror eq_refl)) as (E1 & E2 & E3 & E4 & H1 & Hlen).
    pose proof (len_start_code b). pose proof (len_nonneg pre).
    rewrite (proj2 (Z.ltb_lt (len pre) _)), (proj2 (Z.ltb_lt (len units) _)) by lia. cbn [andb].
    rewrite E1, bind_Ret. rewrite (proj2 (Z.ltb_lt 0 _)) by lia.
    rewrite (proj2 (Z.leb_gt _ (len pre + _))) by lia.
    replace (len _ - 3 + 1) with (len (pre ++ annexb ((b, u) :: l)) - 2) in E2 by lia. rewrite E2, bind_Ret. cbn in Hs.
    rewrite (take_unit_ok _ _ _ u) by (done || rewrite !len_app; lia). rewrite bind_Ret. rewrite E4.
    rewrite (IH (pre ++ start_code b ++ u)); [by rewrite <- app_assoc|simpl in Hf; lia|].
    rewrite len_app. change (len [u]) with 1. lia.
Qed.

Lemma annexb_length l : Forall (fun e => unit_ok e.2) l -> len l * 4 <= len (annexb l).
Proof.
  induction 1 as [|[b u] l (v & x & Hu & _) Hl IH]; [done|]. cbn in Hu. subst u. cbn [annexb flat_map].
  rewrite !len_app, len_cons. cbn [fst snd]. rewrite len_app. pose proof (len_start_code b). pose proof (len_nonneg v).
  change (len [x]) with 1. fold (annexb l). lia.
Qed.

Lemma annexb_units l :
  l <> [] -> Forall (fun e => unit_ok e.2) l -> findStartCodeUnits (annexb l) = Ret (snd <$> l).
Proof.
  intros Hne Hl. pose proof (annexb_length l Hl) as Hlen. assert (1 <= len l) as H1 by (destruct l; [done|rewrite len_cons; pose proof (len_nonneg l); lia]).
  assert (length l < S (length (annexb l)))%nat as Hf by (unfold len in *; lia).
  pose proof (start_code_units_annexb l [] (S (length (annexb l))) [] Hl Hf) as E. cbn [app] in E.
  change (len []) with 0 in E. unfold findStartCodeUnits. rewrite E, bind_Ret.
  rewrite (proj2 (Z.eqb_neq (len (snd <$> l)) _)); [done|]. unfold len in *. rewrite length_fmap. lia.
Qed.

(** C36: on a byte stream of NAL units behind three- or four-byte start codes,
    each unit free of start codes and without a trailing zero byte, the
    assembler's scanner and the scanners of the H.264 and HEVC detectors all
    return exactly the units, in order. *)
Theorem annexb_split (l : list (bool * list Z)) :
  l <> [] -> Forall sized l -> len l < MaxNALUnitsPerFrame ->
  findStartCodeUnits (annexb l) = Ret (snd <$> l) /\
  H264_findNALUnits (annexb l) = Ret (Val (snd <$> l)) /\
  HEVC_findNALUnits (annexb l) = Ret (Val (snd <$> l)).
Proof.
  intros Hne Hl Hn. assert (Forall (fun e => unit_ok e.2) l) as Hl' by (eapply Forall_impl; [exact Hl|]; by intros e []).
  pose proof (annexb_length l Hl') as Hlen. assert (1 <= len l) as H1 by (destruct l; [done|rewrite len_cons; pose proof (len_nonneg l); lia]).
  assert (length l < S (length (annexb l)))%nat as Hf by (unfold len in *; lia).
  split; [by apply annexb_units|]. unfold H264_findNALUnits, HEVC_findNALUnits.
  rewrite (proj2 (Z.ltb_ge _ 3)), (proj2 (Z.ltb_ge _ 4)) by lia.
  split; [by apply (h264_units_annexb l [])|by apply (hevc_units_annexb l [])].
Qed.

Lemma annexb_split_witness :
  let l := [(true, [0x67; 0x42; 0; 0; 3; 1]); (false, [0x68; 0xCE]); (false, [0x65; 1])] in
  findStartCodeUnits (annexb l) = Ret (snd <$> l) /\ H264_findNALUnits (annexb l) = Ret (Val (snd <$> l)) /\
  HEVC_findNALUnits (annexb l) = Ret (Val (snd <$> l)).
Proof.
  intros l. apply annexb_split; [done| |vm_compute; done].
  assert (forall v x, x <> 0 -> code_free (v ++ [x]) = true -> len (v ++ [x]) <= MaxNALUnitSize -> forall b, sized (b, v ++ [x])) as H
    by (intros v x Hx Hc Hs b; split; [by exists v, x|done]).
  constructor; [by apply (H [0x67; 0x42; 0; 0; 3])|]. constructor; [by apply (H [0x68])|]. constructor; [by apply (H [0x65])|].
  constructor.
Defined.

(** Exactly as many units as the limit allows are refused. *)
Example unit_limit :
  limit_units (replicate 1000 [0x41]) = Err (TooManyNALs 1000).
Proof. reflexivity. Qed.
