(* ===== verification/Codec.v ===== *)
(** * Codecs and timestamped packets (types/codec.go, types/packet.go) *)

From stdpp Require Import strings.
From S2P Require Import Prelude.

Inductive CodecType : Type :=
| CodecUnknown | CodecH264 | CodecHEVC | CodecAV1 | CodecVP8 | CodecVP9 | CodecJPEGXS
| CodecAAC | CodecOpus | CodecMP3 | CodecPCM | CodecG711 | CodecG722 | CodecL16 | CodecVorbis | CodecSpeex
| CodecH261 | CodecH263 | CodecJPEG | CodecMPV
| CodecMP2T.
#[export] Instance CodecType_eq_dec : EqDecision CodecType.
Proof. solve_decision. Defined.

Definition CodecType_String (c : CodecType) : string :=
  match c with
  | CodecH264 => "h264" | CodecHEVC => "hevc" | CodecAV1 => "av1" | CodecVP8 => "vp8" | CodecVP9 => "vp9"
  | CodecJPEGXS => "jpegxs" | CodecAAC => "aac" | CodecOpus => "opus" | CodecMP3 => "mp3" | CodecPCM => "pcm"
  | CodecG711 => "g711" | CodecG722 => "g722" | CodecL16 => "l16" | CodecVorbis => "vorbis" | CodecSpeex => "speex"
  | CodecH261 => "h261" | CodecH263 => "h263" | CodecJPEG => "jpeg" | CodecMPV => "mpv" | CodecMP2T => "mp2t"
  | CodecUnknown => "unknown"
  end.

Definition IsVideo (c : CodecType) : bool :=
  match c with
  | CodecH264 | CodecHEVC | CodecAV1 | CodecVP8 | CodecVP9 | CodecJPEGXS | CodecH261 | CodecH263 | CodecJPEG
  | CodecMPV => true
  | _ => false
  end.
Definition IsAudio (c : CodecType) : bool :=
  match c with
  | CodecAAC | CodecOpus | CodecMP3 | CodecPCM | CodecG711 | CodecG722 | CodecL16 | CodecVorbis | CodecSpeex => true
  | _ => false
  end.

Definition GetClockRate (c : CodecType) : Z :=
  match c with
  | CodecH264 | CodecHEVC | CodecAV1 | CodecVP8 | CodecVP9 | CodecJPEGXS => 90000
  | CodecAAC => 48000 | CodecOpus => 48000 | CodecMP3 => 90000 | CodecPCM => 48000 | CodecG711 => 8000
  | CodecG722 => 8000 | CodecL16 => 44100 | CodecVorbis => 48000 | CodecSpeex => 16000
  | CodecH261 | CodecH263 | CodecJPEG | CodecMPV => 90000 | CodecMP2T => 90000 | CodecUnknown => 90000
  end.

(** Static RTP payload types; 0 for the others. *)
Definition GetClockRateForPayloadType (payloadType : Z) : Z :=
  let among l := existsb (Z.eqb payloadType) l in
  if among [0; 8] then 8000
  else if among [3; 4; 5; 6; 7; 9] then 8000
  else if among [10; 11] then 44100
  else if among [12; 13] then 8000
  else if among [14] then 90000
  else if among [15] then 8000
  else if among [16] then 11025
  else if among [17] then 22050
  else if among [18] then 8000
  else if among [25; 26; 28; 31; 32; 33; 34] then 90000
  else 0.

Inductive PacketType : Type := PacketTypeVideo | PacketTypeAudio | PacketTypeData.
Definition PacketType_String (p : PacketType) : string :=
  match p with PacketTypeVideo => "video" | PacketTypeAudio => "audio" | PacketTypeData => "data" end.

(** [PacketFlags] is a 16-bit set. *)
Definition PacketFlagKeyframe : Z := Z.shiftl 1 0.
Definition PacketFlagFrameStart : Z := Z.shiftl 1 1.
Definition PacketFlagFrameEnd : Z := Z.shiftl 1 2.
Definition PacketFlagDiscardable : Z := Z.shiftl 1 3.
Definition PacketFlagGOPStart : Z := Z.shiftl 1 4.
Definition PacketFlagFlush : Z := Z.shiftl 1 5.
Definition PacketFlagCorrupted : Z := Z.shiftl 1 6.
Definition PacketFlagPriority : Z := Z.shiftl 1 7.

Record TimestampedPacket := mkTP {
  tp_Data : list Z;
  tp_CaptureTime : Z;
  tp_PTS : Z;
  tp_DTS : Z;
  tp_Duration : Z;
  tp_StreamID : string;
  tp_SSRC : Z;
  tp_SeqNum : Z;
  tp_Type : PacketType;
  tp_Codec : CodecType;
  tp_Flags : Z;
  tp_FrameNumber : Z;
  tp_PacketInFrame : Z;
  tp_TotalPackets : Z;
  tp_SourceAddr : string;
  tp_ArrivalDelta : Z;
  tp_PresentationTime : Z
}.
#[export] Instance eta_tp : Eta TimestampedPacket := fun p =>
  mkTP (tp_Data p) (tp_CaptureTime p) (tp_PTS p) (tp_DTS p) (tp_Duration p) (tp_StreamID p) (tp_SSRC p) (tp_SeqNum p)
    (tp_Type p) (tp_Codec p) (tp_Flags p) (tp_FrameNumber p) (tp_PacketInFrame p) (tp_TotalPackets p) (tp_SourceAddr p)
    (tp_ArrivalDelta p) (tp_PresentationTime p).

Definition tp_HasFlag (flag : Z) (p : TimestampedPacket) : bool := negb (Z.land (tp_Flags p) flag =? 0).
Definition tp_SetFlag (flag : Z) (p : TimestampedPacket) : TimestampedPacket := p <| tp_Flags := Z.lor (tp_Flags p) flag |>.
Definition tp_ClearFlag (flag : Z) (p : TimestampedPacket) : TimestampedPacket := p <| tp_Flags := Z.ldiff (tp_Flags p) flag |>.
Definition tp_IsKeyframe (p : TimestampedPacket) : bool := tp_HasFlag PacketFlagKeyframe p.
Definition IsFrameStart (p : TimestampedPacket) : bool := tp_HasFlag PacketFlagFrameStart p.
Definition IsFrameEnd (p : TimestampedPacket) : bool := tp_HasFlag PacketFlagFrameEnd p.
Definition IsDiscardable (p : TimestampedPacket) : bool := tp_HasFlag PacketFlagDiscardable p.
(** [Clone] copies the bytes; as a value the copy is the packet itself. *)
Definition Clone (p : TimestampedPacket) : TimestampedPacket := p <| tp_Data := tp_Data p |>.

(** A packet with the fields the frame assembly reads. *)
Definition packet_of (d : list Z) (capture pts dts flags : Z) : TimestampedPacket :=
  mkTP d capture pts dts 0 "" 0 0 PacketTypeVideo CodecUnknown flags 0 0 0 "" 0 0.

(** Flags are independent bits: setting or clearing one leaves the others. *)
Lemma flag_set_clear n m p :
  0 <= n -> 0 <= m ->
  tp_HasFlag (2 ^ n) (tp_SetFlag (2 ^ m) p) = (n =? m) || tp_HasFlag (2 ^ n) p /\
  tp_HasFlag (2 ^ n) (tp_ClearFlag (2 ^ m) p) = negb (n =? m) && tp_HasFlag (2 ^ n) p.
Proof.
  intros Hn Hm. unfold tp_HasFlag, tp_SetFlag, tp_ClearFlag. cbn [tp_Flags upd].
  assert (forall a, negb (Z.land a (2 ^ n) =? 0) = Z.testbit a n) as Hbit.
  { intros a. destruct (Z.testbit a n) eqn:Ht; [apply negb_true_iff, Z.eqb_neq|apply negb_false_iff, Z.eqb_eq].
    - intros E. apply (f_equal (fun z => Z.testbit z n)) in E. rewrite Z.land_spec, Ht, Z.pow2_bits_true, Z.bits_0 in E by done. done.
    - apply Z.bits_inj'. intros i Hi. rewrite Z.land_spec, Z.bits_0. destruct (Z.eq_dec i n) as [->|Hne]; [by rewrite Ht|].
      rewrite Z.pow2_bits_false by done. apply andb_false_r. }
  rewrite !Hbit, Z.lor_spec, Z.ldiff_spec. destruct (Z.eqb_spec n m) as [->|Hne].
  - rewrite Z.pow2_bits_true by done. split; [apply orb_true_r|apply andb_false_r].
  - rewrite Z.pow2_bits_false by done. split; [apply orb_false_r|apply andb_true_r].
Qed.

Lemma media_disjoint c : IsVideo c = true -> IsAudio c = false.
Proof. by destruct c. Qed.
