(* ===== verification/Detectors.v ===== *)
(** * Frame boundary detectors (frame/detector.go, frame/h264_detector.go,
    frame/hevc_detector.go, frame/av1_detector.go, frame/jpegxs_detector.go)

    Each codec has a detector behind one interface, the class [Detector]; the
    class [TotalDetector] is what the frame assembler relies on.  Fields no
    operation reads are left out of the states. *)

From stdpp Require Import strings.
From S2P Require Import Prelude Returns Rbsp Leb128 Validation AnnexB Codec Frame.
From S2P Require BitReader TypesBits.

(** ** The interface *)

Class Detector (D : Type) := {
  DetectBoundaries : TimestampedPacket -> D -> res (D * (bool * bool));
  GetFrameType : list NALUnit -> D -> res FrameType;
  det_IsKeyframe : list Z -> D -> res bool;
  GetCodec : D -> CodecType
}.

(** ** H.264 *)

Record H264Detector := mkH264D { lastNALType : Z; frameStarted : bool }.
#[export] Instance eta_h264d : Eta H264Detector := fun d => mkH264D (lastNALType d) (frameStarted d).
Definition NewH264Detector : H264Detector := mkH264D 0 false.

Definition isVCLNAL (t : Z) : bool := (1 <=? t) && (t <=? 5).
(** SPS, PPS, IDR and AUD: a new frame begins. *)
Definition opens_frame (t : Z) : bool := (t =? 5) || (t =? 7) || (t =? 8) || (t =? 9).
(** SEI, AUD, SPS and PPS: after a slice the next access unit begins. *)
Definition closes_frame (t : Z) : bool := (t =? 6) || (t =? 9) || (t =? 7) || (t =? 8).

Definition hasStartCode (data : list Z) : res bool :=
  if 3 <=? len data then
    a ← idx data 0; b ← idx data 1; c ← idx data 2;
    if negb (a =? 0) || negb (b =? 0) then Ret false
    else if c =? 1 then Ret true
    else if (3 <? len data) && (c =? 0) then d ← idx data 3; Ret (d =? 1) else Ret false
  else Ret false.

(** The boundary rules for a NAL unit type, and the detector behind them. *)
Definition nal_boundaries (t : Z) (d : H264Detector) : H264Detector * (bool * bool) :=
  let isStart := opens_frame t in
  let d := if isStart then d <| frameStarted := true |> else d in
  let after := isVCLNAL t && negb (isVCLNAL (lastNALType d)) && negb (lastNALType d =? 0) in
  let d := if after then d <| frameStarted := true |> else d in
  let ends := frameStarted d && isVCLNAL (lastNALType d) && closes_frame t in
  let d := if ends then d <| frameStarted := true |> else d in
  (d, (isStart || after || ends, ends)).

Definition handleFUA (data : list Z) (d : H264Detector) : res (H264Detector * (bool * bool)) :=
  if len data <? 2 then Ret (d, (false, false))
  else
    fuHeader ← idx data 1;
    let startBit := negb (Z.land fuHeader 0x80 =? 0) in
    let endBit := negb (Z.land fuHeader 0x40 =? 0) in
    let t := Z.land fuHeader 0x1F in
    if negb (Z.land fuHeader 0x20 =? 0) then Ret (d, (false, false))
    else
      let '(d, r) := if startBit then nal_boundaries t d else (d, (false, false)) in
      if endBit then Ret (d <| lastNALType := t |>, r)
      else if startBit then Ret (d <| lastNALType := t |>, r)
      else Ret (d, r).

Definition has_vcl (units : list (list Z)) : bool :=
  existsb (fun u => match u with b :: _ => isVCLNAL (Z.land b 0x1F) | [] => false end) units.

(** One turn of the loop over the NAL units [units] of a packet. *)
Definition start_code_step (units : list (list Z)) (u : list Z) (s : H264Detector * (bool * bool))
    : H264Detector * (bool * bool) :=
  match u with
  | [] => s
  | b :: _ =>
      let '(d, (isStart, isEnd)) := s in
      let t := Z.land b 0x1F in
      let isStart := isStart || opens_frame t in
      let d := if opens_frame t then d <| frameStarted := true |> else d in
      let '(d, isEnd) :=
        if frameStarted d then
          if t =? 9 then (d <| frameStarted := false |>, true)
          else if ((t =? 7) || (t =? 8) || (t =? 5) || (t =? 1)) && isStart then (d, true)
          else (d, isEnd)
        else (d, isEnd) in
      (d, (isStart, isEnd || (isStart && has_vcl units)))
  end.
Definition detectBoundariesWithStartCode (data : list Z) (d : H264Detector) : res (H264Detector * (bool * bool)) :=
  r ← H264_findNALUnits data;
  match r with
  | Err _ => Ret (d, (false, false))
  | Val units => Ret (fold_left (fun s u => start_code_step units u s) units (d, (false, false)))
  end.

Definition H264_DetectBoundaries (pkt : TimestampedPacket) (d : H264Detector) : res (H264Detector * (bool * bool)) :=
  if len (tp_Data pkt) =? 0 then Ret (d, (false, false))
  else
    code ← hasStartCode (tp_Data pkt);
    if code : bool then detectBoundariesWithStartCode (tp_Data pkt) d
    else
      b ← idx (tp_Data pkt) 0;
      let t := Z.land b 0x1F in
      if t =? 28 then handleFUA (tp_Data pkt) d
      else
        let '(d, r) := nal_boundaries t d in
        Ret (d <| lastNALType := t |>, r).

(** [-1] when the slice type cannot be read. *)
Definition parseSliceTypeFromNAL (nal : list Z) : res Z :=
  if len nal <? 2 then Ret (-1)
  else
    payload ← slice nal 1 (len nal);
    if len payload =? 0 then Ret (-1)
    else
      let rbsp := match RemoveEmulationPreventionBytes payload with
                  | Val r => if len r =? 0 then payload else r
                  | Err _ => payload
                  end in
      r ← (first ← TypesBits.ReadUE; TypesBits.ReadUE) (TypesBits.NewBitReader rbsp);
      match r with
      | (_, Val t) => Ret (if 9 <? t then -1 else t)
      | (_, Err _) => Ret (-1)
      end.

(** What the loop of [GetFrameType] gathers. *)
Record h264_kind := mkKind { hasIDR : bool; hasValidIDRSlice : bool; hasSPS : bool; hasPPS : bool; sliceType : Z }.
#[export] Instance eta_kind : Eta h264_kind := fun k =>
  mkKind (hasIDR k) (hasValidIDRSlice k) (hasSPS k) (hasPPS k) (sliceType k).

Definition kind_step (data : list Z) (k : h264_kind) : res h264_kind :=
  if len data =? 0 then Ret k
  else
    b ← idx data 0;
    let t := Z.land b 0x1F in
    if t =? 5 then
      let k := k <| hasIDR := true |> in
      if 1 <? len data then
        s ← parseSliceTypeFromNAL data;
        let k := if (s =? 2) || (s =? 7) then k <| hasValidIDRSlice := true |> else k in
        Ret (if sliceType k =? -1 then k <| sliceType := s |> else k)
      else Ret (if sliceType k =? -1 then k <| sliceType := 2 |> else k)
    else if t =? 7 then Ret (k <| hasSPS := true |>)
    else if t =? 8 then Ret (k <| hasPPS := true |>)
    else if ((t =? 1) || (t =? 2) || (t =? 3) || (t =? 4) || isVCLNAL t) && (sliceType k =? -1) && (1 <? len data)
    then s ← parseSliceTypeFromNAL data; Ret (k <| sliceType := s |>)
    else Ret k.

Fixpoint kind_loop (nals : list NALUnit) (k : h264_kind) : res h264_kind :=
  match nals with [] => Ret k | n :: nals => k ← kind_step (nal_Data n) k; kind_loop nals k end.

Definition frame_type_of (k : h264_kind) : FrameType :=
  if hasValidIDRSlice k then FrameTypeIDR
  else if hasIDR k && (sliceType k <? 0) then FrameTypeI
  else if (sliceType k <? 0) && hasSPS k then FrameTypeSPS
  else if (sliceType k <? 0) && hasPPS k then FrameTypePPS
  else
    let s := sliceType k in
    if (s =? 0) || (s =? 5) then FrameTypeP
    else if (s =? 1) || (s =? 6) then FrameTypeB
    else if (s =? 2) || (s =? 7) then FrameTypeI
    else if (s =? 3) || (s =? 8) then FrameTypeP
    else if (s =? 4) || (s =? 9) then FrameTypeI
    else FrameTypeP.

Definition H264_GetFrameType (nals : list NALUnit) (_ : H264Detector) : res FrameType :=
  k ← kind_loop nals (mkKind false false false false (-1)); Ret (frame_type_of k).

Definition H264_IsKeyframe (data : list Z) (_ : H264Detector) : res bool :=
  idr ← (if 0 <? len data then b ← idx data 0; Ret (Z.land b 0x1F =? 5) else Ret false);
  if idr : bool then Ret true
  else
    r ← H264_findNALUnits data;
    match r with
    | Err _ => Ret false
    | Val units => Ret (existsb (fun u => match u with b :: _ => Z.land b 0x1F =? 5 | [] => false end) units)
    end.

#[export] Instance h264_detector : Detector H264Detector := {
  DetectBoundaries := H264_DetectBoundaries; GetFrameType := H264_GetFrameType;
  det_IsKeyframe := H264_IsKeyframe; GetCodec _ := CodecH264 }.

(** ** HEVC *)

Record HEVCDetector := mkHEVCD { hevc_lastNALType : Z; hevc_frameStarted : bool }.
#[export] Instance eta_hevcd : Eta HEVCDetector := fun d => mkHEVCD (hevc_lastNALType d) (hevc_frameStarted d).
Definition NewHEVCDetector : HEVCDetector := mkHEVCD 0 false.

Definition hevc_type (b : Z) : Z := Z.land (Z.shiftr b 1) 0x3F.
Definition hevc_isVCLNAL (t : Z) : bool := t <=? 31.
Definition isIRAPNAL (t : Z) : bool := (16 <=? t) && (t <=? 23).
(** VPS, SPS, PPS. *)
Definition is_hevc_set (t : Z) : bool := (t =? 32) || (t =? 33) || (t =? 34).

Definition handleFU (data : list Z) (d : HEVCDetector) : res (HEVCDetector * (bool * bool)) :=
  if len data <? 3 then Ret (d, (false, false))
  else
    fuHeader ← idx data 2;
    let startBit := negb (Z.land fuHeader 0x80 =? 0) in
    let endBit := negb (Z.land fuHeader 0x40 =? 0) in
    let t := Z.land fuHeader 0x3F in
    let '(d, r) :=
      if startBit then
        let isStart := isIRAPNAL t || (t =? 35) || hevc_isVCLNAL t in
        let d := if isStart then d <| hevc_frameStarted := true |> else d in
        if hevc_frameStarted d && hevc_isVCLNAL (hevc_lastNALType d) && ((t =? 35) || is_hevc_set t)
        then (d <| hevc_frameStarted := true |>, (true, true))
        else (d, (isStart, false))
      else (d, (false, false)) in
    if endBit then Ret (d <| hevc_lastNALType := t |>, r)
    else if startBit then Ret (d <| hevc_lastNALType := t |>, r)
    else Ret (d, r).

Definition hevc_start_code_step (u : list Z) (s : HEVCDetector * (bool * bool)) : HEVCDetector * (bool * bool) :=
  match u with
  | b :: _ :: _ =>
      let '(d, (isStart, isEnd)) := s in
      let t := hevc_type b in
      let ends := hevc_frameStarted d && negb (hevc_isVCLNAL t) && ((t =? 35) || is_hevc_set t) in
      let d := if ends then d <| hevc_frameStarted := false |> else d in
      let isStart := isStart || (t =? 35) || isIRAPNAL t || is_hevc_set t in
      let d := if hevc_isVCLNAL t then d <| hevc_frameStarted := true |> else d in
      (d <| hevc_lastNALType := t |>, (isStart, isEnd || ends))
  | _ => s
  end.
Definition hevc_detectBoundariesWithStartCode (data : list Z) (d : HEVCDetector) : res (HEVCDetector * (bool * bool)) :=
  r ← HEVC_findNALUnits data;
  match r with
  | Err _ => Ret (d, (false, false))
  | Val units => Ret (fold_left (fun s u => hevc_start_code_step u s) units (d, (false, false)))
  end.

(** The rules for an unfragmented NAL unit. *)
Definition hevc_nal_boundaries (t : Z) (d : HEVCDetector) : HEVCDetector * (bool * bool) :=
  let after := hevc_isVCLNAL t && negb (hevc_isVCLNAL (hevc_lastNALType d)) && negb (hevc_lastNALType d =? 0) in
  let isStart := (t =? 35) || isIRAPNAL t || is_hevc_set t || after in
  let d := if isStart then d <| hevc_frameStarted := true |> else d in
  let ends := hevc_frameStarted d && hevc_isVCLNAL (hevc_lastNALType d) && negb (hevc_isVCLNAL t) in
  let d := if ends then d <| hevc_frameStarted := false |> else d in
  (d <| hevc_lastNALType := t |>, (isStart, ends)).

Definition HEVC_DetectBoundaries (pkt : TimestampedPacket) (d : HEVCDetector) : res (HEVCDetector * (bool * bool)) :=
  if len (tp_Data pkt) <? 2 then Ret (d, (false, false))
  else
    code ← hasStartCode (tp_Data pkt);
    if code : bool then hevc_detectBoundariesWithStartCode (tp_Data pkt) d
    else
      b ← idx (tp_Data pkt) 0;
      let t := hevc_type b in
      if t =? 49 then handleFU (tp_Data pkt) d else Ret (hevc_nal_boundaries t d).

Definition irap_frame_type (t : Z) (before : FrameType) : FrameType :=
  if (16 <=? t) && (t <=? 18) then FrameTypeBLA
  else if (19 <=? t) && (t <=? 20) then FrameTypeIDR
  else if t =? 21 then FrameTypeCRA
  else before.

(** The IRAP type found (the last one, or IDR), and the flags of the loop. *)
Record hevc_kind := mkHKind { irap : option FrameType; irap_last : FrameType; hk_SPS : bool; hk_PPS : bool; hk_ref : bool }.
Definition hevc_kind_step (k : hevc_kind) (n : NALUnit) : hevc_kind :=
  match nal_Data n with
  | b :: _ :: _ =>
      let t := hevc_type b in
      let last := if isIRAPNAL t then irap_frame_type t (irap_last k) else irap_last k in
      mkHKind (if isIRAPNAL t then Some last else irap k) last
        (hk_SPS k || (t =? 33)) (hk_PPS k || (t =? 34))
        (hk_ref k || (t =? 1) || (t =? 3) || (t =? 5) || (t =? 7) || (t =? 9))
  | _ => k
  end.
Definition HEVC_GetFrameType (nals : list NALUnit) (_ : HEVCDetector) : res FrameType :=
  let k := fold_left hevc_kind_step nals (mkHKind None FrameTypeIDR false false false) in
  Ret (match irap k with
       | Some t => t
       | None => if hk_SPS k then FrameTypeSPS else if hk_PPS k then FrameTypePPS
                 else if hk_ref k then FrameTypeP else FrameTypeB
       end).

Definition HEVC_IsKeyframe (data : list Z) (_ : HEVCDetector) : res bool :=
  key ← (if 2 <=? len data then b ← idx data 0; Ret (isIRAPNAL (hevc_type b)) else Ret false);
  if key : bool then Ret true
  else
    r ← HEVC_findNALUnits data;
    match r with
    | Err _ => Ret false
    | Val units => Ret (existsb (fun u => match u with b :: _ :: _ => isIRAPNAL (hevc_type b) | _ => false end) units)
    end.

#[export] Instance hevc_detector : Detector HEVCDetector := {
  DetectBoundaries := HEVC_DetectBoundaries; GetFrameType := HEVC_GetFrameType;
  det_IsKeyframe := HEVC_IsKeyframe; GetCodec _ := CodecHEVC }.

(** ** AV1 *)

Definition MaxOBUsPerFrame : Z := 500.

Record AV1Detector := mkAV1D {
  av1_frameStarted : bool; lastOBUType : Z; currentFrameType : Z; seenFrameHeader : bool }.
#[export] Instance eta_av1d : Eta AV1Detector := fun d =>
  mkAV1D (av1_frameStarted d) (lastOBUType d) (currentFrameType d) (seenFrameHeader d).
Definition NewAV1Detector : AV1Detector := mkAV1D false 0 0 false.

Record OBU := mkOBU { obu_Type : Z; obu_Size : Z; obu_Data : list Z; obu_HasSize : bool }.
Inductive obu_error : Type := OBUForbiddenBit | OBUBadSize | OBUTooLarge (n : Z) | TooManyOBUs (n : Z).

(** The size field at [offset]: no more data, an error, or the size and the
    offset behind it. *)
Definition obu_size (data : list Z) (offset : Z) (hasSize : bool) : res (option (exn obu_error (Z * Z))) :=
  if hasSize then
    if len data <=? offset then Ret None
    else
      l ← slice data offset (len data);
      let '(size, bytesRead, err) := ReadLEB128 l in
      match err with
      | Some _ => Ret (Some (Err OBUBadSize))
      | None =>
          if bytesRead =? 0 then Ret None
          else if MaxNALUnitSize <? size then Ret (Some (Err (OBUTooLarge size)))
          else Ret (Some (Val (size, offset + bytesRead)))
      end
  else
    let size := len data - offset in
    if MaxNALUnitSize <? size then Ret (Some (Err (OBUTooLarge size))) else Ret (Some (Val (size, offset))).

Definition limit_obus (obus : list OBU) : exn obu_error (list OBU) :=
  if MaxOBUsPerFrame <=? len obus then Err (TooManyOBUs (len obus)) else Val obus.

Fixpoint obus_loop (fuel : nat) (offset : Z) (data : list Z) (obus : list OBU) : res (exn obu_error (list OBU)) :=
  match fuel with
  | O => NoFuel
  | S fuel =>
      if (offset <? len data) && (len obus <? MaxOBUsPerFrame) then
        header ← idx data offset;
        let offset := offset + 1 in
        if negb (Z.land header 0x80 =? 0) then Ret (Err OBUForbiddenBit)
        else
          let t := Z.land (Z.shiftr header 3) 0x0F in
          let hasSize := negb (Z.land header 0x02 =? 0) in
          let extension := negb (Z.land header 0x04 =? 0) in
          if extension && (len data <=? offset) then Ret (limit_obus obus)
          else
            let offset := if extension then offset + 1 else offset in
            s ← obu_size data offset hasSize;
            match s with
            | None => Ret (limit_obus obus)
            | Some (Err e) => Ret (Err e)
            | Some (Val (size, offset)) =>
                if (size <? 0) || (len data <? offset + size) then Ret (limit_obus obus)
                else
                  l ← slice data offset (offset + size);
                  let obus := obus ++ [mkOBU t size l hasSize] in
                  if t =? 15 then Ret (limit_obus obus) else obus_loop fuel (offset + size) data obus
            end
      else Ret (limit_obus obus)
  end.
Definition parseOBUs (data : list Z) : res (exn obu_error (list OBU)) := obus_loop (S (length data)) 0 data [].

Definition parseFrameType (data : list Z) : res Z :=
  if len data <? 1 then Ret 1
  else b ← idx data 0; Ret (if negb (Z.land b 0x80 =? 0) then 1 else Z.land (Z.shiftr b 5) 3).

Definition obu_step (o : OBU) (s : AV1Detector * (bool * bool)) : res (AV1Detector * (bool * bool)) :=
  let '(d, (isStart, isEnd)) := s in
  let t := obu_Type o in
  let '(d, isStart, isEnd) :=
    if t =? 2 then (d <| av1_frameStarted := true |> <| seenFrameHeader := false |>, true, isEnd || av1_frameStarted d)
    else (d, isStart, isEnd) in
  let '(d, isStart, isEnd) :=
    if t =? 1 then (d <| av1_frameStarted := true |>, true, isEnd || (av1_frameStarted d && negb (seenFrameHeader d)))
    else (d, isStart, isEnd) in
  let '(d, isStart) :=
    if ((t =? 3) || (t =? 6)) && negb (seenFrameHeader d)
    then (d <| av1_frameStarted := true |> <| seenFrameHeader := true |>, true) else (d, isStart) in
  d ← (if ((t =? 3) || (t =? 6)) && (0 <? len (obu_Data o))
       then ft ← parseFrameType (obu_Data o); Ret (d <| currentFrameType := ft |>) else Ret d);
  let done d := d <| av1_frameStarted := false |> <| seenFrameHeader := false |> in
  let '(d, isEnd) := if (t =? 4) && seenFrameHeader d then (done d, true) else (d, isEnd) in
  let '(d, isEnd) := if t =? 6 then (done d, true) else (d, isEnd) in
  Ret (d <| lastOBUType := t |>, (isStart, isEnd)).

Fixpoint obu_steps (l : list OBU) (s : AV1Detector * (bool * bool)) : res (AV1Detector * (bool * bool)) :=
  match l with [] => Ret s | o :: l => s ← obu_step o s; obu_steps l s end.

Definition AV1_DetectBoundaries (pkt : TimestampedPacket) (d : AV1Detector) : res (AV1Detector * (bool * bool)) :=
  if len (tp_Data pkt) =? 0 then Ret (d, (false, false))
  else
    r ← parseOBUs (tp_Data pkt);
    match r with
    | Err _ => Ret (d, (false, false))
    | Val obus => obu_steps obus (d, (false, false))
    end.

Definition av1_frame_type (t : Z) : option FrameType :=
  if t =? 0 then Some FrameTypeIDR else if t =? 2 then Some FrameTypeI
  else if (t =? 1) || (t =? 3) then Some FrameTypeP else None.
(** The first OBU that decides. *)
Fixpoint obus_type (l : list OBU) : res (option FrameType) :=
  match l with
  | [] => Ret None
  | o :: l =>
      r ← (if (obu_Type o =? 3) || (obu_Type o =? 6) then t ← parseFrameType (obu_Data o); Ret (av1_frame_type t) else Ret None);
      match r with
      | Some t => Ret (Some t)
      | None => if obu_Type o =? 1 then Ret (Some FrameTypeSPS) else obus_type l
      end
  end.
Fixpoint AV1_GetFrameType (nals : list NALUnit) (d : AV1Detector) : res FrameType :=
  match nals with
  | [] => Ret FrameTypeP
  | n :: nals =>
      r ← parseOBUs (nal_Data n);
      t ← match r with Err _ => Ret None | Val obus => obus_type obus end;
      match t with Some t => Ret t | None => AV1_GetFrameType nals d end
  end.

Fixpoint obus_key (l : list OBU) : res bool :=
  match l with
  | [] => Ret false
  | o :: l =>
      if obu_Type o =? 1 then Ret true
      else if (obu_Type o =? 3) || (obu_Type o =? 6)
      then t ← parseFrameType (obu_Data o); if t =? 0 then Ret true else obus_key l
      else obus_key l
  end.
Definition AV1_IsKeyframe (data : list Z) (_ : AV1Detector) : res bool :=
  r ← parseOBUs data; match r with Err _ => Ret false | Val obus => obus_key obus end.

#[export] Instance av1_detector : Detector AV1Detector := {
  DetectBoundaries := AV1_DetectBoundaries; GetFrameType := AV1_GetFrameType;
  det_IsKeyframe := AV1_IsKeyframe; GetCodec _ := CodecAV1 }.

(** ** JPEG XS *)

Record JPEGXSDetector := mkJXSD { inFrame : bool; jxs_frameStarted : bool; lastMarker : Z }.
#[export] Instance eta_jxsd : Eta JPEGXSDetector := fun d => mkJXSD (inFrame d) (jxs_frameStarted d) (lastMarker d).
Definition NewJPEGXSDetector : JPEGXSDetector := mkJXSD false false 0.

Definition JPEGXSMarkerSOI : Z := 0xFF10.
Definition JPEGXSMarkerEOI : Z := 0xFF11.
Definition JPEGXSMarkerPIH : Z := 0xFF15.

Fixpoint markers_loop (fuel : nat) (i : Z) (data : list Z) (markers : list Z) : res (list Z) :=
  match fuel with
  | O => NoFuel
  | S fuel =>
      if i <? len data - 1 then
        a ← idx data i;
        if a =? 0xFF then
          m ← idx data (i + 1);
          if (0x10 <=? m) && (m <=? 0x1F) then
            let markers := markers ++ [Z.lor 0xFF00 m] in
            if (i + 3 <? len data) && negb (m =? 0x10) && negb (m =? 0x11) then
              hi ← idx data (i + 2); lo ← idx data (i + 3);
              markers_loop fuel (i + (Z.lor (u16 (Z.shiftl hi 8)) lo + 1) + 1) data markers
            else markers_loop fuel (i + 1 + 1) data markers
          else markers_loop fuel (i + 1) data markers
        else markers_loop fuel (i + 1) data markers
      else Ret markers
  end.
Definition findMarkers (data : list Z) : res (list Z) := markers_loop (S (length data)) 0 data [].

Definition marker_step (s : JPEGXSDetector * (bool * bool)) (m : Z) : JPEGXSDetector * (bool * bool) :=
  let '(d, (isStart, isEnd)) := s in
  let '(d, r) :=
    if m =? JPEGXSMarkerSOI then (d <| inFrame := true |> <| jxs_frameStarted := true |>, (true, isEnd || inFrame d))
    else if m =? JPEGXSMarkerEOI then
      if inFrame d then (d <| inFrame := false |> <| jxs_frameStarted := false |>, (isStart, true)) else (d, (isStart, isEnd))
    else if m =? JPEGXSMarkerPIH then
      if inFrame d then (d, (isStart, isEnd)) else (d <| inFrame := true |> <| jxs_frameStarted := true |>, (true, isEnd))
    else (d, (isStart, isEnd)) in
  (d <| lastMarker := m |>, r).

Definition JPEGXS_DetectBoundaries (pkt : TimestampedPacket) (d : JPEGXSDetector) : res (JPEGXSDetector * (bool * bool)) :=
  if len (tp_Data pkt) <? 2 then Ret (d, (false, false))
  else
    markers ← findMarkers (tp_Data pkt);
    let '(d, (isStart, isEnd)) := fold_left marker_step markers (d, (false, false)) in
    if tp_HasFlag PacketFlagFrameEnd pkt && inFrame d
    then Ret (d <| inFrame := false |> <| jxs_frameStarted := false |>, (isStart, true))
    else Ret (d, (isStart, isEnd)).

Definition JPEGXS_IsKeyframe (data : list Z) (_ : JPEGXSDetector) : res bool :=
  markers ← findMarkers data;
  Ret (existsb (fun m => (m =? JPEGXSMarkerSOI) || (m =? JPEGXSMarkerPIH)) markers || (0 <? len markers)).

#[export] Instance jpegxs_detector : Detector JPEGXSDetector := {
  DetectBoundaries := JPEGXS_DetectBoundaries; GetFrameType _ _ := Ret FrameTypeI;
  det_IsKeyframe := JPEGXS_IsKeyframe; GetCodec _ := CodecJPEGXS }.

(** ** Fallback and factory *)

Record GenericDetector := mkGenericD { codec : CodecType }.
#[export] Instance generic_detector : Detector GenericDetector := {
  DetectBoundaries pkt d := Ret (d, (tp_HasFlag PacketFlagFrameStart pkt, tp_HasFlag PacketFlagFrameEnd pkt));
  GetFrameType _ _ := Ret FrameTypeP;
  det_IsKeyframe _ _ := Ret false;
  GetCodec d := codec d }.

(** An interface value: one of the detectors. *)
Inductive AnyDetector : Type :=
| AnyH264 (d : H264Detector) | AnyHEVC (d : HEVCDetector) | AnyAV1 (d : AV1Detector)
| AnyJPEGXS (d : JPEGXSDetector) | AnyGeneric (d : GenericDetector).

Definition detect_as {D} `{Detector D} (wrap : D -> AnyDetector) (pkt : TimestampedPacket) (d : D)
    : res (AnyDetector * (bool * bool)) :=
  '(d, r) ← DetectBoundaries pkt d; Ret (wrap d, r).
#[export] Instance any_detector : Detector AnyDetector := {
  DetectBoundaries pkt d :=
    match d with
    | AnyH264 d => detect_as AnyH264 pkt d | AnyHEVC d => detect_as AnyHEVC pkt d | AnyAV1 d => detect_as AnyAV1 pkt d
    | AnyJPEGXS d => detect_as AnyJPEGXS pkt d | AnyGeneric d => detect_as AnyGeneric pkt d
    end;
  GetFrameType nals d :=
    match d with
    | AnyH264 d => GetFrameType nals d | AnyHEVC d => GetFrameType nals d | AnyAV1 d => GetFrameType nals d
    | AnyJPEGXS d => GetFrameType nals d | AnyGeneric d => GetFrameType nals d
    end;
  det_IsKeyframe data d :=
    match d with
    | AnyH264 d => det_IsKeyframe data d | AnyHEVC d => det_IsKeyframe data d | AnyAV1 d => det_IsKeyframe data d
    | AnyJPEGXS d => det_IsKeyframe data d | AnyGeneric d => det_IsKeyframe data d
    end;
  GetCodec d :=
    match d with
    | AnyH264 d => GetCodec d | AnyHEVC d => GetCodec d | AnyAV1 d => GetCodec d
    | AnyJPEGXS d => GetCodec d | AnyGeneric d => GetCodec d
    end }.

Definition CreateDetector (c : CodecType) : option AnyDetector :=
  match c with
  | CodecH264 => Some (AnyH264 NewH264Detector)
  | CodecHEVC => Some (AnyHEVC NewHEVCDetector)
  | CodecAV1 => Some (AnyAV1 NewAV1Detector)
  | CodecJPEGXS => Some (AnyJPEGXS NewJPEGXSDetector)
  | _ => None
  end.

(** ** What the assembler relies on: a detector returns, whatever the bytes *)

Class TotalDetector (D : Type) `{Detector D} : Prop := {
  detect_total pkt d : bytes (tp_Data pkt) -> returns (DetectBoundaries pkt d) (fun _ => True);
  type_total nals d : Forall (fun n => bytes (nal_Data n)) nals -> returns (GetFrameType nals d) (fun _ => True);
  key_total data d : bytes data -> returns (det_IsKeyframe data d) (fun _ => True)
}.

(** *** Scanners *)

Lemma code_at_total last4 i data :
  bytes data -> 0 <= i -> i + 3 <= len data -> last4 <= len data - 3 ->
  returns (code_at last4 i data) (fun n => (n = 0 \/ n = 3 \/ n = 4) /\ (n = 4 -> i < last4)).
Proof.
  intros Hd Hi Hl Hlast. unfold code_at. go; [lia|]. go; [go; lia|]. go; [lia|]. go; [go; lia|]. go; [lia|]. go; [go; lia|].
  go; [|go; lia]. zbool. go; [lia|]. go. case_bool; lia.
Qed.

Lemma next_code_total fuel bound last4 j data :
  bytes data -> 0 <= j <= len data -> bound <= len data - 2 -> last4 <= len data - 3 ->
  (Z.to_nat (len data - j) < fuel)%nat ->
  returns (next_code fuel bound last4 j data) (fun e => j <= e <= len data).
Proof.
  intros Hd. revert j. induction fuel as [|fuel IH]; intros j Hj Hb Hl Hf; [lia|]. cbn [next_code].
  go; [|go; lia]. eapply returns_bind; [apply code_at_total; [done|lia|lia|done]|]. intros n _. go; [go; lia|].
  eapply returns_weaken; [apply IH; lia|]. intros e. cbv beta. lia.
Qed.

Lemma take_unit_total s e data units :
  bytes data -> 0 <= s <= e -> e <= len data -> Forall bytes units ->
  returns (take_unit s e data units) (fun r => match r with Val l => Forall bytes l | Err _ => True end).
Proof.
  intros Hd Hs He Hu. unfold take_unit. cbv zeta. go.
  - go; [lia|lia|]. go. apply Forall_app. split; [done|by constructor].
  - go; by go.
Qed.

Abbreviation units_result := (fun r : exn nal_error (list (list Z)) => match r with Val l => Forall bytes l | Err _ => True end).

Lemma limit_units_ok units : Forall bytes units -> units_result (limit_units units).
Proof. intros. unfold limit_units. by case_bool. Qed.

Lemma h264_units_total fuel i data units :
  bytes data -> 0 <= i -> (Z.to_nat (len data - i) < fuel)%nat -> Forall bytes units ->
  returns (h264_units fuel i data units) units_result.
Proof.
  intros Hd. revert i units. induction fuel as [|fuel IH]; intros i units Hi Hf Hu; [lia|]. cbn [h264_units].
  go; [|go; by apply limit_units_ok]. zbool. go; [go; by apply limit_units_ok|].
  eapply returns_bind; [apply code_at_total; [done|lia|lia|lia]|]. intros n [Hn _].
  go; [|apply IH; [lia|lia|done]]. go; [go; by apply limit_units_ok|].
  eapply returns_bind; [apply next_code_total; [done|lia|lia|lia|unfold len in *; lia]|]. intros e He. cbv beta in He.
  eapply returns_bind; [apply take_unit_total; [done|lia|lia|done]|]. intros [l|err] Hl; [|by go]. apply IH; [lia|lia|done].
Qed.
Lemma hevc_units_total fuel i data units :
  bytes data -> 0 <= i -> (Z.to_nat (len data - i) < fuel)%nat -> Forall bytes units ->
  returns (hevc_units fuel i data units) units_result.
Proof.
  intros Hd. revert i units. induction fuel as [|fuel IH]; intros i units Hi Hf Hu; [lia|]. cbn [hevc_units].
  go; [|go; by apply limit_units_ok]. zbool.
  eapply returns_bind; [apply code_at_total; [done|lia|lia|lia]|]. intros n [Hn _].
  go; [|apply IH; [lia|lia|done]]. go; [go; by apply limit_units_ok|].
  eapply returns_bind; [apply next_code_total; [done|lia|lia|lia|unfold len in *; lia]|]. intros e He. cbv beta in He.
  eapply returns_bind; [apply take_unit_total; [done|lia|lia|done]|]. intros [l|err] Hl; [|by go]. apply IH; [lia|lia|done].
Qed.
Lemma findNALUnits_total data :
  bytes data -> returns (H264_findNALUnits data) units_result /\ returns (HEVC_findNALUnits data) units_result.
Proof.
  intros Hd. unfold H264_findNALUnits, HEVC_findNALUnits. split; (go; [go; constructor|]);
    [apply h264_units_total|apply hevc_units_total]; try done; unfold len; lia.
Qed.

Lemma findStartCodeUnits_total data :
  bytes data -> returns (findStartCodeUnits data) (Forall bytes).
Proof.
  intros Hd. unfold findStartCodeUnits. eapply (returns_bind _ _ (Forall bytes)).
  2: { intros units Hu. go. case_bool; [by constructor|done]. }
  assert (forall fuel i units, 0 <= i -> (Z.to_nat (len data - i) < fuel)%nat -> Forall bytes units ->
    returns (start_code_units fuel i data units) (Forall bytes)) as Hloop; [|apply Hloop; [lia|unfold len; lia|constructor]].
  induction fuel as [|fuel IH]; intros i units Hi Hf Hu; [lia|]. cbn [start_code_units]. go; [|by go].
  eapply returns_bind; [apply code_at_total; [done|lia|lia|lia]|]. intros n [Hn H4]. go; [|apply IH; [lia|lia|done]].
  eapply returns_bind; [apply next_code_total; [done|lia|lia|lia|unfold len in *; lia]|]. intros e He. cbv beta in He.
  eapply (returns_bind _ _ (Forall bytes)).
  - go; [|by go]. go; [lia|lia|]. go. apply Forall_app. split; [done|by constructor].
  - intros units' Hu'. apply IH; [lia|lia|done].
Qed.

Lemma hasStartCode_total data : bytes data -> returns (hasStartCode data) (fun _ => True).
Proof.
  intros Hd. unfold hasStartCode. go; [|by go]. go; [lia|]. go; [lia|]. go; [lia|]. go; [by go|]. go; [by go|].
  go; [|by go]. zbool. go; [lia|]. by go.
Qed.

(** *** The codecs *)

Lemma read_bit_total br : BitReader.wf br -> exists br' r, TypesBits.ReadUE br = Ret (br', r) /\ BitReader.wf br'.
Proof.
  intros Hwf. rewrite TypesBits.ReadUE_agree by done.
  destruct (BitReader.ReadUE_sound br Hwf) as (br' & r & E & Hwf' & _). eauto.
Qed.

Lemma remove_bytes z l : bytes l -> bytes (remove_loop z l).
Proof.
  intros Hl. revert z. induction Hl as [|b l Hb Hl IH]; intros z; cbn [remove_loop]; [constructor|].
  case_bool; [|by constructor]. destruct l as [|next l']; [apply IH|]. case_bool; [apply IH|by constructor].
Qed.

Lemma slice_type_total nal : bytes nal -> returns (parseSliceTypeFromNAL nal) (fun t => -1 <= t <= 9).
Proof.
  intros Hd. unfold parseSliceTypeFromNAL. go; [go; lia|]. go; [lia|lia|]. go; [go; lia|]. cbv zeta.
  set (rbsp := match RemoveEmulationPreventionBytes k with Val _ => _ | Err _ => _ end).
  assert (bytes rbsp) as Hr.
  { subst rbsp. unfold RemoveEmulationPreventionBytes. case_bool; [done|]. case_bool; [done|]. by apply remove_bytes. }
  clearbody rbsp. assert (BitReader.wf (TypesBits.NewBitReader rbsp)) as Hwf.
  { split; [done|]. pose proof (len_nonneg rbsp). cbn. lia. }
  unfold mbind at 2. unfold method_bind. destruct (read_bit_total _ Hwf) as (br1 & r1 & E1 & Hwf1). rewrite E1.
  destruct r1 as [v1|e1]; [|rewrite bind_Ret; go; lia]. rewrite TypesBits.ReadUE_agree by done.
  destruct (BitReader.ReadUE_sound br1 Hwf1) as (br2 & r2 & E2 & _ & _ & Hv). rewrite E2, bind_Ret.
  destruct r2 as [v2|e2]; go; [|lia]. destruct (Hv v2 eq_refl) as [Hv2 _]. case_bool; lia.
Qed.

Lemma kind_step_total data k : bytes data -> returns (kind_step data k) (fun _ => True).
Proof.
  intros Hd. unfold kind_step. pose proof (len_nonneg data). go; [by go|]. go; [lia|]. cbv zeta. go.
  { go; [|by go]. eapply returns_bind; [by apply slice_type_total|]. intros s _. by go. }
  go; [by go|]. go; [by go|]. go; [|by go]. eapply returns_bind; [by apply slice_type_total|]. intros s _. by go.
Qed.

Lemma fua_boundaries_total data d : bytes data -> returns (handleFUA data d) (fun _ => True).
Proof.
  intros Hd. unfold handleFUA. go; [by go|]. go; [lia|]. cbv zeta. go; [by go|].
  destruct (if negb (Z.land b 128 =? 0) then _ else _) as [d' r]. go; [by go|]. by go; go.
Qed.

#[export] Instance h264_total : TotalDetector H264Detector.
Proof.
  split.
  - intros pkt d Hd. cbn. unfold H264_DetectBoundaries. pose proof (len_nonneg (tp_Data pkt)). go; [by go|].
    eapply returns_bind; [by apply hasStartCode_total|]. intros code _. go.
    + unfold detectBoundariesWithStartCode. eapply returns_bind; [by apply findNALUnits_total|]. intros [l|e] _; by go.
    + go; [lia|]. cbv zeta. go; [by apply fua_boundaries_total|]. destruct (nal_boundaries _ _) as [d' r]. by go.
  - intros nals d Hn. cbn. unfold H264_GetFrameType. eapply (returns_bind _ _ (fun _ => True)); [|intros k _; by go].
    generalize (mkKind false false false false (-1)) as k. induction Hn as [|n nals Hn _ IH]; intros k; cbn [kind_loop]; [by go|].
    eapply returns_bind; [by apply kind_step_total|]. intros k' _. apply IH.
  - intros data d Hd. cbn. unfold H264_IsKeyframe. eapply (returns_bind _ _ (fun _ => True)).
    { go; [|by go]. go; [lia|]. by go. }
    intros idr _. go; [by go|]. eapply returns_bind; [by apply findNALUnits_total|]. intros [l|e] _; by go.
Qed.

Lemma handleFU_total data d : bytes data -> returns (handleFU data d) (fun _ => True).
Proof.
  intros Hd. unfold handleFU. go; [by go|]. go; [lia|]. cbv zeta.
  match goal with |- returns (let '(d, r) := ?x in _) _ => destruct x as [d' r] end. go; [by go|]. by go; go.
Qed.

#[export] Instance hevc_total : TotalDetector HEVCDetector.
Proof.
  split.
  - intros pkt d Hd. cbn. unfold HEVC_DetectBoundaries. go; [by go|].
    eapply returns_bind; [by apply hasStartCode_total|]. intros code _. go.
    + unfold hevc_detectBoundariesWithStartCode. eapply returns_bind; [by apply findNALUnits_total|]. intros [l|e] _; by go.
    + go; [lia|]. cbv zeta. go; [by apply handleFU_total|]. by go.
  - intros nals d Hn. cbn. unfold HEVC_GetFrameType. by go.
  - intros data d Hd. cbn. unfold HEVC_IsKeyframe. eapply (returns_bind _ _ (fun _ => True)).
    { go; [|by go]. go; [lia|]. by go. }
    intros key _. go; [by go|]. eapply returns_bind; [by apply findNALUnits_total|]. intros [l|e] _; by go.
Qed.

Definition obu_ok (o : OBU) : Prop := bytes (obu_Data o) /\ len (obu_Data o) = obu_Size o /\ obu_Size o <= MaxNALUnitSize.
Abbreviation obus_result := (fun r : exn obu_error (list OBU) => match r with Val l => Forall obu_ok l | Err _ => True end).

Lemma limit_obus_ok l : Forall obu_ok l -> obus_result (limit_obus l).
Proof. intros. unfold limit_obus. by case_bool. Qed.

Lemma obu_size_total data offset h :
  bytes data -> 0 <= offset ->
  returns (obu_size data offset h) (fun s => match s with Some (Val (n, o)) => offset <= o /\ n <= MaxNALUnitSize | _ => True end).
Proof.
  intros Hd Ho. unfold obu_size. go.
  - go; [by go|]. go; [lia|lia|]. rewrite ReadLEB128_is_spec by done. destruct (leb_spec k) as [[n r] err] eqn:E.
    destruct err; [by go|]. go; [by go|]. go; [by go|]. go. split; [|done].
    rewrite <- ReadLEB128_is_spec in E by done. unfold ReadLEB128 in E. destruct (len k =? 0); [by injection E as _ <- _|].
    pose proof (read_loop_count k 0 0 0) as Hc. rewrite E in Hc. cbn in Hc. lia.
  - go; go; [done|]. split; lia.
Qed.

Lemma parseOBUs_total data : bytes data -> returns (parseOBUs data) obus_result.
Proof.
  intros Hd. unfold parseOBUs.
  assert (forall fuel offset obus, 0 <= offset -> (Z.to_nat (len data - offset) < fuel)%nat -> Forall obu_ok obus ->
    returns (obus_loop fuel offset data obus) obus_result) as Hloop; [|apply Hloop; [lia|unfold len; lia|constructor]].
  induction fuel as [|fuel IH]; intros offset obus Ho Hf Hobus; [lia|]. cbn [obus_loop].
  go; [|go; by apply limit_obus_ok]. zbool. go; [lia|]. cbv zeta. go; [by go|]. go; [go; by apply limit_obus_ok|].
  set (o1 := if negb (Z.land b 4 =? 0) then _ else _).
  assert (offset + 1 <= o1) as Ho1 by (subst o1; case_bool; lia). clearbody o1.
  eapply returns_bind; [apply obu_size_total; [done|lia]|]. intros [[[n o2]|e]|] Hs; [|by go|go; by apply limit_obus_ok].
  destruct Hs as [Ho2 Hn]. go; [go; by apply limit_obus_ok|]. zbool. go; [lia|lia|].
  assert (Forall obu_ok (obus ++ [mkOBU (Z.land (Z.shiftr b 3) 15) n k (negb (Z.land b 2 =? 0))])) as Hobus'.
  { apply Forall_app. split; [done|]. constructor; [|constructor]. split_and!; [done|cbn; lia|done]. }
  go; [go; by apply limit_obus_ok|]. apply IH; [lia|lia|done].
Qed.

Lemma parseFrameType_total data : bytes data -> returns (parseFrameType data) (fun t => 0 <= t <= 3).
Proof.
  intros Hd. unfold parseFrameType. go; [go; lia|]. go; [lia|]. go. case_bool; [lia|]. apply land_bound. lia.
Qed.

Lemma obu_step_total o s : obu_ok o -> returns (obu_step o s) (fun _ => True).
Proof.
  intros [Hb _]. unfold obu_step. destruct s as [d [i e]]. cbv zeta.
  repeat match goal with |- returns (let '(_, _) := ?x in _) _ => destruct x as [[? ?] ?] || destruct x as [? ?] end.
  eapply (returns_bind _ _ (fun _ => True)).
  { go; [|by go]. eapply returns_bind; [by apply parseFrameType_total|]. intros t _. by go. }
  intros d' _. repeat match goal with |- returns (let '(_, _) := ?x in _) _ => destruct x as [? ?] end. by go.
Qed.

#[export] Instance av1_total : TotalDetector AV1Detector.
Proof.
  split.
  - intros pkt d Hd. cbn. unfold AV1_DetectBoundaries. go; [by go|].
    eapply returns_bind; [by apply parseOBUs_total|]. intros [l|e] Hl; [|by go].
    generalize (d, (false, false)) as s. induction Hl as [|o l Ho _ IH]; intros s; cbn [obu_steps]; [by go|].
    eapply returns_bind; [by apply obu_step_total|]. intros s' _. apply IH.
  - intros nals d Hn. cbn. induction Hn as [|n nals Hn _ IH]; cbn [AV1_GetFrameType]; [by go|].
    eapply returns_bind; [by apply parseOBUs_total|]. intros r Hr. eapply (returns_bind _ _ (fun _ => True)).
    + destruct r as [l|e]; [|by go]. induction Hr as [|o l [Ho _] _ IHl]; cbn [obus_type]; [by go|].
      eapply (returns_bind _ _ (fun _ => True)).
      { go; [|by go]. eapply returns_bind; [by apply parseFrameType_total|]. intros t _. by go. }
      intros [t|] _; [by go|]. go; [by go|apply IHl].
    + intros [t|] _; [by go|exact IH].
  - intros data d Hd. cbn. unfold AV1_IsKeyframe. eapply returns_bind; [by apply parseOBUs_total|].
    intros [l|e] Hl; [|by go]. induction Hl as [|o l [Ho _] _ IHl]; cbn [obus_key]; [by go|].
    go; [by go|]. go; [|apply IHl]. eapply returns_bind; [by apply parseFrameType_total|]. intros t _. go; [by go|apply IHl].
Qed.

Lemma findMarkers_total data : bytes data -> returns (findMarkers data) (fun _ => True).
Proof.
  intros Hd. unfold findMarkers.
  assert (forall fuel i l, 0 <= i -> (Z.to_nat (len data - i) < fuel)%nat -> returns (markers_loop fuel i data l) (fun _ => True))
    as Hloop; [|apply Hloop; [lia|unfold len; lia]].
  induction fuel as [|fuel IH]; intros i l Hi Hf; [lia|]. cbn [markers_loop]. go; [|by go]. go; [lia|].
  go; [|apply IH; lia]. go; [lia|]. go; [|apply IH; lia]. cbv zeta. go; [|apply IH; lia]. zbool. go; [lia|]. go; [lia|].
  assert (0 <= Z.lor (u16 (Z.shiftl b1 8)) b2) as Hn by (apply lor_nonneg; [apply u16_range|unfold is_byte in *; lia]).
  apply IH; lia.
Qed.

#[export] Instance jpegxs_total : TotalDetector JPEGXSDetector.
Proof.
  split.
  - intros pkt d Hd. cbn. unfold JPEGXS_DetectBoundaries. go; [by go|]. eapply returns_bind; [by apply findMarkers_total|].
    intros l _. destruct (fold_left _ _ _) as [d' [i e]]. go; by go.
  - intros nals d _. cbn. by go.
  - intros data d Hd. cbn. unfold JPEGXS_IsKeyframe. eapply returns_bind; [by apply findMarkers_total|]. intros l _. by go.
Qed.
#[export] Instance generic_total : TotalDetector GenericDetector.
Proof. split; intros; cbn; by go. Qed.

Lemma detect_as_total {D} `{TotalDetector D} (wrap : D -> AnyDetector) pkt d :
  bytes (tp_Data pkt) -> returns (detect_as wrap pkt d) (fun _ => True).
Proof. intros Hd. unfold detect_as. eapply returns_bind; [by apply detect_total|]. intros [d' r] _. by go. Qed.

#[export] Instance any_total : TotalDetector AnyDetector.
Proof.
  split.
  - intros pkt d Hd. destruct d as [d|d|d|d|d]; exact (detect_as_total _ pkt d Hd).
  - intros nals d Hn. destruct d as [d|d|d|d|d]; exact (type_total nals d Hn).
  - intros data d Hd. destruct d as [d|d|d|d|d]; exact (key_total data d Hd).
Qed.

(** whichever detector the factory chose and whatever state it is in,
    boundary detection, frame typing and the key frame test return on every
    packet, NAL unit list and buffer of bytes: no index is out of range and
    every scan ends. *)
Theorem detectors_total (d : AnyDetector) (pkt : TimestampedPacket) (nals : list NALUnit) :
  bytes (tp_Data pkt) -> Forall (fun n => bytes (nal_Data n)) nals ->
  exists d' isStart isEnd t key,
    DetectBoundaries pkt d = Ret (d', (isStart, isEnd)) /\ GetFrameType nals d = Ret t /\
    det_IsKeyframe (tp_Data pkt) d = Ret key.
Proof.
  intros Hd Hn. destruct (detect_total pkt d Hd) as ([d' [i e]] & E1 & _), (type_total nals d Hn) as (t & E2 & _),
    (key_total (tp_Data pkt) d Hd) as (key & E3 & _). by exists d', i, e, t, key.
Qed.

Lemma detectors_total_witness :
  exists d' isStart isEnd t key,
    DetectBoundaries (packet_of [0; 0; 1; 0x67; 0x42] 0 0 0 0) (AnyH264 NewH264Detector) = Ret (d', (isStart, isEnd)) /\
    GetFrameType [mkNAL 5 [0x65; 0x88] 0 3] (AnyH264 NewH264Detector) = Ret t /\
    det_IsKeyframe [0; 0; 1; 0x67; 0x42] (AnyH264 NewH264Detector) = Ret key.
Proof.
  apply (detectors_total (AnyH264 NewH264Detector) (packet_of [0; 0; 1; 0x67; 0x42] 0 0 0 0) [mkNAL 5 [0x65; 0x88] 0 3]);
    unfold is_byte; repeat constructor; cbn; lia.
Defined.
