(* ===== verification/Assembler.v ===== *)
(** * Frame assembly (frame/assembler.go)

    Packets are gathered from one frame start to the next frame start, a frame
    end or the assembly timeout, split into NAL units and sent to the output
    channel.  The detector is any instance of [Detector].  A channel is the
    list of everything sent to it with the number of frames received; what a
    [select] finds ready, how a blocked send ends and the clock are arguments. *)

From stdpp Require Import strings.
From S2P Require Import Prelude Returns AnnexB Codec Frame Detectors.

Record chan := mkChan { sent : list VideoFrame; received : nat; chan_cap : Z; closed : bool }.
#[export] Instance eta_chan : Eta chan := fun c => mkChan (sent c) (received c) (chan_cap c) (closed c).
Definition buffered (c : chan) : Z := len (sent c) - Z.of_nat (received c).
Definition push (f : VideoFrame) (c : chan) : chan := c <| sent := sent c ++ [f] |>.
Definition take_n (n : nat) (c : chan) : chan := c <| received := (received c + n)%nat |>.

Definition take_up_to (n : nat) (c : chan) : chan := take_n (Nat.min n (Z.to_nat (buffered c))) c.

Record Assembler (D : Type) := mkAsm {
  streamID : string;
  codec : CodecType;
  currentFrame : option VideoFrame;
  framePackets : list TimestampedPacket;
  nalBuffer : list Z;
  frameTimeout : Z;
  frameDetector : D;
  output : chan;
  cancelled : bool;
  framesAssembled : Z;
  framesDropped : Z;
  packetsReceived : Z;
  packetsDropped : Z;
  nextFrameID : Z
}.
Arguments mkAsm {D}.
Arguments streamID {D}. Arguments codec {D}. Arguments currentFrame {D}. Arguments framePackets {D}.
Arguments nalBuffer {D}. Arguments frameTimeout {D}. Arguments frameDetector {D}. Arguments output {D}.
Arguments cancelled {D}. Arguments framesAssembled {D}. Arguments framesDropped {D}. Arguments packetsReceived {D}.
Arguments packetsDropped {D}. Arguments nextFrameID {D}.
#[export] Instance eta_asm {D} : Eta (Assembler D) := fun a =>
  mkAsm (streamID a) (codec a) (currentFrame a) (framePackets a) (nalBuffer a) (frameTimeout a) (frameDetector a)
    (output a) (cancelled a) (framesAssembled a) (framesDropped a) (packetsReceived a) (packetsDropped a) (nextFrameID a).

Inductive asm_error : Type := ContextDone | ErrOutputBlocked.

(** How a send goes: the clock when the frame is complete, whether a [select]
    that could also see the context done sends, and how a blocked send ends. *)
Inductive send_wait : Type := WaitSent (taken : nat) | WaitExpired | WaitShutdown.
Record send_env := mkSendEnv { s_now : Z; s_pick_send : bool; s_wait : send_wait }.
(** One call of AddPacket: whether Stop runs right after the check of the
    context, the two sends it may make, and the clock of the timeout test. *)
Record packet_env := mkPacketEnv { e_stop : bool; e_first : send_env; e_second : send_env; e_clock : Z }.

Section assembler.
Context {D : Type} `{Detector D}.

Definition assembler_with (id : string) (c : CodecType) (cap : Z) (d : D) : Assembler D :=
  mkAsm id c None [] [] (200 * millisecond) d (mkChan [] 0 (if cap <=? 0 then 100 else cap) false) false 0 0 0 0 1.

Definition Stop (a : Assembler D) : Assembler D :=
  a <| cancelled := true |> <| output := (output a) <| closed := true |> |>.

Definition getNALType (c : CodecType) (data : list Z) : res Z :=
  if len data =? 0 then Ret 0
  else
    match c with
    | CodecH264 => b ← idx data 0; Ret (Z.land b 0x1F)
    | CodecHEVC => b ← idx data 0; Ret (Z.land (Z.shiftr b 1) 0x3F)
    | _ => Ret 0
    end.

Definition make_unit (c : CodecType) (data : list Z) : res NALUnit :=
  t ← getNALType c data;
  if bool_decide (c = CodecH264)
  then b ← idx data 0; Ret (mkNAL t data 0 (Z.land (Z.shiftr b 5) 3))
  else Ret (mkNAL t data 0 0).
Fixpoint make_units (c : CodecType) (l : list (list Z)) : res (list NALUnit) :=
  match l with
  | [] => Ret []
  | u :: l =>
      if 0 <? len u then n ← make_unit c u; rest ← make_units c l; Ret (n :: rest) else make_units c l
  end.

Definition parseNALUnits (c : CodecType) (data : list Z) : res (list NALUnit) :=
  match c with
  | CodecH264 | CodecHEVC => units ← findStartCodeUnits data; make_units c units
  | CodecAV1 => Ret [mkNAL 0 data 0 0]
  | _ => Ret (if 0 <? len data then [mkNAL 0 data 0 0] else [])
  end.

Definition sendFrameToOutput (f : VideoFrame) (e : send_env) (a : Assembler D) : res (Assembler D * exn asm_error unit) :=
  let out a := a <| framesAssembled := u64 (framesAssembled a + 1) |> <| output := push f (output a) |> in
  if (closed (output a) || (buffered (output a) <? chan_cap (output a))) && (negb (cancelled a) || s_pick_send e)
  then if closed (output a) then Panic else Ret (out a, Val tt)
  else if cancelled a then Ret (a, Err ContextDone)
  else
    match s_wait e with
    | WaitSent taken => Ret (out (a <| output := take_up_to (S taken) (output a) |>), Val tt)
    | WaitExpired => Ret (a <| framesDropped := u64 (framesDropped a + 1) |>, Err ErrOutputBlocked)
    | WaitShutdown => Ret (Stop a, Err ContextDone)
    end.

Definition total_size (nals : list NALUnit) (size : Z) : Z :=
  fold_left (fun size n => i64 (size + len (nal_Data n))) nals size.

(** The frame as it is sent. *)
Definition finish_frame (nals : list NALUnit) (t : FrameType) (now : Z) (f : VideoFrame) : VideoFrame :=
  let f := f <| NALUnits := nals |> <| FType := t |> in
  let f := if FrameType_IsKeyframe t then SetFlag FrameFlagKeyframe f else f in
  let f := if FrameType_IsReference t then SetFlag FrameFlagReference f else f in
  let f := f <| TotalSize := total_size nals (TotalSize f) |> <| CompleteTime := now |> in
  if is_zero_time (PresentationTime f) && (0 <? PTS f) then f <| PresentationTime := CaptureTime f |> else f.

Definition clear_frame (a : Assembler D) : Assembler D :=
  a <| currentFrame := None |> <| framePackets := [] |> <| nalBuffer := [] |>.

Definition completeFrame (e : send_env) (a : Assembler D) : res (Assembler D * exn asm_error unit) :=
  match currentFrame a with
  | None => Ret (a, Val tt)
  | Some f =>
      nals ← parseNALUnits (codec a) (nalBuffer a);
      t ← GetFrameType nals (frameDetector a);
      '(a, r) ← sendFrameToOutput (finish_frame nals t (s_now e) f) e a;
      Ret (clear_frame a, r)
  end.

Definition new_frame (pkt : TimestampedPacket) (a : Assembler D) : VideoFrame :=
  let f := mkFrame (nextFrameID a) (streamID a) (nextFrameID a) [] 0 (tp_PTS pkt) (tp_DTS pkt) 0 (tp_CaptureTime pkt) 0
             FrameTypeI 0 0 0 [] [] 0 (Float64.f64_of_Z 0) 0 in
  if tp_IsKeyframe pkt then SetFlag FrameFlagKeyframe f else f.

Definition start_frame (pkt : TimestampedPacket) (a : Assembler D) : Assembler D :=
  a <| currentFrame := Some (new_frame pkt a) |> <| nextFrameID := u64 (nextFrameID a + 1) |>
    <| framePackets := [pkt] |> <| nalBuffer := tp_Data pkt |>.

Definition extend_frame (pkt : TimestampedPacket) (f : VideoFrame) (a : Assembler D) : Assembler D :=
  let f := if PTS f <? tp_PTS pkt then f <| Duration := i64 (tp_PTS pkt - PTS f) |> else f in
  a <| currentFrame := Some f |> <| framePackets := framePackets a ++ [pkt] |> <| nalBuffer := nalBuffer a ++ tp_Data pkt |>.

(** The end of AddPacket: frame end or timeout. *)
Definition end_packet (isEnd : bool) (e : packet_env) (a : Assembler D) : res (Assembler D * exn asm_error unit) :=
  match currentFrame a with
  | None => Ret (a, Val tt)
  | Some f =>
      if isEnd then completeFrame (e_second e) a
      else if frameTimeout a <? time_sub (e_clock e) (CaptureTime f) then
        '(a, _) ← completeFrame (e_second e) (a <| currentFrame := Some (SetFlag FrameFlagCorrupted f) |>);
        Ret (a, Val tt)
      else Ret (a, Val tt)
  end.

Definition AddPacket (pkt : TimestampedPacket) (e : packet_env) (a : Assembler D) : res (Assembler D * exn asm_error unit) :=
  if cancelled a then Ret (a, Err ContextDone)
  else
    let a := if e_stop e then Stop a else a in
    let a := a <| packetsReceived := u64 (packetsReceived a + 1) |> in
    '(d, (isStart, isEnd)) ← DetectBoundaries pkt (frameDetector a);
    let a := a <| frameDetector := d |> in
    if isStart : bool then
      '(a, _) ← completeFrame (e_first e) a;
      end_packet isEnd e (start_frame pkt a)
    else
      match currentFrame a with
      | Some f => end_packet isEnd e (extend_frame pkt f a)
      | None => Ret (a <| packetsDropped := u64 (packetsDropped a + 1) |>, Val tt)
      end.

Definition SetFrameTimeout (t : Z) (a : Assembler D) : Assembler D := a <| frameTimeout := t |>.
Definition GetStats (a : Assembler D) : Z * Z * Z * Z :=
  (framesAssembled a, framesDropped a, packetsReceived a, packetsDropped a).

(** A consumer takes a frame, if there is one. *)
Definition receive (a : Assembler D) : Assembler D :=
  if 0 <? buffered (output a) then a <| output := take_n 1 (output a) |> else a.

End assembler.

Definition NewAssembler (id : string) (c : CodecType) (cap : Z) : Assembler AnyDetector :=
  assembler_with id c cap (default (AnyGeneric (mkGenericD c)) (CreateDetector c)).

(** ** Runs *)

Inductive event : Type :=
| Packet (pkt : TimestampedPacket) (e : packet_env)
| Receive
| Timeout (t : Z).

Definition packets (l : list event) : list TimestampedPacket :=
  omap (fun ev => match ev with Packet pkt _ => Some pkt | _ => None end) l.
(** Stop runs during a call of AddPacket only while its last send is blocked. *)
Definition quiet (e : packet_env) : Prop := e_stop e = false /\ s_wait (e_first e) <> WaitShutdown.
Definition no_race (l : list event) : Prop :=
  Forall (fun ev => match ev with Packet pkt e => bytes (tp_Data pkt) /\ quiet e | _ => True end) l.

Section run.
Context {D : Type} `{TotalDetector D}.

Definition handle (ev : event) (a : Assembler D) : res (Assembler D) :=
  match ev with
  | Packet pkt e => '(a, _) ← AddPacket pkt e a; Ret a
  | Receive => Ret (receive a)
  | Timeout t => Ret (SetFrameTimeout t a)
  end.
Fixpoint run (l : list event) (a : Assembler D) : res (Assembler D) :=
  match l with [] => Ret a | ev :: l => a ← handle ev a; run l a end.

(** *** NAL units *)

Lemma make_units_total c l :
  Forall bytes l -> returns (make_units c l) (Forall (fun n => bytes (nal_Data n))).
Proof.
  induction 1 as [|u l Hu Hl IH]; cbn [make_units]; [go; constructor|]. go; [|exact IH].
  eapply (returns_bind _ _ (fun n => bytes (nal_Data n))).
  - unfold make_unit, getNALType. rewrite (proj2 (Z.eqb_neq (len u) 0)) by lia.
    eapply (returns_bind _ _ (fun _ => True)); [destruct c; try (by go); (go; [lia|by go])|].
    intros t _. destruct (bool_decide (c = CodecH264)); [|by go]. go; [lia|]. by go.
  - intros n Hn. eapply returns_bind; [exact IH|]. intros rest Hrest. go. by constructor.
Qed.

Lemma parseNALUnits_total c data :
  bytes data -> returns (parseNALUnits c data) (Forall (fun n => bytes (nal_Data n))).
Proof.
  intros Hd. unfold parseNALUnits.
  destruct c; try (go; case_bool; repeat constructor; done); try (go; by repeat constructor);
    (eapply returns_bind; [by apply findStartCodeUnits_total|]; intros units Hu; by apply make_units_total).
Qed.

(** The NAL units of a byte stream of units. *)
Definition nal_of (c : CodecType) (u : list Z) : NALUnit :=
  match u with
  | b :: _ => if bool_decide (c = CodecH264) then mkNAL (Z.land b 0x1F) u 0 (Z.land (Z.shiftr b 5) 3)
              else mkNAL (Z.land (Z.shiftr b 1) 0x3F) u 0 0
  | [] => mkNAL 0 u 0 0
  end.
Lemma parse_annexb c l :
  c = CodecH264 \/ c = CodecHEVC -> l <> [] -> Forall sized l -> len l < Validation.MaxNALUnitsPerFrame ->
  parseNALUnits c (annexb l) = Ret (nal_of c <$> (snd <$> l)).
Proof.
  intros Hc Hne Hl Hn.
  assert (findStartCodeUnits (annexb l) = Ret (snd <$> l)) as E.
  { apply annexb_units; [done|]. eapply Forall_impl; [exact Hl|]. by intros e []. }
  assert (parseNALUnits c (annexb l) = make_units c (snd <$> l)) as ->
    by (destruct Hc as [-> | ->]; cbn [parseNALUnits]; by rewrite E, bind_Ret).
  clear E Hne Hn. induction Hl as [|[b u] l [(v & x & Hu & _) _] _ IH]; [done|]. cbn in Hu |- *.
  rewrite IH. destruct u as [|h u]; [by destruct v|]. pose proof (len_nonneg u).
  rewrite len_cons, (proj2 (Z.ltb_lt 0 _)) by lia. unfold make_unit, getNALType. rewrite len_cons, (proj2 (Z.eqb_neq _ 0)) by lia.
  by destruct Hc as [-> | ->].
Qed.

(** *** The history of the frames

    [history] lists for every frame completed so far its packets and, when it
    was sent, the frame. *)
Definition made (c : CodecType) (id : Z) (seg : list TimestampedPacket) (f : VideoFrame) : Prop :=
  ID f = id /\ FrameNumber f = id /\ parseNALUnits c (mjoin (tp_Data <$> seg)) = Ret (NALUnits f) /\
  exists p, head seg = Some p /\ PTS f = tp_PTS p /\ DTS f = tp_DTS p /\ CaptureTime f = tp_CaptureTime p.

Abbreviation history := (list (list TimestampedPacket * option VideoFrame)).
Definition frames_of (h : history) : list VideoFrame := omap snd h.
Definition missing (h : history) : Z := len (filter (fun e => e.2 = None) h).

Record asm_inv (c : CodecType) (pkts : list TimestampedPacket) (h : history) (a : Assembler D) : Prop := {
  ai_codec : codec a = c;
  ai_sent : sent (output a) = frames_of h;
  ai_made : forall i seg f, h !! i = Some (seg, Some f) -> made c (1 + Z.of_nat i) seg f;
  ai_count : nextFrameID a <= 1 + len pkts;
  ai_next : nextFrameID a = 1 + len h + (match currentFrame a with Some _ => 1 | None => 0 end);
  ai_current : match currentFrame a with
               | Some f => ID f = 1 + len h /\ FrameNumber f = 1 + len h /\ NALUnits f = [] /\
                   exists p, head (framePackets a) = Some p /\ PTS f = tp_PTS p /\ DTS f = tp_DTS p /\
                     CaptureTime f = tp_CaptureTime p
               | None => framePackets a = []
               end;
  ai_buffer : nalBuffer a = mjoin (tp_Data <$> framePackets a);
  ai_bytes : Forall (fun p => bytes (tp_Data p)) (framePackets a);
  ai_packets : sublist (mjoin (fst <$> h) ++ framePackets a) pkts;
  ai_books : framesAssembled a = len (frames_of h) /\
    packetsDropped a = len pkts - len (mjoin (fst <$> h) ++ framePackets a);
  ai_missing : framesDropped a <= missing h /\ (cancelled a = false -> framesDropped a = missing h);
  ai_chan : 0 <= buffered (output a) <= chan_cap (output a) /\ 0 < chan_cap (output a);
  ai_open : cancelled a = closed (output a)
}.

(** What a send changes. *)
Definition same_frame (a a' : Assembler D) : Prop :=
  codec a' = codec a /\ currentFrame a' = currentFrame a /\ framePackets a' = framePackets a /\ nalBuffer a' = nalBuffer a /\
  packetsReceived a' = packetsReceived a /\ packetsDropped a' = packetsDropped a /\ nextFrameID a' = nextFrameID a /\
  chan_cap (output a') = chan_cap (output a).

Lemma send_spec f e (a : Assembler D) :
  cancelled a = false -> closed (output a) = false -> 0 <= buffered (output a) <= chan_cap (output a) -> 0 < chan_cap (output a) ->
  returns (sendFrameToOutput f e a) (fun '(a', r) => same_frame a a' /\ cancelled a' = closed (output a') /\
    0 <= buffered (output a') <= chan_cap (output a') /\
    ((r = Val tt /\ sent (output a') = sent (output a) ++ [f] /\ framesAssembled a' = u64 (framesAssembled a + 1) /\
      framesDropped a' = framesDropped a /\ cancelled a' = false) \/
     (r <> Val tt /\ sent (output a') = sent (output a) /\ framesAssembled a' = framesAssembled a /\
      ((cancelled a' = false /\ framesDropped a' = u64 (framesDropped a + 1)) \/
       (cancelled a' = true /\ s_wait e = WaitShutdown /\ framesDropped a' = framesDropped a))))).
Proof.
  intros Hc Ho Hb Hcap. unfold sendFrameToOutput. rewrite Hc, Ho. cbn [orb negb].
  destruct (Z.ltb_spec (buffered (output a)) (chan_cap (output a))); cbn [andb].
  - go. split; [done|]. split; [cbn; congruence|]. split.
    + unfold buffered, push in *. cbn. rewrite len_app. change (len [f]) with 1. lia.
    + left. by split_and!.
  - destruct (s_wait e) as [taken| |] eqn:Hw; go.
    + split; [done|]. split; [cbn; congruence|]. split.
      * unfold buffered, push, take_up_to, take_n in *. cbn -[Nat.min]. rewrite len_app. change (len [f]) with 1.
        unfold buffered in *. lia.
      * left. by split_and!.
    + split; [done|]. split; [cbn; congruence|]. split; [done|]. right. split_and!; [done|done|done|]. by left.
    + split; [done|]. split; [done|]. split; [done|]. right. split_and!; [done|done|done|]. by right.
Qed.

Lemma finish_made c id seg f nals t now :
  ID f = id -> FrameNumber f = id -> parseNALUnits c (mjoin (tp_Data <$> seg)) = Ret nals ->
  (exists p, head seg = Some p /\ PTS f = tp_PTS p /\ DTS f = tp_DTS p /\ CaptureTime f = tp_CaptureTime p) ->
  made c id seg (finish_frame nals t now f).
Proof.
  intros H1 H2 H3 H4. unfold finish_frame, made. cbv zeta.
  destruct (FrameType_IsKeyframe t), (FrameType_IsReference t), (is_zero_time _ && _); by split_and!.
Qed.

Lemma missing_snoc h seg o : missing (h ++ [(seg, o)]) = missing h + (match o with None => 1 | Some _ => 0 end).
Proof.
  unfold missing. rewrite filter_app, len_app. f_equal. rewrite filter_cons. cbn. destruct o; [by rewrite decide_False by done|by rewrite decide_True by done].
Qed.
Lemma missing_le h : 0 <= missing h <= len h.
Proof. unfold missing, len. pose proof (length_filter (fun e : list TimestampedPacket * option VideoFrame => e.2 = None) h). lia. Qed.
Lemma frames_of_snoc h seg o : frames_of (h ++ [(seg, o)]) = frames_of h ++ (match o with Some f => [f] | None => [] end).
Proof. unfold frames_of. rewrite omap_app. by destruct o. Qed.
Lemma frames_of_le h : len (frames_of h) <= len h.
Proof. induction h as [|[seg [f|]] h IH]; [done| |]; unfold frames_of in *; cbn; rewrite ?len_cons; lia. Qed.

Lemma segs_snoc (h : history) seg o : mjoin (fst <$> (h ++ [(seg, o)])) = mjoin (fst <$> h) ++ seg.
Proof. rewrite fmap_app, join_app. cbn. by rewrite app_nil_r. Qed.

(** A complete frame goes into the history. *)
Lemma complete_inv c pkts h e (a : Assembler D) f :
  asm_inv c pkts h a -> currentFrame a = Some f -> cancelled a = false -> len pkts < 2 ^ 62 ->
  returns (completeFrame e a) (fun '(a', r) => currentFrame a' = None /\ packetsReceived a' = packetsReceived a /\
    (cancelled a' = true -> s_wait e = WaitShutdown) /\ exists o, asm_inv c pkts (h ++ [(framePackets a, o)]) a').
Proof.
  intros [Hcodec Hsent Hmade Hcount Hnext Hcur Hbuf Hbytes Hpk Hbooks Hmiss Hchan Hopen] Hf Hc Hlen.
  unfold completeFrame. rewrite Hf in *. destruct Hcur as (Hid & Hnum & _ & Hhead).
  assert (bytes (nalBuffer a)) as Hnal.
  { rewrite Hbuf. clear - Hbytes. induction Hbytes as [|p l Hp _ IH]; [constructor|]. cbn. by apply bytes_app. }
  destruct (parseNALUnits_total (codec a) (nalBuffer a) Hnal) as (nals & En & Hn). rewrite En, bind_Ret.
  eapply returns_bind; [by apply type_total|]. intros t _. set (f' := finish_frame nals t (s_now e) f).
  assert (made c (1 + len h) (framePackets a) f') as Hm by (apply finish_made; [done|done|by rewrite <- Hbuf, <- Hcodec|done]).
  clearbody f'. destruct Hchan as [Hb Hcap]. eapply returns_bind; [apply send_spec; [done|congruence|done|done]|].
  intros [a1 r] ((S1 & S2 & S3 & S4 & S5 & S6 & S7 & S8) & Hopen1 & Hb1 & Hcase). go. split; [done|]. split; [exact S5|]. split.
  { intros Hc1. cbn in Hc1. destruct Hcase as [(_ & _ & _ & _ & E)|(_ & _ & _ & [[E _]|(_ & E & _)])]; congruence. }
  pose proof (missing_le h). pose proof (frames_of_le h). pose proof (len_nonneg (frames_of h)).
  destruct Hbooks as (B2 & B3).
  assert (forall o, framesAssembled a1 = len (frames_of (h ++ [(framePackets a, o)])) ->
    sent (output a1) = frames_of (h ++ [(framePackets a, o)]) -> (o = Some f' \/ o = None) ->
    framesDropped a1 <= missing (h ++ [(framePackets a, o)]) /\
      (cancelled a1 = false -> framesDropped a1 = missing (h ++ [(framePackets a, o)])) ->
    asm_inv c pkts (h ++ [(framePackets a, o)]) (clear_frame a1)) as Hnew.
  { intros o Ha Hs Ho Hm'. split; cbn; try done.
    - congruence.
    - intros i seg g Hi. apply lookup_snoc_Some in Hi as [[Hlt Hi]|[-> [= <- Eo]]]; [by eapply Hmade|].
      destruct Ho as [Ho|Ho]; rewrite <- Eo in Ho || rewrite Eo in Ho; [|done]. injection Ho as ->. exact Hm.
    - lia.
    - rewrite len_app. change (len [_]) with 1. lia.
    - rewrite segs_snoc, app_nil_r. exact Hpk.
    - rewrite segs_snoc, app_nil_r. split; [done|congruence].
    - rewrite S8. lia. }
  destruct Hcase as [(-> & E1 & E2 & E3 & E4)|(_ & E1 & E2 & Hd)].
  - exists (Some f'). apply Hnew; [| |by left|].
    + rewrite frames_of_snoc, len_app. change (len [f']) with 1. rewrite E2, u64_id by (pow_consts; lia). lia.
    + by rewrite frames_of_snoc, E1, Hsent.
    + rewrite missing_snoc, E3. destruct Hmiss as [Hm1 Hm2]. specialize (Hm2 Hc). lia.
  - exists None. apply Hnew; [| |by right|].
    + rewrite frames_of_snoc, app_nil_r. congruence.
    + by rewrite frames_of_snoc, app_nil_r, E1.
    + rewrite missing_snoc. destruct Hmiss as [_ Hm2]. specialize (Hm2 Hc).
      destruct Hd as [[E4 E3]|(E4 & _ & E3)]; rewrite E3, E4.
      * rewrite u64_id by (pow_consts; lia). lia.
      * split; [lia|done].
Qed.

Lemma end_packet_inv c pkts h isEnd e (a : Assembler D) :
  asm_inv c pkts h a -> cancelled a = false -> len pkts < 2 ^ 62 ->
  returns (end_packet isEnd e a) (fun '(a', r) => packetsReceived a' = packetsReceived a /\ exists h', asm_inv c pkts h' a').
Proof.
  intros Hi Hc Hl. unfold end_packet. destruct (currentFrame a) as [f|] eqn:Hf; [|go; by eauto]. destruct isEnd.
  - eapply returns_weaken; [by eapply complete_inv|]. intros [a' r] (_ & ? & _ & o & ?). eauto.
  - go; [|go; by eauto]. set (a1 := a <| currentFrame := Some (SetFlag FrameFlagCorrupted f) |>).
    assert (asm_inv c pkts h a1) as Hi1.
    { destruct Hi as [I1 I2 I3 I4 I5 I6 I7 I8 I9 I10 I11 I12 I13]. split; try done; cbn; rewrite Hf in *; done. }
    eapply returns_bind; [by eapply complete_inv|]. intros [a' r] (_ & ? & _ & o & ?). go. by eauto.
Qed.

Lemma start_frame_inv c pkts h pkt (a : Assembler D) :
  asm_inv c pkts h a -> currentFrame a = None -> bytes (tp_Data pkt) -> len pkts < 2 ^ 62 ->
  asm_inv c (pkts ++ [pkt]) h (start_frame pkt a).
Proof.
  intros [I1 I2 I3 I4 I5 I6 I7 I8 I9 I10 I11 I12 I13] Hf Hb Hl. rewrite Hf in *. pose proof (len_nonneg h).
  assert (u64 (nextFrameID a + 1) = nextFrameID a + 1) as E by (apply u64_id; pow_consts; lia). split; cbn; try done.
  - rewrite E, len_app. change (len [pkt]) with 1. lia.
  - rewrite E. lia.
  - unfold new_frame. destruct (tp_IsKeyframe pkt); cbn; (split; [lia|]; split; [lia|]; split; [done|]; by exists pkt).
  - by rewrite app_nil_r.
  - by constructor.
  - apply sublist_app; [|done]. rewrite I6, app_nil_r in I9. exact I9.
  - destruct I10 as [B1 B2]. split; [done|]. rewrite I6 in B2. rewrite !len_app in *. change (len [pkt]) with 1.
    change (len []) with 0 in B2. lia.
Qed.

Lemma extend_frame_inv c pkts h pkt f (a : Assembler D) :
  asm_inv c pkts h a -> currentFrame a = Some f -> bytes (tp_Data pkt) ->
  asm_inv c (pkts ++ [pkt]) h (extend_frame pkt f a).
Proof.
  intros [I1 I2 I3 I4 I5 I6 I7 I8 I9 I10 I11 I12 I13] Hf Hb. rewrite Hf in *. destruct I6 as (F1 & F2 & F3 & p & F4 & F5).
  split; cbn; try done.
  - rewrite len_app. change (len [pkt]) with 1. lia.
  - destruct (framePackets a) as [|q l]; [done|]. cbn in *. injection F4 as ->. case_bool; cbn; by split_and!; try (exists p).
  - rewrite I7, fmap_app, join_app. cbn. by rewrite app_nil_r.
  - apply Forall_app. split; [done|by constructor].
  - rewrite app_assoc. by apply sublist_app.
  - destruct I10 as [B1 B2]. split; [done|]. rewrite !len_app in *. change (len [pkt]) with 1. lia.
Qed.

Lemma add_packet_inv c pkts h pkt e (a : Assembler D) :
  asm_inv c pkts h a -> bytes (tp_Data pkt) -> quiet e -> len pkts + 1 < 2 ^ 62 -> packetsReceived a = len pkts ->
  returns (AddPacket pkt e a) (fun '(a', r) => exists h', if cancelled a then a' = a else
    packetsReceived a' = len (pkts ++ [pkt]) /\ asm_inv c (pkts ++ [pkt]) h' a').
Proof.
  intros Hi Hb [He1 He2] Hl Hr. unfold AddPacket. destruct (cancelled a) eqn:Hc; [go; by exists h|]. rewrite He1. cbv zeta.
  eapply returns_bind; [by apply detect_total|]. intros [d [isStart isEnd]] _. pose proof (len_nonneg pkts).
  set (a1 := upd frameDetector d _).
  assert (asm_inv c pkts h a1) as Hi1 by (by destruct Hi).
  assert (packetsReceived a1 = len (pkts ++ [pkt])) as Hr1
    by (cbn; rewrite Hr, u64_id by (pow_consts; lia); by rewrite len_app).
  assert (cancelled a1 = false) as Hc1 by done.
  assert (len (pkts ++ [pkt]) < 2 ^ 62) as Hl1 by (rewrite len_app; change (len [pkt]) with 1; lia).
  clearbody a1. clear Hi Hc Hr. destruct isStart.
  - assert (returns (completeFrame (e_first e) a1) (fun '(a2, _) => currentFrame a2 = None /\
      packetsReceived a2 = len (pkts ++ [pkt]) /\ cancelled a2 = false /\ exists h', asm_inv c pkts h' a2)) as Hcomp.
    { destruct (currentFrame a1) as [f|] eqn:Hf.
      - eapply returns_weaken; [eapply complete_inv; try done; lia|]. intros [a2 r] (E1 & E2 & E3 & o & Hi2).
        split; [done|]. split; [congruence|]. split; [|by eauto]. apply not_true_iff_false. intros Ht. by apply He2, E3.
      - unfold completeFrame. rewrite Hf. go. eauto. }
    eapply returns_bind; [exact Hcomp|]. intros [a2 r] (Hf & Hr2 & Hc2 & h2 & Hi2).
    eapply returns_weaken; [apply (end_packet_inv c (pkts ++ [pkt]) h2); [apply start_frame_inv; try done; lia|done|done]|].
    intros [a3 r3] (E & h3 & Hi3). exists h3. split; [|done]. rewrite E. exact Hr2.
  - destruct (currentFrame a1) as [f|] eqn:Hf.
    + eapply returns_weaken; [apply (end_packet_inv c (pkts ++ [pkt]) h); [by apply extend_frame_inv|done|done]|].
      intros [a3 r3] (E & h3 & Hi3). exists h3. split; [|done]. rewrite E. exact Hr1.
    + go. exists h. split; [exact Hr1|]. destruct Hi1 as [I1 I2 I3 I4 I5 I6 I7 I8 I9 I10 I11 I12 I13].
      rewrite Hf in *. destruct I10 as [B1 B2].
      pose proof (len_nonneg (mjoin (fst <$> h) ++ framePackets a1)). pose proof (sublist_length _ _ I9) as Hsub.
      assert (len (mjoin (fst <$> h) ++ framePackets a1) <= len pkts) as Hle by (unfold len; lia).
      assert (u64 (packetsDropped a1 + 1) = packetsDropped a1 + 1) as E by (apply u64_id; pow_consts; lia).
      split; cbn; rewrite ?Hf; try done.
      * rewrite len_app. change (len [pkt]) with 1. lia.
      * by apply sublist_inserts_r.
      * split; [done|]. rewrite E, len_app. change (len [pkt]) with 1. lia.
Qed.

Lemma receive_inv c pkts h (a : Assembler D) : asm_inv c pkts h a -> asm_inv c pkts h (receive a).
Proof.
  intros [I1 I2 I3 I4 I5 I6 I7 I8 I9 I10 I11 [I12 I12'] I13]. unfold receive. destruct (Z.ltb_spec 0 (buffered (output a))); [|by split].
  split; try done. unfold buffered, take_n in *. cbn. lia.
Qed.

Lemma run_inv c l pkts h (a : Assembler D) :
  asm_inv c pkts h a -> no_race l -> len (pkts ++ packets l) < 2 ^ 62 -> packetsReceived a = len pkts ->
  returns (run l a) (fun a' => exists pkts' h', prefix pkts' (pkts ++ packets l) /\ asm_inv c pkts' h' a' /\
    packetsReceived a' = len pkts' /\ (cancelled a' = false -> pkts' = pkts ++ packets l) /\
    (cancelled a = true -> cancelled a' = true /\ pkts' = pkts)).
Proof.
  intros Hi Hq. revert pkts h a Hi. induction Hq as [|ev l Hev Hq IH]; intros pkts h a Hi Hl Hr; cbn [run].
  { go. exists pkts, h. rewrite app_nil_r. split_and!; try done. }
  destruct ev as [pkt e| |t]; cbn [handle].
  - destruct Hev as [Hb He]. change (packets (Packet pkt e :: l)) with (pkt :: packets l) in *.
    pose proof (len_nonneg (packets l)). rewrite len_app, len_cons in Hl.
    eapply (returns_bind _ _ (fun a' => exists h', if cancelled a then a' = a else
      packetsReceived a' = len (pkts ++ [pkt]) /\ asm_inv c (pkts ++ [pkt]) h' a')).
    { eapply returns_bind; [eapply (add_packet_inv c pkts h); try done; lia|]. intros [a' r] Ha. by go. }
    intros a' [h' Ha']. destruct (cancelled a) eqn:Hc.
    + subst a'. eapply returns_weaken; [apply (IH pkts h a Hi); [rewrite len_app; lia|done]|].
      intros a2 (p2 & h2 & P1 & P2 & P3 & P4 & P5). exists p2, h2. destruct (P5 Hc) as [P5' ->].
      split_and!; try done; [by apply prefix_app_r|congruence].
    + destruct Ha' as [Hr' Hi']. eapply returns_weaken; [apply (IH (pkts ++ [pkt]) h' a' Hi'); [|done]|].
      { rewrite <- app_assoc, len_app. cbn. rewrite len_cons. lia. }
      intros a2 (p2 & h2 & P1 & P2 & P3 & P4 & P5). rewrite <- app_assoc in P1, P4. exists p2, h2. by split_and!.
  - rewrite bind_Ret. eapply returns_weaken; [apply (IH pkts h (receive a)); [by apply receive_inv|done|]|].
    { unfold receive. by case_bool. }
    intros a2 (p2 & h2 & P1 & P2 & P3 & P4 & P5). exists p2, h2. split_and!; try done. intros Hc. apply P5. unfold receive. by case_bool.
  - rewrite bind_Ret. eapply returns_weaken; [apply (IH pkts h (SetFrameTimeout t a)); [by destruct Hi|done|done]|].
    intros a2 (p2 & h2 & P1 & P2 & P3 & P4 & P5). by exists p2, h2.
Qed.
End run.

(** C35: whatever the detector, the packets, the consumer and the clock, as long
    as Stop does not run in the middle of AddPacket, every call returns, and the
    frames sent are, in order, made each from consecutive accepted packets:
    the packets of all frames so far and of the current one are the packets
    given, in order, less those counted as dropped.  A frame carries the number
    of its place, the times of its first packet and the NAL units of its bytes -
    exactly the units of the stream, if these bytes are a byte stream.  Frames
    sent, frames dropped and packets are counted exactly, and the channel never
    holds more than its capacity. *)
Theorem assembled_frames {D} `{TotalDetector D} (id : string) (c : CodecType) (cap : Z) (d : D) (l : list event) :
  no_race l -> len (packets l) < 2 ^ 62 ->
  exists a h, run l (assembler_with id c cap d) = Ret a /\ sent (output a) = frames_of h /\
    (forall i seg f, h !! i = Some (seg, Some f) -> made c (1 + Z.of_nat i) seg f) /\
    (forall i seg f us, c = CodecH264 \/ c = CodecHEVC -> h !! i = Some (seg, Some f) ->
       mjoin (tp_Data <$> seg) = annexb us -> us <> [] -> Forall sized us -> len us < Validation.MaxNALUnitsPerFrame ->
       NALUnits f = nal_of c <$> (snd <$> us)) /\
    sublist (mjoin (fst <$> h) ++ framePackets a) (packets l) /\
    0 <= buffered (output a) <= chan_cap (output a) /\
    (cancelled a = false ->
       packetsReceived a = len (packets l) /\
       packetsDropped a = len (packets l) - len (mjoin (fst <$> h) ++ framePackets a) /\
       framesAssembled a = len (sent (output a)) /\ framesAssembled a + framesDropped a = len h).
Proof.
  intros Hq Hl. assert (asm_inv c [] [] (assembler_with id c cap d)) as Hi.
  { split; try done; cbn; unfold buffered; cbn; case_bool; change (len []) with 0; lia. }
  destruct (run_inv c l [] [] _ Hi Hq Hl eq_refl) as (a & E & pkts & h & Hp & Hinv & Hr & Hc & _). cbn [app] in *.
  destruct Hinv as [I1 I2 I3 I4 I5 I6 I7 I8 I9 [B1 B2] [I11 I11'] [I12 _] I13]. exists a, h.
  split; [done|]. split; [done|]. split; [done|]. split.
  { intros i seg f us Hcodec Hs Ha Hne Hz Hn. destruct (I3 i seg f Hs) as (_ & _ & Hu & _).
    rewrite Ha, parse_annexb in Hu by done. by injection Hu as <-. }
  split; [destruct Hp as [k ->]; etrans; [exact I9|by apply sublist_inserts_r]|]. split; [done|].
  intros Hca. rewrite (Hc Hca) in *. rewrite I2. split_and!; try done. rewrite (I11' Hca), B1.
  clear. induction h as [|[seg [f|]] h IH]; [done| |]; unfold frames_of, missing in *; rewrite filter_cons; cbn;
    [rewrite decide_False by done|rewrite decide_True by done]; rewrite ?len_cons in *; lia.
Qed.

(** A consumer that keeps up, at time [t]. *)
Definition calm (t : Z) : packet_env :=
  mkPacketEnv false (mkSendEnv t true WaitExpired) (mkSendEnv t true WaitExpired) t.

Lemma assembled_frames_witness :
  let data := annexb [(true, [0x67; 0x42; 0xC0]); (true, [0x68; 0xCE]); (false, [0x65; 0x88; 0x84])] in
  exists a f, run [Packet (packet_of data 5 900 900 0) (calm 6); Receive] (NewAssembler "s" CodecH264 4) = Ret a /\
    sent (output a) = [f] /\ NALUnits f = nal_of CodecH264 <$> [[0x67; 0x42; 0xC0]; [0x68; 0xCE]; [0x65; 0x88; 0x84]] /\
    buffered (output a) = 0.
Proof.
  intros data.
  assert (no_race [Packet (packet_of data 5 900 900 0) (calm 6); Receive]) as Hq.
  { constructor; [|by repeat constructor]. split; [|done]. change (Forall (fun b => 0 <= b < 256) data). subst data. decide_goal. }
  destruct (assembled_frames "s" CodecH264 4 (default (AnyGeneric (mkGenericD CodecH264)) (CreateDetector CodecH264)) _ Hq)
    as (a & h & E & Hs & _ & Hu & _); [by vm_compute|].
  assert (match run [Packet (packet_of data 5 900 900 0) (calm 6); Receive] (NewAssembler "s" CodecH264 4) with
    | Ret a => exists f, sent (output a) = [f] /\ NALUnits f = nal_of CodecH264 <$> [[0x67; 0x42; 0xC0]; [0x68; 0xCE]; [0x65; 0x88; 0x84]] /\
        buffered (output a) = 0
    | _ => False end) as Hc by (vm_compute; eexists; split_and!; reflexivity).
  change (assembler_with _ _ _ _) with (NewAssembler "s" CodecH264 4) in E. rewrite E in Hc.
  destruct Hc as (f & H1 & H2 & H3). exists a, f. split_and!; [exact E|exact H1|exact H2|exact H3].
Defined.

(** An access unit delimiter behind a slice is reported as the start and the
    end of a frame: it is sent alone, as a P frame, before the slice it
    announces. *)
Example delimiter_is_a_frame :
  match run ((fun d => Packet (packet_of d 0 0 0 0) (calm 0)) <$> [[0x67; 0x42]; [0x41; 0x9A]; [0x09; 0xF0]; [0x41; 0x9B]])
          (NewAssembler "s" CodecH264 4) with
  | Ret a => (fun f => (ID f, nal_Data <$> NALUnits f, FType f)) <$> sent (output a)
  | _ => []
  end = [(1, [[0x67; 0x42]], FrameTypeSPS); (2, [[0x41; 0x9A]], FrameTypeP); (3, [[0x09; 0xF0]], FrameTypeP)].
Proof. vm_compute. reflexivity. Qed.

(** Stop between the check of the context and the send: the send on the closed
    channel panics when [select] picks it. *)
Example stop_race :
  AddPacket (packet_of [0x41; 0x9A] 0 0 0 (Z.lor PacketFlagFrameStart PacketFlagFrameEnd))
    (mkPacketEnv true (mkSendEnv 0 true WaitExpired) (mkSendEnv 0 true WaitExpired) 0)
    (NewAssembler "s" CodecVP8 4) = Panic.
Proof. vm_compute. reflexivity. Qed.
