(* ===== verification/TsParser.v ===== *)
(** * MPEG transport stream parser (mpegts/parser.go)

    Packets of 188 bytes; program tables select the video and audio PIDs; PES
    headers carry timestamps; parameter sets are found in descriptors and in the
    video bitstream.  The extractor is a callback of the caller: its calls are
    the list of what it was given.  The packet, boundary and timestamp validators
    have no state that changes and are used as constructed. *)

From stdpp Require Import strings.
From S2P Require Import Prelude Returns Validation Continuity Pes.

Definition PacketSize : Z := 188.
Definition SyncByte : Z := 0x47.
Definition MaxPID : Z := 8191.
Definition PIDProgramAssociation : Z := 0x0000.
Definition PIDNull : Z := 0x1FFF.
Definition MaxHEVCParamArrays : Z := 16.

Record Packet := mkPacket {
  PID : Z;
  PayloadStart : bool;
  AdaptationFieldExists : bool;
  PayloadExists : bool;
  ContinuityCounter : Z;
  DiscontinuityIndicator : bool;
  Payload : list Z;
  HasPTS : bool;
  HasDTS : bool;
  PTS : Z;
  DTS : Z;
  HasPCR : bool;
  PCR : Z
}.
#[export] Instance eta_packet : Eta Packet := fun p =>
  mkPacket (PID p) (PayloadStart p) (AdaptationFieldExists p) (PayloadExists p) (ContinuityCounter p)
    (DiscontinuityIndicator p) (Payload p) (HasPTS p) (HasDTS p) (PTS p) (DTS p) (HasPCR p) (PCR p).

Record Parser := mkParser {
  pmtPID : Z;
  videoPID : Z;
  audioPID : Z;
  pcrPID : Z;
  pesBuffer : gmap Z (list Z);
  pesStarted : gmap Z bool;
  patParsed : bool;
  pmtParsed : bool;
  programNum : Z;
  videoStreamType : Z;
  audioStreamType : Z;
  continuityErrors : Z;
  ptsValidator : PTSDTSValidator;
  continuityValidator : ContinuityValidator;
  pesValidator : PESValidator
}.
#[export] Instance eta_parser : Eta Parser := fun p =>
  mkParser (pmtPID p) (videoPID p) (audioPID p) (pcrPID p) (pesBuffer p) (pesStarted p) (patParsed p)
    (pmtParsed p) (programNum p) (videoStreamType p) (audioStreamType p) (continuityErrors p)
    (ptsValidator p) (continuityValidator p) (pesValidator p).

Definition NewParser : Parser :=
  mkParser 0 0 0 0 ∅ ∅ false false 0 0 0 0 (NewPTSDTSValidator "mpegts-parser") NewContinuityValidator
    (NewPESValidator 5000000000).

Inductive ts_error : Type :=
| DataTooSmall | PacketInvalid (e : packet_error) | InvalidPID (pid : Z) | TransportError | ReservedControl.

(** [uint16(hi)<<8 | uint16(lo)] *)
Definition be16 (hi lo : Z) : Z := Z.lor (u16 (Z.shiftl hi 8)) lo.

(** ** One packet *)

Definition parse_pcr (data : list Z) (offset : Z) : res Z :=
  a ← idx data (offset + 1); b ← idx data (offset + 2); c ← idx data (offset + 3);
  d ← idx data (offset + 4); e ← idx data (offset + 5); f ← idx data (offset + 6);
  let base := Z.lor (Z.lor (Z.lor (Z.lor (Z.shiftl a 25) (Z.shiftl b 17)) (Z.shiftl c 9)) (Z.shiftl d 1))
                (Z.shiftr e 7) in
  let ext := Z.lor (Z.shiftl (Z.land e 1) 8) f in
  Ret (i64 (i64 (base * 300) + ext)).

(** The adaptation field: the packet and the offset behind it. *)
Definition parse_adaptation (data : list Z) (pkt : Packet) : res (Packet * Z) :=
  if AdaptationFieldExists pkt then
    n ← idx data 4;
    let offset := 5 in
    if 0 <? n then
      flags ← idx data offset;
      let pkt := pkt <| DiscontinuityIndicator := negb (Z.land flags 0x80 =? 0) |> in
      pkt ← (if negb (Z.land flags 0x10 =? 0) && (7 <=? n) && (offset + 7 <=? len data)
             then pcr ← parse_pcr data offset; Ret (pkt <| PCR := pcr |> <| HasPCR := true |>)
             else Ret pkt);
      Ret (pkt, offset + n)
    else Ret (pkt, offset)
  else Ret (pkt, 4).

Definition check_continuity (pkt : Packet) (p : Parser) : Parser :=
  if negb (PID pkt =? PIDNull) then
    let '(cv, r) := ValidateContinuity (PID pkt) (ContinuityCounter pkt) (PayloadExists pkt)
                      (AdaptationFieldExists pkt) (continuityValidator p) in
    let p := p <| continuityValidator := cv |> in
    match r with
    | Err _ => p <| continuityErrors := u64 (continuityErrors p + 1) |>
    | Val _ => p
    end
  else p.

Definition parsePacket (data : list Z) (p : Parser) : res (Parser * exn ts_error Packet) :=
  valid ← ValidateMPEGTSPacket data NewPacketValidator;
  match valid with
  | Err e => Ret (p, Err (PacketInvalid e))
  | Val _ =>
      b1 ← idx data 1; b2 ← idx data 2;
      let pid := be16 (Z.land b1 0x1F) b2 in
      if MaxPID <? pid then Ret (p, Err (InvalidPID pid))
      else if negb (Z.land b1 0x80 =? 0) then Ret (p, Err TransportError)
      else
        b3 ← idx data 3;
        let control := Z.land (Z.shiftr b3 4) 3 in
        if control =? 0 then Ret (p, Err ReservedControl)
        else
          let pkt := mkPacket pid (negb (Z.land b1 0x40 =? 0)) (negb (Z.land control 2 =? 0))
                       (negb (Z.land control 1 =? 0)) (Z.land b3 0x0F) false [] false false 0 0 false 0 in
          let p := check_continuity pkt p in
          '(pkt, offset) ← parse_adaptation data pkt;
          pkt ← (if PayloadExists pkt && (offset <? PacketSize)
                 then l ← slice data offset (len data); Ret (pkt <| Payload := l |>)
                 else Ret pkt);
          Ret (p, Val pkt)
  end.

(** ** PES headers *)

Inductive pes_header_error : Type :=
| PESTooShort | BadStartCode | TooShortForPTS | TooShortForDTS
| BadPrefix (b : Z) | BadMarker (i : Z) | BadBounds (e : bound_error) | BadTimestamp (e : stamp_error).

Definition extractTimestamp (data : list Z) : res (exn pes_header_error Z) :=
  match ValidateBufferAccess data 0 5 with
  | Err e => Ret (Err (BadBounds e))
  | Val _ =>
      a ← idx data 0; b ← idx data 1; c ← idx data 2; d ← idx data 3; e ← idx data 4;
      let prefix := Z.land a 0xF1 in
      if negb (prefix =? 0x21) && negb (prefix =? 0x31) && negb (prefix =? 0x11) then Ret (Err (BadPrefix a))
      else if negb (Z.land c 1 =? 1) then Ret (Err (BadMarker 2))
      else if negb (Z.land e 1 =? 1) then Ret (Err (BadMarker 4))
      else
        let t := Z.lor (Z.lor (Z.lor (Z.lor (Z.shiftl (Z.land a 0x0E) 29) (Z.shiftl b 22))
                   (Z.shiftl (Z.land c 0xFE) 14)) (Z.shiftl d 7)) (Z.shiftr e 1) in
        match ValidatePTS t NewTimestampValidator with
        | Err e => Ret (Err (BadTimestamp e))
        | Val _ => Ret (Val t)
        end
  end.

(** PTS and DTS of a header whose first nine bytes are there. *)
Definition parse_stamps (pkt : Packet) (p : Parser) : res (Parser * Packet * exn pes_header_error unit) :=
  b7 ← idx (Payload pkt) 7;
  let flags := Z.land (Z.shiftr b7 6) 3 in
  if Z.land flags 2 =? 0 then Ret (p, pkt, Val tt)
  else if len (Payload pkt) <? 14 then Ret (p, pkt, Err TooShortForPTS)
  else
    l ← slice (Payload pkt) 9 (len (Payload pkt));
    pts ← extractTimestamp l;
    match pts with
    | Err e => Ret (p, pkt, Err e)
    | Val pts =>
        let pkt := pkt <| PTS := pts |> <| HasPTS := true |> in
        '(pkt, r) ←
          (if negb (Z.land flags 1 =? 0) then
             if len (Payload pkt) <? 19 then Ret (pkt, Err TooShortForDTS)
             else
               l ← slice (Payload pkt) 14 (len (Payload pkt));
               dts ← extractTimestamp l;
               match dts with
               | Err e => Ret (pkt, Err e)
               | Val dts => Ret (pkt <| DTS := dts |> <| HasDTS := true |>, Val tt)
               end
           else Ret (pkt <| DTS := pts |>, Val tt));
        match r with
        | Err e => Ret (p, pkt, Err e)
        | Val _ =>
            let '(v, result) := ValidateTimestamps (PTS pkt) (DTS pkt) (ptsValidator p) in
            let p := p <| ptsValidator := v |> in
            match vr_Error result with
            | Some e => Ret (p, pkt, Err (BadTimestamp e))
            | None =>
                match ValidatePTSDTSOrder (PTS pkt) (DTS pkt) NewTimestampValidator with
                | Err e => Ret (p, pkt, Err (BadTimestamp e))
                | Val _ => Ret (p, pkt, Val tt)
                end
            end
        end
    end.

Definition has_stamps (streamID : Z) : bool :=
  negb (streamID =? 0xBC) && negb (streamID =? 0xBE) && negb (streamID =? 0xBF) &&
  negb (streamID =? 0xF0) && negb (streamID =? 0xF1) && negb (streamID =? 0xFF).

Definition parsePESHeader (now1 now2 : Z) (pkt : Packet) (p : Parser)
    : res (Parser * Packet * exn pes_header_error unit) :=
  if len (Payload pkt) <? 9 then Ret (p, pkt, Err PESTooShort)
  else
    p ← (if PayloadStart pkt then
           '(v, _) ← ValidatePESStart (PID pkt) now1 now2 (Payload pkt) (pesValidator p);
           Ret (p <| pesValidator := v |> <| pesStarted := <[PID pkt := true]> (pesStarted p) |>)
         else Ret p);
    b0 ← idx (Payload pkt) 0; b1 ← idx (Payload pkt) 1; b2 ← idx (Payload pkt) 2;
    if negb (b0 =? 0) || negb (b1 =? 0) || negb (b2 =? 1) then Ret (p, pkt, Err BadStartCode)
    else
      streamID ← idx (Payload pkt) 3;
      if has_stamps streamID then parse_stamps pkt p else Ret (p, pkt, Val tt).

(** ** Program tables *)

(** The loop over the programs from offset [i]. *)
Fixpoint pat_loop (fuel : nat) (i end_ : Z) (data : list Z) (p : Parser) : res Parser :=
  match fuel with
  | O => NoFuel
  | S fuel =>
      if (i <? end_) && (i + 3 <? len data) then
        a ← idx data i; b ← idx data (i + 1); c ← idx data (i + 2); d ← idx data (i + 3);
        let num := be16 a b in
        if negb (num =? 0)
        then Ret (p <| programNum := num |> <| pmtPID := be16 (Z.land c 0x1F) d |> <| patParsed := true |>)
        else pat_loop fuel (i + 4) end_ data p
      else Ret p
  end.

Definition access_ok {A} (l : list A) (offset n : Z) : bool :=
  match ValidateBufferAccess l offset n with Val _ => true | Err _ => false end.

Definition parsePAT (payload : list Z) (p : Parser) : res Parser :=
  if patParsed p || (len payload <? 8) then Ret p
  else if negb (access_ok payload 0 1) then Ret p
  else
    b0 ← idx payload 0;
    if negb (access_ok payload 0 (b0 + 1)) then Ret p
    else
      let offset := b0 + 1 in
      if negb (access_ok payload offset 8) then Ret p
      else
        data ← slice payload offset (len payload);
        tableID ← idx data 0;
        if negb (tableID =? 0) then Ret p
        else
          hi ← idx data 1; lo ← idx data 2;
          let sectionLength := be16 (Z.land hi 0x0F) lo in
          if (sectionLength <? 5) || (len data <? sectionLength + 3) then Ret p
          else pat_loop (S (length data)) 8 (3 + sectionLength - 4) data p.

(** What the extractor is called with: parameter sets and stream type. *)
Definition call : Type := list (list Z) * Z.

(** ** Parameter sets in descriptors *)

Definition extractAV1ParameterSetsFromDescriptor (data : list Z) : list (list Z) := [].

Definition with_start_code (nal : list Z) : list Z := [0; 0; 0; 1] ++ nal.

Definition looksLikeAVCDescriptor (data : list Z) : res bool :=
  if len data <? 6 then Ret false
  else
    profile ← idx data 0;
    if profile =? 0 then Ret false
    else b ← idx data 4; Ret (Z.land b 0xE0 =? 0xE0).

(** At most [n] sets of at most [limit] bytes from [offset] on; a set that is
    too long ends the loop. *)
Fixpoint sets_loop (n : nat) (limit offset : Z) (data : list Z) (acc : list (list Z))
    : res (Z * list (list Z)) :=
  match n with
  | O => Ret (offset, acc)
  | S n =>
      if offset + 2 <=? len data then
        hi ← idx data offset; lo ← idx data (offset + 1);
        let n_bytes := Z.lor (Z.shiftl hi 8) lo in
        if n_bytes =? 0 then sets_loop n limit (offset + 2) data acc
        else if (limit <? n_bytes) || (len data - offset - 2 <? n_bytes) then Ret (offset, acc)
        else
          let offset := offset + 2 in
          if offset + n_bytes <=? len data then
            nal ← slice data offset (offset + n_bytes);
            sets_loop n limit (offset + n_bytes) data (acc ++ [with_start_code nal])
          else sets_loop n limit offset data acc
      else Ret (offset, acc)
  end.

Definition extractH264ParameterSetsFromDescriptor (data : list Z) : res (list (list Z)) :=
  if len data <? 6 then Ret []
  else if 1024 <? len data then Ret []
  else
    looks ← looksLikeAVCDescriptor data;
    if negb looks then Ret []
    else
      numSPS ← idx data 4;
      '(offset, sets) ← sets_loop (Z.to_nat (Z.land numSPS 0x1F)) 512 5 data [];
      if len data <=? offset then Ret sets
      else
        numPPS ← idx data offset;
        '(_, sets) ← sets_loop (Z.to_nat (if 8 <? numPPS then 8 else numPPS)) 256 (offset + 1) data sets;
        Ret sets.

(** The NAL units of one array; [true]: the total limit was reached. *)
Fixpoint nals_loop (n : nat) (offset total : Z) (data : list Z) (acc : list (list Z))
    : res (bool * Z * Z * list (list Z)) :=
  match n with
  | O => Ret (false, offset, total, acc)
  | S n =>
      if offset + 2 <=? len data then
        if MaxNALUnitsPerFrame <=? total then Ret (true, offset, total, acc)
        else
          hi ← idx data offset; lo ← idx data (offset + 1);
          let n_bytes := Z.lor (Z.shiftl hi 8) lo in
          let offset := offset + 2 in
          if offset + n_bytes <=? len data then
            nal ← slice data offset (offset + n_bytes);
            nals_loop n (offset + n_bytes) (total + 1) data (acc ++ [with_start_code nal])
          else nals_loop n offset total data acc
      else Ret (false, offset, total, acc)
  end.
Fixpoint arrays_loop (n : nat) (offset total : Z) (data : list Z) (acc : list (list Z)) : res (list (list Z)) :=
  match n with
  | O => Ret acc
  | S n =>
      if offset + 3 <=? len data then
        _ ← idx data offset;
        hi ← idx data (offset + 1); lo ← idx data (offset + 2);
        '(full, offset, total, acc) ←
          nals_loop (Z.to_nat (Z.lor (Z.shiftl hi 8) lo)) (offset + 3) total data acc;
        if full : bool then Ret acc else arrays_loop n offset total data acc
      else Ret acc
  end.
Definition extractHEVCParameterSetsFromDescriptor (data : list Z) : res (list (list Z)) :=
  if len data <? 22 then Ret []
  else if len data <=? 22 then Ret []
  else
    n ← idx data 22;
    arrays_loop (Z.to_nat (if MaxHEVCParamArrays <? n then MaxHEVCParamArrays else n)) 23 0 data [].

Fixpoint descriptors_loop (fuel : nat) (offset streamType : Z) (descriptors : list Z) (acc : list (list Z))
    : res (list (list Z)) :=
  match fuel with
  | O => NoFuel
  | S fuel =>
      if offset <? len descriptors then
        if len descriptors <? offset + 2 then Ret acc
        else
          tag ← idx descriptors offset; n ← idx descriptors (offset + 1);
          if len descriptors <? offset + 2 + n then Ret acc
          else
            data ← slice descriptors (offset + 2) (offset + 2 + n);
            sets ← (if (tag =? 0x28) && ((streamType =? 0x1B) || (streamType =? 0))
                    then extractH264ParameterSetsFromDescriptor data
                    else if (tag =? 0x38) && (streamType =? 0x24)
                    then extractHEVCParameterSetsFromDescriptor data
                    else if (tag =? 0x42) && (streamType =? 0x51)
                    then Ret (extractAV1ParameterSetsFromDescriptor data)
                    else Ret []);
            descriptors_loop fuel (offset + (2 + n)) streamType descriptors (acc ++ sets)
      else Ret acc
  end.
Definition extractParameterSetsFromDescriptors (descriptors : list Z) (streamType : Z) : res (list call) :=
  sets ← descriptors_loop (S (length descriptors)) 0 streamType descriptors [];
  Ret (if 0 <? len sets then [(sets, streamType)] else []).

(** ** Program map table *)

Definition is_video (t : Z) : bool :=
  (t =? 0x01) || (t =? 0x02) || (t =? 0x1B) || (t =? 0x24) || (t =? 0x51).
Definition is_audio (t : Z) : bool :=
  (t =? 0x03) || (t =? 0x04) || (t =? 0x0F) || (t =? 0x11) || (t =? 0x81).

Definition select_stream (streamType pid : Z) (p : Parser) : Parser :=
  if is_video streamType then
    if videoPID p =? 0 then p <| videoPID := pid |> <| videoStreamType := streamType |> else p
  else if is_audio streamType then
    if audioPID p =? 0 then p <| audioPID := pid |> <| audioStreamType := streamType |> else p
  else p.

(** [ext]: an extractor was passed. *)
Fixpoint pmt_loop (fuel : nat) (ext : bool) (i end_ : Z) (data : list Z) (p : Parser) (calls : list call)
    : res (Parser * list call) :=
  match fuel with
  | O => NoFuel
  | S fuel =>
      if (i <? end_) && (i + 4 <? len data) then
        streamType ← idx data i;
        a ← idx data (i + 1); b ← idx data (i + 2);
        c ← idx data (i + 3); d ← idx data (i + 4);
        let n := be16 (Z.land c 0x0F) d in
        new ← (if (0 <? n) && ext && (i + 5 + n <=? len data)
               then l ← slice data (i + 5) (i + 5 + n); extractParameterSetsFromDescriptors l streamType
               else Ret []);
        pmt_loop fuel ext (i + (5 + n)) end_ data (select_stream streamType (be16 (Z.land a 0x1F) b) p)
          (calls ++ new)
      else Ret (p, calls)
  end.

Definition parsePMTWithExtractor (ext : bool) (payload : list Z) (p : Parser) : res (Parser * list call) :=
  if pmtParsed p || (len payload <? 12) then Ret (p, [])
  else
    b0 ← idx payload 0;
    let offset := b0 + 1 in
    if len payload <=? offset then Ret (p, [])
    else
      data ← slice payload offset (len payload);
      if len data <? 12 then Ret (p, [])
      else
        tableID ← idx data 0;
        if negb (tableID =? 0x02) then Ret (p, [])
        else
          hi ← idx data 1; lo ← idx data 2;
          let sectionLength := be16 (Z.land hi 0x0F) lo in
          if (sectionLength <? 9) || (len data <? sectionLength + 3) then Ret (p, [])
          else
            c8 ← idx data 8; c9 ← idx data 9;
            let p := p <| pcrPID := be16 (Z.land c8 0x1F) c9 |> in
            d10 ← idx data 10; d11 ← idx data 11;
            let infoLength := be16 (Z.land d10 0x0F) d11 in
            if (0 <? infoLength) && ext && (len data <? 12 + infoLength) then Ret (p, [])
            else
              calls ← (if (0 <? infoLength) && ext
                       then l ← slice data 12 (12 + infoLength); extractParameterSetsFromDescriptors l 0
                       else Ret []);
              if len data <? 12 + infoLength then Ret (p, calls)
              else
                '(p, calls) ← pmt_loop (S (length data)) ext (12 + infoLength) (3 + sectionLength - 4) data p calls;
                Ret (p <| pmtParsed := true |>, calls).

(** ** Parameter sets in the bitstream *)

(** The first start code from [j] on, or the end. *)
Fixpoint nal_end (fuel : nat) (j : Z) (data : list Z) : res Z :=
  match fuel with
  | O => NoFuel
  | S fuel =>
      if j <? len data - 3 then
        a ← idx data j; b ← idx data (j + 1); c ← idx data (j + 2);
        if (a =? 0) && (b =? 0) && (c =? 1) then Ret j
        else
          four ← (if j <? len data - 4 then
                    d ← idx data (j + 3); Ret ((a =? 0) && (b =? 0) && (c =? 0) && (d =? 1))
                  else Ret false);
          if four : bool then Ret j else nal_end fuel (j + 1) data
      else Ret (len data)
  end.

Definition is_parameter_set (streamType b : Z) : bool :=
  if streamType =? 0x1B then let t := Z.land b 0x1F in (t =? 7) || (t =? 8)
  else if streamType =? 0x24 then
    let t := Z.land (Z.shiftr b 1) 0x3F in (t =? 32) || (t =? 33) || (t =? 34)
  else false.

(** Where the copied unit starts. *)
Definition start_pos (nalStart : Z) (data : list Z) : res Z :=
  let s := nalStart - 4 in
  three ← (if s <? 0 then Ret true
           else if s + 2 <? len data then b ← idx data (s + 2); Ret (b =? 1) else Ret false);
  let s := if three : bool then nalStart - 3 else s in
  Ret (if s <? 0 then 0 else s).

Fixpoint bitstream_loop (fuel : nat) (i streamType : Z) (data : list Z) (acc : list (list Z)) : res (list (list Z)) :=
  match fuel with
  | O => NoFuel
  | S fuel =>
      if i <? len data - 4 then
        a ← idx data i; b ← idx data (i + 1); c ← idx data (i + 2); d ← idx data (i + 3);
        let code := if (a =? 0) && (b =? 0) && (c =? 1) then Some (i + 3, i)
                    else if (a =? 0) && (b =? 0) && (c =? 0) && (d =? 1) then Some (i + 4, i + 1)
                    else None in
        match code with
        | None => bitstream_loop fuel (i + 1) streamType data acc
        | Some (nalStart, i) =>
            if len data <=? nalStart then Ret acc
            else
              h ← idx data nalStart;
              if negb (is_parameter_set streamType h) then bitstream_loop fuel (i + 1) streamType data acc
              else
                e ← nal_end (S (length data)) (nalStart + 1) data;
                s ← start_pos nalStart data;
                nal ← slice data s e;
                bitstream_loop fuel (e - 1 + 1) streamType data (acc ++ [nal])
        end
      else Ret acc
  end.
Definition extractParameterSetsFromBitstream (data : list Z) (streamType : Z) : res (list (list Z)) :=
  bitstream_loop (S (length data)) 0 streamType data [].

Definition calls_of (sets : list (list Z)) (streamType : Z) : list call :=
  if 0 <? len sets then [(sets, streamType)] else [].

Definition extractParameterSetsFromPES (pkt : Packet) (p : Parser) : res (list call) :=
  if len (Payload pkt) <? 9 then Ret []
  else if negb (PID pkt =? videoPID p) || (videoPID p =? 0) then Ret []
  else
    n ← idx (Payload pkt) 8;
    if len (Payload pkt) <=? 9 + n then Ret []
    else
      l ← slice (Payload pkt) (9 + n) (len (Payload pkt));
      sets ← extractParameterSetsFromBitstream l (videoStreamType p);
      Ret (calls_of sets (videoStreamType p)).

(** ** PES assembly *)

Definition assemblePESPacket (now : Z) (pkt : Packet) (p : Parser) : res (Parser * list call) :=
  let pid := PID pkt in
  if negb (pid =? videoPID p) || (videoPID p =? 0) then Ret (p, [])
  else if negb (default false (pesStarted p !! pid)) then Ret (p, [])
  else
    let '(v, r) := ValidatePESContinuation pid (len (Payload pkt)) now (pesValidator p) in
    let p := p <| pesValidator := v |> in
    match r with
    | Err _ => Ret (p <| pesBuffer := delete pid (pesBuffer p) |>
                      <| pesStarted := <[pid := false]> (pesStarted p) |>, [])
    | Val _ =>
        let buffer := default [] (pesBuffer p !! pid) ++ Payload pkt in
        let p := p <| pesBuffer := <[pid := buffer]> (pesBuffer p) |> in
        calls ← (if 1024 <? len buffer then
                   sets ← extractParameterSetsFromBitstream buffer (videoStreamType p);
                   Ret (calls_of sets (videoStreamType p))
                 else Ret []);
        let '(in_progress, _, _) := GetStreamState pid (pesValidator p) in
        if negb in_progress
        then Ret (p <| pesBuffer := delete pid (pesBuffer p) |>
                    <| pesStarted := delete pid (pesStarted p) |>, calls)
        else Ret (p, calls)
    end.

(** ** Parsing *)

(** A PID on which a program map table is tried before the PAT was seen. *)
Definition common_pmt_pid (pid : Z) : bool :=
  (pid =? 0x0010) || (pid =? 0x0011) || (pid =? 0x1000) || (pid =? 0x1001).

Definition parse_tables (ext : bool) (pkt : Packet) (p : Parser) : res (Parser * list call) :=
  let start := PayloadStart pkt && PayloadExists pkt in
  if (PID pkt =? PIDProgramAssociation) && start then p ← parsePAT (Payload pkt) p; Ret (p, [])
  else if (PID pkt =? pmtPID p) && start then parsePMTWithExtractor ext (Payload pkt) p
  else if negb (pmtParsed p) && start && common_pmt_pid (PID pkt) then
    if 1 <? len (Payload pkt) then
      n ← idx (Payload pkt) 0;
      if n + 1 <? len (Payload pkt) then
        t ← idx (Payload pkt) (n + 1);
        if t =? 0x02 then parsePMTWithExtractor ext (Payload pkt) (p <| pmtPID := PID pkt |>)
        else Ret (p, [])
      else Ret (p, [])
    else Ret (p, [])
  else Ret (p, []).

(** One packet of the input: the packet for the result, if any, and the calls
    of the extractor; [k] numbers the packet, whose clock readings are
    [clock (2 * k)] and [clock (2 * k + 1)]. *)
Definition parse_one (ext : bool) (clock : Z -> Z) (k : Z) (data : list Z) (p : Parser)
    : res (Parser * option Packet * list call) :=
  '(p, r) ← parsePacket data p;
  match r with
  | Err _ => Ret (p, None, [])
  | Val pkt =>
      '(p, calls) ← parse_tables ext pkt p;
      if PayloadStart pkt && PayloadExists pkt then
        '(p, pkt, _) ← parsePESHeader (clock (2 * k)) (clock (2 * k + 1)) pkt p;
        more ← (if ext && (PID pkt =? videoPID p) then extractParameterSetsFromPES pkt p else Ret []);
        Ret (p, Some pkt, calls ++ more)
      else if PayloadExists pkt then
        '(p, more) ← (if ext && (PID pkt =? videoPID p) then assemblePESPacket (clock (2 * k)) pkt p
                      else Ret (p, []));
        Ret (p, Some pkt, calls ++ more)
      else Ret (p, None, calls)
  end.

Fixpoint parse_loop (fuel : nat) (ext : bool) (clock : Z -> Z) (i : Z) (data : list Z) (p : Parser)
    (packets : list Packet) (calls : list call) : res (Parser * list Packet * list call) :=
  match fuel with
  | O => NoFuel
  | S fuel =>
      if i + PacketSize <=? len data then
        packetData ← slice data i (i + PacketSize);
        '(p, pkt, new) ← parse_one ext clock (Z.quot i PacketSize) packetData p;
        parse_loop fuel ext clock (i + PacketSize) data p
          (packets ++ match pkt with Some pkt => [pkt] | None => [] end) (calls ++ new)
      else Ret (p, packets, calls)
  end.

Definition ParseWithExtractor (ext : bool) (clock : Z -> Z) (data : list Z) (p : Parser)
    : res (Parser * exn ts_error (list Packet) * list call) :=
  if len data <? PacketSize then Ret (p, Err DataTooSmall, [])
  else
    '(p, packets, calls) ← parse_loop (S (length data)) ext clock 0 data p [] [];
    Ret (p, Val packets, calls).
Definition Parse (clock : Z -> Z) (data : list Z) (p : Parser) : res (Parser * exn ts_error (list Packet) * list call) :=
  ParseWithExtractor false clock data p.

(** ** The rest of the interface *)

Definition SetVideoPID (pid : Z) (p : Parser) : Parser := p <| videoPID := pid |>.
Definition SetAudioPID (pid : Z) (p : Parser) : Parser := p <| audioPID := pid |>.
Definition SetPCRPID (pid : Z) (p : Parser) : Parser := p <| pcrPID := pid |>.
Definition IsVideoPID (pid : Z) (p : Parser) : bool := pid =? videoPID p.
Definition IsAudioPID (pid : Z) (p : Parser) : bool := pid =? audioPID p.
Definition IsPCRPID (pid : Z) (p : Parser) : bool := pid =? pcrPID p.
Definition AddParameterSetsFromPMT (p : Parser) : Parser := if pmtParsed p then p <| pmtParsed := false |> else p.
Definition ResetPTSValidator (p : Parser) : Parser := p <| ptsValidator := Validation.Reset (ptsValidator p) |>.
Definition ResetContinuityValidator (p : Parser) : Parser :=
  p <| continuityValidator := Continuity.Reset (continuityValidator p) |>.
Definition CheckPESTimeouts (now : Z) (p : Parser) : Parser * gset Z :=
  let '(v, pids) := CheckTimeouts now (pesValidator p) in
  (p <| pesValidator := v |>
     <| pesBuffer := filter (fun kv => kv.1 ∉ pids) (pesBuffer p) |>
     <| pesStarted := filter (fun kv => kv.1 ∉ pids) (pesStarted p) |>, pids).
