(* ===== verification/TsTotal.v ===== *)
(** * The transport stream parser on arbitrary input

    Whatever the bytes, [TsParser] returns: every index is in range and every
    loop ends within its fuel; what it hands out is in range, and the bytes it
    keeps per PID stay below the PES limit. *)

From stdpp Require Import strings.
From S2P Require Import Prelude Returns Validation Continuity Pes TsParser.

Lemma be16_range hi lo m : 0 <= hi <= m -> m < 256 -> is_byte lo -> 0 <= be16 hi lo < (m + 1) * 256.
Proof.
  intros Hhi Hm Hlo. unfold be16, is_byte in *. rewrite Z.shiftl_mul_pow2 by lia.
  rewrite u16_id by lia. rewrite Z.lor_comm, <- Z.shiftl_mul_pow2, lor_shiftl_add by lia. lia.
Qed.
Lemma be16_nonneg hi lo : 0 <= lo -> 0 <= be16 hi lo.
Proof. intros. unfold be16. apply lor_nonneg; [apply u16_range|done]. Qed.

(** ** Loops over bytes *)

(** Sets of bytes. *)
Definition sets_ok (l : list (list Z)) : Prop := Forall bytes l.
Definition calls_ok (l : list call) : Prop := Forall (fun c => sets_ok c.1 /\ c.1 <> []) l.

Lemma with_start_code_ok l : bytes l -> bytes (with_start_code l).
Proof. intros. unfold with_start_code. apply bytes_app; [|done]. by repeat constructor. Qed.

Lemma sets_ok_snoc acc nal : sets_ok acc -> bytes nal -> sets_ok (acc ++ [nal]).
Proof. intros. apply Forall_app. split; [done|by constructor]. Qed.

Lemma sets_loop_total n limit offset data acc :
  bytes data -> sets_ok acc -> 0 <= offset ->
  returns (sets_loop n limit offset data acc) (fun '(o, l) => offset <= o /\ sets_ok l).
Proof.
  intros Hd. revert offset acc. induction n as [|n IH]; intros offset acc Ha Ho; cbn [sets_loop].
  { go. split; [lia|done]. }
  go; [|go; split; [lia|done]]. go; [lia|]. go; [lia|]. cbv zeta.
  assert (0 <= Z.lor (Z.shiftl b 8) b0) as Hn by (apply lor_nonneg; [apply shiftl_nonneg|]; unfold is_byte in *; lia).
  set (n_bytes := Z.lor _ _) in *. clearbody n_bytes. go.
  { eapply returns_weaken; [apply IH; [done|lia]|]. intros [o l]. intuition lia. }
  go; [go; split; [lia|done]|]. zbool. go.
  - go; [lia|lia|]. eapply returns_weaken; [apply IH; [|lia]|].
    + apply sets_ok_snoc; [done|by apply with_start_code_ok].
    + intros [o l]. intuition lia.
  - eapply returns_weaken; [apply IH; [done|lia]|]. intros [o l]. intuition lia.
Qed.

Lemma h264_sets_total data :
  bytes data -> returns (extractH264ParameterSetsFromDescriptor data) sets_ok.
Proof.
  intros Hd. unfold extractH264ParameterSetsFromDescriptor. go; [go; constructor|]. go; [go; constructor|].
  eapply (returns_bind _ _ (fun _ => True)).
  { unfold looksLikeAVCDescriptor. go; [by go|]. go; [lia|]. go; [by go|]. go; [lia|]. by go. }
  intros looks _. go; [go; constructor|]. go; [lia|].
  eapply returns_bind; [apply sets_loop_total; [done|constructor|lia]|]. intros [o l] [Ho Hl]. go; [by go|].
  go; [lia|]. eapply returns_bind; [apply sets_loop_total; [done|done|lia]|]. intros [o' l'] [_ Hl']. by go.
Qed.

Lemma nals_loop_total n offset total data acc :
  bytes data -> sets_ok acc -> 0 <= offset ->
  returns (nals_loop n offset total data acc) (fun '(_, o, _, l) => offset <= o /\ sets_ok l).
Proof.
  intros Hd. revert offset total acc. induction n as [|n IH]; intros offset total acc Ha Ho; cbn [nals_loop].
  { go. split; [lia|done]. }
  go; [|go; split; [lia|done]]. go; [go; split; [lia|done]|]. go; [lia|]. go; [lia|]. cbv zeta.
  assert (0 <= Z.lor (Z.shiftl b 8) b0) as Hn by (apply lor_nonneg; [apply shiftl_nonneg|]; unfold is_byte in *; lia).
  set (n_bytes := Z.lor _ _) in *. clearbody n_bytes. go.
  - go; [lia|lia|]. eapply returns_weaken; [apply IH; [|lia]|].
    + apply sets_ok_snoc; [done|by apply with_start_code_ok].
    + intros [[[? o] ?] l]. intuition lia.
  - eapply returns_weaken; [apply IH; [done|lia]|]. intros [[[? o] ?] l]. intuition lia.
Qed.

Lemma hevc_sets_total data :
  bytes data -> returns (extractHEVCParameterSetsFromDescriptor data) sets_ok.
Proof.
  intros Hd. unfold extractHEVCParameterSetsFromDescriptor. go; [go; constructor|]. go; [go; constructor|].
  go; [lia|]. generalize (Z.to_nat (if MaxHEVCParamArrays <? b then MaxHEVCParamArrays else b)) as n. intros n.
  assert (forall n offset total acc, sets_ok acc -> 0 <= offset ->
    returns (arrays_loop n offset total data acc) sets_ok) as Hloop; [|apply Hloop; [constructor|lia]].
  clear n. induction n as [|n IH]; intros offset total acc Ha Ho; cbn [arrays_loop]; [by go|].
  go; [|by go]. go; [lia|]. go; [lia|]. go; [lia|].
  eapply returns_bind; [apply nals_loop_total; [done|done|lia]|]. intros [[[full o] t] l] [Ho' Hl].
  go; [by go|]. apply IH; [done|lia].
Qed.

Lemma descriptors_total d t :
  bytes d -> returns (extractParameterSetsFromDescriptors d t) calls_ok.
Proof.
  intros Hd. unfold extractParameterSetsFromDescriptors. eapply (returns_bind _ _ sets_ok).
  2: { intros sets Hs. go. case_bool; [|constructor]. constructor; [|constructor]. split; [done|].
       simpl. by intros ->. }
  assert (forall fuel offset acc, (Z.to_nat (len d - offset) < fuel)%nat -> 0 <= offset -> sets_ok acc ->
    returns (descriptors_loop fuel offset t d acc) sets_ok) as Hloop.
  2: { apply Hloop; [unfold len; lia|lia|constructor]. }
  induction fuel as [|fuel IH]; intros offset acc Hf Ho Ha; [lia|]. cbn [descriptors_loop].
  go; [|by go]. go; [by go|]. go; [lia|]. go; [lia|]. unfold is_byte in Hb, Hb0. go; [by go|]. go; [lia|lia|].
  eapply (returns_bind _ _ sets_ok).
  { go; [by apply h264_sets_total|]. go; [by apply hevc_sets_total|]. go; go; constructor. }
  intros sets Hs. apply IH; [lia|lia|]. by apply Forall_app.
Qed.

Lemma nal_end_total fuel j data :
  bytes data -> 0 <= j <= len data -> (Z.to_nat (len data - j) < fuel)%nat ->
  returns (nal_end fuel j data) (fun e => j <= e <= len data).
Proof.
  intros Hd. revert j. induction fuel as [|fuel IH]; intros j Hj Hf; [lia|]. cbn [nal_end].
  go; [|go; lia]. go; [lia|]. go; [lia|]. go; [lia|]. go; [go; lia|].
  eapply (returns_bind _ _ (fun _ => True)).
  { go; [|by go]. go; [lia|]. by go. }
  intros four _. go; [go; lia|]. eapply returns_weaken; [apply IH; lia|]. intros e. simpl. lia.
Qed.

Lemma bitstream_total t data :
  bytes data -> returns (extractParameterSetsFromBitstream data t) sets_ok.
Proof.
  intros Hd. unfold extractParameterSetsFromBitstream.
  assert (forall fuel i acc, (Z.to_nat (len data - i) < fuel)%nat -> 0 <= i -> sets_ok acc ->
    returns (bitstream_loop fuel i t data acc) sets_ok) as Hloop.
  2: { apply Hloop; [unfold len; lia|lia|constructor]. }
  induction fuel as [|fuel IH]; intros i acc Hf Hi Ha; [lia|]. cbn [bitstream_loop].
  go; [|by go]. go; [lia|]. go; [lia|]. go; [lia|]. go; [lia|]. cbv zeta.
  set (code := if _ && _ && _ then _ else _).
  assert (match code with None => True | Some (s, i') => i <= i' <= i + 1 /\ s = i + 3 + (i' - i) end) as Hcode.
  { subst code. repeat case_bool; try done; lia. }
  destruct code as [[s i']|]; [destruct Hcode as [Hi' Hs]|apply IH; [lia|lia|done]].
  go; [by go|]. go; [lia|]. go; [apply IH; [lia|lia|done]|].
  eapply returns_bind; [apply nal_end_total; [done|lia|unfold len in *; lia]|]. intros e He.
  eapply (returns_bind _ _ (fun x => 0 <= x <= s)).
  { unfold start_pos. cbv zeta. eapply (returns_bind _ _ (fun three => s - 4 < 0 -> three = true)).
    - go; [by go|]. go; [|go; lia]. go; [lia|]. go. lia.
    - intros three H3. go. repeat case_bool; lia. }
  intros x Hx. cbv beta in He, Hx. go; [lia|lia|]. apply IH; [lia|lia|]. by apply sets_ok_snoc.
Qed.

(** ** Program tables *)

(** Fields of the parser the tables do not touch. *)
Definition same_pes (p p' : Parser) : Prop :=
  pesBuffer p' = pesBuffer p /\ pesValidator p' = pesValidator p.

Lemma pat_loop_total fuel i e data p :
  bytes data -> 0 <= i -> (Z.to_nat (len data - i) < fuel)%nat ->
  returns (pat_loop fuel i e data p) (same_pes p).
Proof.
  intros Hd. revert i p. induction fuel as [|fuel IH]; intros i p Hi Hf; [lia|]. cbn [pat_loop].
  go; [|by go]. zbool. go; [lia|]. go; [lia|]. go; [lia|]. go; [lia|]. cbv zeta. go; [by go|].
  apply IH; lia.
Qed.

Lemma access_ok_spec {A} (l : list A) o n :
  0 <= n < 2 ^ 62 -> o < 2 ^ 62 -> access_ok l o n = true -> 0 <= o /\ o + n <= len l.
Proof.
  intros Hn Ho. unfold access_ok, ValidateBufferAccess. destruct (Z.ltb_spec o 0); [done|].
  rewrite i64_id by lia. destruct (Z.ltb_spec n 0), (Z.ltb_spec (len l) o), (Z.ltb_spec (len l) (o + n)); try done.
Qed.

Lemma parsePAT_total payload p : bytes payload -> returns (parsePAT payload p) (same_pes p).
Proof.
  intros Hd. unfold parsePAT. go; [by go|]. zbool. go; [by go|]. go; [lia|]. go; [by go|].
  unfold is_byte in Hb. cbv zeta. go; [by go|].
  assert (b + 9 <= len payload) as Hl.
  { match goal with H : negb (access_ok payload (b + 1) 8) = false |- _ => revert H end.
    rewrite negb_false_iff. intros Ha. apply access_ok_spec in Ha; lia. }
  go; [lia|lia|]. go; [lia|]. go; [by go|]. go; [lia|]. go; [lia|]. cbv zeta. go; [by go|].
  apply pat_loop_total; [done|lia|]. unfold len. lia.
Qed.

Lemma select_stream_pes t pid p : same_pes p (select_stream t pid p).
Proof. unfold select_stream. by repeat case_bool. Qed.
Lemma same_pes_trans p q r : same_pes p q -> same_pes q r -> same_pes p r.
Proof. unfold same_pes. intros [-> ->] [-> ->]. done. Qed.

Lemma calls_app c d : calls_ok c -> calls_ok d -> calls_ok (c ++ d).
Proof. intros. by apply Forall_app. Qed.

Lemma pmt_loop_total fuel ext i e data p calls :
  bytes data -> 0 <= i -> (Z.to_nat (len data - i) < fuel)%nat -> calls_ok calls ->
  returns (pmt_loop fuel ext i e data p calls) (fun '(p', c) => same_pes p p' /\ calls_ok c).
Proof.
  intros Hd. revert i p calls. induction fuel as [|fuel IH]; intros i p calls Hi Hf Hc; [lia|]. cbn [pmt_loop].
  go; [|by go]. zbool. go; [lia|]. go; [lia|]. go; [lia|]. go; [lia|]. go; [lia|]. cbv zeta.
  pose proof (be16_nonneg (Z.land b2 0x0F) b3) as Hn. unfold is_byte in Hb3. specialize (Hn ltac:(lia)).
  eapply (returns_bind _ _ calls_ok).
  { go; [|go; constructor]. zbool. go; [lia|lia|]. by apply descriptors_total. }
  intros new Hnew. eapply returns_weaken; [apply IH; [lia|lia|by apply calls_app]|].
  intros [p' c] [Hp Hc']. split; [|done]. eapply same_pes_trans; [apply select_stream_pes|exact Hp].
Qed.

Lemma parsePMT_total ext payload p :
  bytes payload -> returns (parsePMTWithExtractor ext payload p) (fun '(p', c) => same_pes p p' /\ calls_ok c).
Proof.
  intros Hd. unfold parsePMTWithExtractor. assert (same_pes p p /\ calls_ok []) as Hstop by (split; [done|constructor]).
  go; [by go|]. zbool. go; [lia|]. unfold is_byte in Hb. cbv zeta. go; [by go|]. go; [lia|lia|].
  go; [by go|]. go; [lia|]. go; [by go|]. go; [lia|]. go; [lia|]. go; [by go|]. go; [lia|]. go; [lia|].
  go; [lia|]. go; [lia|].
  pose proof (be16_nonneg (Z.land b5 0x0F) b6) as Hn. unfold is_byte in Hb6. specialize (Hn ltac:(lia)).
  set (n := be16 (Z.land b5 0x0F) b6) in *. clearbody n. set (p1 := upd pcrPID _ p).
  assert (same_pes p p1) as Hp1 by done. clearbody p1.
  go; [go; by split; [|constructor]|].
  eapply (returns_bind _ _ calls_ok).
  { go; [|go; constructor]. go; [lia| |by apply descriptors_total].
    match goal with H : _ && (len k <? 12 + n) = false |- _ => apply andb_false_iff in H as [H|H] end;
      [congruence|by apply Z.ltb_ge]. }
  intros calls Hc. go; [by go|].
  eapply returns_bind; [apply pmt_loop_total; [done|lia|unfold len in *; lia|exact Hc]|].
  intros [p2 c2] [Hp2 Hc2]. go. split; [|done]. by eapply same_pes_trans; [exact Hp1|].
Qed.

(** ** Packets *)

Record packet_ok (k : Packet) : Prop := {
  pk_pid : 0 <= PID k <= MaxPID;
  pk_cc : 0 <= ContinuityCounter k < 16;
  pk_bytes : bytes (Payload k);
  pk_len : len (Payload k) <= 184;
  pk_pts : 0 <= PTS k < 2 ^ 33;
  pk_dts : 0 <= DTS k < 2 ^ 33;
  pk_pcr : 0 <= PCR k < 2 ^ 43
}.

Lemma parse_pcr_total data offset :
  bytes data -> 0 <= offset -> offset + 7 <= len data ->
  returns (parse_pcr data offset) (fun t => 0 <= t < 2 ^ 43).
Proof.
  intros Hd Ho Hl. unfold parse_pcr. do 6 (go; [lia|]). unfold is_byte in *. cbv zeta. go.
  pose proof (Z.shiftr_div_pow2 b3 7 ltac:(lia)) as E7.
  assert (0 <= Z.shiftr b3 7 < 2) as H7 by (rewrite E7; change (2 ^ 7) with 128; Z.to_euclidean_division_equations; lia).
  set (s7 := Z.shiftr b3 7) in *. clearbody s7.
  assert (Z.lor (Z.lor (Z.lor (Z.lor (Z.shiftl b 25) (Z.shiftl b0 17)) (Z.shiftl b1 9)) (Z.shiftl b2 1)) s7 =
    b * 2 ^ 25 + b0 * 2 ^ 17 + b1 * 2 ^ 9 + b2 * 2 + s7) as ->.
  { replace (Z.shiftl b 25) with (Z.shiftl (Z.shiftl b 8) 17) by (rewrite Z.shiftl_shiftl by lia; done).
    rewrite <- Z.shiftl_lor.
    replace (Z.shiftl (Z.lor (Z.shiftl b 8) b0) 17) with (Z.shiftl (Z.shiftl (Z.lor (Z.shiftl b 8) b0) 8) 9)
      by (rewrite Z.shiftl_shiftl by lia; done).
    rewrite <- Z.shiftl_lor. set (q := Z.lor _ b1).
    replace (Z.shiftl q 9) with (Z.shiftl (Z.shiftl q 8) 1) by (rewrite Z.shiftl_shiftl by lia; done).
    rewrite <- Z.shiftl_lor. subst q.
    rewrite (lor_shl_join b0 b 8) by lia. rewrite (lor_shl_join b1 _ 8) by lia. rewrite (lor_shl_join b2 _ 8) by lia. rewrite (lor_shl_join s7 _ 1) by lia. lia. }
  pose proof (land_bound b3 1 ltac:(lia)) as H1. set (e1 := Z.land b3 1) in *. clearbody e1.
  rewrite (lor_shl_join b4 e1 8) by lia. rewrite (i64_id (_ * 300)) by lia; rewrite i64_id by lia. lia.
Qed.

Lemma parse_adaptation_total data k :
  bytes data -> len data = 188 -> packet_ok k ->
  returns (parse_adaptation data k) (fun '(k', o) => packet_ok k' /\ 4 <= o).
Proof.
  intros Hd Hl Hk. unfold parse_adaptation. go; [|go; split; [done|lia]]. go; [lia|]. cbv zeta. go.
  2: { go. split; [done|lia]. }
  go; [lia|]. set (k1 := upd DiscontinuityIndicator _ k).
  assert (packet_ok k1) as Hk1 by (by destruct Hk; split). clearbody k1.
  eapply (returns_bind _ _ packet_ok).
  - go; [|by go]. zbool. eapply returns_bind; [apply parse_pcr_total; [done|lia|lia]|]. intros t Ht. go.
    destruct Hk1. by split.
  - intros k2 Hk2. go. unfold is_byte in Hb. split; [done|lia].
Qed.

Lemma check_continuity_pes k p : same_pes p (check_continuity k p).
Proof.
  unfold check_continuity. case_bool; [|done]. by destruct (ValidateContinuity _ _ _ _ _) as [cv [?|?]].
Qed.

Lemma parsePacket_total data p :
  bytes data -> len data = 188 ->
  returns (parsePacket data p) (fun '(p', r) => same_pes p p' /\ match r with Val k => packet_ok k | Err _ => True end).
Proof.
  intros Hd Hl. unfold parsePacket. eapply (returns_bind _ _ (fun _ => True)).
  { unfold ValidateMPEGTSPacket. go; [by go|]. cbn [syncByteEnabled NewPacketValidator]. go; [lia|]. by go; go. }
  intros [[]|e] _; [|by go]. go; [lia|]. go; [lia|]. cbv zeta.
  pose proof (be16_range (Z.land b 0x1F) b0 31) as Hpid. pose proof (land_bound b 31 ltac:(lia)).
  specialize (Hpid ltac:(lia) ltac:(lia) Hb0).
  set (pid := be16 _ b0) in *. clearbody pid. go; [by go|]. go; [by go|]. go; [lia|]. go; [by go|].
  set (k0 := mkPacket _ _ _ _ _ _ _ _ _ _ _ _ _). pose proof (land_bound b1 15 ltac:(lia)).
  assert (packet_ok k0) as Hk0 by (split; cbn; try (unfold MaxPID in *; lia); try constructor; rewrite ?len_nil; lia).
  clearbody k0. pose proof (check_continuity_pes k0 p) as Hp1. set (p1 := check_continuity k0 p) in *. clearbody p1.
  eapply returns_bind; [by apply parse_adaptation_total|]. intros [k o] [Hk Ho].
  eapply (returns_bind _ _ packet_ok).
  - go; [|by go]. zbool. unfold PacketSize in *. go; [lia|lia|]. go.
    destruct Hk. split; try done. cbn. lia.
  - intros k' Hk'. by go.
Qed.

(** ** PES headers *)

Lemma extractTimestamp_total data :
  bytes data -> returns (extractTimestamp data) (fun r => match r with Val t => 0 <= t < 2 ^ 33 | Err _ => True end).
Proof.
  intros Hd. unfold extractTimestamp. destruct (ValidateBufferAccess data 0 5) as [[]|e] eqn:Ha; [|by go].
  assert (5 <= len data) as Hl.
  { destruct (access_ok_spec data 0 5) as [_ ?]; [lia|lia| |lia]. unfold access_ok. by rewrite Ha. }
  do 5 (go; [lia|]). cbv zeta. go; [by go|]. go; [by go|]. go; [by go|].
  set (t := Z.lor _ _). clearbody t. unfold ValidatePTS.
  destruct (Z.ltb_spec t 0); [by go|]. destruct (Z.leb_spec (maxPTS NewTimestampValidator) t) as [|Ht]; [by go|]. go.
  change (maxPTS NewTimestampValidator) with (2 ^ 33) in Ht. lia.
Qed.

Lemma parse_stamps_total k p :
  packet_ok k -> 9 <= len (Payload k) ->
  returns (parse_stamps k p) (fun '(p', k', _) => same_pes p p' /\ packet_ok k' /\ PID k' = PID k /\
    PayloadStart k' = PayloadStart k /\ PayloadExists k' = PayloadExists k /\ Payload k' = Payload k).
Proof.
  intros Hk Hl. pose proof (pk_bytes k Hk) as Hb. unfold parse_stamps.
  go; [lia|]. cbv zeta. go; [by go|]. go; [by go|]. go; [lia|lia|].
  eapply returns_bind; [by apply extractTimestamp_total|]. intros [t|e] Ht; [|by go]. cbv zeta.
  set (k1 := upd HasPTS true _). assert (packet_ok k1) as Hk1 by (by destruct Hk; split).
  assert (PID k1 = PID k /\ PayloadStart k1 = PayloadStart k /\ PayloadExists k1 = PayloadExists k /\
    Payload k1 = Payload k) as (E1 & E2 & E3 & E4) by done. clearbody k1.
  eapply (returns_bind _ _ (fun '(k', _) => packet_ok k' /\ PID k' = PID k /\
    PayloadStart k' = PayloadStart k /\ PayloadExists k' = PayloadExists k /\ Payload k' = Payload k)).
  - go; [|go; split; [destruct Hk1; by split|done]]. go; [by go|]. rewrite E4 in *. go; [lia|lia|].
    eapply returns_bind; [by apply extractTimestamp_total|]. intros [d|e] Hdts; [|by go]. go.
    split; [destruct Hk1; by split|done].
  - intros [k2 r] Hk2. destruct r as [[]|e]; [|by go]. cbv beta iota zeta.
    destruct (ValidateTimestamps _ _ _) as [v res].
    destruct (vr_Error res); [by go|]. destruct (ValidatePTSDTSOrder _ _ _); by go.
Qed.

(** ** What the parser keeps *)

Definition pes_limit : Z := 65536 * 3.

(** The bytes kept for a PID are those of a PES packet in progress, which the
    validator has counted. *)
Record parser_ok (p : Parser) : Prop := {
  po_max : maxPESSize (pesValidator p) = pes_limit;
  po_streams pid s : streams (pesValidator p) !! pid = Some s -> inProgress s = true ->
    0 <= bytesAccumulated s <= pes_limit;
  po_buffer pid buf : pesBuffer p !! pid = Some buf ->
    bytes buf /\ exists s, streams (pesValidator p) !! pid = Some s /\ inProgress s = true /\
      len buf <= bytesAccumulated s
}.

Lemma same_pes_ok p p' : same_pes p p' -> parser_ok p -> parser_ok p'.
Proof. intros [Hb Hv] [H1 H2 H3]. split; rewrite ?Hb, ?Hv; done. Qed.
Lemma NewParser_ok : parser_ok NewParser.
Proof. by split. Qed.

(** A new state for one PID, whose buffer is dropped or counted by it. *)
Lemma put_ok p pid s1 buffers (p' : Parser) :
  parser_ok p -> pesValidator p' = (pesValidator p) <| streams := <[pid := s1]> (streams (pesValidator p)) |> ->
  pesBuffer p' = buffers -> (inProgress s1 = true -> 0 <= bytesAccumulated s1 <= pes_limit) ->
  (forall pid', pid' <> pid -> buffers !! pid' = pesBuffer p !! pid') ->
  (forall buf, buffers !! pid = Some buf -> bytes buf /\ inProgress s1 = true /\ len buf <= bytesAccumulated s1) ->
  parser_ok p'.
Proof.
  intros [H1 H2 H3] Hv Hb Hs1 Hoth Hself. split; rewrite ?Hv, ?Hb; cbn; [done| |].
  - intros pid' s Hs. destruct (decide (pid' = pid)) as [->|Hne].
    + rewrite lookup_insert_eq in Hs. injection Hs as <-. done.
    + rewrite lookup_insert_ne in Hs by done. exact (H2 _ _ Hs).
  - intros pid' buf Hbuf. destruct (decide (pid' = pid)) as [->|Hne].
    + destruct (Hself buf Hbuf) as (? & ? & ?). split; [done|]. exists s1. by rewrite lookup_insert_eq.
    + rewrite Hoth in Hbuf by done. destruct (H3 pid' buf Hbuf) as [Hbb (s & Hs & Hrest)]. split; [done|].
      exists s. by rewrite lookup_insert_ne.
Qed.

Lemma buffer_dropped p pid (p' : Parser) :
  parser_ok p -> pesValidator p' = pesValidator p -> pesBuffer p' = delete pid (pesBuffer p) -> parser_ok p'.
Proof.
  intros [H1 H2 H3] Hv Hb. split; rewrite ?Hv, ?Hb; [done|done|]. intros pid' buf Hbuf.
  apply lookup_delete_Some in Hbuf as [_ Hbuf]. by apply H3.
Qed.

Lemma pes_start_ok pid n1 n2 data p :
  bytes data -> 9 <= len data <= 188 -> parser_ok p ->
  returns (ValidatePESStart pid n1 n2 data (pesValidator p))
    (fun '(v, _) => parser_ok (p <| pesValidator := v |> <| pesStarted := <[pid := true]> (pesStarted p) |>)).
Proof.
  intros Hd Hl Hp. assert (parser_ok (p <| pesValidator := pesValidator p |>
    <| pesStarted := <[pid := true]> (pesStarted p) |>)) as Hsame by (by destruct Hp).
  unfold ValidatePESStart. go; [by go|]. go; [lia|]. go; [lia|]. go; [lia|]. go; [by go|].
  go; [lia|]. go; [lia|]. go; [lia|]. cbv zeta. set (n := Z.lor _ b4). clearbody n.
  set (st := mkPes _ _ _ _ _ _ _).
  assert (match streams (pesValidator p) !! pid with
          | Some s => inProgress s = false | None => True end ->
    returns (if hasLength st && (maxPESSize (pesValidator p) <? expectedLength st)
      then Ret (pesValidator p, Err (PESTooLarge (expectedLength st) (maxPESSize (pesValidator p))))
      else Ret ((pesValidator p) <| streams := <[pid := st]> (streams (pesValidator p)) |>, Val tt))
    (fun '(v, _) => parser_ok (p <| pesValidator := v |> <| pesStarted := <[pid := true]> (pesStarted p) |>)))
    as Hnew.
  { intros Hidle. go; [by go|]. go. eapply (put_ok p pid st (pesBuffer p)); try done.
    - intros _. subst st. cbn. unfold pes_limit. lia.
    - intros buf Hbuf. destruct (po_buffer p Hp pid buf Hbuf) as [_ (s & Hs & Hi & _)].
      rewrite Hs in Hidle. congruence. }
  destruct (streams (pesValidator p) !! pid) as [[[] ? ? ? ? ? ?]|]; [by go|by apply Hnew|by apply Hnew].
Qed.

Lemma parsePESHeader_total n1 n2 k p :
  packet_ok k -> parser_ok p ->
  returns (parsePESHeader n1 n2 k p) (fun '(p', k', _) => parser_ok p' /\ packet_ok k' /\ PID k' = PID k).
Proof.
  intros Hk Hp. pose proof (pk_bytes k Hk) as Hb. pose proof (pk_len k Hk). unfold parsePESHeader. go; [by go|].
  eapply (returns_bind _ _ parser_ok).
  { go; [|by go]. eapply returns_bind; [apply (pes_start_ok (PID k)); [done|lia|done]|]. intros [v r] Hv. by go. }
  intros p1 Hp1. go; [lia|]. go; [lia|]. go; [lia|]. go; [by go|]. go; [lia|]. go; [|by go].
  eapply returns_weaken; [by apply parse_stamps_total|]. intros [[p2 k2] r] (Hs & Hk2 & E & _).
  split; [by eapply same_pes_ok|]. done.
Qed.

Lemma calls_of_ok sets t : sets_ok sets -> calls_ok (calls_of sets t).
Proof.
  intros Hs. unfold calls_of. case_bool; [|constructor]. constructor; [|constructor]. split; [done|]. simpl.
  by intros ->.
Qed.

Lemma pes_sets_total k p : packet_ok k -> returns (extractParameterSetsFromPES k p) calls_ok.
Proof.
  intros Hk. pose proof (pk_bytes k Hk) as Hb. unfold extractParameterSetsFromPES. go; [go; constructor|].
  go; [go; constructor|]. go; [lia|]. unfold is_byte in *. go; [go; constructor|]. go; [lia|lia|].
  eapply returns_bind; [by apply bitstream_total|]. intros sets Hs. go. by apply calls_of_ok.
Qed.

(** The outcomes of a continuation: refused without a change, or the PID's
    state counts the bytes and is in progress only if accepted and within the
    limit. *)
Lemma continuation_cases pid n now v v' r :
  maxPESSize v = pes_limit -> 0 <= n <= 2 ^ 20 ->
  (forall s, streams v !! pid = Some s -> inProgress s = true -> 0 <= bytesAccumulated s <= pes_limit) ->
  ValidatePESContinuation pid n now v = (v', r) ->
  (v' = v /\ exists e, r = Err e) \/
  (exists s s1, streams v !! pid = Some s /\ inProgress s = true /\ v' = v <| streams := <[pid := s1]> (streams v) |> /\
    bytesAccumulated s1 = bytesAccumulated s + n /\
    (inProgress s1 = true -> r = Val tt /\ bytesAccumulated s1 <= pes_limit)).
Proof.
  intros Hm Hn Ha. unfold ValidatePESContinuation. destruct (streams v !! pid) as [s|] eqn:Hs.
  2: { intros [= <- <-]. left. eauto. }
  destruct (inProgress s) eqn:Hi; cbn [negb].
  2: { intros [= <- <-]. left. eauto. }
  specialize (Ha s eq_refl Hi). unfold pes_limit in *. set (s1 := upd lastActivity now _).
  assert (bytesAccumulated s1 = bytesAccumulated s + n /\ inProgress s1 = true) as (E1 & E2).
  { split; [apply i64_id; lia|done]. }
  clearbody s1. rewrite Hm. destruct (Z.ltb_spec (65536 * 3) (bytesAccumulated s1)) as [Hbig|Hfit].
  { intros [= <- <-]. right. exists s, (s1 <| inProgress := false |>). by split_and!. }
  destruct (hasLength s1 && (expectedLength s1 <=? bytesAccumulated s1)).
  { cbv zeta. case_bool; intros [= <- <-]; right; exists s, (s1 <| inProgress := false |>); by split_and!. }
  intros [= <- <-]. right. exists s, s1. by split_and!.
Qed.

Lemma assemble_total now k p :
  packet_ok k -> parser_ok p ->
  returns (assemblePESPacket now k p) (fun '(p', c) => parser_ok p' /\ calls_ok c).
Proof.
  intros Hk Hp. pose proof (pk_bytes k Hk) as Hb. pose proof (pk_len k Hk) as Hl. pose proof (len_nonneg (Payload k)) as H0.
  assert (parser_ok p /\ calls_ok []) as Hstop by (split; [done|constructor]).
  unfold assemblePESPacket. cbv zeta. go; [by go|]. go; [by go|]. pose proof Hp as [H1 H2 H3].
  destruct (ValidatePESContinuation _ _ _ _) as [v r] eqn:Hv.
  apply continuation_cases in Hv as [[-> [e ->]]|(s & s1 & Hs & Hi & -> & Hn & Hr)]; [| |done|lia|by apply H2].
  { go. split; [|constructor]. by apply (buffer_dropped p (PID k)). }
  destruct r as [[]|e].
  2: { go. split; [|constructor]. apply (put_ok p (PID k) s1 (delete (PID k) (pesBuffer p))); try done.
       - intros Hi1. by destruct (Hr Hi1).
       - intros pid' Hne. by apply lookup_delete_ne.
       - intros buf Hbuf. by rewrite lookup_delete_eq in Hbuf. }
  match goal with |- context [default [] ?x ++ Payload k] => change x with (pesBuffer p !! PID k) end.
  set (buffer := default [] (pesBuffer p !! PID k) ++ Payload k).
  assert (bytes buffer /\ len buffer <= bytesAccumulated s1) as [Hbb Hbl].
  { subst buffer. rewrite len_app, Hn. destruct (pesBuffer p !! PID k) as [buf|] eqn:Hbuf; simpl.
    - destruct (H3 _ _ Hbuf) as [Hbuf' (s' & Hs' & _ & Hlen)]. rewrite Hs in Hs'. injection Hs' as <-.
      split; [by apply bytes_app|lia].
    - specialize (H2 _ _ Hs Hi). split; [done|]. rewrite len_nil. lia. }
  clearbody buffer. eapply (returns_bind _ _ calls_ok).
  { go; [|go; constructor]. eapply returns_bind; [by apply bitstream_total|]. intros sets Hsets. go. by apply calls_of_ok. }
  intros c Hc. unfold GetStreamState. cbn [pesValidator streams upd]. rewrite lookup_insert_eq.
  destruct (inProgress s1) eqn:Hi1; cbn [negb]; go; (split; [|done]).
  - apply (put_ok p (PID k) s1 (<[PID k := buffer]> (pesBuffer p))); try done.
    + intros _. destruct (Hr eq_refl). specialize (H2 _ _ Hs Hi). lia.
    + intros pid' Hne. by apply lookup_insert_ne.
    + intros buf Hbuf. rewrite lookup_insert_eq in Hbuf. injection Hbuf as <-. done.
  - apply (put_ok p (PID k) s1 (delete (PID k) (<[PID k := buffer]> (pesBuffer p)))); try done.
    + by rewrite Hi1.
    + intros pid' Hne. rewrite lookup_delete_ne by done. by apply lookup_insert_ne.
    + intros buf Hbuf. by rewrite lookup_delete_eq in Hbuf.
Qed.

(** ** Parsing *)

Lemma parse_tables_total ext k p :
  packet_ok k -> returns (parse_tables ext k p) (fun '(p', c) => same_pes p p' /\ calls_ok c).
Proof.
  intros Hk. pose proof (pk_bytes k Hk) as Hb.
  assert (same_pes p p /\ calls_ok []) as Hstop by (split; [done|constructor]).
  unfold parse_tables. cbv zeta. go.
  { eapply returns_bind; [by apply parsePAT_total|]. intros p' Hp'. go. split; [done|constructor]. }
  go; [by apply parsePMT_total|]. go; [|by go]. go; [|by go]. go; [lia|]. unfold is_byte in Hb0.
  go; [|by go]. go; [lia|]. go; [|by go].
  eapply returns_weaken; [by apply parsePMT_total|]. by intros [p' c] [[] ?].
Qed.

Lemma parse_one_total ext clock n data p :
  bytes data -> len data = 188 -> parser_ok p ->
  returns (parse_one ext clock n data p)
    (fun '(p', k, c) => parser_ok p' /\ (forall k', k = Some k' -> packet_ok k') /\ calls_ok c).
Proof.
  intros Hd Hl Hp. unfold parse_one. eapply returns_bind; [by apply parsePacket_total|].
  intros [p1 [k|e]] [Hs Hk]; pose proof (same_pes_ok p p1 Hs Hp) as Hp1.
  2: { go. split_and!; [done|done|constructor]. }
  eapply returns_bind; [by apply parse_tables_total|]. intros [p2 c] [Hs2 Hc].
  pose proof (same_pes_ok p1 p2 Hs2 Hp1) as Hp2. go.
  - eapply returns_bind; [by apply parsePESHeader_total|]. intros [[p3 k3] r] (Hp3 & Hk3 & _).
    eapply (returns_bind _ _ calls_ok).
    { go; [by apply pes_sets_total|]. go. constructor. }
    intros more Hm. go. split_and!; [done|by intros ? [= <-]|by apply calls_app].
  - go; [|go; by split_and!].
    eapply (returns_bind _ _ (fun '(p', c') => parser_ok p' /\ calls_ok c')).
    { go; [by apply assemble_total|]. go. split; [done|constructor]. }
    intros [p3 more] [Hp3 Hm]. go. split_and!; [done|by intros ? [= <-]|by apply calls_app].
Qed.

Lemma parse_loop_total fuel ext clock i data p packets calls :
  bytes data -> 0 <= i -> (Z.to_nat (len data - i) < fuel)%nat ->
  parser_ok p -> Forall packet_ok packets -> calls_ok calls ->
  returns (parse_loop fuel ext clock i data p packets calls)
    (fun '(p', l, c) => parser_ok p' /\ Forall packet_ok l /\ calls_ok c /\
       len packets <= len l /\ PacketSize * (len l - len packets) <= Z.max 0 (len data - i)).
Proof.
  intros Hd. unfold PacketSize. revert i p packets calls.
  induction fuel as [|fuel IH]; intros i p packets calls Hi Hf Hp Hpk Hc; [lia|]. cbn [parse_loop].
  unfold PacketSize. go; [|go; split_and!; try done; lia].
  go; [lia|lia|]. eapply returns_bind; [apply parse_one_total; [done|lia|done]|].
  intros [[p1 pkt] new] (Hp1 & Hpkt & Hnew).
  eapply returns_weaken; [apply IH; try done; [lia|lia| |by apply calls_app]|].
  { apply Forall_app. split; [done|]. destruct pkt as [pkt|]; [|constructor]. constructor; [by apply Hpkt|constructor]. }
  intros [[p2 l] c] (H2 & Hl & Hc2 & Hlo & Hhi). rewrite len_app in Hlo, Hhi.
  assert (0 <= len (match pkt with Some pkt => [pkt] | None => [] end) <= 1) as Hone by (by destruct pkt).
  split_and!; try done; lia.
Qed.

(** C37: whatever the bytes of an input buffer, whatever the clock and in
    every reachable state, the parser returns: no index is out of range and no
    loop runs on.  Every packet handed out has a 13-bit PID, a 4-bit counter,
    at most 184 bytes of payload, 33-bit time stamps and a PCR below 2^43;
    there is at most one per 188 bytes of input; the extractor is never called
    without parameter sets; and the bytes the parser keeps for a PID stay those
    of an unfinished PES packet within the PES size limit. *)
Theorem parser_total ext clock data p :
  bytes data -> parser_ok p ->
  exists p' r calls, ParseWithExtractor ext clock data p = Ret (p', r, calls) /\ parser_ok p' /\ calls_ok calls /\
    (forall pid buf, pesBuffer p' !! pid = Some buf -> len buf <= pes_limit) /\
    match r with
    | Val l => Forall packet_ok l /\ PacketSize * len l <= len data
    | Err e => e = DataTooSmall /\ p' = p /\ len data < PacketSize
    end.
Proof.
  intros Hd Hp.
  assert (forall q, parser_ok q -> forall pid buf, pesBuffer q !! pid = Some buf -> len buf <= pes_limit) as Hkept.
  { intros q Hq pid buf Hbuf. destruct (po_buffer q Hq pid buf Hbuf) as [_ (s & Hs & Hi & Hle)].
    pose proof (po_streams q Hq pid s Hs Hi). lia. }
  assert (returns (ParseWithExtractor ext clock data p) (fun '(p', r, c) => parser_ok p' /\ calls_ok c /\
    match r with Val l => Forall packet_ok l /\ PacketSize * len l <= len data
               | Err e => e = DataTooSmall /\ p' = p /\ len data < PacketSize end)) as Hret.
  { unfold ParseWithExtractor. go; [go; split_and!; try done; constructor|].
    eapply returns_bind; [apply parse_loop_total; [done|lia|unfold len; lia|done|constructor|constructor]|].
    intros [[p1 l] c] (H1 & Hl & Hc & Hlo & Hhi). rewrite len_nil in Hhi. go. split_and!; try done.
    unfold PacketSize in *. lia. }
  destruct Hret as ([[p' r] c] & -> & Hp' & Hc & Hr). exists p', r, c. split_and!; try done. by apply Hkept.
Qed.

(** Reaping: the PIDs reported keep no bytes; the others are as before. *)
Theorem CheckPESTimeouts_ok now p :
  parser_ok p -> parser_ok (CheckPESTimeouts now p).1 /\
  (forall pid, pid ∈ (CheckPESTimeouts now p).2 ->
     pesBuffer (CheckPESTimeouts now p).1 !! pid = None /\ pesStarted (CheckPESTimeouts now p).1 !! pid = None).
Proof.
  intros [H1 H2 H3]. unfold CheckPESTimeouts, CheckTimeouts. cbv zeta.
  set (pids := dom _). assert (forall pid s, streams (pesValidator p) !! pid = Some s -> pid ∉ pids ->
    timed_out now (timeout (pesValidator p)) s = false) as Hpids.
  { intros pid s Hs Hn. apply not_true_iff_false. intros Ht. apply Hn. subst pids. apply elem_of_dom.
    exists s. by apply map_lookup_filter_Some. }
  clearbody pids. cbn [fst snd]. split; [split; cbn|].
  - done.
  - intros pid s Hs Hi. rewrite lookup_fmap in Hs. destruct (streams (pesValidator p) !! pid) as [s0|] eqn:Hs0; [|done].
    injection Hs as <-. case_bool; [done|]. by eapply H2.
  - intros pid buf Hbuf. apply map_lookup_filter_Some in Hbuf as [Hbuf Hn]. cbn in Hn.
    destruct (H3 _ _ Hbuf) as [Hb (s & Hs & Hi & Hl)]. split; [done|]. exists s.
    rewrite lookup_fmap, Hs. cbn. by rewrite (Hpids pid s Hs Hn).
  - intros pid Hin. split; apply map_lookup_filter_None; right; intros x _; cbn; tauto.
Qed.

Definition two_packets : list Z := flat_map (fun k => [0x47; 0x41; 0; 16 + k] ++ replicate 184 7) [0; 1].
Lemma parser_total_witness :
  exists p' calls l, ParseWithExtractor true (fun t => t) two_packets NewParser = Ret (p', Val l, calls) /\
    parser_ok p' /\ Forall packet_ok l /\ len l = 2.
Proof.
  destruct (parser_total true (fun t => t) two_packets NewParser) as (p' & r & calls & E & Hp & _ & _ & Hr).
  - unfold is_byte. decide_goal.
  - exact NewParser_ok.
  - assert (match ParseWithExtractor true (fun t => t) two_packets NewParser with
            | Ret (_, Val l, _) => len l = 2 | _ => False end) as Hn by (vm_compute; reflexivity).
    rewrite E in Hn. destruct r as [l|]; [|done]. exists p', calls, l. by destruct Hr.
Defined.

(** With a three-byte start code the extracted unit begins one byte early,
    with the last byte of what precedes it: the code looks for the [1] of a
    three-byte code at the wrong place. *)
Example stray_byte :
  extractParameterSetsFromBitstream [0x65; 0xAA; 0; 0; 1; 0x67; 0x42; 0; 0; 1; 0x65; 9; 9] 0x1B =
  Ret [[0xAA; 0; 0; 1; 0x67; 0x42]].
Proof. reflexivity. Qed.
