(* ===== verification/TsRoundTrip.v ===== *)
(** * Transport streams written and parsed back

    Reference writers for packets, tables and PES headers, after ISO/IEC
    13818-1, and what [TsParser] makes of their output: the packets and time
    stamps come back, and the tables select the first program and its first
    video and audio streams. *)

From stdpp Require Import strings.
From S2P Require Import Prelude Returns Validation Continuity Pes TsParser.

(** ** Writers *)

Definition ts_header (pid : Z) (start : bool) (control cc : Z) : list Z :=
  [0x47; (if start then 0x40 else 0) + pid / 256; pid mod 256; control * 16 + cc].

(** The adaptation field of [n] bytes that fills a packet up. *)
Definition stuffing (n : Z) : list Z :=
  n - 1 :: if n =? 1 then [] else 0 :: replicate (Z.to_nat (n - 2)) 0xFF.

Definition ts_packet (pid : Z) (start : bool) (cc : Z) (payload : list Z) : list Z :=
  let n := 184 - len payload in
  (if n =? 0 then ts_header pid start 1 cc else ts_header pid start 3 cc ++ stuffing n) ++ payload.

Definition plain_packet (pid : Z) (start : bool) (cc : Z) (payload : list Z) : Packet :=
  mkPacket pid start (len payload <? 184) true cc false payload false false 0 0 false 0.

Definition stamp (prefix t : Z) : list Z :=
  [prefix * 16 + 2 * (t / 2 ^ 30) + 1; t / 2 ^ 22 mod 256; 2 * (t / 2 ^ 15 mod 128) + 1;
   t / 2 ^ 7 mod 256; 2 * (t mod 128) + 1].

(** A PES header of open length with both time stamps. *)
Definition pes (streamID pts dts : Z) (es : list Z) : list Z :=
  [0; 0; 1; streamID; 0; 0; 0x80; 0xC0; 10] ++ stamp 3 pts ++ stamp 1 dts ++ es.

Definition pat_entry (e : Z * Z) : list Z :=
  [e.1 / 256; e.1 mod 256; 0xE0 + e.2 / 256; e.2 mod 256].
Definition pat (programs : list (Z * Z)) (crc : list Z) : list Z :=
  let n := 9 + 4 * len programs in
  [0; 0; 0xB0 + n / 256; n mod 256; 0; 1; 0xC1; 0; 0] ++ flat_map pat_entry programs ++ crc.

Record stream := mkStream { s_type : Z; s_pid : Z; s_desc : list Z }.
Definition pmt_entry (s : stream) : list Z :=
  [s_type s; 0xE0 + s_pid s / 256; s_pid s mod 256; 0xF0 + len (s_desc s) / 256; len (s_desc s) mod 256] ++ s_desc s.
Definition pmt (program pcr : Z) (l : list stream) (crc : list Z) : list Z :=
  let n := 13 + len (flat_map pmt_entry l) in
  [0; 2; 0xB0 + n / 256; n mod 256; program / 256; program mod 256; 0xC1; 0; 0;
   0xE0 + pcr / 256; pcr mod 256; 0xF0; 0] ++ flat_map pmt_entry l ++ crc.

(** ** Bytes *)

Lemma byte1_spec h (start : bool) :
  0 <= h < 32 -> let b := (if start then 0x40 else 0) + h in
  (Z.land b 0x80 =? 0) = true /\ negb (Z.land b 0x40 =? 0) = start.
Proof.
  intros Hh. pose proof (byte_forall (fun h => implb (h <? 32)
    ((Z.land ((if start then 0x40 else 0) + h) 0x80 =? 0) &&
     eqb (negb (Z.land ((if start then 0x40 else 0) + h) 0x40 =? 0)) start))) as H.
  specialize (H ltac:(destruct start; vm_compute; reflexivity) h ltac:(unfold is_byte; lia)). cbv beta in H.
  rewrite (proj2 (Z.ltb_lt h 32)) in H by lia. cbn [implb] in H. apply andb_true_iff in H as [H1 H2].
  split; [done|]. by apply eqb_prop in H2.
Qed.

Lemma byte3_spec control cc :
  0 <= control < 4 -> 0 <= cc < 16 ->
  Z.land (Z.shiftr (control * 16 + cc) 4) 3 = control /\ Z.land (control * 16 + cc) 0x0F = cc.
Proof.
  intros Hc Hcc. change 3 with (Z.ones 2). change 0x0F with (Z.ones 4). rewrite !Z.land_ones by lia.
  rewrite Z.shiftr_div_pow2 by lia. change (2 ^ 4) with 16. change (2 ^ 2) with 4.
  Z.to_euclidean_division_equations. lia.
Qed.

(** A 13-bit number behind three reserved bits, a 12-bit one behind four. *)
Lemma be16_13 base n : (base = 0 \/ base = 0x40 \/ base = 0xE0) -> 0 <= n < 8192 ->
  be16 (Z.land (base + n / 256) 0x1F) (n mod 256) = n.
Proof.
  intros Hb Hn. unfold be16. change 0x1F with (Z.ones 5). rewrite Z.land_ones, Z.shiftl_mul_pow2 by lia.
  change (2 ^ 5) with 32.
  assert ((base + n / 256) mod 32 = n / 256) as -> by (Z.to_euclidean_division_equations; lia).
  rewrite u16_id by (change (2 ^ 8) with 256; change (2 ^ 16) with 65536; Z.to_euclidean_division_equations; lia).
  rewrite <- Z.shiftl_mul_pow2 by lia. rewrite lor_shl_join by mlia. mlia.
Qed.
Lemma be16_12 base n : (base = 0xB0 \/ base = 0xF0) -> 0 <= n < 4096 ->
  be16 (Z.land (base + n / 256) 0x0F) (n mod 256) = n.
Proof.
  intros Hb Hn. unfold be16. change 0x0F with (Z.ones 4). rewrite Z.land_ones, Z.shiftl_mul_pow2 by lia.
  change (2 ^ 4) with 16.
  assert ((base + n / 256) mod 16 = n / 256) as -> by (Z.to_euclidean_division_equations; lia).
  rewrite u16_id by (change (2 ^ 8) with 256; change (2 ^ 16) with 65536; Z.to_euclidean_division_equations; lia).
  rewrite <- Z.shiftl_mul_pow2 by lia. rewrite lor_shl_join by mlia. mlia.
Qed.
Lemma be16_16 n : 0 <= n < 65536 -> be16 (n / 256) (n mod 256) = n.
Proof.
  intros Hn. unfold be16. rewrite Z.shiftl_mul_pow2 by lia.
  rewrite u16_id by (change (2 ^ 8) with 256; change (2 ^ 16) with 65536; Z.to_euclidean_division_equations; lia).
  rewrite <- Z.shiftl_mul_pow2 by lia. rewrite lor_shl_join by mlia. mlia.
Qed.

(** ** Packets *)

Lemma len_stuffing n : 1 <= n -> len (stuffing n) = n.
Proof.
  intros Hn. unfold stuffing. rewrite len_cons. case_bool; [rewrite len_nil; lia|].
  rewrite len_cons, len_replicate by lia. lia.
Qed.

Lemma ts_packet_len pid start cc l : len l <= 184 -> len (ts_packet pid start cc l) = PacketSize.
Proof.
  intros Hl. unfold ts_packet, PacketSize. cbv zeta. case_bool; rewrite !len_app; rewrite ?len_stuffing by lia;
    change (len (ts_header _ _ _ _)) with 4; lia.
Qed.

Lemma parse_adaptation_stuffing pid start cc l n k :
  1 <= n -> AdaptationFieldExists k = true -> DiscontinuityIndicator k = false ->
  parse_adaptation (ts_header pid start 3 cc ++ stuffing n ++ l) k = Ret (k, 4 + n).
Proof.
  intros Hn Ha Hd. unfold parse_adaptation. rewrite Ha. unfold stuffing. destruct (Z.eqb_spec n 1) as [->|Hne].
  { done. }
  change (idx _ 4) with (Ret (n - 1)). rewrite bind_Ret. cbv zeta.
  rewrite (proj2 (Z.ltb_lt 0 (n - 1))) by lia. change (idx _ 5) with (Ret 0). rewrite bind_Ret.
  change (negb (Z.land 0 128 =? 0)) with false. change (negb (Z.land 0 16 =? 0)) with false. cbn [andb].
  rewrite bind_Ret. replace (5 + (n - 1)) with (4 + n) by lia. destruct k; cbn in *. by subst.
Qed.

Lemma parse_packet_header pid start control cc body p :
  0 <= pid <= MaxPID -> 0 <= cc < 16 -> control = 1 \/ control = 3 -> len body = 184 ->
  let k := mkPacket pid start (control =? 3) true cc false [] false false 0 0 false 0 in
  let data := ts_header pid start control cc ++ body in
  parsePacket data p =
    ('(pkt, offset) ← parse_adaptation data k;
     pkt ← (if PayloadExists pkt && (offset <? PacketSize)
            then l ← slice data offset (len data); Ret (pkt <| Payload := l |>)
            else Ret pkt);
     Ret (check_continuity k p, Val pkt)).
Proof.
  intros Hpid Hcc Hc Hl k data. unfold MaxPID in *.
  assert (len data = 188) as Hlen by (subst data; rewrite len_app, Hl; done).
  unfold parsePacket, ValidateMPEGTSPacket. rewrite Hlen. change (188 =? 188) with true.
  cbn [negb syncByteEnabled NewPacketValidator].
  destruct (byte1_spec (pid / 256) start) as (H1 & H2); [Z.to_euclidean_division_equations; lia|].
  destruct (byte3_spec control cc) as (H3 & H4); [lia|lia|].
  assert (be16 (Z.land ((if start then 64 else 0) + pid / 256) 31) (pid mod 256) = pid) as H5
    by (apply be16_13; [destruct start; tauto|lia]).
  change (idx data 0) with (Ret 0x47). change (idx data 1) with (Ret ((if start then 0x40 else 0) + pid / 256)).
  change (idx data 2) with (Ret (pid mod 256)). change (idx data 3) with (Ret (control * 16 + cc)).
  rewrite !bind_Ret. change (negb (0x47 =? 0x47)) with false. cbn [andb]. rewrite !bind_Ret. cbv zeta.
  rewrite H5, H1, H2. unfold MaxPID. rewrite (proj2 (Z.ltb_ge 8191 pid)) by lia. cbn [negb].
  rewrite H3, H4. rewrite (proj2 (Z.eqb_neq control 0)) by lia.
  replace (mkPacket _ _ _ _ _ _ _ _ _ _ _ _ _) with k; [done|].
  subst k. by destruct Hc as [-> | ->].
Qed.

Lemma parse_packet_round_trip pid start cc l p :
  0 <= pid <= MaxPID -> 0 <= cc < 16 -> 1 <= len l <= 184 ->
  parsePacket (ts_packet pid start cc l) p =
    Ret (check_continuity (plain_packet pid start cc l) p, Val (plain_packet pid start cc l)).
Proof.
  intros Hpid Hcc Hl. unfold ts_packet. set (n := 184 - len l). destruct (Z.eqb_spec n 0) as [Hn|Hn].
  - rewrite parse_packet_header by lia. cbn [Z.eqb]. change (parse_adaptation _ _) with (Ret (A:=Packet * Z)
      (mkPacket pid start false true cc false [] false false 0 0 false 0, 4)).
    rewrite bind_Ret. cbn [PayloadExists andb]. change (4 <? PacketSize) with true. cbn iota.
    rewrite slice_tail by done. rewrite !bind_Ret. unfold plain_packet. by rewrite (proj2 (Z.ltb_ge (len l) 184)) by lia.
  - pose proof (len_stuffing n ltac:(lia)) as Hs.
    rewrite <- app_assoc. rewrite parse_packet_header by (rewrite ?len_app; lia). cbv zeta.
    rewrite parse_adaptation_stuffing by (done || lia). rewrite bind_Ret. cbn [PayloadExists andb].
    unfold PacketSize. rewrite (proj2 (Z.ltb_lt (4 + n) 188)) by lia.
    rewrite app_assoc, slice_tail by (rewrite len_app, Hs; done). rewrite !bind_Ret. unfold plain_packet.
    by rewrite (proj2 (Z.ltb_lt (len l) 184)) by lia.
Qed.

(** ** Time stamps *)

Lemma stamp_byte p h : (p = 1 \/ p = 2 \/ p = 3) -> 0 <= h < 8 ->
  let a := p * 16 + 2 * h + 1 in
  Z.land a 0x0E = 2 * h /\ negb (Z.land a 0xF1 =? 0x21) && negb (Z.land a 0xF1 =? 0x31) && negb (Z.land a 0xF1 =? 0x11) = false.
Proof.
  intros Hp Hh. assert (h = 0 \/ h = 1 \/ h = 2 \/ h = 3 \/ h = 4 \/ h = 5 \/ h = 6 \/ h = 7) as H by lia.
  destruct Hp as [-> |[-> | ->]], H as [-> |[-> |[-> |[-> |[-> |[-> |[-> | ->]]]]]]]; split; reflexivity.
Qed.

Lemma odd_byte h : 0 <= h < 128 -> Z.land (2 * h + 1) 1 = 1 /\ Z.land (2 * h + 1) 0xFE = 2 * h /\ Z.shiftr (2 * h + 1) 1 = h.
Proof.
  intros Hh. rewrite land_1, Z.shiftr_div_pow2 by lia. split_and!; [Z.to_euclidean_division_equations; lia| |
    change (2 ^ 1) with 2; Z.to_euclidean_division_equations; lia].
  pose proof (byte_forall (fun h => implb (h <? 128) (Z.land (2 * h + 1) 0xFE =? 2 * h))) as H.
  specialize (H ltac:(vm_compute; reflexivity) h ltac:(unfold is_byte; lia)). cbv beta in H.
  rewrite (proj2 (Z.ltb_lt h 128)) in H by lia. by apply Z.eqb_eq.
Qed.

Lemma stamp_round_trip p t rest :
  (p = 1 \/ p = 2 \/ p = 3) -> 0 <= t < 2 ^ 33 -> extractTimestamp (stamp p t ++ rest) = Ret (Val t).
Proof.
  intros Hp Ht. change (2 ^ 33) with 8589934592 in Ht. unfold extractTimestamp, ValidateBufferAccess.
  pose proof (len_nonneg rest). assert (len (stamp p t ++ rest) = 5 + len rest) as Hl by (by rewrite len_app).
  rewrite Hl. change (0 <? 0) with false. change (5 <? 0) with false. change (i64 (0 + 5)) with 5.
  rewrite (proj2 (Z.ltb_ge (5 + len rest) 0)), (proj2 (Z.ltb_ge (5 + len rest) 5)) by lia.
  unfold stamp. set (h := t / 2 ^ 30). set (b := t / 2 ^ 22 mod 256). set (c := t / 2 ^ 15 mod 128).
  set (d := t / 2 ^ 7 mod 256). set (e := t mod 128).
  change (idx _ 0) with (Ret (p * 16 + 2 * h + 1)). change (idx _ 1) with (Ret b).
  change (idx _ 2) with (Ret (2 * c + 1)). change (idx _ 3) with (Ret d). change (idx _ 4) with (Ret (2 * e + 1)).
  rewrite !bind_Ret. cbv zeta.
  assert (0 <= h < 8 /\ 0 <= b < 256 /\ 0 <= c < 128 /\ 0 <= d < 256 /\ 0 <= e < 128 /\
    t = (((h * 256 + b) * 128 + c) * 256 + d) * 128 + e) as (Hh & Hb & Hc & Hd & He & Et).
  { subst h b c d e. change (2 ^ 30) with 1073741824. change (2 ^ 22) with 4194304. change (2 ^ 15) with 32768.
    change (2 ^ 7) with 128. Z.to_euclidean_division_equations. lia. }
  clearbody h b c d e. destruct (stamp_byte p h Hp Hh) as [Ha ->].
  destruct (odd_byte c Hc) as (Hc1 & Hc2 & _), (odd_byte e He) as (He1 & _ & He3).
  rewrite Ha, Hc1, Hc2, He1, He3. change (negb (1 =? 1)) with false. cbn iota.
  assert (Z.lor (Z.lor (Z.lor (Z.lor (Z.shiftl (2 * h) 29) (Z.shiftl b 22)) (Z.shiftl (2 * c) 14)) (Z.shiftl d 7)) e = t) as ->.
  { rewrite !Z.shiftl_mul_pow2 by lia.
    replace (2 * h * 2 ^ 29) with (Z.shiftl (h * 256) 22) by (rewrite Z.shiftl_mul_pow2; lia).
    replace (b * 2 ^ 22) with (Z.shiftl b 22) by (by rewrite Z.shiftl_mul_pow2 by lia). rewrite <- Z.shiftl_lor.
    replace (h * 256) with (Z.shiftl h 8) by (by rewrite Z.shiftl_mul_pow2 by lia). rewrite (lor_shl_join b h 8) by lia.
    replace (Z.shiftl (b + h * 2 ^ 8) 22) with (Z.shiftl ((b + h * 2 ^ 8) * 2 ^ 7) 15) by (rewrite !Z.shiftl_mul_pow2; lia).
    replace (2 * c * 2 ^ 14) with (Z.shiftl c 15) by (rewrite Z.shiftl_mul_pow2; lia). rewrite <- Z.shiftl_lor.
    rewrite <- (Z.shiftl_mul_pow2 _ 7) by lia. rewrite (lor_shl_join c) by lia. set (q := c + _).
    replace (Z.shiftl q 15) with (Z.shiftl (Z.shiftl q 8) 7) by (rewrite Z.shiftl_shiftl by lia; done).
    replace (d * 2 ^ 7) with (Z.shiftl d 7) by (by rewrite Z.shiftl_mul_pow2 by lia). rewrite <- Z.shiftl_lor.
    rewrite (lor_shl_join d) by lia. rewrite lor_shl_join by lia. subst q. lia. }
  unfold ValidatePTS. change (maxPTS NewTimestampValidator) with 8589934592.
  by rewrite (proj2 (Z.ltb_ge t 0)), (proj2 (Z.leb_gt 8589934592 t)) by lia.
Qed.

(** ** Program tables *)

(** The first program that is not the network information table. *)
Definition first_program (l : list (Z * Z)) : option (Z * Z) := head (filter (fun e => e.1 <> 0) l).

Definition select_program (e : Z * Z) (p : Parser) : Parser :=
  p <| programNum := e.1 |> <| pmtPID := e.2 |> <| patParsed := true |>.

Definition entry_ok (e : Z * Z) : Prop := 0 <= e.1 < 65536 /\ 0 <= e.2 <= MaxPID.

Lemma pat_loop_entries pre l tail fuel p :
  Forall entry_ok l -> (length l < fuel)%nat ->
  pat_loop fuel (len pre) (len pre + 4 * len l) (pre ++ flat_map pat_entry l ++ tail) p =
    Ret (match first_program l with Some e => select_program e p | None => p end).
Proof.
  unfold MaxPID. intros Hl. revert pre fuel. induction l as [|[num pid] l IH]; intros pre fuel Hf;
    (destruct fuel as [|fuel]; [simpl in Hf; lia|]); cbn [pat_loop]; pose proof (len_nonneg pre).
  - rewrite (@len_nil (Z * Z)), (proj2 (Z.ltb_ge (len pre) _)) by lia. done.
  - apply Forall_cons in Hl as [[H1 H2] Hl]. cbn in H1, H2. unfold MaxPID in H2.
    pose proof (len_nonneg l). pose proof (len_nonneg (flat_map pat_entry l ++ tail)).
    rewrite len_cons. cbn [flat_map]. set (e := pat_entry (num, pid)). rewrite <- (app_assoc e).
    set (rest := flat_map pat_entry l ++ tail) in *.
    assert (len (pre ++ e ++ rest) = len pre + 4 + len rest) as -> by (rewrite !len_app; change (len e) with 4; lia).
    rewrite (proj2 (Z.ltb_lt (len pre) _)), (proj2 (Z.ltb_lt (len pre + 3) _)) by lia. cbn [andb].
    rewrite idx_tail0, !(idx_tail pre) by lia.
    change (idx (e ++ rest) 0) with (Ret (num / 256)). change (idx (e ++ rest) 1) with (Ret (num mod 256)).
    change (idx (e ++ rest) 2) with (Ret (0xE0 + pid / 256)). change (idx (e ++ rest) 3) with (Ret (pid mod 256)).
    rewrite !bind_Ret. cbv zeta. rewrite be16_16, be16_13 by lia. unfold first_program. rewrite filter_cons. cbn [fst].
    destruct (Z.eqb_spec num 0) as [-> |Hn].
    + rewrite decide_False by (intros []; done). cbn [negb].
      specialize (IH Hl (pre ++ e) fuel ltac:(simpl in Hf; lia)). rewrite <- app_assoc in IH.
      rewrite len_app in IH. change (len e) with 4 in IH. fold rest in IH.
      replace (len pre + 4 * (1 + len l)) with (len pre + 4 + 4 * len l) by lia. exact IH.
    + rewrite decide_True by done. done.
Qed.

Lemma parse_pat_round_trip l crc p :
  patParsed p = false -> Forall entry_ok l -> len crc = 4 -> 9 + 4 * len l < 4096 ->
  parsePAT (pat l crc) p = Ret (match first_program l with Some e => select_program e p | None => p end).
Proof.
  intros Hp Hl Hc Hn. pose proof (len_nonneg l) as H0. unfold parsePAT. rewrite Hp. cbn [orb].
  assert (len (flat_map pat_entry l) = 4 * len l) as He.
  { clear. induction l as [|e l IH]; [done|]. cbn [flat_map]. rewrite len_app, len_cons, IH. change (len (pat_entry e)) with 4. lia. }
  assert (len (pat l crc) = 13 + 4 * len l) as Hlen.
  { unfold pat. rewrite !len_app, He, Hc. change (len [_; _; _; _; _; _; _; _; _]) with 9. lia. }
  assert (forall o n, 0 <= o -> 0 <= n -> o + n <= 13 + 4 * len l -> access_ok (pat l crc) o n = true) as Hacc.
  { intros o n Ho Hn' Hon. unfold access_ok, ValidateBufferAccess. rewrite Hlen, i64_id by lia.
    by rewrite (proj2 (Z.ltb_ge o 0)), (proj2 (Z.ltb_ge n 0)), (proj2 (Z.ltb_ge _ o)), (proj2 (Z.ltb_ge _ (o + n))) by lia. }
  rewrite Hlen, (proj2 (Z.ltb_ge _ 8)), !Hacc by lia. change (idx (pat l crc) 0) with (Ret 0). rewrite bind_Ret.
  rewrite Hacc by lia. cbn [negb Z.add]. rewrite Hacc by lia. cbn [negb].
  set (n := 9 + 4 * len l) in *.
  set (data := [0; 0xB0 + n / 256; n mod 256; 0; 1; 0xC1; 0; 0] ++ flat_map pat_entry l ++ crc).
  rewrite <- Hlen. change (pat l crc) with ([0] ++ data). rewrite slice_tail by done. rewrite bind_Ret.
  change (idx data 0) with (Ret 0). change (idx data 1) with (Ret (0xB0 + n / 256)).
  change (idx data 2) with (Ret (n mod 256)). rewrite !bind_Ret. change (negb (0 =? 0)) with false. cbn iota. cbv zeta.
  rewrite be16_12 by lia. assert (len data = n + 3) as Hd.
  { change (pat l crc) with (0 :: data) in Hlen. rewrite len_cons in Hlen. lia. }
  rewrite Hd. rewrite (proj2 (Z.ltb_ge n 5)), (proj2 (Z.ltb_ge (n + 3) _)) by lia. cbn [orb].
  replace (3 + n - 4) with (8 + 4 * len l) by lia.
  apply (pat_loop_entries [0; 0xB0 + n / 256; n mod 256; 0; 1; 0xC1; 0; 0] l crc (S (length data)) p); [done|].
  unfold len in *. lia.
Qed.

Definition stream_ok (s : stream) : Prop :=
  0 <= s_pid s <= MaxPID /\ len (s_desc s) < 4096.

Definition select_streams (l : list stream) (p : Parser) : Parser :=
  fold_left (fun p s => select_stream (s_type s) (s_pid s) p) l p.

Lemma len_pmt_entry s : len (pmt_entry s) = 5 + len (s_desc s).
Proof. unfold pmt_entry. by rewrite len_app. Qed.

Lemma pmt_loop_entries pre l tail fuel p :
  Forall stream_ok l -> (length l < fuel)%nat ->
  pmt_loop fuel false (len pre) (len pre + len (flat_map pmt_entry l)) (pre ++ flat_map pmt_entry l ++ tail) p [] =
    Ret (select_streams l p, []).
Proof.
  intros Hl. revert pre fuel p. induction l as [|s l IH]; intros pre fuel p Hf;
    (destruct fuel as [|fuel]; [simpl in Hf; lia|]); cbn [pmt_loop]; pose proof (len_nonneg pre).
  - cbn [flat_map]. rewrite (@len_nil Z), (proj2 (Z.ltb_ge (len pre) _)) by lia. done.
  - apply Forall_cons in Hl as [[H1 H2] Hl]. unfold MaxPID in H1. pose proof (len_nonneg (s_desc s)).
    pose proof (len_nonneg (flat_map pmt_entry l)). pose proof (len_nonneg tail).
    cbn [flat_map]. set (e := pmt_entry s). assert (len e = 5 + len (s_desc s)) as He by apply len_pmt_entry. rewrite <- (app_assoc e). set (rest := flat_map pmt_entry l ++ tail).
    assert (len (pre ++ e ++ rest) = len pre + 5 + len (s_desc s) + len rest) as ->
      by (rewrite !len_app, He; lia).
    rewrite len_app, He. pose proof (len_nonneg rest).
    rewrite (proj2 (Z.ltb_lt (len pre) _)), (proj2 (Z.ltb_lt (len pre + 4) _)) by lia. cbn [andb].
    rewrite idx_tail0, !(idx_tail pre) by lia.
    change (idx (e ++ rest) 0) with (Ret (s_type s)). change (idx (e ++ rest) 1) with (Ret (0xE0 + s_pid s / 256)).
    change (idx (e ++ rest) 2) with (Ret (s_pid s mod 256)). change (idx (e ++ rest) 3) with (Ret (0xF0 + len (s_desc s) / 256)).
    change (idx (e ++ rest) 4) with (Ret (len (s_desc s) mod 256)).
    rewrite !bind_Ret. cbv zeta. rewrite be16_12, be16_13 by lia. rewrite andb_false_r. cbn [andb]. rewrite bind_Ret.
    cbn [app]. specialize (IH Hl (pre ++ e) fuel (select_stream (s_type s) (s_pid s) p) ltac:(simpl in Hf; lia)).
    rewrite <- app_assoc, len_app, He in IH. fold rest in IH.
    replace (len pre + (5 + len (s_desc s) + len (flat_map pmt_entry l)))
      with (len pre + (5 + len (s_desc s)) + len (flat_map pmt_entry l)) by lia. exact IH.
Qed.

Lemma parse_pmt_round_trip program pcr l crc p :
  pmtParsed p = false -> 0 <= pcr <= MaxPID -> Forall stream_ok l -> len crc = 4 ->
  13 + len (flat_map pmt_entry l) < 4096 ->
  parsePMTWithExtractor false (pmt program pcr l crc) p =
    Ret ((select_streams l (p <| pcrPID := pcr |>)) <| pmtParsed := true |>, []).
Proof.
  unfold MaxPID. intros Hp Hpcr Hl Hc Hn. pose proof (len_nonneg (flat_map pmt_entry l)) as H0. unfold parsePMTWithExtractor.
  rewrite Hp. cbn [orb]. set (n := 13 + len (flat_map pmt_entry l)) in *.
  assert (len (pmt program pcr l crc) = n + 4) as Hlen.
  { unfold pmt. rewrite !len_app, Hc. change (len [_; _; _; _; _; _; _; _; _; _; _; _; _]) with 13. lia. }
  set (data := [2; 0xB0 + n / 256; n mod 256; program / 256; program mod 256; 0xC1; 0; 0;
     0xE0 + pcr / 256; pcr mod 256; 0xF0; 0] ++ flat_map pmt_entry l ++ crc).
  assert (len data = n + 3) as Hd.
  { change (pmt program pcr l crc) with (0 :: data) in Hlen. rewrite len_cons in Hlen. lia. }
  rewrite Hlen, (proj2 (Z.ltb_ge (n + 4) 12)) by lia. change (idx (pmt _ _ _ _) 0) with (Ret 0). rewrite bind_Ret.
  cbv zeta. rewrite (proj2 (Z.leb_gt (n + 4) (0 + 1))) by lia. rewrite <- Hlen.
  change (pmt program pcr l crc) with ([0] ++ data). rewrite slice_tail by done. rewrite bind_Ret, Hd.
  rewrite (proj2 (Z.ltb_ge (n + 3) 12)) by lia. change (idx data 0) with (Ret 2).
  change (idx data 1) with (Ret (0xB0 + n / 256)). change (idx data 2) with (Ret (n mod 256)).
  change (idx data 8) with (Ret (0xE0 + pcr / 256)). change (idx data 9) with (Ret (pcr mod 256)).
  change (idx data 10) with (Ret 0xF0). change (idx data 11) with (Ret 0). rewrite !bind_Ret.
  change (negb (2 =? 2)) with false. cbn iota. rewrite be16_12 by lia.
  rewrite (proj2 (Z.ltb_ge n 9)), (proj2 (Z.ltb_ge (n + 3) _)) by lia. cbn [orb].
  rewrite be16_13 by lia. change (be16 (Z.land 240 15) 0) with 0. change (0 <? 0) with false. cbn [andb]. rewrite bind_Ret.
  rewrite (proj2 (Z.ltb_ge (n + 3) _)) by lia. change (12 + 0) with 12. replace (3 + n - 4) with (12 + len (flat_map pmt_entry l)) by lia.
  set (p1 := upd pcrPID pcr p).
  pose proof (pmt_loop_entries [2; 0xB0 + n / 256; n mod 256; program / 256; program mod 256; 0xC1; 0; 0;
     0xE0 + pcr / 256; pcr mod 256; 0xF0; 0] l crc (S (length data)) p1 Hl) as Hloop.
  change (len [_; _; _; _; _; _; _; _; _; _; _; _]) with 12 in Hloop. unfold data at 2. rewrite Hloop; [done|].
  assert (length l <= length (flat_map pmt_entry l))%nat.
  { clear. induction l as [|s l IH]; [done|]. cbn [flat_map]. rewrite length_app. simpl. lia. }
  unfold len in *. lia.
Qed.

(** The streams chosen: the first of each kind. *)
Definition first_stream (P : Z -> bool) (l : list stream) : option stream :=
  head (filter (fun s => P (s_type s) = true) l).
Definition chosen (P : Z -> bool) (l : list stream) (pid type : Z) : Z * Z :=
  if pid =? 0 then match first_stream P l with Some s => (s_pid s, s_type s) | None => (pid, type) end
  else (pid, type).

Lemma audio_not_video t : is_audio t = true -> is_video t = false.
Proof. unfold is_audio, is_video. intros H. repeat (apply orb_prop in H as [H|H]); apply Z.eqb_eq in H; by subst. Qed.

Lemma chosen_cons P s l pid type :
  0 < s_pid s -> chosen P (s :: l) pid type =
    if (pid =? 0) && P (s_type s) then chosen P l (s_pid s) (s_type s) else chosen P l pid type.
Proof.
  intros Hs. unfold chosen, first_stream. rewrite filter_cons.
  destruct (Z.eqb_spec pid 0) as [->|Hn]; [|done]. destruct (P (s_type s)) eqn:HP.
  - rewrite decide_True by done. cbn [andb]. by rewrite (proj2 (Z.eqb_neq (s_pid s) 0)) by lia.
  - by rewrite decide_False by done.
Qed.

Lemma select_streams_chosen l p :
  Forall (fun s => 0 < s_pid s) l ->
  (videoPID (select_streams l p), videoStreamType (select_streams l p)) = chosen is_video l (videoPID p) (videoStreamType p) /\
  (audioPID (select_streams l p), audioStreamType (select_streams l p)) = chosen is_audio l (audioPID p) (audioStreamType p).
Proof.
  intros Hl. revert p. induction l as [|s l IH]; intros p; [unfold chosen; by repeat case_bool|].
  apply Forall_cons in Hl as [Hs Hl]. specialize (IH Hl (select_stream (s_type s) (s_pid s) p)) as [IHv IHa].
  rewrite !chosen_cons by done. change (select_streams (s :: l) p) with (select_streams l (select_stream (s_type s) (s_pid s) p)).
  rewrite IHv, IHa. unfold select_stream. destruct (is_video (s_type s)) eqn:Hv.
  - assert (is_audio (s_type s) = false) as Ha.
    { apply not_true_iff_false. intros Ha. apply audio_not_video in Ha. congruence. }
    rewrite Ha, andb_false_r, andb_true_r. by case_bool.
  - rewrite andb_false_r. destruct (is_audio (s_type s)); [rewrite andb_true_r|rewrite andb_false_r; done]. by case_bool.
Qed.

Lemma select_streams_same l p :
  pmtPID (select_streams l p) = pmtPID p /\ pcrPID (select_streams l p) = pcrPID p /\
  patParsed (select_streams l p) = patParsed p /\ programNum (select_streams l p) = programNum p /\
  ptsValidator (select_streams l p) = ptsValidator p /\ pesValidator (select_streams l p) = pesValidator p.
Proof.
  revert p. induction l as [|s l IH]; intros p; [done|].
  change (select_streams (s :: l) p) with (select_streams l (select_stream (s_type s) (s_pid s) p)).
  destruct (IH (select_stream (s_type s) (s_pid s) p)) as (-> & -> & -> & -> & -> & ->).
  unfold select_stream. by repeat case_bool.
Qed.

(** ** Whole packets *)

(** [q] differs from [p] at most in the continuity books and the marks of
    started PES packets. *)
Definition selection (p : Parser) :=
  (programNum p, pmtPID p, pcrPID p, (videoPID p, videoStreamType p), (audioPID p, audioStreamType p),
   patParsed p, pmtParsed p).
Definition same_tables (p q : Parser) : Prop :=
  selection q = selection p /\ ptsValidator q = ptsValidator p /\ pesValidator q = pesValidator p.

Lemma check_continuity_same k p : same_tables p (check_continuity k p).
Proof.
  unfold check_continuity. case_bool; [|done]. by destruct (ValidateContinuity _ _ _ _ _) as [cv [?|?]].
Qed.

(** A payload that is not a PES packet. *)
Definition not_pes (l : list Z) : Prop := exists a b rest, l = 0 :: a :: b :: rest /\ (a <> 0 \/ b <> 1).

Lemma table_packet clock i pid cc l p q :
  0 <= pid <= MaxPID -> 0 <= cc < 16 -> 9 <= len l <= 184 -> not_pes l ->
  parse_tables false (plain_packet pid true cc l) (check_continuity (plain_packet pid true cc l) p) = Ret (q, []) ->
  exists p', parse_one false clock i (ts_packet pid true cc l) p = Ret (p', Some (plain_packet pid true cc l), []) /\
    same_tables q p'.
Proof.
  intros Hpid Hcc Hl (a & b & rest & -> & Hab) Ht. unfold parse_one. rewrite parse_packet_round_trip by (done || lia).
  rewrite bind_Ret. cbv iota beta. rewrite Ht, bind_Ret. cbv iota beta. cbn [PayloadStart PayloadExists plain_packet andb].
  set (l := 0 :: a :: b :: rest) in *. unfold parsePESHeader.
  change (Payload (plain_packet pid true cc l)) with l. change (PayloadStart (plain_packet pid true cc l)) with true. cbn iota.
  rewrite (proj2 (Z.ltb_ge (len l) 9)) by lia. unfold ValidatePESStart.
  rewrite (proj2 (Z.ltb_ge (len l) 6)) by lia. change (idx l 0) with (Ret 0). change (idx l 1) with (Ret a).
  change (idx l 2) with (Ret b). rewrite !bind_Ret.
  assert (negb (0 =? 0) || negb (a =? 0) || negb (b =? 1) = true) as E.
  { change (negb (0 =? 0)) with false. cbn [orb]. apply orb_true_iff. rewrite !negb_true_iff, !Z.eqb_neq. done. }
  rewrite E, !bind_Ret, E. eexists. split; [done|]. by destruct q.
Qed.

Definition stamped (pts dts : Z) (k : Packet) : Packet :=
  k <| PTS := pts |> <| HasPTS := true |> <| DTS := dts |> <| HasDTS := true |>.

Lemma len_pes id pts dts es : len (pes id pts dts es) = 19 + len es.
Proof.
  unfold pes. rewrite !len_app. change (len [_; _; _; _; _; _; _; _; _]) with 9. change (len (stamp _ _)) with 5. lia.
Qed.

Lemma pes_stamps pid cc id pts dts es p :
  0 <= dts <= pts -> pts < 2 ^ 33 -> pv_initialized (ptsValidator p) = false ->
  exists v, parse_stamps (plain_packet pid true cc (pes id pts dts es)) p =
    Ret (p <| ptsValidator := v |>, stamped pts dts (plain_packet pid true cc (pes id pts dts es)), Val tt).
Proof.
  intros Hd Hp Hv. change (2 ^ 33) with 8589934592 in Hp. set (l := pes id pts dts es).
  set (k := plain_packet pid true cc l).
  pose proof (len_nonneg es).
  assert (len l = 19 + len es) as Hl by apply len_pes.
  unfold parse_stamps. change (Payload k) with l. change (idx l 7) with (Ret 0xC0). rewrite bind_Ret.
  change (Z.land (Z.shiftr 0xC0 6) 3) with 3. change (Z.land 3 2 =? 0) with false. change (negb (Z.land 3 1 =? 0)) with true.
  cbv zeta iota. rewrite Hl. rewrite (proj2 (Z.ltb_ge (19 + len es) 14)) by lia. rewrite <- Hl.
  replace (slice l 9 (len l)) with (Ret (stamp 3 pts ++ stamp 1 dts ++ es)) by (symmetry; by apply (slice_tail [0; 0; 1; id; 0; 0; 0x80; 0xC0; 10])).
  rewrite bind_Ret, stamp_round_trip by (change (2 ^ 33) with 8589934592; lia). rewrite bind_Ret. cbv iota beta zeta.
  set (k1 := upd HasPTS true (upd PTS pts k)). change (Payload k1) with l.
  rewrite (proj2 (Z.ltb_ge (len l) 19)) by lia.
  replace (slice l 14 (len l)) with (Ret (stamp 1 dts ++ es))
    by (symmetry; by apply (slice_tail ([0; 0; 1; id; 0; 0; 0x80; 0xC0; 10] ++ stamp 3 pts))).
  rewrite !bind_Ret, stamp_round_trip by (change (2 ^ 33) with 8589934592; lia). rewrite !bind_Ret. cbv iota beta zeta.
  change (upd HasDTS true (upd DTS dts k1)) with (stamped pts dts k).
  change (PTS (stamped pts dts k)) with pts. change (DTS (stamped pts dts k)) with dts.
  unfold ValidateTimestamps. rewrite Hv. cbn [negb].
  assert (stamp_check pts dts = None) as ->.
  { unfold stamp_check. change MaxPTSValue with 8589934591. repeat case_bool; try done; lia. }
  unfold ValidatePTSDTSOrder, ValidatePTS, ValidateDTS. change (maxPTS NewTimestampValidator) with 8589934592.
  change (maxDTS NewTimestampValidator) with 8589934592.
  rewrite (proj2 (Z.ltb_ge pts 0)), (proj2 (Z.leb_gt 8589934592 pts)), (proj2 (Z.ltb_ge dts 0)),
    (proj2 (Z.leb_gt 8589934592 dts)), (proj2 (Z.ltb_ge pts dts)) by lia.
  eexists. case_bool; done.
Qed.

Lemma pes_packet clock i pid cc id pts dts es p :
  0 < pid <= MaxPID -> pid <> pmtPID p -> pmtParsed p = true -> 0 <= cc < 16 -> len es <= 165 ->
  has_stamps id = true -> 0 <= dts <= pts -> pts < 2 ^ 33 ->
  pv_initialized (ptsValidator p) = false -> idle pid (pesValidator p) -> 65541 <= maxPESSize (pesValidator p) ->
  exists p', parse_one false clock i (ts_packet pid true cc (pes id pts dts es)) p =
      Ret (p', Some (stamped pts dts (plain_packet pid true cc (pes id pts dts es))), []) /\
    selection p' = selection p.
Proof.
  intros Hpid Hne Hpmt Hcc Hes Hid Hd Hp Hv Hidle Hmax. pose proof (len_nonneg es). set (l := pes id pts dts es).
  assert (len l = 19 + len es) as Hl by apply len_pes.
  unfold parse_one. rewrite parse_packet_round_trip by lia. rewrite bind_Ret. cbv iota beta.
  pose proof (check_continuity_same (plain_packet pid true cc l) p) as (Hs & Hv1 & Hv2).
  set (p1 := check_continuity _ p) in *. clearbody p1. pose proof Hs as Hs'. unfold selection in Hs'.
  injection Hs' as _ E2 _ _ _ _ _ _ E8.
  unfold parse_tables. change (PID (plain_packet pid true cc l)) with pid.
  change (PayloadStart (plain_packet pid true cc l) && PayloadExists (plain_packet pid true cc l)) with true.
  unfold PIDProgramAssociation. rewrite E2, E8, Hpmt, (proj2 (Z.eqb_neq pid 0)), (proj2 (Z.eqb_neq pid (pmtPID p))) by lia.
  cbn [andb negb]. rewrite bind_Ret. cbv iota beta. unfold parsePESHeader.
  change (Payload (plain_packet pid true cc l)) with l. change (PayloadStart (plain_packet pid true cc l)) with true.
  cbn iota. rewrite (proj2 (Z.ltb_ge (len l) 9)) by lia.
  destruct (ValidatePESStart_spec pid (clock (2 * i)) (clock (2 * i + 1)) l 0 (pesValidator p1)) as [Hstart _].
  { by exists id, 0, 0, (0x80 :: 0xC0 :: 10 :: stamp 3 pts ++ stamp 1 dts ++ es). }
  { by rewrite Hv2. }
  destruct Hstart as (v & E & _); [by rewrite Hv2|]. change (PID (plain_packet pid true cc l)) with pid. rewrite E, bind_Ret.
  cbv iota beta. rewrite bind_Ret.
  change (idx l 0) with (Ret 0). change (idx l 1) with (Ret 0). change (idx l 2) with (Ret 1). change (idx l 3) with (Ret id).
  rewrite !bind_Ret. change (negb (0 =? 0) || negb (0 =? 0) || negb (1 =? 1)) with false. cbn iota. rewrite Hid.
  set (p2 := upd pesStarted _ _). assert (selection p2 = selection p1 /\ ptsValidator p2 = ptsValidator p1) as [Hs2 Hv3] by done.
  clearbody p2. destruct (pes_stamps pid cc id pts dts es p2 Hd Hp) as [w Hw]; [by rewrite Hv3, Hv1|]. fold l in Hw.
  rewrite Hw, bind_Ret. cbn [andb]. rewrite bind_Ret. eexists. split; [done|]. rewrite <- Hs, <- Hs2. done.
Qed.

(** One packet of the input. *)
Lemma parse_loop_packet fuel ext clock pre pkt post p p' k c packets calls :
  len pkt = PacketSize -> parse_one ext clock (Z.quot (len pre) PacketSize) pkt p = Ret (p', Some k, c) ->
  parse_loop (S fuel) ext clock (len pre) (pre ++ pkt ++ post) p packets calls =
    parse_loop fuel ext clock (len (pre ++ pkt)) ((pre ++ pkt) ++ post) p' (packets ++ [k]) (calls ++ c).
Proof.
  intros Hl Hone. pose proof (len_nonneg pre). pose proof (len_nonneg post). unfold PacketSize in *. cbn [parse_loop].
  unfold PacketSize. rewrite !len_app, Hl. rewrite (proj2 (Z.leb_le _ _)) by lia.
  rewrite slice_Ret by (rewrite ?len_app; lia). rewrite bind_Ret. rewrite dropZ_app_ge, Z.sub_diag, dropZ_0 by lia.
  rewrite takeZ_app_le, takeZ_all by lia. rewrite Hone, bind_Ret. by rewrite app_assoc.
Qed.

Lemma parse_loop_end fuel ext clock data p packets calls :
  parse_loop (S fuel) ext clock (len data) (data ++ []) p packets calls = Ret (p, packets, calls).
Proof. cbn [parse_loop]. unfold PacketSize. rewrite app_nil_r. rewrite (proj2 (Z.leb_gt _ _)) by lia. done. Qed.

(** The first two packets. *)
Lemma pat_len programs crc : len crc = 4 -> len (pat programs crc) = 13 + 4 * len programs.
Proof.
  intros Hc. unfold pat. rewrite !len_app, Hc. change (len [_; _; _; _; _; _; _; _; _]) with 9.
  assert (len (flat_map pat_entry programs) = 4 * len programs); [|lia]. clear.
  induction programs as [|e l IH]; [done|]. cbn [flat_map]. rewrite len_app, len_cons, IH.
  change (len (pat_entry e)) with 4. lia.
Qed.

Lemma pat_packet_parsed clock i programs e crc cc p :
  selection p = selection NewParser -> first_program programs = Some e -> Forall entry_ok programs -> len crc = 4 ->
  len (pat programs crc) <= 184 -> 0 <= cc < 16 ->
  exists q, parse_one false clock i (ts_packet 0 true cc (pat programs crc)) p =
      Ret (q, Some (plain_packet 0 true cc (pat programs crc)), []) /\
    selection q = (e.1, e.2, 0, (0, 0), (0, 0), true, false) /\ ptsValidator q = ptsValidator p /\ pesValidator q = pesValidator p.
Proof.
  intros Hp He Hok Hc Hl Hcc. pose proof (pat_len programs crc Hc) as Hlen. pose proof (len_nonneg programs).
  pose proof (check_continuity_same (plain_packet 0 true cc (pat programs crc)) p) as (Hs & Hv1 & Hv2).
  remember (check_continuity (plain_packet 0 true cc (pat programs crc)) p) as p1 eqn:Ep1.
  rewrite Hp in Hs. unfold selection in Hs. injection Hs as E1 E2 E3 E4 E5 E6 E7 E8 E9.
  destruct (table_packet clock i 0 cc (pat programs crc) p (select_program e p1)) as (q & Hq & Hsel & Hw1 & Hw2).
  - unfold MaxPID. lia.
  - done.
  - lia.
  - eexists _, _, _. split; [done|]. right. cbn. Z.to_euclidean_division_equations. lia.
  - rewrite <- Ep1. change (parse_tables _ _ _) with (p' ← parsePAT (pat programs crc) p1; Ret (p', @nil call)).
    rewrite parse_pat_round_trip by (done || lia). by rewrite He.
  - exists q. split; [done|]. split; [|by rewrite Hw1, Hw2]. rewrite Hsel. unfold selection.
    change (pcrPID (select_program e p1)) with (pcrPID p1). change (videoPID (select_program e p1)) with (videoPID p1).
    change (audioPID (select_program e p1)) with (audioPID p1). change (pmtParsed (select_program e p1)) with (pmtParsed p1).
    change (videoStreamType (select_program e p1)) with (videoStreamType p1).
    change (audioStreamType (select_program e p1)) with (audioStreamType p1). by rewrite E3, E4, E5, E6, E7, E9.
Qed.

Lemma pmt_packet_parsed clock i n pid num pcr streams crc cc p :
  selection p = (n, pid, 0, (0, 0), (0, 0), true, false) ->
  0 < pid <= MaxPID -> 0 <= pcr <= MaxPID -> Forall (fun s => stream_ok s /\ 0 < s_pid s) streams -> len crc = 4 ->
  len (pmt num pcr streams crc) <= 184 -> 0 <= cc < 16 ->
  exists q, parse_one false clock i (ts_packet pid true cc (pmt num pcr streams crc)) p =
      Ret (q, Some (plain_packet pid true cc (pmt num pcr streams crc)), []) /\
    selection q = (n, pid, pcr, chosen is_video streams 0 0, chosen is_audio streams 0 0, true, true) /\
    ptsValidator q = ptsValidator p /\ pesValidator q = pesValidator p.
Proof.
  intros Hp Hr Hpcr Hok Hc Hl Hcc. apply Forall_and in Hok as [Hok Hpos]. pose proof (len_nonneg (flat_map pmt_entry streams)).
  assert (len (pmt num pcr streams crc) = 17 + len (flat_map pmt_entry streams)) as Hlen.
  { unfold pmt. rewrite !len_app, Hc. change (len [_; _; _; _; _; _; _; _; _; _; _; _; _]) with 13. lia. }
  pose proof (check_continuity_same (plain_packet pid true cc (pmt num pcr streams crc)) p) as (Hs & Hv1 & Hv2).
  remember (check_continuity (plain_packet pid true cc (pmt num pcr streams crc)) p) as p1 eqn:Ep1.
  rewrite Hp in Hs. unfold selection in Hs. injection Hs as E1 E2 E3 E4 E5 E6 E7 E8 E9.
  destruct (table_packet clock i pid cc (pmt num pcr streams crc) p
    ((select_streams streams (p1 <| pcrPID := pcr |>)) <| pmtParsed := true |>)) as (q & Hq & Hsel & Hw1 & Hw2).
  - lia.
  - done.
  - lia.
  - eexists _, _, _. split; [done|]. left. done.
  - rewrite <- Ep1. unfold parse_tables. change (PID (plain_packet _ _ _ _)) with pid.
    change (PayloadStart _ && PayloadExists _) with true. change (Payload (plain_packet _ _ _ _)) with (pmt num pcr streams crc).
    unfold PIDProgramAssociation. rewrite E2, (proj2 (Z.eqb_neq pid 0)), Z.eqb_refl by lia. cbn [andb].
    apply parse_pmt_round_trip; [by rewrite E9|done|done|done|lia].
  - exists q. split; [done|].
    destruct (select_streams_same streams (p1 <| pcrPID := pcr |>)) as (A1 & A2 & A3 & A4 & A5 & A6).
    destruct (select_streams_chosen streams (p1 <| pcrPID := pcr |>) Hpos) as [Cv Ca].
    split; [|split; [rewrite Hw1; etransitivity; [exact A5|exact Hv1]|rewrite Hw2; etransitivity; [exact A6|exact Hv2]]].
    rewrite Hsel. set (r := select_streams _ _) in *. clearbody r. cbn in A1, A2, A3, A4, Cv, Ca.
    unfold selection. change (pmtParsed (upd pmtParsed true r)) with true. cbn.
    by rewrite A1, A2, A3, A4, Cv, Ca, E1, E2, E4, E5, E6, E7, E8.
Qed.

(** What a fresh parser is to select. *)
Record program_ok (programs : list (Z * Z)) (num pmt_ pcr : Z) (streams : list stream) (video : stream) : Prop := {
  pr_first : first_program programs = Some (num, pmt_);
  pr_programs : Forall entry_ok programs;
  pr_num : 0 <= num < 65536;
  pr_pmt : 0 < pmt_ <= MaxPID;
  pr_pcr : 0 <= pcr <= MaxPID;
  pr_streams : Forall (fun s => stream_ok s /\ 0 < s_pid s) streams;
  pr_video : first_stream is_video streams = Some video;
  pr_other : s_pid video <> pmt_
}.

(** C38: on a stream of a program association table, a program map table and
    the first PES packet of the program's video stream, written as the standard
    says, a fresh parser returns the three packets, the last with exactly the
    presentation and decoding times written into it, and selects the first
    program, its PCR PID and its first video and first audio streams. *)
Theorem program_acquired clock programs num pmt_ pcr streams video crc crc' c0 c1 c2 id pts dts es :
  program_ok programs num pmt_ pcr streams video ->
  len crc = 4 -> len crc' = 4 -> len (pat programs crc) <= 184 -> len (pmt num pcr streams crc') <= 184 -> len es <= 165 ->
  0 <= c0 < 16 -> 0 <= c1 < 16 -> 0 <= c2 < 16 -> has_stamps id = true -> 0 <= dts <= pts -> pts < 2 ^ 33 ->
  let pat_packet := ts_packet 0 true c0 (pat programs crc) in
  let pmt_packet := ts_packet pmt_ true c1 (pmt num pcr streams crc') in
  let pes_packet := ts_packet (s_pid video) true c2 (pes id pts dts es) in
  exists p, Parse clock (pat_packet ++ pmt_packet ++ pes_packet) NewParser =
      Ret (p, Val [plain_packet 0 true c0 (pat programs crc); plain_packet pmt_ true c1 (pmt num pcr streams crc');
                   stamped pts dts (plain_packet (s_pid video) true c2 (pes id pts dts es))], []) /\
    selection p = (num, pmt_, pcr, (s_pid video, s_type video), chosen is_audio streams 0 0, true, true).
Proof.
  intros [Hfirst Hprog Hnum Hpmt Hpcr Hstr Hvid Hother] Hc Hc' Hl1 Hl2 Hl3 H0 H1 H2 Hid Hd Hp pk0 pk1 pk2.
  destruct (pat_packet_parsed clock 0 programs (num, pmt_) crc c0 NewParser) as (p0 & E0 & S0 & V0 & W0); try done.
  destruct (pmt_packet_parsed clock 1 num pmt_ num pcr streams crc' c1 p0) as (p1 & E1 & S1 & V1 & W1); try done.
  assert (In video streams /\ chosen is_video streams 0 0 = (s_pid video, s_type video)) as [Hin Hch].
  { unfold chosen, first_stream in *. change (0 =? 0) with true. cbn iota. rewrite Hvid. split; [|done].
    apply head_Some_elem_of, list_elem_of_filter in Hvid as [_ Hin]. by apply list_elem_of_In. }
  rewrite Forall_forall in Hstr. destruct (Hstr video) as [[Hpid _] Hpos]; [by apply list_elem_of_In|].
  rewrite Hch in S1. pose proof S1 as S1'. unfold selection in S1'. injection S1' as _ A2 _ _ _ _ _ A9.
  destruct (pes_packet clock 2 (s_pid video) c2 id pts dts es p1) as (p2 & E2 & S2); try done.
  { lia. } { by rewrite A2. } { by rewrite V1, V0. } { by rewrite W1, W0. } { by rewrite W1, W0. }
  pose proof (ts_packet_len 0 true c0 (pat programs crc) Hl1) as L0.
  pose proof (ts_packet_len pmt_ true c1 (pmt num pcr streams crc') Hl2) as L1.
  assert (len (pes id pts dts es) = 19 + len es) as Hpl by apply len_pes.
  pose proof (ts_packet_len (s_pid video) true c2 (pes id pts dts es) ltac:(lia)) as L2. fold pk0 in E0, L0. fold pk1 in E1, L1.
  fold pk2 in E2, L2. clearbody pk0 pk1 pk2. exists p2. split; [|by rewrite S2].
  unfold Parse, ParseWithExtractor. assert (len (pk0 ++ pk1 ++ pk2) = 564) as Hlen by (rewrite !len_app, L0, L1, L2; done).
  rewrite Hlen. change (564 <? PacketSize) with false. cbn iota.
  assert (exists fuel, S (length (pk0 ++ pk1 ++ pk2)) = S (S (S (S fuel)))) as [fuel ->].
  { exists 561%nat. unfold len in Hlen. lia. }
  rewrite <- (app_nil_r pk2). change (pk0 ++ pk1 ++ pk2 ++ []) with ([] ++ pk0 ++ pk1 ++ pk2 ++ []).
  rewrite (parse_loop_packet _ _ _ [] _ _ _ _ _ _ _ _ L0 E0).
  rewrite (parse_loop_packet _ _ _ _ pk1 _ _ p1 (plain_packet pmt_ true c1 (pmt num pcr streams crc')) []); [|done|].
  2: { by rewrite app_nil_l, L0. }
  rewrite (parse_loop_packet _ _ _ _ pk2 _ _ p2 (stamped pts dts (plain_packet (s_pid video) true c2 (pes id pts dts es))) []); [|done|].
  2: { by rewrite app_nil_l, len_app, L0, L1. }
  by rewrite parse_loop_end.
Qed.

(** Two programs' streams: H.264 video, AAC audio, a second audio stream. *)
Lemma program_acquired_witness :
  program_ok [(0, 16); (1, 0x1000)] 1 0x1000 0x100 [mkStream 0x1B 0x100 [0x28; 0]; mkStream 0x0F 0x101 []; mkStream 0x03 0x102 []]
    (mkStream 0x1B 0x100 [0x28; 0]) /\
  exists p, Parse (fun t => t)
    (ts_packet 0 true 0 (pat [(0, 16); (1, 0x1000)] [1; 2; 3; 4]) ++
     ts_packet 0x1000 true 0 (pmt 1 0x100 [mkStream 0x1B 0x100 [0x28; 0]; mkStream 0x0F 0x101 []; mkStream 0x03 0x102 []] [5; 6; 7; 8]) ++
     ts_packet 0x100 true 3 (pes 0xE0 8589934591 8589931588 [0; 0; 1; 0x65])) NewParser =
      Ret (p, Val [plain_packet 0 true 0 (pat [(0, 16); (1, 0x1000)] [1; 2; 3; 4]);
        plain_packet 0x1000 true 0 (pmt 1 0x100 [mkStream 0x1B 0x100 [0x28; 0]; mkStream 0x0F 0x101 []; mkStream 0x03 0x102 []] [5; 6; 7; 8]);
        stamped 8589934591 8589931588 (plain_packet 0x100 true 3 (pes 0xE0 8589934591 8589931588 [0; 0; 1; 0x65]))], []) /\
    selection p = (1, 0x1000, 0x100, (0x100, 0x1B), (0x101, 0x0F), true, true).
Proof.
  assert (program_ok [(0, 16); (1, 0x1000)] 1 0x1000 0x100 [mkStream 0x1B 0x100 [0x28; 0]; mkStream 0x0F 0x101 []; mkStream 0x03 0x102 []]
    (mkStream 0x1B 0x100 [0x28; 0])) as Hok.
  { split; unfold entry_ok, stream_ok, MaxPID; first [done | decide_goal]. }
  split; [exact Hok|].
  apply (program_acquired (fun t => t) _ _ _ _ _ _ [1; 2; 3; 4] [5; 6; 7; 8] 0 0 3 0xE0 8589934591 8589931588 [0; 0; 1; 0x65] Hok);
    first [done | lia | vm_compute; done].
Defined.
