(* ===== verification/Gop.v ===== *)
(** * Groups of pictures (types/gop.go)

    A GOP owns the list of its frames; the frames are shared by pointer but
    only [AddFrame] writes to one (its GOP id and position). *)

From stdpp Require Import strings.
From S2P Require Import Prelude Float64 Frame.

Record GOPStructure := mkStructure { Pattern : string; Size : Z; OpenGOP : bool; Hierarchical : bool }.
#[export] Instance eta_structure : Eta GOPStructure := fun s =>
  mkStructure (Pattern s) (Size s) (OpenGOP s) (Hierarchical s).

Record GOP := mkGOP {
  ID : Z;
  StreamID : string;
  SequenceNum : Z;
  Frames : list VideoFrame;
  Keyframe : option VideoFrame;
  StartPTS : Z;
  EndPTS : Z;
  Duration : Z;
  StartTime : Z;
  EndTime : Z;
  Structure : GOPStructure;
  Complete : bool;
  Closed : bool;
  TotalSize : Z;
  AvgFrameSize : Z;
  BitRate : Z;
  IFrameSize : Z;
  PFrameCount : Z;
  BFrameCount : Z;
  DroppedFrames : Z;
  CorruptedFrames : Z;
  AvgQP : float64;
  SceneChange : bool;
  SceneScore : float64
}.
#[export] Instance eta_gop : Eta GOP := fun g =>
  mkGOP (ID g) (StreamID g) (SequenceNum g) (Frames g) (Keyframe g) (StartPTS g) (EndPTS g)
    (Duration g) (StartTime g) (EndTime g) (Structure g) (Complete g) (Closed g) (TotalSize g)
    (AvgFrameSize g) (BitRate g) (IFrameSize g) (PFrameCount g) (BFrameCount g) (DroppedFrames g)
    (CorruptedFrames g) (AvgQP g) (SceneChange g) (SceneScore g).

(** [AddFrame]: the GOP after the call, and the frame as the call leaves it. *)
Definition AddFrame (frame : VideoFrame) (g : GOP) : GOP * VideoFrame :=
  let n := len (Frames g) in
  let frame := frame <| GOPId := ID g |> <| GOPPosition := n |> in
  let g := g <| Frames := Frames g ++ [frame] |> in
  let g := g <| TotalSize := i64 (TotalSize g + Frame.TotalSize frame) |> in
  let g :=
    if len (Frames g) =? 1 then
      let g := g <| StartPTS := PTS frame |> <| StartTime := CaptureTime frame |> in
      if FrameType_IsKeyframe (FType frame)
      then g <| Keyframe := Some frame |> <| IFrameSize := Frame.TotalSize frame |> else g
    else g in
  let g := g <| EndPTS := PTS frame |> <| EndTime := CompleteTime frame |> in
  let g :=
    match FType frame with
    | FrameTypeP => g <| PFrameCount := i64 (PFrameCount g + 1) |>
    | FrameTypeB => g <| BFrameCount := i64 (BFrameCount g + 1) |>
    | _ => g
    end in
  let g := if IsCorrupted frame then g <| CorruptedFrames := i64 (CorruptedFrames g + 1) |> else g in
  (g, frame).

Definition generatePattern (g : GOP) : string :=
  foldl (fun p f => (p ++ FrameType_String (FType f))%string) ""%string (Frames g).

(** [EndPTS - StartPTS], plus the last frame's duration when it is positive. *)
Definition span (g : GOP) : Z :=
  let d := i64 (EndPTS g - StartPTS g) in
  match last (Frames g) with
  | Some f => if 0 <? Frame.Duration f then i64 (d + Frame.Duration f) else d
  | None => d
  end.
Definition bit_rate (g : GOP) : Z :=
  f64_trunc (f64_div (f64_of_Z (i64 (TotalSize g * 8)))
                     (f64_div (f64_of_Z (Duration g)) (f64_of_Z 90000))).

Definition CalculateStats (g : GOP) : GOP :=
  if len (Frames g) =? 0 then g
  else
    let g := g <| AvgFrameSize := Z.quot (TotalSize g) (len (Frames g)) |> in
    let g := g <| Duration := span g |> in
    let g := if 0 <? Duration g then g <| BitRate := bit_rate g |> else g in
    let '(totalQP, qpCount) :=
      foldl (fun '(t, c) f => if 0 <? QP f then (i64 (t + QP f), c + 1) else (t, c)) (0, 0) (Frames g) in
    let g := if 0 <? qpCount then g <| AvgQP := f64_div (f64_of_Z totalQP) (f64_of_Z qpCount) |> else g in
    g <| Structure := (Structure g) <| Size := len (Frames g) |> <| Pattern := generatePattern g |> |>.

Definition IsComplete (g : GOP) : bool :=
  if negb (Complete g) then false
  else if (0 <? Size (Structure g)) && negb (len (Frames g) =? Size (Structure g)) then false
  else match Keyframe g with None => false | Some _ => true end.

Definition CanDrop (g : GOP) : bool :=
  if negb (Complete g) then false
  else if SceneChange g then false
  else if OpenGOP (Structure g) then false
  else true.

Definition GetFrameByPosition (position : Z) (g : GOP) : option VideoFrame :=
  if (position <? 0) || (len (Frames g) <=? position) then None
  else Frames g !! Z.to_nat position.

Definition GetReferenceFrames (g : GOP) : list VideoFrame :=
  filter (fun f => IsReference f = true) (Frames g).

Definition HasCompleteReferences (g : GOP) : GOP * bool :=
  let ids := Frame.ID <$> Frames g in
  if forallb (fun f => forallb (fun r => bool_decide (r ∈ ids)) (References f)) (Frames g)
  then (g <| Closed := true |>, true)
  else (g <| Structure := (Structure g) <| OpenGOP := true |> |>, false).

(** The frames after a P-frame: false when a B-frame comes before the next
    P-frame or key frame. *)
Fixpoint no_b_before_ref (l : list VideoFrame) : bool :=
  match l with
  | [] => true
  | f :: l =>
      if ft_eqb (FType f) FrameTypeB then false
      else if ft_eqb (FType f) FrameTypeP || IsKeyframe f then true
      else no_b_before_ref l
  end.

Definition CanDropFrame (position : Z) (g : GOP) : bool :=
  if (position <? 0) || (len (Frames g) <=? position) then false
  else
    match Frames g !! Z.to_nat position with
    | None => false
    | Some frame =>
        if IsKeyframe frame then false
        else if ft_eqb (FType frame) FrameTypeB then true
        else if ft_eqb (FType frame) FrameTypeP then no_b_before_ref (dropZ (position + 1) (Frames g))
        else false
    end.

Definition UpdateDuration (g : GOP) : GOP :=
  match Frames g with
  | [] => g <| Duration := 0 |> <| StartPTS := 0 |> <| EndPTS := 0 |>
  | f :: _ =>
      let g := g <| StartPTS := PTS f |> in
      let g := match last (Frames g) with Some l => g <| EndPTS := PTS l |> | None => g end in
      let g := g <| Duration := span g |> in
      if 0 <? Duration g then g <| BitRate := bit_rate g |> else g <| BitRate := 0 |>
  end.
