(* ===== verification/GopBuffer.v ===== *)
(** * The GOP buffer (gop/buffer.go)

    A queue of GOPs with two indices over it: GOP id to list element, and
    frame id to GOP and position.  GOPs are shared objects: [store] is the
    heap they live in, the queue and the indices hold addresses.  Methods hold
    the buffer's mutex.  The parameter sets found in an added GOP and the drop
    callback concern another component and are left out, as are log calls. *)

From stdpp Require Import strings sorting.
From S2P Require Import Prelude Float64 Frame Gop.

#[export] Instance GOP_inhabited : Inhabited GOP :=
  populate (mkGOP 0 "" 0 [] None 0 0 0 0 0 (mkStructure "" 0 false false) false false 0 0 0 0 0 0 0 0
    (f64_of_Z 0) false (f64_of_Z 0)).

(** Address of a GOP object. *)
Definition gop_ref : Type := nat.

Record FrameLocation := mkLoc { loc_GOP : gop_ref; loc_Position : Z }.

Record Buffer := mkBuffer {
  streamID : string;
  store : gmap gop_ref GOP;
  gops : list gop_ref;
  gopIndex : gmap Z gop_ref;
  maxGOPs : Z;
  maxBytes : Z;
  maxDuration : Z;
  currentBytes : Z;
  oldestTime : Z;
  newestTime : Z;
  frameIndex : gmap Z FrameLocation;
  totalGOPs : Z;
  droppedGOPs : Z;
  droppedFrames : Z
}.
#[export] Instance eta_buffer : Eta Buffer := fun b =>
  mkBuffer (streamID b) (store b) (gops b) (gopIndex b) (maxGOPs b) (maxBytes b) (maxDuration b)
    (currentBytes b) (oldestTime b) (newestTime b) (frameIndex b) (totalGOPs b) (droppedGOPs b)
    (droppedFrames b).

Record BufferConfig := { MaxGOPs : Z; MaxBytes : Z; MaxDuration : Z }.

Definition NewBuffer (id : string) (config : BufferConfig) : Buffer :=
  mkBuffer id ∅ [] ∅ (MaxGOPs config) (MaxBytes config) (MaxDuration config) 0 zero_time zero_time ∅ 0 0 0.

Definition gop_of (b : Buffer) (r : gop_ref) : GOP := store b !!! r.
Definition set_gop (r : gop_ref) (g : GOP) (b : Buffer) : Buffer := b <| store := <[r := g]> (store b) |>.

(** ** Frame index *)

Definition unindex (l : list VideoFrame) (m : gmap Z FrameLocation) : gmap Z FrameLocation :=
  foldl (fun m f => delete (Frame.ID f) m) m l.
(** Locations of the frames of [r] from position [i] on. *)
Fixpoint index_from (r : gop_ref) (i : Z) (l : list VideoFrame) (m : gmap Z FrameLocation)
    : gmap Z FrameLocation :=
  match l with
  | [] => m
  | f :: l => index_from r (i + 1) l (<[Frame.ID f := mkLoc r i]> m)
  end.
(** [updateFrameIndicesAfterRemoval]: only frames that are indexed move. *)
Fixpoint reposition (i : Z) (l : list VideoFrame) (m : gmap Z FrameLocation) : gmap Z FrameLocation :=
  match l with
  | [] => m
  | f :: l =>
      reposition (i + 1) l
        match m !! Frame.ID f with
        | Some loc => <[Frame.ID f := mkLoc (loc_GOP loc) i]> m
        | None => m
        end
  end.

(** ** Adding and limits *)

Definition removeOldestGOP (b : Buffer) : Buffer :=
  match gops b with
  | [] => b
  | r :: rest =>
      let g := gop_of b r in
      let b := b <| gopIndex := delete (ID g) (gopIndex b) |>
                 <| frameIndex := unindex (Frames g) (frameIndex b) |>
                 <| currentBytes := i64 (currentBytes b - TotalSize g) |>
                 <| droppedGOPs := u64 (droppedGOPs b + 1) |>
                 <| droppedFrames := u64 (droppedFrames b + len (Frames g)) |>
                 <| gops := rest |> in
      b <| oldestTime := match rest with r' :: _ => StartTime (gop_of b r') | [] => zero_time end |>
  end.

Fixpoint count_loop (fuel : nat) (b : Buffer) : res Buffer :=
  match fuel with
  | O => NoFuel
  | S fuel => if maxGOPs b <? len (gops b) then count_loop fuel (removeOldestGOP b) else Ret b
  end.
Fixpoint bytes_loop (fuel : nat) (b : Buffer) : res Buffer :=
  match fuel with
  | O => NoFuel
  | S fuel =>
      if (maxBytes b <? currentBytes b) && (1 <? len (gops b))
      then bytes_loop fuel (removeOldestGOP b) else Ret b
  end.
Fixpoint duration_loop (fuel : nat) (cutoff : Z) (b : Buffer) : res Buffer :=
  match fuel with
  | O => NoFuel
  | S fuel =>
      match gops b with
      | [] => Ret b
      | r :: _ =>
          if cutoff <? StartTime (gop_of b r) then Ret b
          else duration_loop fuel cutoff (removeOldestGOP b)
      end
  end.
Definition enforceBufferLimits (b : Buffer) : res Buffer :=
  b ← count_loop (S (length (gops b))) b;
  b ← bytes_loop (S (length (gops b))) b;
  if (0 <? maxDuration b) && (1 <? len (gops b))
  then duration_loop (S (length (gops b))) (newestTime b - maxDuration b) b
  else Ret b.

(** The time bounds follow a GOP that is added. *)
Definition widen (g : GOP) (b : Buffer) : Buffer :=
  let b := if is_zero_time (oldestTime b) || (StartTime g <? oldestTime b)
           then b <| oldestTime := StartTime g |> else b in
  if newestTime b <? StartTime g then b <| newestTime := StartTime g |> else b.
(** Queue, indices and counters take the GOP object [g] at address [r]. *)
Definition enqueue (r : gop_ref) (g : GOP) (b : Buffer) : Buffer :=
  b <| gops := gops b ++ [r] |> <| gopIndex := <[ID g := r]> (gopIndex b) |>
    <| frameIndex := index_from r 0 (Frames g) (frameIndex b) |>
    <| currentBytes := i64 (currentBytes b + TotalSize g) |>
    <| totalGOPs := u64 (totalGOPs b + 1) |>.

(** The GOP object [g] at address [r] is added. *)
Definition AddGOP (r : gop_ref) (g : GOP) (b : Buffer) : res Buffer :=
  let b := set_gop r g b in
  if negb (IsComplete g) && negb (Closed g) then Ret b
  else enforceBufferLimits (widen g (enqueue r g b)).

(** ** Queries *)

Definition GetGOP (id : Z) (b : Buffer) : option GOP := gop_of b <$> gopIndex b !! id.
Definition GetFrame (id : Z) (b : Buffer) : res (option VideoFrame) :=
  match frameIndex b !! id with
  | Some loc =>
      let frames := Frames (gop_of b (loc_GOP loc)) in
      if loc_Position loc <? len frames then f ← idx frames (loc_Position loc); Ret (Some f)
      else Ret None
  | None => Ret None
  end.
Definition GetRecentGOPs (limit : Z) (b : Buffer) : res (list GOP) :=
  if limit <? 0 then Panic
  else Ret (gop_of b <$> rev (takeZ limit (rev (gops b)))).
Definition countIFrames (g : GOP) : Z := len (filter (fun f => IsKeyframe f = true) (Frames g)).
Fixpoint latest_iframe (rs : list gop_ref) (b : Buffer) : option VideoFrame :=
  match rs with
  | [] => None
  | r :: rs =>
      match List.find IsKeyframe (Frames (gop_of b r)) with
      | Some f => Some f
      | None => latest_iframe rs b
      end
  end.
Definition GetLatestIFrame (b : Buffer) : option VideoFrame := latest_iframe (rev (gops b)) b.

Definition Clear (b : Buffer) : Buffer :=
  b <| gops := [] |> <| gopIndex := ∅ |> <| frameIndex := ∅ |> <| currentBytes := 0 |>
    <| oldestTime := zero_time |> <| newestTime := zero_time |>.

(** ** Dropping frames *)

Definition subSize (n : Z) (g : GOP) : GOP := g <| TotalSize := i64 (TotalSize g - n) |>.

(** The common body of the two loops below: the frame at position [i] of [r]
    leaves the index and the GOP, with its size; [count] is the decrement of
    the type counter. *)
Definition remove_at (count : GOP -> GOP) (r : gop_ref) (i : Z) (b : Buffer)
    : res (Buffer * VideoFrame) :=
  let g := gop_of b r in
  frame ← idx (Frames g) i;
  let b := b <| frameIndex := delete (Frame.ID frame) (frameIndex b) |> in
  let g := g <| Frames := takeZ i (Frames g) ++ dropZ (i + 1) (Frames g) |> in
  let g := subSize (Frame.TotalSize frame) (count g) in
  let b := set_gop r g b in
  let b := b <| currentBytes := i64 (currentBytes b - Frame.TotalSize frame) |> in
  Ret (b <| frameIndex := reposition i (dropZ i (Frames g)) (frameIndex b) |>, frame).

Definition decB (g : GOP) : GOP := g <| BFrameCount := i64 (BFrameCount g - 1) |>.
Definition decP (g : GOP) : GOP := g <| PFrameCount := i64 (PFrameCount g - 1) |>.

(** Positions of the B-frames, lowest first. *)
Fixpoint b_positions (i : Z) (l : list VideoFrame) : list Z :=
  match l with
  | [] => []
  | f :: l => if ft_eqb (FType f) FrameTypeB then i :: b_positions (i + 1) l else b_positions (i + 1) l
  end.
Fixpoint drop_positions (r : gop_ref) (ps : list Z) (b : Buffer) (dropped : list VideoFrame)
    : res (Buffer * list VideoFrame) :=
  match ps with
  | [] => Ret (b, dropped)
  | i :: ps => '(b, f) ← remove_at decB r i b; drop_positions r ps b (dropped ++ [f])
  end.

Definition update_duration (r : gop_ref) (b : Buffer) : Buffer :=
  set_gop r (UpdateDuration (gop_of b r)) b.

(** [gopCount] negative: all GOPs. *)
Fixpoint dropB_loop (gopCount count : Z) (rs : list gop_ref) (b : Buffer) (dropped : list VideoFrame)
    : res (Buffer * list VideoFrame) :=
  match rs with
  | [] => Ret (b, dropped)
  | r :: rs =>
      if (gopCount <? 0) || (count <? gopCount) then
        let ps := b_positions 0 (Frames (gop_of b r)) in
        '(b, dropped) ← drop_positions r (rev ps) b dropped;
        let b := if 0 <? len ps then update_duration r b else b in
        dropB_loop gopCount (count + 1) rs b dropped
      else Ret (b, dropped)
  end.
Definition dropBFrames (gopCount : Z) (b : Buffer) : res (Buffer * list VideoFrame) :=
  dropB_loop gopCount 0 (gops b) b [].

(** The loop from position [n - 1] down to 0. *)
Fixpoint drop_p_down (n : nat) (r : gop_ref) (b : Buffer) (dropped : list VideoFrame)
    : res (Buffer * list VideoFrame) :=
  match n with
  | O => Ret (b, dropped)
  | S n =>
      let i := Z.of_nat n in
      let g := gop_of b r in
      p ← (if CanDropFrame i g then f ← idx (Frames g) i; Ret (ft_eqb (FType f) FrameTypeP)
           else Ret false);
      if p : bool then '(b, f) ← remove_at decP r i b; drop_p_down n r b (dropped ++ [f])
      else drop_p_down n r b dropped
  end.
Fixpoint dropP_loop (gopCount count : Z) (rs : list gop_ref) (b : Buffer) (dropped : list VideoFrame)
    : res (Buffer * list VideoFrame) :=
  match rs with
  | [] => Ret (b, dropped)
  | r :: rs =>
      if count <? gopCount then
        '(b, dropped) ← drop_p_down (length (Frames (gop_of b r))) r b dropped;
        dropP_loop gopCount (count + 1) rs (update_duration r b) dropped
      else Ret (b, dropped)
  end.
Definition dropPFrames (gopCount : Z) (b : Buffer) : res (Buffer * list VideoFrame) :=
  dropP_loop gopCount 0 (gops b) b [].

Definition keyframes (l : list VideoFrame) : list VideoFrame := filter (fun f => IsKeyframe f = true) l.
Definition others (l : list VideoFrame) : list VideoFrame := filter (fun f => IsKeyframe f = false) l.
Definition subBytes (l : list VideoFrame) (n : Z) : Z :=
  foldl (fun n f => i64 (n - Frame.TotalSize f)) n l.

(** Everything but the key frames of one GOP goes; the index is rebuilt for
    the first key frame only ([reindex = false]) or for all. *)
Definition keep_keyframes (all : bool) (r : gop_ref) (b : Buffer) : Buffer * list VideoFrame :=
  let g := gop_of b r in
  let dropped := others (Frames g) in
  let newFrames := keyframes (Frames g) in
  let b := b <| frameIndex := unindex dropped (frameIndex b) |>
             <| currentBytes := subBytes dropped (currentBytes b) |> in
  let g := g <| Frames := newFrames |> <| PFrameCount := 0 |> <| BFrameCount := 0 |> in
  let g := g <| TotalSize := match newFrames with f :: _ => Frame.TotalSize f | [] => 0 end |> in
  let b := set_gop r g b in
  let b := b <| frameIndex := index_from r 0 (if all then newFrames else takeZ 1 newFrames) (frameIndex b) |> in
  (b, dropped).

Fixpoint dropOld_loop (n : nat) (includeKeyframes : bool) (b : Buffer) (dropped : list VideoFrame)
    : Buffer * list VideoFrame :=
  match n with
  | O => (b, dropped)
  | S n =>
      if 1 <? len (gops b) then
        match gops b with
        | [] => (b, dropped)
        | r :: _ =>
            if includeKeyframes then
              let l := Frames (gop_of b r) in
              dropOld_loop n includeKeyframes (removeOldestGOP b) (dropped ++ l)
            else
              let '(b, l) := keep_keyframes false r b in
              dropOld_loop n includeKeyframes b (dropped ++ l)
        end
      else (b, dropped)
  end.
Definition dropOldGOPs (count : Z) (includeKeyframes : bool) (b : Buffer) : Buffer * list VideoFrame :=
  dropOld_loop (Z.to_nat count) includeKeyframes b [].

Fixpoint dropAll_loop (rs : list gop_ref) (b : Buffer) (dropped : list VideoFrame)
    : Buffer * list VideoFrame :=
  match rs with
  | [] => (b, dropped)
  | r :: rs => let '(b, l) := keep_keyframes true r b in dropAll_loop rs b (dropped ++ l)
  end.
Definition dropAllNonKeyframes (b : Buffer) : Buffer * list VideoFrame := dropAll_loop (gops b) b [].

Definition DropFramesForPressure (pressure : float64) (b : Buffer) : res (Buffer * list VideoFrame) :=
  if f64_ltb pressure (f64_dec 5 1) then Ret (b, [])
  else
    '(b, dropped) ←
      (if f64_ltb pressure (f64_dec 7 1) then dropBFrames 2 b
       else if f64_ltb pressure (f64_dec 85 2) then
         '(b, dropped) ← dropBFrames (-1) b;
         '(b, pDropped) ← dropPFrames 1 b;
         Ret (b, dropped ++ pDropped)
       else if f64_ltb pressure (f64_dec 95 2) then Ret (dropOldGOPs 1 false b)
       else if 1 <? len (gops b) then Ret (dropOldGOPs 1 true b)
       else Ret (dropAllNonKeyframes b));
    Ret (b <| droppedFrames := u64 (droppedFrames b + len dropped) |>, dropped).

Definition dec_type (f : VideoFrame) (g : GOP) : GOP :=
  match FType f with FrameTypeP => decP g | FrameTypeB => decB g | _ => g end.

Definition DropFramesFromGOP (id startIndex : Z) (b : Buffer) : res (Buffer * list VideoFrame) :=
  match gopIndex b !! id with
  | None => Ret (b, [])
  | Some r =>
      let g := gop_of b r in
      if (startIndex <? 0) || (len (Frames g) <=? startIndex) then Ret (b, [])
      else
        dropped ← slice (Frames g) startIndex (len (Frames g));
        kept ← slice (Frames g) 0 startIndex;
        let b := b <| frameIndex := index_from r 0 kept (unindex dropped (frameIndex b)) |>
                   <| currentBytes := subBytes dropped (currentBytes b) |> in
        let g := g <| Frames := kept |>
                   <| TotalSize := foldl (fun n f => i64 (n + Frame.TotalSize f)) 0 kept |> in
        let g := foldl (fun g f => dec_type f g) (UpdateDuration g) dropped in
        let b := set_gop r g b in
        Ret (b <| droppedFrames := u64 (droppedFrames b + len dropped) |>, dropped)
  end.

Record BufferStatistics := mkBStats {
  bs_StreamID : string; GOPCount : Z; FrameCount : Z; IFrames : Z; PFrames : Z; BFrames : Z;
  TotalBytes : Z; bs_Duration : Z; OldestTime : Z; NewestTime : Z; TotalGOPs : Z; DroppedGOPs : Z;
  bs_DroppedFrames : Z }.
Definition sum_over (f : GOP -> Z) (b : Buffer) : Z :=
  foldr (fun r n => i64 (f (gop_of b r) + n)) 0 (gops b).
Definition GetStatistics (b : Buffer) : BufferStatistics :=
  mkBStats (streamID b) (len (gops b)) (sum_over (fun g => len (Frames g)) b)
    (sum_over countIFrames b) (sum_over PFrameCount b) (sum_over BFrameCount b) (currentBytes b)
    (if negb (is_zero_time (oldestTime b)) && negb (is_zero_time (newestTime b))
     then time_sub (newestTime b) (oldestTime b) else 0)
    (oldestTime b) (newestTime b) (totalGOPs b) (droppedGOPs b) (droppedFrames b).

(** ** Consistency *)

Definition ids (l : list VideoFrame) : list Z := Frame.ID <$> l.
Definition fsum (l : list VideoFrame) : Z := foldr (fun f n => Frame.TotalSize f + n) 0 l.
Definition frames_at (b : Buffer) (r : gop_ref) : list VideoFrame := Frames (gop_of b r).
Definition all_frames (b : Buffer) : list VideoFrame := concat (frames_at b <$> gops b).
Definition gop_ids (b : Buffer) : list Z := (fun r => ID (gop_of b r)) <$> gops b.

(** Equal as 64-bit counters. *)
Definition same64 (x y : Z) : Prop := u64 x = u64 y.

(** Whether the GOPs added carry the size of their frames.  It decides whether
    the byte counters are exact; the indices are exact either way. *)
Class SizedGOPs := sized_gops : bool.

(** The queue, the two indices and the byte counters agree. *)
Record buf_ok `{SizedGOPs} (b : Buffer) : Prop := {
  bo_refs : NoDup (gops b);
  bo_gids : NoDup (gop_ids b);
  bo_ids : NoDup (ids (all_frames b));
  bo_gop r : r ∈ gops b -> gopIndex b !! ID (gop_of b r) = Some r;
  bo_no_gop id : id ∉ gop_ids b -> gopIndex b !! id = None;
  bo_frame r k f : r ∈ gops b -> frames_at b r !! k = Some f ->
    frameIndex b !! Frame.ID f = Some (mkLoc r (Z.of_nat k));
  bo_no_frame id : id ∉ ids (all_frames b) -> frameIndex b !! id = None;
  bo_bytes : sized_gops = true -> same64 (currentBytes b) (fsum (all_frames b));
  bo_sized r : sized_gops = true -> r ∈ gops b -> same64 (TotalSize (gop_of b r)) (fsum (frames_at b r));
  bo_key r : r ∈ gops b -> (length (keyframes (frames_at b r)) <= 1)%nat
}.

Lemma ids_app l k : ids (l ++ k) = ids l ++ ids k.
Proof. apply fmap_app. Qed.
Lemma fsum_app l k : fsum (l ++ k) = fsum l + fsum k.
Proof. induction l as [|f l IH]; simpl; [done|]. rewrite IH. lia. Qed.
Lemma ids_elem f l : f ∈ l -> Frame.ID f ∈ ids l.
Proof. intros. by apply list_elem_of_fmap_2. Qed.
Lemma ids_lookup l k f : l !! k = Some f -> Frame.ID f ∈ ids l.
Proof. intros. by eapply ids_elem, list_elem_of_lookup_2. Qed.

Lemma if_decide_eq {A} (P Q : Prop) `{Decision P, Decision Q} (x y : A) :
  (P <-> Q) -> (if bool_decide P then x else y) = (if bool_decide Q then x else y).
Proof. intros. by rewrite (bool_decide_ext P Q). Qed.

Lemma unindex_lookup l m id :
  unindex l m !! id = if bool_decide (id ∈ ids l) then None else m !! id.
Proof.
  unfold unindex, ids. revert m. induction l as [|f l IH]; intros m; simpl.
  { done. }
  rewrite IH. destruct (decide (id = Frame.ID f)) as [->|Hne].
  - rewrite lookup_delete_eq, (bool_decide_eq_true_2 (_ ∈ _ :: _)) by (apply elem_of_cons; auto).
    by case_bool_decide.
  - rewrite lookup_delete_ne by done. apply if_decide_eq.
    rewrite elem_of_cons. tauto.
Qed.

Lemma index_from_other r i l m id : id ∉ ids l -> index_from r i l m !! id = m !! id.
Proof.
  revert i m. induction l as [|f l IH]; intros i m Hid; [done|]. cbn [index_from].
  apply not_elem_of_cons in Hid as [Hne Hid]. rewrite IH by done. by rewrite lookup_insert_ne.
Qed.
Lemma index_from_lookup r i l m k f :
  NoDup (ids l) -> l !! k = Some f ->
  index_from r i l m !! Frame.ID f = Some (mkLoc r (i + Z.of_nat k)).
Proof.
  revert i m k. induction l as [|g l IH]; intros i m k Hnd Hk; [done|]. cbn [index_from].
  apply NoDup_cons in Hnd as [Hg Hnd]. destruct k as [|k]; simpl in Hk.
  - injection Hk as ->. rewrite index_from_other, lookup_insert_eq by done. by rewrite Z.add_0_r.
  - rewrite (IH _ _ k) by done. do 2 f_equal. lia.
Qed.

Lemma reposition_other i l m id : id ∉ ids l -> reposition i l m !! id = m !! id.
Proof.
  revert i m. induction l as [|f l IH]; intros i m Hid; [done|]. cbn [reposition].
  apply not_elem_of_cons in Hid as [Hne Hid]. rewrite IH by done.
  destruct (m !! Frame.ID f); [|done]. by rewrite lookup_insert_ne.
Qed.
Lemma reposition_lookup i l m k f :
  NoDup (ids l) -> l !! k = Some f ->
  reposition i l m !! Frame.ID f =
    (fun loc => mkLoc (loc_GOP loc) (i + Z.of_nat k)) <$> m !! Frame.ID f.
Proof.
  revert i m k. induction l as [|g l IH]; intros i m k Hnd Hk; [done|]. cbn [reposition].
  apply NoDup_cons in Hnd as [Hg Hnd]. destruct k as [|k]; simpl in Hk.
  - injection Hk as ->. rewrite reposition_other by done.
    destruct (m !! Frame.ID f) as [loc|] eqn:Hm; [|by rewrite Hm].
    by rewrite lookup_insert_eq, Z.add_0_r.
  - rewrite (IH _ _ k) by done.
    assert (Frame.ID f <> Frame.ID g) as Hne.
    { intros He. apply Hg. rewrite <- He. by eapply ids_lookup. }
    destruct (m !! Frame.ID g); [rewrite lookup_insert_ne by congruence|];
      (destruct (m !! Frame.ID f); simpl; [|done]); do 2 f_equal; lia.
Qed.

Lemma gop_of_set b r g r' : gop_of (set_gop r g b) r' = if decide (r' = r) then g else gop_of b r'.
Proof.
  unfold gop_of, set_gop. simpl. destruct (decide (r' = r)) as [->|].
  - apply lookup_total_insert_eq.
  - by apply lookup_total_insert_ne.
Qed.

Lemma same64_refl x : same64 x x.
Proof. done. Qed.
Lemma same64_trans x y z : same64 x y -> same64 y z -> same64 x z.
Proof. unfold same64. congruence. Qed.

(** The frames of the queue around one of its GOPs. *)
Lemma all_frames_split b r :
  r ∈ gops b ->
  exists xs ys, gops b = xs ++ r :: ys /\
    all_frames b = concat (frames_at b <$> xs) ++ frames_at b r ++ concat (frames_at b <$> ys).
Proof.
  intros Hr. apply list_elem_of_split in Hr as (xs & ys & Hg). exists xs, ys. split; [done|].
  unfold all_frames. rewrite Hg, fmap_app, concat_app. done.
Qed.

Lemma map_frames_ext b b' (rs : list gop_ref) :
  (forall r, r ∈ rs -> gop_of b' r = gop_of b r) -> frames_at b' <$> rs = frames_at b <$> rs.
Proof.
  intros H. apply list_fmap_ext. intros i r Hi. unfold frames_at. rewrite H; [done|].
  by eapply list_elem_of_lookup_2.
Qed.

Lemma sublist_ids l k : sublist l k -> sublist (ids l) (ids k).
Proof. apply fmap_sublist. Qed.
Lemma sublist_keyframes l k : sublist l k -> sublist (keyframes l) (keyframes k).
Proof.
  intros Hs. induction Hs as [|x l k Hs IH|x l k Hs IH]; [done| |].
  - unfold keyframes. rewrite !filter_cons. case_decide; [by constructor|done].
  - unfold keyframes. rewrite (filter_cons _ x k). case_decide; [by constructor|done].
Qed.
Lemma ids_concat f (l : list VideoFrame) (ls : list (list VideoFrame)) :
  f ∈ ids l -> l ∈ ls -> f ∈ ids (concat ls).
Proof.
  intros Hf Hl. apply list_elem_of_fmap in Hf as (f' & -> & Hf'). apply ids_elem.
  apply list_elem_of_In, in_concat. exists l. split; by apply list_elem_of_In.
Qed.

Section operations.
Context `{SizedGOPs}.

(** One GOP loses frames and the index follows: the buffer stays consistent. *)
Lemma retarget b b' r new (old := frames_at b r) :
  buf_ok b -> r ∈ gops b ->
  gops b' = gops b -> gopIndex b' = gopIndex b ->
  (forall r', r' <> r -> gop_of b' r' = gop_of b r') ->
  ID (gop_of b' r) = ID (gop_of b r) -> frames_at b' r = new -> sublist new old ->
  (sized_gops = true -> same64 (TotalSize (gop_of b' r)) (fsum new)) ->
  (sized_gops = true -> same64 (currentBytes b') (currentBytes b - (fsum old - fsum new))) ->
  (forall id, id ∉ ids old -> frameIndex b' !! id = frameIndex b !! id) ->
  (forall k f, new !! k = Some f -> frameIndex b' !! Frame.ID f = Some (mkLoc r (Z.of_nat k))) ->
  (forall id, id ∈ ids old -> id ∉ ids new -> frameIndex b' !! id = None) ->
  buf_ok b'.
Proof.
  intros Hok Hr Hg Hgi Hoth Hid Hnew Hsub Htot Hbytes Hother Hin Hgone.
  destruct Hok as [Hrefs Hgids Hids Hgop Hnogop Hframe Hnoframe Hcb Hsz Hkey].
  destruct (all_frames_split b r Hr) as (xs & ys & Hxy & Hall).
  assert (r ∉ xs /\ r ∉ ys) as [Hx Hy].
  { rewrite Hxy in Hrefs. apply NoDup_app in Hrefs as (_ & Hd & Hn).
    apply NoDup_cons in Hn as [Hn _]. split; [|done]. intros Hin'. apply (Hd r Hin'). by left. }
  assert (all_frames b' = concat (frames_at b <$> xs) ++ new ++ concat (frames_at b <$> ys)) as Hall'.
  { unfold all_frames. rewrite Hg, Hxy, fmap_app, concat_app, fmap_cons, concat_cons, Hnew.
    rewrite (map_frames_ext b b' xs), (map_frames_ext b b' ys); [done|intros; apply Hoth; set_solver..]. }
  assert (forall r', ID (gop_of b' r') = ID (gop_of b r')) as Hsame.
  { intros r'. destruct (decide (r' = r)) as [->|]; [done|by rewrite Hoth]. }
  assert (gop_ids b' = gop_ids b) as Hgids'.
  { unfold gop_ids. rewrite Hg. apply list_fmap_ext. intros i r' _. apply Hsame. }
  assert (sublist (all_frames b') (all_frames b)) as Hsuball.
  { rewrite Hall, Hall'. by repeat apply sublist_app. }
  split.
  - by rewrite Hg.
  - by rewrite Hgids'.
  - apply (sublist_NoDup _ (ids (all_frames b))); [done|by apply sublist_ids].
  - intros r' Hr'. rewrite Hg in Hr'. rewrite Hgi, Hsame. by apply Hgop.
  - intros id Hi. rewrite Hgi. apply Hnogop. by rewrite <- Hgids'.
  - intros r' k f Hr' Hf. rewrite Hg in Hr'. destruct (decide (r' = r)) as [->|Hne].
    { rewrite Hnew in Hf. by apply Hin. }
    unfold frames_at in Hf. rewrite Hoth in Hf by done. rewrite Hother.
    { by apply Hframe. }
    intros Hi. rewrite Hxy in Hr'. apply elem_of_app in Hr'. rewrite elem_of_cons in Hr'.
    assert (Frame.ID f ∈ ids (frames_at b r')) as Hfr by (by eapply ids_lookup).
    assert (forall zs, r' ∈ zs -> Frame.ID f ∈ ids (concat (frames_at b <$> zs))) as Hzs.
    { intros zs Hz. apply (ids_concat _ (frames_at b r')); [done|]. by apply list_elem_of_fmap_2. }
    rewrite Hall, !ids_app in Hids. apply NoDup_app in Hids as (_ & Hd1 & Hn).
    apply NoDup_app in Hn as (_ & Hd2 & _). destruct Hr' as [Hz|[Hz|Hz]]; [|done|].
    + apply (Hd1 _ (Hzs _ Hz)). apply elem_of_app. by left.
    + by apply (Hd2 _ Hi), Hzs.
  - intros id Hi. destruct (decide (id ∈ ids old)) as [Ho|Ho].
    + apply Hgone; [done|]. intros Hn. apply Hi. rewrite Hall', !ids_app, !elem_of_app. tauto.
    + rewrite Hother by done. apply Hnoframe. intros Hn. apply Hi. rewrite Hall, !ids_app in Hn.
      rewrite !elem_of_app in Hn. rewrite Hall', !ids_app, !elem_of_app. unfold old in Ho. tauto.
  - intros Hsg. eapply same64_trans; [exact (Hbytes Hsg)|]. specialize (Hcb Hsg).
    rewrite Hall', !fsum_app. rewrite Hall, !fsum_app in Hcb.
    unfold same64, old in *. mlia.
  - intros r' Hsg Hr'. rewrite Hg in Hr'. destruct (decide (r' = r)) as [->|Hne]; [rewrite Hnew; by apply Htot|].
    unfold frames_at. rewrite Hoth by done. by apply Hsz.
  - intros r' Hr'. rewrite Hg in Hr'. destruct (decide (r' = r)) as [->|Hne].
    + rewrite Hnew. etrans; [|by apply (Hkey r)]. apply sublist_length. by apply sublist_keyframes.
    + unfold frames_at. rewrite Hoth by done. by apply Hkey.
Qed.

(** ** The operations keep it *)

Lemma ids_nodup_at b r : buf_ok b -> r ∈ gops b -> NoDup (ids (frames_at b r)).
Proof.
  intros Hok Hr. destruct (all_frames_split b r Hr) as (xs & ys & _ & Hall).
  pose proof (bo_ids b Hok) as Hn. rewrite Hall, !ids_app in Hn.
  apply NoDup_app in Hn as (_ & _ & Hn). by apply NoDup_app in Hn as (Hn & _ & _).
Qed.

Lemma fsum_cut (l : list VideoFrame) k f :
  l !! k = Some f -> fsum l = fsum (take k l ++ drop (S k) l) + Frame.TotalSize f.
Proof. intros Hf. rewrite <- (take_drop_middle l k f Hf) at 1. rewrite !fsum_app. simpl. lia. Qed.

Lemma cut_sublist {A} (l : list A) k : sublist (take k l ++ drop (S k) l) l.
Proof.
  rewrite <- (take_drop k l) at 3. apply sublist_app; [done|].
  replace (S k) with (k + 1)%nat by lia. rewrite <- drop_drop. apply sublist_drop.
Qed.

(** A GOP update that keeps the id, frames and size. *)
Definition keeps (h : GOP -> GOP) : Prop :=
  forall g, ID (h g) = ID g /\ Frames (h g) = Frames g /\ TotalSize (h g) = TotalSize g.

Lemma decB_keeps : keeps decB.
Proof. by intros g. Qed.
Lemma decP_keeps : keeps decP.
Proof. by intros g. Qed.
Lemma UpdateDuration_keeps : keeps UpdateDuration.
Proof.
  intros g. unfold UpdateDuration. destruct (Frames g) as [|f l] eqn:Hf; [by simpl|].
  destruct (last _) as [x|]; simpl; case_bool; simpl; by rewrite ?Hf.
Qed.

(** The fields that dropping frames leaves alone. *)
Definition limits (b : Buffer) := (maxGOPs b, maxBytes b, maxDuration b, streamID b).

(** A step that keeps the queue: GOPs outside it are not touched, GOPs in it
    keep their id and may lose frames. *)
Definition same_queue (b b' : Buffer) : Prop :=
  gops b' = gops b /\ limits b' = limits b /\
  (forall r, r ∉ gops b -> gop_of b' r = gop_of b r) /\
  (forall r, ID (gop_of b' r) = ID (gop_of b r) /\ sublist (frames_at b' r) (frames_at b r)).
Lemma same_queue_refl b : same_queue b b.
Proof. by repeat split. Qed.
Lemma same_queue_trans a b c : same_queue a b -> same_queue b c -> same_queue a c.
Proof.
  intros (G1 & L1 & O1 & F1) (G2 & L2 & O2 & F2). split; [congruence|]. split; [congruence|].
  split; [intros r Hr; rewrite O2, O1 by (by rewrite ?G1); done|].
  intros r. destruct (F1 r) as [I1 S1], (F2 r) as [I2 S2]. split; [congruence|]. by etrans.
Qed.
Lemma same_queue_one b b' r :
  r ∈ gops b -> gops b' = gops b -> limits b' = limits b ->
  (forall r', r' <> r -> gop_of b' r' = gop_of b r') ->
  ID (gop_of b' r) = ID (gop_of b r) -> sublist (frames_at b' r) (frames_at b r) -> same_queue b b'.
Proof.
  intros Hr Hg Hl Ho Hi Hs. split; [done|]. split; [done|]. split.
  - intros r' Hr'. apply Ho. by intros ->.
  - intros r'. destruct (decide (r' = r)) as [->|Hne]; [done|]. unfold frames_at. by rewrite (Ho r' Hne).
Qed.

Lemma remove_at_ok count r (k : nat) b f :
  keeps count -> buf_ok b -> r ∈ gops b -> frames_at b r !! k = Some f ->
  exists b', remove_at count r (Z.of_nat k) b = Ret (b', f) /\ buf_ok b' /\ same_queue b b' /\
    (forall r', r' <> r -> gop_of b' r' = gop_of b r') /\
    frames_at b' r = take k (frames_at b r) ++ drop (S k) (frames_at b r).
Proof.
  intros Hc Hok Hr Hf. pose proof (ids_nodup_at b r Hok Hr) as Hnd.
  unfold remove_at. fold (frames_at b r).
  assert (idx (frames_at b r) (Z.of_nat k) = Ret f) as ->.
  { unfold idx. rewrite (proj2 (Z.ltb_ge _ 0)), Nat2Z.id, Hf by lia. done. }
  rewrite bind_Ret. set (old := frames_at b r) in *.
  assert (takeZ (Z.of_nat k) old ++ dropZ (Z.of_nat k + 1) old = take k old ++ drop (S k) old) as Hcut.
  { unfold takeZ, dropZ. rewrite Nat2Z.id. do 2 f_equal. lia. }
  rewrite Hcut. set (new := take k old ++ drop (S k) old) in *.
  set (g := subSize _ _).
  assert (ID g = ID (gop_of b r) /\ Frames g = new /\
    TotalSize g = i64 (TotalSize (gop_of b r) - Frame.TotalSize f)) as (Hgi & Hgf & Hgt).
  { subst g. unfold subSize. destruct (Hc ((gop_of b r) <| Frames := new |>)) as (E1 & E2 & E3).
    simpl in *. by rewrite E1, E2, E3. }
  clearbody g. set (b' := upd frameIndex _ _). exists b'. split; [done|].
  assert (forall r', gop_of b' r' = if decide (r' = r) then g else gop_of b r') as Hgop.
  { intros r'. apply (gop_of_set b r g r'). }
  assert (frames_at b' r = new) as Hfr.
  { unfold frames_at. rewrite Hgop. by rewrite decide_True. }
  assert (forall id, frameIndex b' !! id =
    reposition (Z.of_nat k) (drop k new) (delete (Frame.ID f) (frameIndex b)) !! id) as Hfi.
  { intros id. subst b'. simpl. unfold dropZ. by rewrite Hgf, Nat2Z.id. }
  assert (drop k new = drop (S k) old) as Htail.
  { unfold new. rewrite drop_app_ge by (rewrite length_take; lia).
    pose proof (lookup_lt_Some _ _ _ Hf). rewrite length_take, Nat.min_l by lia.
    by rewrite Nat.sub_diag. }
  assert (NoDup (ids (take k old ++ f :: drop (S k) old))) as Hnd' by (by rewrite take_drop_middle).
  rewrite ids_app in Hnd'. apply NoDup_app in Hnd' as (N1 & N2 & N3).
  apply NoDup_cons in N3 as [N3 N4]. fold (ids (drop (S k) old)) in N3, N4.
  assert (forall r', r' <> r -> gop_of b' r' = gop_of b r') as Hoth.
  { intros r' Hne. rewrite Hgop. by rewrite decide_False. }
  assert (ID (gop_of b' r) = ID (gop_of b r)) as Hidr by (rewrite Hgop; by rewrite decide_True).
  split; [|split; [|done]].
  2: { apply (same_queue_one b b' r); try done. rewrite Hfr. apply cut_sublist. }
  apply (retarget b b' r new); try done.
  - apply cut_sublist.
  - intros Hsg. rewrite Hgop, decide_True, Hgt by done. pose proof (bo_sized b Hok r Hsg Hr) as Hs.
    fold old in Hs. rewrite (fsum_cut old k f Hf) in Hs. fold new in Hs. unfold same64 in *. mlia.
  - intros _. change (currentBytes b') with (i64 (currentBytes b - Frame.TotalSize f)).
    fold old. rewrite (fsum_cut old k f Hf). fold new. unfold same64. mlia.
  - intros id Hi. fold old in Hi. rewrite Hfi, Htail, reposition_other, lookup_delete_ne; [done| |].
    + intros <-. apply Hi. by eapply ids_lookup.
    + intros Hin. apply Hi. eapply elem_of_sublist; [exact Hin|]. apply sublist_ids, sublist_drop.
  - intros j f' Hj. rewrite Hfi, Htail. unfold new in Hj. destruct (decide (j < k)%nat) as [Hlt|Hge].
    + pose proof (lookup_lt_Some _ _ _ Hf).
      rewrite lookup_app_l in Hj by (rewrite length_take; lia).
      assert (Frame.ID f' ∈ ids (take k old)) as Hin by (by eapply ids_lookup).
      rewrite reposition_other, lookup_delete_ne.
      * rewrite lookup_take_lt in Hj by lia. by apply (bo_frame b Hok).
      * intros He. apply (N2 _ Hin), elem_of_cons. first [left; congruence | by right].
      * intros He. apply (N2 _ Hin), elem_of_cons. first [left; congruence | by right].
    + pose proof (lookup_lt_Some _ _ _ Hf).
      rewrite lookup_app_r, length_take, Nat.min_l in Hj by (rewrite ?length_take; lia).
      rewrite (reposition_lookup _ _ _ (j - k) f') by done.
      assert (Frame.ID f' <> Frame.ID f) as Hne by (intros He; apply N3; rewrite <- He; by eapply ids_lookup).
      rewrite lookup_delete_ne by done. rewrite lookup_drop in Hj.
      rewrite (bo_frame b Hok r (S k + (j - k)) f') by done. simpl. do 2 f_equal. lia.
  - intros id Hi Hn. fold old in Hi. rewrite Hfi, Htail.
    assert (id = Frame.ID f) as ->.
    { rewrite <- (take_drop_middle old k f Hf), ids_app in Hi. unfold new in Hn. rewrite ids_app in Hn.
      apply elem_of_app in Hi as [Hi|Hi]; [by destruct Hn; apply elem_of_app; left|].
      apply elem_of_cons in Hi as [Hi|Hi]; [done|]. destruct Hn. apply elem_of_app. by right. }
    rewrite reposition_other by done. apply lookup_delete_eq.
Qed.

Lemma update_ok h r b :
  keeps h -> buf_ok b -> r ∈ gops b ->
  buf_ok (set_gop r (h (gop_of b r)) b) /\ same_queue b (set_gop r (h (gop_of b r)) b).
Proof.
  intros Hh Hok Hr. destruct (Hh (gop_of b r)) as (H1 & H2 & H3).
  set (b' := set_gop r _ b).
  assert (forall r', gop_of b' r' = if decide (r' = r) then h (gop_of b r) else gop_of b r') as Hgop
    by (intros r'; apply gop_of_set).
  assert (forall r', frames_at b' r' = frames_at b r') as Hfr.
  { intros r'. unfold frames_at. rewrite Hgop. by case_decide; subst. }
  assert (forall r', r' <> r -> gop_of b' r' = gop_of b r') as Hoth.
  { intros r' Hne. rewrite Hgop. by rewrite decide_False. }
  assert (ID (gop_of b' r) = ID (gop_of b r)) as Hidr by (rewrite Hgop; by rewrite decide_True).
  split; [|apply (same_queue_one b b' r); try done; by rewrite Hfr].
  apply (retarget b b' r (frames_at b r)); try done.
  - intros Hsg. rewrite Hgop, decide_True, H3 by done. by apply (bo_sized b Hok).
  - intros _. replace (currentBytes b - _) with (currentBytes b) by lia. done.
  - intros k f Hk. by apply (bo_frame b Hok).
Qed.

Lemma b_positions_lookup l i :
  Forall (fun p => i <= p < i + len l /\
    exists f, l !! Z.to_nat (p - i) = Some f /\ FType f = FrameTypeB) (b_positions i l).
Proof.
  revert i. induction l as [|f l IH]; intros i; [constructor|]. cbn [b_positions].
  assert (Forall (fun p => i <= p < i + len (f :: l) /\
    exists g, (f :: l) !! Z.to_nat (p - i) = Some g /\ FType g = FrameTypeB) (b_positions (i + 1) l)) as Htl.
  { eapply Forall_impl; [apply IH|]. intros p (Hp & g & Hg & Hb). rewrite len_cons. split; [lia|].
    exists g. split; [|done]. replace (Z.to_nat (p - i)) with (S (Z.to_nat (p - (i + 1)))) by lia. done. }
  destruct (ft_eqb (FType f) FrameTypeB) eqn:Hb; [|done]. constructor; [|done].
  pose proof (len_nonneg l). rewrite len_cons. split; [lia|]. exists f. rewrite Z.sub_diag.
  split; [done|]. by apply ft_eqb_spec.
Qed.

Lemma b_positions_sorted l i : StronglySorted Z.lt (b_positions i l).
Proof.
  revert i. induction l as [|f l IH]; intros i; [constructor|]. cbn [b_positions].
  destruct (ft_eqb _ _); [|done]. constructor; [done|].
  eapply Forall_impl; [apply b_positions_lookup|]. intros p [Hp _]. lia.
Qed.

(** The frame's type (as opposed to its flags) is that of a key frame. *)
Definition key_type (f : VideoFrame) : bool := FrameType_IsKeyframe (FType f).

(** Dropping positions from the highest down. *)
Lemma drop_positions_ok r ps b acc :
  buf_ok b -> r ∈ gops b -> StronglySorted Z.gt ps ->
  Forall (fun p => 0 <= p /\ exists f, frames_at b r !! Z.to_nat p = Some f /\ key_type f = false) ps ->
  exists b' dropped, drop_positions r ps b acc = Ret (b', acc ++ dropped) /\ buf_ok b' /\ same_queue b b' /\
    Forall (fun f => key_type f = false) dropped /\
    (forall r', r' <> r -> frames_at b' r' = frames_at b r').
Proof.
  revert b acc. induction ps as [|p ps IH]; intros b acc Hok Hr Hs Hp; cbn [drop_positions].
  { exists b, []. rewrite app_nil_r. split; [done|]. split; [done|]. split; [apply same_queue_refl|]. by split; [constructor|]. }
  apply Forall_cons in Hp as [(Hp0 & f & Hf & Hkf) Hps]. inversion_clear Hs as [|? ? Hss Hall].
  rewrite <- (Z2Nat.id p) by done.
  destruct (remove_at_ok decB r (Z.to_nat p) b f decB_keeps Hok Hr Hf) as (b1 & -> & Hok1 & Hq1 & Ho1 & Hf1).
  pose proof Hq1 as (Hg1 & _).
  rewrite bind_Ret. cbv beta iota.
  destruct (IH b1 (acc ++ [f])) as (b' & dr & -> & Hok' & Hq & Hk & Ho'); try done.
  { by rewrite Hg1. }
  { rewrite Forall_forall in Hps, Hall |- *. intros q Hq. destruct (Hps q Hq) as (Hq0 & g & Hg & Hkg).
    specialize (Hall q Hq). split; [done|]. exists g. split; [|done]. rewrite Hf1.
    pose proof (lookup_lt_Some _ _ _ Hf).
    rewrite lookup_app_l by (rewrite length_take; lia). by rewrite lookup_take_lt by lia. }
  exists b', (f :: dr). rewrite <- app_assoc. split; [done|]. split; [done|].
  split; [by apply (same_queue_trans b b1)|]. split; [by constructor|].
  intros r' Hne. rewrite Ho' by done. unfold frames_at. by rewrite Ho1.
Qed.

(** A call that returned frames [dropped] and left the buffer consistent, with
    the same GOPs. *)
Definition trimmed (b b' : Buffer) (dropped : list VideoFrame) : Prop :=
  buf_ok b' /\ same_queue b b' /\ Forall (fun f => key_type f = false) dropped.

Lemma trimmed_nil b : buf_ok b -> trimmed b b [].
Proof. intros. split; [done|]. split; [apply same_queue_refl|constructor]. Qed.
Lemma trimmed_trans a b c l k : trimmed a b l -> trimmed b c k -> trimmed a c (l ++ k).
Proof.
  intros (_ & Q1 & F1) (O2 & Q2 & F2). split; [done|]. split; [by apply (same_queue_trans a b)|].
  by apply Forall_app.
Qed.
Lemma trimmed_update h r a b l :
  keeps h -> r ∈ gops b -> trimmed a b l -> trimmed a (set_gop r (h (gop_of b r)) b) l.
Proof.
  intros Hh Hr (O1 & Q1 & F1). destruct (update_ok h r b Hh O1 Hr) as [O2 Q2].
  split; [done|]. split; [by apply (same_queue_trans a b)|done].
Qed.

Lemma b_type_key f : FType f = FrameTypeB -> key_type f = false.
Proof. unfold key_type. by intros ->. Qed.

Lemma dropB_gop_ok r b acc (ps := b_positions 0 (frames_at b r)) :
  buf_ok b -> r ∈ gops b ->
  exists b' dropped, drop_positions r (rev ps) b acc = Ret (b', acc ++ dropped) /\ trimmed b b' dropped /\
    (forall r', r' <> r -> frames_at b' r' = frames_at b r').
Proof.
  intros Hok Hr. destruct (drop_positions_ok r (rev ps) b acc) as (b' & dr & Hrun & Hok' & Hq & Hk & Ho); try done.
  - pose proof (b_positions_sorted (frames_at b r) 0) as Hs. fold ps in Hs. clearbody ps.
    induction Hs as [|p ps Hs IH Hall]; [constructor|]. simpl. apply StronglySorted_app_2; [|done|by repeat constructor].
    intros x y Hx Hy. apply list_elem_of_singleton in Hy as ->. apply list_elem_of_In, in_rev in Hx.
    rewrite Forall_forall in Hall. apply list_elem_of_In, Hall in Hx. lia.
  - apply Forall_forall. intros p Hp. apply list_elem_of_In, in_rev, list_elem_of_In in Hp.
    pose proof (b_positions_lookup (frames_at b r) 0) as Hl. rewrite Forall_forall in Hl.
    destruct (Hl p Hp) as (Hr0 & f & Hf & Hb). split; [lia|]. exists f. rewrite Z.sub_0_r in Hf.
    split; [done|]. by apply b_type_key.
  - exists b', dr. by split.
Qed.

Lemma dropB_loop_ok gopCount count rs b acc :
  buf_ok b -> Forall (fun r => r ∈ gops b) rs ->
  exists b' dropped, dropB_loop gopCount count rs b acc = Ret (b', acc ++ dropped) /\ trimmed b b' dropped.
Proof.
  revert count b acc. induction rs as [|r rs IH]; intros count b acc Hok Hrs; cbn [dropB_loop].
  { exists b, []. rewrite app_nil_r. split; [done|]. by apply trimmed_nil. }
  apply Forall_cons in Hrs as [Hr Hrs]. destruct (_ || _).
  2: { exists b, []. rewrite app_nil_r. split; [done|]. by apply trimmed_nil. }
  fold (frames_at b r). destruct (dropB_gop_ok r b acc Hok Hr) as (b1 & dr & -> & Ht & _).
  rewrite bind_Ret. cbv beta iota.
  set (b2 := if 0 <? _ then _ else b1).
  assert (trimmed b b2 dr) as Ht2.
  { subst b2. case_bool; [|done]. apply (trimmed_update UpdateDuration); [apply UpdateDuration_keeps| |done].
    destruct Ht as (_ & [-> _] & _). done. }
  destruct Ht2 as (Hok2 & Hq2 & Hf2).
  destruct (IH (count + 1) b2 (acc ++ dr)) as (b' & dr' & -> & Ht'); [done| |].
  { destruct Hq2 as [-> _]. done. }
  exists b', (dr ++ dr'). rewrite app_assoc. split; [done|]. by apply (trimmed_trans b b2).
Qed.

Lemma dropBFrames_ok gopCount b :
  buf_ok b -> exists b' dropped, dropBFrames gopCount b = Ret (b', dropped) /\ trimmed b b' dropped.
Proof. intros Hok. apply (dropB_loop_ok gopCount 0 (gops b) b [] Hok). by apply Forall_forall. Qed.

Lemma drop_p_down_ok n r b acc :
  buf_ok b -> r ∈ gops b ->
  exists b' dropped, drop_p_down n r b acc = Ret (b', acc ++ dropped) /\ trimmed b b' dropped.
Proof.
  revert b acc. induction n as [|n IH]; intros b acc Hok Hr; cbn [drop_p_down].
  { exists b, []. rewrite app_nil_r. split; [done|]. by apply trimmed_nil. }
  destruct (CanDropFrame (Z.of_nat n) (gop_of b r)) eqn:Hcan.
  2: { rewrite bind_Ret. by apply IH. }
  unfold CanDropFrame in Hcan. rewrite Nat2Z.id in Hcan. fold (frames_at b r) in Hcan |- *.
  destruct (_ || _); [done|]. destruct (frames_at b r !! n) as [f|] eqn:Hf; [|done].
  assert (idx (frames_at b r) (Z.of_nat n) = Ret f) as ->.
  { unfold idx. rewrite (proj2 (Z.ltb_ge _ 0)), Nat2Z.id, Hf by lia. done. }
  rewrite !bind_Ret. destruct (ft_eqb (FType f) FrameTypeP) eqn:Hp; [|by apply IH].
  destruct (remove_at_ok decP r n b f decP_keeps Hok Hr Hf) as (b1 & -> & Hok1 & Hq1 & Ho1 & Hf1).
  pose proof Hq1 as (Hg1 & _).
  rewrite bind_Ret. cbv beta iota. destruct (IH b1 (acc ++ [f])) as (b' & dr & -> & Ht); [done|by rewrite Hg1|].
  exists b', (f :: dr). rewrite <- app_assoc. split; [done|].
  apply (trimmed_trans b b1 b' [f]); [|done]. split; [done|]. split; [done|].
  constructor; [|constructor]. apply ft_eqb_spec in Hp. unfold key_type. by rewrite Hp.
Qed.

Lemma dropP_loop_ok gopCount count rs b acc :
  buf_ok b -> Forall (fun r => r ∈ gops b) rs ->
  exists b' dropped, dropP_loop gopCount count rs b acc = Ret (b', acc ++ dropped) /\ trimmed b b' dropped.
Proof.
  revert count b acc. induction rs as [|r rs IH]; intros count b acc Hok Hrs; cbn [dropP_loop].
  { exists b, []. rewrite app_nil_r. split; [done|]. by apply trimmed_nil. }
  apply Forall_cons in Hrs as [Hr Hrs]. case_bool.
  2: { exists b, []. rewrite app_nil_r. split; [done|]. by apply trimmed_nil. }
  destruct (drop_p_down_ok (length (Frames (gop_of b r))) r b acc Hok Hr) as (b1 & dr & -> & Ht).
  rewrite bind_Ret. cbv beta iota.
  assert (trimmed b (update_duration r b1) dr) as (Hok2 & Hq2 & Hf2).
  { apply (trimmed_update UpdateDuration); [apply UpdateDuration_keeps| |done].
    destruct Ht as (_ & [-> _] & _). done. }
  destruct (IH (count + 1) (update_duration r b1) (acc ++ dr)) as (b' & dr' & -> & Ht'); [done| |].
  { destruct Hq2 as [-> _]. done. }
  exists b', (dr ++ dr'). rewrite app_assoc. split; [done|]. by apply (trimmed_trans b (update_duration r b1)).
Qed.
End operations.
