(* ===== verification/GopBooks.v ===== *)
(** * The GOP buffer keeps its books

    The operations of [GopBuffer] that empty a GOP, remove GOPs or add one
    preserve [buf_ok], and the properties of a run of operations. *)

From stdpp Require Import strings sorting.
From S2P Require Import Prelude Float64 Frame Gop GopBuffer.

Section operations.
Context `{SizedGOPs}.

(** ** Dropping within GOPs *)

Lemma dropPFrames_ok gopCount b :
  buf_ok b -> exists b' dropped, dropPFrames gopCount b = Ret (b', dropped) /\ trimmed b b' dropped.
Proof. intros Hok. apply (dropP_loop_ok gopCount 0 (gops b) b [] Hok). by apply Forall_forall. Qed.

Lemma subBytes_spec l n : same64 (subBytes l n) (n - fsum l).
Proof.
  unfold subBytes. revert n. induction l as [|f l IH]; intros n; simpl.
  { by rewrite Z.sub_0_r. }
  eapply same64_trans; [apply IH|]. unfold same64. mlia.
Qed.

Lemma split_keyframes l : fsum l = fsum (others l) + fsum (keyframes l).
Proof.
  unfold others, keyframes. induction l as [|f l IH]; [done|]. rewrite !filter_cons.
  destruct (IsKeyframe f); repeat case_decide; simplify_eq; simpl; lia.
Qed.

Lemma ids_keyframes l id :
  id ∈ ids l -> NoDup (ids l) -> id ∈ ids (others l) <-> id ∉ ids (keyframes l).
Proof.
  intros Hin Hnd. unfold others, keyframes, ids. split.
  - intros H1 H2. apply list_elem_of_fmap in H1 as (f & -> & H1), H2 as (g & He & H2).
    apply list_elem_of_filter in H1 as [Hk1 H1], H2 as [Hk2 H2].
    apply list_elem_of_lookup in H1 as [i Hi], H2 as [j Hj].
    assert (i = j) as ->.
    { eapply NoDup_lookup; [exact Hnd| |]; unfold ids; rewrite list_lookup_fmap; [by rewrite Hi|].
      rewrite Hj. simpl. by rewrite He. }
    congruence.
  - intros Hn. apply list_elem_of_fmap in Hin as (f & -> & Hf). apply list_elem_of_fmap_2.
    apply list_elem_of_filter. split; [|done]. destruct (IsKeyframe f) eqn:Hk; [|done].
    destruct Hn. apply list_elem_of_fmap_2, list_elem_of_filter. by split.
Qed.

Lemma not_keyframe_type f : IsKeyframe f = false -> key_type f = false.
Proof. unfold IsKeyframe, key_type. by destruct (FrameType_IsKeyframe _). Qed.

Lemma others_key_type l : Forall (fun f => key_type f = false) (others l).
Proof.
  apply Forall_forall. intros f Hf. apply list_elem_of_filter in Hf as [Hf _]. by apply not_keyframe_type.
Qed.

Lemma keep_keyframes_ok all r b :
  buf_ok b -> r ∈ gops b ->
  exists b' dropped, keep_keyframes all r b = (b', dropped) /\ trimmed b b' dropped.
Proof.
  intros Hok Hr. pose proof (ids_nodup_at b r Hok Hr) as Hnd. pose proof (bo_key b Hok r Hr) as Hk1.
  set (old := frames_at b r) in *. set (new := keyframes old) in *.
  assert (sublist new old) as Hsub by apply sublist_filter.
  assert (sublist (others old) old) as Hsubo by apply sublist_filter.
  unfold keep_keyframes. fold (frames_at b r). fold old. fold new.
  assert ((if all then new else takeZ 1 new) = new) as ->.
  { destruct all; [done|]. destruct new as [|f [|]]; simpl in *; done || lia. }
  set (g := upd TotalSize _ _).
  assert (ID g = ID (gop_of b r) /\ Frames g = new /\ same64 (TotalSize g) (fsum new)) as (Hgi & Hgf & Hgt).
  { subst g. split; [done|split; [done|]]. simpl.
    destruct new as [|f [|]]; [done| |simpl in *; lia]. simpl. by rewrite Z.add_0_r. }
  clearbody g. eexists _, (others old). split; [done|].
  set (b' := upd frameIndex _ _).
  assert (forall r', gop_of b' r' = if decide (r' = r) then g else gop_of b r') as Hgop.
  { intros r'. apply (gop_of_set b r g r'). }
  assert (forall id, frameIndex b' !! id =
    index_from r 0 new (unindex (others old) (frameIndex b)) !! id) as Hfi by done.
  assert (forall r', r' <> r -> gop_of b' r' = gop_of b r') as Hoth.
  { intros r' Hne. rewrite Hgop. by rewrite decide_False. }
  assert (ID (gop_of b' r) = ID (gop_of b r)) as Hidr by (rewrite Hgop; by rewrite decide_True).
  assert (frames_at b' r = new) as Hfr by (unfold frames_at; rewrite Hgop; by rewrite decide_True).
  split; [|split; [apply (same_queue_one b b' r); try done; by rewrite Hfr|apply others_key_type]].
  apply (retarget b b' r new); try done.
  - intros _. rewrite Hgop. by rewrite decide_True.
  - intros _. change (currentBytes b') with (subBytes (others old) (currentBytes b)).
    eapply same64_trans; [apply subBytes_spec|]. fold old. rewrite (split_keyframes old). fold new.
    unfold same64. mlia.
  - intros id Hi. fold old in Hi. rewrite Hfi, index_from_other, unindex_lookup, bool_decide_eq_false_2; [done| |];
      (intros Hin; apply Hi; eapply elem_of_sublist; [exact Hin|by apply sublist_ids]).
  - intros k f Hf. rewrite Hfi. rewrite (index_from_lookup r 0 new _ k f); [done| |done].
    eapply sublist_NoDup; [exact Hnd|by apply sublist_ids].
  - intros id Hi Hn. fold old in Hi. rewrite Hfi, index_from_other, unindex_lookup by done.
    rewrite bool_decide_eq_true_2; [done|]. by apply (ids_keyframes old).
Qed.

Lemma dropOld_keys_ok n b acc :
  buf_ok b -> exists b' dropped, dropOld_loop n false b acc = (b', acc ++ dropped) /\ trimmed b b' dropped.
Proof.
  revert b acc. induction n as [|n IH]; intros b acc Hok; cbn [dropOld_loop].
  { exists b, []. rewrite app_nil_r. split; [done|]. by apply trimmed_nil. }
  assert (exists b' dropped, (b, acc) = (b', acc ++ dropped) /\ trimmed b b' dropped) as Hstop.
  { exists b, []. rewrite app_nil_r. split; [done|]. by apply trimmed_nil. }
  case_bool; [|done]. destruct (gops b) as [|r rest] eqn:Hg; [done|].
  destruct (keep_keyframes_ok false r b Hok) as (b1 & d1 & -> & Ht1); [rewrite Hg; by left|].
  destruct (IH b1 (acc ++ d1)) as (b2 & d2 & -> & Ht2); [by destruct Ht1|].
  exists b2, (d1 ++ d2). rewrite app_assoc. split; [done|]. by apply (trimmed_trans b b1).
Qed.

Lemma dropAll_loop_ok rs b acc :
  buf_ok b -> Forall (fun r => r ∈ gops b) rs ->
  exists b' dropped, dropAll_loop rs b acc = (b', acc ++ dropped) /\ trimmed b b' dropped.
Proof.
  revert b acc. induction rs as [|r rs IH]; intros b acc Hok Hrs; cbn [dropAll_loop].
  { exists b, []. rewrite app_nil_r. split; [done|]. by apply trimmed_nil. }
  apply Forall_cons in Hrs as [Hr Hrs].
  destruct (keep_keyframes_ok true r b Hok Hr) as (b1 & d1 & -> & Ht1).
  destruct (IH b1 (acc ++ d1)) as (b2 & d2 & -> & Ht2); [by destruct Ht1|by destruct Ht1 as (_ & [-> _] & _)|].
  exists b2, (d1 ++ d2). rewrite app_assoc. split; [done|]. by apply (trimmed_trans b b1).
Qed.

(** ** Removing GOPs *)

(** [b'] is [b] without its [n] oldest GOPs. *)
Definition evicted (n : nat) (b b' : Buffer) : Prop :=
  gops b' = drop n (gops b) /\ store b' = store b /\ limits b' = limits b /\ newestTime b' = newestTime b.

Lemma evicted_0 b : evicted 0 b b.
Proof. done. Qed.
Lemma evicted_trans n m a b c : evicted n a b -> evicted m b c -> evicted (n + m) a c.
Proof.
  intros (G1 & S1 & L1 & T1) (G2 & S2 & L2 & T2). unfold evicted.
  rewrite G2, G1, drop_drop, S2, L2, T2. done.
Qed.
Lemma removeOldest_evicted b : evicted 1 b (removeOldestGOP b).
Proof.
  unfold evicted, removeOldestGOP. destruct (gops b) as [|r rest] eqn:Hg; [by rewrite Hg|done].
Qed.

Lemma removeOldestGOP_ok b : buf_ok b -> buf_ok (removeOldestGOP b).
Proof.
  intros Hok. pose proof Hok as [Hrefs Hgids Hids Hgop Hnogop Hframe Hnoframe Hcb Hsz Hkey].
  unfold removeOldestGOP. destruct (gops b) as [|r rest] eqn:Hg; [done|].
  set (b' := upd oldestTime _ _).
  assert (forall r', gop_of b' r' = gop_of b r') as Hgo by done.
  assert (forall r', frames_at b' r' = frames_at b r') as Hfr by done.
  assert (all_frames b = frames_at b r ++ all_frames b') as Hall by (unfold all_frames; by rewrite Hg).
  assert (gop_ids b = ID (gop_of b r) :: gop_ids b') as Hgi by (unfold gop_ids; by rewrite Hg).
  assert (gops b' = rest) as Hg' by done.
  assert (gopIndex b' = delete (ID (gop_of b r)) (gopIndex b)) as Hgx by done.
  assert (frameIndex b' = unindex (frames_at b r) (frameIndex b)) as Hfx by done.
  assert (currentBytes b' = i64 (currentBytes b - TotalSize (gop_of b r))) as Hbx by done.
  clearbody b'. assert (r ∈ r :: rest) as Hr by by left.
  apply NoDup_cons in Hrefs as [Hnr Hrefs]. rewrite Hgi in Hgids, Hnogop.
  apply NoDup_cons in Hgids as [Hng Hgids]. rewrite Hall in Hids, Hnoframe.
  rewrite ids_app in Hids, Hnoframe. apply NoDup_app in Hids as (Hn1 & Hdis & Hn2).
  assert (forall r', r' ∈ rest -> ID (gop_of b r') ∈ gop_ids b') as Hin.
  { intros r' Hr'. unfold gop_ids. rewrite Hg'. rewrite <- Hgo.
    by apply (list_elem_of_fmap_2 (fun r => ID (gop_of b' r))). }
  split.
  - by rewrite Hg'.
  - done.
  - done.
  - intros r' Hr'. rewrite Hg' in Hr'. rewrite Hgx, Hgo, lookup_delete_ne.
    { apply Hgop. by right. }
    intros He. apply Hng. rewrite He. by apply Hin.
  - intros id Hi. rewrite Hgx. destruct (decide (id = ID (gop_of b r))) as [->|Hne].
    { apply lookup_delete_eq. }
    rewrite lookup_delete_ne by done. apply Hnogop. rewrite elem_of_cons. tauto.
  - intros r' k f Hr' Hf. rewrite Hg' in Hr'. rewrite Hfr in Hf. rewrite Hfx, unindex_lookup.
    rewrite bool_decide_eq_false_2; [by apply Hframe; [by right|]|].
    intros Hi. apply (Hdis _ Hi). unfold all_frames. rewrite Hg'.
    apply (ids_concat _ (frames_at b' r')); [by eapply ids_lookup; rewrite Hfr|].
    by apply list_elem_of_fmap_2.
  - intros id Hi. rewrite Hfx, unindex_lookup. case_bool_decide as Hd; [done|].
    apply Hnoframe. rewrite elem_of_app. tauto.
  - intros Hsg. specialize (Hcb Hsg). rewrite Hbx. pose proof (Hsz r Hsg Hr) as Hs.
    rewrite Hall, fsum_app in Hcb. unfold same64 in *. mlia.
  - intros r' Hsg Hr'. rewrite Hg' in Hr'. rewrite Hgo, Hfr. apply Hsz; [done|by right].
  - intros r' Hr'. rewrite Hg' in Hr'. rewrite Hfr. apply Hkey. by right.
Qed.

(** What a loop over [removeOldestGOP] gives. *)
Definition removal_stable (I : Buffer -> Prop) : Prop := forall b, I b -> I (removeOldestGOP b).
Definition loop_ok (b : Buffer) (m : res Buffer) (P : Buffer -> Prop) : Prop :=
  exists n b', m = Ret b' /\ evicted n b b' /\ (forall I, removal_stable I -> I b -> I b') /\ P b'.

Lemma loop_stop b (P : Buffer -> Prop) : P b -> loop_ok b (Ret b) P.
Proof. intros. exists 0%nat, b. by split_and!. Qed.
Lemma loop_step b m P : loop_ok (removeOldestGOP b) m P -> loop_ok b m P.
Proof.
  intros (n & b' & -> & He & HI & HP). exists (S n), b'. split; [done|].
  split; [by apply (evicted_trans 1 n b (removeOldestGOP b)), He; apply removeOldest_evicted|].
  split; [|done]. intros I Hs Hb. by apply HI, Hs.
Qed.
Lemma loop_weaken b m (P Q : Buffer -> Prop) :
  loop_ok b m P -> (forall n b', evicted n b b' -> P b' -> Q b') -> loop_ok b m Q.
Proof. intros (n & b' & -> & He & HI & HP) HQ. exists n, b'. split_and!; eauto. Qed.

Lemma evicted_gops n b b' : evicted n b b' -> gops b' = drop n (gops b).
Proof. by intros (? & _). Qed.
Lemma evicted_limits n b b' : evicted n b b' -> limits b' = limits b.
Proof. by intros (_ & _ & ? & _). Qed.
Lemma limits_maxGOPs b b' : limits b' = limits b -> maxGOPs b' = maxGOPs b.
Proof. unfold limits. congruence. Qed.
Lemma limits_maxBytes b b' : limits b' = limits b -> maxBytes b' = maxBytes b.
Proof. unfold limits. congruence. Qed.

Lemma removeOldest_length fuel b :
  (length (gops b) < S fuel)%nat -> 0 < len (gops b) -> (length (gops (removeOldestGOP b)) < fuel)%nat.
Proof.
  intros Hf Hn. rewrite (evicted_gops _ _ _ (removeOldest_evicted b)), length_drop. unfold len in Hn. lia.
Qed.
Lemma removeOldest_limits b : limits (removeOldestGOP b) = limits b.
Proof. apply (evicted_limits 1), removeOldest_evicted. Qed.

Lemma count_loop_ok fuel b :
  (length (gops b) < fuel)%nat -> 0 <= maxGOPs b ->
  loop_ok b (count_loop fuel b) (fun b' => len (gops b') <= maxGOPs b').
Proof.
  revert b. induction fuel as [|fuel IH]; intros b Hf H0; [lia|]. cbn [count_loop].
  destruct (Z.ltb_spec (maxGOPs b) (len (gops b))); [|by apply loop_stop].
  apply loop_step, IH; [apply removeOldest_length; lia|].
  by rewrite (limits_maxGOPs _ _ (removeOldest_limits b)).
Qed.

Definition in_bytes (b : Buffer) : Prop := currentBytes b <= maxBytes b \/ len (gops b) <= 1.

Lemma bytes_loop_ok fuel b :
  (length (gops b) < fuel)%nat ->
  loop_ok b (bytes_loop fuel b) in_bytes.
Proof.
  revert b. induction fuel as [|fuel IH]; intros b Hf; [lia|]. cbn [bytes_loop].
  destruct (Z.ltb_spec (maxBytes b) (currentBytes b)); simpl; [|by apply loop_stop; left].
  destruct (Z.ltb_spec 1 (len (gops b))); [|by apply loop_stop; right].
  apply loop_step, IH, removeOldest_length; [done|lia].
Qed.

Definition in_duration (cutoff : Z) (b : Buffer) : Prop :=
  match gops b with [] => True | r :: _ => cutoff < StartTime (gop_of b r) end.

Lemma duration_loop_ok fuel cutoff b :
  (length (gops b) < fuel)%nat ->
  loop_ok b (duration_loop fuel cutoff b) (in_duration cutoff).
Proof.
  revert b. induction fuel as [|fuel IH]; intros b Hf; [lia|]. cbn [duration_loop].
  destruct (gops b) as [|r rest] eqn:Hg.
  { apply loop_stop. unfold in_duration. by rewrite Hg. }
  destruct (Z.ltb_spec cutoff (StartTime (gop_of b r))).
  { apply loop_stop. unfold in_duration. by rewrite Hg. }
  apply loop_step, IH, removeOldest_length; rewrite Hg; [done|]. rewrite len_cons. pose proof (len_nonneg rest). lia.
Qed.

(** [currentBytes] is a 64-bit value. *)
Definition bytes_typed (b : Buffer) : Prop := i64 (currentBytes b) = currentBytes b.
Lemma bytes_typed_stable : removal_stable bytes_typed.
Proof.
  intros b Hb. unfold removeOldestGOP. destruct (gops b); [done|].
  unfold bytes_typed. simpl. mlia.
Qed.

Definition sizes_nonneg (b : Buffer) : Prop := Forall (fun f => 0 <= Frame.TotalSize f) (all_frames b).

Lemma fsum_nonneg l : Forall (fun f => 0 <= Frame.TotalSize f) l -> 0 <= fsum l.
Proof. induction 1; simpl; lia. Qed.

Lemma evicted_frames n b b' :
  evicted n b b' -> exists gone, all_frames b = gone ++ all_frames b'.
Proof.
  intros (Hg & Hs & _). exists (concat (frames_at b <$> take n (gops b))).
  assert (forall r, frames_at b' r = frames_at b r) as Hf by (intros r; unfold frames_at, gop_of; by rewrite Hs).
  unfold all_frames. rewrite (list_fmap_ext (frames_at b') (frames_at b) (gops b')) by (intros; apply Hf).
  rewrite Hg, <- concat_app, <- fmap_app, take_drop. done.
Qed.

Lemma evicted_sizes n b b' :
  evicted n b b' -> sizes_nonneg b -> sizes_nonneg b' /\ fsum (all_frames b') <= fsum (all_frames b).
Proof.
  intros He Hn. destruct (evicted_frames n b b' He) as [gone Ha]. unfold sizes_nonneg in *.
  rewrite Ha in *. apply Forall_app in Hn as [H1 H2]. split; [done|]. rewrite fsum_app.
  pose proof (fsum_nonneg gone H1). lia.
Qed.

Lemma bytes_exact b :
  sized_gops = true ->
  buf_ok b -> bytes_typed b -> sizes_nonneg b -> fsum (all_frames b) < 2 ^ 63 ->
  currentBytes b = fsum (all_frames b).
Proof.
  intros Hsg Hok Ht Hn Hs. pose proof (bo_bytes b Hok Hsg) as Hb. pose proof (fsum_nonneg _ Hn).
  unfold same64, bytes_typed in *. mlia.
Qed.

(** The limits hold: number of GOPs; bytes, unless a single GOP is left; age of
    the oldest GOP, unless a single one is left. *)
Definition within_limits (b : Buffer) : Prop :=
  len (gops b) <= maxGOPs b /\ (sized_gops = true -> fsum (all_frames b) <= maxBytes b \/ len (gops b) <= 1) /\
  (0 < maxDuration b -> 1 < len (gops b) -> in_duration (newestTime b - maxDuration b) b).

Lemma evicted_len n b b' : evicted n b b' -> len (gops b') <= len (gops b).
Proof. intros He. rewrite (evicted_gops _ _ _ He). unfold len. rewrite length_drop. lia. Qed.

Lemma enforce_ok b :
  0 <= maxGOPs b -> buf_ok b -> bytes_typed b ->
  (sized_gops = true -> sizes_nonneg b /\ fsum (all_frames b) < 2 ^ 63) ->
  loop_ok b (enforceBufferLimits b) within_limits.
Proof.
  intros H0 Hok Ht Hsmall. unfold enforceBufferLimits.
  destruct (count_loop_ok (S (length (gops b))) b) as (n1 & b1 & -> & He1 & HI1 & HP1); [lia|done|].
  rewrite bind_Ret.
  destruct (bytes_loop_ok (S (length (gops b1))) b1) as (n2 & b2 & -> & He2 & HI2 & HP2); [lia|].
  rewrite bind_Ret. pose proof (evicted_trans _ _ _ _ _ He1 He2) as He.
  assert (forall I, removal_stable I -> I b -> I b2) as HI by (intros I HsI HbI; exact (HI2 I HsI (HI1 I HsI HbI))).
  pose proof (HI _ removeOldestGOP_ok Hok) as Hok2. pose proof (HI _ bytes_typed_stable Ht) as Ht2.
  assert (sized_gops = true -> sizes_nonneg b2 /\ currentBytes b2 = fsum (all_frames b2)) as Hx.
  { intros Hsg. destruct (Hsmall Hsg) as [Hn Hs]. destruct (evicted_sizes _ _ _ He Hn) as [Hn2 Hs2].
    split; [done|]. apply bytes_exact; try done. by eapply Z.le_lt_trans. }
  assert (loop_ok b2 (if (0 <? maxDuration b2) && (1 <? len (gops b2))
    then duration_loop (S (length (gops b2))) (newestTime b2 - maxDuration b2) b2 else Ret b2)
    (fun b => 0 < maxDuration b -> 1 < len (gops b) -> in_duration (newestTime b - maxDuration b) b))
    as (n3 & b3 & -> & He3 & HI3 & HP3).
  { destruct (Z.ltb_spec 0 (maxDuration b2)); simpl; [|apply loop_stop; intros; lia].
    destruct (Z.ltb_spec 1 (len (gops b2))); [|apply loop_stop; intros; lia].
    apply (loop_weaken _ _ _ _ (duration_loop_ok (S (length (gops b2))) _ b2 ltac:(lia))). intros n b' (_ & _ & Hl & Hw) Hd _ _.
    unfold limits in Hl. injection Hl as _ _ -> _. by rewrite Hw. }
  exists (n1 + n2 + n3)%nat, b3. split; [done|]. split; [by eapply evicted_trans|].
  split; [intros I HsI HbI; exact (HI3 I HsI (HI I HsI HbI))|].
  pose proof (evicted_len _ _ _ He2). pose proof (evicted_len _ _ _ He3).
  pose proof (limits_maxGOPs _ _ (evicted_limits _ _ _ He2)) as G2.
  pose proof (limits_maxGOPs _ _ (evicted_limits _ _ _ He3)) as G3.
  pose proof (limits_maxBytes _ _ (evicted_limits _ _ _ He3)) as M3.
  split; [lia|]. split; [|done]. intros Hsg. destruct (Hx Hsg) as [Hn2 Hb2].
  destruct (evicted_sizes _ _ _ He3 Hn2) as [_ Hs3].
  destruct HP2 as [HP2|HP2]; [left|right]; lia.
Qed.

(** ** Adding a GOP *)

(** The GOP object is not in the buffer, nor are its id and frame ids; its size
    is that of its frames and it holds at most one key frame. *)
Record new_gop (r : gop_ref) (g : GOP) (b : Buffer) : Prop := {
  ng_ref : r ∉ gops b;
  ng_id : ID g ∉ gop_ids b;
  ng_nodup : NoDup (ids (Frames g));
  ng_frames f : f ∈ Frames g -> Frame.ID f ∉ ids (all_frames b);
  ng_sized : sized_gops = true -> same64 (TotalSize g) (fsum (Frames g));
  ng_key : (length (keyframes (Frames g)) <= 1)%nat
}.

(** The buffer between the insertion and the limits. *)
Definition inserted (r : gop_ref) (g : GOP) (b : Buffer) : Buffer := widen g (enqueue r g (set_gop r g b)).

Lemma AddGOP_inserted r g b :
  AddGOP r g b = if negb (IsComplete g) && negb (Closed g) then Ret (set_gop r g b)
                 else enforceBufferLimits (inserted r g b).
Proof. unfold AddGOP, inserted. reflexivity. Qed.

(** Everything but the time bounds. *)
Lemma widen_fields g b (b' := widen g b) :
  gops b' = gops b /\ store b' = store b /\ limits b' = limits b /\ gopIndex b' = gopIndex b /\
  frameIndex b' = frameIndex b /\ currentBytes b' = currentBytes b.
Proof. subst b'. unfold widen. by repeat case_bool. Qed.

Lemma inserted_fields r g b (b' := inserted r g b) :
  gops b' = gops b ++ [r] /\ store b' = <[r := g]> (store b) /\ limits b' = limits b /\
  gopIndex b' = <[ID g := r]> (gopIndex b) /\
  frameIndex b' = index_from r 0 (Frames g) (frameIndex b) /\
  currentBytes b' = i64 (currentBytes b + TotalSize g).
Proof. exact (widen_fields g (enqueue r g (set_gop r g b))). Qed.

Section insertion.
Context (r : gop_ref) (g : GOP) (b b' : Buffer) (Hng : new_gop r g b).
Context (Hgops : gops b' = gops b ++ [r]) (Hstore : store b' = <[r := g]> (store b)).
Context (Hgx : gopIndex b' = <[ID g := r]> (gopIndex b)).
Context (Hfx : frameIndex b' = index_from r 0 (Frames g) (frameIndex b)).
Context (Hc : currentBytes b' = i64 (currentBytes b + TotalSize g)).

Lemma inserted_gop r' : gop_of b' r' = if decide (r' = r) then g else gop_of b r'.
Proof.
  unfold gop_of at 1. rewrite Hstore.
  case_decide as Hd; [subst; apply lookup_total_insert_eq|by apply lookup_total_insert_ne].
Qed.
Lemma inserted_old r' : r' ∈ gops b -> gop_of b' r' = gop_of b r'.
Proof.
  intros Hr. rewrite inserted_gop, decide_False; [done|]. intros ->. by destruct (ng_ref r g b Hng).
Qed.
Lemma inserted_frames : all_frames b' = all_frames b ++ Frames g.
Proof.
  unfold all_frames. rewrite Hgops, fmap_app, concat_app.
  rewrite (map_frames_ext b b') by (intros; by apply inserted_old).
  f_equal. simpl. rewrite app_nil_r. unfold frames_at. rewrite inserted_gop. by rewrite decide_True.
Qed.
Lemma inserted_gop_ids : gop_ids b' = gop_ids b ++ [ID g].
Proof.
  unfold gop_ids. rewrite Hgops, fmap_app. f_equal.
  - apply list_fmap_ext. intros i r' Hr. rewrite inserted_old; [done|by eapply list_elem_of_lookup_2].
  - simpl. rewrite inserted_gop. by rewrite decide_True.
Qed.

Lemma insertion_ok : buf_ok b -> buf_ok b'.
Proof.
  intros [Hrefs Hgids Hids Hgop Hnogop Hframe Hnoframe Hcb Hsz Hkey].
  destruct Hng as [Nr Ni Nn Nf Ns Nk].
  assert (forall r', r' ∈ gops b' -> r' ∈ gops b \/ r' = r) as Hcase.
  { intros r' Hr. rewrite Hgops, elem_of_app, list_elem_of_singleton in Hr. done. }
  assert (gop_of b' r = g) as Hself by (rewrite inserted_gop; by rewrite decide_True).
  split.
  - rewrite Hgops. apply NoDup_app. split; [done|]. split; [|apply NoDup_singleton].
    intros x Hx Hy. apply list_elem_of_singleton in Hy as ->. done.
  - rewrite inserted_gop_ids. apply NoDup_app. split; [done|]. split; [|apply NoDup_singleton].
    intros x Hx Hy. apply list_elem_of_singleton in Hy as ->. done.
  - rewrite inserted_frames, ids_app. apply NoDup_app. split; [done|]. split; [|done].
    intros x Hx Hy. apply list_elem_of_fmap in Hy as (f & -> & Hf). by apply (Nf f).
  - intros r' Hr. rewrite Hgx. apply Hcase in Hr as [Hr| ->].
    + rewrite inserted_old by done. rewrite lookup_insert_ne; [by apply Hgop|].
      intros He. apply Ni. unfold gop_ids. rewrite He.
      by apply (list_elem_of_fmap_2 (fun r => ID (gop_of b r))).
    + rewrite Hself. apply lookup_insert_eq.
  - intros id Hi. rewrite inserted_gop_ids, elem_of_app, list_elem_of_singleton in Hi.
    rewrite Hgx, lookup_insert_ne by (intros <-; tauto). apply Hnogop. tauto.
  - intros r' k f Hr Hf. rewrite Hfx. apply Hcase in Hr as [Hr| ->].
    + unfold frames_at in Hf. rewrite inserted_old in Hf by done.
      rewrite index_from_other; [by apply Hframe|]. intros Hi.
      apply list_elem_of_fmap in Hi as (f' & He & Hf'). apply (Nf f' Hf'). rewrite <- He.
      apply (ids_concat _ (frames_at b r')); [by eapply ids_lookup|by apply list_elem_of_fmap_2].
    + unfold frames_at in Hf. rewrite Hself in Hf.
      by rewrite (index_from_lookup r 0 (Frames g) _ k f).
  - intros id Hi. rewrite inserted_frames, ids_app, elem_of_app in Hi.
    rewrite Hfx, index_from_other by tauto. apply Hnoframe. tauto.
  - intros Hsg. specialize (Hcb Hsg). specialize (Ns Hsg).
    rewrite inserted_frames, fsum_app, Hc. unfold same64 in *. mlia.
  - intros r' Hsg Hr. apply Hcase in Hr as [Hr| ->].
    + unfold frames_at. rewrite inserted_old by done. by apply Hsz.
    + unfold frames_at. rewrite Hself. by apply Ns.
  - intros r' Hr. apply Hcase in Hr as [Hr| ->].
    + unfold frames_at. rewrite inserted_old by done. by apply Hkey.
    + unfold frames_at. by rewrite Hself.
Qed.
End insertion.

Lemma inserted_ok r g b : new_gop r g b -> buf_ok b -> buf_ok (inserted r g b).
Proof.
  intros Hng. destruct (inserted_fields r g b) as (H1 & H2 & _ & H3 & H4 & H5).
  by apply (insertion_ok r g b).
Qed.
Lemma inserted_typed r g b : bytes_typed (inserted r g b).
Proof.
  destruct (inserted_fields r g b) as (_ & _ & _ & _ & _ & Hc). unfold bytes_typed. rewrite Hc. mlia.
Qed.

(** A GOP that is neither complete nor closed only becomes an object. *)
Lemma set_fresh_ok r g b : r ∉ gops b -> buf_ok b -> buf_ok (set_gop r g b).
Proof.
  intros Hr [Hrefs Hgids Hids Hgop Hnogop Hframe Hnoframe Hcb Hsz Hkey].
  assert (forall r', r' ∈ gops b -> gop_of (set_gop r g b) r' = gop_of b r') as Hold.
  { intros r' Hr'. rewrite gop_of_set, decide_False; [done|]. by intros ->. }
  assert (gops (set_gop r g b) = gops b) as Hg by done.
  assert (gopIndex (set_gop r g b) = gopIndex b) as Hgi by done.
  assert (frameIndex (set_gop r g b) = frameIndex b) as Hfi by done.
  assert (currentBytes (set_gop r g b) = currentBytes b) as Hc by done.
  set (b' := set_gop r g b) in *. clearbody b'.
  assert (all_frames b' = all_frames b) as Ha by (unfold all_frames; by rewrite Hg, (map_frames_ext b b')).
  assert (gop_ids b' = gop_ids b) as Hi.
  { unfold gop_ids. rewrite Hg. apply list_fmap_ext. intros i r' Hi'. rewrite Hold; [done|].
    by eapply list_elem_of_lookup_2. }
  split; rewrite ?Hg, ?Ha, ?Hi, ?Hgi, ?Hfi, ?Hc; try done.
  - intros r' Hr'. rewrite Hold by done. by apply Hgop.
  - intros r' k f Hr' Hf. unfold frames_at in Hf. rewrite Hold in Hf by done. by apply Hframe.
  - intros r' Hsg Hr'. unfold frames_at. rewrite Hold by done. by apply Hsz.
  - intros r' Hr'. unfold frames_at. rewrite Hold by done. by apply Hkey.
Qed.

(** Sizes are not negative and add up to less than [2 ^ 63]. *)
Definition small (l : list VideoFrame) : Prop :=
  Forall (fun f => 0 <= Frame.TotalSize f) l /\ fsum l < 2 ^ 63.

Definition accepted (g : GOP) : bool := IsComplete g || Closed g.

Lemma AddGOP_ok r g b :
  buf_ok b -> new_gop r g b -> 0 <= maxGOPs b ->
  (sized_gops = true -> small (all_frames b ++ Frames g)) ->
  exists b', AddGOP r g b = Ret b' /\ buf_ok b' /\ store b' = <[r := g]> (store b) /\ limits b' = limits b /\
    (accepted g = false -> gops b' = gops b) /\
    (accepted g = true -> within_limits b' /\ exists n, gops b' = drop n (gops b ++ [r])).
Proof.
  intros Hok Hng H0 Hs. rewrite AddGOP_inserted. unfold accepted.
  assert (negb (IsComplete g) && negb (Closed g) = negb (IsComplete g || Closed g)) as ->
    by (by destruct (IsComplete g), (Closed g)).
  destruct (IsComplete g || Closed g).
  2: { exists (set_gop r g b). split; [done|]. split; [|done]. apply set_fresh_ok; [|done].
       by apply (ng_ref r g b). }
  destruct (inserted_fields r g b) as (Hg & Hst & Hl & Hgx & Hfx & Hc).
  pose proof (inserted_frames r g b (inserted r g b) Hng Hg Hst) as Hf.
  pose proof (inserted_ok r g b Hng Hok) as Hok1. pose proof (inserted_typed r g b) as Ht1.
  simpl negb. cbv iota.
  set (b1 := inserted r g b) in *. clearbody b1.
  destruct (enforce_ok b1) as (n & b' & -> & He & HI & Hlim); try done.
  { by rewrite (limits_maxGOPs b b1). }
  { unfold sizes_nonneg. by rewrite Hf. }
  exists b'. split; [done|]. split; [apply HI; [exact removeOldestGOP_ok|done]|].
  split; [by rewrite <- Hst; destruct He as (_ & ? & _)|]. split; [by rewrite (evicted_limits _ _ _ He)|].
  split; [done|]. intros _. split; [done|]. exists n. rewrite <- Hg. by apply evicted_gops.
Qed.

(** ** Dropping the end of a GOP, clearing *)

Lemma dec_types_keep l g (g' := foldl (fun g f => dec_type f g) g l) :
  ID g' = ID g /\ Frames g' = Frames g /\ TotalSize g' = TotalSize g.
Proof.
  subst g'. revert g. induction l as [|f l IH]; intros g; [done|]. simpl.
  destruct (IH (dec_type f g)) as (-> & -> & ->). unfold dec_type. by destruct (FType f).
Qed.

Lemma foldl_size l n : same64 (foldl (fun n f => i64 (n + Frame.TotalSize f)) n l) (n + fsum l).
Proof.
  revert n. induction l as [|f l IH]; intros n; simpl.
  { by rewrite Z.add_0_r. }
  eapply same64_trans; [apply IH|]. unfold same64. mlia.
Qed.

Lemma ok_counter n b : buf_ok b -> buf_ok (b <| droppedFrames := n |>).
Proof. by intros [? ? ? ? ? ? ? ? ? ?]. Qed.

Lemma index_gop b id r : buf_ok b -> gopIndex b !! id = Some r -> r ∈ gops b /\ ID (gop_of b r) = id.
Proof.
  intros Hok Hr. destruct (decide (id ∈ gop_ids b)) as [Hin|Hout].
  2: { by rewrite (bo_no_gop b Hok id Hout) in Hr. }
  apply list_elem_of_fmap in Hin as (r' & -> & Hr'). rewrite (bo_gop b Hok r' Hr') in Hr. by simplify_eq.
Qed.

Lemma slice_prefix {A} (l : list A) i : 0 <= i <= len l -> slice l 0 i = Ret (take (Z.to_nat i) l).
Proof. intros Hi. rewrite slice_Ret by lia. unfold takeZ, dropZ. by rewrite Z.sub_0_r. Qed.
Lemma slice_suffix {A} (l : list A) i : 0 <= i <= len l -> slice l i (len l) = Ret (drop (Z.to_nat i) l).
Proof.
  intros Hi. rewrite slice_Ret by lia. unfold takeZ, dropZ. f_equal. apply take_ge.
  rewrite length_drop. unfold len in *. lia.
Qed.

Lemma DropFramesFromGOP_ok id i b :
  buf_ok b ->
  exists b' dropped, DropFramesFromGOP id i b = Ret (b', dropped) /\ buf_ok b' /\ same_queue b b' /\
    (forall r', gopIndex b !! id <> Some r' -> frames_at b' r' = frames_at b r') /\
    (forall r, gopIndex b !! id = Some r -> 0 <= i < len (frames_at b r) ->
       frames_at b' r = take (Z.to_nat i) (frames_at b r) /\ dropped = drop (Z.to_nat i) (frames_at b r)).
Proof.
  intros Hok. unfold DropFramesFromGOP. destruct (gopIndex b !! id) as [r|] eqn:Hr.
  2: { exists b, []. by split_and!. }
  destruct (index_gop b id r Hok Hr) as [Hin _]. fold (frames_at b r).
  pose proof (ids_nodup_at b r Hok Hin) as Hnd. set (old := frames_at b r) in *.
  destruct (_ || _) eqn:Hrange.
  { exists b, []. split; [done|]. split; [done|]. split; [apply same_queue_refl|]. split; [done|].
    intros r' Hr' Hi. simplify_eq. fold old in Hi.
    apply orb_true_iff in Hrange as [?%Z.ltb_lt|?%Z.leb_le]; lia. }
  apply orb_false_iff in Hrange as [?%Z.ltb_ge ?%Z.leb_gt].
  rewrite slice_suffix, bind_Ret, slice_prefix, bind_Ret by lia.
  set (k := Z.to_nat i). set (kept := take k old). set (gone := drop k old).
  set (g := foldl (fun g f => dec_type f g) _ gone). eexists _, gone. split; [done|].
  assert (ID g = ID (gop_of b r) /\ Frames g = kept /\ same64 (TotalSize g) (fsum kept)) as (Gi & Gf & Gt).
  { subst g. set (h := (gop_of b r) <| Frames := kept |>
      <| TotalSize := foldl (fun n f => i64 (n + Frame.TotalSize f)) 0 kept |>).
    destruct (dec_types_keep gone (UpdateDuration h)) as (-> & -> & ->).
    destruct (UpdateDuration_keeps h) as (-> & -> & ->).
    split; [done|]. split; [done|]. apply (foldl_size kept 0). }
  clearbody g. set (b' := upd droppedFrames _ _).
  assert (forall r', gop_of b' r' = if decide (r' = r) then g else gop_of b r') as Hgop
    by (intros r'; apply (gop_of_set b r g r')).
  assert (frameIndex b' = index_from r 0 kept (unindex gone (frameIndex b))) as Hfi by done.
  assert (currentBytes b' = subBytes gone (currentBytes b)) as Hcb by done.
  assert (gops b' = gops b) as Eg by done. assert (limits b' = limits b) as El by done.
  assert (gopIndex b' = gopIndex b) as Ex by done. clearbody b'.
  assert (frames_at b' r = kept) as Hkept by (unfold frames_at; rewrite Hgop; by rewrite decide_True).
  assert (old = kept ++ gone) as Hsplit by (by subst kept gone; rewrite take_drop).
  rewrite Hsplit, ids_app in Hnd. apply NoDup_app in Hnd as (N1 & Ndis & N2).
  assert (forall r', r' <> r -> gop_of b' r' = gop_of b r') as Hoth.
  { intros r' Hne. rewrite Hgop. by rewrite decide_False. }
  assert (ID (gop_of b' r) = ID (gop_of b r)) as Hidr by (rewrite Hgop; by rewrite decide_True).
  assert (sublist kept old) as Hsubl by (rewrite Hsplit; by apply sublist_inserts_r).
  split; [|split; [apply (same_queue_one b b' r); try done; by rewrite Hkept|split]].
  - apply (retarget b b' r kept); try done.
    + intros _. rewrite Hgop. by rewrite decide_True.
    + intros _. rewrite Hcb. eapply same64_trans; [apply subBytes_spec|]. fold old. rewrite Hsplit, fsum_app.
      unfold same64. f_equal. lia.
    + intros x Hx. fold old in Hx. rewrite Hsplit, ids_app, elem_of_app in Hx.
      rewrite Hfi, index_from_other, unindex_lookup, bool_decide_eq_false_2 by tauto. done.
    + intros j f Hj. rewrite Hfi. by rewrite (index_from_lookup r 0 kept _ j f).
    + intros x Hx Hn. fold old in Hx. rewrite Hsplit, ids_app, elem_of_app in Hx.
      rewrite Hfi, index_from_other, unindex_lookup, bool_decide_eq_true_2 by tauto. done.
  - intros r' Hne. unfold frames_at. rewrite Hgop, decide_False; [done|]. by intros ->.
  - intros r' Hr' _. by simplify_eq.
Qed.

Lemma empty_ok b :
  gops b = [] -> gopIndex b = ∅ -> frameIndex b = ∅ -> currentBytes b = 0 -> buf_ok b.
Proof.
  intros Hg Hx Hf Hc.
  assert (all_frames b = []) as Ha by (unfold all_frames; by rewrite Hg).
  assert (gop_ids b = []) as Hi by (unfold gop_ids; by rewrite Hg).
  split; rewrite ?Hg, ?Hx, ?Hf, ?Hc, ?Ha, ?Hi; try apply NoDup_nil_2; try done; intros;
    try apply lookup_empty; match goal with h : _ ∈ [] |- _ => by apply elem_of_nil in h end.
Qed.
Lemma Clear_ok b : buf_ok (Clear b).
Proof. by apply empty_ok. Qed.
Lemma NewBuffer_ok id config : buf_ok (NewBuffer id config).
Proof. by apply empty_ok. Qed.

(** ** Dropping for pressure *)

(** GOPs leave at the old end only, those that stay keep their id and may lose
    frames, and objects outside the queue are not touched. *)
Definition queue_suffix (b b' : Buffer) : Prop :=
  limits b' = limits b /\ (exists n, gops b' = drop n (gops b)) /\
  (forall r, r ∉ gops b -> gop_of b' r = gop_of b r) /\
  (forall r, ID (gop_of b' r) = ID (gop_of b r) /\ sublist (frames_at b' r) (frames_at b r)).

Lemma same_queue_suffix b b' : same_queue b b' -> queue_suffix b b'.
Proof. intros (Hg & Hl & Ho & Hs). split; [done|]. split; [|done]. exists 0%nat. by rewrite Hg. Qed.
Lemma queue_suffix_trans a b c : queue_suffix a b -> queue_suffix b c -> queue_suffix a c.
Proof.
  intros (L1 & (n & G1) & O1 & F1) (L2 & (m & G2) & O2 & F2). split; [congruence|].
  split; [exists (n + m)%nat; by rewrite G2, G1, drop_drop|]. split.
  - intros r Hr. rewrite O2, O1; [done|done|]. rewrite G1. intros Hin. apply Hr.
    eapply elem_of_sublist; [exact Hin|apply sublist_drop].
  - intros r. destruct (F1 r) as [I1 S1], (F2 r) as [I2 S2]. split; [congruence|]. by etrans.
Qed.
Lemma evicted_suffix n b b' : evicted n b b' -> queue_suffix b b'.
Proof.
  intros (Hg & Hs & Hl & _). split; [done|]. split; [by exists n|]. unfold frames_at, gop_of. by rewrite Hs.
Qed.

Lemma dropOld_all_ok n b acc :
  buf_ok b -> exists b' dropped, dropOld_loop n true b acc = (b', acc ++ dropped) /\ buf_ok b' /\ queue_suffix b b'.
Proof.
  revert b acc. induction n as [|n IH]; intros b acc Hok; cbn [dropOld_loop].
  { exists b, []. rewrite app_nil_r. split; [done|]. split; [done|by apply same_queue_suffix]. }
  assert (exists b' dropped, (b, acc) = (b', acc ++ dropped) /\ buf_ok b' /\ queue_suffix b b') as Hstop.
  { exists b, []. rewrite app_nil_r. split; [done|]. split; [done|by apply same_queue_suffix]. }
  case_bool; [|done]. destruct (gops b) as [|r rest] eqn:Hg; [done|].
  destruct (IH (removeOldestGOP b) (acc ++ Frames (gop_of b r))) as (b' & d & -> & Hok' & Hq).
  { by apply removeOldestGOP_ok. }
  exists b', (Frames (gop_of b r) ++ d). rewrite app_assoc. split; [done|]. split; [done|].
  eapply queue_suffix_trans; [|exact Hq]. apply (evicted_suffix 1), removeOldest_evicted.
Qed.

Lemma DropFramesForPressure_ok p b :
  buf_ok b ->
  exists b' dropped, DropFramesForPressure p b = Ret (b', dropped) /\ buf_ok b' /\ queue_suffix b b' /\
    (f64_ltb p (f64_dec 95 2) = true ->
       same_queue b b' /\ Forall (fun f => key_type f = false) dropped) /\
    (f64_ltb p (f64_dec 5 1) = true -> b' = b /\ dropped = []).
Proof.
  intros Hok. unfold DropFramesForPressure. destruct (f64_ltb p (f64_dec 5 1)).
  { exists b, []. split; [done|]. split; [done|]. split; [by apply same_queue_suffix|]. by split. }
  set (m := if f64_ltb p (f64_dec 7 1) then _ else _).
  assert (exists b' dropped, m = Ret (b', dropped) /\ buf_ok b' /\ queue_suffix b b' /\
    (f64_ltb p (f64_dec 95 2) = true -> trimmed b b' dropped)) as (b' & dr & -> & Hok' & Hs & Ht).
  { assert (forall b' d, trimmed b b' d -> buf_ok b' /\ queue_suffix b b' /\
      (f64_ltb p (f64_dec 95 2) = true -> trimmed b b' d)) as Hdone.
    { intros b' d Ht. split; [by destruct Ht|]. split; [|done]. apply same_queue_suffix. by destruct Ht as (_ & ? & _). }
    subst m. destruct (f64_ltb p (f64_dec 7 1)).
    { destruct (dropBFrames_ok 2 b Hok) as (b' & d & -> & Ht). exists b', d. auto. }
    destruct (f64_ltb p (f64_dec 85 2)).
    { destruct (dropBFrames_ok (-1) b Hok) as (b1 & d1 & -> & Ht1). rewrite bind_Ret. cbv beta iota.
      destruct (dropPFrames_ok 1 b1) as (b2 & d2 & -> & Ht2); [by destruct Ht1|].
      exists b2, (d1 ++ d2). split; [done|]. apply Hdone. by apply (trimmed_trans b b1). }
    destruct (f64_ltb p (f64_dec 95 2)).
    { destruct (dropOld_keys_ok (Z.to_nat 1) b [] Hok) as (b1 & d1 & Hrun & Ht1). unfold dropOldGOPs.
      rewrite Hrun. exists b1, d1. auto. }
    case_bool.
    { destruct (dropOld_all_ok (Z.to_nat 1) b [] Hok) as (b1 & d1 & Hrun & Hok1 & Hs1). unfold dropOldGOPs.
      rewrite Hrun. exists b1, d1. by split_and!. }
    destruct (dropAll_loop_ok (gops b) b [] Hok) as (b1 & d1 & Hrun & Ht1); [by apply Forall_forall|].
    unfold dropAllNonKeyframes. rewrite Hrun. exists b1, d1. auto. }
  rewrite bind_Ret. cbv beta iota. eexists _, dr. split; [done|]. split; [by apply ok_counter|].
  split; [done|]. split; [|done]. intros Hp. destruct (Ht Hp) as (_ & Hq & Hf). done.
Qed.

(** ** Runs *)

Inductive op := OpAdd (r : gop_ref) (g : GOP) | OpPressure (p : float64) | OpDropFrom (id i : Z) | OpClear.

Definition exec (o : op) (b : Buffer) : res Buffer :=
  match o with
  | OpAdd r g => AddGOP r g b
  | OpPressure p => '(b, _) ← DropFramesForPressure p b; Ret b
  | OpDropFrom id i => '(b, _) ← DropFramesFromGOP id i b; Ret b
  | OpClear => Ret (Clear b)
  end.

(** The caller adds fresh GOPs; where the byte counters are to be exact, sizes
    stay below [2 ^ 63] bytes. *)
Definition admissible (o : op) (b : Buffer) : Prop :=
  match o with
  | OpAdd r g => new_gop r g b /\ (sized_gops = true -> small (all_frames b ++ Frames g))
  | _ => True
  end.

Inductive reached (id : string) (config : BufferConfig) : Buffer -> Prop :=
| reached_new : reached id config (NewBuffer id config)
| reached_step b o b' :
    reached id config b -> admissible o b -> exec o b = Ret b' -> reached id config b'.

Lemma exec_ok o b :
  buf_ok b -> 0 <= maxGOPs b -> admissible o b ->
  exists b', exec o b = Ret b' /\ buf_ok b' /\ maxGOPs b' = maxGOPs b.
Proof.
  intros Hok H0 Had. destruct o as [r g|p|i k|]; cbn [exec].
  - destruct Had as (Hn & Hs).
    destruct (AddGOP_ok r g b) as (b' & Hrun & Hok' & _ & Hl & _); try done.
    exists b'. split; [done|]. split; [done|]. by apply limits_maxGOPs.
  - destruct (DropFramesForPressure_ok p b Hok) as (b' & d & -> & Hok' & [Hl _] & _).
    exists b'. split; [done|]. split; [done|]. by apply limits_maxGOPs.
  - destruct (DropFramesFromGOP_ok i k b Hok) as (b' & d & -> & Hok' & (_ & Hl & _) & _).
    exists b'. split; [done|]. split; [done|]. by apply limits_maxGOPs.
  - exists (Clear b). split; [done|]. split; [apply Clear_ok|done].
Qed.

Lemma reached_ok id config b :
  0 <= MaxGOPs config -> reached id config b -> buf_ok b /\ maxGOPs b = MaxGOPs config.
Proof.
  intros H0. induction 1 as [|b o b' _ [Hok Hm] Had Hrun]; [split; [apply NewBuffer_ok|done]|].
  assert (0 <= maxGOPs b) as Hm0 by (by rewrite Hm).
  destruct (exec_ok o b Hok Hm0 Had) as (b1 & Hrun1 & Hok1 & Hm1). rewrite Hrun in Hrun1.
  injection Hrun1 as <-. split; [done|]. by rewrite Hm1.
Qed.

Lemma all_frames_elem b f :
  f ∈ all_frames b <-> exists r k, r ∈ gops b /\ frames_at b r !! k = Some f.
Proof.
  unfold all_frames. rewrite list_elem_of_In, in_concat. split.
  - intros (l & Hl & Hf). apply list_elem_of_In, list_elem_of_fmap in Hl as (r & -> & Hr).
    apply list_elem_of_In, list_elem_of_lookup in Hf as [k Hk]. eauto.
  - intros (r & k & Hr & Hk). exists (frames_at b r). split; apply list_elem_of_In.
    + by apply list_elem_of_fmap_2.
    + by eapply list_elem_of_lookup_2.
Qed.

(** The frame index is exact: [GetFrame] never fails, and finds precisely the
    buffered frames. *)
Lemma GetFrame_exact b id :
  buf_ok b -> exists o, GetFrame id b = Ret o /\
    forall f, o = Some f <-> f ∈ all_frames b /\ Frame.ID f = id.
Proof.
  intros Hok. unfold GetFrame. destruct (decide (id ∈ ids (all_frames b))) as [Hin|Hout].
  - apply list_elem_of_fmap in Hin as (f & -> & Hf). pose proof Hf as Hf'.
    apply all_frames_elem in Hf' as (r & k & Hr & Hk). rewrite (bo_frame b Hok r k f Hr Hk). simpl.
    fold (frames_at b r). pose proof (lookup_lt_Some _ _ _ Hk).
    rewrite (proj2 (Z.ltb_lt _ _)) by (unfold len; lia).
    assert (idx (frames_at b r) (Z.of_nat k) = Ret f) as ->.
    { unfold idx. rewrite (proj2 (Z.ltb_ge _ 0)), Nat2Z.id, Hk by lia. done. }
    rewrite bind_Ret. exists (Some f). split; [done|]. intros f'. split; [by intros [= <-]|].
    intros [Hf1 He]. f_equal. apply list_elem_of_lookup in Hf as [i Hi], Hf1 as [j Hj].
    assert (i = j) as ->; [|congruence]. eapply NoDup_lookup; [apply (bo_ids b Hok)| |];
      unfold ids; rewrite list_lookup_fmap; [by rewrite Hi|]. rewrite Hj. simpl. by rewrite He.
  - rewrite (bo_no_frame b Hok id Hout). exists None. split; [done|]. intros f. split; [done|].
    intros [Hf <-]. destruct Hout. by apply ids_elem.
Qed.

Lemma GetGOP_exact b id g :
  buf_ok b -> GetGOP id b = Some g <-> exists r, r ∈ gops b /\ gop_of b r = g /\ ID g = id.
Proof.
  intros Hok. unfold GetGOP. split.
  - destruct (gopIndex b !! id) as [r|] eqn:Hr; [|done]. intros [= <-].
    destruct (index_gop b id r Hok Hr). eauto.
  - intros (r & Hr & <- & <-). by rewrite (bo_gop b Hok r Hr).
Qed.

End operations.

(** ** GOPs built by [AddFrame] *)

(** A GOP as the detector creates it, before its first frame. *)
Definition empty_gop (g : GOP) : Prop :=
  Frames g = [] /\ TotalSize g = 0 /\ PFrameCount g = 0 /\ BFrameCount g = 0 /\ Keyframe g = None.

Fixpoint add_frames (fs : list VideoFrame) (g : GOP) : GOP :=
  match fs with [] => g | f :: fs => add_frames fs (fst (AddFrame f g)) end.

Definition type_count (t : FrameType) (l : list VideoFrame) : Z := len (filter (fun f => FType f = t) l).

(** The counters of a GOP are those of its frames. *)
Definition gop_counted (g : GOP) : Prop :=
  same64 (TotalSize g) (fsum (Frames g)) /\
  same64 (PFrameCount g) (type_count FrameTypeP (Frames g)) /\
  same64 (BFrameCount g) (type_count FrameTypeB (Frames g)) /\
  (forall k f, Frames g !! k = Some f -> GOPPosition f = Z.of_nat k /\ GOPId f = ID g).

Lemma type_count_snoc t l f :
  type_count t (l ++ [f]) = type_count t l + if ft_eqb (FType f) t then 1 else 0.
Proof.
  unfold type_count. rewrite filter_app, len_app, (filter_cons _ f []), filter_nil. f_equal.
  unfold ft_eqb. case_decide; case_bool_decide; done.
Qed.

Arguments AddFrame : simpl never.

(** The frame as [AddFrame] leaves it. *)
Definition placed (g : GOP) (f : VideoFrame) : VideoFrame :=
  f <| GOPId := ID g |> <| GOPPosition := len (Frames g) |>.

Lemma AddFrame_fields f g (g' := fst (AddFrame f g)) :
  ID g' = ID g /\ Frames g' = Frames g ++ [placed g f] /\
  TotalSize g' = i64 (TotalSize g + Frame.TotalSize f) /\
  PFrameCount g' = (if ft_eqb (FType f) FrameTypeP then i64 (PFrameCount g + 1) else PFrameCount g) /\
  BFrameCount g' = (if ft_eqb (FType f) FrameTypeB then i64 (BFrameCount g + 1) else BFrameCount g) /\
  snd (AddFrame f g) = placed g f.
Proof.
  subst g'. unfold AddFrame. cbv zeta. fold (placed g f).
  assert (FType (placed g f) = FType f) as Hft by done.
  assert (Frame.TotalSize (placed g f) = Frame.TotalSize f) as Hts by done.
  set (p := placed g f) in *. clearbody p.
  rewrite Hft, Hts. destruct (_ =? 1); destruct (FType f); destruct (IsCorrupted p); done.
Qed.

Lemma AddFrame_counted f g : gop_counted g -> gop_counted (fst (AddFrame f g)).
Proof.
  intros (Ht & Hp & Hb & Hpos). destruct (AddFrame_fields f g) as (Ei & Ef & Et & Ep & Eb & _).
  set (g' := fst (AddFrame f g)) in *. clearbody g'. unfold gop_counted. rewrite Ef, !type_count_snoc, fsum_app.
  assert (FType (placed g f) = FType f) as -> by done. simpl fsum.
  split; [|split; [|split]].
  - rewrite Et. unfold same64 in *. mlia.
  - rewrite Ep. clear - Hp. destruct (ft_eqb _ _); unfold same64 in *; mlia.
  - rewrite Eb. clear - Hb. destruct (ft_eqb _ _); unfold same64 in *; mlia.
  - intros k f' Hk. rewrite Ei. apply lookup_app_Some in Hk as [Hk|[Hge Hk]]; [by apply Hpos|].
    apply list_lookup_singleton_Some in Hk as [Hk <-]. split; [|done].
    change (GOPPosition (placed g f)) with (len (Frames g)). unfold len. lia.
Qed.

Lemma add_frames_counted fs g : gop_counted g -> gop_counted (add_frames fs g).
Proof.
  revert g. induction fs as [|f fs IH]; intros g Hg; cbn [add_frames]; [done|].
  apply IH. by apply AddFrame_counted.
Qed.

Lemma add_frames_sums fs g (g' := add_frames fs g) :
  len (Frames g') = len (Frames g) + len fs /\ fsum (Frames g') = fsum (Frames g) + fsum fs /\
  (forall t, type_count t (Frames g') = type_count t (Frames g) + type_count t fs) /\ ID g' = ID g.
Proof.
  subst g'. revert g. induction fs as [|f fs IH]; intros g; cbn [add_frames].
  { split; [unfold len; simpl; lia|]. split; [simpl; lia|]. split; [|done]. intros t. unfold type_count.
    rewrite filter_nil. unfold len. simpl. lia. }
  destruct (IH (fst (AddFrame f g))) as (I1 & I2 & I3 & I4).
  destruct (AddFrame_fields f g) as (Ei & Ef & _). rewrite I1, I2, I4, Ei, Ef, len_app, fsum_app, len_cons.
  assert (Frame.TotalSize (placed g f) = Frame.TotalSize f) as Hs by done. cbn [fsum foldr]. rewrite Hs.
  split; [unfold len; simpl; lia|]. split; [fold (fsum fs); lia|]. split; [|done]. intros t.
  rewrite I3, Ef, type_count_snoc. unfold type_count. rewrite (filter_cons _ f fs).
  assert (FType (placed g f) = FType f) as -> by done. unfold ft_eqb.
  case_decide; case_bool_decide; try done; rewrite ?len_cons; lia.
Qed.

(** ** Properties *)

(** C39: In every state that a run of additions of fresh GOPs, drops and clears
    reaches, the indices are exact ([GetFrame] and [GetGOP] find precisely what is
    buffered, never failing) and every further operation returns.  The byte counter
    is the sum of the buffered frames' sizes under the condition [sized_gops]: every
    added GOP's [TotalSize] is the sum of its frames'.  The program's own detector
    does not meet it: it leaves out the size of a GOP's first frame. *)
Theorem gop_books `{SizedGOPs} id config b :
  0 <= MaxGOPs config -> reached id config b ->
  (forall fid, exists o, GetFrame fid b = Ret o /\
  forall f, o = Some f <-> f ∈ all_frames b /\ Frame.ID f = fid) /\
  (forall gid g, GetGOP gid b = Some g <-> exists r, r ∈ gops b /\ gop_of b r = g /\ ID g = gid) /\
  (sized_gops = true -> u64 (currentBytes b) = u64 (fsum (all_frames b))) /\
  (forall o, admissible o b -> exists b', exec o b = Ret b').
Proof.
  intros H0 Hr. destruct (reached_ok id config b H0 Hr) as [Hok Hm].
  split; [intros fid; by apply GetFrame_exact|]. split; [intros gid g; by apply GetGOP_exact|].
  split; [by apply (bo_bytes b Hok)|]. intros o Had.
  destruct (exec_ok o b Hok ltac:(by rewrite Hm) Had) as (b' & Hrun & _). by exists b'.
Qed.

(** Adding an accepted GOP returns with the limits on number, bytes and age
    met, and what was evicted for it are the oldest GOPs; a GOP that is neither
    complete nor closed leaves the queue as it was. *)
Theorem gop_add_limits `{SizedGOPs} id config b r g :
  0 <= MaxGOPs config -> reached id config b -> admissible (OpAdd r g) b ->
  exists b', AddGOP r g b = Ret b' /\
  (accepted g = false -> gops b' = gops b) /\
  (accepted g = true -> within_limits b' /\ exists n, gops b' = drop n (gops b ++ [r])).
Proof.
  intros H0 Hr (Hn & Hs). destruct (reached_ok id config b H0 Hr) as [Hok Hm].
  destruct (AddGOP_ok r g b) as (b' & Hrun & _ & _ & _ & Hrej & Hacc); try done; [by rewrite Hm|].
  by exists b'.
Qed.

(** Dropping frames for pressure returns in every state reached; below 0.5
    nothing changes, below 0.95 every GOP stays and no frame of a key frame type
    goes, and from 0.95 on only the oldest GOPs are removed. *)
Theorem gop_pressure_tiers `{SizedGOPs} id config b p :
  0 <= MaxGOPs config -> reached id config b ->
  exists b' dropped, DropFramesForPressure p b = Ret (b', dropped) /\ queue_suffix b b' /\
  (f64_ltb p (f64_dec 95 2) = true ->
       gops b' = gops b /\ Forall (fun f => FrameType_IsKeyframe (FType f) = false) dropped) /\
  (f64_ltb p (f64_dec 5 1) = true -> b' = b /\ dropped = []).
Proof.
  intros H0 Hr. destruct (reached_ok id config b H0 Hr) as [Hok Hm].
  destruct (DropFramesForPressure_ok p b Hok) as (b' & d & Hrun & _ & Hs & Hk & Hlow).
  exists b', d. split; [done|]. split; [done|]. split; [|done]. intros Hp. by destruct (Hk Hp) as [[Hg _] Hf].
Qed.

(** A GOP filled with [AddFrame] has the size and the P- and B-frame counts
    of its frames, and each of them knows its GOP and position. *)
Theorem gop_frames_counted g fs :
  empty_gop g ->
  let g' := add_frames fs g in
  len (Frames g') = len fs /\ u64 (TotalSize g') = u64 (fsum fs) /\
  u64 (PFrameCount g') = u64 (type_count FrameTypeP fs) /\
  u64 (BFrameCount g') = u64 (type_count FrameTypeB fs) /\
  forall k f, Frames g' !! k = Some f -> GOPPosition f = Z.of_nat k /\ GOPId f = ID g.
Proof.
  intros (Hf & Ht & Hp & Hb & _) g'. destruct (add_frames_counted fs g) as (C1 & C2 & C3 & C4).
  { unfold gop_counted. rewrite Hf, Ht, Hp, Hb. by split_and!. }
  destruct (add_frames_sums fs g) as (S1 & S2 & S3 & S4). rewrite Hf in S1, S2, S3. simpl in S1, S2.
  unfold type_count at 2 in S3. unfold same64 in *. fold g' in C1, C2, C3, C4, S1, S2, S3, S4.
  rewrite C1, C2, C3, S1, S2, !S3. rewrite <- S4. done.
Qed.

(** ** Concrete runs *)

Section demo.
#[local] Instance demo_sized : SizedGOPs := true.

Definition demo_frame (id : Z) (t : FrameType) (size pts : Z) : VideoFrame :=
  mkFrame id "s" 0 [] size pts pts 3000 pts pts t 0 0 0 [] [] 0 (f64_of_Z 0) 0.
Definition demo_empty (id start : Z) : GOP :=
  mkGOP id "s" 0 [] None 0 0 0 start start (mkStructure "" 0 false false) true true 0 0 0 0 0 0 0 0
    (f64_of_Z 0) false (f64_of_Z 0).
Definition demo_gop (id : Z) : GOP :=
  add_frames [demo_frame (10 * id) FrameTypeIDR 100 (9000 * id);
              demo_frame (10 * id + 1) FrameTypeB 20 (9000 * id + 3000);
              demo_frame (10 * id + 2) FrameTypeP 40 (9000 * id + 6000)] (demo_empty id (9000 * id)).
Definition demo_config : BufferConfig := {| MaxGOPs := 2; MaxBytes := 400; MaxDuration := 0 |}.
Definition run_demo (o : op) (b : Buffer) : Buffer := match exec o b with Ret b => b | _ => b end.
Definition demo1 : Buffer := run_demo (OpAdd 0%nat (demo_gop 1)) (NewBuffer "s" demo_config).
Definition demo2 : Buffer := run_demo (OpAdd 1%nat (demo_gop 2)) demo1.

Ltac demo_admissible :=
  split; [split; [decide_goal|decide_goal|decide_goal|apply Forall_forall; decide_goal
                 |vm_compute; reflexivity|vm_compute; lia]
         |intros _; unfold small; split; decide_goal].

Lemma demo1_admissible : admissible (OpAdd 0%nat (demo_gop 1)) (NewBuffer "s" demo_config).
Proof. demo_admissible. Qed.
Lemma demo1_reached : reached "s" demo_config demo1.
Proof.
  apply (reached_step _ _ (NewBuffer "s" demo_config) (OpAdd 0%nat (demo_gop 1)));
    [constructor|apply demo1_admissible|]. unfold demo1, run_demo. by vm_compute.
Qed.
Lemma demo2_admissible : admissible (OpAdd 1%nat (demo_gop 2)) demo1.
Proof. demo_admissible. Qed.
Lemma demo2_reached : reached "s" demo_config demo2.
Proof.
  apply (reached_step _ _ demo1 (OpAdd 1%nat (demo_gop 2)));
    [apply demo1_reached|apply demo2_admissible|]. unfold demo2, run_demo. by vm_compute.
Qed.

Lemma gop_books_witness :
  reached "s" demo_config demo2 /\ exists o, GetFrame 12 demo2 = Ret o /\ option_map Frame.PTS o = Some 15000.
Proof.
  split; [apply demo2_reached|].
  destruct (gop_books "s" demo_config demo2 ltac:(vm_compute; congruence) demo2_reached) as (Hf & _).
  destruct (Hf 12) as (o & Ho & _). exists o. split; [exact Ho|].
  assert (Ret o = GetFrame 12 demo2) as E by (symmetry; exact Ho). vm_compute in E.
  injection E as ->. reflexivity.
Defined.

Lemma gop_add_limits_witness :
  exists b', AddGOP 1%nat (demo_gop 2) demo1 = Ret b' /\ within_limits b' /\ gops b' = [0%nat; 1%nat].
Proof.
  destruct (gop_add_limits "s" demo_config demo1 1%nat (demo_gop 2) ltac:(vm_compute; congruence)
    demo1_reached demo2_admissible) as (b' & Hrun & _ & Hacc).
  exists b'. split; [exact Hrun|]. split; [apply Hacc; vm_compute; reflexivity|].
  assert (Ret b' = AddGOP 1%nat (demo_gop 2) demo1) as E by (symmetry; exact Hrun). vm_compute in E.
  injection E as ->. reflexivity.
Defined.

Lemma gop_pressure_tiers_witness :
  exists b' dropped, DropFramesForPressure (f64_dec 6 1) demo2 = Ret (b', dropped) /\
    gops b' = gops demo2 /\ Frame.ID <$> dropped = [11; 21].
Proof.
  destruct (gop_pressure_tiers "s" demo_config demo2 (f64_dec 6 1) ltac:(vm_compute; congruence)
    demo2_reached) as (b' & d & Hrun & _ & Hk & _).
  exists b', d. split; [exact Hrun|]. split; [apply Hk; vm_compute; reflexivity|].
  assert (Ret (b', d) = DropFramesForPressure (f64_dec 6 1) demo2) as E by (symmetry; exact Hrun).
  vm_compute in E. injection E as -> ->. reflexivity.
Defined.

Lemma gop_frames_counted_witness :
  empty_gop (demo_empty 7 0) /\ u64 (TotalSize (add_frames [demo_frame 1 FrameTypeB 20 0] (demo_empty 7 0))) = 20.
Proof.
  assert (empty_gop (demo_empty 7 0)) as He by (vm_compute; auto). split; [exact He|].
  destruct (gop_frames_counted (demo_empty 7 0) [demo_frame 1 FrameTypeB 20 0] He) as (_ & Ht & _).
  rewrite Ht. reflexivity.
Defined.

(** A GOP with two key frames loses the second one's bytes when its other frames
    are dropped: removed later, they stay in [currentBytes]. *)
Definition two_keys : GOP :=
  add_frames [demo_frame 30 FrameTypeIDR 100 0; demo_frame 31 FrameTypeI 50 3000;
              demo_frame 32 FrameTypeP 10 6000] (demo_empty 3 1).
Example two_key_drift :
  let b := run_demo (OpAdd 1%nat (demo_gop 2)) (run_demo (OpAdd 0%nat two_keys) (NewBuffer "s" demo_config)) in
  let b := run_demo (OpPressure (f64_dec 97 2)) (run_demo (OpPressure (f64_dec 9 1)) b) in
  gops b = [1%nat] /\ currentBytes b = fsum (all_frames b) + 50 /\ droppedFrames b = 5.
Proof. vm_compute. auto. Qed.
End demo.
