(* ===== verification/GopDetector.v ===== *)
(** * GOP boundaries (gop/detector.go) and the GOPs that reach the buffer

    A key frame closes the GOP under construction and opens the next.  GOPs are
    objects of the heap [GopBuffer.store]: the detector keeps the addresses of
    the current and of the last ten GOPs, which the buffer shares. *)

From stdpp Require Import strings.
From S2P Require Import Prelude Float64 Frame Gop GopBuffer GopBooks.

Record Detector := mkDetector {
  d_streamID : string;
  currentGOP : option gop_ref;
  gopCounter : Z;
  recentGOPs : list gop_ref;
  d_maxGOPs : Z;
  avgGOPSize : float64;
  avgDuration : Z
}.
#[export] Instance eta_detector : Eta Detector := fun d =>
  mkDetector (d_streamID d) (currentGOP d) (gopCounter d) (recentGOPs d) (d_maxGOPs d) (avgGOPSize d)
    (avgDuration d).

Definition NewDetector (id : string) : Detector := mkDetector id None 0 [] 10 (f64_of_Z 0) 0.

(** The heap of GOP objects. *)
Abbreviation gop_heap := (gmap gop_ref GOP).

Definition ptsDurationWithWrap (endPTS startPTS : Z) : Z :=
  let d := i64 (endPTS - startPTS) in
  if d <? 0 then i64 (d + Z.shiftl 1 33) else d.

(** 90 kHz ticks to nanoseconds. *)
Definition ticks_ns (d : Z) : Z := Z.quot (i64 (d * 1000000)) 90.

Definition updateStatistics (h : gop_heap) (d : Detector) : Detector :=
  if len (recentGOPs d) =? 0 then d
  else
    let '(size, dur) :=
      foldl (fun '(s, t) r => (i64 (s + len (Frames (h !!! r))), i64 (t + ticks_ns (Gop.Duration (h !!! r)))))
        (0, 0) (recentGOPs d) in
    d <| avgGOPSize := f64_div (f64_of_Z size) (f64_of_Z (len (recentGOPs d))) |>
      <| avgDuration := Z.quot dur (len (recentGOPs d)) |>.

Definition closeCurrentGOP (nextKeyframePTS : Z) (h : gop_heap) (d : Detector) : gop_heap * Detector :=
  match currentGOP d with
  | None => (h, d)
  | Some r =>
      let g := (h !!! r) <| EndPTS := nextKeyframePTS |> in
      let g := if 0 <? len (Frames g) then g <| Gop.Duration := ptsDurationWithWrap (EndPTS g) (StartPTS g) |> else g in
      let g := g <| Closed := true |> <| Complete := true |> in
      let h := <[r := g]> h in
      let rs := recentGOPs d ++ [r] in
      let rs := if d_maxGOPs d <? len rs then dropZ 1 rs else rs in
      (h, updateStatistics h (d <| recentGOPs := rs |>))
  end.

(** PTS from the first to the last frame. *)
Definition frame_span (g : GOP) : Z :=
  match Frames g, last (Frames g) with
  | f :: _, Some l => ptsDurationWithWrap (Frame.PTS l) (Frame.PTS f)
  | _, _ => 0
  end.

Definition minGOPDuration : Z := 500000000.
Definition maxGOPDuration : Z := 2000000000.

Definition checkGOPCompletion (g : GOP) : GOP :=
  let g :=
    if 0 <? len (Frames g) then
      let t := ticks_ns (frame_span g) in
      let g := if minGOPDuration <=? t
               then g <| Complete := true |> <| Gop.Duration := frame_span g |> else g in
      if maxGOPDuration <=? t
      then g <| Complete := true |> <| Closed := true |> <| Gop.Duration := frame_span g |> else g
    else g in
  let g := if (0 <? Size (Structure g)) && (Size (Structure g) <=? len (Frames g))
           then g <| Complete := true |> else g in
  if 120 <=? len (Frames g) then
    let g := g <| Complete := true |> <| Closed := true |> in
    if (Gop.Duration g =? 0) && (0 <? len (Frames g)) then g <| Gop.Duration := frame_span g |> else g
  else g.

(** [&types.GOP{...}] of a key frame. *)
Definition opened (id : Z) (stream : string) (frame : VideoFrame) : GOP :=
  mkGOP id stream 0 [frame] (Some frame) (Frame.PTS frame) 0 0 (CaptureTime frame) 0
    (mkStructure "" 0 false false) false false 0 0 0 0 0 0 0 0 (f64_of_Z 0) false (f64_of_Z 0).

(** A frame that is no key frame joins the GOP. *)
Definition joined (frame : VideoFrame) (g : GOP) : GOP :=
  let frame := frame <| GOPId := ID g |> <| GOPPosition := len (Frames g) |> in
  let g := g <| Frames := Frames g ++ [frame] |> in
  let g := match FType frame with
           | FrameTypeP => g <| PFrameCount := i64 (PFrameCount g + 1) |>
           | FrameTypeB => g <| BFrameCount := i64 (BFrameCount g + 1) |>
           | _ => g
           end in
  g <| TotalSize := i64 (TotalSize g + Frame.TotalSize frame) |>.

(** [r] is the address of the GOP object made for a key frame; the result
    is the GOP that was closed. *)
Definition ProcessFrame (r : gop_ref) (frame : VideoFrame) (h : gop_heap) (d : Detector)
    : gop_heap * Detector * option gop_ref :=
  if IsKeyframe frame then
    let '(h, d) := closeCurrentGOP (Frame.PTS frame) h d in
    let closed := currentGOP d in
    let d := d <| gopCounter := u64 (gopCounter d + 1) |> <| currentGOP := Some r |> in
    let frame := frame <| GOPId := gopCounter d |> <| GOPPosition := 0 |> in
    (<[r := opened (gopCounter d) (d_streamID d) frame]> h, d, closed)
  else
    match currentGOP d with
    | Some c => (<[c := checkGOPCompletion (joined frame (h !!! c))]> h, d, None)
    | None => (h, d, None)
    end.

Record GOPStatistics := mkGStats {
  gs_StreamID : string; gs_TotalGOPs : Z; CurrentGOPFrames : Z; CurrentGOPSize : Z; AverageGOPSize : float64;
  AverageDuration : Z; IFrameRatio : float64; PFrameRatio : float64; BFrameRatio : float64 }.

Definition count_recent (f : GOP -> Z) (h : gop_heap) (rs : list gop_ref) : Z :=
  foldl (fun n r => i64 (n + f (h !!! r))) 0 rs.

Definition detector_GetStatistics (h : gop_heap) (d : Detector) : GOPStatistics :=
  let i := count_recent countIFrames h (recentGOPs d) in
  let p := count_recent PFrameCount h (recentGOPs d) in
  let b := count_recent BFrameCount h (recentGOPs d) in
  let total := i64 (i + p + b) in
  let ratio n := if (0 <? len (recentGOPs d)) && (0 <? total) then f64_div (f64_of_Z n) (f64_of_Z total)
                 else f64_of_Z 0 in
  mkGStats (d_streamID d) (gopCounter d)
    (match currentGOP d with Some c => len (Frames (h !!! c)) | None => 0 end)
    (match currentGOP d with Some c => TotalSize (h !!! c) | None => 0 end)
    (avgGOPSize d) (avgDuration d) (ratio i) (ratio p) (ratio b).

Definition GetCurrentGOP (h : gop_heap) (d : Detector) : option GOP := (fun c => h !!! c) <$> currentGOP d.
Definition detector_GetRecentGOPs (h : gop_heap) (d : Detector) : list GOP := (fun c => h !!! c) <$> recentGOPs d.

(** ** The detector partitions the frames *)

(** A run of the detector over frames with the addresses of the GOP objects, with
    the GOPs as they are when they are closed. *)
Fixpoint detect (evs : list (gop_ref * VideoFrame)) (h : gop_heap) (d : Detector) (closed : list GOP)
    : gop_heap * Detector * list GOP :=
  match evs with
  | [] => (h, d, closed)
  | (r, f) :: evs =>
      let '(h, d, c) := ProcessFrame r f h d in
      detect evs h d (closed ++ match c with Some c => [h !!! c] | None => [] end)
  end.

(** The reference: frames before the first key frame, then one group per key
    frame. *)
Fixpoint split_keys (l : list VideoFrame) : list VideoFrame * list (list VideoFrame) :=
  match l with
  | [] => ([], [])
  | f :: l => let '(pre, gs) := split_keys l in
              if IsKeyframe f then ([], (f :: pre) :: gs) else (f :: pre, gs)
  end.
Definition groups (l : list VideoFrame) : list (list VideoFrame) := snd (split_keys l).

(** A frame without the GOP id and position the detector writes. *)
Definition strip (f : VideoFrame) : VideoFrame := f <| GOPId := 0 |> <| GOPPosition := 0 |>.

(** What the detector makes of group [l], its [n]-th; the size is that of the
    frames after the key frame. *)
Record gop_is (n : Z) (l : list VideoFrame) (g : GOP) : Prop := {
  gi_id : ID g = n;
  gi_frames : strip <$> Frames g = strip <$> l;
  gi_key : match l with k :: rest => IsKeyframe k = true /\ Forall (fun f => IsKeyframe f = false) rest /\
                                     StartPTS g = Frame.PTS k /\ strip <$> Keyframe g = Some (strip k)
                   | [] => False end;
  gi_size : same64 (TotalSize g) (fsum (tail l));
  gi_p : same64 (PFrameCount g) (type_count FrameTypeP (tail l));
  gi_b : same64 (BFrameCount g) (type_count FrameTypeB (tail l))
}.

Lemma split_keys_snoc l f :
  split_keys (l ++ [f]) =
    let '(pre, gs) := split_keys l in
    if IsKeyframe f then (pre, gs ++ [[f]])
    else match last gs with
         | None => (pre ++ [f], [])
         | Some g => (pre, removelast gs ++ [g ++ [f]])
         end.
Proof.
  induction l as [|x l IH]; cbn [app split_keys].
  { by destruct (IsKeyframe f). }
  rewrite IH. destruct (split_keys l) as [pre gs]. destruct (IsKeyframe f).
  { by destruct (IsKeyframe x). }
  destruct (last gs) as [g|] eqn:Hl.
  - destruct (IsKeyframe x); cbv beta iota; [rewrite last_cons|]; rewrite Hl; [|done]. by destruct gs.
  - apply last_None in Hl as ->. by destruct (IsKeyframe x).
Qed.

Lemma groups_key l f : IsKeyframe f = true -> groups (l ++ [f]) = groups l ++ [[f]].
Proof. intros Hf. unfold groups. rewrite split_keys_snoc. destruct (split_keys l). by rewrite Hf. Qed.
Lemma groups_none l f : IsKeyframe f = false -> groups l = [] -> groups (l ++ [f]) = [].
Proof.
  intros Hf. unfold groups. rewrite split_keys_snoc. destruct (split_keys l) as [pre gs]. rewrite Hf. simpl.
  by intros ->.
Qed.
Lemma groups_more l f gs g :
  IsKeyframe f = false -> groups l = gs ++ [g] -> groups (l ++ [f]) = gs ++ [g ++ [f]].
Proof.
  intros Hf. unfold groups. rewrite split_keys_snoc. destruct (split_keys l) as [pre gs0]. rewrite Hf. simpl.
  intros ->. rewrite last_snoc, removelast_last. done.
Qed.

(** The completion rule changes no frame and no counter. *)
Lemma checkGOPCompletion_fields g (g' := checkGOPCompletion g) :
  ID g' = ID g /\ Frames g' = Frames g /\ TotalSize g' = TotalSize g /\ PFrameCount g' = PFrameCount g /\
  BFrameCount g' = BFrameCount g /\ StartPTS g' = StartPTS g /\ Keyframe g' = Keyframe g.
Proof.
  subst g'. unfold checkGOPCompletion.
  set (g1 := if 0 <? len (Frames g) then _ else g).
  assert (ID g1 = ID g /\ Frames g1 = Frames g /\ TotalSize g1 = TotalSize g /\
    PFrameCount g1 = PFrameCount g /\ BFrameCount g1 = BFrameCount g /\ StartPTS g1 = StartPTS g /\
    Keyframe g1 = Keyframe g) as Hg1.
  { subst g1. destruct (0 <? _); [|done]. by destruct (_ <=? _), (_ <=? _). }
  clearbody g1. set (g2 := if _ && _ then _ else g1).
  assert (ID g2 = ID g /\ Frames g2 = Frames g /\ TotalSize g2 = TotalSize g /\
    PFrameCount g2 = PFrameCount g /\ BFrameCount g2 = BFrameCount g /\ StartPTS g2 = StartPTS g /\
    Keyframe g2 = Keyframe g) as Hg2.
  { subst g2. by destruct (_ && _). }
  clearbody g2. destruct (120 <=? _); [|done]. by destruct (_ && _).
Qed.

Lemma joined_fields f g (g' := joined f g) (p := placed g f) :
  ID g' = ID g /\ Frames g' = Frames g ++ [p] /\ TotalSize g' = i64 (TotalSize g + Frame.TotalSize f) /\
  PFrameCount g' = (if ft_eqb (FType f) FrameTypeP then i64 (PFrameCount g + 1) else PFrameCount g) /\
  BFrameCount g' = (if ft_eqb (FType f) FrameTypeB then i64 (BFrameCount g + 1) else BFrameCount g) /\
  StartPTS g' = StartPTS g /\ Keyframe g' = Keyframe g.
Proof.
  subst g'. unfold joined. cbv zeta. fold (placed g f). fold p.
  assert (FType p = FType f) as -> by done. assert (Frame.TotalSize p = Frame.TotalSize f) as -> by done.
  clearbody p. by destruct (FType f).
Qed.

Lemma strip_placed g f : strip (placed g f) = strip f.
Proof. done. Qed.

Lemma gop_is_joined n l g f :
  IsKeyframe f = false -> gop_is n l g -> gop_is n (l ++ [f]) (checkGOPCompletion (joined f g)).
Proof.
  intros Hk [Hi Hf Hkey Hs Hp Hb]. destruct (checkGOPCompletion_fields (joined f g)) as (C1 & C2 & C3 & C4 & C5 & C6 & C7).
  destruct (joined_fields f g) as (J1 & J2 & J3 & J4 & J5 & J6 & J7).
  destruct l as [|k rest]; [done|]. cbn [tail app] in *.
  split; cbn [tail]; rewrite ?C1, ?C2, ?C3, ?C4, ?C5, ?J1, ?J2, ?J3, ?J4, ?J5, ?type_count_snoc, ?fsum_app.
  - done.
  - rewrite fmap_app, Hf. rewrite (app_comm_cons rest [f] k), fmap_app. done.
  - rewrite C6, C7, J6, J7. destruct Hkey as (K1 & K2 & K3). split; [done|]. split; [|done].
    apply Forall_app. split; [done|]. by constructor.
  - cbn [fsum foldr]. clear - Hs. unfold same64 in *. mlia.
  - clear - Hp. destruct (ft_eqb _ _); unfold same64 in *; mlia.
  - clear - Hb. destruct (ft_eqb _ _); unfold same64 in *; mlia.
Qed.

Lemma gop_is_opened n s f (f' := f <| GOPId := n |> <| GOPPosition := 0 |>) :
  IsKeyframe f = true -> gop_is n [f] (opened n s f').
Proof. intros Hk. by split. Qed.

(** Closing changes the end, the duration and the two flags. *)
Lemma closeCurrentGOP_spec pts h d c :
  currentGOP d = Some c ->
  exists g d', closeCurrentGOP pts h d = (<[c := g]> h, d') /\
    ID g = ID (h !!! c) /\ Frames g = Frames (h !!! c) /\ TotalSize g = TotalSize (h !!! c) /\
    PFrameCount g = PFrameCount (h !!! c) /\ BFrameCount g = BFrameCount (h !!! c) /\
    StartPTS g = StartPTS (h !!! c) /\ Keyframe g = Keyframe (h !!! c) /\ Closed g = true /\ Complete g = true /\
    EndPTS g = pts /\
    currentGOP d' = Some c /\ gopCounter d' = gopCounter d /\ d_streamID d' = d_streamID d.
Proof.
  intros Hc. unfold closeCurrentGOP. rewrite Hc. set (g0 := if 0 <? _ then _ else _).
  assert (ID g0 = ID (h !!! c) /\ Frames g0 = Frames (h !!! c) /\ TotalSize g0 = TotalSize (h !!! c) /\
    PFrameCount g0 = PFrameCount (h !!! c) /\ BFrameCount g0 = BFrameCount (h !!! c) /\
    StartPTS g0 = StartPTS (h !!! c) /\ Keyframe g0 = Keyframe (h !!! c) /\ EndPTS g0 = pts) as Hg0.
  { subst g0. by case_bool. }
  clearbody g0. eexists _, _. split; [reflexivity|].
  assert (forall h d, currentGOP (updateStatistics h d) = currentGOP d /\ gopCounter (updateStatistics h d) = gopCounter d /\
    d_streamID (updateStatistics h d) = d_streamID d) as Hu.
  { intros h' d0. unfold updateStatistics. case_bool; [done|]. by destruct (foldl _ _ _). }
  destruct (Hu (<[c:=g0 <| Closed := true |> <| Complete := true |>]> h)
    (d <| recentGOPs := if d_maxGOPs d <? len (recentGOPs d ++ [c])
                        then dropZ 1 (recentGOPs d ++ [c]) else recentGOPs d ++ [c] |>)) as (-> & -> & ->).
  simpl. by destruct Hg0 as (? & ? & ? & ? & ? & ? & ? & ?).
Qed.

(** Everything the detector has made so far, [fs] being the frames processed. *)
Definition detector_inv (fs : list VideoFrame) (h : gop_heap) (d : Detector) (closed : list GOP) : Prop :=
  gopCounter d = len (groups fs) /\
  (forall i g l, closed !! i = Some g -> groups fs !! i = Some l ->
     gop_is (Z.of_nat i + 1) l g /\ Closed g = true /\ Complete g = true) /\
  match currentGOP d with
  | None => groups fs = [] /\ closed = []
  | Some c => exists gs l, groups fs = gs ++ [l] /\ length closed = length gs /\ gop_is (len gs + 1) l (h !!! c)
  end.

Lemma gop_is_closed n l g g' :
  ID g' = ID g -> Frames g' = Frames g -> TotalSize g' = TotalSize g -> PFrameCount g' = PFrameCount g ->
  BFrameCount g' = BFrameCount g -> StartPTS g' = StartPTS g -> Keyframe g' = Keyframe g ->
  gop_is n l g -> gop_is n l g'.
Proof. intros E1 E2 E3 E4 E5 E6 E7 [? ? ? ? ? ?]. split; by rewrite ?E1, ?E2, ?E3, ?E4, ?E5, ?E6, ?E7. Qed.

Lemma detector_step fs h d closed r f :
  detector_inv fs h d closed -> currentGOP d <> Some r -> len fs + 1 < 2 ^ 64 ->
  len (groups fs) <= len fs ->
  let '(h', d', c) := ProcessFrame r f h d in
  detector_inv (fs ++ [f]) h' d' (closed ++ match c with Some c => [h' !!! c] | None => [] end) /\
  (currentGOP d' = currentGOP d \/ currentGOP d' = Some r).
Proof.
  intros (Hn & Hcl & Hcur) Hr Hlen Hgl. unfold ProcessFrame. destruct (IsKeyframe f) eqn:Hk.
  - destruct (currentGOP d) as [c|] eqn:Hc.
    + destruct Hcur as (gs & l & Hg & Hl & His).
      destruct (closeCurrentGOP_spec (Frame.PTS f) h d c Hc) as
        (g & d1 & -> & E1 & E2 & E3 & E4 & E5 & E6 & E7 & Hcd & Hco & _ & Hc1 & Hn1 & Hs1).
      assert (c <> r) as Hne by congruence. cbv beta iota zeta. rewrite Hc1. cbv beta iota.
      rewrite lookup_total_insert_ne, lookup_total_insert_eq by done.
      pose proof (gop_is_closed _ _ _ _ E1 E2 E3 E4 E5 E6 E7 His) as Hisg.
      split; [|by right]. unfold detector_inv. rewrite (groups_key _ _ Hk), len_app. cbn [gopCounter currentGOP upd d_streamID].
      assert (u64 (gopCounter d1 + 1) = len (groups fs) + 1) as Hu.
      { rewrite Hn1, Hn. apply u64_id. pose proof (len_nonneg (groups fs)). lia. }
      rewrite Hs1. simpl. rewrite Hu. split; [done|]. split.
      * intros i g' l' Hi Hl'. rewrite Hg in Hl'. apply lookup_app_Some in Hi as [Hi|[Hge Hi]].
        -- apply (Hcl i); [done|]. rewrite Hg. pose proof (lookup_lt_Some _ _ _ Hi).
           rewrite <- app_assoc in Hl'. rewrite lookup_app_l in Hl' by lia. by rewrite lookup_app_l by lia.
        -- apply list_lookup_singleton_Some in Hi as [Hi <-]. assert (i = length gs) as -> by lia.
           rewrite <- app_assoc in Hl'. rewrite lookup_app_r, Nat.sub_diag in Hl' by lia. simpl in Hl'.
           injection Hl' as <-. split; [exact Hisg|done].
      * exists (groups fs), [f]. split; [done|]. split; [rewrite Hg, !length_app, Hl; simpl; lia|].
        rewrite lookup_total_insert_eq. by apply gop_is_opened.
    + destruct Hcur as [Hg ->]. unfold closeCurrentGOP. rewrite Hc. cbv beta iota zeta. rewrite Hc. split; [|by right].
      unfold detector_inv. rewrite (groups_key _ _ Hk), Hg. cbn [gopCounter currentGOP upd d_streamID]. simpl.
      rewrite Hn, Hg. change (u64 (len [] + 1)) with 1. split; [done|]. split; [done|]. exists [], [f].
      split; [done|]. split; [done|]. rewrite lookup_total_insert_eq. by apply (gop_is_opened 1).
  - destruct (currentGOP d) as [c|] eqn:Hc; cbv beta iota; rewrite app_nil_r; (split; [|by left]).
    + destruct Hcur as (gs & l & Hg & Hl & His). unfold detector_inv.
      rewrite (groups_more _ _ _ _ Hk Hg), Hc, Hn, Hg, !len_app. split; [done|]. split.
      * intros i g' l' Hi Hl'. apply (Hcl i); [done|]. rewrite Hg. pose proof (lookup_lt_Some _ _ _ Hi).
        rewrite lookup_app_l in Hl' by lia. by rewrite lookup_app_l by lia.
      * exists gs, (l ++ [f]). split; [done|]. split; [done|]. rewrite lookup_total_insert_eq.
        by apply gop_is_joined.
    + destruct Hcur as [Hg ->]. unfold detector_inv. rewrite (groups_none _ _ Hk Hg), Hc, Hn, Hg. done.
Qed.

Lemma groups_length fs : len (groups fs) <= len fs.
Proof.
  unfold groups. induction fs as [|f fs IH]; cbn [split_keys]; [done|]. rewrite len_cons.
  destruct (split_keys fs) as [pre gs]. simpl in *. destruct (IsKeyframe f); simpl; rewrite ?len_cons; lia.
Qed.

Lemma detect_inv evs fs h d closed :
  NoDup (evs.*1) -> (forall r, currentGOP d = Some r -> r ∉ evs.*1) ->
  len fs + len evs < 2 ^ 64 - 1 -> detector_inv fs h d closed ->
  let '(h', d', closed') := detect evs h d closed in detector_inv (fs ++ evs.*2) h' d' closed'.
Proof.
  revert fs h d closed. induction evs as [|[r f] evs IH]; intros fs h d closed Hnd Hcur Hlen Hinv.
  { cbn. by rewrite app_nil_r. }
  cbn [fmap list_fmap fst snd detect] in *. apply NoDup_cons in Hnd as [Hr Hnd]. rewrite len_cons in Hlen.
  pose proof (len_nonneg evs).
  assert (currentGOP d <> Some r) as Hfresh by (intros Hc; apply (Hcur r Hc); by left).
  pose proof (detector_step fs h d closed r f Hinv Hfresh ltac:(lia) (groups_length fs)) as Hstep.
  destruct (ProcessFrame r f h d) as [[h1 d1] c]. destruct Hstep as [Hinv1 Hc1].
  change (f :: evs.*2) with ([f] ++ evs.*2). rewrite app_assoc. apply IH; [done| |rewrite len_app, len_cons; unfold len at 2; simpl; lia|done].
  intros r' Hr' Hin. destruct Hc1 as [Hc1|Hc1]; rewrite Hc1 in Hr'.
  - apply (Hcur r' Hr'). by right.
  - by injection Hr' as <-.
Qed.

(** C40: The detector partitions the frames: the closed GOPs and then the current
    one, numbered from 1, hold exactly the groups that start at the key frames, in
    order and nothing twice; each has the P- and B-frame counts of its group, but
    its size leaves the key frame out. *)
Theorem detector_partition stream (evs : list (gop_ref * VideoFrame)) :
  NoDup (evs.*1) -> len evs < 2 ^ 64 - 1 ->
  let '(h, d, closed) := detect evs ∅ (NewDetector stream) [] in
  let all := closed ++ match currentGOP d with Some c => [h !!! c] | None => [] end in
  length all = length (groups (evs.*2)) /\
  (forall i g l, all !! i = Some g -> groups (evs.*2) !! i = Some l -> gop_is (Z.of_nat i + 1) l g) /\
  Forall (fun g => Closed g = true /\ Complete g = true) closed.
Proof.
  intros Hnd Hlen. pose proof (detect_inv evs [] ∅ (NewDetector stream) [] Hnd) as Hinv.
  destruct (detect evs ∅ (NewDetector stream) []) as [[h d] closed].
  destruct Hinv as (Hn & Hcl & Hcur); [done|done|split; [done|by split]|]. cbn [app] in *. destruct (currentGOP d) as [c|].
  - destruct Hcur as (gs & l & Hg & Hl & His). rewrite Hg, !length_app, Hl. split; [done|]. split.
    + intros i g l' Hi Hl'. apply lookup_app_Some in Hi as [Hi|[Hge Hi]].
      { apply (Hcl i g l' Hi). by rewrite Hg. }
      apply list_lookup_singleton_Some in Hi as [Hi <-]. rewrite lookup_app_r in Hl' by lia.
      replace (i - length gs)%nat with 0%nat in Hl' by lia. injection Hl' as <-.
      replace (Z.of_nat i) with (len gs) by (unfold len; lia). done.
    + apply Forall_lookup. intros i g Hi. pose proof (lookup_lt_Some _ _ _ Hi).
      destruct (lookup_lt_is_Some_2 gs i) as [l' Hl']; [lia|].
      apply (Hcl i g l' Hi). rewrite Hg. by rewrite lookup_app_l by lia.
  - destruct Hcur as [-> ->]. by repeat split.
Qed.

Definition sample_events : list (gop_ref * VideoFrame) :=
  [(1%nat, demo_frame 11 FrameTypeIDR 100 9000); (2%nat, demo_frame 12 FrameTypeP 40 12000);
   (3%nat, demo_frame 13 FrameTypeIDR 90 18000)].
Lemma detector_partition_witness :
  NoDup (sample_events.*1) /\ len sample_events < 2 ^ 64 - 1 /\
  let '(h, d, closed) := detect sample_events ∅ (NewDetector "s") [] in
  length (closed ++ match currentGOP d with Some c => [h !!! c] | None => [] end) = 2%nat.
Proof.
  assert (NoDup (sample_events.*1)) as Hn by decide_goal. split; [exact Hn|]. split; [reflexivity|].
  pose proof (detector_partition "s" sample_events Hn eq_refl) as Hp.
  destruct (detect sample_events ∅ (NewDetector "s") []) as [[h d] closed]. apply Hp.
Defined.
