(* ===== verification/GopPipeline.v ===== *)
(** * From the detector to the buffer (stream_handler.go, processFrames)

    The GOP the detector closes on a key frame goes to the GOP buffer, which may
    drop frames of it later; both work on the same GOP objects. *)

From stdpp Require Import strings.
From S2P Require Import Prelude Float64 Frame Gop GopBuffer GopBooks GopDetector.

(** One frame through the detector and, when it closes a GOP, into the buffer. *)
Definition frame_into (r : gop_ref) (f : VideoFrame) (d : Detector) (b : Buffer) : res (Detector * Buffer) :=
  let '(h, d, closed) := ProcessFrame r f (store b) d in
  let b := b <| store := h |> in
  match closed with
  | Some c => b ← AddGOP c (h !!! c) b; Ret (d, b)
  | None => Ret (d, b)
  end.

(** Ids of the frames buffered or in the GOP under construction. *)
Definition held (d : Detector) (b : Buffer) : list Z :=
  ids (all_frames b) ++ match currentGOP d with Some c => ids (frames_at b c) | None => [] end.

(** The address of a new object is in no use. *)
Definition fresh_ref (r : gop_ref) (d : Detector) (b : Buffer) : Prop := r ∉ gops b /\ currentGOP d <> Some r.

Definition is_add (o : op) : bool := match o with OpAdd _ _ => true | _ => false end.

(** States that frames with new ids and drops of any kind lead to. *)
Inductive pipeline : Detector -> Buffer -> Prop :=
| pipeline_new stream id config :
    0 <= MaxGOPs config -> pipeline (NewDetector stream) (NewBuffer id config)
| pipeline_frame d b r f d' b' :
    pipeline d b -> fresh_ref r d b -> Frame.ID f ∉ held d b -> gopCounter d + 1 < 2 ^ 64 ->
    frame_into r f d b = Ret (d', b') -> pipeline d' b'
| pipeline_drop d b o b' :
    pipeline d b -> is_add o = false -> exec o b = Ret b' -> pipeline d b'.

(** The detector leaves the key frame out of a GOP's size: the indices are kept
    exact, the byte counter is not. *)
#[local] Instance detector_sizes : SizedGOPs := false.

Record current_ok (d : Detector) (b : Buffer) (c : gop_ref) : Prop := {
  co_ref : c ∉ gops b;
  co_id : ID (gop_of b c) = gopCounter d;
  co_below r : r ∈ gops b -> ID (gop_of b r) < gopCounter d;
  co_nodup : NoDup (ids (frames_at b c));
  co_new f : f ∈ frames_at b c -> Frame.ID f ∉ ids (all_frames b);
  co_key : (length (keyframes (frames_at b c)) <= 1)%nat
}.

Record pipe_ok (d : Detector) (b : Buffer) : Prop := {
  po_buf : buf_ok b;
  po_max : 0 <= maxGOPs b;
  po_counter : 0 <= gopCounter d;
  po_ids r : r ∈ gops b -> ID (gop_of b r) <= gopCounter d;
  po_current c : currentGOP d = Some c -> current_ok d b c
}.

(** Fewer frames in the queue. *)
Lemma suffix_frames b b' f : queue_suffix b b' -> f ∈ all_frames b' -> f ∈ all_frames b.
Proof.
  intros (_ & (n & Hg) & _ & Hs) Hf. apply all_frames_elem in Hf as (r & k & Hr & Hk).
  assert (f ∈ frames_at b r) as Hin.
  { eapply elem_of_sublist; [by eapply list_elem_of_lookup_2|apply Hs]. }
  apply list_elem_of_lookup in Hin as [j Hj]. apply all_frames_elem. exists r, j. split; [|done].
  rewrite Hg in Hr. eapply elem_of_sublist; [exact Hr|apply sublist_drop].
Qed.
Lemma frames_ids b b' id :
  (forall f, f ∈ all_frames b' -> f ∈ all_frames b) -> id ∈ ids (all_frames b') -> id ∈ ids (all_frames b).
Proof. intros Hs Hi. apply list_elem_of_fmap in Hi as (f & -> & Hf). by apply ids_elem, Hs. Qed.

Lemma suffix_ok d b b' : queue_suffix b b' -> buf_ok b' -> pipe_ok d b -> pipe_ok d b'.
Proof.
  intros Hq Hok' [Hok Hm Hc Hids Hcur]. pose proof Hq as (Hl & (n & Hg) & Ho & Hs).
  assert (forall r, r ∈ gops b' -> r ∈ gops b) as Hsub.
  { intros r Hr. rewrite Hg in Hr. eapply elem_of_sublist; [exact Hr|apply sublist_drop]. }
  split; try done.
  - by rewrite (limits_maxGOPs _ _ Hl).
  - intros r Hr. rewrite (proj1 (Hs r)). by apply Hids, Hsub.
  - intros c Hcc. destruct (Hcur c Hcc) as [C1 C2 C3 C4 C5 C6].
    assert (gop_of b' c = gop_of b c) as He by (by apply Ho).
    assert (frames_at b' c = frames_at b c) as Hf by (unfold frames_at; by rewrite He).
    split; rewrite ?He, ?Hf; try done.
    + intros Hin. by apply C1, Hsub.
    + intros r Hr. rewrite (proj1 (Hs r)). by apply C3, Hsub.
    + intros f Hin Hi. apply (C5 f Hin). eapply frames_ids; [|exact Hi]. intros f'. by apply suffix_frames.
Qed.

Lemma drop_ok d o b :
  is_add o = false -> pipe_ok d b -> exists b', exec o b = Ret b' /\ pipe_ok d b'.
Proof.
  intros Ho Hp. pose proof (po_buf d b Hp) as Hok. destruct o as [|p|i k|]; [done|..]; cbn [exec].
  - destruct (DropFramesForPressure_ok p b Hok) as (b' & l & -> & Hok' & Hq & _).
    exists b'. split; [done|]. by apply (suffix_ok d b).
  - destruct (DropFramesFromGOP_ok i k b Hok) as (b' & l & -> & Hok' & Hq & _).
    exists b'. split; [done|]. apply (suffix_ok d b); try done. by apply same_queue_suffix.
  - exists (Clear b). split; [done|]. apply (suffix_ok d b); try done; [|apply Clear_ok].
    split; [done|]. split; [|done]. exists (length (gops b)). by rewrite drop_all.
Qed.

(** A new object outside the queue. *)
Lemma set_outside r g b :
  r ∉ gops b -> buf_ok b ->
  buf_ok (set_gop r g b) /\ (forall f, f ∈ all_frames (set_gop r g b) <-> f ∈ all_frames b) /\
  (forall r', r' ∈ gops b -> gop_of (set_gop r g b) r' = gop_of b r').
Proof.
  intros Hr Hok. assert (forall r', r' ∈ gops b -> gop_of (set_gop r g b) r' = gop_of b r') as Ho.
  { intros r' Hr'. rewrite gop_of_set, decide_False; [done|]. by intros ->. }
  split; [by apply set_fresh_ok|]. split; [|done]. intros f.
  assert (all_frames (set_gop r g b) = all_frames b) as ->; [|done].
  unfold all_frames. change (gops (set_gop r g b)) with (gops b). by rewrite (map_frames_ext b).
Qed.

Lemma opened_current d b r f n s :
  currentGOP d = Some r -> gopCounter d = n ->
  gop_of b r = opened n s (f <| GOPId := n |> <| GOPPosition := 0 |>) ->
  r ∉ gops b -> (forall r', r' ∈ gops b -> ID (gop_of b r') < n) -> Frame.ID f ∉ ids (all_frames b) ->
  current_ok d b r.
Proof.
  intros Hc Hn Hg Hr Hb Hf.
  assert (frames_at b r = [f <| GOPId := n |> <| GOPPosition := 0 |>]) as Hfr by (unfold frames_at; by rewrite Hg).
  split; rewrite ?Hfr; try done.
  - by rewrite Hg, Hn.
  - by rewrite Hn.
  - apply NoDup_singleton.
  - intros f' Hin. apply list_elem_of_singleton in Hin as ->. done.
  - unfold keyframes. rewrite filter_cons. case_decide; simpl; lia.
Qed.

(** A key frame without a GOP under construction. *)
Lemma first_key_ok r f d b s n (b' := set_gop r (opened n s (f <| GOPId := n |> <| GOPPosition := 0 |>)) b) d' :
  pipe_ok d b -> r ∉ gops b -> Frame.ID f ∉ ids (all_frames b) ->
  n = gopCounter d + 1 -> currentGOP d' = Some r -> gopCounter d' = n -> pipe_ok d' b'.
Proof.
  intros [Hok Hm Hc Hids Hcur] Hr Hf Hn Hd' Hn'.
  destruct (set_outside r (opened n s (f <| GOPId := n |> <| GOPPosition := 0 |>)) b Hr Hok) as (Hok' & Hall & Hold).
  fold b' in Hok', Hall, Hold. assert (gops b' = gops b) as Hg by done. assert (maxGOPs b' = maxGOPs b) as Hmx by done.
  assert (gop_of b' r = opened n s (f <| GOPId := n |> <| GOPPosition := 0 |>)) as Hself.
  { subst b'. rewrite gop_of_set. by rewrite decide_True. }
  clearbody b'. split; rewrite ?Hg, ?Hmx; try done; [lia| |].
  - intros r' Hr'. rewrite Hold by done. pose proof (Hids r' Hr'). lia.
  - intros c Hcc. rewrite Hd' in Hcc. injection Hcc as <-. apply (opened_current d' b' r f n s); try done.
    + by rewrite Hg.
    + intros r' Hr'. rewrite Hg in Hr'. rewrite Hold by done. pose proof (Hids r' Hr'). lia.
    + intros Hin. apply Hf. eapply frames_ids; [|exact Hin]. intros f'. apply Hall.
Qed.

(** A frame that joins the GOP under construction. *)
Lemma join_ok f d b c (b' := set_gop c (checkGOPCompletion (joined f (gop_of b c))) b) :
  pipe_ok d b -> currentGOP d = Some c -> IsKeyframe f = false -> Frame.ID f ∉ held d b -> pipe_ok d b'.
Proof.
  intros [Hok Hm Hc Hids Hcur] Hcc Hk Hf. destruct (Hcur c Hcc) as [C1 C2 C3 C4 C5 C6].
  destruct (set_outside c (checkGOPCompletion (joined f (gop_of b c))) b C1 Hok) as (Hok' & Hall & Hold).
  fold b' in Hok', Hall, Hold. assert (gops b' = gops b) as Hg by done. assert (maxGOPs b' = maxGOPs b) as Hmx by done.
  assert (gop_of b' c = checkGOPCompletion (joined f (gop_of b c))) as Hself.
  { subst b'. rewrite gop_of_set. by rewrite decide_True. }
  clearbody b'. destruct (checkGOPCompletion_fields (joined f (gop_of b c))) as (K1 & K2 & _).
  destruct (joined_fields f (gop_of b c)) as (J1 & J2 & _).
  assert (frames_at b' c = frames_at b c ++ [placed (gop_of b c) f]) as Hfr by (unfold frames_at; by rewrite Hself, K2, J2).
  unfold held in Hf. rewrite Hcc, not_elem_of_app in Hf. destruct Hf as [Hf1 Hf2].
  split; rewrite ?Hg, ?Hmx; try done.
  - intros r' Hr'. rewrite Hold by done. by apply Hids.
  - intros c' Hc'. rewrite Hcc in Hc'. injection Hc' as <-. split; rewrite ?Hg, ?Hfr; try done.
    + by rewrite Hself, K1, J1.
    + intros r' Hr'. rewrite Hold by done. by apply C3.
    + rewrite ids_app. apply NoDup_app. split; [done|]. split; [|apply NoDup_singleton].
      intros x Hx Hy. apply list_elem_of_singleton in Hy as ->. done.
    + intros f' Hin Hi. assert (Frame.ID f' ∈ ids (all_frames b)) as Hi' by (eapply frames_ids; [|exact Hi]; intros ?; apply Hall).
      apply elem_of_app in Hin as [Hin|Hin]; [by apply (C5 f')|]. apply list_elem_of_singleton in Hin as ->. done.
    + unfold keyframes in *. rewrite filter_app, length_app, (filter_cons _ _ []), filter_nil.
      assert (IsKeyframe (placed (gop_of b c) f) = false) as Hkp by done.
      case_decide; [congruence|]. simpl. lia.
Qed.

(** A key frame that closes the GOP under construction. *)
Lemma next_key_ok r f d b c g s n d' :
  pipe_ok d b -> currentGOP d = Some c -> r ∉ gops b -> r <> c -> Frame.ID f ∉ held d b ->
  ID g = ID (gop_of b c) -> Frames g = frames_at b c -> n = gopCounter d + 1 ->
  currentGOP d' = Some r -> gopCounter d' = n ->
  exists b', AddGOP c g (set_gop r (opened n s (f <| GOPId := n |> <| GOPPosition := 0 |>)) (set_gop c g b)) = Ret b' /\
    pipe_ok d' b'.
Proof.
  intros [Hok Hm Hc Hids Hcur] Hcc Hr Hne Hf Gi Gf Hn Hd' Hn'. destruct (Hcur c Hcc) as [C1 C2 C3 C4 C5 C6].
  unfold held in Hf. rewrite Hcc, not_elem_of_app in Hf. destruct Hf as [Hf1 Hf2].
  set (o := opened _ _ _). destruct (set_outside c g b C1 Hok) as (Hok1 & Hall1 & Hold1).
  destruct (set_outside r o (set_gop c g b) Hr Hok1) as (Hok0 & Hall0 & Hold0).
  set (b0 := set_gop r o (set_gop c g b)) in *.
  assert (gops b0 = gops b) as Hg by done. assert (maxGOPs b0 = maxGOPs b) as Hmx by done.
  assert (store b0 = <[r := o]> (<[c := g]> (store b))) as Hst by done.
  assert (forall r', r' ∈ gops b -> gop_of b0 r' = gop_of b r') as Hold.
  { intros r' Hr'. by rewrite Hold0, Hold1. }
  assert (forall f, f ∈ all_frames b0 -> f ∈ all_frames b) as Hall by (intros f'; by rewrite Hall0, Hall1).
  clearbody b0.
  destruct (AddGOP_ok c g b0 Hok0) as (b' & Hrun & Hok' & Hst' & Hl & Hrej & Hacc); [|by rewrite Hmx|done|].
  { split; rewrite ?Hg, ?Gf; try done.
    - intros Hi. apply list_elem_of_fmap in Hi as (r' & Hi & Hr'). rewrite Hg in Hr'. rewrite Hold in Hi by done.
      pose proof (C3 r' Hr'). lia.
    - intros f' Hin Hi. apply (C5 f' Hin). eapply frames_ids; [|exact Hi]. done. }
  exists b'. split; [exact Hrun|].
  assert (forall r', r' ∈ gops b' -> r' ∈ gops b \/ r' = c) as Hsub.
  { intros r' Hr'. destruct (accepted g).
    - destruct (Hacc eq_refl) as (_ & k & Hk). rewrite Hk, Hg in Hr'.
      apply (elem_of_sublist _ (gops b ++ [c])) in Hr'; [|apply sublist_drop].
      by rewrite elem_of_app, list_elem_of_singleton in Hr'.
    - rewrite (Hrej eq_refl), Hg in Hr'. by left. }
  assert (gop_of b' r = o) as Hgr.
  { unfold gop_of. rewrite Hst', Hst, lookup_total_insert_ne by done. apply lookup_total_insert_eq. }
  assert (gop_of b' c = g) as Hgc by (unfold gop_of; rewrite Hst'; apply lookup_total_insert_eq).
  assert (forall r', r' ∈ gops b -> gop_of b' r' = gop_of b r') as Hgo.
  { intros r' Hr'. rewrite <- (Hold r' Hr'). unfold gop_of. rewrite Hst'.
    apply lookup_total_insert_ne. by intros ->. }
  assert (forall r', r' ∈ gops b' -> ID (gop_of b' r') < n) as Hlt.
  { intros r' Hr'. apply Hsub in Hr' as [Hr'| ->]; [rewrite Hgo by done; pose proof (C3 r' Hr')|rewrite Hgc, Gi]; lia. }
  split; try done.
  - by rewrite (limits_maxGOPs _ _ Hl), Hmx.
  - lia.
  - intros r' Hr'. pose proof (Hlt r' Hr'). lia.
  - intros c' Hc'. rewrite Hd' in Hc'. injection Hc' as <-. apply (opened_current d' b' r f n s); try done.
    + intros Hin. by apply Hsub in Hin as [?|?].
    + intros Hi. apply list_elem_of_fmap in Hi as (f' & Hi & Hin). apply all_frames_elem in Hin as (r' & k & Hr' & Hk).
      apply Hsub in Hr' as [Hr'| ->]; unfold frames_at in Hk.
      * rewrite Hgo in Hk by done. apply Hf1. rewrite Hi. apply ids_elem, all_frames_elem. by exists r', k.
      * rewrite Hgc, Gf in Hk. apply Hf2. rewrite Hi. by eapply ids_lookup.
Qed.

Lemma frame_ok r f d b :
  pipe_ok d b -> fresh_ref r d b -> Frame.ID f ∉ held d b -> gopCounter d + 1 < 2 ^ 64 ->
  exists d' b', frame_into r f d b = Ret (d', b') /\ pipe_ok d' b'.
Proof.
  intros Hp [Hr Hrc] Hf Hn. pose proof (po_counter d b Hp) as H0.
  assert (u64 (gopCounter d + 1) = gopCounter d + 1) as Hu by (apply u64_id; lia).
  unfold frame_into, ProcessFrame. destruct (IsKeyframe f) eqn:Hk; destruct (currentGOP d) as [c|] eqn:Hc.
  - destruct (closeCurrentGOP_spec (Frame.PTS f) (store b) d c Hc) as
      (g & d1 & -> & E1 & E2 & _ & _ & _ & _ & _ & _ & _ & _ & Hc1 & Hn1 & Hs1).
    assert (r <> c) as Hne by congruence.
    cbv beta iota zeta. rewrite Hc1. cbv beta iota. rewrite lookup_total_insert_ne, lookup_total_insert_eq by done.
    set (d2 := upd currentGOP _ _). assert (gopCounter d2 = gopCounter d + 1) as Hn2 by (subst d2; simpl; by rewrite Hn1, Hu).
    destruct (next_key_ok r f d b c g (d_streamID d2) (gopCounter d2) d2 Hp Hc Hr Hne Hf E1 E2 Hn2 eq_refl eq_refl)
      as (b' & Hrun & Hp'). exists d2, b'. split; [|exact Hp'].
    set (b0 := upd store _ b). change b0 with (set_gop r (opened (gopCounter d2) (d_streamID d2)
      (f <| GOPId := gopCounter d2 |> <| GOPPosition := 0 |>)) (set_gop c g b)). by rewrite Hrun.
  - unfold closeCurrentGOP. rewrite Hc. cbv beta iota zeta. rewrite Hc. eexists _, _. split; [reflexivity|].
    unfold held in Hf. rewrite Hc, app_nil_r in Hf. by eapply (first_key_ok r f d b).
  - eexists _, _. split; [reflexivity|]. by apply (join_ok f d b c).
  - eexists _, _. split; [reflexivity|]. by destruct b.
Qed.

Lemma pipeline_ok d b : pipeline d b -> pipe_ok d b.
Proof.
  induction 1 as [stream id config H0|d b r f d' b' _ IH Hr Hf Hn Hrun|d b o b' _ IH Ho Hrun].
  - split; try done. apply NewBuffer_ok.
  - destruct (frame_ok r f d b IH Hr Hf Hn) as (d1 & b1 & Hrun1 & Hok). rewrite Hrun in Hrun1.
    by injection Hrun1 as <- <-.
  - destruct (drop_ok d o b Ho IH) as (b1 & Hrun1 & Hok). rewrite Hrun in Hrun1. by injection Hrun1 as <-.
Qed.

(** Detector and buffer together: whatever frames with new ids arrive and
    whatever is dropped in between, the next frame and the next drop return, and
    the buffer finds by id exactly the frames and the GOPs it holds, no two of
    its GOPs with one id, the GOP under construction never among them. *)
Theorem pipeline_books d b :
  pipeline d b ->
  (forall fid, exists o, GetFrame fid b = Ret o /\
     forall f, o = Some f <-> f ∈ all_frames b /\ Frame.ID f = fid) /\
  (forall gid g, GetGOP gid b = Some g <-> exists r, r ∈ gops b /\ gop_of b r = g /\ ID g = gid) /\
  NoDup (gop_ids b) /\ (forall c, currentGOP d = Some c -> c ∉ gops b) /\
  (forall o, is_add o = false -> exists b', exec o b = Ret b') /\
  (forall r f, fresh_ref r d b -> Frame.ID f ∉ held d b -> gopCounter d + 1 < 2 ^ 64 ->
     exists d' b', frame_into r f d b = Ret (d', b')).
Proof.
  intros Hp. pose proof (pipeline_ok d b Hp) as Hok. pose proof (po_buf d b Hok) as Hb.
  split; [intros fid; by apply GetFrame_exact|]. split; [intros gid g; by apply GetGOP_exact|].
  split; [by apply (bo_gids b)|]. split; [intros c Hc; by apply (co_ref d b c (po_current d b Hok c Hc))|]. split.
  - intros o Ho. destruct (drop_ok d o b Ho Hok) as (b' & Hrun & _). by exists b'.
  - intros r f Hr Hf Hn. destruct (frame_ok r f d b Hok Hr Hf Hn) as (d' & b' & Hrun & _). by exists d', b'.
Qed.

(** ** A concrete run *)

Definition feed (r : gop_ref) (f : VideoFrame) (s : Detector * Buffer) : Detector * Buffer :=
  match frame_into r f (fst s) (snd s) with Ret s => s | _ => s end.
Definition sample : Detector * Buffer :=
  feed 3%nat (demo_frame 13 FrameTypeIDR 90 18000)
    (feed 2%nat (demo_frame 12 FrameTypeP 40 12000)
       (feed 1%nat (demo_frame 11 FrameTypeIDR 100 9000) (NewDetector "s", NewBuffer "s" demo_config))).

Lemma feed_pipeline r f s :
  pipeline (fst s) (snd s) -> fresh_ref r (fst s) (snd s) -> Frame.ID f ∉ held (fst s) (snd s) ->
  gopCounter (fst s) + 1 < 2 ^ 64 -> pipeline (fst (feed r f s)) (snd (feed r f s)).
Proof.
  intros Hp H1 H2 H3. destruct (frame_ok r f (fst s) (snd s) (pipeline_ok _ _ Hp) H1 H2 H3) as (d' & b' & Hrun & _).
  unfold feed. rewrite Hrun. by apply (pipeline_frame (fst s) (snd s) r f).
Qed.

Lemma sample_pipeline : pipeline (fst sample) (snd sample).
Proof.
  unfold sample.
  apply feed_pipeline; [apply feed_pipeline; [apply feed_pipeline; [by constructor| | |]| | |]| | |];
    first [split; [decide_goal|vm_compute; congruence]|decide_goal].
Qed.

Lemma pipeline_books_witness :
  pipeline (fst sample) (snd sample) /\
  exists o, GetFrame 12 (snd sample) = Ret o /\ option_map Frame.PTS o = Some 12000.
Proof.
  split; [apply sample_pipeline|].
  destruct (pipeline_books (fst sample) (snd sample) sample_pipeline) as (Hf & _).
  destruct (Hf 12) as (o & Ho & _). exists o. split; [exact Ho|].
  assert (Ret o = GetFrame 12 (snd sample)) as E by (symmetry; exact Ho). vm_compute in E.
  injection E as ->. reflexivity.
Defined.
