(* ===== verification/TimestampMapper.v ===== *)
(** * RTP time stamps to presentation times (timestamp/mapper.go)

    The mapper extends 32-bit RTP time stamps to 64 bits by counting wraps.
    The wall clock that the first packet reads is an argument. *)

From stdpp Require Import strings.
From S2P Require Import Prelude Float64.

Record TimestampMapper := mkMapper {
  clockRate : Z;
  baseRTPTime : Z;
  baseWallTime : Z;
  basePTS : Z;
  wrapCount : Z;
  lastRTPTime : Z;
  lastPTS : Z;
  expectedDelta : Z
}.
#[export] Instance eta_mapper : Eta TimestampMapper := fun m =>
  mkMapper (clockRate m) (baseRTPTime m) (baseWallTime m) (basePTS m) (wrapCount m) (lastRTPTime m) (lastPTS m)
    (expectedDelta m).

Definition NewTimestampMapper (rate : Z) : TimestampMapper :=
  let rate := if rate =? 0 then 90000 else rate in
  mkMapper rate 0 zero_time 0 0 0 0 (rate / 30).

Definition SetExpectedFrameRate (fps : float64) (m : TimestampMapper) : TimestampMapper :=
  if f64_ltb (f64_of_Z 0) fps then m <| expectedDelta := f64_trunc (f64_div (f64_of_Z (clockRate m)) fps) |> else m.

Definition ToPTS (rtp now : Z) (m : TimestampMapper) : TimestampMapper * Z :=
  if is_zero_time (baseWallTime m) then
    (m <| baseRTPTime := rtp |> <| baseWallTime := now |> <| lastRTPTime := rtp |>, basePTS m)
  else
    let m := if (rtp <? lastRTPTime m) && (0x80000000 <? u32 (lastRTPTime m - rtp))
             then m <| wrapCount := i64 (wrapCount m + 1) |> else m in
    let pts := i64 (i64 (i64 (i64 (wrapCount m * Z.shiftl 1 32) + rtp) - baseRTPTime m) + basePTS m) in
    (m <| lastRTPTime := rtp |> <| lastPTS := pts |>, pts).

Definition ToPTSWithDTS (rtp now : Z) (hasBFrames : bool) (frameType : string) (m : TimestampMapper)
    : TimestampMapper * (Z * Z) :=
  let '(m, pts) := ToPTS rtp now m in
  if negb hasBFrames then (m, (pts, pts))
  else (m, (pts, if String.eqb frameType "B" then i64 (pts - i64 (2 * expectedDelta m)) else pts)).

Definition GetWallClockTime (pts : Z) (m : TimestampMapper) : res Z :=
  if is_zero_time (baseWallTime m) then Ret zero_time
  else
    nsDelta ← go_quot (i64 (i64 (pts - basePTS m) * second)) (clockRate m);
    Ret (baseWallTime m + nsDelta).

Definition Reset (m : TimestampMapper) : TimestampMapper :=
  mkMapper (clockRate m) 0 zero_time 0 0 0 0 (expectedDelta m).
Definition GetClockRate (m : TimestampMapper) : Z := clockRate m.
Definition SetBasePTS (p : Z) (m : TimestampMapper) : TimestampMapper := m <| basePTS := p |>.
Definition GetWrapCount (m : TimestampMapper) : Z := wrapCount m.

Definition ValidateTimestamp (rtp : Z) (m : TimestampMapper) : bool :=
  if lastRTPTime m =? 0 then true
  else
    let delta := if lastRTPTime m <=? rtp then i64 (u32 (rtp - lastRTPTime m))
                 else i64 (u64 (u64 (rtp + Z.shiftl 1 32) - lastRTPTime m)) in
    delta <? i64 (u32 (clockRate m * 10)).

Definition GetStats (m : TimestampMapper) : Z * Z * Z * Z * Z * Z :=
  (baseRTPTime m, lastRTPTime m, wrapCount m, lastPTS m, clockRate m, baseWallTime m).

(** ** The unwrapped time line *)

(** [m] has seen the stream from time [t0] up to time [t]. *)
Definition follows (rate base wall t0 t : Z) (m : TimestampMapper) : Prop :=
  clockRate m = rate /\ basePTS m = base /\ baseWallTime m = wall /\ wall <> 0 /\ baseRTPTime m = t0 /\
  lastRTPTime m = t mod 2 ^ 32 /\ wrapCount m = t / 2 ^ 32.

(** Steps forward by less than half the range; packets may also come back
    within the current cycle of the 32-bit field. *)
Definition rtp_step (t t' : Z) : Prop :=
  t <= t' < t + 2 ^ 31 \/ (t' < t /\ t' / 2 ^ 32 = t / 2 ^ 32 /\ t - t' <= 2 ^ 31).
Fixpoint rtp_line (t : Z) (ts : list Z) : Prop :=
  match ts with [] => True | t' :: ts => rtp_step t t' /\ rtp_line t' ts end.

Fixpoint map_all (l : list (Z * Z)) (m : TimestampMapper) : TimestampMapper * list Z :=
  match l with
  | [] => (m, [])
  | (t, now) :: l =>
      let '(m, p) := ToPTS (t mod 2 ^ 32) now m in
      let '(m, ps) := map_all l m in (m, p :: ps)
  end.

Lemma wrap_iff t t' :
  0 <= t -> 0 <= t' -> rtp_step t t' ->
  (if (t' mod 2 ^ 32 <? t mod 2 ^ 32) && (0x80000000 <? u32 (t mod 2 ^ 32 - t' mod 2 ^ 32)) then t / 2 ^ 32 + 1 else t / 2 ^ 32)
    = t' / 2 ^ 32.
Proof.
  intros H0 H1 Hs. pose proof (Z.mod_pos_bound t (2 ^ 32) ltac:(lia)). pose proof (Z.mod_pos_bound t' (2 ^ 32) ltac:(lia)).
  pose proof (Z.div_mod t (2 ^ 32) ltac:(lia)). pose proof (Z.div_mod t' (2 ^ 32) ltac:(lia)).
  assert (t' / 2 ^ 32 = t / 2 ^ 32 \/ t' / 2 ^ 32 = t / 2 ^ 32 + 1) as Hc
    by (destruct Hs as [Hs|(_ & Hs & _)]; [pow_consts; Z.to_euclidean_division_equations; lia|by left]).
  destruct (Z.ltb_spec (t' mod 2 ^ 32) (t mod 2 ^ 32)); cbn [andb].
  - rewrite u32_id by (pow_consts; lia). unfold rtp_step in Hs. pow_consts. case_bool; zbool; lia.
  - unfold rtp_step in Hs. pow_consts. lia.
Qed.

Lemma ToPTS_follows rate base wall t0 t t' now m :
  0 <= t0 < 2 ^ 32 -> 0 <= t < 2 ^ 62 -> 0 <= t' < 2 ^ 62 -> - 2 ^ 62 <= base <= 2 ^ 62 ->
  follows rate base wall t0 t m -> rtp_step t t' ->
  exists m', ToPTS (t' mod 2 ^ 32) now m = (m', base + (t' - t0)) /\ follows rate base wall t0 t' m'.
Proof.
  intros H0 Ht Ht' Hb (E1 & E2 & E3 & E4 & E5 & E6 & E7) Hs. unfold ToPTS, is_zero_time.
  rewrite E3, (proj2 (Z.eqb_neq wall 0)) by done.
  pose proof (wrap_iff t t' ltac:(lia) ltac:(lia) Hs) as Hw. rewrite <- E6 in Hw.
  set (m1 := if _ && _ then _ else m).
  assert (wrapCount m1 = t' / 2 ^ 32) as Hm1.
  { rewrite <- Hw. subst m1. case_bool; [|by rewrite E7]. cbn. rewrite E7. apply i64_id.
    pow_consts. Z.to_euclidean_division_equations. lia. }
  assert (basePTS m1 = base /\ baseRTPTime m1 = t0 /\ clockRate m1 = rate /\ baseWallTime m1 = wall) as (F1 & F2 & F3 & F4)
    by (subst m1; by case_bool).
  clearbody m1. eexists. rewrite Hm1, F1, F2. change (Z.shiftl 1 32) with (2 ^ 32).
  pose proof (Z.div_mod t' (2 ^ 32) ltac:(lia)). pose proof (Z.mod_pos_bound t' (2 ^ 32) ltac:(lia)).
  rewrite (i64_id (_ * _)) by (pow_consts; lia). rewrite (i64_id (_ + t' mod _)) by (pow_consts; lia).
  rewrite (i64_id (_ - t0)) by (pow_consts; lia). rewrite (i64_id (_ + base)) by (pow_consts; lia).
  split; [f_equal; lia|]. unfold follows. cbn. by rewrite F1, F2, F3, F4, Hm1.
Qed.

Lemma map_all_follows rate base wall t0 l t m :
  0 <= t0 < 2 ^ 32 -> 0 <= t < 2 ^ 62 -> - 2 ^ 62 <= base <= 2 ^ 62 ->
  follows rate base wall t0 t m -> rtp_line t (fst <$> l) -> Forall (fun e => 0 <= e.1 < 2 ^ 62) l ->
  exists m', map_all l m = (m', (fun e => base + (e.1 - t0)) <$> l) /\ follows rate base wall t0 (foldl (fun _ e => e.1) t l) m'.
Proof.
  intros H0 Ht Hb. revert t m Ht. induction l as [|[t' now] l IH]; intros t m Ht Hm Hl Hr; cbn in *; [eauto|].
  destruct Hl as [Hs Hl]. apply Forall_cons in Hr as [Ht' Hr]. cbn in Ht'.
  destruct (ToPTS_follows rate base wall t0 t t' now m) as (m1 & -> & Hm1); try done.
  by destruct (IH t' m1 Ht' Hm1 Hl Hr) as (m2 & -> & ?); eauto.
Qed.

(** C34: RTP time stamps that advance by less than half of their 32-bit range,
    or come back within the current cycle by at most half of it, are extended
    exactly: the PTS of a packet is the base plus the unwrapped time since the
    first packet, across any number of wraps, and the wrap count is the number of
    cycles; the wall clock of a PTS is the first packet's plus the time at the
    clock rate, as long as the ticks since the first packet times 10^9 stay below
    2^63, which at 90 kHz is 28.4 hours ([wall_clock_overflow] is behind it). *)
Theorem rtp_unwrapped (rate base t0 wall : Z) (l : list (Z * Z)) :
  0 < rate < 2 ^ 32 -> 0 <= t0 < 2 ^ 32 -> wall <> 0 -> - 2 ^ 62 <= base <= 2 ^ 62 ->
  rtp_line t0 (fst <$> l) -> Forall (fun e => 0 <= e.1 < 2 ^ 62) l ->
  exists m, map_all ((t0, wall) :: l) (SetBasePTS base (NewTimestampMapper rate)) =
      (m, base :: ((fun e => base + (e.1 - t0)) <$> l)) /\
    GetWrapCount m = foldl (fun _ e => e.1) t0 l / 2 ^ 32 /\
    (forall t, 0 <= t < 2 ^ 62 -> Z.abs (t - t0) * second < 2 ^ 63 ->
       GetWallClockTime (base + (t - t0)) m = Ret (wall + Z.quot ((t - t0) * second) rate)).
Proof.
  intros Hr H0 Hw Hb Hl Hts. cbn [map_all]. rewrite (Z.mod_small t0) by lia. unfold ToPTS at 1. cbn.
  rewrite (proj2 (Z.eqb_neq rate 0)) by lia. set (m := mkMapper _ _ _ _ _ _ _ _).
  assert (follows rate base wall t0 t0 m) as Hm
    by (repeat split; [done|cbn; by rewrite Z.mod_small by lia|cbn; by rewrite Z.div_small by lia]).
  destruct (map_all_follows rate base wall t0 l t0 m) as (m' & -> & (E1 & E2 & E3 & _ & _ & _ & E7)); try done; [lia|].
  eexists. split; [done|]. split; [exact E7|]. intros t Ht Hns. unfold GetWallClockTime, is_zero_time.
  rewrite E1, E2, E3, (proj2 (Z.eqb_neq wall 0)) by done. replace (base + (t - t0) - base) with (t - t0) by lia.
  unfold second in *. rewrite (i64_id (t - t0)) by lia. rewrite i64_id by lia. by rewrite go_quot_Ret, bind_Ret by lia.
Qed.

Lemma rtp_unwrapped_witness :
  exists m, map_all [(4294960000, 7); (4294966000, 8); (4294970000, 9); (4294968000, 9)]
      (SetBasePTS 100 (NewTimestampMapper 90000)) = (m, [100; 6100; 10100; 8100]) /\
    GetWrapCount m = 1 /\ GetWallClockTime 10100 m = Ret (7 + 111111111).
Proof.
  destruct (rtp_unwrapped 90000 100 4294960000 7 [(4294966000, 8); (4294970000, 9); (4294968000, 9)]) as (m & E & H1 & H2);
    [lia|lia|done|lia| |decide_goal|].
  - vm_compute. intuition congruence.
  - exists m. split; [exact E|]. split; [exact H1|]. exact (H2 4294970000 ltac:(lia) ltac:(done)).
Defined.

(** A packet of before a wrap that arrives after it is placed a whole cycle
    too late. *)
Example late_packet_after_wrap :
  (map_all [(4294967000, 1); (4294967400, 1); (4294967200, 1)] (NewTimestampMapper 90000)).2 = [0; 400; 4294967496].
Proof. vm_compute. reflexivity. Qed.

(** The multiplication by 10^9 overflows after 28.4 hours at 90 kHz: the wall
    clock of a PTS of 29 hours is 27.9 hours before the start of the stream. *)
Example wall_clock_overflow :
  match GetWallClockTime (29 * 3600 * 90000) (ToPTS 0 (10 ^ 15) (NewTimestampMapper 90000)).1 with
  | Ret t => t <? 10 ^ 15 - 27 * 3600 * second
  | _ => false
  end = true.
Proof. vm_compute. reflexivity. Qed.
