(* ===== verification/TrackSync.v ===== *)
(** * Timing of one media track (sync/pts_wraparound.go, sync/track_sync.go)

    Wraps of the 33-bit time stamps, jumps, the base of the presentation clock
    and its use.  The clock that an uninitialised track reads is an argument. *)

From stdpp Require Import strings.
From S2P Require Import Prelude Float64 Frame.

(** ** Wraps *)

Record PTSWrapDetector := mkWrap { timeBase : Rational; wrapThreshold : Z; halfThreshold : Z }.

Definition abs (n : Z) : Z := if n <? 0 then i64 (- n) else n.

Definition calculateWrapThreshold (_ : Rational) : Z := Z.shiftl 1 33.
Definition NewPTSWrapDetector (tb : Rational) : PTSWrapDetector :=
  mkWrap tb (calculateWrapThreshold tb) (Z.quot (calculateWrapThreshold tb) 2).
Definition DetectWrap (currentPTS lastPTS : Z) (d : PTSWrapDetector) : bool :=
  (currentPTS <? lastPTS) && (halfThreshold d <? i64 (lastPTS - currentPTS)).
Definition UnwrapPTS (pts wrapCount : Z) (d : PTSWrapDetector) : Z := i64 (pts + i64 (wrapCount * wrapThreshold d)).
Definition GetWrapThreshold (d : PTSWrapDetector) : Z := wrapThreshold d.
Definition IsLikelyDiscontinuity (currentPTS lastPTS : Z) (d : PTSWrapDetector) : res bool :=
  let diff := abs (i64 (currentPTS - lastPTS)) in
  oneSecondInPTS ← go_quot (Den (timeBase d)) (Num (timeBase d));
  Ret ((oneSecondInPTS <? diff) && (diff <? Z.quot (wrapThreshold d) 4)).
Definition CalculatePTSDelta (currentPTS lastPTS wrapCount : Z) (d : PTSWrapDetector) : Z :=
  i64 (UnwrapPTS currentPTS wrapCount d - lastPTS).

(** ** Track state *)

Inductive TrackType : Type := TrackTypeVideo | TrackTypeAudio.

Record TrackSync := mkTrack {
  ts_Type : TrackType;
  ts_StreamID : string;
  TimeBase : Rational;
  LastPTS : Z;
  LastDTS : Z;
  LastWallTime : Z;
  BaseTime : Z;
  BasePTS : Z;
  PTSWrapCount : Z;
  FrameCount : Z;
  PTSJumps : Z;
  DTSErrors : Z;
  DroppedCount : Z
}.
#[export] Instance eta_track : Eta TrackSync := fun t =>
  mkTrack (ts_Type t) (ts_StreamID t) (TimeBase t) (LastPTS t) (LastDTS t) (LastWallTime t) (BaseTime t) (BasePTS t)
    (PTSWrapCount t) (FrameCount t) (PTSJumps t) (DTSErrors t) (DroppedCount t).

(** The manager of a track; its configuration is never read. *)
Record TrackSyncManager := mkTSM { sync : TrackSync; wrapDetector : PTSWrapDetector }.
#[export] Instance eta_tsm : Eta TrackSyncManager := fun m => mkTSM (sync m) (wrapDetector m).

Definition NewTrackSyncManager (tt : TrackType) (id : string) (tb : Rational) : TrackSyncManager :=
  let tb := mkRational (if Num tb =? 0 then 1 else Num tb) (if Den tb =? 0 then 90000 else Den tb) in
  mkTSM (mkTrack tt id tb 0 0 zero_time zero_time 0 0 0 0 0 0) (NewPTSWrapDetector tb).

(** The jump test of [ProcessTimestamp], for a stamp that is no wrap. *)
Definition check_jump (pts wallTime : Z) (t : TrackSync) : res TrackSync :=
  let absoluteDiff := abs (i64 (pts - LastPTS t)) in
  oneSecondInPTS ← go_quot (Den (TimeBase t)) (Num (TimeBase t));
  if oneSecondInPTS <? absoluteDiff then
    let t := t <| PTSJumps := u64 (PTSJumps t + 1) |> in
    Ret (if i64 (10 * oneSecondInPTS) <? absoluteDiff
         then t <| BaseTime := wallTime |> <| BasePTS := pts |> <| PTSWrapCount := 0 |> else t)
  else Ret t.

Definition update_track (pts dts wallTime : Z) (d : PTSWrapDetector) (t : TrackSync) : res TrackSync :=
  if is_zero_time (BaseTime t) then
    Ret (t <| BaseTime := wallTime |> <| BasePTS := pts |> <| LastPTS := pts |> <| LastDTS := dts |>
           <| LastWallTime := wallTime |> <| FrameCount := 1 |>)
  else
    t ← (if DetectWrap pts (LastPTS t) d then Ret (t <| PTSWrapCount := i64 (PTSWrapCount t + 1) |>)
         else check_jump pts wallTime t);
    let t := if negb (LastDTS t =? 0) && (dts <? LastDTS t) then t <| DTSErrors := u64 (DTSErrors t + 1) |> else t in
    Ret (t <| LastPTS := pts |> <| LastDTS := dts |> <| LastWallTime := wallTime |> <| FrameCount := u64 (FrameCount t + 1) |>).
(** Its error is always nil. *)
Definition ProcessTimestamp (pts dts wallTime : Z) (m : TrackSyncManager) : res TrackSyncManager :=
  t ← update_track pts dts wallTime (wrapDetector m) (sync m); Ret (m <| sync := t |>).

Definition calculatePTSDelta (pts : Z) (m : TrackSyncManager) : Z :=
  CalculatePTSDelta pts (BasePTS (sync m)) (PTSWrapCount (sync m)) (wrapDetector m).

(** Ticks of the time base to nanoseconds. *)
Definition delta_ns (delta : Z) (tb : Rational) : res Z :=
  q ← go_quot delta (Den tb);
  let nsDelta := i64 (i64 (q * second) * Num tb) in
  r ← go_rem delta (Den tb);
  rest ← go_quot (i64 (i64 (r * second) * Num tb)) (Den tb);
  Ret (i64 (nsDelta + rest)).

Definition GetPresentationTime (pts now : Z) (m : TrackSyncManager) : res Z :=
  if is_zero_time (BaseTime (sync m)) then Ret now
  else ns ← delta_ns (calculatePTSDelta pts m) (TimeBase (sync m)); Ret (BaseTime (sync m) + ns).

Definition GetDecodeTime (dts : Z) (m : TrackSyncManager) : res Z :=
  if is_zero_time (BaseTime (sync m)) || (dts =? 0) then Ret zero_time
  else ns ← delta_ns (calculatePTSDelta dts m) (TimeBase (sync m)); Ret (BaseTime (sync m) + ns).

Definition GetSyncState (m : TrackSyncManager) : TrackSync := sync m.

Definition Reset (m : TrackSyncManager) : TrackSyncManager :=
  m <| sync := mkTrack (ts_Type (sync m)) (ts_StreamID (sync m)) (TimeBase (sync m)) 0 0 zero_time zero_time 0 0 0 0 0 0 |>.
Definition ReportDropped (count : Z) (m : TrackSyncManager) : TrackSyncManager :=
  m <| sync := (sync m) <| DroppedCount := u64 (DroppedCount (sync m) + count) |> |>.

(** [estimateFrameDuration], which nothing calls. *)
Definition frame_rates : list float64 :=
  [f64_dec 30 0; f64_dec 2997 2; f64_dec 25 0; f64_dec 24 0; f64_dec 60 0; f64_dec 50 0; f64_dec 23976 3].
Definition rate_ticks (rate : float64) (tb : Rational) : Z :=
  f64_trunc (f64_div (f64_of_Z (Den tb)) (f64_mul rate (f64_of_Z (Num tb)))).
Fixpoint first_rate (rates : list float64) (tb : Rational) : option Z :=
  match rates with
  | [] => None
  | r :: rates => let d := rate_ticks r tb in if (0 <? d) && (d <? Den tb) then Some d else first_rate rates tb
  end.
Fixpoint first_audio (rates : list Z) (tb : Rational) : res Z :=
  match rates with
  | [] => go_quot (i64 (1024 * Den tb)) (i64 (48000 * Num tb))
  | r :: rates =>
      d ← go_quot (i64 (1024 * Den tb)) (i64 (r * Num tb));
      if 0 <? d then Ret d else first_audio rates tb
  end.
(** The frame rate seen so far, when it is between 1 and 120. *)
Definition measured_fps (t : TrackSync) : option float64 :=
  if (1 <? FrameCount t) && negb (is_zero_time (BaseTime t)) then
    let elapsed := time_sub (LastWallTime t) (BaseTime t) in
    if 0 <? elapsed then
      let fps := f64_div (f64_of_Z (u64 (FrameCount t - 1))) (seconds_of elapsed) in
      if f64_leb (f64_of_Z 1) fps && f64_leb fps (f64_of_Z 120) then Some fps else None
    else None
  else None.
Definition estimateFrameDuration (t : TrackSync) : res Z :=
  let tb := TimeBase t in
  match ts_Type t with
  | TrackTypeVideo =>
      match measured_fps t with
      | Some fps => Ret (rate_ticks fps tb)
      | None =>
          if 90000 <=? Den tb then
            if (Den tb =? 90000) && (Num tb =? 1) then Ret 3000
            else
              match first_rate frame_rates tb with
              | Some d => Ret d
              | None => go_quot (Den tb) (i64 (30 * Num tb))
              end
          else Ret 1
      end
  | TrackTypeAudio => first_audio [48000; 44100; 32000; 16000] tb
  end.

Definition GetDriftFromWallClock (pts actual now : Z) (m : TrackSyncManager) : res Z :=
  expected ← GetPresentationTime pts now m; Ret (time_sub actual expected).

(** ** The presentation clock *)

(** Dividing first loses nothing, and nothing overflows while the result fits. *)
Lemma delta_ns_exact delta tb :
  0 < Num tb -> 0 < Den tb -> Num tb * Den tb * second < 2 ^ 63 -> Z.abs delta < 2 ^ 63 ->
  Z.abs delta * (second * Num tb) < 2 ^ 63 * Den tb ->
  delta_ns delta tb = Ret (Z.quot (delta * (second * Num tb)) (Den tb)).
Proof.
  intros Hn Hd Hs H63 Hb. unfold delta_ns. set (K := second * Num tb) in *. set (d := Den tb) in *.
  assert (0 < K) as HK by (unfold K, second; lia).
  set (q := Z.quot delta d). set (r := Z.rem delta d).
  assert (delta = d * q + r) as E by apply (Z.quot_rem' delta d).
  assert (0 <= r * delta) as Hsign by (apply Z.rem_sign_mul; lia).
  assert (Z.abs r < d) as Hr by (pose proof (Z.rem_bound_abs delta d ltac:(lia)); lia).
  assert (Z.abs (q * K) < 2 ^ 63) as Hq.
  { rewrite Z.abs_mul, (Z.abs_eq K) by lia. assert (d * Z.abs q <= Z.abs delta) as Hle; [|nia].
    unfold q. rewrite <- Z.quot_abs, (Z.abs_eq d) by lia. apply Z.mul_quot_le; lia. }
  assert (Z.abs (r * K) < 2 ^ 63) as HrK by (rewrite Z.abs_mul, (Z.abs_eq K) by lia; unfold K; nia).
  assert (Z.quot (delta * K) d = Z.quot (r * K) d + q * K) as Eq.
  { rewrite <- Z.quot_add by nia. f_equal. lia. }
  assert (Z.abs (Z.quot (delta * K) d) < 2 ^ 63) as Hres.
  { rewrite <- Z.quot_abs, Z.abs_mul, (Z.abs_eq K), (Z.abs_eq d) by lia. apply Z.quot_lt_upper_bound; [nia|lia|lia]. }
  assert (q * second * Num tb = q * K /\ r * second * Num tb = r * K) as [E1 E2] by (unfold K; lia).
  rewrite go_quot_Ret, bind_Ret by lia. unfold go_rem. rewrite (proj2 (Z.eqb_neq d 0)), bind_Ret by lia. fold q r.
  assert (forall x, Z.abs (x * K) < 2 ^ 63 -> Z.abs (x * second) < 2 ^ 63) as Hx.
  { intros x Hx. replace (x * K) with (x * second * Num tb) in Hx by (unfold K; lia). rewrite Z.abs_mul in Hx. nia. }
  pose proof (Hx q Hq). pose proof (Hx r HrK).
  rewrite !(i64_id (_ * second)) by lia. rewrite E1, E2, !(i64_id (_ * K)) by lia.
  rewrite go_quot_Ret, bind_Ret by lia. f_equal. rewrite i64_id by lia. lia.
Qed.

(** A step of at most ten seconds of [sec] ticks that does not go back over a
    wrap of the 33-bit field. *)
Definition track_step (sec t t' : Z) : Prop := Z.abs (t' - t) <= 10 * sec /\ t / 2 ^ 33 <= t' / 2 ^ 33.
Fixpoint track_line (sec t : Z) (ts : list Z) : Prop :=
  match ts with [] => True | t' :: ts => track_step sec t t' /\ track_line sec t' ts end.
(** A jump: more than a second within a cycle. *)
Definition is_jump (sec t t' : Z) : bool := (sec <? Z.abs (t' - t)) && (t' / 2 ^ 33 =? t / 2 ^ 33).
Fixpoint jumps (sec t : Z) (ts : list Z) : Z :=
  match ts with [] => 0 | t' :: ts => (if is_jump sec t t' then 1 else 0) + jumps sec t' ts end.

(** The samples of a track: unwrapped PTS, DTS and wall clock. *)
Fixpoint process_all (l : list (Z * Z * Z)) (m : TrackSyncManager) : res TrackSyncManager :=
  match l with
  | [] => Ret m
  | (t, dts, wall) :: l => m ← ProcessTimestamp (t mod 2 ^ 33) dts wall m; process_all l m
  end.

Record on_track (tb : Rational) (wall t0 t n j : Z) (m : TrackSyncManager) : Prop := {
  ot_base : TimeBase (sync m) = tb;
  ot_wrap : wrapDetector m = NewPTSWrapDetector tb;
  ot_time : BaseTime (sync m) = wall;
  ot_pts : BasePTS (sync m) = t0 mod 2 ^ 33;
  ot_last : LastPTS (sync m) = t mod 2 ^ 33;
  ot_cycles : PTSWrapCount (sync m) = t / 2 ^ 33 - t0 / 2 ^ 33;
  ot_count : FrameCount (sync m) = n;
  ot_jumps : PTSJumps (sync m) = j
}.

Definition good_base (tb : Rational) : Prop :=
  0 < Num tb /\ Num tb <= Den tb /\ Num tb * Den tb * second < 2 ^ 63 /\ 10 * (Den tb / Num tb) < 2 ^ 32.

Lemma step_track tb wall t0 t t' n j dts now m :
  good_base tb -> wall <> 0 -> 0 <= t0 < 2 ^ 62 -> 0 <= t < 2 ^ 62 -> 0 <= t' < 2 ^ 62 -> 0 <= n < 2 ^ 62 -> 0 <= j < 2 ^ 62 ->
  on_track tb wall t0 t n j m -> track_step (Den tb / Num tb) t t' ->
  exists m', ProcessTimestamp (t' mod 2 ^ 33) dts now m = Ret m' /\
    on_track tb wall t0 t' (n + 1) (j + (if is_jump (Den tb / Num tb) t t' then 1 else 0)) m'.
Proof.
  intros (Hn & Hd & Hnd & Hsec) Hw H0 Ht Ht' Hcn Hcj [E1 E2 E3 E4 E5 E6 E7 E8] [Hs Hc]. set (sec := Den tb / Num tb) in *.
  unfold ProcessTimestamp, update_track, is_zero_time. rewrite E3, (proj2 (Z.eqb_neq wall 0)), E5, E2 by done.
  pose proof (Z.div_mod t (2 ^ 33) ltac:(lia)). pose proof (Z.div_mod t' (2 ^ 33) ltac:(lia)).
  pose proof (Z.mod_pos_bound t (2 ^ 33) ltac:(lia)). pose proof (Z.mod_pos_bound t' (2 ^ 33) ltac:(lia)).
  assert (t' / 2 ^ 33 = t / 2 ^ 33 \/ t' / 2 ^ 33 = t / 2 ^ 33 + 1) as Hcyc
    by (pow_consts; Z.to_euclidean_division_equations; lia).
  assert (DetectWrap (t' mod 2 ^ 33) (t mod 2 ^ 33) (NewPTSWrapDetector tb) = negb (t' / 2 ^ 33 =? t / 2 ^ 33)) as HW.
  { unfold DetectWrap. rewrite i64_id by lia. change (halfThreshold _) with (2 ^ 32).
    destruct Hcyc as [Hcyc|Hcyc]; [rewrite (proj2 (Z.eqb_eq _ _)) by done|rewrite (proj2 (Z.eqb_neq _ _)) by lia]; cbn [negb].
    - apply andb_false_iff. right. apply Z.ltb_ge. lia.
    - apply andb_true_iff. split; apply Z.ltb_lt; lia. }
  rewrite HW. assert (0 <= t / 2 ^ 33 < 2 ^ 29 /\ 0 <= t0 / 2 ^ 33 < 2 ^ 29) as [? ?]
    by (pow_consts; Z.to_euclidean_division_equations; lia).
  set (step := if negb _ then _ else _).
  assert (exists s, step = Ret s /\ TimeBase s = tb /\ BaseTime s = wall /\ BasePTS s = t0 mod 2 ^ 33 /\
    PTSWrapCount s = t' / 2 ^ 33 - t0 / 2 ^ 33 /\ FrameCount s = n /\
    PTSJumps s = j + (if is_jump sec t t' then 1 else 0)) as (s & -> & F1 & F2 & F3 & F4 & F5 & F6).
  { subst step. unfold is_jump. destruct Hcyc as [Hcyc|Hcyc].
    - rewrite (proj2 (Z.eqb_eq _ _)), andb_true_r by done. cbn [negb]. unfold check_jump. rewrite E1, E5.
      assert (abs (i64 (t' mod 2 ^ 33 - t mod 2 ^ 33)) = Z.abs (t' - t)) as ->.
      { rewrite i64_id by lia. unfold abs. case_bool; zbool; [rewrite i64_id by lia|]; lia. }
      assert (Den tb < 2 ^ 63) by (unfold second in Hnd; nia).
      rewrite go_quot_Ret, Z.quot_div_nonneg, bind_Ret by lia. fold sec. destruct (Z.ltb_spec sec (Z.abs (t' - t))).
      + assert (0 <= sec) by (apply Z.div_pos; lia). rewrite (i64_id (10 * sec)) by lia.
        rewrite (proj2 (Z.ltb_ge _ _)) by lia. eexists. split; [done|]. cbn. split_and!; try done; [lia|].
        rewrite E8. apply u64_id. lia.
      + eexists. split; [done|]. split_and!; try done; lia.
    - rewrite (proj2 (Z.eqb_neq _ _)), andb_false_r by lia. cbn [negb]. eexists. split; [done|]. cbn.
      split_and!; try done; [|lia]. rewrite E6, i64_id by lia. lia. }
  rewrite bind_Ret. clear HW. set (s1 := if _ && _ then _ else s).
  assert (TimeBase s1 = TimeBase s /\ BaseTime s1 = BaseTime s /\ BasePTS s1 = BasePTS s /\
    PTSWrapCount s1 = PTSWrapCount s /\ FrameCount s1 = FrameCount s /\ PTSJumps s1 = PTSJumps s)
    as (G1 & G2 & G3 & G4 & G5 & G6) by (subst s1; by case_bool).
  clearbody s1. eexists. split; [done|]. split; cbn; try congruence; try done. rewrite G5, F5. apply u64_id. lia.
Qed.

Definition last_of (t0 : Z) (l : list (Z * Z * Z)) : Z := foldl (fun _ e => e.1.1) t0 l.

Lemma process_track tb wall t0 l t n j m :
  good_base tb -> wall <> 0 -> 0 <= t0 < 2 ^ 62 -> 0 <= t < 2 ^ 62 -> 0 <= n -> 0 <= j -> n + len l < 2 ^ 62 -> j + len l < 2 ^ 62 ->
  on_track tb wall t0 t n j m -> track_line (Den tb / Num tb) t ((fun e => e.1.1) <$> l) ->
  Forall (fun e => 0 <= e.1.1 < 2 ^ 62) l ->
  exists m', process_all l m = Ret m' /\
    on_track tb wall t0 (last_of t l) (n + len l) (j + jumps (Den tb / Num tb) t ((fun e => e.1.1) <$> l)) m'.
Proof.
  intros Hb Hw H0. revert t n j m. induction l as [|[[t' dts] now] l IH]; intros t n j m Ht Hn Hj Hln Hlj Hm Hl Hr.
  { exists m. split; [done|]. rewrite (@len_nil (Z * Z * Z)). cbn. by rewrite !Z.add_0_r. }
  cbn [fmap list_fmap track_line fst] in Hl. destruct Hl as [Hs Hl]. apply Forall_cons in Hr as [Ht' Hr]. cbn in Ht'.
  rewrite len_cons in *. pose proof (len_nonneg l). cbn [process_all].
  destruct (step_track tb wall t0 t t' n j dts now m) as (m1 & -> & Hm1); try done; try lia. rewrite bind_Ret.
  set (b := if is_jump _ t t' then 1 else 0) in *. assert (0 <= b <= 1) by (subst b; case_bool; lia).
  destruct (IH t' (n + 1) (j + b) m1) as (m2 & -> & Hm2); try done; try lia.
  exists m2. split; [done|]. cbn [fmap list_fmap jumps fst]. fold b.
  by rewrite <- !Z.add_assoc in Hm2.
Qed.

(** C33: on samples that step by at most ten seconds and do not go back over a
    wrap, the presentation time of the last PTS is the first wall clock plus the
    unwrapped ticks since the first sample, converted exactly, for as long as the
    nanoseconds fit in 64 bits; samples and jumps are counted exactly. *)
Theorem presentation_exact (tt : TrackType) (id : string) (tb : Rational) (wall t0 dts0 now : Z) (l : list (Z * Z * Z)) :
  good_base tb -> wall <> 0 -> 0 <= t0 < 2 ^ 62 -> len l < 2 ^ 61 ->
  track_line (Den tb / Num tb) t0 ((fun e => e.1.1) <$> l) -> Forall (fun e => 0 <= e.1.1 < 2 ^ 62) l ->
  let t := last_of t0 l in
  Z.abs (t - t0) * (second * Num tb) < 2 ^ 63 * Den tb ->
  exists m, process_all ((t0, dts0, wall) :: l) (NewTrackSyncManager tt id tb) = Ret m /\
    GetPresentationTime (t mod 2 ^ 33) now m = Ret (wall + Z.quot ((t - t0) * (second * Num tb)) (Den tb)) /\
    FrameCount (sync m) = 1 + len l /\
    PTSJumps (sync m) = jumps (Den tb / Num tb) t0 ((fun e => e.1.1) <$> l).
Proof.
  intros Hb Hw H0 Hlen Hl Hr t Hns. pose proof Hb as (Hn & Hd & Hnd & Hsec). cbn [process_all].
  unfold NewTrackSyncManager. rewrite (proj2 (Z.eqb_neq (Num tb) 0)), (proj2 (Z.eqb_neq (Den tb) 0)) by lia.
  replace (mkRational (Num tb) (Den tb)) with tb by (by destruct tb).
  set (m0 := mkTSM _ _). unfold ProcessTimestamp, update_track. change (is_zero_time _) with true. cbn match. rewrite !bind_Ret.
  set (m1 := upd sync _ m0). assert (on_track tb wall t0 t0 1 0 m1) as Hm1 by (split; try done; cbn; lia). clearbody m1.
  pose proof (len_nonneg l).
  destruct (process_track tb wall t0 l t0 1 0 m1) as (m & -> & [E1 E2 E3 E4 E5 E6 E7 E8]); try done; try lia.
  exists m. split; [done|]. fold t in E5, E6. split; [|split; [done|exact E8]].
  unfold GetPresentationTime, is_zero_time. rewrite E3, (proj2 (Z.eqb_neq wall 0)) by done.
  assert (0 <= t < 2 ^ 62) as Ht.
  { subst t. clear -H0 Hr. unfold last_of. revert t0 H0. induction Hr as [|e l He _ IH]; intros t0 H0; [done|]. by apply IH. }
  assert (calculatePTSDelta (t mod 2 ^ 33) m = t - t0) as ->.
  { unfold calculatePTSDelta, CalculatePTSDelta, UnwrapPTS. rewrite E2, E4, E6. change (wrapThreshold _) with (2 ^ 33).
    pose proof (Z.div_mod t (2 ^ 33) ltac:(lia)). pose proof (Z.div_mod t0 (2 ^ 33) ltac:(lia)).
    pose proof (Z.mod_pos_bound t (2 ^ 33) ltac:(lia)). pose proof (Z.mod_pos_bound t0 (2 ^ 33) ltac:(lia)).
    rewrite (i64_id (_ * _)) by lia. rewrite (i64_id (_ + _)) by lia. rewrite i64_id by lia. lia. }
  rewrite E1, delta_ns_exact, bind_Ret; [done|lia..|done].
Qed.

Lemma presentation_exact_witness :
  exists m, process_all [(2 ^ 33 - 1000, 0, 5); (2 ^ 33 - 4000, 0, 6); (2 ^ 33 + 2000, 0, 7); (2 ^ 33 + 200000, 0, 8)]
      (NewTrackSyncManager TrackTypeVideo "s" (mkRational 1 90000)) = Ret m /\
    GetPresentationTime 200000 0 m = Ret (5 + 2233333333) /\ FrameCount (sync m) = 4 /\ PTSJumps (sync m) = 1.
Proof.
  destruct (presentation_exact TrackTypeVideo "s" (mkRational 1 90000) 5 (2 ^ 33 - 1000) 0 0
    [(2 ^ 33 - 4000, 0, 6); (2 ^ 33 + 2000, 0, 7); (2 ^ 33 + 200000, 0, 8)]) as (m & E & E1 & E2 & E3).
  - unfold good_base. vm_compute. intuition congruence.
  - done.
  - lia.
  - done.
  - vm_compute. intuition congruence.
  - decide_goal.
  - vm_compute. done.
  - exists m. split; [exact E|]. split; [exact E1|]. split; [exact E2|exact E3].
Defined.

(** A DTS of just before a wrap that the PTS has passed is decoded a whole
    cycle, 26.5 hours, too late. *)
Example decode_time_after_wrap :
  (m ← process_all [(2 ^ 33 - 1000, 2 ^ 33 - 2000, 5); (2 ^ 33 + 1000, 2 ^ 33 - 1000, 6)]
        (NewTrackSyncManager TrackTypeVideo "s" (mkRational 1 90000));
   GetDecodeTime (2 ^ 33 - 1000) m) = Ret (5 + 95443717688888).
Proof. vm_compute. reflexivity. Qed.
