(* ===== verification/TimeBase.v ===== *)
(** * Conversion between time bases (sync/timebase_converter.go)

    The conversion factor is a float64, computed once. *)

From S2P Require Import Prelude Float64 Frame.

Record TimeBaseConverter := mkConverter { from : Rational; to : Rational; conversionFactor : float64 }.

Inductive base_error : Type := InvalidSource (r : Rational) | InvalidTarget (r : Rational).
Inductive chain_error : Type := TooFewBases (n : Z) | ConverterFailed (i : Z) (e : base_error).

Definition no_base (r : Rational) : bool := (Num r =? 0) || (Den r =? 0).

Definition NewTimeBaseConverter (a b : Rational) : exn base_error TimeBaseConverter :=
  if no_base a then Err (InvalidSource a)
  else if no_base b then Err (InvalidTarget b)
  else Val (mkConverter a b
    (f64_div (f64_mul (f64_of_Z (Den b)) (f64_of_Z (Num a))) (f64_mul (f64_of_Z (Num b)) (f64_of_Z (Den a))))).

Definition Convert (pts : Z) (c : TimeBaseConverter) : Z :=
  f64_trunc (f64_round (f64_mul (f64_of_Z pts) (conversionFactor c))).
Definition ConvertPrecise (pts : Z) (c : TimeBaseConverter) : Z * float64 :=
  let exact := f64_mul (f64_of_Z pts) (conversionFactor c) in
  let rounded := f64_trunc (f64_round exact) in
  (rounded, f64_sub exact (f64_of_Z rounded)).
Definition ConvertDuration (duration : Z) (c : TimeBaseConverter) : Z := Convert duration c.
Definition GetRatio (c : TimeBaseConverter) : float64 := conversionFactor c.
Definition GetSourceTimeBase (c : TimeBaseConverter) : Rational := from c.
Definition GetTargetTimeBase (c : TimeBaseConverter) : Rational := to c.

(** The loop over adjacent pairs, at pair [i]. *)
Fixpoint chain_loop (i : Z) (a : Rational) (bases : list Rational) : exn chain_error (list TimeBaseConverter) :=
  match bases with
  | [] => Val []
  | b :: bases =>
      match NewTimeBaseConverter a b with
      | Err e => Err (ConverterFailed i e)
      | Val c => match chain_loop (i + 1) b bases with Err e => Err e | Val cs => Val (c :: cs) end
      end
  end.
Definition NewTimeBaseConverterChain (bases : list Rational) : exn chain_error (list TimeBaseConverter) :=
  match bases with
  | a :: (_ :: _) as rest => chain_loop 0 a rest
  | _ => Err (TooFewBases (len bases))
  end.
Definition ConvertChain (pts : Z) (chain : list TimeBaseConverter) : Z := fold_left (fun p c => Convert p c) chain pts.

Definition Video90kHz : Rational := mkRational 1 90000.
Definition Audio48kHz : Rational := mkRational 1 48000.
Definition Milliseconds : Rational := mkRational 1 1000.

Definition ConvertToMilliseconds (pts : Z) (tb : Rational) : res Z :=
  match NewTimeBaseConverter tb Milliseconds with
  | Val c => Ret (Convert pts c)
  | Err _ => go_quot (i64 (i64 (pts * 1000) * Num tb)) (Den tb)
  end.
Definition ConvertFromMilliseconds (ms : Z) (tb : Rational) : res Z :=
  match NewTimeBaseConverter Milliseconds tb with
  | Val c => Ret (Convert ms c)
  | Err _ => go_quot (i64 (ms * Den tb)) (i64 (1000 * Num tb))
  end.

(** A chain is refused exactly for want of two bases or for a zero component;
    the number of converters is one less than the number of bases. *)
Lemma chain_loop_spec bases i a :
  match chain_loop i a bases with
  | Val cs => length cs = length bases /\ (bases <> [] -> no_base a = false) /\ Forall (fun b => no_base b = false) bases
  | Err e => exists j b, e = ConverterFailed j b /\ i <= j < i + len bases /\
      exists r, no_base r = true /\ (b = InvalidSource r \/ b = InvalidTarget r)
  end.
Proof.
  revert i a. induction bases as [|b bases IH]; intros i a; cbn [chain_loop]; [by split|].
  unfold NewTimeBaseConverter. pose proof (len_nonneg bases). rewrite len_cons.
  destruct (no_base a) eqn:Ha; [exists i; eexists; split; [done|]; split; [lia|]; exists a; eauto|].
  destruct (no_base b) eqn:Hb; [exists i; eexists; split; [done|]; split; [lia|]; exists b; eauto|].
  specialize (IH (i + 1) b). destruct (chain_loop (i + 1) b bases) as [cs|e0].
  - destruct IH as (IH1 & _ & IH2). split; [cbn; by rewrite IH1|]. split; [done|by constructor].
  - destruct IH as (j & e & E & Hj & Hr). exists j, e. split; [done|]. split; [lia|done].
Qed.

(** Ticks and back, through the usual bases. *)
Example convert_examples :
  ConvertToMilliseconds 90000 Video90kHz = Ret 1000 /\ ConvertToMilliseconds 45 Video90kHz = Ret 1 /\
  ConvertFromMilliseconds 40 Audio48kHz = Ret 1920 /\
  (match NewTimeBaseConverterChain [Video90kHz; Audio48kHz; Milliseconds] with Val c => ConvertChain 180000 c | Err _ => 0 end) = 2000.
Proof. vm_compute. done. Qed.

(** The fallback for a refused time base divides by its zero component. *)
Example fallback_panics :
  ConvertToMilliseconds 1 (mkRational 1 0) = Panic /\ ConvertFromMilliseconds 1 (mkRational 0 1) = Panic.
Proof. done. Qed.
