(* ===== verification/AVSync.v ===== *)
(** * Audio/video synchronisation of a stream (sync/manager.go)

    Two tracks, the window of measured drifts, and the correction of the audio
    offset.  What the clock says at each place that reads it is an argument;
    log calls are left out, their time stamp is kept. *)

From stdpp Require Import strings.
From S2P Require Import Prelude Returns Float64 Frame Codec TrackSync.

Record SyncConfig := mkSyncConfig {
  MaxAudioDrift : Z;
  MaxVideoDrift : Z;
  CorrectionInterval : Z;
  EnableAutoCorrect : bool;
  CorrectionFactor : float64;
  MaxCorrectionStep : Z;
  MultiStreamTolerance : Z;
  MasterClockSource : string;
  EnableDriftLogging : bool;
  DriftLogInterval : Z
}.
Definition DefaultSyncConfig : SyncConfig :=
  mkSyncConfig (40 * millisecond) (40 * millisecond) (100 * millisecond) true (f64_dec 1 1) (5 * millisecond)
    (50 * millisecond) "system" false second.

Record DriftSample := mkSample {
  Timestamp : Z; VideoPTS : Z; AudioPTS : Z; Drift : Z; PTSDrift : Z; ProcessingLag : Z }.
(** The reason text of a correction is left out. *)
Inductive correction_method : Type := Gradual | Manual.
Record DriftCorrection := mkCorrection { c_Timestamp : Z; Method : correction_method; Amount : Z }.

Record SyncStatus := mkStatus {
  InSync : bool;
  MaxDrift : Z;
  CurrentDrift : Z;
  VideoSync : option TrackSync;
  AudioSync : option TrackSync;
  DriftWindow : list DriftSample;
  Corrections : list DriftCorrection;
  LastCorrection : Z;
  AvgDrift : Z;
  DriftVariance : float64;
  CorrectionRate : float64
}.
#[export] Instance eta_status : Eta SyncStatus := fun s =>
  mkStatus (InSync s) (MaxDrift s) (CurrentDrift s) (VideoSync s) (AudioSync s) (DriftWindow s) (Corrections s)
    (LastCorrection s) (AvgDrift s) (DriftVariance s) (CorrectionRate s).

Record Manager := mkManager {
  streamID : string;
  config : SyncConfig;
  videoSync : option TrackSyncManager;
  audioSync : option TrackSyncManager;
  driftWindow : list DriftSample;
  driftWindowSize : Z;
  corrections : list DriftCorrection;
  audioOffset : Z;
  lastCorrection : Z;
  correctionCount : Z;
  status : SyncStatus;
  lastDriftLog : Z
}.
#[export] Instance eta_manager : Eta Manager := fun m =>
  mkManager (streamID m) (config m) (videoSync m) (audioSync m) (driftWindow m) (driftWindowSize m) (corrections m)
    (audioOffset m) (lastCorrection m) (correctionCount m) (status m) (lastDriftLog m).

Inductive sync_error : Type := AlreadyInitialized | NotInitialized.

(** The clock at the places of a call that read it, in their order. *)
Record clock := mkClock { at_present : Z; at_video : Z; at_audio : Z; at_sample : Z; at_rate : Z; at_check : Z; at_correction : Z; at_last : Z; at_log : Z }.

Definition new_status (c : SyncConfig) : SyncStatus :=
  mkStatus true (MaxAudioDrift c) 0 None None [] [] zero_time 0 (f64_of_Z 0) (f64_of_Z 0).
Definition NewManager (id : string) (c : option SyncConfig) : Manager :=
  let c := default DefaultSyncConfig c in
  mkManager id c None None [] 100 [] 0 zero_time 0 (new_status c) zero_time.

Definition InitializeVideo (tb : Rational) (m : Manager) : Manager * exn sync_error unit :=
  match videoSync m with
  | Some _ => (m, Err AlreadyInitialized)
  | None =>
      let t := NewTrackSyncManager TrackTypeVideo (streamID m) tb in
      (m <| videoSync := Some t |> <| status := (status m) <| VideoSync := Some (GetSyncState t) |> |>, Val tt)
  end.
Definition InitializeAudio (tb : Rational) (m : Manager) : Manager * exn sync_error unit :=
  match audioSync m with
  | Some _ => (m, Err AlreadyInitialized)
  | None =>
      let t := NewTrackSyncManager TrackTypeAudio (streamID m) tb in
      (m <| audioSync := Some t |> <| status := (status m) <| AudioSync := Some (GetSyncState t) |> |>, Val tt)
  end.

(** ** Drift *)

Definition ms_of (d : Z) : float64 := f64_of_Z (Z.quot d millisecond).
Definition total_drift (w : list DriftSample) : Z := fold_left (fun t s => i64 (t + PTSDrift s)) w 0.
Definition drift_variance (avg : Z) (w : list DriftSample) : float64 :=
  fold_left (fun v s => let d := f64_sub (ms_of (PTSDrift s)) (ms_of avg) in f64_add v (f64_mul d d)) w (f64_of_Z 0).

(** The processing lag is only logged. *)
Definition updateDriftStatistics (ck : clock) (m : Manager) : res Manager :=
  if len (driftWindow m) =? 0 then Ret m
  else
    avg ← go_quot (total_drift (driftWindow m)) (len (driftWindow m));
    let st := (status m) <| AvgDrift := avg |>
                <| DriftVariance := f64_div (drift_variance avg (driftWindow m)) (f64_of_Z (len (driftWindow m))) |> in
    st ← (if 0 <? correctionCount m then
            match VideoSync st with
            | None => Panic
            | Some v =>
                if negb (is_zero_time (BaseTime v)) then
                  let duration := minutes_of (time_sub (at_rate ck) (BaseTime v)) in
                  Ret (if f64_ltb (f64_of_Z 0) duration
                       then st <| CorrectionRate := f64_div (f64_of_Z (correctionCount m)) duration |> else st)
                else Ret st
            end
          else Ret st);
    Ret (m <| status := st <| InSync := abs avg <=? MaxAudioDrift (config m) |> |>).

(** [correctionAmount], limited to the step size. *)
Definition correction_amount (avg : Z) (c : SyncConfig) : Z :=
  let a := f64_trunc (f64_mul (f64_of_Z avg) (CorrectionFactor c)) in
  if MaxCorrectionStep c <? abs a then (if 0 <? a then MaxCorrectionStep c else i64 (- MaxCorrectionStep c)) else a.

Definition applyDriftCorrection (ck : clock) (m : Manager) : Manager :=
  if len (driftWindow m) <? 10 then m
  else
    let avg := AvgDrift (status m) in
    if abs avg <? Z.quot (MaxAudioDrift (config m)) 2 then m
    else
      let a := correction_amount avg (config m) in
      let cs := corrections m ++ [mkCorrection (at_correction ck) Gradual a] in
      let cs := if 50 <? len cs then tail cs else cs in
      m <| audioOffset := i64 (audioOffset m - a) |> <| corrections := cs |> <| lastCorrection := at_last ck |>
        <| correctionCount := u64 (correctionCount m + 1) |>
        <| status := (status m) <| Corrections := cs |> <| LastCorrection := at_last ck |> |>.

(** The drift of the two tracks: video minus audio, with its offset. *)
Definition pts_drift (ck : clock) (v a : TrackSyncManager) (m : Manager) : res Z :=
  vt ← GetPresentationTime (LastPTS (sync v)) (at_video ck) v;
  at_ ← GetPresentationTime (LastPTS (sync a)) (at_audio ck) a;
  Ret (time_sub vt (at_ + audioOffset m)).

Definition correct (drift : Z) (ck : clock) (m : Manager) : Manager :=
  if EnableAutoCorrect (config m) && (CorrectionInterval (config m) <? time_sub (at_check ck) (lastCorrection m)) &&
     (MaxAudioDrift (config m) <? abs drift)
  then applyDriftCorrection ck m else m.

Definition log_drift (ck : clock) (m : Manager) : Manager :=
  if EnableDriftLogging (config m) && (DriftLogInterval (config m) <? time_sub (at_log ck) (lastDriftLog m))
  then m <| lastDriftLog := at_log ck |> else m.

Definition add_sample (s : DriftSample) (m : Manager) : Manager :=
  let w := driftWindow m ++ [s] in
  let w := if driftWindowSize m <? len w then tail w else w in
  m <| driftWindow := w |> <| status := (status m) <| CurrentDrift := Drift s |> <| DriftWindow := w |> |>.

Definition measureDrift (ck : clock) (v a : TrackSyncManager) (m : Manager) : res Manager :=
  if (LastPTS (sync v) =? 0) || (LastPTS (sync a) =? 0) then Ret m
  else
    drift ← pts_drift ck v a m;
    let lag := time_sub (LastWallTime (sync v)) (LastWallTime (sync a)) in
    let m := add_sample (mkSample (at_sample ck) (LastPTS (sync v)) (LastPTS (sync a)) drift drift lag) m in
    m ← updateDriftStatistics ck m;
    Ret (log_drift ck (correct drift ck m)).

(** ** Operations *)

Definition measure_with (ck : clock) (v a : option TrackSyncManager) (other : option TrackSyncManager) (m : Manager) : res Manager :=
  match v, a, other with
  | Some v, Some a, Some o => if 0 <? FrameCount (sync o) then measureDrift ck v a m else Ret m
  | _, _, _ => Ret m
  end.

Definition ProcessVideoFrame (f : VideoFrame) (ck : clock) (m : Manager) : res (Manager * VideoFrame * exn sync_error unit) :=
  match videoSync m with
  | None => Ret (m, f, Err NotInitialized)
  | Some v =>
      v ← ProcessTimestamp (PTS f) (DTS f) (CaptureTime f) v;
      p ← GetPresentationTime (PTS f) (at_present ck) v;
      let m := m <| videoSync := Some v |> <| status := (status m) <| VideoSync := Some (GetSyncState v) |> |> in
      m ← measure_with ck (videoSync m) (audioSync m) (audioSync m) m;
      Ret (m, f <| PresentationTime := p |>, Val tt)
  end.

Definition ProcessAudioPacket (p : TimestampedPacket) (ck : clock) (m : Manager)
    : res (Manager * TimestampedPacket * exn sync_error unit) :=
  match audioSync m with
  | None => Ret (m, p, Err NotInitialized)
  | Some a =>
      a ← ProcessTimestamp (tp_PTS p) (tp_DTS p) (tp_CaptureTime p) a;
      t ← GetPresentationTime (tp_PTS p) (at_present ck) a;
      let p := p <| tp_PresentationTime := t + audioOffset m |> in
      let m := m <| audioSync := Some a |> <| status := (status m) <| AudioSync := Some (GetSyncState a) |> |> in
      m ← measure_with ck (videoSync m) (audioSync m) (videoSync m) m;
      Ret (m, p, Val tt)
  end.

Definition or_state (t : option TrackSyncManager) (old : option TrackSync) : option TrackSync :=
  match t with Some t => Some (GetSyncState t) | None => old end.
Definition GetSyncStatus (m : Manager) : SyncStatus :=
  (status m) <| VideoSync := or_state (videoSync m) (VideoSync (status m)) |>
             <| AudioSync := or_state (audioSync m) (AudioSync (status m)) |>.

Definition ReportVideoDropped (n : Z) (m : Manager) : Manager := m <| videoSync := ReportDropped n <$> videoSync m |>.
Definition ReportAudioDropped (n : Z) (m : Manager) : Manager := m <| audioSync := ReportDropped n <$> audioSync m |>.

Definition Reset (m : Manager) : Manager :=
  m <| videoSync := TrackSync.Reset <$> videoSync m |> <| audioSync := TrackSync.Reset <$> audioSync m |>
    <| driftWindow := [] |> <| corrections := [] |> <| audioOffset := 0 |> <| lastCorrection := zero_time |>
    <| correctionCount := 0 |> <| status := new_status (config m) |>.

Definition SetAudioOffset (offset : Z) (ck : clock) (m : Manager) : Manager :=
  m <| audioOffset := offset |>
    <| corrections := corrections m ++ [mkCorrection (at_correction ck) Manual (i64 (offset - audioOffset m))] |>
    <| lastCorrection := at_last ck |>.

(** ** Runs *)

Inductive event : Type :=
| InitVideo (tb : Rational)
| InitAudio (tb : Rational)
| Video (f : VideoFrame) (ck : clock)
| Audio (p : TimestampedPacket) (ck : clock)
| VideoDropped (n : Z)
| AudioDropped (n : Z)
| ResetAll
| Offset (o : Z) (ck : clock).

Definition handle (e : event) (m : Manager) : res Manager :=
  match e with
  | InitVideo tb => Ret (InitializeVideo tb m).1
  | InitAudio tb => Ret (InitializeAudio tb m).1
  | Video f ck => '(m, _, _) ← ProcessVideoFrame f ck m; Ret m
  | Audio p ck => '(m, _, _) ← ProcessAudioPacket p ck m; Ret m
  | VideoDropped n => Ret (ReportVideoDropped n m)
  | AudioDropped n => Ret (ReportAudioDropped n m)
  | ResetAll => Ret (Reset m)
  | Offset o ck => Ret (SetAudioOffset o ck m)
  end.
Fixpoint run (l : list event) (m : Manager) : res Manager :=
  match l with [] => Ret m | e :: l => m ← handle e m; run l m end.

(** What a measurement leaves: the average of the window decides [InSync]. *)
Definition measured (cfg : SyncConfig) (m : Manager) : Prop :=
  driftWindow m = [] /\ InSync (status m) = true \/
  AvgDrift (status m) = i64 (Z.quot (total_drift (driftWindow m)) (len (driftWindow m))) /\
  InSync (status m) = (abs (AvgDrift (status m)) <=? MaxAudioDrift cfg).

Definition track_ok (t : TrackSyncManager) : Prop := Num (TimeBase (sync t)) <> 0 /\ Den (TimeBase (sync t)) <> 0.
Definition tracks_ok (t : option TrackSyncManager) : Prop := match t with Some t => track_ok t | None => True end.

Record sync_inv (cfg : SyncConfig) (m : Manager) : Prop := {
  si_config : config m = cfg;
  si_size : driftWindowSize m = 100;
  si_window : len (driftWindow m) <= 100;
  si_video : tracks_ok (videoSync m);
  si_audio : tracks_ok (audioSync m);
  si_measured : measured cfg m;
  si_seen : (0 < correctionCount m \/ exists v, videoSync m = Some v /\ 0 < FrameCount (sync v)) ->
            is_Some (VideoSync (status m))
}.

(** The only ways a sample changes the offset. *)
Definition offset_step (cfg : SyncConfig) (ck : clock) (m m' : Manager) : Prop :=
  (audioOffset m' = audioOffset m /\ corrections m' = corrections m) \/
  exists a, audioOffset m' = i64 (audioOffset m - a) /\ last (corrections m') = Some (mkCorrection (at_correction ck) Gradual a) /\
    (Z.abs a <= MaxCorrectionStep cfg \/ a = min_i64) /\ 10 <= len (driftWindow m') /\ EnableAutoCorrect cfg = true /\
    CorrectionInterval cfg < time_sub (at_check ck) (lastCorrection m) /\
    Z.quot (MaxAudioDrift cfg) 2 <= abs (AvgDrift (status m')) /\ MaxAudioDrift cfg < abs (CurrentDrift (status m')).

(** *** Tracks *)

Lemma go_quot_total a b : b <> 0 -> returns (go_quot a b) (fun _ => True).
Proof. intros. unfold go_quot. rewrite (proj2 (Z.eqb_neq b 0)) by done. by apply returns_Ret. Qed.
Lemma go_rem_total a b : b <> 0 -> returns (go_rem a b) (fun _ => True).
Proof. intros. unfold go_rem. rewrite (proj2 (Z.eqb_neq b 0)) by done. by apply returns_Ret. Qed.

Lemma ProcessTimestamp_total pts dts wall t : track_ok t -> returns (ProcessTimestamp pts dts wall t) track_ok.
Proof.
  intros [Hn Hd]. unfold ProcessTimestamp, update_track. destruct (is_zero_time _); [rewrite bind_Ret; by apply returns_Ret|].
  assert (returns (if DetectWrap pts (LastPTS (sync t)) (wrapDetector t)
     then Ret ((sync t) <| PTSWrapCount := i64 (PTSWrapCount (sync t) + 1) |>) else check_jump pts wall (sync t))
     (fun s => TimeBase s = TimeBase (sync t))) as H.
  { case_bool; [by apply returns_Ret|]. unfold check_jump. eapply returns_bind; [by apply go_quot_total|].
    intros o _. case_bool; apply returns_Ret; [|done]. by case_bool. }
  eapply (returns_bind _ _ (fun s => TimeBase s = TimeBase (sync t))).
  - eapply returns_bind; [exact H|]. intros s Hs. apply returns_Ret. by case_bool.
  - intros s Hs. apply returns_Ret. unfold track_ok. cbn. by rewrite Hs.
Qed.

Lemma GetPresentationTime_total pts now t : track_ok t -> returns (GetPresentationTime pts now t) (fun _ => True).
Proof.
  intros [Hn Hd]. unfold GetPresentationTime, delta_ns. case_bool; [by apply returns_Ret|].
  eapply (returns_bind _ _ (fun _ => True)); [|intros; by apply returns_Ret].
  repeat (eapply returns_bind; [first [by apply go_quot_total | by apply go_rem_total]|intros ? _]). by apply returns_Ret.
Qed.

Lemma NewTrack_ok tt id tb : track_ok (NewTrackSyncManager tt id tb).
Proof. split; cbn; case_bool; zbool; lia. Qed.

(** *** Measurements *)

Lemma go_abs a : - 2 ^ 63 < a < 2 ^ 63 -> abs a = Z.abs a.
Proof. intros. unfold abs. case_bool; zbool; [rewrite i64_id by lia|]; lia. Qed.

Lemma correction_amount_bound avg c :
  0 <= MaxCorrectionStep c < 2 ^ 63 ->
  Z.abs (correction_amount avg c) <= MaxCorrectionStep c \/ correction_amount avg c = min_i64.
Proof.
  intros Hs. unfold correction_amount. set (a := f64_trunc _). pose proof (f64_trunc_range (f64_mul (f64_of_Z avg) (CorrectionFactor c))) as Ha.
  fold a in Ha. clearbody a. unfold min_i64, max_i64 in *.
  destruct (Z.eq_dec a (- 2 ^ 63)) as [->|Hne].
  - right. change (abs (- 2 ^ 63)) with (- 2 ^ 63). by rewrite (proj2 (Z.ltb_ge _ _)) by lia.
  - left. rewrite go_abs by lia. destruct (Z.ltb_spec (MaxCorrectionStep c) (Z.abs a)); [|lia].
    rewrite i64_id by lia. case_bool; lia.
Qed.

(** The parts of the manager a measurement leaves alone. *)
Definition same_tracks (m m' : Manager) : Prop :=
  config m' = config m /\ driftWindowSize m' = driftWindowSize m /\ videoSync m' = videoSync m /\
  audioSync m' = audioSync m /\ VideoSync (status m') = VideoSync (status m).

Lemma statistics_total cfg ck m :
  config m = cfg -> driftWindow m <> [] -> (0 < correctionCount m -> is_Some (VideoSync (status m))) ->
  returns (updateDriftStatistics ck m) (fun m' => same_tracks m m' /\ driftWindow m' = driftWindow m /\
    measured cfg m' /\ CurrentDrift (status m') = CurrentDrift (status m) /\ audioOffset m' = audioOffset m /\
    corrections m' = corrections m /\ lastCorrection m' = lastCorrection m /\ correctionCount m' = correctionCount m).
Proof.
  intros Hcfg Hw Hs. unfold updateDriftStatistics. destruct (driftWindow m) as [|s w] eqn:Hd; [done|]. rewrite len_cons_eq0.
  pose proof (len_nonneg w). rewrite <- Hd in *. set (n := len (driftWindow m)).
  assert (go_quot (total_drift (driftWindow m)) n = Ret (i64 (Z.quot (total_drift (driftWindow m)) n))) as ->.
  { unfold go_quot. rewrite (proj2 (Z.eqb_neq n 0)); [done|]. unfold n. rewrite Hd, len_cons. lia. }
  rewrite bind_Ret. cbv zeta. set (st := upd DriftVariance _ _).
  assert (VideoSync st = VideoSync (status m) /\ AvgDrift st = i64 (Z.quot (total_drift (driftWindow m)) n) /\
    CurrentDrift st = CurrentDrift (status m)) as (E1 & E2 & E3) by done.
  clearbody st. eapply (returns_bind _ _ (fun st' => VideoSync st' = VideoSync (status m) /\
    AvgDrift st' = i64 (Z.quot (total_drift (driftWindow m)) n) /\ CurrentDrift st' = CurrentDrift (status m))).
  - destruct (Z.ltb_spec 0 (correctionCount m)); [|by apply returns_Ret]. destruct Hs as [v Hv]; [done|]. rewrite E1, Hv.
    case_bool; apply returns_Ret; [|by rewrite E1]. rewrite <- Hv. by case_bool.
  - intros st' (F1 & F2 & F3). apply returns_Ret. split; [by split_and!|]. split; [done|]. split; [|by split_and!].
    right. cbn. rewrite <- Hcfg, F2. done.
Qed.

Lemma add_sample_window s m :
  driftWindowSize m = 100 -> len (driftWindow m) <= 100 ->
  driftWindow (add_sample s m) <> [] /\ len (driftWindow (add_sample s m)) <= 100.
Proof.
  intros E H. unfold add_sample. rewrite E. cbn. rewrite len_app. change (len [s]) with 1. pose proof (len_nonneg (driftWindow m)).
  case_bool; zbool; [|split; [by destruct (driftWindow m)|rewrite len_app; change (len [s]) with 1; lia]].
  destruct (driftWindow m) as [|x w]; [change (len []) with 0 in *; lia|]. rewrite len_cons in *. cbn.
  split; [by destruct w|]. rewrite len_app. change (len [s]) with 1. lia.
Qed.

Lemma correct_step cfg drift ck m :
  config m = cfg -> 0 <= MaxCorrectionStep cfg < 2 ^ 63 -> CurrentDrift (status m) = drift ->
  let m' := correct drift ck m in
  same_tracks m m' /\ driftWindow m' = driftWindow m /\ AvgDrift (status m') = AvgDrift (status m) /\
  InSync (status m') = InSync (status m) /\ (correctionCount m' = correctionCount m \/ m' = applyDriftCorrection ck m) /\
  offset_step cfg ck m m'.
Proof.
  intros Hc Hs Hd. unfold correct. destruct (EnableAutoCorrect _) eqn:He; cbn [andb]; [|split; [done|]; split_and!; try done; by left].
  destruct (Z.ltb_spec (CorrectionInterval (config m)) (time_sub (at_check ck) (lastCorrection m))); cbn [andb];
    [|split; [done|]; split_and!; try done; [by left|by left]].
  destruct (Z.ltb_spec (MaxAudioDrift (config m)) (abs drift)); [|split; [done|]; split_and!; try done; [by left|by left]].
  unfold applyDriftCorrection. destruct (Z.ltb_spec (len (driftWindow m)) 10); [split; [done|]; split_and!; try done; [by left|by left]|].
  destruct (Z.ltb_spec (abs (AvgDrift (status m))) (Z.quot (MaxAudioDrift (config m)) 2));
    [split; [done|]; split_and!; try done; [by left|by left]|].
  split; [done|]. split_and!; try done; [by right|]. right. exists (correction_amount (AvgDrift (status m)) (config m)).
  rewrite <- Hc in *. split_and!; try done; [|by apply correction_amount_bound|by rewrite <- Hd in *]. cbn.
  set (cs := corrections m). case_bool; [|by rewrite last_snoc].
  destruct cs as [|c cs]; [done|]. cbn. by rewrite last_snoc.
Qed.

Lemma correct_log_measured cfg drift ck m :
  config m = cfg -> 0 <= MaxCorrectionStep cfg < 2 ^ 63 -> CurrentDrift (status m) = drift -> measured cfg m ->
  let m' := log_drift ck (correct drift ck m) in
  same_tracks m m' /\ driftWindow m' = driftWindow m /\ measured cfg m' /\ offset_step cfg ck m m'.
Proof.
  intros Hc Hs Hd Hm. destruct (correct_step cfg drift ck m Hc Hs Hd) as (T & W & A & I & _ & O). cbv zeta.
  set (m1 := correct drift ck m) in *. clearbody m1.
  assert (measured cfg m1) as Hm1 by (unfold measured in *; by rewrite W, A, I).
  unfold log_drift. by case_bool.
Qed.

Lemma measureDrift_inv cfg ck v a m :
  sync_inv cfg m -> track_ok v -> track_ok a -> is_Some (VideoSync (status m)) -> 0 <= MaxCorrectionStep cfg < 2 ^ 63 ->
  returns (measureDrift ck v a m) (fun m' => sync_inv cfg m' /\ offset_step cfg ck m m' /\ videoSync m' = videoSync m).
Proof.
  intros [I1 I2 I3 I4 I5 I6 I7] Hv Ha Hseen Hs. unfold measureDrift.
  destruct (_ || _); [apply returns_Ret; split; [done|]; split; [by left|done]|].
  unfold pts_drift. eapply returns_bind.
  { eapply returns_bind; [by apply GetPresentationTime_total|]. intros vt _.
    eapply returns_bind; [by apply GetPresentationTime_total|]. intros at_ _. by apply (returns_Ret _ (fun _ => True)). }
  intros drift _. set (s := mkSample _ _ _ _ _ _). destruct (add_sample_window s m I2 I3) as [W1 W2].
  assert (same_tracks m (add_sample s m) /\ CurrentDrift (status (add_sample s m)) = drift /\
    audioOffset (add_sample s m) = audioOffset m /\ corrections (add_sample s m) = corrections m /\
    lastCorrection (add_sample s m) = lastCorrection m) as ((T1 & T2 & T3 & T4 & T5) & D1 & O1 & C1 & L1) by done.
  set (m1 := add_sample s m) in *. clearbody m1. clear s.
  eapply returns_bind; [apply (statistics_total cfg); [congruence|done|by rewrite T5]|].
  intros m2 ((U1 & U2 & U3 & U4 & U5) & W3 & M2 & D2 & O2 & C2 & L2 & K2). apply returns_Ret.
  destruct (correct_log_measured cfg drift ck m2) as ((V1 & V2 & V3 & V4 & V5) & W4 & M3 & O3); [congruence|done|congruence|done|].
  set (m3 := log_drift _ _) in *. clearbody m3. split; [|split; [|congruence]].
  - split; [congruence..|by rewrite W4, W3|by rewrite V3, U3, T3|by rewrite V4, U4, T4|done|].
    intros _. by rewrite V5, U5, T5.
  - unfold offset_step in *. by rewrite O2, C2, L2, O1, C1, L1 in O3.
Qed.

Definition seen_video (m : Manager) : Prop :=
  forall v, videoSync m = Some v -> 0 < FrameCount (sync v) -> is_Some (VideoSync (status m)).

Lemma measure_with_inv cfg ck o m :
  sync_inv cfg m -> 0 <= MaxCorrectionStep cfg < 2 ^ 63 -> (is_Some (VideoSync (status m)) \/ o = videoSync m) ->
  returns (measure_with ck (videoSync m) (audioSync m) o m) (fun m' => sync_inv cfg m' /\ offset_step cfg ck m m').
Proof.
  intros Hi Hs Ho. assert (returns (Ret m) (fun m' => sync_inv cfg m' /\ offset_step cfg ck m m')) as Hsame
    by (apply returns_Ret; split; [done|by left]).
  unfold measure_with. pose proof Hi as [_ _ _ I4 I5 _ I7].
  destruct (videoSync m) as [v|] eqn:Ev; [|exact Hsame]. destruct (audioSync m) as [a|]; [|exact Hsame].
  destruct o as [o|]; [|exact Hsame]. destruct (Z.ltb_spec 0 (FrameCount (sync o))); [|exact Hsame].
  eapply returns_weaken; [apply (measureDrift_inv cfg); try done|by intros m' (? & ? & _)].
  destruct Ho as [Ho|Ho]; [done|]. apply I7. right. injection Ho as ->. eauto.
Qed.

Definition event_step (cfg : SyncConfig) (e : event) (m m' : Manager) : Prop :=
  match e with
  | Video _ ck | Audio _ ck => offset_step cfg ck m m'
  | ResetAll => audioOffset m' = 0
  | Offset o _ => audioOffset m' = o
  | _ => audioOffset m' = audioOffset m
  end.

Lemma handle_inv cfg e m :
  sync_inv cfg m -> 0 <= MaxCorrectionStep cfg < 2 ^ 63 ->
  returns (handle e m) (fun m' => sync_inv cfg m' /\ event_step cfg e m m').
Proof.
  intros Hi Hs. pose proof Hi as [I1 I2 I3 I4 I5 I6 I7]. destruct e as [tb|tb|f ck|p ck|n|n| |o ck]; cbn [handle event_step].
  - apply returns_Ret. unfold InitializeVideo. destruct (videoSync m) eqn:Ev; [done|]. split; [|done].
    split; try done; cbn. by apply NewTrack_ok.
  - apply returns_Ret. unfold InitializeAudio. destruct (audioSync m) eqn:Ev; [done|]. split; [|done].
    split; try done; cbn. by apply NewTrack_ok.
  - unfold ProcessVideoFrame. destruct (videoSync m) as [v|] eqn:Ev; [|apply returns_Ret; split; [done|by left]].
    eapply (returns_bind _ _ (fun '(m', _, _) => sync_inv cfg m' /\ offset_step cfg ck m m'));
      [|intros [[m' q] r] H; apply returns_Ret; exact H].
    eapply returns_bind; [by apply ProcessTimestamp_total|]. intros v1 Hv1.
    eapply returns_bind; [by apply GetPresentationTime_total|]. intros t _. set (m1 := upd status _ _).
    assert (sync_inv cfg m1) as Hi1 by (split; try done; cbn; eauto).
    assert (offset_step cfg ck m1 = offset_step cfg ck m) as <- by done.
    assert (is_Some (VideoSync (status m1))) as Hv by (cbn; eauto). clearbody m1.
    eapply returns_bind; [apply (measure_with_inv cfg); eauto|]. intros m2 H. by apply returns_Ret.
  - unfold ProcessAudioPacket. destruct (audioSync m) as [a|] eqn:Ea; [|apply returns_Ret; split; [done|by left]].
    eapply (returns_bind _ _ (fun '(m', _, _) => sync_inv cfg m' /\ offset_step cfg ck m m'));
      [|intros [[m' q] r] H; apply returns_Ret; exact H].
    eapply returns_bind; [by apply ProcessTimestamp_total|]. intros a1 Ha1.
    eapply returns_bind; [by apply GetPresentationTime_total|]. intros t _. cbv zeta. set (m1 := upd status _ _).
    assert (sync_inv cfg m1) as Hi1 by (split; try done).
    assert (offset_step cfg ck m1 = offset_step cfg ck m) as <- by done. clearbody m1.
    eapply returns_bind; [apply (measure_with_inv cfg); [done|done|by right]|]. intros m2 H. by apply returns_Ret.
  - apply returns_Ret. split; [|done]. split; try done; cbn; destruct (videoSync m) as [v|]; try done.
    intros H. apply I7. destruct H as [H|(w & [= <-] & H)]; [by left|right; eauto].
  - apply returns_Ret. split; [|done]. split; try done; cbn. by destruct (audioSync m).
  - apply returns_Ret. split; [|done]. split; cbn; try done; [by destruct (videoSync m)|by destruct (audioSync m)|by left|].
    intros [H|(w & H & H')]; [lia|]. destruct (videoSync m); [|done]. injection H as <-. cbn in H'. lia.
  - apply returns_Ret. split; [|done]. by split.
Qed.

Lemma sync_run_inv cfg l m :
  sync_inv cfg m -> 0 <= MaxCorrectionStep cfg < 2 ^ 63 -> returns (run l m) (sync_inv cfg).
Proof.
  intros Hi Hs. revert m Hi. induction l as [|e l IH]; intros m Hi; cbn [run]; [by apply returns_Ret|].
  eapply returns_bind; [by apply handle_inv|]. intros m' [H _]. by apply IH.
Qed.

(** C32: whatever tracks, samples, resets and manual offsets, no call panics,
    the window holds at most 100 drifts, and the status says in sync exactly
    when their average is within the limit.  A sample changes the audio offset
    only by an automatic correction of at most the configured step, recorded as
    such, after at least ten samples, with the correction interval elapsed, the
    drift beyond the limit and the average beyond half of it. *)
Theorem drift_control (cfg : SyncConfig) (id : string) (l : list event) (e : event) :
  0 <= MaxCorrectionStep cfg < 2 ^ 63 ->
  exists m m', run l (NewManager id (Some cfg)) = Ret m /\ handle e m = Ret m' /\
    sync_inv cfg m' /\ event_step cfg e m m'.
Proof.
  intros Hs. destruct (sync_run_inv cfg l (NewManager id (Some cfg))) as (m & E & Hm); [|done|].
  { split; try done; [by left|]. intros [H|(v & H & _)]; [done|done]. }
  destruct (handle_inv cfg e m Hm Hs) as (m' & E' & Hm' & Hst). exists m, m'. by split_and!.
Qed.

(** Video and audio that started together, the audio [lag] behind, one sample of
    each every 20 ms. *)
Definition at_all (t : Z) : clock := mkClock t t t t t t t t t.
Definition behind (lag : Z) (i : Z) : list event :=
  let t := 10 ^ 15 + i * 20 * millisecond in
  [Audio (packet_of [] t (900000 + 1800 * i - (if i =? 0 then 0 else lag * 90)) 0 0) (at_all t);
   Video (frame_of 0 FrameTypeP (900000 + 1800 * i) 0 t) (at_all t)].
Definition drifting (n : nat) : list event :=
  [InitVideo (mkRational 1 90000); InitAudio (mkRational 1 90000)] ++ mjoin (behind 60 ∘ Z.of_nat <$> seq 0 n).

Lemma drift_control_witness :
  exists m m', run (drifting 12) (NewManager "s" (Some DefaultSyncConfig)) = Ret m /\
    handle (Video (frame_of 0 FrameTypeP 921600 0 (10 ^ 15 + 240 * millisecond)) (at_all (10 ^ 15 + 240 * millisecond))) m = Ret m' /\
    sync_inv DefaultSyncConfig m' /\
    event_step DefaultSyncConfig (Video (frame_of 0 FrameTypeP 921600 0 (10 ^ 15 + 240 * millisecond))
      (at_all (10 ^ 15 + 240 * millisecond))) m m'.
Proof. apply (drift_control DefaultSyncConfig "s" (drifting 12)). by vm_compute. Defined.

(** A correction adds to the drift it answers: video ahead lowers the audio
    offset, so audio falls further behind.  Audio 60 ms behind is corrected five
    milliseconds at a time to more than 100 ms behind. *)
Lemma correction_adds ck v a m drift b :
  pts_drift ck v a m = Ret drift -> min_i64 < drift < max_i64 -> min_i64 <= drift + b <= max_i64 ->
  pts_drift ck v a (m <| audioOffset := audioOffset m - b |>) = Ret (drift + b).
Proof.
  unfold pts_drift. destruct (GetPresentationTime _ (at_video ck) v) as [vt| |]; [rewrite !bind_Ret|done|done].
  destruct (GetPresentationTime _ (at_audio ck) a) as [t| |]; [rewrite !bind_Ret|done|done]. cbn.
  unfold time_sub. intros [= <-] H1 H2. f_equal. lia.
Qed.

Example correction_diverges :
  (m ← run (drifting 60) (NewManager "s" None);
   Ret (CurrentDrift (status m) / millisecond, audioOffset m / millisecond)) = Ret (109, -50).
Proof. vm_compute. reflexivity. Qed.
