(* ===== verification/RateLimit.v ===== *)
(** * Rate limiting (ratelimit/ratelimit.go)

    A token bucket, the limit on connections and the allocation of bandwidth.
    The clock is an argument; a wait is the list of what its ticker and its
    context do. *)

From stdpp Require Import strings.
From S2P Require Import Prelude Float64 MapSum.

(** ** Token bucket *)

Record TokenBucket := mkBucket { rate : Z; capacity : Z; tokens : Z; lastRefill : Z }.
#[export] Instance eta_bucket : Eta TokenBucket := fun b => mkBucket (rate b) (capacity b) (tokens b) (lastRefill b).

Definition capacity_for (bytesPerSecond : Z) : Z := if bytesPerSecond <? 1024 then 1024 else bytesPerSecond.
Definition NewTokenBucket (bytesPerSecond now : Z) : TokenBucket :=
  mkBucket bytesPerSecond (capacity_for bytesPerSecond) (capacity_for bytesPerSecond) now.

Definition refill (now : Z) (b : TokenBucket) : TokenBucket :=
  let elapsed := time_sub now (lastRefill b) in
  if elapsed <? millisecond then b
  else
    let newTokens := f64_trunc (f64_mul (seconds_of elapsed) (f64_of_Z (rate b))) in
    if 0 <? newTokens then
      let b := b <| tokens := i64 (tokens b + newTokens) |> in
      let b := if capacity b <? tokens b then b <| tokens := capacity b |> else b in
      b <| lastRefill := now |>
    else b.

Definition Allow (n now : Z) (b : TokenBucket) : TokenBucket * bool :=
  let b := refill now b in
  if n <=? tokens b then (b <| tokens := i64 (tokens b - n) |>, true) else (b, false).

Definition SetRate (bytesPerSecond : Z) (b : TokenBucket) : TokenBucket :=
  let b := b <| rate := bytesPerSecond |> <| capacity := capacity_for bytesPerSecond |> in
  if capacity b <? tokens b then b <| tokens := capacity b |> else b.

(** What happens during a wait: a tick at a time, the end of the context, or a
    call of SetRate by another goroutine. *)
Inductive wait_event : Type := Tick (now : Z) | Cancelled | NewRate (bytesPerSecond : Z).
Inductive allow_error : Type := ExceedsCapacity (n cap : Z) | ContextDone.

(** [None]: still waiting when the events end. *)
Fixpoint wait_loop (n : Z) (evs : list wait_event) (b : TokenBucket) : TokenBucket * option (exn allow_error unit) :=
  match evs with
  | [] => (b, None)
  | Cancelled :: _ => (b, Some (Err ContextDone))
  | NewRate r :: evs => wait_loop n evs (SetRate r b)
  | Tick now :: evs => let '(b, ok) := Allow n now b in if ok then (b, Some (Val tt)) else wait_loop n evs b
  end.
Definition AllowN (n now : Z) (evs : list wait_event) (b : TokenBucket) : TokenBucket * option (exn allow_error unit) :=
  if capacity b <? n then (b, Some (Err (ExceedsCapacity n (capacity b))))
  else let '(b, ok) := Allow n now b in if ok then (b, Some (Val tt)) else wait_loop n evs b.

Definition Rate (b : TokenBucket) : Z := rate b.

(** ** Connections *)

Record ConnectionLimiter := mkConns { maxPerStream : Z; maxTotal : Z; connections : gmap string Z; total : Z }.
#[export] Instance eta_conns : Eta ConnectionLimiter := fun c =>
  mkConns (maxPerStream c) (maxTotal c) (connections c) (total c).
Definition NewConnectionLimiter (perStream all : Z) : ConnectionLimiter := mkConns perStream all ∅ 0.

Definition GetCount (id : string) (c : ConnectionLimiter) : Z := default 0 (connections c !! id).
Definition GetTotal (c : ConnectionLimiter) : Z := total c.
Definition TryAcquire (id : string) (c : ConnectionLimiter) : ConnectionLimiter * bool :=
  if (0 <? maxTotal c) && (maxTotal c <=? total c) then (c, false)
  else
    let current := default 0 (connections c !! id) in
    if (0 <? maxPerStream c) && (maxPerStream c <=? current) then (c, false)
    else (c <| connections := <[id := i64 (current + 1)]> (connections c) |> <| total := i64 (total c + 1) |>, true).
Definition Release (id : string) (c : ConnectionLimiter) : ConnectionLimiter :=
  match connections c !! id with
  | Some count =>
      if 0 <? count then
        let m := if count =? 1 then delete id (connections c) else <[id := count - 1]> (connections c) in
        c <| connections := m |> <| total := i64 (total c - 1) |>
      else c
  | None => c
  end.

(** ** Bandwidth *)

Record BandwidthManager := mkBandwidth {
  totalBandwidth : Z;
  allocations : gmap string Z;
  limiters : gmap string TokenBucket
}.
#[export] Instance eta_bandwidth : Eta BandwidthManager := fun m =>
  mkBandwidth (totalBandwidth m) (allocations m) (limiters m).
Definition NewBandwidthManager (all : Z) : BandwidthManager := mkBandwidth all ∅ ∅.

(** The sum in 64 bits, whose order does not matter. *)
Definition GetAvailableBandwidth (m : BandwidthManager) : Z := i64 (totalBandwidth m - msum (allocations m)).
Definition AllocateBandwidth (id : string) (requested now : Z) (m : BandwidthManager)
    : BandwidthManager * option TokenBucket :=
  if GetAvailableBandwidth m <? requested then (m, None)
  else
    let limiter := NewTokenBucket requested now in
    (m <| allocations := <[id := requested]> (allocations m) |> <| limiters := <[id := limiter]> (limiters m) |>, Some limiter).
Definition ReleaseBandwidth (id : string) (m : BandwidthManager) : BandwidthManager :=
  m <| allocations := delete id (allocations m) |> <| limiters := delete id (limiters m) |>.
Definition GetLimiter (id : string) (m : BandwidthManager) : option TokenBucket := limiters m !! id.

(** ** Tokens stay within the bucket *)

Definition bucket_ok (b : TokenBucket) : Prop := 0 <= tokens b <= capacity b /\ 1024 <= capacity b < 2 ^ 63.

Lemma capacity_range r : r < 2 ^ 63 -> 1024 <= capacity_for r < 2 ^ 63.
Proof. intros. unfold capacity_for. case_bool; zbool; lia. Qed.

Lemma refill_ok now b :
  bucket_ok b -> tokens b + f64_trunc (f64_mul (seconds_of (time_sub now (lastRefill b))) (f64_of_Z (rate b))) < 2 ^ 63 ->
  bucket_ok (refill now b) /\ capacity (refill now b) = capacity b /\ tokens b <= tokens (refill now b).
Proof.
  intros [H1 H2] Hn. unfold refill. case_bool; [done|]. set (n := f64_trunc _) in *. destruct (Z.ltb_spec 0 n); [|done].
  cbn. rewrite i64_id by lia. destruct (Z.ltb_spec (capacity b) (tokens b + n)); cbn; (split; [|split; [done|lia]]);
    split; cbn; lia.
Qed.

(** A bucket grants a request that fits its capacity at the first call that
    finds enough tokens, takes exactly [n], and otherwise takes nothing. *)
Lemma Allow_spec n now b :
  bucket_ok b -> bucket_ok (refill now b) -> 0 <= n ->
  let '(b', ok) := Allow n now b in
  bucket_ok b' /\ ok = (n <=? tokens (refill now b)) /\
  tokens b' = tokens (refill now b) - (if ok then n else 0).
Proof.
  intros _ [H1 H2] Hn. unfold Allow. destruct (Z.leb_spec n (tokens (refill now b))); cbn.
  - rewrite i64_id by lia. split; [|done]. split; cbn; lia.
  - split; [done|]. split; [done|]. lia.
Qed.

Lemma SetRate_ok r b : bucket_ok b -> r < 2 ^ 63 -> bucket_ok (SetRate r b).
Proof.
  intros [H1 H2] Hr. unfold SetRate. pose proof (capacity_range r Hr). cbn.
  destruct (Z.ltb_spec (capacity_for r) (tokens b)); split; cbn; lia.
Qed.

Lemma refill_le now b : tokens b <= capacity b -> tokens (refill now b) <= capacity b /\ capacity (refill now b) = capacity b.
Proof.
  intros H. unfold refill. case_bool; [done|]. set (n := f64_trunc _). destruct (Z.ltb_spec 0 n); [|done]. cbn.
  destruct (Z.ltb_spec (capacity b) (i64 (tokens b + n))); cbn; (split; [lia|done]).
Qed.

(** A wait whose request a call of SetRate has made larger than the capacity is
    not refused any more: no tick ever grants it. *)
Lemma wait_starves n evs b :
  tokens b <= capacity b -> capacity b < n -> Forall (fun e => exists now, e = Tick now) evs ->
  (wait_loop n evs b).2 = None.
Proof.
  intros Hb Hn Hc. revert b Hb Hn. induction Hc as [|e evs [now ->] Hc IH]; intros b Hb Hn; [done|].
  cbn [wait_loop]. unfold Allow. destruct (refill_le now b Hb) as [H1 H2].
  rewrite (proj2 (Z.leb_gt n (tokens (refill now b)))) by lia. apply IH; lia.
Qed.

(** ** Admission *)

Inductive op : Type :=
| Acquire (id : string)
| Drop (id : string)
| Allocate (id : string) (requested now : Z)
| Free (id : string).

Definition state : Type := ConnectionLimiter * BandwidthManager.
Definition op_step (o : op) (s : state) : state * bool :=
  let '(c, m) := s in
  match o with
  | Acquire id => let '(c, ok) := TryAcquire id c in ((c, m), ok)
  | Drop id => ((Release id c, m), true)
  | Allocate id requested now => let '(m, l) := AllocateBandwidth id requested now m in ((c, m), bool_decide (l <> None))
  | Free id => ((c, ReleaseBandwidth id m), true)
  end.
Fixpoint run_ops (l : list op) (s : state) : state := match l with [] => s | o :: l => run_ops l (op_step o s).1 end.

Record admission_ok (perStream all bandwidth : Z) (n : Z) (s : state) : Prop := {
  ad_config : maxPerStream s.1 = perStream /\ maxTotal s.1 = all /\ totalBandwidth s.2 = bandwidth;
  ad_total : total s.1 = msum (connections s.1);
  ad_counts : forall id k, connections s.1 !! id = Some k -> 0 < k <= total s.1 /\ (0 < perStream -> k <= perStream);
  ad_limit : 0 <= total s.1 <= n /\ (0 < all -> total s.1 <= all);
  ad_bandwidth : 0 <= msum (allocations s.2) <= bandwidth /\ forall id r, allocations s.2 !! id = Some r -> 0 <= r;
  ad_limiters : dom (limiters s.2) = dom (allocations s.2)
}.

Definition op_ok (o : op) : Prop := match o with Allocate _ r _ => 0 <= r < 2 ^ 63 | _ => True end.

(** What each operation answers and does. *)
Definition op_answer (perStream all bandwidth : Z) (o : op) (s : state) (r : state * bool) : Prop :=
  match o with
  | Acquire id =>
      r.2 = negb ((0 <? all) && (all <=? total s.1)) && negb ((0 <? perStream) && (perStream <=? GetCount id s.1)) /\
      total r.1.1 = total s.1 + (if r.2 then 1 else 0) /\
      forall k, GetCount k r.1.1 = GetCount k s.1 + (if r.2 && String.eqb k id then 1 else 0)
  | Drop id =>
      total r.1.1 = total s.1 - (if 0 <? GetCount id s.1 then 1 else 0) /\
      forall k, GetCount k r.1.1 = GetCount k s.1 - (if (0 <? GetCount id s.1) && String.eqb k id then 1 else 0)
  | Allocate id req now =>
      r.2 = (msum (allocations s.2) + req <=? bandwidth) /\
      allocations r.1.2 = (if r.2 then <[id := req]> (allocations s.2) else allocations s.2)
  | Free id => allocations r.1.2 = delete id (allocations s.2)
  end.

Lemma acquire_ok perStream all bandwidth n c m id :
  admission_ok perStream all bandwidth n (c, m) -> n + 1 < 2 ^ 62 ->
  admission_ok perStream all bandwidth (n + 1) (op_step (Acquire id) (c, m)).1 /\
  op_answer perStream all bandwidth (Acquire id) (c, m) (op_step (Acquire id) (c, m)).
Proof.
  intros [(C1 & C2 & C3) Ht Hc [Hl1 Hl2] Hb Hd] Hn. cbn in *. unfold TryAcquire, GetCount. rewrite C1, C2.
  assert (admission_ok perStream all bandwidth (n + 1) (c, m)) as Hsame by (split; try done; cbn; lia).
  destruct ((0 <? all) && (all <=? total c)) eqn:E1; cbn [negb andb].
  { split; [exact Hsame|]. cbn. split_and!; try done; [lia|]. intros k. lia. }
  destruct ((0 <? perStream) && (perStream <=? default 0 (connections c !! id))) eqn:E2; cbn [negb andb].
  { split; [exact Hsame|]. cbn. split_and!; try done; [lia|]. intros k. lia. }
  set (k0 := default 0 (connections c !! id)) in *.
  assert (0 <= k0 <= total c /\ (0 < perStream -> k0 + 1 <= perStream)) as [Hk Hp].
  { split; [|intros Hp; rewrite (proj2 (Z.ltb_lt _ _)) in E2 by lia; cbn in E2; apply Z.leb_gt in E2; lia].
    subst k0. destruct (connections c !! id) as [k|] eqn:Ek; cbn; [|lia]. destruct (Hc _ _ Ek). lia. }
  assert (0 < all -> total c + 1 <= all) as Ha
    by (intros Ha; rewrite (proj2 (Z.ltb_lt _ _)) in E1 by lia; cbn in E1; apply Z.leb_gt in E1; lia).
  rewrite !i64_id by lia. split.
  - split; cbn; try done; [rewrite msum_insert; fold k0; lia| |lia].
    intros id' k Hk'. apply lookup_insert_Some in Hk' as [[<- <-]|[_ Hk']]; [lia|]. destruct (Hc _ _ Hk'). lia.
  - cbn. split; [done|]. split; [done|]. intros k. destruct (String.eqb_spec k id) as [->|Hne].
    + by rewrite lookup_insert_eq.
    + rewrite lookup_insert_ne by done. lia.
Qed.

Lemma release_ok perStream all bandwidth n c m id :
  admission_ok perStream all bandwidth n (c, m) -> n + 1 < 2 ^ 62 ->
  admission_ok perStream all bandwidth (n + 1) (op_step (Drop id) (c, m)).1 /\
  op_answer perStream all bandwidth (Drop id) (c, m) (op_step (Drop id) (c, m)).
Proof.
  intros [(C1 & C2 & C3) Ht Hc [Hl1 Hl2] Hb Hd] Hn. cbn in *. unfold Release, GetCount.
  destruct (connections c !! id) as [k0|] eqn:Ek; cbn.
  2: { split; [split; try done; cbn; lia|]. split; [lia|]. intros k. lia. }
  destruct (Hc _ _ Ek) as [Hk Hp]. rewrite (proj2 (Z.ltb_lt 0 k0)) by lia. cbn. rewrite i64_id by lia.
  set (mm := if k0 =? 1 then _ else _).
  assert (msum mm = msum (connections c) - 1) as Hsum.
  { subst mm. destruct (Z.eqb_spec k0 1); [rewrite msum_delete|rewrite msum_insert]; rewrite Ek; cbn; lia. }
  assert (forall k, default 0 (mm !! k) = default 0 (connections c !! k) - (if String.eqb k id then 1 else 0)) as Hget.
  { intros k. subst mm. destruct (String.eqb_spec k id) as [->|Hne]; destruct (Z.eqb_spec k0 1);
      rewrite ?lookup_delete_eq, ?lookup_insert_eq, ?lookup_delete_ne, ?lookup_insert_ne, ?Ek by done; cbn; lia. }
  assert (forall id' k, mm !! id' = Some k -> 0 < k /\ (0 < perStream -> k <= perStream)) as Hmm.
  { intros id' k Hk'. subst mm. destruct (Z.eqb_spec k0 1).
    - apply lookup_delete_Some in Hk' as [_ Hk']. destruct (Hc _ _ Hk'). split; [lia|done].
    - apply lookup_insert_Some in Hk' as [[<- <-]|[_ Hk']]; [lia|]. destruct (Hc _ _ Hk'). split; [lia|done]. }
  destruct (msum_bounds mm) as [_ Hle]; [intros id' k Hk'; by destruct (Hmm _ _ Hk'); lia|]. clearbody mm. split.
  - split; cbn; try done; [lia| |lia]. intros id' k Hk'. destruct (Hmm _ _ Hk'). pose proof (Hle _ _ Hk'). lia.
  - done.
Qed.

Lemma allocate_ok perStream all bandwidth n c m id r now :
  admission_ok perStream all bandwidth n (c, m) -> bandwidth < 2 ^ 63 -> 0 <= r < 2 ^ 63 ->
  admission_ok perStream all bandwidth n (op_step (Allocate id r now) (c, m)).1 /\
  op_answer perStream all bandwidth (Allocate id r now) (c, m) (op_step (Allocate id r now) (c, m)).
Proof.
  intros [(C1 & C2 & C3) Ht Hc [Hl1 Hl2] [Hb Hr] Hd] Hn H0. cbn in *. unfold AllocateBandwidth, GetAvailableBandwidth.
  rewrite C3, i64_id by lia. destruct (Z.ltb_spec (bandwidth - msum (allocations m)) r); cbn.
  - split; [by split|]. rewrite (proj2 (Z.leb_gt _ _)) by lia. done.
  - rewrite (proj2 (Z.leb_le _ _)) by lia. split; [|done]. split; cbn; try done; [|by rewrite !dom_insert_L, Hd].
    rewrite msum_insert. assert (0 <= default 0 (allocations m !! id) <= msum (allocations m)).
    { destruct (msum_bounds (allocations m) Hr) as [? Hle]. destruct (allocations m !! id) as [x|] eqn:E; cbn; [|lia].
      pose proof (Hr _ _ E). pose proof (Hle _ _ E). lia. }
    split; [lia|]. intros id' x Hx. apply lookup_insert_Some in Hx as [[_ <-]|[_ Hx]]; [lia|by eapply Hr].
Qed.

Lemma free_ok perStream all bandwidth n c m id :
  admission_ok perStream all bandwidth n (c, m) ->
  admission_ok perStream all bandwidth n (op_step (Free id) (c, m)).1.
Proof.
  intros [(C1 & C2 & C3) Ht Hc [Hl1 Hl2] [Hb Hr] Hd]. split; cbn in *; try done; [|by rewrite !dom_delete_L, Hd].
  rewrite msum_delete. destruct (msum_bounds (allocations m) Hr) as [? Hle].
  assert (0 <= default 0 (allocations m !! id) <= msum (allocations m)).
  { destruct (allocations m !! id) as [x|] eqn:E; cbn; [|lia]. pose proof (Hr _ _ E). pose proof (Hle _ _ E). lia. }
  split; [lia|]. intros id' x Hx. apply lookup_delete_Some in Hx as [_ Hx]. by eapply Hr.
Qed.

Lemma op_step_ok perStream all bandwidth n o s :
  admission_ok perStream all bandwidth n s -> n + 1 < 2 ^ 62 -> bandwidth < 2 ^ 63 -> op_ok o ->
  admission_ok perStream all bandwidth (n + 1) (op_step o s).1 /\ op_answer perStream all bandwidth o s (op_step o s).
Proof.
  intros Hs Hn Hb Ho. destruct s as [c m].
  assert (forall s, admission_ok perStream all bandwidth n s -> admission_ok perStream all bandwidth (n + 1) s) as Hup
    by (intros s [? ? ? ? ? ?]; split; try done; lia).
  destruct o as [id|id|id r now|id].
  - by apply acquire_ok.
  - by apply release_ok.
  - destruct (allocate_ok perStream all bandwidth n c m id r now Hs Hb Ho) as [H1 H2]. split; [by apply Hup|done].
  - split; [by apply Hup, free_ok|done].
Qed.

(** whatever the order of acquisitions, releases, allocations and frees,
    the total is the sum of the streams' counts, no limit is exceeded, and the
    bandwidth allocated stays within the total; a connection is granted exactly
    when it fits both limits, a release gives back one slot of its stream if it
    has one, and an allocation is granted exactly when it fits what is left. *)
Theorem admission_limits (perStream all bandwidth : Z) (l : list op) (o : op) :
  0 <= bandwidth < 2 ^ 63 -> len l + 1 < 2 ^ 62 -> Forall op_ok (l ++ [o]) ->
  let s := run_ops l (NewConnectionLimiter perStream all, NewBandwidthManager bandwidth) in
  admission_ok perStream all bandwidth (len l) s /\
  op_answer perStream all bandwidth o s (op_step o s).
Proof.
  intros Hb Hl Ho s. apply Forall_app in Ho as [Hos Ho]. apply Forall_inv in Ho.
  assert (forall n s0, admission_ok perStream all bandwidth n s0 -> n + len l < 2 ^ 62 ->
    admission_ok perStream all bandwidth (n + len l) (run_ops l s0)) as Hrun.
  { clear s Hl. induction Hos as [|o' l Ho' _ IH]; intros n s0 Hs Hn.
    - rewrite (@len_nil op), Z.add_0_r. done.
    - rewrite len_cons in *. pose proof (len_nonneg l). cbn [run_ops]. rewrite Z.add_assoc. apply IH; [|lia].
      apply op_step_ok; [done|lia|lia|done]. }
  assert (admission_ok perStream all bandwidth (len l) s) as Hs.
  { apply (Hrun 0); [|lia]. split; cbn; rewrite ?msum_empty; try done; [lia|].
    split; [lia|]. intros id r. by rewrite lookup_empty. }
  split; [done|]. by apply (op_step_ok perStream all bandwidth (len l)); [|lia|lia|].
Qed.

Lemma admission_limits_witness :
  let s := run_ops [Acquire "a"; Acquire "a"; Acquire "b"; Drop "a"; Allocate "a" 700 0; Allocate "b" 400 0]
             (NewConnectionLimiter 1 2, NewBandwidthManager 1000) in
  admission_ok 1 2 1000 6 s /\ op_answer 1 2 1000 (Acquire "a") s (op_step (Acquire "a") s) /\
  (op_step (Acquire "a") s).2 = true /\ allocations s.2 = {["a" := 700]}.
Proof.
  destruct (admission_limits 1 2 1000
    [Acquire "a"; Acquire "a"; Acquire "b"; Drop "a"; Allocate "a" 700 0; Allocate "b" 400 0] (Acquire "a")) as [H1 H2];
    [lia|done|by repeat constructor|]. split; [exact H1|]. split; [exact H2|]. by vm_compute.
Defined.
