(* ===== verification/Reconnect.v ===== *)
(** * Reconnection (reconnect/reconnect.go)

    The two back-off strategies behind one interface, and the manager whose
    goroutines attempt connections.  What a connection attempt answers, which
    ready case a [select] takes and the random jitter label the steps. *)

From S2P Require Import Prelude Float64.

(** ** Strategies *)

Class Strategy (S : Type) := {
  NextDelay : float64 -> S -> S * (Z * bool);
  Reset : S -> S;
  retries : S -> Z;
  max_retries : S -> Z
}.

Record ExponentialBackoff := mkExp {
  InitialDelay : Z;
  MaxDelay : Z;
  Multiplier : float64;
  MaxRetries : Z;
  currentDelay : Z;
  retryCount : Z
}.
#[export] Instance eta_exp : Eta ExponentialBackoff := fun e =>
  mkExp (InitialDelay e) (MaxDelay e) (Multiplier e) (MaxRetries e) (currentDelay e) (retryCount e).
Definition NewExponentialBackoff (initialDelay maxDelay : Z) (multiplier : float64) (maxRetries : Z) : ExponentialBackoff :=
  mkExp initialDelay maxDelay multiplier maxRetries initialDelay 0.

(** [r] is the random number of the jitter. *)
Definition exp_NextDelay (r : float64) (e : ExponentialBackoff) : ExponentialBackoff * (Z * bool) :=
  if (0 <? MaxRetries e) && (MaxRetries e <=? retryCount e) then (e, (0, false))
  else
    let jitterFloat := f64_add (f64_dec 8 1) (f64_mul (f64_dec 4 1) r) in
    let delay := f64_trunc (f64_mul (f64_of_Z (currentDelay e)) jitterFloat) in
    let e := e <| currentDelay := f64_trunc (f64_mul (f64_of_Z (currentDelay e)) (Multiplier e)) |> in
    let e := if MaxDelay e <? currentDelay e then e <| currentDelay := MaxDelay e |> else e in
    (e <| retryCount := i64 (retryCount e + 1) |>, (delay, true)).
Definition exp_Reset (e : ExponentialBackoff) : ExponentialBackoff :=
  e <| currentDelay := InitialDelay e |> <| retryCount := 0 |>.
#[export] Instance exp_strategy : Strategy ExponentialBackoff := {
  NextDelay := exp_NextDelay; Reset := exp_Reset; retries := retryCount; max_retries := MaxRetries }.

Record LinearBackoff := mkLinear { Delay : Z; lin_MaxRetries : Z; lin_retryCount : Z }.
#[export] Instance eta_linear : Eta LinearBackoff := fun l => mkLinear (Delay l) (lin_MaxRetries l) (lin_retryCount l).
Definition NewLinearBackoff (delay maxRetries : Z) : LinearBackoff := mkLinear delay maxRetries 0.
Definition lin_NextDelay (_ : float64) (l : LinearBackoff) : LinearBackoff * (Z * bool) :=
  if (0 <? lin_MaxRetries l) && (lin_MaxRetries l <=? lin_retryCount l) then (l, (0, false))
  else (l <| lin_retryCount := i64 (lin_retryCount l + 1) |>, (Delay l, true)).
Definition lin_Reset (l : LinearBackoff) : LinearBackoff := l <| lin_retryCount := 0 |>.
#[export] Instance linear_strategy : Strategy LinearBackoff := {
  NextDelay := lin_NextDelay; Reset := lin_Reset; retries := lin_retryCount; max_retries := lin_MaxRetries }.

(** [math.Pow] of 2 is exact. *)
Definition calculateBackoff (attempt base max : Z) : Z :=
  if attempt <=? 0 then base
  else let backoff := i64 (base * f64_trunc (f64_of_Z (2 ^ (attempt - 1)))) in if max <? backoff then max else backoff.

(** What a strategy promises the manager: while retries are left it goes on and
    counts one, afterwards it gives up; a reset starts again. *)
Class LawfulStrategy (S : Type) `{Strategy S} : Prop := {
  next_more r s : 0 <= retries s < 2 ^ 62 -> (max_retries s <= 0 \/ retries s < max_retries s) ->
    (NextDelay r s).2.2 = true /\ retries (NextDelay r s).1 = retries s + 1 /\ max_retries (NextDelay r s).1 = max_retries s;
  next_over r s : 0 < max_retries s <= retries s -> NextDelay r s = (s, (0, false));
  reset_law s : retries (Reset s) = 0 /\ max_retries (Reset s) = max_retries s
}.
#[export] Instance exp_lawful : LawfulStrategy ExponentialBackoff.
Proof.
  split; cbn; unfold exp_NextDelay.
  - intros r e H1 H2. destruct (_ && _) eqn:E; [apply andb_true_iff in E as [? ?]; zbool; lia|]. cbv zeta.
    split; [done|]. set (e1 := upd currentDelay _ e). assert (retryCount e1 = retryCount e /\ MaxRetries e1 = MaxRetries e) as [E1 E2] by done.
    clearbody e1. destruct (MaxDelay e1 <? currentDelay e1); cbn; rewrite E1, E2, i64_id by lia; done.
  - intros r e H. by rewrite (proj2 (Z.ltb_lt _ _)), (proj2 (Z.leb_le _ _)) by lia.
  - done.
Qed.
#[export] Instance linear_lawful : LawfulStrategy LinearBackoff.
Proof.
  split; cbn; unfold lin_NextDelay.
  - intros r e H1 H2. destruct (_ && _) eqn:E; [apply andb_true_iff in E as [? ?]; zbool; lia|]. cbn. by rewrite i64_id by lia.
  - intros r e H. by rewrite (proj2 (Z.ltb_lt _ _)), (proj2 (Z.leb_le _ _)) by lia.
  - done.
Qed.

(** The delay of the exponential strategy never grows past its limit. *)
Lemma exp_delay_bound r e :
  currentDelay e <= MaxDelay e -> currentDelay (exp_NextDelay r e).1 <= MaxDelay e.
Proof.
  intros H. unfold exp_NextDelay. case_bool; [done|]. set (d := f64_trunc (f64_mul _ (Multiplier e))). cbn.
  destruct (Z.ltb_spec (MaxDelay e) d); cbn; lia.
Qed.

(** ** The manager *)

Inductive pc : Type := Top | Connecting | Waiting (ch : nat) | Returned.
Definition is_returned (p : pc) : bool := match p with Returned => true | _ => false end.
Inductive note : Type := NSuccess | NFailure.

Record Manager (S : Type) := mkManager {
  strategy : S;
  has_connect : bool;
  running : bool;
  stopCh : nat;
  closed_upto : nat -> bool;
  ctx_done : nat -> bool;
  loops : list (nat * pc);
  notes : list note
}.
Arguments mkManager {S}. Arguments strategy {S}. Arguments has_connect {S}. Arguments running {S}. Arguments stopCh {S}.
Arguments closed_upto {S}. Arguments ctx_done {S}. Arguments loops {S}. Arguments notes {S}.
#[export] Instance eta_rmanager {S} : Eta (Manager S) := fun m =>
  mkManager (strategy m) (has_connect m) (running m) (stopCh m) (closed_upto m) (ctx_done m) (loops m) (notes m).

(** Contexts and stop channels are numbered; a goroutine has the context of the
    [Start] that began it.  What it meets next: nothing stopped, an end seen by its [select],
    the answer of an attempt with its jitter, the timer. *)
Inductive turn : Type := Continue | SeeStop | Connected | Refused (r : float64) | Timer.

Section manager.
Context {S : Type} `{Strategy S}.

Definition NewManager (s : S) : Manager S := mkManager s false false 0 (fun _ => false) (fun _ => false) [] [].
Definition SetCallbacks (connect : bool) (m : Manager S) : Manager S := m <| has_connect := connect |>.

(** Start makes the next stop channel. *)
Definition Start (ctx : nat) (m : Manager S) : Manager S :=
  if running m then m
  else if negb (has_connect m) then m
  else m <| running := true |> <| stopCh := Datatypes.S (stopCh m) |> <| loops := loops m ++ [(ctx, Top)] |>.
Definition Stop (m : Manager S) : Manager S :=
  if negb (running m) then m
  else m <| running := false |> <| closed_upto := fun c => bool_decide (c = stopCh m) || closed_upto m c |>.

Definition stopped (ctx ch : nat) (m : Manager S) : bool := ctx_done m ctx || closed_upto m ch.

(** One step of the goroutine at [p]; [None] when it cannot take this turn. *)
Definition loop_step (ctx : nat) (p : pc) (t : turn) (m : Manager S) : option (pc * Manager S) :=
  match p, t with
  | Top, Continue => if stopped ctx (stopCh m) m then None else Some (Connecting, m)
  | Top, SeeStop => if stopped ctx (stopCh m) m then Some (Returned, m <| running := false |>) else None
  | Connecting, Connected =>
      Some (Returned, m <| strategy := Reset (strategy m) |> <| notes := notes m ++ [NSuccess] |> <| running := false |>)
  | Connecting, Refused r =>
      let '(s, (delay, shouldRetry)) := NextDelay r (strategy m) in
      let m := m <| strategy := s |> in
      Some (if shouldRetry : bool then (Waiting (stopCh m), m)
            else (Returned, m <| notes := notes m ++ [NFailure] |> <| running := false |>))
  | Waiting ch, Timer => Some (Top, m)
  | Waiting ch, SeeStop => if stopped ctx ch m then Some (Returned, m <| running := false |>) else None
  | _, _ => None
  end.

(** The manager's steps: its methods, its contexts, its goroutines. *)
Inductive action : Type := DoStart (ctx : nat) | DoStop | CtxDone (ctx : nat) | Go (i : nat) (t : turn).
Definition act (a : action) (m : Manager S) : option (Manager S) :=
  match a with
  | DoStart ctx => Some (Start ctx m)
  | DoStop => Some (Stop m)
  | CtxDone ctx => Some (m <| ctx_done := fun c => bool_decide (c = ctx) || ctx_done m c |>)
  | Go i t =>
      '(ctx, p) ← loops m !! i;
      '(p, m') ← loop_step ctx p t m;
      Some (m' <| loops := <[i := (ctx, p)]> (loops m') |>)
  end.
Fixpoint acts (l : list action) (m : Manager S) : option (Manager S) :=
  match l with [] => Some m | a :: l => m ← act a m; acts l m end.

End manager.

(** ** Every reconnection ends *)

Definition is_go (a : action) : bool := match a with Go _ _ => true | _ => false end.
Definition is_refusal (a : action) : bool := match a with Go _ (Refused _) => true | _ => false end.
Definition is_start (a : action) : bool := match a with DoStart _ => true | _ => false end.
Definition count (f : action -> bool) (l : list action) : Z := len (filter (fun a => f a = true) l).
(** The steps of goroutines, and the refused attempts among them. *)
Definition turns : list action -> Z := count is_go.
Definition refusals : list action -> Z := count is_refusal.

Lemma action_count_cons f a l : count f (a :: l) = (if f a then 1 else 0) + count f l.
Proof. unfold count. rewrite filter_cons. destruct (f a); case_decide; try done. by rewrite len_cons. Qed.

Section live.
Context {S : Type} `{LawfulStrategy S}.

(** No goroutine is left, and the next channel is open. *)
Record idle (m : Manager S) : Prop := {
  id_connect : has_connect m = true;
  id_running : running m = false;
  id_loops : Forall (fun g => g.2 = Returned) (loops m);
  id_fresh : forall c, (stopCh m < c)%nat -> closed_upto m c = false
}.

(** The steps a goroutine has left, with [n] retries to go. *)
Definition steps_left (p : pc) (n : Z) : Z :=
  match p with Top => 3 * n + 2 | Connecting => 3 * n + 1 | Waiting _ => 3 * n + 3 | Returned => 0 end.

Section one.
Context (old : list (nat * pc)) (ctx : nat) (ns : list note) (n : Z).
Hypothesis Hold : Forall (fun g => g.2 = Returned) old.
Hypothesis Hn : 0 < n < 2 ^ 60.

(** What stays as it is next to the goroutine at [p]. *)
Record beside (p : pc) (m : Manager S) : Prop := {
  be_loops : loops m = old ++ [(ctx, p)];
  be_connect : has_connect m = true;
  be_fresh c : (stopCh m < c)%nat -> closed_upto m c = false;
  be_max : max_retries (strategy m) = n
}.
(** The goroutine goes on, after [k] retries. *)
Record live (k : Z) (p : pc) (m : Manager S) : Prop := {
  lv_beside : beside p m;
  lv_pc : p <> Returned;
  lv_retries : retries (strategy m) = k;
  lv_notes : notes m = ns;
  lv_channel ch : p = Waiting ch -> ch = stopCh m
}.
Record over (m : Manager S) : Prop := {
  ov_beside : beside Returned m;
  ov_running : running m = false
}.
(** How it ended, the attempt [a] being the last. *)
Definition ended (m0 m : Manager S) (a : action) : Prop :=
  notes m = ns ++ [NSuccess] /\ retries (strategy m) = 0 /\ is_refusal a = false \/
  notes m = ns ++ [NFailure] /\ n <= retries (strategy m0) /\ strategy m = strategy m0 /\ is_refusal a = true \/
  notes m = ns /\ strategy m = strategy m0 /\ is_refusal a = false /\ stopped ctx (stopCh m0) m0 = true.

Definition to_go (k : Z) : Z := Z.max 0 (n - k).

Lemma only_one p m i x : beside p m -> loops m !! i = Some x -> x.2 <> Returned -> i = length old /\ x = (ctx, p).
Proof.
  intros [-> _ _ _] Hi Hx. apply lookup_app_Some in Hi as [Hi|[Hi E]].
  - destruct Hx. by apply (Forall_lookup_1 _ _ _ _ Hold Hi).
  - apply list_lookup_singleton_Some in E as [E1 E2]. split; [lia|congruence].
Qed.

(** A step that is neither the goroutine's nor a [Start]. *)
Lemma other_step a m m' :
  is_go a = false -> is_start a = false -> act a m = Some m' ->
  loops m' = loops m /\ has_connect m' = has_connect m /\ stopCh m' = stopCh m /\ strategy m' = strategy m /\ notes m' = notes m /\
  (running m = false -> running m' = false) /\
  (forall c, (stopCh m < c)%nat -> closed_upto m c = false -> closed_upto m' c = false).
Proof.
  intros Hg Hs Ha. destruct a as [c| |c|i t]; try done; cbn [act] in Ha; injection Ha as <-; [|done]. unfold Stop. destruct (running m) eqn:E; [|done].
  cbn. split_and!; try done. intros c Hc ->. by rewrite bool_decide_false by lia.
Qed.
Lemma beside_other a p m m' : is_go a = false -> is_start a = false -> act a m = Some m' -> beside p m -> beside p m'.
Proof.
  intros Hg Hs Ha [B1 B2 B3 B4]. destruct (other_step _ _ _ Hg Hs Ha) as (E1 & E2 & E3 & E4 & _ & _ & E7).
  split; [congruence|congruence| |congruence]. rewrite E3. auto.
Qed.

Lemma beside_go p p' m m1 m2 :
  beside p m -> loops m1 = loops m -> has_connect m1 = has_connect m -> stopCh m1 = stopCh m -> closed_upto m1 = closed_upto m ->
  max_retries (strategy m1) = n -> m2 = m1 <| loops := <[length old := (ctx, p')]> (loops m1) |> -> beside p' m2.
Proof.
  intros [B1 B2 B3 B4] E1 E2 E3 E4 E5 ->. split; cbn; [|congruence| |done].
  - rewrite E1, B1. by rewrite insert_app_r_alt, Nat.sub_diag by lia.
  - rewrite E3, E4. apply B3.
Qed.

Lemma live_step k p m a m' :
  0 <= k -> live k p m -> is_start a = false -> act a m = Some m' ->
  (exists k' p', live k' p' m' /\ k' = k + (if is_refusal a then 1 else 0) /\ (is_refusal a = true -> k < n) /\
     steps_left p' (to_go k') + (if is_go a then 1 else 0) <= steps_left p (to_go k)) \/
  over m' /\ ended m m' a /\ (if is_go a then 1 else 0) <= steps_left p (to_go k).
Proof.
  intros Hk [B P1 P2 P3 P4] Hs Ha. destruct (is_go a) eqn:Hg.
  2: { left. exists k, p. destruct (other_step _ _ _ Hg Hs Ha) as (E1 & E2 & E3 & E4 & E5 & _).
       split; [split; [by eapply beside_other|done|congruence|congruence|intros ch ->; rewrite E3; by apply P4]|]. destruct a; try done; cbn; split; (done || lia). }
  destruct a as [| | |i t]; try done. cbn [act] in Ha. destruct (loops m !! i) as [[c q]|] eqn:Hi; [|done].
  cbn [mbind option_bind] in Ha. destruct (loop_step c q t m) as [[p' m1]|] eqn:Hl; [|done]. cbn [mbind option_bind] in Ha.
  injection Ha as E. assert (q <> Returned) as Hq by (by destruct q).
  destruct (only_one p m i _ B Hi Hq) as [-> [= -> ->]]. pose proof (be_max _ _ B) as Hm.
  assert (forall m1 p', loops m1 = loops m -> has_connect m1 = has_connect m -> stopCh m1 = stopCh m -> closed_upto m1 = closed_upto m ->
    max_retries (strategy m1) = n -> beside p' (m1 <| loops := <[length old := (ctx, p')]> (loops m1) |>)) as Hb
    by (intros; by eapply beside_go). clear Hi Hq.
  unfold loop_step in Hl. destruct p as [| |ch|], t as [| | |r|]; try done.
  - destruct (stopped ctx (stopCh m) m); [done|]. injection Hl as <- <-. subst m'. left. exists k, Connecting.
    split; [by split; [apply Hb|..]|]. cbn. split; [lia|]. split; [done|lia].
  - destruct (stopped ctx (stopCh m) m) eqn:Hst; [|done]. injection Hl as <- <-. subst m'. right.
    split; [by split; [apply Hb|]|]. split; [|unfold to_go; cbn; lia]. right. right. cbn. eauto.
  - injection Hl as <- <-. subst m'. right. destruct (reset_law (strategy m)) as [R1 R2].
    split; [split; [apply Hb; try done; cbn; by rewrite R2|done]|]. split; [|unfold to_go; cbn; lia]. left. cbn. by rewrite P3.
  - destruct (Z.le_gt_cases n k) as [Hle|Hlt].
    + rewrite next_over in Hl by lia. injection Hl as <- <-. subst m'. right.
      split; [by split; [apply Hb|]|]. split; [|unfold to_go; cbn; lia]. right. left. cbn. rewrite P3. split_and!; (done || lia).
    + destruct (next_more r (strategy m) ltac:(rewrite P2; pow_consts; lia) ltac:(rewrite P2, Hm; lia)) as (N1 & N2 & N3).
      destruct (NextDelay r (strategy m)) as [s [d b]]. cbn in N1, N2, N3. subst b. injection Hl as <- <-. subst m'. left.
      exists (k + 1), (Waiting (stopCh m)). split; [split; [apply Hb; try done; cbn; congruence|done|cbn; lia|done|by intros ch [= <-]]|].
      cbn. split; [lia|]. split; [done|]. unfold to_go. lia.
  - destruct (stopped ctx ch m) eqn:Hst; [|done]. rewrite (P4 ch eq_refl) in Hst. injection Hl as <- <-. subst m'. right.
    split; [by split; [apply Hb|]|]. split; [|unfold to_go; cbn; lia]. right. right. cbn. eauto.
  - injection Hl as <- <-. subst m'. left. exists k, Top. split; [by split; [apply Hb|..]|]. cbn. split; [lia|]. split; [done|lia].
Qed.

Lemma over_run l m m' :
  over m -> Forall (fun a => is_start a = false) l -> acts l m = Some m' ->
  over m' /\ turns l = 0 /\ refusals l = 0 /\ strategy m' = strategy m /\ notes m' = notes m.
Proof.
  intros Hm Hl. revert m Hm. induction Hl as [|a l Ha Hl IH]; intros m [B R] Hr; cbn [acts] in Hr; [by injection Hr as <-|].
  destruct (act a m) as [m1|] eqn:E; [|done]. cbn [mbind option_bind] in Hr. destruct (is_go a) eqn:Hg.
  - destruct a as [| | |i t]; try done. cbn [act] in E. destruct (loops m !! i) as [[c q]|] eqn:Hi; [|done]. cbn in E.
    assert (q = Returned) as -> by (by destruct q; [destruct (only_one _ _ _ _ B Hi)..|]). by destruct t.
  - destruct (other_step _ _ _ Hg Ha E) as (_ & _ & _ & E4 & E5 & E6 & _).
    destruct (IH m1) as (? & T & F & ? & ?); [by split; [eapply beside_other|auto]|done|]. unfold turns, refusals in *.
    rewrite !action_count_cons, Hg, T, F. destruct a; try done; (split; [done|]); repeat split; congruence.
Qed.

Lemma live_run k p l m m' :
  0 <= k -> live k p m -> Forall (fun a => is_start a = false) l -> acts l m = Some m' ->
  (exists k' p', live k' p' m' /\ turns l + steps_left p' (to_go k') <= steps_left p (to_go k)) \/
  over m' /\ turns l <= steps_left p (to_go k) /\
  (notes m' = ns ++ [NSuccess] /\ retries (strategy m') = 0 \/
   notes m' = ns ++ [NFailure] /\ refusals l = to_go k + 1 /\ n <= retries (strategy m') \/
   notes m' = ns /\ exists l' m1, l' `prefix_of` l /\ acts l' m = Some m1 /\ stopped ctx (stopCh m1) m1 = true).
Proof.
  intros Hk Hm Hl. revert k p m Hk Hm. induction Hl as [|a l Ha Hl IH]; intros k p m Hk Hm Hr; cbn [acts] in Hr.
  { injection Hr as <-. left. exists k, p. split; [done|]. change (turns []) with 0. lia. }
  destruct (act a m) as [m1|] eqn:E; [|done]. cbn [mbind option_bind] in Hr. unfold turns, refusals in *. rewrite !action_count_cons.
  destruct (live_step k p m a m1 Hk Hm Ha E) as [(k1 & p1 & Hm1 & -> & Hlt & Hs)|(Ho & He & Hs)].
  - assert (0 <= k + (if is_refusal a then 1 else 0)) as Hk1 by (destruct (is_refusal a); lia).
    destruct (IH _ _ _ Hk1 Hm1 Hr) as [(k' & p' & ? & ?)|(Ho & Ht & Hend)].
    + left. exists k', p'. split; [done|lia].
    + right. split; [done|]. split; [lia|]. destruct Hend as [He|[(He & Hf & Hn')|(He & l' & m2 & Hp & Hrun & Hst)]]; [by left| |].
      * right. left. split; [done|]. split; [|done]. unfold to_go in *. destruct (is_refusal a); [specialize (Hlt eq_refl)|]; lia.
      * right. right. split; [done|]. exists (a :: l'), m2. split; [by apply prefix_cons|]. split; [|done]. cbn [acts]. by rewrite E.
  - destruct (over_run l m1 m' Ho Hl Hr) as (Ho' & Ht & Hf & Es & En). unfold turns, refusals in *. right. split; [done|].
    rewrite Ht, Hf, Es, En. split; [lia|]. pose proof (lv_retries _ _ _ Hm) as Hret.
    destruct He as [(? & ? & ?)|[(? & ? & Em & ->)|(? & ? & ? & ?)]].
    + by left.
    + right. left. rewrite Em. unfold to_go. split_and!; (done || lia).
    + right. right. split; [done|]. exists [], m. by split; [apply prefix_nil|].
Qed.

Lemma ends_open p m : beside p m -> p <> Returned -> exists t, is_Some (act (Go (length old) t) m).
Proof.
  intros [B1 _ _ _] Hp. cbn [act].
  assert (loops m !! length old = Some (ctx, p)) as -> by (rewrite B1; by apply list_lookup_middle). cbn [mbind option_bind].
  destruct p as [| |ch|]; [|by exists Connected; eexists|by exists Timer; eexists|done].
  destruct (stopped ctx (stopCh m) m) eqn:E; [exists SeeStop|exists Continue]; unfold loop_step; rewrite E; by eexists.
Qed.
End one.

(** Nothing stops a goroutine but [Stop] and the end of its context. *)
Lemma stopped_by ctx l m m' :
  Forall (fun a => is_start a = false) l -> acts l m = Some m' -> stopped ctx (stopCh m') m' = true ->
  stopped ctx (stopCh m) m = true \/ DoStop ∈ l \/ CtxDone ctx ∈ l.
Proof.
  intros Hl. revert m. induction Hl as [|a l Ha Hl IH]; intros m Hr Hst; cbn [acts] in Hr; [injection Hr as <-; by left|].
  destruct (act a m) as [m1|] eqn:E; [|done]. cbn [mbind option_bind] in Hr.
  destruct (IH m1 Hr Hst) as [H1|[H1|H1]]; [|right; left; by right|right; right; by right].
  destruct a as [c| |c|i t]; [done|right; left; by left| |].
  - cbn [act] in E. injection E as <-. unfold stopped in *. cbn in H1. destruct (decide (ctx = c)) as [->|Hne]; [right; right; by left|].
    rewrite bool_decide_false in H1 by done. by left.
  - left. cbn [act] in E. destruct (loops m !! i) as [[c q]|]; [|done]. cbn [mbind option_bind] in E.
    destruct (loop_step c q t m) as [[p' m2]|] eqn:Hs; [|done]. cbn [mbind option_bind] in E. injection E as <-. cbn in H1.
    rewrite <- H1. unfold stopped, loop_step in *. destruct q, t; try done; repeat case_match; by simplify_eq.
Qed.

(** C31: let a manager on which no goroutine is left be started, with any
    strategy that keeps its promise and at most [n > 0] retries, of which [k] are
    used, and let [Stop], the ends of contexts and the goroutine be interleaved in
    any way.  The goroutine takes at most [3 max (0, n - k) + 2] steps, whatever
    the attempts answer, and can take one until it has returned; then no goroutine
    is left and the manager is not running.  It ends with one success callback
    after an attempt that connected, all retries given back; or with one failure
    callback after exactly [max (0, n - k) + 1] refused attempts, none given back,
    so that the next reconnection fails at its first refusal; or without a
    callback, when it was stopped or its context was done.  A [Start] behind the
    [Stop] of a goroutine that has not returned is left out ([two_goroutines]). *)
Theorem reconnect_ends (ctx : nat) (m m' : Manager S) (l : list action)
    (n := max_retries (strategy m)) (rest := Z.max 0 (n - retries (strategy m))) :
  idle m -> 0 < n < 2 ^ 60 -> 0 <= retries (strategy m) -> Forall (fun a => is_start a = false) l ->
  acts (DoStart ctx :: l) m = Some m' ->
  turns l <= 3 * rest + 2 /\
  ((exists t, is_Some (act (Go (length (loops m)) t) m')) \/
   idle m' /\ loops m' = loops m ++ [(ctx, Returned)] /\
   (notes m' = notes m ++ [NSuccess] /\ retries (strategy m') = 0 \/
    notes m' = notes m ++ [NFailure] /\ refusals l = rest + 1 /\ n <= retries (strategy m') \/
    notes m' = notes m /\ (ctx_done m ctx = true \/ DoStop ∈ l \/ CtxDone ctx ∈ l))).
Proof.
  intros [Hc Hrun Hlo Hfr] Hn Hk Hl Hacts. cbn [acts act mbind option_bind] in Hacts. unfold Start in Hacts. rewrite Hrun, Hc in Hacts.
  cbn [negb] in Hacts. set (m0 := upd loops _ _) in Hacts.
  assert (live (loops m) ctx (notes m) n (retries (strategy m)) Top m0) as Hm0.
  { split; [split|done..]; try done. cbn. intros c Hlt. apply Hfr. lia. }
  destruct (live_run (loops m) ctx (notes m) n Hlo Hn _ _ l m0 m' Hk Hm0 Hl Hacts)
    as [(k' & p' & Hm' & Hs)|([Hb Hr] & Ht & Hend)].
  - split; [cbn in *; assert (0 <= steps_left p' (to_go n k')) by (unfold to_go; destruct p'; cbn; lia); unfold rest, to_go in *; lia|].
    left. apply (ends_open _ _ _ _ _ (lv_beside _ _ _ _ _ _ _ Hm') (lv_pc _ _ _ _ _ _ _ Hm')).
  - split; [cbn in *; unfold rest, to_go in *; lia|]. right. pose proof Hb as [B1 B2 B3 B4]. split.
    { split; try done. rewrite B1. apply Forall_app. split; [done|by apply Forall_cons]. }
    split; [done|]. destruct Hend as [He|[He|(He & l' & m1 & Hp & Hr1 & Hst)]]; [by left|by right; left; exact He|]. right. right. split; [done|].
    destruct Hp as [l2 ->]. apply Forall_app in Hl as [Hl1 _].
    destruct (stopped_by ctx l' m0 m1 Hl1 Hr1 Hst) as [H1|[H1|H1]]; [|right; left; set_solver|right; right; set_solver].
    left. unfold stopped in H1. cbn in H1. by rewrite Hfr, orb_false_r in H1 by lia.
Qed.
End live.

(** Two reconnections of one manager with two retries: the first fails after
    three refusals, the second after one. *)
Lemma reconnect_ends_witness :
  let s := NewExponentialBackoff 1000000 8000000 (f64_of_Z 2) 2 in
  let half := f64_dec 5 1 in
  let l i := [Go i Continue; Go i (Refused half); Go i Timer; Go i Continue; Go i (Refused half); Go i Timer; Go i Continue; Go i (Refused half)] in
  let m := SetCallbacks true (NewManager s) in
  exists m1 m2, acts (DoStart 0 :: l 0%nat) m = Some m1 /\ turns (l 0%nat) <= 8 /\ notes m1 = [NFailure] /\
    acts (DoStart 1 :: take 2 (l 1%nat)) m1 = Some m2 /\ turns (take 2 (l 1%nat)) <= 2 /\ notes m2 = [NFailure; NFailure].
Proof.
  intros s half l m.
  assert (match acts (DoStart 0 :: l 0%nat) m with
    | Some m1 => notes m1 = [NFailure] /\ loops m1 = [(0%nat, Returned)] /\ 0 < max_retries (strategy m1) < 2 ^ 60 /\
        retries (strategy m1) = 2 /\ max_retries (strategy m1) = 2 /\
        match acts (DoStart 1 :: take 2 (l 1%nat)) m1 with Some m2 => notes m2 = [NFailure; NFailure] | None => False end
    | None => False end) as Hc by (vm_compute; by repeat split).
  destruct (acts (DoStart 0 :: l 0%nat) m) as [m1|] eqn:E1; [|destruct Hc]. destruct Hc as (N1 & Q1 & M1 & R1 & X1 & Hc).
  destruct (acts (DoStart 1 :: take 2 (l 1%nat)) m1) as [m2|] eqn:E2; [|destruct Hc].
  assert (idle m) as I0 by (split; [reflexivity|reflexivity|apply Forall_nil_2|reflexivity]).
  assert (0 < max_retries (strategy m) < 2 ^ 60 /\ 0 <= retries (strategy m)) as [M0 R0] by (vm_compute; by repeat split).
  assert (forall i, Forall (fun a => is_start a = false) (l i)) as Hl by (intros i; repeat (apply Forall_cons_2; [reflexivity|]); apply Forall_nil_2).
  destruct (reconnect_ends 0 m m1 (l 0%nat) I0 M0 R0 (Hl 0%nat) E1) as [T1 [[t Ht]|(I1 & _)]].
  { exfalso. cbn [act] in Ht. change (length (loops m)) with 0%nat in Ht. rewrite Q1 in Ht. destruct t; cbn in Ht; by destruct Ht. }
  destruct (reconnect_ends 1 m1 m2 (take 2 (l 1%nat)) I1 M1 ltac:(rewrite R1; lia) ltac:(apply Forall_take, Hl) E2) as [T2 _].
  exists m1, m2. split; [reflexivity|]. split; [exact T1|]. split; [exact N1|]. split; [exact E2|]. split; [|exact Hc].
  rewrite X1, R1 in T2. exact T2.
Defined.

(** Stop and Start while an attempt is running: the old goroutine waits on the
    new channel, so it goes on, and two attempts run at the same time. *)
Example two_goroutines :
  match acts [DoStart 0; Go 0 Continue; DoStop; DoStart 1; Go 0 (Refused (f64_of_Z 0)); Go 0 Timer; Go 0 Continue; Go 1 Continue]
          (SetCallbacks true (NewManager (NewLinearBackoff 1 5))) with
  | Some m => map snd (loops m)
  | None => []
  end = [Connecting; Connecting].
Proof. reflexivity. Qed.
