(* ===== verification/RtpValidator.v ===== *)
(** * RTP packet validation (rtp/validator.go)

    Header checks and, per source, sequence numbers and B-frame aware time
    stamps.  The frame duration is chosen by iterating over a map, in an order
    the language leaves open: [order] is any such order. *)

From S2P Require Import Prelude.

Inductive rtp_error : Type :=
| ErrInvalidRTPVersion | ErrInvalidPayloadType | ErrPacketTooSmall | ErrInvalidPadding | ErrSequenceGap | ErrTimestampJump.

(** The fields of a packet that the validator reads. *)
Record packet := mkPacket {
  Version : Z; PayloadType : Z; Padding : bool; Raw : list Z; SSRC : Z; SequenceNumber : Z; Timestamp : Z }.

Record ValidatorConfig := mkVConfig { AllowedPayloadTypes : list Z; MaxSequenceGap : Z; MaxTimestampJump : Z }.
Definition DefaultValidatorConfig : ValidatorConfig :=
  mkVConfig (map (fun i => u8 (96 + Z.of_nat i)) (seq 0 32)) 100 (90000 * 60).

Record ssrcTracker := mkTracker {
  lastSequence : Z;
  lastTimestamp : Z;
  packetsCount : Z;
  timestampWindow : list Z;
  lastMonotonicTS : Z;
  dtsEstimate : Z;
  frameDuration : Z;
  reorderDepth : Z
}.
#[export] Instance eta_tracker : Eta ssrcTracker := fun t =>
  mkTracker (lastSequence t) (lastTimestamp t) (packetsCount t) (timestampWindow t) (lastMonotonicTS t) (dtsEstimate t)
    (frameDuration t) (reorderDepth t).

Record Validator := mkValidator { config : ValidatorConfig; allowedPayloadTypes : gset Z; ssrcState : gmap Z ssrcTracker }.
#[export] Instance eta_validator : Eta Validator := fun v => mkValidator (config v) (allowedPayloadTypes v) (ssrcState v).

Definition NewValidator (c : option ValidatorConfig) : Validator :=
  let c := default DefaultValidatorConfig c in mkValidator c (list_to_set (AllowedPayloadTypes c)) ∅.

Definition maxUint32 (a b : Z) : Z := if b <? a then a else b.
Definition maxInt (a b : Z) : Z := if b <? a then a else b.

Definition isTimestampWraparound (currentTS lastTS : Z) : bool := (0xF0000000 <? lastTS) && (currentTS <? 0x10000000).

(** How often each step from one stamp to the next occurs. *)
Fixpoint count_diffs (l : list Z) (m : gmap Z Z) : gmap Z Z :=
  match l with
  | a :: (b :: _) as rest =>
      let diff := u32 (b - a) in
      let m := if (a <? b) && (750 <=? diff) && (diff <=? 9000) then <[diff := default 0 (m !! diff) + 1]> m else m in
      count_diffs rest m
  | _ => m
  end.

(** The scan for the largest count, over the entries in some order. *)
Fixpoint best_diff (l : list (Z * Z)) (bestDiff maxCount : Z) : Z :=
  match l with
  | [] => bestDiff
  | (diff, count) :: l => if maxCount <? count then best_diff l diff count else best_diff l bestDiff maxCount
  end.

Section validator.
Variable order : list (Z * Z) -> list (Z * Z).

Definition estimateFrameDuration (timestamps : list Z) : Z :=
  if len timestamps <? 2 then 3000 else best_diff (order (map_to_list (count_diffs timestamps ∅))) 3000 0.

Definition isPossibleBFrame (timestamp : Z) (t : ssrcTracker) : bool :=
  let maxReorderWindow := u32 (frameDuration t * 5) in
  (timestamp <? lastMonotonicTS t) && (u32 (lastMonotonicTS t - timestamp) <=? maxReorderWindow).

(** The wrap, the window and the frame duration. *)
Definition note_timestamp (currentTS : Z) (t : ssrcTracker) : ssrcTracker :=
  let t := if isTimestampWraparound currentTS (lastTimestamp t) then t <| lastMonotonicTS := currentTS |> else t in
  let w := timestampWindow t ++ [currentTS] in
  let w := if 10 <? len w then tail w else w in
  let t := t <| timestampWindow := w |> in
  if 2 <=? len w then t <| frameDuration := estimateFrameDuration w |> else t.

Definition validateTimestamp (p : packet) (c : ValidatorConfig) (t : ssrcTracker) : res (ssrcTracker * exn rtp_error unit) :=
  let currentTS := Timestamp p in
  let t := note_timestamp currentTS t in
  if packetsCount t <? 3 then
    if (0 <? lastTimestamp t) && (lastTimestamp t <? currentTS) && (MaxTimestampJump c <? u32 (currentTS - lastTimestamp t))
    then Ret (t, Err ErrTimestampJump)
    else Ret (t <| lastMonotonicTS := maxUint32 (lastMonotonicTS t) currentTS |>, Val tt)
  else
    let back := u32 (frameDuration t * 5) in
    let expectedMinDTS := if lastMonotonicTS t <? back then 0 else u32 (lastMonotonicTS t - back) in
    let expectedMaxDTS := u32 (lastMonotonicTS t + MaxTimestampJump c) in
    if expectedMaxDTS <? currentTS then Ret (t, Err ErrTimestampJump)
    else if currentTS <? expectedMinDTS then
      if isPossibleBFrame currentTS t then
        depth ← go_quot (u32 (lastMonotonicTS t - currentTS)) (frameDuration t);
        Ret (t <| reorderDepth := maxInt (reorderDepth t) depth |>, Val tt)
      else Ret (t, Err ErrTimestampJump)
    else if lastMonotonicTS t <? currentTS then
      Ret (t <| lastMonotonicTS := currentTS |> <| dtsEstimate := u32 (currentTS + frameDuration t) |>, Val tt)
    else Ret (t, Val tt).

Definition bad_padding (p : packet) : res bool :=
  if Padding p && (0 <? len (Raw p)) then
    paddingLen ← idx (Raw p) (len (Raw p) - 1); Ret ((paddingLen =? 0) || (len (Raw p) <? paddingLen))
  else Ret false.

Definition new_tracker (p : packet) : ssrcTracker :=
  mkTracker (SequenceNumber p) (Timestamp p) 1 [Timestamp p] (Timestamp p) (Timestamp p) 3000 0.

(** The checks of a known source. *)
Definition check_tracker (p : packet) (c : ValidatorConfig) (t : ssrcTracker) : res (ssrcTracker * exn rtp_error unit) :=
  let absGap := Z.abs (i16 (u16 (SequenceNumber p - lastSequence t))) in
  if (1 <? absGap) && (MaxSequenceGap c <? absGap) then Ret (t, Err ErrSequenceGap)
  else
    '(t, r) ← validateTimestamp p c t;
    match r with
    | Err e => Ret (t, Err e)
    | Val _ =>
        Ret (t <| lastSequence := SequenceNumber p |> <| lastTimestamp := Timestamp p |>
               <| packetsCount := u64 (packetsCount t + 1) |>, Val tt)
    end.

Definition ValidatePacket (p : option packet) (v : Validator) : res (Validator * exn rtp_error unit) :=
  match p with
  | None => Ret (v, Err ErrPacketTooSmall)
  | Some p =>
      if negb (Version p =? 2) then Ret (v, Err ErrInvalidRTPVersion)
      else if negb (bool_decide (PayloadType p ∈ allowedPayloadTypes v)) then Ret (v, Err ErrInvalidPayloadType)
      else
        bad ← bad_padding p;
        if bad : bool then Ret (v, Err ErrInvalidPadding)
        else
          match ssrcState v !! SSRC p with
          | None => Ret (v <| ssrcState := <[SSRC p := new_tracker p]> (ssrcState v) |>, Val tt)
          | Some t =>
              '(t, r) ← check_tracker p (config v) t;
              Ret (v <| ssrcState := <[SSRC p := t]> (ssrcState v) |>, r)
          end
  end.

Definition GetSSRCStats (ssrc : Z) (v : Validator) : Z * bool :=
  match ssrcState v !! ssrc with Some t => (packetsCount t, true) | None => (0, false) end.
Definition ResetSSRC (ssrc : Z) (v : Validator) : Validator := v <| ssrcState := delete ssrc (ssrcState v) |>.
Definition Reset (v : Validator) : Validator := v <| ssrcState := ∅ |>.

(** ** Frame duration *)

Lemma count_diffs_range l m :
  (forall d k, m !! d = Some k -> 750 <= d <= 9000) -> forall d k, count_diffs l m !! d = Some k -> 750 <= d <= 9000.
Proof.
  revert m. induction l as [|a [|b l] IH]; intros m Hm; [done|done|].
  change (count_diffs (a :: b :: l) m) with (count_diffs (b :: l)
    (if (a <? b) && (750 <=? u32 (b - a)) && (u32 (b - a) <=? 9000)
     then <[u32 (b - a) := default 0 (m !! u32 (b - a)) + 1]> m else m)).
  apply IH. intros d k. destruct (_ && _ && _) eqn:E; [|apply Hm].
  intros [[<- _]|[_ Hd]]%lookup_insert_Some; [|by eapply Hm].
  apply andb_true_iff in E as [[_ E1]%andb_true_iff E2]. zbool. lia.
Qed.

Lemma best_diff_in l b c : best_diff l b c = b \/ exists k, (best_diff l b c, k) ∈ l.
Proof.
  revert b c. induction l as [|[d k] l IH]; intros b c; cbn [best_diff]; [by left|].
  case_bool; [destruct (IH d k) as [->|[k' Hin]]|destruct (IH b c) as [->|[k' Hin]]]; try (by left); right;
    [exists k; by left|exists k'; by right|exists k'; by right].
Qed.

Hypothesis order_perm : forall l, order l ≡ₚ l.

Lemma estimate_range w : 750 <= estimateFrameDuration w <= 9000.
Proof.
  unfold estimateFrameDuration. case_bool; [lia|]. destruct (best_diff_in (order (map_to_list (count_diffs w ∅))) 3000 0) as [->|[k Hk]]; [lia|].
  revert Hk. generalize (best_diff (order (map_to_list (count_diffs w ∅))) 3000 0). intros d Hk.
  rewrite order_perm in Hk. apply elem_of_map_to_list in Hk. revert Hk. by apply count_diffs_range.
Qed.

(** ** Ordinary streams are accepted *)

(** A packet of the stream [ssrc] whose header is in order. *)
Definition well_formed (v : ValidatorConfig) (ssrc : Z) (p : packet) : Prop :=
  Version p = 2 /\ PayloadType p ∈ AllowedPayloadTypes v /\ Padding p = false /\ SSRC p = ssrc /\
  0 <= SequenceNumber p < 2 ^ 16 /\ 0 <= Timestamp p /\ Timestamp p + MaxTimestampJump v < 2 ^ 32.

(** The next packet: its number within the gap, its stamp forward by at most the
    jump, or back by at most 3750 ticks behind the latest one. *)
Fixpoint ordinary (c : ValidatorConfig) (seq ts top : Z) (l : list packet) : Prop :=
  match l with
  | [] => True
  | p :: l =>
      Z.abs (i16 (SequenceNumber p - seq)) <= Z.max 1 (MaxSequenceGap c) /\ Timestamp p - ts <= MaxTimestampJump c /\
      top - Timestamp p <= 3750 /\ ordinary c (SequenceNumber p) (Timestamp p) (Z.max top (Timestamp p)) l
  end.

Fixpoint validate_all (l : list packet) (v : Validator) : res (Validator * list (exn rtp_error unit)) :=
  match l with
  | [] => Ret (v, [])
  | p :: l => '(v, r) ← ValidatePacket (Some p) v; '(v, rs) ← validate_all l v; Ret (v, r :: rs)
  end.

Record tracks (seq ts top n : Z) (t : ssrcTracker) : Prop := {
  tr_seq : lastSequence t = seq;
  tr_ts : lastTimestamp t = ts;
  tr_top : lastMonotonicTS t = top;
  tr_count : packetsCount t = n;
  tr_dur : 750 <= frameDuration t <= 9000
}.

Definition config_ok (c : ValidatorConfig) : Prop := 0 <= MaxTimestampJump c < 2 ^ 31.

Lemma i16_u16 z : i16 (u16 z) = i16 z.
Proof. mlia. Qed.

Lemma check_tracker_ok c ssrc p seq ts top n t :
  config_ok c -> well_formed c ssrc p -> 0 <= seq < 2 ^ 16 -> 0 <= ts <= top -> top + MaxTimestampJump c < 2 ^ 32 -> top - ts <= 3750 ->
  0 < n < 2 ^ 62 -> tracks seq ts top n t ->
  Z.abs (i16 (SequenceNumber p - seq)) <= Z.max 1 (MaxSequenceGap c) -> Timestamp p - ts <= MaxTimestampJump c ->
  top - Timestamp p <= 3750 ->
  exists t', check_tracker p c t = Ret (t', Val tt) /\
    tracks (SequenceNumber p) (Timestamp p) (Z.max top (Timestamp p)) (n + 1) t'.
Proof.
  intros Hc (_ & _ & _ & _ & Hs & Ht & Hj) Hseq Hts Htop Hback Hn [T1 T2 T3 T4 T5] Hgap Hfwd Hbk. unfold config_ok in Hc.
  unfold check_tracker. rewrite T1, i16_u16.
  assert ((1 <? Z.abs (i16 (SequenceNumber p - seq))) && (MaxSequenceGap c <? Z.abs (i16 (SequenceNumber p - seq))) = false) as ->
    by (apply andb_false_iff; destruct (Z.ltb_spec 1 (Z.abs (i16 (SequenceNumber p - seq)))); [right; apply Z.ltb_ge; lia|by left]).
  assert (exists t1, validateTimestamp p c t = Ret (t1, Val tt) /\ lastMonotonicTS t1 = Z.max top (Timestamp p) /\
    packetsCount t1 = n /\ 750 <= frameDuration t1 <= 9000) as (t1 & -> & E1 & E2 & E3).
  { unfold validateTimestamp. set (t0 := note_timestamp (Timestamp p) t).
    assert (lastTimestamp t0 = ts /\ lastMonotonicTS t0 = top /\ packetsCount t0 = n /\ 750 <= frameDuration t0 <= 9000)
      as (F1 & F2 & F3 & F4).
    { subst t0. unfold note_timestamp, isTimestampWraparound. rewrite T2.
      assert ((0xF0000000 <? ts) && (Timestamp p <? 0x10000000) = false) as ->
        by (apply andb_false_iff; destruct (Z.ltb_spec 0xF0000000 ts); [right; apply Z.ltb_ge; lia|by left]).
      set (w := if _ <? _ then _ else _). pose proof (estimate_range w). destruct (2 <=? len w); cbn; split_and!; done || lia. }
    clearbody t0. rewrite F1, F2, F3. pow_consts. destruct (Z.ltb_spec n 3).
    - destruct ((0 <? ts) && (ts <? Timestamp p)) eqn:E; cbn [andb].
      + apply andb_true_iff in E as [? ?]. zbool. rewrite u32_id, (proj2 (Z.ltb_ge _ _)) by lia.
        eexists. split; [done|]. split; [|done]. cbn. unfold maxUint32. case_bool; zbool; lia.
      + eexists. split; [done|]. split; [|done]. cbn. unfold maxUint32. case_bool; zbool; lia.
    - rewrite (u32_id (frameDuration t0 * 5)), (u32_id (top + _)) by lia. rewrite (proj2 (Z.ltb_ge (top + _) _)) by lia.
      assert (Timestamp p <? (if top <? frameDuration t0 * 5 then 0 else u32 (top - frameDuration t0 * 5)) = false) as ->.
      { apply Z.ltb_ge. case_bool; zbool; [lia|]. rewrite u32_id by lia. lia. }
      destruct (Z.ltb_spec top (Timestamp p)); eexists; (split; [done|]); cbn; [split; [lia|done]|]. split; [rewrite F2; lia|done]. }
  rewrite bind_Ret. eexists. split; [done|]. split; cbn; [done|done|done| |done]. rewrite E2, u64_id by (pow_consts; lia). done.
Qed.

Lemma validate_ordinary c ssrc l seq ts top n t v :
  config_ok c -> config v = c -> allowedPayloadTypes v = list_to_set (AllowedPayloadTypes c) -> ssrcState v !! ssrc = Some t ->
  0 <= seq < 2 ^ 16 -> 0 <= ts <= top -> top + MaxTimestampJump c < 2 ^ 32 -> top - ts <= 3750 ->
  0 < n -> n + len l < 2 ^ 62 -> tracks seq ts top n t ->
  Forall (well_formed c ssrc) l -> ordinary c seq ts top l ->
  exists v', validate_all l v = Ret (v', replicate (length l) (Val tt)) /\ GetSSRCStats ssrc v' = (n + len l, true).
Proof.
  intros Hc Hcf Hal. revert seq ts top n t v Hcf Hal.
  induction l as [|p l IH]; intros seq ts top n t v Hcf Hal Hv Hseq Hts Htop Hback Hn Hlen Ht Hw Ho.
  { exists v. split; [done|]. unfold GetSSRCStats. rewrite Hv, (tr_count _ _ _ _ _ Ht), (@len_nil packet), Z.add_0_r. done. }
  apply Forall_cons in Hw as [Hp Hw]. cbn [ordinary] in Ho. destruct Ho as (O1 & O2 & O3 & Ho). rewrite len_cons in *.
  pose proof (len_nonneg l). pose proof Hp as (W1 & W2 & W3 & W4 & W5 & W6 & W7).
  destruct (check_tracker_ok c ssrc p seq ts top n t) as (t' & E & Ht'); try done; [lia|].
  cbn [validate_all]. unfold ValidatePacket, bad_padding.
  rewrite W1, Hal, W3, W4, Hv, Hcf, bool_decide_true by (by apply elem_of_list_to_set). cbn [negb Z.eqb Pos.eqb andb].
  rewrite !bind_Ret, E, !bind_Ret. set (v1 := upd ssrcState _ v).
  assert (config v1 = c /\ allowedPayloadTypes v1 = list_to_set (AllowedPayloadTypes c) /\ ssrcState v1 !! ssrc = Some t') as (V1 & V2 & V3)
    by (split_and!; [done|done|apply lookup_insert_eq]).
  clearbody v1. destruct (IH (SequenceNumber p) (Timestamp p) (Z.max top (Timestamp p)) (n + 1) t' v1) as (v' & -> & Hst);
    try done; try lia. rewrite bind_Ret. exists v'. split; [done|]. rewrite Hst. f_equal. lia.
Qed.

(** a stream of one source with valid headers, whose numbers stay within the
    gap and whose stamps go forward by at most the configured jump, or back as
    B-frames do, by at most five frames at 120 frames per second, is accepted
    whole and counted exactly, as long as no stamp comes within a jump of the
    end of the 32-bit range - whatever order the map is iterated in. *)
Theorem stream_accepted (c : ValidatorConfig) (p : packet) (l : list packet) :
  config_ok c -> well_formed c (SSRC p) p -> Forall (well_formed c (SSRC p)) l -> len l < 2 ^ 61 ->
  ordinary c (SequenceNumber p) (Timestamp p) (Timestamp p) l ->
  exists v, validate_all (p :: l) (NewValidator (Some c)) = Ret (v, replicate (S (length l)) (Val tt)) /\
    GetSSRCStats (SSRC p) v = (1 + len l, true).
Proof.
  intros Hc Hp Hl Hlen Ho. pose proof Hp as (W1 & W2 & W3 & W4 & W5 & W6 & W7). cbn [validate_all].
  unfold ValidatePacket, bad_padding, NewValidator.
  cbn [default allowedPayloadTypes config ssrcState]. rewrite W1, W3, bool_decide_true by (by apply elem_of_list_to_set).
  cbn [negb Z.eqb Pos.eqb andb]. rewrite !bind_Ret, lookup_empty. set (v1 := upd ssrcState _ _).
  destruct (validate_ordinary c (SSRC p) l (SequenceNumber p) (Timestamp p) (Timestamp p) 1 (new_tracker p) v1) as (v & E & Hst);
    try done; try (pow_consts; lia).
  { apply lookup_insert_eq. }
  change (NewValidator _) with (mkValidator c (list_to_set (AllowedPayloadTypes c)) ∅). fold v1. rewrite bind_Ret, E, bind_Ret.
  by exists v.
Qed.

(** A packet outside the gap changes nothing: after a loss of more than
    [MaxSequenceGap] packets every later packet is refused too. *)
Lemma gap_sticks p v t :
  Version p = 2 -> PayloadType p ∈ allowedPayloadTypes v -> Padding p = false -> ssrcState v !! SSRC p = Some t ->
  1 < Z.abs (i16 (u16 (SequenceNumber p - lastSequence t))) -> MaxSequenceGap (config v) < Z.abs (i16 (u16 (SequenceNumber p - lastSequence t))) ->
  ValidatePacket (Some p) v = Ret (v <| ssrcState := <[SSRC p := t]> (ssrcState v) |>, Err ErrSequenceGap).
Proof.
  intros W1 W2 W3 Hv H1 H2. unfold ValidatePacket, bad_padding, check_tracker.
  rewrite W1, W3, Hv, bool_decide_true by done. cbn [negb Z.eqb Pos.eqb andb]. rewrite bind_Ret.
  by rewrite (proj2 (Z.ltb_lt 1 _)), (proj2 (Z.ltb_lt (MaxSequenceGap _) _)) by done.
Qed.
End validator.

(** Packets of one source: number and stamp. *)
Definition media (l : list (Z * Z)) : list packet := (fun e => mkPacket 2 96 false [] 7 (e.1 mod 2 ^ 16) (e.2 mod 2 ^ 32)) <$> l.
Definition verdicts (l : list (Z * Z)) : res (list (exn rtp_error unit)) :=
  '(_, rs) ← validate_all id (media l) (NewValidator None); Ret rs.

Lemma stream_accepted_witness :
  let l := [(65534, 9000); (65535, 15000); (0, 12000); (1, 21000); (2, 18000)] in
  exists v, validate_all (@rev (Z * Z)) (media l) (NewValidator (Some DefaultValidatorConfig)) = Ret (v, replicate 5 (Val tt)) /\
    GetSSRCStats 7 v = (5, true).
Proof.
  intros l. set (c := DefaultValidatorConfig).
  destruct (stream_accepted (@rev (Z * Z)) (fun l => symmetry (Permutation_rev l)) c (mkPacket 2 96 false [] 7 65534 9000)
    (media [(65535, 15000); (0, 12000); (1, 21000); (2, 18000)])) as (v & E & H).
  - done.
  - unfold well_formed. cbn. split_and!; try lia; try done. decide_goal.
  - unfold media, fmap, list_fmap. assert (96 ∈ AllowedPayloadTypes c) as Hp by decide_goal.
    repeat (apply Forall_cons_2; [unfold well_formed; cbn; split_and!; try lia; try done|]). by apply Forall_nil_2.
  - done.
  - cbn -[DefaultValidatorConfig i16]. vm_compute. intuition congruence.
  - exists v. split; [exact E|exact H].
Defined.

(** In the last minute before the 32-bit field wraps the upper bound overflows
    and every packet is refused; by the wrap the numbers have moved on by more
    than the gap, and the source is refused for good. *)
Example refused_before_wrap :
  verdicts [(1, 2 ^ 32 - 5410000); (2, 2 ^ 32 - 5407000); (3, 2 ^ 32 - 5404000); (4, 2 ^ 32 - 5401000); (5, 2 ^ 32 - 5399000);
            (6, 2 ^ 32 - 5396000); (150, 2 ^ 32 + 3000); (151, 2 ^ 32 + 6000)]
  = Ret [Val tt; Val tt; Val tt; Val tt; Val tt; Err ErrTimestampJump; Err ErrSequenceGap; Err ErrSequenceGap].
Proof. vm_compute. reflexivity. Qed.
