(* ===== verification/Backpressure.v ===== *)
(** * Backpressure control (backpressure/controller.go)

    The rate of a stream follows the pressure of its queue.  Events are the
    calls of the controller and the ticks of its loop; the callback is the list
    of the rates it is called with. *)

From stdpp Require Import strings.
From S2P Require Import Prelude Float64.
From S2P Require GopDetector.

Record Config := mkConfig {
  MinRate : Z; MaxRate : Z; TargetPressure : float64; IncreaseRatio : float64; DecreaseRatio : float64;
  AdjustInterval : Z; HistorySize : Z }.

Record Controller := mkController {
  streamID : string;
  currentPressure : float64;
  targetPressure : float64;
  currentRate : Z;
  minRate : Z;
  maxRate : Z;
  gopStats : option GopDetector.GOPStatistics;
  avgGOPSize : Z;
  avgGOPDuration : Z;
  increaseRatio : float64;
  decreaseRatio : float64;
  adjustInterval : Z;
  pressureHistory : list float64;
  historySize : Z;
  onRateChange : bool;
  adjustmentCount : Z;
  gopsDropped : Z;
  lastAdjustment : Z;
  rates_called : list Z
}.
#[export] Instance eta_bp : Eta Controller := fun c =>
  mkController (streamID c) (currentPressure c) (targetPressure c) (currentRate c) (minRate c) (maxRate c) (gopStats c)
    (avgGOPSize c) (avgGOPDuration c) (increaseRatio c) (decreaseRatio c) (adjustInterval c) (pressureHistory c)
    (historySize c) (onRateChange c) (adjustmentCount c) (gopsDropped c) (lastAdjustment c) (rates_called c).

(** [make] refuses a negative capacity. *)
Definition NewController (id : string) (cfg : Config) : res Controller :=
  if HistorySize cfg <? 0 then Panic
  else Ret (mkController id (f64_of_Z 0) (TargetPressure cfg) (MaxRate cfg) (MinRate cfg) (MaxRate cfg) None 0 0
         (IncreaseRatio cfg) (DecreaseRatio cfg) (AdjustInterval cfg) [] (HistorySize cfg) false 0 0 zero_time []).

Definition UpdatePressure (pressure : float64) (c : Controller) : Controller :=
  let h := pressureHistory c ++ [pressure] in
  let h := if historySize c <? len h then tail h else h in
  c <| currentPressure := pressure |> <| pressureHistory := h |>.

Definition UpdateGOPStats (s : GopDetector.GOPStatistics) (c : Controller) : Controller :=
  let c := c <| gopStats := Some s |> in
  if f64_ltb (f64_of_Z 0) (GopDetector.AverageGOPSize s) && (0 <? GopDetector.AverageDuration s)
  then c <| avgGOPSize := f64_trunc (f64_mul (GopDetector.AverageGOPSize s) (f64_of_Z 1500)) |>
         <| avgGOPDuration := GopDetector.AverageDuration s |>
  else c.

Definition GetPressure (c : Controller) : float64 := currentPressure c.
Definition GetCurrentRate (c : Controller) : Z := currentRate c.

(** The weighted sum of the history from place [i] on, and the weights. *)
Fixpoint weighted (i : Z) (h : list float64) (acc : float64 * float64) : float64 * float64 :=
  match h with
  | [] => acc
  | p :: h =>
      let weight := f64_of_Z (i + 1) in
      weighted (i + 1) h (f64_add acc.1 (f64_mul p weight), f64_add acc.2 weight)
  end.
Definition GetSmoothedPressure (c : Controller) : float64 :=
  if len (pressureHistory c) =? 0 then currentPressure c
  else let '(sum, weightSum) := weighted 0 (pressureHistory c) (f64_of_Z 0, f64_of_Z 0) in f64_div sum weightSum.
Definition getSmoothedPressureUnsafe (c : Controller) : float64 :=
  if len (pressureHistory c) =? 0 then currentPressure c
  else
    let '(sum, weightSum) := weighted 0 (pressureHistory c) (f64_of_Z 0, f64_of_Z 0) in
    if SpecFloat.SFeqb weightSum (f64_of_Z 0) then currentPressure c else f64_div sum weightSum.

Definition calculateIncreaseRate (rate : Z) (pressure : float64) (c : Controller) : Z :=
  let m := increaseRatio c in
  let m := if f64_ltb pressure (f64_mul (targetPressure c) (f64_dec 5 1)) then f64_mul m (f64_dec 15 1) else m in
  f64_trunc (f64_mul (f64_of_Z rate) m).
Definition calculateDecreaseRate (rate : Z) (pressure : float64) (c : Controller) : Z :=
  let m := decreaseRatio c in
  let m := if f64_ltb (f64_dec 9 1) pressure then f64_mul m (f64_dec 5 1)
           else if f64_ltb (f64_dec 8 1) pressure then f64_mul m (f64_dec 7 1) else m in
  f64_trunc (f64_mul (f64_of_Z rate) m).
Definition calculateStableRate (rate : Z) (pressure : float64) (c : Controller) : Z :=
  let error := f64_sub (targetPressure c) pressure in
  f64_trunc (f64_mul (f64_of_Z rate) (f64_add (f64_of_Z 1) (f64_mul error (f64_dec 1 1)))).

Definition applyGOPAdjustments (rate : Z) (pressure : float64) (c : Controller) : Z :=
  if (avgGOPSize c =? 0) || (avgGOPDuration c =? 0) then rate
  else
    let gopsPerSecond := f64_div (f64_of_Z rate) (f64_of_Z (avgGOPSize c)) in
    let gopsPerSecond := if f64_ltb gopsPerSecond (f64_dec 1 1) then f64_dec 1 1 else gopsPerSecond in
    let gopInterval := f64_trunc (f64_div (f64_of_Z second) gopsPerSecond) in
    if second <? gopInterval then (if f64_ltb (f64_dec 8 1) pressure then Z.quot (avgGOPSize c) 2 else avgGOPSize c)
    else rate.

Definition enforceRateLimits (rate : Z) (c : Controller) : Z :=
  if rate <? minRate c then minRate c else if maxRate c <? rate then maxRate c else rate.

(** The pressure a tick works with. *)
Definition blended_pressure (c : Controller) : float64 :=
  let smoothed := getSmoothedPressureUnsafe c in
  let diff := f64_sub (GetPressure c) smoothed in
  if f64_ltb (f64_dec 1 1) diff || f64_ltb diff (f64_dec (-1) 1)
  then f64_add (f64_mul (GetPressure c) (f64_dec 7 1)) (f64_mul smoothed (f64_dec 3 1))
  else smoothed.
Definition next_rate (c : Controller) : Z :=
  let pressure := blended_pressure c in
  let rate := currentRate c in
  let newRate :=
    if f64_ltb pressure (f64_mul (targetPressure c) (f64_dec 9 1)) then calculateIncreaseRate rate pressure c
    else if f64_ltb (f64_mul (targetPressure c) (f64_dec 11 1)) pressure then calculateDecreaseRate rate pressure c
    else calculateStableRate rate pressure c in
  enforceRateLimits (applyGOPAdjustments newRate pressure c) c.

Definition adjustRate (now : Z) (c : Controller) : Controller :=
  let newRate := next_rate c in
  if newRate =? currentRate c then c
  else
    c <| currentRate := newRate |> <| adjustmentCount := u64 (adjustmentCount c + 1) |> <| lastAdjustment := now |>
      <| rates_called := if onRateChange c then rates_called c ++ [newRate] else rates_called c |>.

Definition ShouldDropGOP (pressure : float64) (c : Controller) : bool :=
  if f64_ltb pressure (f64_dec 9 1) then false
  else if currentRate c <=? minRate c then true
  else if 0 <? avgGOPSize c then
    f64_ltb (f64_div (f64_of_Z (currentRate c)) (f64_of_Z (avgGOPSize c))) (f64_of_Z 3) || f64_leb (f64_dec 95 2) pressure
  else false.

Definition SetRateChangeCallback (set : bool) (c : Controller) : Controller := c <| onRateChange := set |>.
Definition IncrementGOPsDropped (c : Controller) : Controller := c <| gopsDropped := u64 (gopsDropped c + 1) |>.
Definition ClearPressureHistory (c : Controller) : Controller := c <| pressureHistory := [] |>.

Record Statistics := mkStatistics {
  st_CurrentRate : Z; st_CurrentPressure : float64; st_SmoothedPressure : float64; st_AdjustmentCount : Z;
  st_GOPsDropped : Z; st_LastAdjustment : Z; st_TargetPressure : float64; st_MinRate : Z; st_MaxRate : Z;
  st_GOPsPerSecond : float64 }.
Definition GetStatistics (c : Controller) : Statistics :=
  mkStatistics (currentRate c) (currentPressure c) (GetSmoothedPressure c) (adjustmentCount c) (gopsDropped c)
    (lastAdjustment c) (targetPressure c) (minRate c) (maxRate c)
    (if bool_decide (is_Some (gopStats c)) && (0 <? avgGOPSize c)
     then f64_div (f64_of_Z (currentRate c)) (f64_of_Z (avgGOPSize c)) else f64_of_Z 0).

(** ** Runs *)

Inductive event : Type :=
| Pressure (p : float64)
| Gops (s : GopDetector.GOPStatistics)
| Adjust (now : Z)
| Callback (set : bool)
| Dropped
| Clear.
Definition handle (e : event) (c : Controller) : Controller :=
  match e with
  | Pressure p => UpdatePressure p c
  | Gops s => UpdateGOPStats s c
  | Adjust now => adjustRate now c
  | Callback set => SetRateChangeCallback set c
  | Dropped => IncrementGOPsDropped c
  | Clear => ClearPressureHistory c
  end.
(** The rates a run passes through, the first one included. *)
Fixpoint rates (l : list event) (c : Controller) : list Z :=
  currentRate c :: (match l with [] => [] | e :: l => rates l (handle e c) end).
Definition run (l : list event) (c : Controller) : Controller := fold_left (fun c e => handle e c) l c.

(** The changes among a list of rates. *)
Fixpoint changes (l : list Z) : list Z :=
  match l with
  | a :: (b :: _) as rest => if a =? b then changes rest else b :: changes rest
  | _ => []
  end.

Record bp_ok (cfg : Config) (c : Controller) : Prop := {
  bo_limits : minRate c = MinRate cfg /\ maxRate c = MaxRate cfg /\ historySize c = HistorySize cfg;
  bo_rate : MinRate cfg <= currentRate c <= MaxRate cfg;
  bo_history : len (pressureHistory c) <= HistorySize cfg
}.

Lemma limits_kept rate c : minRate c <= maxRate c -> minRate c <= enforceRateLimits rate c <= maxRate c.
Proof. intros. unfold enforceRateLimits. repeat case_bool; zbool; lia. Qed.

Lemma handle_ok cfg e c : MinRate cfg <= MaxRate cfg -> bp_ok cfg c -> bp_ok cfg (handle e c).
Proof.
  intros Hc [(L1 & L2 & L3) R H]. destruct e as [p|s|now|set| |]; cbn [handle].
  - split; [done|done|]. unfold UpdatePressure. rewrite L3. cbn. pose proof (len_nonneg (pressureHistory c)).
    assert (len (pressureHistory c ++ [p]) = len (pressureHistory c) + 1) as E by (rewrite len_app; done).
    case_bool; zbool; [|lia]. destruct (pressureHistory c ++ [p]) as [|x h]; [change (len []) with 0 in *; lia|].
    rewrite len_cons in *. cbn. lia.
  - unfold UpdateGOPStats. case_bool; by split.
  - unfold adjustRate. case_bool; [by split|]. split; [done| |done]. cbn. rewrite <- L1, <- L2. apply limits_kept. lia.
  - by split.
  - by split.
  - split; [done|done|]. cbn. pose proof (len_nonneg (pressureHistory c)). change (len []) with 0. lia.
Qed.

Lemma changes_step e l c :
  changes (rates (e :: l) c) = changes [currentRate c; currentRate (handle e c)] ++ changes (rates l (handle e c)).
Proof.
  change (rates (e :: l) c) with (currentRate c :: rates l (handle e c)).
  assert (exists tl, rates l (handle e c) = currentRate (handle e c) :: tl) as [tl ->] by (destruct l; cbn [rates]; eauto).
  cbn [changes]. by destruct (currentRate c =? currentRate (handle e c)).
Qed.

(** What one event does to the rate's books. *)
Lemma handle_books e c :
  let ch := changes [currentRate c; currentRate (handle e c)] in
  adjustmentCount (handle e c) = (if len ch =? 0 then adjustmentCount c else u64 (adjustmentCount c + 1)) /\
  0 <= len ch <= 1 /\
  rates_called (handle e c) = rates_called c ++ (if onRateChange c then ch else []) /\
  (e <> Callback false -> onRateChange c = true -> onRateChange (handle e c) = true).
Proof.
  assert (forall c', currentRate c' = currentRate c -> adjustmentCount c' = adjustmentCount c -> rates_called c' = rates_called c ->
    (e <> Callback false -> onRateChange c = true -> onRateChange c' = true) ->
    adjustmentCount c' = (if len (changes [currentRate c; currentRate c']) =? 0 then adjustmentCount c else u64 (adjustmentCount c + 1)) /\
    0 <= len (changes [currentRate c; currentRate c']) <= 1 /\
    rates_called c' = rates_called c ++ (if onRateChange c then changes [currentRate c; currentRate c'] else []) /\
    (e <> Callback false -> onRateChange c = true -> onRateChange c' = true)) as Hsame.
  { intros c' E1 E2 E3 E4. cbn [changes]. rewrite E1, Z.eqb_refl. change (len []) with 0. split; [done|]. split; [lia|].
    split; [|done]. rewrite E3. by destruct (onRateChange c); rewrite app_nil_r. }
  cbv zeta. destruct e as [p|s|now|[]| |]; cbn [handle]; try (by apply Hsame); [unfold UpdateGOPStats; case_bool; by apply Hsame|].
  unfold adjustRate. destruct (Z.eqb_spec (next_rate c) (currentRate c)) as [E|E]; [by apply Hsame|]. cbn.
  rewrite (proj2 (Z.eqb_neq (currentRate c) _)) by lia. change (len [_]) with 1. split; [done|]. split; [lia|].
  split; [|done]. destruct (onRateChange c); by rewrite ?app_nil_r.
Qed.

Lemma bp_run_ok cfg l c n :
  MinRate cfg <= MaxRate cfg -> bp_ok cfg c -> adjustmentCount c = n -> 0 <= n -> n + len l < 2 ^ 62 ->
  Forall (fun r => MinRate cfg <= r <= MaxRate cfg) (rates l c) /\ bp_ok cfg (run l c) /\
  adjustmentCount (run l c) = n + len (changes (rates l c)).
Proof.
  intros Hl. revert c n. induction l as [|e l IH]; intros c n Hc Hn H0 Hlen.
  { cbn [rates run changes fold_left]. change (len (@nil Z)) with 0. rewrite Z.add_0_r. split; [|done]. constructor; [apply Hc|constructor]. }
  rewrite changes_step, len_app. rewrite len_cons in Hlen. pose proof (len_nonneg l).
  destruct (handle_books e c) as (B1 & B2 & _). set (ch := changes [_; _]) in *.
  change (run (e :: l) c) with (run l (handle e c)). change (rates (e :: l) c) with (currentRate c :: rates l (handle e c)).
  assert (adjustmentCount (handle e c) = n + len ch) as Ha.
  { rewrite B1, Hn. destruct (Z.eqb_spec (len ch) 0); [lia|]. rewrite u64_id by (pow_consts; lia). lia. }
  destruct (IH (handle e c) (n + len ch)) as (H1 & H2 & H3); [by apply handle_ok|done|lia|lia|].
  split; [constructor; [apply Hc|done]|]. split; [done|]. rewrite H3. lia.
Qed.

Lemma run_called l c :
  onRateChange c = true -> Forall (fun e => e <> Callback false) l ->
  rates_called (run l c) = rates_called c ++ changes (rates l c).
Proof.
  intros Hc Hl. revert c Hc. induction Hl as [|e l He _ IH]; intros c Hc.
  { cbn. by rewrite app_nil_r. }
  rewrite changes_step. destruct (handle_books e c) as (_ & _ & B3 & B4).
  change (run (e :: l) c) with (run l (handle e c)). rewrite IH by auto. by rewrite B3, Hc, app_assoc.
Qed.

(** whatever the pressures, GOP statistics and ticks, the rate never leaves
    its limits and the history its size; every change of the rate is counted
    once and, while the callback is set, reported once, in order, with the new
    rate. *)
Theorem rate_books (id : string) (cfg : Config) (l : list event) :
  MinRate cfg <= MaxRate cfg -> 0 <= HistorySize cfg -> len l < 2 ^ 62 ->
  exists c, NewController id cfg = Ret c /\ Forall (fun r => MinRate cfg <= r <= MaxRate cfg) (rates l c) /\
    bp_ok cfg (run l c) /\ adjustmentCount (run l c) = len (changes (rates l c)) /\
    (Forall (fun e => e <> Callback false) l -> let c := SetRateChangeCallback true c in rates_called (run l c) = changes (rates l c)).
Proof.
  intros Hc Hh Hl. unfold NewController. rewrite (proj2 (Z.ltb_ge _ _)) by lia. set (c0 := mkController _ _ _ _ _ _ _ _ _ _ _ _ _ _ _ _ _ _ _).
  exists c0. split; [done|]. assert (bp_ok cfg c0) as H0 by (split; cbn; [done|lia|exact Hh]).
  destruct (bp_run_ok cfg l c0 0 Hc H0 eq_refl) as (H1 & H2 & H3); [lia|lia|].
  split; [done|]. split; [done|]. split; [exact H3|]. intros Hl'. by apply run_called.
Qed.

Definition default_config : Config :=
  mkConfig (100 * 1024) (10 * 1024 * 1024) (f64_dec 5 1) (f64_dec 12 1) (f64_dec 8 1) second 10.

Lemma rate_books_witness :
  let l := [Pressure (f64_dec 95 2); Adjust 1; Adjust 2; Pressure (f64_dec 5 1); Adjust 3; Pressure (f64_of_Z 0); Adjust 4] in
  exists c, NewController "s" default_config = Ret c /\ bp_ok default_config (run l c) /\
    adjustmentCount (run l c) = 4 /\
    rates_called (run l (SetRateChangeCallback true c)) = [4194304; 1677721; 1670171; 3006307].
Proof.
  intros l. destruct (rate_books "s" default_config l) as (c & E & _ & H1 & H2 & H3); [by vm_compute|by vm_compute|by vm_compute|].
  exists c. split; [exact E|]. split; [exact H1|].
  unfold NewController in E. change (HistorySize default_config <? 0) with false in E. cbv beta match in E. injection E as <-.
  split; [rewrite H2; vm_compute; reflexivity|].
  rewrite H3; [vm_compute; reflexivity|]. unfold l. repeat (apply Forall_cons_2; [discriminate|]). by apply Forall_nil_2.
Defined.
