(* ===== verification/HybridQueue.v ===== *)
(** * The frame queue with disk overflow (queue/hybrid_queue.go)

    A bounded channel in memory, an append-only file behind it and a goroutine
    that pumps the file into the channel.  An operation is one step with its
    counters; what the rate limiter, the file writes, the timers and [select]
    do are arguments. *)

From S2P Require Import Prelude Float64.

Inductive queue_error : Type :=
| ErrRateLimited | ErrQueueClosed | ErrCorruptedData | ErrEOF | ErrUnexpectedEOF | ErrWrite | ErrFlush
| ErrTimeout | ErrClosing | ErrEmpty | ErrNotInMemory | ErrAlreadyClosed.

(** Where the pump is: before its tests, holding a message, gone. *)
Inductive pump_pc : Type := PumpTop | PumpHolding (data : list Z) | PumpReturned.

Record HybridQueue := mkQueue {
  memQueue : list (list Z);
  memSize : Z;
  diskFile : list Z;
  writer_failed : bool;
  readOffset : Z;
  depth : Z;
  diskBytes : Z;
  memCount : Z;
  closed : bool;
  pump : pump_pc
}.
#[export] Instance eta_queue : Eta HybridQueue := fun q =>
  mkQueue (memQueue q) (memSize q) (diskFile q) (writer_failed q) (readOffset q) (depth q) (diskBytes q) (memCount q)
    (closed q) (pump q).

(** [old] is what the overflow file already holds. *)
Definition NewHybridQueue (size : Z) (old : list Z) : res HybridQueue :=
  if size <? 0 then Panic else Ret (mkQueue [] size old false 0 0 0 0 false PumpTop).

(** [binary.BigEndian.PutUint32] and its reading. *)
Definition put_be32 (n : Z) : list Z := [u8 (Z.shiftr n 24); u8 (Z.shiftr n 16); u8 (Z.shiftr n 8); u8 n].
Definition get_be32 (a b c d : Z) : Z := Z.lor (Z.lor (Z.shiftl a 24) (Z.shiftl b 16)) (Z.lor (Z.shiftl c 8) d).

Definition record_of (data : list Z) : list Z := put_be32 (u32 (len data)) ++ data.
#[local] Arguments record_of data : simpl never.

(** The writer buffers 64 KiB and is always empty here: a larger record goes to
    the file at once, a smaller one with the flush.  [Some k]: the file takes
    only [k] bytes of it, and the writer's error stays. *)
Definition writeToDisk (data : list Z) (fails : option nat) (q : HybridQueue) : HybridQueue * exn queue_error unit :=
  if writer_failed q then (q, Err ErrWrite)
  else
    let record := record_of data in
    let booked := q <| depth := i64 (depth q + 1) |> <| diskBytes := i64 (diskBytes q + len record) |> in
    match fails with
    | None => (booked <| diskFile := diskFile q ++ record |>, Val tt)
    | Some k =>
        let partial (q : HybridQueue) := q <| diskFile := diskFile q ++ take k record |> <| writer_failed := true |> in
        if 65536 <? len record then (partial q, Err ErrWrite) else (partial booked, Err ErrFlush)
    end.

Definition Enqueue (data : list Z) (allowed : bool) (fails : option nat) (q : HybridQueue) : HybridQueue * exn queue_error unit :=
  if closed q then (q, Err ErrQueueClosed)
  else if negb allowed then (q, Err ErrRateLimited)
  else if len (memQueue q) <? memSize q then
    (q <| memQueue := memQueue q ++ [data] |> <| depth := i64 (depth q + 1) |> <| memCount := i64 (memCount q + 1) |>, Val tt)
  else writeToDisk data fails q.

(** A receive from the channel, if it holds something. *)
Definition receive (q : HybridQueue) : option (HybridQueue * list Z) :=
  match memQueue q with
  | [] => None
  | d :: rest => Some (q <| memQueue := rest |> <| depth := i64 (depth q - 1) |> <| memCount := i64 (memCount q - 1) |>, d)
  end.
Definition drained (q : HybridQueue) : bool := closed q && (depth q =? 0).

Definition TryDequeue (q : HybridQueue) : HybridQueue * exn queue_error (list Z) :=
  if drained q then (q, Err ErrQueueClosed)
  else
    match receive q with
    | Some (q, d) => (q, Val d)
    | None => (q, Err (if depth q =? 0 then ErrEmpty else ErrNotInMemory))
    end.

(** Which ready case the [select] of a timed dequeue takes; [None] when the
    case is not ready. *)
Inductive choice : Type := TakeData | TakeTimeout | TakeClose.
Definition DequeueTimeout (timeout : Z) (c : choice) (q : HybridQueue) : option (HybridQueue * exn queue_error (list Z)) :=
  if drained q then Some (q, Err ErrQueueClosed)
  else
    match c with
    | TakeData => match receive q with Some (q, d) => Some (q, Val d) | None => None end
    | TakeTimeout => if 0 <? timeout then Some (q, Err ErrTimeout) else None
    | TakeClose =>
        if closed q then
          Some (match receive q with
                | Some (q, d) => (q, Val d)
                | None => (q, Err (if depth q =? 0 then ErrQueueClosed else ErrClosing))
                end)
        else None
    end.
(** The loop of Dequeue over the choices of its turns; [None] when it still
    runs. *)
Fixpoint Dequeue (cs : list choice) (q : HybridQueue) : option (HybridQueue * exn queue_error (list Z)) :=
  if drained q then Some (q, Err ErrQueueClosed)
  else
    match cs with
    | [] => None
    | c :: cs =>
        match DequeueTimeout (100 * millisecond) c q with
        | Some (q, Val d) => Some (q, Val d)
        | Some (q, Err _) => Dequeue cs q
        | None => None
        end
    end.

Definition HasDiskData (q : HybridQueue) : bool := 0 <? diskBytes q.

Definition readFromDisk (q : HybridQueue) : res (HybridQueue * exn queue_error (list Z)) :=
  let size := len (diskFile q) in
  if size <=? readOffset q then Ret (q, Err ErrEOF)
  else if size <? readOffset q + 4 then Ret (q, Err ErrUnexpectedEOF)
  else
    a ← idx (diskFile q) (readOffset q);
    b ← idx (diskFile q) (readOffset q + 1);
    c ← idx (diskFile q) (readOffset q + 2);
    d ← idx (diskFile q) (readOffset q + 3);
    let length := get_be32 a b c d in
    if 10 * 1024 * 1024 <? length then Ret (q <| readOffset := i64 (readOffset q + 4) |>, Err ErrCorruptedData)
    else if size <? i64 (i64 (readOffset q + 4) + length) then Ret (q, Err ErrEOF)
    else
      data ← slice (diskFile q) (readOffset q + 4) (readOffset q + 4 + length);
      Ret (q <| readOffset := i64 (readOffset q + u32 (4 + length)) |> <| diskBytes := i64 (diskBytes q - u32 (4 + length)) |>,
           Val data).

(** One turn of the pump; [on_close]: its [select] takes the close signal. *)
Definition pump_step (on_close : bool) (q : HybridQueue) : option (res HybridQueue) :=
  match pump q with
  | PumpReturned => None
  | PumpTop =>
      if closed q then Some (Ret (q <| pump := PumpReturned |>))
      else if (memSize q <=? memCount q) || negb (HasDiskData q) then Some (Ret q)
      else Some ('(q, r) ← readFromDisk q;
                 match r with Val data => Ret (q <| pump := PumpHolding data |>) | Err _ => Ret q end)
  | PumpHolding data =>
      if on_close then (if closed q then Some (Ret (q <| pump := PumpReturned |>)) else None)
      else if len (memQueue q) <? memSize q
      then Some (Ret (q <| memQueue := memQueue q ++ [data] |> <| memCount := i64 (memCount q + 1) |> <| pump := PumpTop |>))
      else None
  end.

(** The file is removed; Close waits for the pump in between. *)
Definition Close (q : HybridQueue) : HybridQueue * exn queue_error unit :=
  if closed q then (q, Err ErrAlreadyClosed) else (q <| closed := true |>, Val tt).

Definition GetDepth (q : HybridQueue) : Z := depth q.
Definition GetPressure (q : HybridQueue) : float64 :=
  let memPressure := f64_div (f64_of_Z (memCount q)) (f64_of_Z (memSize q)) in
  if HasDiskData q then f64_add memPressure (f64_div (f64_of_Z (diskBytes q)) (f64_of_Z (1024 * 1024 * 100))) else memPressure.
Definition Stats (q : HybridQueue) : Z * Z * Z * float64 := (depth q, memCount q, diskBytes q, GetPressure q).

(** ** Runs *)

Inductive event : Type := Put (data : list Z) (allowed : bool) | Take | Pump.

(** What a run has accepted, each message with whether it went to the file, and
    what it has delivered. *)
Record log := mkLog { accepted : list (bool * list Z); delivered : list (list Z) }.

Definition step (e : event) (s : HybridQueue * log) : option (res (HybridQueue * log)) :=
  let '(q, lg) := s in
  match e with
  | Put data allowed =>
      let '(q', r) := Enqueue data allowed None q in
      Some (Ret (q', match r with
                     | Val _ => mkLog (accepted lg ++ [(memSize q <=? len (memQueue q), data)]) (delivered lg)
                     | Err _ => lg
                     end))
  | Take =>
      let '(q', r) := TryDequeue q in
      Some (Ret (q', match r with Val d => mkLog (accepted lg) (delivered lg ++ [d]) | Err _ => lg end))
  | Pump => match pump_step false q with Some r => Some (q ← r; Ret (q, lg)) | None => None end
  end.
(** An event that cannot happen now is skipped. *)
Fixpoint run (l : list event) (s : HybridQueue * log) : res (HybridQueue * log) :=
  match l with
  | [] => Ret s
  | e :: l => s ← default (Ret s) (step e s); run l s
  end.

(** ** Records on disk *)

Lemma be32_roundtrip n : 0 <= n < 2 ^ 32 ->
  get_be32 (u8 (Z.shiftr n 24)) (u8 (Z.shiftr n 16)) (u8 (Z.shiftr n 8)) (u8 n) = n.
Proof.
  intros Hn. unfold get_be32, u8. rewrite !Z.shiftr_div_pow2 by lia.
  set (a := (n / 2 ^ 24) mod 2 ^ 8). set (b := (n / 2 ^ 16) mod 2 ^ 8). set (c := (n / 2 ^ 8) mod 2 ^ 8). set (d := n mod 2 ^ 8).
  assert (0 <= a < 256 /\ 0 <= b < 256 /\ 0 <= c < 256 /\ 0 <= d < 256) as (? & ? & ? & ?)
    by (unfold a, b, c, d; repeat split; apply Z.mod_pos_bound; lia).
  assert (n = d + c * 2 ^ 8 + b * 2 ^ 16 + a * 2 ^ 24) as E
    by (subst a b c d; clear -Hn; pow_consts; Z.to_euclidean_division_equations; lia).
  clearbody a b c d. rewrite (lor_shl_join d c 8) by lia.
  replace (Z.lor (Z.shiftl a 24) (Z.shiftl b 16)) with (Z.shiftl (b + a * 2 ^ 8) 16).
  - rewrite lor_shl_join by (pow_consts; lia). lia.
  - rewrite lor_shl_join by (rewrite ?Z.shiftl_mul_pow2 by lia; pow_consts; lia). rewrite !Z.shiftl_mul_pow2 by lia. lia.
Qed.

Definition max_message : Z := 10 * 1024 * 1024.
Lemma len_record d : len d <= max_message -> len (record_of d) = 4 + len d.
Proof. intros. unfold record_of. by rewrite len_app. Qed.

Lemma readFromDisk_record pre d rest q :
  diskFile q = pre ++ record_of d ++ rest -> readOffset q = len pre -> len d <= max_message -> len (diskFile q) < 2 ^ 62 ->
  readFromDisk q = Ret (q <| readOffset := len pre + (4 + len d) |> <| diskBytes := i64 (diskBytes q - (4 + len d)) |>, Val d).
Proof.
  intros Hf Ho Hd Hl. unfold readFromDisk. unfold max_message in *. pose proof (len_nonneg d). pose proof (len_nonneg pre).
  pose proof (len_nonneg rest).
  assert (len (diskFile q) = len pre + (4 + len d) + len rest) as Hlen by (rewrite Hf, !len_app, len_record by done; lia).
  rewrite Ho, Hlen, (proj2 (Z.leb_gt _ _)), (proj2 (Z.ltb_ge _ _)) by lia. rewrite Hf. unfold record_of, put_be32.
  rewrite (u32_id (len d)) by (pow_consts; lia). set (n := len d) in *.
  set (b0 := u8 (Z.shiftr n 24)). set (b1 := u8 (Z.shiftr n 16)). set (b2 := u8 (Z.shiftr n 8)). set (b3 := u8 n).
  change (([b0; b1; b2; b3] ++ d) ++ rest) with (b0 :: b1 :: b2 :: b3 :: (d ++ rest)).
  rewrite idx_tail0, !idx_tail by lia. cbn [idx]. change (idx (b0 :: ?l) 0) with (Ret b0).
  change (idx (b0 :: b1 :: ?l) 1) with (Ret b1). change (idx (b0 :: b1 :: b2 :: ?l) 2) with (Ret b2).
  change (idx (b0 :: b1 :: b2 :: b3 :: ?l) 3) with (Ret b3). rewrite !bind_Ret.
  assert (get_be32 b0 b1 b2 b3 = n) as E by (apply be32_roundtrip; pow_consts; lia). rewrite E.
  rewrite (proj2 (Z.ltb_ge _ _)) by lia. rewrite !(i64_id (len pre + 4)) by lia. rewrite (i64_id (len pre + 4 + n)) by lia.
  rewrite (proj2 (Z.ltb_ge _ _)) by lia.
  assert (slice (pre ++ b0 :: b1 :: b2 :: b3 :: d ++ rest) (len pre + 4) (len pre + 4 + n) = Ret d) as ->.
  { change (b0 :: b1 :: b2 :: b3 :: d ++ rest) with ([b0; b1; b2; b3] ++ (d ++ rest)). rewrite app_assoc.
    assert (len (pre ++ [b0; b1; b2; b3]) = len pre + 4) as Hp by (by rewrite len_app).
    rewrite slice_Ret by (rewrite !len_app in *; fold n; lia). f_equal. rewrite dropZ_app_ge by lia.
    rewrite Hp, Z.sub_diag, dropZ_0 by lia. replace (len pre + 4 + n - (len pre + 4)) with (len d) by (fold n; lia).
    rewrite takeZ_app_le by lia. by apply takeZ_all. }
  rewrite bind_Ret, (u32_id (4 + n)) by (pow_consts; lia). by rewrite (i64_id (len pre + (4 + n))) by lia.
Qed.

(** ** What a run keeps *)

(** The messages of a log that went the way [b]. *)
Definition side (b : bool) (l : list (bool * list Z)) : list (list Z) :=
  omap (fun e => if Bool.eqb e.1 b then Some e.2 else None) l.
Definition held (p : pump_pc) : list (list Z) := match p with PumpHolding d => [d] | _ => [] end.

(** [out]: what the channel has been given, in order; [disk]: the records not
    read yet. *)
Record queue_inv (size n : Z) (out : list (bool * list Z)) (disk : list (list Z)) (q : HybridQueue) (lg : log) : Prop := {
  qi_open : closed q = false /\ writer_failed q = false /\ pump q <> PumpReturned /\ memSize q = size;
  qi_out : snd <$> out = delivered lg ++ memQueue q;
  qi_direct : side false (accepted lg) = side false out;
  qi_spilled : side true (accepted lg) = side true out ++ held (pump q) ++ disk;
  qi_file : exists pre, diskFile q = pre ++ mjoin (record_of <$> disk) /\ readOffset q = len pre;
  qi_small : Forall (fun d => len d <= max_message) disk;
  qi_bytes : diskBytes q = len (mjoin (record_of <$> disk));
  qi_depth : depth q = len (memQueue q) + len (held (pump q)) + len disk;
  qi_mem : memCount q = len (memQueue q) /\ len (memQueue q) <= size;
  qi_bound : len (diskFile q) <= n * 2 ^ 24 /\ len (memQueue q) + len (held (pump q)) + len disk <= n
}.

Lemma queue_inv_more size n out disk q lg : queue_inv size n out disk q lg -> queue_inv size (n + 1) out disk q lg.
Proof. intros [O I1 I2 I3 I4 I6 I7 I8 I9 [I10 I11]]. split; try done. pow_consts. lia. Qed.

Definition put_ok (e : event) : Prop := match e with Put d _ => len d <= max_message | _ => True end.

Lemma side_snoc b l e : side b (l ++ [e]) = side b l ++ (if Bool.eqb e.1 b then [e.2] else []).
Proof. unfold side. rewrite omap_app. cbn. by destruct (Bool.eqb e.1 b). Qed.

Lemma enqueue_inv size n out disk q lg data allowed :
  0 < size -> 0 <= n < 2 ^ 30 -> len data <= max_message -> queue_inv size n out disk q lg ->
  exists q' lg' out' disk', step (Put data allowed) (q, lg) = Some (Ret (q', lg')) /\
    queue_inv size (n + 1) out' disk' q' lg'.
Proof.
  intros Hs Hn Hd Hi. pose proof (queue_inv_more _ _ _ _ _ _ Hi) as Hsame. revert Hi.
  intros [(O1 & O2 & O3 & O4) I1 I2 I3 (pre & I4 & I5) I6 I7 I8 [I9 I9'] [I10 I11]]. cbn [step]. unfold Enqueue. rewrite O1.
  destruct allowed; cbn [negb]; [|by eexists _, _, out, disk].
  pose proof (len_nonneg data). pose proof (len_nonneg (memQueue q)). pose proof (len_nonneg (held (pump q))). pose proof (len_nonneg disk).
  rewrite O4. destruct (Z.ltb_spec (len (memQueue q)) size) as [Hroom|Hfull].
  - eexists _, _, (out ++ [(false, data)]), disk. split; [done|].
    assert (size <=? len (memQueue q) = false) as -> by (apply Z.leb_gt; lia).
    split; cbn [closed writer_failed pump memSize memQueue delivered accepted diskFile readOffset diskBytes depth memCount]; try done.
    + cbn. rewrite fmap_app, I1, app_assoc. done.
    + rewrite !side_snoc. cbn. by rewrite I2.
    + rewrite !side_snoc, !app_nil_r. exact I3.
    + by exists pre.
    + cbn. rewrite len_app, I8, i64_id by (pow_consts; lia). change (len [data]) with 1. lia.
    + cbn. rewrite len_app, I9, i64_id by (pow_consts; lia). change (len [data]) with 1. lia.
    + cbn. rewrite len_app. change (len [data]) with 1. lia.
  - unfold writeToDisk. rewrite O2. eexists _, _, (out), (disk ++ [data]). split; [done|]. rewrite (proj2 (Z.leb_le _ _)) by lia.
    assert (len (record_of data) = 4 + len data) as Hrec by by apply len_record.
    assert (len (mjoin (record_of <$> disk)) <= len (diskFile q)) as Hle by (rewrite I4, len_app; pose proof (len_nonneg pre); lia).
    unfold max_message in *. pose proof (len_nonneg (mjoin (record_of <$> disk))).
    split; cbn [closed writer_failed pump memSize memQueue delivered accepted diskFile readOffset diskBytes depth memCount]; try done.
    + rewrite side_snoc, app_nil_r. exact I2.
    + rewrite side_snoc, I3. cbn. by rewrite <- !app_assoc.
    + exists pre. cbn. rewrite I4, fmap_app, join_app. cbn. rewrite app_nil_r. by rewrite <- app_assoc.
    + apply Forall_app. split; [done|by constructor].
    + cbn. rewrite fmap_app, join_app, len_app, I7. cbn. rewrite app_nil_r. apply i64_id. pow_consts; lia.
    + cbn. rewrite I8, len_app, i64_id by (pow_consts; lia). change (len [data]) with 1. lia.
    + cbn. rewrite !len_app. change (len [data]) with 1. pow_consts. lia.
Qed.

Lemma take_inv size n out disk q lg :
  0 <= n < 2 ^ 30 -> queue_inv size n out disk q lg ->
  exists q' lg', step Take (q, lg) = Some (Ret (q', lg')) /\ queue_inv size (n + 1) out disk q' lg'.
Proof.
  intros Hn Hi. pose proof (queue_inv_more _ _ _ _ _ _ Hi) as Hsame. revert Hi.
  intros [(O1 & O2 & O3 & O4) I1 I2 I3 (pre & I4 & I5) I6 I7 I8 [I9 I9'] [I10 I11]]. cbn [step]. unfold TryDequeue, drained, receive.
  rewrite O1. cbn [andb]. destruct (memQueue q) as [|d mem] eqn:Em; [by eexists _, _|].
  pose proof (len_nonneg mem). pose proof (len_nonneg (held (pump q))). pose proof (len_nonneg disk). rewrite len_cons in *.
  eexists _, _. split; [done|]. split; cbn; try done.
  - rewrite I1. by rewrite <- app_assoc.
  - by exists pre.
  - rewrite I8, i64_id by (pow_consts; lia). lia.
  - rewrite I9, i64_id by (pow_consts; lia). lia.
  - lia.
Qed.

Lemma pump_inv size n out disk q lg :
  0 <= n < 2 ^ 30 -> queue_inv size n out disk q lg ->
  step Pump (q, lg) = None \/
  exists q' lg' out' disk', step Pump (q, lg) = Some (Ret (q', lg')) /\ queue_inv size (n + 1) out' disk' q' lg'.
Proof.
  intros Hn Hi. pose proof (queue_inv_more _ _ _ _ _ _ Hi) as Hsame. revert Hi.
  intros [(O1 & O2 & O3 & O4) I1 I2 I3 (pre & I4 & I5) I6 I7 I8 [I9 I9'] [I10 I11]]. cbn [step]. unfold pump_step.
  pose proof (len_nonneg (memQueue q)). pose proof (len_nonneg disk).
  destruct (pump q) as [|data|] eqn:Ep; [| |done]; cbn [held] in *.
  - right. rewrite O1.
    destruct ((memSize q <=? memCount q) || negb (HasDiskData q)) eqn:E; [by eexists _, _, _, _|].
    apply orb_false_iff in E as [_ E]. apply negb_false_iff in E. unfold HasDiskData in E. zbool.
    destruct disk as [|d disk]; [rewrite I7 in E; done|]. apply Forall_cons in I6 as [Id I6].
    rewrite fmap_cons in I4, I7. change (mjoin (record_of d :: (record_of <$> disk))) with (record_of d ++ mjoin (record_of <$> disk)) in I4, I7.
    rewrite (readFromDisk_record pre d (mjoin (record_of <$> disk)) q) by (done || (pow_consts; lia)). rewrite !bind_Ret.
    eexists _, _, out, disk. split; [done|]. rewrite len_cons in *. pose proof (f_equal len I4) as Hlen. rewrite !len_app, len_record in Hlen by done.
    pose proof (len_nonneg (mjoin (record_of <$> disk))). pose proof (len_nonneg d). pose proof (len_nonneg pre). rewrite len_app, len_record in I7 by done.
    split; cbn -[mjoin fmap]; try done.
    + exists (pre ++ record_of d). rewrite I4, <- app_assoc. split; [done|]. by rewrite len_app, len_record.
    + rewrite I7, i64_id by (pow_consts; lia). lia.
    + rewrite I8. change (len [d]) with 1. change (len []) with 0. lia.
    + change (len [d]) with 1. change (len []) with 0 in *. pow_consts. lia.
  - rewrite O4. change (len [data]) with 1 in *. destruct (Z.ltb_spec (len (memQueue q)) size); [right|by left]. rewrite bind_Ret.
    eexists _, _, (out ++ [(true, data)]), disk. split; [done|]. split; cbn -[mjoin fmap]; try done.
    + rewrite fmap_app, I1, app_assoc. done.
    + rewrite side_snoc, app_nil_r. exact I2.
    + rewrite side_snoc, I3. cbn. by rewrite <- app_assoc.
    + by exists pre.
    + rewrite I8, len_app. change (len [data]) with 1. change (len []) with 0. lia.
    + rewrite I9, len_app, i64_id by (pow_consts; lia). change (len [data]) with 1. lia.
    + rewrite len_app. change (len [data]) with 1. change (len []) with 0. pow_consts. lia.
Qed.

Lemma queue_run_inv size n l out disk q lg :
  0 < size -> 0 <= n -> n + len l < 2 ^ 30 -> Forall put_ok l -> queue_inv size n out disk q lg ->
  exists q' lg' out' disk', run l (q, lg) = Ret (q', lg') /\ queue_inv size (n + len l) out' disk' q' lg'.
Proof.
  intros Hs Hn Hl Hp. revert n out disk q lg Hn Hl. induction Hp as [|e l He Hp IH]; intros n out disk q lg Hn Hl Hi.
  { exists q, lg, out, disk. split; [done|]. by rewrite (@len_nil event), Z.add_0_r. }
  rewrite len_cons in *. pose proof (len_nonneg l). cbn [run]. rewrite Z.add_assoc.
  assert (step e (q, lg) = None \/ exists q' lg' out' disk', step e (q, lg) = Some (Ret (q', lg')) /\
    queue_inv size (n + 1) out' disk' q' lg') as [->|(q' & lg' & out' & disk' & -> & Hi')].
  { destruct e as [data allowed| |].
    - right. apply (enqueue_inv size n out disk); done || lia.
    - right. destruct (take_inv size n out disk q lg) as (q' & lg' & ? & ?); [lia|done|]. by exists q', lg', out, disk.
    - apply (pump_inv size n out disk); done || lia. }
  - cbn [default]. rewrite bind_Ret. apply (IH (n + 1) out disk); [lia|lia|].
    by apply queue_inv_more.
  - cbn [default]. unfold id. rewrite bind_Ret. apply (IH (n + 1) out' disk'); [lia|lia|done].
Qed.

(** with an empty overflow file and messages of at most 10 MiB, whatever the
    interleaving of producers, consumers and the pump, no message is lost,
    repeated or changed: what went to memory and what went to the file each
    come out in their own order, the depth is exactly the number of messages not
    delivered, the other counters are exact, memory keeps its bound, and the
    pump can always move the next message from the file while there is room.
    With no overflow the queue is first in, first out. *)
Theorem queue_delivers (size : Z) (l : list event) :
  0 < size -> len l < 2 ^ 30 -> Forall put_ok l ->
  exists q0 q lg out disk, NewHybridQueue size [] = Ret q0 /\ run l (q0, mkLog [] []) = Ret (q, lg) /\
    snd <$> out = delivered lg ++ memQueue q /\
    side false (accepted lg) = side false out /\
    side true (accepted lg) = side true out ++ held (pump q) ++ disk /\
    depth q = len (accepted lg) - len (delivered lg) /\
    memCount q = len (memQueue q) /\ len (memQueue q) <= size /\
    diskBytes q = len (mjoin (record_of <$> disk)) /\
    (side true (accepted lg) = [] -> snd <$> accepted lg = delivered lg ++ memQueue q) /\
    (disk <> [] -> len (memQueue q) < size ->
       exists q', step Pump (q, lg) = Some (Ret (q', lg)) /\
         (pump q = PumpTop -> held (pump q') = take 1 disk) /\ (held (pump q) <> [] -> memQueue q' = memQueue q ++ held (pump q))).
Proof.
  intros Hs Hl Hp. unfold NewHybridQueue. rewrite (proj2 (Z.ltb_ge _ _)) by lia. set (q0 := mkQueue _ _ _ _ _ _ _ _ _ _).
  assert (queue_inv size 0 [] [] q0 (mkLog [] [])) as H0 by (split; cbn; try done; [by exists []|change (len (@nil (list Z))) with 0; lia]).
  destruct (queue_run_inv size 0 l [] [] q0 (mkLog [] []) Hs ltac:(lia) Hl Hp H0) as (q & lg & out & disk & E & Hi).
  pose proof Hi as [(O1 & O2 & O3 & O4) I1 I2 I3 (pre & I4 & I5) I6 I7 I8 [I9 I9'] [I10 I11]].
  exists q0, q, lg, out, disk. split; [done|]. split; [done|]. split; [done|]. split; [done|]. split; [done|].
  assert (forall l, len l = len (side false l) + len (side true l)) as Hside.
  { clear. induction l as [|[[] d] l IH]; [done| |]; unfold side in *; cbn; rewrite !len_cons; lia. }
  split.
  { rewrite I8, (Hside (accepted lg)), I2, I3, !len_app. pose proof (Hside out). pose proof (f_equal len I1) as Hlen.
    rewrite len_app in Hlen. unfold len in Hlen at 1. rewrite length_fmap in Hlen. fold (len out) in Hlen. lia. }
  split; [done|]. split; [done|]. split; [done|]. split.
  { intros Hno. rewrite Hno in I3. symmetry in I3. apply app_eq_nil in I3 as [I3 _]. rewrite <- I1.
    assert (forall l, side true l = [] -> snd <$> l = side false l) as Hfalse.
    { clear. induction l as [|[[] d] l IH]; [done|done|]. unfold side in *. cbn. intros H. by rewrite IH. }
    by rewrite !Hfalse, I2. }
  intros Hdisk Hroom. cbn [step]. unfold pump_step. destruct (pump q) as [|data|] eqn:Ep; [| |done].
  - rewrite O1, O4, I9. destruct disk as [|d disk]; [done|]. apply Forall_cons in I6 as [Id I6].
    rewrite fmap_cons in I4, I7. change (mjoin (record_of d :: (record_of <$> disk))) with (record_of d ++ mjoin (record_of <$> disk)) in I4, I7. rewrite len_app, len_record in I7 by done.
    pose proof (len_nonneg (mjoin (record_of <$> disk))). pose proof (len_nonneg d).
    rewrite (proj2 (Z.leb_gt _ _)) by lia. unfold HasDiskData. rewrite I7, (proj2 (Z.ltb_lt 0 _)) by lia. cbn [negb orb].
    rewrite (readFromDisk_record pre d (mjoin (record_of <$> disk)) q) by (done || (pow_consts; lia)). rewrite !bind_Ret.
    eexists. split; [done|]. split; [done|]. by intros [].
  - rewrite O4, (proj2 (Z.ltb_lt _ _)), bind_Ret by lia. eexists. split; [done|]. by split.
Qed.

Lemma queue_delivers_witness :
  exists q0 q lg, NewHybridQueue 1 [] = Ret q0 /\
    run [Put [1] true; Put [2; 2] true; Put [3] true; Take; Pump; Pump; Take; Put [4] true; Pump] (q0, mkLog [] []) = Ret (q, lg) /\
    depth q = 2 /\ delivered lg = [[1]; [2; 2]].
Proof.
  set (l := [Put [1] true; Put [2; 2] true; Put [3] true; Take; Pump; Pump; Take; Put [4] true; Pump]).
  destruct (queue_delivers 1 l) as (q0 & q & lg & out & disk & E0 & E & _ & _ & _ & Hd & _).
  - done.
  - done.
  - unfold l. repeat (apply Forall_cons_2; [by vm_compute|]). by apply Forall_nil_2.
  - exists q0, q, lg. split; [exact E0|]. split; [exact E|]. injection E0 as <-. rewrite Hd.
    unfold l in E. vm_compute in E. injection E as <- <-. by split.
Defined.

(** A message that finds room in memory overtakes those in the file. *)
Example overtakes :
  match NewHybridQueue 1 [] with
  | Ret q => '(_, lg) ← run [Put [1] true; Put [2] true; Take; Put [3] true; Take; Pump; Pump; Take] (q, mkLog [] []); Ret (delivered lg)
  | _ => Ret []
  end = Ret [[1]; [3]; [2]].
Proof. vm_compute. reflexivity. Qed.

(** A file left by an earlier run is neither truncated nor counted: its record
    is delivered in the place of this run's, which stays in the file for good
    while the counters say that nothing is left. *)
Example leftover_file :
  match NewHybridQueue 1 (record_of [9]) with
  | Ret q => '(q, lg) ← run [Put [1] true; Put [2] true; Take; Pump; Pump; Take; Pump; Pump; Take] (q, mkLog [] []);
             Ret (delivered lg, depth q, diskBytes q)
  | _ => Ret ([], 0, 0)
  end = Ret ([[1]; [9]], 0, 0).
Proof. vm_compute. reflexivity. Qed.

(** Close leaves what is in the file: the depth stays positive, and Dequeue
    turns without end, each time told that the queue is closing. *)
Lemma dequeue_spins q n :
  closed q = true -> depth q <> 0 -> memQueue q = [] -> Dequeue (replicate n TakeClose) q = None.
Proof.
  intros Hc Hd Hm. induction n as [|n IH]; cbn [Dequeue replicate]; unfold DequeueTimeout, drained, receive;
    rewrite Hc, (proj2 (Z.eqb_neq _ _)), ?Hm by done; [done|exact IH].
Qed.
