(* ===== verification/BitSyntax.v ===== *)
(** * Parsers of bit syntax

    Parameter sets are sequences of syntax elements ([item]s of [TypesBits]).
    [parses m l a]: the parser [m] takes exactly the elements [l] and returns [a],
    whatever follows.  [safe m]: [m] never panics, and what it returned stays the
    same when more bits follow.  Together: cut short, the elements are refused.
    Both are closed under the monad's operations, so a parser's lemma is a walk
    over its code ([parse_steps], [safe_steps]). *)

From stdpp Require Import strings.
From S2P Require Import Prelude Returns.
From S2P Require BitReader TypesBits.
Import BitReader(BitReader, mkBitReader, data, bitPos, bytePos, bit_error, wf, remaining, bits_of, bits_w, bits_value, ue_bits,
  se_code, NewBitReader, ReadBit, ReadBits, ReadUE, ReadSE).
Import TypesBits(item, IBits, IUE, ISE, item_ok, item_value, item_bits).

(** [fmt.Errorf("...: %w", err)]. *)
Definition map_err {S E F A} (f : E -> F) (m : method S E A) : method S F A := fun s =>
  match m s with
  | Ret (s', Val a) => Ret (s', Val a)
  | Ret (s', Err e) => Ret (s', Err (f e))
  | Panic => Panic
  | NoFuel => NoFuel
  end.

Definition items_bits (l : list item) : list Z := mjoin (item_bits <$> l).
Lemma items_bits_cons i l : items_bits (i :: l) = item_bits i ++ items_bits l.
Proof. done. Qed.
Lemma items_bits_app l k : items_bits (l ++ k) = items_bits l ++ items_bits k.
Proof. unfold items_bits. by rewrite fmap_app, join_app. Qed.

(** The elements of a bitstream, as the writer of [TypesBits] lays them out. *)
Lemma items_bytes l :
  Forall item_ok l -> exists d n, bytes d /\ 0 <= n < 8 /\ bits_of d = items_bits l ++ TypesBits.zeros n.
Proof.
  intros Hi. destruct (TypesBits.write_items_spec l TypesBits.NewBitWriter [] Hi) as (w & E & Hw); [by split|].
  destruct (TypesBits.GetBytes_spec w _ Hw) as (w' & E' & Hb & n & Hn & Hbits).
  by exists (TypesBits.w_data w), n.
Qed.
Lemma wf_new d : bytes d -> wf (NewBitReader d).
Proof. intros Hd. pose proof (len_nonneg d). split; [done|]. cbn. lia. Qed.
Lemma remaining_new d : remaining (NewBitReader d) = bits_of d.
Proof. unfold remaining. cbn [bytePos bitPos data NewBitReader]. by rewrite dropZ_0 by lia. Qed.

(** ** Parsers *)

Definition parses {E A} (m : method BitReader E A) (l : list item) (a : A) : Prop :=
  Forall item_ok l -> forall br rest, wf br -> remaining br = items_bits l ++ rest ->
    exists br', m br = Ret (br', Val a) /\ wf br' /\ remaining br' = rest.

Lemma parses_ret {E A} (a : A) : parses (E := E) (mret a) [] a.
Proof. intros _ br rest Hwf Hr. by exists br. Qed.
Lemma parses_bind {E A B} (m : method BitReader E A) (f : A -> method BitReader E B) l k a b :
  parses m l a -> parses (f a) k b -> parses (m ≫= f) (l ++ k) b.
Proof.
  intros Hm Hf Hi br rest Hwf Hr. apply Forall_app in Hi as [Hl Hk]. rewrite items_bits_app, <- app_assoc in Hr.
  destruct (Hm Hl br _ Hwf Hr) as (br1 & E1 & Hwf1 & Hr1). rewrite (method_bind_Val _ _ _ _ _ E1). by apply Hf.
Qed.
Lemma parses_item {E A B} (m : method BitReader E A) (f : A -> method BitReader E B) i l a b :
  parses m [i] a -> parses (f a) l b -> parses (m ≫= f) (i :: l) b.
Proof. exact (parses_bind m f [i] l a b). Qed.
Lemma parses_map_err {E F A} (f : E -> F) (m : method BitReader E A) l a : parses m l a -> parses (map_err f m) l a.
Proof.
  intros Hm Hl br rest Hwf Hr. destruct (Hm Hl br rest Hwf Hr) as (br' & E' & H). exists br'. unfold map_err. by rewrite E'.
Qed.

Lemma parses_types i : parses (TypesBits.read_item i) [i] (item_value i).
Proof.
  intros Hi br rest Hwf Hr. apply Forall_cons in Hi as [Hi _]. unfold items_bits in Hr. cbn in Hr. rewrite app_nil_r in Hr.
  by apply TypesBits.read_item_spec.
Qed.
Lemma agree_parses {E A} (m m' : method BitReader E A) l a :
  (forall br, wf br -> m' br = m br) -> parses m' l a -> parses m l a.
Proof. intros Hm H Hl br rest Hwf Hr. rewrite <- Hm by done. by apply H. Qed.

Lemma parses_bits v n : parses (ReadBits n) [IBits v n] v.
Proof. exact (agree_parses _ _ _ _ (TypesBits.ReadBits_agree n) (parses_types (IBits v n))). Qed.
Lemma parses_ue v : parses ReadUE [IUE v] v.
Proof. exact (agree_parses _ _ _ _ TypesBits.ReadUE_agree (parses_types (IUE v))). Qed.
Lemma parses_se z : parses ReadSE [ISE z] z.
Proof. exact (agree_parses _ _ _ _ TypesBits.ReadSE_agree (parses_types (ISE z))). Qed.
Lemma parses_bit v : parses ReadBit [IBits v 1] v.
Proof.
  intros Hi br rest Hwf Hr. apply Forall_cons in Hi as [[_ Hv] _]. change (2 ^ 1) with 2 in Hv.
  change (items_bits [IBits v 1] ++ rest) with ((v / 2 ^ 0) mod 2 :: rest) in Hr. change (2 ^ 0) with 1 in Hr.
  rewrite Z.div_1_r, Z.mod_small in Hr by lia.
  destruct (BitReader.ReadBit_cons br v rest Hwf Hr) as (br' & ? & ? & ? & _). eauto.
Qed.

(** ** Safety *)

Definition safe {E A} (m : method BitReader E A) : Prop := forall br, wf br ->
  exists br' r, m br = Ret (br', r) /\ wf br' /\
    forall a, r = Val a -> forall br2 x, wf br2 -> remaining br2 = remaining br ++ x ->
      exists br2', m br2 = Ret (br2', Val a) /\ wf br2' /\ remaining br2' = remaining br' ++ x.

Lemma safe_ret {E A} (a : A) : safe (E := E) (mret a).
Proof. intros br Hwf. exists br, (Val a). split; [done|]. split; [done|]. intros _ [= <-] br2 x Hwf2 Hr. by exists br2. Qed.
Lemma safe_fail {E A} (e : E) : safe (A := A) (fail e).
Proof. intros br Hwf. by exists br, (Err e). Qed.
Lemma safe_bind {E A B} (m : method BitReader E A) (f : A -> method BitReader E B) :
  safe m -> (forall a, safe (f a)) -> safe (m ≫= f).
Proof.
  intros Hm Hf br Hwf. destruct (Hm br Hwf) as (br1 & [a|e] & E1 & Hwf1 & H1).
  - destruct (Hf a br1 Hwf1) as (br' & r & E2 & Hwf2 & H2). exists br', r. rewrite (method_bind_Val _ _ _ _ _ E1).
    split; [done|]. split; [done|]. intros b -> br2 x Hw Hr. destruct (H1 a eq_refl br2 x Hw Hr) as (br3 & E3 & Hw3 & Hr3).
    rewrite (method_bind_Val _ _ _ _ _ E3). by apply H2.
  - exists br1, (Err e). by rewrite (method_bind_Err _ _ _ _ _ E1).
Qed.
Lemma safe_map_err {E F A} (f : E -> F) (m : method BitReader E A) : safe m -> safe (map_err f m).
Proof.
  intros Hm br Hwf. destruct (Hm br Hwf) as (br' & [a|e] & E1 & Hwf' & H1); unfold map_err; rewrite E1.
  - exists br', (Val a). split; [done|]. split; [done|]. intros b [= <-] br2 x Hw Hr.
    destruct (H1 a eq_refl br2 x Hw Hr) as (br3 & E3 & ?). exists br3. by rewrite E3.
  - by exists br', (Err (f e)).
Qed.
Lemma safe_if {E A} (c : bool) (m k : method BitReader E A) : safe m -> safe k -> safe (if c then m else k).
Proof. by destruct c. Qed.

Lemma safe_bit : safe ReadBit.
Proof.
  intros br Hwf. destruct (remaining br) as [|b l] eqn:Hr.
  { exists br, (Err BitReader.EndOfData). by rewrite BitReader.ReadBit_nil. }
  destruct (BitReader.ReadBit_cons br b l Hwf Hr) as (br' & -> & Hwf' & <- & _). exists br', (Val b).
  split; [done|]. split; [done|]. intros _ [= <-] br2 x Hw Hr2.
  destruct (BitReader.ReadBit_cons br2 b (remaining br' ++ x) Hw Hr2) as (br3 & ? & ? & ? & _). eauto.
Qed.
Lemma safe_bits n : safe (ReadBits n).
Proof.
  intros br Hwf. destruct (decide (0 <= n <= 32)) as [Hn|Hn].
  - destruct (BitReader.ReadBits_spec n br Hwf Hn) as [Hs Hl].
    destruct (Z.lt_ge_cases (len (remaining br)) n) as [Hlt|Hge]; [by eexists _, _; rewrite Hs|].
    destruct (Hl Hge) as (br' & -> & Hwf' & Hr' & _). exists br', (Val (bits_value (takeZ n (remaining br)))).
    split; [done|]. split; [done|]. intros _ [= <-] br2 x Hw Hr2.
    destruct (proj2 (BitReader.ReadBits_spec n br2 Hw Hn)) as (br3 & E3 & Hw3 & Hr3 & _).
    { rewrite Hr2, len_app. pose proof (len_nonneg x). lia. }
    exists br3. rewrite E3, Hr3, Hr2, Hr', takeZ_app_le, dropZ_app_le by lia. done.
  - exists br, (Err (BitReader.InvalidBitCount n)). split; [|done]. unfold ReadBits. case_bool; [done|].
    apply orb_false_iff in Heqb. lia.
Qed.
Lemma safe_ue : safe ReadUE.
Proof.
  intros br Hwf. destruct (BitReader.ReadUE_sound br Hwf) as (br' & r & E & Hwf' & _ & Hv). exists br', r.
  split; [done|]. split; [done|]. intros v -> br2 x Hw Hr. destruct (Hv v eq_refl) as [Hb Hs].
  rewrite Hs, <- app_assoc in Hr. destruct (BitReader.ReadUE_complete br2 v _ Hw Hb Hr) as (br3 & ? & ? & ? & _). eauto.
Qed.
Lemma safe_se : safe ReadSE.
Proof. unfold ReadSE. apply safe_bind; [apply safe_ue|]. intros ue. apply safe_if; apply safe_ret. Qed.

(** Cut short anywhere, elements that [m] takes are an error of [m]. *)
Lemma truncated {E A} (m : method BitReader E A) l a br y :
  safe m -> parses m l a -> Forall item_ok l -> wf br -> items_bits l = remaining br ++ y -> y <> [] ->
  exists br' e, m br = Ret (br', Err e).
Proof.
  intros Hs Hp Hl Hwf Hy Hne. destruct (Hs br Hwf) as (br' & [b|e] & E1 & _ & Hv); [|by eexists _, _].
  exfalso. destruct (items_bytes l Hl) as (d & n & Hd & Hn & Hbits). pose proof (wf_new d Hd) as Hw.
  pose proof (remaining_new d) as Hr. rewrite Hbits in Hr.
  destruct (Hp Hl _ _ Hw Hr) as (b1 & E2 & _ & Hr1). rewrite Hy, <- app_assoc in Hr.
  destruct (Hv b eq_refl _ _ Hw Hr) as (b2 & E3 & _ & Hr2). rewrite E3 in E2. injection E2 as -> _.
  rewrite Hr1 in Hr2. apply (f_equal len) in Hr2. rewrite !len_app in Hr2. pose proof (len_nonneg (remaining br')).
  destruct y as [|b0 y]; [done|]. rewrite len_cons in Hr2. pose proof (len_nonneg y). lia.
Qed.

(** ** Walking over a parser *)

Create HintDb parse discriminated.
#[export] Hint Resolve parses_bits parses_ue parses_se parses_bit parses_ret parses_map_err : parse.
#[export] Hint Resolve safe_bit safe_bits safe_ue safe_se safe_ret safe_fail safe_map_err : parse.

(** One element or one sub-parser at a time. *)
Ltac parse_step :=
  lazymatch goal with
  | |- parses (_ ≫= _) (_ :: _) _ => eapply parses_item; [solve [eauto with parse]|]
  | |- parses (_ ≫= _) (_ ++ _) _ => eapply parses_bind; [solve [eauto with parse]|]
  | |- parses (mret _) [] _ => apply parses_ret
  end; cbv beta iota.
Ltac safe_step :=
  lazymatch goal with
  | |- safe (_ ≫= _) => apply safe_bind; [|let v := fresh "v" in intros v; cbv beta]
  | |- safe (if _ then _ else _) => apply safe_if
  | |- safe (let '(_, _) := ?p in _) => destruct p
  | |- safe (let _ := _ in _) => cbv zeta
  | |- safe _ => solve [eauto with parse]
  end.
Ltac safe_steps := repeat safe_step.
