(* ===== verification/SpsH264.v ===== *)
(** * H.264 sequence parameter sets (resolution/h264_parser.go)

    The parser of the picture size: emulation prevention, the fields up to the
    cropping rectangle, and the size in luma samples. *)

From stdpp Require Import strings.
From S2P Require Import Prelude Returns BitSyntax.
From S2P Require BitReader TypesBits Rbsp.
Import BitReader(BitReader, bit_error, wf, remaining, bits_of, NewBitReader, ReadBit, ReadBits, ReadUE, ReadSE).
Import TypesBits(item, IBits, IUE, ISE, item_ok).

Record Resolution := mkRes { Width : Z; Height : Z }.
Definition no_resolution : Resolution := mkRes 0 0.

(** The errors of the two parameter-set parsers: a field that cannot be read, a
    list entry that cannot be read, a part that fails, a value not allowed. *)
Inductive parse_error : Type :=
| TooShort
| ReadFailed (field : string) (e : bit_error)
| ReadFailedAt (field : string) (i : Z) (e : bit_error)
| PartFailed (part : string) (e : parse_error)
| BadValue (field : string) (v : Z).

Abbreviation parser A := (method BitReader parse_error A).
Definition rd {A} (f : string) (m : method BitReader bit_error A) : parser A := map_err (ReadFailed f) m.
Definition rd_at {A} (f : string) (i : Z) (m : method BitReader bit_error A) : parser A := map_err (ReadFailedAt f i) m.
Definition flag (f : string) : parser bool := bit ← rd f ReadBit; mret (bit =? 1).

Definition boolToInt (b : bool) : Z := if b then 1 else 0.

Record H264SPS := mkH264SPS {
  ProfileIdc : Z; ConstraintSetFlags : Z; LevelIdc : Z; SeqParameterSetId : Z;
  ChromaFormatIdc : Z; SeparateColourPlaneFlag : bool; BitDepthLumaMinus8 : Z; BitDepthChromaMinus8 : Z;
  QpprimeYZeroTransformBypass : bool; SeqScalingMatrixPresent : bool;
  Log2MaxFrameNumMinus4 : Z; PicOrderCntType : Z; Log2MaxPicOrderCntLsbMinus4 : Z;
  DeltaPicOrderAlwaysZeroFlag : bool; OffsetForNonRefPic : Z; OffsetForTopToBottomField : Z; NumRefFramesInPicOrderCntCycle : Z;
  MaxNumRefFrames : Z; GapsInFrameNumValueAllowed : bool; PicWidthInMbsMinus1 : Z; PicHeightInMapUnitsMinus1 : Z;
  FrameMbsOnlyFlag : bool; MbAdaptiveFrameFieldFlag : bool; Direct8x8InferenceFlag : bool;
  FrameCroppingFlag : bool; FrameCropLeftOffset : Z; FrameCropRightOffset : Z; FrameCropTopOffset : Z; FrameCropBottomOffset : Z;
  VuiParametersPresent : bool
}.

(** [subWidthC], [subHeightC] by chroma format. *)
Definition sub_units (chroma : Z) : Z * Z :=
  if chroma =? 1 then (2, 2) else if chroma =? 2 then (2, 1) else (1, 1).

Definition GetResolution (sps : H264SPS) : Resolution :=
  let fields := u32 (2 - boolToInt (FrameMbsOnlyFlag sps)) in
  let width := u32 (u32 (PicWidthInMbsMinus1 sps + 1) * 16) in
  let height := u32 (u32 (fields * u32 (PicHeightInMapUnitsMinus1 sps + 1)) * 16) in
  if FrameCroppingFlag sps then
    let '(subWidthC, subHeightC) := sub_units (ChromaFormatIdc sps) in
    let cropUnitX := subWidthC in
    let cropUnitY := u32 (subHeightC * fields) in
    mkRes (u32 (width - u32 (u32 (FrameCropLeftOffset sps + FrameCropRightOffset sps) * cropUnitX)))
          (u32 (height - u32 (u32 (FrameCropTopOffset sps + FrameCropBottomOffset sps) * cropUnitY)))
  else mkRes width height.

(** ** Emulation prevention *)

(** [data\[i\]] is an emulation prevention byte. *)
Definition is_prevention (data : list Z) (i : Z) : res bool :=
  if 2 <=? i then
    a ← idx data (i - 2);
    if negb (a =? 0) then Ret false
    else
      b ← idx data (i - 1);
      if negb (b =? 0) then Ret false
      else
        c ← idx data i;
        if negb (c =? 3) then Ret false
        else if len data <=? i + 1 then Ret true
        else d ← idx data (i + 1); Ret (d <=? 3)
  else Ret false.

Fixpoint prevention_loop (n : nat) (i : Z) (data result : list Z) : res (list Z) :=
  match n with
  | O => Ret result
  | S n =>
      p ← is_prevention data i;
      if (p : bool) then prevention_loop n (i + 1) data result
      else x ← idx data i; prevention_loop n (i + 1) data (result ++ [x])
  end.

Definition removeEmulationPrevention (data : list Z) : res (list Z) :=
  if len data <? 3 then Ret data else prevention_loop (length data) 0 data [].

(** ** The parser *)

Fixpoint scaling_loop (n : nat) (lastScale nextScale : Z) : method BitReader bit_error unit :=
  match n with
  | O => mret tt
  | S n =>
      nextScale ← (if negb (nextScale =? 0)
                   then deltaScale ← ReadSE; mret (Z.rem (i32 (i32 (lastScale + deltaScale) + 256)) 256)
                   else mret nextScale);
      scaling_loop n (if negb (nextScale =? 0) then nextScale else lastScale) nextScale
  end.
Definition skipScalingList (index : Z) : method BitReader bit_error unit :=
  scaling_loop (if 6 <=? index then 64%nat else 16%nat) 8 8.

Definition high_profile (profile : Z) : bool :=
  existsb (Z.eqb profile) [100; 110; 122; 244; 44; 83; 86; 118; 128; 138].

Fixpoint matrices_loop (n : nat) (i : Z) : parser unit :=
  match n with
  | O => mret tt
  | S n =>
      bit ← rd_at "scaling_list_present_flag" i ReadBit;
      _ ← (if bit =? 1 then rd "scaling list" (skipScalingList i) else mret tt);
      matrices_loop n (i + 1)
  end.

(** The fields of the high profiles. *)
Definition parse_high : parser (Z * bool * Z * Z * bool * bool) :=
  chroma ← rd "chroma_format_idc" ReadUE;
  separate ← (if chroma =? 3 then flag "separate_colour_plane_flag" else mret false);
  luma ← rd "bit_depth_luma_minus8" ReadUE;
  chroma_depth ← rd "bit_depth_chroma_minus8" ReadUE;
  qpprime ← flag "qpprime_y_zero_transform_bypass_flag";
  matrix ← flag "seq_scaling_matrix_present_flag";
  _ ← (if (matrix : bool) then matrices_loop (if chroma =? 3 then 12%nat else 8%nat) 0 else mret tt);
  mret (chroma, separate, luma, chroma_depth, qpprime, matrix).

Fixpoint offsets_loop (n : nat) (i : Z) : parser unit :=
  match n with
  | O => mret tt
  | S n => _ ← rd_at "offset_for_ref_frame" i ReadSE; offsets_loop n (i + 1)
  end.

Definition parse_poc (type : Z) : parser (Z * bool * Z * Z * Z) :=
  if type =? 0 then lsb ← rd "log2_max_pic_order_cnt_lsb_minus4" ReadUE; mret (lsb, false, 0, 0, 0)
  else if type =? 1 then
    always_zero ← flag "delta_pic_order_always_zero_flag";
    non_ref ← rd "offset_for_non_ref_pic" ReadSE;
    top_bottom ← rd "offset_for_top_to_bottom_field" ReadSE;
    n ← rd "num_ref_frames_in_pic_order_cnt_cycle" ReadUE;
    _ ← offsets_loop (Z.to_nat n) 0;
    mret (0, always_zero, non_ref, top_bottom, n)
  else mret (0, false, 0, 0, 0).

Definition parse_crop : parser (Z * Z * Z * Z) :=
  crop_l ← rd "frame_crop_left_offset" ReadUE;
  crop_r ← rd "frame_crop_right_offset" ReadUE;
  crop_t ← rd "frame_crop_top_offset" ReadUE;
  crop_b ← rd "frame_crop_bottom_offset" ReadUE;
  mret (crop_l, crop_r, crop_t, crop_b).

Definition parse_sps : parser H264SPS :=
  profile ← rd "profile_idc" (ReadBits 8);
  constraints ← rd "constraint flags" (ReadBits 8);
  level ← rd "level_idc" (ReadBits 8);
  id ← rd "seq_parameter_set_id" ReadUE;
  high ← (if high_profile profile then parse_high else mret (1, false, 0, 0, false, false));
  max_frame_num ← rd "log2_max_frame_num_minus4" ReadUE;
  type ← rd "pic_order_cnt_type" ReadUE;
  poc ← parse_poc type;
  refs ← rd "max_num_ref_frames" ReadUE;
  gaps ← flag "gaps_in_frame_num_value_allowed_flag";
  width ← rd "pic_width_in_mbs_minus1" ReadUE;
  height ← rd "pic_height_in_map_units_minus1" ReadUE;
  frames_only ← flag "frame_mbs_only_flag";
  adaptive ← (if (frames_only : bool) then mret false else flag "mb_adaptive_frame_field_flag");
  direct ← flag "direct_8x8_inference_flag";
  cropping ← flag "frame_cropping_flag";
  crop ← (if (cropping : bool) then parse_crop else mret (0, 0, 0, 0));
  mret (let '(chroma, separate, luma, chroma_depth, qpprime, matrix) := high in
        let '(lsb, always_zero, non_ref, top_bottom, n) := poc in
        let '(crop_l, crop_r, crop_t, crop_b) := crop in
        mkH264SPS profile constraints level id chroma separate luma chroma_depth qpprime matrix max_frame_num type lsb
          always_zero non_ref top_bottom n refs gaps width height frames_only adaptive direct cropping crop_l crop_r crop_t crop_b false).

Definition parseH264SPSFull (spsData : list Z) : res (exn parse_error Resolution) :=
  if len spsData <? 3 then Ret (Err TooShort)
  else
    cleanData ← removeEmulationPrevention spsData;
    '(_, r) ← parse_sps (NewBitReader cleanData);
    Ret (match r with Val sps => Val (GetResolution sps) | Err e => Err e end).

(** ** The syntax of the standard *)

Definition f1 (b : bool) : item := IBits (boolToInt b) 1.

(** What the fields of the record leave out: the scaling lists, each the deltas
    it codes, and the offsets of the reference frames. *)
Record sps_lists := mkLists { matrices : list (option (list Z)); offsets : list Z }.

(** The deltas of a list of [n] entries: coding stops when the next scale is 0. *)
Fixpoint deltas_ok (n : nat) (last next : Z) (deltas : list Z) : Prop :=
  match n with
  | O => deltas = []
  | S n =>
      if next =? 0 then deltas_ok n last next deltas
      else match deltas with
           | [] => False
           | d :: deltas => -128 <= d <= 127 /\
               let next := (last + d) mod 256 in deltas_ok n (if next =? 0 then last else next) next deltas
           end
  end.
Fixpoint matrices_ok (i : Z) (l : list (option (list Z))) : Prop :=
  match l with
  | [] => True
  | m :: l => match m with None => True | Some d => deltas_ok (if i <? 6 then 16%nat else 64%nat) 8 8 d end /\ matrices_ok (i + 1) l
  end.
Definition matrix_items (m : option (list Z)) : list item :=
  match m with None => [f1 false] | Some d => f1 true :: (ISE <$> d) end.

Definition high_items (s : H264SPS) (x : sps_lists) : list item :=
  IUE (ChromaFormatIdc s)
  :: (if ChromaFormatIdc s =? 3 then [f1 (SeparateColourPlaneFlag s)] else [])
  ++ IUE (BitDepthLumaMinus8 s) :: IUE (BitDepthChromaMinus8 s) :: f1 (QpprimeYZeroTransformBypass s)
  :: f1 (SeqScalingMatrixPresent s)
  :: (if SeqScalingMatrixPresent s then mjoin (matrix_items <$> matrices x) else []).

Definition poc_items (s : H264SPS) (x : sps_lists) : list item :=
  if PicOrderCntType s =? 0 then [IUE (Log2MaxPicOrderCntLsbMinus4 s)]
  else if PicOrderCntType s =? 1 then
    f1 (DeltaPicOrderAlwaysZeroFlag s) :: ISE (OffsetForNonRefPic s) :: ISE (OffsetForTopToBottomField s)
    :: IUE (NumRefFramesInPicOrderCntCycle s) :: (ISE <$> offsets x)
  else [].

(** The values of [profile_idc] whose sets say their chroma format, bit depths
    and scaling lists (ITU-T H.264, 7.3.2.1.1), and those the program does not
    know, the multiview profiles with depth. *)
Definition chroma_profiles : list Z := [100; 110; 122; 244; 44; 83; 86; 118; 128; 138; 139; 134; 135].
Definition codes_chroma (profile : Z) : bool := existsb (Z.eqb profile) chroma_profiles.
Definition overlooked (profile : Z) : bool := existsb (Z.eqb profile) [134; 135; 139].

Definition h264_items (s : H264SPS) (x : sps_lists) : list item :=
  IBits (ProfileIdc s) 8 :: IBits (ConstraintSetFlags s) 8 :: IBits (LevelIdc s) 8 :: IUE (SeqParameterSetId s)
  :: (if codes_chroma (ProfileIdc s) then high_items s x else [])
  ++ IUE (Log2MaxFrameNumMinus4 s) :: IUE (PicOrderCntType s)
  :: poc_items s x
  ++ IUE (MaxNumRefFrames s) :: f1 (GapsInFrameNumValueAllowed s) :: IUE (PicWidthInMbsMinus1 s)
  :: IUE (PicHeightInMapUnitsMinus1 s) :: f1 (FrameMbsOnlyFlag s)
  :: (if FrameMbsOnlyFlag s then [] else [f1 (MbAdaptiveFrameFieldFlag s)])
  ++ f1 (Direct8x8InferenceFlag s) :: f1 (FrameCroppingFlag s)
  :: (if FrameCroppingFlag s
      then [IUE (FrameCropLeftOffset s); IUE (FrameCropRightOffset s); IUE (FrameCropTopOffset s); IUE (FrameCropBottomOffset s)]
      else []).

(** The size the standard derives from the fields (7.4.2.1.1, with the widths
    and heights of the chroma samples of table 6-1). *)
Definition ChromaArrayType (s : H264SPS) : Z :=
  if (ChromaFormatIdc s =? 3) && SeparateColourPlaneFlag s then 0 else ChromaFormatIdc s.
Definition chroma_step (array_type : Z) : Z * Z :=
  match array_type with
  | 1 => (2, 2)  (* 4:2:0 *)
  | 2 => (2, 1)  (* 4:2:2 *)
  | _ => (1, 1)  (* monochrome, 4:4:4, separate planes *)
  end.
Definition h264_size (s : H264SPS) : Resolution :=
  let fields := if FrameMbsOnlyFlag s then 1 else 2 in
  let '(cx, cy) := chroma_step (ChromaArrayType s) in
  let crop := FrameCroppingFlag s in
  mkRes (16 * (PicWidthInMbsMinus1 s + 1)
         - (if crop then cx * (FrameCropLeftOffset s + FrameCropRightOffset s) else 0))
        (16 * fields * (PicHeightInMapUnitsMinus1 s + 1)
         - (if crop then cy * fields * (FrameCropTopOffset s + FrameCropBottomOffset s) else 0)).

(** A parameter set: the lists fit the fields, and the chroma format is the one
    the standard infers where it is not coded. *)
Definition h264_ok (s : H264SPS) (x : sps_lists) : Prop :=
  Forall item_ok (h264_items s x) /\
  (if codes_chroma (ProfileIdc s)
   then SeqScalingMatrixPresent s = true ->
        length (matrices x) = (if ChromaFormatIdc s =? 3 then 12%nat else 8%nat) /\ matrices_ok 0 (matrices x)
   else ChromaFormatIdc s = 1) /\
  (PicOrderCntType s = 1 -> len (offsets x) = NumRefFramesInPicOrderCntCycle s).

(** ** Emulation prevention *)

(** The removal over the rest of the data, after the bytes [p2] and [p1]. *)
Fixpoint strip (p2 p1 : Z) (l : list Z) : list Z :=
  match l with
  | [] => []
  | c :: l =>
      if (p2 =? 0) && (p1 =? 0) && (c =? 3) && (match l with [] => true | d :: _ => d <=? 3 end)
      then strip p1 c l else c :: strip p1 c l
  end.

Lemma idx_mid {A} (pre : list A) x l : idx (pre ++ x :: l) (len pre) = Ret x.
Proof. rewrite idx_tail0. done. Qed.

Lemma is_prevention_spec pre p2 p1 c l :
  is_prevention (pre ++ p2 :: p1 :: c :: l) (len pre + 2) =
  Ret ((p2 =? 0) && (p1 =? 0) && (c =? 3) && (match l with [] => true | d :: _ => d <=? 3 end)).
Proof.
  pose proof (len_nonneg pre). pose proof (len_nonneg l). unfold is_prevention. rewrite (proj2 (Z.leb_le 2 _)) by lia.
  replace (len pre + 2 - 2) with (len pre) by lia. rewrite idx_mid, bind_Ret.
  destruct (p2 =? 0); cbn [negb andb]; [|done]. replace (len pre + 2 - 1) with (len pre + 1) by lia.
  rewrite (idx_tail pre _ 1) by lia. change (idx (p2 :: p1 :: c :: l) 1) with (Ret p1). rewrite bind_Ret.
  destruct (p1 =? 0); cbn [negb andb]; [|done]. rewrite (idx_tail pre _ 2) by lia. change (idx (p2 :: p1 :: c :: l) 2) with (Ret c).
  rewrite bind_Ret. destruct (c =? 3); cbn [negb andb]; [|done]. rewrite len_app, !len_cons.
  destruct l as [|d l]; [rewrite (@len_nil Z), (proj2 (Z.leb_le _ _)) by lia; done|].
  rewrite len_cons in *. pose proof (len_nonneg l). rewrite (proj2 (Z.leb_gt _ _)) by lia.
  replace (len pre + 2 + 1) with (len pre + 3) by lia. by rewrite (idx_tail pre _ 3) by lia.
Qed.

Lemma prevention_loop_spec pre p2 p1 l result :
  prevention_loop (length l) (len pre + 2) (pre ++ p2 :: p1 :: l) result = Ret (result ++ strip p2 p1 l).
Proof.
  revert pre p2 p1 result. induction l as [|c l IH]; intros pre p2 p1 result; [cbn; by rewrite app_nil_r|].
  cbn [prevention_loop length strip]. rewrite is_prevention_spec, bind_Ret. specialize (IH (pre ++ [p2]) p1 c).
  rewrite len_app in IH. change (len [p2]) with 1 in IH. replace (len pre + 1 + 2) with (len pre + 2 + 1) in IH by lia.
  rewrite <- app_assoc in IH. cbn [app] in IH. destruct (_ && _); [by rewrite IH|].
  rewrite (idx_tail pre _ 2) by (pose proof (len_nonneg pre); lia). change (idx (p2 :: p1 :: c :: l) 2) with (Ret c).
  rewrite bind_Ret, IH. by rewrite <- app_assoc.
Qed.

Lemma removeEmulationPrevention_spec data : removeEmulationPrevention data = Ret (strip 1 1 data).
Proof.
  unfold removeEmulationPrevention. destruct data as [|a [|b l]]; [done|done|]. destruct l as [|c l].
  { cbn. by rewrite ?andb_false_r. }
  rewrite !len_cons. pose proof (len_nonneg l). rewrite (proj2 (Z.ltb_ge _ 3)) by lia.
  change (length (a :: b :: c :: l)) with (S (S (length (c :: l)))). cbn [prevention_loop].
  change (is_prevention (a :: b :: c :: l) 0) with (Ret false). rewrite bind_Ret.
  change (idx (a :: b :: c :: l) 0) with (Ret a). rewrite bind_Ret.
  change (is_prevention (a :: b :: c :: l) (0 + 1)) with (Ret false). rewrite bind_Ret.
  change (idx (a :: b :: c :: l) (0 + 1)) with (Ret b). rewrite bind_Ret.
  rewrite (prevention_loop_spec [] a b (c :: l)). cbn [strip]. change (1 =? 0) with false. by rewrite andb_false_r.
Qed.

(** It undoes the escaping of the byte stream format. *)
Lemma strip_add zc p2 p1 d :
  bytes d -> (1 <= zc <-> p1 = 0) -> (2 <= zc <-> p2 = 0 /\ p1 = 0) -> 0 <= zc ->
  strip p2 p1 (Rbsp.add_loop zc d) = d.
Proof.
  intros Hd. revert zc p2 p1. induction Hd as [|b d Hb Hd IH]; intros zc p2 p1 H1 H2 H0; [done|]. cbn [Rbsp.add_loop].
  unfold is_byte in Hb. destruct (Z.leb_spec 2 zc) as [Hz|Hz]; cbn [andb].
  - destruct (proj1 H2 Hz) as [-> ->]. destruct (Z.leb_spec b 3) as [Hb3|Hb3].
    + cbn [strip]. rewrite (proj2 (Z.leb_le b 3)) by done. change (0 =? 0) with true. change (3 =? 3) with true.
      change (3 =? 0) with false. cbn [andb]. f_equal. apply IH; destruct (Z.eqb_spec b 0); lia.
    + cbn [strip]. rewrite (proj2 (Z.eqb_neq b 3)) by lia. rewrite andb_false_r. cbn [andb]. f_equal.
      unfold Rbsp.count_zero. rewrite (proj2 (Z.eqb_neq b 0)) by lia. apply IH; lia.
  - cbn [strip]. assert ((p2 =? 0) && (p1 =? 0) = false) as ->.
    { apply andb_false_iff. destruct (Z.eqb_spec p2 0), (Z.eqb_spec p1 0); auto; lia. }
    cbn [andb]. f_equal. unfold Rbsp.count_zero. apply IH; destruct (Z.eqb_spec b 0); lia.
Qed.
Lemma remove_add d : bytes d -> removeEmulationPrevention (Rbsp.add_loop 0 d) = Ret d.
Proof. intros Hd. rewrite removeEmulationPrevention_spec. f_equal. apply strip_add; [done|lia..]. Qed.
Lemma strip_bytes p2 p1 l : bytes l -> bytes (strip p2 p1 l).
Proof.
  intros Hl. revert p2 p1. induction Hl as [|c l Hc Hl IH]; intros p2 p1; cbn [strip]; [constructor|].
  destruct (_ && _); [apply IH|]. constructor; [done|apply IH].
Qed.

(** ** The parser takes the syntax *)

Lemma parses_rd {A} f (m : method BitReader bit_error A) l a : parses m l a -> parses (rd f m) l a.
Proof. apply parses_map_err. Qed.
Lemma parses_rd_at {A} f i (m : method BitReader bit_error A) l a : parses m l a -> parses (rd_at f i m) l a.
Proof. apply parses_map_err. Qed.
Lemma parses_flag f b : parses (flag f) [f1 b] b.
Proof.
  unfold flag, f1. eapply parses_item; [apply parses_rd, parses_bit|]. cbv beta.
  replace (boolToInt b =? 1) with b by by destruct b. apply parses_ret.
Qed.
Lemma parses_f1 b : parses ReadBit [f1 b] (boolToInt b).
Proof. apply parses_bit. Qed.
#[export] Hint Resolve parses_rd parses_rd_at parses_flag parses_f1 : parse.

Lemma parses_scaling n last next ds :
  0 < last < 256 -> 0 <= next < 256 -> deltas_ok n last next ds -> parses (scaling_loop n last next) (ISE <$> ds) tt.
Proof.
  revert last next ds. induction n as [|n IH]; intros last next ds Hl Hn Hd; cbn [scaling_loop deltas_ok] in *.
  { subst ds. apply parses_ret. }
  destruct (Z.eqb_spec next 0) as [->|Hne]; cbn [negb].
  - change (ISE <$> ds) with ([] ++ (ISE <$> ds)). eapply parses_bind; [apply parses_ret|]. cbv beta. change (0 =? 0) with true.
    cbn [negb]. by apply IH.
  - destruct ds as [|d ds]; [done|]. destruct Hd as [Hr Hd]. rewrite fmap_cons.
    change (ISE d :: (ISE <$> ds)) with ([ISE d] ++ (ISE <$> ds)).
    assert (Z.rem (i32 (i32 (last + d) + 256)) 256 = (last + d) mod 256) as E.
    { assert (forall z, -1000 <= z <= 1000 -> i32 z = z) as Hi by (intros; mlia).
      rewrite (Hi (last + d)), Hi, Z.rem_mod_nonneg by lia. rewrite <- (Z.mul_1_l 256) at 1. by rewrite Z.mod_add by lia. }
    pose proof (Z.mod_pos_bound (last + d) 256 ltac:(lia)).
    eapply parses_bind; [eapply parses_item; [apply parses_se|apply parses_ret]|]. cbv beta. rewrite E. cbv zeta in Hd.
    destruct (Z.eqb_spec ((last + d) mod 256) 0); cbn [negb]; apply IH; done || lia.
Qed.

Lemma parses_matrices i l : 0 <= i -> matrices_ok i l -> parses (matrices_loop (length l) i) (mjoin (matrix_items <$> l)) tt.
Proof.
  revert i. induction l as [|m l IH]; intros i Hi Hm; [apply parses_ret|]. destruct Hm as [Hm Hl].
  change (mjoin (matrix_items <$> m :: l)) with (matrix_items m ++ mjoin (matrix_items <$> l)). cbn [matrices_loop length].
  destruct m as [d|]; cbn [matrix_items app].
  - eapply parses_item; [eauto with parse|]. change (boolToInt true =? 1) with true. cbn iota.
    eapply parses_bind; [|apply IH; [lia|done]]. apply parses_rd. unfold skipScalingList.
    replace (i <? 6) with (negb (6 <=? i)) in Hm by (by rewrite <- Z.ltb_antisym).
    destruct (6 <=? i); cbn [negb] in Hm; apply parses_scaling; done || lia.
  - eapply parses_item; [eauto with parse|]. change (boolToInt false =? 1) with false. cbn iota.
    change (mjoin (matrix_items <$> l)) with ([] ++ mjoin (matrix_items <$> l)).
    eapply parses_bind; [apply parses_ret|]. apply IH; [lia|done].
Qed.

Lemma parses_offsets i l : parses (offsets_loop (length l) i) (ISE <$> l) tt.
Proof.
  revert i. induction l as [|z l IH]; intros i; [apply parses_ret|]. rewrite fmap_cons. cbn [offsets_loop length].
  eapply parses_item; [eauto with parse|]. apply IH.
Qed.

(** An optional part. *)
Lemma parses_opt {A} (c : bool) (m : parser A) l a b : parses m l a -> parses (if c then m else mret b) (if c then l else []) (if c then a else b).
Proof. destruct c; [done|]. intros _. apply parses_ret. Qed.
Lemma parses_opt' {A} (c : bool) (m : parser A) l a b : parses m l a -> parses (if c then mret b else m) (if c then [] else l) (if c then b else a).
Proof. destruct c; [|done]. intros _. apply parses_ret. Qed.
#[export] Hint Resolve parses_opt parses_opt' : parse.

(** What the parser makes of the fields that are not coded. *)
Definition coded_high (s : H264SPS) : Z * bool * Z * Z * bool * bool :=
  if high_profile (ProfileIdc s)
  then (ChromaFormatIdc s, if ChromaFormatIdc s =? 3 then SeparateColourPlaneFlag s else false, BitDepthLumaMinus8 s,
        BitDepthChromaMinus8 s, QpprimeYZeroTransformBypass s, SeqScalingMatrixPresent s)
  else (1, false, 0, 0, false, false).
Definition coded_poc (s : H264SPS) : Z * bool * Z * Z * Z :=
  if PicOrderCntType s =? 0 then (Log2MaxPicOrderCntLsbMinus4 s, false, 0, 0, 0)
  else if PicOrderCntType s =? 1
  then (0, DeltaPicOrderAlwaysZeroFlag s, OffsetForNonRefPic s, OffsetForTopToBottomField s, NumRefFramesInPicOrderCntCycle s)
  else (0, false, 0, 0, 0).
Definition coded_crop (s : H264SPS) : Z * Z * Z * Z :=
  if FrameCroppingFlag s
  then (FrameCropLeftOffset s, FrameCropRightOffset s, FrameCropTopOffset s, FrameCropBottomOffset s) else (0, 0, 0, 0).

Lemma parses_high s x :
  (SeqScalingMatrixPresent s = true ->
     length (matrices x) = (if ChromaFormatIdc s =? 3 then 12%nat else 8%nat) /\ matrices_ok 0 (matrices x)) ->
  parses parse_high (high_items s x)
    (ChromaFormatIdc s, if ChromaFormatIdc s =? 3 then SeparateColourPlaneFlag s else false, BitDepthLumaMinus8 s,
     BitDepthChromaMinus8 s, QpprimeYZeroTransformBypass s, SeqScalingMatrixPresent s).
Proof.
  intros Hm. unfold parse_high, high_items. do 6 parse_step. rewrite <- (app_nil_r (if SeqScalingMatrixPresent s then _ else _)).
  eapply parses_bind; [|apply parses_ret]. destruct (SeqScalingMatrixPresent s); [|apply parses_ret].
  destruct (Hm eq_refl) as [Hlen Hok]. rewrite <- Hlen. by apply parses_matrices.
Qed.

Lemma parses_poc s x :
  (PicOrderCntType s = 1 -> len (offsets x) = NumRefFramesInPicOrderCntCycle s) ->
  parses (parse_poc (PicOrderCntType s)) (poc_items s x) (coded_poc s).
Proof.
  intros Ho. unfold parse_poc, poc_items, coded_poc. destruct (Z.eqb_spec (PicOrderCntType s) 0); [by repeat parse_step|].
  destruct (Z.eqb_spec (PicOrderCntType s) 1) as [E|_]; [|apply parses_ret]. do 4 parse_step.
  rewrite <- (app_nil_r (ISE <$> offsets x)). eapply parses_bind; [|apply parses_ret]. rewrite <- (Ho E).
  unfold len. rewrite Nat2Z.id. apply parses_offsets.
Qed.

Lemma parses_crop s :
  parses parse_crop [IUE (FrameCropLeftOffset s); IUE (FrameCropRightOffset s); IUE (FrameCropTopOffset s); IUE (FrameCropBottomOffset s)]
    (FrameCropLeftOffset s, FrameCropRightOffset s, FrameCropTopOffset s, FrameCropBottomOffset s).
Proof. unfold parse_crop. repeat parse_step. Qed.

(** The program's list of profiles is the standard's but for three. *)
Lemma high_profile_known p : overlooked p = false -> high_profile p = codes_chroma p.
Proof.
  unfold overlooked, high_profile, codes_chroma, chroma_profiles. cbn [existsb]. rewrite !orb_false_r.
  intros H. apply orb_false_iff in H as [E1 H]. apply orb_false_iff in H as [E2 E3]. rewrite E1, E2, E3. by rewrite !orb_false_r.
Qed.
(** Its cropping units are the standard's. *)
Lemma sub_units_step s : sub_units (ChromaFormatIdc s) = chroma_step (ChromaArrayType s).
Proof.
  unfold sub_units, ChromaArrayType, chroma_step.
  destruct (Z.eqb_spec (ChromaFormatIdc s) 1) as [->|N1]; [done|]. destruct (Z.eqb_spec (ChromaFormatIdc s) 2) as [->|N2]; [done|].
  destruct (_ && _); [done|]. destruct (ChromaFormatIdc s) as [|[[| |]|[| |]|]|]; done.
Qed.

Lemma parses_sps s x : h264_ok s x -> overlooked (ProfileIdc s) = false -> exists s', parses parse_sps (h264_items s x) s' /\ GetResolution s' = GetResolution s.
Proof.
  intros (Hi & Hh & Ho) Hov. unfold h264_items. rewrite <- (high_profile_known _ Hov) in *.
  assert (parses (if high_profile (ProfileIdc s) then parse_high else mret (1, false, 0, 0, false, false))
    (if high_profile (ProfileIdc s) then high_items s x else []) (coded_high s)) as H1.
  { unfold coded_high. destruct (high_profile (ProfileIdc s)); [by apply parses_high|apply parses_ret]. }
  pose proof (parses_poc s x Ho) as H2.
  pose proof (parses_crop s) as H3.
  eexists. split.
  - unfold parse_sps. do 4 parse_step. eapply parses_bind; [exact H1|]. do 2 parse_step.
    eapply parses_bind; [exact H2|]. cbv beta. do 8 parse_step.
    rewrite <- (app_nil_r (if FrameCroppingFlag s then _ else _)). eapply parses_bind; [by apply parses_opt|]. apply parses_ret.
  - cbv beta. unfold coded_high, coded_poc, GetResolution.
    destruct (high_profile (ProfileIdc s)), (PicOrderCntType s =? 0), (PicOrderCntType s =? 1), (FrameCroppingFlag s) eqn:Hc;
      cbn; rewrite ?Hc, ?Hh; try done.
Qed.

Lemma GetResolution_exact s :
  0 <= Width (h264_size s) < 2 ^ 32 -> 0 <= Height (h264_size s) < 2 ^ 32 -> GetResolution s = h264_size s.
Proof.
  unfold h264_size, GetResolution. rewrite <- sub_units_step. unfold sub_units. intros HW HH.
  assert (u32 (2 - boolToInt (FrameMbsOnlyFlag s)) = if FrameMbsOnlyFlag s then 1 else 2) as -> by by destruct (FrameMbsOnlyFlag s).
  destruct (ChromaFormatIdc s =? 1), (ChromaFormatIdc s =? 2), (FrameMbsOnlyFlag s), (FrameCroppingFlag s); cbn in *; f_equal; mlia.
Qed.

(** ** The parser is safe *)

Lemma safe_rd {A} f (m : method BitReader bit_error A) : safe m -> safe (rd f m).
Proof. apply safe_map_err. Qed.
Lemma safe_rd_at {A} f i (m : method BitReader bit_error A) : safe m -> safe (rd_at f i m).
Proof. apply safe_map_err. Qed.
#[export] Hint Resolve safe_rd safe_rd_at : parse.
Lemma safe_flag f : safe (flag f).
Proof. unfold flag. safe_steps. Qed.
#[export] Hint Resolve safe_flag : parse.

Lemma safe_scaling n last next : safe (scaling_loop n last next).
Proof. revert last next. induction n as [|n IH]; intros last next; cbn [scaling_loop]; safe_steps. Qed.
#[export] Hint Resolve safe_scaling : parse.
Lemma safe_matrices n i : safe (matrices_loop n i).
Proof. revert i. induction n as [|n IH]; intros i; cbn [matrices_loop]; unfold skipScalingList; safe_steps. Qed.
Lemma safe_offsets n i : safe (offsets_loop n i).
Proof. revert i. induction n as [|n IH]; intros i; cbn [offsets_loop]; safe_steps. Qed.
#[export] Hint Resolve safe_matrices safe_offsets : parse.

Lemma safe_sps : safe parse_sps.
Proof. unfold parse_sps, parse_high, parse_poc, parse_crop. safe_steps. Qed.

(** ** Whole parameter sets *)

(** A parser behind the removal of emulation prevention bytes, on the escaped
    form of a bitstream that starts with its syntax, or that ends too early. *)
Lemma escaped_parses {E A} (m : method BitReader E A) l a d rest :
  parses m l a -> Forall item_ok l -> bytes d -> bits_of d = items_bits l ++ rest ->
  exists br, (c ← removeEmulationPrevention (Rbsp.add_loop 0 d); m (NewBitReader c)) = Ret (br, Val a).
Proof.
  intros Hp Hl Hd Hb. rewrite remove_add, bind_Ret by done.
  destruct (Hp Hl (NewBitReader d) rest (wf_new d Hd)) as (br & E1 & _); [by rewrite remaining_new|]. by exists br.
Qed.
Lemma escaped_truncated {E A} (m : method BitReader E A) l a d y :
  safe m -> parses m l a -> Forall item_ok l -> bytes d -> items_bits l = bits_of d ++ y -> y <> [] ->
  exists br e, (c ← removeEmulationPrevention (Rbsp.add_loop 0 d); m (NewBitReader c)) = Ret (br, Err e).
Proof.
  intros Hs Hp Hl Hd Hb Hy. rewrite remove_add, bind_Ret by done.
  apply (truncated m l a (NewBitReader d) y); try done; by apply wf_new.
Qed.
Lemma safe_total {E A} (m : method BitReader E A) d :
  safe m -> bytes d -> exists br r, (c ← removeEmulationPrevention d; m (NewBitReader c)) = Ret (br, r).
Proof.
  intros Hs Hd. rewrite removeEmulationPrevention_spec, bind_Ret.
  destruct (Hs (NewBitReader (strip 1 1 d))) as (br & r & E1 & _); [by apply wf_new, strip_bytes|]. by exists br, r.
Qed.

Lemma add_loop_len zc d : len d <= len (Rbsp.add_loop zc d).
Proof.
  revert zc. induction d as [|b d IH]; intros zc; cbn [Rbsp.add_loop]; [done|]. destruct (_ && _); rewrite !len_cons;
    [specialize (IH (if b =? 0 then 1 else 0))|specialize (IH (Rbsp.count_zero zc b))]; lia.
Qed.

Lemma full_bind spsData br r :
  3 <= len spsData -> (c ← removeEmulationPrevention spsData; parse_sps (NewBitReader c)) = Ret (br, r) ->
  parseH264SPSFull spsData = Ret (match r with Val sps => Val (GetResolution sps) | Err e => Err e end).
Proof.
  intros Hl E. unfold parseH264SPSFull. rewrite (proj2 (Z.ltb_ge _ 3)) by done.
  apply bind_Ret_inv in E as (c & -> & E). by rewrite bind_Ret, E, bind_Ret.
Qed.

Lemma parseH264SPSFull_total d : bytes d -> returns (parseH264SPSFull d) (fun _ => True).
Proof.
  intros Hd. destruct (Z.lt_ge_cases (len d) 3) as [Hl|Hl].
  - unfold parseH264SPSFull. rewrite (proj2 (Z.ltb_lt _ 3)) by done. by apply returns_Ret.
  - destruct (safe_total parse_sps d safe_sps Hd) as (br & r & E). rewrite (full_bind _ _ _ Hl E). by apply returns_Ret.
Qed.

Lemma ue_bits_pos v : 1 <= len (BitReader.ue_bits v).
Proof.
  unfold BitReader.ue_bits. rewrite len_app, len_cons. set (k := Z.to_nat _).
  pose proof (len_nonneg (replicate k 0)). pose proof (len_nonneg (BitReader.bits_w k (v + 1))). lia.
Qed.
Lemma header_bits s x : 25 <= len (items_bits (h264_items s x)).
Proof.
  unfold h264_items. rewrite !items_bits_cons, !len_app. cbn [TypesBits.item_bits].
  unfold len at 1 2 3. rewrite !BitReader.length_bits_w. pose proof (ue_bits_pos (SeqParameterSetId s)).
  match goal with |- _ <= _ + (_ + (_ + (_ + ?n))) => assert (0 <= n) by apply len_nonneg end. lia.
Qed.

Lemma h264_parsed s x d rest :
  h264_ok s x -> overlooked (ProfileIdc s) = false -> bytes d -> 0 <= Width (h264_size s) < 2 ^ 32 -> 0 <= Height (h264_size s) < 2 ^ 32 ->
  bits_of d = items_bits (h264_items s x) ++ rest -> parseH264SPSFull (Rbsp.add_loop 0 d) = Ret (Val (h264_size s)).
Proof.
  intros Hok Hov Hd HW HH Hb. destruct (parses_sps s x Hok Hov) as (s' & Hp & Hs').
  destruct (escaped_parses _ _ _ _ _ Hp (proj1 Hok) Hd Hb) as (br & E).
  rewrite (full_bind _ _ _) with (2 := E); [by rewrite Hs', GetResolution_exact|].
  pose proof (add_loop_len 0 d). pose proof (header_bits s x). pose proof (len_nonneg rest).
  apply (f_equal len) in Hb. rewrite BitReader.len_bits_of, len_app in Hb. lia.
Qed.
Lemma h264_truncated s x d rest :
  h264_ok s x -> overlooked (ProfileIdc s) = false -> bytes d -> items_bits (h264_items s x) = bits_of d ++ rest -> rest <> [] ->
  exists e, parseH264SPSFull (Rbsp.add_loop 0 d) = Ret (Err e).
Proof.
  intros Hok Hov Hd Hb Hy. destruct (parses_sps s x Hok Hov) as (s' & Hp & _).
  destruct (escaped_truncated _ _ _ _ _ safe_sps Hp (proj1 Hok) Hd Hb Hy) as (br & e & E).
  destruct (Z.lt_ge_cases (len (Rbsp.add_loop 0 d)) 3) as [Hl|Hl].
  - exists TooShort. unfold parseH264SPSFull. by rewrite (proj2 (Z.ltb_lt _ 3)).
  - exists e. by rewrite (full_bind _ _ _ Hl E).
Qed.

(** C29: for every H.264 sequence parameter set in the syntax of the standard -
    any scaling lists, order count type, chroma format, field or frame coding,
    cropping and any bits behind (VUI, trailing bits) - of any profile but 134,
    135 and 139, the parser returns, from its escaped bytes, exactly the cropped
    size the standard derives from the fields, if it is below 2^32.  Of those
    three profiles it does not know that they code the chroma format, and reads
    on in the wrong place ([overlooked_profile]). *)
Theorem h264_sps_size (s : H264SPS) (x : sps_lists) (d rest : list Z) :
  h264_ok s x -> overlooked (ProfileIdc s) = false -> bytes d -> 0 <= Width (h264_size s) < 2 ^ 32 -> 0 <= Height (h264_size s) < 2 ^ 32 ->
  bits_of d = items_bits (h264_items s x) ++ rest ->
  parseH264SPSFull (Rbsp.add_loop 0 d) = Ret (Val (h264_size s)).
Proof. intros. by eapply h264_parsed. Qed.

(** 1920x1080: 68 rows of macroblocks with 8 lines cropped; scaling lists, and
    stop and padding bits behind. *)
Definition hd1080 : H264SPS :=
  mkH264SPS 100 0 40 0 1 false 0 0 false true 0 0 2 false 0 0 0 4 false 119 67 true false true true 0 0 0 4 false.
Definition hd1080_lists : sps_lists := mkLists [Some [-7; 120; 0; -128; 5; 1; 1]; Some [-8]; None; None; None; None; None; None] [].
Definition hd1080_bytes : list Z := [100; 0; 40; 173; 143; 1; 225; 0; 128; 138; 74; 17; 3; 101; 1; 224; 8; 159; 148; 128].

Lemma hd1080_ok : h264_ok hd1080 hd1080_lists.
Proof.
  split; [cbn; repeat (apply Forall_cons_2; [cbn; lia|]); apply Forall_nil_2|split; [|done]].
  intros _. split; [done|]. vm_compute. by repeat split.
Qed.
Lemma h264_sps_size_witness : parseH264SPSFull (Rbsp.add_loop 0 hd1080_bytes) = Ret (Val (mkRes 1920 1080)).
Proof.
  apply (h264_sps_size hd1080 hd1080_lists hd1080_bytes (dropZ (len (items_bits (h264_items hd1080 hd1080_lists))) (bits_of hd1080_bytes)));
    [exact hd1080_ok|done|unfold is_byte; decide_goal|by vm_compute|by vm_compute|by vm_compute].
Defined.

(** The same set of profile 134: the chroma format and the scaling lists are
    read as other fields. *)
Definition mfc1080 : H264SPS :=
  mkH264SPS 134 0 40 0 1 false 0 0 false true 0 0 2 false 0 0 0 4 false 119 67 true false true true 0 0 0 4 false.
Definition mfc1080_bytes : list Z := 134 :: dropZ 1 hd1080_bytes.
Example overlooked_profile :
  h264_ok mfc1080 hd1080_lists /\ h264_size mfc1080 = mkRes 1920 1080 /\
  bits_of mfc1080_bytes = items_bits (h264_items mfc1080 hd1080_lists) ++ dropZ (len (items_bits (h264_items mfc1080 hd1080_lists))) (bits_of mfc1080_bytes) /\
  parseH264SPSFull (Rbsp.add_loop 0 mfc1080_bytes) <> Ret (Val (mkRes 1920 1080)).
Proof.
  split; [|by vm_compute].
  split; [cbn; repeat (apply Forall_cons_2; [cbn; lia|]); apply Forall_nil_2|split; [|done]].
  intros _. split; [done|]. vm_compute. by repeat split.
Qed.
