(* ===== verification/SpsHEVC.v ===== *)
(** * HEVC video and sequence parameter sets (resolution/hevc_parser.go)

    The parser of the picture size, with the profile, tier and level structure
    and its sub-layers, and the parser that validates a VPS. *)

From stdpp Require Import strings.
From S2P Require Import Prelude Returns BitSyntax SpsH264.
From S2P Require BitReader TypesBits Rbsp.
Import BitReader(BitReader, bit_error, wf, remaining, bits_of, NewBitReader, ReadBit, ReadBits, ReadUE, ReadSE).
Import TypesBits(item, IBits, IUE, ISE, item_ok).

Record HEVCProfileTierLevel := mkPTL {
  GeneralProfileSpace : Z; GeneralTierFlag : bool; GeneralProfileIdc : Z; GeneralProfileCompatibilityFlags : Z;
  GeneralProgressiveSourceFlag : bool; GeneralInterlacedSourceFlag : bool; GeneralNonPackedConstraintFlag : bool;
  GeneralFrameOnlyConstraintFlag : bool; GeneralConstraintIndicatorFlags : Z; GeneralLevelIdc : Z
}.

(** The fields the parsers set; the others keep their zero values. *)
Record HEVCVPS := mkVPS {
  VpsVideoParameterSetId : Z; VpsMaxLayersMinus1 : Z; VpsMaxSubLayersMinus1 : Z; VpsTemporalIdNestingFlag : bool;
  VpsProfileTierLevel : HEVCProfileTierLevel
}.
Record HEVCSPS := mkHEVCSPS {
  SpsVideoParameterSetId : Z; SpsMaxSubLayersMinus1 : Z; SpsTemporalIdNestingFlag : bool; ProfileTierLevel : HEVCProfileTierLevel;
  SpsSeqParameterSetId : Z; ChromaFormatIdc : Z; SeparateColourPlaneFlag : bool;
  PicWidthInLumaSamples : Z; PicHeightInLumaSamples : Z; ConformanceWindowFlag : bool;
  ConfWinLeftOffset : Z; ConfWinRightOffset : Z; ConfWinTopOffset : Z; ConfWinBottomOffset : Z;
  BitDepthLumaMinus8 : Z; BitDepthChromaMinus8 : Z
}.

Definition GetResolution (sps : HEVCSPS) : Resolution :=
  let width := PicWidthInLumaSamples sps in
  let height := PicHeightInLumaSamples sps in
  if ConformanceWindowFlag sps then
    let chromaArrayType := if SeparateColourPlaneFlag sps then 0 else ChromaFormatIdc sps in
    let '(subWidthC, subHeightC) := sub_units chromaArrayType in
    let cropWidth := u32 (u32 (ConfWinLeftOffset sps + ConfWinRightOffset sps) * subWidthC) in
    let cropHeight := u32 (u32 (ConfWinTopOffset sps + ConfWinBottomOffset sps) * subHeightC) in
    if (width <=? cropWidth) || (height <=? cropHeight) then mkRes width height
    else mkRes (width - cropWidth) (height - cropHeight)
  else mkRes width height.

(** ** profile_tier_level *)

Definition parse_general : parser (Z * bool * Z * Z * (bool * bool * bool * bool) * Z) :=
  space ← rd "general_profile_space" (ReadBits 2);
  tier ← flag "general_tier_flag";
  idc ← rd "general_profile_idc" (ReadBits 5);
  compat ← rd "general_profile_compatibility_flags" (ReadBits 32);
  progressive ← flag "general_progressive_source_flag";
  interlaced ← flag "general_interlaced_source_flag";
  non_packed ← flag "general_non_packed_constraint_flag";
  frame_only ← flag "general_frame_only_constraint_flag";
  highBits ← rd "constraint indicator flags (high)" (ReadBits 32);
  lowBits ← rd "constraint indicator flags (low)" (ReadBits 12);
  mret (space, tier, idc, compat, (progressive, interlaced, non_packed, frame_only), Z.lor (u64 (Z.shiftl highBits 12)) lowBits).

(** The present flags of the sub-layers from [i] on. *)
Fixpoint present_loop (n : nat) (i : Z) : parser (list (bool * bool)) :=
  match n with
  | O => mret []
  | S n =>
      profileBit ← rd_at "sub_layer_profile_present_flag" i ReadBit;
      levelBit ← rd_at "sub_layer_level_present_flag" i ReadBit;
      l ← present_loop n (i + 1);
      mret ((profileBit =? 1, levelBit =? 1) :: l)
  end.
Fixpoint reserved_loop (n : nat) (i : Z) : parser unit :=
  match n with
  | O => mret tt
  | S n => _ ← rd_at "reserved_zero_2bits" i (ReadBits 2); reserved_loop n (i + 1)
  end.
Fixpoint sub_layers_loop (l : list (bool * bool)) (i : Z) : parser unit :=
  match l with
  | [] => mret tt
  | (profile, level) :: l =>
      _ ← (if (profile : bool) then
             _ ← rd_at "sub_layer profile header" i (ReadBits 8);
             _ ← rd_at "sub_layer_profile_compatibility_flags" i (ReadBits 32);
             _ ← rd_at "sub_layer constraint flags part1" i (ReadBits 32);
             _ ← rd_at "sub_layer constraint flags part2" i (ReadBits 16);
             mret tt
           else mret tt);
      _ ← (if (level : bool) then _ ← rd_at "sub_layer_level_idc" i (ReadBits 8); mret tt else mret tt);
      sub_layers_loop l (i + 1)
  end.

Definition parseHEVCProfileTierLevel (profilePresentFlag : bool) (maxNumSubLayersMinus1 : Z) : parser HEVCProfileTierLevel :=
  general ← (if profilePresentFlag then parse_general else mret (0, false, 0, 0, (false, false, false, false), 0));
  level ← rd "general_level_idc" (ReadBits 8);
  present ← present_loop (Z.to_nat maxNumSubLayersMinus1) 0;
  _ ← (if 0 <? maxNumSubLayersMinus1 then reserved_loop (Z.to_nat (8 - maxNumSubLayersMinus1)) maxNumSubLayersMinus1 else mret tt);
  _ ← sub_layers_loop present 0;
  mret (let '(space, tier, idc, compat, (progressive, interlaced, non_packed, frame_only), constraints) := general in
        mkPTL space tier idc compat progressive interlaced non_packed frame_only constraints level).

(** ** The parameter sets *)

Definition check (c : bool) (f : string) (v : Z) : parser unit := if c then fail (BadValue f v) else mret tt.
Definition part {A} (f : string) (m : parser A) : parser A := map_err (PartFailed f) m.

Definition parse_vps : parser HEVCVPS :=
  id ← rd "vps_video_parameter_set_id" (ReadBits 4);
  reserved ← rd "vps_reserved_three_2bits" (ReadBits 2);
  _ ← check (negb (reserved =? 3)) "vps_reserved_three_2bits" reserved;
  layers ← rd "vps_max_layers_minus1" (ReadBits 6);
  sub_layers ← rd "vps_max_sub_layers_minus1" (ReadBits 3);
  _ ← check (6 <? sub_layers) "vps_max_sub_layers_minus1" sub_layers;
  nesting ← flag "vps_temporal_id_nesting_flag";
  _ ← check ((sub_layers =? 0) && negb nesting) "vps_temporal_id_nesting_flag" 0;
  reserved16 ← rd "vps_reserved_0xffff_16bits" (ReadBits 16);
  _ ← check (negb (reserved16 =? 0xFFFF)) "vps_reserved_0xffff_16bits" reserved16;
  ptl ← part "profile_tier_level" (parseHEVCProfileTierLevel true sub_layers);
  mret (mkVPS id layers sub_layers nesting ptl).

Definition parseHEVCVPS (vpsData : list Z) : res (exn parse_error HEVCVPS) :=
  if len vpsData <? 2 then Ret (Err TooShort)
  else
    cleanData ← removeEmulationPrevention vpsData;
    '(_, r) ← parse_vps (NewBitReader cleanData);
    Ret r.

Definition parse_window : parser (Z * Z * Z * Z) :=
  win_l ← rd "conf_win_left_offset" ReadUE;
  win_r ← rd "conf_win_right_offset" ReadUE;
  win_t ← rd "conf_win_top_offset" ReadUE;
  win_b ← rd "conf_win_bottom_offset" ReadUE;
  mret (win_l, win_r, win_t, win_b).

Definition parse_hevc_sps : parser HEVCSPS :=
  vps ← rd "sps_video_parameter_set_id" (ReadBits 4);
  sub_layers ← rd "sps_max_sub_layers_minus1" (ReadBits 3);
  _ ← check (6 <? sub_layers) "sps_max_sub_layers_minus1" sub_layers;
  nesting ← flag "sps_temporal_id_nesting_flag";
  _ ← check ((sub_layers =? 0) && negb nesting) "sps_temporal_id_nesting_flag" 0;
  ptl ← part "profile_tier_level" (parseHEVCProfileTierLevel true sub_layers);
  id ← rd "sps_seq_parameter_set_id" ReadUE;
  _ ← check (15 <? id) "sps_seq_parameter_set_id" id;
  chroma ← rd "chroma_format_idc" ReadUE;
  _ ← check (3 <? chroma) "chroma_format_idc" chroma;
  separate ← (if chroma =? 3 then flag "separate_colour_plane_flag" else mret false);
  width ← rd "pic_width_in_luma_samples" ReadUE;
  height ← rd "pic_height_in_luma_samples" ReadUE;
  window ← flag "conformance_window_flag";
  offsets ← (if (window : bool) then parse_window else mret (0, 0, 0, 0));
  luma ← rd "bit_depth_luma_minus8" ReadUE;
  chroma_depth ← rd "bit_depth_chroma_minus8" ReadUE;
  mret (let '(win_l, win_r, win_t, win_b) := offsets in
        mkHEVCSPS vps sub_layers nesting ptl id chroma separate width height window win_l win_r win_t win_b luma chroma_depth).

Definition parseHEVCSPSFull (spsData : list Z) : res (exn parse_error Resolution) :=
  if len spsData <? 2 then Ret (Err TooShort)
  else
    cleanData ← removeEmulationPrevention spsData;
    '(_, r) ← parse_hevc_sps (NewBitReader cleanData);
    Ret (match r with Val sps => Val (GetResolution sps) | Err e => Err e end).

(** ** The syntax of the standard *)

(** A sub-layer: its profile (8 bits, compatibility flags, two groups of
    constraint flags) and its level, where present. *)
Record sub_layer := mkLayer { sl_profile : option (Z * Z * Z * Z); sl_level : option Z }.

Definition present_items (s : sub_layer) : list item :=
  [f1 (bool_decide (is_Some (sl_profile s))); f1 (bool_decide (is_Some (sl_level s)))].
Definition layer_items (s : sub_layer) : list item :=
  match sl_profile s with Some (a, b, c, d) => [IBits a 8; IBits b 32; IBits c 32; IBits d 16] | None => [] end
  ++ match sl_level s with Some v => [IBits v 8] | None => [] end.
Definition ptl_items (p : HEVCProfileTierLevel) (layers : list sub_layer) : list item :=
  IBits (GeneralProfileSpace p) 2 :: f1 (GeneralTierFlag p) :: IBits (GeneralProfileIdc p) 5
  :: IBits (GeneralProfileCompatibilityFlags p) 32
  :: f1 (GeneralProgressiveSourceFlag p) :: f1 (GeneralInterlacedSourceFlag p) :: f1 (GeneralNonPackedConstraintFlag p)
  :: f1 (GeneralFrameOnlyConstraintFlag p)
  :: IBits (GeneralConstraintIndicatorFlags p / 2 ^ 12) 32 :: IBits (GeneralConstraintIndicatorFlags p mod 2 ^ 12) 12
  :: IBits (GeneralLevelIdc p) 8
  :: mjoin (present_items <$> layers)
  ++ (if 0 <? len layers then replicate (Z.to_nat (8 - len layers)) (IBits 0 2) else [])
  ++ mjoin (layer_items <$> layers).

Definition hevc_items (s : HEVCSPS) (layers : list sub_layer) : list item :=
  IBits (SpsVideoParameterSetId s) 4 :: IBits (SpsMaxSubLayersMinus1 s) 3 :: f1 (SpsTemporalIdNestingFlag s)
  :: ptl_items (ProfileTierLevel s) layers
  ++ IUE (SpsSeqParameterSetId s) :: IUE (ChromaFormatIdc s)
  :: (if ChromaFormatIdc s =? 3 then [f1 (SeparateColourPlaneFlag s)] else [])
  ++ IUE (PicWidthInLumaSamples s) :: IUE (PicHeightInLumaSamples s) :: f1 (ConformanceWindowFlag s)
  :: (if ConformanceWindowFlag s
      then [IUE (ConfWinLeftOffset s); IUE (ConfWinRightOffset s); IUE (ConfWinTopOffset s); IUE (ConfWinBottomOffset s)] else [])
  ++ [IUE (BitDepthLumaMinus8 s); IUE (BitDepthChromaMinus8 s)].

Definition hevc_ok (s : HEVCSPS) (layers : list sub_layer) : Prop :=
  Forall item_ok (hevc_items s layers) /\ len layers = SpsMaxSubLayersMinus1 s /\ SpsMaxSubLayersMinus1 s <= 6 /\
  (SpsMaxSubLayersMinus1 s = 0 -> SpsTemporalIdNestingFlag s = true) /\ SpsSeqParameterSetId s <= 15 /\ ChromaFormatIdc s <= 3.

(** The size the standard derives. *)
Definition hevc_size (s : HEVCSPS) : Resolution :=
  let '(cx, cy) := sub_units (if (ChromaFormatIdc s =? 3) && SeparateColourPlaneFlag s then 0 else ChromaFormatIdc s) in
  let crop := ConformanceWindowFlag s in
  mkRes (PicWidthInLumaSamples s - (if crop then cx * (ConfWinLeftOffset s + ConfWinRightOffset s) else 0))
        (PicHeightInLumaSamples s - (if crop then cy * (ConfWinTopOffset s + ConfWinBottomOffset s) else 0)).

(** ** The parsers take the syntax *)

Lemma parses_skip {E A B} (m : method BitReader E A) (f : A -> method BitReader E B) l a b :
  parses m [] a -> parses (f a) l b -> parses (m ≫= f) l b.
Proof. exact (parses_bind m f [] l a b). Qed.
Lemma parses_check (c : bool) f v : c = false -> parses (check c f v) [] tt.
Proof. intros ->. apply parses_ret. Qed.
Lemma parses_last {E A B} (m : method BitReader E A) (f : A -> method BitReader E B) l a b :
  parses m l a -> parses (f a) [] b -> parses (m ≫= f) l b.
Proof. rewrite <- (app_nil_r l) at 2. apply parses_bind. Qed.

Lemma parses_general p :
  0 <= GeneralConstraintIndicatorFlags p < 2 ^ 44 ->
  parses parse_general (take 10 (ptl_items p []))
    (GeneralProfileSpace p, GeneralTierFlag p, GeneralProfileIdc p, GeneralProfileCompatibilityFlags p,
     (GeneralProgressiveSourceFlag p, GeneralInterlacedSourceFlag p, GeneralNonPackedConstraintFlag p, GeneralFrameOnlyConstraintFlag p),
     GeneralConstraintIndicatorFlags p).
Proof.
  intros Hc. unfold parse_general, ptl_items. cbn [take]. set (c := GeneralConstraintIndicatorFlags p) in *. do 10 parse_step.
  assert (Z.lor (u64 (Z.shiftl (c / 2 ^ 12) 12)) (c mod 2 ^ 12) = c) as ->; [|apply parses_ret].
  pose proof (Z.mod_pos_bound c (2 ^ 12) ltac:(lia)). pose proof (Z.div_mod c (2 ^ 12) ltac:(lia)).
  rewrite u64_id by (rewrite Z.shiftl_mul_pow2 by lia; lia). rewrite lor_shl_join; lia.
Qed.

Lemma parses_present layers i :
  parses (present_loop (length layers) i) (mjoin (present_items <$> layers))
    ((fun s => (bool_decide (is_Some (sl_profile s)), bool_decide (is_Some (sl_level s)))) <$> layers).
Proof.
  revert i. induction layers as [|s layers IH]; intros i; [apply parses_ret|].
  change (mjoin (present_items <$> s :: layers)) with
    (f1 (bool_decide (is_Some (sl_profile s))) :: f1 (bool_decide (is_Some (sl_level s))) :: mjoin (present_items <$> layers)).
  cbn [present_loop length]. do 2 parse_step. eapply parses_last; [apply IH|]. cbv beta. rewrite fmap_cons.
  replace (boolToInt _ =? 1) with (bool_decide (is_Some (sl_profile s))) by by destruct (bool_decide _).
  replace (boolToInt _ =? 1) with (bool_decide (is_Some (sl_level s))) by by destruct (bool_decide _). apply parses_ret.
Qed.
Lemma parses_reserved n i : parses (reserved_loop n i) (replicate n (IBits 0 2)) tt.
Proof. revert i. induction n as [|n IH]; intros i; [apply parses_ret|]. cbn [reserved_loop replicate]. parse_step. apply IH. Qed.
Lemma parses_layer_level lv i :
  parses (if bool_decide (is_Some lv) then _ ← rd_at "sub_layer_level_idc" i (ReadBits 8); mret tt else mret tt)
    (match lv with Some v => [IBits v 8] | None => [] end) tt.
Proof. destruct lv; [|apply parses_ret]. rewrite bool_decide_true by done. repeat parse_step. Qed.
Lemma parses_layer_profile pr i :
  parses (if bool_decide (is_Some pr) then
             _ ← rd_at "sub_layer profile header" i (ReadBits 8);
             _ ← rd_at "sub_layer_profile_compatibility_flags" i (ReadBits 32);
             _ ← rd_at "sub_layer constraint flags part1" i (ReadBits 32);
             _ ← rd_at "sub_layer constraint flags part2" i (ReadBits 16);
             mret tt
           else mret tt)
    (match pr with Some (a, b, c, d) => [IBits a 8; IBits b 32; IBits c 32; IBits d 16] | None => [] end) tt.
Proof. destruct pr as [[[[a b] c] d]|]; [|apply parses_ret]. rewrite bool_decide_true by done. repeat parse_step. Qed.
Lemma parses_layers layers i :
  parses (sub_layers_loop ((fun s => (bool_decide (is_Some (sl_profile s)), bool_decide (is_Some (sl_level s)))) <$> layers) i)
    (mjoin (layer_items <$> layers)) tt.
Proof.
  revert i. induction layers as [|s layers IH]; intros i; [apply parses_ret|].
  change (mjoin (layer_items <$> s :: layers)) with (layer_items s ++ mjoin (layer_items <$> layers)).
  rewrite fmap_cons. cbn [sub_layers_loop]. unfold layer_items. rewrite <- app_assoc.
  eapply parses_bind; [apply parses_layer_profile|]. eapply parses_bind; [apply parses_layer_level|]. apply IH.
Qed.

Lemma parses_ptl p layers :
  0 <= GeneralConstraintIndicatorFlags p < 2 ^ 44 -> len layers <= 6 ->
  parses (parseHEVCProfileTierLevel true (len layers)) (ptl_items p layers) p.
Proof.
  intros Hc Hl. unfold parseHEVCProfileTierLevel.
  assert (ptl_items p layers = take 10 (ptl_items p []) ++ IBits (GeneralLevelIdc p) 8 :: mjoin (present_items <$> layers)
    ++ (if 0 <? len layers then replicate (Z.to_nat (8 - len layers)) (IBits 0 2) else []) ++ mjoin (layer_items <$> layers)) as -> by done.
  eapply parses_bind; [by apply parses_general|]. parse_step.
  eapply parses_bind; [unfold len at 1; rewrite Nat2Z.id; apply parses_present|].
  eapply parses_bind; [apply parses_opt, parses_reserved|]. eapply parses_last; [apply parses_layers|]. cbv beta iota.
  destruct p. apply parses_ret.
Qed.

Lemma parses_window s :
  parses parse_window [IUE (ConfWinLeftOffset s); IUE (ConfWinRightOffset s); IUE (ConfWinTopOffset s); IUE (ConfWinBottomOffset s)]
    (ConfWinLeftOffset s, ConfWinRightOffset s, ConfWinTopOffset s, ConfWinBottomOffset s).
Proof. unfold parse_window. repeat parse_step. Qed.

(** The packed constraint flags are what two fields hold. *)
Lemma constraints_range p layers : Forall item_ok (ptl_items p layers) -> 0 <= GeneralConstraintIndicatorFlags p < 2 ^ 44.
Proof.
  intros Hi. do 8 (apply Forall_cons in Hi as [_ Hi]). apply Forall_cons in Hi as [[_ Hc] _].
  set (c := GeneralConstraintIndicatorFlags p) in *. pose proof (Z.div_mod c (2 ^ 12) ltac:(lia)).
  pose proof (Z.mod_pos_bound c (2 ^ 12) ltac:(lia)). lia.
Qed.

(** The sizes stay in the 32 bits of the code where the standard's are positive. *)
Lemma size_exact s s' :
  hevc_size s' = hevc_size s -> (SeparateColourPlaneFlag s' = true -> ChromaFormatIdc s' = 3) ->
  0 <= PicWidthInLumaSamples s' < 2 ^ 32 -> 0 <= PicHeightInLumaSamples s' < 2 ^ 32 ->
  0 <= ConfWinLeftOffset s' + ConfWinRightOffset s' -> 0 <= ConfWinTopOffset s' + ConfWinBottomOffset s' ->
  0 < Width (hevc_size s) -> 0 < Height (hevc_size s) -> GetResolution s' = hevc_size s.
Proof.
  intros <- Hsep HW HH Hlr Htb. unfold hevc_size, GetResolution, sub_units.
  assert ((if (ChromaFormatIdc s' =? 3) && SeparateColourPlaneFlag s' then 0 else ChromaFormatIdc s') =
          (if SeparateColourPlaneFlag s' then 0 else ChromaFormatIdc s')) as ->.
  { destruct (SeparateColourPlaneFlag s'); [by rewrite Hsep|by rewrite andb_false_r]. }
  set (chroma := if SeparateColourPlaneFlag s' then 0 else ChromaFormatIdc s').
  set (x := ConfWinLeftOffset s' + ConfWinRightOffset s') in *. set (y := ConfWinTopOffset s' + ConfWinBottomOffset s') in *.
  assert (forall cx cy, 1 <= cx <= 2 -> 1 <= cy <= 2 ->
    0 < PicWidthInLumaSamples s' - cx * x -> 0 < PicHeightInLumaSamples s' - cy * y ->
    (if (PicWidthInLumaSamples s' <=? u32 (u32 x * cx)) || (PicHeightInLumaSamples s' <=? u32 (u32 y * cy))
     then mkRes (PicWidthInLumaSamples s') (PicHeightInLumaSamples s')
     else mkRes (PicWidthInLumaSamples s' - u32 (u32 x * cx)) (PicHeightInLumaSamples s' - u32 (u32 y * cy))) =
    mkRes (PicWidthInLumaSamples s' - cx * x) (PicHeightInLumaSamples s' - cy * y)) as Hcrop.
  { intros cx cy Hcx Hcy Hw Hh. rewrite (u32_id x), (u32_id y), !u32_id by nia.
    rewrite (proj2 (Z.leb_gt _ (x * cx))), (proj2 (Z.leb_gt _ (y * cy))) by lia. cbn [orb]. f_equal; lia. }
  destruct (ConformanceWindowFlag s'); [|destruct (chroma =? 1), (chroma =? 2); intros; cbn [Width Height] in *; f_equal; lia].
  destruct (chroma =? 1); [|destruct (chroma =? 2)]; intros Hw Hh; apply Hcrop; done || lia.
Qed.

Lemma parses_hevc_sps s layers :
  hevc_ok s layers -> exists s', parses parse_hevc_sps (hevc_items s layers) s' /\
    (0 < Width (hevc_size s) -> 0 < Height (hevc_size s) -> GetResolution s' = hevc_size s).
Proof.
  intros (Hi & Hl & Hm & Hn & Hid & Hch). unfold hevc_items in Hi. rewrite !Forall_cons, !Forall_app, !Forall_cons, !Forall_app, !Forall_cons, !Forall_app in Hi.
  destruct Hi as (_ & [_ Hsub] & _ & Hptl & _ & _ & _ & HW & HH & _ & Hwin & _).
  apply constraints_range in Hptl. eexists. split.
  - unfold parse_hevc_sps, hevc_items. do 2 parse_step. eapply parses_skip; [apply parses_check, Z.ltb_ge; lia|].
    parse_step. eapply parses_skip.
    { apply parses_check. destruct (Z.eqb_spec (SpsMaxSubLayersMinus1 s) 0) as [E|_]; [by rewrite Hn|done]. }
    eapply parses_bind; [apply parses_map_err; rewrite <- Hl; apply parses_ptl; [done|lia]|].
    parse_step. eapply parses_skip; [apply parses_check, Z.ltb_ge; lia|].
    parse_step. eapply parses_skip; [apply parses_check, Z.ltb_ge; lia|].
    do 4 parse_step. eapply parses_bind; [apply parses_opt, parses_window|]. do 2 parse_step. apply parses_ret.
  - intros Hw Hh. cbn [TypesBits.item_ok] in *.
    assert (ConformanceWindowFlag s = true -> 0 <= ConfWinLeftOffset s + ConfWinRightOffset s /\
              0 <= ConfWinTopOffset s + ConfWinBottomOffset s) as Hpos.
    { intros Hc. rewrite Hc, !Forall_cons in Hwin. destruct Hwin as (H1 & H2 & H3 & H4 & _). cbn [TypesBits.item_ok] in *. lia. }
    destruct (ConformanceWindowFlag s) eqn:Hc, (Z.eqb_spec (ChromaFormatIdc s) 3) as [H3|H3]; apply size_exact;
      cbn [PicWidthInLumaSamples PicHeightInLumaSamples ConfWinLeftOffset ConfWinRightOffset ConfWinTopOffset ConfWinBottomOffset
           SeparateColourPlaneFlag ChromaFormatIdc]; try (done || lia || by apply Hpos);
      unfold hevc_size; cbn; rewrite Hc, ?H3; try done; rewrite (proj2 (Z.eqb_neq _ _) H3); done.
Qed.

(** ** Safety *)

Lemma safe_check c f v : safe (check c f v).
Proof. unfold check. safe_steps. Qed.
Lemma safe_part {A} f (m : parser A) : safe m -> safe (part f m).
Proof. apply safe_map_err. Qed.
#[export] Hint Resolve safe_check safe_part : parse.
Lemma safe_present n i : safe (present_loop n i).
Proof. revert i. induction n as [|n IH]; intros i; cbn [present_loop]; safe_steps. Qed.
Lemma safe_reserved n i : safe (reserved_loop n i).
Proof. revert i. induction n as [|n IH]; intros i; cbn [reserved_loop]; safe_steps. Qed.
Lemma safe_layers l i : safe (sub_layers_loop l i).
Proof. revert i. induction l as [|[p lv] l IH]; intros i; cbn [sub_layers_loop]; safe_steps. Qed.
#[export] Hint Resolve safe_present safe_reserved safe_layers : parse.
Lemma safe_ptl b n : safe (parseHEVCProfileTierLevel b n).
Proof. unfold parseHEVCProfileTierLevel, parse_general. safe_steps. Qed.
#[export] Hint Resolve safe_ptl : parse.
Lemma safe_hevc_sps : safe parse_hevc_sps.
Proof. unfold parse_hevc_sps, parse_window. safe_steps. Qed.
Lemma safe_vps : safe parse_vps.
Proof. unfold parse_vps. safe_steps. Qed.

Lemma hevc_bind spsData br r :
  2 <= len spsData -> (c ← removeEmulationPrevention spsData; parse_hevc_sps (NewBitReader c)) = Ret (br, r) ->
  parseHEVCSPSFull spsData = Ret (match r with Val sps => Val (GetResolution sps) | Err e => Err e end).
Proof.
  intros Hl E. unfold parseHEVCSPSFull. rewrite (proj2 (Z.ltb_ge _ 2)) by done.
  apply bind_Ret_inv in E as (c & -> & E). by rewrite bind_Ret, E, bind_Ret.
Qed.
Lemma parseHEVCSPSFull_total d : bytes d -> returns (parseHEVCSPSFull d) (fun _ => True).
Proof.
  intros Hd. destruct (Z.lt_ge_cases (len d) 2) as [Hl|Hl].
  - unfold parseHEVCSPSFull. rewrite (proj2 (Z.ltb_lt _ 2)) by done. by apply returns_Ret.
  - destruct (safe_total parse_hevc_sps d safe_hevc_sps Hd) as (br & r & E). rewrite (hevc_bind _ _ _ Hl E). by apply returns_Ret.
Qed.
Lemma parseHEVCVPS_total d : bytes d -> returns (parseHEVCVPS d) (fun _ => True).
Proof.
  intros Hd. unfold parseHEVCVPS. case_bool; [by apply returns_Ret|].
  destruct (safe_total parse_vps d safe_vps Hd) as (br & r & E). apply bind_Ret_inv in E as (c & -> & E).
  rewrite bind_Ret, E, bind_Ret. by apply returns_Ret.
Qed.

Lemma hevc_header_bits s layers : 32 <= len (items_bits (hevc_items s layers)).
Proof.
  unfold hevc_items. rewrite !items_bits_cons, items_bits_app. unfold ptl_items. rewrite !items_bits_cons, !len_app.
  cbn [TypesBits.item_bits f1]. unfold f1. cbn [TypesBits.item_bits]. unfold len at 1 2 3 4 5 6 7 8. rewrite !BitReader.length_bits_w.
  repeat match goal with |- context [len ?l] => lazymatch goal with H : 0 <= len l |- _ => fail | _ => pose proof (len_nonneg l) end end. lia.
Qed.

Lemma hevc_parsed s layers d rest :
  hevc_ok s layers -> bytes d -> 0 < Width (hevc_size s) -> 0 < Height (hevc_size s) ->
  bits_of d = items_bits (hevc_items s layers) ++ rest -> parseHEVCSPSFull (Rbsp.add_loop 0 d) = Ret (Val (hevc_size s)).
Proof.
  intros Hok Hd HW HH Hb. destruct (parses_hevc_sps s layers Hok) as (s' & Hp & Hs').
  destruct (escaped_parses _ _ _ _ _ Hp (proj1 Hok) Hd Hb) as (br & E).
  rewrite (hevc_bind _ _ _) with (2 := E); [by rewrite Hs'|].
  pose proof (add_loop_len 0 d). pose proof (hevc_header_bits s layers). pose proof (len_nonneg rest).
  apply (f_equal len) in Hb. rewrite BitReader.len_bits_of, len_app in Hb. lia.
Qed.
Lemma hevc_truncated s layers d rest :
  hevc_ok s layers -> bytes d -> items_bits (hevc_items s layers) = bits_of d ++ rest -> rest <> [] ->
  exists e, parseHEVCSPSFull (Rbsp.add_loop 0 d) = Ret (Err e).
Proof.
  intros Hok Hd Hb Hy. destruct (parses_hevc_sps s layers Hok) as (s' & Hp & _).
  destruct (escaped_truncated _ _ _ _ _ safe_hevc_sps Hp (proj1 Hok) Hd Hb Hy) as (br & e & E).
  destruct (Z.lt_ge_cases (len (Rbsp.add_loop 0 d)) 2) as [Hl|Hl].
  - exists TooShort. unfold parseHEVCSPSFull. by rewrite (proj2 (Z.ltb_lt _ 2)).
  - exists e. by rewrite (hevc_bind _ _ _ Hl E).
Qed.

(** C30: for every HEVC sequence parameter set in the syntax of the standard - any
    profile, up to six sub-layers with or without profile and level, any chroma
    format, any conformance window that leaves a picture - followed by anything,
    the parser returns, from its escaped bytes, exactly the cropped size the
    standard derives. *)
Theorem hevc_sps_size (s : HEVCSPS) (layers : list sub_layer) (d rest : list Z) :
  hevc_ok s layers -> bytes d -> 0 < Width (hevc_size s) -> 0 < Height (hevc_size s) ->
  bits_of d = items_bits (hevc_items s layers) ++ rest ->
  parseHEVCSPSFull (Rbsp.add_loop 0 d) = Ret (Val (hevc_size s)).
Proof. apply hevc_parsed. Qed.

(** the parameter-set parsers answer every byte string, with a value or an
    error, and never a panic; and an H.264 or HEVC sequence parameter set cut
    short at any byte before the last field they read is refused with an
    error, never given a size. *)
Theorem sps_errors (d : list Z) :
  bytes d ->
  (exists r, parseH264SPSFull d = Ret r) /\ (exists r, parseHEVCSPSFull d = Ret r) /\ (exists r, parseHEVCVPS d = Ret r) /\
  (forall s x rest, h264_ok s x -> overlooked (SpsH264.ProfileIdc s) = false -> items_bits (h264_items s x) = bits_of d ++ rest -> rest <> [] ->
     exists e, parseH264SPSFull (Rbsp.add_loop 0 d) = Ret (Err e)) /\
  (forall s layers rest, hevc_ok s layers -> items_bits (hevc_items s layers) = bits_of d ++ rest -> rest <> [] ->
     exists e, parseHEVCSPSFull (Rbsp.add_loop 0 d) = Ret (Err e)).
Proof.
  intros Hd. destruct (parseH264SPSFull_total d Hd) as (r1 & ? & _), (parseHEVCSPSFull_total d Hd) as (r2 & ? & _),
    (parseHEVCVPS_total d Hd) as (r3 & ? & _).
  split_and!; [by exists r1|by exists r2|by exists r3| |].
  - intros s x rest Hok Hov Hb Hr. by eapply h264_truncated.
  - intros s layers rest Hok Hb Hr. by eapply hevc_truncated.
Qed.

(** 1920x1080 of 1920x1088 with two sub-layers, main profile. *)
Definition hevc1080 : HEVCSPS :=
  mkHEVCSPS 0 2 true (mkPTL 0 false 1 0x60000000 true false true true 0 93) 0 1 false 1920 1088 true 0 0 0 4 0 0.
Definition hevc1080_layers : list sub_layer := [mkLayer (Some (1, 0x60000000, 0x90000000, 0)) (Some 90); mkLayer None (Some 93)].
Definition hevc1080_bytes : list Z :=
  [5; 1; 96; 0; 0; 0; 176; 0; 0; 0; 0; 0; 93; 208; 0; 1; 96; 0; 0; 0; 144; 0; 0; 0; 0; 0; 90; 93; 160; 3; 192; 128; 17; 7; 203; 128].

Lemma hevc1080_ok : hevc_ok hevc1080 hevc1080_layers.
Proof.
  split; [|by vm_compute]. unfold hevc_items, ptl_items. cbn -[Z.pow Z.div Z.modulo].
  repeat (apply Forall_cons_2; [by vm_compute|]). apply Forall_nil_2.
Qed.
Lemma hevc_sps_size_witness : parseHEVCSPSFull (Rbsp.add_loop 0 hevc1080_bytes) = Ret (Val (mkRes 1920 1080)).
Proof.
  apply (hevc_sps_size hevc1080 hevc1080_layers hevc1080_bytes
    (dropZ (len (items_bits (hevc_items hevc1080 hevc1080_layers))) (bits_of hevc1080_bytes)));
    [exact hevc1080_ok|unfold is_byte; decide_goal|by vm_compute|by vm_compute|by vm_compute].
Defined.
Lemma sps_errors_witness :
  (exists r, parseHEVCVPS hevc1080_bytes = Ret r) /\
  exists e, parseHEVCSPSFull (Rbsp.add_loop 0 (takeZ 30 hevc1080_bytes)) = Ret (Err e).
Proof.
  split.
  - destruct (sps_errors hevc1080_bytes) as (_ & _ & H & _); [unfold is_byte; decide_goal|exact H].
  - destruct (sps_errors (takeZ 30 hevc1080_bytes)) as (_ & _ & _ & _ & H); [unfold is_byte; decide_goal|].
    apply (H hevc1080 hevc1080_layers (dropZ 240 (items_bits (hevc_items hevc1080 hevc1080_layers))));
      [exact hevc1080_ok|by vm_compute|by vm_compute].
Defined.

(** A crop larger than the picture leaves the picture as it is here; in the
    H.264 parser the subtraction wraps around. *)
Example hevc_crop_guard :
  GetResolution (mkHEVCSPS 0 0 true (mkPTL 0 false 1 0 true false true true 0 93) 0 1 false 64 64 true 33 0 0 0 0 0) = mkRes 64 64.
Proof. reflexivity. Qed.
Example h264_crop_wraps :
  SpsH264.GetResolution
    (mkH264SPS 66 0 30 0 1 false 0 0 false false 0 2 0 false 0 0 0 1 false 3 3 true false true true 33 0 0 0 false) =
  mkRes 4294967294 64.
Proof. reflexivity. Qed.
