(* ===== verification/Resolution.v ===== *)
(** * Resolution detection (resolution/detector.go)

    From a frame to its picture size: the frame is split into units, each unit is
    tried by the parser of its codec, and where a parser fails the code looks for
    byte patterns of common sizes. *)

From stdpp Require Import strings pretty.
From S2P Require Import Prelude Returns Float64 AnnexB BitSyntax SpsH264.
From S2P Require Codec SpsHEVC.
From S2P Require BitReader Rbsp.
Import BitReader(NewBitReader, ReadBit, ReadBits, SkipBits).
Import Codec(CodecType, CodecH264, CodecHEVC, CodecAV1, CodecJPEGXS).

Definition String (r : Resolution) : string :=
  if (Width r =? 0) || (Height r =? 0) then EmptyString else (pretty (Width r) +:+ "x" +:+ pretty (Height r))%string.

Definition found (r : Resolution) : bool := (0 <? Width r) && (0 <? Height r).

(** [bytes.Contains] *)
Fixpoint starts_with (pattern data : list Z) : bool :=
  match pattern, data with
  | [], _ => true
  | p :: pattern, x :: data => (p =? x) && starts_with pattern data
  | _ :: _, [] => false
  end.
Fixpoint contains (data pattern : list Z) : bool :=
  starts_with pattern data || match data with [] => false | _ :: data => contains data pattern end.

(** ** Splitting a frame *)

(** Whether the bytes from [i] on are [pattern], compared from the left. *)
Fixpoint match_at (pattern data : list Z) (i : Z) : res bool :=
  match pattern with
  | [] => Ret true
  | p :: pattern => x ← idx data i; if x =? p then match_at pattern data (i + 1) else Ret false
  end.
Definition start_code_len (data : list Z) (i : Z) : res Z :=
  four ← (if i + 3 <? len data then match_at [0; 0; 0; 1] data i else Ret false);
  if (four : bool) then Ret 4
  else
    three ← (if i + 2 <? len data then match_at [0; 0; 1] data i else Ret false);
    Ret (if (three : bool) then 3 else 0).
Definition starts_unit (data : list Z) (j : Z) : res bool :=
  zeros ← match_at [0; 0] data j;
  if (zeros : bool) then
    c ← idx data (j + 2);
    if c =? 1 then Ret true
    else if (j + 3 <? len data) && (c =? 0) then d ← idx data (j + 3); Ret (d =? 1) else Ret false
  else Ret false.
Fixpoint find_end (fuel : nat) (j : Z) (data : list Z) : res Z :=
  match fuel with
  | O => NoFuel
  | S fuel =>
      if j <? len data - 2 then
        b ← starts_unit data j;
        if (b : bool) then Ret j else find_end fuel (j + 1) data
      else Ret (len data)
  end.
Fixpoint extract_loop (fuel : nat) (i : Z) (data : list Z) (nalUnits : list (list Z)) : res (list (list Z)) :=
  match fuel with
  | O => NoFuel
  | S fuel =>
      if i <? len data then
        startCodeLen ← start_code_len data i;
        if startCodeLen =? 0 then extract_loop fuel (i + 1) data nalUnits
        else
          let nalStart := i + startCodeLen in
          nalEnd ← find_end (S (length data)) (nalStart + 1) data;
          nalUnits ← (if (nalStart <? nalEnd) && (nalEnd <=? len data)
                      then u ← slice data nalStart nalEnd; Ret (nalUnits ++ [u]) else Ret nalUnits);
          extract_loop fuel nalEnd data nalUnits
      else Ret nalUnits
  end.
Definition extractAnnexBNALUnits (data : list Z) : res (list (list Z)) := extract_loop (S (length data)) 0 data [].

Definition extractAV1OBUs (data : list Z) : list (list Z) := if 0 <? len data then [data] else [].

(** [defer recover()]: a panic becomes the zero value. *)
Definition recovered {A} (zero : A) (m : res A) : res A := match m with Panic => Ret zero | m => m end.

Definition units_body (frameData : list Z) (codec : CodecType) : res (list (list Z)) :=
  match codec with
  | CodecH264 | CodecHEVC => extractAnnexBNALUnits frameData
  | CodecAV1 => Ret (extractAV1OBUs frameData)
  | CodecJPEGXS => Ret [frameData]
  | _ => Ret []
  end.
Definition extractNALUnits (frameData : list Z) (codec : CodecType) : res (list (list Z)) :=
  recovered [] (units_body frameData codec).

(** ** H.264 and HEVC *)

Definition parseSPSHeuristic (spsData : list Z) : Resolution :=
  if len spsData <? 10 then no_resolution
  else if 20 <=? len spsData then
    if contains spsData [0x07; 0x80] || contains spsData [0x78; 0x00] then mkRes 1920 1080
    else if contains spsData [0x05; 0x00] || contains spsData [0x50; 0x00] then mkRes 1280 720
    else if contains spsData [0x02; 0x80] then mkRes 640 480
    else no_resolution
  else no_resolution.

Definition parseH264SPS (spsData : list Z) : res Resolution :=
  if len spsData <? 4 then Ret no_resolution
  else
    r ← parseH264SPSFull spsData;
    Ret (match r with Val sps => sps | Err _ => parseSPSHeuristic spsData end).
Definition parseHEVCSPS (spsData : list Z) : res Resolution :=
  if len spsData <? 4 then Ret no_resolution
  else
    r ← SpsHEVC.parseHEVCSPSFull spsData;
    Ret (match r with Val sps => sps | Err _ => parseSPSHeuristic spsData end).
Definition parseHEVCVPSWrapper (vpsData : list Z) : res Resolution :=
  if len vpsData <? 4 then Ret no_resolution
  else _ ← SpsHEVC.parseHEVCVPS vpsData; Ret no_resolution.

Definition detectH264Resolution (nalUnit : list Z) : res Resolution :=
  if len nalUnit <? 2 then Ret no_resolution
  else
    b ← idx nalUnit 0;
    if negb (Z.land b 0x1F =? 7) then Ret no_resolution
    else rest ← slice nalUnit 1 (len nalUnit); parseH264SPS rest.
Definition detectHEVCResolution (nalUnit : list Z) : res Resolution :=
  if len nalUnit <? 2 then Ret no_resolution
  else
    b ← idx nalUnit 0;
    let nalType := Z.land (Z.shiftr b 1) 0x3F in
    if nalType =? 32 then rest ← slice nalUnit 2 (len nalUnit); parseHEVCVPSWrapper rest
    else if nalType =? 33 then rest ← slice nalUnit 2 (len nalUnit); parseHEVCSPS rest
    else Ret no_resolution.

(** ** AV1 *)

(** The value of a read, or nothing to report. *)
Definition read_or {A B} (m : method BitReader.BitReader BitReader.bit_error A) (br : BitReader.BitReader) (none : B)
    (k : BitReader.BitReader -> A -> res B) : res B :=
  '(br, r) ← m br;
  match r with Val a => k br a | Err _ => Ret none end.

Definition parseAV1FrameSize (br : BitReader.BitReader) : res Resolution :=
  read_or (ReadBits 4) br no_resolution (fun br frameWidthBitsMinus1 =>
  read_or (ReadBits 4) br no_resolution (fun br frameHeightBitsMinus1 =>
  if (15 <? frameWidthBitsMinus1) || (15 <? frameHeightBitsMinus1) then Ret no_resolution
  else
  read_or (ReadBits (u32 (frameWidthBitsMinus1 + 1))) br no_resolution (fun br maxFrameWidthMinus1 =>
  read_or (ReadBits (u32 (frameHeightBitsMinus1 + 1))) br no_resolution (fun br maxFrameHeightMinus1 =>
  let width := u32 (maxFrameWidthMinus1 + 1) in
  let height := u32 (maxFrameHeightMinus1 + 1) in
  Ret (if (0 <? width) && (width <=? 7680) && (0 <? height) && (height <=? 4320) then mkRes width height else no_resolution))))).

Definition parseAV1SequenceHeaderStandard (data : list Z) : res Resolution :=
  if len data <? 4 then Ret no_resolution
  else
    read_or (ReadBits 3) (NewBitReader data) no_resolution (fun br _ =>
    read_or ReadBit br no_resolution (fun br _ =>
    read_or ReadBit br no_resolution (fun br reducedStillPictureHeader =>
    if reducedStillPictureHeader =? 1 then parseAV1FrameSize br else Ret no_resolution))).

(** Whether the pattern is at one of the places [(offset, bitOffset)], below
    the eighth byte. *)
Fixpoint pattern_loop (places : list (Z * Z)) (data : list Z) (totalBits expectedValue : Z) : res bool :=
  match places with
  | [] => Ret false
  | (offset, bitOffset) :: places =>
      tail ← slice data offset (len data);
      hit ← read_or (SkipBits bitOffset) (NewBitReader tail) false (fun br _ =>
             read_or (ReadBits totalBits) br false (fun _ value => Ret ((value =? expectedValue) && (offset <? 8))));
      if (hit : bool) then Ret true else pattern_loop places data totalBits expectedValue
  end.
Definition findAV1DimensionPattern (data : list Z) (width height widthBits heightBits : Z) : res bool :=
  if len data <? 4 then Ret false
  else
    let totalBits := widthBits + heightBits in
    if (32 <? totalBits) || (totalBits <? 16) then Ret false
    else
      let expectedValue := Z.lor (u32 (Z.shiftl width heightBits)) height in
      let searchLimit := if 16 <? len data then 16 else len data in
      let places := offset ← seqZ 0 (searchLimit - 3); bitOffset ← seqZ 0 4; [(offset, bitOffset)] in
      pattern_loop places data totalBits expectedValue.

Definition commonResolutions : list Resolution :=
  [mkRes 1920 1080; mkRes 1280 720; mkRes 3840 2160; mkRes 1920 1200; mkRes 1600 900; mkRes 1366 768; mkRes 1024 768;
   mkRes 1280 1024; mkRes 1440 900; mkRes 1680 1050; mkRes 2560 1440; mkRes 3440 1440].

(** The first candidate that [p] accepts. *)
Fixpoint first_such {A} (p : A -> res bool) (l : list A) : res (option A) :=
  match l with
  | [] => Ret None
  | a :: l => b ← p a; if (b : bool) then Ret (Some a) else first_such p l
  end.

Definition findAV1ResolutionPattern (data : list Z) : res Resolution :=
  if len data <? 8 then Ret no_resolution
  else
    let tries := r ← commonResolutions; widthBits ← [8; 12; 16]; heightBits ← [8; 12; 16]; [(r, widthBits, heightBits)] in
    hit ← first_such (fun '(r, widthBits, heightBits) =>
            findAV1DimensionPattern data (u32 (Width r - 1)) (u32 (Height r - 1)) widthBits heightBits) tries;
    Ret (match hit with Some (r, _, _) => r | None => no_resolution end).

Definition parseAV1SequenceHeader (data : list Z) : res Resolution :=
  if len data <? 4 then Ret no_resolution
  else
    r ← parseAV1SequenceHeaderStandard data;
    if found r then Ret r else findAV1ResolutionPattern data.

(** The end of a LEB128 field. *)
Fixpoint skip_leb (fuel : nat) (offset : Z) (obu : list Z) : res Z :=
  match fuel with
  | O => NoFuel
  | S fuel =>
      if offset <? len obu then
        b ← idx obu offset;
        if negb (Z.land b 0x80 =? 0) then skip_leb fuel (offset + 1) obu else Ret (offset + 1)
      else Ret offset
  end.
Definition av1_body (obu : list Z) : res Resolution :=
  obuHeader ← idx obu 0;
  if negb (Z.land (Z.shiftr obuHeader 3) 0x0F =? 1) then Ret no_resolution
  else
    let offset := 1 in
    let extension := Z.land (Z.shiftr obuHeader 2) 0x01 =? 1 in
    if extension && (len obu <=? offset) then Ret no_resolution
    else
      let offset := if extension then offset + 1 else offset in
      offset ← (if Z.land (Z.shiftr obuHeader 1) 0x01 =? 1 then skip_leb (S (length obu)) offset obu else Ret offset);
      if len obu <=? offset then Ret no_resolution
      else rest ← slice obu offset (len obu); parseAV1SequenceHeader rest.
Definition detectAV1Resolution (obu : list Z) : res Resolution :=
  if len obu <? 2 then Ret no_resolution else recovered no_resolution (av1_body obu).

(** ** JPEG XS *)

Definition isValidResolution (width height : Z) : bool :=
  if (width <? 64) || (7680 <? width) || (height <? 64) || (4320 <? height) then false
  else
    let aspectRatio := f64_div (f64_of_Z width) (f64_of_Z height) in
    if f64_ltb aspectRatio (f64_dec 25 2) || f64_ltb (f64_of_Z 4) aspectRatio then false
    else if ((width mod 8 =? 0) || (width mod 16 =? 0)) && ((height mod 8 =? 0) || (height mod 16 =? 0)) then true
    else existsb (fun r => (width =? Width r) && (height =? Height r))
           (commonResolutions ++ [mkRes 720 480; mkRes 720 576; mkRes 640 480; mkRes 800 600]).

Definition be16 (data : list Z) (i : Z) : res Z :=
  a ← idx data i;
  b ← idx data (i + 1);
  Ret (Z.lor (u32 (Z.shiftl a 8)) b).
Definition be32 (data : list Z) (i : Z) : res Z :=
  a ← idx data i;
  b ← idx data (i + 1);
  c ← idx data (i + 2);
  d ← idx data (i + 3);
  Ret (Z.lor (Z.lor (Z.lor (u32 (Z.shiftl a 24)) (u32 (Z.shiftl b 16))) (u32 (Z.shiftl c 8))) d).

Fixpoint header_loop (fuel : nat) (i : Z) (data : list Z) : res Resolution :=
  match fuel with
  | O => NoFuel
  | S fuel =>
      if i <? len data - 7 then
        width16 ← be16 data i;
        height16 ← be16 data (i + 2);
        if isValidResolution width16 height16 then Ret (mkRes width16 height16)
        else if i + 7 <? len data then
          width32 ← be32 data i;
          height32 ← be32 data (i + 4);
          if isValidResolution width32 height32 then Ret (mkRes width32 height32) else header_loop fuel (i + 2) data
        else header_loop fuel (i + 2) data
      else Ret no_resolution
  end.
Definition parseJPEGXSHeader (data : list Z) : res Resolution :=
  if len data <? 8 then Ret no_resolution else header_loop (S (length data)) 2 data.

Definition size_patterns (r : Resolution) : list (list Z) :=
  let wh := u8 (Z.shiftr (Width r) 8) in
  let wl := u8 (Width r) in
  let hh := u8 (Z.shiftr (Height r) 8) in
  let hl := u8 (Height r) in
  [[wh; wl; hh; hl]; [wl; wh; hl; hh]; [0; 0; wh; wl; 0; 0; hh; hl]].
Definition findJPEGXSResolutionPattern (data : list Z) : Resolution :=
  if len data <? 16 then no_resolution
  else default no_resolution (head (filter (fun r => existsb (contains data) (size_patterns r) = true) commonResolutions)).

(** The search for markers; it ends after the first kilobyte. *)
Fixpoint marker_loop (fuel : nat) (offset : Z) (frameData : list Z) : res Resolution :=
  match fuel with
  | O => NoFuel
  | S fuel =>
      if offset <? len frameData - 3 then
        b ← idx frameData offset;
        if b =? 0xFF then
          markerType ← idx frameData (offset + 1);
          rest ← slice frameData offset (len frameData);
          header ← (if (0x30 <=? markerType) && (markerType <=? 0x3F) then parseJPEGXSHeader rest else Ret no_resolution);
          if found header then Ret header
          else if found (findJPEGXSResolutionPattern rest) then Ret (findJPEGXSResolutionPattern rest)
          else if 1024 <? offset + 2 then Ret no_resolution
          else marker_loop fuel (offset + 2) frameData
        else if 1024 <? offset + 1 then Ret no_resolution
        else marker_loop fuel (offset + 1) frameData
      else Ret no_resolution
  end.
Definition jpegxs_body (frameData : list Z) : res Resolution :=
  a ← idx frameData 0;
  if negb (a =? 0xFF) then Ret no_resolution
  else
    b ← idx frameData 1;
    if negb (b =? 0x10) then Ret no_resolution
    else marker_loop (S (length frameData)) 2 frameData.
Definition detectJPEGXSResolution (frameData : list Z) : res Resolution :=
  if len frameData <? 4 then Ret no_resolution else recovered no_resolution (jpegxs_body frameData).

(** ** The detector *)

Definition nal_body (nalUnit : list Z) (codec : CodecType) : res Resolution :=
  match codec with
  | CodecH264 => detectH264Resolution nalUnit
  | CodecHEVC => detectHEVCResolution nalUnit
  | CodecAV1 => detectAV1Resolution nalUnit
  | CodecJPEGXS => detectJPEGXSResolution nalUnit
  | _ => Ret no_resolution
  end.
Definition detectFromSingleNAL (nalUnit : list Z) (codec : CodecType) : res Resolution :=
  if len nalUnit =? 0 then Ret no_resolution else recovered no_resolution (nal_body nalUnit codec).

Fixpoint units_loop (nalUnits : list (list Z)) (codec : CodecType) : res Resolution :=
  match nalUnits with
  | [] => Ret no_resolution
  | u :: nalUnits =>
      r ← detectFromSingleNAL u codec;
      if found r then Ret r else units_loop nalUnits codec
  end.
Definition DetectFromNALUnits (nalUnits : list (list Z)) (codec : CodecType) : res Resolution :=
  if len nalUnits =? 0 then Ret no_resolution else units_loop nalUnits codec.
Definition DetectFromFrame (frameData : list Z) (codec : CodecType) : res Resolution :=
  if len frameData =? 0 then Ret no_resolution
  else
    nalUnits ← extractNALUnits frameData codec;
    DetectFromNALUnits nalUnits codec.

(** ** No panic reaches a recover *)

Lemma returns_match_at pat d i : bytes d -> 0 <= i -> i + len pat <= len d -> returns (match_at pat d i) (fun _ => True).
Proof.
  revert i. induction pat as [|p pat IH]; intros i Hd Hi Hl; [by apply returns_Ret|]. rewrite len_cons in Hl.
  pose proof (len_nonneg pat). cbn [match_at]. go; [lia|]. go; [apply IH; done || lia|by apply returns_Ret].
Qed.

Lemma returns_start_code d i :
  bytes d -> 0 <= i < len d -> returns (start_code_len d i) (fun n => n = 0 \/ 3 <= n /\ i + n <= len d).
Proof.
  intros Hd Hi. unfold start_code_len. eapply returns_bind with (P := fun b : bool => b = true -> i + 4 <= len d).
  { go; [|by apply returns_Ret]. eapply returns_weaken; [apply returns_match_at; [done|lia|]|]; change (len [0; 0; 0; 1]) with 4; lia. }
  intros [] H4; [apply returns_Ret; specialize (H4 eq_refl); lia|].
  eapply returns_bind with (P := fun b : bool => b = true -> i + 3 <= len d).
  { go; [|by apply returns_Ret]. eapply returns_weaken; [apply returns_match_at; [done|lia|]|]; change (len [0; 0; 1]) with 3; lia. }
  intros [] H3; apply returns_Ret; [specialize (H3 eq_refl)|]; lia.
Qed.
Lemma returns_starts_unit d j : bytes d -> 0 <= j -> j < len d - 2 -> returns (starts_unit d j) (fun _ => True).
Proof.
  intros Hd Hj Hl. unfold starts_unit. eapply returns_bind; [apply returns_match_at; [done|lia|change (len [0; 0]) with 2; lia]|].
  intros [] _; [|by apply returns_Ret]. go; [lia|]. go; [by apply returns_Ret|]. go; [|by apply returns_Ret].
  zbool. go; [lia|]. by apply returns_Ret.
Qed.
Lemma returns_find_end fuel j d :
  bytes d -> 0 <= j -> 0 < Z.of_nat fuel -> len d - j < Z.of_nat fuel -> returns (find_end fuel j d) (fun e => (j <= e \/ e = len d) /\ e <= len d).
Proof.
  revert j. induction fuel as [|fuel IH]; intros j Hd Hj H0 Hf; [exfalso; lia|]. cbn [find_end].
  go; [|apply returns_Ret; lia]. eapply returns_bind; [by apply returns_starts_unit|]. intros [] _; [apply returns_Ret; lia|].
  eapply returns_weaken; [apply IH; done || lia|]. cbv beta. lia.
Qed.
Lemma returns_extract fuel i d units :
  bytes d -> 0 <= i -> len d - i < Z.of_nat fuel -> 0 < Z.of_nat fuel -> Forall bytes units ->
  returns (extract_loop fuel i d units) (Forall bytes).
Proof.
  revert i units. induction fuel as [|fuel IH]; intros i units Hd Hi Hf H0 Hu; [exfalso; lia|]. cbn [extract_loop].
  go; [|by apply returns_Ret]. eapply returns_bind; [apply returns_start_code; [done|lia]|]. intros n Hn. cbv beta.
  go; [apply IH; done || lia|]. destruct Hn as [Hn|[Hn Hn']]; [done|]. cbv zeta.
  eapply returns_bind; [apply returns_find_end; [done|lia|lia|unfold len; lia]|]. intros e [He1 He2]. cbv beta.
  eapply returns_bind with (P := Forall bytes).
  { go; [|by apply returns_Ret]. zbool. go; [lia|lia|]. apply returns_Ret. apply Forall_app. by split; [|constructor]. }
  intros units' Hu'. apply IH; done || lia.
Qed.
Lemma returns_annexb d : bytes d -> returns (extractAnnexBNALUnits d) (Forall bytes).
Proof. intros Hd. apply returns_extract; [done|lia|unfold len; lia|lia|constructor]. Qed.

Lemma returns_h264 u : bytes u -> returns (detectH264Resolution u) (fun _ => True).
Proof.
  intros Hu. unfold detectH264Resolution. go; [by apply returns_Ret|]. go; [lia|]. go; [by apply returns_Ret|].
  go; [lia|lia|]. unfold parseH264SPS. go; [by apply returns_Ret|].
  eapply returns_bind; [by apply parseH264SPSFull_total|]. intros r _. by apply returns_Ret.
Qed.
Lemma returns_hevc u : bytes u -> returns (detectHEVCResolution u) (fun _ => True).
Proof.
  intros Hu. unfold detectHEVCResolution. go; [by apply returns_Ret|]. go; [lia|]. go.
  - go; [lia|lia|]. unfold parseHEVCVPSWrapper. go; [by apply returns_Ret|].
    eapply returns_bind; [by apply SpsHEVC.parseHEVCVPS_total|]. intros r _. by apply returns_Ret.
  - go; [|by apply returns_Ret]. go; [lia|lia|]. unfold parseHEVCSPS. go; [by apply returns_Ret|].
    eapply returns_bind; [by apply SpsHEVC.parseHEVCSPSFull_total|]. intros r _. by apply returns_Ret.
Qed.

(** A read on a sound reader. *)
Lemma returns_read {A B} (m : method BitReader.BitReader BitReader.bit_error A) br (none : B) k (P : B -> Prop) :
  safe m -> BitReader.wf br -> P none -> (forall br' a, BitReader.wf br' -> returns (k br' a) P) -> returns (read_or m br none k) P.
Proof.
  intros Hm Hw Hn Hk. destruct (Hm br Hw) as (br' & [a|e] & E & Hw' & _); unfold read_or; rewrite E, bind_Ret;
    [by apply Hk|by apply returns_Ret].
Qed.
Lemma safe_skip n : safe (SkipBits n).
Proof. unfold SkipBits. induction (Z.to_nat n) as [|m IH]; cbn [BitReader.skip_loop]; safe_steps. Qed.

Lemma returns_av1_standard d : bytes d -> returns (parseAV1SequenceHeaderStandard d) (fun _ => True).
Proof.
  intros Hd. unfold parseAV1SequenceHeaderStandard, parseAV1FrameSize. go; [by apply returns_Ret|].
  repeat (apply returns_read; [solve [eauto with parse]|first [by apply wf_new|done]|done|intros]; try go; try (by apply returns_Ret); try done).
Qed.

Lemma returns_pattern places d totalBits expected :
  bytes d -> Forall (fun p => 0 <= fst p <= len d) places -> returns (pattern_loop places d totalBits expected) (fun _ => True).
Proof.
  intros Hd. induction 1 as [|[offset bitOffset] places Hp Hps IH]; cbn [pattern_loop]; [by apply returns_Ret|].
  cbn [fst] in Hp. go; [lia|lia|]. eapply returns_bind with (P := fun _ => True); [|intros [] _; [by apply returns_Ret|done]].
  apply returns_read; [apply safe_skip|by apply wf_new|done|]. intros br _ Hw.
  apply returns_read; [apply safe_bits|done|done|]. intros _ v _. by apply returns_Ret.
Qed.
Lemma returns_dimension d w h wb hb : bytes d -> returns (findAV1DimensionPattern d w h wb hb) (fun _ => True).
Proof.
  intros Hd. unfold findAV1DimensionPattern. go; [by apply returns_Ret|]. cbv zeta. go; [by apply returns_Ret|].
  apply returns_pattern; [done|]. apply Forall_forall. intros [o b] (i & Ho & Hi)%list_elem_of_bind.
  apply list_elem_of_bind in Ho as (j & Ho & _). apply list_elem_of_singleton in Ho. injection Ho as -> _.
  apply elem_of_seqZ in Hi. cbn [fst]. destruct (16 <? len d) eqn:E; zbool; lia.
Qed.
Lemma returns_first {A} (p : A -> res bool) l :
  (forall a, returns (p a) (fun _ => True)) -> returns (first_such p l) (fun _ => True).
Proof.
  intros Hp. induction l as [|a l IH]; cbn [first_such]; [by apply returns_Ret|].
  eapply returns_bind; [apply Hp|]. intros [] _; [by apply returns_Ret|done].
Qed.
Lemma returns_av1_header d : bytes d -> returns (parseAV1SequenceHeader d) (fun _ => True).
Proof.
  intros Hd. unfold parseAV1SequenceHeader. go; [by apply returns_Ret|]. eapply returns_bind; [by apply returns_av1_standard|].
  intros r _. go; [by apply returns_Ret|]. unfold findAV1ResolutionPattern. go; [by apply returns_Ret|]. cbv zeta.
  eapply returns_bind; [|intros o _; by apply returns_Ret]. apply returns_first. intros [[r0 w] h]. by apply returns_dimension.
Qed.
Lemma returns_skip_leb fuel i u :
  bytes u -> 0 <= i -> len u - i < Z.of_nat fuel -> 0 < Z.of_nat fuel -> returns (skip_leb fuel i u) (fun o => i <= o).
Proof.
  revert i. induction fuel as [|fuel IH]; intros i Hu Hi Hf H0; [exfalso; lia|]. cbn [skip_leb].
  go; [|apply returns_Ret; lia]. go; [lia|]. go; [|apply returns_Ret; lia].
  eapply returns_weaken; [apply IH; done || lia|]. cbv beta. lia.
Qed.
Lemma returns_av1 u : bytes u -> 2 <= len u -> returns (av1_body u) (fun _ => True).
Proof.
  intros Hu Hl. unfold av1_body. go; [lia|]. go; [by apply returns_Ret|]. cbv zeta. go; [by apply returns_Ret|].
  set (offset := if Z.land (Z.shiftr b 2) 1 =? 1 then 1 + 1 else 1).
  assert (1 <= offset) as Ho by (unfold offset; destruct (Z.land (Z.shiftr b 2) 1 =? 1); lia). clearbody offset.
  eapply returns_bind with (P := fun o => 1 <= o).
  { go; [|by apply returns_Ret]. eapply returns_weaken; [apply returns_skip_leb; [done|lia|unfold len; lia|lia]|]. cbv beta. lia. }
  intros o Ho'. cbv beta. go; [by apply returns_Ret|]. go; [lia|lia|]. by apply returns_av1_header.
Qed.

Lemma returns_be16 d i : bytes d -> 0 <= i -> i + 1 < len d -> returns (be16 d i) (fun _ => True).
Proof. intros Hd Hi Hl. unfold be16. go; [lia|]. go; [lia|]. by apply returns_Ret. Qed.
Lemma returns_be32 d i : bytes d -> 0 <= i -> i + 3 < len d -> returns (be32 d i) (fun _ => True).
Proof. intros Hd Hi Hl. unfold be32. do 4 (go; [lia|]). by apply returns_Ret. Qed.
Lemma returns_header fuel i d :
  bytes d -> 0 <= i -> len d - i < Z.of_nat fuel -> 0 < Z.of_nat fuel -> returns (header_loop fuel i d) (fun _ => True).
Proof.
  revert i. induction fuel as [|fuel IH]; intros i Hd Hi Hf H0; [exfalso; lia|]. cbn [header_loop].
  go; [|by apply returns_Ret]. eapply returns_bind; [apply returns_be16; done || lia|]. intros w _.
  eapply returns_bind; [apply returns_be16; done || lia|]. intros h _. go; [by apply returns_Ret|].
  go; [|apply IH; done || lia]. eapply returns_bind; [apply returns_be32; done || lia|]. intros w' _.
  eapply returns_bind; [apply returns_be32; done || lia|]. intros h' _. go; [by apply returns_Ret|]. apply IH; done || lia.
Qed.
Lemma returns_marker fuel i d :
  bytes d -> 0 <= i -> len d - i < Z.of_nat fuel -> 0 < Z.of_nat fuel -> returns (marker_loop fuel i d) (fun _ => True).
Proof.
  revert i. induction fuel as [|fuel IH]; intros i Hd Hi Hf H0; [exfalso; lia|]. cbn [marker_loop].
  go; [|by apply returns_Ret]. go; [lia|]. go.
  - go; [lia|]. go; [lia|lia|]. eapply returns_bind with (P := fun _ => True).
    { go; [|by apply returns_Ret]. unfold parseJPEGXSHeader. go; [by apply returns_Ret|].
      apply returns_header; [done|lia|unfold len; lia|lia]. }
    intros r _. repeat (go; [by apply returns_Ret|]). apply IH; done || lia.
  - go; [by apply returns_Ret|]. apply IH; done || lia.
Qed.
Lemma returns_jpegxs d : bytes d -> 4 <= len d -> returns (jpegxs_body d) (fun _ => True).
Proof.
  intros Hd Hl. unfold jpegxs_body. go; [lia|]. go; [by apply returns_Ret|]. go; [lia|]. go; [by apply returns_Ret|].
  apply returns_marker; [done|lia|unfold len; lia|lia].
Qed.

Lemma recovered_returns {A} (z : A) m (P : A -> Prop) : returns m P -> recovered z m = m /\ returns (recovered z m) P.
Proof. intros (a & -> & Ha). split; [done|]. by apply returns_Ret. Qed.

Lemma returns_nal u codec : bytes u -> returns (nal_body u codec) (fun _ => True).
Proof.
  intros Hu. destruct codec; try (by apply returns_Ret); [by apply returns_h264|by apply returns_hevc| |];
    cbn [nal_body]; unfold detectAV1Resolution, detectJPEGXSResolution; (go; [by apply returns_Ret|]); apply recovered_returns;
    [by apply returns_av1|by apply returns_jpegxs].
Qed.

(** ** The units of a byte stream *)

Lemma starts_unit_code d j : starts_unit d j = (n ← code_at (len d - 3) j d; Ret (0 <? n)).
Proof.
  unfold starts_unit, code_at. cbn [match_at]. destruct (idx d j) as [a| |]; [rewrite !bind_Ret|done|done].
  destruct (a =? 0); cbn [negb]; [|done]. destruct (idx d (j + 1)) as [b| |]; [rewrite !bind_Ret|done|done].
  destruct (b =? 0); cbn [negb]; [|done]. rewrite bind_Ret. destruct (idx d (j + 2)) as [c| |]; [rewrite !bind_Ret|done|done].
  destruct (c =? 1); [done|]. replace (j <? len d - 3) with (j + 3 <? len d) by (destruct (Z.ltb_spec (j + 3) (len d)), (Z.ltb_spec j (len d - 3)); done || lia).
  destruct ((j + 3 <? len d) && (c =? 0)); [|done]. destruct (idx d (j + 3)) as [x| |]; [rewrite !bind_Ret|done|done].
  by destruct (x =? 1).
Qed.
Lemma find_end_next fuel j d : find_end fuel j d = next_code fuel (len d - 2) (len d - 3) j d.
Proof.
  revert j. induction fuel as [|fuel IH]; intros j; [done|]. cbn [find_end next_code]. case_bool; [|done].
  rewrite starts_unit_code. destruct (code_at (len d - 3) j d) as [n| |]; [rewrite !bind_Ret|done|done]. by rewrite IH.
Qed.

Lemma match_at_spec pat pre l : len pat <= len l -> match_at pat (pre ++ l) (len pre) = Ret (starts_with pat l).
Proof.
  revert pre l. induction pat as [|p pat IH]; intros pre l Hl; [done|]. destruct l as [|x l]; rewrite len_cons in Hl.
  { rewrite (@len_nil Z) in Hl. pose proof (len_nonneg pat). lia. }
  rewrite len_cons in Hl. cbn [match_at starts_with]. rewrite idx_mid, bind_Ret, Z.eqb_sym. destruct (p =? x); [|done].
  specialize (IH (pre ++ [x]) l ltac:(lia)). rewrite len_app, <- app_assoc in IH. exact IH.
Qed.
Lemma start_code_len_spec pre b u rest :
  1 <= len u -> start_code_len (pre ++ start_code b ++ u ++ rest) (len pre) = Ret (len (start_code b)).
Proof.
  intros Hu. destruct u as [|x u]; [rewrite (@len_nil Z) in Hu; lia|]. set (l := start_code b ++ (x :: u) ++ rest).
  pose proof (len_nonneg u). pose proof (len_nonneg rest). pose proof (len_start_code b).
  assert (len l = len (start_code b) + (1 + len u + len rest)) as Hl by (unfold l; rewrite !len_app, len_cons; lia).
  unfold start_code_len. rewrite len_app, Hl. rewrite (proj2 (Z.ltb_lt (len pre + 3) _)), (proj2 (Z.ltb_lt (len pre + 2) _)) by lia.
  rewrite !match_at_spec by (change (len [0; 0; 0; 1]) with 4; change (len [0; 0; 1]) with 3; lia). by destruct b.
Qed.

Lemma next_code_more fuel bound last4 j d e : next_code fuel bound last4 j d = Ret e -> next_code (S fuel) bound last4 j d = Ret e.
Proof.
  revert j. induction fuel as [|fuel IH]; intros j E; [done|]. cbn [next_code] in E. change (next_code (S (S fuel)) bound last4 j d) with
    (if j <? bound then n ← code_at last4 j d; if 0 <? n then Ret j else next_code (S fuel) bound last4 (j + 1) d else Ret (len d)).
  destruct (j <? bound); [|done]. apply bind_Ret_inv in E as (n & -> & E). rewrite bind_Ret. destruct (0 <? n); [done|by apply IH].
Qed.

Lemma extract_annexb l pre fuel units :
  Forall (fun e => unit_ok e.2) l -> (length l < fuel)%nat ->
  extract_loop fuel (len pre) (pre ++ annexb l) units = Ret (units ++ (snd <$> l)).
Proof.
  intros Hl. revert pre fuel units. induction Hl as [|[b u] l Hu Hl IH]; intros pre fuel units Hf;
    (destruct fuel as [|fuel]; [simpl in Hf; lia|]); cbn [extract_loop].
  { cbn [annexb flat_map]. rewrite app_nil_r, (proj2 (Z.ltb_ge _ _)) by lia. cbn. by rewrite app_nil_r. }
  destruct (unit_step pre b u l _ Hu Hl (or_intror eq_refl)) as (_ & E2 & E3 & E4 & H1 & Hlen). set (data := pre ++ annexb ((b, u) :: l)) in *.
  pose proof (len_start_code b). pose proof (len_nonneg pre). rewrite (proj2 (Z.ltb_lt _ _)) by lia.
  assert (start_code_len data (len pre) = Ret (len (start_code b))) as ->.
  { rewrite E4, <- !app_assoc. by apply start_code_len_spec. }
  rewrite bind_Ret, (proj2 (Z.eqb_neq _ 0)) by lia. cbv zeta. rewrite find_end_next.
  set (e := len (pre ++ start_code b ++ u)) in *. assert (e = len pre + len (start_code b) + len u) as He by (subst e; rewrite !len_app; lia).
  assert (next_code (S (length data)) (len data - 2) (len data - 3) (len pre + len (start_code b) + 1) data = Ret e) as ->.
  { apply next_code_more. replace (len data - 3 + 1) with (len data - 2) in E2 by lia. cbn [next_code] in E2.
    destruct (Z.ltb_spec (len pre + len (start_code b)) (len data - 2)) as [Hlt|Hge].
    - apply bind_Ret_inv in E2 as (n & _ & E2). destruct (0 <? n); [injection E2; lia|done].
    - destruct (length data) eqn:Hd; [unfold len in *; lia|]. cbn [next_code]. by rewrite (proj2 (Z.ltb_ge _ _)) by lia. }
  rewrite bind_Ret, (proj2 (Z.ltb_lt _ e)), (proj2 (Z.leb_le e _)) by lia. cbn [andb]. rewrite E3, !bind_Ret, E4. subst e.
  rewrite (IH (pre ++ start_code b ++ u)) by (simpl in Hf; lia). by rewrite <- app_assoc.
Qed.
Lemma extract_units l : Forall (fun e => unit_ok e.2) l -> extractAnnexBNALUnits (annexb l) = Ret (snd <$> l).
Proof.
  intros Hl. apply (extract_annexb l []); [done|]. pose proof (annexb_length l Hl). unfold len in *. lia.
Qed.

(** ** The parameter set of a stream *)

Definition unit_type (codec : CodecType) (u : list Z) : Z :=
  match codec, u with
  | CodecH264, h :: _ => Z.land h 0x1F
  | CodecHEVC, h :: _ => Z.land (Z.shiftr h 1) 0x3F
  | _, _ => 0
  end.
Definition sps_type (codec : CodecType) : Z := match codec with CodecH264 => 7 | _ => 33 end.

Lemma units_skip codec before rest :
  codec = CodecH264 \/ codec = CodecHEVC ->
  Forall (fun u => u <> [] /\ bytes u /\ unit_type codec u <> sps_type codec) before ->
  units_loop (before ++ rest) codec = units_loop rest codec.
Proof.
  intros Hc. induction 1 as [|u before (Hne & Hu & Ht) Hb IH]; [done|]. cbn [app units_loop].
  assert (detectFromSingleNAL u codec = Ret no_resolution) as ->; [|by rewrite bind_Ret].
  unfold detectFromSingleNAL. destruct u as [|h t]; [done|]. rewrite len_cons_eq0. destruct Hc as [-> | ->]; cbn [nal_body unit_type sps_type] in *.
  - unfold detectH264Resolution. case_bool; [done|]. change (idx (h :: t) 0) with (Ret h). rewrite bind_Ret.
    by rewrite (proj2 (Z.eqb_neq _ 7)).
  - unfold detectHEVCResolution. case_bool; [done|]. change (idx (h :: t) 0) with (Ret h). rewrite bind_Ret. cbv zeta.
    rewrite (proj2 (Z.eqb_neq _ 33)) by done. case_bool; [|done]. rewrite slice_Ret by (rewrite ?len_cons in *; lia). rewrite bind_Ret.
    unfold parseHEVCVPSWrapper. case_bool; [done|].
    destruct (SpsHEVC.parseHEVCVPS_total (takeZ (len (h :: t) - 2) (dropZ 2 (h :: t)))) as (r & -> & _);
      [by apply bytes_takeZ, bytes_dropZ|done].
Qed.

Lemma bits_bytes d l (rest : list Z) n : BitReader.bits_of d = l ++ rest -> n <= len l -> n <= 8 * len d.
Proof. intros Hb Hn. apply (f_equal len) in Hb. rewrite BitReader.len_bits_of, len_app in Hb. pose proof (len_nonneg rest). lia. Qed.

Lemma detect_h264_sps s x d rest h :
  h264_ok s x -> overlooked (SpsH264.ProfileIdc s) = false -> bytes d -> 0 <= Width (h264_size s) < 2 ^ 32 -> 0 <= Height (h264_size s) < 2 ^ 32 ->
  BitReader.bits_of d = items_bits (h264_items s x) ++ rest -> Z.land h 0x1F = 7 ->
  detectFromSingleNAL (h :: Rbsp.add_loop 0 d) CodecH264 = Ret (h264_size s).
Proof.
  intros Hok Hov Hd HW HH Hb Hh. pose proof (add_loop_len 0 d). pose proof (bits_bytes _ _ _ _ Hb (header_bits s x)).
  unfold detectFromSingleNAL. rewrite len_cons_eq0. cbn [nal_body]. unfold detectH264Resolution.
  rewrite len_cons, (proj2 (Z.ltb_ge _ 2)) by lia. change (idx (h :: ?l) 0) with (Ret h). rewrite bind_Ret, Hh.
  change (negb (7 =? 7)) with false. cbn iota. rewrite slice_Ret by (rewrite ?len_cons; lia). rewrite bind_Ret.
  replace (takeZ _ (dropZ 1 (h :: Rbsp.add_loop 0 d))) with (Rbsp.add_loop 0 d)
    by (change (dropZ 1 (h :: ?l)) with l; rewrite takeZ_all; [done|lia]).
  unfold parseH264SPS. rewrite (proj2 (Z.ltb_ge _ 4)) by lia. by rewrite (h264_parsed s x d rest).
Qed.
Lemma detect_hevc_sps s layers d rest h h' :
  SpsHEVC.hevc_ok s layers -> bytes d -> 0 < Width (SpsHEVC.hevc_size s) -> 0 < Height (SpsHEVC.hevc_size s) ->
  BitReader.bits_of d = items_bits (SpsHEVC.hevc_items s layers) ++ rest -> Z.land (Z.shiftr h 1) 0x3F = 33 ->
  detectFromSingleNAL (h :: h' :: Rbsp.add_loop 0 d) CodecHEVC = Ret (SpsHEVC.hevc_size s).
Proof.
  intros Hok Hd HW HH Hb Hh. pose proof (add_loop_len 0 d). pose proof (bits_bytes _ _ _ _ Hb (SpsHEVC.hevc_header_bits s layers)).
  unfold detectFromSingleNAL. rewrite len_cons_eq0. cbn [nal_body]. unfold detectHEVCResolution.
  rewrite !len_cons, (proj2 (Z.ltb_ge _ 2)) by lia. change (idx (h :: ?l) 0) with (Ret h). rewrite bind_Ret. cbv zeta. rewrite Hh.
  change (33 =? 32) with false. change (33 =? 33) with true. cbn iota. rewrite slice_Ret by (rewrite ?len_cons; lia). rewrite bind_Ret.
  replace (takeZ _ (dropZ 2 (h :: h' :: Rbsp.add_loop 0 d))) with (Rbsp.add_loop 0 d)
    by (change (dropZ 2 (h :: h' :: ?l)) with l; rewrite takeZ_all; [done|lia]).
  unfold parseHEVCSPS. rewrite (proj2 (Z.ltb_ge _ 4)) by lia. by rewrite (SpsHEVC.hevc_parsed s layers d rest).
Qed.

(** A frame of NAL units, in which [u] is the first of the parameter sets. *)
Lemma frame_detects codec before b u after r :
  codec = CodecH264 \/ codec = CodecHEVC ->
  Forall (fun e => unit_ok e.2) (before ++ (b, u) :: after) ->
  Forall (fun e => bytes e.2 /\ unit_type codec e.2 <> sps_type codec) before ->
  detectFromSingleNAL u codec = Ret r -> 0 < Width r -> 0 < Height r ->
  DetectFromFrame (annexb (before ++ (b, u) :: after)) codec = Ret r.
Proof.
  intros Hc Hu Hb Hd HW HH. pose proof (annexb_length _ Hu) as Hlen. rewrite len_app, len_cons in Hlen.
  pose proof (len_nonneg before). pose proof (len_nonneg after). unfold DetectFromFrame. rewrite (proj2 (Z.eqb_neq _ 0)) by lia.
  assert (extractNALUnits (annexb (before ++ (b, u) :: after)) codec = Ret (snd <$> before ++ (b, u) :: after)) as ->.
  { unfold extractNALUnits, units_body. destruct Hc as [-> | ->]; by rewrite extract_units. }
  rewrite bind_Ret. unfold DetectFromNALUnits. rewrite fmap_app, fmap_cons, len_app, len_cons.
  pose proof (len_nonneg (snd <$> before)). pose proof (len_nonneg (snd <$> after)). rewrite (proj2 (Z.eqb_neq _ 0)) by lia.
  rewrite units_skip; [|done|].
  - cbn [units_loop snd]. rewrite Hd, bind_Ret. unfold found. by rewrite (proj2 (Z.ltb_lt 0 _)), (proj2 (Z.ltb_lt 0 _)).
  - apply Forall_fmap. apply Forall_app in Hu as [Hu _]. apply Forall_forall. intros e He. rewrite Forall_forall in Hu, Hb.
    destruct (Hb e He). destruct (Hu e He) as (v & z & E & _). split_and!; try done. cbn. rewrite E. by destruct v.
Qed.

(** in a frame of NAL units behind start codes of either length, whatever
    the other units hold, the first sequence parameter set of its codec decides:
    the detector returns exactly the cropped size the standard derives from its
    fields, through start codes, emulation prevention and bit syntax (H.264
    profiles 134, 135 and 139 excepted). *)
Theorem frame_resolution (before after : list (bool * list Z)) (b : bool) (d rest : list Z) (h h' : Z) :
  bytes d ->
  (forall s x, let u := h :: Rbsp.add_loop 0 d in
     h264_ok s x -> overlooked (SpsH264.ProfileIdc s) = false -> 0 < Width (h264_size s) < 2 ^ 32 -> 0 < Height (h264_size s) < 2 ^ 32 ->
     BitReader.bits_of d = items_bits (h264_items s x) ++ rest -> Z.land h 0x1F = 7 ->
     Forall (fun e => unit_ok e.2) (before ++ (b, u) :: after) ->
     Forall (fun e => bytes e.2 /\ unit_type CodecH264 e.2 <> 7) before ->
     DetectFromFrame (annexb (before ++ (b, u) :: after)) CodecH264 = Ret (h264_size s)) /\
  (forall s layers, let u := h :: h' :: Rbsp.add_loop 0 d in
     SpsHEVC.hevc_ok s layers -> 0 < Width (SpsHEVC.hevc_size s) -> 0 < Height (SpsHEVC.hevc_size s) ->
     BitReader.bits_of d = items_bits (SpsHEVC.hevc_items s layers) ++ rest -> Z.land (Z.shiftr h 1) 0x3F = 33 ->
     Forall (fun e => unit_ok e.2) (before ++ (b, u) :: after) ->
     Forall (fun e => bytes e.2 /\ unit_type CodecHEVC e.2 <> 33) before ->
     DetectFromFrame (annexb (before ++ (b, u) :: after)) CodecHEVC = Ret (SpsHEVC.hevc_size s)).
Proof.
  intros Hd. split.
  - intros s x u Hok Hov HW HH Hb Hh Hu Hbefore. apply frame_detects; try done; [by left| |lia|lia].
    apply (detect_h264_sps s x d rest); done || lia.
  - intros s layers u Hok HW HH Hb Hh Hu Hbefore. apply frame_detects; try done; [by right|].
    by apply (detect_hevc_sps s layers d rest).
Qed.

Lemma returns_units_loop units codec : Forall bytes units -> returns (units_loop units codec) (fun _ => True).
Proof.
  induction 1 as [|u units Hu Hus IH]; cbn [units_loop]; [by apply returns_Ret|].
  eapply returns_bind with (P := fun _ => True).
  - unfold detectFromSingleNAL. go; [by apply returns_Ret|]. by apply recovered_returns, returns_nal.
  - intros r _. go; [by apply returns_Ret|done].
Qed.

(** whatever the bytes and the codec, no panic reaches the deferred recovers
    of the detector: every parser, splitter and pattern search returns, so the
    size of every frame is computed, never defaulted after a crash. *)
Theorem detection_total (frameData : list Z) (codec : CodecType) :
  bytes frameData ->
  returns (units_body frameData codec) (fun units => Forall (fun u => returns (nal_body u codec) (fun _ => True)) units) /\
  (2 <= len frameData -> returns (av1_body frameData) (fun _ => True)) /\
  (4 <= len frameData -> returns (jpegxs_body frameData) (fun _ => True)) /\
  (exists r, DetectFromFrame frameData codec = Ret r).
Proof.
  intros Hd.
  assert (returns (units_body frameData codec) (Forall bytes)) as Hunits.
  { destruct codec; try (apply returns_Ret; repeat constructor; done); try (by apply returns_annexb).
    apply returns_Ret. unfold extractAV1OBUs. case_bool; repeat constructor; done. }
  split_and!.
  - eapply returns_weaken; [done|]. cbv beta. intros units Hu. eapply Forall_impl; [done|]. intros u. apply returns_nal.
  - by apply returns_av1.
  - by apply returns_jpegxs.
  - unfold DetectFromFrame. case_bool; [by eexists|]. destruct (recovered_returns [] _ _ Hunits) as [_ (units & E & Hu)].
    unfold extractNALUnits. rewrite E, bind_Ret. unfold DetectFromNALUnits. case_bool; [by eexists|].
    destruct (returns_units_loop units codec Hu) as (r & -> & _). by eexists.
Qed.

(** An access unit delimiter, the parameter set of [hd1080] and a slice. *)
Lemma frame_resolution_witness :
  DetectFromFrame (annexb ([(true, [9; 240])] ++ (true, 103 :: Rbsp.add_loop 0 hd1080_bytes) :: [(false, [101; 136; 132])])) CodecH264 =
  Ret (mkRes 1920 1080).
Proof.
  destruct (frame_resolution [(true, [9; 240])] [(false, [101; 136; 132])] true hd1080_bytes
    (dropZ (len (items_bits (h264_items hd1080 hd1080_lists))) (BitReader.bits_of hd1080_bytes)) 103 0) as [H _];
    [unfold is_byte; decide_goal|].
  apply (H hd1080 hd1080_lists hd1080_ok eq_refl); [by vm_compute|by vm_compute|by vm_compute|by vm_compute| |].
  - assert (forall v x, x <> 0 -> code_free (v ++ [x]) = true -> unit_ok (v ++ [x])) as Hu
      by (intros v x Hx Hf; by exists v, x).
    constructor; [by apply (Hu [9] 240)|]. constructor; [|constructor; [by apply (Hu [101; 136] 132)|constructor]].
    exact (Hu [103; 100; 0; 40; 173; 143; 1; 225; 0; 128; 138; 74; 17; 3; 101; 1; 224; 8; 159; 148] 128 ltac:(done) eq_refl).
  - constructor; [split; [unfold is_byte; decide_goal|done]|constructor].
Defined.

Lemma detection_total_witness :
  let d := [0; 0; 1; 103; 100; 0; 40; 255] in
  exists r, DetectFromFrame d CodecH264 = Ret r.
Proof.
  intros d. destruct (detection_total d CodecH264) as (_ & _ & _ & H); [unfold is_byte; decide_goal|exact H].
Defined.

(** The AV1 sequence header of a 1920x1080 still picture: the five bits of the
    level before the size are not skipped. *)
Example av1_level_not_skipped : DetectFromFrame [0x08; 0x1A; 0x2A; 0xBB; 0xFC; 0x37] CodecAV1 = Ret (mkRes 11 60).
Proof. vm_compute. reflexivity. Qed.
