(* ===== verification/AV1.v ===== *)
(** * AV1 depacketizer (codec/av1_depacketizer.go)

    OBU elements behind LEB128 lengths, fragments and the buffer of the temporal
    unit.  An OBU is handed out when the next temporal unit begins; the receiver
    interface of [Depacketizer] speaks of the OBUs a packet completes. *)

From stdpp Require Import strings pretty.
From S2P Require Import Prelude Returns Serial Depacketizer.
From S2P Require Leb128.
#[local] Open Scope Z_scope.

Inductive av1_error : Type :=
| ErrPayloadTooShort
| ErrFragmentSizeLimit
| ErrOBULength (e : Leb128.leb_error)
| ErrOBUExceeds (n remaining : Z)
| ErrNoHeader
| ErrForbiddenBit.

Record AV1Depacketizer := mkAV1 {
  fragments : list (list Z);
  lastSeq : Z;
  fragmentedOBU : bool;
  obuType : Z;
  temporalUnitBuf : list (list Z)
}.
#[export] Instance eta_AV1 : Eta AV1Depacketizer := fun d =>
  mkAV1 (fragments d) (lastSeq d) (fragmentedOBU d) (obuType d) (temporalUnitBuf d).

Definition obuTemporalDelimiter : Z := 2.

Definition parseOBUHeader (data : list Z) : res (exn av1_error Z) :=
  if len data <? 1 then Ret (Err ErrNoHeader)
  else
    header ← idx data 0;
    if negb (Z.land header 0x80 =? 0) then Ret (Err ErrForbiddenBit)
    else Ret (Val (Z.land (Z.shiftr header 3) 0x0F)).
(** [obuType, _ := d.parseOBUHeader(...)] *)
Definition header_type (data : list Z) : res Z :=
  r ← parseOBUHeader data; Ret (match r with Val t => t | Err _ => 0 end).

(** A length at [offset] and the bytes it announces. *)
Definition read_element (payload : list Z) (offset : Z) : res (exn av1_error (Z * list Z)) :=
  rest ← slice payload offset (len payload);
  let '(length, bytesRead, err) := Leb128.ReadLEB128 rest in
  match err with
  | Some e => Ret (Err (ErrOBULength e))
  | None =>
      let offset := offset + bytesRead in
      if u64 (len payload - offset) <? length then Ret (Err (ErrOBUExceeds length (len payload - offset)))
      else obu ← slice payload offset (offset + length); Ret (Val (offset + length, obu))
  end.

Fixpoint prefixed_loop (fuel : nat) (payload : list Z) (offset : Z) (obus : list (list Z))
    : res (exn av1_error (list (list Z))) :=
  match fuel with
  | O => NoFuel
  | S fuel =>
      if offset <? len payload then
        r ← read_element payload offset;
        match r with
        | Err e => Ret (Err e)
        | Val (offset, obu) => prefixed_loop fuel payload offset (if 0 <? len obu then obus ++ [obu] else obus)
        end
      else Ret (Val obus)
  end.
Definition processLEB128PrefixedOBUs (payload : list Z) : res (exn av1_error (list (list Z))) :=
  prefixed_loop (S (length payload)) payload 0 [].

(** The first [n] elements, then the rest of the payload. *)
Fixpoint multiple_loop (n : nat) (payload : list Z) (offset : Z) (obus : list (list Z))
    : res (exn av1_error (list (list Z))) :=
  match n with
  | S n =>
      if offset <? len payload then
        r ← read_element payload offset;
        match r with
        | Err e => Ret (Err e)
        | Val (offset, obu) => multiple_loop n payload offset (obus ++ [obu])
        end
      else multiple_loop n payload offset obus
  | O =>
      if offset <? len payload
      then obu ← slice payload offset (len payload); Ret (Val (obus ++ [obu]))
      else Ret (Val obus)
  end.
Definition processMultipleOBUs (payload : list Z) (count : Z) : res (exn av1_error (list (list Z))) :=
  multiple_loop (Z.to_nat (count - 1)) payload 0 [].

Definition drop_fragments (d : AV1Depacketizer) : AV1Depacketizer := d <| fragments := [] |> <| fragmentedOBU := false |>.

(** A continuation fragment. *)
Definition continue_fragment (yBit : bool) (payload : list Z) (d : AV1Depacketizer) : AV1Depacketizer * option av1_error :=
  if Depacketizer.MaxNALUnitSize <? frag_size (fragments d) + len payload then (drop_fragments d, Some ErrFragmentSizeLimit)
  else
    let d := d <| fragments := fragments d ++ [payload] |> in
    if negb yBit then
      let obu := concat (fragments d) in
      (drop_fragments d <| temporalUnitBuf := temporalUnitBuf d ++ [obu] |>, None)
    else (d, None).

(** The first temporal delimiter of the buffer that is not its first OBU. *)
Fixpoint find_delimiter (i : Z) (buf : list (list Z)) : res (option Z) :=
  match buf with
  | [] => Ret None
  | obu :: buf =>
      t ← (if 0 <? len obu then header_type obu else Ret 0);
      if (0 <? len obu) && (t =? obuTemporalDelimiter) && (0 <? i) then Ret (Some i) else find_delimiter (i + 1) buf
  end.
Definition flush_before_delimiter (obus : list (list Z)) (d : AV1Depacketizer) : res (AV1Depacketizer * list (list Z)) :=
  if negb (fragmentedOBU d) && (0 <? len (temporalUnitBuf d)) then
    i ← find_delimiter 0 (temporalUnitBuf d);
    match i with
    | Some i =>
        before ← slice (temporalUnitBuf d) 0 i;
        rest ← slice (temporalUnitBuf d) i (len (temporalUnitBuf d));
        Ret (d <| temporalUnitBuf := rest |>, obus ++ before)
    | None => Ret (d, obus)
    end
  else Ret (d, obus).

(** The packet behind its aggregation header; the OBUs are returned on the error
    path too. *)
Definition process (zBit yBit nBit : bool) (wField : Z) (payload : list Z) (sequenceNumber : Z) (d : AV1Depacketizer)
    : res (AV1Depacketizer * (list (list Z) * option av1_error)) :=
  let lost := fragmentedOBU d && negb (sequenceNumber =? u16 (lastSeq d + 1)) in
  let d := if lost then drop_fragments d else d in
  let d := d <| lastSeq := sequenceNumber |> in
  if lost && zBit then Ret (d, ([], None))
  else
    let flush := nBit && (0 <? len (temporalUnitBuf d)) in
    let obus := if flush then temporalUnitBuf d else [] in
    let d := if flush then d <| temporalUnitBuf := [] |> else d in
    if zBit then
      if negb (fragmentedOBU d) || (len (fragments d) =? 0) then Ret (d, (obus, None))
      else
        let '(d, err) := continue_fragment yBit payload d in
        match err with
        | Some e => Ret (d, (obus, Some e))
        | None => '(d, obus) ← flush_before_delimiter obus d; Ret (d, (obus, None))
        end
    else if yBit then
      t ← header_type payload;
      let d := d <| fragments := [payload] |> <| fragmentedOBU := true |> <| obuType := t |> in
      '(d, obus) ← flush_before_delimiter obus d; Ret (d, (obus, None))
    else
      r ← (if wField =? 0 then processLEB128PrefixedOBUs payload else processMultipleOBUs payload wField);
      match r with
      | Err e => Ret (d, (obus, Some e))
      | Val obuList =>
          let d := d <| temporalUnitBuf := temporalUnitBuf d ++ obuList |> in
          '(d, obus) ← flush_before_delimiter obus d; Ret (d, (obus, None))
      end.

Definition Depacketize (payload : list Z) (sequenceNumber : Z) (d : AV1Depacketizer)
    : res (AV1Depacketizer * (list (list Z) * option av1_error)) :=
  if len payload <? 1 then Ret (d, ([], Some ErrPayloadTooShort))
  else
    aggHeader ← idx payload 0;
    let zBit := negb (Z.land aggHeader 0x80 =? 0) in
    let yBit := negb (Z.land aggHeader 0x40 =? 0) in
    let wField := Z.shiftr (Z.land aggHeader 0x30) 4 in
    let nBit := negb (Z.land aggHeader 0x08 =? 0) in
    payload ← slice payload 1 (len payload);
    process zBit yBit nBit wField payload sequenceNumber d.

Definition Reset_ (d : AV1Depacketizer) : AV1Depacketizer := mkAV1 [] 0 false 0 [].
Definition NewAV1Depacketizer : AV1Depacketizer := mkAV1 [] 0 false 0 [].

Definition GetOBUTypeName (t : Z) : string :=
  if t =? 1 then "SequenceHeader" else if t =? 2 then "TemporalDelimiter" else if t =? 3 then "FrameHeader"
  else if t =? 4 then "TileGroup" else if t =? 5 then "Metadata" else if t =? 6 then "Frame"
  else if t =? 7 then "RedundantFrameHeader" else if t =? 8 then "TileList" else if t =? 15 then "Padding"
  else ("Unknown(" +:+ pretty t +:+ ")")%string.

(** ** One packet *)

(** The handler's sense of an OBU in progress. *)
Definition av1_inv (d : AV1Depacketizer) : Prop := is_u16 (lastSeq d) /\ (fragmentedOBU d = true <-> fragments d <> []).
Definition av1_frags (d : AV1Depacketizer) : list (list Z) := if fragmentedOBU d then [] :: fragments d else [].

Lemma header_type_total data : exists t, header_type data = Ret t.
Proof.
  unfold header_type, parseOBUHeader. case_bool; [by eexists|]. destruct (idx_Ret data 0) as (h & -> & _); [lia|].
  rewrite bind_Ret. case_bool; by eexists.
Qed.

Lemma find_delimiter_total i buf :
  0 <= i -> exists r, find_delimiter i buf = Ret r /\ forall k, r = Some k -> i <= k < i + len buf.
Proof.
  revert i. induction buf as [|obu buf IH]; intros i Hi; cbn [find_delimiter]; [by exists None|]. pose proof (len_nonneg buf).
  assert (exists t, (if 0 <? len obu then header_type obu else Ret 0) = Ret t) as (t & ->)
    by (case_bool; [apply header_type_total|by eexists]).
  rewrite bind_Ret, len_cons. destruct (_ && (0 <? i)).
  - exists (Some i). split; [done|]. intros k [= <-]. lia.
  - destruct (IH (i + 1) ltac:(lia)) as (r & -> & Hr). exists r. split; [done|]. intros k Hk. specialize (Hr k Hk). lia.
Qed.

Lemma flush_spec obus d :
  exists buf out, flush_before_delimiter obus d = Ret (d <| temporalUnitBuf := buf |>, out) /\
    out ++ buf = obus ++ temporalUnitBuf d.
Proof.
  unfold flush_before_delimiter. assert (exists buf out, Ret (d, obus) = Ret (d <| temporalUnitBuf := buf |>, out) /\
    out ++ buf = obus ++ temporalUnitBuf d) as Hsame by (exists (temporalUnitBuf d), obus; by destruct d).
  case_bool; [|done]. destruct (find_delimiter_total 0 (temporalUnitBuf d)) as ([i|] & -> & Hi); [lia| |done].
  specialize (Hi i eq_refl). rewrite bind_Ret, !slice_Ret by lia. rewrite !bind_Ret. eexists _, _. split; [reflexivity|].
  rewrite <- app_assoc, dropZ_0, Z.sub_0_r by lia. f_equal. rewrite (takeZ_all (len _ - i)) by (rewrite len_dropZ; lia).
  apply takeZ_dropZ.
Qed.

(** ** The elements of a packet *)

Lemma ReadLEB128_ok data v n :
  bytes data -> Leb128.ReadLEB128 data = (v, n, None) -> 0 <= v < 2 ^ 64 /\ 1 <= n <= len data.
Proof.
  intros Hd E. rewrite Leb128.ReadLEB128_is_spec in E by done. destruct (Leb128.leb_spec_ok _ _ _ E) as (_ & ? & _ & ? & _). done.
Qed.

(** A length and its bytes: what it takes and where it goes on. *)
Lemma returns_element payload offset :
  bytes payload -> len payload < 2 ^ 62 -> 0 <= offset <= len payload ->
  returns (read_element payload offset) (fun r => forall o u, r = Val (o, u) -> offset < o <= len payload /\ bytes u).
Proof.
  intros Hb Hl Ho. unfold read_element. go; [lia|lia|]. destruct (Leb128.ReadLEB128 k) as [[v n] [e|]] eqn:E; [by apply returns_Ret|].
  destruct (ReadLEB128_ok _ _ _ Hk E) as [Hv Hn]. cbv zeta. rewrite u64_id by lia. go; [by apply returns_Ret|].
  go; [lia|lia|]. apply returns_Ret. intros o u [= <- <-]. split; [lia|done].
Qed.

Lemma returns_prefixed fuel payload offset obus :
  bytes payload -> len payload < 2 ^ 62 -> 0 <= offset <= len payload -> len payload - offset < Z.of_nat fuel ->
  returns (prefixed_loop fuel payload offset obus) (fun _ => True).
Proof.
  revert offset obus. induction fuel as [|fuel IH]; intros offset obus Hb Hl Ho Hf; cbn [prefixed_loop]; [lia|].
  go; [|by apply returns_Ret]. eapply returns_bind; [by apply returns_element|]. intros [[o u]|e] Hr; [|by apply returns_Ret].
  destruct (Hr o u eq_refl). apply IH; done || lia.
Qed.
Lemma returns_multiple n payload offset obus :
  bytes payload -> len payload < 2 ^ 62 -> 0 <= offset <= len payload ->
  returns (multiple_loop n payload offset obus) (fun _ => True).
Proof.
  revert offset obus. induction n as [|n IH]; intros offset obus Hb Hl Ho; cbn [multiple_loop].
  - go; [|by apply returns_Ret]. go; [lia|lia|]. by apply returns_Ret.
  - go; [|by apply IH]. eapply returns_bind; [by apply returns_element|]. intros [[o u]|e] Hr; [|by apply returns_Ret].
    destruct (Hr o u eq_refl). apply IH; done || lia.
Qed.

(** The encoder's length field. *)
Definition leb (n : Z) : list Z := match Leb128.WriteLEB128 n with Ret l => l | _ => [] end.
Lemma leb_read n rest :
  0 <= n < 2 ^ 64 -> bytes rest -> Leb128.ReadLEB128 (leb n ++ rest) = (n, len (leb n), None) /\ bytes (leb n) /\ 1 <= len (leb n) <= 10.
Proof.
  intros Hn Hr. unfold leb. destruct (Leb128.WriteLEB128_encodes n Hn) as (l & -> & He & Hl & _).
  pose proof He as (_ & _ & Hb & H1 & _). rewrite Leb128.ReadLEB128_is_spec by by apply Forall_app_2.
  split; [|done]. apply Leb128.leb_spec_encoded; [done|done|lia].
Qed.

Definition element (u : list Z) : list Z := leb (len u) ++ u.
Lemma read_element_ok pre u rest :
  bytes u -> bytes rest -> len (pre ++ element u ++ rest) < 2 ^ 62 ->
  read_element (pre ++ element u ++ rest) (len pre) = Ret (Val (len (pre ++ element u), u)).
Proof.
  intros Hu Hr Hl. unfold read_element. rewrite slice_tail, bind_Ret by done. unfold element in *. rewrite <- !app_assoc in *.
  pose proof (len_nonneg pre). pose proof (len_nonneg u). pose proof (len_nonneg rest). rewrite !len_app in Hl.
  pose proof (len_nonneg (leb (len u))).
  destruct (leb_read (len u) (u ++ rest)) as (-> & _ & Hn); [lia|by apply bytes_app|]. cbv zeta.
  rewrite !len_app, u64_id by lia. rewrite (proj2 (Z.ltb_ge _ (len u))) by lia.
  rewrite slice_Ret by (rewrite ?len_app; lia). rewrite bind_Ret. rewrite (app_assoc pre), dropZ_app_ge by (rewrite len_app; lia).
  rewrite len_app, Z.sub_diag, dropZ_0 by lia. rewrite takeZ_app_le by lia. rewrite takeZ_all by lia. do 3 f_equal. lia.
Qed.

Definition unit_bytes (u : list Z) : Prop := bytes u /\ len u < 2 ^ 32.
Lemma element_bytes u : unit_bytes u -> bytes (element u).
Proof.
  intros [Hb Hl]. unfold element. pose proof (len_nonneg u). apply bytes_app; [|done].
  destruct (leb_read (len u) []) as (_ & Hbytes & _); [lia|constructor|done].
Qed.
Lemma elements_bytes us : Forall unit_bytes us -> bytes (concat (map element us)).
Proof. intros Hu. apply Forall_concat, Forall_map. eapply Forall_impl; [exact Hu|]. apply element_bytes. Qed.

Lemma prefixed_ok fuel pre us obus :
  Forall unit_bytes us -> Forall (fun u => u <> []) us -> (length us < fuel)%nat -> len (pre ++ concat (map element us)) < 2 ^ 62 ->
  prefixed_loop fuel (pre ++ concat (map element us)) (len pre) obus = Ret (Val (obus ++ us)).
Proof.
  intros Hu. revert fuel pre obus. induction Hu as [|u us Hb Hus IH]; intros fuel pre obus Hne Hf Hl;
    (destruct fuel as [|fuel]; [simpl in Hf; lia|]); cbn [prefixed_loop map concat].
  { rewrite !app_nil_r, Z.ltb_irrefl. done. }
  apply Forall_cons in Hne as [Hne Hnes]. cbn [map concat] in Hl. pose proof (elements_bytes us Hus) as Hrest.
  pose proof (leb_read (len u) [] ltac:(pose proof (len_nonneg u); destruct Hb; lia) ltac:(constructor)) as (_ & _ & H1).
  assert (len (element u) = len (leb (len u)) + len u) as He by (unfold element; by rewrite len_app).
  pose proof (len_nonneg u). pose proof (len_nonneg (concat (map element us))).
  rewrite (proj2 (Z.ltb_lt _ _)) by (rewrite !len_app; lia). rewrite read_element_ok by (done || apply Hb). rewrite bind_Ret.
  rewrite (proj2 (len_pos_ne u)) by done. specialize (IH fuel (pre ++ element u) (obus ++ [u]) Hnes). rewrite <- !app_assoc in IH.
  rewrite IH; [done|simpl in Hf; lia|done].
Qed.

(** The elements but the last behind their lengths. *)
Lemma multiple_ok pre us last obus :
  Forall unit_bytes us -> unit_bytes last -> last <> [] -> len (pre ++ concat (map element us) ++ last) < 2 ^ 62 ->
  multiple_loop (length us) (pre ++ concat (map element us) ++ last) (len pre) obus = Ret (Val (obus ++ us ++ [last])).
Proof.
  intros Hu Hlast Hne. revert pre obus. induction Hu as [|u us Hb Hus IH]; intros pre obus Hl; cbn [multiple_loop length map concat].
  - cbn [map concat app] in Hl. pose proof (proj2 (len_pos_ne last) Hne) as Hpos. zbool. cbn [app].
    rewrite (proj2 (Z.ltb_lt _ _)) by (rewrite len_app; lia). by rewrite slice_tail.
  - cbn [map concat] in Hl. rewrite <- !app_assoc in *. pose proof (elements_bytes us Hus) as Hrest.
    pose proof (leb_read (len u) [] ltac:(pose proof (len_nonneg u); destruct Hb; lia) ltac:(constructor)) as (_ & _ & H1).
    assert (len (element u) = len (leb (len u)) + len u) as He by (unfold element; by rewrite len_app).
    pose proof (len_nonneg u). pose proof (len_nonneg (concat (map element us) ++ last)).
    rewrite (proj2 (Z.ltb_lt _ _)) by (rewrite !len_app in *; lia).
    rewrite read_element_ok; [|apply Hb|apply bytes_app; [done|apply Hlast]|done]. rewrite bind_Ret.
    specialize (IH (pre ++ element u) (obus ++ [u])). rewrite <- !app_assoc in IH. by rewrite IH.
Qed.

(** What the fragments and the buffer make of a packet: the OBUs handed out and
    buffered are those buffered before and the new ones [new]. *)
Definition after (d d' : AV1Depacketizer) (seq : Z) (obus new : list (list Z)) : Prop :=
  av1_inv d' /\ lastSeq d' = seq /\ obus ++ temporalUnitBuf d' = temporalUnitBuf d ++ new.

(** The end of [process]: the flush before a delimiter changes the buffer only. *)
Lemma flush_after d d1 obus new :
  av1_inv d1 -> obus ++ temporalUnitBuf d1 = temporalUnitBuf d ++ new ->
  exists d' out, ('(d, obus) ← flush_before_delimiter obus d1; Ret (d, (obus, @None av1_error))) = Ret (d', (out, None)) /\
    after d d' (lastSeq d1) out new /\ av1_frags d' = av1_frags d1.
Proof.
  intros Hinv Hb. destruct (flush_spec obus d1) as (buf & out & -> & E). rewrite bind_Ret. eexists _, _. split; [reflexivity|].
  unfold after. cbn. by rewrite <- Hb.
Qed.

(** The state after the loss test and the flush at a new temporal unit. *)
Definition entered (nBit lost : bool) (seq : Z) (d : AV1Depacketizer) : AV1Depacketizer :=
  mkAV1 (if lost then [] else fragments d) seq (if lost then false else fragmentedOBU d) (obuType d)
    (if nBit && (0 <? len (temporalUnitBuf d)) then [] else temporalUnitBuf d).
Definition flushed (nBit : bool) (d : AV1Depacketizer) : list (list Z) :=
  if nBit && (0 <? len (temporalUnitBuf d)) then temporalUnitBuf d else [].

Lemma entered_buf nBit lost seq d : flushed nBit d ++ temporalUnitBuf (entered nBit lost seq d) = temporalUnitBuf d.
Proof. unfold flushed, entered. cbn. case_bool; [by rewrite app_nil_r|done]. Qed.

Lemma process_entered zBit yBit nBit w payload seq d :
  let lost := fragmentedOBU d && negb (seq =? u16 (lastSeq d + 1)) in
  let d1 := entered nBit lost seq d in
  let obus := flushed nBit d in
  process zBit yBit nBit w payload seq d =
  if lost && zBit then Ret (mkAV1 [] seq false (obuType d) (temporalUnitBuf d), ([], None))
  else if zBit then
    if negb (fragmentedOBU d1) || (len (fragments d1) =? 0) then Ret (d1, (obus, None))
    else
      let '(d2, err) := continue_fragment yBit payload d1 in
      match err with
      | Some e => Ret (d2, (obus, Some e))
      | None => '(d, obus) ← flush_before_delimiter obus d2; Ret (d, (obus, None))
      end
  else if yBit then
    t ← header_type payload;
    '(d, obus) ← flush_before_delimiter obus (mkAV1 [payload] seq true t (temporalUnitBuf d1)); Ret (d, (obus, None))
  else
    r ← (if w =? 0 then processLEB128PrefixedOBUs payload else processMultipleOBUs payload w);
    match r with
    | Err e => Ret (d1, (obus, Some e))
    | Val l => '(d, obus) ← flush_before_delimiter obus (d1 <| temporalUnitBuf := temporalUnitBuf d1 ++ l |>); Ret (d, (obus, None))
    end.
Proof.
  cbv zeta. unfold process, entered, flushed. destruct d as [fr last fo ty buf].
  cbn [fragmentedOBU lastSeq fragments obuType temporalUnitBuf].
  destruct nBit, (fo && negb (seq =? u16 (last + 1))), zBit, yBit; cbn -[processLEB128PrefixedOBUs processMultipleOBUs]; try done;
    by destruct (0 <? len buf).
Qed.


Lemma frags_held d : av1_inv d -> (fragmentedOBU d = false /\ av1_frags d = []) \/ (fragmentedOBU d = true /\ fragments d <> [] /\ av1_frags d = [] :: fragments d).
Proof. intros [_ Hf]. unfold av1_frags. destruct (fragmentedOBU d); [right|by left]. split_and!; [done|by apply Hf|done]. Qed.

(** A lost packet drops the fragments. *)
Lemma entered_inv nBit seq d :
  av1_inv d -> is_u16 seq -> let lost := fragmentedOBU d && negb (seq =? u16 (lastSeq d + 1)) in
  av1_inv (entered nBit lost seq d) /\ av1_frags (entered nBit lost seq d) = (if lost then [] else av1_frags d).
Proof.
  intros [_ Hf] Hs. cbv zeta. unfold av1_inv, av1_frags, entered.
  destruct (fragmentedOBU d && negb (seq =? u16 (lastSeq d + 1))); split; try done.
Qed.

(** A continuation of the OBU in progress. *)
Lemma continue_spec yBit payload d obus :
  av1_inv d -> fragmentedOBU d = true ->
  exists d2 err new, continue_fragment yBit payload d = (d2, err) /\ av1_inv d2 /\ lastSeq d2 = lastSeq d /\
    obus ++ temporalUnitBuf d2 = (obus ++ temporalUnitBuf d) ++ new /\
    fu_step [] payload false (negb yBit) 1 (av1_frags d) (av1_frags d2) new /\
    (err = None \/ err = Some ErrFragmentSizeLimit) /\
    (frag_size (fragments d) + len payload <= MaxNALUnitSize -> err = None /\
       if yBit then av1_frags d2 = av1_frags d ++ [payload] /\ new = []
       else av1_frags d2 = [] /\ new = [concat (av1_frags d ++ [payload])]).
Proof.
  intros [Hs Hf] Ho. assert (av1_frags d = [] :: fragments d) as Hfr by (unfold av1_frags; by rewrite Ho).
  unfold continue_fragment. case_bool.
  { eexists _, _, []. rewrite app_nil_r. split; [reflexivity|]. split_and!; try done; [constructor|by right|]. lia. }
  destruct yBit; cbn [negb]; eexists _, _, _; (split; [reflexivity|]).
  - unfold av1_inv, av1_frags. cbn. rewrite Ho, app_nil_r. split_and!; try done.
    + split; [|done]. intros _ E. by apply app_nil in E as [_ ?].
    + by apply (fu_append [] payload false false 1 ([] :: fragments d)).
    + by left.
  - unfold av1_inv, av1_frags. cbn. rewrite Ho. split_and!; try done; [by rewrite app_assoc| |by left].
    by apply (fu_finish [] payload false true 1 ([] :: fragments d)).
Qed.

(** A part of an OBU. *)
Lemma process_fragment zBit yBit nBit w payload seq d :
  av1_inv d -> is_u16 seq -> zBit || yBit = true ->
  let gap := sequenceDistance seq (lastSeq d) in
  exists d' obus err new, process zBit yBit nBit w payload seq d = Ret (d', (obus, err)) /\ after d d' seq obus new /\
    fu_step [] payload (negb zBit) (negb yBit) gap (av1_frags d) (av1_frags d') new /\
    (err = None \/ err = Some ErrFragmentSizeLimit) /\
    (zBit = false -> err = None /\ av1_frags d' = [[]; payload] /\ new = []) /\
    (zBit = true -> av1_frags d <> [] -> gap = 1 -> len (concat (av1_frags d)) + len payload <= MaxNALUnitSize ->
       err = None /\ if yBit then av1_frags d' = av1_frags d ++ [payload] /\ new = []
       else av1_frags d' = [] /\ new = [concat (av1_frags d ++ [payload])]).
Proof.
  intros Hinv Hs Hzy. cbv zeta. rewrite process_entered. cbv zeta.
  pose proof (sequenceDistance_1 seq (lastSeq d) Hs (proj1 Hinv)) as Hgap.
  destruct (entered_inv nBit seq d Hinv Hs) as [Hinv1 Hfr1].
  set (lost := fragmentedOBU d && negb (seq =? u16 (lastSeq d + 1))) in *. set (d1 := entered nBit lost seq d) in *.
  pose proof (entered_buf nBit lost seq d : flushed nBit d ++ temporalUnitBuf d1 = _) as Hbuf.
  assert (lastSeq d1 = seq) as Hls by done. clearbody d1. destruct zBit; cbn [negb].
  - destruct lost eqn:Elost; cbn [andb].
    { eexists _, _, _, []. split; [reflexivity|]. unfold after, av1_inv. cbn. rewrite app_nil_r.
      apply andb_prop in Elost as [_ Eg]. apply negb_true_iff, Z.eqb_neq in Eg.
      split_and!; try done; [constructor|by left|]. intros _ _ Hg. by apply Hgap in Hg. }
    destruct (frags_held d1 Hinv1) as [[Ho Hf]|(Ho & Hne & Hf)]; rewrite Ho; cbn [negb orb].
    { eexists _, _, _, []. split; [reflexivity|]. unfold after. rewrite app_nil_r. rewrite <- Hfr1, Hf.
      split_and!; try done; [constructor; [done|by left]|by left]. }
    rewrite (proj2 (Z.eqb_neq (len (fragments d1)) 0)) by (apply len_pos_ne in Hne; lia).
    destruct (continue_spec yBit payload d1 (flushed nBit d) Hinv1 Ho) as (d2 & err & new & -> & Hinv2 & Hl2 & Hb2 & Hst & Herr & Hex).
    assert (fragmentedOBU d = true -> sequenceDistance seq (lastSeq d) = 1) as Hg1.
    { intros Hod. unfold lost in Elost. rewrite Hod in Elost. apply Hgap. cbn in Elost. apply negb_false_iff in Elost. lia. }
    assert (sequenceDistance seq (lastSeq d) = 1) as Hg.
    { apply Hg1. revert Hfr1. rewrite Hf. unfold av1_frags. by destruct (fragmentedOBU d). }
    rewrite Hbuf in Hb2. rewrite Hls in Hl2. rewrite Hfr1 in *. destruct err as [e|].
    + eexists _, _, _, new. split; [reflexivity|]. split; [by split|]. rewrite Hg. split; [done|]. split; [done|]. split; [done|].
      intros _ _ _ Hfit. rewrite Hf in Hfit. apply Hex. rewrite frag_size_concat. exact Hfit.
    + destruct (flush_after d d2 (flushed nBit d) new Hinv2 Hb2) as (d' & out & -> & Ha & Hfr'). rewrite Hl2 in Ha.
      eexists _, _, _, new. split; [reflexivity|]. split; [done|]. rewrite Hg, Hfr'. split; [done|]. split; [by left|]. split; [done|].
      intros _ _ _ Hfit. rewrite Hf in Hfit. apply Hex. rewrite frag_size_concat. exact Hfit.
  - cbn in Hzy. subst yBit. rewrite andb_false_r. destruct (header_type_total payload) as (t & ->). rewrite bind_Ret.
    set (d2 := mkAV1 [payload] seq true t (temporalUnitBuf d1)).
    assert (av1_inv d2) as Hinv2 by done.
    destruct (flush_after d d2 (flushed nBit d) [] Hinv2) as (d' & out & -> & Ha & Hfr'); [by rewrite app_nil_r|].
    eexists _, _, _, []. split; [reflexivity|]. split; [done|]. rewrite Hfr'. split_and!; try done; [by apply fu_start|by left].
Qed.


(** Whole OBUs, as the parser of the elements has them. *)
Definition parse_elements (w : Z) (payload : list Z) : res (exn av1_error (list (list Z))) :=
  if w =? 0 then processLEB128PrefixedOBUs payload else processMultipleOBUs payload w.

Lemma parse_elements_total w payload :
  bytes payload -> len payload < 2 ^ 62 -> exists r, parse_elements w payload = Ret r.
Proof.
  intros Hb Hl. pose proof (len_nonneg payload). unfold parse_elements, processLEB128PrefixedOBUs, processMultipleOBUs.
  case_bool.
  - destruct (returns_prefixed (S (length payload)) payload 0 [] Hb Hl) as (r & -> & _); [lia|unfold len; lia|]. by eexists.
  - destruct (returns_multiple (Z.to_nat (w - 1)) payload 0 [] Hb Hl) as (r & -> & _); [lia|]. by eexists.
Qed.

Lemma process_whole nBit w payload seq d r :
  av1_inv d -> is_u16 seq -> parse_elements w payload = Ret r ->
  exists d' obus, process false false nBit w payload seq d = Ret (d', (obus, match r with Val _ => None | Err e => Some e end)) /\
    after d d' seq obus (match r with Val us => us | Err _ => [] end) /\ (av1_frags d' = av1_frags d \/ av1_frags d' = []).
Proof.
  intros Hinv Hs Hr. rewrite process_entered. cbv zeta. rewrite andb_false_r. unfold parse_elements in Hr. rewrite Hr, bind_Ret.
  destruct (entered_inv nBit seq d Hinv Hs) as [Hinv1 Hfr1].
  set (lost := fragmentedOBU d && negb (seq =? u16 (lastSeq d + 1))) in *. set (d1 := entered nBit lost seq d) in *.
  pose proof (entered_buf nBit lost seq d : flushed nBit d ++ temporalUnitBuf d1 = _) as Hbuf.
  assert (lastSeq d1 = seq) as Hls by done. clearbody d1.
  assert (av1_frags d1 = av1_frags d \/ av1_frags d1 = []) as Hf by (rewrite Hfr1; destruct lost; [by right|by left]).
  destruct r as [us|e].
  - set (d2 := d1 <| temporalUnitBuf := temporalUnitBuf d1 ++ us |>). assert (av1_inv d2) as Hinv2 by done.
    destruct (flush_after d d2 (flushed nBit d) us Hinv2) as (d' & out & -> & Ha & Hfr').
    { cbn. by rewrite app_assoc, Hbuf. }
    change (lastSeq d2) with (lastSeq d1) in Ha. rewrite Hls in Ha. eexists _, _. split; [reflexivity|]. split; [done|].
    rewrite Hfr'. exact Hf.
  - eexists _, _. split; [reflexivity|]. split; [|done]. unfold after. by rewrite app_nil_r.
Qed.

(** Whatever arrives, the depacketizer returns, keeps its invariant and loses
    no OBU it had buffered: OBUs leave in the order they came. *)
Lemma av1_total payload seq d :
  av1_inv d -> is_u16 seq -> bytes payload -> len payload < 2 ^ 62 ->
  exists d' obus err new, Depacketize payload seq d = Ret (d', (obus, err)) /\ av1_inv d' /\
    obus ++ temporalUnitBuf d' = temporalUnitBuf d ++ new.
Proof.
  intros Hinv Hs Hb Hl. unfold Depacketize. case_bool.
  { eexists _, _, _, []. split; [reflexivity|]. by rewrite app_nil_r. }
  destruct (idx_Ret payload 0) as (h & -> & _); [lia|]. rewrite bind_Ret, slice_Ret, bind_Ret by lia.
  set (rest := takeZ _ _).
  assert (bytes rest /\ len rest < 2 ^ 62) as [Hrb Hrl].
  { unfold rest. rewrite takeZ_all by (rewrite len_dropZ; lia). rewrite len_dropZ by lia. split; [by apply bytes_dropZ|lia]. }
  destruct (negb (Z.land h 0x80 =? 0)) eqn:Ez, (negb (Z.land h 0x40 =? 0)) eqn:Ey.
  4: { destruct (parse_elements_total (Z.shiftr (Z.land h 0x30) 4) rest Hrb Hrl) as (r & Hr).
       destruct (process_whole (negb (Z.land h 0x08 =? 0)) _ rest seq d r Hinv Hs Hr) as (d' & obus & -> & (? & ? & ?) & _).
       eauto 10. }
  all: match goal with |- context [process ?z ?y ?n ?w ?p ?s ?d] =>
         destruct (process_fragment z y n w p s d Hinv Hs eq_refl) as (d' & obus & err & new & -> & (? & ? & ?) & _) end; eauto 10.
Qed.


(** ** The sender (RFC draft-ietf-payload-av1) *)

(** The aggregation header, [low] being W, N and the reserved bits. *)
Definition aggregation (z y : bool) (low : Z) : Z := (if z then 0x80 else 0) + (if y then 0x40 else 0) + low.
Definition w_of (low : Z) : Z := low / 16.

Lemma aggregation_bits z y low :
  0 <= low < 64 -> let h := aggregation z y low in
  is_byte h /\ negb (Z.land h 0x80 =? 0) = z /\ negb (Z.land h 0x40 =? 0) = y /\ Z.shiftr (Z.land h 0x30) 4 = w_of low.
Proof.
  intros Hl. cbv zeta.
  pose proof (byte_forall (fun low => implb (low <? 64) (let h := aggregation z y low in
    (0 <=? h) && (h <? 256) && eqb (negb (Z.land h 0x80 =? 0)) z && eqb (negb (Z.land h 0x40 =? 0)) y &&
    (Z.shiftr (Z.land h 0x30) 4 =? w_of low)))) as H.
  specialize (H ltac:(destruct z, y; vm_compute; reflexivity) low ltac:(unfold is_byte; lia)). cbv beta zeta in H.
  rewrite (proj2 (Z.ltb_lt _ _)) in H by lia. cbn [implb] in H. repeat (apply andb_prop in H as [H ?]). unfold is_byte.
  repeat match goal with E : eqb _ _ = true |- _ => apply eqb_prop in E end. split_and!; try done; lia.
Qed.

(** The body of a packet of whole OBUs. *)
Definition whole_body (w : Z) (us : list (list Z)) (body : list Z) : Prop :=
  (w = 0 /\ body = concat (map element us)) \/
  (1 <= w <= 3 /\ exists us0 last, us = us0 ++ [last] /\ len us0 = w - 1 /\ body = concat (map element us0) ++ last).

Lemma whole_body_parsed w us body :
  Forall unit_bytes us -> Forall (fun u => u <> []) us -> whole_body w us body -> len body < 2 ^ 62 ->
  parse_elements w body = Ret (Val us) /\ bytes body.
Proof.
  intros Hu Hne [[-> ->]|(Hw & us0 & last & -> & Hn & ->)] Hl; unfold parse_elements.
  - split; [|by apply elements_bytes]. unfold processLEB128PrefixedOBUs.
    rewrite (prefixed_ok _ [] us []); [done|done|done| |done].
    assert (length us <= length (concat (map element us)))%nat; [|simpl; lia].
    clear Hl. induction Hne as [|u us Hne Hnes IH]; [simpl; lia|]. apply Forall_cons in Hu as [Hu1 Hu].
    cbn [map concat length]. specialize (IH Hu). rewrite length_app. unfold element at 1. rewrite length_app.
    destruct u; [done|]. cbn [length]. lia.
  - apply Forall_app in Hu as [Hu Hlast]. apply Forall_cons in Hlast as [Hlast _].
    apply Forall_app in Hne as [_ Hne]. apply Forall_cons in Hne as [Hne _].
    rewrite (proj2 (Z.eqb_neq w 0)) by lia. unfold processMultipleOBUs. rewrite <- Hn. replace (Z.to_nat (len us0)) with (length us0) by (unfold len; lia).
    split; [by apply (multiple_ok [] us0 last [])|]. apply bytes_app; [by apply elements_bytes|apply Hlast].
Qed.

(** ** The receiver *)

Section transport.
(** The low bits of the header of part [j] of an OBU. *)
Context (low : list (list Z) -> nat -> Z) (Hlow : forall parts j, 0 <= low parts j < 64).

Definition av1_payload (p : pkt) : list Z :=
  match p with
  | PWhole pl _ => pl
  | PFrag _ parts j => aggregation (negb (is_start j)) (negb (is_end parts j)) (low parts j) :: nth j parts []
  end.
Definition av1_wf (p : pkt) : Prop :=
  match p with
  | PWhole pl us => exists l body, 0 <= l < 64 /\ pl = aggregation false false l :: body /\ whole_body (w_of l) us body /\
      Forall unit_bytes us /\ Forall (fun u => u <> []) us /\ len pl < 2 ^ 62
  | PFrag hdr parts j => hdr = [] /\ (2 <= length parts)%nat /\ (j < length parts)%nat /\ Forall unit_bytes parts
  end.
Definition av1_fits (p : pkt) : Prop :=
  match p with PWhole _ _ => True | PFrag _ parts _ => len (concat parts) <= MaxNALUnitSize end.

(** A packet, with the OBUs it adds to those handed out and buffered, next to the
    errors met so far. *)
Definition receiver : Type := AV1Depacketizer * list av1_error.
Definition receive (now now' : Z) (payload : list Z) (seq : Z) (x : receiver)
    : res (receiver * exn av1_error (list (list Z))) :=
  '(d', (obus, err)) ← Depacketize payload seq x.1;
  Ret ((d', x.2 ++ option_list err), Val (dropZ (len (temporalUnitBuf x.1)) (obus ++ temporalUnitBuf d'))).
Definition size_error (e : av1_error) : Prop := e = ErrFragmentSizeLimit.
Definition receiver_inv (x : receiver) : Prop := av1_inv x.1 /\ Forall size_error x.2.

Lemma av1_payload_ok p : av1_wf p -> bytes (av1_payload p) /\ len (av1_payload p) < 2 ^ 62.
Proof.
  destruct p as [pl us|hdr parts j]; cbn [av1_wf av1_payload].
  - intros (l & body & Hl & -> & Hb & Hu & Hne & Hlen). split; [|done]. rewrite len_cons in Hlen.
    constructor; [by destruct (aggregation_bits false false l Hl)|]. by apply (whole_body_parsed (w_of l) us body Hu Hne Hb ltac:(lia)).
  - intros (_ & _ & Hj & Hp). assert (unit_bytes (nth j parts [])) as [Hb Hl].
    { rewrite Forall_forall in Hp. apply Hp, list_elem_of_In, nth_In. done. }
    split; [|rewrite len_cons; lia]. constructor; [|done]. by destruct (aggregation_bits (negb (is_start j)) (negb (is_end parts j)) _ (Hlow parts j)).
Qed.

(** The dispatch on the aggregation header. *)
Lemma av1_header_dispatch z y l body seq d :
  0 <= l < 64 ->
  exists n, Depacketize (aggregation z y l :: body) seq d = process z y n (w_of l) body seq d.
Proof.
  intros Hl. destruct (aggregation_bits z y l Hl) as (_ & Hz & Hy & Hw). unfold Depacketize. pose proof (len_nonneg body).
  rewrite len_cons, (proj2 (Z.ltb_ge _ _)) by lia. rewrite idx_nth, bind_Ret by (rewrite len_cons; lia).
  rewrite slice_Ret, bind_Ret by (rewrite ?len_cons; lia). change (dropZ 1 (aggregation z y l :: body)) with body.
  rewrite takeZ_all by lia. change (nth (Z.to_nat 0) (aggregation z y l :: body) 0) with (aggregation z y l). rewrite Hz, Hy, Hw. by eexists.
Qed.

(** The units a packet adds. *)
Lemma dropZ_buffered (buf obus buf' new : list (list Z)) : obus ++ buf' = buf ++ new -> dropZ (len buf) (obus ++ buf') = new.
Proof. intros ->. unfold dropZ, len. rewrite Nat2Z.id. by rewrite drop_app_length. Qed.

Lemma receive_fragment hdr parts j seq x now now' :
  receiver_inv x -> is_u16 seq -> av1_wf (PFrag hdr parts j) -> let d := x.1 in
  exists d' errs new, receive now now' (av1_payload (PFrag hdr parts j)) seq x = Ret ((d', errs), Val new) /\
    receiver_inv (d', errs) /\ lastSeq d' = seq /\
    fu_step [] (nth j parts []) (is_start j) (is_end parts j) (sequenceDistance seq (lastSeq d)) (av1_frags d) (av1_frags d') new /\
    (is_start j = true -> errs = x.2 /\ av1_frags d' = [[]; nth j parts []] /\ new = []) /\
    (is_start j = false -> av1_frags d <> [] -> sequenceDistance seq (lastSeq d) = 1 ->
       len (concat (av1_frags d)) + len (nth j parts []) <= MaxNALUnitSize ->
       errs = x.2 /\
       if is_end parts j then av1_frags d' = [] /\ new = [concat (av1_frags d ++ [nth j parts []])]
       else av1_frags d' = av1_frags d ++ [nth j parts []] /\ new = []).
Proof.
  destruct x as [d es]. intros [Hinv He] Hs (_ & H2 & Hj & _). cbn [av1_payload fst snd] in *. unfold receive. cbn [fst snd].
  destruct (av1_header_dispatch (negb (is_start j)) (negb (is_end parts j)) _ (nth j parts []) seq d (Hlow parts j)) as (n & ->).
  destruct (process_fragment (negb (is_start j)) (negb (is_end parts j)) n (w_of (low parts j)) (nth j parts []) seq d Hinv Hs)
    as (d' & obus & err & new & -> & (Hinv' & Hl' & Hb) & Hst & Herr & H0 & H1).
  { unfold is_start, is_end. destruct j as [|j]; [|done]. cbn. destruct parts as [|y [|z parts]]; simpl in H2; done || lia. }
  rewrite bind_Ret, (dropZ_buffered _ _ _ new Hb). rewrite !negb_involutive in Hst. exists d', (es ++ option_list err), new. split; [done|].
  split; [split; [done|]; apply Forall_app; split; [done|]; by destruct Herr as [-> | ->]; constructor|]. split; [done|]. split; [done|]. split.
  - intros E. rewrite E in H0. destruct (H0 eq_refl) as (-> & ?). by rewrite app_nil_r.
  - intros E A B C. rewrite E in H1. destruct (H1 eq_refl A B C) as (-> & H3). rewrite app_nil_r. split; [done|]. by destruct (is_end parts j).
Qed.

Lemma receive_whole pl us seq x now now' :
  receiver_inv x -> is_u16 seq -> av1_wf (PWhole pl us) ->
  exists d', receive now now' (av1_payload (PWhole pl us)) seq x = Ret ((d', x.2), Val us) /\ receiver_inv (d', x.2) /\ lastSeq d' = seq /\
    (av1_frags d' = av1_frags x.1 \/ av1_frags d' = []).
Proof.
  destruct x as [d es]. intros [Hinv He] Hs (l & body & Hl & -> & Hb & Hu & Hne & Hlen). cbn [av1_payload fst snd] in *. unfold receive.
  rewrite len_cons in Hlen. cbn [fst snd].
  destruct (av1_header_dispatch false false l body seq d Hl) as (n & ->).
  destruct (whole_body_parsed _ _ _ Hu Hne Hb ltac:(lia)) as [Hp _].
  destruct (process_whole n _ body seq d _ Hinv Hs Hp) as (d' & obus & -> & (Hinv' & Hl' & Hbuf) & Hf).
  rewrite bind_Ret, (dropZ_buffered _ _ _ us Hbuf). cbn [option_list]. rewrite app_nil_r. by exists d'.
Qed.

#[local] Instance AV1_receiver : NalReceiver receiver av1_error.
Proof.
  refine {| nr_frags := fun x => av1_frags x.1; nr_last := fun x => lastSeq x.1; nr_inv := receiver_inv; nr_ready := fun _ _ x => x.2 = [];
            nr_recv := receive; nr_payload := av1_payload; nr_wf := av1_wf; nr_fits := av1_fits |}.
  - intros x seq now now' [pl us|hdr parts j] Hinv Hseq Hwf.
    + destruct (receive_whole pl us seq x now now' Hinv Hseq Hwf) as (d' & -> & ? & ? & ?). by exists (d', x.2), us.
    + destruct (receive_fragment hdr parts j seq x now now' Hinv Hseq Hwf) as (d' & errs & new & -> & ? & ? & Hst & _).
      destruct Hwf as (-> & _). by exists (d', errs), new.
  - intros x seq now now' lo hi [pl us|hdr parts j] x' out Hinv Hseq Hwf Hfits Hready _ _ Hcont.
    + destruct (receive_whole pl us seq x now now' Hinv Hseq Hwf) as (d1 & -> & _). by intros [= <- <-].
    + destruct (receive_fragment hdr parts j seq x now now' Hinv Hseq Hwf) as (d1 & errs & new & -> & _ & _ & _ & H0 & H1).
      intros [= <- <-]. destruct Hwf as (-> & H2 & Hj & _). cbn [recv_exact fst snd] in *.
      destruct j as [|j]; [by destruct (H0 eq_refl) as (-> & ? & ?)|]. change (is_start (S j)) with false in *. destruct Hcont as [Hfr Hg].
      rewrite Hfr in *. specialize (H1 eq_refl ltac:(done) Hg). cbn [av1_fits] in Hfits.
      assert (len (concat ([] :: take (S j) parts)) + len (nth (S j) parts []) <= MaxNALUnitSize) as Hle.
      { cbn [concat app]. rewrite <- (take_drop (S (S j)) parts), concat_app, concat_take_nth, concat_app, !len_app in Hfits by done.
        cbn [concat] in Hfits. rewrite app_nil_r in Hfits. pose proof (len_nonneg (concat (drop (S (S j)) parts))). lia. }
      destruct (H1 Hle) as (-> & H3). split; [|done]. by destruct (is_end parts (S j)).
Defined.

(** Packets one after the other, with the OBUs and the errors really returned. *)
Fixpoint av1_run (ds : list delivery) (d : AV1Depacketizer) : res (AV1Depacketizer * list (list Z) * list av1_error) :=
  match ds with
  | [] => Ret (d, [], [])
  | x :: ds =>
      '(d, (obus, err)) ← Depacketize (dl_payload x) (dl_seq x) d;
      '(d, out, errs) ← av1_run ds d;
      Ret (d, obus ++ out, option_list err ++ errs)
  end.

(** The OBUs returned and those still buffered are those the packets completed. *)
Lemma av1_run_books ds d es d' es' new :
  av1_inv d -> Forall (fun x => is_u16 (dl_seq x) /\ bytes (dl_payload x) /\ len (dl_payload x) < 2 ^ 62) ds ->
  nr_run ds (d, es) = Ret ((d', es'), new) ->
  exists out errs, av1_run ds d = Ret (d', out, errs) /\ out ++ temporalUnitBuf d' = temporalUnitBuf d ++ new /\ es' = es ++ errs.
Proof.
  intros Hinv Hds. revert d es d' es' new Hinv. induction Hds as [|x ds (Hs & Hb & Hl) Hds IH]; intros d es d' es' new Hinv; cbn [nr_run av1_run].
  { intros [= <- <- <-]. exists [], []. by rewrite !app_nil_r. }
  destruct (av1_total (dl_payload x) (dl_seq x) d Hinv Hs Hb Hl) as (d1 & obus & err & new1 & Hd & Hinv1 & Hbuf).
  change (nr_recv (dl_now x) (dl_now' x) (dl_payload x) (dl_seq x) (d, es)) with (receive (dl_now x) (dl_now' x) (dl_payload x) (dl_seq x) (d, es)).
  unfold receive. cbn [fst snd]. rewrite Hd, !bind_Ret, (dropZ_buffered _ _ _ new1 Hbuf). intros Hr. apply bind_Ret_inv in Hr as ([[d2 es2] new2] & Hr & E).
  injection E as <- <- <-. destruct (IH _ _ _ _ _ Hinv1 Hr) as (out & errs & -> & Ho & ->). rewrite bind_Ret. exists (obus ++ out), (option_list err ++ errs).
  split; [done|]. split; [by rewrite <- app_assoc, Ho, app_assoc, Hbuf, <- app_assoc|by rewrite app_assoc].
Qed.

Lemma received_ok base items net :
  Forall av1_wf (packets items) -> Forall (fun x => (x.1.1 < length (packets items))%nat) net ->
  Forall (fun x => is_u16 (dl_seq x) /\ bytes (dl_payload x) /\ len (dl_payload x) < 2 ^ 62) (received base items net).
Proof.
  intros Hwf Hn. unfold received. apply Forall_map. eapply Forall_impl; [exact Hn|]. intros x Hx. cbn [dl_seq dl_payload].
  split; [apply u16_range|]. destruct (lookup_lt_is_Some_2 _ _ Hx) as [p Hp]. rewrite Hp. apply av1_payload_ok.
  by apply (Forall_lookup_1 _ _ _ _ Hwf Hp).
Qed.
Lemma plausible_sent items prev net : plausible items prev net -> Forall (fun x => (x.1.1 < length (packets items))%nat) net.
Proof. revert prev. induction net as [|x net IH]; intros prev; [constructor|]. intros (? & _ & ?). constructor; [done|by eapply IH]. Qed.
Lemma in_order_sent {items ts} i :
  (i + length ts <= length (packets items))%nat -> Forall (fun x => (x.1.1 < length (packets items))%nat) (in_order i ts).
Proof.
  revert i. induction ts as [|t ts IH]; intros i Hi; [constructor|]. cbn [length] in Hi. unfold in_order. cbn [length seq zip_with].
  constructor; [simpl; lia|]. apply IH. lia.
Qed.

Lemma timely_bounds ts : exists lo hi, timely lo hi ts.
Proof.
  induction ts as [|[a b] ts (lo & hi & IH)]; [exists 0, 0; constructor|].
  exists (Z.min lo (Z.min a b)), (Z.max hi (Z.max a b)). constructor; [simpl; lia|].
  eapply Forall_impl; [exact IH|]. intros [x y]. simpl. lia.
Qed.

(** C27: AV1 transport for senders of two kinds of packets, numbered from any
    [base]: whole OBUs alone, behind lengths, with any W from 0 to 3; or one
    fragment of one OBU alone, without a length.  Packings that put a fragment next
    to other elements, or behind a length, are left out: the depacketizer corrupts
    them ([mixed_fragment]).  However the network loses, repeats and reorders
    packets (successive deliveries within half the sequence space), every call
    returns, with no error but that of a fragment over 10 MB, and every OBU that
    was handed out or is held back is one that was sent; if every packet arrives in
    order and no fragmented OBU exceeds 10 MB, no call returns an error, and the
    OBUs handed out followed by those held back are exactly the OBUs sent, in
    order. *)
Theorem av1_transport base items :
  Forall av1_wf (packets items) ->
  (forall net, plausible_from items net ->
     exists d out errs, av1_run (received base items net) NewAV1Depacketizer = Ret (d, out, errs) /\
       Forall size_error errs /\
       Forall (fun u => exists it, it ∈ items /\ u ∈ item_units it) (out ++ temporalUnitBuf d)) /\
  (forall ts, Forall av1_fits (packets items) -> (forall hdr parts, Fragmented hdr parts ∈ items -> (2 <= length parts)%nat) ->
     length ts = length (packets items) ->
     exists d out, av1_run (received base items (in_order 0 ts)) NewAV1Depacketizer = Ret (d, out, []) /\
       out ++ temporalUnitBuf d = concat (map item_units items)).
Proof.
  intros Hwf. assert (receiver_inv (NewAV1Depacketizer, [])) as Hnew by (split; [done|constructor]). split.
  - intros net Hpl. assert (Forall (fun x => (x.1.1 < length (packets items))%nat) net) as Hn
      by (destruct net as [|x net]; [constructor|]; destruct Hpl as [? Hpl]; constructor; [done|by eapply plausible_sent]).
    destruct (@integrity_fresh _ _ AV1_receiver base items Hwf net _ Hnew eq_refl Hpl) as ([d es] & new & Hrun & Hsent).
    destruct (@received_inv _ _ AV1_receiver base items Hwf net _ _ _ Hnew Hn Hrun) as [_ Hes].
    destruct (av1_run_books _ _ _ _ _ _ (proj1 Hnew) (received_ok base items net Hwf Hn) Hrun) as (out & errs & Hr & Hb & ->).
    exists d, out, errs. split; [done|]. split; [done|]. by rewrite Hb.
  - intros ts Hf H2 Hlen. destruct (timely_bounds ts) as (lo & hi & Ht).
    destruct (@exact_run _ _ AV1_receiver base items Hwf Hf lo hi 0 ts _ Hnew eq_refl Ht ltac:(by rewrite Hlen)) as ([d es] & Hrun & _ & Hes);
      [|by left|].
    { unfold expects. destruct (packets items !! 0%nat) as [[|h ps [|j]]|] eqn:E; try done. by destruct (packets_prev _ _ _ _ _ E) as (? & ? & _). }
    destruct (av1_run_books _ _ _ _ _ _ (proj1 Hnew) (received_ok base items _ Hwf (@in_order_sent items ts 0 ltac:(lia))) Hrun)
      as (out & errs & Hr & Hb & ->). cbn in Hes. subst errs.
    exists d, out. split; [done|]. rewrite Hb. change (drop 0 (packets items)) with (packets items). by rewrite completes_units.
Qed.
End transport.

(** ** Witness *)

Definition sample_low (_ : list (list Z)) (j : nat) : Z := if is_start j then 0x18 else 0x10.
Lemma sample_low_range parts j : 0 <= sample_low parts j < 64.
Proof. destruct j; vm_compute; by repeat split. Qed.
#[local] Instance sample_receiver : NalReceiver receiver av1_error := AV1_receiver sample_low sample_low_range.

Definition sample_items : list item :=
  [Whole [0x08; 2; 0x12; 0; 3; 0x0A; 1; 2] [[0x12; 0]; [0x0A; 1; 2]];
   Fragmented [] [[0x32; 1]; [2; 3]; [4]];
   Whole [0x28; 2; 0x12; 0; 0x32; 9] [[0x12; 0]; [0x32; 9]]].
Lemma sample_wf : Forall av1_wf (packets sample_items) /\ Forall av1_fits (packets sample_items).
Proof.
  assert (Forall unit_bytes [[0x32; 1]; [2; 3]; [4]]) as Hp by (unfold unit_bytes, is_byte; decide_goal).
  split; unfold packets, sample_items; simpl; repeat apply Forall_cons_2; try apply Forall_nil_2; try done;
    try by (split_and!; [done|simpl; lia|simpl; lia|done]).
  - exists 8, [2; 0x12; 0; 3; 0x0A; 1; 2]. split_and!; [done..|by left|unfold unit_bytes, is_byte; decide_goal|decide_goal|done].
  - exists 0x28, [2; 0x12; 0; 0x32; 9]. split_and!; [done..| |unfold unit_bytes, is_byte; decide_goal|decide_goal|done].
    right. split; [done|]. by exists [[0x12; 0]], [0x32; 9].
Qed.
Lemma av1_transport_witness :
  (exists d out errs, av1_run (received 65534 sample_items [(1%nat, 0, 0); (2%nat, 0, 0); (2%nat, 0, 0); (4%nat, 0, 0)]) NewAV1Depacketizer
     = Ret (d, out, errs) /\ (out, temporalUnitBuf d, errs) = ([], [[0x12; 0]; [0x32; 9]], [])) /\
  (exists d out, av1_run (received 65534 sample_items (in_order 0 (replicate 5 (0, 0)))) NewAV1Depacketizer
     = Ret (d, out, []) /\ (out, temporalUnitBuf d) = ([[0x12; 0]; [0x0A; 1; 2]; [0x32; 1; 2; 3; 4]], [[0x12; 0]; [0x32; 9]])).
Proof.
  destruct (av1_transport sample_low sample_low_range 65534 sample_items (proj1 sample_wf)) as [Hi Hl]. split.
  - destruct (Hi [(1%nat, 0, 0); (2%nat, 0, 0); (2%nat, 0, 0); (4%nat, 0, 0)]) as (d & out & errs & Hrun & _).
    { simpl. unfold in_window. repeat split; simpl; lia. }
    exists d, out, errs. split; [exact Hrun|]. vm_compute in Hrun. by injection Hrun as <- <- <-.
  - destruct (Hl (replicate 5 (0, 0)) (proj2 sample_wf)) as (d & out & Hrun & _).
    { intros hdr parts Hin. unfold sample_items in Hin. set_unfold in Hin. destruct Hin as [?|[[= -> ->]|[?|[]]]]; [done|simpl; lia|done]. }
    { done. }
    exists d, out. split; [exact Hrun|]. vm_compute in Hrun. by injection Hrun as <- <-.
Defined.
(** An aggregate of a whole OBU and the first part of another (W = 2, Y = 1), then
    the rest of that one: the length of the first OBU and both OBUs come out as
    one. *)
Example mixed_fragment :
  av1_run (map (fun p => {| dl_payload := p.1; dl_seq := p.2; dl_now := 0; dl_now' := 0 |})
      [([0x60; 2; 0x0A; 1; 0x32; 8], 1); ([0x90; 9], 2)]) NewAV1Depacketizer
  = Ret (mkAV1 [] 2 false 0 [[2; 0x0A; 1; 0x32; 8; 9]], [], []).
Proof. vm_compute. reflexivity. Qed.
