(* ===== verification/JpegXs.v ===== *)
(** * JPEG XS depacketizer (codec/jpegxs_depacketizer.go)

    The RTP header of RFC 9134, the collection of a frame's packets and the loss
    test.  A packet that does not begin a frame is dropped when it follows a gap,
    but the packets after it are collected again: the end of a damaged frame is
    handed out as a frame. *)

From stdpp Require Import strings.
From S2P Require Import Prelude Returns Serial Depacketizer.
#[local] Open Scope Z_scope.

Definition MaxFrameSize : Z := 50 * 1024 * 1024.
Definition jpegxsMinHeaderSize : Z := 4.
Definition jpegxsExtendedHeaderSize : Z := 8.
Definition packetModeInterlaced : Z := 1.

Definition ProfileLight : Z := 0x1A.
Definition ProfileMain : Z := 0x2A.
Definition ProfileHigh : Z := 0x3A.
Definition ProfileHigh444_12 : Z := 0x4A.
Definition ProfileLightSubline : Z := 0x1B.
Definition ProfileMainSubline : Z := 0x2B.

Inductive jpegxs_error : Type :=
| ErrTooShort
| ErrTooShortExtended
| ErrNoData
| ErrNoFragments
| ErrFrameTooLarge (size : Z).

Record JPEGXSDepacketizer := mkXS {
  fragments : list (list Z);
  lastSeq : Z;
  hasLastSeq : bool;
  currentFrameID : Z;
  expectedPackets : Z;
  receivedPackets : Z;
  frameComplete : bool;
  profile : Z
}.
#[export] Instance eta_XS : Eta JPEGXSDepacketizer := fun d =>
  mkXS (fragments d) (lastSeq d) (hasLastSeq d) (currentFrameID d) (expectedPackets d) (receivedPackets d)
    (frameComplete d) (profile d).

(** The parser leaves [SubLevel] to [Height] zero. *)
Record jpegxsHeader := mkXSHeader {
  FirstPacket : bool;
  LastPacket : bool;
  PacketMode : Z;
  FieldID : Z;
  FrameID : Z;
  PacketID : Z;
  HasExtended : bool;
  Profile : Z;
  Level : Z;
  SubLevel : Z;
  ChromaFormat : Z;
  BitDepth : Z;
  Width : Z;
  Height : Z;
  Interlaced : bool
}.

(** [parseHeader], with the profile it stores in the depacketizer. *)
Definition parseHeader (payload : list Z) (d : JPEGXSDepacketizer)
    : res (JPEGXSDepacketizer * exn jpegxs_error (jpegxsHeader * Z)) :=
  if len payload <? jpegxsMinHeaderSize then Ret (d, Err ErrTooShort)
  else
    flags ← idx payload 0;
    b1 ← idx payload 1; b2 ← idx payload 2; b3 ← idx payload 3;
    let FirstPacket := negb (Z.land flags 0x80 =? 0) in
    let LastPacket := negb (Z.land flags 0x40 =? 0) in
    let PacketMode := Z.land (Z.shiftr flags 4) 0x03 in
    let FieldID := Z.land (Z.shiftr flags 3) 0x01 in
    let HasExtended := negb (Z.land flags 0x04 =? 0) in
    let FrameID := Z.lor (Z.lor (u32 (Z.shiftl b1 16)) (u32 (Z.shiftl b2 8))) b3 in
    let Interlaced := PacketMode =? packetModeInterlaced in
    if HasExtended then
      if len payload <? jpegxsExtendedHeaderSize then Ret (d, Err ErrTooShortExtended)
      else
        b4 ← idx payload 4; b5 ← idx payload 5; b6 ← idx payload 6; b7 ← idx payload 7;
        Ret (d <| profile := b6 |>,
             Val (mkXSHeader FirstPacket LastPacket PacketMode FieldID FrameID (be16 b4 b5) HasExtended b6 b7
                    0 0 0 0 0 Interlaced,
                  jpegxsExtendedHeaderSize))
    else
      Ret (d, Val (mkXSHeader FirstPacket LastPacket PacketMode FieldID FrameID 0 HasExtended 0 0
                    0 0 0 0 0 Interlaced,
                   jpegxsMinHeaderSize)).

Definition assembleFrame (d : JPEGXSDepacketizer) : exn jpegxs_error (list Z) :=
  if len (fragments d) =? 0 then Err ErrNoFragments
  else
    let totalSize := frag_size (fragments d) in
    if MaxFrameSize <? totalSize then Err (ErrFrameTooLarge totalSize) else Val (concat (fragments d)).

Definition resetFrame (d : JPEGXSDepacketizer) : JPEGXSDepacketizer :=
  d <| fragments := [] |> <| expectedPackets := 0 |> <| receivedPackets := 0 |> <| frameComplete := false |>.

(** The loss test and the start of a frame. *)
Definition enter_frame (header : jpegxsHeader) (lost new : bool) (sequenceNumber : Z) (d : JPEGXSDepacketizer) : JPEGXSDepacketizer :=
  let d := if lost && negb (frameComplete d) && (0 <? len (fragments d)) then resetFrame d else d in
  let d := d <| lastSeq := sequenceNumber |> <| hasLastSeq := true |> in
  if new then
    let d := if negb (frameComplete d) && (0 <? len (fragments d)) then resetFrame d else d in
    d <| currentFrameID := FrameID header |> <| expectedPackets := 0 |> <| receivedPackets := 0 |>
      <| frameComplete := false |> <| fragments := [] |>
  else d.

(** The end of a frame. *)
Definition finish_frame (header : jpegxsHeader) (d : JPEGXSDepacketizer)
    : JPEGXSDepacketizer * exn jpegxs_error (list (list Z)) :=
  if LastPacket header then
    let d := d <| expectedPackets := receivedPackets d |> in
    match assembleFrame d with
    | Err e => (resetFrame d, Err e)
    | Val frame => (resetFrame (d <| frameComplete := true |>), Val [frame])
    end
  else (d, Val []).

(** The packet behind its header. *)
Definition collect (header : jpegxsHeader) (payload : list Z) (headerSize sequenceNumber : Z) (d : JPEGXSDepacketizer)
    : res (JPEGXSDepacketizer * exn jpegxs_error (list (list Z))) :=
  let packetLossDetected := hasLastSeq d && negb (sequenceNumber =? u16 (lastSeq d + 1)) in
  let new := FirstPacket header || negb (FrameID header =? currentFrameID d) in
  let d := enter_frame header packetLossDetected new sequenceNumber d in
  if negb new && (packetLossDetected && negb (FirstPacket header)) then Ret (d, Val [])
  else
    jpegData ← slice payload headerSize (len payload);
    if len jpegData =? 0 then Ret (d, Err ErrNoData)
    else
      let d := d <| fragments := fragments d ++ [jpegData] |> <| receivedPackets := u16 (receivedPackets d + 1) |> in
      Ret (finish_frame header d).

Definition Depacketize (payload : list Z) (sequenceNumber : Z) (d : JPEGXSDepacketizer)
    : res (JPEGXSDepacketizer * exn jpegxs_error (list (list Z))) :=
  if len payload <? jpegxsMinHeaderSize then Ret (d, Err ErrTooShort)
  else
    '(d, r) ← parseHeader payload d;
    match r with
    | Err e => Ret (d, Err e)
    | Val (header, headerSize) => collect header payload headerSize sequenceNumber d
    end.

Definition Reset_ (d : JPEGXSDepacketizer) : JPEGXSDepacketizer :=
  resetFrame d <| lastSeq := 0 |> <| hasLastSeq := false |> <| currentFrameID := 0 |>.
Definition NewJPEGXSDepacketizer : JPEGXSDepacketizer := mkXS [] 0 false 0 0 0 false 0.
Definition GetProfile (d : JPEGXSDepacketizer) : Z := profile d.
Definition SetProfile (p : Z) (d : JPEGXSDepacketizer) : JPEGXSDepacketizer := d <| profile := p |>.

(** [%02X] of a byte *)
Definition hex_digit (n : Z) : string := String.substring (Z.to_nat n) 1 "0123456789ABCDEF".
Definition hex2 (b : Z) : string := hex_digit (b / 16) +:+ hex_digit (b mod 16).

Definition GetProfileName (p : Z) : string :=
  if p =? ProfileLight then "Light" else if p =? ProfileMain then "Main" else if p =? ProfileHigh then "High"
  else if p =? ProfileHigh444_12 then "High 4:4:4 12-bit" else if p =? ProfileLightSubline then "Light Subline"
  else if p =? ProfileMainSubline then "Main Subline" else ("Unknown(0x" +:+ hex2 p +:+ ")")%string.
Definition ValidateProfile (p : Z) : bool :=
  existsb (Z.eqb p) [ProfileLight; ProfileMain; ProfileHigh; ProfileHigh444_12; ProfileLightSubline; ProfileMainSubline].
Definition GetChromaFormatString (chromaFormat : Z) : string :=
  if chromaFormat =? 0 then "4:2:0" else if chromaFormat =? 1 then "4:2:2" else if chromaFormat =? 2 then "4:4:4" else "Unknown".
Definition GetBitDepth (bitDepthCode : Z) : Z :=
  if bitDepthCode =? 0 then 8 else if bitDepthCode =? 1 then 10 else if bitDepthCode =? 2 then 12 else 0.

(** The name function knows exactly the valid profiles. *)
Lemma profile_named p : is_byte p -> ValidateProfile p = true <-> GetProfileName p <> ("Unknown(0x" +:+ hex2 p +:+ ")")%string.
Proof.
  intros Hp. pose proof (byte_forall (fun p => Bool.eqb (ValidateProfile p)
    (negb (String.eqb (GetProfileName p) ("Unknown(0x" +:+ hex2 p +:+ ")")%string))) ltac:(vm_compute; reflexivity) p Hp) as E.
  cbv beta in E. apply eqb_prop in E. rewrite E, negb_true_iff. apply String.eqb_neq.
Qed.

(** ** One packet *)

(** A frame is never complete between packets, and nothing is held before the
    first one. *)
Definition xs_inv (d : JPEGXSDepacketizer) : Prop :=
  is_u16 (lastSeq d) /\ frameComplete d = false /\ (hasLastSeq d = false -> fragments d = []).

Lemma frags_empty (fr : list (list Z)) : (0 <? len fr) = false -> fr = [].
Proof. intros E. destruct fr as [|f fr]; [done|]. rewrite len_cons in E. pose proof (len_nonneg fr). lia. Qed.

Lemma enter_spec header lost new seq d :
  frameComplete d = false ->
  exists ex rc, enter_frame header lost new seq d =
    mkXS (if lost || new then [] else fragments d) seq true (if new then FrameID header else currentFrameID d) ex rc false (profile d).
Proof.
  intros Hc. unfold enter_frame. destruct d as [fr last has id ex rc fc pr]. cbn in Hc. subst fc.
  pose proof (frags_empty fr) as He. cbn [frameComplete fragments]. destruct (0 <? len fr) eqn:E; [|rewrite He by done]; destruct lost, new;
    cbn [negb andb orb]; eexists _, _; cbn; rewrite ?E; reflexivity.
Qed.

(** Data that ends or extends the fragments. *)
Definition collected (last : bool) (fr : list (list Z)) (d' : JPEGXSDepacketizer) (r : exn jpegxs_error (list (list Z))) : Prop :=
  if last then fragments d' = [] /\ (len (concat fr) <= MaxFrameSize -> r = Val [concat fr]) /\
                 (r = Val [concat fr] \/ exists e, r = Err e)
  else fragments d' = fr /\ r = Val [].

Lemma finish_spec header d fr data :
  frameComplete d = false -> hasLastSeq d = true -> is_u16 (lastSeq d) -> fragments d = fr ++ [data] ->
  let '(d', r) := finish_frame header d in
  xs_inv d' /\ lastSeq d' = lastSeq d /\ hasLastSeq d' = true /\ currentFrameID d' = currentFrameID d /\
    collected (LastPacket header) (fr ++ [data]) d' r.
Proof.
  intros Hc Hh Hs Hf. unfold finish_frame. destruct (LastPacket header); cbn [collected].
  - unfold assembleFrame. change (fragments (d <| expectedPackets := receivedPackets d |>)) with (fragments d). rewrite Hf.
    assert (len (fr ++ [data]) =? 0 = false) as -> by (rewrite len_app; change (len [data]) with 1; pose proof (len_nonneg fr); lia).
    rewrite frag_size_concat. destruct (Z.ltb_spec MaxFrameSize (len (concat (fr ++ [data])))).
    + unfold xs_inv. cbn. split_and!; try done; [lia|]. right. by eexists.
    + unfold xs_inv. cbn. split_and!; try done. by left.
  - unfold xs_inv. rewrite Hc, Hf. split_and!; try done. by rewrite Hh.
Qed.

(** The packet is dropped; or it begins a frame, continues the one at hand,
    or is taken for the first of a frame. *)
Lemma collect_spec header payload n seq d :
  xs_inv d -> 0 <= n < len payload -> is_u16 seq ->
  let data := dropZ n payload in
  let follows := negb (hasLastSeq d) || (seq =? u16 (lastSeq d + 1)) in
  let new := FirstPacket header || negb (FrameID header =? currentFrameID d) in
  exists d' r, collect header payload n seq d = Ret (d', r) /\ xs_inv d' /\ lastSeq d' = seq /\ hasLastSeq d' = true /\
    currentFrameID d' = FrameID header /\
    if new then collected (LastPacket header) [data] d' r
    else if follows then collected (LastPacket header) (fragments d ++ [data]) d' r
    else fragments d' = [] /\ r = Val [].
Proof.
  intros (Hs & Hc & Hh) Hn Hseq. cbv zeta. unfold collect.
  set (lost := hasLastSeq d && negb (seq =? u16 (lastSeq d + 1))). set (new := FirstPacket header || _).
  replace (negb (hasLastSeq d) || (seq =? u16 (lastSeq d + 1))) with (negb lost)
    by (unfold lost; by destruct (hasLastSeq d), (seq =? u16 (lastSeq d + 1))).
  destruct (enter_spec header lost new seq d Hc) as (ex & rc & ->).
  assert (new = false -> FirstPacket header = false /\ FrameID header = currentFrameID d) as Hnew.
  { intros E. apply orb_false_iff in E as [? E]. apply negb_false_iff in E. split; [done|lia]. }
  destruct new eqn:Enew; [|destruct (Hnew eq_refl) as [-> Hid]; destruct lost eqn:Elost]; cbn [negb andb orb].
  2: { eexists _, _. split; [reflexivity|]. by rewrite Hid. }
  all: rewrite slice_Ret, bind_Ret by lia; rewrite takeZ_all by (rewrite len_dropZ; lia).
  all: rewrite (proj2 (Z.eqb_neq (len (dropZ n payload)) 0)) by (rewrite len_dropZ; lia).
  all: rewrite ?orb_true_r; cbn [fragments app].
  - pose proof (finish_spec header (mkXS [dropZ n payload] seq true (FrameID header) ex (u16 (rc + 1)) false (profile d)) [] (dropZ n payload)
      eq_refl eq_refl Hseq eq_refl) as Hf.
    destruct (finish_frame _ _) as [d' r]. destruct Hf as (? & ? & ? & ? & ?). by exists d', r.
  - pose proof (finish_spec header (mkXS (fragments d ++ [dropZ n payload]) seq true (currentFrameID d) ex (u16 (rc + 1)) false (profile d))
      (fragments d) (dropZ n payload) eq_refl eq_refl Hseq eq_refl) as Hf.
    destruct (finish_frame _ _) as [d' r]. destruct Hf as (? & ? & ? & ? & ?). exists d', r. by rewrite Hid.
Qed.

(** The header's size is 4 or 8, within the packet. *)
Lemma parse_total payload d :
  4 <= len payload ->
  exists d' r, parseHeader payload d = Ret (d', r) /\ (d' = d \/ exists p, d' = d <| profile := p |>) /\
    forall h n, r = Val (h, n) -> 0 <= n <= len payload.
Proof.
  intros Hl. unfold parseHeader, jpegxsMinHeaderSize, jpegxsExtendedHeaderSize. rewrite (proj2 (Z.ltb_ge _ _)) by lia.
  rewrite (idx_nth _ 0), (idx_nth _ 1), (idx_nth _ 2), (idx_nth _ 3), !bind_Ret by lia. case_bool.
  - case_bool; [eexists _, _; split; [reflexivity|]; split; [by left|done]|].
    rewrite (idx_nth _ 4), (idx_nth _ 5), (idx_nth _ 6), (idx_nth _ 7), !bind_Ret by lia. eexists _, _. split; [reflexivity|].
    split; [right; by eexists|]. intros ? ? [= _ <-]. lia.
  - eexists _, _. split; [reflexivity|]. split; [by left|]. intros ? ? [= _ <-]. lia.
Qed.

(** The handler returns on any bytes. *)
Lemma jpegxs_total payload seq d :
  xs_inv d -> is_u16 seq -> exists d' r, Depacketize payload seq d = Ret (d', r) /\ xs_inv d'.
Proof.
  intros Hinv Hseq. unfold Depacketize, jpegxsMinHeaderSize. case_bool; [by eexists _, _|].
  destruct (parse_total payload d ltac:(lia)) as (d0 & r & -> & Hd0 & Hn). rewrite bind_Ret.
  assert (xs_inv d0) as Hinv0 by (destruct Hd0 as [->|(q & ->)]; done). destruct r as [[h n]|e]; [|by eexists _, _].
  specialize (Hn h n eq_refl). destruct (decide (n = len payload)) as [->|].
  - (* no data behind the header *)
    destruct Hinv0 as (Hs & Hc & Hh). unfold collect.
    destruct (enter_spec h (hasLastSeq d0 && negb (seq =? u16 (lastSeq d0 + 1))) (FirstPacket h || negb (FrameID h =? currentFrameID d0)) seq d0 Hc)
      as (ex & rc & ->). case_bool; [eexists _, _; by split|]. rewrite slice_Ret, bind_Ret by lia.
    rewrite Z.sub_diag, takeZ_0 by lia. eexists _, _. split; [reflexivity|]. done.
  - destruct (collect_spec h payload n seq d0 Hinv0 ltac:(lia) Hseq) as (d' & r & -> & ? & _). by eexists _, _.
Qed.

(** ** The sender (RFC 9134) *)

(** What a sender may choose for each packet: the mode and field bits, the
    reserved ones, and the extension (packet number, profile, level). *)
Record style := mkStyle { st_mode : Z; st_reserved : Z; st_extension : option (Z * Z * Z * Z) }.
Definition extension (s : style) : list Z :=
  match st_extension s with Some (a, b, c, d) => [a; b; c; d] | None => [] end.
Definition style_ok (s : style) : Prop := 0 <= st_mode s < 8 /\ 0 <= st_reserved s < 4.

Definition xs_flags (first last : bool) (s : style) : Z :=
  (if first then 0x80 else 0) + (if last then 0x40 else 0) + 8 * st_mode s +
  (if st_extension s then 4 else 0) + st_reserved s.
Definition xs_packet (first last : bool) (s : style) (id data : list Z) : list Z :=
  xs_flags first last s :: id ++ extension s ++ data.
Definition id_number (id : list Z) : Z :=
  match id with
  | [a; b; c] => Z.lor (Z.lor (u32 (Z.shiftl a 16)) (u32 (Z.shiftl b 8))) c
  | _ => 0
  end.

Lemma xs_flags_bits first last s :
  style_ok s -> let h := xs_flags first last s in
  negb (Z.land h 0x80 =? 0) = first /\ negb (Z.land h 0x40 =? 0) = last /\
  negb (Z.land h 0x04 =? 0) = match st_extension s with Some _ => true | None => false end.
Proof.
  intros [Hm Hr]. cbv zeta. destruct s as [m r ext]. cbn [st_mode st_reserved] in *.
  pose proof (byte_forall (fun low => implb (low <? 32) (
    let h := (if first then 0x80 else 0) + (if last then 0x40 else 0) + 8 * (low / 4) + (if ext then 4 else 0) + low mod 4 in
    Bool.eqb (negb (Z.land h 0x80 =? 0)) first && Bool.eqb (negb (Z.land h 0x40 =? 0)) last &&
    Bool.eqb (negb (Z.land h 0x04 =? 0)) (if ext then true else false)))) as H.
  specialize (H ltac:(destruct first, last, ext; vm_compute; reflexivity) (4 * m + r) ltac:(unfold is_byte; lia)). cbv beta zeta in H.
  rewrite (proj2 (Z.ltb_lt _ _)) in H by lia. replace ((4 * m + r) / 4) with m in H by (rewrite (Z.mul_comm 4), Z.div_add_l, Z.div_small by lia; lia).
  replace ((4 * m + r) mod 4) with r in H by (rewrite Z.add_comm, (Z.mul_comm 4), Z_mod_plus_full, Z.mod_small; lia).
  cbn [implb] in H. unfold xs_flags. cbn [st_mode st_reserved st_extension]. apply andb_prop in H as [H E3]. apply andb_prop in H as [E1 E2].
  apply eqb_prop in E1, E2, E3. split_and!; [done|done|]. rewrite E3. by destruct ext.
Qed.

Ltac const_idx :=
  change (Z.to_nat 0) with 0%nat; change (Z.to_nat 1) with 1%nat; change (Z.to_nat 2) with 2%nat; change (Z.to_nat 3) with 3%nat;
  change (Z.to_nat 4) with 4%nat; change (Z.to_nat 5) with 5%nat; change (Z.to_nat 6) with 6%nat; change (Z.to_nat 7) with 7%nat;
  cbn [nth].

(** The parser finds what the sender put into the header. *)
Lemma Depacketize_packet first last s id data seq d :
  style_ok s -> len id = 3 -> data <> [] ->
  exists header d0 n, Depacketize (xs_packet first last s id data) seq d = collect header (xs_packet first last s id data) n seq d0 /\
    (d0 = d \/ exists p, d0 = d <| profile := p |>) /\
    FirstPacket header = first /\ LastPacket header = last /\ FrameID header = id_number id /\
    dropZ n (xs_packet first last s id data) = data /\ 0 <= n < len (xs_packet first last s id data).
Proof.
  intros Hs Hid Hdata. destruct (xs_flags_bits first last s Hs) as (Ef & El & Ee).
  destruct id as [|a [|b [|c [|e tl]]]]; try (by vm_compute in Hid);
    [|rewrite !len_cons in Hid; pose proof (len_nonneg tl); lia].
  apply len_pos_ne, Z.ltb_lt in Hdata. unfold xs_packet, Depacketize, parseHeader.
  unfold jpegxsMinHeaderSize, jpegxsExtendedHeaderSize. unfold extension.
  pose proof (len_nonneg data). destruct (st_extension s) as [[[[x y] z] w]|]; cbn [app].
  - rewrite !len_cons. repeat rewrite (proj2 (Z.ltb_ge _ _)) by lia. rewrite !idx_nth by (rewrite !len_cons; lia). rewrite !bind_Ret.
    const_idx. rewrite Ef, El, Ee. eexists _, _, _. split; [reflexivity|].
    split; [right; by eexists|]. split_and!; try done; lia.
  - rewrite !len_cons. repeat rewrite (proj2 (Z.ltb_ge _ _)) by lia. rewrite (idx_nth _ 0), (idx_nth _ 1), (idx_nth _ 2), (idx_nth _ 3) by (rewrite !len_cons; lia). rewrite !bind_Ret.
    const_idx. rewrite Ef, El, Ee. eexists _, _, _. split; [reflexivity|].
    split; [by left|]. split_and!; try done; lia.
Qed.

(** ** Frames over a network *)

Section transport.
Context (styles : list Z -> list (list Z) -> nat -> style) (Hstyles : forall id parts j, style_ok (styles id parts j)).
Context (base : Z) (items : list item).

(** Every item is a frame: its number in three bytes, and its parts. *)
Definition frame_item (it : item) : Prop :=
  match it with
  | Whole _ _ => False
  | Fragmented id parts => len id = 3 /\ parts <> [] /\ Forall (fun p => p <> []) parts
  end.
Context (Hframes : Forall frame_item items).

Definition xs_wire (p : pkt) : list Z :=
  match p with
  | PWhole pl _ => pl
  | PFrag id parts j => xs_packet (is_start j) (is_end parts j) (styles id parts j) id (nth j parts [])
  end.

(** Packets by their index, in the order of arrival; a failing packet yields no frame. *)
Definition deliver (i : nat) : list Z * Z :=
  (match packets items !! i with Some p => xs_wire p | None => [] end, wire_seq base i).
Fixpoint xs_run (ds : list (list Z * Z)) (d : JPEGXSDepacketizer) : res (JPEGXSDepacketizer * list (list Z)) :=
  match ds with
  | [] => Ret (d, [])
  | (payload, seq) :: ds =>
      '(d, r) ← Depacketize payload seq d;
      '(d, out) ← xs_run ds d;
      Ret (d, (match r with Val us => us | Err _ => [] end) ++ out)
  end.

Lemma sent_frame i p :
  packets items !! i = Some p ->
  exists id parts j, p = PFrag id parts j /\ Fragmented id parts ∈ items /\ len id = 3 /\ (j < length parts)%nat /\ nth j parts [] <> [].
Proof.
  intros Hp. pose proof Hp as Hin. apply list_elem_of_lookup_2 in Hin. unfold packets in Hin.
  apply list_elem_of_In, in_concat in Hin as (l & Hl & Hpl). apply in_map_iff in Hl as (it & <- & Hit).
  rewrite Forall_forall in Hframes. specialize (Hframes it (proj2 (list_elem_of_In _ _) Hit)).
  destruct it as [pl us|id parts]; [done|]. destruct Hframes as (Hid & _ & Hne). cbn [packets_of] in Hpl.
  apply in_map_iff in Hpl as (j & <- & Hj). apply in_seq in Hj. exists id, parts, j. split_and!; try done; [by apply list_elem_of_In|lia|].
  rewrite Forall_forall in Hne. apply Hne, list_elem_of_In, nth_In. lia.
Qed.

Lemma drop_take_snoc (parts : list (list Z)) a c :
  (a <= c < length parts)%nat -> drop a (take c parts) ++ [nth c parts []] = drop a (take (S c) parts).
Proof. intros H. rewrite concat_take_nth by lia. rewrite drop_app_le by (rewrite length_take; lia). done. Qed.

(** What is held after packet [li]: parts [a .. li] of its frame, or nothing. *)
Definition holds_run (li : nat) (fr : list (list Z)) : Prop :=
  fr = [] \/ exists id parts a c, (a < c)%nat /\ fr = drop a (take c parts) /\ packets items !! li = Some (PFrag id parts (c - 1)).
Definition arrived (prev : option nat) (d : JPEGXSDepacketizer) : Prop :=
  xs_inv d /\
  match prev with
  | None => hasLastSeq d = false
  | Some li => hasLastSeq d = true /\ lastSeq d = wire_seq base li /\ holds_run li (fragments d)
  end.
Definition near (prev : option nat) (i : nat) : Prop :=
  match prev with None => True | Some li => in_window (Z.of_nat i) (Z.of_nat li) end.

Definition tail_of_sent (f : list Z) : Prop :=
  exists id parts a, Fragmented id parts ∈ items /\ (a < length parts)%nat /\ f = concat (drop a parts).

Lemma follows_prev prev i d :
  arrived prev d -> near prev i -> negb (hasLastSeq d) || (wire_seq base i =? u16 (lastSeq d + 1)) = true ->
  match prev with None => fragments d = [] | Some li => i = S li end.
Proof.
  intros [(_ & _ & Hh) Hp] Hn. destruct prev as [li|]; [|by rewrite Hp in *; auto].
  destruct Hp as (-> & -> & _). cbn. intros E. apply Z.eqb_eq in E. apply (sequenceDistance_1) in E; [|apply u16_is_u16..].
  unfold wire_seq in E. rewrite sequenceDistance_window in E by (unfold near, in_window in *; lia). lia.
Qed.

(** One packet, whatever the network did before. *)
Lemma xs_step prev i d p :
  arrived prev d -> near prev i -> packets items !! i = Some p ->
  exists d' r, Depacketize (xs_wire p) (wire_seq base i) d = Ret (d', r) /\ arrived (Some i) d' /\
    Forall tail_of_sent (match r with Val us => us | Err _ => [] end).
Proof.
  intros Ha Hn Hp. destruct (sent_frame i p Hp) as (id & parts & j & -> & Hin & Hid & Hj & Hdata). cbn [xs_wire].
  destruct (Depacketize_packet (is_start j) (is_end parts j) (styles id parts j) id (nth j parts []) (wire_seq base i) d (Hstyles _ _ _) Hid Hdata)
    as (header & d0 & n & -> & Hd0 & Hf & Hl & Hfid & Hpl & Hn0).
  assert (arrived prev d0 /\ fragments d0 = fragments d) as [Ha0 Hfr0] by (destruct Hd0 as [->|(q & ->)]; done). clear Hd0 Ha.
  destruct (collect_spec header _ n (wire_seq base i) d0 (proj1 Ha0) Hn0 (u16_is_u16 _)) as (d' & r & -> & Hinv' & Hls & Hhas & _ & Hc).
  rewrite Hpl, Hl in Hc. exists d', r. split; [done|]. unfold arrived. rewrite Hls.
  assert (forall a, (a <= j)%nat -> collected (is_end parts j) (drop a (take (S j) parts)) d' r ->
    holds_run i (fragments d') /\ Forall tail_of_sent (match r with Val us => us | Err _ => [] end)) as Hrun.
  { intros a Ha. unfold collected, is_end. destruct (Nat.eqb_spec (S j) (length parts)) as [Hend|].
    - intros (-> & _ & Hr). split; [by left|]. destruct Hr as [->|(e & ->)]; [|constructor]. apply Forall_cons_2; [|constructor].
      exists id, parts, a. split_and!; [done|lia|]. by rewrite take_ge by lia.
    - intros [-> ->]. split; [|constructor]. right. exists id, parts, a, (S j). split_and!; [lia|done|]. by rewrite Nat.sub_succ, Nat.sub_0_r. }
  destruct (FirstPacket header || _) eqn:Enew.
  - destruct (Hrun j ltac:(lia)) as [? ?]; [|done]. rewrite <- drop_take_snoc, drop_ge by (rewrite ?length_take; lia). exact Hc.
  - destruct (negb (hasLastSeq d0) || _) eqn:Efol; [|destruct Hc as [-> ->]; split; [|constructor]; split_and!; try done; by left].
    pose proof (follows_prev _ _ _ Ha0 Hn Efol) as Hprev. destruct prev as [li|].
    + subst i. destruct Ha0 as (_ & _ & _ & [Hnone|(id' & parts' & a & c & Hac & Hfr & Hli)]).
      * rewrite Hnone in Hc. destruct (Hrun j ltac:(lia)) as [? ?]; [|done].
        rewrite <- drop_take_snoc, drop_ge by (rewrite ?length_take; lia). exact Hc.
      * destruct j as [|j]; [by rewrite Hf in Enew|].
        destruct (packets_prev _ _ _ _ _ Hp) as (i' & [= <-] & Hq). rewrite Hli in Hq. injection Hq as -> -> Ec.
        rewrite Hfr in Hc. destruct (Hrun a ltac:(lia)) as [? ?]; [|done]. rewrite <- drop_take_snoc by lia.
        assert (c = S j) as -> by lia. exact Hc.
    + rewrite Hprev in Hc. destruct (Hrun j ltac:(lia)) as [? ?]; [|done].
      rewrite <- drop_take_snoc, drop_ge by (rewrite ?length_take; lia). exact Hc.
Qed.

Fixpoint plausible_order (prev : option nat) (net : list nat) : Prop :=
  match net with
  | [] => True
  | i :: net => (i < length (packets items))%nat /\ near prev i /\ plausible_order (Some i) net
  end.

Lemma xs_any prev net d :
  arrived prev d -> plausible_order prev net ->
  exists d' out, xs_run (map deliver net) d = Ret (d', out) /\ Forall tail_of_sent out.
Proof.
  revert prev d. induction net as [|i net IH]; intros prev d Ha Hpl; [exists d, []; split; [done|constructor]|].
  destruct Hpl as (Hi & Hn & Hpl). destruct (lookup_lt_is_Some_2 _ _ Hi) as [p Hp]. cbn [map]. unfold deliver at 1. cbn [xs_run]. rewrite Hp.
  destruct (xs_step prev i d p Ha Hn Hp) as (d1 & r & -> & Ha1 & Ht). rewrite bind_Ret.
  destruct (IH _ d1 Ha1 Hpl) as (d' & out & -> & Hout). rewrite bind_Ret. eexists _, _. split; [reflexivity|]. by apply Forall_app.
Qed.

(** ** Without loss *)

Definition frame_fits (it : item) : Prop :=
  match it with Whole _ _ => True | Fragmented _ parts => len (concat parts) <= MaxFrameSize end.
Context (Hfits : Forall frame_fits items).

(** What is held before packet [i] when every packet before it has arrived. *)
Definition awaits (i : nat) (d : JPEGXSDepacketizer) : Prop :=
  match packets items !! i with
  | Some (PFrag id parts (S j)) => fragments d = take (S j) parts /\ currentFrameID d = id_number id
  | _ => True
  end.

Definition completes_frame (p : pkt) : list (list Z) :=
  match p with PFrag _ parts j => if is_end parts j then [concat parts] else [] | _ => [] end.

Lemma xs_exact_step i d p :
  arrived (match i with O => None | S i => Some i end) d -> awaits i d -> packets items !! i = Some p ->
  exists d', Depacketize (xs_wire p) (wire_seq base i) d = Ret (d', Val (completes_frame p)) /\ arrived (Some i) d' /\ awaits (S i) d'.
Proof.
  intros Ha Hw Hp. assert (near (match i with O => None | S i => Some i end) i) as Hn by (destruct i; [done|]; unfold near, in_window; lia).
  destruct (xs_step _ i d p Ha Hn Hp) as (d' & r & Hd & Ha' & _).
  assert (Hnext : forall id parts k, packets items !! S i = Some (PFrag id parts (S k)) -> p = PFrag id parts k /\ (S k < length parts)%nat).
  { intros id parts k Hk. pose proof (packets_part _ _ _ _ _ Hk). destruct (packets_prev _ _ _ _ _ Hk) as (i' & [= <-] & Hq). split; [congruence|done]. }
  destruct (sent_frame i p Hp) as (id & parts & j & -> & Hin & Hid & Hj & Hdata). cbn [xs_wire] in Hd.
  assert (len (concat parts) <= MaxFrameSize) as Hsize.
  { rewrite Forall_forall in Hfits. exact (Hfits _ Hin). }
  assert (fragments d' = (if is_end parts j then [] else take (S j) parts) /\ currentFrameID d' = id_number id /\
          r = Val (if is_end parts j then [concat parts] else [])) as (Hf' & Hid' & ->).
  { destruct (Depacketize_packet (is_start j) (is_end parts j) (styles id parts j) id (nth j parts []) (wire_seq base i) d (Hstyles _ _ _) Hid Hdata)
      as (header & d0 & n & E & Hd0 & Hf & Hl & Hfid & Hpl & Hn0). rewrite E in Hd. clear E.
    assert (xs_inv d0 /\ fragments d0 = fragments d /\ currentFrameID d0 = currentFrameID d /\ lastSeq d0 = lastSeq d)
      as (Hinv0 & Hfr0 & Hid0 & Hls0) by (destruct Hd0 as [->|(q & ->)]; destruct Ha; done). clear Hd0.
    destruct (collect_spec header _ n (wire_seq base i) d0 Hinv0 Hn0 (u16_is_u16 _)) as (d1 & r1 & E & _ & _ & _ & Hcur & Hc).
    rewrite Hd in E. injection E as <- <-. rewrite Hpl, Hl, Hf, Hfid in Hc. rewrite Hfid in Hcur.
    assert (collected (is_end parts j) (take (S j) parts) d' r) as Hcol.
    { destruct j as [|j]; [cbn [is_start Nat.eqb orb] in Hc; by rewrite concat_take_nth|].
      destruct (packets_prev _ _ _ _ _ Hp) as (i' & -> & _). destruct Ha as (_ & _ & Hlast & _).
      unfold awaits in Hw. rewrite Hp in Hw. destruct Hw as [Hfr Hcid]. rewrite Hid0, Hcid, Z.eqb_refl in Hc. cbn [is_start Nat.eqb orb negb] in Hc.
      rewrite Hls0, Hlast in Hc. replace (wire_seq base (S i') =? u16 (wire_seq base i' + 1)) with true in Hc
        by (unfold wire_seq; symmetry; apply Z.eqb_eq; mlia).
      rewrite orb_true_r, Hfr0, Hfr in Hc. by rewrite (concat_take_nth parts (S j)). }
    unfold collected in Hcol. unfold is_end in *. destruct (Nat.eqb_spec (S j) (length parts)) as [Hend|]; [|by destruct Hcol as [-> ->]].
    rewrite take_ge in Hcol by lia. destruct Hcol as (-> & Hr & _). by rewrite (Hr Hsize). }
  exists d'. split; [exact Hd|]. split; [done|]. unfold awaits. destruct (packets items !! S i) as [[|id' parts' [|k]]|] eqn:E; try done.
  destruct (Hnext _ _ _ eq_refl) as ([= -> -> ->] & Hlt). rewrite Hf'. unfold is_end. by rewrite (proj2 (Nat.eqb_neq _ _)) by lia.
Qed.

Lemma xs_exact_run n i d :
  arrived (match i with O => None | S i => Some i end) d -> awaits i d -> (i + n = length (packets items))%nat ->
  exists d', xs_run (map deliver (seq i n)) d = Ret (d', concat (map completes_frame (drop i (packets items)))).
Proof.
  revert i d. induction n as [|n IH]; intros i d Ha Hw Hi; [exists d; by rewrite drop_ge by lia|].
  destruct (lookup_lt_is_Some_2 (packets items) i) as [p Hp]; [lia|]. cbn [seq map]. unfold deliver at 1. cbn [xs_run]. rewrite Hp.
  destruct (xs_exact_step i d p Ha Hw Hp) as (d1 & -> & Ha1 & Hw1). rewrite bind_Ret.
  destruct (IH (S i) d1 Ha1 Hw1 ltac:(lia)) as (d' & ->). rewrite bind_Ret. exists d'. by rewrite (drop_S _ _ _ Hp).
Qed.

Definition frame_bytes (it : item) : list Z := match it with Whole _ _ => [] | Fragmented _ parts => concat parts end.

Lemma completes_parts id parts n k :
  (n + k = length parts)%nat -> (0 < k)%nat ->
  concat (map completes_frame (map (PFrag id parts) (seq n k))) = [concat parts].
Proof.
  revert n. induction k as [|k IH]; intros n Hn Hk; [lia|]. cbn [seq map concat completes_frame]. unfold is_end at 1.
  destruct k as [|k]; [by rewrite (proj2 (Nat.eqb_eq _ _)) by lia|].
  rewrite (proj2 (Nat.eqb_neq _ _)) by lia. cbn [app]. apply IH; lia.
Qed.
Lemma completes_all : concat (map completes_frame (packets items)) = map frame_bytes items.
Proof.
  clear -Hframes. induction items as [|it its IH]; [done|]. apply Forall_cons in Hframes as [Hit Hits]. specialize (IH Hits).
  change (packets (it :: its)) with (packets_of it ++ packets its). rewrite map_app, concat_app, IH. cbn [map].
  destruct it as [|id parts]; [done|]. destruct Hit as (_ & Hne & _). cbn [packets_of]. rewrite completes_parts; [done|done|].
  destruct parts; [done|simpl; lia].
Qed.

(** JPEG XS transport.  Let a sender cut frames into non-empty packets with
    any mode, reserved bits and extension headers, numbered from any [base].  When
    every packet arrives in order the frames handed out are exactly the frames
    sent (of at most 50 MB).  However the network loses, repeats and reorders
    packets, the depacketizer returns, and whatever it hands out as a frame is
    the end of a sent frame, from some packet on. *)
Theorem jpegxs_frames :
  (exists d, xs_run (map deliver (seq 0 (length (packets items)))) NewJPEGXSDepacketizer = Ret (d, map frame_bytes items)) /\
  (forall net, plausible_order None net ->
     exists d out, xs_run (map deliver net) NewJPEGXSDepacketizer = Ret (d, out) /\ Forall tail_of_sent out).
Proof.
  assert (arrived None NewJPEGXSDepacketizer) as Hnew by done. split; [|intros net Hpl; by apply (xs_any None net)].
  destruct (xs_exact_run (length (packets items)) 0 NewJPEGXSDepacketizer Hnew) as (d & Hrun); [|done|].
  { unfold awaits. destruct (packets items !! 0%nat) as [[|h ps [|j]]|] eqn:E; try done. by destruct (packets_prev _ _ _ _ _ E) as (? & ? & _). }
  exists d. rewrite Hrun. change (drop 0 (packets items)) with (packets items). by rewrite completes_all.
Qed.
End transport.

(** ** Witness, and a damaged frame *)

Definition sample_frames : list item :=
  [Fragmented [0; 0; 7] [[1; 2]; [3; 4]; [5]; [6]]; Fragmented [0; 0; 8] [[9; 9]]].
Definition sample_style (id : list Z) (parts : list (list Z)) (j : nat) : style :=
  if is_start j then mkStyle 2 3 (Some (0, 1, 0x1A, 4)) else mkStyle 0 0 None.
Lemma sample_style_ok id parts j : style_ok (sample_style id parts j).
Proof. unfold sample_style. destruct (is_start j); by repeat split. Qed.
Lemma sample_frames_ok : Forall frame_item sample_frames /\ Forall frame_fits sample_frames.
Proof.
  split; repeat apply Forall_cons_2; try apply Forall_nil_2; try done; (split; [done|split; [done|]]);
    repeat apply Forall_cons_2; done || apply Forall_nil_2.
Qed.

Lemma jpegxs_frames_witness :
  exists d, xs_run (map (deliver sample_style 65534 sample_frames) (seq 0 5)) NewJPEGXSDepacketizer =
    Ret (d, [[1; 2; 3; 4; 5; 6]; [9; 9]]).
Proof.
  exact (proj1 (jpegxs_frames sample_style sample_style_ok 65534 sample_frames (proj1 sample_frames_ok) (proj2 sample_frames_ok))).
Defined.

(** Packet 1 of the first frame is lost: packet 2 is dropped, and packet 3
    alone is handed out as a frame; so is the end of a frame whose first packet
    is lost. *)
Lemma jpegxs_damaged_frame :
  (exists d, xs_run (map (deliver sample_style 65534 sample_frames) [0; 2; 3; 4]%nat) NewJPEGXSDepacketizer = Ret (d, [[6]; [9; 9]])) /\
  (exists d, xs_run (map (deliver sample_style 65534 sample_frames) [1; 2; 3; 4]%nat) NewJPEGXSDepacketizer
     = Ret (d, [[3; 4; 5; 6]; [9; 9]])).
Proof. split; eexists; vm_compute; reflexivity. Qed.
