(* ===== verification/AccumMemory.v ===== *)
(** * Memory-aware AV1 and JPEG XS depacketizers (the WithMemory types of codec/av1_*.go, codec/jpegxs_*.go)

    The same code around two depacketizers, written once over [AccumBase].
    Unlike the H.264 and HEVC wrappers of [DepackMemory] it gives back what the
    whole frame was charged, less the bytes handed out; those stay charged. *)

From stdpp Require Import strings.
From S2P Require Import Prelude Returns Serial Eviction Depacketizer H264 HEVC Memory DepackMemory.
From S2P Require AV1 JpegXs.
#[local] Open Scope Z_scope.

(** The sum of the lengths does not wrap below 2^63. *)
Lemma units_size_exact us : len (concat us) < 2 ^ 63 -> units_size us = len (concat us).
Proof.
  unfold units_size. assert (forall n, 0 <= n -> n + len (concat us) < 2 ^ 63 ->
    foldl (fun n (u : list Z) => i64 (n + len u)) n us = n + len (concat us)) as Hf.
  { induction us as [|u us IH]; intros n Hn Hb; cbn [foldl concat] in *; [change (len []) with 0; lia|].
    rewrite len_app in *. pose proof (len_nonneg u). pose proof (len_nonneg (concat us)).
    rewrite i64_id by (pow_consts; lia). rewrite IH by lia. lia. }
  intros Hb. rewrite Hf by lia. lia.
Qed.

(** What the wrapper relies on: on bytes the handler returns and keeps its invariant. *)
Class AccumBase (D E : Type) := {
  ab_recv : list Z -> Z -> D -> res (D * exn E (list (list Z)));
  ab_reset : D -> D;
  ab_inv : D -> Prop;
  ab_total : forall payload seq d, ab_inv d -> is_u16 seq -> bytes payload -> len payload < 2 ^ 30 ->
    exists d' r, ab_recv payload seq d = Ret (d', r) /\ ab_inv d';
  ab_reset_inv : forall d, ab_inv d -> ab_inv (ab_reset d)
}.

(** The OBUs returned next to an error are dropped (av1_depacketizer.go:341-346). *)
Definition av1_result (r : list (list Z) * option AV1.av1_error) : exn AV1.av1_error (list (list Z)) :=
  match r with (_, Some e) => Err e | (obus, None) => Val obus end.
#[export] Instance AV1_base : AccumBase AV1.AV1Depacketizer AV1.av1_error.
Proof.
  refine {| ab_recv := fun payload seq d => '(d, r) ← AV1.Depacketize payload seq d; Ret (d, av1_result r);
            ab_reset := AV1.Reset_; ab_inv := AV1.av1_inv |}.
  - intros payload seq d Hinv Hs Hb Hl.
    destruct (AV1.av1_total payload seq d Hinv Hs Hb ltac:(lia)) as (d' & obus & err & new & -> & Hinv' & _). by eexists _, _.
  - done.
Defined.

#[export] Instance JPEGXS_base : AccumBase JpegXs.JPEGXSDepacketizer JpegXs.jpegxs_error.
Proof.
  refine {| ab_recv := JpegXs.Depacketize; ab_reset := JpegXs.Reset_; ab_inv := JpegXs.xs_inv |}.
  - intros payload seq d Hinv Hs Hb _. by apply JpegXs.jpegxs_total.
  - done.
Defined.

Section wrapper.
Context {D E : Type} `{AccumBase D E}.
Context (strategy : list StreamInfo -> Z -> list string).
Context (evictionCallback : string -> Z -> Controller -> Controller).

(** [Depacketize] of both codecs. *)
Definition DepacketizeAccum (t t' : Z) (payload : list Z) (seq : Z) (w : WithMemory D) (c : Controller)
    : res (WithMemory D * Controller * exn (wm_error E) (list (list Z))) :=
  let estimatedSize := i64 (len payload * 2) in
  if memoryLimit w <? i64 (currentUsage w + estimatedSize) then
    Ret (w, c, Err (ErrMemoryLimit (currentUsage w) estimatedSize (memoryLimit w)))
  else
    let '(c, r) := RequestMemory strategy evictionCallback (streamID w) estimatedSize t t' c in
    match r with
    | Err e => Ret (w, c, Err (ErrMemoryAllocation e))
    | Val _ =>
        let w := w <| currentUsage := i64 (currentUsage w + estimatedSize) |> in
        '(d, r) ← ab_recv payload seq (inner w);
        let w := w <| inner := d |> in
        match r with
        | Err e =>
            Ret (w <| currentUsage := i64 (currentUsage w - estimatedSize) |>,
                 ReleaseMemory (streamID w) estimatedSize c, Err (ErrInner e))
        | Val frames =>
            if 0 <? len frames then
              let actualSize := units_size frames in
              let c := if actualSize <? currentUsage w
                       then ReleaseMemory (streamID w) (i64 (currentUsage w - actualSize)) c else c in
              Ret (w <| currentUsage := 0 |>, c, Val frames)
            else Ret (w, c, Val frames)
        end
    end.

(** [Reset] *)
Definition ResetAccum (w : WithMemory D) (c : Controller) : WithMemory D * Controller :=
  let '(w, c) :=
    if 0 <? currentUsage w
    then (w <| currentUsage := 0 |>, ReleaseMemory (streamID w) (currentUsage w) c)
    else (w, c) in
  (w <| inner := ab_reset (inner w) |>, c).
End wrapper.

Definition NewAV1DepacketizerWithMemory (streamID : string) (limit : Z) : WithMemory AV1.AV1Depacketizer :=
  {| inner := AV1.NewAV1Depacketizer; streamID := streamID; memoryLimit := limit; currentUsage := 0 |}.
Definition DepacketizeAV1WithMemory strategy callback t t' payload seq (w : WithMemory AV1.AV1Depacketizer) c :=
  DepacketizeAccum strategy callback t t' payload seq w c.
Definition ResetAV1WithMemory (w : WithMemory AV1.AV1Depacketizer) c := ResetAccum w c.

Definition NewJPEGXSDepacketizerWithMemory (streamID : string) (limit : Z) : WithMemory JpegXs.JPEGXSDepacketizer :=
  {| inner := JpegXs.NewJPEGXSDepacketizer; streamID := streamID; memoryLimit := limit; currentUsage := 0 |}.
Definition DepacketizeJPEGXSWithMemory strategy callback t t' payload seq (w : WithMemory JpegXs.JPEGXSDepacketizer) c :=
  DepacketizeAccum strategy callback t t' payload seq w c.
Definition ResetJPEGXSWithMemory (w : WithMemory JpegXs.JPEGXSDepacketizer) c := ResetAccum w c.

(** ** What stays charged *)

Section books.
Context {D E : Type} `{AccumBase D E}.
Context (strategy : list StreamInfo -> Z -> list string).
Context (evictionCallback : string -> Z -> Controller -> Controller).
Context (Hcallback : callback_ok evictionCallback).

(** What the stream is charged beyond what the wrapper still knows of. *)
Definition forgotten (w : WithMemory D) (c : Controller) : Z := GetStreamUsage (streamID w) c - currentUsage w.

(** The other streams leave this one its whole limit, and room for a packet. *)
Definition roomy (w : WithMemory D) (c : Controller) : Prop :=
  usage c - GetStreamUsage (streamID w) c + perStreamLimit c + 2 ^ 31 <= maxMemory c.
Record accum_ok (w : WithMemory D) (c : Controller) : Prop := {
  ao_mem : mem_ok c;
  ao_inner : ab_inv (inner w);
  ao_current : 0 <= currentUsage w <= memoryLimit w;
  ao_limit : memoryLimit w < 2 ^ 62;
  ao_known : 0 <= forgotten w c;
  ao_room : roomy w c
}.

(** Memory given back within what the stream is charged. *)
Lemma release_within id n c :
  mem_ok c -> 0 <= n <= GetStreamUsage id c ->
  mem_ok (ReleaseMemory id n c) /\ same_limits c (ReleaseMemory id n c) /\ charged id (- n) c (ReleaseMemory id n c).
Proof.
  intros Hok Hn. destruct (ReleaseMemory_spec id n c Hok ltac:(lia)) as (? & ? & Hc). by rewrite Z.min_l in Hc by lia.
Qed.
Lemma charged_stream id n c c' : charged id n c c' -> GetStreamUsage id c' = GetStreamUsage id c + n /\ usage c' = usage c + n.
Proof. intros [Hu Hs]. split; [|done]. by rewrite Hs, decide_True. Qed.

(** The wrapper's state after a step that charges [n] and knows of [u]. *)
Lemma accum_ok_step w c w' c' n :
  accum_ok w c -> streamID w' = streamID w -> memoryLimit w' = memoryLimit w -> ab_inv (inner w') ->
  0 <= currentUsage w' <= memoryLimit w -> mem_ok c' -> same_limits c c' -> charged (streamID w) n c c' ->
  currentUsage w' - currentUsage w <= n ->
  accum_ok w' c' /\ forgotten w' c' = forgotten w c + (n - (currentUsage w' - currentUsage w)).
Proof.
  intros [Hm Hi Hc Hl Hk Hr] Hid Hlim Hi' Hc' Hm' Hsl Hch Hn. destruct (charged_stream _ _ _ _ Hch) as [Hs Hu].
  unfold forgotten, roomy in *. split; [|rewrite Hid; lia]. destruct Hsl as [Hmax Hper].
  constructor; try done; unfold forgotten, roomy; rewrite ?Hid, ?Hlim; try lia.
Qed.

(** The bytes of [r] that stay charged. *)
Definition leaves (w : WithMemory D) (payload : list Z) (r : exn (wm_error E) (list (list Z))) : Z :=
  match r with
  | Val (u :: us) => Z.min (len (concat (u :: us))) (currentUsage w + 2 * len payload)
  | _ => 0
  end.
Definition moderate (r : exn (wm_error E) (list (list Z))) : Prop := forall us, r = Val us -> len (concat us) < 2 ^ 62.

Lemma accum_step t t' payload seq w c :
  accum_ok w c -> is_u16 seq -> bytes payload -> len payload < 2 ^ 30 ->
  exists w' c' r, DepacketizeAccum strategy evictionCallback t t' payload seq w c = Ret (w', c', r) /\
    (moderate r -> accum_ok w' c' /\ same_limits c c' /\ streamID w' = streamID w /\ memoryLimit w' = memoryLimit w /\
       forgotten w' c' = forgotten w c + leaves w payload r) /\
    (perStreamLimit c < GetStreamUsage (streamID w) c + 2 * len payload -> exists e, r = Err e).
Proof.
  intros Hok Hseq Hb Hl. pose proof Hok as [Hm Hi Hc Hlim Hk Hr]. pose proof (len_nonneg payload) as Hl0.
  pose proof (mem_ok_usage c Hm) as [_ Hus]. specialize (Hus (streamID w)). unfold roomy in Hr.
  assert (same_limits c c) as Hsl0 by done. assert (charged (streamID w) 0 c c) as Hch0 by (split; [lia|intros; case_decide; lia]).
  unfold DepacketizeAccum. rewrite (i64_id (len payload * 2)) by (pow_consts; lia). rewrite (Z.mul_comm (len payload) 2).
  set (est := 2 * len payload). rewrite i64_id by (pow_consts; lia).
  destruct (Z.ltb_spec (memoryLimit w) (currentUsage w + est)) as [Hover|Hin].
  { eexists _, _, _. split; [reflexivity|]. split; [|intros _; by eexists]. intros _. unfold leaves. rewrite Z.add_0_r. done. }
  pose proof (request_spec strategy evictionCallback Hcallback (streamID w) est t t' c Hm ltac:(unfold est; lia)) as Hreq.
  pose proof (proj2 (RequestMemory_ok strategy evictionCallback Hcallback (streamID w) est t t' c Hm ltac:(unfold est; lia))) as Hsl.
  destruct (RequestMemory _ _ _ _ _ _ _) as [c1 r0]. destruct Hreq as (Hm1 & Hreq & _).
  rewrite (proj2 (Z.leb_le _ _)) in Hreq by (unfold est; lia).
  destruct (Z.leb_spec (GetStreamUsage (streamID w) c + est) (perStreamLimit c)) as [Hfit|Hno].
  2: { destruct Hreq as [-> [Hu Hs]]. eexists _, _, _. split; [reflexivity|]. split; [|intros _; by eexists]. intros _.
       destruct (accum_ok_step w c w c1 0 Hok eq_refl eq_refl Hi Hc Hm1 Hsl ltac:(split; [lia|intros id; rewrite Hs; case_decide; lia]) ltac:(lia))
         as [? Hf]. split_and!; try done. rewrite Hf. unfold leaves. lia. }
  destruct Hreq as (-> & Hch & _). destruct (charged_stream _ _ _ _ Hch) as [Hs1 Hu1].
  destruct (ab_total payload seq (inner w) Hi Hseq Hb Hl) as (d' & r & Hrecv & Hi'). cbn [inner upd]. rewrite Hrecv, bind_Ret.
  unfold forgotten in Hk. destruct r as [us|e].
  - destruct us as [|u us].
    + eexists _, _, _. split; [reflexivity|]. split; [|intros; lia]. intros _.
      set (w' := w <| currentUsage := currentUsage w + est |> <| inner := d' |>).
      destruct (accum_ok_step w c w' c1 est Hok eq_refl eq_refl Hi'
        ltac:(cbn; lia) Hm1 Hsl Hch ltac:(cbn; lia)) as [Hok' Hf].
      split; [exact Hok'|]. split; [exact Hsl|]. split; [done|]. split; [done|]. etransitivity; [exact Hf|]. cbn. lia.
    + rewrite (proj2 (Z.ltb_lt 0 (len (u :: us)))) by (rewrite len_cons; pose proof (len_nonneg us); lia).
      eexists _, _, _. split; [reflexivity|]. split; [|intros; lia]. intros Hmod. specialize (Hmod _ eq_refl).
      rewrite units_size_exact by lia. set (actual := len (concat (u :: us))) in *. assert (0 <= actual) by apply len_nonneg.
      set (w' := w <| currentUsage := 0 |> <| inner := d' |>).
      assert (exists c', mem_ok c' /\ same_limits c c' /\ charged (streamID w) (Z.min actual (currentUsage w + est) - currentUsage w) c c' /\
        c' = (if actual <? currentUsage w + est then ReleaseMemory (streamID w) (i64 (currentUsage w + est - actual)) c1 else c1))
        as (c' & Hm' & Hsl' & Hch' & Hc').
      { eexists. split; [|split; [|split; [|reflexivity]]]; destruct (Z.ltb_spec actual (currentUsage w + est)); try done;
          rewrite ?i64_id by (pow_consts; lia);
          try (destruct (release_within (streamID w) (currentUsage w + est - actual) c1 Hm1 ltac:(lia)) as (? & Hl2 & Hch2); try done).
        - by eapply same_limits_trans.
        - rewrite Z.min_l by lia. replace (actual - currentUsage w) with (est - (currentUsage w + est - actual)) by lia. by eapply charge_refund.
        - rewrite Z.min_r by lia. by replace (currentUsage w + est - currentUsage w) with est by lia. }
      destruct (accum_ok_step w c w' c' _ Hok eq_refl eq_refl Hi' ltac:(cbn; lia) Hm' Hsl' Hch' ltac:(cbn; lia)) as [Hok' Hf].
      rewrite Hc' in Hok', Hf, Hsl'.
      split; [exact Hok'|]. split; [exact Hsl'|]. split; [done|]. split; [done|]. etransitivity; [exact Hf|]. cbn [leaves w' currentUsage upd]. fold est actual. lia.
  - eexists _, _, _. split; [reflexivity|]. split; [|intros _; by eexists]. intros _.
    destruct (release_within (streamID w) est c1 Hm1 ltac:(unfold est in *; lia)) as (Hm2 & Hl2 & Hch2).
    pose proof (charge_refund _ _ _ _ _ _ Hch Hch2) as Hch3. rewrite Z.sub_diag in Hch3.
    cbn [currentUsage upd]. replace (currentUsage w + est - est) with (currentUsage w) by lia. rewrite i64_id by (pow_consts; lia).
    set (w' := w <| currentUsage := currentUsage w |> <| inner := d' |>).
    destruct (accum_ok_step w c w' _ 0 Hok eq_refl eq_refl Hi'
      ltac:(cbn; lia) Hm2 ltac:(by eapply same_limits_trans) Hch3 ltac:(cbn; lia)) as [Hok' Hf].
    split; [exact Hok'|]. split; [by eapply same_limits_trans|]. split; [done|]. split; [done|]. etransitivity; [exact Hf|]. cbn. lia.
Qed.

(** [Reset] gives back what the wrapper knows of. *)
Lemma accum_reset w c :
  accum_ok w c -> let '(w', c') := ResetAccum w c in
  accum_ok w' c' /\ same_limits c c' /\ streamID w' = streamID w /\ memoryLimit w' = memoryLimit w /\ forgotten w' c' = forgotten w c.
Proof.
  intros Hok. pose proof Hok as [Hm Hi Hc Hlim Hk Hr]. unfold forgotten in Hk. unfold ResetAccum. destruct (Z.ltb_spec 0 (currentUsage w)).
  - destruct (release_within (streamID w) (currentUsage w) c Hm ltac:(lia)) as (Hm' & Hl' & Hch).
    set (w' := w <| currentUsage := 0 |> <| inner := ab_reset (inner w) |>).
    destruct (accum_ok_step w c w' _ _ Hok eq_refl eq_refl ltac:(by apply ab_reset_inv) ltac:(cbn; lia) Hm' Hl' Hch ltac:(cbn; lia)) as [Hok' Hf].
    split; [exact Hok'|]. split; [done|]. split; [done|]. split; [done|]. etransitivity; [exact Hf|]. cbn. lia.
  - set (w' := w <| inner := ab_reset (inner w) |>).
    assert (same_limits c c /\ charged (streamID w) 0 c c) as [Hl Hch] by (split; [done|split; [lia|intros; case_decide; lia]]).
    destruct (accum_ok_step w c w' _ _ Hok eq_refl eq_refl ltac:(by apply ab_reset_inv) ltac:(cbn; lia) Hm Hl Hch ltac:(cbn; lia)) as [Hok' Hf].
    split; [exact Hok'|]. split; [done|]. split; [done|]. split; [done|]. etransitivity; [exact Hf|]. cbn. lia.
Qed.

(** A stream's packets and resets, with the controller's clock readings. *)
Inductive accum_op : Type := Packet (t t' : Z) (payload : list Z) (seq : Z) | ResetOp.
Definition accum_op_ok (op : accum_op) : Prop :=
  match op with Packet _ _ payload seq => is_u16 seq /\ bytes payload /\ len payload < 2 ^ 30 | ResetOp => True end.
Fixpoint accum_run (ops : list accum_op) (w : WithMemory D) (c : Controller)
    : res (WithMemory D * Controller * list (exn (wm_error E) (list (list Z)))) :=
  match ops with
  | [] => Ret (w, c, [])
  | Packet t t' payload seq :: ops =>
      '(w, c, r) ← DepacketizeAccum strategy evictionCallback t t' payload seq w c;
      '(w, c, rs) ← accum_run ops w c; Ret (w, c, r :: rs)
  | ResetOp :: ops => let '(w, c) := ResetAccum w c in accum_run ops w c
  end.

(** No result of the run is as large as 2^62 bytes. *)
Fixpoint moderate_run (ops : list accum_op) (w : WithMemory D) (c : Controller) : Prop :=
  match ops with
  | [] => True
  | Packet t t' payload seq :: ops =>
      match DepacketizeAccum strategy evictionCallback t t' payload seq w c with
      | Ret (w, c, r) => moderate r /\ moderate_run ops w c
      | _ => True
      end
  | ResetOp :: ops => let '(w, c) := ResetAccum w c in moderate_run ops w c
  end.

Lemma accum_run_ok ops w c :
  accum_ok w c -> Forall accum_op_ok ops -> moderate_run ops w c ->
  exists w' c' rs, accum_run ops w c = Ret (w', c', rs) /\
    accum_ok w' c' /\ same_limits c c' /\ streamID w' = streamID w /\ forgotten w c <= forgotten w' c'.
Proof.
  intros Hok Hops. revert w c Hok. induction Hops as [|op ops Hop Hops IH]; intros w c Hok Hmod; cbn [accum_run].
  { by exists w, c, []. }
  destruct op as [t t' payload seq|]; cbn [moderate_run] in Hmod.
  - destruct Hop as (Hs & Hb & Hl). destruct (accum_step t t' payload seq w c Hok Hs Hb Hl) as (w1 & c1 & r & Hd & Hstep & _).
    rewrite Hd in Hmod |- *. destruct Hmod as [Hr Hmod]. rewrite bind_Ret. destruct (Hstep Hr) as (Hok1 & Hl1 & Hid1 & _ & Hf1).
    destruct (IH w1 c1 Hok1 Hmod) as (w' & c' & rs & -> & Hok' & Hl' & Hid' & Hf'). rewrite bind_Ret. eexists _, _, _. split; [reflexivity|].
    split; [done|]. split; [by eapply same_limits_trans|]. split; [congruence|].
    assert (0 <= leaves w payload r); [|lia]. pose proof (len_nonneg payload). pose proof (ao_current _ _ Hok).
    unfold leaves. destruct r as [[|u us]|]; try lia. pose proof (len_nonneg (concat (u :: us))). lia.
  - pose proof (accum_reset w c Hok) as Hr. destruct (ResetAccum w c) as [w1 c1]. destruct Hr as (Hok1 & Hl1 & Hid1 & _ & Hf1).
    destruct (IH w1 c1 Hok1 Hmod) as (w' & c' & rs & -> & Hok' & Hl' & Hid' & Hf'). eexists _, _, _. split; [reflexivity|].
    split; [done|]. split; [by eapply same_limits_trans|]. split; [congruence|lia].
Qed.

(** C28: what a memory-aware AV1 or JPEG XS depacketizer is charged.  Let the other
    streams leave this one its whole limit, and room for a packet, so that nothing
    is evicted ([roomy] in [accum_ok]), and let packets stay under 2^30 bytes and
    results under 2^62.  Through any packets and resets the call returns, the
    wrapper's own count stays within its limit and within what the controller
    charges the stream, and the bytes charged beyond that count never become fewer,
    not even by [Reset]: each result leaves its size charged for good.  Once they
    exceed the stream's limit less twice a packet's size, every such packet is
    refused. *)
Theorem accum_charges ops w c :
  accum_ok w c -> Forall accum_op_ok ops -> moderate_run ops w c ->
  exists w' c' rs, accum_run ops w c = Ret (w', c', rs) /\ accum_ok w' c' /\ forgotten w c <= forgotten w' c' /\
    forall t t' payload seq, is_u16 seq -> bytes payload -> len payload < 2 ^ 30 ->
      perStreamLimit c < forgotten w c + 2 * len payload ->
      exists w'' c'' e, DepacketizeAccum strategy evictionCallback t t' payload seq w' c' = Ret (w'', c'', Err e).
Proof.
  intros Hok Hops Hmod. destruct (accum_run_ok ops w c Hok Hops Hmod) as (w' & c' & rs & Hrun & Hok' & [_ Hl] & Hid & Hf).
  exists w', c', rs. split_and!; try done. intros t t' payload seq Hs Hb Hlen Hover.
  destruct (accum_step t t' payload seq w' c' Hok' Hs Hb Hlen) as (w2 & c2 & r & -> & _ & Hno). pose proof (ao_current _ _ Hok').
  destruct Hno as (e & ->); [|by eexists _, _, _]. unfold forgotten in *. lia.
Qed.
End books.

(** A stream of which 12 bytes stay charged, within a limit of 30: a frame of two
    bytes still passes, one of six is refused even after a [Reset]. *)
Definition xs_frame (data : list Z) : list Z := [0xC0; 0; 0; 1] ++ data.
Definition busy_controller : Controller :=
  (RequestMemory lru_strategy reset_callback "s" 12 1 1 (NewController (2 ^ 40) 30 0)).1.

Lemma accum_charges_witness :
  exists w c rs, accum_run lru_strategy reset_callback [Packet 1 1 (xs_frame [1; 2]) 7; ResetOp]
      (NewJPEGXSDepacketizerWithMemory "s" 1000) busy_controller = Ret (w, c, rs) /\
    rs = [Val [[1; 2]]] /\
    exists w' c' e, DepacketizeAccum lru_strategy reset_callback 1 1 (xs_frame [1; 2; 3; 4; 5; 6]) 8 w c = Ret (w', c', Err e).
Proof.
  assert (accum_ok (NewJPEGXSDepacketizerWithMemory "s" 1000) busy_controller) as Hok.
  { constructor; try by vm_compute. apply RequestMemory_ok; [apply reset_callback_ok|apply NewController_ok; lia|lia]. }
  destruct (accum_charges lru_strategy reset_callback reset_callback_ok [Packet 1 1 (xs_frame [1; 2]) 7; ResetOp] _ _ Hok)
    as (w & c & rs & Hrun & _ & _ & Hrefuse).
  - apply Forall_cons_2; [|apply Forall_cons_2; [done|by apply Forall_nil_2]]. split; [by vm_compute|].
    split; [unfold is_byte; decide_goal|by vm_compute].
  - cbn [moderate_run]. destruct (DepacketizeAccum _ _ _ _ _ _ _ _) as [[[w c] r]| |] eqn:Hd; [|done|done].
    assert (r = Val [[1; 2]]) as -> by (vm_compute in Hd; by injection Hd as <- <- <-).
    split; [by intros us [= <-]|by destruct (ResetAccum w c)].
  - exists w, c, rs. split; [exact Hrun|]. split; [vm_compute in Hrun; by injection Hrun as <- <- <-|].
    apply Hrefuse; [by vm_compute|unfold is_byte; decide_goal|by vm_compute|by vm_compute].
Defined.
