(* ===== verification/GoStrings.v ===== *)
(** * Strings of the Go standard library

    What the program uses of [strings] and [strconv], on ASCII strings: splitting
    at a byte, trimming, case, prefixes and decimal numbers, with the lemmas the
    parsers of text share. *)

From Stdlib Require Import Ascii.
From stdpp Require Import strings.
From S2P Require Import Prelude.
#[local] Open Scope Z_scope.

Definition byte_of (c : ascii) : Z := Z.of_nat (Ascii.nat_of_ascii c).
Definition char_of (n : Z) : ascii := Ascii.ascii_of_nat (Z.to_nat n).

(** [strings.HasPrefix]; [s[len(p):]] *)
Definition HasPrefix (s p : string) : bool := String.prefix p s.
Definition drop_string (n : nat) (s : string) : string := String.substring n (String.length s - n) s.

(** [strings.Split] with a separator of one byte *)
Fixpoint Split (sep : ascii) (s : string) : list string :=
  match s with
  | EmptyString => [EmptyString]
  | String c s =>
      if Ascii.eqb c sep then EmptyString :: Split sep s
      else match Split sep s with [] => [String c EmptyString] | x :: r => String c x :: r end
  end.
(** [strings.SplitN(s, sep, 2)] *)
Fixpoint SplitN2 (sep : ascii) (s : string) : list string :=
  match s with
  | EmptyString => [EmptyString]
  | String c s =>
      if Ascii.eqb c sep then [EmptyString; s]
      else match SplitN2 sep s with [] => [String c EmptyString] | x :: r => String c x :: r end
  end.

(** [strings.Fields] *)
Definition is_space (c : ascii) : bool := (9 <=? byte_of c) && (byte_of c <=? 13) || (byte_of c =? 32).
Fixpoint Fields (s : string) : list string :=
  match s with
  | EmptyString => []
  | String c t =>
      if is_space c then Fields t
      else match t with
           | EmptyString => [String c EmptyString]
           | String d _ => if is_space d then String c EmptyString :: Fields t
                           else match Fields t with [] => [String c EmptyString] | x :: r => String c x :: r end
           end
  end.

(** [strings.TrimSpace] *)
Fixpoint trim_left (s : string) : string :=
  match s with EmptyString => EmptyString | String c t => if is_space c then trim_left t else s end.
Fixpoint trim_right (s : string) : string :=
  match s with
  | EmptyString => EmptyString
  | String c s =>
      match trim_right s with
      | EmptyString => if is_space c then EmptyString else String c EmptyString
      | t => String c t
      end
  end.
Definition TrimSpace (s : string) : string := trim_right (trim_left s).

(** [strings.ToUpper], [strings.ToLower] *)
Fixpoint map_string (f : ascii -> ascii) (s : string) : string :=
  match s with EmptyString => EmptyString | String c s => String (f c) (map_string f s) end.
Definition upper (c : ascii) : ascii := if (97 <=? byte_of c) && (byte_of c <=? 122) then char_of (byte_of c - 32) else c.
Definition lower (c : ascii) : ascii := if (65 <=? byte_of c) && (byte_of c <=? 90) then char_of (byte_of c + 32) else c.
Definition ToUpper : string -> string := map_string upper.
Definition ToLower : string -> string := map_string lower.

(** [strconv.ParseUint(s, base, 64)] behind its sign: [None] is a syntax error, a
    range error gives the largest number. *)
Definition digit_value (c : ascii) : Z :=
  let b := byte_of c in
  if (48 <=? b) && (b <=? 57) then b - 48
  else if (97 <=? b) && (b <=? 122) then b - 97 + 10
  else if (65 <=? b) && (b <=? 90) then b - 65 + 10 else 255.
Fixpoint parse_digits (base maxVal n : Z) (s : string) : option Z :=
  match s with
  | EmptyString => Some n
  | String c s =>
      let d := digit_value c in
      if base <=? d then None
      else if maxVal <? n * base + d then Some maxVal else parse_digits base maxVal (n * base + d) s
  end.

(** [strconv.Atoi]: the value, returned next to an error too, and whether there is none. *)
Definition Atoi_checked (s : string) : Z * bool :=
  let '(neg, digits) :=
    match s with
    | String c t => if byte_of c =? 45 then (true, t) else if byte_of c =? 43 then (false, t) else (false, s)
    | EmptyString => (false, s)
    end in
  match digits with
  | EmptyString => (0, false)
  | _ =>
      match parse_digits 10 (2 ^ 64 - 1) 0 digits with
      | None => (0, false)
      | Some un =>
          if neg then (if 2 ^ 63 <? un then (- 2 ^ 63, false) else (- un, true))
          else if 2 ^ 63 <=? un then (2 ^ 63 - 1, false) else (un, true)
      end
  end.
Definition Atoi (s : string) : Z := (Atoi_checked s).1.
(** The value [strconv.ParseUint(s, 16, 8)] returns. *)
Definition ParseHexByte (s : string) : Z :=
  match s with EmptyString => 0 | _ => default 0 (parse_digits 16 255 0 s) end.

(** ** Splitting and joining *)

Fixpoint free_of (c : ascii) (s : string) : Prop :=
  match s with EmptyString => True | String d s => d <> c /\ free_of c s end.
#[export] Instance free_of_dec c s : Decision (free_of c s).
Proof. induction s; cbn; solve_decision. Defined.

Lemma append_nil_l (b : string) : EmptyString +:+ b = b.
Proof. reflexivity. Qed.
Lemma append_cons c (a b : string) : String c a +:+ b = String c (a +:+ b).
Proof. reflexivity. Qed.
#[local] Arguments String.append : simpl nomatch.

Lemma Split_cut sep a b : free_of sep a -> Split sep (a +:+ String sep b) = a :: Split sep b.
Proof.
  induction a as [|c a IH]; intros Ha; rewrite ?append_nil_l, ?append_cons; cbn [Split]; [by rewrite Ascii.eqb_refl|]. destruct Ha as [Hc Ha].
  rewrite (proj2 (Ascii.eqb_neq c sep)) by done. by rewrite IH.
Qed.
Lemma Split_last sep a : free_of sep a -> Split sep a = [a].
Proof.
  induction a as [|c a IH]; intros Ha; cbn [Split]; [done|]. destruct Ha as [Hc Ha].
  rewrite (proj2 (Ascii.eqb_neq c sep)) by done. by rewrite IH.
Qed.
Lemma SplitN2_cut sep a b : free_of sep a -> SplitN2 sep (a +:+ String sep b) = [a; b].
Proof.
  induction a as [|c a IH]; intros Ha; rewrite ?append_nil_l, ?append_cons; cbn [SplitN2]; [by rewrite Ascii.eqb_refl|]. destruct Ha as [Hc Ha].
  rewrite (proj2 (Ascii.eqb_neq c sep)) by done. by rewrite IH.
Qed.

Fixpoint Join (sep : ascii) (l : list string) : string :=
  match l with [] => EmptyString | [x] => x | x :: l => x +:+ String sep (Join sep l) end.
Lemma Split_Join sep l : l <> [] -> Forall (free_of sep) l -> Split sep (Join sep l) = l.
Proof.
  induction l as [|x l IH]; intros Hne Hl; [done|]. apply Forall_cons in Hl as [Hx Hl]. destruct l as [|y l]; [by apply Split_last|].
  change (Join sep (x :: y :: l)) with (x +:+ String sep (Join sep (y :: l))). rewrite Split_cut by done. by rewrite IH.
Qed.

Lemma append_assoc (a b c : string) : (a +:+ b) +:+ c = a +:+ (b +:+ c).
Proof. induction a as [|x a IH]; cbn; [done|by rewrite IH]. Qed.
Lemma append_nil (a : string) : a +:+ EmptyString = a.
Proof. induction a as [|x a IH]; cbn; [done|by rewrite IH]. Qed.
Lemma free_of_app c a b : free_of c (a +:+ b) <-> free_of c a /\ free_of c b.
Proof. induction a as [|x a IH]; cbn; [tauto|]. rewrite IH. tauto. Qed.
Lemma HasPrefix_app p s : HasPrefix (p +:+ s) p = true.
Proof. unfold HasPrefix. induction p as [|c p IH]; cbn; [by destruct s|]. by destruct (Ascii.ascii_dec c c). Qed.
Lemma substring_all s : String.substring 0 (String.length s) s = s.
Proof. induction s as [|c s IH]; cbn; [done|by rewrite IH]. Qed.
Lemma drop_string_app p s : drop_string (String.length p) (p +:+ s) = s.
Proof.
  unfold drop_string. assert (forall k, String.substring (String.length p) k (p +:+ s) = String.substring 0 k s) as ->
    by (intros k; induction p as [|c p IH]; cbn; [done|apply IH]).
  replace (String.length (p +:+ s) - String.length p)%nat with (String.length s); [apply substring_all|].
  induction p as [|c p IH]; cbn; [lia|exact IH].
Qed.

(** Strings of one kind of character. *)
Fixpoint every (P : ascii -> bool) (s : string) : bool :=
  match s with EmptyString => true | String c s => P c && every P s end.
Lemma every_app P a b : every P (a +:+ b) = every P a && every P b.
Proof. induction a as [|c a IH]; cbn; [done|]. by rewrite IH, andb_assoc. Qed.
Lemma every_free_of P c s : P c = false -> every P s = true -> free_of c s.
Proof.
  intros Hc. induction s as [|d s IH]; cbn; [done|]. intros [Hd Hs]%andb_prop. split; [|by apply IH]. intros ->. congruence.
Qed.
Lemma every_weaken (P Q : ascii -> bool) s : (forall c, P c = true -> Q c = true) -> every P s = true -> every Q s = true.
Proof. intros H. induction s as [|d s IH]; cbn; [done|]. intros [Hd Hs]%andb_prop. by rewrite (H d Hd), IH. Qed.

(** ** Trimming *)

(** A text without blanks at its ends. *)
Definition trimmed (s : string) : Prop := TrimSpace s = s.
Lemma trim_right_blank s b : trim_right b = EmptyString -> trim_right (s +:+ b) = trim_right s.
Proof.
  intros Hb. induction s as [|c s IH]; cbn [String.append trim_right]; [done|]. by rewrite IH.
Qed.
Lemma TrimSpace_blank s b : trimmed s -> s <> EmptyString -> trim_right b = EmptyString -> TrimSpace (s +:+ b) = s.
Proof.
  intros Hs Hne Hb. unfold trimmed, TrimSpace in *. destruct s as [|c s]; [done|]. cbn [String.append trim_left] in *.
  destruct (is_space c) eqn:Hc.
  - (* a blank first character is trimmed *)
    exfalso. assert (forall t, (String.length (trim_left t) <= String.length t)%nat) as Hl.
    { induction t as [|d t IH]; cbn; [done|]. destruct (is_space d); cbn; lia. }
    assert (forall t, (String.length (trim_right t) <= String.length t)%nat) as Hr.
    { induction t as [|d t IH]; cbn; [done|]. destruct (trim_right t); [destruct (is_space d); cbn; lia|cbn in *; lia]. }
    specialize (Hl s). specialize (Hr (trim_left s)). rewrite Hs in Hr. cbn in Hr. lia.
  - change (String c (s +:+ b)) with (String c s +:+ b). by rewrite trim_right_blank.
Qed.

(** ** Decimal numbers *)

Definition digit_char (d : Z) : ascii := char_of (48 + d).
Fixpoint decimal_go (fuel : nat) (n : Z) (rest : string) : string :=
  match fuel with
  | O => rest
  | S fuel =>
      let rest := String (digit_char (n mod 10)) rest in
      if n <? 10 then rest else decimal_go fuel (n / 10) rest
  end.
(** [strconv.Itoa] below 10^20 *)
Definition decimal (n : Z) : string := decimal_go 20 n EmptyString.

Lemma digit_char_spec d : 0 <= d < 10 -> digit_value (digit_char d) = d /\ is_space (digit_char d) = false /\
  48 <= byte_of (digit_char d) <= 57.
Proof.
  intros Hd. assert (d ∈ [0; 1; 2; 3; 4; 5; 6; 7; 8; 9]) as Hin by (rewrite !elem_of_cons; lia).
  revert d Hd Hin. assert (Forall (fun d => digit_value (digit_char d) = d /\ is_space (digit_char d) = false /\
    48 <= byte_of (digit_char d) <= 57) [0; 1; 2; 3; 4; 5; 6; 7; 8; 9]) as H by (repeat apply Forall_cons_2; [by vm_compute..|by apply Forall_nil_2]).
  rewrite Forall_forall in H. auto.
Qed.

Lemma parse_decimal_go fuel n rest :
  0 <= n < 10 ^ Z.of_nat fuel -> n < 2 ^ 63 ->
  parse_digits 10 (2 ^ 64 - 1) 0 (decimal_go fuel n rest) = parse_digits 10 (2 ^ 64 - 1) n rest.
Proof.
  revert n rest. induction fuel as [|fuel IH]; intros n rest Hn Hmax; [simpl in *; replace n with 0 by lia; done|].
  rewrite Nat2Z.inj_succ, Z.pow_succ_r in Hn by lia. cbn [decimal_go]. pose proof (Z.mod_pos_bound n 10 ltac:(lia)) as Hm.
  destruct (digit_char_spec (n mod 10) Hm) as (Hd & _). pose proof (Z.div_mod n 10 ltac:(lia)) as E.
  assert (forall m, 0 <= m -> m * 10 + n mod 10 = n -> parse_digits 10 (2 ^ 64 - 1) m (String (digit_char (n mod 10)) rest) =
    parse_digits 10 (2 ^ 64 - 1) n rest) as Hstep.
  { intros m Hm0 Em. cbn [parse_digits]. rewrite Hd, (proj2 (Z.leb_gt 10 _)) by lia. rewrite Em. by rewrite (proj2 (Z.ltb_ge _ n)) by lia. }
  case_bool; [apply Hstep; [done|]; rewrite Z.mod_small; lia|]. rewrite IH; [apply Hstep; lia| |].
  - split; [apply Z.div_pos; lia|apply Z.div_lt_upper_bound; lia].
  - pose proof (Z.div_le_upper_bound n 10 n ltac:(lia) ltac:(lia)). lia.
Qed.


Definition is_digit (c : ascii) : bool := (48 <=? byte_of c) && (byte_of c <=? 57).
Lemma decimal_go_digits fuel n rest : 0 <= n -> every is_digit rest = true -> every is_digit (decimal_go fuel n rest) = true.
Proof.
  revert n rest. induction fuel as [|fuel IH]; intros n rest Hn Hr; cbn [decimal_go]; [done|].
  assert (every is_digit (String (digit_char (n mod 10)) rest) = true) as Hr'.
  { cbn. rewrite Hr, andb_true_r. destruct (digit_char_spec (n mod 10) (Z.mod_pos_bound n 10 ltac:(lia))) as (_ & _ & ?). unfold is_digit. lia. }
  case_bool; [done|]. apply IH; [apply Z.div_pos; lia|done].
Qed.
Lemma decimal_go_nonempty fuel n rest : rest <> EmptyString -> decimal_go fuel n rest <> EmptyString.
Proof. revert n rest. induction fuel as [|fuel IH]; intros n rest Hr; cbn [decimal_go]; [done|]. case_bool; [done|]. by apply IH. Qed.
Lemma decimal_spec n :
  0 <= n < 2 ^ 63 -> every is_digit (decimal n) = true /\ decimal n <> EmptyString /\ Atoi_checked (decimal n) = (n, true).
Proof.
  intros Hn. assert (every is_digit (decimal n) = true) as Hd by (apply decimal_go_digits; done || lia).
  assert (decimal n <> EmptyString) as Hne.
  { unfold decimal. cbn [decimal_go]. case_bool; [done|]. by apply (decimal_go_nonempty 19). }
  split; [done|]. split; [done|]. pose proof (parse_decimal_go 20 n EmptyString ltac:(lia) ltac:(lia)) as Hp.
  unfold Atoi_checked. fold (decimal n) in Hp. destruct (decimal n) as [|c s] eqn:E; [done|]. cbn [every] in Hd.
  apply andb_prop in Hd as [Hc _]. unfold is_digit in Hc. rewrite (proj2 (Z.eqb_neq _ 45)), (proj2 (Z.eqb_neq _ 43)) by lia.
  rewrite Hp. cbn [parse_digits]. by rewrite (proj2 (Z.leb_gt _ _)) by lia.
Qed.

Lemma Atoi_decimal n : 0 <= n < 2 ^ 63 -> Atoi (decimal n) = n.
Proof. intros Hn. unfold Atoi. by destruct (decimal_spec n Hn) as (_ & _ & ->). Qed.

(** ** Texts that trimming leaves alone *)

Definition nonspace (c : ascii) : bool := negb (is_space c).
Lemma trim_right_nonspace b : every nonspace b = true -> trim_right b = b.
Proof.
  induction b as [|c b IH]; [done|]. cbn. intros [Hc Hb]%andb_prop. rewrite (IH Hb). destruct b; [|done].
  unfold nonspace in Hc. by destruct (is_space c).
Qed.
Lemma trim_right_app a b : b <> EmptyString -> every nonspace b = true -> trim_right (a +:+ b) = a +:+ b.
Proof.
  intros Hne Hb. induction a as [|c a IH]; [by apply trim_right_nonspace|]. rewrite append_cons. cbn [trim_right]. rewrite IH.
  destruct (a +:+ b) eqn:E; [|done]. by destruct a, b.
Qed.
(** [c] begins and [b] ends the text. *)
Lemma trimmed_app c a b : is_space c = false -> b <> EmptyString -> every nonspace b = true -> trimmed (String c a +:+ b).
Proof. intros Hc Hne Hb. unfold trimmed, TrimSpace. rewrite append_cons. cbn [trim_left]. rewrite Hc, <- append_cons. by apply trim_right_app. Qed.
Lemma trimmed_nonspace s : every nonspace s = true -> trimmed s.
Proof.
  intros Hs. unfold trimmed, TrimSpace. destruct s as [|c s]; [done|]. cbn [trim_left]. cbn in Hs. apply andb_prop in Hs as [Hc Hs].
  unfold nonspace in Hc. destruct (is_space c) eqn:E; [done|]. apply trim_right_nonspace. cbn. unfold nonspace at 1. by rewrite E.
Qed.

(** Words between blanks. *)
Lemma Fields_last w : w <> EmptyString -> every nonspace w = true -> Fields w = [w].
Proof.
  induction w as [|c w IH]; [done|]. intros _ Hw. cbn [every] in Hw. apply andb_prop in Hw as [Hc Hw]. unfold nonspace in Hc.
  cbn [Fields]. destruct (is_space c); [done|]. destruct w as [|d w]; [done|]. pose proof Hw as Hd. cbn [every] in Hd. apply andb_prop in Hd as [Hd _].
  unfold nonspace in Hd. destruct (is_space d); [done|]. by rewrite IH.
Qed.
Lemma Fields_word w rest : w <> EmptyString -> every nonspace w = true -> Fields (w +:+ String " " rest) = w :: Fields rest.
Proof.
  induction w as [|c w IH]; [done|]. intros _ Hw. cbn [every] in Hw. apply andb_prop in Hw as [Hc Hw]. unfold nonspace in Hc.
  rewrite append_cons. cbn [Fields]. destruct (is_space c); [done|]. destruct w as [|d w]; [done|]. rewrite append_cons in *.
  pose proof Hw as Hd. cbn [every] in Hd. apply andb_prop in Hd as [Hd _]. unfold nonspace in Hd. destruct (is_space d); [done|]. by rewrite IH.
Qed.
