(* ===== verification/CodecDetect.v ===== *)
(** * Codec names and detection (codec/types.go, codec/detector.go)

    Codec types are the Go strings.  The detector reads a session description,
    the metadata of an SRT connection or the first bytes of an RTP payload.
    Floating-point parsing and printing are parameters: the floats of an [Info]
    are only stored. *)

From Stdlib Require Import Ascii.
From stdpp Require Import strings pretty.
From S2P Require Import Prelude GoStrings.
#[local] Open Scope Z_scope.

(** ** Codec types *)

Definition TypeHEVC : string := "HEVC".
Definition TypeH264 : string := "H264".
Definition TypeAV1 : string := "AV1".
Definition TypeJPEGXS : string := "JPEGXS".
Definition TypeUnknown : string := "UNKNOWN".

Definition one_of (s : string) (l : list string) : bool := bool_decide (s ∈ l).

Definition IsValid (t : string) : bool := one_of t [TypeHEVC; TypeH264; TypeAV1; TypeJPEGXS].
Definition ParseType (s : string) : string :=
  let s := ToUpper (TrimSpace s) in
  if one_of s ["HEVC"; "H265"; "H.265"] then TypeHEVC
  else if one_of s ["H264"; "H.264"; "AVC"] then TypeH264
  else if one_of s ["AV1"] then TypeAV1
  else if one_of s ["JPEGXS"; "JXS"; "JPEG-XS"] then TypeJPEGXS
  else TypeUnknown.

Inductive codec_error : Type :=
| ErrInvalidType (t : string)
| ErrInvalidProfile (t profile : string)
| ErrNoCodecInSDP
| ErrPayloadTooShort
| ErrUndetected
| ErrUnknownCodec (name : string)
| ErrNoCodecInMetadata.

Record Info (F : Type) := mkInfo {
  i_Type : string;
  Profile : string;
  Level : string;
  Width : Z;
  Height : Z;
  FrameRate : F;
  BitDepth : Z;
  ChromaFmt : string;
  Parameters : gmap string string
}.
Arguments mkInfo {F}.
Arguments i_Type {F}.
Arguments Profile {F}.
Arguments Level {F}.
Arguments Width {F}.
Arguments Height {F}.
Arguments FrameRate {F}.
Arguments BitDepth {F}.
Arguments ChromaFmt {F}.
Arguments Parameters {F}.
#[export] Instance eta_Info F : Eta (Info F) := fun i =>
  mkInfo (i_Type i) (Profile i) (Level i) (Width i) (Height i) (FrameRate i) (BitDepth i) (ChromaFmt i) (Parameters i).

Definition valid_profiles (t : string) : list string :=
  if one_of t [TypeH264] then ["baseline"; "main"; "high"; "high10"; "high422"; "high444"]
  else if one_of t [TypeHEVC] then ["main"; "main10"; "main444"; "mainsp"]
  else if one_of t [TypeAV1] then ["0"; "1"; "2"; "main"; "high"; "professional"]
  else ["light"; "main"; "high"; "high444.12"; "light-subline"; "main-subline"].
(** [validateH264] and its siblings, which differ in the profiles they know. *)
Definition validateProfile (t : string) {F} (i : Info F) : option codec_error :=
  if negb (one_of (Profile i) [""]) && negb (one_of (ToLower (Profile i)) (valid_profiles t))
  then Some (ErrInvalidProfile t (Profile i)) else None.
Definition Validate {F} (i : Info F) : option codec_error :=
  if negb (IsValid (i_Type i)) then Some (ErrInvalidType (i_Type i)) else validateProfile (i_Type i) i.

(** ** The detector *)

(** [payloadTypeMap] *)
Definition Detector : Type := gmap Z string.
Definition NewDetector : Detector := ∅.
Definition Reset_ (_ : Detector) : Detector := ∅.

Definition av1LevelFromIndex (idx : Z) : string :=
  let levels := ["2.0"; "2.1"; "2.2"; "2.3"; "3.0"; "3.1"; "3.2"; "3.3"; "4.0"; "4.1"; "4.2"; "4.3";
                 "5.0"; "5.1"; "5.2"; "5.3"; "6.0"; "6.1"; "6.2"; "6.3"; "7.0"; "7.1"; "7.2"; "7.3"]%string in
  if (0 <=? idx) && (idx <? len levels) then default EmptyString (levels !! Z.to_nat idx)
  else ("unknown-" +:+ pretty idx)%string.

Section detector.
(** Floats, [strconv.ParseFloat], and [fmt.Sprintf("%.1f", n / d)]. *)
Context {F : Type} (zero : F) (ParseFloat : string -> F) (tenths : Z -> Z -> string).

Definition emptyInfo : Info F := mkInfo "" "" "" 0 0 zero 0 "" ∅.

Definition prefix_of (n : nat) (s : string) : string := String.substring 0 n s.
Definition profile_of_byte (profileByte : Z) : option string :=
  if profileByte =? 0x42 then Some "baseline" else if profileByte =? 0x4D then Some "main"
  else if profileByte =? 0x58 then Some "extended" else if profileByte =? 0x64 then Some "high"
  else if profileByte =? 0x6E then Some "high10" else if profileByte =? 0x7A then Some "high422"
  else if profileByte =? 0xF4 then Some "high444" else None.
Definition parseH264Params (key value : string) (info : Info F) : Info F :=
  if one_of key ["profile-level-id"] then
    let info :=
      if 2 <=? Z.of_nat (String.length value) then
        match profile_of_byte (ParseHexByte (prefix_of 2 value)) with
        | Some p => info <| Profile := p |>
        | None => info
        end
      else info in
    if 6 <=? Z.of_nat (String.length value)
    then info <| Level := tenths (ParseHexByte (String.substring 4 2 value)) 10 |> else info
  else info.

Definition parseHEVCParams (key value : string) (info : Info F) : Info F :=
  if one_of key ["profile-id"] then
    if one_of value ["1"] then info <| Profile := "main" |> else if one_of value ["2"] then info <| Profile := "main10" |>
    else if one_of value ["3"] then info <| Profile := "mainsp" |> else if one_of value ["4"] then info <| Profile := "rext" |>
    else info
  else if one_of key ["level-id"] then info <| Level := tenths (Atoi value) 30 |>
  else info.

Definition parseAV1Params (key value : string) (info : Info F) : Info F :=
  if one_of key ["profile"] then info <| Profile := value |>
  else if one_of key ["level-idx"] then info <| Level := av1LevelFromIndex (Atoi value) |>
  else if one_of key ["tier"] then info <| Parameters := <["tier" := value]> (Parameters info) |>
  else info.

Definition parseJPEGXSParams (key value : string) (info : Info F) : Info F :=
  if one_of key ["profile"] then info <| Profile := value |>
  else if one_of key ["level"] then info <| Level := value |>
  else if one_of key ["sublevel"] then info <| Parameters := <["sublevel" := value]> (Parameters info) |>
  else if one_of key ["depth"] then info <| BitDepth := Atoi value |>
  else if one_of key ["sampling"] then info <| ChromaFmt := value |>
  else info.

Definition parse_param (codecType key value : string) (info : Info F) : Info F :=
  let info :=
    if one_of codecType [TypeH264] then parseH264Params key value info
    else if one_of codecType [TypeHEVC] then parseHEVCParams key value info
    else if one_of codecType [TypeAV1] then parseAV1Params key value info
    else if one_of codecType [TypeJPEGXS] then parseJPEGXSParams key value info
    else info in
  info <| Parameters := <[key := value]> (Parameters info) |>.
Definition parse_pair (codecType : string) (info : Info F) (pair : string) : Info F :=
  let pair := TrimSpace pair in
  if one_of pair [""] then info
  else match SplitN2 "=" pair with
       | [k; v] => parse_param codecType (TrimSpace k) (TrimSpace v) info
       | _ => info
       end.
Definition parseFmtpParams (codecType params : string) (info : Info F) : Info F :=
  foldl (parse_pair codecType) info (Split ";" params).

(** What the loop over the lines keeps. *)
Record sdp_state := mkSdp {
  sdp_codec : string;
  sdp_info : Info F;
  sdp_pt : Z;
  sdp_video : bool;
  sdp_map : Detector
}.
#[export] Instance eta_sdp : Eta sdp_state := fun s => mkSdp (sdp_codec s) (sdp_info s) (sdp_pt s) (sdp_video s) (sdp_map s).

Definition rtpmap_codec (codecName : string) : option string :=
  if one_of codecName ["H264"; "H.264"] then Some TypeH264
  else if one_of codecName ["H265"; "H.265"; "HEVC"] then Some TypeHEVC
  else if one_of codecName ["AV1"] then Some TypeAV1
  else if one_of codecName ["JXSV"; "JPEG-XS"; "JPEGXS"] then Some TypeJPEGXS
  else None.

Definition parse_rtpmap (line : string) (s : sdp_state) : sdp_state :=
  match Split " " (drop_string 9 line) with
  | p0 :: p1 :: _ =>
      let s := s <| sdp_pt := u8 (Atoi p0) |> in
      match Split "/" p1 with
      | [] => s
      | name :: clock =>
          let s :=
            match rtpmap_codec (ToUpper name) with
            | Some t => s <| sdp_codec := t |> <| sdp_map := <[sdp_pt s := t]> (sdp_map s) |>
            | None => s
            end in
          match clock with
          | rate :: _ => s <| sdp_info := (sdp_info s) <| Parameters := <["clock_rate" := rate]> (Parameters (sdp_info s)) |> |>
          | [] => s
          end
      end
  | _ => s
  end.
Definition parse_fmtp (line : string) (s : sdp_state) : sdp_state :=
  match SplitN2 " " (drop_string 7 line) with
  | [pt; params] =>
      if u8 (Atoi pt) =? sdp_pt s then s <| sdp_info := parseFmtpParams (sdp_codec s) params (sdp_info s) |> else s
  | _ => s
  end.
Definition parse_framesize (line : string) (s : sdp_state) : sdp_state :=
  match Split " " (drop_string 12 line) with
  | [_; dims] =>
      match Split "-" dims with
      | [w; h] => s <| sdp_info := (sdp_info s) <| Width := Atoi w |> <| Height := Atoi h |> |>
      | _ => s
      end
  | _ => s
  end.
Definition parse_framerate (line : string) (s : sdp_state) : sdp_state :=
  match Split " " (drop_string 12 line) with
  | [_; fps] => s <| sdp_info := (sdp_info s) <| FrameRate := ParseFloat fps |> |>
  | _ => s
  end.

Definition sdp_line (s : sdp_state) (line : string) : sdp_state :=
  let line := TrimSpace line in
  if HasPrefix line "m=video" then s <| sdp_video := true |>
  else if HasPrefix line "m=" && negb (HasPrefix line "m=video") then s <| sdp_video := false |>
  else if negb (sdp_video s) then s
  else
    let s := if HasPrefix line "a=rtpmap:" then parse_rtpmap line s else s in
    let s := if HasPrefix line "a=fmtp:" && negb (one_of (sdp_codec s) [TypeUnknown]) then parse_fmtp line s else s in
    let s := if HasPrefix line "a=framesize:" then parse_framesize line s else s in
    if HasPrefix line "a=framerate:" then parse_framerate line s else s.

(** [codecType] begins as Go's zero string, which is not [TypeUnknown]. *)
Definition DetectFromSDP (sdp : string) (d : Detector) : Detector * (string * exn codec_error (Info F)) :=
  let s := foldl sdp_line (mkSdp "" emptyInfo 0 false d) (Split (char_of 10) sdp) in
  if one_of (sdp_codec s) [TypeUnknown] then (sdp_map s, (TypeUnknown, Err ErrNoCodecInSDP))
  else (sdp_map s, (sdp_codec s, Val ((sdp_info s) <| i_Type := sdp_codec s |>))).

Definition DetectFromRTPPacket (payloadType : Z) (payload : list Z) (d : Detector) : res (string * option codec_error) :=
  match d !! payloadType with
  | Some t => Ret (t, None)
  | None =>
      if len payload <? 2 then Ret (TypeUnknown, Some ErrPayloadTooShort)
      else
        b0 ← idx payload 0; b1 ← idx payload 1;
        let forbiddenBit := Z.shiftr b0 7 in
        let hevcNalType := Z.land (Z.shiftr b0 1) 0x3F in
        let tid := Z.land b1 0x07 in
        if (2 <=? len payload) && ((forbiddenBit =? 0) && (0 <? tid) && (hevcNalType <=? 49)) && (32 <=? hevcNalType)
        then Ret (TypeHEVC, None)
        else
          let nalType := Z.land b0 0x1F in
          if (forbiddenBit =? 0) && ((1 <=? nalType) && (nalType <=? 23)) then Ret (TypeH264, None)
          else if (forbiddenBit =? 0) && ((24 <=? nalType) && (nalType <=? 29)) then Ret (TypeH264, None)
          else
            let obuType := Z.land (Z.shiftr b0 3) 0x0F in
            if (4 <=? len payload) && (Z.land b0 0x80 =? 0) && ((1 <=? obuType) && (obuType <=? 8)) then Ret (TypeAV1, None)
            else Ret (TypeUnknown, Some ErrUndetected)
  end.

Definition first_some {A} (a b : option A) : option A := match a with Some _ => a | None => b end.
Definition DetectFromSRTMetadata (metadata : gmap string string) : string * exn codec_error (Info F) :=
  match first_some (metadata !! "codec") (first_some (metadata !! "video_codec") (metadata !! "v_codec")) with
  | None => (TypeUnknown, Err ErrNoCodecInMetadata)
  | Some codecStr =>
      let t := ParseType codecStr in
      if one_of t [TypeUnknown] then (TypeUnknown, Err (ErrUnknownCodec codecStr))
      else
        let set {T} (key : string) (f : string -> T) (old : T) : T := match metadata !! key with Some v => f v | None => old end in
        (t, Val (mkInfo t (set "profile" id "") (set "level" id "") (set "width" Atoi 0) (set "height" Atoi 0)
                   (set "fps" ParseFloat zero) (set "bit_depth" Atoi 0) (set "chroma" id "") (metadata ∪ ∅)))
  end.
End detector.

(** ** A session description and what is read from it *)

Section sdp.
Context {F : Type} (zero : F) (ParseFloat : string -> F) (tenths : Z -> Z -> string).

(** A video section: payload type, encoding name, clock rate, parameters, size, rate. *)
Record video := mkVideo {
  v_media : string;
  v_pt : Z;
  v_name : string;
  v_clock : string;
  v_params : list (string * string);
  v_width : Z;
  v_height : Z;
  v_rate : string
}.
Definition pair_text (kv : string * string) : string := kv.1 +:+ String "=" kv.2.
Definition rtpmap_text (v : video) : string := decimal (v_pt v) +:+ String " " (v_name v +:+ String "/" (v_clock v)).
Definition fmtp_text (v : video) : string := decimal (v_pt v) +:+ String " " (Join ";" (map pair_text (v_params v))).
Definition size_text (v : video) : string := decimal (v_pt v) +:+ String " " (decimal (v_width v) +:+ String "-" (decimal (v_height v))).
Definition rate_text (v : video) : string := decimal (v_pt v) +:+ String " " (v_rate v).
Definition video_lines (v : video) : list string :=
  ["m=video" +:+ v_media v; "a=rtpmap:" +:+ rtpmap_text v; "a=fmtp:" +:+ fmtp_text v;
   "a=framesize:" +:+ size_text v; "a=framerate:" +:+ rate_text v]%string.

(** A word: no blank and none of the separators. *)
Definition word_char (c : ascii) : bool := negb (is_space c) && negb (existsb (Ascii.eqb c) ["/"; ";"; "="; char_of 10])%char.
Definition word (s : string) : Prop := s <> EmptyString /\ every word_char s = true.
Record video_ok (v : video) : Prop := {
  vo_media : trimmed ("m=video" +:+ v_media v) /\ free_of (char_of 10) (v_media v);
  vo_pt : 0 <= v_pt v < 256;
  vo_name : word (v_name v);
  vo_clock : word (v_clock v);
  vo_params : v_params v <> [] /\ Forall (fun kv => word kv.1 /\ word kv.2) (v_params v);
  vo_size : 0 <= v_width v < 2 ^ 63 /\ 0 <= v_height v < 2 ^ 63;
  vo_rate : word (v_rate v)
}.

(** Lines of other sections. *)
Definition other_line (l : string) : Prop := HasPrefix (TrimSpace l) "m=video" = false /\ free_of (char_of 10) l.
Definition begins_section (l : string) : Prop := HasPrefix (TrimSpace l) "m=" = true.

(** What the detector makes of the section. *)
Definition described (t : string) (v : video) : Info F :=
  let info := (emptyInfo zero) <| Parameters := {["clock_rate" := v_clock v]} |> in
  let info := foldl (fun info kv => parse_param tenths t kv.1 kv.2 info) info (v_params v) in
  info <| Width := v_width v |> <| Height := v_height v |> <| FrameRate := ParseFloat (v_rate v) |> <| i_Type := t |>.

Abbreviation step := (sdp_line ParseFloat tenths).

Lemma other_lines ls s : sdp_video s = false -> Forall other_line ls -> foldl step s ls = s.
Proof.
  intros Hv. induction 1 as [|l ls [Hl _] Hls IH]; [done|]. cbn [foldl]. unfold step at 2. unfold sdp_line. rewrite Hl. cbn [negb andb].
  destruct (HasPrefix (TrimSpace l) "m="); cbn [andb]; [|by rewrite Hv].
  replace (s <| sdp_video := false |>) with s by (destruct s; cbn in *; by subst). done.
Qed.

Lemma word_trimmed s : word s -> trimmed s.
Proof. intros [_ Hw]. apply trimmed_nonspace. eapply every_weaken; [|exact Hw]. intros c. unfold word_char, nonspace. by intros [? _]%andb_prop. Qed.
Lemma word_free c s : existsb (Ascii.eqb c) ["/"; ";"; "="; char_of 10; " "]%char = true -> word s -> free_of c s.
Proof.
  intros Hc [_ Hw]. eapply every_free_of; [|exact Hw]. cbn in Hc. repeat (apply orb_prop in Hc as [Hc|Hc]; [apply Ascii.eqb_eq in Hc as ->; done|]). done.
Qed.
Lemma word_nonspace s : word s -> s <> EmptyString /\ every nonspace s = true.
Proof. intros [Hne Hw]. split; [done|]. eapply every_weaken; [|exact Hw]. intros c. unfold word_char, nonspace. by intros [? _]%andb_prop. Qed.
Lemma decimal_free c n : is_digit c = false -> 0 <= n < 2 ^ 63 -> free_of c (decimal n).
Proof. intros Hc Hn. eapply every_free_of; [exact Hc|]. by apply decimal_spec. Qed.
Lemma decimal_nonspace n : 0 <= n < 2 ^ 63 -> decimal n <> EmptyString /\ every nonspace (decimal n) = true.
Proof.
  intros Hn. destruct (decimal_spec n Hn) as (Hd & Hne & _). split; [done|]. eapply every_weaken; [|exact Hd].
  intros c Hc. unfold nonspace, is_space, is_digit in *. lia.
Qed.

(** The end of the line is trimmed. *)
Definition line_end (e : string) : Prop := e = EmptyString \/ e = String (char_of 13) EmptyString.
Lemma trim_line c a b e :
  is_space c = false -> b <> EmptyString -> every nonspace b = true -> line_end e -> TrimSpace ((String c a +:+ b) +:+ e) = String c a +:+ b.
Proof. intros Hc Hne Hb He. apply TrimSpace_blank; [by apply trimmed_app|done|by destruct He as [-> | ->]]. Qed.

Lemma one_of_not s l : s ∉ l -> one_of s l = false.
Proof. intros H. by apply bool_decide_eq_false. Qed.

Lemma pair_trims kv : word kv.1 -> word kv.2 -> TrimSpace (pair_text kv) = pair_text kv.
Proof.
  intros Hk Hv. destruct kv as [k v]. cbn [fst snd] in *. destruct (word_nonspace v Hv) as [Hvne Hvs].
  destruct k as [|c k]; [by destruct Hk|]. pose proof (word_nonspace _ Hk) as [_ Hks]. cbn in Hks. apply andb_prop in Hks as [Hc _].
  assert (is_space c = false) as Hc' by (unfold nonspace in Hc; by destruct (is_space c)).
  unfold pair_text. cbn [fst snd]. pose proof (trimmed_app c (k +:+ "=") v Hc' Hvne Hvs) as E. unfold trimmed in E.
  by rewrite append_cons, append_assoc, <- append_cons in E.
Qed.
Lemma pairs_free ps :
  Forall (fun kv : string * string => word kv.1 /\ word kv.2) ps -> Forall (free_of ";") (map pair_text ps).
Proof.
  intros Hps. apply Forall_map. eapply Forall_impl; [exact Hps|]. intros [k v] [Hk Hv]. cbn in *. unfold pair_text. cbn.
  apply free_of_app. split; [by apply word_free|]. split; [done|]. by apply word_free.
Qed.
Lemma parse_pair_text t kv (info : Info F) :
  word kv.1 -> word kv.2 -> parse_pair tenths t info (pair_text kv) = parse_param tenths t kv.1 kv.2 info.
Proof.
  intros Hk Hv. unfold parse_pair. rewrite pair_trims by done. destruct kv as [k v]. cbn [fst snd] in *. unfold pair_text. cbn [fst snd].
  rewrite one_of_not by (destruct k; [by destruct Hk|rewrite append_cons; set_solver]).
  rewrite SplitN2_cut by (by apply word_free). by rewrite (word_trimmed _ Hk), (word_trimmed _ Hv).
Qed.

Lemma parse_params_text t ps (info : Info F) :
  ps <> [] -> Forall (fun kv => word kv.1 /\ word kv.2) ps ->
  parseFmtpParams tenths t (Join ";" (map pair_text ps)) info = foldl (fun info kv => parse_param tenths t kv.1 kv.2 info) info ps.
Proof.
  intros Hne Hps. unfold parseFmtpParams. rewrite Split_Join; [|by destruct ps|by apply pairs_free].
  revert info. clear Hne. induction Hps as [|kv ps [Hk Hv] Hps IH]; intros info; cbn [map foldl]; [done|]. by rewrite parse_pair_text.
Qed.

(** One line of the section, trimmed. *)
Definition section_line (line : string) (s : sdp_state) : sdp_state :=
  let s := if HasPrefix line "a=rtpmap:" then parse_rtpmap line s else s in
  let s := if HasPrefix line "a=fmtp:" && negb (one_of (sdp_codec s) [TypeUnknown]) then parse_fmtp tenths line s else s in
  let s := if HasPrefix line "a=framesize:" then parse_framesize line s else s in
  if HasPrefix line "a=framerate:" then parse_framerate ParseFloat line s else s.
Lemma step_attribute s l e rest :
  sdp_video s = true -> TrimSpace (l +:+ e) = l -> l = ("a=" +:+ rest)%string -> step s (l +:+ e) = section_line l s.
Proof. intros Hv Ht ->. unfold sdp_line. rewrite Ht. unfold HasPrefix at 1 2 3. cbn [String.prefix]. by rewrite Hv. Qed.

(** The text of the parameters ends in the last value. *)
Lemma params_end ps :
  ps <> [] -> Forall (fun kv : string * string => word kv.1 /\ word kv.2) ps ->
  exists a b, Join ";" (map pair_text ps) = a +:+ b /\ b <> EmptyString /\ every nonspace b = true.
Proof.
  intros Hne Hps. induction Hps as [|kv ps [Hk Hv] Hps IH]; [done|]. destruct (word_nonspace _ Hv) as [Hvne Hvs]. destruct ps as [|kv' ps].
  - exists (kv.1 +:+ "="), kv.2. cbn [map Join]. unfold pair_text. by rewrite append_assoc.
  - destruct (IH ltac:(done)) as (a & b & E & ? & ?). exists (pair_text kv +:+ String ";" a), b. split; [|done].
    change (Join ";" (map pair_text (kv :: kv' :: ps))) with (pair_text kv +:+ String ";" (Join ";" (map pair_text (kv' :: ps)))).
    by rewrite E, append_assoc, append_cons.
Qed.

(** The four attribute lines are not changed by trimming but for their end. *)
Lemma rtpmap_trims v e : video_ok v -> line_end e -> TrimSpace (("a=rtpmap:" +:+ rtpmap_text v) +:+ e) = ("a=rtpmap:" +:+ rtpmap_text v)%string.
Proof.
  intros [_ _ _ Hclock _ _ _] He. destruct (word_nonspace _ Hclock) as [Hcne Hcs].
  assert (rtpmap_text v = (decimal (v_pt v) +:+ String " " (v_name v +:+ "/")) +:+ v_clock v) as ->
    by (unfold rtpmap_text; by rewrite append_assoc, append_cons, append_assoc).
  rewrite <- append_assoc. by apply (trim_line "a" ("=rtpmap:" +:+ _)).
Qed.
Lemma fmtp_trims v e : video_ok v -> line_end e -> TrimSpace (("a=fmtp:" +:+ fmtp_text v) +:+ e) = ("a=fmtp:" +:+ fmtp_text v)%string.
Proof.
  intros [_ _ _ _ [Hpne Hps] _ _] He. destruct (params_end _ Hpne Hps) as (a & b & Hj & Hbne & Hbs).
  assert (fmtp_text v = (decimal (v_pt v) +:+ String " " a) +:+ b) as -> by (unfold fmtp_text; by rewrite Hj, append_assoc, append_cons).
  rewrite <- append_assoc. by apply (trim_line "a" ("=fmtp:" +:+ _)).
Qed.
Lemma size_trims v e : video_ok v -> line_end e -> TrimSpace (("a=framesize:" +:+ size_text v) +:+ e) = ("a=framesize:" +:+ size_text v)%string.
Proof.
  intros [_ _ _ _ _ [_ Hh] _] He. destruct (decimal_nonspace _ Hh) as [Hne Hs].
  assert (size_text v = (decimal (v_pt v) +:+ String " " (decimal (v_width v) +:+ "-")) +:+ decimal (v_height v)) as ->
    by (unfold size_text; by rewrite append_assoc, append_cons, append_assoc).
  rewrite <- append_assoc. by apply (trim_line "a" ("=framesize:" +:+ _)).
Qed.
Lemma rate_trims v e : video_ok v -> line_end e -> TrimSpace (("a=framerate:" +:+ rate_text v) +:+ e) = ("a=framerate:" +:+ rate_text v)%string.
Proof.
  intros [_ _ _ _ _ _ Hr] He. destruct (word_nonspace _ Hr) as [Hne Hs].
  assert (rate_text v = (decimal (v_pt v) +:+ " ") +:+ v_rate v) as -> by (unfold rate_text; by rewrite append_assoc).
  rewrite <- append_assoc. by apply (trim_line "a" ("=framerate:" +:+ _)).
Qed.

Lemma step_rtpmap s v t e :
  sdp_video s = true -> video_ok v -> line_end e -> rtpmap_codec (ToUpper (v_name v)) = Some t ->
  step s (("a=rtpmap:" +:+ rtpmap_text v) +:+ e) =
    mkSdp t ((sdp_info s) <| Parameters := <["clock_rate" := v_clock v]> (Parameters (sdp_info s)) |>) (v_pt v) true
      (<[v_pt v := t]> (sdp_map s)).
Proof.
  intros Hv Hok He Ht. pose proof Hok as [_ Hpt Hname Hclock _ _ _].
  rewrite (step_attribute _ _ _ ("rtpmap:" +:+ rtpmap_text v)) by (done || by apply rtpmap_trims).
  unfold section_line. rewrite HasPrefix_app. unfold parse_rtpmap, u8.
  rewrite (drop_string_app "a=rtpmap:"). unfold rtpmap_text.
  pose proof (Atoi_decimal (v_pt v) ltac:(lia)) as Hatoi.
  rewrite Split_cut by (apply decimal_free; done || lia). rewrite (Split_last " ") by (apply free_of_app; split; [by apply word_free|split; [done|by apply word_free]]).
  rewrite (Split_cut "/") by (by apply word_free). rewrite (Split_last "/") by (by apply word_free). rewrite Hatoi, Ht, (Z.mod_small (v_pt v) (2 ^ 8)) by lia.
  unfold HasPrefix. cbn -[insert decimal rtpmap_text]. destruct s; cbn in *; subst; done.
Qed.

(** The keyword of a line decides what reads it. *)
Definition keyword_of (line : string) : list bool := map (HasPrefix line) ["a=rtpmap:"; "a=fmtp:"; "a=framesize:"; "a=framerate:"].
Lemma section_line_keyword line s a b c d :
  keyword_of line = [a; b; c; d] ->
  section_line line s =
    let s := if a then parse_rtpmap line s else s in
    let s := if b && negb (one_of (sdp_codec s) [TypeUnknown]) then parse_fmtp tenths line s else s in
    let s := if c then parse_framesize line s else s in
    if d then parse_framerate ParseFloat line s else s.
Proof. unfold keyword_of, section_line. cbn [map]. by intros [= -> -> -> ->]. Qed.

Lemma step_fmtp s v e :
  sdp_video s = true -> video_ok v -> line_end e -> sdp_pt s = v_pt v -> sdp_codec s <> TypeUnknown ->
  step s (("a=fmtp:" +:+ fmtp_text v) +:+ e) =
    mkSdp (sdp_codec s) (foldl (fun info kv => parse_param tenths (sdp_codec s) kv.1 kv.2 info) (sdp_info s) (v_params v)) (sdp_pt s) true (sdp_map s).
Proof.
  intros Hv Hok He Hspt Hcodec. pose proof Hok as [_ Hpt _ _ [Hpne Hps] _ _].
  rewrite (step_attribute _ _ _ ("fmtp:" +:+ fmtp_text v)) by (done || by apply fmtp_trims).
  assert (parse_fmtp tenths ("a=fmtp:" +:+ fmtp_text v) s = s <| sdp_info := parseFmtpParams tenths (sdp_codec s) (Join ";" (map pair_text (v_params v))) (sdp_info s) |>) as Hp.
  { unfold parse_fmtp, u8. rewrite (drop_string_app "a=fmtp:"). unfold fmtp_text. rewrite SplitN2_cut by (apply decimal_free; done || lia).
    rewrite Atoi_decimal by lia. rewrite (Z.mod_small (v_pt v) (2 ^ 8)) by lia. by rewrite Hspt, Z.eqb_refl. }
  rewrite (section_line_keyword _ _ false true false false) by (unfold keyword_of; cbn [map]; by rewrite (HasPrefix_app "a=fmtp:")). cbv zeta iota. rewrite (one_of_not (sdp_codec s)) by set_solver.
  cbn [negb andb]. rewrite Hp, parse_params_text by done. destruct s; cbn in *; subst; done.
Qed.

Lemma step_size s v e :
  sdp_video s = true -> video_ok v -> line_end e ->
  step s (("a=framesize:" +:+ size_text v) +:+ e) =
    mkSdp (sdp_codec s) ((sdp_info s) <| Width := v_width v |> <| Height := v_height v |>) (sdp_pt s) true (sdp_map s).
Proof.
  intros Hv Hok He. pose proof Hok as [_ Hpt _ _ _ [Hw Hh] _].
  rewrite (step_attribute _ _ _ ("framesize:" +:+ size_text v)) by (done || by apply size_trims).
  assert (parse_framesize ("a=framesize:" +:+ size_text v) s = s <| sdp_info := (sdp_info s) <| Width := v_width v |> <| Height := v_height v |> |>) as Hp.
  { unfold parse_framesize. rewrite (drop_string_app "a=framesize:"). unfold size_text. rewrite Split_cut by (apply decimal_free; done || lia).
    rewrite (Split_last " ") by (apply free_of_app; split; [by apply decimal_free|split; [done|by apply decimal_free]]).
    rewrite Split_cut, Split_last by (by apply decimal_free).
    by rewrite !Atoi_decimal by done. }
  rewrite (section_line_keyword _ _ false false true false) by (unfold keyword_of; cbn [map]; by rewrite (HasPrefix_app "a=framesize:")). cbv zeta iota. cbn [andb]. rewrite Hp. destruct s; cbn in *; subst; done.
Qed.

Lemma step_rate s v e :
  sdp_video s = true -> video_ok v -> line_end e ->
  step s (("a=framerate:" +:+ rate_text v) +:+ e) =
    mkSdp (sdp_codec s) ((sdp_info s) <| FrameRate := ParseFloat (v_rate v) |>) (sdp_pt s) true (sdp_map s).
Proof.
  intros Hv Hok He. pose proof Hok as [_ Hpt _ _ _ _ Hr].
  rewrite (step_attribute _ _ _ ("framerate:" +:+ rate_text v)) by (done || by apply rate_trims).
  assert (parse_framerate ParseFloat ("a=framerate:" +:+ rate_text v) s = s <| sdp_info := (sdp_info s) <| FrameRate := ParseFloat (v_rate v) |> |>) as Hp.
  { unfold parse_framerate. rewrite (drop_string_app "a=framerate:"). unfold rate_text. rewrite Split_cut by (apply decimal_free; done || lia).
    by rewrite Split_last by (by apply word_free). }
  rewrite (section_line_keyword _ _ false false false true) by (unfold keyword_of; cbn [map]; by rewrite (HasPrefix_app "a=framerate:")). cbv zeta iota. cbn [andb]. rewrite Hp. destruct s; cbn in *; subst; done.
Qed.

Lemma rtpmap_codec_valid name t : rtpmap_codec name = Some t -> IsValid t = true /\ t <> TypeUnknown.
Proof. unfold rtpmap_codec. repeat case_match; intros [= <-]; by vm_compute. Qed.

(** The whole section. *)
Lemma section_read s v t e :
  video_ok v -> line_end e -> rtpmap_codec (ToUpper (v_name v)) = Some t ->
  foldl step s (map (fun l => l +:+ e) (video_lines v)) =
    mkSdp t ((foldl (fun info kv => parse_param tenths t kv.1 kv.2 info)
               ((sdp_info s) <| Parameters := <["clock_rate" := v_clock v]> (Parameters (sdp_info s)) |>) (v_params v))
             <| Width := v_width v |> <| Height := v_height v |> <| FrameRate := ParseFloat (v_rate v) |>)
      (v_pt v) true (<[v_pt v := t]> (sdp_map s)).
Proof.
  intros Hok He Ht. destruct (rtpmap_codec_valid _ _ Ht) as [_ Hne]. cbn [video_lines map foldl].
  assert (step s (("m=video" +:+ v_media v) +:+ e) = s <| sdp_video := true |>) as ->.
  { unfold sdp_line. rewrite TrimSpace_blank; [by rewrite (HasPrefix_app "m=video")|by apply Hok|done|by destruct He as [-> | ->]]. }
  rewrite (step_rtpmap _ v t) by done. rewrite step_fmtp by done. rewrite step_size by done. rewrite step_rate by done. done.
Qed.

Lemma line_free s e : free_of (char_of 10) s -> line_end e -> free_of (char_of 10) (s +:+ e).
Proof. intros Hs He. apply free_of_app. split; [done|]. by destruct He as [-> | ->]. Qed.
Lemma video_lines_free v : video_ok v -> Forall (free_of (char_of 10)) (video_lines v).
Proof.
  intros [[_ Hm] Hpt Hn Hc [_ Hps] [Hw Hh] Hr]. assert (forall n, 0 <= n < 2 ^ 63 -> free_of (char_of 10) (decimal n)) as Hd by (intros; by apply decimal_free).
  assert (forall w, word w -> free_of (char_of 10) w) as Hword by (intros; by apply word_free).
  specialize (Hd (v_pt v) ltac:(lia)) as Hp.
  assert (free_of (char_of 10) (Join ";" (map pair_text (v_params v)))) as Hj.
  { clear -Hps Hword. induction Hps as [|kv ps [Hk Hv] Hps IH]; [done|].
    assert (free_of (char_of 10) (pair_text kv)) as Hkv by (unfold pair_text; apply free_of_app; cbn; auto).
    destruct ps as [|kv' ps]; [done|]. change (Join ";" (map pair_text (kv :: kv' :: ps))) with (pair_text kv +:+ String ";" (Join ";" (map pair_text (kv' :: ps)))).
    apply free_of_app. split; [done|]. by split. }
  unfold video_lines, rtpmap_text, fmtp_text, size_text, rate_text.
  repeat apply Forall_cons_2; [..|by apply Forall_nil_2]; repeat (apply free_of_app; split); auto; try (split; [done|]); auto;
    repeat (apply free_of_app; split); auto; try (split; [done|]); auto; cbn; try done; repeat split; done || auto.
Qed.

(** The lines of a description up to the end of its video section. *)
Lemma lines_free pre v post e :
  Forall other_line pre -> Forall other_line post -> video_ok v -> line_end e ->
  Split (char_of 10) (Join (char_of 10) (pre ++ map (fun l => l +:+ e) (video_lines v) ++ post)) =
    pre ++ map (fun l => l +:+ e) (video_lines v) ++ post.
Proof.
  intros Hpre Hpost Hok He. rewrite Split_Join; [done|by destruct pre|].
  apply Forall_app. split; [eapply Forall_impl; [exact Hpre|]; by intros ? [_ ?]|]. apply Forall_app.
  split; [|eapply Forall_impl; [exact Hpost|]; by intros ? [_ ?]]. apply Forall_map. eapply Forall_impl; [by apply video_lines_free|].
  intros l Hl. by apply line_free.
Qed.
Lemma described_state pre v t e d :
  Forall other_line pre -> video_ok v -> line_end e -> rtpmap_codec (ToUpper (v_name v)) = Some t ->
  exists info, foldl step (mkSdp EmptyString (emptyInfo zero) 0 false d) (pre ++ map (fun l => l +:+ e) (video_lines v)) =
    mkSdp t info (v_pt v) true (<[v_pt v := t]> d) /\ info <| i_Type := t |> = described t v.
Proof.
  intros Hpre Hok He Ht. rewrite foldl_app, (other_lines pre), (section_read _ v t) by done. eexists. by split.
Qed.

(** session descriptions.  Let a description hold, among any session and
    media lines of its own kind, one video section with an [rtpmap] of a supported
    codec in any letter case, [fmtp] parameters, a size and a frame rate, the lines
    ending in LF or CR LF.  The detector finds the codec, the parameters as the
    codec reads them, the size and the rate, and maps the payload type. *)
Theorem sdp_described pre v post t e d :
  Forall other_line pre -> Forall other_line post -> match post with [] => True | l :: _ => begins_section l end ->
  video_ok v -> line_end e -> rtpmap_codec (ToUpper (v_name v)) = Some t ->
  DetectFromSDP zero ParseFloat tenths (Join (char_of 10) (pre ++ map (fun l => l +:+ e) (video_lines v) ++ post)) d =
    (<[v_pt v := t]> d, (t, Val (described t v))).
Proof.
  intros Hpre Hpost Hbegin Hok He Ht. destruct (rtpmap_codec_valid _ _ Ht) as [_ Hne]. unfold DetectFromSDP.
  rewrite lines_free by done. rewrite app_assoc, foldl_app. destruct (described_state pre v t e d Hpre Hok He Ht) as (info & -> & Hinfo).
  set (s := mkSdp t info _ true _). assert (exists b, foldl step s post = s <| sdp_video := b |>) as (b & ->).
  { destruct post as [|l post]; [by exists true|]. apply Forall_cons in Hpost as [[Hl _] Hpost]. exists false. cbn [foldl].
    assert (step s l = s <| sdp_video := false |>) as -> by (unfold sdp_line; rewrite Hl; unfold begins_section in Hbegin; by rewrite Hbegin).
    by rewrite other_lines. }
  cbn [upd sdp_codec sdp_map sdp_info s]. rewrite one_of_not by set_solver. by rewrite <- Hinfo.
Qed.

(** A description without a supported codec is not refused: the error is never
    returned. *)
Lemma sdp_never_fails sdp d : exists d' t i, DetectFromSDP zero ParseFloat tenths sdp d = (d', (t, Val i)).
Proof.
  unfold DetectFromSDP. assert (forall ls s, sdp_codec s <> TypeUnknown -> sdp_codec (foldl step s ls) <> TypeUnknown) as H.
  { induction ls as [|l ls IH]; intros s Hs; [done|]. cbn [foldl]. apply IH. unfold sdp_line.
    assert (forall s : sdp_state (F := F), sdp_codec s <> TypeUnknown -> sdp_codec (parse_rtpmap (TrimSpace l) s) <> TypeUnknown) as H1.
    { clear s Hs. intros s Hs. unfold parse_rtpmap. repeat case_match; cbn; try done; by eapply rtpmap_codec_valid. }
    assert (forall s : sdp_state (F := F), sdp_codec (parse_fmtp tenths (TrimSpace l) s) = sdp_codec s) as H2 by (intros; unfold parse_fmtp; repeat case_match; done).
    assert (forall s : sdp_state (F := F), sdp_codec (parse_framesize (TrimSpace l) s) = sdp_codec s) as H3 by (intros; unfold parse_framesize; repeat case_match; done).
    assert (forall s : sdp_state (F := F), sdp_codec (parse_framerate ParseFloat (TrimSpace l) s) = sdp_codec s) as H4 by (intros; unfold parse_framerate; repeat case_match; done).
    destruct (HasPrefix _ "m=video"); [done|]. destruct (_ && _); [done|]. destruct (negb (sdp_video s)); [done|]. cbv zeta.
    set (s1 := if HasPrefix _ "a=rtpmap:" then _ else _). assert (sdp_codec s1 <> TypeUnknown) as Hs1 by (unfold s1; destruct (HasPrefix _ _); auto).
    clearbody s1. destruct (HasPrefix _ "a=fmtp:" && _), (HasPrefix _ "a=framesize:"), (HasPrefix _ "a=framerate:"); by rewrite ?H4, ?H3, ?H2. }
  rewrite one_of_not; [by eexists _, _, _|]. rewrite list_elem_of_singleton. by apply H.
Qed.
End sdp.

(** ** Payload detection *)

(** A mapped payload type is answered from the map; otherwise the first bytes
    decide, and the handler never panics. *)
Lemma detect_rtp_total pt payload d :
  exists t err, DetectFromRTPPacket pt payload d = Ret (t, err) /\
    (forall t', d !! pt = Some t' -> t = t' /\ err = None) /\
    (d !! pt = None -> (err = None <-> t <> TypeUnknown)).
Proof.
  unfold DetectFromRTPPacket. destruct (d !! pt) as [t|]; [eexists _, _; split; [reflexivity|]; split; [by intros ? [= <-]|done]|].
  case_bool; [by eexists _, _|]. destruct (idx_Ret payload 0) as (b0 & -> & _); [lia|]. destruct (idx_Ret payload 1) as (b1 & -> & _); [lia|].
  rewrite !bind_Ret. repeat case_bool; by eexists _, _.
Qed.

(** The first byte of an H.264 slice of nonzero importance reads as an HEVC type of
    32 or more: such packets are taken for HEVC unless the session description
    named the codec. *)
Lemma h264_slice_taken_for_hevc :
  DetectFromRTPPacket 96 [0x41; 0x9A; 0; 1] ∅ = Ret (TypeHEVC, None) /\ DetectFromRTPPacket 96 [0x61; 0x9A; 0; 1] ∅ = Ret (TypeHEVC, None).
Proof. split; vm_compute; reflexivity. Qed.

(** Codec names parse to themselves. *)
Lemma ParseType_valid t : IsValid t = true -> ParseType t = t /\ ParseType (ToLower t) = t.
Proof.
  unfold IsValid, one_of. intros H%bool_decide_eq_true. rewrite !elem_of_cons in H.
  destruct H as [-> |[-> |[-> |[-> |[]%not_elem_of_nil]]]]; by vm_compute.
Qed.

(** ** Witness *)

Definition sample_video : video :=
  mkVideo " 9 RTP/AVP 96" 96 "h264" "90000" [("profile-level-id", "640028"); ("packetization-mode", "1")]%string 1920 1080 "30".
Definition sample_before : list string := ["v=0"; "m=audio 9 RTP/AVP 0"; "a=rtpmap:0 PCMU/8000"]%string.
Definition sample_after : list string := ["m=application 9"; "a=rtpmap:97 AV1/90000"]%string.
Definition sample_info : Info string :=
  mkInfo "H264" "high" "4" 1920 1080 "30" 0 ""
    {["clock_rate" := "90000"; "profile-level-id" := "640028"; "packetization-mode" := "1"]}.
Lemma sample_video_ok : video_ok sample_video.
Proof.
  constructor; try (by vm_compute); repeat split; try (by vm_compute); try done.
  repeat apply Forall_cons_2; try apply Forall_nil_2; by repeat split.
Qed.
Lemma sdp_described_witness :
  DetectFromSDP EmptyString id (fun n d => decimal (n / d))
    (Join (char_of 10) (sample_before ++ map (fun l => l +:+ String (char_of 13) EmptyString) (video_lines sample_video) ++ sample_after)) ∅ =
  ({[96 := TypeH264]}, (TypeH264, Val sample_info)).
Proof.
  rewrite (sdp_described EmptyString id _ sample_before sample_video sample_after TypeH264).
  - vm_compute. reflexivity.
  - repeat apply Forall_cons_2; try apply Forall_nil_2; unfold other_line; by vm_compute.
  - repeat apply Forall_cons_2; try apply Forall_nil_2; unfold other_line; by vm_compute.
  - by vm_compute.
  - apply sample_video_ok.
  - by right.
  - by vm_compute.
Defined.
