(* ===== verification/CodecFactory.v ===== *)
(** * Depacketizer factory (codec/factory.go, codec/adapters.go)

    The registry of constructors by codec name, with and without a memory
    controller, over the depacketizers of the other files. *)

From stdpp Require Import strings.
From S2P Require Import Prelude Serial Eviction Depacketizer Memory DepackMemory AccumMemory CodecDetect.
From S2P Require H264 HEVC AV1 JpegXs.
#[local] Open Scope Z_scope.

(** The values of the [Depacketizer] interface. *)
Inductive Depacketizer : Type :=
| DH264 (d : H264.H264Depacketizer)
| DHEVC (d : HEVC.HEVCDepacketizer)
| DAV1 (d : AV1.AV1Depacketizer)
| DJPEGXS (d : JpegXs.JPEGXSDepacketizer)
| MH264 (d : WithMemory H264.H264Depacketizer)
| MHEVC (d : WithMemory HEVC.HEVCDepacketizer)
| MAV1 (d : WithMemory AV1.AV1Depacketizer)
| MJPEGXS (d : WithMemory JpegXs.JPEGXSDepacketizer).

(** The codec a depacketizer is for, and its memory limit. *)
Definition codec_of (d : Depacketizer) : string :=
  match d with
  | DH264 _ | MH264 _ => TypeH264 | DHEVC _ | MHEVC _ => TypeHEVC
  | DAV1 _ | MAV1 _ => TypeAV1 | DJPEGXS _ | MJPEGXS _ => TypeJPEGXS
  end.
Definition limit_of (d : Depacketizer) : option Z :=
  match d with
  | MH264 w => Some (memoryLimit w) | MHEVC w => Some (memoryLimit w)
  | MAV1 w => Some (memoryLimit w) | MJPEGXS w => Some (memoryLimit w)
  | _ => None
  end.
Definition stream_of (d : Depacketizer) : option string :=
  match d with
  | MH264 w => Some (streamID w) | MHEVC w => Some (streamID w)
  | MAV1 w => Some (streamID w) | MJPEGXS w => Some (streamID w)
  | _ => None
  end.

(** [Reset] of the interface; the wrappers reach the controller. *)
Definition reset (d : Depacketizer) (c : Controller) : Depacketizer * Controller :=
  match d with
  | DH264 d => (DH264 (H264.Reset_ d), c)
  | DHEVC d => (DHEVC (HEVC.Reset_ d), c)
  | DAV1 d => (DAV1 (AV1.Reset_ d), c)
  | DJPEGXS d => (DJPEGXS (JpegXs.Reset_ d), c)
  | MH264 w => let '(w, c) := ResetH264WithMemory w c in (MH264 w, c)
  | MHEVC w => let '(w, c) := ResetHEVCWithMemory w c in (MHEVC w, c)
  | MAV1 w => let '(w, c) := ResetAV1WithMemory w c in (MAV1 w, c)
  | MJPEGXS w => let '(w, c) := ResetJPEGXSWithMemory w c in (MJPEGXS w, c)
  end.

(** [hasController] is [memController != nil]. *)
Record DepacketizerFactory := mkFactory {
  registry : gmap string (string -> Depacketizer);
  hasController : bool;
  codecLimits : gmap string Z
}.
#[export] Instance eta_Factory : Eta DepacketizerFactory := fun f => mkFactory (registry f) (hasController f) (codecLimits f).

Definition Register (codecType : string) (creator : string -> Depacketizer) (f : DepacketizerFactory) : DepacketizerFactory :=
  f <| registry := <[codecType := creator]> (registry f) |>.
Definition Unregister (codecType : string) (f : DepacketizerFactory) : DepacketizerFactory :=
  f <| registry := delete codecType (registry f) |>.
Definition Create (codecType streamID : string) (f : DepacketizerFactory) : option Depacketizer :=
  match registry f !! codecType with Some creator => Some (creator streamID) | None => None end.
Definition IsSupported (codecType : string) (f : DepacketizerFactory) : bool :=
  match registry f !! codecType with Some _ => true | None => false end.
(** In Go the order of the map is unspecified. *)
Definition SupportedCodecs (f : DepacketizerFactory) : gset string := dom (registry f).

Definition limit_for (codecType : string) (f : DepacketizerFactory) : Z := default 0 (codecLimits f !! codecType).
Definition RegisterDefaults (f : DepacketizerFactory) : DepacketizerFactory :=
  if negb (hasController f) then
    let f := Register TypeHEVC (fun _ => DHEVC HEVC.NewHEVCDepacketizer) f in
    let f := Register TypeH264 (fun _ => DH264 H264.NewH264Depacketizer) f in
    let f := Register TypeAV1 (fun _ => DAV1 AV1.NewAV1Depacketizer) f in
    Register TypeJPEGXS (fun _ => DJPEGXS JpegXs.NewJPEGXSDepacketizer) f
  else
    let limits := f in
    let f := Register TypeHEVC (fun id => MHEVC (NewHEVCDepacketizerWithMemory id (limit_for TypeHEVC limits))) f in
    let f := Register TypeH264 (fun id => MH264 (NewH264DepacketizerWithMemory id (limit_for TypeH264 limits))) f in
    let f := Register TypeAV1 (fun id => MAV1 (NewAV1DepacketizerWithMemory id (limit_for TypeAV1 limits))) f in
    Register TypeJPEGXS (fun id => MJPEGXS (NewJPEGXSDepacketizerWithMemory id (limit_for TypeJPEGXS limits))) f.
Definition NewDepacketizerFactory (hasController : bool) : DepacketizerFactory :=
  RegisterDefaults (mkFactory ∅ hasController
    {[TypeH264 := 10 * 1024 * 1024; TypeHEVC := 15 * 1024 * 1024; TypeAV1 := 12 * 1024 * 1024; TypeJPEGXS := 5 * 1024 * 1024]}).

(** [pools] holds the [sync.Pool]s by codec; nothing ever adds one. *)
Record DepacketizerPool := mkPool { factory : DepacketizerFactory; pools : gmap string (list Depacketizer) }.
Definition NewDepacketizerPool (f : DepacketizerFactory) : DepacketizerPool := mkPool f ∅.
Definition Get (codecType streamID : string) (p : DepacketizerPool) : option Depacketizer := Create codecType streamID (factory p).
Definition Put (codecType : string) (d : Depacketizer) (c : Controller) (p : DepacketizerPool) : DepacketizerPool * Controller :=
  match pools p !! codecType with
  | Some pool => let '(d, c) := reset d c in (mkPool (factory p) (<[codecType := pool ++ [d]]> (pools p)), c)
  | None => (p, c)
  end.

(** ** What the factory promises *)

(** Create, IsSupported and SupportedCodecs agree, whatever was registered. *)
Lemma supported_agree t id f :
  (IsSupported t f = true <-> t ∈ SupportedCodecs f) /\ (IsSupported t f = true <-> exists d, Create t id f = Some d).
Proof.
  unfold IsSupported, SupportedCodecs, Create. rewrite elem_of_dom. destruct (registry f !! t) as [k|] eqn:E.
  - split; split; try done; by eexists.
  - split; split; try done; by intros [? [=]].
Qed.
Lemma register_create t creator id f t' :
  Create t' id (Register t creator f) = (if decide (t = t') then Some (creator id) else Create t' id f).
Proof. unfold Create, Register. cbn [registry upd]. case_decide as E; [subst; by rewrite lookup_insert_eq|by rewrite lookup_insert_ne]. Qed.
Lemma unregister_create t id f : Create t id (Unregister t f) = None.
Proof. unfold Create, Unregister. cbn [registry upd]. by rewrite lookup_delete_eq. Qed.

(** The new factory makes a depacketizer of each of the four codecs, with the
    stream and the codec's limit when there is a controller, and of no other. *)
Definition default_limit (t : string) : Z :=
  if one_of t [TypeH264] then 10485760 else if one_of t [TypeHEVC] then 15728640 else if one_of t [TypeAV1] then 12582912 else 5242880.
Lemma new_factory_creates hasc t id :
  match Create t id (NewDepacketizerFactory hasc) with
  | Some d => IsValid t = true /\ codec_of d = t /\
      (if hasc then limit_of d = Some (default_limit t) /\ stream_of d = Some id else limit_of d = None)
  | None => IsValid t = false
  end.
Proof.
  destruct (IsValid t) eqn:Hv.
  - unfold IsValid, one_of in Hv. apply bool_decide_eq_true in Hv. rewrite !elem_of_cons in Hv.
    destruct Hv as [-> |[-> |[-> |[-> |[]%not_elem_of_nil]]]]; destruct hasc; by vm_compute.
  - unfold Create. destruct (registry (NewDepacketizerFactory hasc) !! t) eqn:E; [|done].
    assert (t ∈ dom (registry (NewDepacketizerFactory hasc))) as Hd by (by apply elem_of_dom).
    assert (dom (registry (NewDepacketizerFactory hasc)) = {[TypeHEVC; TypeH264; TypeAV1; TypeJPEGXS]}) as Hdom
      by (destruct hasc; vm_compute; reflexivity).
    rewrite Hdom in Hd. unfold IsValid, one_of in Hv. apply bool_decide_eq_false in Hv. set_solver.
Qed.

(** The pool is only its factory. *)
Lemma pool_is_factory f t d c : Put t d c (NewDepacketizerPool f) = (NewDepacketizerPool f, c).
Proof. reflexivity. Qed.
