(* ===== verification/CodecSession.v ===== *)
(** * Codec detection of the ingestion layer (codec_detection.go)

    A second detector, for audio and video: static payload types, session
    descriptions, payload patterns and RTP sessions.  On the video sections both
    detectors know it finds the codec that [CodecDetect] finds. *)

From Stdlib Require Import Ascii.
From stdpp Require Import strings.
From S2P Require Import Prelude GoStrings Codec CodecDetect.
#[local] Open Scope Z_scope.

(** [payloadTypeMap] *)
Definition CodecDetector : Type := gmap Z CodecType.
Definition NewCodecDetector : CodecDetector := ∅.
Definition AddPayloadTypeMapping (payloadType : Z) (codec : CodecType) (d : CodecDetector) : CodecDetector := <[payloadType := codec]> d.

Definition detectFromPayloadType (pt : Z) (d : CodecDetector) : CodecType :=
  match d !! pt with
  | Some codec => codec
  | None =>
      let among l := existsb (Z.eqb pt) l in
      if among [0] then CodecG711 else if among [8] then CodecG711 else if among [9] then CodecG722
      else if among [10; 11] then CodecL16 else if among [14] then CodecMP3 else if among [26] then CodecJPEG
      else if among [31] then CodecH261 else if among [32] then CodecMPV else if among [33] then CodecMP2T
      else if among [34] then CodecH263 else CodecUnknown
  end.

Definition detectFromPayload (payload : list Z) (payloadType : Z) : res CodecType :=
  if len payload <? 1 then Ret CodecUnknown
  else if (96 <=? payloadType) && (payloadType <=? 127) then
    b0 ← idx payload 0;
    certain ← (if 2 <=? len payload then
        b1 ← idx payload 1;
        let hevcNalType := Z.land (Z.shiftr b0 1) 0x3F in
        let forbiddenBit := negb (Z.land b0 0x80 =? 0) in
        let nuhTemporalIdPlus1 := Z.land b1 0x07 in
        Ret (negb forbiddenBit && (1 <=? nuhTemporalIdPlus1) && ((hevcNalType =? 48) || (hevcNalType =? 49)))
      else Ret false);
    if certain : bool then Ret CodecHEVC
    else
      let nalType := Z.land b0 0x1F in
      if (1 <=? nalType) && (nalType <=? 23) then Ret CodecH264
      else if (24 <=? nalType) && (nalType <=? 29) then Ret CodecH264
      else if (2 <=? len payload) && (Z.land (Z.shiftr b0 1) 0x3F <=? 40) then Ret CodecHEVC
      else Ret CodecUnknown
  else Ret CodecUnknown.

(** [packet = None] is the nil packet. *)
Definition DetectFromRTPPacket (packet : option (Z * list Z)) (d : CodecDetector) : res CodecType :=
  match packet with
  | None => Ret CodecUnknown
  | Some (payloadType, payload) =>
      let codec := detectFromPayloadType payloadType d in
      if negb (bool_decide (codec = CodecUnknown)) then Ret codec
      else if 0 <? len payload then detectFromPayload payload payloadType
      else Ret CodecUnknown
  end.

Definition detectCodecFromEncodingName (name : string) : CodecType :=
  let name := ToUpper (TrimSpace name) in
  if one_of name ["H264"; "AVC"] then CodecH264 else if one_of name ["H265"; "HEVC"] then CodecHEVC
  else if one_of name ["AV1"] then CodecAV1 else if one_of name ["VP8"] then CodecVP8 else if one_of name ["VP9"] then CodecVP9
  else if one_of name ["JPEG-XS"; "JPEGXS"; "JXS"] then CodecJPEGXS else if one_of name ["H261"] then CodecH261
  else if one_of name ["H263"; "H263-1998"; "H263-2000"] then CodecH263 else if one_of name ["JPEG"] then CodecJPEG
  else if one_of name ["MPV"] then CodecMPV else if one_of name ["AAC"; "MP4A-LATM"; "MPEG4-GENERIC"] then CodecAAC
  else if one_of name ["OPUS"] then CodecOpus else if one_of name ["MP3"; "MPA"] then CodecMP3
  else if one_of name ["PCMU"; "PCMA"; "G711"] then CodecG711 else if one_of name ["G722"] then CodecG722
  else if one_of name ["L16"; "L24"] then CodecPCM else if one_of name ["VORBIS"] then CodecVorbis
  else if one_of name ["SPEEX"] then CodecSpeex else if one_of name ["MP2T"] then CodecMP2T else CodecUnknown.

(** What the loop over the lines keeps. *)
Record state := mkState {
  st_codec : CodecType;
  st_params : gmap string string;
  st_pt : Z;
  st_video : bool;
  st_audio : bool;
  st_map : CodecDetector
}.
#[export] Instance eta_state : Eta state := fun s =>
  mkState (st_codec s) (st_params s) (st_pt s) (st_video s) (st_audio s) (st_map s).

(** The first number from the fourth field of the media line on. *)
Fixpoint first_number (parts : list string) : option Z :=
  match parts with
  | [] => None
  | p :: parts => let '(pt, ok) := Atoi_checked p in if ok : bool then Some (u8 pt) else first_number parts
  end.
Definition media_payload_type (line : string) (s : state) : state :=
  let parts := Fields line in
  if 3 <? len parts then
    match first_number (drop 3 parts) with Some pt => s <| st_pt := pt |> | None => s end
  else s.

(** [None] when the payload type is not the current one. *)
Definition for_current (field : string) (s : state) : bool :=
  let '(pt, ok) := Atoi_checked field in ok && (u8 pt =? st_pt s).
Definition read_rtpmap (line : string) (s : state) : state :=
  match SplitN2 " " (drop_string 9 line) with
  | [pt; encoding] =>
      if for_current pt s then
        match Split "/" encoding with
        | [] => s
        | name :: clock =>
            let codec := detectCodecFromEncodingName name in
            let s := if negb (bool_decide (codec = CodecUnknown))
                     then s <| st_codec := codec |> <| st_map := <[st_pt s := codec]> (st_map s) |> else s in
            match clock with rate :: _ => s <| st_params := <["clock_rate" := rate]> (st_params s) |> | [] => s end
        end
      else s
  | _ => s
  end.
Definition read_param (params : gmap string string) (param : string) : gmap string string :=
  match SplitN2 "=" (TrimSpace param) with [k; v] => <[k := v]> params | _ => params end.
Definition read_fmtp (line : string) (s : state) : state :=
  match SplitN2 " " (drop_string 7 line) with
  | [pt; params] => if for_current pt s then s <| st_params := foldl read_param (st_params s) (Split ";" params) |> else s
  | _ => s
  end.

Definition session_line (s : state) (line : string) : state :=
  let line := TrimSpace line in
  if HasPrefix line "m=video" then media_payload_type line (s <| st_video := true |> <| st_audio := false |>)
  else if HasPrefix line "m=audio" then media_payload_type line (s <| st_video := false |> <| st_audio := true |>)
  else if HasPrefix line "m=" then s <| st_video := false |> <| st_audio := false |>
  else
    let s := if HasPrefix line "a=rtpmap:" && (st_video s || st_audio s) then read_rtpmap line s else s in
    if HasPrefix line "a=fmtp:" then read_fmtp line s else s.

Definition DetectFromSDP (sdp : string) (d : CodecDetector) : CodecDetector * (CodecType * gmap string string) :=
  let s := foldl session_line (mkState CodecUnknown ∅ 0 false false d) (Split (char_of 10) sdp) in
  (st_map s, (st_codec s, st_params s)).

(** The session's payload type, media format, encoding name and clock rate. *)
Definition DetectCodecFromRTPSession (payloadType : Z) (mediaFormat encodingName : string) (clockRate : Z) : CodecType :=
  let codec := detectFromPayloadType payloadType NewCodecDetector in
  if negb (bool_decide (codec = CodecUnknown)) then codec
  else
    let guess :=
      if clockRate =? 90000 then CodecH264
      else if existsb (Z.eqb clockRate) [48000; 44100; 32000; 16000] then CodecAAC
      else if clockRate =? 8000 then CodecG711 else CodecUnknown in
    if (96 <=? payloadType) && (payloadType <=? 127) then
      if negb (one_of mediaFormat [""]) then
        match Split "/" mediaFormat with name :: _ => detectCodecFromEncodingName name | [] => guess end
      else if negb (one_of encodingName [""]) then detectCodecFromEncodingName encodingName
      else guess
    else guess.

(** The handler returns on any packet; a mapped or static payload type decides. *)
Lemma detect_total packet d :
  exists c, DetectFromRTPPacket packet d = Ret c /\
    forall pt payload, packet = Some (pt, payload) -> detectFromPayloadType pt d <> CodecUnknown -> c = detectFromPayloadType pt d.
Proof.
  unfold DetectFromRTPPacket. destruct packet as [[pt payload]|]; [|by eexists]. case_bool_decide as E; cbn [negb].
  2: { eexists. split; [reflexivity|]. by intros ? ? [= <- <-]. }
  assert (exists c, (if 0 <? len payload then detectFromPayload payload pt else Ret CodecUnknown) = Ret c) as (c & ->).
  { case_bool; [|by eexists]. unfold detectFromPayload. repeat (case_bool; [by eexists|]). case_bool; [|by eexists].
    destruct (idx_Ret payload 0) as (b0 & -> & _); [lia|]. rewrite bind_Ret. destruct (Z.leb_spec 2 (len payload)).
    - destruct (idx_Ret payload 1) as (b1 & -> & _); [lia|]. rewrite !bind_Ret. repeat case_bool; by eexists.
    - rewrite bind_Ret. repeat case_bool; by eexists. }
  eexists. split; [reflexivity|]. by intros ? ? [= <- <-] ?.
Qed.

(** ** Agreement with the codec package's detector *)

(** The codec type that stands for the codec package's name. *)
Definition types_of (t : string) : CodecType :=
  if one_of t [TypeH264] then CodecH264 else if one_of t [TypeHEVC] then CodecHEVC
  else if one_of t [TypeAV1] then CodecAV1 else CodecJPEGXS.
(** The encoding names both detectors know. *)
Definition common_name (name : string) : bool := one_of (ToUpper name) ["H264"; "H265"; "HEVC"; "AV1"; "JPEG-XS"; "JPEGXS"].

(** Session lines that neither opens a section nor describe a codec. *)
Definition quiet_line (l : string) : Prop :=
  let l := TrimSpace l in
  HasPrefix l "m=" = false /\ HasPrefix l "a=rtpmap:" = false /\ HasPrefix l "a=fmtp:" = false.

Lemma prefix_weaken l : HasPrefix l "m=" = false -> HasPrefix l "m=video" = false /\ HasPrefix l "m=audio" = false.
Proof.
  destruct l as [|c [|c' l]]; [done| |]; unfold HasPrefix; cbn [String.prefix]; destruct (ascii_dec "m" c); try done;
    destruct (ascii_dec "=" c'); try done. by destruct l.
Qed.
Lemma quiet_lines ls s : Forall quiet_line ls -> foldl session_line s ls = s.
Proof.
  induction 1 as [|l ls (Hm & Hr & Hf) Hls IH]; [done|]. cbn [foldl]. unfold session_line at 2.
  destruct (prefix_weaken _ Hm) as [-> ->]. by rewrite Hm, Hr, Hf.
Qed.

Section agree.
Context {F : Type} (zero : F) (ParseFloat : string -> F) (tenths : Z -> Z -> string).

(** The media line ends in the payload type. *)
Definition media_text (v : video) : Prop :=
  exists port proto, word port /\ every nonspace proto = true /\ proto <> EmptyString /\
    v_media v = " " +:+ (port +:+ String " " (proto +:+ String " " (decimal (v_pt v)))).

Lemma session_media s v e :
  video_ok v -> line_end e -> media_text v ->
  session_line s (("m=video" +:+ v_media v) +:+ e) = s <| st_video := true |> <| st_audio := false |> <| st_pt := v_pt v |>.
Proof.
  intros [[Htrim _] Hpt _ _ _ _ _] He (port & proto & Hport & Hp1 & Hp2 & Hm). unfold session_line.
  rewrite TrimSpace_blank by (done || (by destruct He as [-> | ->])). rewrite (HasPrefix_app "m=video"). unfold media_payload_type.
  rewrite Hm. change ("m=video" +:+ (" " +:+ ?x)) with ("m=video" +:+ String " " x).
  destruct (word_nonspace _ Hport) as [Hq1 Hq2]. destruct (decimal_nonspace (v_pt v) ltac:(lia)) as [Hd1 Hd2].
  rewrite (Fields_word "m=video"), Fields_word, Fields_word, Fields_last by done. cbn [drop first_number].
  destruct (decimal_spec (v_pt v) ltac:(lia)) as (_ & _ & ->). unfold u8. rewrite Z.mod_small by lia. done.
Qed.

(** Any other line, once trimmed. *)
Lemma session_attribute s l e k rest :
  TrimSpace (l +:+ e) = l -> l = ("a=" +:+ rest)%string -> k = [HasPrefix l "a=rtpmap:"; HasPrefix l "a=fmtp:"] ->
  session_line s (l +:+ e) =
    match k with
    | [a; b] => let s := if a && (st_video s || st_audio s) then read_rtpmap l s else s in if b : bool then read_fmtp l s else s
    | _ => s
    end.
Proof. intros Ht -> ->. unfold session_line. rewrite Ht. unfold HasPrefix at 1 2 3. cbn [String.prefix]. done. Qed.

Lemma for_current_pt v s : video_ok v -> st_pt s = v_pt v -> for_current (decimal (v_pt v)) s = true.
Proof.
  intros Hok Hs. pose proof (vo_pt _ Hok). unfold for_current. destruct (decimal_spec (v_pt v) ltac:(lia)) as (_ & _ & ->).
  unfold u8. rewrite Z.mod_small, Hs by lia. by rewrite Z.eqb_refl.
Qed.

Lemma session_rtpmap s v e c :
  video_ok v -> line_end e -> st_video s = true -> st_pt s = v_pt v ->
  detectCodecFromEncodingName (v_name v) = c -> c <> CodecUnknown ->
  session_line s (("a=rtpmap:" +:+ rtpmap_text v) +:+ e) =
    s <| st_codec := c |> <| st_map := <[v_pt v := c]> (st_map s) |> <| st_params := <["clock_rate" := v_clock v]> (st_params s) |>.
Proof.
  intros Hok He Hv Hs Hc Hne. pose proof Hok as [_ Hpt Hname Hclock _ _ _].
  rewrite (session_attribute _ _ _ [true; false] ("rtpmap:" +:+ rtpmap_text v)); [|by apply rtpmap_trims|done|by rewrite (HasPrefix_app "a=rtpmap:")].
  rewrite Hv. cbn [orb andb]. unfold read_rtpmap. rewrite (drop_string_app "a=rtpmap:"). unfold rtpmap_text.
  rewrite SplitN2_cut by (apply decimal_free; done || lia). rewrite for_current_pt by done.
  rewrite (Split_cut "/") by (by apply word_free). rewrite (Split_last "/") by (by apply word_free). rewrite Hc.
  rewrite bool_decide_eq_false_2 by done. cbn [negb]. by rewrite Hs.
Qed.

Lemma read_params ps params :
  ps <> [] -> Forall (fun kv => word kv.1 /\ word kv.2) ps ->
  foldl read_param params (Split ";" (Join ";" (map pair_text ps))) = foldl (fun m (kv : string * string) => <[kv.1 := kv.2]> m) params ps.
Proof.
  intros Hne Hps. rewrite Split_Join.
  - revert params. clear Hne. induction Hps as [|kv ps [Hk Hv] Hps IH]; intros params; cbn [map foldl]; [done|]. rewrite IH. f_equal.
    unfold read_param. rewrite pair_trims by done. unfold pair_text. by rewrite SplitN2_cut by (by apply word_free).
  - by destruct ps.
  - apply pairs_free. done.
Qed.

Lemma session_fmtp s v e :
  video_ok v -> line_end e -> st_pt s = v_pt v ->
  session_line s (("a=fmtp:" +:+ fmtp_text v) +:+ e) =
    s <| st_params := foldl (fun m (kv : string * string) => <[kv.1 := kv.2]> m) (st_params s) (v_params v) |>.
Proof.
  intros Hok He Hs. pose proof Hok as [_ Hpt _ _ [Hpne Hps] _ _].
  rewrite (session_attribute _ _ _ [false; true] ("fmtp:" +:+ fmtp_text v)); [|by apply fmtp_trims|done|by rewrite (HasPrefix_app "a=fmtp:")].
  cbn [andb]. unfold read_fmtp. rewrite (drop_string_app "a=fmtp:"). unfold fmtp_text.
  rewrite SplitN2_cut by (apply decimal_free; done || lia). rewrite for_current_pt by done. by rewrite read_params.
Qed.

(** The parameters the codec package keeps are those of the line. *)
Lemma parse_param_params t k v (info : Info F) : Parameters (parse_param tenths t k v info) = <[k := v]> (Parameters info).
Proof.
  unfold parse_param. cbn [Parameters upd].
  assert (forall l, one_of k [l] = true -> l = k) as Hk by (intros l H%bool_decide_eq_true; by apply list_elem_of_singleton in H).
  repeat case_match; unfold parseH264Params, parseHEVCParams, parseAV1Params, parseJPEGXSParams; repeat case_match; cbn [Parameters upd]; try done;
    match goal with E : one_of k [?l] = true |- context [<[?l := v]>] => rewrite <- (Hk _ E); by rewrite insert_insert_eq end.
Qed.
Lemma described_params t v :
  Parameters (described zero ParseFloat tenths t v) =
    foldl (fun m (kv : string * string) => <[kv.1 := kv.2]> m) {["clock_rate" := v_clock v]} (v_params v).
Proof.
  unfold described. cbn [Parameters upd].
  assert (forall ps (info : Info F), Parameters (foldl (fun info kv => parse_param tenths t kv.1 kv.2 info) info ps) =
    foldl (fun m (kv : string * string) => <[kv.1 := kv.2]> m) (Parameters info) ps) as ->; [|done].
  induction ps as [|kv ps IH]; intros info; cbn [foldl]; [done|]. by rewrite IH, parse_param_params.
Qed.

Lemma common_codec name t :
  common_name name = true -> TrimSpace name = name -> rtpmap_codec (ToUpper name) = Some t ->
  detectCodecFromEncodingName name = types_of t /\ types_of t <> CodecUnknown.
Proof.
  unfold common_name, detectCodecFromEncodingName. intros H Ht. rewrite Ht. unfold one_of at 1 in H. apply bool_decide_eq_true in H.
  rewrite !elem_of_cons in H. destruct H as [-> |[-> |[-> |[-> |[-> |[-> |[]%not_elem_of_nil]]]]]]; vm_compute; by intros [= <-].
Qed.

(** the two detectors agree.  On a description whose only section is a video
    section, its media line naming the payload type and its [rtpmap] a codec name
    both know, the detector of the ingestion layer finds the same codec, payload
    type and parameters as the codec package's. *)
Theorem detectors_agree pre v t e d d' :
  Forall other_line pre -> Forall quiet_line pre -> video_ok v -> line_end e -> media_text v ->
  rtpmap_codec (ToUpper (v_name v)) = Some t -> common_name (v_name v) = true ->
  let sdp := Join (char_of 10) (pre ++ map (fun l => l +:+ e) (video_lines v)) in
  exists info, CodecDetect.DetectFromSDP zero ParseFloat tenths sdp d = (<[v_pt v := t]> d, (t, Val info)) /\
    DetectFromSDP sdp d' = (<[v_pt v := types_of t]> d', (types_of t, Parameters info)).
Proof.
  intros Hpre Hquiet Hok He Hm Ht Hname. cbv zeta. exists (described zero ParseFloat tenths t v). split.
  { unfold CodecDetect.DetectFromSDP. pose proof (lines_free pre v [] e Hpre (Forall_nil_2 _) Hok He) as Hl. rewrite app_nil_r in Hl. rewrite Hl.
    destruct (described_state zero ParseFloat tenths pre v t e d Hpre Hok He Ht) as (info & -> & <-). cbn [sdp_codec sdp_map sdp_info].
    destruct (rtpmap_codec_valid _ _ Ht) as [_ Hne]. by rewrite one_of_not by set_solver. }
  destruct (common_codec _ _ Hname (word_trimmed _ (vo_name _ Hok)) Ht) as [Hc Hne].
  unfold DetectFromSDP. pose proof (lines_free pre v [] e Hpre (Forall_nil_2 _) Hok He) as Hl. rewrite app_nil_r in Hl. rewrite Hl.
  rewrite foldl_app, (quiet_lines pre) by done. cbn [video_lines map foldl].
  rewrite session_media by done. rewrite (session_rtpmap _ v e _) by done. rewrite session_fmtp by done.
  rewrite (session_attribute _ ("a=framesize:" +:+ size_text v) e [false; false] ("framesize:" +:+ size_text v)); [|by apply size_trims|done|done].
  rewrite (session_attribute _ ("a=framerate:" +:+ rate_text v) e [false; false] ("framerate:" +:+ rate_text v)); [|by apply rate_trims|done|done].
  by rewrite described_params.
Qed.
End agree.

Definition plain_video : video :=
  mkVideo " 9 RTP/AVP 97" 97 "H265" "90000" [("profile-id", "1")]%string 640 480 "25".
Lemma detectors_agree_witness :
  exists info, CodecDetect.DetectFromSDP EmptyString id (fun n d => decimal (n / d))
      (Join (char_of 10) (["v=0"; "s=-"]%string ++ map (fun l => l +:+ EmptyString) (video_lines plain_video))) ∅ =
      ({[97 := TypeHEVC]}, (TypeHEVC, Val info)) /\
    DetectFromSDP (Join (char_of 10) (["v=0"; "s=-"]%string ++ map (fun l => l +:+ EmptyString) (video_lines plain_video))) ∅ =
      ({[97 := CodecHEVC]}, (CodecHEVC, Parameters info)).
Proof.
  destruct (detectors_agree EmptyString id (fun n d => decimal (n / d)) ["v=0"; "s=-"]%string plain_video TypeHEVC EmptyString ∅ ∅) as (info & H1 & H2).
  - repeat apply Forall_cons_2; try apply Forall_nil_2; unfold other_line; by vm_compute.
  - repeat apply Forall_cons_2; try apply Forall_nil_2; unfold quiet_line; by vm_compute.
  - constructor; try (by vm_compute); repeat split; try (by vm_compute); try done.
    repeat apply Forall_cons_2; try apply Forall_nil_2; by repeat split.
  - by left.
  - exists "9"%string, "RTP/AVP"%string. by repeat split.
  - by vm_compute.
  - by vm_compute.
  - exists info. split; [exact H1|exact H2].
Defined.

(** Names that only one of them knows. *)
Lemma detectors_differ :
  rtpmap_codec "H.264" = Some TypeH264 /\ detectCodecFromEncodingName "H.264" = CodecUnknown /\
  rtpmap_codec "JXSV" = Some TypeJPEGXS /\ detectCodecFromEncodingName "JXSV" = CodecUnknown /\
  rtpmap_codec "AVC" = None /\ detectCodecFromEncodingName "AVC" = CodecH264.
Proof. by vm_compute. Qed.
