(* ===== verification/ParamSets.v ===== *)
(** * Parsing H.264 parameter sets and slice headers (types/h264_parser.go,
    types/parameter_validation.go, types/enhanced_parameter_validation.go,
    types/nal_header_fix.go)

    The parameter-set context has parsers of its own.  A set may come with or
    without its NAL header; the low five bits of the first byte decide.  The
    fields behind the set's id are optional: the parser keeps what it has read
    when it meets one it cannot use. *)

From stdpp Require Import strings.
From S2P Require Import Prelude Returns BitSyntax.
From S2P Require BitReader TypesBits Rbsp SpsH264.
Import BitReader(BitReader, bit_error, wf, remaining, bits_of, bytePos).
Import TypesBits(reader, NewBitReader, ReadBit, ReadBits, ReadUE, ReadSE, item, IBits, IUE, ISE, item_ok).
Import Rbsp(rbsp_error, ExtractRBSPFromNALUnit, ExtractRBSPFromPayload).

(** ** Data *)

Record ParameterSet := mkSet {
  ID : Z; Data : list Z; ParsedAt : Z; Size : Z; Valid : bool; ErrorReason : string;
  ProfileIDC : option Z; ConstraintFlags : option Z; LevelIDC : option Z; Log2MaxFrameNumMinus4 : option Z;
  Width : option Z; Height : option Z
}.
#[export] Instance eta_ParameterSet : Eta ParameterSet := fun s =>
  mkSet (ID s) (Data s) (ParsedAt s) (Size s) (Valid s) (ErrorReason s) (ProfileIDC s) (ConstraintFlags s) (LevelIDC s)
    (Log2MaxFrameNumMinus4 s) (Width s) (Height s).

Record PPSContext := mkPPS { pps_set : ParameterSet; ReferencedSPSID : Z }.
#[export] Instance eta_PPSContext : Eta PPSContext := fun p => mkPPS (pps_set p) (ReferencedSPSID p).

Record FrameDecodingRequirements := mkReq {
  RequiredPPSID : Z; RequiredSPSID : Z; SliceType : Z; IsIDR : bool; FrameNum : Z; HasFrameNum : bool
}.

(** A set of which nothing but the id is known. *)
Definition new_set (id : Z) (data : list Z) (now : Z) : ParameterSet :=
  mkSet id data now (len data) true EmptyString None None None None None None.

Inductive ps_error : Type :=
| SetTooShort (n : Z)
| ExtractFailed (e : rbsp_error)
| ReadFailed (field : string) (e : bit_error)
| OutOfRange (field : string) (v : Z)
| CorruptPattern
| WrongNALType (t header : Z)
| ReservedNALType (t : Z) (e : ps_error)
| UsesFMO (groups map_type : Z)
| UnknownPPS (id : Z).

Abbreviation parser A := (method BitReader ps_error A).
Definition rd {A} (f : string) (m : reader A) : parser A := map_err (ReadFailed f) m.

Definition run {A} (m : parser A) (rbspData : list Z) : res (exn ps_error A) :=
  '(_, r) ← m (NewBitReader rbspData); Ret r.

(** [rbspData, err := ExtractRBSPFrom...; if err != nil { return }]: with or
    without the NAL header. *)
Definition with_rbsp {A} (header : bool) (data : list Z) (f : list Z -> res (exn ps_error A)) : res (exn ps_error A) :=
  match (if header then ExtractRBSPFromNALUnit data else ExtractRBSPFromPayload data) with
  | Err e => Ret (Err (ExtractFailed e))
  | Val rbspData => f rbspData
  end.

Definition nal_type (b : Z) : Z := Z.land b 0x1F.

(** ** NAL headers *)

Definition CleanNALHeader (header : Z) : Z := Z.land header 0x7F.
Definition CleanNALUnitData (data : list Z) : list Z :=
  match data with [] => data | b :: rest => CleanNALHeader b :: rest end.
Definition IsValidNALHeader (header : Z) : bool :=
  if negb (Z.land header 0x80 =? 0) then false else if nal_type header =? 0 then false else true.

(** ** Sequence parameter sets *)

(** What [parseResolutionFromSPS] has stored, and its two local sizes. *)
Record stored := mkStored { st_log2 : option Z; st_width : Z; st_height : Z }.

(** [if err != nil { return }]: what has been stored stays. *)
Definition or_return {A} (st : stored) (m : reader A) : method BitReader stored A := map_err (fun _ => st) m.
Definition return_if (c : bool) (st : stored) : method BitReader stored unit := if c then fail st else mret tt.

Fixpoint skip_loop (n : nat) (lastScale nextScale : Z) : reader unit :=
  match n with
  | O => mret tt
  | S n =>
      nextScale ← (if negb (nextScale =? 0)
                   then deltaScale ← ReadSE; mret (Z.rem (i32 (i32 (lastScale + deltaScale) + 256)) 256)
                   else mret nextScale);
      skip_loop n (if negb (nextScale =? 0) then nextScale else lastScale) nextScale
  end.
Definition skipScalingList (index : Z) : reader unit :=
  skip_loop (if 6 <=? index then 64%nat else 16%nat) 8 8.

Fixpoint matrices_loop (n : nat) (i : Z) (st : stored) : method BitReader stored unit :=
  match n with
  | O => mret tt
  | S n =>
      present ← or_return st ReadBit;
      _ ← (if present =? 1 then or_return st (skipScalingList i) else mret tt);
      matrices_loop n (i + 1) st
  end.

Definition high_profile (profileIDC : Z) : bool :=
  (profileIDC =? 100) || (profileIDC =? 110) || (profileIDC =? 122) || (profileIDC =? 244) || (profileIDC =? 44)
  || (profileIDC =? 83) || (profileIDC =? 86) || (profileIDC =? 118) || (profileIDC =? 128) || (profileIDC =? 138).

(** The fields of the high profiles; the result is [chromaArrayType]. *)
Definition high_fields (st : stored) : method BitReader stored Z :=
  chromaFormatIDC ← or_return st ReadUE;
  _ ← return_if (3 <? chromaFormatIDC) st;
  separate ← (if chromaFormatIDC =? 3 then or_return st ReadBit else mret 0);
  _ ← or_return st ReadUE;
  _ ← or_return st ReadUE;
  _ ← or_return st ReadBit;
  matrix ← or_return st ReadBit;
  _ ← (if matrix =? 1 then matrices_loop (if chromaFormatIDC =? 3 then 12%nat else 8%nat) 0 st else mret tt);
  mret (if (chromaFormatIDC =? 3) && (separate =? 1) then 0 else chromaFormatIDC).

Fixpoint offsets_loop (n : nat) (st : stored) : method BitReader stored unit :=
  match n with
  | O => mret tt
  | S n => _ ← or_return st ReadSE; offsets_loop n st
  end.

Definition poc_fields (pocType : Z) (st : stored) : method BitReader stored unit :=
  if pocType =? 0 then
    lsb ← or_return st ReadUE;
    return_if (12 <? lsb) st
  else if pocType =? 1 then
    _ ← or_return st ReadBit;
    _ ← or_return st ReadSE;
    _ ← or_return st ReadSE;
    numRefFrames ← or_return st ReadUE;
    _ ← return_if (255 <? numRefFrames) st;
    offsets_loop (Z.to_nat numRefFrames) st
  else mret tt.

(** [subWidthC], [subHeightC] *)
Definition crop_units (chromaArrayType : Z) : Z * Z :=
  if chromaArrayType =? 0 then (1, 1) else if chromaArrayType =? 1 then (2, 2) else if chromaArrayType =? 2 then (2, 1)
  else if chromaArrayType =? 3 then (1, 1) else (2, 2).

Definition crop_fields (chromaArrayType frameMBSOnlyFlag : Z) (st : stored) : method BitReader stored stored :=
  cropLeft ← or_return st ReadUE;
  cropRight ← or_return st ReadUE;
  cropTop ← or_return st ReadUE;
  cropBottom ← or_return st ReadUE;
  let '(cropUnitX, subHeightC) := crop_units chromaArrayType in
  let cropUnitY := u32 (subHeightC * u32 (2 - frameMBSOnlyFlag)) in
  let width := st_width st in
  let height := st_height st in
  if (u32 width <=? u32 (cropLeft * cropUnitX)) || (u32 width <=? u32 (cropRight * cropUnitX))
     || (u32 height <=? u32 (cropTop * cropUnitY)) || (u32 height <=? u32 (cropBottom * cropUnitY))
  then fail st
  else mret (mkStored (st_log2 st) (i64 (width - u32 (cropLeft * cropUnitX) - u32 (cropRight * cropUnitX)))
               (i64 (height - u32 (cropTop * cropUnitY) - u32 (cropBottom * cropUnitY)))).

Definition resolution_fields (profileIDC : Z) : method BitReader stored stored :=
  let st := mkStored None 0 0 in
  chromaArrayType ← (if high_profile profileIDC then high_fields st else mret 1);
  log2MaxFrameNumMinus4 ← or_return st ReadUE;
  _ ← return_if (12 <? log2MaxFrameNumMinus4) st;
  let st := mkStored (Some (u8 log2MaxFrameNumMinus4)) 0 0 in
  pocType ← or_return st ReadUE;
  _ ← return_if (2 <? pocType) st;
  _ ← poc_fields pocType st;
  _ ← or_return st ReadUE;
  _ ← or_return st ReadBit;
  widthInMBs ← or_return st ReadUE;
  _ ← return_if (511 <? widthInMBs) st;
  heightInMapUnits ← or_return st ReadUE;
  _ ← return_if (511 <? heightInMapUnits) st;
  let width := u32 (widthInMBs + 1) * 16 in
  let height := u32 (heightInMapUnits + 1) * 16 in
  let st := mkStored (st_log2 st) width height in
  _ ← return_if ((width <? 16) || (height <? 16) || (8192 <? width) || (8192 <? height)) st;
  frameMBSOnlyFlag ← or_return st ReadBit;
  st ← (if frameMBSOnlyFlag =? 0 then
          let st := mkStored (st_log2 st) width (height * 2) in
          _ ← or_return st ReadBit;
          mret st
        else mret st);
  _ ← or_return st ReadBit;
  frameCroppingFlag ← or_return st ReadBit;
  if frameCroppingFlag =? 1 then crop_fields chromaArrayType frameMBSOnlyFlag st else mret st.

(** The deferred store of the size. *)
Definition parseResolutionFromSPS (profileIDC : Z) (br : BitReader) (sps : ParameterSet) : res ParameterSet :=
  '(_, r) ← resolution_fields profileIDC br;
  let st := match r with Val st => st | Err st => st end in
  let sps := sps <| Log2MaxFrameNumMinus4 := st_log2 st |> in
  Ret (if (0 <? st_width st) && (0 <? st_height st)
       then sps <| Width := Some (st_width st) |> <| Height := Some (st_height st) |> else sps).

Definition sps_ids : parser (Z * Z * Z * Z) :=
  profileIDC ← rd "profile_idc" (ReadBits 8);
  constraintFlags ← rd "constraint flags" (ReadBits 8);
  levelIDC ← rd "level_idc" (ReadBits 8);
  spsID ← rd "sps_id" ReadUE;
  if 31 <? spsID then fail (OutOfRange "sps_id" spsID) else mret (profileIDC, constraintFlags, levelIDC, spsID).

(** [ParsedAt] is the context's [lastUpdated]. *)
Definition parseSPS (lastUpdated : Z) (data : list Z) : res (exn ps_error ParameterSet) :=
  if len data <? 2 then Ret (Err (SetTooShort (len data)))
  else
    b ← idx data 0;
    let nalType := nal_type b in
    with_rbsp ((nalType =? 7) || (nalType =? 15)) data (fun rbspData =>
      '(br, r) ← sps_ids (NewBitReader rbspData);
      match r with
      | Err e => Ret (Err e)
      | Val (profileIDC, constraintFlags, levelIDC, spsID) =>
          let sps := (new_set (u8 spsID) data lastUpdated) <| ProfileIDC := Some (u8 profileIDC) |>
                       <| ConstraintFlags := Some (u8 constraintFlags) |> <| LevelIDC := Some (u8 levelIDC) |> in
          sps ← parseResolutionFromSPS (u8 profileIDC) br sps;
          Ret (Val sps)
      end).

(** ** Picture parameter sets and slice headers *)

Definition pps_ids : parser (Z * Z) :=
  ppsID ← rd "pps_id" ReadUE;
  if 255 <? ppsID then fail (OutOfRange "pps_id" ppsID)
  else
    spsID ← rd "sps_id" ReadUE;
    if 31 <? spsID then fail (OutOfRange "sps_id" spsID) else mret (ppsID, spsID).

Definition parsePPS (lastUpdated : Z) (data : list Z) : res (exn ps_error PPSContext) :=
  if len data <? 2 then Ret (Err (SetTooShort (len data)))
  else
    b ← idx data 0;
    with_rbsp (nal_type b =? 8) data (fun rbspData =>
      if len rbspData <? 1 then Ret (Err (SetTooShort (len rbspData)))
      else
        r ← run pps_ids rbspData;
        Ret (match r with
             | Err e => Err e
             | Val (ppsID, spsID) => Val (mkPPS (new_set (u8 ppsID) data lastUpdated) (u8 spsID))
             end)).

Definition slice_ids : parser (Z * Z) :=
  _ ← rd "first_mb_in_slice" ReadUE;
  sliceType ← rd "slice_type" ReadUE;
  if 9 <? sliceType then fail (OutOfRange "slice_type" sliceType)
  else
    ppsID ← rd "pps_id" ReadUE;
    if 255 <? ppsID then fail (OutOfRange "pps_id" ppsID) else mret (sliceType, ppsID).

Definition parseSliceHeader (spsMap : gmap Z ParameterSet) (ppsMap : gmap Z PPSContext) (data : list Z) (isIDR : bool)
    : res (exn ps_error FrameDecodingRequirements) :=
  if len data <? 2 then Ret (Err (SetTooShort (len data)))
  else
    b ← idx data 0;
    let nalType := nal_type b in
    with_rbsp (((1 <=? nalType) && (nalType <=? 5)) || ((5 <? nalType) && (nalType <=? 23))) data (fun rbspData =>
      '(br, r) ← slice_ids (NewBitReader rbspData);
      match r with
      | Err e => Ret (Err e)
      | Val (sliceType, ppsID) =>
          match ppsMap !! u8 ppsID with
          | None => Ret (Err (UnknownPPS ppsID))
          | Some pps =>
              let req num has := mkReq (u8 ppsID) (ReferencedSPSID pps) (u8 sliceType) isIDR num has in
              match spsMap !! ReferencedSPSID pps ≫= Log2MaxFrameNumMinus4 with
              | None => Ret (Val (req 0 false))
              | Some l =>
                  '(_, r) ← ReadBits (l + 4) br;
                  Ret (Val (match r with Val frameNum => req frameNum true | Err _ => req 0 false end))
              end
          end
      end).

(** ** Validation *)

Definition parsePPSIDs (rbspData : list Z) : res (exn ps_error (Z * Z)) :=
  if len rbspData <? 1 then Ret (Err (SetTooShort (len rbspData)))
  else
    r ← run pps_ids rbspData;
    Ret (match r with Err e => Err e | Val (ppsID, spsID) => Val (u8 ppsID, u8 spsID) end).

Definition validateRawPPSData (data : list Z) : res (exn ps_error (Z * Z)) :=
  if len data <? 1 then Ret (Err (SetTooShort (len data))) else with_rbsp false data parsePPSIDs.

Definition ValidatePPSData (data : list Z) : res (exn ps_error (Z * Z)) :=
  if len data <? 2 then Ret (Err (SetTooShort (len data)))
  else
    nalHeader ← idx data 0;
    let nalType := nal_type nalHeader in
    let forbiddenBit := negb (Z.land nalHeader 0x80 =? 0) in
    if nalType =? 8 then with_rbsp true data parsePPSIDs
    else
      let isValidNALHeader := negb forbiddenBit && (0 <? nalType) && (nalType <=? 31) in
      if (10 <=? nalType) && (nalType <=? 23) then
        r ← validateRawPPSData data;
        Ret (match r with Val ids => Val ids | Err e => Err (ReservedNALType nalType e) end)
      else if (isValidNALHeader && negb (nalType =? 8) && negb (nalType =? 40)) && existsb (Z.eqb nalType) [1; 5; 6; 7; 9] then
        Ret (Err (WrongNALType nalType nalHeader))
      else
        r ← validateRawPPSData data;
        Ret (match r with
             | Val ids => Val ids
             | Err e => if isValidNALHeader && negb (nalType =? 8) && negb (nalType =? 40)
                        then Err (WrongNALType nalType nalHeader) else Err e
             end).

Definition parseSPSID (rbspData : list Z) : res (exn ps_error Z) :=
  if len rbspData <? 4 then Ret (Err (SetTooShort (len rbspData)))
  else
    b0 ← idx rbspData 0;
    b1 ← idx rbspData 1;
    if (b0 =? 0x27) && (b1 =? 0x4f) then Ret (Err CorruptPattern)
    else
      r ← run sps_ids rbspData;
      Ret (match r with Err e => Err e | Val (_, _, _, spsID) => Val (u8 spsID) end).

Definition parseSPSIDFromNALUnit (data : list Z) : res (exn ps_error Z) :=
  if len data <? 2 then Ret (Err (SetTooShort (len data))) else with_rbsp true data parseSPSID.
Definition parseSPSIDFromRawData (data : list Z) : res (exn ps_error Z) :=
  if len data <? 3 then Ret (Err (SetTooShort (len data))) else with_rbsp false data parseSPSID.

Definition commonProfiles : list Z := [66; 77; 88; 100; 110; 122; 244].

Definition ValidateSPSData (data : list Z) : res (exn ps_error Z) :=
  if len data <? 4 then Ret (Err (SetTooShort (len data)))
  else
    nalHeader ← idx data 0;
    let nalType := nal_type nalHeader in
    let isLikelyProfileIDC := existsb (Z.eqb nalHeader) commonProfiles in
    if isLikelyProfileIDC && negb (nalType =? 7) && negb (nalType =? 15) then parseSPSIDFromRawData data
    else if (nalType =? 7) || (nalType =? 15) then parseSPSIDFromNALUnit data
    else
      r ← parseSPSIDFromRawData data;
      Ret (match r with
           | Val spsID => Val spsID
           | Err e =>
               if (Z.land nalHeader 0x80 =? 0) && (0 <? nalType) && (nalType <=? 31) && negb (nalType =? 7) && negb (nalType =? 15)
               then Err (WrongNALType nalType nalHeader) else Err e
           end).

(** [switch expectedType { case 7: ...; case 8: ... }] *)
Definition validate_as (expectedType : Z) (data : list Z) : res (exn ps_error unit) :=
  if expectedType =? 7 then
    r ← ValidateSPSData data; Ret (match r with Val _ => Val tt | Err e => Err e end)
  else if expectedType =? 8 then
    r ← ValidatePPSData data; Ret (match r with Val _ => Val tt | Err e => Err e end)
  else Ret (Val tt).

Definition ValidateAndFixNALUnit (data : list Z) (expectedType : Z) : res (exn ps_error (list Z)) :=
  if len data =? 0 then Ret (Err (SetTooShort 0))
  else
    nalHeader ← idx data 0;
    let nalType := nal_type nalHeader in
    if nalType =? expectedType then
      r ← validate_as expectedType data;
      Ret (match r with Val _ => Val data | Err e => Err e end)
    else
      let forbiddenBit := negb (Z.land nalHeader 0x80 =? 0) in
      let shouldTryFix :=
        if expectedType =? 7 then existsb (Z.eqb nalHeader) commonProfiles
        else if expectedType =? 8 then forbiddenBit || (23 <? nalType) || (nalType =? 0)
        else false in
      if shouldTryFix then
        let fixed := Z.lor 0x60 expectedType :: data in
        r ← validate_as expectedType fixed;
        Ret (match r with Val _ => Val fixed | Err e => Err e end)
      else Ret (Err (WrongNALType nalType nalHeader)).

(** ** Checks for the decoder *)

Definition sps_checks : parser unit :=
  '(profileIDC, _, _, spsID) ← sps_ids;
  let rest : parser unit :=
    log2MaxFrameNum ← rd "log2_max_frame_num_minus4" ReadUE;
    if 12 <? log2MaxFrameNum then fail (OutOfRange "log2_max_frame_num_minus4" log2MaxFrameNum)
    else
      pocType ← rd "pic_order_cnt_type" ReadUE;
      if 2 <? pocType then fail (OutOfRange "pic_order_cnt_type" pocType) else mret tt in
  if high_profile profileIDC then
    chromaFormatIDC ← rd "chroma_format_idc" ReadUE;
    if 3 <? chromaFormatIDC then fail (OutOfRange "chroma_format_idc" chromaFormatIDC)
    else
      _ ← (if chromaFormatIDC =? 3 then rd "separate_colour_plane_flag" ReadBit else mret 0);
      bitDepthLuma ← rd "bit_depth_luma_minus8" ReadUE;
      if 6 <? bitDepthLuma then fail (OutOfRange "bit_depth_luma_minus8" bitDepthLuma)
      else
        bitDepthChroma ← rd "bit_depth_chroma_minus8" ReadUE;
        if 6 <? bitDepthChroma then fail (OutOfRange "bit_depth_chroma_minus8" bitDepthChroma)
        else
          _ ← rd "qpprime_y_zero_transform_bypass_flag" ReadBit;
          scalingMatrixPresent ← rd "seq_scaling_matrix_present_flag" ReadBit;
          if scalingMatrixPresent =? 1 then mret tt else rest
  else rest.

(** [data\[0\]] is read before the length is tested. *)
Definition EnhancedSPSValidation (data : list Z) : res (exn ps_error unit) :=
  b ← idx data 0;
  let nalType := nal_type b in
  with_rbsp ((0 <? len data) && ((nalType =? 7) || (nalType =? 15))) data (run sps_checks).

Definition pps_checks : parser unit :=
  '(ppsID, spsID) ← pps_ids;
  _ ← rd "entropy_coding_mode_flag" ReadBit;
  _ ← rd "bottom_field_pic_order_in_frame_present_flag" ReadBit;
  numSliceGroupsMinus1 ← rd "num_slice_groups_minus1" ReadUE;
  if 0 <? numSliceGroupsMinus1 then
    if 7 <? numSliceGroupsMinus1 then fail (OutOfRange "num_slice_groups_minus1" numSliceGroupsMinus1)
    else
      sliceGroupMapType ← rd "slice_group_map_type" ReadUE;
      if 6 <? sliceGroupMapType then fail (OutOfRange "slice_group_map_type" sliceGroupMapType)
      else fail (UsesFMO (u32 (numSliceGroupsMinus1 + 1)) sliceGroupMapType)
  else mret tt.

Definition EnhancedPPSValidation (data : list Z) : res (exn ps_error unit) :=
  b ← idx data 0;
  with_rbsp ((0 <? len data) && (nal_type b =? 8)) data (run pps_checks).

(** ** The readers over bit syntax *)

Lemma safe_agree {A} (m m' : reader A) : (forall br, wf br -> m' br = m br) -> safe m -> safe m'.
Proof.
  intros Ha Hm br Hwf. destruct (Hm br Hwf) as (br' & r & E & Hwf' & Hv). exists br', r. rewrite Ha by done.
  split; [done|]. split; [done|]. intros a Hr br2 x Hw2 Hr2. rewrite Ha by done. by eapply Hv.
Qed.
Lemma tsafe_bit : safe ReadBit.
Proof. exact (safe_agree _ _ TypesBits.ReadBit_agree safe_bit). Qed.
Lemma tsafe_bits n : safe (ReadBits n).
Proof. exact (safe_agree _ _ (TypesBits.ReadBits_agree n) (safe_bits n)). Qed.
Lemma tsafe_ue : safe ReadUE.
Proof. exact (safe_agree _ _ TypesBits.ReadUE_agree safe_ue). Qed.
Lemma tsafe_se : safe ReadSE.
Proof. exact (safe_agree _ _ TypesBits.ReadSE_agree safe_se). Qed.

Lemma tparses_bit v : parses ReadBit [IBits v 1] v.
Proof. eapply agree_parses, (parses_bit v). intros. by rewrite TypesBits.ReadBit_agree. Qed.
Lemma tparses_bits v n : parses (ReadBits n) [IBits v n] v.
Proof. exact (parses_types (IBits v n)). Qed.
Lemma tparses_ue v : parses ReadUE [IUE v] v.
Proof. exact (parses_types (IUE v)). Qed.
Lemma tparses_se z : parses ReadSE [ISE z] z.
Proof. exact (parses_types (ISE z)). Qed.
Lemma tparses_flag b : parses ReadBit [SpsH264.f1 b] (SpsH264.boolToInt b).
Proof. apply tparses_bit. Qed.

Lemma ps_parses_rd {A} f (m : reader A) l a : parses m l a -> parses (rd f m) l a.
Proof. apply parses_map_err. Qed.
Lemma parses_or_return {A} st (m : reader A) l a : parses m l a -> parses (or_return st m) l a.
Proof. apply parses_map_err. Qed.
Lemma ps_safe_rd {A} f (m : reader A) : safe m -> safe (rd f m).
Proof. apply safe_map_err. Qed.
Lemma safe_or_return {A} st (m : reader A) : safe m -> safe (or_return st m).
Proof. apply safe_map_err. Qed.
Lemma safe_return_if c st : safe (return_if c st).
Proof. unfold return_if. destruct c; [apply safe_fail|apply safe_ret]. Qed.
#[export] Hint Resolve tsafe_bit tsafe_bits tsafe_ue tsafe_se ps_safe_rd safe_or_return safe_return_if : parse.
#[export] Hint Resolve tparses_bit tparses_bits tparses_ue tparses_se tparses_flag ps_parses_rd parses_or_return : parse.

(** The scaling lists are skipped as [SpsH264] skips them. *)
Lemma ReadSE_wf br br' r : wf br -> BitReader.ReadSE br = Ret (br', r) -> wf br'.
Proof. intros Hwf E. destruct (safe_se br Hwf) as (br1 & r1 & E1 & Hwf1 & _). rewrite E in E1. by injection E1 as -> _. Qed.
Lemma skip_agree n a b br : wf br -> skip_loop n a b br = SpsH264.scaling_loop n a b br.
Proof.
  revert a b br. induction n as [|n IH]; intros a b br Hwf; [done|]. cbn [skip_loop SpsH264.scaling_loop].
  apply TypesBits.bind_agree.
  - case_bool; [|done]. apply TypesBits.bind_agree; [by apply TypesBits.ReadSE_agree|done].
  - intros c br' Hc. apply IH. destruct (negb (b =? 0)); [|by injection Hc as <- _].
    unfold mbind, method_bind in Hc. destruct (BitReader.ReadSE br) as [[br1 [d|e]]| |] eqn:E; try done.
    injection Hc as <- _. by eapply ReadSE_wf.
Qed.

Lemma ps_safe_skip n a b : safe (skip_loop n a b).
Proof. apply (safe_agree (SpsH264.scaling_loop n a b)); [apply skip_agree|apply SpsH264.safe_scaling]. Qed.
#[export] Hint Resolve ps_safe_skip : parse.

(** ** The parsers return *)

Lemma ps_safe_matrices n i st : safe (matrices_loop n i st).
Proof. revert i. induction n as [|n IH]; intros i; cbn [matrices_loop]; unfold skipScalingList; safe_steps. Qed.
Lemma ps_safe_offsets n st : safe (offsets_loop n st).
Proof. induction n as [|n IH]; cbn [offsets_loop]; safe_steps. Qed.
#[export] Hint Resolve ps_safe_matrices ps_safe_offsets : parse.
Lemma safe_resolution p : safe (resolution_fields p).
Proof. unfold resolution_fields, high_fields, poc_fields, crop_fields. safe_steps. Qed.
Lemma safe_sps_ids : safe sps_ids.
Proof. unfold sps_ids. safe_steps. Qed.
Lemma safe_pps_ids : safe pps_ids.
Proof. unfold pps_ids. safe_steps. Qed.
Lemma safe_slice_ids : safe slice_ids.
Proof. unfold slice_ids. safe_steps. Qed.
#[export] Hint Resolve safe_sps_ids safe_pps_ids safe_slice_ids : parse.
Lemma safe_sps_checks : safe sps_checks.
Proof. unfold sps_checks. safe_steps. Qed.
Lemma safe_pps_checks : safe pps_checks.
Proof. unfold pps_checks. safe_steps. Qed.

Lemma safe_run {A} (m : parser A) d : safe m -> bytes d -> exists br r, m (NewBitReader d) = Ret (br, r) /\ wf br.
Proof. intros Hm Hd. destruct (Hm (NewBitReader d) (wf_new d Hd)) as (br & r & E & Hwf & _). eauto. Qed.
Lemma run_returns {A} (m : parser A) d : safe m -> bytes d -> returns (run m d) (fun _ => True).
Proof. intros Hm Hd. unfold run. destruct (safe_run m d Hm Hd) as (br & r & -> & _). rewrite bind_Ret. by apply returns_Ret. Qed.

Lemma remove_loop_bytes zc d : bytes d -> bytes (Rbsp.remove_loop zc d).
Proof.
  intros Hd. revert zc. induction Hd as [|b d Hb Hd IH]; intros zc; cbn [Rbsp.remove_loop]; [done|].
  destruct (_ && _); [|by constructor]. destruct d as [|n d]; [apply IH|]. case_bool; [apply IH|by constructor].
Qed.
Lemma with_rbsp_returns {A} h d (f : list Z -> res (exn ps_error A)) (P : exn ps_error A -> Prop) :
  bytes d -> (forall e, P (Err e)) -> (forall c, bytes c -> returns (f c) P) -> returns (with_rbsp h d f) P.
Proof.
  intros Hd He Hf. unfold with_rbsp, ExtractRBSPFromNALUnit, ExtractRBSPFromPayload, Rbsp.RemoveEmulationPreventionBytes.
  destruct h; repeat case_bool; try (by apply returns_Ret); apply Hf; auto using remove_loop_bytes, bytes_dropZ; constructor.
Qed.

(** ** Parameter sets of the standard's syntax *)

(** The fields behind the id. *)
Definition tail_items (s : SpsH264.H264SPS) (x : SpsH264.sps_lists) : list item := drop 4 (SpsH264.h264_items s x).

(** The values the parser accepts. *)
Definition h264_limits (s : SpsH264.H264SPS) : Prop :=
  SpsH264.SeqParameterSetId s <= 31 /\ SpsH264.ChromaFormatIdc s <= 3 /\ SpsH264.Log2MaxFrameNumMinus4 s <= 12 /\
  SpsH264.PicOrderCntType s <= 2 /\ (SpsH264.PicOrderCntType s = 0 -> SpsH264.Log2MaxPicOrderCntLsbMinus4 s <= 12) /\
  (SpsH264.PicOrderCntType s = 1 -> SpsH264.NumRefFramesInPicOrderCntCycle s <= 255) /\
  SpsH264.PicWidthInMbsMinus1 s <= 511 /\ SpsH264.PicHeightInMapUnitsMinus1 s <= 511 /\
  0 < SpsH264.Width (SpsH264.h264_size s) /\ 0 < SpsH264.Height (SpsH264.h264_size s).

Lemma parses_return_if {A} c st (f : unit -> method BitReader stored A) l b :
  c = false -> parses (f tt) l b -> parses (return_if c st ≫= f) l b.
Proof. intros ->. exact (parses_bind (mret tt) f [] l tt b (parses_ret tt)). Qed.

Lemma ps_parses_skip n a b ds :
  0 < a < 256 -> 0 <= b < 256 -> SpsH264.deltas_ok n a b ds -> parses (skip_loop n a b) (ISE <$> ds) tt.
Proof.
  intros Ha Hb Hd. eapply agree_parses, SpsH264.parses_scaling; [|done..]. intros br Hwf. by rewrite skip_agree.
Qed.
Lemma ps_parses_matrices i st l :
  0 <= i -> SpsH264.matrices_ok i l -> parses (matrices_loop (length l) i st) (mjoin (SpsH264.matrix_items <$> l)) tt.
Proof.
  revert i. induction l as [|m l IH]; intros i Hi Hm; [apply parses_ret|]. destruct Hm as [Hm Hl].
  change (mjoin (SpsH264.matrix_items <$> m :: l)) with (SpsH264.matrix_items m ++ mjoin (SpsH264.matrix_items <$> l)).
  cbn [matrices_loop length]. destruct m as [d|]; cbn [SpsH264.matrix_items app].
  - eapply parses_item; [eauto with parse|]. change (SpsH264.boolToInt true =? 1) with true. cbn iota.
    eapply parses_bind; [|apply IH; [lia|done]]. apply parses_or_return. unfold skipScalingList.
    replace (i <? 6) with (negb (6 <=? i)) in Hm by (by rewrite <- Z.ltb_antisym).
    destruct (6 <=? i); cbn [negb] in Hm; apply ps_parses_skip; done || lia.
  - eapply parses_item; [eauto with parse|]. change (SpsH264.boolToInt false =? 1) with false. cbn iota.
    change (mjoin (SpsH264.matrix_items <$> l)) with ([] ++ mjoin (SpsH264.matrix_items <$> l)).
    eapply parses_bind; [apply parses_ret|]. apply IH; [lia|done].
Qed.
Lemma ps_parses_offsets st l : parses (offsets_loop (length l) st) (ISE <$> l) tt.
Proof.
  induction l as [|z l IH]; [apply parses_ret|]. rewrite fmap_cons. cbn [offsets_loop length].
  eapply parses_item; [eauto with parse|]. apply IH.
Qed.

Lemma high_profile_eq p : SpsH264.overlooked p = false -> high_profile p = SpsH264.codes_chroma p.
Proof.
  intros Hov. rewrite <- (SpsH264.high_profile_known p Hov).
  unfold high_profile, SpsH264.high_profile. cbn [existsb]. rewrite orb_false_r, !orb_assoc. done.
Qed.

(** The chroma array type the cropping units depend on. *)
Definition array_type (s : SpsH264.H264SPS) : Z :=
  if SpsH264.codes_chroma (SpsH264.ProfileIdc s) then SpsH264.ChromaArrayType s else 1.

(** Steps over the elements and the tests of the values. *)
Ltac field_step :=
  lazymatch goal with
  | |- parses (return_if _ _ ≫= _) _ _ => apply parses_return_if; [apply Z.ltb_ge; lia|]; cbv beta zeta
  | |- parses (let _ := _ in _) _ _ => cbv zeta
  | |- parses (return_if _ _) [] _ => unfold return_if; rewrite (proj2 (Z.ltb_ge _ _)) by lia; apply parses_ret
  | |- _ => parse_step
  end.

Lemma ps_parses_high s x st :
  SpsH264.ChromaFormatIdc s <= 3 ->
  (SpsH264.SeqScalingMatrixPresent s = true ->
     length (SpsH264.matrices x) = (if SpsH264.ChromaFormatIdc s =? 3 then 12%nat else 8%nat) /\
     SpsH264.matrices_ok 0 (SpsH264.matrices x)) ->
  parses (high_fields st) (SpsH264.high_items s x)
    (SpsH264.ChromaArrayType s).
Proof.
  unfold SpsH264.ChromaArrayType. intros Hc Hm. unfold high_fields, SpsH264.high_items. do 2 field_step.
  eapply (parses_bind _ _ (if SpsH264.ChromaFormatIdc s =? 3 then [SpsH264.f1 (SpsH264.SeparateColourPlaneFlag s)] else [])).
  { instantiate (1 := if SpsH264.ChromaFormatIdc s =? 3 then SpsH264.boolToInt (SpsH264.SeparateColourPlaneFlag s) else 0).
    case_bool; [eauto with parse|apply parses_ret]. }
  do 4 field_step. rewrite <- (app_nil_r (if SpsH264.SeqScalingMatrixPresent s then _ else _)). eapply parses_bind.
  { instantiate (1 := tt). destruct (SpsH264.SeqScalingMatrixPresent s); [|apply parses_ret].
    change (SpsH264.boolToInt true =? 1) with true. cbn iota. destruct (Hm eq_refl) as [Hlen Hok]. rewrite <- Hlen.
    by apply ps_parses_matrices. }
  cbv beta. replace ((SpsH264.ChromaFormatIdc s =? 3) && _) with ((SpsH264.ChromaFormatIdc s =? 3) && SpsH264.SeparateColourPlaneFlag s);
    [apply parses_ret|]. case_bool; [|done]. by destruct (SpsH264.SeparateColourPlaneFlag s).
Qed.

Lemma ps_parses_poc s x st :
  (SpsH264.PicOrderCntType s = 0 -> SpsH264.Log2MaxPicOrderCntLsbMinus4 s <= 12) ->
  (SpsH264.PicOrderCntType s = 1 -> SpsH264.NumRefFramesInPicOrderCntCycle s <= 255) ->
  (SpsH264.PicOrderCntType s = 1 -> len (SpsH264.offsets x) = SpsH264.NumRefFramesInPicOrderCntCycle s) ->
  parses (poc_fields (SpsH264.PicOrderCntType s) st) (SpsH264.poc_items s x) tt.
Proof.
  intros H0 H1 Ho. unfold poc_fields, SpsH264.poc_items. destruct (Z.eqb_spec (SpsH264.PicOrderCntType s) 0) as [E|_].
  { specialize (H0 E). do 2 field_step. }
  destruct (Z.eqb_spec (SpsH264.PicOrderCntType s) 1) as [E|_]; [|apply parses_ret]. specialize (H1 E). specialize (Ho E).
  do 5 field_step. rewrite <- Ho. unfold len. rewrite Nat2Z.id. apply ps_parses_offsets.
Qed.

Lemma crop_units_eq s :
  0 <= SpsH264.ChromaFormatIdc s <= 3 ->
  (SpsH264.codes_chroma (SpsH264.ProfileIdc s) = false -> SpsH264.ChromaFormatIdc s = 1) ->
  crop_units (array_type s) = SpsH264.chroma_step (SpsH264.ChromaArrayType s).
Proof.
  intros Hc H1. unfold array_type, SpsH264.ChromaArrayType. destruct (SpsH264.codes_chroma _); [|by rewrite H1].
  assert (SpsH264.ChromaFormatIdc s = 0 \/ SpsH264.ChromaFormatIdc s = 1 \/ SpsH264.ChromaFormatIdc s = 2 \/
    SpsH264.ChromaFormatIdc s = 3) as [-> | [-> | [-> | ->]]] by lia; try done.
  by destruct (SpsH264.SeparateColourPlaneFlag s).
Qed.
Lemma chroma_step_bounds a cx cy : SpsH264.chroma_step a = (cx, cy) -> 0 < cx /\ 0 < cy <= 2.
Proof. destruct a as [|[[| |]|[| |]|]|]; intros [= <- <-]; lia. Qed.

(** The size in macroblocks, in samples. *)
Definition frame_width (s : SpsH264.H264SPS) : Z := 16 * (SpsH264.PicWidthInMbsMinus1 s + 1).
Definition frame_height (s : SpsH264.H264SPS) : Z :=
  (if SpsH264.FrameMbsOnlyFlag s then 1 else 2) * (16 * (SpsH264.PicHeightInMapUnitsMinus1 s + 1)).

Lemma crop_axis W u a b :
  0 < u -> 0 <= a -> 0 <= b -> 0 < W <= 16384 -> 0 < W - u * (a + b) ->
  (u32 W <=? u32 (a * u)) || (u32 W <=? u32 (b * u)) = false /\
  i64 (W - u32 (a * u) - u32 (b * u)) = W - u * (a + b).
Proof.
  intros Hu Ha Hb HW Hp. assert (0 <= a * u) by nia. assert (0 <= b * u) by nia. assert (u * (a + b) = a * u + b * u) by lia.
  rewrite !u32_id by (pow_consts; lia). rewrite !(proj2 (Z.leb_gt _ _)) by lia. split; [done|]. rewrite i64_id; pow_consts; lia.
Qed.

Lemma ps_parses_crop s l :
  0 <= SpsH264.ChromaFormatIdc s <= 3 ->
  (SpsH264.codes_chroma (SpsH264.ProfileIdc s) = false -> SpsH264.ChromaFormatIdc s = 1) ->
  SpsH264.FrameCroppingFlag s = true ->
  0 <= SpsH264.FrameCropLeftOffset s -> 0 <= SpsH264.FrameCropRightOffset s ->
  0 <= SpsH264.FrameCropTopOffset s -> 0 <= SpsH264.FrameCropBottomOffset s ->
  0 < frame_width s <= 16384 -> 0 < frame_height s <= 16384 ->
  0 < SpsH264.Width (SpsH264.h264_size s) -> 0 < SpsH264.Height (SpsH264.h264_size s) ->
  parses (crop_fields (array_type s) (SpsH264.boolToInt (SpsH264.FrameMbsOnlyFlag s)) (mkStored l (frame_width s) (frame_height s)))
    [IUE (SpsH264.FrameCropLeftOffset s); IUE (SpsH264.FrameCropRightOffset s); IUE (SpsH264.FrameCropTopOffset s);
     IUE (SpsH264.FrameCropBottomOffset s)]
    (mkStored l (SpsH264.Width (SpsH264.h264_size s)) (SpsH264.Height (SpsH264.h264_size s))).
Proof.
  intros Hc H1 Hf Hl Hr Ht Hb HW HH HpW HpH. unfold crop_fields. do 4 field_step.
  rewrite crop_units_eq by done. unfold SpsH264.h264_size in *. rewrite Hf in *.
  destruct (SpsH264.chroma_step (SpsH264.ChromaArrayType s)) as [cx cy] eqn:Eu. cbn [SpsH264.Width SpsH264.Height] in *.
  set (fields := if SpsH264.FrameMbsOnlyFlag s then 1 else 2) in *.
  destruct (chroma_step_bounds _ _ _ Eu) as [Hcx Hcy].
  assert (0 < fields <= 2) as Hfi by (subst fields; destruct (SpsH264.FrameMbsOnlyFlag s); lia).
  assert (u32 (cy * u32 (2 - SpsH264.boolToInt (SpsH264.FrameMbsOnlyFlag s))) = cy * fields) as ->.
  { subst fields. destruct (SpsH264.FrameMbsOnlyFlag s); cbn [SpsH264.boolToInt]; rewrite (u32_id (2 - _)) by (pow_consts; lia);
      apply u32_id; pow_consts; lia. }
  cbn [st_width st_height st_log2].
  assert (frame_height s = 16 * fields * (SpsH264.PicHeightInMapUnitsMinus1 s + 1)) as EH by (unfold frame_height; lia).
  destruct (crop_axis (frame_width s) cx (SpsH264.FrameCropLeftOffset s) (SpsH264.FrameCropRightOffset s)) as [E1 E2];
    [done..|].
  destruct (crop_axis (frame_height s) (cy * fields) (SpsH264.FrameCropTopOffset s) (SpsH264.FrameCropBottomOffset s)) as [E3 E4];
    [nia|done|done|done|by rewrite EH|].
  rewrite <- orb_assoc, E1, E3, E2, E4, EH. apply parses_ret.
Qed.

(** The elements of a list that are always there. *)
Ltac element H i := pose proof (proj1 (Forall_forall _ _) H i ltac:(set_solver)).

(** The end of the syntax: field or frame coding, and cropping. *)
Lemma frame_step s l :
  parses (if SpsH264.boolToInt (SpsH264.FrameMbsOnlyFlag s) =? 0
          then _ ← or_return (mkStored l ((SpsH264.PicWidthInMbsMinus1 s + 1) * 16)
                                ((SpsH264.PicHeightInMapUnitsMinus1 s + 1) * 16 * 2)) ReadBit;
               mret (mkStored l ((SpsH264.PicWidthInMbsMinus1 s + 1) * 16) ((SpsH264.PicHeightInMapUnitsMinus1 s + 1) * 16 * 2))
          else mret (mkStored l ((SpsH264.PicWidthInMbsMinus1 s + 1) * 16) ((SpsH264.PicHeightInMapUnitsMinus1 s + 1) * 16)))
    (if SpsH264.FrameMbsOnlyFlag s then [] else [SpsH264.f1 (SpsH264.MbAdaptiveFrameFieldFlag s)])
    (mkStored l (frame_width s) (frame_height s)).
Proof.
  unfold frame_width, frame_height. destruct (SpsH264.FrameMbsOnlyFlag s); cbn [SpsH264.boolToInt].
  - change (1 =? 0) with false. cbn iota. rewrite Z.mul_1_l, !(Z.mul_comm 16). apply parses_ret.
  - change (0 =? 0) with true. cbn iota. parse_step.
    rewrite (Z.mul_comm 2), !(Z.mul_comm 16). apply parses_ret.
Qed.

Lemma crop_step s x l :
  SpsH264.h264_ok s x -> h264_limits s -> 0 <= SpsH264.ChromaFormatIdc s ->
  0 < frame_width s <= 16384 -> 0 < frame_height s <= 16384 ->
  parses (if SpsH264.boolToInt (SpsH264.FrameCroppingFlag s) =? 1
          then crop_fields (array_type s) (SpsH264.boolToInt (SpsH264.FrameMbsOnlyFlag s)) (mkStored l (frame_width s) (frame_height s))
          else mret (mkStored l (frame_width s) (frame_height s)))
    (if SpsH264.FrameCroppingFlag s
     then [IUE (SpsH264.FrameCropLeftOffset s); IUE (SpsH264.FrameCropRightOffset s); IUE (SpsH264.FrameCropTopOffset s);
           IUE (SpsH264.FrameCropBottomOffset s)] else [])
    (mkStored l (SpsH264.Width (SpsH264.h264_size s)) (SpsH264.Height (SpsH264.h264_size s))).
Proof.
  intros (Hi & Hh & _) (_ & Hc & _ & _ & _ & _ & _ & _ & HpW & HpH) Hc0 HW HH Hok.
  destruct (SpsH264.FrameCroppingFlag s) eqn:Hf; cbn [SpsH264.boolToInt].
  - change (1 =? 1) with true. cbn iota. pose proof Hok as Hok'.
    rewrite !Forall_cons in Hok'. cbn [item_ok] in Hok'. revert Hok. apply ps_parses_crop; try done; try lia.
    intros Hp. by rewrite Hp in Hh.
  - change (0 =? 1) with false. cbn iota. unfold SpsH264.h264_size in *. rewrite Hf in *. unfold frame_width, frame_height in *.
    destruct (SpsH264.chroma_step _) as [cx cy]. cbn [SpsH264.Width SpsH264.Height] in *. rewrite !Z.sub_0_r in *.
    revert Hok. replace (16 * _ * _) with ((if SpsH264.FrameMbsOnlyFlag s then 1 else 2) * (16 * (SpsH264.PicHeightInMapUnitsMinus1 s + 1))) by lia.
    apply parses_ret.
Qed.

Lemma parses_resolution s x :
  SpsH264.h264_ok s x -> SpsH264.overlooked (SpsH264.ProfileIdc s) = false -> h264_limits s ->
  parses (resolution_fields (SpsH264.ProfileIdc s)) (tail_items s x)
    (mkStored (Some (SpsH264.Log2MaxFrameNumMinus4 s)) (SpsH264.Width (SpsH264.h264_size s)) (SpsH264.Height (SpsH264.h264_size s))).
Proof.
  intros Hs Hov Hlim. pose proof Hs as (Hi & Hh & Ho). pose proof Hlim as (_ & Hc & Hl & Hp & Hp0 & Hp1 & HW & HH & HpW & HpH).
  assert (Forall item_ok (tail_items s x)) as Ht by (by apply Forall_drop).
  assert (0 <= SpsH264.ChromaFormatIdc s) as Hc0.
  { unfold tail_items, SpsH264.h264_items in Ht. cbn [drop] in Ht. destruct (SpsH264.codes_chroma _); [|lia].
    unfold SpsH264.high_items in Ht. element Ht (IUE (SpsH264.ChromaFormatIdc s)). cbn in *; lia. }
  unfold tail_items, SpsH264.h264_items in Ht |- *. cbn [drop] in *.
  element Ht (IUE (SpsH264.Log2MaxFrameNumMinus4 s)). element Ht (IUE (SpsH264.PicWidthInMbsMinus1 s)).
  element Ht (IUE (SpsH264.PicHeightInMapUnitsMinus1 s)). cbn [item_ok] in *. clear Hi Ht.
  unfold resolution_fields. rewrite high_profile_eq by done. eapply parses_bind.
  { instantiate (1 := array_type s). unfold array_type. destruct (SpsH264.codes_chroma _); [|apply parses_ret].
    by apply ps_parses_high. }
  do 4 field_step. eapply parses_bind; [by apply ps_parses_poc|]. cbv beta. do 6 field_step.
  cbv zeta. cbn [st_log2].
  rewrite (u32_id (SpsH264.PicWidthInMbsMinus1 s + 1)), (u32_id (SpsH264.PicHeightInMapUnitsMinus1 s + 1)) by (pow_consts; lia).
  apply parses_return_if.
  { rewrite (proj2 (Z.ltb_ge _ 16)), (proj2 (Z.ltb_ge _ 16)), !(proj2 (Z.ltb_ge 8192 _)) by lia. done. }
  replace (u8 (SpsH264.Log2MaxFrameNumMinus4 s)) with (SpsH264.Log2MaxFrameNumMinus4 s) by mlia.
  field_step. eapply parses_bind; [apply frame_step|]. cbv beta. do 2 field_step. apply (crop_step s x); try done.
  - unfold frame_width. lia.
  - unfold frame_height. destruct (SpsH264.FrameMbsOnlyFlag s); lia.
Qed.

(** *** Whole sets *)

(** A set as it arrives: behind its NAL header, or without one. *)
Definition header_ok (types : list Z) (header : list Z) : Prop :=
  header = [] \/ exists h, header = [h] /\ In (nal_type h) types.

Lemma strip_header {A} types pre d (f : list Z -> res (exn ps_error A)) :
  header_ok types pre -> d <> [] -> (pre = [] -> exists b, head d = Some b /\ ~ In (nal_type b) types) ->
  forall h, (forall b, idx (pre ++ Rbsp.add_loop 0 d) 0 = Ret b -> h = true <-> In (nal_type b) types) ->
  with_rbsp h (pre ++ Rbsp.add_loop 0 d) f = f d.
Proof.
  intros Hpre Hd Hb h Hh. unfold with_rbsp.
  assert (Rbsp.add_loop 0 d <> []) as Ha by by apply Rbsp.add_loop_nonempty.
  assert (0 < len (Rbsp.add_loop 0 d)) by (destruct (Rbsp.add_loop 0 d) as [|a l]; [done|]; rewrite len_cons; pose proof (len_nonneg l); lia).
  destruct Hpre as [->|(h0 & -> & Hin)]; cbn [app] in *.
  - destruct (Hb eq_refl) as (b & Hb1 & Hn).
    assert (idx (Rbsp.add_loop 0 d) 0 = Ret b) as Hb0 by (destruct d as [|b0 d]; [done|]; by injection Hb1 as ->).
    destruct h; [by destruct Hn; apply (Hh b Hb0)|]. unfold ExtractRBSPFromPayload.
    rewrite (proj2 (Z.eqb_neq _ 0)) by lia. by rewrite Rbsp.remove_is_loop, Rbsp.remove_add_loop by done.
  - destruct (Hh h0 eq_refl) as [_ Hh']. rewrite Hh' by done. unfold ExtractRBSPFromNALUnit.
    rewrite len_cons. pose proof (len_nonneg (Rbsp.add_loop 0 d)). rewrite (proj2 (Z.ltb_ge _ 1)) by lia.
    change (dropZ 1 (h0 :: Rbsp.add_loop 0 d)) with (Rbsp.add_loop 0 d).
    rewrite (proj2 (Z.eqb_neq _ 0)) by lia. by rewrite Rbsp.remove_is_loop, Rbsp.remove_add_loop by done.
Qed.

Lemma first_byte d p l rest :
  bytes d -> 0 <= p < 256 -> bits_of d = items_bits (IBits p 8 :: l) ++ rest -> head d = Some p.
Proof.
  intros Hd Hp Hb. rewrite items_bits_cons, <- app_assoc in Hb. cbn [TypesBits.item_bits] in Hb.
  destruct Hd as [|b d Hb0 Hd]; [done|].
  change (b :: d) with ([b] ++ d) in Hb. rewrite TypesBits.bits_of_app, TypesBits.bits_of_single in Hb.
  apply app_inj_1 in Hb as [Hb _]; [|by rewrite !BitReader.length_bits_w].
  apply (f_equal BitReader.bits_value) in Hb. rewrite !BitReader.bits_value_w in Hb. unfold is_byte in Hb0.
  change (2 ^ Z.of_nat (Z.to_nat 8)) with 256 in Hb. change (2 ^ Z.of_nat 8) with 256 in Hb.
  rewrite !Z.mod_small in Hb by lia. cbn. by rewrite Hb.
Qed.

Lemma run_parses {A} (m : parser A) l a d rest :
  parses m l a -> Forall item_ok l -> bytes d -> bits_of d = items_bits l ++ rest ->
  exists br, m (NewBitReader d) = Ret (br, Val a) /\ wf br /\ remaining br = rest.
Proof.
  intros Hm Hl Hd Hb. apply Hm; [done|by apply wf_new|]. change (NewBitReader d) with (BitReader.NewBitReader d).
  by rewrite remaining_new.
Qed.

Lemma type_test types b : existsb (Z.eqb (nal_type b)) types = true <-> In (nal_type b) types.
Proof.
  rewrite existsb_exists. split.
  - intros (x & Hx & E). apply Z.eqb_eq in E. by subst.
  - intros H. exists (nal_type b). by rewrite Z.eqb_refl.
Qed.

Lemma parses_sps_ids s :
  SpsH264.SeqParameterSetId s <= 31 ->
  parses sps_ids [IBits (SpsH264.ProfileIdc s) 8; IBits (SpsH264.ConstraintSetFlags s) 8; IBits (SpsH264.LevelIdc s) 8;
                  IUE (SpsH264.SeqParameterSetId s)]
    (SpsH264.ProfileIdc s, SpsH264.ConstraintSetFlags s, SpsH264.LevelIdc s, SpsH264.SeqParameterSetId s).
Proof. intros Hid. unfold sps_ids. do 4 parse_step. rewrite (proj2 (Z.ltb_ge 31 _)) by lia. apply parses_ret. Qed.

Lemma h264_items_split s x :
  SpsH264.h264_items s x =
  [IBits (SpsH264.ProfileIdc s) 8; IBits (SpsH264.ConstraintSetFlags s) 8; IBits (SpsH264.LevelIdc s) 8;
   IUE (SpsH264.SeqParameterSetId s)] ++ tail_items s x.
Proof. done. Qed.

(** The start of a set of the standard's syntax. *)
Lemma sps_start s x d rest :
  SpsH264.h264_ok s x -> h264_limits s -> bytes d -> bits_of d = items_bits (SpsH264.h264_items s x) ++ rest ->
  4 <= len d /\ head d = Some (SpsH264.ProfileIdc s) /\ 0 <= SpsH264.ProfileIdc s < 256 /\
  0 <= SpsH264.ConstraintSetFlags s < 256 /\ 0 <= SpsH264.LevelIdc s < 256 /\ 0 <= SpsH264.SeqParameterSetId s <= 31 /\
  exists br, sps_ids (NewBitReader d) = Ret (br, Val (SpsH264.ProfileIdc s, SpsH264.ConstraintSetFlags s, SpsH264.LevelIdc s,
      SpsH264.SeqParameterSetId s)) /\ wf br /\ remaining br = items_bits (tail_items s x) ++ rest.
Proof.
  intros Hok Hlim Hd Hb. pose proof (proj1 Hok) as Hi. pose proof (proj1 Hlim) as Hid.
  assert (4 <= len d) as Hlen.
  { pose proof (SpsH264.header_bits s x). pose proof (len_nonneg rest). pose proof (f_equal len Hb) as Hl.
    rewrite BitReader.len_bits_of, len_app in Hl. lia. }
  pose proof Hi as Hi'. rewrite h264_items_split in Hi', Hb. apply Forall_app in Hi' as [Hi' _].
  pose proof Hi' as Hv. rewrite !Forall_cons in Hv. cbn [item_ok] in Hv. change (2 ^ 8) with 256 in Hv.
  split; [done|]. split; [eapply first_byte; [done|lia|exact Hb]|]. do 4 (split; [lia|]).
  rewrite items_bits_app, <- app_assoc in Hb.
  exact (run_parses _ _ _ _ _ (parses_sps_ids s Hid) Hi' Hd Hb).
Qed.

Lemma idx_head {A} (l : list A) : 1 <= len l -> exists b, idx l 0 = Ret b.
Proof. intros H. destruct (idx_Ret l 0) as (b & E & _); [lia|eauto]. Qed.
Lemma len_set pre d : header_ok [7; 15] pre \/ header_ok [8] pre -> len d <= len (pre ++ Rbsp.add_loop 0 d).
Proof. intros _. rewrite len_app. pose proof (SpsH264.add_loop_len 0 d). pose proof (len_nonneg pre). lia. Qed.

Lemma strip_sps {A} pre d (f : list Z -> res (exn ps_error A)) b :
  header_ok [7; 15] pre -> d <> [] -> (pre = [] -> exists b, head d = Some b /\ ~ In (nal_type b) [7; 15]) ->
  idx (pre ++ Rbsp.add_loop 0 d) 0 = Ret b ->
  with_rbsp ((nal_type b =? 7) || (nal_type b =? 15)) (pre ++ Rbsp.add_loop 0 d) f = f d.
Proof.
  intros Hp Hd Hb E. apply (strip_header [7; 15]); try done. intros b' E'. rewrite E in E'. injection E' as <-.
  rewrite <- type_test. cbn [existsb]. by rewrite orb_false_r.
Qed.

Lemma parseSPS_read s x d rest pre now :
  SpsH264.h264_ok s x -> SpsH264.overlooked (SpsH264.ProfileIdc s) = false -> h264_limits s -> bytes d -> bits_of d = items_bits (SpsH264.h264_items s x) ++ rest ->
  header_ok [7; 15] pre -> (pre = [] -> ~ In (nal_type (SpsH264.ProfileIdc s)) [7; 15]) ->
  parseSPS now (pre ++ Rbsp.add_loop 0 d) =
  Ret (Val (mkSet (SpsH264.SeqParameterSetId s) (pre ++ Rbsp.add_loop 0 d) now (len (pre ++ Rbsp.add_loop 0 d)) true EmptyString
    (Some (SpsH264.ProfileIdc s)) (Some (SpsH264.ConstraintSetFlags s)) (Some (SpsH264.LevelIdc s))
    (Some (SpsH264.Log2MaxFrameNumMinus4 s)) (Some (SpsH264.Width (SpsH264.h264_size s)))
    (Some (SpsH264.Height (SpsH264.h264_size s))))).
Proof.
  intros Hok Hov Hlim Hd Hb Hpre Hn.
  destruct (sps_start s x d rest Hok Hlim Hd Hb) as (Hlen & Hhd & Hp & Hc & Hl & Hid & br & E & Hwf & Hr).
  pose proof (len_set pre d (or_introl Hpre)). unfold parseSPS. rewrite (proj2 (Z.ltb_ge _ 2)) by lia.
  destruct (idx_head (pre ++ Rbsp.add_loop 0 d)) as (b & Eb); [lia|]. rewrite Eb, bind_Ret. cbv zeta.
  rewrite strip_sps; [|done|by intros ->|eauto|done]. rewrite E, bind_Ret. cbn iota beta.
  assert (Forall item_ok (tail_items s x)) as Ht by (by apply Forall_drop, (proj1 Hok)).
  destruct (parses_resolution s x Hok Hov Hlim Ht br rest Hwf Hr) as (br' & E' & _).
  assert (forall v, 0 <= v < 256 -> u8 v = v) as H8 by (intros; mlia). rewrite !H8 by lia.
  unfold parseResolutionFromSPS. rewrite E', bind_Ret. destruct Hlim as (_ & _ & _ & _ & _ & _ & _ & _ & HpW & HpH).
  cbn [st_width st_height st_log2]. rewrite !(proj2 (Z.ltb_lt 0 _)) by done. done.
Qed.

Lemma parseSPSID_read s x d rest :
  SpsH264.h264_ok s x -> h264_limits s -> bytes d -> bits_of d = items_bits (SpsH264.h264_items s x) ++ rest ->
  SpsH264.ProfileIdc s <> 0x27 -> parseSPSID d = Ret (Val (SpsH264.SeqParameterSetId s)).
Proof.
  intros Hok Hlim Hd Hb Hne.
  destruct (sps_start s x d rest Hok Hlim Hd Hb) as (Hlen & Hhd & Hp & Hc & Hl & Hid & br & E & Hwf & Hr).
  unfold parseSPSID. rewrite (proj2 (Z.ltb_ge _ 4)) by lia. clear Hd Hb Hr.
  destruct d as [|b0 [|b1 d]]; [done|change (len [b0]) with 1 in Hlen; lia|].
  injection Hhd as ->. change (idx _ 0) with (Ret (SpsH264.ProfileIdc s)). change (idx _ 1) with (Ret b1). rewrite !bind_Ret.
  rewrite (proj2 (Z.eqb_neq _ 0x27)) by done. cbn [andb]. unfold run. rewrite E, !bind_Ret.
  replace (u8 (SpsH264.SeqParameterSetId s)) with (SpsH264.SeqParameterSetId s) by mlia. done.
Qed.

Lemma ValidateSPSData_read s x d rest pre :
  SpsH264.h264_ok s x -> h264_limits s -> bytes d -> bits_of d = items_bits (SpsH264.h264_items s x) ++ rest ->
  header_ok [7; 15] pre -> (pre = [] -> ~ In (nal_type (SpsH264.ProfileIdc s)) [7; 15]) -> SpsH264.ProfileIdc s <> 0x27 ->
  ValidateSPSData (pre ++ Rbsp.add_loop 0 d) = Ret (Val (SpsH264.SeqParameterSetId s)).
Proof.
  intros Hok Hlim Hd Hb Hpre Hn Hne. pose proof (parseSPSID_read s x d rest Hok Hlim Hd Hb Hne) as E.
  destruct (sps_start s x d rest Hok Hlim Hd Hb) as (Hlen & Hhd & _).
  pose proof (len_set pre d (or_introl Hpre)). set (data := pre ++ Rbsp.add_loop 0 d) in *.
  unfold ValidateSPSData. rewrite (proj2 (Z.ltb_ge _ 4)) by lia.
  destruct (idx_head data) as (b & Eb); [lia|]. rewrite Eb, bind_Ret. cbv zeta.
  assert (forall h, h = ((nal_type b =? 7) || (nal_type b =? 15)) ->
    with_rbsp h data parseSPSID = Ret (Val (SpsH264.SeqParameterSetId s))) as Hw.
  { intros h ->. subst data. rewrite strip_sps; [done|done|by intros ->|eauto|done]. }
  unfold parseSPSIDFromRawData, parseSPSIDFromNALUnit. rewrite (proj2 (Z.ltb_ge _ 2)), (proj2 (Z.ltb_ge _ 3)) by lia.
  destruct (nal_type b =? 7), (nal_type b =? 15); cbn [negb orb] in *; rewrite ?andb_false_r; try (by apply Hw).
  rewrite !andb_true_r. case_bool; [by apply Hw|]. by rewrite Hw, bind_Ret.
Qed.

(** *** Picture parameter sets and slices *)

Lemma header_strip {A} h d (f : list Z -> res (exn ps_error A)) :
  d <> [] -> with_rbsp true (h :: Rbsp.add_loop 0 d) f = f d.
Proof.
  intros Hd. apply (strip_header [nal_type h] [h] d f); [right; exists h; split; [done|by left]|done|done|].
  intros b [= <-]. split; [by left|done].
Qed.

Lemma parses_pps_ids pid sid : pid <= 255 -> sid <= 31 -> parses pps_ids [IUE pid; IUE sid] (pid, sid).
Proof.
  intros Hp Hs. unfold pps_ids. parse_step. rewrite (proj2 (Z.ltb_ge 255 _)) by done. parse_step.
  rewrite (proj2 (Z.ltb_ge 31 _)) by done. apply parses_ret.
Qed.
Lemma parses_slice_ids first ty pid :
  ty <= 9 -> pid <= 255 -> parses slice_ids [IUE first; IUE ty; IUE pid] (ty, pid).
Proof.
  intros Ht Hp. unfold slice_ids. do 2 parse_step. rewrite (proj2 (Z.ltb_ge 9 _)) by done. parse_step.
  rewrite (proj2 (Z.ltb_ge 255 _)) by done. apply parses_ret.
Qed.

Lemma items_nonempty i l d rest :
  1 <= len (TypesBits.item_bits i) -> bits_of d = items_bits (i :: l) ++ rest -> 1 <= len d.
Proof.
  intros Hi Hb. apply (f_equal len) in Hb. rewrite items_bits_cons, BitReader.len_bits_of, !len_app in Hb.
  pose proof (len_nonneg (items_bits l)). pose proof (len_nonneg rest). lia.
Qed.
Lemma u8_small v : 0 <= v <= 255 -> u8 v = v.
Proof. intros. mlia. Qed.

Lemma pps_read pid sid h d rest now :
  0 <= pid <= 255 -> 0 <= sid <= 31 -> nal_type h = 8 -> bytes d ->
  bits_of d = items_bits [IUE pid; IUE sid] ++ rest ->
  let data := h :: Rbsp.add_loop 0 d in
  parsePPS now data = Ret (Val (mkPPS (new_set pid data now) sid)) /\ ValidatePPSData data = Ret (Val (pid, sid)).
Proof.
  intros Hp Hs Hh Hd Hb data. assert (Forall item_ok [IUE pid; IUE sid]) as Hi.
  { repeat apply Forall_cons_2; [..|apply Forall_nil_2]; cbn; pow_consts; lia. }
  destruct (run_parses _ _ _ d rest (parses_pps_ids pid sid ltac:(lia) ltac:(lia)) Hi Hd Hb) as (br & E & _).
  assert (1 <= len d) as Hl by (apply (items_nonempty (IUE pid) [IUE sid] d rest); [apply SpsH264.ue_bits_pos|done]).
  assert (2 <= len data) as Hl2 by (subst data; rewrite len_cons; pose proof (SpsH264.add_loop_len 0 d); lia).
  assert (d <> []) as Hne by by intros ->.
  unfold parsePPS, ValidatePPSData, parsePPSIDs. rewrite (proj2 (Z.ltb_ge _ 2)) by lia.
  change (idx data 0) with (Ret h). rewrite !bind_Ret. cbv zeta. rewrite Hh. change (8 =? 8) with true. cbn iota. subst data.
  rewrite !header_strip by done. rewrite (proj2 (Z.ltb_ge _ 1)) by lia. unfold run. rewrite E, !bind_Ret.
  by rewrite !u8_small by lia.
Qed.

(** The parameter sets a slice needs, in the standard's syntax. *)
Lemma slice_read spsMap ppsMap first ty pid num l pps sps h d rest isIDR :
  0 <= first < 2 ^ 32 - 1 -> 0 <= ty <= 9 -> 0 <= pid <= 255 -> 0 <= l <= 12 -> 0 <= num < 2 ^ (l + 4) ->
  1 <= nal_type h <= 23 -> bytes d ->
  bits_of d = items_bits [IUE first; IUE ty; IUE pid; IBits num (l + 4)] ++ rest ->
  ppsMap !! pid = Some pps -> spsMap !! ReferencedSPSID pps = Some sps -> Log2MaxFrameNumMinus4 sps = Some l ->
  parseSliceHeader spsMap ppsMap (h :: Rbsp.add_loop 0 d) isIDR =
  Ret (Val (mkReq pid (ReferencedSPSID pps) ty isIDR num true)).
Proof.
  intros Hf Ht Hp Hl Hn Hh Hd Hb Hpps Hsps Hlog.
  assert (Forall item_ok ([IUE first; IUE ty; IUE pid] ++ [IBits num (l + 4)])) as Hi.
  { repeat apply Forall_cons_2; [..|apply Forall_nil_2]; cbn -[Z.pow]; pow_consts; lia. }
  pose proof Hi as Hi'. apply Forall_app in Hi' as [Hi1 Hi2].
  change [IUE first; IUE ty; IUE pid; IBits num (l + 4)] with ([IUE first; IUE ty; IUE pid] ++ [IBits num (l + 4)]) in Hb.
  pose proof Hb as Hb'. rewrite items_bits_app, <- app_assoc in Hb'.
  destruct (run_parses _ _ _ d _ (parses_slice_ids first ty pid ltac:(lia) ltac:(lia)) Hi1 Hd Hb') as (br & E & Hwf & Hr).
  destruct (tparses_bits num (l + 4) Hi2 br rest Hwf Hr) as (br' & E' & _).
  assert (1 <= len d) as Hlen by (apply (items_nonempty (IUE first) [IUE ty; IUE pid; IBits num (l + 4)] d rest); [apply SpsH264.ue_bits_pos|done]).
  assert (2 <= len (h :: Rbsp.add_loop 0 d)) as Hl2 by (rewrite len_cons; pose proof (SpsH264.add_loop_len 0 d); lia).
  unfold parseSliceHeader. rewrite (proj2 (Z.ltb_ge _ 2)) by lia. change (idx _ 0) with (Ret h). rewrite bind_Ret. cbv zeta.
  assert (((1 <=? nal_type h) && (nal_type h <=? 5)) || ((5 <? nal_type h) && (nal_type h <=? 23)) = true) as -> by lia.
  rewrite header_strip by by intros ->. rewrite E, bind_Ret. cbn iota beta. rewrite !u8_small by lia. rewrite Hpps, Hsps.
  change (Some sps ≫= Log2MaxFrameNumMinus4) with (Log2MaxFrameNumMinus4 sps). rewrite Hlog, E', bind_Ret. done.
Qed.

(** ** On any bytes *)

(** [m] returns; what it yields satisfies [P]. *)
Definition gives {E A} (m : method BitReader E A) (P : A -> Prop) : Prop := forall br, wf br ->
  exists br' r, m br = Ret (br', r) /\ wf br' /\ forall a, r = Val a -> P a.

Lemma gives_safe {E A} (m : method BitReader E A) : safe m -> gives m (fun _ => True).
Proof. intros Hm br Hwf. destruct (Hm br Hwf) as (br' & r & E1 & Hwf' & _). by exists br', r. Qed.
Lemma gives_bind {E A B} (m : method BitReader E A) (f : A -> method BitReader E B) P Q :
  gives m P -> (forall a, P a -> gives (f a) Q) -> gives (m ≫= f) Q.
Proof.
  intros Hm Hf br Hwf. destruct (Hm br Hwf) as (br1 & [a|e] & E1 & Hwf1 & H1).
  - rewrite (method_bind_Val _ _ _ _ _ E1). apply Hf; auto.
  - exists br1, (Err e). by rewrite (method_bind_Err _ _ _ _ _ E1).
Qed.
Lemma gives_ret {E A} (a : A) (P : A -> Prop) : P a -> gives (E := E) (mret a) P.
Proof. intros Ha br Hwf. exists br, (Val a). split; [done|]. split; [done|]. by intros _ [= <-]. Qed.
Lemma gives_fail {E A} (e : E) (P : A -> Prop) : gives (fail e) P.
Proof. intros br Hwf. by exists br, (Err e). Qed.
Lemma gives_ue f : gives (rd f ReadUE) (fun v => 0 <= v).
Proof.
  intros br Hwf. unfold rd, map_err. rewrite TypesBits.ReadUE_agree by done.
  destruct (BitReader.ReadUE_sound br Hwf) as (br' & [v|e] & -> & Hwf' & _ & Hv); eexists _, _; (split; [done|]); split; try done.
  intros _ [= <-]. by destruct (Hv v eq_refl) as [[? _] _].
Qed.
Lemma gives_rd {A} f (m : reader A) : safe m -> gives (rd f m) (fun _ => True).
Proof. intros. by apply gives_safe, ps_safe_rd. Qed.

Lemma gives_sps_ids : gives sps_ids (fun '(_, _, _, id) => 0 <= id <= 31).
Proof.
  unfold sps_ids. do 3 (eapply gives_bind; [apply gives_rd; eauto with parse|intros ? _; cbv beta]).
  eapply gives_bind; [apply gives_ue|]. intros id Hid. cbv beta in *. destruct (Z.ltb_spec 31 id); [apply gives_fail|apply gives_ret; cbn; lia].
Qed.
Lemma gives_pps_ids : gives pps_ids (fun '(p, s) => 0 <= p <= 255 /\ 0 <= s <= 31).
Proof.
  unfold pps_ids. eapply gives_bind; [apply gives_ue|]. intros p Hp. cbv beta in *. destruct (Z.ltb_spec 255 p); [apply gives_fail|].
  eapply gives_bind; [apply gives_ue|]. intros s Hs. cbv beta in *. destruct (Z.ltb_spec 31 s); [apply gives_fail|apply gives_ret; cbn; lia].
Qed.

Lemma returns_head d : bytes d -> 1 <= len d -> returns (idx d 0) is_byte.
Proof. intros. apply returns_idx; [done|lia]. Qed.

(** What a parser returns is about the data given, with an id in range. *)
Lemma parseSPS_sound now data :
  bytes data -> returns (parseSPS now data) (fun r => forall sps, r = Val sps ->
    0 <= ID sps <= 31 /\ Data sps = data /\ ParsedAt sps = now /\ Valid sps = true).
Proof.
  intros Hd. unfold parseSPS. destruct (Z.ltb_spec (len data) 2); [by apply returns_Ret|].
  eapply returns_bind; [apply returns_head; [done|lia]|]. intros b _. cbv beta zeta.
  apply with_rbsp_returns; [done|done|]. intros c Hc.
  destruct (gives_sps_ids (NewBitReader c) (wf_new c Hc)) as (br & r & E & Hwf & Hv). rewrite E, bind_Ret.
  destruct r as [[[[p fl] l] id]|e]; [|by apply returns_Ret]. specialize (Hv _ eq_refl). cbn beta iota in Hv.
  unfold parseResolutionFromSPS. destruct (safe_resolution (u8 p) br Hwf) as (br' & st & E' & _). rewrite E', !bind_Ret.
  apply returns_Ret. intros sps [= <-]. assert (u8 id = id) as Hu by mlia.
  destruct st as [st|st]; case_bool; cbn; rewrite Hu; done.
Qed.

Lemma run_pps_ids c : bytes c -> returns (run pps_ids c) (fun r => forall p s, r = Val (p, s) -> 0 <= p <= 255 /\ 0 <= s <= 31).
Proof.
  intros Hc. unfold run. destruct (gives_pps_ids (NewBitReader c) (wf_new c Hc)) as (br & r & E & Hwf & Hv).
  rewrite E, bind_Ret. apply returns_Ret. intros p s ->. exact (Hv _ eq_refl).
Qed.

Lemma parsePPS_sound now data :
  bytes data -> returns (parsePPS now data) (fun r => forall pps, r = Val pps ->
    0 <= ID (pps_set pps) <= 255 /\ 0 <= ReferencedSPSID pps <= 31 /\ Data (pps_set pps) = data /\
    ParsedAt (pps_set pps) = now /\ Valid (pps_set pps) = true).
Proof.
  intros Hd. unfold parsePPS. destruct (Z.ltb_spec (len data) 2); [by apply returns_Ret|].
  eapply returns_bind; [apply returns_head; [done|lia]|]. intros b _. cbv beta.
  apply with_rbsp_returns; [done|done|]. intros c Hc. case_bool; [by apply returns_Ret|].
  eapply returns_bind; [by apply run_pps_ids|]. intros [[p s]|e] Hv; apply returns_Ret; [|done].
  intros pps [= <-]. destruct (Hv p s eq_refl). cbn. rewrite !u8_small by lia. done.
Qed.

Lemma parsePPSIDs_returns c : bytes c -> returns (parsePPSIDs c) (fun r => forall p s, r = Val (p, s) -> 0 <= p <= 255 /\ 0 <= s <= 31).
Proof.
  intros Hc. unfold parsePPSIDs. case_bool; [by apply returns_Ret|]. eapply returns_bind; [by apply run_pps_ids|].
  intros [[p s]|e] Hv; apply returns_Ret; [|done]. intros p' s' [= <- <-]. destruct (Hv p s eq_refl). by rewrite !u8_small by lia.
Qed.

Lemma validateRaw_returns data :
  bytes data -> returns (validateRawPPSData data) (fun r => forall p s, r = Val (p, s) -> 0 <= p <= 255 /\ 0 <= s <= 31).
Proof.
  intros Hd. unfold validateRawPPSData. case_bool; [by apply returns_Ret|].
  apply with_rbsp_returns; [done|done|]. apply parsePPSIDs_returns.
Qed.
Lemma ValidatePPSData_returns data :
  bytes data -> returns (ValidatePPSData data) (fun r => forall p s, r = Val (p, s) -> 0 <= p <= 255 /\ 0 <= s <= 31).
Proof.
  intros Hd. unfold ValidatePPSData. destruct (Z.ltb_spec (len data) 2); [by apply returns_Ret|].
  eapply returns_bind; [apply returns_head; [done|lia]|]. intros b _. cbv beta zeta.
  case_bool; [apply with_rbsp_returns; [done|done|apply parsePPSIDs_returns]|].
  case_bool; [eapply returns_bind; [by apply validateRaw_returns|]; intros [[p s]|e] Hv; by apply returns_Ret|].
  case_bool; [by apply returns_Ret|].
  eapply returns_bind; [by apply validateRaw_returns|]. intros [[p s]|e] Hv; apply returns_Ret; [done|]. by case_bool.
Qed.

Lemma parseSPSID_returns c : bytes c -> returns (parseSPSID c) (fun r => forall id, r = Val id -> 0 <= id <= 31).
Proof.
  intros Hc. unfold parseSPSID. destruct (Z.ltb_spec (len c) 4); [by apply returns_Ret|].
  do 2 (eapply returns_bind; [apply returns_idx; [done|lia]|intros ? _; cbv beta]).
  case_bool; [by apply returns_Ret|]. unfold run.
  destruct (gives_sps_ids (NewBitReader c) (wf_new c Hc)) as (br & r & E & Hwf & Hv). rewrite E, !bind_Ret.
  apply returns_Ret. destruct r as [[[[p fl] l] id]|e]; [|done]. specialize (Hv _ eq_refl). cbn beta iota in Hv.
  intros id' [= <-]. by rewrite u8_small by lia.
Qed.
Lemma ValidateSPSData_returns data :
  bytes data -> returns (ValidateSPSData data) (fun r => forall id, r = Val id -> 0 <= id <= 31).
Proof.
  intros Hd. assert (forall h, returns (with_rbsp h data parseSPSID) (fun r => forall id, r = Val id -> 0 <= id <= 31)) as Hw
    by (intros h; apply with_rbsp_returns; [done|done|apply parseSPSID_returns]).
  assert (returns (parseSPSIDFromRawData data) (fun r => forall id, r = Val id -> 0 <= id <= 31)) as Hraw
    by (unfold parseSPSIDFromRawData; case_bool; [by apply returns_Ret|apply Hw]).
  unfold ValidateSPSData. destruct (Z.ltb_spec (len data) 4); [by apply returns_Ret|].
  eapply returns_bind; [apply returns_head; [done|lia]|]. intros b _. cbv beta zeta.
  case_bool; [done|]. case_bool; [unfold parseSPSIDFromNALUnit; case_bool; [by apply returns_Ret|apply Hw]|].
  eapply returns_bind; [exact Hraw|]. intros [id|e] Hv; apply returns_Ret; [done|]. by case_bool.
Qed.

(** ** Properties *)

Lemma size_bound s x :
  SpsH264.h264_ok s x -> h264_limits s ->
  0 <= SpsH264.Width (SpsH264.h264_size s) < 2 ^ 32 /\ 0 <= SpsH264.Height (SpsH264.h264_size s) < 2 ^ 32.
Proof.
  intros (Hi & _) (_ & Hc & _ & _ & _ & _ & HW & HH & HpW & HpH). unfold SpsH264.h264_size in *.
  destruct (SpsH264.chroma_step (SpsH264.ChromaArrayType s)) as [cx cy] eqn:Eu. cbn [SpsH264.Width SpsH264.Height] in *.
  destruct (chroma_step_bounds _ _ _ Eu) as [Hx Hy].
  unfold SpsH264.h264_items in Hi. pow_consts. destruct (SpsH264.FrameCroppingFlag s).
  - element Hi (IUE (SpsH264.FrameCropLeftOffset s)). element Hi (IUE (SpsH264.FrameCropRightOffset s)).
    element Hi (IUE (SpsH264.FrameCropTopOffset s)). element Hi (IUE (SpsH264.FrameCropBottomOffset s)). cbn [item_ok] in *.
    destruct (SpsH264.FrameMbsOnlyFlag s); nia.
  - destruct (SpsH264.FrameMbsOnlyFlag s); lia.
Qed.

(** C24: every sequence parameter set in the syntax of the standard, within the
    limits the parser enforces, of any profile but 134, 135 and 139 (whose chroma
    format the program overlooks) and 39, is read completely by the
    parameter-set context: profile, level, id, the width of the frame number and
    the cropped size the standard derives.  The separate validator finds the same
    id, and the resolution detector's own parser the same size.  The set comes
    behind its NAL header, or without one if its profile, read as a header, is
    not one of type 7 or 15: the profile byte is all the program goes by. *)
Theorem sps_parsers_agree (s : SpsH264.H264SPS) (x : SpsH264.sps_lists) (d rest pre : list Z) (now : Z) :
  SpsH264.h264_ok s x -> SpsH264.overlooked (SpsH264.ProfileIdc s) = false -> h264_limits s ->
  bytes d -> bits_of d = items_bits (SpsH264.h264_items s x) ++ rest ->
  header_ok [7; 15] pre -> (pre = [] -> ~ In (nal_type (SpsH264.ProfileIdc s)) [7; 15]) -> SpsH264.ProfileIdc s <> 0x27 ->
  let data := pre ++ Rbsp.add_loop 0 d in
  let size := SpsH264.h264_size s in
  parseSPS now data = Ret (Val (mkSet (SpsH264.SeqParameterSetId s) data now (len data) true EmptyString
    (Some (SpsH264.ProfileIdc s)) (Some (SpsH264.ConstraintSetFlags s)) (Some (SpsH264.LevelIdc s))
    (Some (SpsH264.Log2MaxFrameNumMinus4 s)) (Some (SpsH264.Width size)) (Some (SpsH264.Height size)))) /\
  ValidateSPSData data = Ret (Val (SpsH264.SeqParameterSetId s)) /\
  SpsH264.parseH264SPSFull (Rbsp.add_loop 0 d) = Ret (Val size).
Proof.
  intros Hok Hov Hlim Hd Hb Hpre Hn Hne data size. destruct (size_bound s x Hok Hlim).
  split; [by eapply parseSPS_read|]. split; [by eapply ValidateSPSData_read|]. by eapply SpsH264.h264_parsed.
Qed.

Lemma sps_parsers_agree_witness :
  let data := [0x67] ++ Rbsp.add_loop 0 SpsH264.hd1080_bytes in
  parseSPS 7 data = Ret (Val (mkSet 0 data 7 (len data) true EmptyString (Some 100) (Some 0) (Some 40) (Some 0) (Some 1920) (Some 1080))) /\
  ValidateSPSData data = Ret (Val 0) /\
  SpsH264.parseH264SPSFull (Rbsp.add_loop 0 SpsH264.hd1080_bytes) = Ret (Val (SpsH264.mkRes 1920 1080)).
Proof.
  apply (sps_parsers_agree SpsH264.hd1080 SpsH264.hd1080_lists SpsH264.hd1080_bytes
    (dropZ (len (items_bits (SpsH264.h264_items SpsH264.hd1080 SpsH264.hd1080_lists))) (bits_of SpsH264.hd1080_bytes))).
  - exact SpsH264.hd1080_ok.
  - done.
  - by vm_compute.
  - unfold is_byte; decide_goal.
  - by vm_compute.
  - right. exists 0x67. split; [done|]. by left.
  - done.
  - done.
Defined.

(** The checks before the decoder read the first byte of a set that may be empty. *)
Example enhanced_empty : EnhancedSPSValidation [] = Panic.
Proof. reflexivity. Qed.
