(* ===== verification/ParamCache.v ===== *)
(** * The parameter-set cache (types/parameter_cache.go)

    A map and a list in the order of use: lookups promote, insertions evict the
    least recently used item, items expire.  The pair refines one list of
    entries ([cache_refines]).  Each call reads the clock once; the background
    sweep is the operation [cleanupExpired], run at any time. *)

From stdpp Require Import strings.
From S2P Require Import Prelude.

Section cache.
Context {V : Type}.

Record cacheItem := mkItem { value : V; expiresAt : Z; accessCount : Z }.
Record ParameterSetCache := mkCache {
  maxSize : Z; ttl : Z; order : list string; items : gmap string cacheItem;
  hits : Z; misses : Z; evicted : Z; expired : Z
}.
End cache.
Arguments cacheItem V : clear implicits.
Arguments ParameterSetCache V : clear implicits.
#[export] Instance eta_cacheItem {V} : Eta (cacheItem V) := fun i => mkItem (value i) (expiresAt i) (accessCount i).
#[export] Instance eta_ParameterSetCache {V} : Eta (ParameterSetCache V) := fun c =>
  mkCache (maxSize c) (ttl c) (order c) (items c) (hits c) (misses c) (evicted c) (expired c).

Section operations.
Context {V : Type}.
Implicit Types (c : ParameterSetCache V) (key : string).

Definition NewParameterSetCache (maxSize ttl : Z) : ParameterSetCache V := mkCache maxSize ttl [] ∅ 0 0 0 0.

(** [list.Remove], by the item's key; [list.MoveToFront]. *)
Definition list_remove key (l : list string) : list string := filter (fun k => k <> key) l.
Definition move_to_front key (l : list string) : list string := key :: list_remove key l.

Definition removeItem key c : ParameterSetCache V := c <| order := list_remove key (order c) |> <| items := delete key (items c) |>.

Definition evictLRU c : ParameterSetCache V :=
  match last (order c) with
  | None => c
  | Some key => let c := removeItem key c in c <| evicted := u64 (evicted c + 1) |>
  end.

Definition Get (now : Z) key c : ParameterSetCache V * option V :=
  match items c !! key with
  | None => (c <| misses := u64 (misses c + 1) |>, None)
  | Some item =>
      if expiresAt item <? now then
        let c := removeItem key c in
        (c <| expired := u64 (expired c + 1) |> <| misses := u64 (misses c + 1) |>, None)
      else
        let item := item <| accessCount := u64 (accessCount item + 1) |> in
        (c <| order := move_to_front key (order c) |> <| items := <[key := item]> (items c) |> <| hits := u64 (hits c + 1) |>,
         Some (value item))
  end.

Definition Put (now : Z) key (v : V) c : ParameterSetCache V :=
  match items c !! key with
  | Some item =>
      let item := item <| value := v |> <| expiresAt := now + ttl c |> in
      c <| order := move_to_front key (order c) |> <| items := <[key := item]> (items c) |>
  | None =>
      let item := mkItem v (now + ttl c) 1 in
      let c := c <| order := key :: order c |> <| items := <[key := item]> (items c) |> in
      if maxSize c <? len (order c) then evictLRU c else c
  end.

(** The sweep from the back of the list. *)
Fixpoint sweep (now : Z) (keys : list string) c : ParameterSetCache V :=
  match keys with
  | [] => c
  | key :: keys =>
      sweep now keys
        (match items c !! key with
         | Some item => if expiresAt item <? now then let c := removeItem key c in c <| expired := u64 (expired c + 1) |> else c
         | None => c
         end)
  end.
Definition cleanupExpired (now : Z) c : ParameterSetCache V := sweep now (rev (order c)) c.

Definition GetStatistics c : list Z := [len (order c); maxSize c; hits c; misses c; evicted c; expired c].

(** ** The abstract cache: entries in the order of use *)

Record entry := mkEntry { e_key : string; e_value : V; e_expires : Z }.
Definition without key (l : list entry) : list entry := filter (fun e => e_key e <> key) l.
Definition find_entry key (l : list entry) : option entry := head (filter (fun e => e_key e = key) l).

Definition abs_get (now : Z) key (l : list entry) : list entry * option V :=
  match find_entry key l with
  | None => (l, None)
  | Some e => if e_expires e <? now then (without key l, None) else (e :: without key l, Some (e_value e))
  end.
(** The new entry first; the last goes if there are too many. *)
Definition abs_put (max ttl now : Z) key (v : V) (l : list entry) : list entry :=
  let l' := mkEntry key v (now + ttl) :: without key l in
  match find_entry key l with
  | Some _ => l'
  | None => if max <? len l' then removelast l' else l'
  end.
Definition abs_sweep (now : Z) (l : list entry) : list entry := filter (fun e => now <= e_expires e) l.

Inductive cache_op : Type := OpGet (now : Z) (key : string) | OpPut (now : Z) (key : string) (v : V) | OpSweep (now : Z).
Definition cache_step (o : cache_op) c : ParameterSetCache V * option V :=
  match o with
  | OpGet now key => Get now key c
  | OpPut now key v => (Put now key v c, None)
  | OpSweep now => (cleanupExpired now c, None)
  end.
Definition abs_step (max ttl : Z) (o : cache_op) (l : list entry) : list entry * option V :=
  match o with
  | OpGet now key => abs_get now key l
  | OpPut now key v => (abs_put max ttl now key v l, None)
  | OpSweep now => (abs_sweep now l, None)
  end.

Fixpoint cache_run (ops : list cache_op) c : ParameterSetCache V * list (option V) :=
  match ops with
  | [] => (c, [])
  | o :: ops => let '(c, r) := cache_step o c in let '(c, rs) := cache_run ops c in (c, r :: rs)
  end.
Fixpoint abs_run (max ttl : Z) (ops : list cache_op) (l : list entry) : list entry * list (option V) :=
  match ops with
  | [] => (l, [])
  | o :: ops => let '(l, r) := abs_step max ttl o l in let '(l, rs) := abs_run max ttl ops l in (l, r :: rs)
  end.

(** The list and the map hold the same entries. *)
Record repr c (l : list entry) : Prop := {
  r_order : order c = e_key <$> l;
  r_nodup : NoDup (e_key <$> l);
  r_items key : items c !! key ≫= (fun i => Some (value i, expiresAt i)) = find_entry key l ≫= (fun e => Some (e_value e, e_expires e))
}.

(** ** Lemmas *)

Lemma find_cons key e l : find_entry key (e :: l) = if bool_decide (e_key e = key) then Some e else find_entry key l.
Proof. unfold find_entry. rewrite filter_cons. case_decide; [by rewrite bool_decide_true|by rewrite bool_decide_false]. Qed.
Lemma find_without key k l : find_entry key (without k l) = if bool_decide (key = k) then None else find_entry key l.
Proof.
  unfold without. induction l as [|e l IH]; [by case_bool_decide|].
  destruct (decide (e_key e <> k)) as [Hk|Hk]; [rewrite filter_cons_True by done|rewrite filter_cons_False by done].
  - rewrite !find_cons, IH. repeat case_bool_decide; congruence.
  - rewrite IH, find_cons. repeat case_bool_decide; naive_solver.
Qed.
Lemma keys_without k l : e_key <$> without k l = list_remove k (e_key <$> l).
Proof.
  unfold without, list_remove. induction l as [|e l IH]; [done|]. rewrite fmap_cons, !filter_cons.
  case_decide; rewrite ?fmap_cons, IH; done.
Qed.
Lemma find_Some key l e : find_entry key l = Some e -> e_key e = key /\ e ∈ l.
Proof.
  unfold find_entry. intros H%head_Some_elem_of%list_elem_of_filter. done.
Qed.
Lemma find_None key l : find_entry key l = None <-> key ∉ e_key <$> l.
Proof.
  induction l as [|e l IH]; [by split; [intros _ H%not_elem_of_nil|]|]. rewrite find_cons, fmap_cons, not_elem_of_cons.
  case_bool_decide; [split; [done|intros [? _]; congruence]|]. rewrite IH. naive_solver.
Qed.
Lemma nodup_without k l : NoDup (e_key <$> l) -> NoDup (e_key <$> without k l).
Proof. intros H. rewrite keys_without. by apply NoDup_filter. Qed.
Lemma not_in_without k l : k ∉ e_key <$> without k l.
Proof. rewrite keys_without. unfold list_remove. intros [? _]%list_elem_of_filter. done. Qed.
Lemma without_absent k l : k ∉ e_key <$> l -> without k l = l.
Proof.
  induction l as [|e l IH]; [done|]. rewrite fmap_cons, not_elem_of_cons. intros [Hk Hl]. unfold without.
  rewrite filter_cons_True by congruence. f_equal. by apply IH.
Qed.

Lemma repr_find c l key :
  repr c l -> match items c !! key, find_entry key l with
              | None, None => True
              | Some i, Some e => value i = e_value e /\ expiresAt i = e_expires e
              | _, _ => False
              end.
Proof. intros [_ _ Hi]. specialize (Hi key). destruct (items c !! key), (find_entry key l); cbn in Hi; congruence || naive_solver. Qed.

Lemma repr_remove c l key : repr c l -> repr (removeItem key c) (without key l).
Proof.
  intros [H1 H2 H3]. split; cbn; [by rewrite H1, keys_without|by apply nodup_without|].
  intros k. rewrite find_without. case_bool_decide; [subst; by rewrite lookup_delete_eq|by rewrite lookup_delete_ne].
Qed.

Lemma repr_front c l key i e :
  repr c l -> e_key e = key -> value i = e_value e -> expiresAt i = e_expires e ->
  repr (c <| order := move_to_front key (order c) |> <| items := <[key := i]> (items c) |>) (e :: without key l).
Proof.
  intros [H1 H2 H3] Hk Hv He. split; cbn [order items upd]; rewrite ?fmap_cons, ?Hk.
  - unfold move_to_front. by rewrite H1, keys_without.
  - constructor; [apply not_in_without|by apply nodup_without].
  - intros k. cbn. rewrite find_cons, Hk. case_bool_decide.
    + subst k. rewrite lookup_insert_eq. cbn. by rewrite Hv, He.
    + rewrite lookup_insert_ne by done. rewrite find_without, bool_decide_false by done. apply H3.
Qed.

Lemma order_len c l : repr c l -> len (order c) = len l.
Proof. intros [-> _ _]. unfold len. by rewrite length_fmap. Qed.

Lemma removelast_without l e : NoDup (e_key <$> (l ++ [e])) -> without (e_key e) (l ++ [e]) = l.
Proof.
  rewrite fmap_app. intros (Hl & Hd & _)%NoDup_app. unfold without. rewrite filter_app, filter_cons_False by auto.
  rewrite filter_nil, app_nil_r. apply without_absent. intros H. apply (Hd _ H). by left.
Qed.

Lemma repr_evict c l : repr c l -> repr (evictLRU c) (removelast l).
Proof.
  intros Hr. pose proof Hr as [H1 H2 H3]. unfold evictLRU. rewrite H1. destruct l as [|e l _] using rev_ind; [done|].
  rewrite fmap_app. change (e_key <$> [e]) with [e_key e]. rewrite last_snoc, removelast_last. apply (repr_remove _ _ (e_key e)) in Hr.
  rewrite removelast_without in Hr by done. destruct Hr as [G1 G2 G3]. by split.
Qed.

Lemma Get_refines now key c l :
  repr c l -> let '(c', r) := Get now key c in let '(l', r') := abs_get now key l in r = r' /\ repr c' l'.
Proof.
  intros Hr. pose proof (repr_find c l key Hr) as Hf. unfold Get, abs_get.
  destruct (items c !! key) as [i|], (find_entry key l) as [e|] eqn:He; try done.
  - destruct Hf as [Hv Hx]. apply find_Some in He as [Hk _]. rewrite Hx. case_bool.
    + split; [done|]. destruct (repr_remove c l key Hr) as [G1 G2 G3]. by split.
    + split; [cbn; by rewrite Hv|]. set (i' := i <| accessCount := _ |>).
      destruct (repr_front c l key i' e Hr Hk Hv Hx) as [G1 G2 G3]. by split.
  - split; [done|]. destruct Hr as [G1 G2 G3]. by split.
Qed.

Lemma Put_refines now key v c l : repr c l -> repr (Put now key v c) (abs_put (maxSize c) (ttl c) now key v l).
Proof.
  intros Hr. pose proof (repr_find c l key Hr) as Hf. unfold Put, abs_put.
  destruct (items c !! key) as [i|], (find_entry key l) as [e|] eqn:He; try done.
  - set (i' := i <| value := v |> <| expiresAt := now + ttl c |>).
    exact (repr_front c l key i' (mkEntry key v (now + ttl c)) Hr eq_refl eq_refl eq_refl).
  - apply find_None in He. rewrite (without_absent key l He).
    set (c1 := c <| order := key :: order c |> <| items := <[key := mkItem v (now + ttl c) 1]> (items c) |>).
    assert (repr c1 (mkEntry key v (now + ttl c) :: l)) as Hr1.
    { pose proof Hr as [H1 H2 H3]. split; cbn; [by rewrite H1|by constructor|]. intros k. rewrite find_cons. cbn.
      case_bool_decide; [subst; by rewrite lookup_insert_eq|by rewrite lookup_insert_ne]. }
    rewrite (order_len c1 _ Hr1). change (maxSize c1) with (maxSize c). case_bool; [by apply repr_evict|done].
Qed.

(** The sweep visits every entry; each is kept or dropped on its own. *)
Lemma sweep_refines now l2 l1 c :
  repr c (l1 ++ l2) -> repr (sweep now (rev (e_key <$> l1)) c) (abs_sweep now l1 ++ l2).
Proof.
  revert l2 c. induction l1 as [|e l1 IH] using rev_ind; intros l2 c Hr; [done|].
  rewrite fmap_app, rev_app_distr. cbn [rev fmap list_fmap app sweep].
  pose proof (repr_find c _ (e_key e) Hr) as Hf. pose proof Hr as [H1 H2 H3].
  assert (find_entry (e_key e) ((l1 ++ [e]) ++ l2) = Some e) as He.
  { clear -H2. induction l1 as [|d l1 IH]; cbn [app]; rewrite find_cons; [by rewrite bool_decide_true|].
    cbn in H2. apply NoDup_cons in H2 as [Hd H2]. rewrite bool_decide_false; [by apply IH|].
    intros E. apply Hd. rewrite E, !fmap_app. apply elem_of_app. left. apply elem_of_app. right. by left. }
  rewrite He in Hf. destruct (items c !! e_key e) as [i|]; [|done]. destruct Hf as [_ ->]. unfold abs_sweep in *. rewrite filter_app.
  destruct (Z.ltb_spec (e_expires e) now).
  - rewrite (filter_cons_False _ e) by lia. rewrite filter_nil, app_nil_r. apply IH.
    apply (repr_remove _ _ (e_key e)) in Hr.
    assert (without (e_key e) ((l1 ++ [e]) ++ l2) = l1 ++ l2) as E.
    { rewrite !fmap_app in H2. apply NoDup_app in H2 as (Ha & Hd & Hb). apply NoDup_app in Ha as (_ & Hc & _).
      unfold without. rewrite !filter_app, (filter_cons_False _ e) by auto. rewrite filter_nil, app_nil_r.
      fold (without (e_key e) l1) (without (e_key e) l2). rewrite !without_absent; [done| |].
      - intros Hin. apply (Hd (e_key e)); [|done]. apply elem_of_app. right. by left.
      - intros Hin. apply (Hc _ Hin). by left. }
    rewrite E in Hr. destruct Hr as [G1 G2 G3]. by split.
  - rewrite (filter_cons_True _ e) by lia. rewrite filter_nil, <- app_assoc. apply IH. by rewrite <- app_assoc in Hr.
Qed.
Lemma cleanup_refines now c l : repr c l -> repr (cleanupExpired now c) (abs_sweep now l).
Proof.
  intros Hr. unfold cleanupExpired. rewrite (r_order _ _ Hr). rewrite <- (app_nil_r (abs_sweep now l)). apply sweep_refines.
  by rewrite app_nil_r.
Qed.

Lemma step_refines o c l :
  repr c l -> (cache_step o c).2 = (abs_step (maxSize c) (ttl c) o l).2 /\
    repr (cache_step o c).1 (abs_step (maxSize c) (ttl c) o l).1.
Proof.
  intros Hr. destruct o as [now key|now key v|now]; cbn [cache_step abs_step].
  - pose proof (Get_refines now key c l Hr) as Hg. destruct (Get now key c), (abs_get now key l). done.
  - split; [done|]. by apply Put_refines.
  - split; [done|]. by apply cleanup_refines.
Qed.

Lemma sweep_config now keys c : maxSize (sweep now keys c) = maxSize c /\ ttl (sweep now keys c) = ttl c.
Proof.
  revert c. induction keys as [|k keys IH]; intros c; [done|]. cbn [sweep].
  set (c1 := match items c !! k with Some _ => _ | None => _ end). destruct (IH c1) as [-> ->]. subst c1.
  destruct (items c !! k); [|done]. by case_bool.
Qed.
Lemma step_config o c : maxSize (cache_step o c).1 = maxSize c /\ ttl (cache_step o c).1 = ttl c.
Proof.
  destruct o as [now key|now key v|now]; cbn [cache_step fst].
  - unfold Get. destruct (items c !! key); [by case_bool|done].
  - unfold Put. destruct (items c !! key); [done|]. cbv zeta. case_bool; [|done]. unfold evictLRU. cbn [order upd].
    by destruct (last _).
  - apply sweep_config.
Qed.

Lemma run_refines ops c l :
  repr c l -> (cache_run ops c).2 = (abs_run (maxSize c) (ttl c) ops l).2 /\
    repr (cache_run ops c).1 (abs_run (maxSize c) (ttl c) ops l).1.
Proof.
  revert c l. induction ops as [|o ops IH]; intros c l Hr; [done|]. cbn [cache_run abs_run].
  destruct (step_refines o c l Hr) as [H1 H2]. destruct (step_config o c) as [C1 C2].
  destruct (cache_step o c) as [c1 r1], (abs_step (maxSize c) (ttl c) o l) as [l1 s1]. cbn [fst snd] in *. subst s1.
  destruct (IH c1 l1 H2) as [H3 H4]. rewrite C1, C2 in *.
  destruct (cache_run ops c1), (abs_run (maxSize c) (ttl c) ops l1). cbn [fst snd] in *. by subst.
Qed.

Lemma len_filter (P : entry -> Prop) `{!forall e, Decision (P e)} l : len (filter P l) <= len l.
Proof. unfold len. pose proof (length_filter P l). lia. Qed.
Lemma len_removelast (l : list entry) : len (removelast l) = Z.max 0 (len l - 1).
Proof.
  destruct l as [|e l _] using rev_ind; [done|]. rewrite removelast_last, len_app. change (len [e]) with 1.
  pose proof (len_nonneg l). lia.
Qed.
Lemma find_without_len key e l : find_entry key l = Some e -> len (without key l) < len l.
Proof.
  intros He. apply find_Some in He as [Hk Hin]. apply list_elem_of_split in Hin as (l1 & l2 & ->).
  unfold without. rewrite filter_app, filter_cons_False by auto. rewrite !len_app, len_cons.
  pose proof (len_filter (fun d => e_key d <> key) l1). pose proof (len_filter (fun d => e_key d <> key) l2). lia.
Qed.
Lemma abs_bound max ttl ops l : 0 <= max -> len l <= max -> len (abs_run max ttl ops l).1 <= max.
Proof.
  intros Hm. revert l. induction ops as [|o ops IH]; intros l Hl; [done|]. cbn [abs_run].
  assert (len (abs_step max ttl o l).1 <= max) as H1.
  { destruct o as [now key|now key v|now]; cbn [abs_step fst].
    - unfold abs_get. destruct (find_entry key l) as [e|] eqn:He; [|done]. pose proof (find_without_len key e l He).
      case_bool; cbn [fst]; rewrite ?len_cons; lia.
    - unfold abs_put. destruct (find_entry key l) as [e|] eqn:He.
      + pose proof (find_without_len key e l He). rewrite len_cons. lia.
      + pose proof (len_filter (fun d => e_key d <> key) l). unfold without in *. case_bool; [rewrite len_removelast, len_cons in *; lia|done].
    - unfold abs_sweep. pose proof (len_filter (fun e => now <= e_expires e) l). lia. }
  destruct (abs_step max ttl o l) as [l1 s]. cbn [fst] in H1. specialize (IH l1 H1). by destruct (abs_run max ttl ops l1).
Qed.
End operations.

(** C26: the cache - a hash map and a doubly linked list kept in step by lookups,
    updates, insertions, evictions and background sweeps - answers every
    sequence of calls as one list of entries in the order of use would: a lookup
    finds the latest value unless it has expired, the least recently used entry
    goes when there are too many, and there are never more than [maxSize]. *)
Theorem cache_refines {V : Type} (max life : Z) (ops : list (@cache_op V)) :
  0 <= max ->
  let '(c, out) := cache_run ops (NewParameterSetCache max life) in
  let '(l, out') := abs_run max life ops [] in
  out = out' /\ order c = e_key <$> l /\ len (order c) <= max.
Proof.
  intros Hm. assert (repr (NewParameterSetCache max life) ([] : list (@entry V))) as Hr.
  { split; [done|constructor|]. intros k. cbn. by rewrite lookup_empty. }
  pose proof (run_refines ops _ _ Hr) as [H1 H2]. pose proof (abs_bound max life ops [] Hm Hm) as H3. cbn [maxSize ttl NewParameterSetCache] in *.
  destruct (cache_run ops (NewParameterSetCache max life)) as [c out], (abs_run max life ops []) as [l out']. cbn [fst snd] in *.
  split; [done|]. rewrite (order_len _ _ H2). split; [apply (r_order _ _ H2)|done].
Qed.

(** Room for two: the second key, used last, stays; the first goes; the third
    has expired when it is asked for. *)
Definition sample_ops : list (@cache_op Z) :=
  [OpPut 0 "a" 1; OpPut 1 "b" 2; OpGet 2 "b"; OpPut 3 "c" 3; OpGet 4 "a"; OpGet 5 "b"; OpGet 14 "c"; OpSweep 20].
Lemma cache_refines_witness :
  let '(c, out) := cache_run sample_ops (NewParameterSetCache 2 10) in
  let '(l, out') := abs_run 2 10 sample_ops [] in
  out = out' /\ order c = e_key <$> l /\ len (order c) <= 2.
Proof. apply (cache_refines 2 10 sample_ops). lia. Defined.
Example sample_answers :
  (cache_run sample_ops (NewParameterSetCache 2 10)).2 = [None; None; Some 2; None; None; Some 2; None; None].
Proof. reflexivity. Qed.
