(* ===== verification/ParamValidator.v ===== *)
(** * Update limits on parameter sets (types/parameter_validator.go)

    The validator remembers a checksum, the time and the number of the updates
    of each id and refuses updates that come too fast.  SHA-256 is a parameter
    ([sha256], to the bytes of its hexadecimal form), and each call reads the
    clock once. *)

From S2P Require Import Prelude Returns.

(** A Go map read gives the zero value for a missing key. *)
Notation "m !!0 k" := (default 0 (m !! k)) (at level 20).

Record ParameterSetValidator := mkValidator {
  spsChecksums : gmap Z (list Z); ppsChecksums : gmap Z (list Z);
  lastSPSUpdate : gmap Z Z; lastPPSUpdate : gmap Z Z;
  spsUpdateCount : gmap Z Z; ppsUpdateCount : gmap Z Z;
  ppsDependencies : gmap Z Z; spsReferences : gmap Z Z;
  maxUpdateRate : Z; maxUpdatesPerHour : Z; enforceConsistency : bool;
  validationErrors : Z; rateLimitViolations : Z; checksumMismatches : Z; lastCleanup : Z
}.
#[export] Instance eta_ParameterSetValidator : Eta ParameterSetValidator := fun v =>
  mkValidator (spsChecksums v) (ppsChecksums v) (lastSPSUpdate v) (lastPPSUpdate v) (spsUpdateCount v) (ppsUpdateCount v)
    (ppsDependencies v) (spsReferences v) (maxUpdateRate v) (maxUpdatesPerHour v) (enforceConsistency v)
    (validationErrors v) (rateLimitViolations v) (checksumMismatches v) (lastCleanup v).

Definition Hour : Z := 3600000000000.

Definition NewParameterSetValidator (maxUpdateRate maxUpdatesPerHour now : Z) : ParameterSetValidator :=
  mkValidator ∅ ∅ ∅ ∅ ∅ ∅ ∅ ∅ maxUpdateRate maxUpdatesPerHour false 0 0 0 now.

Inductive validator_error : Type :=
| UpdateTooFrequent (since : Z)
| HourlyLimitExceeded (count : Z)
| ChecksumMismatch (id : Z)
| StructureTooShort (n : Z)
| NotSPSType (t : Z)
| ReferencesMissingSPS (pps sps : Z)
| DependencyChanged (pps old new : Z).

Abbreviation vmethod := (method ParameterSetValidator validator_error).
(** [v.counter++; return err] *)
Definition fail_with {A} (f : ParameterSetValidator -> ParameterSetValidator) (e : validator_error) : vmethod A :=
  v ← get; _ ← put (f v); fail e.
Definition count_error (v : ParameterSetValidator) := v <| validationErrors := validationErrors v + 1 |>.
Definition count_violation (v : ParameterSetValidator) := v <| rateLimitViolations := rateLimitViolations v + 1 |>.
Definition count_mismatch (v : ParameterSetValidator) := v <| checksumMismatches := checksumMismatches v + 1 |>.

(** The zero time of an id without updates passes. *)
Definition checkRateLimit (now : Z) (id : Z) (isSPS : bool) (v : ParameterSetValidator) : option validator_error :=
  let lastUpdate := (if isSPS then lastSPSUpdate v else lastPPSUpdate v) !! id in
  let updateCount := (if isSPS then spsUpdateCount v else ppsUpdateCount v) !!0 id in
  match lastUpdate with
  | Some t => if now - t <? maxUpdateRate v then Some (UpdateTooFrequent (now - t))
              else if maxUpdatesPerHour v <? updateCount then Some (HourlyLimitExceeded updateCount) else None
  | None => if maxUpdatesPerHour v <? updateCount then Some (HourlyLimitExceeded updateCount) else None
  end.

Definition validateSPSStructure (data : list Z) : res (option validator_error) :=
  if len data <? 4 then Ret (Some (StructureTooShort (len data)))
  else
    b ← idx data 0;
    if Z.land b 0x80 =? 0 then
      let nalType := Z.land b 0x1f in
      Ret (if negb (nalType =? 7) && negb (nalType =? 15) then Some (NotSPSType nalType) else None)
    else Ret None.

(** The counts of the ids without an update in the last hour. *)
Definition reset_counts (now : Z) (last counts : gmap Z Z) : gmap Z Z :=
  map_imap (fun id c => Some (match last !! id with
                              | Some t => if t <? now - Hour then 0 else c
                              | None => 0 end)) counts.
Definition cleanupIfNeeded (now : Z) (v : ParameterSetValidator) : ParameterSetValidator :=
  if now - lastCleanup v <? Hour then v
  else v <| lastCleanup := now |> <| spsUpdateCount := reset_counts now (lastSPSUpdate v) (spsUpdateCount v) |>
         <| ppsUpdateCount := reset_counts now (lastPPSUpdate v) (ppsUpdateCount v) |>.

Section validator.
Context (sha256 : list Z -> list Z).

Definition ValidateSPS (now spsID : Z) (data : list Z) : vmethod unit :=
  v ← get;
  let checksum := sha256 data in
  if bool_decide (spsChecksums v !! spsID = Some checksum) then mret tt
  else
    match checkRateLimit now spsID true v with
    | Some e => fail_with count_violation e
    | None =>
        v ← (match spsChecksums v !! spsID with
             | Some _ => _ ← put (count_mismatch v); get
             | None => mret v
             end);
        if bool_decide (is_Some (spsChecksums v !! spsID)) && enforceConsistency v then fail (ChecksumMismatch spsID)
        else
          e ← pure_res (validateSPSStructure data);
          match e with
          | Some e => fail_with count_error e
          | None =>
              put (cleanupIfNeeded now
                     (v <| spsChecksums := <[spsID := checksum]> (spsChecksums v) |>
                        <| lastSPSUpdate := <[spsID := now]> (lastSPSUpdate v) |>
                        <| spsUpdateCount := <[spsID := spsUpdateCount v !!0 spsID + 1]> (spsUpdateCount v) |>))
          end
    end.

(** The books of which PPS depends on which SPS. *)
Definition track_dependency (ppsID spsID : Z) (v : ParameterSetValidator) : ParameterSetValidator :=
  let refs := match ppsDependencies v !! ppsID with
              | Some old => if negb (old =? spsID) && (0 <? spsReferences v !!0 old)
                            then <[old := spsReferences v !!0 old - 1]> (spsReferences v) else spsReferences v
              | None => spsReferences v
              end in
  v <| ppsDependencies := <[ppsID := spsID]> (ppsDependencies v) |> <| spsReferences := <[spsID := refs !!0 spsID + 1]> refs |>.

Definition ValidatePPS (now ppsID spsID : Z) (data : list Z) : vmethod unit :=
  v ← get;
  let checksum := sha256 data in
  if bool_decide (ppsChecksums v !! ppsID = Some checksum) then mret tt
  else
    match checkRateLimit now ppsID false v with
    | Some e => fail_with count_violation e
    | None =>
        if negb (bool_decide (is_Some (spsChecksums v !! spsID))) && enforceConsistency v
        then fail_with count_error (ReferencesMissingSPS ppsID spsID)
        else
          let old := ppsDependencies v !!0 ppsID in
          if bool_decide (is_Some (ppsChecksums v !! ppsID)) && bool_decide (is_Some (ppsDependencies v !! ppsID))
             && negb (old =? spsID) && enforceConsistency v
          then fail_with count_error (DependencyChanged ppsID old spsID)
          else
            let v := track_dependency ppsID spsID v in
            put (v <| ppsChecksums := <[ppsID := checksum]> (ppsChecksums v) |>
                   <| lastPPSUpdate := <[ppsID := now]> (lastPPSUpdate v) |>
                   <| ppsUpdateCount := <[ppsID := ppsUpdateCount v !!0 ppsID + 1]> (ppsUpdateCount v) |>)
    end.

(** The PPS whose SPS is unknown; an error if there is one. *)
Definition missing_references (v : ParameterSetValidator) : list (Z * Z) :=
  filter (fun d => spsChecksums v !! d.2 = None) (map_to_list (ppsDependencies v)).
Definition ValidateCrossReferences (v : ParameterSetValidator) : bool := bool_decide (missing_references v = []).

Definition GetDependencies (v : ParameterSetValidator) : gmap Z Z := ppsDependencies v.
Definition GetStatistics (v : ParameterSetValidator) : list Z :=
  [validationErrors v; rateLimitViolations v; checksumMismatches v; Z.of_nat (size (spsChecksums v));
   Z.of_nat (size (ppsChecksums v)); Z.of_nat (size (ppsDependencies v))].
Definition Reset (v : ParameterSetValidator) : ParameterSetValidator :=
  v <| spsChecksums := ∅ |> <| ppsChecksums := ∅ |> <| lastSPSUpdate := ∅ |> <| lastPPSUpdate := ∅ |>
    <| spsUpdateCount := ∅ |> <| ppsUpdateCount := ∅ |> <| ppsDependencies := ∅ |> <| spsReferences := ∅ |>
    <| validationErrors := 0 |> <| rateLimitViolations := 0 |> <| checksumMismatches := 0 |>.

(** ** Runs *)

Inductive vcall : Type := CallSPS (id : Z) (data : list Z) | CallPPS (pps sps : Z) (data : list Z).
Definition run_call (now : Z) (c : vcall) : vmethod unit :=
  match c with CallSPS id data => ValidateSPS now id data | CallPPS p s data => ValidatePPS now p s data end.

(** The updates accepted as changes: kind, id and time, the newest first. *)
Definition change_of (c : vcall) : bool * Z := match c with CallSPS id _ => (true, id) | CallPPS p _ _ => (false, p) end.
Definition is_duplicate (c : vcall) (v : ParameterSetValidator) : bool :=
  match c with
  | CallSPS id data => bool_decide (spsChecksums v !! id = Some (sha256 data))
  | CallPPS p _ data => bool_decide (ppsChecksums v !! p = Some (sha256 data))
  end.
Fixpoint run_calls (calls : list (Z * vcall)) (v : ParameterSetValidator) (changes : list (bool * Z * Z))
    : res (ParameterSetValidator * list (bool * Z * Z)) :=
  match calls with
  | [] => Ret (v, changes)
  | (now, c) :: calls =>
      '(v', r) ← run_call now c v;
      run_calls calls v' (match r with
                          | Val _ => if is_duplicate c v then changes else (change_of c, now) :: changes
                          | Err _ => changes end)
  end.
End validator.

(** ** What a call does to the books *)

Definition last_of (k : bool) (v : ParameterSetValidator) := if k then lastSPSUpdate v else lastPPSUpdate v.
Definition count_of (k : bool) (v : ParameterSetValidator) := if k then spsUpdateCount v else ppsUpdateCount v.
Definition sums_of (k : bool) (v : ParameterSetValidator) := if k then spsChecksums v else ppsChecksums v.

Record unchanged (v v' : ParameterSetValidator) : Prop := {
  u_config : maxUpdateRate v' = maxUpdateRate v /\ maxUpdatesPerHour v' = maxUpdatesPerHour v;
  u_last k : last_of k v' = last_of k v;
  u_count k : count_of k v' = count_of k v;
  u_sums k : sums_of k v' = sums_of k v
}.
(** An update of [id]: its time is noted, its count goes up or - for a sequence
    set, with others - back to 0. *)
Record changed (k : bool) (id now : Z) (sum : list Z) (v v' : ParameterSetValidator) : Prop := {
  c_config : maxUpdateRate v' = maxUpdateRate v /\ maxUpdatesPerHour v' = maxUpdatesPerHour v;
  c_last j : last_of j v' = if Bool.eqb j k then <[id := now]> (last_of j v) else last_of j v;
  c_count j i : (k = true /\ count_of j v' !!0 i = 0) \/
    count_of j v' !!0 i = count_of j v !!0 i + (if Bool.eqb j k && (i =? id) then 1 else 0);
  c_sums j : sums_of j v' = if Bool.eqb j k then <[id := sum]> (sums_of j v) else sums_of j v
}.

Lemma lookup0_insert (m : gmap Z Z) i j c : <[i := c]> m !!0 j = if j =? i then c else m !!0 j.
Proof.
  destruct (Z.eqb_spec j i) as [->|Hne]; [by rewrite lookup_insert_eq|by rewrite lookup_insert_ne].
Qed.
Lemma reset_counts_0 now last m i : reset_counts now last m !!0 i = 0 \/ reset_counts now last m !!0 i = m !!0 i.
Proof.
  unfold reset_counts. rewrite map_lookup_imap. destruct (m !! i) as [c|]; [|by left]. cbn.
  destruct (last !! i) as [t|]; [|by left]. case_bool; auto.
Qed.
Lemma validateSPSStructure_total data : exists e, validateSPSStructure data = Ret e.
Proof.
  unfold validateSPSStructure. destruct (Z.ltb_spec (len data) 4); [eauto|].
  destruct (idx_Ret data 0) as (b & -> & _); [lia|]. rewrite bind_Ret. case_bool; eauto.
Qed.

Lemma unchanged_refl v : unchanged v v.
Proof. by split. Qed.
Lemma unchanged_fail {A} f e v : (forall v, unchanged v (f v)) ->
  exists v' (r : exn validator_error A), fail_with f e v = Ret (v', r) /\ unchanged v v' /\ r = Err e.
Proof. intros Hf. by exists (f v), (Err e). Qed.

Section calls.
Context (sha256 : list Z -> list Z).

Definition call_spec (now : Z) (c : vcall) (v : ParameterSetValidator) (out : res (ParameterSetValidator * exn validator_error unit)) : Prop :=
  let '(k, id) := change_of c in
  let data := match c with CallSPS _ d | CallPPS _ _ d => d end in
  exists v' r, out = Ret (v', r) /\
    ((is_duplicate sha256 c v = true /\ r = Val tt /\ v' = v) \/
     (is_duplicate sha256 c v = false /\ (exists e, r = Err e) /\ unchanged v v') \/
     (is_duplicate sha256 c v = false /\ r = Val tt /\ checkRateLimit now id k v = None /\ changed k id now (sha256 data) v v')).

Lemma cleanup_changed now id sum v :
  changed true id now sum v (cleanupIfNeeded now
    (v <| spsChecksums := <[id := sum]> (spsChecksums v) |> <| lastSPSUpdate := <[id := now]> (lastSPSUpdate v) |>
       <| spsUpdateCount := <[id := spsUpdateCount v !!0 id + 1]> (spsUpdateCount v) |>)).
Proof.
  unfold cleanupIfNeeded. case_bool; split; cbn; try done; try (by intros []).
  - intros [] i; cbn; rewrite ?lookup0_insert; [|right; lia]. case_bool; subst; right; lia.
  - intros [] i; cbn.
    + match goal with |- context [reset_counts ?n ?l ?m] => destruct (reset_counts_0 n l m i) as [->| ->] end; [by left|].
      rewrite lookup0_insert. case_bool; subst; right; lia.
    + match goal with |- context [reset_counts ?n ?l ?m] => destruct (reset_counts_0 n l m i) as [->| ->] end; [by left|right; lia].
Qed.

Lemma ValidateSPS_spec now id data v : call_spec now (CallSPS id data) v (ValidateSPS sha256 now id data v).
Proof.
  unfold call_spec, ValidateSPS. cbn [change_of is_duplicate]. rewrite (method_bind_Val get _ _ v v eq_refl). cbv zeta.
  destruct (bool_decide (spsChecksums v !! id = Some (sha256 data))) eqn:Hd; [exists v, (Val tt); auto 10|].
  destruct (checkRateLimit now id true v) as [e|] eqn:Hc.
  { destruct (unchanged_fail (A := unit) count_violation e v) as (v' & r & -> & Hu & ->); [by intros; split|]. eauto 10. }
  set (v1 := match spsChecksums v !! id with Some _ => count_mismatch v | None => v end).
  assert ((match spsChecksums v !! id with
           | Some _ => _ ← put (count_mismatch v); get
           | None => mret v end : vmethod ParameterSetValidator) v = Ret (v1, Val v1)) as E by (subst v1; by destruct (spsChecksums v !! id)).
  rewrite (method_bind_Val _ _ _ _ _ E). assert (unchanged v v1) as Hu by (subst v1; by destruct (spsChecksums v !! id)).
  case_bool; [exists v1; eexists; eauto 10|].
  destruct (validateSPSStructure_total data) as (e & Ee). unfold pure_res. rewrite Ee.
  rewrite (method_bind_Val _ _ v1 v1 e) by done. destruct e as [e|].
  { destruct (unchanged_fail (A := unit) count_error e v1) as (v' & r & -> & Hu' & ->); [by intros; split|].
    exists v', (Err e). split; [done|]. right; left. split; [done|]. split; [eauto|].
    destruct Hu as [H1 H2 H3 H4], Hu' as [G1 G2 G3 G4]. destruct H1, G1. split; try split; congruence. }
  eexists _, (Val tt). split; [reflexivity|]. right; right. do 3 (split; [done|]).
  destruct Hu as [[H1 H1'] H2 H3 H4]. pose proof (cleanup_changed now id (sha256 data) v1) as [[G1 G1'] G2 G3 G4].
  split; [by rewrite <- H1, <- H1'|intros j; by rewrite <- H2|intros j i; by rewrite <- H3|intros j; by rewrite <- H4].
Qed.

Lemma ValidatePPS_spec now pid sid data v : call_spec now (CallPPS pid sid data) v (ValidatePPS sha256 now pid sid data v).
Proof.
  unfold call_spec, ValidatePPS. cbn [change_of is_duplicate]. rewrite (method_bind_Val get _ _ v v eq_refl). cbv zeta.
  destruct (bool_decide (ppsChecksums v !! pid = Some (sha256 data))) eqn:Hd; [exists v, (Val tt); auto 10|].
  assert (forall e, exists v' r, fail_with (A := unit) count_error e v = Ret (v', r) /\ unchanged v v' /\ r = Err e) as Herr
    by (intros e; apply (unchanged_fail count_error); by intros; split).
  destruct (checkRateLimit now pid false v) as [e|] eqn:Hc.
  { destruct (unchanged_fail (A := unit) count_violation e v) as (v' & r & -> & Hu & ->); [by intros; split|]. eauto 10. }
  case_bool; [destruct (Herr (ReferencesMissingSPS pid sid)) as (v' & r & -> & Hu & ->); eauto 10|].
  case_bool; [match goal with |- context [fail_with _ ?e] => destruct (Herr e) as (v' & r & -> & Hu & ->) end; eauto 10|].
  eexists _, (Val tt). split; [reflexivity|]. right; right. do 3 (split; [done|]).
  split; cbn; try done; try (by intros []). intros [] i; cbn; rewrite ?lookup0_insert; [right; lia|]. case_bool; subst; right; lia.
Qed.

Lemma run_call_spec now c v : call_spec now c v (run_call sha256 now c v).
Proof. destruct c; [apply ValidateSPS_spec|apply ValidatePPS_spec]. Qed.

Lemma checkRateLimit_None now id k v :
  checkRateLimit now id k v = None ->
  (forall t, last_of k v !! id = Some t -> maxUpdateRate v <= now - t) /\ count_of k v !!0 id <= maxUpdatesPerHour v.
Proof.
  unfold checkRateLimit. change (if k then lastSPSUpdate v else lastPPSUpdate v) with (last_of k v).
  change (if k then spsUpdateCount v else ppsUpdateCount v) with (count_of k v).
  destruct (last_of k v !! id) as [t|]; repeat case_bool; intros [=]; (split; [|lia]); [intros t' [= <-]; lia|done].
Qed.

(** Two changes of the same id are at least [rate] apart (the newest first). *)
Fixpoint spaced (rate : Z) (l : list (bool * Z * Z)) : Prop :=
  match l with
  | [] => True
  | c :: l => Forall (fun d => d.1 = c.1 -> rate <= c.2 - d.2) l /\ spaced rate l
  end.
(** The calls come in the order of time. *)
Fixpoint ordered_from (T : Z) (calls : list (Z * vcall)) : Prop :=
  match calls with [] => True | c :: calls => T <= c.1 /\ ordered_from c.1 calls end.

Record books (rate limit T : Z) (v : ParameterSetValidator) (changes : list (bool * Z * Z)) : Prop := {
  b_config : maxUpdateRate v = rate /\ maxUpdatesPerHour v = limit;
  b_last k id : match last_of k v !! id with
                | Some t => Forall (fun d => d.1 = (k, id) -> d.2 <= t) changes
                | None => Forall (fun d => d.1 <> (k, id)) changes
                end;
  b_spaced : spaced rate changes;
  b_count k id : 0 <= count_of k v !!0 id <= limit + 1;
  b_time : Forall (fun d => d.2 <= T) changes
}.

Lemma books_time rate limit T T' v ch : T <= T' -> books rate limit T v ch -> books rate limit T' v ch.
Proof. intros HT [H1 H2 H3 H4 H5]. split; try done. eapply Forall_impl; [exact H5|]. cbn. lia. Qed.
Lemma books_unchanged rate limit T v v' ch : unchanged v v' -> books rate limit T v ch -> books rate limit T v' ch.
Proof.
  intros [[U1 U1'] U2 U3 U4] [H1 H2 H3 H4 H5]. split; try done; [by rewrite U1, U1'|intros k id; rewrite U2; apply H2|intros k id; rewrite U3; apply H4].
Qed.

Lemma books_changed rate limit T now k id sum v v' ch :
  0 <= limit -> T <= now -> checkRateLimit now id k v = None -> changed k id now sum v v' -> books rate limit T v ch ->
  books rate limit now v' (((k, id), now) :: ch).
Proof.
  intros Hlim HT Hr [[C1 C1'] C2 C3 C4] [[H1 H1'] H2 H3 H4 H5]. apply checkRateLimit_None in Hr as [Hr1 Hr2]. rewrite H1 in Hr1. rewrite H1' in Hr2.
  split.
  - by rewrite C1, C1'.
  - intros j i. rewrite C2. specialize (H2 j i). destruct (Bool.eqb_spec j k) as [->|Hj].
    + destruct (Z.eq_dec i id) as [->|Hi].
      * rewrite lookup_insert_eq. constructor; [cbn; lia|]. eapply Forall_impl; [exact H5|]. cbn. lia.
      * rewrite lookup_insert_ne by done. destruct (last_of k v !! i); (constructor; [cbn; congruence|done]).
    + destruct (last_of j v !! i); (constructor; [cbn; congruence|done]).
  - split; [|done]. specialize (H2 k id). specialize (Hr1). destruct (last_of k v !! id) as [t|].
    + specialize (Hr1 t eq_refl). eapply Forall_impl; [exact H2|]. cbn. intros d Hd He. specialize (Hd He). lia.
    + eapply Forall_impl; [exact H2|]. cbn. intros d Hd He. done.
  - intros j i. pose proof (H4 j i) as H4ji. destruct (C3 j i) as [[_ ->]| ->]; [lia|].
    destruct (Bool.eqb_spec j k) as [->|]; cbn [andb]; [|lia]. case_bool; subst; lia.
  - constructor; [cbn; lia|]. eapply Forall_impl; [exact H5|]. cbn. lia.
Qed.

Lemma run_books rate limit T v ch calls :
  0 <= limit -> ordered_from T calls -> books rate limit T v ch ->
  exists v' ch' T', run_calls sha256 calls v ch = Ret (v', ch') /\ books rate limit T' v' ch'.
Proof.
  intros Hlim. revert T v ch. induction calls as [|[now c] calls IH]; intros T v ch Ho Hb; [by exists v, ch, T|].
  destruct Ho as [HT Ho]. cbn [fst] in *. cbn [run_calls].
  destruct (change_of c) as [k id] eqn:Ec. pose proof (run_call_spec now c v) as Hs. unfold call_spec in Hs. rewrite Ec in Hs.
  destruct Hs as (v' & r & -> & [(Hd & -> & ->)|[(Hd & (e & ->) & Hu)|(Hd & -> & Hr & Hc)]]); rewrite bind_Ret; rewrite ?Hd.
  - apply (IH now); [done|]. by apply (books_time _ _ T).
  - apply (IH now); [done|]. apply (books_time _ _ T); [done|]. by apply (books_unchanged _ _ _ v).
  - apply (IH now); [done|]. by eapply books_changed.
Qed.

Lemma new_books rate limit now : 0 <= limit -> books rate limit now (NewParameterSetValidator rate limit now) [].
Proof. intros Hl. split; try done; intros [] i; cbn; rewrite lookup_empty; cbn; done || lia. Qed.

(** whatever sets arrive in the order of time, the validator accepts two
    different versions of one id only if at least [maxUpdateRate] passed between
    them, and the count of an id never exceeds the hourly limit by more than
    one; no call panics. *)
Theorem update_limits (rate limit now : Z) (calls : list (Z * vcall)) :
  0 <= limit -> ordered_from now calls ->
  exists v changes, run_calls sha256 calls (NewParameterSetValidator rate limit now) [] = Ret (v, changes) /\
    spaced rate changes /\ forall id, spsUpdateCount v !!0 id <= limit + 1 /\ ppsUpdateCount v !!0 id <= limit + 1.
Proof.
  intros Hl Ho. destruct (run_books rate limit now _ [] calls Hl Ho (new_books rate limit now Hl)) as (v & ch & T & E & Hb).
  exists v, ch. split; [done|]. destruct Hb as [_ _ Hs Hc _]. split; [done|]. intros id.
  pose proof (Hc true id). pose proof (Hc false id). cbn in *. lia.
Qed.

(** Once an id is over the hourly limit, no new version of it is accepted any
    more, however long the stream goes on: the counts are reset by accepted
    sequence sets only. *)
Definition only_new (id : Z) (sum : list Z) (c : Z * vcall) : Prop :=
  match c.2 with CallSPS i data => i = id /\ sha256 data <> sum | CallPPS _ _ _ => True end.
Lemma locked_out id sum calls v ch :
  maxUpdatesPerHour v < spsUpdateCount v !!0 id -> spsChecksums v !! id = Some sum -> Forall (only_new id sum) calls ->
  exists v' ch', run_calls sha256 calls v ch = Ret (v', ch') /\ spsChecksums v' !! id = Some sum /\
    maxUpdatesPerHour v' < spsUpdateCount v' !!0 id.
Proof.
  intros Hc Hs Hall. revert v ch Hc Hs. induction Hall as [|[now c] calls Hn Hall IH]; intros v ch Hc Hs; [by exists v, ch|].
  cbn [run_calls]. pose proof (run_call_spec now c v) as Hsp. unfold call_spec in Hsp. unfold only_new in Hn. cbn [snd] in Hn.
  destruct (change_of c) as [k i] eqn:Ec.
  destruct Hsp as (v' & r & -> & [(Hd & -> & ->)|[(Hd & (e & ->) & Hu)|(Hd & -> & Hr & Hch)]]); rewrite bind_Ret; rewrite ?Hd.
  - by apply IH.
  - destruct Hu as [[U1 U1'] U2 U3 U4]. specialize (U3 true). specialize (U4 true). cbn in *.
    apply IH; [by rewrite U1', U3|by rewrite U4].
  - destruct c as [j data|p s data]; injection Ec as <- <-.
    + destruct Hn as [-> Hn]. apply checkRateLimit_None in Hr as [_ Hr]. cbn in Hr. lia.
    + destruct Hch as [[C1 C1'] C2 C3 C4]. specialize (C4 true). specialize (C3 true id). cbn in C3, C4.
      destruct C3 as [[? _]|C3]; [done|]. apply IH; [rewrite C1', C3; lia|by rewrite C4].
Qed.
End calls.

(** A sum in place of SHA-256, three versions of one set: the second comes too
    early, the third at its time. *)
Definition sum_digest (l : list Z) : list Z := [fold_right Z.add 0 l].
Lemma update_limits_witness :
  let calls := [(0, CallSPS 0 [0x67; 1; 2; 3]); (5, CallSPS 0 [0x67; 1; 2; 4]); (10, CallSPS 0 [0x67; 1; 2; 5])] in
  exists v changes, run_calls sum_digest calls (NewParameterSetValidator 10 1 0) [] = Ret (v, changes) /\
    spaced 10 changes /\ forall id, spsUpdateCount v !!0 id <= 1 + 1 /\ ppsUpdateCount v !!0 id <= 1 + 1.
Proof. intros calls. apply (update_limits sum_digest 10 1 0 calls); [lia|cbn; lia]. Defined.

Example second_too_early :
  exists v, run_calls sum_digest [(0, CallSPS 0 [0x67; 1; 2; 3]); (5, CallSPS 0 [0x67; 1; 2; 4]); (10, CallSPS 0 [0x67; 1; 2; 5])]
    (NewParameterSetValidator 10 1 0) [] = Ret (v, [(true, 0, 10); (true, 0, 0)]).
Proof. by eexists. Qed.

(** A day after the limit was reached, the set still cannot change. *)
Example never_again :
  exists v, run_calls sum_digest [(0, CallSPS 0 [0x67; 1; 2; 3]); (10, CallSPS 0 [0x67; 1; 2; 4]); (24 * Hour, CallSPS 0 [0x67; 1; 2; 5])]
    (NewParameterSetValidator 10 1 0) [] = Ret (v, [(true, 0, 10); (true, 0, 0)]).
Proof. eexists. vm_compute. reflexivity. Qed.

(** The references of a sequence set are counted per update, not per picture
    set: two versions of one picture set count twice. *)
Example references_overcounted :
  exists v changes, run_calls sum_digest [(0, CallPPS 0 3 [1]); (10, CallPPS 0 3 [2])] (NewParameterSetValidator 10 5 0) [] = Ret (v, changes)
    /\ spsReferences v !!0 3 = 2 /\ size (ppsDependencies v) = 1%nat.
Proof. by eexists _, _. Qed.
