(* ===== verification/ParamVersions.v ===== *)
(** * Versions of the parameter sets (types/parameter_set_versioning.go)

    Snapshots of the sets of a context, with a checksum, an upper bound on their
    number and a rollback to one of them.  SHA-256 is a parameter. *)

From stdpp Require Import strings sorting.
From S2P Require Import Prelude.
From S2P Require ParamSets.
Import ParamSets(ParameterSet, mkSet, PPSContext, mkPPS, pps_set, ReferencedSPSID, ID, Data, ParsedAt, Size, Valid, ErrorReason,
  ProfileIDC, LevelIDC, Width, Height).

Abbreviation sps_map := (gmap Z ParameterSet).
Abbreviation pps_map := (gmap Z PPSContext).

Record ParameterSetVersion := mkVersion {
  Version : Z; Timestamp : Z; SPSSets : sps_map; PPSSets : pps_map; Checksum : list Z; FrameCount : Z;
  IsValid : bool; RollbackCount : Z
}.
#[export] Instance eta_ParameterSetVersion : Eta ParameterSetVersion := fun v =>
  mkVersion (Version v) (Timestamp v) (SPSSets v) (PPSSets v) (Checksum v) (FrameCount v) (IsValid v) (RollbackCount v).

Record VersionManager := mkVM {
  currentVersion : Z; versions : gmap Z ParameterSetVersion; maxVersions : Z; rollbackEnabled : bool;
  totalVersions : Z; totalRollbacks : Z; lastRollback : option Z
}.
#[export] Instance eta_VersionManager : Eta VersionManager := fun m =>
  mkVM (currentVersion m) (versions m) (maxVersions m) (rollbackEnabled m) (totalVersions m) (totalRollbacks m) (lastRollback m).

Definition NewParameterSetVersionManager (maxVersions : Z) : VersionManager := mkVM 0 ∅ maxVersions true 0 0 None.

Inductive version_error : Type :=
| VersionNotFound (v : Z)
| VersionInvalid (v : Z)
| ChecksumMismatch (v : Z)
| RollbackDisabled.

(** ** Copies and checksums *)

Definition copyParameterSet (ps : ParameterSet) : ParameterSet :=
  mkSet (ID ps) (Data ps) (ParsedAt ps) (Size ps) (Valid ps) (ErrorReason ps) (ProfileIDC ps) None (LevelIDC ps) None
    (Width ps) (Height ps).
Definition copyPPSContext (pps : PPSContext) : PPSContext := mkPPS (copyParameterSet (pps_set pps)) (ReferencedSPSID pps).

(** [for i { for j > i { if keys\[i\] > keys\[j\] { swap } } }]: one pass for
    the smallest of [x] and [l], then the rest. *)
Fixpoint exchange (x : Z) (l : list Z) : Z * list Z :=
  match l with
  | [] => (x, [])
  | y :: l => if y <? x then let '(m, r) := exchange y l in (m, x :: r) else let '(m, r) := exchange x l in (m, y :: r)
  end.
Fixpoint exchange_sort (fuel : nat) (l : list Z) : list Z :=
  match fuel, l with
  | S fuel, x :: l => let '(m, r) := exchange x l in m :: exchange_sort fuel r
  | _, _ => []
  end.
(** The keys of a map come in any order; see [sorted_keys_any_order]. *)
Definition sort_keys (keys : list Z) : list Z := exchange_sort (length keys) keys.
Definition keys {A} (m : gmap Z A) : list Z := (map_to_list m).*1.

Definition sps_bytes (sps : sps_map) (id : Z) : list Z := match sps !! id with Some s => id :: Data s | None => [] end.
Definition pps_bytes (pps : pps_map) (id : Z) : list Z :=
  match pps !! id with Some p => (id :: Data (pps_set p)) ++ [ReferencedSPSID p] | None => [] end.
Definition checksum_input (sps : sps_map) (pps : pps_map) : list Z :=
  mjoin (sps_bytes sps <$> sort_keys (keys sps)) ++ mjoin (pps_bytes pps <$> sort_keys (keys pps)).

Section manager.
Context (sha256 : list Z -> list Z).

Definition calculateVersionChecksum (sps : sps_map) (pps : pps_map) : list Z := sha256 (checksum_input sps pps).

(** ** Operations *)

(** [for v := range vm.versions { if oldest == 0 || v < oldest { oldest = v } }] *)
Definition oldest_version (l : list Z) : Z := fold_left (fun oldest v => if (oldest =? 0) || (v <? oldest) then v else oldest) l 0.

(** [for len(vm.versions) > vm.maxVersions && oldest < vm.currentVersion]: at
    most [currentVersion - oldest] rounds. *)
Fixpoint delete_loop (n : nat) (oldest max : Z) (vs : gmap Z ParameterSetVersion) : gmap Z ParameterSetVersion :=
  match n with
  | O => vs
  | S n => if max <? Z.of_nat (size vs) then delete_loop n (oldest + 1) max (delete oldest vs) else vs
  end.
Definition cleanupOldVersions (vm : VersionManager) : VersionManager :=
  if Z.of_nat (size (versions vm)) <=? maxVersions vm then vm
  else
    let oldest := oldest_version (keys (versions vm)) in
    vm <| versions := delete_loop (Z.to_nat (currentVersion vm - oldest)) oldest (maxVersions vm) (versions vm) |>.

Definition new_version (now : Z) (sps : sps_map) (pps : pps_map) (frameCount : Z) (vm : VersionManager)
    : VersionManager * ParameterSetVersion :=
  let spsCopy := copyParameterSet <$> sps in
  let ppsCopy := copyPPSContext <$> pps in
  let checksum := calculateVersionChecksum spsCopy ppsCopy in
  let n := u64 (currentVersion vm + 1) in
  let version := mkVersion n now spsCopy ppsCopy checksum frameCount true 0 in
  (vm <| currentVersion := n |> <| versions := <[n := version]> (versions vm) |>, version).

Definition CreateVersion (now : Z) (sps : sps_map) (pps : pps_map) (frameCount : Z) (vm : VersionManager)
    : VersionManager * ParameterSetVersion :=
  let '(vm, version) := new_version now sps pps frameCount vm in
  (cleanupOldVersions (vm <| totalVersions := u64 (totalVersions vm + 1) |>), version).

Record ParameterSnapshot := mkSnapshot { s_SPSMap : sps_map; s_PPSMap : pps_map; s_FrameCount : Z }.
Definition CreateVersionFromSnapshot (now : Z) (s : ParameterSnapshot) (vm : VersionManager)
    : VersionManager * ParameterSetVersion :=
  let '(vm, version) := new_version now (s_SPSMap s) (s_PPSMap s) (s_FrameCount s) vm in
  let vm := vm <| totalVersions := u64 (totalVersions vm + 1) |> in
  (if maxVersions vm <? Z.of_nat (size (versions vm)) then cleanupOldVersions vm else vm, version).

(** No limit is enforced and [totalVersions] does not count it. *)
Definition createBackupVersion (now : Z) (sps : sps_map) (pps : pps_map) (frameCount : Z) (vm : VersionManager)
    : VersionManager * ParameterSetVersion := new_version now sps pps frameCount vm.

Definition ValidateVersion (v : Z) (vm : VersionManager) : option version_error :=
  match versions vm !! v with
  | None => Some (VersionNotFound v)
  | Some ver =>
      if negb (IsValid ver) then Some (VersionInvalid v)
      else if negb (bool_decide (calculateVersionChecksum (SPSSets ver) (PPSSets ver) = Checksum ver)) then Some (ChecksumMismatch v)
      else None
  end.

(** The context's maps go in and, restored, come out. *)
Definition Rollback (now : Z) (sps : sps_map) (pps : pps_map) (frameCount target : Z) (vm : VersionManager)
    : VersionManager * exn version_error (sps_map * pps_map) :=
  if negb (rollbackEnabled vm) then (vm, Err RollbackDisabled)
  else
    match versions vm !! target with
    | None => (vm, Err (VersionNotFound target))
    | Some targetVer =>
        if negb (IsValid targetVer) then (vm, Err (VersionInvalid target))
        else if negb (bool_decide (calculateVersionChecksum (SPSSets targetVer) (PPSSets targetVer) = Checksum targetVer))
        then (vm, Err (ChecksumMismatch target))
        else
          let '(vm, backup) := createBackupVersion now sps pps frameCount vm in
          let vm := vm <| totalRollbacks := u64 (totalRollbacks vm + 1) |> <| lastRollback := Some now |>
                       <| versions := alter (fun v => v <| RollbackCount := RollbackCount v + 1 |>) target (versions vm) |> in
          let vm := vm <| versions := alter (fun v => v <| IsValid := false |>) (Version backup) (versions vm) |> in
          (vm, Val (copyParameterSet <$> SPSSets targetVer, copyPPSContext <$> PPSSets targetVer))
    end.

Definition GetVersionHistory (vm : VersionManager) : list ParameterSetVersion :=
  omap (fun v => versions vm !! v) (sort_keys (keys (versions vm))).
Definition EnableRollback (enabled : bool) (vm : VersionManager) : VersionManager := vm <| rollbackEnabled := enabled |>.
Definition GetStatistics (vm : VersionManager) : list Z :=
  [currentVersion vm; totalVersions vm; Z.of_nat (size (versions vm)); maxVersions vm; totalRollbacks vm].

(** ** Runs *)

Inductive vm_op : Type :=
| OpCreate (now : Z) (sps : sps_map) (pps : pps_map) (frames : Z)
| OpSnapshot (now : Z) (s : ParameterSnapshot)
| OpRollback (now : Z) (sps : sps_map) (pps : pps_map) (frames target : Z)
| OpEnable (enabled : bool).
Definition vm_step (vm : VersionManager) (o : vm_op) : VersionManager :=
  match o with
  | OpCreate now sps pps f => (CreateVersion now sps pps f vm).1
  | OpSnapshot now s => (CreateVersionFromSnapshot now s vm).1
  | OpRollback now sps pps f t => (Rollback now sps pps f t vm).1
  | OpEnable b => EnableRollback b vm
  end.
End manager.

(** ** Sorting the keys *)

Lemma pass_perm x l m r : exchange x l = (m, r) -> m :: r ≡ₚ x :: l.
Proof.
  revert x m r. induction l as [|y l IH]; intros x m r; cbn [exchange]; [by intros [= <- <-]|].
  case_bool; [destruct (exchange y l) as [m' r'] eqn:E|destruct (exchange x l) as [m' r'] eqn:E]; intros [= <- <-];
    apply IH in E; rewrite Permutation_swap, E; [done|apply Permutation_swap].
Qed.
Lemma exchange_min x l m r : exchange x l = (m, r) -> Forall (Z.le m) r.
Proof.
  assert (forall x m r, exchange x l = (m, r) -> m <= x /\ Forall (Z.le m) r) as H; [|intros E; exact (proj2 (H _ _ _ E))].
  induction l as [|y l IH]; intros x' m' r'; cbn [exchange]; [by intros [= <- <-]|].
  case_bool; [destruct (exchange y l) as [m1 r1] eqn:E|destruct (exchange x' l) as [m1 r1] eqn:E]; intros [= <- <-];
    apply IH in E as [H1 H2]; (split; [lia|constructor; [lia|done]]).
Qed.
Lemma exchange_length x l m r : exchange x l = (m, r) -> length r = length l.
Proof. intros E. apply pass_perm, Permutation_length in E. by injection E. Qed.

Lemma sort_perm fuel l : (length l <= fuel)%nat -> exchange_sort fuel l ≡ₚ l.
Proof.
  revert l. induction fuel as [|fuel IH]; intros [|x l] Hf; cbn [exchange_sort]; try done; [cbn in Hf; lia|].
  destruct (exchange x l) as [m r] eqn:E. rewrite IH; [by apply pass_perm|]. rewrite (exchange_length _ _ _ _ E). cbn in Hf. lia.
Qed.
Lemma sort_sorted fuel l : (length l <= fuel)%nat -> StronglySorted Z.le (exchange_sort fuel l).
Proof.
  revert l. induction fuel as [|fuel IH]; intros [|x l] Hf; cbn [exchange_sort]; try constructor.
  destruct (exchange x l) as [m r] eqn:E. assert (length r <= fuel)%nat by (rewrite (exchange_length _ _ _ _ E); cbn in Hf; lia).
  constructor; [by apply IH|]. rewrite sort_perm by done. by eapply exchange_min.
Qed.

(** Whatever order the keys come in, they are sorted the same. *)
Lemma sorted_keys_any_order l k : l ≡ₚ k -> sort_keys l = sort_keys k.
Proof.
  intros Hp. unfold sort_keys. apply (StronglySorted_unique Z.le); try (by apply sort_sorted).
  rewrite !sort_perm by done. done.
Qed.

(** ** The manager's books *)

Lemma size_interval {A} (m : gmap Z A) a b :
  (forall k x, m !! k = Some x -> a <= k <= b) -> Z.of_nat (size m) <= Z.max 0 (b - a + 1).
Proof.
  intros Hm. rewrite <- size_dom. assert (size (dom m) <= size (list_to_set (seqZ a (b - a + 1)) : gset Z))%nat as Hs.
  { apply subseteq_size. intros k [x Hk]%elem_of_dom. apply elem_of_list_to_set, elem_of_seqZ. specialize (Hm k x Hk). lia. }
  rewrite size_list_to_set, length_seqZ in Hs by apply NoDup_seqZ. lia.
Qed.

Lemma delete_loop_keeps n o max cur vs k :
  (forall j x, vs !! j = Some x -> o <= j <= cur) -> 0 <= max -> cur - max < k -> delete_loop n o max vs !! k = vs !! k.
Proof.
  revert o vs. induction n as [|n IH]; intros o vs Hk Hm Hgt; [done|]. cbn [delete_loop].
  destruct (Z.ltb_spec max (Z.of_nat (size vs))) as [Hs|]; [|done].
  pose proof (size_interval vs o cur Hk). rewrite IH; [apply lookup_delete_ne; lia| |done|done].
  intros j x [Hne Hj]%lookup_delete_Some. specialize (Hk j x Hj). lia.
Qed.
Lemma delete_loop_size n o max cur vs :
  (forall j x, vs !! j = Some x -> o <= j <= cur) -> cur <= o + Z.of_nat n -> 1 <= max ->
  Z.of_nat (size (delete_loop n o max vs)) <= max.
Proof.
  revert o vs. induction n as [|n IH]; intros o vs Hk Hn Hm; cbn [delete_loop].
  - pose proof (size_interval vs o cur Hk). lia.
  - destruct (Z.ltb_spec max (Z.of_nat (size vs))) as [Hs|]; [|done]. apply IH; [|lia|done].
    intros j x [Hne Hj]%lookup_delete_Some. specialize (Hk j x Hj). lia.
Qed.
Lemma delete_loop_subset n o max vs k x : delete_loop n o max vs !! k = Some x -> vs !! k = Some x.
Proof.
  revert o vs. induction n as [|n IH]; intros o vs; cbn [delete_loop]; [done|]. case_bool; [|done].
  intros Hk. apply IH in Hk. by apply lookup_delete_Some in Hk as [_ Hk].
Qed.

Lemma oldest_spec l : Forall (fun v => 1 <= v) l -> Forall (fun v => oldest_version l <= v) l.
Proof.
  intros Hl. unfold oldest_version.
  assert (forall o, 0 <= o -> let r := fold_left (fun oldest v => if (oldest =? 0) || (v <? oldest) then v else oldest) l o in
    0 <= r /\ (o <> 0 -> 1 <= r <= o) /\ Forall (fun v => r <= v) l) as H; [|by apply (H 0)].
  induction Hl as [|v l Hv Hl IH]; intros o Ho; [by cbn; repeat split; try lia|]. cbn [fold_left].
  destruct (Z.eqb_spec o 0) as [->|Hne]; cbn [orb].
  - destruct (IH v ltac:(lia)) as (H1 & H2 & H3). split; [done|]. split; [done|]. constructor; [apply H2; lia|done].
  - destruct (Z.ltb_spec v o).
    + destruct (IH v ltac:(lia)) as (H1 & H2 & H3). specialize (H2 ltac:(lia)). split; [done|]. split; [lia|]. constructor; [lia|done].
    + destruct (IH o Ho) as (H1 & H2 & H3). specialize (H2 Hne). split; [done|]. split; [lia|]. constructor; [lia|done].
Qed.
Lemma oldest_le {A} (m : gmap Z A) k x :
  (forall j y, m !! j = Some y -> 1 <= j) -> m !! k = Some x -> oldest_version (keys m) <= k.
Proof.
  intros Hm Hk. assert (Forall (fun v => 1 <= v) (keys m)) as Hl.
  { apply Forall_forall. intros j Hj. unfold keys in Hj. apply list_elem_of_fmap in Hj as ([j' y] & -> & Hj).
    apply elem_of_map_to_list in Hj. by eapply Hm. }
  apply oldest_spec in Hl. rewrite Forall_forall in Hl. apply Hl. unfold keys. apply list_elem_of_fmap.
  exists (k, x). split; [done|]. by apply elem_of_map_to_list.
Qed.

Section runs.
Context (sha256 : list Z -> list Z).
#[local] Abbreviation step := (vm_step sha256).

(** Every stored version is whole: its number, and the checksum of its sets. *)
Record vm_ok (vm : VersionManager) : Prop := {
  ok_current : 0 <= currentVersion vm;
  ok_stored k v : versions vm !! k = Some v ->
    1 <= k <= currentVersion vm /\ Version v = k /\ Checksum v = calculateVersionChecksum sha256 (SPSSets v) (PPSSets v)
}.

(** [vm'] follows [vm]: of the versions above [low], none is lost and the sets
    of none have changed; a valid one stays valid. *)
Definition same_sets (v v' : ParameterSetVersion) : Prop :=
  SPSSets v' = SPSSets v /\ PPSSets v' = PPSSets v /\ IsValid v' = IsValid v.
Definition follows (low : Z) (vm vm' : VersionManager) : Prop :=
  currentVersion vm <= currentVersion vm' <= currentVersion vm + 1 /\ maxVersions vm' = maxVersions vm /\
  forall k v, k <= currentVersion vm -> low < k -> versions vm !! k = Some v ->
    exists v', versions vm' !! k = Some v' /\ same_sets v v'.

Lemma new_version_ok now sps pps f vm :
  vm_ok vm -> currentVersion vm + 1 < 2 ^ 64 ->
  let '(vm', ver) := new_version sha256 now sps pps f vm in
  vm_ok vm' /\ currentVersion vm' = currentVersion vm + 1 /\ maxVersions vm' = maxVersions vm /\
  versions vm' = <[currentVersion vm + 1 := ver]> (versions vm) /\ Version ver = currentVersion vm + 1 /\
  SPSSets ver = copyParameterSet <$> sps /\ PPSSets ver = copyPPSContext <$> pps /\ IsValid ver = true /\
  rollbackEnabled vm' = rollbackEnabled vm.
Proof.
  intros [H1 H2] Hc. unfold new_version. rewrite u64_id by lia. cbn. split_and!; try done. split; cbn; [lia|].
  intros k v [[<- <-]|[Hne Hk]]%lookup_insert_Some; [repeat split; cbn; lia|].
  destruct (H2 k v Hk) as (? & ? & ?). split; [lia|done].
Qed.

Lemma cleanup_ok vm : vm_ok vm -> vm_ok (cleanupOldVersions vm).
Proof.
  intros [H1 H2]. unfold cleanupOldVersions. case_bool; [done|]. split; cbn; [done|].
  intros k v Hk%delete_loop_subset. by apply H2.
Qed.
Lemma cleanup_keeps vm k :
  vm_ok vm -> 0 <= maxVersions vm -> currentVersion vm - maxVersions vm < k ->
  versions (cleanupOldVersions vm) !! k = versions vm !! k.
Proof.
  intros [H1 H2] Hm Hk. unfold cleanupOldVersions. case_bool; [done|]. cbn. apply (delete_loop_keeps _ _ _ (currentVersion vm)); try done.
  intros j v Hj. destruct (H2 j v Hj) as (? & _). split; [|lia]. apply (oldest_le _ j v); [|done].
  intros i y Hi. destruct (H2 i y Hi) as (? & _). lia.
Qed.
Lemma cleanup_size vm :
  vm_ok vm -> 1 <= maxVersions vm -> Z.of_nat (size (versions (cleanupOldVersions vm))) <= maxVersions vm.
Proof.
  intros [H1 H2] Hm. unfold cleanupOldVersions. case_bool; [done|]. cbn. apply (delete_loop_size _ _ _ (currentVersion vm)); [|lia|done].
  intros j v Hj. destruct (H2 j v Hj) as (? & _). split; [|lia]. apply (oldest_le _ j v); [|done].
  intros i y Hi. destruct (H2 i y Hi) as (? & _). lia.
Qed.

Lemma total_ok vm n : vm_ok vm -> vm_ok (vm <| totalVersions := n |>).
Proof. by intros [H1 H2]. Qed.

Lemma CreateVersion_spec now sps pps f vm :
  vm_ok vm -> currentVersion vm + 1 < 2 ^ 64 -> 1 <= maxVersions vm ->
  let '(vm', ver) := CreateVersion sha256 now sps pps f vm in
  vm_ok vm' /\ follows (currentVersion vm + 1 - maxVersions vm) vm vm' /\ currentVersion vm' = currentVersion vm + 1 /\
  Z.of_nat (size (versions vm')) <= maxVersions vm' /\ versions vm' !! (currentVersion vm + 1) = Some ver /\
  Version ver = currentVersion vm + 1 /\
  SPSSets ver = copyParameterSet <$> sps /\ PPSSets ver = copyPPSContext <$> pps /\ IsValid ver = true.
Proof.
  intros Hok Hc Hm. pose proof (new_version_ok now sps pps f vm Hok Hc) as Hn. unfold CreateVersion.
  destruct (new_version sha256 now sps pps f vm) as [vm1 ver]. destruct Hn as (Hok1 & C1 & M1 & V1 & N1 & S1 & P1 & I1 & _).
  set (vm2 := vm1 <| totalVersions := _ |>). assert (vm_ok vm2) as Hok2 by by apply total_ok.
  assert (currentVersion vm2 = currentVersion vm + 1 /\ maxVersions vm2 = maxVersions vm /\ versions vm2 = versions vm1) as (C2 & M2 & V2) by done.
  assert (currentVersion (cleanupOldVersions vm2) = currentVersion vm2 /\ maxVersions (cleanupOldVersions vm2) = maxVersions vm2) as [C3 M3]
    by (unfold cleanupOldVersions; by case_bool).
  split; [by apply cleanup_ok|]. split.
  { split; [lia|]. split; [congruence|]. intros k v Hk Hl Hv. exists v. split; [|done].
    rewrite cleanup_keeps by (done || lia). rewrite V2, V1. by rewrite lookup_insert_ne by lia. }
  split; [lia|]. split; [rewrite M3; apply cleanup_size; [done|lia]|]. split; [|done].
  rewrite cleanup_keeps by (done || lia). by rewrite V2, V1, lookup_insert_eq.
Qed.

Lemma snapshot_is_create now s vm :
  CreateVersionFromSnapshot sha256 now s vm = CreateVersion sha256 now (s_SPSMap s) (s_PPSMap s) (s_FrameCount s) vm.
Proof.
  unfold CreateVersionFromSnapshot, CreateVersion. destruct (new_version sha256 now (s_SPSMap s) (s_PPSMap s) (s_FrameCount s) vm) as [vm1 ver].
  destruct (Z.ltb_spec (maxVersions (vm1 <| totalVersions := u64 (totalVersions vm1 + 1) |>))
    (Z.of_nat (size (versions (vm1 <| totalVersions := u64 (totalVersions vm1 + 1) |>))))); [done|].
  unfold cleanupOldVersions. by rewrite (proj2 (Z.leb_le _ _)) by done.
Qed.

(** A rollback that succeeds hands out copies of the target's sets; the only
    versions it changes are the counters of the target and its own backup. *)
Lemma Rollback_spec now sps pps f target vm v :
  vm_ok vm -> currentVersion vm + 1 < 2 ^ 64 -> rollbackEnabled vm = true ->
  versions vm !! target = Some v -> IsValid v = true ->
  exists vm', Rollback sha256 now sps pps f target vm = (vm', Val (copyParameterSet <$> SPSSets v, copyPPSContext <$> PPSSets v)) /\
    vm_ok vm' /\ follows 0 vm vm'.
Proof.
  intros Hok Hc He Hv Hi. pose proof Hok as [H1 H2]. destruct (H2 target v Hv) as (Hr & Hn & Hsum).
  unfold Rollback. rewrite He, Hv, Hi, Hsum, bool_decide_true by done. cbn [negb].
  pose proof (new_version_ok now sps pps f vm Hok Hc) as Hnv. unfold createBackupVersion.
  destruct (new_version sha256 now sps pps f vm) as [vm1 ver]. destruct Hnv as (Hok1 & C1 & M1 & V1 & N1 & _).
  eexists. split; [reflexivity|]. cbn. rewrite N1.
  assert (forall k x, alter (fun v => v <| IsValid := false |>) (currentVersion vm + 1)
      (alter (fun v => v <| RollbackCount := RollbackCount v + 1 |>) target (versions vm1)) !! k = Some x ->
    exists y, versions vm1 !! k = Some y /\ Version x = Version y /\ Checksum x = Checksum y /\ SPSSets x = SPSSets y /\ PPSSets x = PPSSets y) as Halt.
  { intros k x Hk. apply lookup_alter_Some in Hk as [(<- & y & Hk & ->)|[_ Hk]]; apply lookup_alter_Some in Hk as [(<- & z & Hk & ->)|[_ Hk]];
      eexists; (split; [exact Hk|]); done. }
  split.
  - destruct Hok1 as [G1 G2]. split; cbn; [done|]. intros k x Hk. destruct (Halt k x Hk) as (y & Hy & -> & -> & -> & ->). by apply G2.
  - split; cbn; [lia|]. split; [done|]. intros k x Hk Hl Hx.
    rewrite lookup_alter_ne by lia. destruct (Z.eq_dec k target) as [->|Hne].
    + rewrite lookup_alter_eq, V1, lookup_insert_ne, Hx by lia. cbn. eexists. split; [reflexivity|]. done.
    + rewrite lookup_alter_ne, V1, lookup_insert_ne by lia. by exists x.
Qed.
Lemma Rollback_step now sps pps f target vm :
  vm_ok vm -> currentVersion vm + 1 < 2 ^ 64 ->
  vm_ok (Rollback sha256 now sps pps f target vm).1 /\ follows 0 vm (Rollback sha256 now sps pps f target vm).1.
Proof.
  intros Hok Hc. assert (follows 0 vm vm) as Hf by (split; [lia|]; split; [done|]; intros k v _ _ Hv; by exists v).
  destruct (rollbackEnabled vm) eqn:He; [|unfold Rollback; by rewrite He].
  destruct (versions vm !! target) as [v|] eqn:Hv; [|unfold Rollback; by rewrite He, Hv].
  destruct (IsValid v) eqn:Hi; [|unfold Rollback; by rewrite He, Hv, Hi].
  destruct (Rollback_spec now sps pps f target vm v Hok Hc He Hv Hi) as (vm' & -> & ? & ?). done.
Qed.

Lemma vm_step_ok vm o :
  vm_ok vm -> currentVersion vm + 1 < 2 ^ 64 -> 1 <= maxVersions vm ->
  vm_ok (step vm o) /\ follows (currentVersion (step vm o) - maxVersions vm) vm (step vm o).
Proof.
  intros Hok Hc Hm. pose proof Hok as [H1 H2].
  assert (forall vm' low, follows 0 vm vm' -> follows low vm vm') as Hweak.
  { intros vm' low (F1 & F2 & F3). split; [done|]. split; [done|]. intros k v Hk _ Hv. apply F3; [done| |done]. destruct (H2 k v Hv) as (? & _). lia. }
  destruct o as [now sps pps f|now s|now sps pps f t|b]; cbn [vm_step].
  - pose proof (CreateVersion_spec now sps pps f vm Hok Hc Hm) as Hs. destruct (CreateVersion _ _ _ _ _ _) as [vm' ver].
    destruct Hs as (? & ? & C & _). cbn [fst]. by rewrite C.
  - rewrite snapshot_is_create. pose proof (CreateVersion_spec now (s_SPSMap s) (s_PPSMap s) (s_FrameCount s) vm Hok Hc Hm) as Hs.
    destruct (CreateVersion _ _ _ _ _ _) as [vm' ver]. destruct Hs as (? & ? & C & _). cbn [fst]. by rewrite C.
  - destruct (Rollback_step now sps pps f t vm Hok Hc). auto.
  - split; [by split|]. apply Hweak. split; [cbn; lia|]. split; [done|]. intros k v _ _ Hv. by exists v.
Qed.

Lemma run_follows l vm k v :
  vm_ok vm -> currentVersion vm + len l < 2 ^ 64 -> 1 <= maxVersions vm -> versions vm !! k = Some v ->
  let vm' := fold_left step l vm in
  currentVersion vm' < k + maxVersions vm ->
  vm_ok vm' /\ currentVersion vm <= currentVersion vm' <= currentVersion vm + len l /\
  exists v', versions vm' !! k = Some v' /\ same_sets v v'.
Proof.
  revert vm v. induction l as [|o l IH]; intros vm v Hok Hl Hm Hv vm' Hk; subst vm'.
  { split; [done|]. split; [rewrite (@len_nil vm_op); cbn; lia|]. by exists v. }
  rewrite len_cons in *. pose proof (len_nonneg l). cbn [fold_left] in *.
  destruct (vm_step_ok vm o Hok ltac:(lia) Hm) as [Hok1 (F1 & F2 & F3)].
  assert (forall vm1, vm_ok vm1 -> currentVersion vm1 + len l < 2 ^ 64 -> 1 <= maxVersions vm1 ->
    currentVersion vm1 <= currentVersion (fold_left step l vm1)) as Hmono.
  { clear. induction l as [|o l IH]; intros vm1 Hok Hl Hm; [done|]. rewrite len_cons in Hl. pose proof (len_nonneg l). cbn [fold_left].
    destruct (vm_step_ok vm1 o Hok ltac:(lia) Hm) as [Hok1 (F1 & F2 & _)].
    specialize (IH (step vm1 o) Hok1 ltac:(lia) ltac:(lia)). lia. }
  specialize (Hmono (step vm o) Hok1 ltac:(lia) ltac:(lia)). pose proof Hok as [H1 H2]. destruct (H2 k v Hv) as (Hkr & _).
  destruct (F3 k v ltac:(lia) ltac:(lia) Hv) as (v1 & Hv1 & S1 & S2 & S3).
  destruct (IH (step vm o) v1 Hok1 ltac:(lia) ltac:(lia) Hv1 ltac:(lia)) as (? & ? & v2 & Hv2 & T1 & T2 & T3).
  split; [done|]. split; [lia|]. exists v2. split; [done|]. repeat split; congruence.
Qed.

Lemma copy_twice ps : copyParameterSet (copyParameterSet ps) = copyParameterSet ps.
Proof. done. Qed.

(** C25: the sets of a context are snapshot; whatever then happens to the manager
    - further versions, snapshots of new sets, rollbacks, switching rollback off
    and on - as long as fewer than [maxVersions] versions followed and rollback
    is on, rolling back to the snapshot restores the maps it was made of: the
    same ids, bytes, references and fields, but for the constraint flags and the
    width of the frame number, which the copies leave out. *)
Theorem rollback_restores (vm : VersionManager) (now now' f f' : Z) (sps sps' : sps_map) (pps pps' : pps_map) (l : list vm_op) :
  vm_ok vm -> 1 <= maxVersions vm -> currentVersion vm + len l + 3 < 2 ^ 64 ->
  let '(vm1, ver) := CreateVersion sha256 now sps pps f vm in
  let vm2 := fold_left step l vm1 in
  rollbackEnabled vm2 = true -> currentVersion vm2 < Version ver + maxVersions vm ->
  exists vm3, Rollback sha256 now' sps' pps' f' (Version ver) vm2 =
    (vm3, Val (copyParameterSet <$> sps, copyPPSContext <$> pps)) /\ vm_ok vm3.
Proof.
  intros Hok Hm Hc. pose proof (len_nonneg l). pose proof (CreateVersion_spec now sps pps f vm Hok ltac:(lia) Hm) as Hs.
  destruct (CreateVersion sha256 now sps pps f vm) as [vm1 ver].
  destruct Hs as (Hok1 & (_ & M1 & _) & C1 & _ & V1 & N1 & S1 & P1 & I1). cbn zeta. intros He Hk.
  rewrite <- N1 in V1.
  destruct (run_follows l vm1 (Version ver) ver Hok1 ltac:(lia) ltac:(lia) V1 ltac:(lia)) as (Hok2 & Hb & v2 & V2 & T1 & T2 & T3).
  destruct (Rollback_spec now' sps' pps' f' (Version ver) (fold_left step l vm1) v2 Hok2 ltac:(lia) He V2 ltac:(congruence))
    as (vm3 & -> & Hok3 & _).
  exists vm3. split; [|done]. do 3 f_equal.
  - rewrite T1, S1, <- map_fmap_compose. done.
  - rewrite T2, P1, <- map_fmap_compose. done.
Qed.

Lemma new_ok max : vm_ok (NewParameterSetVersionManager max).
Proof. split; cbn; [lia|]. intros k v. by rewrite lookup_empty. Qed.
End runs.

Definition sample_sps : sps_map := {[ 0 := mkSet 0 [0x67; 66; 0; 30] 5 4 true EmptyString (Some 66) (Some 0) (Some 30) (Some 0) (Some 640) (Some 480) ]}.
Definition sample_pps : pps_map := {[ 0 := mkPPS (ParamSets.new_set 0 [0x68; 0xCE] 6) 0 ]}.
Lemma rollback_restores_witness :
  let vm0 := NewParameterSetVersionManager 2 in
  let '(vm1, ver) := CreateVersion id 1 sample_sps sample_pps 0 vm0 in
  let vm2 := fold_left (vm_step id) [OpSnapshot 2 (mkSnapshot ∅ ∅ 7)] vm1 in
  exists vm3, Rollback id 3 ∅ ∅ 9 (Version ver) vm2 = (vm3, Val (copyParameterSet <$> sample_sps, copyPPSContext <$> sample_pps)) /\ vm_ok id vm3.
Proof.
  intros vm0. pose proof (rollback_restores id vm0 1 3 0 9 sample_sps ∅ sample_pps ∅ [OpSnapshot 2 (mkSnapshot ∅ ∅ 7)]
    (new_ok id 2) ltac:(cbn; lia) ltac:(by vm_compute)) as Hr.
  destruct (CreateVersion id 1 sample_sps sample_pps 0 vm0) as [vm1 ver] eqn:E. apply Hr;
    vm_compute in E; injection E as <- <-; by vm_compute.
Defined.

(** The backup a rollback makes is marked invalid: no rollback to it is possible. *)
Example backup_unusable :
  let vm0 := (CreateVersion id 1 sample_sps sample_pps 0 (NewParameterSetVersionManager 5)).1 in
  let vm1 := (Rollback id 2 ∅ ∅ 0 1 vm0).1 in
  (Rollback id 3 sample_sps sample_pps 0 2 vm1).2 = Err (VersionInvalid 2) /\ currentVersion vm1 = 2.
Proof. by vm_compute. Qed.

(** Backups do not count against the limit. *)
Example backups_pile_up :
  let vm0 := (CreateVersion id 1 sample_sps sample_pps 0 (NewParameterSetVersionManager 1)).1 in
  let vm1 := (Rollback id 3 ∅ ∅ 0 1 (Rollback id 2 ∅ ∅ 0 1 vm0).1).1 in
  maxVersions vm1 = 1 /\ size (versions vm1) = 3%nat.
Proof. by vm_compute. Qed.
