(* ===== verification/ParamSession.v ===== *)
(** * Encoder sessions (types/encoder_session.go)

    The sessions of a stream by the hash of its parameter sets: the current one,
    the last [maxSessionHistory] before it, the transitions between them and the
    cache of their sets.  SHA-256 is a parameter; the order of Go's map
    iteration is the class [MapOrder]: any order, the same for the same call. *)

From stdpp Require Import strings.
From S2P Require Import Prelude.
From S2P Require GoStrings ParamCache ParamSets.
Import ParamSets(ParameterSet, ID, Data).
Import ParamCache(ParameterSetCache).

Class MapOrder := {
  range : forall {K A} `{Countable K}, gmap K A -> list (K * A);
  range_perm : forall {K A} `{Countable K} (m : gmap K A), range m ≡ₚ map_to_list m
}.
#[export] Program Instance default_order : MapOrder := {| range := fun K A _ _ m => map_to_list m |}.
Next Obligation. done. Qed.

(** A set behind a nil pointer is [None]. *)
Abbreviation named_sets := (gmap string (option ParameterSet)).

Record EncoderSession := mkSession {
  SessionID : string; StartTime : Z; EndTime : option Z; ParameterSets : named_sets; FrameCount : Z; ConfigHash : string;
  SuccessfulDecodes : Z; FailedDecodes : Z
}.
#[export] Instance eta_EncoderSession : Eta EncoderSession := fun s =>
  mkSession (SessionID s) (StartTime s) (EndTime s) (ParameterSets s) (FrameCount s) (ConfigHash s) (SuccessfulDecodes s) (FailedDecodes s).

Record ContextTransition := mkTransition { Timestamp : Z; FromSession : string; ToSession : string; TriggerFrame : Z }.

Record CacheConfig := mkCacheConfig { MaxParameterSets : Z; ParameterSetTTL : Z; MaxSessions : Z }.

Record EncoderSessionManager := mkManager {
  streamID : string; currentSession : option EncoderSession; sessionHistory : list EncoderSession; maxSessionHistory : Z;
  parameterCache : ParameterSetCache ParameterSet; contextTransitions : list ContextTransition; sessionChangeCount : Z;
  totalFrames : Z; decodableFrames : Z; contextSwitches : Z
}.
#[export] Instance eta_EncoderSessionManager : Eta EncoderSessionManager := fun m =>
  mkManager (streamID m) (currentSession m) (sessionHistory m) (maxSessionHistory m) (parameterCache m) (contextTransitions m)
    (sessionChangeCount m) (totalFrames m) (decodableFrames m) (contextSwitches m).

Definition NewEncoderSessionManager (streamID : string) (cacheConfig : CacheConfig) : EncoderSessionManager :=
  mkManager streamID None [] (MaxSessions cacheConfig)
    (ParamCache.NewParameterSetCache (MaxParameterSets cacheConfig) (ParameterSetTTL cacheConfig)) [] 0 0 0 0.

(** The quality counts the sets there are, in halves. *)
Record ParameterSetCompatibility := mkCompat { IsDecodable : bool; Quality : Z; MatchedSets : named_sets }.
Record ContextAnalysis := mkAnalysis {
  a_FrameID : Z; a_SessionID : string; SessionChanged : bool; a_IsDecodable : bool; MatchQuality : Z; a_MatchedSets : named_sets
}.

Definition evaluateParameterSetMatch (paramSets : named_sets) : Z :=
  (if paramSets !! "sps"%string then 1 else 0) + (if paramSets !! "pps"%string then 1 else 0).

(** One candidate: it replaces a worse match, and is decodable with both sets. *)
Definition try_sets (sets : named_sets) (c : ParameterSetCompatibility) : ParameterSetCompatibility :=
  let quality := evaluateParameterSetMatch sets in
  if Quality c <? quality then mkCompat (if 2 <=? quality then true else IsDecodable c) quality sets else c.
(** The history from its end, until a match is decodable. *)
Fixpoint try_history (l : list EncoderSession) (c : ParameterSetCompatibility) : ParameterSetCompatibility :=
  match l with
  | [] => c
  | s :: l => let c' := try_sets (ParameterSets s) c in
              if (Quality c <? evaluateParameterSetMatch (ParameterSets s)) && IsDecodable c' then c' else try_history l c'
  end.
Definition findBestParameterSetMatch (esm : EncoderSessionManager) : ParameterSetCompatibility :=
  let c := mkCompat false 0 ∅ in
  let c := match currentSession esm with Some s => try_sets (ParameterSets s) c | None => c end in
  if IsDecodable c then c else try_history (take 3 (rev (sessionHistory esm))) c.

(** [fmt.Sprintf("%x", ...)] and [\[\]byte(s)]. *)
Definition hex_digit (d : Z) : Ascii.ascii := GoStrings.char_of (if d <? 10 then 48 + d else 87 + d).
Fixpoint hex (l : list Z) : string :=
  match l with [] => EmptyString | b :: l => String (hex_digit (Z.shiftr b 4)) (String (hex_digit (Z.land b 15)) (hex l)) end.
Definition string_bytes (s : string) : list Z := GoStrings.byte_of <$> String.list_ascii_of_string s.

Definition hash_input (name : string) (paramSets : named_sets) : list Z :=
  match paramSets !! name with
  | Some (Some s) => string_bytes (name +:+ ":") ++ string_bytes (GoStrings.decimal (ID s) +:+ ":") ++ Data s
  | _ => []
  end.

Definition trim_history (max : Z) (h : list EncoderSession) : list EncoderSession := if max <? len h then dropZ 1 h else h.

Section sessions.
Context (sha256 : list Z -> list Z) `{MapOrder}.

Definition calculateConfigHash (paramSets : named_sets) : string :=
  String.substring 0 16 (hex (sha256 (hash_input "sps" paramSets ++ hash_input "pps" paramSets ++ hash_input "vps" paramSets))).

(** [paramSet.ID] of a nil set panics. *)
Fixpoint cache_sets (now : Z) (sessionID : string) (l : list (string * option ParameterSet)) (c : ParameterSetCache ParameterSet)
    : res (ParameterSetCache ParameterSet) :=
  match l with
  | [] => Ret c
  | (_, None) :: _ => Panic
  | (name, Some s) :: l =>
      cache_sets now sessionID l
        (ParamCache.Put now (sessionID +:+ ":" +:+ name +:+ ":" +:+ GoStrings.decimal (ID s)) s c)
  end.

Definition handleSessionChange (now : Z) (configHash : string) (paramSets : named_sets) (triggerFrameID : Z) (esm : EncoderSessionManager)
    : res EncoderSessionManager :=
  let ended := (fun s => s <| EndTime := Some now |>) <$> currentSession esm in
  let sessionID := streamID esm +:+ "-" +:+ GoStrings.decimal (now / 1000000000) in
  let newSession := mkSession sessionID now None paramSets 0 configHash 0 0 in
  cache ← cache_sets now sessionID (range paramSets) (parameterCache esm);
  let esm := esm <| parameterCache := cache |> in
  let esm := match ended with
             | Some s => esm <| contextTransitions := contextTransitions esm ++ [mkTransition now (SessionID s) sessionID triggerFrameID] |>
             | None => esm
             end in
  let esm := esm <| currentSession := Some newSession |> in
  let esm := match ended with
             | Some s => esm <| sessionHistory := trim_history (maxSessionHistory esm) (sessionHistory esm ++ [s]) |>
             | None => esm
             end in
  Ret (esm <| sessionChangeCount := u64 (sessionChangeCount esm + 1) |> <| contextSwitches := u64 (contextSwitches esm + 1) |>).

Definition ProcessFrame (now frameID : Z) (paramSets : named_sets) (esm : EncoderSessionManager)
    : res (EncoderSessionManager * ContextAnalysis) :=
  let esm := esm <| totalFrames := u64 (totalFrames esm + 1) |> in
  let configHash := calculateConfigHash paramSets in
  let sessionChanged := match currentSession esm with Some s => negb (String.eqb (ConfigHash s) configHash) | None => true end in
  esm ← (if sessionChanged then handleSessionChange now configHash paramSets frameID esm else Ret esm);
  match currentSession esm with
  | None => Panic
  | Some s =>
      let s := s <| FrameCount := u64 (FrameCount s + 1) |> in
      let c := findBestParameterSetMatch (esm <| currentSession := Some s |>) in
      let analysis := mkAnalysis frameID (SessionID s) sessionChanged (IsDecodable c) (Quality c) (MatchedSets c) in
      Ret (if IsDecodable c
           then (esm <| decodableFrames := u64 (decodableFrames esm + 1) |>
                     <| currentSession := Some (s <| SuccessfulDecodes := u64 (SuccessfulDecodes s + 1) |>) |>, analysis)
           else (esm <| currentSession := Some (s <| FailedDecodes := u64 (FailedDecodes s + 1) |>) |>, analysis))
  end.

(** The change itself is only counted. *)
Definition OnParameterSetChange (esm : EncoderSessionManager) : EncoderSessionManager :=
  esm <| sessionChangeCount := u64 (sessionChangeCount esm + 1) |>.

Definition GetStatistics (esm : EncoderSessionManager) : list Z :=
  [totalFrames esm; decodableFrames esm; sessionChangeCount esm; contextSwitches esm; len (sessionHistory esm) + 1].

(** ** Runs *)

Fixpoint run_frames (frames : list (Z * Z * named_sets)) (esm : EncoderSessionManager)
    : res (EncoderSessionManager * list ContextAnalysis) :=
  match frames with
  | [] => Ret (esm, [])
  | (now, id, sets) :: frames =>
      '(esm, a) ← ProcessFrame now id sets esm;
      '(esm, l) ← run_frames frames esm;
      Ret (esm, a :: l)
  end.

(** A session's frames are decodable or not. *)
Definition balanced (s : EncoderSession) : Prop :=
  0 <= SuccessfulDecodes s /\ 0 <= FailedDecodes s /\ FrameCount s = SuccessfulDecodes s + FailedDecodes s.
(** An analysis counts the sets it names; a frame is decodable with both. *)
Definition sound_match (quality : Z) (sets : named_sets) (decodable : bool) : Prop :=
  quality = evaluateParameterSetMatch sets /\ 0 <= quality <= 2 /\ (decodable = true <-> quality = 2).
Definition sound (a : ContextAnalysis) : Prop := sound_match (MatchQuality a) (a_MatchedSets a) (a_IsDecodable a).

Definition count (p : ContextAnalysis -> bool) (l : list ContextAnalysis) : Z := len (filter (fun a => p a = true) l).
Lemma count_cons p a l : count p (a :: l) = (if p a then 1 else 0) + count p l.
Proof. unfold count. rewrite filter_cons. destruct (p a); [rewrite decide_True by done; rewrite len_cons; lia|by rewrite decide_False by done]. Qed.

Record books (esm : EncoderSessionManager) (frames decodable switches : Z) : Prop := mkBooks {
  b_frames : totalFrames esm = frames;
  b_decodable : decodableFrames esm = decodable;
  b_switches : contextSwitches esm = switches;
  b_transitions : len (contextTransitions esm) = Z.max 0 (switches - 1);
  b_current : currentSession esm = None <-> switches = 0;
  b_history : len (sessionHistory esm) <= maxSessionHistory esm;
  b_sessions : Forall balanced (sessionHistory esm) /\ forall s, currentSession esm = Some s -> balanced s /\ FrameCount s <= frames;
  b_bounds : 0 <= decodable <= frames /\ 0 <= switches <= frames
}.

Lemma evaluate_bounds sets : 0 <= evaluateParameterSetMatch sets <= 2.
Proof. unfold evaluateParameterSetMatch. repeat case_match; lia. Qed.
Lemma try_sets_sound sets c :
  sound_match (Quality c) (MatchedSets c) (IsDecodable c) ->
  let c' := try_sets sets c in sound_match (Quality c') (MatchedSets c') (IsDecodable c').
Proof.
  intros (H1 & H2 & H3). pose proof (evaluate_bounds sets). unfold try_sets. destruct (Z.ltb_spec (Quality c) (evaluateParameterSetMatch sets)); [|done].
  cbn. split; [done|]. split; [done|]. destruct (Z.leb_spec 2 (evaluateParameterSetMatch sets)); [split; [lia|done]|].
  rewrite H3. lia.
Qed.
Lemma try_history_sound l c :
  sound_match (Quality c) (MatchedSets c) (IsDecodable c) ->
  let c' := try_history l c in sound_match (Quality c') (MatchedSets c') (IsDecodable c').
Proof.
  revert c. induction l as [|s l IH]; intros c Hc; [done|]. cbn [try_history]. pose proof (try_sets_sound (ParameterSets s) c Hc) as Hs.
  cbv zeta. case_match; [done|by apply IH].
Qed.
Lemma best_sound esm : let c := findBestParameterSetMatch esm in sound_match (Quality c) (MatchedSets c) (IsDecodable c).
Proof.
  unfold findBestParameterSetMatch. cbv zeta. assert (sound_match 0 (∅ : named_sets) false) as H0 by by repeat split.
  set (c := match currentSession esm with Some s => _ | None => _ end).
  assert (sound_match (Quality c) (MatchedSets c) (IsDecodable c)) as Hc by (subst c; case_match; [by apply try_sets_sound|done]).
  clearbody c. destruct (IsDecodable c) eqn:Ed; [by rewrite Ed|by apply try_history_sound; rewrite Ed].
Qed.

Definition no_nil (sets : named_sets) : Prop := map_Forall (fun _ s => s <> None) sets.
Lemma cache_sets_returns now id l c : Forall (fun e => e.2 <> None) l -> exists c', cache_sets now id l c = Ret c'.
Proof.
  intros Hl. revert c. induction Hl as [|[name [s|]] l Hs Hl IH]; intros c; cbn [cache_sets]; [eauto|apply IH|done].
Qed.
Lemma range_no_nil sets : no_nil sets -> Forall (fun e => e.2 <> None) (range sets).
Proof. intros Hn. rewrite range_perm. apply Forall_forall. intros [k s] Hk%elem_of_map_to_list. exact (Hn k s Hk). Qed.

Lemma trim_len max h : 0 <= max -> len h <= max + 1 -> len (trim_history max h) <= max.
Proof. intros Hm Hh. unfold trim_history. destruct (Z.ltb_spec max (len h)); [rewrite len_dropZ; lia|lia]. Qed.
Lemma trim_forall P max h : Forall P h -> Forall P (trim_history max h).
Proof. intros Hh. unfold trim_history. case_match; [unfold dropZ; by apply Forall_drop|done]. Qed.

Lemma change_books now hash sets id esm f d w :
  no_nil sets -> 0 <= maxSessionHistory esm -> w + 1 < 2 ^ 64 -> books esm f d w -> w + 1 <= f ->
  exists esm', handleSessionChange now hash sets id esm = Ret esm' /\ maxSessionHistory esm' = maxSessionHistory esm /\ books esm' f d (w + 1) /\
    exists s, currentSession esm' = Some s /\ FrameCount s = 0.
Proof.
  intros Hn Hm Hw [B1 B2 B3 B4 B5 B6 [B7 B8] B9] Hwf. unfold handleSessionChange.
  destruct (cache_sets_returns now (streamID esm +:+ "-" +:+ GoStrings.decimal (now / 1000000000)) (range sets) (parameterCache esm)
    (range_no_nil sets Hn)) as [c' ->]. rewrite bind_Ret. cbv zeta.
  assert (u64 (w + 1) = w + 1) as Hu by mlia.
  destruct (currentSession esm) as [s|] eqn:Es; cbn [fmap option_fmap option_map]; (eexists; split; [reflexivity|split; [done|split; [|eexists; split; done]]]).
  - destruct (B8 s eq_refl) as [Hs Hf]. assert (w <> 0) by (intros Hw0; destruct B5 as [_ B5]; by specialize (B5 Hw0)).
    split; cbn; try done; try lia.
    + by rewrite B3.
    + rewrite len_app, B4. change (len [_]) with 1. lia.
    + split; [done|lia].
    + apply trim_len; [done|]. rewrite len_app. change (len [_]) with 1. lia.
    + split; [|intros s' [= <-]; split; [by repeat split|cbn; lia]].
      apply trim_forall, Forall_app. split; [done|]. apply Forall_singleton. exact Hs.
  - split; cbn; try done; try lia.
    + by rewrite B3.
    + rewrite B4. assert (w = 0) by by apply B5. lia.
    + split; [done|lia].
    + split; [done|]. intros s' [= <-]. split; [by repeat split|cbn; lia].
Qed.

Lemma frame_books now id sets esm f d w :
  no_nil sets -> 0 <= maxSessionHistory esm -> f + 1 < 2 ^ 64 -> books esm f d w ->
  exists esm' a, ProcessFrame now id sets esm = Ret (esm', a) /\ maxSessionHistory esm' = maxSessionHistory esm /\ sound a /\
    books esm' (f + 1) (d + if a_IsDecodable a then 1 else 0) (w + if SessionChanged a then 1 else 0).
Proof.
  intros Hn Hm Hf Hb. pose proof (b_bounds _ _ _ _ Hb) as [Hd Hw].
  set (esm1 := esm <| totalFrames := u64 (totalFrames esm + 1) |>).
  assert (books esm1 (f + 1) d w) as Hb1.
  { destruct Hb as [B1 B2 B3 B4 B5 B6 [B7 B8] B9]. split; cbn; try done; [rewrite B1; mlia| |lia].
    split; [done|]. intros s Hs. destruct (B8 s Hs). split; [done|lia]. }
  unfold ProcessFrame. cbv zeta. fold esm1.
  set (changed := match currentSession esm1 with Some s => _ | None => true end).
  assert (exists esm2, (if changed then handleSessionChange now (calculateConfigHash sets) sets id esm1 else Ret esm1) = Ret esm2 /\
    maxSessionHistory esm2 = maxSessionHistory esm /\ books esm2 (f + 1) d (w + if changed then 1 else 0) /\
    exists s, currentSession esm2 = Some s /\ FrameCount s <= f) as (esm2 & -> & Hm2 & Hb2 & s & Es & Hfs).
  { destruct changed eqn:Hch.
    - destruct (change_books now (calculateConfigHash sets) sets id esm1 (f + 1) d w) as (esm2 & E & Hm2 & Hb2 & s & Es & H0); try done; try lia.
      exists esm2. split; [done|]. split; [done|]. split; [done|]. exists s. split; [done|lia].
    - exists esm1. rewrite Z.add_0_r. split; [done|]. split; [done|]. split; [done|]. subst changed.
      destruct (currentSession esm1) as [s|] eqn:Es; [|done]. exists s. split; [done|]. exact (proj2 (proj2 (b_sessions _ _ _ _ Hb) s Es)). }
  rewrite bind_Ret, Es.
  set (s1 := s <| FrameCount := u64 (FrameCount s + 1) |>). set (esm3 := esm2 <| currentSession := Some s1 |>).
  pose proof (best_sound esm3) as Hs. cbv zeta in Hs. generalize dependent (findBestParameterSetMatch esm3). intros c Hs.
  destruct Hb2 as [B1 B2 B3 B4 B5 B6 [B7 B8] B9]. destruct (B8 s Es) as [(S1 & S2 & S3) _].
  assert (u64 (FrameCount s + 1) = FrameCount s + 1) as Hu by mlia.
  assert ((w + if changed then 1 else 0) <> 0) as Hne by (intros E0; apply B5 in E0; congruence).
  destruct (IsDecodable c) eqn:Ec; eexists _, _; (split; [reflexivity|]); (split; [exact Hm2|]); cbn [a_IsDecodable SessionChanged];
    (split; [exact Hs|]).
  - assert (u64 (SuccessfulDecodes s1 + 1) = SuccessfulDecodes s + 1) as Hu1 by (cbn; mlia).
    split; cbn; try done; try lia; [rewrite B2; mlia|]. split; [done|]. intros s' [= <-]. unfold balanced. cbn. cbn in Hu1. rewrite Hu, Hu1. lia.
  - assert (u64 (FailedDecodes s1 + 1) = FailedDecodes s + 1) as Hu1 by (cbn; mlia).
    split; cbn; try done; try lia. split; [done|]. intros s' [= <-]. unfold balanced. cbn. cbn in Hu1. rewrite Hu, Hu1. lia.
Qed.

Lemma run_frames_books frames esm f d w :
  Forall (fun x => no_nil x.2) frames -> 0 <= maxSessionHistory esm -> f + len frames < 2 ^ 64 -> books esm f d w ->
  exists esm' l, run_frames frames esm = Ret (esm', l) /\ length l = length frames /\ Forall sound l /\ maxSessionHistory esm' = maxSessionHistory esm /\
    books esm' (f + len frames) (d + count a_IsDecodable l) (w + count SessionChanged l).
Proof.
  intros Hn. revert esm f d w. induction Hn as [|[[now id] sets] frames Hs Hn IH]; intros esm f d w Hm Hf Hb.
  - exists esm, []. change (count _ []) with 0. change (len []) with 0. rewrite !Z.add_0_r. done.
  - rewrite len_cons in Hf. pose proof (len_nonneg frames). cbn [run_frames].
    destruct (frame_books now id sets esm f d w Hs Hm ltac:(lia) Hb) as (esm1 & a & -> & Hm1 & Ha & Hb1). rewrite bind_Ret.
    destruct (IH esm1 (f + 1) _ _ ltac:(lia) ltac:(lia) Hb1) as (esm2 & l & -> & Hl & Hall & Hm2 & Hb2). rewrite bind_Ret.
    exists esm2, (a :: l). split; [done|]. split; [cbn; lia|]. split; [by constructor|]. split; [lia|].
    rewrite !count_cons, len_cons, !Z.add_assoc. rewrite <- !Z.add_assoc in Hb2. by rewrite <- !Z.add_assoc.
Qed.

(** over any frames, whatever sets come with them, the manager never panics
    on sets that are there, and its books balance: every frame is counted, the
    decodable ones are those analysed so, the sessions begun are the changes
    reported, each but the first with one transition, the history stays within
    its bound and in every session the successes and failures add up to its
    frames.  An analysis is of sets the manager holds, and a frame is decodable
    exactly if there are both a sequence and a picture parameter set among them. *)
Theorem session_books (frames : list (Z * Z * named_sets)) (stream : string) (config : CacheConfig) :
  Forall (fun x => no_nil x.2) frames -> 0 <= MaxSessions config -> len frames < 2 ^ 64 ->
  exists esm l, run_frames frames (NewEncoderSessionManager stream config) = Ret (esm, l) /\
    totalFrames esm = len frames /\ len l = len frames /\
    decodableFrames esm = count a_IsDecodable l /\ contextSwitches esm = count SessionChanged l /\
    len (contextTransitions esm) = Z.max 0 (contextSwitches esm - 1) /\
    len (sessionHistory esm) <= MaxSessions config /\ Forall balanced (sessionHistory esm) /\
    Forall sound l.
Proof.
  intros Hn Hm Hf. assert (books (NewEncoderSessionManager stream config) 0 0 0) as H0 by (split; cbn; try done; split; done).
  destruct (run_frames_books frames (NewEncoderSessionManager stream config) 0 0 0 Hn Hm ltac:(lia) H0) as (esm & l & E & Hl & Hs & Hmax & B).
  exists esm, l. split; [exact E|]. destruct B as [B1 B2 B3 B4 _ B6 [B7 _] _]. cbn [maxSessionHistory NewEncoderSessionManager] in Hmax.
  split; [lia|]. split; [unfold len; by rewrite Hl|]. split; [lia|]. split; [lia|]. split; [by rewrite B3|]. split; [lia|]. done.
Qed.
End sessions.

Definition sample_sets (id : Z) : named_sets :=
  {[ "sps"%string := Some (ParamSets.new_set id [0x67; id] 0); "pps"%string := Some (ParamSets.new_set 0 [0x68] 0) ]}.
Definition sum_digest (l : list Z) : list Z := replicate 8 (fold_right Z.add 0 l mod 256).
Definition sample_frames : list (Z * Z * named_sets) :=
  [(0, 1, ∅); (1, 2, sample_sets 0); (2, 3, sample_sets 0); (3, 4, sample_sets 1); (4, 5, ∅)].
Definition sample_config : CacheConfig := mkCacheConfig 4 1000 2.
Lemma session_books_witness :
  exists esm l, run_frames sum_digest sample_frames (NewEncoderSessionManager "cam" sample_config) = Ret (esm, l) /\
    totalFrames esm = 5 /\ len l = 5 /\
    decodableFrames esm = count a_IsDecodable l /\ contextSwitches esm = count SessionChanged l /\
    len (contextTransitions esm) = Z.max 0 (contextSwitches esm - 1) /\
    len (sessionHistory esm) <= 2 /\ Forall balanced (sessionHistory esm) /\ Forall sound l.
Proof.
  apply (session_books sum_digest sample_frames "cam" sample_config).
  - repeat apply Forall_cons_2; [..|apply Forall_nil_2]; intros k v; cbn [snd]; try (by rewrite lookup_empty); unfold sample_sets;
      rewrite lookup_insert_Some, lookup_singleton_Some; by intros [[_ <-]|[_ [_ <-]]].
  - done.
  - done.
Defined.

(** A frame without sets is decoded with those of an earlier session. *)
Example decoded_with_old_sets : exists esm l, run_frames sum_digest sample_frames (NewEncoderSessionManager "cam" sample_config) = Ret (esm, l) /\
  a_IsDecodable <$> l = [false; true; true; true; true] /\ SessionChanged <$> l = [true; true; false; true; true] /\
  len (sessionHistory esm) = 2 /\ len (contextTransitions esm) = 3.
Proof. eexists _, _. split; [by vm_compute|]. repeat split. Qed.

(** Sessions that begin in one second have one id. *)
Example same_id_in_a_second : exists esm l, run_frames sum_digest sample_frames (NewEncoderSessionManager "cam" sample_config) = Ret (esm, l) /\
  Forall (fun a => a_SessionID a = "cam-0"%string) l.
Proof. eexists _, _. split; [by vm_compute|]. repeat apply Forall_cons_2; done || apply Forall_nil_2. Qed.
