(* ===== verification/ParamContext.v ===== *)
(** * The parameter-set context (types/parameter_context.go)

    The sets of a stream by id, their updates, the limits on their number, the
    copy between contexts and the removal of old ones.  A method that reads the
    clock more than once is given one reading.  Go's map iteration order is the
    class [MapOrder]: any order, the same for the same call ([ParamSession]). *)

From stdpp Require Import strings sorting.
From S2P Require Import Prelude Returns.
From S2P Require BitSyntax Codec SpsH264 ParamSets ParamValidator ParamVersions ParamSession Rbsp TypesBits.
Import Codec(CodecType, CodecH264, CodecHEVC).
#[local] Existing Instance Codec.CodecType_eq_dec.
Import ParamSets(ValidatePPSData_returns, ValidateSPSData_returns, ParameterSet, mkSet, ID, Data, ParsedAt, Size, Valid, ErrorReason, ProfileIDC, ConstraintFlags, LevelIDC,
  Log2MaxFrameNumMinus4, Width, Height, PPSContext, mkPPS, pps_set, ReferencedSPSID, ps_error, new_set,
  parseSPS, parsePPS, ValidateSPSData, ValidatePPSData, EnhancedSPSValidation, EnhancedPPSValidation).
#[local] Existing Instances ParamSets.eta_PPSContext ParamSets.eta_ParameterSet.
Import ParamVersions(sps_map, pps_map, VersionManager, keys).

Import ParamSession(MapOrder, range, range_perm, EncoderSessionManager).
#[local] Existing Instance ParamSession.default_order.

Definition MaxParameterSetsPerSession : Z := 1000.
Definition ParameterSetCleanupInterval : Z := 3600000000000.
Definition MaxParameterSetAge : Z := 24 * 3600000000000.
Definition ErrorCodeCriticalFailure : Z := -1000 - MaxParameterSetsPerSession.
Definition ErrorCodeMemoryPressure : Z := -100 - MaxParameterSetsPerSession.

Record ParameterSetContext := mkCtx {
  codec : CodecType;
  spsMap : gmap Z ParameterSet; ppsMap : gmap Z PPSContext;
  vpsMap : gmap Z ParameterSet; hevcSpsMap : gmap Z ParameterSet; hevcPpsMap : gmap Z ParameterSet;
  validator : option ParamValidator.ParameterSetValidator; versionManager : option VersionManager;
  sessionManager : EncoderSessionManager;
  lastUpdated : Z; totalSets : Z; sessionStartTime : Z; totalFramesProcessed : Z; lastParameterSetUpdate : Z;
  lastCleanup : Z; cleanupEnabled : bool
}.
#[export] Instance eta_ParameterSetContext : Eta ParameterSetContext := fun c =>
  mkCtx (codec c) (spsMap c) (ppsMap c) (vpsMap c) (hevcSpsMap c) (hevcPpsMap c) (validator c) (versionManager c)
    (sessionManager c) (lastUpdated c) (totalSets c) (sessionStartTime c) (totalFramesProcessed c)
    (lastParameterSetUpdate c) (lastCleanup c) (cleanupEnabled c).

Record ParameterSetContextConfig := mkConfig {
  ValidatorUpdateRate : Z; ValidatorMaxUpdatesPerHour : Z; EnableVersioning : bool; MaxVersions : Z
}.

Definition NewParameterSetContextWithConfig (codec : CodecType) (streamID : string) (config : ParameterSetContextConfig) (now : Z) : ParameterSetContext :=
  let sessionConfig := ParamSession.mkCacheConfig 100 300000000000 10 in
  let validator := if (0 <? ValidatorUpdateRate config) && (0 <? ValidatorMaxUpdatesPerHour config)
                   then Some (ParamValidator.NewParameterSetValidator (ValidatorUpdateRate config) (ValidatorMaxUpdatesPerHour config) now)
                   else None in
  let maxVersions := if MaxVersions config <=? 0 then 10 else MaxVersions config in
  let versionManager := if EnableVersioning config then Some (ParamVersions.NewParameterSetVersionManager maxVersions) else None in
  mkCtx codec ∅ ∅ ∅ ∅ ∅ validator versionManager (ParamSession.NewEncoderSessionManager streamID sessionConfig) now 0 now 0 now now true.
Definition NewParameterSetContext (codec : CodecType) (streamID : string) (now : Z) : ParameterSetContext :=
  NewParameterSetContextWithConfig codec streamID (mkConfig 0 0 true 20) now.

Inductive ctx_error : Type :=
| WrongCodec (c : CodecType)
| InvalidSPSID (id : Z)
| InvalidSet (e : ps_error)
| ZeroProfile
| ZeroLevel
| Refused (e : ParamValidator.validator_error)
| EmptyPPS
| CorruptPPS (b : Z)
| ValidationFailed (e : ps_error)
| IDMismatch (parsed validated : Z)
| DataTooShort (n : Z)
| VersioningDisabled
| VersionError (e : ParamVersions.version_error).

Abbreviation outcome := (res (ParameterSetContext * exn ctx_error unit)).

(** [len(ctx.spsMap) + ...] *)
Definition count_sets (ctx : ParameterSetContext) : Z :=
  Z.of_nat (size (spsMap ctx)) + Z.of_nat (size (ppsMap ctx)) + Z.of_nat (size (vpsMap ctx))
  + Z.of_nat (size (hevcSpsMap ctx)) + Z.of_nat (size (hevcPpsMap ctx)).

(** ** Removing old sets *)

(** [for id, s := range m { if now.Sub(s.ParsedAt) > age { delete(m, id) } }] *)
Definition drop_old {A} (parsedAt : A -> Z) (now age : Z) (m : gmap Z A) : gmap Z A :=
  filter (fun kv => now - parsedAt kv.2 <= age) m.
Definition dropped {A} (m m' : gmap Z A) : Z := Z.of_nat (size m) - Z.of_nat (size m').
Definition pps_ParsedAt (p : PPSContext) : Z := ParsedAt (pps_set p).

Definition drop_all_old (now age : Z) (hevc : bool) (ctx : ParameterSetContext) : ParameterSetContext :=
  let ctx := ctx <| spsMap := drop_old ParsedAt now age (spsMap ctx) |> <| ppsMap := drop_old pps_ParsedAt now age (ppsMap ctx) |> in
  if hevc then
    ctx <| vpsMap := drop_old ParsedAt now age (vpsMap ctx) |> <| hevcSpsMap := drop_old ParsedAt now age (hevcSpsMap ctx) |>
        <| hevcPpsMap := drop_old ParsedAt now age (hevcPpsMap ctx) |>
  else ctx.

Definition codec_is (a b : CodecType) : bool := bool_decide (a = b).

Definition performCleanup (now : Z) (ctx : ParameterSetContext) : ParameterSetContext :=
  let ctx' := drop_all_old now MaxParameterSetAge (codec_is (codec ctx) CodecHEVC) ctx in
  let cleaned := count_sets ctx - count_sets ctx' in
  let ctx' := ctx' <| lastCleanup := now |> in
  if 0 <? cleaned then ctx' <| totalSets := totalSets ctx' - cleaned |> else ctx'.

(** The validator's check of the references is only made, its result unused. *)
Definition checkAndPerformCleanup (now : Z) (ctx : ParameterSetContext) : ParameterSetContext :=
  if negb (cleanupEnabled ctx) then ctx
  else if now - lastCleanup ctx <? ParameterSetCleanupInterval then ctx
  else if MaxParameterSetsPerSession <? count_sets ctx then performCleanup now ctx
  else ctx <| lastCleanup := now |>.

(** ** Adding sets *)

Definition differs (f : ParameterSet -> option Z) (a b : ParameterSet) : bool :=
  match f a, f b with Some x, Some y => negb (x =? y) | _, _ => false end.
Definition session_changed (old : option ParameterSet) (sps : ParameterSet) : bool :=
  match old with
  | Some old => differs ProfileIDC old sps || differs LevelIDC old sps || differs Width old sps || differs Height old sps
  | None => true
  end.

Definition is_zero_or_nil (v : option Z) : bool := match v with None => true | Some v => v =? 0 end.

Section context.
Context (sha256 : list Z -> list Z).

(** The part of [AddSPS] after the checks. *)
Definition store_sps (now : Z) (sps : ParameterSet) (ctx : ParameterSetContext) : ParameterSetContext :=
  let sessionChanged := session_changed (spsMap ctx !! ID sps) sps in
  let ctx := ctx <| spsMap := <[ID sps := sps]> (spsMap ctx) |> <| lastUpdated := now |> <| lastParameterSetUpdate := now |>
                 <| totalSets := totalSets ctx + 1 |> in
  let ctx := if sessionChanged then ctx <| sessionManager := ParamSession.OnParameterSetChange (sessionManager ctx) |> else ctx in
  let snapshot := ParamVersions.mkSnapshot (spsMap ctx) (ppsMap ctx) (totalFramesProcessed ctx) in
  let ctx := checkAndPerformCleanup now ctx in
  match versionManager ctx with
  | Some vm => if sessionChanged
               then ctx <| versionManager := Some (ParamVersions.CreateVersionFromSnapshot sha256 now snapshot vm).1 |> else ctx
  | None => ctx
  end.

(** The validator, if there is one. *)
Definition with_validator (m : method ParamValidator.ParameterSetValidator ParamValidator.validator_error unit)
    (ctx : ParameterSetContext) (k : ParameterSetContext -> outcome) : outcome :=
  match validator ctx with
  | None => k ctx
  | Some v =>
      '(v, r) ← m v;
      let ctx := ctx <| validator := Some v |> in
      match r with Err e => Ret (ctx, Err (Refused e)) | Val _ => k ctx end
  end.

Definition AddSPS (now : Z) (data : list Z) (ctx : ParameterSetContext) : outcome :=
  if negb (codec_is (codec ctx) CodecH264) then Ret (ctx, Err (WrongCodec (codec ctx)))
  else
    r ← ValidateSPSData data;
    if match r with Val spsID => 31 <? spsID | Err _ => false end
    then Ret (ctx, Err (InvalidSPSID (match r with Val spsID => spsID | Err _ => 0 end)))
    else
      _ ← EnhancedSPSValidation data;
      r ← parseSPS (lastUpdated ctx) data;
      match r with
      | Err e => Ret (ctx, Err (InvalidSet e))
      | Val sps =>
          if is_zero_or_nil (ProfileIDC sps) then Ret (ctx, Err ZeroProfile)
          else if is_zero_or_nil (LevelIDC sps) then Ret (ctx, Err ZeroLevel)
          else with_validator (ParamValidator.ValidateSPS sha256 now (ID sps) data) ctx
                 (fun ctx => Ret (store_sps now sps ctx, Val tt))
      end.

(** All of up to eight bytes behind the first repeat it, and it is 0xFF or 0. *)
Definition corrupt_pattern (data : list Z) : res (option Z) :=
  if 1 <? len data then
    firstByte ← idx data 1;
    Ret (if ((firstByte =? 0xFF) || (firstByte =? 0)) && forallb (Z.eqb firstByte) (takeZ 8 (dropZ 2 data))
         then Some firstByte else None)
  else Ret None.

(** With exactly one set known, a reference to another is changed to it. *)
Definition remap_reference (ctx : ParameterSetContext) (pps : PPSContext) : PPSContext :=
  match spsMap ctx !! ReferencedSPSID pps with
  | Some _ => pps
  | None => match keys (spsMap ctx) with
            | [available] => if negb (ReferencedSPSID pps =? available) then pps <| ReferencedSPSID := available |> else pps
            | _ => pps
            end
  end.

Definition store_pps (now : Z) (pps : PPSContext) (ctx : ParameterSetContext) : ParameterSetContext :=
  let pps := remap_reference ctx pps in
  checkAndPerformCleanup now
    (ctx <| ppsMap := <[ID (pps_set pps) := pps]> (ppsMap ctx) |> <| lastUpdated := now |> <| lastParameterSetUpdate := now |>
         <| totalSets := totalSets ctx + 1 |>).

Definition AddPPS (now : Z) (data : list Z) (ctx : ParameterSetContext) : outcome :=
  if negb (codec_is (codec ctx) CodecH264) then Ret (ctx, Err (WrongCodec (codec ctx)))
  else if len data =? 0 then Ret (ctx, Err EmptyPPS)
  else
    corrupt ← corrupt_pattern data;
    match corrupt with
    | Some b => Ret (ctx, Err (CorruptPPS b))
    | None =>
        r ← ValidatePPSData data;
        match r with
        | Err e => Ret (ctx, Err (ValidationFailed e))
        | Val (parsedPPSID, parsedSPSID) =>
            _ ← EnhancedPPSValidation data;
            r ← parsePPS (lastUpdated ctx) data;
            match r with
            | Err e => Ret (ctx, Err (InvalidSet e))
            | Val pps =>
                if negb (ID (pps_set pps) =? parsedPPSID) then Ret (ctx, Err (IDMismatch (ID (pps_set pps)) parsedPPSID))
                else if negb (ReferencedSPSID pps =? parsedSPSID) then Ret (ctx, Err (IDMismatch (ReferencedSPSID pps) parsedSPSID))
                else with_validator (ParamValidator.ValidatePPS sha256 now (ID (pps_set pps)) (ReferencedSPSID pps) data) ctx
                       (fun ctx => Ret (store_pps now pps ctx, Val tt))
            end
        end
    end.
End context.

(** *** HEVC *)

(** The length of the start code, if there is one. *)
Definition nal_start (data : list Z) : res Z :=
  b0 ← idx data 0;
  b1 ← idx data 1;
  if (b0 =? 0) && (b1 =? 0) then
    b2 ← idx data 2;
    if b2 =? 1 then Ret 3
    else if (b2 =? 0) && (3 <? len data) then b3 ← idx data 3; Ret (if b3 =? 1 then 4 else 0)
    else Ret 0
  else Ret 0.

(** The checks the three methods share, and the bytes behind the NAL header. *)
Definition hevc_payload {A} (data : list Z) (ctx : ParameterSetContext) (k : list Z -> res (A * exn ctx_error unit))
    (stop : ctx_error -> res (A * exn ctx_error unit)) : res (A * exn ctx_error unit) :=
  if negb (codec_is (codec ctx) CodecHEVC) then stop (WrongCodec (codec ctx))
  else if len data <? 4 then stop (DataTooShort (len data))
  else
    nalStart ← nal_start data;
    if len data <=? nalStart + 2 then stop (DataTooShort (len data)) else k (dropZ (nalStart + 2) data).

Definition touch (now : Z) (ctx : ParameterSetContext) : ParameterSetContext :=
  ctx <| lastUpdated := now |> <| lastParameterSetUpdate := now |>.

Definition AddVPS (now : Z) (data : list Z) (ctx : ParameterSetContext) : outcome :=
  hevc_payload data ctx
    (fun payload =>
       b ← idx payload 0;
       let vpsID := Z.land (Z.shiftr b 4) 0x0F in
       Ret (touch now (ctx <| vpsMap := <[vpsID := new_set vpsID data now]> (vpsMap ctx) |>), Val tt))
    (fun e => Ret (ctx, Err e)).

(** [rbspData, _ := RemoveEmulationPreventionBytes(...)] *)
Definition rbsp_or_nil (payload : list Z) : list Z :=
  match Rbsp.RemoveEmulationPreventionBytes payload with Val d => d | Err _ => [] end.

(** A read whose result and error are ignored: the reader stays where it is after an error. *)
Definition skip_bits (n : Z) (br : BitReader.BitReader) : res BitReader.BitReader :=
  '(br, _) ← TypesBits.ReadBits n br; Ret br.

(** [ReadBits(96)] is beyond the reader's limit of 32 bits and skips nothing. *)
Definition hevc_sps_id (payload : list Z) : res Z :=
  br ← skip_bits 4 (TypesBits.NewBitReader (rbsp_or_nil payload));
  '(br, r) ← TypesBits.ReadBits 3 br;
  match r with
  | Err _ => Ret 0
  | Val maxSubLayers =>
      br ← skip_bits 1 br;
      br ← skip_bits 96 br;
      br ← (if 1 <? maxSubLayers then
              br ← skip_bits (2 * (maxSubLayers - 1)) br;
              if maxSubLayers <? 8 then skip_bits (2 * (8 - maxSubLayers)) br else Ret br
            else Ret br);
      '(_, r) ← TypesBits.ReadUE br;
      Ret (match r with Val id => if id <=? 15 then u8 id else 0 | Err _ => 0 end)
  end.

Definition AddHEVCSPS (now : Z) (data : list Z) (ctx : ParameterSetContext) : outcome :=
  hevc_payload data ctx
    (fun payload =>
       spsID ← hevc_sps_id payload;
       Ret (touch now (ctx <| hevcSpsMap := <[spsID := new_set spsID data now]> (hevcSpsMap ctx) |>), Val tt))
    (fun e => Ret (ctx, Err e)).

Definition hevc_pps_id (payload : list Z) : res Z :=
  '(_, r) ← TypesBits.ReadUE (TypesBits.NewBitReader (rbsp_or_nil payload));
  Ret (match r with Val id => if id <=? 63 then u8 id else 0 | Err _ => 0 end).

Definition AddHEVCPPS (now : Z) (data : list Z) (ctx : ParameterSetContext) : outcome :=
  hevc_payload data ctx
    (fun payload =>
       ppsID ← hevc_pps_id payload;
       Ret (touch now (ctx <| hevcPpsMap := <[ppsID := new_set ppsID data now]> (hevcPpsMap ctx) |>), Val tt))
    (fun e => Ret (ctx, Err e)).

(** ** Copies, clearing and counters *)

(** The copy's optional fields; [ConstraintFlags] and [Log2MaxFrameNumMinus4]
    are left out. *)
Definition copy_sps (sps : ParameterSet) : ParameterSet :=
  mkSet (ID sps) (Data sps) (ParsedAt sps) (Size sps) (Valid sps) (ErrorReason sps) (ProfileIDC sps) None (LevelIDC sps) None
    (Width sps) (Height sps).
Definition copy_plain (s : ParameterSet) : ParameterSet :=
  mkSet (ID s) (Data s) (ParsedAt s) (Size s) (Valid s) (ErrorReason s) None None None None None None.
Definition copy_pps (p : PPSContext) : PPSContext := mkPPS (copy_plain (pps_set p)) (ReferencedSPSID p).

Section ordered.
Context `{MapOrder}.

(** One map: [Err] is the early return of [-(copiedCount + 1)]. *)
Fixpoint copy_loop {A} (valid : A -> bool) (copy : A -> A) (max : Z) (l : list (Z * A)) (dst : gmap Z A) (copied : Z)
    : gmap Z A * exn Z Z :=
  match l with
  | [] => (dst, Val copied)
  | (id, s) :: l =>
      if max <=? copied then (dst, Err (- (copied + 1)))
      else if valid s then copy_loop valid copy max l (<[id := copy s]> dst) (copied + 1)
      else copy_loop valid copy max l dst copied
  end.

Definition bind_copy {A} (r : A * exn Z Z) (ctx : A -> ParameterSetContext) (k : ParameterSetContext -> Z -> ParameterSetContext * Z)
    : ParameterSetContext * Z :=
  let '(m, out) := r in match out with Err n => (ctx m, n) | Val copied => k (ctx m) copied end.

Definition pps_Valid (p : PPSContext) : bool := Valid (pps_set p).

(** The copy after the limit has been looked at. *)
Definition copy_sets (now max : Z) (source ctx : ParameterSetContext) : ParameterSetContext * Z :=
  let finish ctx copied := (if 0 <? copied then ctx <| lastUpdated := now |> <| totalSets := totalSets ctx + copied |> else ctx, copied) in
  bind_copy (copy_loop Valid copy_sps max (range (spsMap source)) (spsMap ctx) 0) (fun m => ctx <| spsMap := m |>) (fun ctx n =>
  bind_copy (copy_loop pps_Valid copy_pps max (range (ppsMap source)) (ppsMap ctx) n) (fun m => ctx <| ppsMap := m |>) (fun ctx n =>
  if codec_is (codec ctx) CodecHEVC then
    bind_copy (copy_loop Valid copy_plain max (range (vpsMap source)) (vpsMap ctx) n) (fun m => ctx <| vpsMap := m |>) (fun ctx n =>
    bind_copy (copy_loop Valid copy_plain max (range (hevcSpsMap source)) (hevcSpsMap ctx) n) (fun m => ctx <| hevcSpsMap := m |>) (fun ctx n =>
    bind_copy (copy_loop Valid copy_plain max (range (hevcPpsMap source)) (hevcPpsMap ctx) n) (fun m => ctx <| hevcPpsMap := m |>) finish))
  else finish ctx n)).

(** *** The oldest sets *)

Inductive set_kind : Type := KSPS | KPPS | KVPS | KHEVCSPS | KHEVCPPS.
Record aged := mkAged { a_kind : set_kind; a_id : Z; a_age : Z }.

Definition all_aged (ctx : ParameterSetContext) : list aged :=
  ((fun e => mkAged KSPS e.1 (ParsedAt e.2)) <$> range (spsMap ctx)) ++
  ((fun e => mkAged KPPS e.1 (pps_ParsedAt e.2)) <$> range (ppsMap ctx)) ++
  ((fun e => mkAged KVPS e.1 (ParsedAt e.2)) <$> range (vpsMap ctx)) ++
  ((fun e => mkAged KHEVCSPS e.1 (ParsedAt e.2)) <$> range (hevcSpsMap ctx)) ++
  ((fun e => mkAged KHEVCPPS e.1 (ParsedAt e.2)) <$> range (hevcPpsMap ctx)).

(** [for j := 0; j < n; j++]: neighbours in the wrong order are exchanged. *)
Fixpoint bubble_pass (n : nat) (l : list aged) : list aged :=
  match n, l with
  | S n, x :: ((y :: l) as t) => if a_age y <? a_age x then y :: bubble_pass n (x :: l) else x :: bubble_pass n t
  | _, _ => l
  end.
(** [for i := 0; i < len-1; i++] with passes of [len-i-1] steps. *)
Fixpoint bubble_loop (n : nat) (l : list aged) : list aged :=
  match n with O => l | S n => bubble_loop n (bubble_pass (S n) l) end.
Definition sort_by_age (l : list aged) : list aged := bubble_loop (length l - 1) l.

Definition delete_set (ctx : ParameterSetContext) (s : aged) : ParameterSetContext :=
  match a_kind s with
  | KSPS => ctx <| spsMap := delete (a_id s) (spsMap ctx) |>
  | KPPS => ctx <| ppsMap := delete (a_id s) (ppsMap ctx) |>
  | KVPS => ctx <| vpsMap := delete (a_id s) (vpsMap ctx) |>
  | KHEVCSPS => ctx <| hevcSpsMap := delete (a_id s) (hevcSpsMap ctx) |>
  | KHEVCPPS => ctx <| hevcPpsMap := delete (a_id s) (hevcPpsMap ctx) |>
  end.

Definition clearOldestUnsafe (count : Z) (ctx : ParameterSetContext) : ParameterSetContext * Z :=
  if count <=? 0 then (ctx, 0)
  else
    let victims := takeZ count (sort_by_age (all_aged ctx)) in
    (fold_left delete_set victims ctx, len victims).

Definition ClearOldest (now count : Z) (ctx : ParameterSetContext) : ParameterSetContext * Z :=
  if count <=? 0 then (ctx, 0)
  else
    let '(ctx, removed) := clearOldestUnsafe count ctx in
    (ctx <| totalSets := totalSets ctx - removed |> <| lastCleanup := now |>, removed).

Definition performEmergencyCleanupUnsafe (now : Z) (ctx : ParameterSetContext) : ParameterSetContext * Z :=
  let ctx' := drop_all_old now ParameterSetCleanupInterval true ctx in
  let removed := count_sets ctx - count_sets ctx' in
  let currentTotal := count_sets ctx' in
  let '(ctx', removed) :=
    if MaxParameterSetsPerSession <=? currentTotal
    then let '(c, n) := clearOldestUnsafe (Z.quot currentTotal 2) ctx' in (c, removed + n)
    else (ctx', removed) in
  (ctx' <| totalSets := totalSets ctx' - removed |> <| lastCleanup := now |>, removed).

(** The locks are taken in the order of the addresses; one call is one step.
    [source] is [None] for a nil pointer and for the context itself. *)
Definition CopyParameterSetsFrom (now : Z) (source : option ParameterSetContext) (ctx : ParameterSetContext) : ParameterSetContext * Z :=
  match source with
  | None => (ctx, 0)
  | Some source =>
      if MaxParameterSetsPerSession <=? count_sets ctx then
        let '(ctx, cleaned) := performEmergencyCleanupUnsafe now ctx in
        let currentTotal := count_sets ctx in
        if MaxParameterSetsPerSession <=? currentTotal then (ctx, ErrorCodeCriticalFailure - currentTotal)
        else if cleaned =? 0 then (ctx, ErrorCodeMemoryPressure - currentTotal)
        else copy_sets now (MaxParameterSetsPerSession - currentTotal) source ctx
      else copy_sets now (MaxParameterSetsPerSession - count_sets ctx) source ctx
  end.
End ordered.

Definition Clear (now : Z) (ctx : ParameterSetContext) : ParameterSetContext :=
  ctx <| spsMap := ∅ |> <| ppsMap := ∅ |> <| vpsMap := ∅ |> <| hevcSpsMap := ∅ |> <| hevcPpsMap := ∅ |>
      <| totalSets := 0 |> <| lastUpdated := now |> <| lastCleanup := now |>.
Definition IncrementFrameCount (ctx : ParameterSetContext) : ParameterSetContext :=
  ctx <| totalFramesProcessed := u64 (totalFramesProcessed ctx + 1) |>.

Definition GetParameterSetData (paramType : string) (id : Z) (ctx : ParameterSetContext) : option (list Z) :=
  let get {A} (m : gmap Z A) (set : A -> ParameterSet) :=
    match m !! id with Some s => if Valid (set s) then Some (Data (set s)) else None | None => None end in
  if String.eqb paramType "sps" then get (spsMap ctx) (fun s => s)
  else if String.eqb paramType "pps" then get (ppsMap ctx) pps_set
  else if String.eqb paramType "vps" then get (vpsMap ctx) (fun s => s)
  else None.

(** The valid sets of a map, and no entry for an empty map. *)
Definition valid_data {A} (set : A -> ParameterSet) (m : gmap Z A) : option (gmap Z (list Z)) :=
  if bool_decide (m = ∅) then None else Some (omap (fun s => if Valid (set s) then Some (Data (set s)) else None) m).
Definition GetAllParameterSets (ctx : ParameterSetContext) : list (string * gmap Z (list Z)) :=
  let hevc := codec_is (codec ctx) CodecHEVC in
  let entry name o := match o with Some m => [(name, m)] | None => [] end in
  (entry "sps" (valid_data (fun s => s) (spsMap ctx)) ++ entry "pps" (valid_data pps_set (ppsMap ctx)) ++
   if hevc then entry "vps" (valid_data (fun s => s) (vpsMap ctx)) ++ entry "hevc_sps" (valid_data (fun s => s) (hevcSpsMap ctx))
                ++ entry "hevc_pps" (valid_data (fun s => s) (hevcPpsMap ctx)) else [])%list.

(** [validPairings] and the number of picture sets; the quotient is [coverage]. *)
Definition paired (ctx : ParameterSetContext) (p : PPSContext) : bool :=
  match spsMap ctx !! ReferencedSPSID p with Some s => Valid s && Valid (pps_set p) | None => false end.
Definition validPairings (ctx : ParameterSetContext) : Z :=
  Z.of_nat (size (filter (fun kv => paired ctx kv.2 = true) (ppsMap ctx))).
Definition calculateCoverage (ctx : ParameterSetContext) : Z * Z :=
  if bool_decide (spsMap ctx = ∅) then (0, 1)
  else if bool_decide (ppsMap ctx = ∅) then (1, 2)
  else (validPairings ctx, Z.of_nat (size (ppsMap ctx))).

Section versions.
Context (sha256 : list Z -> list Z).

Definition CreateVersion (now : Z) (ctx : ParameterSetContext) : ParameterSetContext * exn ctx_error ParamVersions.ParameterSetVersion :=
  match versionManager ctx with
  | None => (ctx, Err VersioningDisabled)
  | Some vm =>
      let '(vm, v) := ParamVersions.CreateVersion sha256 now (spsMap ctx) (ppsMap ctx) (totalFramesProcessed ctx) vm in
      (ctx <| versionManager := Some vm |>, Val v)
  end.
Definition RollbackToVersion (now version : Z) (ctx : ParameterSetContext) : ParameterSetContext * exn ctx_error unit :=
  match versionManager ctx with
  | None => (ctx, Err VersioningDisabled)
  | Some vm =>
      let '(vm, r) := ParamVersions.Rollback sha256 now (spsMap ctx) (ppsMap ctx) (totalFramesProcessed ctx) version vm in
      let ctx := ctx <| versionManager := Some vm |> in
      match r with
      | Err e => (ctx, Err (VersionError e))
      | Val (sps, pps) => (ctx <| spsMap := sps |> <| ppsMap := pps |>, Val tt)
      end
  end.
End versions.
Definition GetVersionHistory (ctx : ParameterSetContext) : list ParamVersions.ParameterSetVersion :=
  match versionManager ctx with None => [] | Some vm => ParamVersions.GetVersionHistory vm end.

(** ** What the methods return *)

Definition keep_validator (ctx ctx' : ParameterSetContext) : Prop := exists v, ctx' = ctx <| validator := v |>.
Lemma keep_self ctx : keep_validator ctx ctx.
Proof. exists (validator ctx). by destruct ctx. Qed.

Lemma with_validator_returns m ctx k (P : ParameterSetContext * exn ctx_error unit -> Prop) :
  (forall v, exists v' r, m v = Ret (v', r)) -> (forall c e, keep_validator ctx c -> P (c, Err (Refused e))) ->
  (forall c, keep_validator ctx c -> returns (k c) P) -> returns (with_validator m ctx k) P.
Proof.
  intros Hm He Hk. unfold with_validator. destruct (validator ctx) as [v|]; [|by apply Hk, keep_self].
  destruct (Hm v) as (v' & r & ->). rewrite bind_Ret. assert (keep_validator ctx (ctx <| validator := Some v' |>)) by by exists (Some v').
  destruct r; [by apply Hk|apply returns_Ret; by apply He].
Qed.

Lemma enhanced_sps_returns data : bytes data -> data <> [] -> returns (EnhancedSPSValidation data) (fun _ => True).
Proof.
  intros Hd Hne. unfold EnhancedSPSValidation. destruct data as [|b data]; [done|]. change (idx (b :: data) 0) with (Ret b). rewrite bind_Ret.
  apply ParamSets.with_rbsp_returns; [done|done|]. intros c Hc. apply ParamSets.run_returns; [apply ParamSets.safe_sps_checks|done].
Qed.
Lemma enhanced_pps_returns data : bytes data -> data <> [] -> returns (EnhancedPPSValidation data) (fun _ => True).
Proof.
  intros Hd Hne. unfold EnhancedPPSValidation. destruct data as [|b data]; [done|]. change (idx (b :: data) 0) with (Ret b). rewrite bind_Ret.
  apply ParamSets.with_rbsp_returns; [done|done|]. intros c Hc. apply ParamSets.run_returns; [apply ParamSets.safe_pps_checks|done].
Qed.

Section adding.
Context (sha256 : list Z -> list Z).

Lemma ValidateSPS_returns now id data v : exists v' r, ParamValidator.ValidateSPS sha256 now id data v = Ret (v', r).
Proof.
  pose proof (ParamValidator.ValidateSPS_spec sha256 now id data v) as Hs. unfold ParamValidator.call_spec in Hs.
  cbn [ParamValidator.change_of] in Hs. destruct Hs as (v' & r & E & _). eauto.
Qed.
Lemma ValidatePPS_returns now p s data v : exists v' r, ParamValidator.ValidatePPS sha256 now p s data v = Ret (v', r).
Proof.
  pose proof (ParamValidator.ValidatePPS_spec sha256 now p s data v) as Hs. unfold ParamValidator.call_spec in Hs.
  cbn [ParamValidator.change_of] in Hs. destruct Hs as (v' & r & E & _). eauto.
Qed.

Definition refused (ctx : ParameterSetContext) (out : ParameterSetContext * exn ctx_error unit) : Prop :=
  keep_validator ctx out.1 /\ exists e, out.2 = Err e.

Lemma AddSPS_returns now data ctx :
  bytes data -> data <> [] ->
  returns (AddSPS sha256 now data ctx) (fun out => refused ctx out \/
    out.2 = Val tt /\ codec ctx = CodecH264 /\ exists sps c, parseSPS (lastUpdated ctx) data = Ret (Val sps) /\ 0 <= ID sps <= 31 /\
      Data sps = data /\ Valid sps = true /\ keep_validator ctx c /\ out.1 = store_sps sha256 now sps c).
Proof.
  intros Hd Hne.
  assert (forall e, refused ctx (ctx, Err e)) as Hr by (intros e; split; [apply keep_self|eauto]).
  unfold AddSPS, codec_is. case_bool_decide as Hc; cbn [negb]; [|apply returns_Ret; auto].
  eapply returns_bind; [by apply ValidateSPSData_returns|]. intros r _. cbv beta. case_bool; [apply returns_Ret; auto|].
  eapply returns_bind; [by apply enhanced_sps_returns|]. intros _ _.
  destruct (ParamSets.parseSPS_sound (lastUpdated ctx) data Hd) as (r' & E & Hv). rewrite E, bind_Ret.
  destruct r' as [sps|e]; [|apply returns_Ret; auto]. destruct (Hv sps eq_refl) as (Hid & HD & _ & HV).
  case_bool; [apply returns_Ret; auto|]. case_bool; [apply returns_Ret; auto|].
  apply with_validator_returns; [apply ValidateSPS_returns|left; split; cbn; eauto|].
  intros c Hk. apply returns_Ret. right. split; [done|]. split; [done|]. exists sps, c. done.
Qed.

(** The two readings of a picture parameter set are of the same bytes. *)
Lemma read_twice now data ids :
  ValidatePPSData data = Ret (Val ids) -> exists pps, parsePPS now data = Ret (Val pps) /\ ids = (ID (pps_set pps), ReferencedSPSID pps).
Proof.
  assert (forall h, ParamSets.with_rbsp h data ParamSets.parsePPSIDs = Ret (Val ids) ->
    exists pps, ParamSets.with_rbsp h data (fun rbspData =>
      if len rbspData <? 1 then Ret (Err (ParamSets.SetTooShort (len rbspData)))
      else r ← ParamSets.run ParamSets.pps_ids rbspData;
           Ret (match r with Err e => Err e | Val (ppsID, spsID) => Val (mkPPS (new_set (u8 ppsID) data now) (u8 spsID)) end)) =
      Ret (Val pps) /\ ids = (ID (pps_set pps), ReferencedSPSID pps)) as Hw.
  { intros h. unfold ParamSets.with_rbsp. destruct (if h then _ else _) as [c|e]; [|done]. unfold ParamSets.parsePPSIDs.
    case_bool; [done|]. destruct (ParamSets.run ParamSets.pps_ids c) as [[[p s]|e]| |]; try done.
    rewrite !bind_Ret. intros [= <-]. eexists. split; [done|]. done. }
  unfold ValidatePPSData, parsePPS. case_bool; [done|]. destruct (idx data 0) as [b| |]; try done. rewrite !bind_Ret. cbv zeta.
  destruct (ParamSets.nal_type b =? 8); [apply Hw|].
  intros E. assert (ParamSets.validateRawPPSData data = Ret (Val ids)) as Hraw.
  { destruct (ParamSets.validateRawPPSData data) as [[i|e]| |]; cbn [mbind res_bind] in E; rewrite ?bind_Ret in E; repeat case_match; congruence. }
  apply Hw. unfold ParamSets.validateRawPPSData in Hraw. destruct (len data <? 1); [done|exact Hraw].
Qed.

Lemma read_sps_twice now data sps id :
  parseSPS now data = Ret (Val sps) -> ValidateSPSData data = Ret (Val id) -> id = ID sps.
Proof.
  unfold parseSPS. case_bool; [done|]. destruct (idx data 0) as [b| |] eqn:Eb; try done. rewrite bind_Ret. cbv zeta.
  set (h := (ParamSets.nal_type b =? 7) || (ParamSets.nal_type b =? 15)). intros Ep Ev.
  assert (ParamSets.with_rbsp h data ParamSets.parseSPSID = Ret (Val id)) as Hv.
  { unfold ValidateSPSData in Ev. revert Ev. case_bool; [done|]. rewrite Eb, bind_Ret. cbv zeta. fold h.
    unfold ParamSets.parseSPSIDFromRawData, ParamSets.parseSPSIDFromNALUnit. destruct (existsb _ _ && _ && _) eqn:Hl.
    - apply andb_true_iff in Hl as [Hl H15]. apply andb_true_iff in Hl as [_ H7]. subst h.
      apply negb_true_iff in H15, H7. rewrite H15, H7. case_bool; [done|]. by intros.
    - clear Ep. destruct h; [by destruct (len data <? 2)|].
      destruct (len data <? 3); [cbn; by case_match|].
      destruct (ParamSets.with_rbsp false data ParamSets.parseSPSID) as [[v|e]| |]; cbn; try done. by case_match. }
  clear Ev. unfold ParamSets.with_rbsp in *. destruct (if h then _ else _) as [c|e]; [|done].
  unfold ParamSets.parseSPSID in Hv. revert Hv. case_bool; [done|]. destruct (idx c 0) as [b0| |]; try done. destruct (idx c 1) as [b1| |]; try done.
  rewrite !bind_Ret. case_bool; [done|]. unfold ParamSets.run. destruct (ParamSets.sps_ids (TypesBits.NewBitReader c)) as [[br r]| |]; try done.
  rewrite !bind_Ret in *. destruct r as [[[[p f] l] i]|e]; [|done]. intros [= <-].
  unfold ParamSets.parseResolutionFromSPS in Ep. destruct (ParamSets.resolution_fields (u8 p) br) as [[br' r]| |]; try done.
  rewrite !bind_Ret in Ep. injection Ep as <-. by case_bool.
Qed.

Lemma AddPPS_returns now data ctx :
  bytes data ->
  returns (AddPPS sha256 now data ctx) (fun out => refused ctx out \/
    out.2 = Val tt /\ codec ctx = CodecH264 /\ exists pps c, parsePPS (lastUpdated ctx) data = Ret (Val pps) /\ 0 <= ID (pps_set pps) <= 255 /\
      0 <= ReferencedSPSID pps <= 31 /\ Data (pps_set pps) = data /\ Valid (pps_set pps) = true /\
      (exists ids, ValidatePPSData data = Ret (Val ids) /\ ids.1 = ID (pps_set pps)) /\
      keep_validator ctx c /\ out.1 = store_pps now pps c).
Proof.
  intros Hd.
  assert (forall e, refused ctx (ctx, Err e)) as Hr by (intros e; split; [apply keep_self|eauto]).
  unfold AddPPS, codec_is. case_bool_decide as Hc; cbn [negb]; [|apply returns_Ret; auto].
  destruct (Z.eqb_spec (len data) 0) as [|Hlen]; [apply returns_Ret; auto|].
  assert (data <> []) as Hne by by intros ->.
  eapply (returns_bind _ _ (fun _ => True)).
  { unfold corrupt_pattern. destruct (Z.ltb_spec 1 (len data)); [|by apply returns_Ret].
    eapply returns_bind; [apply returns_idx; [done|lia]|]. intros; by apply returns_Ret. }
  intros [b|] _; [apply returns_Ret; auto|].
  destruct (ValidatePPSData_returns data Hd) as (r & E & _). rewrite E, bind_Ret. destruct r as [ids|e]; [|apply returns_Ret; auto].
  destruct (read_twice (lastUpdated ctx) data ids E) as (pps & Ep & ->).
  eapply returns_bind; [by apply enhanced_pps_returns|]. intros _ _. rewrite Ep, bind_Ret, !Z.eqb_refl. cbn [negb].
  destruct (ParamSets.parsePPS_sound (lastUpdated ctx) data Hd) as (r' & E' & Hv). rewrite Ep in E'. injection E' as <-.
  destruct (Hv pps eq_refl) as (Hid & Href & HD & _ & HV).
  apply with_validator_returns; [apply ValidatePPS_returns|left; split; cbn; eauto|].
  intros c Hk. apply returns_Ret. right. split; [done|]. split; [done|]. exists pps, c. eauto 12.
Qed.
End adding.

(** ** The sets a context can hold *)

Definition set_ok (n k : Z) (s : ParameterSet) : Prop := 0 <= k <= n /\ ID s = k /\ Valid s = true.
(** What is stored was parsed: the validator finds no other id in it. *)
Definition sps_ok (k : Z) (s : ParameterSet) : Prop :=
  set_ok 31 k s /\ bytes (Data s) /\ forall id, ValidateSPSData (Data s) = Ret (Val id) -> id = k.
Definition pps_ok (k : Z) (p : PPSContext) : Prop :=
  set_ok 255 k (pps_set p) /\ 0 <= ReferencedSPSID p <= 31 /\ bytes (Data (pps_set p)) /\
  exists coded, ValidatePPSData (Data (pps_set p)) = Ret (Val (k, coded)).
Definition versions_ok (vm : VersionManager) : Prop :=
  map_Forall (fun _ v => map_Forall sps_ok (ParamVersions.SPSSets v) /\ map_Forall pps_ok (ParamVersions.PPSSets v))
    (ParamVersions.versions vm).

Record ctx_ok (ctx : ParameterSetContext) : Prop := mkOk {
  ok_sps : map_Forall sps_ok (spsMap ctx);
  ok_pps : map_Forall pps_ok (ppsMap ctx);
  ok_vps : map_Forall (set_ok 15) (vpsMap ctx);
  ok_hsps : map_Forall (set_ok 15) (hevcSpsMap ctx);
  ok_hpps : map_Forall (set_ok 63) (hevcPpsMap ctx);
  ok_versions : forall vm, versionManager ctx = Some vm -> versions_ok vm
}.

Lemma size_ids {A} (m : gmap Z A) (P : Z -> A -> Prop) n :
  (forall k a, P k a -> 0 <= k <= n) -> 0 <= n -> map_Forall P m -> Z.of_nat (size m) <= n + 1.
Proof.
  intros HP Hn Hm. pose proof (ParamVersions.size_interval m 0 n) as Hs. rewrite Z.max_r in Hs by lia. etrans; [apply Hs|lia].
  intros k x Hk. exact (HP _ _ (Hm k x Hk)).
Qed.
(** 32 + 256 + 16 + 16 + 64 *)
Lemma few_sets ctx : ctx_ok ctx -> 0 <= count_sets ctx <= 384.
Proof.
  intros [H1 H2 H3 H4 H5 _]. unfold count_sets.
  assert (forall n m, 0 <= n -> map_Forall (set_ok n) m -> Z.of_nat (size m) <= n + 1) as Hn
    by (intros n m; apply size_ids; by intros k a [? _]).
  assert (Z.of_nat (size (ppsMap ctx)) <= 255 + 1) by (apply (size_ids _ pps_ok); [by intros k a [[? _] _]|done..]).
  assert (Z.of_nat (size (spsMap ctx)) <= 31 + 1) by (apply (size_ids _ sps_ok); [by intros k a [[? _] _]|done..]).
  pose proof (Hn 15 _ ltac:(done) H3). pose proof (Hn 15 _ ltac:(done) H4).
  pose proof (Hn 63 _ ltac:(done) H5). lia.
Qed.

Lemma check_small now ctx : ctx_ok ctx -> exists t, checkAndPerformCleanup now ctx = ctx <| lastCleanup := t |>.
Proof.
  intros Hok. pose proof (few_sets ctx Hok). unfold checkAndPerformCleanup.
  assert (ctx = ctx <| lastCleanup := lastCleanup ctx |>) as Hid by by destruct ctx.
  case_bool; [by exists (lastCleanup ctx)|]. case_bool; [by exists (lastCleanup ctx)|].
  rewrite (proj2 (Z.ltb_ge _ _)) by (unfold MaxParameterSetsPerSession; lia). by exists now.
Qed.

(** The fields the invariant does not speak of. *)
Lemma ok_same ctx ctx' :
  spsMap ctx' = spsMap ctx -> ppsMap ctx' = ppsMap ctx -> vpsMap ctx' = vpsMap ctx -> hevcSpsMap ctx' = hevcSpsMap ctx ->
  hevcPpsMap ctx' = hevcPpsMap ctx -> versionManager ctx' = versionManager ctx -> ctx_ok ctx -> ctx_ok ctx'.
Proof. intros E1 E2 E3 E4 E5 E6 [H1 H2 H3 H4 H5 H6]. split; [by rewrite E1|by rewrite E2|by rewrite E3|by rewrite E4|by rewrite E5|by rewrite E6]. Qed.
Lemma ok_validator ctx c : keep_validator ctx c -> ctx_ok ctx -> ctx_ok c.
Proof. intros [v ->]. by apply ok_same. Qed.
Lemma ok_cleanup now ctx : ctx_ok ctx -> ctx_ok (checkAndPerformCleanup now ctx).
Proof. intros Hok. destruct (check_small now ctx Hok) as [t ->]. revert Hok. by apply ok_same. Qed.
Lemma forall_submap {A} (P : Z -> A -> Prop) (m m' : gmap Z A) : m' ⊆ m -> map_Forall P m -> map_Forall P m'.
Proof. intros Hs Hm k a Hk. apply Hm. by eapply lookup_weaken. Qed.
Lemma ok_submaps ctx ctx' :
  spsMap ctx' ⊆ spsMap ctx -> ppsMap ctx' ⊆ ppsMap ctx -> vpsMap ctx' ⊆ vpsMap ctx -> hevcSpsMap ctx' ⊆ hevcSpsMap ctx ->
  hevcPpsMap ctx' ⊆ hevcPpsMap ctx -> versionManager ctx' = versionManager ctx -> ctx_ok ctx -> ctx_ok ctx'.
Proof.
  intros E1 E2 E3 E4 E5 E6 [H1 H2 H3 H4 H5 H6].
  split; [by eapply forall_submap..|by rewrite E6].
Qed.

(** *** The versions *)

Lemma copied_sps (m : sps_map) : map_Forall sps_ok m -> map_Forall sps_ok (ParamVersions.copyParameterSet <$> m).
Proof. intros Hm k s (t & <- & Hk)%lookup_fmap_Some. exact (Hm k t Hk). Qed.
Lemma copied_pps (m : pps_map) : map_Forall pps_ok m -> map_Forall pps_ok (ParamVersions.copyPPSContext <$> m).
Proof. intros Hm k s (t & <- & Hk)%lookup_fmap_Some. exact (Hm k t Hk). Qed.

Section versions_kept.
Context (sha256 : list Z -> list Z).

Lemma versions_subset vm vm' :
  (forall k v, ParamVersions.versions vm' !! k = Some v -> exists v0, ParamVersions.versions vm !! k = Some v0 /\
     ParamVersions.SPSSets v = ParamVersions.SPSSets v0 /\ ParamVersions.PPSSets v = ParamVersions.PPSSets v0) ->
  versions_ok vm -> versions_ok vm'.
Proof. intros Hs Hok k v Hk. destruct (Hs k v Hk) as (v0 & H0 & -> & ->). exact (Hok k v0 H0). Qed.
Lemma versions_cleanup vm : versions_ok vm -> versions_ok (ParamVersions.cleanupOldVersions vm).
Proof.
  apply versions_subset. intros k v Hk. exists v. split; [|done]. unfold ParamVersions.cleanupOldVersions in Hk.
  revert Hk. case_bool; [done|]. cbn. apply ParamVersions.delete_loop_subset.
Qed.
Lemma versions_new now sps pps f vm :
  map_Forall sps_ok sps -> map_Forall pps_ok pps -> versions_ok vm -> versions_ok (ParamVersions.new_version sha256 now sps pps f vm).1.
Proof.
  intros Hs Hp Hok. unfold versions_ok, ParamVersions.new_version. cbn. apply map_Forall_insert_2; [|done]. cbn.
  auto using copied_sps, copied_pps.
Qed.
Lemma versions_create now sps pps f vm :
  map_Forall sps_ok sps -> map_Forall pps_ok pps -> versions_ok vm -> versions_ok (ParamVersions.CreateVersion sha256 now sps pps f vm).1.
Proof.
  intros Hs Hp Hok. pose proof (versions_new now sps pps f vm Hs Hp Hok) as Hn. unfold ParamVersions.CreateVersion.
  destruct (ParamVersions.new_version sha256 now sps pps f vm) as [vm1 v]. by apply versions_cleanup.
Qed.
Lemma versions_snapshot now s vm :
  map_Forall sps_ok (ParamVersions.s_SPSMap s) -> map_Forall pps_ok (ParamVersions.s_PPSMap s) -> versions_ok vm ->
  versions_ok (ParamVersions.CreateVersionFromSnapshot sha256 now s vm).1.
Proof. rewrite ParamVersions.snapshot_is_create. apply versions_create. Qed.
Lemma versions_alter (f : ParamVersions.ParameterSetVersion -> ParamVersions.ParameterSetVersion) i (vs : gmap Z ParamVersions.ParameterSetVersion) k v :
  (forall v, ParamVersions.SPSSets (f v) = ParamVersions.SPSSets v /\ ParamVersions.PPSSets (f v) = ParamVersions.PPSSets v) ->
  alter f i vs !! k = Some v -> exists v0, vs !! k = Some v0 /\ ParamVersions.SPSSets v = ParamVersions.SPSSets v0 /\
    ParamVersions.PPSSets v = ParamVersions.PPSSets v0.
Proof.
  intros Hf. destruct (decide (i = k)) as [->|Hne]; [|rewrite lookup_alter_ne by done; eauto].
  rewrite lookup_alter_eq. intros (v0 & H0 & ->)%fmap_Some. destruct (Hf v0). eauto.
Qed.
Lemma versions_rollback now sps pps f target vm :
  map_Forall sps_ok sps -> map_Forall pps_ok pps -> versions_ok vm ->
  let '(vm', r) := ParamVersions.Rollback sha256 now sps pps f target vm in
  versions_ok vm' /\ forall sps' pps', r = Val (sps', pps') -> map_Forall sps_ok sps' /\ map_Forall pps_ok pps'.
Proof.
  intros Hs Hp Hok. unfold ParamVersions.Rollback, ParamVersions.createBackupVersion. case_bool; [done|].
  destruct (ParamVersions.versions vm !! target) as [v|] eqn:Hv; [|done]. case_bool; [done|]. case_bool; [done|].
  pose proof (versions_new now sps pps f vm Hs Hp Hok) as Hn.
  destruct (ParamVersions.new_version sha256 now sps pps f vm) as [vm1 b]. cbn [fst] in Hn. split.
  - apply (versions_subset vm1); [|done]. intros k w. cbn. intros Hk.
    apply versions_alter in Hk as (w1 & Hk & -> & ->); [|done]. by apply versions_alter in Hk.
  - intros sps' pps' [= <- <-]. destruct (Hok target v Hv). auto using copied_sps, copied_pps.
Qed.
End versions_kept.

(** *** Sorting by age *)

Lemma bubble_pass_spec n a b :
  length a = S n -> exists a' m, bubble_pass n (a ++ b) = a' ++ m :: b /\ a' ++ [m] ≡ₚ a /\ Forall (fun x => a_age x <= a_age m) a'.
Proof.
  revert a. induction n as [|n IH]; intros [|x a]; try done; [destruct a; [|done]; by exists [], x|]. destruct a as [|y a]; [done|].
  intros [= Hl]. cbn [app bubble_pass].
  assert (forall z t, length t = S n -> In z t -> exists a' m, bubble_pass n (t ++ b) = a' ++ m :: b /\ a' ++ [m] ≡ₚ t /\
    Forall (fun x => a_age x <= a_age m) a' /\ a_age z <= a_age m) as Hz.
  { intros z t Ht Hin. destruct (IH t Ht) as (a' & m & E & Hp & Hle). exists a', m. split; [done|]. split; [done|]. split; [done|].
    rewrite Forall_forall in Hle. assert (z ∈ a' ++ [m]) as Hz by (rewrite Hp; by apply list_elem_of_In).
    apply elem_of_app in Hz as [Hz|Hz%list_elem_of_singleton]; [by apply Hle|by subst]. }
  destruct (Z.ltb_spec (a_age y) (a_age x)).
  - destruct (Hz x (x :: a) ltac:(cbn; lia) (or_introl eq_refl)) as (a' & m & E & Hp & Hle & Hx). cbn [app] in E. rewrite E.
    exists (y :: a'), m. split; [done|]. split; [cbn [app]; rewrite Hp; apply Permutation_swap|constructor; [lia|done]].
  - destruct (Hz y (y :: a) ltac:(cbn; lia) (or_introl eq_refl)) as (a' & m & E & Hp & Hle & Hy). cbn [app] in E. rewrite E.
    exists (x :: a'), m. split; [done|]. split; [cbn [app]; by rewrite Hp|constructor; [lia|done]].
Qed.

Definition older (x y : aged) : Prop := a_age x <= a_age y.
Lemma bubble_loop_spec n a b :
  length a = S n -> StronglySorted older b -> (forall x y, x ∈ a -> y ∈ b -> older x y) ->
  bubble_loop n (a ++ b) ≡ₚ a ++ b /\ StronglySorted older (bubble_loop n (a ++ b)).
Proof.
  revert a b. induction n as [|n IH]; intros a b Hl Hb Hab; cbn [bubble_loop].
  - destruct a as [|x [|? ?]]; try done. split; [done|]. cbn [app]. constructor; [done|]. apply Forall_forall. intros y Hy. apply Hab; [by left|done].
  - destruct (bubble_pass_spec (S n) a b Hl) as (a' & m & -> & Hp & Hle).
    assert (forall x, x ∈ a' -> x ∈ a) as Hsub by (intros x Hx; rewrite <- Hp; apply elem_of_app; by left).
    assert (m ∈ a) as Hm by (rewrite <- Hp; apply elem_of_app; right; by left).
    destruct (IH a' (m :: b)) as [H1 H2].
    + apply Permutation_length in Hp. rewrite length_app in Hp. cbn in Hp. lia.
    + constructor; [done|]. apply Forall_forall. intros y Hy. by apply Hab.
    + intros x y Hx [->|Hy]%elem_of_cons; [rewrite Forall_forall in Hle; by apply Hle|]. apply Hab; [by apply Hsub|done].
    + split; [|done]. rewrite H1. rewrite <- Hp, <- app_assoc. done.
Qed.
Lemma sort_by_age_spec l : sort_by_age l ≡ₚ l /\ StronglySorted older (sort_by_age l).
Proof.
  unfold sort_by_age. destruct l as [|x l]; [split; [done|constructor]|].
  pose proof (bubble_loop_spec (length (x :: l) - 1) (x :: l) [] ltac:(cbn; lia) (SSorted_nil _) ltac:(intros ? ? _ []%not_elem_of_nil)) as H.
  by rewrite app_nil_r in H.
Qed.

Section clearing.
Context `{MapOrder}.

Lemma range_delete {A} (m : gmap Z A) i x : m !! i = Some x -> range m ≡ₚ (i, x) :: range (delete i m).
Proof. intros Hi. rewrite !range_perm. symmetry. by apply map_to_list_delete. Qed.
Lemma range_lookup {A} (m : gmap Z A) e : e ∈ range m -> m !! e.1 = Some e.2.
Proof. rewrite range_perm. destruct e. apply elem_of_map_to_list. Qed.
Lemma length_range {A} (m : gmap Z A) : length (range m) = size m.
Proof. rewrite (Permutation_length (range_perm m)). apply length_map_to_list. Qed.

Lemma aged_delete ctx s : s ∈ all_aged ctx -> all_aged ctx ≡ₚ s :: all_aged (delete_set ctx s).
Proof.
  unfold all_aged. rewrite !elem_of_app, !list_elem_of_fmap.
  intros [(e & -> & He)|[(e & -> & He)|[(e & -> & He)|[(e & -> & He)|(e & -> & He)]]]]; apply range_lookup in He;
    unfold delete_set; cbn;
    rewrite (range_delete _ _ _ He), fmap_cons; cbn; solve_Permutation.
Qed.

Lemma aged_fold gone rest ctx :
  all_aged ctx ≡ₚ gone ++ rest -> all_aged (fold_left delete_set gone ctx) ≡ₚ rest.
Proof.
  revert ctx. induction gone as [|s gone IH]; intros ctx Hp; [done|]. cbn [fold_left]. apply IH.
  apply (Permutation_cons_inv (a := s)). rewrite <- aged_delete; [done|]. rewrite Hp. by left.
Qed.
Definition submaps (ctx' ctx : ParameterSetContext) : Prop :=
  spsMap ctx' ⊆ spsMap ctx /\ ppsMap ctx' ⊆ ppsMap ctx /\ vpsMap ctx' ⊆ vpsMap ctx /\ hevcSpsMap ctx' ⊆ hevcSpsMap ctx /\
  hevcPpsMap ctx' ⊆ hevcPpsMap ctx.
Lemma fold_submaps gone ctx : submaps (fold_left delete_set gone ctx) ctx /\ versionManager (fold_left delete_set gone ctx) = versionManager ctx /\
  totalSets (fold_left delete_set gone ctx) = totalSets ctx.
Proof.
  revert ctx. induction gone as [|s gone IH]; intros ctx; [done|]. cbn [fold_left]. destruct (IH (delete_set ctx s)) as ((H1 & H2 & H3 & H4 & H5) & -> & ->).
  split; [|by destruct s as [[]]]. unfold submaps.
  repeat split; (etrans; [done|]); unfold delete_set; destruct (a_kind s); cbn; done || apply delete_subseteq.
Qed.
Lemma length_aged ctx : len (all_aged ctx) = count_sets ctx.
Proof. unfold all_aged, count_sets. rewrite !len_app. unfold len. rewrite !length_fmap, !length_range. lia. Qed.

Lemma clearOldestUnsafe_spec count ctx :
  0 < count ->
  let '(ctx', n) := clearOldestUnsafe count ctx in
  n = Z.min count (count_sets ctx) /\ submaps ctx' ctx /\ versionManager ctx' = versionManager ctx /\ totalSets ctx' = totalSets ctx /\
  exists gone, len gone = n /\ all_aged ctx ≡ₚ gone ++ all_aged ctx' /\ forall g k, g ∈ gone -> k ∈ all_aged ctx' -> older g k.
Proof.
  intros Hc. unfold clearOldestUnsafe. rewrite (proj2 (Z.leb_gt _ _)) by lia. cbv zeta.
  destruct (sort_by_age_spec (all_aged ctx)) as [Hp Hs]. set (l := sort_by_age (all_aged ctx)) in *.
  assert (all_aged ctx ≡ₚ takeZ count l ++ dropZ count l) as Hsplit by (unfold takeZ, dropZ; by rewrite take_drop).
  pose proof (aged_fold _ _ _ Hsplit) as Hrest. destruct (fold_submaps (takeZ count l) ctx) as (Hsub & Hv & Ht).
  split. { rewrite <- length_aged. apply Permutation_length in Hp. unfold takeZ, len. rewrite length_take. lia. }
  split; [done|]. split; [done|]. split; [done|]. exists (takeZ count l). split; [done|]. split; [by rewrite Hrest|].
  intros g k Hg. rewrite Hrest. intros Hk. revert Hg Hk. unfold takeZ, dropZ.
  apply (StronglySorted_app_1_elem_of older). by rewrite take_drop.
Qed.

(** *** Copying *)

Lemma copy_loop_all {A} (valid : A -> bool) (copy : A -> A) max l dst copied :
  Forall (fun e => valid e.2 = true) l -> NoDup l.*1 -> copied + len l <= max ->
  copy_loop valid copy max l dst copied = (list_to_map (prod_map id copy <$> l) ∪ dst, Val (copied + len l)).
Proof.
  revert dst copied. induction l as [|[i s] l IH]; intros dst copied Hv Hn Hm.
  - cbn. rewrite (left_id_L ∅ (∪)). do 2 f_equal. unfold len. cbn. lia.
  - rewrite len_cons in *. pose proof (len_nonneg l). rewrite fmap_cons, NoDup_cons in Hn. destruct Hn as [Hi Hn].
    apply Forall_cons in Hv as [Hs Hv]. cbn [copy_loop]. rewrite (proj2 (Z.leb_gt _ _)) by lia. cbn [snd] in Hs. rewrite Hs.
    rewrite IH by (done || lia). f_equal; [|f_equal; lia]. rewrite fmap_cons. cbn [prod_map list_to_map foldr fst snd id].
    change (foldr _ ∅ (prod_map id copy <$> l)) with (list_to_map (M := gmap Z A) (prod_map id copy <$> l)).
    rewrite <- insert_union_l, insert_union_r; [done|]. apply not_elem_of_list_to_map_1. by rewrite <- list_fmap_compose.
Qed.
Lemma copy_loop_map {A} (valid : A -> bool) (copy : A -> A) max (m dst : gmap Z A) copied :
  map_Forall (fun _ a => valid a = true) m -> copied + Z.of_nat (size m) <= max ->
  copy_loop valid copy max (range m) dst copied = ((copy <$> m) ∪ dst, Val (copied + Z.of_nat (size m))).
Proof.
  intros Hv Hm. assert (len (range m) = Z.of_nat (size m)) as Hl by (unfold len; by rewrite length_range).
  assert (NoDup (range m).*1) as Hn by (rewrite (range_perm m); apply NoDup_fst_map_to_list).
  rewrite copy_loop_all; [|apply Forall_forall; intros e He%range_lookup; by eapply Hv|done|by rewrite Hl].
  rewrite Hl. do 2 f_equal. assert (list_to_map (range m) = m) as Hr.
  { rewrite (list_to_map_proper (range m) (map_to_list m)); [by rewrite list_to_map_to_list|done|apply range_perm]. }
  rewrite list_to_map_fmap. by rewrite Hr.
Qed.

(** What a complete copy is. *)
Definition copy_exact (source ctx ctx' : ParameterSetContext) (n : Z) : Prop :=
  let hevc := codec_is (codec ctx) CodecHEVC in
  spsMap ctx' = (copy_sps <$> spsMap source) ∪ spsMap ctx /\ ppsMap ctx' = (copy_pps <$> ppsMap source) ∪ ppsMap ctx /\
  vpsMap ctx' = (if hevc then (copy_plain <$> vpsMap source) ∪ vpsMap ctx else vpsMap ctx) /\
  hevcSpsMap ctx' = (if hevc then (copy_plain <$> hevcSpsMap source) ∪ hevcSpsMap ctx else hevcSpsMap ctx) /\
  hevcPpsMap ctx' = (if hevc then (copy_plain <$> hevcPpsMap source) ∪ hevcPpsMap ctx else hevcPpsMap ctx) /\
  versionManager ctx' = versionManager ctx /\ totalSets ctx' = totalSets ctx + n /\
  n = Z.of_nat (size (spsMap source)) + Z.of_nat (size (ppsMap source)) +
      (if hevc then Z.of_nat (size (vpsMap source)) + Z.of_nat (size (hevcSpsMap source)) + Z.of_nat (size (hevcPpsMap source)) else 0).

Lemma valid_sps (m : sps_map) : map_Forall sps_ok m -> map_Forall (fun _ s => Valid s = true) m.
Proof. intros Hm k s Hk. exact (proj2 (proj2 (proj1 (Hm k s Hk)))). Qed.
Lemma valid_sets n (m : gmap Z ParameterSet) : map_Forall (set_ok n) m -> map_Forall (fun _ s => Valid s = true) m.
Proof. intros Hm k s Hk. exact (proj2 (proj2 (Hm k s Hk))). Qed.
Lemma bind_copy_Val {A} (m : A) n f k : bind_copy (m, Val n) f k = k (f m) n.
Proof. done. Qed.

Lemma copy_sets_all now max source ctx :
  ctx_ok source -> count_sets source <= max ->
  let '(ctx', n) := copy_sets now max source ctx in copy_exact source ctx ctx' n.
Proof.
  intros [H1 H2 H3 H4 H5 _] Hmax. unfold count_sets in Hmax. unfold copy_sets. cbv zeta.
  assert (map_Forall (fun _ p => pps_Valid p = true) (ppsMap source)) as H2'
    by (intros k p Hk; exact (proj2 (proj2 (proj1 (H2 k p Hk))))).
  rewrite copy_loop_map, bind_copy_Val by (auto using valid_sps || lia). cbn [ppsMap].
  rewrite copy_loop_map, bind_copy_Val by (done || lia). cbn [codec].
  unfold copy_exact. change (codec (upd _ _ _)) with (codec ctx).
  destruct (codec_is (codec ctx) CodecHEVC).
  - do 3 rewrite copy_loop_map, bind_copy_Val by (eauto using valid_sets || lia).
    destruct (Z.ltb_spec 0 (0 + Z.of_nat (size (spsMap source)) + Z.of_nat (size (ppsMap source)) + Z.of_nat (size (vpsMap source)) +
      Z.of_nat (size (hevcSpsMap source)) + Z.of_nat (size (hevcPpsMap source)))); do 6 (split; [done|]); (split; [cbn; lia|lia]).
  - destruct (Z.ltb_spec 0 (0 + Z.of_nat (size (spsMap source)) + Z.of_nat (size (ppsMap source))));
      do 6 (split; [done|]); (split; [cbn; lia|lia]).
Qed.

Lemma CopyParameterSetsFrom_all now source ctx :
  ctx_ok source -> ctx_ok ctx ->
  let '(ctx', n) := CopyParameterSetsFrom now (Some source) ctx in copy_exact source ctx ctx' n.
Proof.
  intros Hs Hc. pose proof (few_sets source Hs). pose proof (few_sets ctx Hc). unfold CopyParameterSetsFrom, MaxParameterSetsPerSession.
  rewrite (proj2 (Z.leb_gt _ _)) by lia. apply copy_sets_all; [done|lia].
Qed.

(** ** Every operation keeps the bounds *)

Lemma forall_union {A} (P : Z -> A -> Prop) (m1 m2 : gmap Z A) : map_Forall P m1 -> map_Forall P m2 -> map_Forall P (m1 ∪ m2).
Proof. intros H1 H2 k a [Hk|[_ Hk]]%lookup_union_Some_raw; [by apply H1|by apply H2]. Qed.
Lemma forall_fmap {A} (P : Z -> A -> Prop) (f : A -> A) (m : gmap Z A) :
  (forall k a, P k a -> P k (f a)) -> map_Forall P m -> map_Forall P (f <$> m).
Proof. intros Hf Hm k s (t & <- & Hk)%lookup_fmap_Some. apply Hf. exact (Hm k t Hk). Qed.

Lemma ok_copy now source ctx : ctx_ok source -> ctx_ok ctx -> ctx_ok (CopyParameterSetsFrom now (Some source) ctx).1.
Proof.
  intros Hs Hc. pose proof (CopyParameterSetsFrom_all now source ctx Hs Hc) as Hx.
  destruct (CopyParameterSetsFrom now (Some source) ctx) as [ctx' n]. cbn [fst]. destruct Hs as [S1 S2 S3 S4 S5 _], Hc as [C1 C2 C3 C4 C5 C6].
  destruct Hx as (E1 & E2 & E3 & E4 & E5 & E6 & _ & _).
  split; [rewrite E1|rewrite E2|rewrite E3|rewrite E4|rewrite E5|by rewrite E6]; try case_match; try done;
    (apply forall_union; [by apply forall_fmap|done]).
Qed.
Lemma ok_oldest now count ctx : ctx_ok ctx -> ctx_ok (ClearOldest now count ctx).1.
Proof.
  intros Hok. unfold ClearOldest. destruct (Z.leb_spec count 0) as [|Hc]; [done|]. pose proof (clearOldestUnsafe_spec count ctx Hc) as Hx.
  destruct (clearOldestUnsafe count ctx) as [ctx' n]. destruct Hx as (_ & (H1 & H2 & H3 & H4 & H5) & Hv & _). cbn [fst].
  revert Hok. by apply ok_submaps.
Qed.
End clearing.

Section kept.
Context (sha256 : list Z -> list Z).

Lemma ok_sps_stored now sps ctx : sps_ok (ID sps) sps -> ctx_ok ctx -> ctx_ok (store_sps sha256 now sps ctx).
Proof.
  intros Hsps Hok. unfold store_sps. cbv zeta.
  set (c1 := ctx <| spsMap := _ |> <| lastUpdated := _ |> <| lastParameterSetUpdate := _ |> <| totalSets := _ |>).
  assert (ctx_ok c1) as H1 by (destruct Hok as [H1 H2 H3 H4 H5 H6]; split; try done; apply map_Forall_insert_2; done).
  set (c2 := if session_changed _ _ then c1 <| sessionManager := _ |> else c1).
  assert (ctx_ok c2) as H2 by (subst c2; case_match; [revert H1; by apply ok_same|done]).
  pose proof (ok_cleanup now c2 H2) as H3.
  destruct (versionManager (checkAndPerformCleanup now c2)) as [vm|] eqn:Evm; [|done]. case_match; [|done].
  pose proof (ok_versions _ H3 vm Evm) as Hvm.
  pose proof (versions_snapshot sha256 now (ParamVersions.mkSnapshot (spsMap c2) (ppsMap c2) (totalFramesProcessed c2)) vm
    (ok_sps _ H2) (ok_pps _ H2) Hvm) as Hn.
  revert Hn. generalize (ParamVersions.CreateVersionFromSnapshot sha256 now
    (ParamVersions.mkSnapshot (spsMap c2) (ppsMap c2) (totalFramesProcessed c2)) vm).1. intros vm2 Hn.
  destruct H3 as [K1 K2 K3 K4 K5 K6]. split; [exact K1|exact K2|exact K3|exact K4|exact K5|]. by intros vm' [= <-].
Qed.
Lemma ok_pps_stored now pps ctx :
  pps_ok (ID (pps_set pps)) pps -> ctx_ok ctx -> ctx_ok (store_pps now pps ctx).
Proof.
  intros (Hset & Href & Hbytes & Hdata) Hok. unfold store_pps. cbv zeta. apply ok_cleanup. destruct Hok as [H1 H2 H3 H4 H5 H6].
  assert (pps_set (remap_reference ctx pps) = pps_set pps /\ 0 <= ReferencedSPSID (remap_reference ctx pps) <= 31) as [Es Hr].
  { unfold remap_reference. case_match; [done|]. destruct (keys (spsMap ctx)) as [|k [|? ?]] eqn:Ek; [done| |done].
    case_match; [|done]. split; [done|]. cbn. assert (k ∈ keys (spsMap ctx)) as Hk by (rewrite Ek; by left).
    unfold keys in Hk. apply list_elem_of_fmap in Hk as ([k' s] & -> & Hk). apply elem_of_map_to_list in Hk. by destruct (H1 _ _ Hk) as [[? _] _]. }
  split; try done. cbn. apply map_Forall_insert_2; [|done]. rewrite Es. unfold pps_ok. by rewrite Es.
Qed.
End kept.

(** *** HEVC ids *)

Lemma rbsp_bytes payload : bytes payload -> bytes (rbsp_or_nil payload).
Proof.
  intros Hb. unfold rbsp_or_nil, Rbsp.RemoveEmulationPreventionBytes. case_bool; [constructor|]. by apply ParamSets.remove_loop_bytes.
Qed.
Lemma rbsp_wf payload : bytes payload -> BitReader.wf (TypesBits.NewBitReader (rbsp_or_nil payload)).
Proof. intros Hb. by apply BitSyntax.wf_new, rbsp_bytes. Qed.
Lemma skip_returns n br : BitReader.wf br -> returns (skip_bits n br) BitReader.wf.
Proof.
  intros Hwf. unfold skip_bits. destruct (ParamSets.tsafe_bits n br Hwf) as (br' & r & E & Hwf' & _).
  rewrite E, bind_Ret. by apply returns_Ret.
Qed.
Lemma ue_returns br : BitReader.wf br -> returns (TypesBits.ReadUE br) (fun out => forall v, out.2 = Val v -> 0 <= v).
Proof.
  intros Hwf. rewrite TypesBits.ReadUE_agree by done. destruct (BitReader.ReadUE_sound br Hwf) as (br' & r & -> & _ & _ & Hv).
  apply returns_Ret. cbn [snd]. intros v ->. by destruct (Hv v eq_refl) as [[? _] _].
Qed.
Lemma hevc_sps_id_returns payload : bytes payload -> returns (hevc_sps_id payload) (fun id => 0 <= id <= 15).
Proof.
  intros Hb. unfold hevc_sps_id.
  eapply returns_bind; [apply skip_returns, rbsp_wf, Hb|]. intros br Hwf.
  destruct (ParamSets.tsafe_bits 3 br Hwf) as (br1 & r & E & Hwf1 & _). rewrite E, bind_Ret. destruct r as [n|e]; [|by apply returns_Ret].
  eapply returns_bind; [by apply skip_returns|]. intros br2 Hwf2. eapply returns_bind; [by apply skip_returns|]. intros br3 Hwf3.
  eapply (returns_bind _ _ BitReader.wf).
  { case_bool; [|by apply returns_Ret]. eapply returns_bind; [by apply skip_returns|]. intros br4 Hwf4. case_bool; [by apply skip_returns|by apply returns_Ret]. }
  intros br4 Hwf4. eapply returns_bind; [by apply ue_returns|]. intros [br5 [id|e]] Hid; apply returns_Ret; [|done].
  specialize (Hid id eq_refl). destruct (Z.leb_spec id 15); [|done]. by rewrite ParamSets.u8_small by lia.
Qed.
Lemma hevc_pps_id_returns payload : bytes payload -> returns (hevc_pps_id payload) (fun id => 0 <= id <= 63).
Proof.
  intros Hb. unfold hevc_pps_id. eapply returns_bind; [apply ue_returns, rbsp_wf, Hb|].
  intros [br5 [id|e]] Hid; apply returns_Ret; [|done].
  specialize (Hid id eq_refl). destruct (Z.leb_spec id 63); [|done]. by rewrite ParamSets.u8_small by lia.
Qed.

Lemma nal_start_returns data : bytes data -> 4 <= len data -> returns (nal_start data) (fun n => 0 <= n <= 4).
Proof.
  intros Hb Hl. unfold nal_start. do 2 (eapply returns_bind; [apply returns_idx; [done|lia]|intros ? _; cbv beta]).
  case_bool; [|by apply returns_Ret]. eapply returns_bind; [apply returns_idx; [done|lia]|intros ? _; cbv beta].
  case_bool; [by apply returns_Ret|]. case_bool; [|by apply returns_Ret].
  eapply returns_bind; [apply returns_idx; [done|lia]|intros ? _; cbv beta]. apply returns_Ret. by case_bool.
Qed.
Lemma hevc_payload_returns {A} data ctx (k : list Z -> res (A * exn ctx_error unit)) stop (P : A * exn ctx_error unit -> Prop) :
  bytes data -> (forall e, returns (stop e) P) ->
  (forall p, codec ctx = CodecHEVC -> bytes p -> 0 < len p -> returns (k p) P) -> returns (hevc_payload data ctx k stop) P.
Proof.
  intros Hb Hs Hk. unfold hevc_payload, codec_is. case_bool_decide; cbn [negb]; [|apply Hs]. destruct (Z.ltb_spec (len data) 4); [apply Hs|].
  eapply returns_bind; [by apply nal_start_returns|]. intros n [Hn0 Hn4]. destruct (Z.leb_spec (len data) (n + 2)); [apply Hs|].
  apply Hk; [done|by apply bytes_dropZ|rewrite len_dropZ; lia].
Qed.

(** Each of the three methods returns; it stores the set of an id in range, or
    leaves the context alone. *)
Definition stored (put : Z -> ParameterSet -> ParameterSetContext -> ParameterSetContext) (n now : Z) (data : list Z)
    (ctx : ParameterSetContext) (out : ParameterSetContext * exn ctx_error unit) : Prop :=
  (out.1 = ctx /\ exists e, out.2 = Err e) \/
  (out.2 = Val tt /\ codec ctx = CodecHEVC /\ exists id, 0 <= id <= n /\ out.1 = touch now (put id (new_set id data now) ctx)).
Definition put_vps (id : Z) (s : ParameterSet) (ctx : ParameterSetContext) := ctx <| vpsMap := <[id := s]> (vpsMap ctx) |>.
Definition put_hsps (id : Z) (s : ParameterSet) (ctx : ParameterSetContext) := ctx <| hevcSpsMap := <[id := s]> (hevcSpsMap ctx) |>.
Definition put_hpps (id : Z) (s : ParameterSet) (ctx : ParameterSetContext) := ctx <| hevcPpsMap := <[id := s]> (hevcPpsMap ctx) |>.

Lemma AddVPS_returns now data ctx : bytes data -> returns (AddVPS now data ctx) (stored put_vps 15 now data ctx).
Proof.
  intros Hb. apply hevc_payload_returns; [done|intros e; apply returns_Ret; left; eauto|]. intros p Hc Hp Hl.
  eapply returns_bind; [apply returns_idx; [done|lia]|]. intros b Hbyte. cbv beta zeta. apply returns_Ret. right. split; [done|].
  split; [done|]. eexists. split; [|done]. pose proof (Z.land_ones (Z.shiftr b 4) 4 ltac:(done)) as Hm.
  change (Z.ones 4) with 15 in Hm. rewrite Hm. mlia.
Qed.
Lemma AddHEVCSPS_returns now data ctx : bytes data -> returns (AddHEVCSPS now data ctx) (stored put_hsps 15 now data ctx).
Proof.
  intros Hb. apply hevc_payload_returns; [done|intros e; apply returns_Ret; left; eauto|]. intros p Hc Hp Hl.
  eapply returns_bind; [by apply hevc_sps_id_returns|]. intros id Hid. apply returns_Ret. right. split; [done|]. split; [done|]. by exists id.
Qed.
Lemma AddHEVCPPS_returns now data ctx : bytes data -> returns (AddHEVCPPS now data ctx) (stored put_hpps 63 now data ctx).
Proof.
  intros Hb. apply hevc_payload_returns; [done|intros e; apply returns_Ret; left; eauto|]. intros p Hc Hp Hl.
  eapply returns_bind; [by apply hevc_pps_id_returns|]. intros id Hid. apply returns_Ret. right. split; [done|]. split; [done|]. by exists id.
Qed.

(** ** The contexts of a run *)

Section runs.
Context (sha256 : list Z -> list Z) `{MapOrder}.

(** A context is made, fed, copied into, cleared, rolled back ... in any order. *)
Inductive reachable : ParameterSetContext -> Prop :=
| reach_new c id config now : reachable (NewParameterSetContextWithConfig c id config now)
| reach_sps now data ctx ctx' r : reachable ctx -> bytes data -> AddSPS sha256 now data ctx = Ret (ctx', r) -> reachable ctx'
| reach_pps now data ctx ctx' r : reachable ctx -> bytes data -> AddPPS sha256 now data ctx = Ret (ctx', r) -> reachable ctx'
| reach_vps now data ctx ctx' r : reachable ctx -> bytes data -> AddVPS now data ctx = Ret (ctx', r) -> reachable ctx'
| reach_hsps now data ctx ctx' r : reachable ctx -> bytes data -> AddHEVCSPS now data ctx = Ret (ctx', r) -> reachable ctx'
| reach_hpps now data ctx ctx' r : reachable ctx -> bytes data -> AddHEVCPPS now data ctx = Ret (ctx', r) -> reachable ctx'
| reach_copy now source ctx : reachable source -> reachable ctx -> reachable (CopyParameterSetsFrom now (Some source) ctx).1
| reach_clear now ctx : reachable ctx -> reachable (Clear now ctx)
| reach_oldest now count ctx : reachable ctx -> reachable (ClearOldest now count ctx).1
| reach_frame ctx : reachable ctx -> reachable (IncrementFrameCount ctx)
| reach_version now ctx : reachable ctx -> reachable (CreateVersion sha256 now ctx).1
| reach_rollback now version ctx : reachable ctx -> reachable (RollbackToVersion sha256 now version ctx).1.

Lemma ok_new c id config now : ctx_ok (NewParameterSetContextWithConfig c id config now).
Proof. split; try apply map_Forall_empty. cbn. case_match; intros vm [= <-]. apply map_Forall_empty. Qed.
Lemma ok_refused ctx out : refused ctx out -> ctx_ok ctx -> ctx_ok out.1.
Proof. intros [Hk _]. by apply ok_validator. Qed.

Lemma AddSPS_nil now ctx ctx' r : AddSPS sha256 now [] ctx = Ret (ctx', r) -> ctx' = ctx.
Proof. unfold AddSPS. case_bool; [by intros [= <- _]|done]. Qed.
Lemma ok_AddSPS now data ctx ctx' r : bytes data -> AddSPS sha256 now data ctx = Ret (ctx', r) -> ctx_ok ctx -> ctx_ok ctx'.
Proof.
  intros Hb E Hok. destruct (decide (data = [])) as [->|Hne]; [by rewrite (AddSPS_nil _ _ _ _ E)|].
  pose proof (AddSPS_returns sha256 now data ctx Hb Hne) as Hr. rewrite E in Hr. apply returns_inv in Hr.
  destruct Hr as [Hr|(_ & _ & sps & c & Hp & Hid & HD & Hv & Hk & Hs)]; [exact (ok_refused _ _ Hr Hok)|].
  cbn [fst] in Hs. rewrite Hs. apply ok_sps_stored; [|by eapply ok_validator]. split; [done|]. rewrite HD. split; [done|].
  intros id. by apply (read_sps_twice (lastUpdated ctx)).
Qed.
Lemma ok_AddPPS now data ctx ctx' r : bytes data -> AddPPS sha256 now data ctx = Ret (ctx', r) -> ctx_ok ctx -> ctx_ok ctx'.
Proof.
  intros Hb E Hok. pose proof (AddPPS_returns sha256 now data ctx Hb) as Hr. rewrite E in Hr. apply returns_inv in Hr.
  destruct Hr as [Hr|(_ & _ & pps & c & Hp & Hid & Href & HD & Hv & (ids & Hval & Hids) & Hk & Hs)]; [exact (ok_refused _ _ Hr Hok)|].
  cbn [fst] in Hs. rewrite Hs. apply ok_pps_stored; [|by eapply ok_validator]. split; [done|]. split; [done|]. rewrite HD. split; [done|].
  exists ids.2. rewrite Hval. by destruct ids; cbn in Hids |- *; subst.
Qed.
Lemma ok_stored put n now data ctx ctx' r m :
  returns m (stored put n now data ctx) -> m = Ret (ctx', r) -> (forall id, 0 <= id <= n -> ctx_ok (put id (new_set id data now) ctx)) ->
  ctx_ok ctx -> ctx_ok ctx'.
Proof.
  intros Hr -> Hput Hok. apply returns_inv in Hr. destruct Hr as [[E _]|(_ & _ & id & Hid & E)]; cbn [fst] in E; rewrite E; [done|].
  specialize (Hput id Hid). revert Hput. by apply ok_same.
Qed.
Lemma put_sets_ok id data now ctx :
  ctx_ok ctx -> (0 <= id <= 15 -> ctx_ok (put_vps id (new_set id data now) ctx) /\ ctx_ok (put_hsps id (new_set id data now) ctx)) /\
  (0 <= id <= 63 -> ctx_ok (put_hpps id (new_set id data now) ctx)).
Proof.
  intros [H1 H2 H3 H4 H5 H6]. split; [intros Hid; split|intros Hid]; split; try done; by apply map_Forall_insert_2.
Qed.
Lemma ok_version now ctx : ctx_ok ctx -> ctx_ok (CreateVersion sha256 now ctx).1.
Proof.
  intros Hok. unfold CreateVersion. destruct (versionManager ctx) as [vm|] eqn:Ev; [|done].
  pose proof (versions_create sha256 now _ _ (totalFramesProcessed ctx) vm (ok_sps _ Hok) (ok_pps _ Hok) (ok_versions _ Hok vm Ev)) as Hv.
  destruct (ParamVersions.CreateVersion _ _ _ _ _ _) as [vm' v]. cbn [fst] in *.
  destruct Hok as [K1 K2 K3 K4 K5 K6]. split; [exact K1|exact K2|exact K3|exact K4|exact K5|]. by intros ? [= <-].
Qed.
Lemma ok_rollback now version ctx : ctx_ok ctx -> ctx_ok (RollbackToVersion sha256 now version ctx).1.
Proof.
  intros Hok. unfold RollbackToVersion. destruct (versionManager ctx) as [vm|] eqn:Ev; [|done].
  pose proof (versions_rollback sha256 now _ _ (totalFramesProcessed ctx) version vm (ok_sps _ Hok) (ok_pps _ Hok) (ok_versions _ Hok vm Ev)) as Hv.
  destruct (ParamVersions.Rollback _ _ _ _ _ _ _) as [vm' r]. destruct Hv as [Hv Hmaps].
  destruct Hok as [K1 K2 K3 K4 K5 K6]. destruct r as [[sps pps]|e].
  - destruct (Hmaps sps pps eq_refl). split; [done|done|exact K3|exact K4|exact K5|]. by intros ? [= <-].
  - split; [exact K1|exact K2|exact K3|exact K4|exact K5|]. by intros ? [= <-].
Qed.

Lemma reachable_ok ctx : reachable ctx -> ctx_ok ctx.
Proof.
  induction 1 as [c id config now|now data ctx ctx' r _ IH Hb E|now data ctx ctx' r _ IH Hb E|now data ctx ctx' r _ IH Hb E
    |now data ctx ctx' r _ IH Hb E|now data ctx ctx' r _ IH Hb E|now source ctx _ IH1 _ IH2|now ctx _ IH|now count ctx _ IH|ctx _ IH
    |now ctx _ IH|now version ctx _ IH].
  - apply ok_new.
  - by eapply ok_AddSPS.
  - by eapply ok_AddPPS.
  - eapply ok_stored; [by apply AddVPS_returns|done| |done]. intros id Hid. by apply put_sets_ok.
  - eapply ok_stored; [by apply AddHEVCSPS_returns|done| |done]. intros id Hid. by apply put_sets_ok.
  - eapply ok_stored; [by apply AddHEVCPPS_returns|done| |done]. intros id Hid. by apply put_sets_ok.
  - by apply ok_copy.
  - destruct IH as [_ _ _ _ _ K6]. split; try apply map_Forall_empty. exact K6.
  - by apply ok_oldest.
  - revert IH. by apply ok_same.
  - by apply ok_version.
  - by apply ok_rollback.
Qed.

(** C17: whatever is done to contexts - sets added in any order from any bytes,
    copies, clears, versions and rollbacks - a context never holds more than
    384 sets, so the limit of 1000 sets and the emergency clean-up behind it
    are never met: copying into it copies every set of the source under its own
    id, over the set that was there, keeps all others, and returns exactly
    their number.  The map's order does not matter. *)
Theorem copies_are_complete (now : Z) (source ctx : ParameterSetContext) :
  reachable source -> reachable ctx ->
  count_sets ctx <= 384 /\
  let '(ctx', n) := CopyParameterSetsFrom now (Some source) ctx in copy_exact source ctx ctx' n.
Proof.
  intros Hs%reachable_ok Hc%reachable_ok. split; [by apply few_sets|by apply CopyParameterSetsFrom_all].
Qed.
End runs.

(** clearing the oldest sets of any context removes as many as asked for -
    or all - and none that is younger than one it keeps; what it keeps it leaves
    unchanged. *)
Theorem oldest_are_cleared `{MapOrder} (now count : Z) (ctx : ParameterSetContext) :
  0 < count ->
  let '(ctx', n) := ClearOldest now count ctx in
  n = Z.min count (count_sets ctx) /\ totalSets ctx' = totalSets ctx - n /\ submaps ctx' ctx /\
  exists gone, len gone = n /\ all_aged ctx ≡ₚ gone ++ all_aged ctx' /\
    forall g k, g ∈ gone -> k ∈ all_aged ctx' -> a_age g <= a_age k.
Proof.
  intros Hc. pose proof (clearOldestUnsafe_spec count ctx Hc) as Hx. unfold ClearOldest. rewrite (proj2 (Z.leb_gt _ _)) by lia.
  destruct (clearOldestUnsafe count ctx) as [ctx' n]. destruct Hx as (Hn & Hsub & _ & Ht & gone & Hg).
  split; [done|]. split; [cbn; by rewrite Ht|]. split; [exact Hsub|]. by exists gone.
Qed.

(** A context with a set of each kind. *)
Definition sample_ctx : ParameterSetContext :=
  let sps := mkSet 0 [0x67; 66; 0; 30] 5 4 true EmptyString (Some 66) (Some 0) (Some 30) (Some 0) (Some 640) (Some 480) in
  (NewParameterSetContext CodecH264 "cam" 0) <| spsMap := {[ 0 := sps ]} |> <| ppsMap := {[ 3 := mkPPS (new_set 3 [0x68; 0xCE] 2) 0 ]} |>.
Lemma oldest_are_cleared_witness :
  let '(ctx', n) := ClearOldest 9 1 sample_ctx in
  n = Z.min 1 (count_sets sample_ctx) /\ totalSets ctx' = totalSets sample_ctx - n /\ submaps ctx' sample_ctx /\
  exists gone, len gone = n /\ all_aged sample_ctx ≡ₚ gone ++ all_aged ctx' /\
    forall g k, g ∈ gone -> k ∈ all_aged ctx' -> a_age g <= a_age k.
Proof. apply (oldest_are_cleared 9 1 sample_ctx). lia. Defined.
Example picture_set_goes : (ClearOldest 9 1 sample_ctx).1 <| totalSets := 0 |> = sample_ctx <| ppsMap := ∅ |> <| lastCleanup := 9 |>.
Proof. by vm_compute. Qed.

(** A context fed with a sequence parameter set of 1920x1080 and a picture
    parameter set. *)
Definition no_digest (l : list Z) : list Z := [].
Definition after (r : outcome) (c : ParameterSetContext) : ParameterSetContext := match r with Ret (c, _) => c | _ => c end.
Definition hd_sps : list Z := [0x67] ++ Rbsp.add_loop 0 SpsH264.hd1080_bytes.
Definition hd_pps : list Z := [0x68; 0xCE; 0x3C; 0x80].
Definition fed : ParameterSetContext :=
  let c := NewParameterSetContext CodecH264 "cam" 0 in
  let c := after (AddSPS no_digest 5 hd_sps c) c in
  after (AddPPS no_digest 6 hd_pps c) c.
Lemma fed_reachable : reachable no_digest fed.
Proof.
  unfold fed. cbv zeta. set (c := NewParameterSetContext CodecH264 "cam" 0).
  assert (reachable no_digest (after (AddSPS no_digest 5 hd_sps c) c)) as H1.
  { destruct (AddSPS no_digest 5 hd_sps c) as [[c' r]| |] eqn:E; try apply reach_new. cbn [after].
    eapply (reach_sps _ 5 hd_sps c); [apply reach_new|unfold is_byte; decide_goal|exact E]. }
  revert H1. generalize (after (AddSPS no_digest 5 hd_sps c) c). intros c1 H1.
  destruct (AddPPS no_digest 6 hd_pps c1) as [[c' r]| |] eqn:E; cbn [after]; try done.
  eapply (reach_pps _ 6 hd_pps c1); [exact H1|unfold is_byte; decide_goal|exact E].
Qed.

Lemma copies_are_complete_witness :
  let new := NewParameterSetContext CodecH264 "cam" 0 in
  count_sets new <= 384 /\ let '(ctx', n) := CopyParameterSetsFrom 9 (Some fed) new in n = 2 /\ copy_exact fed new ctx' n.
Proof.
  intros new. pose proof (copies_are_complete no_digest 9 fed new fed_reachable ltac:(apply reach_new)) as [Hl Hx]. split; [exact Hl|].
  pose proof (eq_refl : (CopyParameterSetsFrom 9 (Some fed) new).2 = 2) as Hn.
  destruct (CopyParameterSetsFrom 9 (Some fed) new) as [ctx' n]. split; [exact Hn|exact Hx].
Defined.

(** *** What the code does besides *)

(** An empty sequence parameter set panics, in a check whose result is only logged. *)
Example empty_sps_panics : AddSPS no_digest 5 [] (NewParameterSetContext CodecH264 "cam" 0) = Panic.
Proof. reflexivity. Qed.

(** The age of a set is the time of the update before it. *)
Example age_is_stale : ParsedAt <$> (spsMap fed !! 0) = Some 0 /\ pps_ParsedAt <$> (ppsMap fed !! 0) = Some 5.
Proof. split; by vm_compute. Qed.

(** The 96 bits of the profile are not skipped, the id is read from them: with
    the high tier it is 3, with the main tier the 0 of a value out of range,
    whatever the id in the set is. *)
Definition hevc_profile (tier : Z) : list Z := [0x01; tier; 0x60; 0xFF; 0xFF; 0xFF; 0x90; 0xFF; 0xFF; 0xFF; 0xFF; 0xFF; 0x78].
Example hevc_id_from_profile :
  hevc_sps_id (hevc_profile 0x21 ++ [0x80]) = Ret 3 /\ hevc_sps_id (hevc_profile 0x21 ++ [0x40]) = Ret 3 /\
  hevc_sps_id (hevc_profile 0x01 ++ [0x40]) = Ret 0.
Proof. repeat split; by vm_compute. Qed.

(** A set that is sent again is counted again. *)
Example repeated_sets_count : totalSets (after (AddSPS no_digest 7 hd_sps fed) fed) = 3 /\ count_sets (after (AddSPS no_digest 7 hd_sps fed) fed) = 2.
Proof. split; by vm_compute. Qed.
