(* ===== verification/ParamStream.v ===== *)
(** * Streams for one frame (types/parameter_context.go, from GetDecodingRequirements on)

    The byte stream of a frame with the parameter sets it needs, in front of its
    NAL units: the exact one, and the best-effort one with its fallbacks and the
    rewriting of ids. *)

From stdpp Require Import strings.
From S2P Require Import Prelude Returns.
From S2P Require Codec Rbsp BitReader BitSyntax TypesBits Frame AnnexB SpsH264 Validation ParamSets ParamSession ParamContext.
Import BitReader(data, wf, remaining, bits_of).
Import TypesBits(NewBitReader, GetBitPosition, SeekToBit, HasMoreBits, ReadUE, ReadBits, ReadBit, WriteBit, WriteUE, NewBitWriter, GetBytes, BitWriter).
Import ParamSets(nal_type, ParameterSet, ID, Data, ParsedAt, Size, Valid, PPSContext, pps_set, ReferencedSPSID, ps_error, FrameDecodingRequirements,
  RequiredPPSID, CleanNALUnitData, parseSliceHeader, ValidateSPSData, ValidatePPSData).
Import ParamSession(MapOrder, range, range_perm).
Import ParamContext(ParameterSetContext, spsMap, ppsMap, pps_Valid, pps_ParsedAt).
Import Frame(NALUnit, mkNAL, nal_Type, nal_Data).
#[local] Existing Instance ParamSession.default_order.

Inductive stream_error : Type :=
| NoNALUnits
| NoSlice
| SliceError (e : ps_error)
| MissingPPS (id : Z)
| MissingSPS (id : Z)
| InvalidPPSSet
| InvalidSPSSet
| SPSValidation (e : ps_error)
| SPSMismatch (stored actual : Z)
| PPSValidation (e : ps_error)
| PPSMismatch (stored actual : Z)
| ReferenceMismatch (stored actual : Z)
| NoSets.

Abbreviation out A := (res (exn stream_error A)).

(** The unit's type, from its first byte if it is not set. *)
Definition kind (n : NALUnit) : Z :=
  match nal_Data n with b :: _ => if nal_Type n =? 0 then nal_type b else nal_Type n | [] => nal_Type n end.
Definition is_slice (t : Z) : bool := (1 <=? t) && (t <=? 5).

(** The first slice decides. *)
Fixpoint first_slice (ctx : ParameterSetContext) (nals : list NALUnit) : out FrameDecodingRequirements :=
  match nals with
  | [] => Ret (Err NoSlice)
  | n :: nals =>
      if is_slice (kind n) then
        r ← parseSliceHeader (spsMap ctx) (ppsMap ctx) (nal_Data n) (kind n =? 5);
        Ret (match r with Val req => Val req | Err e => Err (SliceError e) end)
      else first_slice ctx nals
  end.
Definition GetDecodingRequirements (ctx : ParameterSetContext) (nals : list NALUnit) : out FrameDecodingRequirements :=
  match nals with [] => Ret (Err NoNALUnits) | _ => first_slice ctx nals end.

(** [stream = append(stream, startCode..., unit...)] *)
Definition emit (u : list Z) : list Z := [0; 0; 0; 1] ++ u.

(** The units of a frame as they are written; one without data gets a header. *)
Definition frame_unit (n : NALUnit) : option (list Z) :=
  let t := kind n in
  if (t =? 0) || ((len (nal_Data n) =? 0) && ((t <? 1) || (31 <? t))) then None
  else match nal_Data n with
       | _ :: _ => Some (CleanNALUnitData (nal_Data n))
       | [] => Some [Z.lor (u8 t) 0x60]
       end.
(** The units that have data, by the type in the data. *)
Definition data_unit (n : NALUnit) : option (list Z) :=
  match nal_Data n with b :: _ => if nal_type b =? 0 then None else Some (CleanNALUnitData (nal_Data n)) | [] => None end.
Definition write_units (l : list (list Z)) : list Z := flat_map emit l.

Section streams.
Context `{MapOrder}.

Definition canDecodeFrameWithRequirements (ctx : ParameterSetContext) (req : FrameDecodingRequirements) : exn stream_error unit :=
  match ppsMap ctx !! RequiredPPSID req with
  | None => Err (MissingPPS (RequiredPPSID req))
  | Some pps =>
      let sps := match spsMap ctx !! ReferencedSPSID pps with
                 | Some sps => Some sps
                 | None => match (range (spsMap ctx)).*1 with id :: _ => spsMap ctx !! id | [] => None end
                 end in
      match sps with
      | None => Err (MissingSPS (ReferencedSPSID pps))
      | Some sps => if negb (pps_Valid pps) then Err InvalidPPSSet else if negb (Valid sps) then Err InvalidSPSSet else Val tt
      end
  end.
Definition CanDecodeFrame (ctx : ParameterSetContext) (nals : list NALUnit) : res bool :=
  r ← GetDecodingRequirements ctx nals;
  Ret (match r with
       | Err _ => false
       | Val req => match canDecodeFrameWithRequirements ctx req with Val _ => true | Err _ => false end
       end).

(** [sps] is read from the map again, so a set found by the fallback only is
    missing here: its nil pointer is dereferenced. *)
Definition GenerateDecodableStream (ctx : ParameterSetContext) (nals : list NALUnit) : out (list Z) :=
  r ← GetDecodingRequirements ctx nals;
  match r with
  | Err e => Ret (Err e)
  | Val req =>
      match canDecodeFrameWithRequirements ctx req with
      | Err e => Ret (Err e)
      | Val _ =>
          match ppsMap ctx !! RequiredPPSID req with
          | None => Panic
          | Some pps =>
              match spsMap ctx !! ReferencedSPSID pps with
              | None => Panic
              | Some sps =>
                  r ← ValidateSPSData (Data sps);
                  match r with
                  | Err e => Ret (Err (SPSValidation e))
                  | Val spsID =>
                      if negb (spsID =? ID sps) then Ret (Err (SPSMismatch (ID sps) spsID))
                      else
                        r ← ValidatePPSData (Data (pps_set pps));
                        Ret (match r with
                             | Err e => Err (PPSValidation e)
                             | Val (ppsID, spsRef) =>
                                 if negb (ppsID =? ID (pps_set pps)) then Err (PPSMismatch (ID (pps_set pps)) ppsID)
                                 else if negb (spsRef =? ReferencedSPSID pps) then Err (ReferenceMismatch (ReferencedSPSID pps) spsRef)
                                 else Val (emit (CleanNALUnitData (Data sps)) ++ emit (CleanNALUnitData (Data (pps_set pps))) ++
                                           write_units (omap frame_unit nals))
                             end)
                  end
              end
          end
      end
  end.

(** ** Rewriting ids *)

(** Bits read from one place and written to another: [n] of them, or all that
    are left. [Val] is false after a read error. *)
Fixpoint copy_bits (n : nat) (br : BitReader.BitReader) (bw : BitWriter) : res (BitReader.BitReader * BitWriter * bool) :=
  match n with
  | O => Ret (br, bw, true)
  | S n =>
      '(br, r) ← ReadBit br;
      match r with
      | Err _ => Ret (br, bw, false)
      | Val bit => bw ← WriteBit bit bw; copy_bits n br bw
      end
  end.
Fixpoint copy_rest (fuel : nat) (br : BitReader.BitReader) (bw : BitWriter) : res BitWriter :=
  match fuel with
  | O => NoFuel
  | S fuel =>
      if HasMoreBits br then
        '(br, r) ← ReadBit br;
        match r with
        | Err _ => Ret bw
        | Val bit => bw ← WriteBit bit bw; copy_rest fuel br bw
        end
      else Ret bw
  end.

(** The payload with the bits between two positions replaced by what [write]
    writes; [None] after a read error. *)
Definition splice (payload : list Z) (startBit endBit : Z) (write : BitWriter -> res BitWriter) : res (option (list Z)) :=
  '(br, bw, ok) ← copy_bits (Z.to_nat startBit) (NewBitReader payload) NewBitWriter;
  if negb ok then Ret None
  else
    bw ← write bw;
    bw ← copy_rest (S (8 * length payload)) (SeekToBit endBit br) bw;
    '(_, newPayload) ← GetBytes bw;
    Ret (Some newPayload).

(** The header and the escaped payload, or the fallback. *)
Definition rebuild (header : Z) (fallback : list Z) (newPayload : option (list Z)) : list Z :=
  match newPayload with Some p => header :: Rbsp.AddEmulationPreventionBytes p | None => fallback end.

Definition createRemappedSPS (originalSPS : option ParameterSet) (newID : Z) : res (option (list Z)) :=
  match originalSPS with
  | None => Ret None
  | Some sps =>
      match Data sps with
      | header :: payload =>
          if (len (Data sps) <? 5) || negb (nal_type header =? 7) || (len payload <? 4) then Ret None
          else
            '(br, r) ← (_ ← ReadBits 8; _ ← ReadBits 8; ReadBits 8) (NewBitReader payload);
            match r with
            | Err _ => Ret (Some (Data sps))
            | Val _ =>
                let startBitPos := GetBitPosition br in
                '(br, r) ← ReadUE br;
                if match r with Err _ => true | Val originalID => 31 <? originalID end then Ret (Some (Data sps))
                else
                  p ← splice payload startBitPos (GetBitPosition br) (WriteUE newID);
                  Ret (Some (rebuild header (Data sps) p))
            end
      | [] => Ret None
      end
  end.

Definition createRemappedPPS (originalPPS : option PPSContext) (newID referencedSPSID : Z) : res (option (list Z)) :=
  match originalPPS with
  | None => Ret None
  | Some pps =>
      let data := Data (pps_set pps) in
      match data with
      | header :: payload =>
          if (len data <? 3) || negb (nal_type header =? 8) || (len payload <? 2) then Ret None
          else
            '(br, r) ← ReadUE (NewBitReader payload);
            if match r with Err _ => true | Val originalPPSID => 255 <? originalPPSID end then Ret (Some data)
            else
              '(br, r) ← ReadUE br;
              if match r with Err _ => true | Val originalSPSID => 31 <? originalSPSID end then Ret (Some data)
              else
                p ← splice payload 0 (GetBitPosition br) (fun bw => bw ← WriteUE newID bw; WriteUE referencedSPSID bw);
                Ret (Some (rebuild header data p))
      | [] => Ret None
      end
  end.

Definition remapSliceHeaderPPSID (originalSlice : list Z) (newPPSID : Z) : res (list Z) :=
  match originalSlice with
  | header :: payload =>
      if (len originalSlice <? 3) || negb (is_slice (nal_type header)) || (len payload <? 2) then Ret originalSlice
      else
        '(br, r) ← (_ ← ReadUE; ReadUE) (NewBitReader payload);
        match r with
        | Err _ => Ret originalSlice
        | Val _ =>
            let ppsIDStartBit := GetBitPosition br in
            '(br, r) ← ReadUE br;
            if match r with Err _ => true | Val originalPPSID => 255 <? originalPPSID end then Ret originalSlice
            else
              p ← splice payload ppsIDStartBit (GetBitPosition br) (WriteUE newPPSID);
              Ret (rebuild header originalSlice p)
        end
  | [] => Ret originalSlice
  end.

(** ** Best effort *)

(** The newest of the entries that pass a check; among equals the first. *)
Fixpoint newest {A} (ok : A -> res bool) (parsedAt : A -> Z) (l : list (Z * A)) (best : option A) : res (option A) :=
  match l with
  | [] => Ret best
  | (_, a) :: l =>
      good ← ok a;
      let better := match best with None => true | Some b => parsedAt b <? parsedAt a end in
      newest ok parsedAt l (if good && better then Some a else best)
  end.

Definition is_val {A} (r : exn ps_error A) : bool := match r with Val _ => true | Err _ => false end.

(** The ids that valid picture sets reference. *)
Definition spsWithPPS (ctx : ParameterSetContext) : list Z :=
  omap (fun e => if pps_Valid e.2 then Some (ReferencedSPSID e.2) else None) (range (ppsMap ctx)).
Definition bestSPS_of (ctx : ParameterSetContext) : res (option ParameterSet) :=
  newest (fun sps => if Valid sps && existsb (Z.eqb (ID sps)) (spsWithPPS ctx)
                     then r ← ValidateSPSData (Data sps); Ret (is_val r) else Ret false) ParsedAt (range (spsMap ctx)) None.
Definition bestPPS_for (ctx : ParameterSetContext) (sps : ParameterSet) : res (option PPSContext) :=
  newest (fun pps => if pps_Valid pps && (ReferencedSPSID pps =? ID sps)
                     then r ← ValidatePPSData (Data (pps_set pps)); Ret (is_val r) else Ret false) pps_ParsedAt (range (ppsMap ctx)) None.

(** A picture set and the valid sequence set it references. *)
Definition pair_of (ctx : ParameterSetContext) (pps : PPSContext) : option ParameterSet :=
  match spsMap ctx !! ReferencedSPSID pps with Some s => if Valid s then Some s else None | None => None end.
Definition has_sps (ctx : ParameterSetContext) (pps : PPSContext) : bool :=
  match pair_of ctx pps with Some _ => true | None => false end.
Definition best_pair (ctx : ParameterSetContext) : res (option ParameterSet * option PPSContext) :=
  bestSPS ← bestSPS_of ctx;
  bestPPS ← (match bestSPS with Some sps => bestPPS_for ctx sps | None => Ret None end);
  match bestPPS with
  | Some _ => Ret (bestSPS, bestPPS)
  | None =>
      pair ← newest (fun pps => Ret (pps_Valid pps && has_sps ctx pps)) pps_ParsedAt (range (ppsMap ctx)) None;
      match pair with
      | Some pps => Ret (pair_of ctx pps, Some pps)
      | None =>
          pps ← newest (fun pps => Ret (pps_Valid pps)) pps_ParsedAt (range (ppsMap ctx)) None;
          Ret (bestSPS, pps)
      end
  end.

Definition findCompatibleParameterSetsWithRequirements (ctx : ParameterSetContext) (req : FrameDecodingRequirements)
    : option (ParameterSet * PPSContext) :=
  match ppsMap ctx !! RequiredPPSID req with
  | Some pps =>
      if negb (pps_Valid pps) then None
      else match spsMap ctx !! ReferencedSPSID pps with
           | Some sps => if Valid sps then Some (sps, pps) else None
           | None => None
           end
  | None => None
  end.
Definition findCompatibleParameterSets (ctx : ParameterSetContext) (nals : list NALUnit) : res (option (ParameterSet * PPSContext)) :=
  r ← GetDecodingRequirements ctx nals;
  Ret (match r with Err _ => None | Val req => findCompatibleParameterSetsWithRequirements ctx req end).

Definition all_valid (ctx : ParameterSetContext) : list (list Z) :=
  ((fun e => CleanNALUnitData (Data e.2)) <$> filter (fun e => Valid e.2 = true) (range (spsMap ctx))) ++
  ((fun e => CleanNALUnitData (Data (pps_set e.2))) <$> filter (fun e => pps_Valid e.2 = true) (range (ppsMap ctx))).

(** The frame's units with the slices' picture set rewritten to 0. *)
Fixpoint remapped_units (nals : list NALUnit) : res (list (list Z)) :=
  match nals with
  | [] => Ret []
  | n :: nals =>
      if (len (nal_Data n) =? 0) || (kind n =? 0) then remapped_units nals
      else
        u ← (if is_slice (kind n) then remapSliceHeaderPPSID (nal_Data n) 0 else Ret (nal_Data n));
        l ← remapped_units nals;
        Ret (CleanNALUnitData u :: l)
  end.

(** A rewritten set is used only if the validator finds the new ids in it. *)
Definition checked_sps (o : option (list Z)) : res (option (list Z)) :=
  match o with
  | None => Ret None
  | Some d => r ← ValidateSPSData d; Ret (match r with Val spsID => if spsID =? 0 then Some d else None | Err _ => None end)
  end.
Definition checked_pps (o : option (list Z)) : res (option (list Z)) :=
  match o with
  | None => Ret None
  | Some d => r ← ValidatePPSData d;
              Ret (match r with Val (ppsID, spsRef) => if (ppsID =? 0) && (spsRef =? 0) then Some d else None | Err _ => None end)
  end.

Definition GenerateBestEffortStream (ctx : ParameterSetContext) (nals : list NALUnit) : out (list Z) :=
  match nals with
  | [] => Ret (Err NoNALUnits)
  | _ =>
      '(bestSPS, bestPPS) ← best_pair ctx;
      match bestSPS, bestPPS with
      | Some sps, Some pps =>
          r ← GetDecodingRequirements ctx nals;
          match r with
          | Err _ => Ret (Val (write_units (all_valid ctx ++ omap data_unit nals)))
          | Val req =>
              match findCompatibleParameterSetsWithRequirements ctx req with
              | Some (cs, cp) =>
                  Ret (Val (write_units (CleanNALUnitData (Data cs) :: CleanNALUnitData (Data (pps_set cp)) :: omap data_unit nals)))
              | None =>
                  remappedSPS ← createRemappedSPS bestSPS 0;
                  remappedPPS ← createRemappedPPS bestPPS 0 0;
                  remappedSPS ← checked_sps remappedSPS;
                  remappedPPS ← checked_pps remappedPPS;
                  match remappedSPS, remappedPPS with
                  | Some s, Some p => l ← remapped_units nals; Ret (Val (write_units (s :: p :: l)))
                  | _, _ =>
                      Ret (Val (write_units (CleanNALUnitData (Data sps) :: CleanNALUnitData (Data (pps_set pps)) :: omap data_unit nals)))
                  end
              end
          end
      | _, _ => Ret (Err NoSets)
      end
  end.
End streams.

(** ** What the frame needs *)

Lemma parse_slice_returns spsMap ppsMap d isIDR :
  bytes d -> returns (parseSliceHeader spsMap ppsMap d isIDR) (fun r => forall req, r = Val req ->
    exists pps, ppsMap !! RequiredPPSID req = Some pps).
Proof.
  intros Hd. unfold parseSliceHeader. destruct (Z.ltb_spec (len d) 2); [by apply returns_Ret|].
  eapply returns_bind; [apply returns_idx; [done|lia]|]. intros b _. cbv beta zeta.
  apply ParamSets.with_rbsp_returns; [done|done|]. intros c Hc.
  destruct (ParamSets.safe_slice_ids (NewBitReader c) (BitSyntax.wf_new c Hc)) as (br & r & E & Hwf & _). rewrite E, bind_Ret.
  destruct r as [[t p]|e]; [|by apply returns_Ret]. destruct (ppsMap !! u8 p) as [pps|] eqn:Ep; [|by apply returns_Ret].
  cbv zeta. destruct (spsMap !! ReferencedSPSID pps ≫= ParamSets.Log2MaxFrameNumMinus4) as [l|]; [|apply returns_Ret; intros req [= <-]; eauto].
  destruct (ParamSets.tsafe_bits (l + 4) br Hwf) as (br' & r & -> & _). rewrite bind_Ret. apply returns_Ret.
  intros req [= <-]. exists pps. by destruct r.
Qed.

Abbreviation nals_bytes := (Forall (fun n => bytes (nal_Data n))).

(** The requirements are those of a slice of the frame. *)
Definition needs (ctx : ParameterSetContext) (nals : list NALUnit) (req : FrameDecodingRequirements) (pps : PPSContext) : Prop :=
  ppsMap ctx !! RequiredPPSID req = Some pps /\
  exists n, n ∈ nals /\ is_slice (kind n) = true /\ parseSliceHeader (spsMap ctx) (ppsMap ctx) (nal_Data n) (kind n =? 5) = Ret (Val req).
Definition not_mismatch (e : stream_error) : Prop := match e with SPSMismatch _ _ | PPSMismatch _ _ => False | _ => True end.
Lemma requirements_returns ctx nals :
  nals_bytes nals -> returns (GetDecodingRequirements ctx nals) (fun r =>
    match r with Val req => exists pps, needs ctx nals req pps | Err e => not_mismatch e end).
Proof.
  intros Hn. unfold GetDecodingRequirements.
  assert (returns (first_slice ctx nals) (fun r =>
    match r with Val req => exists pps, needs ctx nals req pps | Err e => not_mismatch e end)) as Hf;
    [|by destruct nals; [apply returns_Ret|]].
  induction Hn as [|n nals Hd Hn IH]; cbn [first_slice]; [by apply returns_Ret|]. destruct (is_slice (kind n)) eqn:Hk.
  - destruct (parse_slice_returns (spsMap ctx) (ppsMap ctx) (nal_Data n) (kind n =? 5) Hd) as (r & E & Hr). rewrite E, bind_Ret.
    apply returns_Ret. destruct r as [req|e]; [|done]. destruct (Hr req eq_refl) as [pps Hp]. exists pps.
    split; [done|]. exists n. split; [by left|done].
  - eapply returns_weaken; [exact IH|]. intros [req|e]; [|done]. intros (pps & Hp & m & Hm & Hk' & Hs). exists pps.
    split; [done|]. exists m. split; [by right|done].
Qed.

(** ** The stream *)

Lemma write_units_annexb l : write_units l = AnnexB.annexb ((fun u => (true, u)) <$> l).
Proof. unfold write_units, AnnexB.annexb. induction l as [|u l IH]; [done|]. cbn. by rewrite IH. Qed.

(** What the detector's scanner finds in a stream. *)
Definition splits_into (stream : list Z) (units : list (list Z)) : Prop :=
  Forall (fun u => AnnexB.unit_ok u /\ len u <= Validation.MaxNALUnitSize) units -> len units < Validation.MaxNALUnitsPerFrame ->
  AnnexB.H264_findNALUnits stream = Ret (Val units).
Lemma write_units_split l : l <> [] -> splits_into (write_units l) l.
Proof.
  intros Hne Hs Hl. rewrite write_units_annexb. set (el := (fun u => (true, u)) <$> l).
  assert (snd <$> el = l) as Hsnd by (subst el; rewrite <- list_fmap_compose; by rewrite list_fmap_id).
  assert (el <> []) as Hel by (subst el; by destruct l).
  assert (len el < Validation.MaxNALUnitsPerFrame) as Hlen by (subst el; unfold len in *; by rewrite length_fmap).
  assert (Forall AnnexB.sized el) as Hsized.
  { subst el. apply Forall_fmap. eapply Forall_impl; [exact Hs|]. by intros u Hu. }
  assert (Forall (fun e => AnnexB.unit_ok e.2) el) as Hok by (eapply Forall_impl; [exact Hsized|]; by intros e []).
  pose proof (AnnexB.annexb_length el Hok) as Hlong. assert (1 <= len el) as H1 by (destruct el; [done|rewrite len_cons; pose proof (len_nonneg el); lia]).
  assert (length el < S (length (AnnexB.annexb el)))%nat as Hf by (unfold len in *; lia).
  unfold AnnexB.H264_findNALUnits. rewrite (proj2 (Z.ltb_ge _ 3)) by lia.
  pose proof (AnnexB.h264_units_annexb el [] (S (length (AnnexB.annexb el))) [] Hsized Hf ltac:(done)) as E. cbn [app] in E.
  change (len []) with 0 in E. by rewrite E, Hsnd.
Qed.

(** A stream with everything its first slice refers to: the picture set the
    slice names, the sequence set that one names, and the frame's units. *)
Definition closed (ctx : ParameterSetContext) (nals : list NALUnit) (stream : list Z) : Prop :=
  exists req pps sps,
    let units := CleanNALUnitData (Data sps) :: CleanNALUnitData (Data (pps_set pps)) :: omap frame_unit nals in
    needs ctx nals req pps /\ spsMap ctx !! ReferencedSPSID pps = Some sps /\
    ValidatePPSData (Data (pps_set pps)) = Ret (Val (RequiredPPSID req, ReferencedSPSID pps)) /\
    ValidateSPSData (Data sps) = Ret (Val (ReferencedSPSID pps)) /\
    stream = write_units units /\ splits_into stream units.
(** A picture set whose sequence set is missing while another is there. *)
Definition dangling (ctx : ParameterSetContext) (nals : list NALUnit) : Prop :=
  exists req pps, needs ctx nals req pps /\ spsMap ctx !! ReferencedSPSID pps = None /\ spsMap ctx <> ∅.

(** ** Rewriting changes the ids only *)

(** The readers leave the data alone, so their position counts the bits read. *)
Definition keeps_data {A} (m : TypesBits.reader A) : Prop := forall br br' r, m br = Ret (br', r) -> data br' = data br.
Lemma keeps_bind {A B} (m : TypesBits.reader A) (f : A -> TypesBits.reader B) : keeps_data m -> (forall a, keeps_data (f a)) -> keeps_data (m ≫= f).
Proof.
  intros Hm Hf br br' r. unfold mbind, method_bind. destruct (m br) as [[br1 [a|e]]| |] eqn:E; try done.
  - intros E'. rewrite (Hf a _ _ _ E'). by eapply Hm.
  - intros [= <- _]. by eapply Hm.
Qed.
Lemma keeps_ret {A} (a : A) : keeps_data (mret a).
Proof. by intros br br' r [= <- _]. Qed.
Lemma keeps_fail {A} e : keeps_data (fail (A := A) e).
Proof. by intros br br' r [= <- _]. Qed.
Lemma keeps_bit : keeps_data ReadBit.
Proof.
  intros br br' r. unfold ReadBit. case_bool; [by intros [= <- _]|]. destruct (idx _ _) as [b| |]; try done. rewrite bind_Ret. cbv zeta.
  destruct (BitReader.shr_byte b _); try done. rewrite bind_Ret. intros [= <- _]. by case_match.
Qed.
Create HintDb keeps.
#[local] Hint Resolve keeps_bind keeps_ret keeps_fail keeps_bit : keeps.
Lemma keeps_loop n acc : keeps_data (TypesBits.read_bits_loop n acc).
Proof. revert acc. induction n as [|n IH]; intros acc; cbn [TypesBits.read_bits_loop]; auto with keeps. Qed.
Lemma keeps_bits n : keeps_data (ReadBits n).
Proof. intros br br' r. unfold ReadBits. do 3 (case_bool; [by intros [= <- _]|]). apply keeps_loop. Qed.
Lemma keeps_zeros fuel n : keeps_data (TypesBits.leading_zeros_loop fuel n).
Proof.
  revert n. induction fuel as [|fuel IH]; intros n; cbn [TypesBits.leading_zeros_loop]; [done|].
  apply keeps_bind; [apply keeps_bit|]. intros b. repeat case_match; auto with keeps.
Qed.
Lemma keeps_ue : keeps_data ReadUE.
Proof.
  unfold ReadUE. apply keeps_bind; [apply keeps_zeros|]. intros n. repeat case_match; auto using keeps_bits with keeps.
Qed.
#[local] Hint Resolve keeps_bits keeps_ue : keeps.

Lemma position_of br l rest :
  wf br -> bits_of (data br) = l ++ rest -> remaining br = rest -> GetBitPosition br = len l.
Proof.
  intros Hwf Hb Hr. pose proof (BitReader.len_remaining br Hwf) as Hl. pose proof (BitReader.len_bits_of (data br)) as Hd.
  rewrite Hr in Hl. rewrite Hb, len_app in Hd. unfold BitReader.totalBitsAvailable in Hl. unfold GetBitPosition. lia.
Qed.
Lemma seek_spec br l rest :
  bytes (data br) -> bits_of (data br) = l ++ rest -> wf (SeekToBit (len l) br) /\ remaining (SeekToBit (len l) br) = rest.
Proof.
  intros Hd Hb. pose proof (BitReader.len_bits_of (data br)) as Hl. rewrite Hb, len_app in Hl. pose proof (len_nonneg l). pose proof (len_nonneg rest).
  assert (8 * Z.quot (len l) 8 + Z.rem (len l) 8 = len l) as Hq by (pose proof (Z.quot_rem' (len l) 8); lia).
  pose proof (Z.rem_bound_pos (len l) 8 ltac:(lia) ltac:(lia)). pose proof (Z.quot_pos (len l) 8 ltac:(lia) ltac:(lia)).
  split.
  - split; [done|]. cbn. lia.
  - change (dropZ (8 * Z.quot (len l) 8 + Z.rem (len l) 8) (bits_of (data br)) = rest). rewrite Hq, Hb. unfold dropZ, len. rewrite Nat2Z.id. apply drop_app_length.
Qed.

Lemma ReadBit_step br b rest : wf br -> remaining br = b :: rest ->
  exists br', ReadBit br = Ret (br', Val b) /\ wf br' /\ remaining br' = rest /\ data br' = data br.
Proof. intros Hwf Hr. rewrite TypesBits.ReadBit_agree by done. by apply BitReader.ReadBit_cons. Qed.
Lemma remaining_bits br b rest : wf br -> remaining br = b :: rest -> TypesBits.bit b.
Proof. intros Hwf Hr. pose proof (BitReader.remaining_range br) as Hb. rewrite Hr in Hb. by apply Forall_cons in Hb as [Hb _]. Qed.

Lemma copy_bits_spec X br bw rest l :
  wf br -> remaining br = X ++ rest -> TypesBits.holds bw l ->
  exists br' bw', copy_bits (length X) br bw = Ret (br', bw', true) /\ data br' = data br /\ TypesBits.holds bw' (l ++ X).
Proof.
  revert br bw l. induction X as [|b X IH]; intros br bw l Hwf Hr Hw; cbn [copy_bits length].
  - exists br, bw. by rewrite app_nil_r.
  - destruct (ReadBit_step br b (X ++ rest) Hwf Hr) as (br1 & E & Hwf1 & Hr1 & Hd1). rewrite E, bind_Ret.
    destruct (TypesBits.WriteBit_spec b bw l Hw (remaining_bits _ _ _ Hwf Hr)) as (bw1 & -> & Hw1). rewrite bind_Ret.
    destruct (IH br1 bw1 _ Hwf1 Hr1 Hw1) as (br2 & bw2 & -> & Hd2 & Hw2). exists br2, bw2.
    split; [done|]. split; [congruence|]. by rewrite <- app_assoc in Hw2.
Qed.
Lemma copy_rest_spec X fuel br bw l :
  wf br -> remaining br = X -> (length X < fuel)%nat -> TypesBits.holds bw l ->
  exists bw', copy_rest fuel br bw = Ret bw' /\ TypesBits.holds bw' (l ++ X).
Proof.
  revert fuel br bw l. induction X as [|b X IH]; intros [|fuel] br bw l Hwf Hr Hf Hw; cbn in Hf; try lia; cbn [copy_rest].
  - pose proof (BitReader.len_remaining br Hwf) as Hl. rewrite Hr in Hl. change (len []) with 0 in Hl. destruct Hwf as (_ & Hb & Hp & _).
    unfold HasMoreBits, BitReader.totalBitsAvailable in *. rewrite (proj2 (Z.ltb_ge _ _)) by lia. exists bw. by rewrite app_nil_r.
  - pose proof (BitReader.len_remaining br Hwf) as Hl. rewrite Hr, len_cons in Hl. pose proof (len_nonneg X).
    assert (HasMoreBits br = true) as -> by (destruct Hwf as (_ & Hb & Hp & _); unfold HasMoreBits, BitReader.totalBitsAvailable in *; lia).
    destruct (ReadBit_step br b X Hwf Hr) as (br1 & E & Hwf1 & Hr1 & _). rewrite E, bind_Ret.
    destruct (TypesBits.WriteBit_spec b bw l Hw (remaining_bits _ _ _ Hwf Hr)) as (bw1 & -> & Hw1). rewrite bind_Ret.
    destruct (IH fuel br1 bw1 _ Hwf1 Hr1 ltac:(lia) Hw1) as (bw2 & -> & Hw2). exists bw2. by rewrite <- app_assoc in Hw2.
Qed.

Lemma splice_spec payload A B C write new :
  bytes payload -> bits_of payload = A ++ B ++ C ->
  (forall w l, TypesBits.holds w l -> exists w', write w = Ret w' /\ TypesBits.holds w' (l ++ new)) ->
  exists p n, splice payload (len A) (len A + len B) write = Ret (Some p) /\ bytes p /\ 0 <= n < 8 /\
    bits_of p = A ++ new ++ C ++ TypesBits.zeros n.
Proof.
  intros Hd Hb Hw. unfold splice. assert (Z.to_nat (len A) = length A) as -> by (unfold len; lia).
  assert (TypesBits.holds NewBitWriter []) as H0 by by split.
  destruct (copy_bits_spec A (NewBitReader payload) NewBitWriter (B ++ C) [] (BitSyntax.wf_new payload Hd)
    ltac:(by rewrite BitSyntax.remaining_new) H0) as (br & bw & -> & Hdata & Hw1). rewrite bind_Ret. cbn [negb].
  destruct (Hw bw _ Hw1) as (bw2 & -> & Hw2). rewrite bind_Ret.
  destruct (seek_spec br (A ++ B) C) as [Hwf Hr]; [by rewrite Hdata|by rewrite Hdata, <- app_assoc|]. rewrite len_app in Hwf, Hr.
  destruct (copy_rest_spec C (S (8 * length payload)) _ bw2 (A ++ new) Hwf Hr) as (bw3 & -> & Hw3); [|done|].
  { pose proof (BitReader.len_bits_of payload) as Hl. rewrite Hb, !len_app in Hl. unfold len in Hl. lia. }
  rewrite bind_Ret. destruct (TypesBits.GetBytes_spec bw3 _ Hw3) as (w' & -> & Hby & n & Hn & Hbits). rewrite bind_Ret.
  exists (TypesBits.w_data bw3), n. split; [done|]. split; [done|]. split; [done|]. by rewrite Hbits, <- !app_assoc.
Qed.

Lemma ue_items id : 0 <= id < 2 ^ 32 - 1 -> Forall TypesBits.item_ok [TypesBits.IUE id].
Proof. intros. by apply Forall_singleton. Qed.
(** A read of the items [l] from a payload that starts with them. *)
Lemma read_at {A} (m : TypesBits.reader A) l a br B C :
  BitSyntax.parses m l a -> keeps_data m -> Forall TypesBits.item_ok l -> wf br -> bits_of (data br) = B ++ BitSyntax.items_bits l ++ C ->
  remaining br = BitSyntax.items_bits l ++ C ->
  exists br', m br = Ret (br', Val a) /\ wf br' /\ data br' = data br /\ remaining br' = C /\
    GetBitPosition br' = len B + len (BitSyntax.items_bits l).
Proof.
  intros Hm Hk Hl Hwf Hb Hr. destruct (Hm Hl br C Hwf Hr) as (br' & E & Hwf' & Hr'). exists br'. split; [done|]. split; [done|].
  pose proof (Hk _ _ _ E) as Hd. split; [done|]. split; [done|]. rewrite <- len_app. apply (position_of br' _ C); [done| |done].
  by rewrite Hd, Hb, <- app_assoc.
Qed.
Lemma write_ue v : 0 <= v < 2 ^ 32 - 1 ->
  forall w l, TypesBits.holds w l -> exists w', WriteUE v w = Ret w' /\ TypesBits.holds w' (l ++ BitSyntax.items_bits [TypesBits.IUE v]).
Proof. intros Hv w l Hw. unfold BitSyntax.items_bits. cbn. rewrite app_nil_r. by apply TypesBits.WriteUE_spec. Qed.

Section rewriting.
Import TypesBits(item, IBits, IUE).
Import BitSyntax(items_bits, parses).

Definition head3 (a b c : Z) : list item := [IBits a 8; IBits b 8; IBits c 8].
Lemma remap_sps_bits sps h d a b c id newID C :
  Data sps = h :: d -> nal_type h = 7 -> bytes d -> 4 <= len d -> Forall TypesBits.item_ok (head3 a b c) ->
  0 <= id <= 31 -> 0 <= newID <= 255 -> bits_of d = items_bits (head3 a b c) ++ items_bits [IUE id] ++ C ->
  exists p n, createRemappedSPS (Some sps) newID = Ret (Some (h :: Rbsp.AddEmulationPreventionBytes p)) /\ bytes p /\ 0 <= n < 8 /\
    bits_of p = items_bits (head3 a b c) ++ items_bits [IUE newID] ++ C ++ TypesBits.zeros n.
Proof.
  intros HD Hh Hd Hl Hi Hid Hnew Hb. unfold createRemappedSPS. rewrite HD, len_cons, Hh.
  rewrite (proj2 (Z.ltb_ge (1 + len d) 5)), (proj2 (Z.ltb_ge (len d) 4)) by lia. change (negb (7 =? 7)) with false. cbn [orb].
  assert (parses (_ ← ReadBits 8; _ ← ReadBits 8; ReadBits 8) (head3 a b c) c) as Hp.
  { unfold head3. do 2 (eapply BitSyntax.parses_item; [apply ParamSets.tparses_bits|]). apply ParamSets.tparses_bits. }
  destruct (read_at _ _ c (NewBitReader d) [] (items_bits [IUE id] ++ C) Hp ltac:(auto with keeps) Hi (BitSyntax.wf_new d Hd) Hb
    ltac:(by rewrite BitSyntax.remaining_new)) as (br & -> & Hwf & Hdata & Hr & Hpos). rewrite bind_Ret. cbv zeta.
  assert (bits_of (data br) = items_bits (head3 a b c) ++ items_bits [IUE id] ++ C) as Hb' by by rewrite Hdata.
  destruct (read_at ReadUE [IUE id] id br (items_bits (head3 a b c)) C (ParamSets.tparses_ue id) keeps_ue (ue_items id ltac:(lia)) Hwf Hb' Hr)
    as (br2 & -> & _ & _ & _ & Hpos2). rewrite bind_Ret. rewrite (proj2 (Z.ltb_ge 31 id)) by lia. rewrite Hpos, Hpos2.
  change (len [] + len (items_bits (head3 a b c))) with (len (items_bits (head3 a b c))).
  destruct (splice_spec d _ _ _ (WriteUE newID) _ Hd Hb (write_ue newID ltac:(lia))) as (p & n & -> & Hby & Hn & Hbits). rewrite bind_Ret.
  exists p, n. done.
Qed.

Lemma remap_pps_bits pps h d pid sid newID ref C :
  Data (pps_set pps) = h :: d -> nal_type h = 8 -> bytes d -> 2 <= len d ->
  0 <= pid <= 255 -> 0 <= sid <= 31 -> 0 <= newID <= 255 -> 0 <= ref <= 255 -> bits_of d = items_bits [IUE pid; IUE sid] ++ C ->
  exists p n, createRemappedPPS (Some pps) newID ref = Ret (Some (h :: Rbsp.AddEmulationPreventionBytes p)) /\ bytes p /\ 0 <= n < 8 /\
    bits_of p = items_bits [IUE newID; IUE ref] ++ C ++ TypesBits.zeros n.
Proof.
  intros HD Hh Hd Hl Hp Hs Hnew Href Hb. unfold createRemappedPPS. cbv zeta. rewrite HD, len_cons, Hh.
  rewrite (proj2 (Z.ltb_ge (1 + len d) 3)), (proj2 (Z.ltb_ge (len d) 2)) by lia. change (negb (8 =? 8)) with false. cbn [orb].
  change [IUE pid; IUE sid] with ([IUE pid] ++ [IUE sid]) in Hb. rewrite BitSyntax.items_bits_app, <- app_assoc in Hb.
  destruct (read_at ReadUE [IUE pid] pid (NewBitReader d) [] _ (ParamSets.tparses_ue pid) keeps_ue (ue_items pid ltac:(lia))
    (BitSyntax.wf_new d Hd) Hb ltac:(by rewrite BitSyntax.remaining_new)) as (br & -> & Hwf & Hdata & Hr & _). rewrite bind_Ret.
  rewrite (proj2 (Z.ltb_ge 255 pid)) by lia.
  destruct (read_at ReadUE [IUE sid] sid br (items_bits [IUE pid]) C (ParamSets.tparses_ue sid) keeps_ue (ue_items sid ltac:(lia)) Hwf
    ltac:(by rewrite Hdata) Hr) as (br2 & -> & _ & _ & _ & Hpos2). rewrite bind_Ret. rewrite (proj2 (Z.ltb_ge 31 sid)) by lia. rewrite Hpos2, <- len_app.
  assert (forall w l, TypesBits.holds w l -> exists w', (w ← WriteUE newID w; WriteUE ref w) = Ret w' /\
    TypesBits.holds w' (l ++ items_bits [IUE newID; IUE ref])) as Hw.
  { intros w l Hw. destruct (write_ue newID ltac:(lia) w l Hw) as (w1 & -> & Hw1). rewrite bind_Ret.
    destruct (write_ue ref ltac:(lia) w1 _ Hw1) as (w2 & -> & Hw2). exists w2. change [IUE newID; IUE ref] with ([IUE newID] ++ [IUE ref]).
    by rewrite BitSyntax.items_bits_app, app_assoc. }
  destruct (splice_spec d [] (items_bits [IUE pid] ++ items_bits [IUE sid]) C _ _ Hd ltac:(by rewrite Hb, <- app_assoc) Hw)
    as (p & n & E & Hby & Hn & Hbits). change (len []) with 0 in E. rewrite Z.add_0_l in E. rewrite E, bind_Ret. exists p, n. done.
Qed.

Lemma remap_slice_bits h d first ty pid newID C :
  is_slice (nal_type h) = true -> bytes d -> 2 <= len d ->
  0 <= first < 2 ^ 32 - 1 -> 0 <= ty <= 9 -> 0 <= pid <= 255 -> 0 <= newID <= 255 ->
  bits_of d = items_bits [IUE first; IUE ty] ++ items_bits [IUE pid] ++ C ->
  exists p n, remapSliceHeaderPPSID (h :: d) newID = Ret (h :: Rbsp.AddEmulationPreventionBytes p) /\ bytes p /\ 0 <= n < 8 /\
    bits_of p = items_bits [IUE first; IUE ty] ++ items_bits [IUE newID] ++ C ++ TypesBits.zeros n.
Proof.
  intros Hh Hd Hl Hf Ht Hp Hnew Hb. unfold remapSliceHeaderPPSID. rewrite len_cons, Hh.
  rewrite (proj2 (Z.ltb_ge (1 + len d) 3)), (proj2 (Z.ltb_ge (len d) 2)) by lia. cbn [negb orb].
  assert (parses (_ ← ReadUE; ReadUE) [IUE first; IUE ty] ty) as Hpar
    by (eapply BitSyntax.parses_item; [apply ParamSets.tparses_ue|apply ParamSets.tparses_ue]).
  assert (Forall TypesBits.item_ok [IUE first; IUE ty]) as Hi by (repeat apply Forall_cons_2; [..|apply Forall_nil_2]; cbn; pow_consts; lia).
  destruct (read_at _ _ ty (NewBitReader d) [] _ Hpar ltac:(auto with keeps) Hi (BitSyntax.wf_new d Hd) Hb
    ltac:(by rewrite BitSyntax.remaining_new)) as (br & -> & Hwf & Hdata & Hr & Hpos). rewrite bind_Ret. cbv zeta.
  destruct (read_at ReadUE [IUE pid] pid br (items_bits [IUE first; IUE ty]) C (ParamSets.tparses_ue pid) keeps_ue (ue_items pid ltac:(lia)) Hwf
    ltac:(by rewrite Hdata) Hr) as (br2 & -> & _ & _ & _ & Hpos2). rewrite bind_Ret. rewrite (proj2 (Z.ltb_ge 255 pid)) by lia. rewrite Hpos, Hpos2.
  change (len [] + len (items_bits [IUE first; IUE ty])) with (len (items_bits [IUE first; IUE ty])).
  destruct (splice_spec d _ _ _ (WriteUE newID) _ Hd Hb (write_ue newID ltac:(lia))) as (p & n & -> & Hby & Hn & Hbits). rewrite bind_Ret.
  exists p, n. done.
Qed.
End rewriting.

(** The parameter set with another id. *)
Definition with_id (s : SpsH264.H264SPS) (id : Z) : SpsH264.H264SPS :=
  match s with
  | SpsH264.mkH264SPS a1 a2 a3 _ a5 a6 a7 a8 a9 a10 a11 a12 a13 a14 a15 a16 a17 a18 a19 a20 a21 a22 a23 a24 a25 a26 a27 a28 a29 a30 =>
      SpsH264.mkH264SPS a1 a2 a3 id a5 a6 a7 a8 a9 a10 a11 a12 a13 a14 a15 a16 a17 a18 a19 a20 a21 a22 a23 a24 a25 a26 a27 a28 a29 a30
  end.
Definition sps_head (s : SpsH264.H264SPS) : list TypesBits.item :=
  head3 (SpsH264.ProfileIdc s) (SpsH264.ConstraintSetFlags s) (SpsH264.LevelIdc s).
Lemma items_head s x id :
  SpsH264.h264_items (with_id s id) x = sps_head s ++ [TypesBits.IUE id] ++ ParamSets.tail_items s x.
Proof. by destruct s. Qed.
Lemma items_own s x : SpsH264.h264_items s x = sps_head s ++ [TypesBits.IUE (SpsH264.SeqParameterSetId s)] ++ ParamSets.tail_items s x.
Proof. by destruct s. Qed.
Lemma with_id_ok s x id : 0 <= id <= 31 -> SpsH264.h264_ok s x -> ParamSets.h264_limits s ->
  SpsH264.h264_ok (with_id s id) x /\ ParamSets.h264_limits (with_id s id).
Proof.
  intros Hid (Hi & Hh & Ho) Hl. split; [|destruct s; destruct Hl as (_ & Hl); split; [cbn; lia|exact Hl]].
  split; [|by destruct s]. rewrite items_head. rewrite items_own in Hi. apply Forall_app in Hi as [H1 H2]. apply Forall_app in H2 as [_ H2].
  apply Forall_app. split; [done|]. apply Forall_app. split; [apply ue_items; lia|done].
Qed.

(** C16: the rewriting of the best-effort stream.  A sequence set, a picture set
    and a slice in the standard's syntax are rewritten to ids 0 and nothing else
    changes: the rewritten payloads, escaped, are the same bits with the ids
    replaced - every field of the sequence set, its VUI, and whatever follows the
    ids in the picture set and the slice included - and up to seven zero bits
    behind.  The validators read ids 0 in both sets, the parser reads the sequence
    set's profile, flags, level, frame-number width and size, and the slice read
    with the rewritten sets has picture set 0, sequence set 0, and its own type
    and frame number.  For payloads that hold no escapes (the code rewrites the
    escaped bytes as they are), sequence sets within the parser's limits and of
    other profiles than 134, 135, 139 and 39. *)
Theorem remap_changes_ids (s : SpsH264.H264SPS) (x : SpsH264.sps_lists) (sps : ParameterSet) (pps : PPSContext)
    (h hp hs : Z) (d dp ds rest restp rests : list Z) (pid sid first ty pid0 num now : Z) (isIDR : bool) :
  Data sps = h :: d -> nal_type h = 7 -> bytes d ->
  SpsH264.h264_ok s x -> SpsH264.overlooked (SpsH264.ProfileIdc s) = false -> ParamSets.h264_limits s -> SpsH264.ProfileIdc s <> 0x27 ->
  bits_of d = BitSyntax.items_bits (SpsH264.h264_items s x) ++ rest ->
  Data (pps_set pps) = hp :: dp -> nal_type hp = 8 -> bytes dp -> 2 <= len dp -> 0 <= pid <= 255 -> 0 <= sid <= 31 ->
  bits_of dp = BitSyntax.items_bits [TypesBits.IUE pid; TypesBits.IUE sid] ++ restp ->
  is_slice (nal_type hs) = true -> bytes ds -> 2 <= len ds -> 0 <= first < 2 ^ 32 - 1 -> 0 <= ty <= 9 -> 0 <= pid0 <= 255 ->
  0 <= num < 2 ^ (SpsH264.Log2MaxFrameNumMinus4 s + 4) ->
  bits_of ds = BitSyntax.items_bits [TypesBits.IUE first; TypesBits.IUE ty; TypesBits.IUE pid0;
                 TypesBits.IBits num (SpsH264.Log2MaxFrameNumMinus4 s + 4)] ++ rests ->
  exists dsps dpps dslice p q t n m k,
    createRemappedSPS (Some sps) 0 = Ret (Some dsps) /\ createRemappedPPS (Some pps) 0 0 = Ret (Some dpps) /\
    remapSliceHeaderPPSID (hs :: ds) 0 = Ret dslice /\
    dsps = h :: Rbsp.AddEmulationPreventionBytes p /\ 0 <= n < 8 /\
    bits_of p = BitSyntax.items_bits (SpsH264.h264_items (with_id s 0) x) ++ rest ++ TypesBits.zeros n /\
    dpps = hp :: Rbsp.AddEmulationPreventionBytes q /\ 0 <= m < 8 /\
    bits_of q = BitSyntax.items_bits [TypesBits.IUE 0; TypesBits.IUE 0] ++ restp ++ TypesBits.zeros m /\
    dslice = hs :: Rbsp.AddEmulationPreventionBytes t /\ 0 <= k < 8 /\
    bits_of t = BitSyntax.items_bits [TypesBits.IUE first; TypesBits.IUE ty; TypesBits.IUE 0;
                  TypesBits.IBits num (SpsH264.Log2MaxFrameNumMinus4 s + 4)] ++ rests ++ TypesBits.zeros k /\
    checked_sps (Some dsps) = Ret (Some dsps) /\ checked_pps (Some dpps) = Ret (Some dpps) /\
    let size := SpsH264.h264_size s in
    let sps' := ParamSets.mkSet 0 dsps now (len dsps) true EmptyString (Some (SpsH264.ProfileIdc s)) (Some (SpsH264.ConstraintSetFlags s))
                  (Some (SpsH264.LevelIdc s)) (Some (SpsH264.Log2MaxFrameNumMinus4 s)) (Some (SpsH264.Width size)) (Some (SpsH264.Height size)) in
    let pps' := ParamSets.mkPPS (ParamSets.new_set 0 dpps now) 0 in
    ParamSets.parseSPS now dsps = Ret (Val sps') /\ ParamSets.parsePPS now dpps = Ret (Val pps') /\
    parseSliceHeader {[0 := sps']} {[0 := pps']} dslice isIDR = Ret (Val (ParamSets.mkReq 0 0 ty isIDR num true)).
Proof.
  intros HD Hh Hd Hok Hov Hlim Hne Hb HDp Hhp Hdp Hlp Hp Hs Hbp Hhs Hds Hls Hf Ht Hp0 Hnum Hbs.
  destruct (ParamSets.sps_start s x d rest Hok Hlim Hd Hb) as (Hld & _ & _ & _ & _ & Hid & _).
  assert (Forall TypesBits.item_ok (sps_head s)) as Hhead by (pose proof (proj1 Hok) as Hi; rewrite items_own in Hi; by apply Forall_app in Hi as [Hi _]).
  rewrite items_own, !BitSyntax.items_bits_app, <- !app_assoc in Hb.
  destruct (remap_sps_bits sps h d _ _ _ _ 0 _ HD Hh Hd Hld Hhead Hid ltac:(lia) Hb) as (p & n & E & Hby & Hn & Hbits).
  destruct (remap_pps_bits pps hp dp pid sid 0 0 restp HDp Hhp Hdp Hlp Hp Hs ltac:(lia) ltac:(lia) Hbp) as (q & m & Ep & Hbyq & Hm & Hbitsq).
  pose proof (items_own s x) as Hio. pose proof (proj1 Hok) as Hi. assert (0 <= SpsH264.Log2MaxFrameNumMinus4 s) as Hlog0.
  { unfold SpsH264.h264_items in Hi. apply Forall_cons in Hi as [_ Hi]. do 3 apply Forall_cons in Hi as [_ Hi].
    apply Forall_app in Hi as [_ Hi]. apply Forall_cons in Hi as [Hi _]. cbn in Hi. lia. }
  assert (SpsH264.Log2MaxFrameNumMinus4 s <= 12) as Hlog by (destruct Hlim as (_ & _ & Hl & _); done).
  set (l := SpsH264.Log2MaxFrameNumMinus4 s) in *.
  change [TypesBits.IUE first; TypesBits.IUE ty; TypesBits.IUE pid0; TypesBits.IBits num (l + 4)] with
    ([TypesBits.IUE first; TypesBits.IUE ty] ++ [TypesBits.IUE pid0] ++ [TypesBits.IBits num (l + 4)]) in Hbs.
  rewrite !BitSyntax.items_bits_app, <- !app_assoc in Hbs.
  destruct (remap_slice_bits hs ds first ty pid0 0 _ Hhs Hds Hls Hf Ht Hp0 ltac:(lia) Hbs) as (t & k & Es & Hbyt & Hk & Hbitst).
  destruct (with_id_ok s x 0 ltac:(lia) Hok Hlim) as [Hok0 Hlim0].
  assert (SpsH264.overlooked (SpsH264.ProfileIdc (with_id s 0)) = false) as Hov0 by (by destruct s).
  assert (bits_of p = BitSyntax.items_bits (SpsH264.h264_items (with_id s 0) x) ++ (rest ++ TypesBits.zeros n)) as Hp1.
  { rewrite items_head, !BitSyntax.items_bits_app, <- !app_assoc. by rewrite Hbits, <- !app_assoc. }
  assert (bits_of t = BitSyntax.items_bits [TypesBits.IUE first; TypesBits.IUE ty; TypesBits.IUE 0; TypesBits.IBits num (l + 4)]
            ++ (rests ++ TypesBits.zeros k)) as Ht1.
  { rewrite Hbitst. change [TypesBits.IUE first; TypesBits.IUE ty; TypesBits.IUE 0; TypesBits.IBits num (l + 4)] with
      ([TypesBits.IUE first; TypesBits.IUE ty] ++ [TypesBits.IUE 0] ++ [TypesBits.IBits num (l + 4)]).
    by rewrite !BitSyntax.items_bits_app, <- !app_assoc. }
  assert (ParamSets.header_ok [7; 15] [h]) as Hhok by (right; exists h; split; [done|by left]).
  exists (h :: Rbsp.AddEmulationPreventionBytes p), (hp :: Rbsp.AddEmulationPreventionBytes q), (hs :: Rbsp.AddEmulationPreventionBytes t), p, q, t, n, m, k.
  split; [done|]. split; [done|]. split; [done|]. do 9 (split; [done|]). rewrite !Rbsp.add_is_loop in *.
  assert (ValidateSPSData (h :: Rbsp.add_loop 0 p) = Ret (Val 0)) as Hv.
  { pose proof (ParamSets.ValidateSPSData_read (with_id s 0) x p _ [h] Hok0 Hlim0 Hby Hp1 Hhok ltac:(done)) as Hr. destruct s. by apply Hr. }
  destruct (ParamSets.pps_read 0 0 hp q (restp ++ TypesBits.zeros m) now ltac:(lia) ltac:(lia) Hhp Hbyq Hbitsq) as [Hpp Hpv].
  split; [unfold checked_sps; by rewrite Hv|]. split; [unfold checked_pps; by rewrite Hpv|]. cbv zeta.
  split.
  { pose proof (ParamSets.parseSPS_read (with_id s 0) x p _ [h] now Hok0 Hov0 Hlim0 Hby Hp1 Hhok ltac:(done)) as Hr. cbn [app] in Hr. rewrite Hr.
    subst l. by destruct s. }
  split; [done|]. match goal with |- parseSliceHeader {[0 := ?S]} _ _ _ = _ => set (S' := S) end.
  apply (ParamSets.slice_read _ _ first ty 0 num l (ParamSets.mkPPS (ParamSets.new_set 0 (hp :: Rbsp.add_loop 0 q) now) 0)
    S' hs t (rests ++ TypesBits.zeros k)); try done; try lia.
  - unfold is_slice in Hhs. lia.
Qed.

(** ** Best effort *)

Lemma newest_spec {A} (ok : A -> res bool) parsedAt l best :
  (forall e, e ∈ l -> exists b, ok e.2 = Ret b) ->
  exists r, newest ok parsedAt l best = Ret r /\
    (r = None -> best = None /\ forall e, e ∈ l -> ok e.2 = Ret false) /\
    (forall a, r = Some a -> best = Some a \/ exists k, (k, a) ∈ l /\ ok a = Ret true).
Proof.
  revert best. induction l as [|[k a] l IH]; intros best Hok; cbn [newest].
  - exists best. split; [done|]. split; [|auto]. intros ->. split; [done|]. by intros e ?%not_elem_of_nil.
  - destruct (Hok (k, a) ltac:(by left)) as [b Eb]. cbn [snd] in Eb. rewrite Eb, bind_Ret. cbv zeta.
    set (better := match best with None => true | Some b => _ end).
    destruct (IH (if b && better then Some a else best)) as (r & E & Hnone & Hsome); [intros e He; apply Hok; by right|].
    exists r. split; [done|]. split.
    + intros Hr. destruct (Hnone Hr) as [Hb Hl]. destruct b; cbn [andb] in Hb.
      * subst better. destruct best; [by destruct (_ <? _)|done].
      * split; [done|]. intros e [->|He]%elem_of_cons; [done|by apply Hl].
    + intros a' Hr. destruct (Hsome a' Hr) as [Hb|(k' & Hin & Ho)]; [|right; exists k'; split; [by right|done]].
      destruct (b && better) eqn:Hbb; [|by left]. injection Hb as <-. right. exists k. split; [by left|].
      by apply andb_true_iff in Hbb as [-> _].
Qed.

Lemma add_loop_bytes zc d : bytes d -> bytes (Rbsp.add_loop zc d).
Proof.
  intros Hd. revert zc. induction Hd as [|b d Hb Hd IH]; intros zc; cbn [Rbsp.add_loop]; [constructor|].
  destruct (_ && _); [constructor; [unfold is_byte; lia|]|]; (constructor; [exact Hb|apply IH]).
Qed.

(** The splice returns for any two positions in the payload. *)
Lemma splice_returns payload s e write :
  bytes payload -> 0 <= s <= 8 * len payload -> 0 <= e <= 8 * len payload ->
  (forall w l, TypesBits.holds w l -> exists w' l', write w = Ret w' /\ TypesBits.holds w' l') ->
  returns (splice payload s e write) (fun o => forall p, o = Some p -> bytes p).
Proof.
  intros Hd Hs He Hw. pose proof (BitReader.len_bits_of payload) as Hlen. set (bits := bits_of payload) in *.
  assert (len (takeZ s bits) = s) as Hs' by (unfold takeZ, len in *; rewrite length_take; lia).
  assert (len (takeZ e bits) = e) as He' by (unfold takeZ, len in *; rewrite length_take; lia).
  unfold splice. rewrite <- Hs'. assert (Z.to_nat (len (takeZ s bits)) = length (takeZ s bits)) as -> by (unfold len; lia).
  assert (TypesBits.holds NewBitWriter []) as H0 by by split.
  assert (bits = takeZ s bits ++ dropZ s bits) as Hsplit by (unfold takeZ, dropZ; by rewrite take_drop).
  destruct (copy_bits_spec (takeZ s bits) (NewBitReader payload) NewBitWriter (dropZ s bits) [] (BitSyntax.wf_new payload Hd)
    ltac:(by rewrite BitSyntax.remaining_new) H0) as (br & bw & -> & Hdata & Hw1). rewrite bind_Ret. cbn [negb].
  destruct (Hw bw _ Hw1) as (bw2 & l2 & -> & Hw2). rewrite bind_Ret.
  destruct (seek_spec br (takeZ e bits) (dropZ e bits)) as [Hwf Hr]; [by rewrite Hdata|rewrite Hdata; unfold takeZ, dropZ; by rewrite take_drop|].
  rewrite He' in Hwf, Hr.
  destruct (copy_rest_spec (dropZ e bits) (S (8 * length payload)) _ bw2 l2 Hwf Hr) as (bw3 & -> & Hw3); [|done|].
  { unfold dropZ, len in *. rewrite length_drop. lia. }
  rewrite bind_Ret. destruct (TypesBits.GetBytes_spec bw3 _ Hw3) as (w' & -> & Hby & _). rewrite bind_Ret.
  apply returns_Ret. by intros p [= <-].
Qed.

Lemma position_bound br : wf br -> 0 <= GetBitPosition br <= 8 * len (data br).
Proof. intros (_ & Hb & Hp & Hl). unfold GetBitPosition. lia. Qed.
(** A read returns and leaves the reader in the same payload. *)
Lemma read_returns {A} (m : TypesBits.reader A) br :
  BitSyntax.safe m -> keeps_data m -> wf br -> returns (m br) (fun out => wf out.1 /\ data out.1 = data br).
Proof.
  intros Hm Hk Hwf. destruct (Hm br Hwf) as (br' & r & E & Hwf' & _). rewrite E. apply returns_Ret. split; [done|]. by eapply Hk.
Qed.

Lemma rebuild_bytes header fallback o :
  is_byte header -> bytes fallback -> (forall p, o = Some p -> bytes p) -> bytes (rebuild header fallback o).
Proof.
  intros Hh Hf Ho. unfold rebuild. destruct o as [p|]; [|done]. constructor; [done|]. rewrite Rbsp.add_is_loop. by apply add_loop_bytes, Ho.
Qed.
Definition opt_bytes (o : option (list Z)) : Prop := forall d, o = Some d -> bytes d.

Lemma write_any v : 0 <= v < 2 ^ 32 - 1 -> forall w l, TypesBits.holds w l -> exists w' l', WriteUE v w = Ret w' /\ TypesBits.holds w' l'.
Proof. intros Hv w l Hw. destruct (write_ue v Hv w l Hw) as (w' & E & Hw'). eauto. Qed.

Lemma remapped_sps_returns sps : bytes (Data sps) -> returns (createRemappedSPS (Some sps) 0) opt_bytes.
Proof.
  intros Hb. unfold createRemappedSPS. destruct (Data sps) as [|h d] eqn:HD; [by apply returns_Ret|]. apply Forall_cons in Hb as [Hh Hd].
  assert (opt_bytes (Some (h :: d))) as Hself by (intros ? [= <-]; by constructor).
  destruct (_ || _); [by apply returns_Ret|].
  eapply returns_bind; [apply read_returns; [|auto with keeps|by apply BitSyntax.wf_new]|].
  { apply BitSyntax.safe_bind; [apply ParamSets.tsafe_bits|]. intros _. apply BitSyntax.safe_bind; [apply ParamSets.tsafe_bits|].
    intros _. apply ParamSets.tsafe_bits. }
  intros [br r] [Hwf Hdata]. cbn [fst] in *. destruct r; [|by apply returns_Ret]. cbv zeta.
  eapply returns_bind; [apply read_returns; [apply ParamSets.tsafe_ue|apply keeps_ue|done]|]. intros [br2 r] [Hwf2 Hdata2]. cbn [fst] in *.
  destruct (match r with Val _ => _ | Err _ => _ end); [by apply returns_Ret|].
  pose proof (position_bound br Hwf) as Hp. pose proof (position_bound br2 Hwf2) as Hp2. rewrite Hdata2, Hdata in Hp2. rewrite Hdata in Hp.
  eapply returns_bind; [apply (splice_returns d _ _ _ Hd Hp Hp2); by apply write_any|]. intros o Ho. apply returns_Ret.
  intros ? [= <-]. apply rebuild_bytes; [done|by constructor|done].
Qed.
Lemma remapped_pps_returns pps : bytes (Data (pps_set pps)) -> returns (createRemappedPPS (Some pps) 0 0) opt_bytes.
Proof.
  intros Hb. unfold createRemappedPPS. cbv zeta. destruct (Data (pps_set pps)) as [|h d] eqn:HD; [by apply returns_Ret|].
  apply Forall_cons in Hb as [Hh Hd].
  assert (opt_bytes (Some (h :: d))) as Hself by (intros ? [= <-]; by constructor).
  destruct (_ || _); [by apply returns_Ret|].
  eapply returns_bind; [apply read_returns; [apply ParamSets.tsafe_ue|apply keeps_ue|by apply BitSyntax.wf_new]|].
  intros [br r] [Hwf Hdata]. cbn [fst] in *. destruct (match r with Val _ => _ | Err _ => _ end); [by apply returns_Ret|].
  eapply returns_bind; [apply read_returns; [apply ParamSets.tsafe_ue|apply keeps_ue|done]|]. intros [br2 r2] [Hwf2 Hdata2]. cbn [fst] in *.
  destruct (match r2 with Val _ => _ | Err _ => _ end); [by apply returns_Ret|].
  pose proof (position_bound br2 Hwf2) as Hp2. rewrite Hdata2, Hdata in Hp2. pose proof (len_nonneg d).
  eapply returns_bind; [apply (splice_returns d 0 _ _ Hd ltac:(lia) Hp2)|].
  { intros w l Hw. destruct (write_any 0 ltac:(lia) w l Hw) as (w1 & l1 & -> & Hw1). rewrite bind_Ret. by eapply write_any. }
  intros o Ho. apply returns_Ret. intros ? [= <-]. apply rebuild_bytes; [done|by constructor|done].
Qed.
Lemma remapped_slice_returns data newID : bytes data -> 0 <= newID <= 255 -> returns (remapSliceHeaderPPSID data newID) (fun d => bytes d).
Proof.
  intros Hb Hnew. unfold remapSliceHeaderPPSID. destruct data as [|h d]; [by apply returns_Ret|]. pose proof Hb as Hb'. apply Forall_cons in Hb' as [Hh Hd].
  destruct (_ || _); [by apply returns_Ret|].
  eapply returns_bind; [apply read_returns; [|auto with keeps|by apply BitSyntax.wf_new]|].
  { apply BitSyntax.safe_bind; [apply ParamSets.tsafe_ue|]. intros _. apply ParamSets.tsafe_ue. }
  intros [br r] [Hwf Hdata]. cbn [fst] in *. destruct r; [|by apply returns_Ret]. cbv zeta.
  eapply returns_bind; [apply read_returns; [apply ParamSets.tsafe_ue|apply keeps_ue|done]|]. intros [br2 r2] [Hwf2 Hdata2]. cbn [fst] in *.
  destruct (match r2 with Val _ => _ | Err _ => _ end); [by apply returns_Ret|].
  pose proof (position_bound br Hwf) as Hp. pose proof (position_bound br2 Hwf2) as Hp2. rewrite Hdata2, Hdata in Hp2. rewrite Hdata in Hp.
  eapply returns_bind; [apply (splice_returns d _ _ _ Hd Hp Hp2); apply write_any; lia|]. intros o Ho. apply returns_Ret.
  apply rebuild_bytes; [done|done|done].
Qed.
Lemma remapped_units_returns nals : nals_bytes nals -> returns (remapped_units nals) (fun _ => True).
Proof.
  intros Hn. induction Hn as [|n nals Hb Hn IH]; cbn [remapped_units]; [by apply returns_Ret|]. destruct (_ || _); [exact IH|].
  eapply (returns_bind _ _ (fun _ => True)).
  { destruct (is_slice (kind n)); [|by apply returns_Ret]. eapply returns_weaken; [apply remapped_slice_returns; [done|lia]|done]. }
  intros u _. eapply returns_bind; [exact IH|]. intros l _. by apply returns_Ret.
Qed.
Lemma checked_sps_returns o : opt_bytes o -> returns (checked_sps o) (fun _ => True).
Proof.
  intros Ho. destruct o as [d|]; [|by apply returns_Ret]. unfold checked_sps.
  eapply returns_bind; [apply ParamSets.ValidateSPSData_returns, Ho; done|]. intros r _. by apply returns_Ret.
Qed.
Lemma checked_pps_returns o : opt_bytes o -> returns (checked_pps o) (fun _ => True).
Proof.
  intros Ho. destruct o as [d|]; [|by apply returns_Ret]. unfold checked_pps.
  eapply returns_bind; [apply ParamSets.ValidatePPSData_returns, Ho; done|]. intros r _. by apply returns_Ret.
Qed.

(** No picture set's sequence set is there. *)
Definition unlinked (ctx : ParameterSetContext) : Prop := map_Forall (fun _ pps => spsMap ctx !! ReferencedSPSID pps = None) (ppsMap ctx).

Section best.
Context `{MapOrder}.

Lemma range_in {A} (m : gmap Z A) k a : (k, a) ∈ range m <-> m !! k = Some a.
Proof. rewrite range_perm. apply elem_of_map_to_list. Qed.

Lemma bestSPS_spec ctx : ParamContext.ctx_ok ctx ->
  exists r, bestSPS_of ctx = Ret r /\ forall sps, r = Some sps ->
    (exists k, spsMap ctx !! k = Some sps /\ ID sps = k) /\ exists k pps, ppsMap ctx !! k = Some pps /\ ReferencedSPSID pps = ID sps.
Proof.
  intros [Hs Hp _ _ _ _]. unfold bestSPS_of.
  destruct (newest_spec (fun sps => if Valid sps && existsb (Z.eqb (ID sps)) (spsWithPPS ctx)
                     then r ← ValidateSPSData (Data sps); Ret (is_val r) else Ret false) ParsedAt (range (spsMap ctx)) None)
    as (r & E & _ & Hsome).
  { intros [k sps] Hin%range_in. cbn [snd]. destruct (_ && _); [|eauto]. destruct (Hs k sps Hin) as (_ & Hb & _).
    destruct (ParamSets.ValidateSPSData_returns (Data sps) Hb) as (r & -> & _). rewrite bind_Ret. eauto. }
  exists r. split; [done|]. intros sps Hr. destruct (Hsome sps Hr) as [|(k & Hin & Hok)]; [done|]. apply range_in in Hin.
  destruct (Hs k sps Hin) as ((_ & Hid & _) & _). split; [eauto|].
  destruct (Valid sps && _) eqn:Hc; [|done]. apply andb_true_iff in Hc as [_ Hc]. apply existsb_exists in Hc as (i & Hi & Heq).
  apply Z.eqb_eq in Heq. apply list_elem_of_In in Hi. unfold spsWithPPS in Hi.
  apply list_elem_of_omap in Hi as ([k' pps] & Hin' & Hi). cbn [snd] in Hi. destruct (pps_Valid pps); [|done]. injection Hi as Hi.
  exists k', pps. split; [by apply range_in|congruence].
Qed.

Definition good_pair (ctx : ParameterSetContext) (sps : ParameterSet) (pps : PPSContext) : Prop :=
  (exists k, spsMap ctx !! k = Some sps) /\ (exists k, ppsMap ctx !! k = Some pps).
Lemma best_pair_spec ctx : ParamContext.ctx_ok ctx ->
  (exists sps pps, best_pair ctx = Ret (Some sps, Some pps) /\ good_pair ctx sps pps /\ ~ unlinked ctx) \/
  (exists o, best_pair ctx = Ret (None, o) /\ unlinked ctx).
Proof.
  intros Hok. destruct (bestSPS_spec ctx Hok) as (r & E & Hr). destruct Hok as [Hs Hp _ _ _ _]. unfold best_pair. rewrite E, bind_Ret.
  assert (forall k pps, ppsMap ctx !! k = Some pps -> exists c, ValidatePPSData (Data (pps_set pps)) = Ret (Val (k, c))) as Hval
    by (intros k pps Hk; destruct (Hp k pps Hk) as (_ & _ & _ & c & Hc); eauto).
  assert (forall k pps, ppsMap ctx !! k = Some pps -> pps_Valid pps = true) as Hv by (intros k pps Hk; by destruct (Hp k pps Hk) as ((_ & _ & ?) & _)).
  destruct r as [sps|].
  - destruct (Hr sps eq_refl) as [(k & Hk & Hid) (k' & pps & Hk' & Href)]. unfold bestPPS_for.
    destruct (newest_spec (fun pps => if pps_Valid pps && (ReferencedSPSID pps =? ID sps)
        then r ← ValidatePPSData (Data (pps_set pps)); Ret (is_val r) else Ret false) pps_ParsedAt (range (ppsMap ctx)) None) as (r & -> & Hnone & Hsome).
    { intros [i p] Hin%range_in. cbn [snd]. destruct (_ && _); [|eauto]. destruct (Hval i p Hin) as [c ->]. rewrite bind_Ret. eauto. }
    rewrite bind_Ret. destruct r as [best|].
    + left. exists sps, best. split; [done|]. destruct (Hsome best eq_refl) as [|(i & Hin & _)]; [done|]. apply range_in in Hin.
      split; [split; eauto|]. intros Hun. specialize (Hun k' pps Hk'). cbn in Hun. rewrite Href, Hid in Hun. congruence.
    + exfalso. destruct (Hnone eq_refl) as [_ Hall]. specialize (Hall (k', pps) ltac:(by apply range_in)). cbn [snd] in Hall.
      destruct (Hval k' pps Hk') as [c Hc]. rewrite (Hv k' pps Hk'), Href, Z.eqb_refl, Hc, bind_Ret in Hall. done.
  - rewrite bind_Ret.
    destruct (newest_spec (fun pps => Ret (pps_Valid pps && has_sps ctx pps)) pps_ParsedAt (range (ppsMap ctx)) None) as (r & -> & Hnone & Hsome); [eauto|].
    rewrite bind_Ret. destruct r as [pps|].
    + left. destruct (Hsome pps eq_refl) as [|(i & Hin & Ho)]; [done|]. apply range_in in Hin. injection Ho as Ho.
      apply andb_true_iff in Ho as [_ Ho]. unfold has_sps, pair_of in Ho |- *. destruct (spsMap ctx !! ReferencedSPSID pps) as [s|] eqn:Es; [|done].
      destruct (Valid s); [|done]. exists s, pps. split; [done|]. split; [split; eauto|]. intros Hun. specialize (Hun i pps Hin). cbn in Hun. congruence.
    + right. destruct (newest_spec (fun pps => Ret (pps_Valid pps)) pps_ParsedAt (range (ppsMap ctx)) None) as (r & -> & _); [eauto|].
      rewrite bind_Ret. exists r. split; [done|]. intros k pps Hk. destruct (Hnone eq_refl) as [_ Hall].
      specialize (Hall (k, pps) ltac:(by apply range_in)). cbn [snd] in Hall. injection Hall as Hall. rewrite (Hv k pps Hk) in Hall. cbn [andb] in Hall.
      unfold has_sps, pair_of in Hall. destruct (spsMap ctx !! ReferencedSPSID pps) as [s|] eqn:Es; [|done].
      destruct (Hs _ s Es) as ((_ & _ & Hsv) & _). by rewrite Hsv in Hall.
Qed.
End best.

Section best_effort.
Context (sha256 : list Z -> list Z) `{MapOrder}.

(** C15: in every context a run can produce, the best-effort stream of any frame
    is generated without a panic; it is refused only for a frame without NAL
    units and when no picture set's sequence set is there - so the fallback to
    'the newest SPS and any valid PPS' never yields a stream; and where the
    frame's own sets are there the stream is these sets and the frame's units. *)
Theorem best_effort_outcome (ctx : ParameterSetContext) (nals : list NALUnit) :
  ParamContext.reachable sha256 ctx -> nals_bytes nals ->
  (nals = [] /\ GenerateBestEffortStream ctx nals = Ret (Err NoNALUnits)) \/
  (nals <> [] /\ unlinked ctx /\ GenerateBestEffortStream ctx nals = Ret (Err NoSets)) \/
  (nals <> [] /\ ~ unlinked ctx /\ exists stream, GenerateBestEffortStream ctx nals = Ret (Val stream) /\
     forall req pps sps, GetDecodingRequirements ctx nals = Ret (Val req) -> ppsMap ctx !! RequiredPPSID req = Some pps ->
       spsMap ctx !! ReferencedSPSID pps = Some sps ->
       stream = write_units (CleanNALUnitData (Data sps) :: CleanNALUnitData (Data (pps_set pps)) :: omap data_unit nals)).
Proof.
  intros Hok%ParamContext.reachable_ok Hn. destruct nals as [|n nals]; [by left|]. right. unfold GenerateBestEffortStream.
  destruct (best_pair_spec ctx Hok) as [(bs & bp & -> & Hgood & Hun)|(o & -> & Hun)]; rewrite bind_Ret; [right|by left].
  split; [done|]. split; [done|]. destruct Hok as [Hs Hp _ _ _ _].
  destruct (requirements_returns ctx (n :: nals) Hn) as ([req|e] & -> & Hr); rewrite bind_Ret; [|by eexists].
  destruct Hr as (pps & Hpps & _). destruct (Hp _ _ Hpps) as ((_ & _ & Hv) & _).
  unfold findCompatibleParameterSetsWithRequirements. rewrite Hpps. unfold pps_Valid. rewrite Hv. cbn [negb].
  destruct (spsMap ctx !! ReferencedSPSID pps) as [sps|] eqn:Es.
  - destruct (Hs _ _ Es) as ((_ & _ & Hsv) & _). rewrite Hsv. eexists. split; [done|].
    intros req' pps' sps' [= <-] Hp' Hs'. rewrite Hpps in Hp'. injection Hp' as <-. rewrite Es in Hs'. by injection Hs' as <-.
  - destruct Hgood as [[k Hbs] [k' Hbp]]. destruct (Hs _ _ Hbs) as (_ & Hsb & _). destruct (Hp _ _ Hbp) as (_ & _ & Hpb & _).
    assert (forall stream, forall req0 pps0 sps, (Ret (Val req) : out FrameDecodingRequirements) = Ret (Val req0) -> ppsMap ctx !! RequiredPPSID req0 = Some pps0 ->
      spsMap ctx !! ReferencedSPSID pps0 = Some sps -> stream = write_units (CleanNALUnitData (Data sps) :: CleanNALUnitData (Data (pps_set pps0)) ::
        omap data_unit (n :: nals))) as Hvac by (intros stream req' pps' sps' [= <-] Hp' Hs'; rewrite Hpps in Hp'; injection Hp' as <-; congruence).
    destruct (remapped_sps_returns bs Hsb) as (rs & -> & Hrs). rewrite bind_Ret.
    destruct (remapped_pps_returns bp Hpb) as (rp & -> & Hrp). rewrite bind_Ret.
    destruct (checked_sps_returns rs Hrs) as (cs & -> & _). rewrite bind_Ret.
    destruct (checked_pps_returns rp Hrp) as (cp & -> & _). rewrite bind_Ret.
    destruct (remapped_units_returns _ Hn) as (l & El & _).
    destruct cs as [cs|], cp as [cp|]; [rewrite El, bind_Ret|..]; eexists; (split; [done|apply Hvac]).
Qed.
End best_effort.

Section properties.
Context (sha256 : list Z -> list Z) `{MapOrder}.

(** C14: in every context a run can produce, for every frame, the exact stream is
    refused with a reason, or it is closed - it is, each behind a start code, the
    sequence and the picture set whose coded ids are those the frame's slice asks
    for, and the frame's units - or the method panics, and only in one case: the
    picture set's sequence set is missing and another one is there.  The checks
    of the stored ids never fail.  The detector's scanner splits a closed stream
    into exactly these units provided they are fewer than 1000 and each is at
    most 10 MB long, has no start code inside and does not end in a zero; the
    sets come from any bytes and are written as they are, so nothing else
    guarantees that. *)
Theorem decodable_stream (ctx : ParameterSetContext) (nals : list NALUnit) :
  ParamContext.reachable sha256 ctx -> nals_bytes nals ->
  (exists e, GenerateDecodableStream ctx nals = Ret (Err e) /\ not_mismatch e) \/
  (exists stream, GenerateDecodableStream ctx nals = Ret (Val stream) /\ closed ctx nals stream) \/
  (GenerateDecodableStream ctx nals = Panic /\ dangling ctx nals).
Proof.
  intros Hok%ParamContext.reachable_ok Hn. unfold GenerateDecodableStream.
  destruct (requirements_returns ctx nals Hn) as ([req|e] & -> & Hr); rewrite bind_Ret; [|left; by exists e].
  destruct Hr as (pps & Hneeds). pose proof (proj1 Hneeds) as Hpps. destruct Hok as [Osps Opps _ _ _ _].
  destruct (Opps _ _ Hpps) as ((Hk & Hid & Hval) & Href & Hb & coded & Hcoded).
  unfold canDecodeFrameWithRequirements. rewrite Hpps. unfold pps_Valid. rewrite Hval. cbn [negb].
  destruct (spsMap ctx !! ReferencedSPSID pps) as [sps|] eqn:Esps.
  - destruct (Osps _ _ Esps) as ((_ & Hsid & Hsval) & Hsb & Hsdata). rewrite Hsval. cbn [negb].
    destruct (ParamSets.ValidateSPSData_returns (Data sps) Hsb) as ([id|e] & Ev & _); rewrite Ev, bind_Ret; [|left; by eexists].
    specialize (Hsdata id Ev). subst id. rewrite Hsid, Z.eqb_refl. cbn [negb]. rewrite Hcoded, bind_Ret, Hid, Z.eqb_refl. cbn [negb].
    destruct (Z.eqb_spec coded (ReferencedSPSID pps)) as [->|]; cbn [negb]; [|left; by eexists].
    right. left. eexists. split; [reflexivity|]. exists req, pps, sps. cbv zeta. split; [done|]. split; [done|]. split; [done|].
    split; [done|]. split; [done|]. by apply (write_units_split (_ :: _ :: _)).
  - destruct ((range (spsMap ctx)).*1) as [|id l] eqn:Er; [left; by eexists|].
    assert (exists s, spsMap ctx !! id = Some s) as [s Es].
    { assert (id ∈ (range (spsMap ctx)).*1) as Hin by (rewrite Er; by left). apply list_elem_of_fmap in Hin as ([i s] & -> & Hin).
      exists s. rewrite range_perm in Hin. by apply elem_of_map_to_list. }
    rewrite Es. destruct (Osps _ _ Es) as ((_ & _ & Hsval) & _). rewrite Hsval. cbn [negb]. right. right. split; [done|].
    exists req, pps. split; [done|]. split; [done|]. intros E0. by rewrite E0 in Es.
Qed.
End properties.

(** ** At concrete inputs *)

(** A slice of an IDR picture that refers to picture set 0. *)
Definition idr_slice : NALUnit := mkNAL 5 [0x65; 0x88; 0x84; 0x21] 0 0.
Lemma decodable_stream_witness :
  exists stream, GenerateDecodableStream ParamContext.fed [idr_slice] = Ret (Val stream) /\ closed ParamContext.fed [idr_slice] stream.
Proof.
  assert (nals_bytes [idr_slice]) as Hn by (apply Forall_singleton; unfold is_byte; cbn; decide_goal).
  destruct (decodable_stream ParamContext.no_digest ParamContext.fed [idr_slice] ParamContext.fed_reachable Hn) as [(e & E & _)|[Hs|[E _]]].
  - exfalso. vm_compute in E. discriminate E.
  - exact Hs.
  - exfalso. vm_compute in E. discriminate E.
Defined.

Lemma best_effort_outcome_witness :
  exists stream, GenerateBestEffortStream ParamContext.fed [idr_slice] = Ret (Val stream).
Proof.
  assert (nals_bytes [idr_slice]) as Hn by (apply Forall_singleton; unfold is_byte; cbn; decide_goal).
  destruct (best_effort_outcome ParamContext.no_digest ParamContext.fed [idr_slice] ParamContext.fed_reachable Hn)
    as [[E _]|[(_ & _ & E)|(_ & _ & stream & E & _)]].
  - discriminate E.
  - exfalso. vm_compute in E. discriminate E.
  - exists stream. exact E.
Defined.

(** Picture set 3 of sequence set 1, a slice of it with frame number 5. *)
Definition pps3 : list Z := [0x22; 0x80].
Definition slice3 : list Z := [0x88; 0x22; 0x80].
Definition bits_after (n : Z) (d : list Z) : list Z := dropZ n (bits_of d).
Lemma remap_changes_ids_witness :
  let sps := ParamSets.new_set 0 (0x67 :: SpsH264.hd1080_bytes) 0 in
  let pps := ParamSets.mkPPS (ParamSets.new_set 3 (0x68 :: pps3) 0) 1 in
  exists dsps dpps dslice,
    createRemappedSPS (Some sps) 0 = Ret (Some dsps) /\ createRemappedPPS (Some pps) 0 0 = Ret (Some dpps) /\
    remapSliceHeaderPPSID (0x65 :: slice3) 0 = Ret dslice /\
    checked_sps (Some dsps) = Ret (Some dsps) /\ checked_pps (Some dpps) = Ret (Some dpps) /\
    let sps' := ParamSets.mkSet 0 dsps 7 (len dsps) true EmptyString (Some 100) (Some 0) (Some 40) (Some 0) (Some 1920) (Some 1080) in
    let pps' := ParamSets.mkPPS (ParamSets.new_set 0 dpps 7) 0 in
    ParamSets.parseSPS 7 dsps = Ret (Val sps') /\ ParamSets.parsePPS 7 dpps = Ret (Val pps') /\
    parseSliceHeader {[0 := sps']} {[0 := pps']} dslice true = Ret (Val (ParamSets.mkReq 0 0 7 true 5 true)).
Proof.
  intros sps pps.
  destruct (remap_changes_ids SpsH264.hd1080 SpsH264.hd1080_lists sps pps 0x67 0x68 0x65 SpsH264.hd1080_bytes pps3 slice3
    (bits_after (len (BitSyntax.items_bits (SpsH264.h264_items SpsH264.hd1080 SpsH264.hd1080_lists))) SpsH264.hd1080_bytes)
    (bits_after 8 pps3) (bits_after 17 slice3) 3 1 0 7 3 5 7 true)
    as (dsps & dpps & dslice & p & q & t & n & m & k & E1 & E2 & E3 & _ & _ & _ & _ & _ & _ & _ & _ & _ & H);
    lazymatch goal with |- exists _, _ => idtac | _ => try done; try lia end.
  - unfold is_byte; decide_goal.
  - exact SpsH264.hd1080_ok.
  - unfold is_byte; decide_goal.
  - unfold is_byte; decide_goal.
  - exists dsps, dpps, dslice. split; [exact E1|]. split; [exact E2|]. split; [exact E3|]. exact H.
Defined.

(** *** What the code does besides *)

(** Picture set 0 of sequence set 1, and sequence set 0: added in this order the
    reference dangles, in the other it is changed to set 0. *)
Definition pps_of_1 : list Z := [0x68; 0xA0; 0x3C; 0x80].
Definition feed (adds : list (bool * list Z)) : ParameterSetContext :=
  fold_left (fun (c : ParameterSetContext) (e : bool * list Z) => ParamContext.after (if e.1 then ParamContext.AddSPS ParamContext.no_digest 5 e.2 c
                                            else ParamContext.AddPPS ParamContext.no_digest 5 e.2 c) c)
    adds (ParamContext.NewParameterSetContext Codec.CodecH264 "cam" 0).
Example dangling_panics : GenerateDecodableStream (feed [(false, pps_of_1); (true, ParamContext.hd_sps)]) [idr_slice] = Panic.
Proof. by vm_compute. Qed.
(** A changed reference is never written to the set, so the stream is refused. *)
Example changed_reference_is_refused :
  GenerateDecodableStream (feed [(true, ParamContext.hd_sps); (false, pps_of_1)]) [idr_slice] = Ret (Err (ReferenceMismatch 0 1)).
Proof. by vm_compute. Qed.
(** The payload is rewritten with its escapes, and escaped again. *)
Example escapes_are_escaped :
  createRemappedSPS (Some (ParamSets.new_set 0 [0x67; 0x42; 0; 0x1E; 0x95; 0xA0; 0; 0; 3; 1; 0x80] 0)) 0 =
  Ret (Some [0x67; 0x42; 0; 0x1E; 0x95; 0xA0; 0; 0; 3; 3; 1; 0x80]).
Proof. by vm_compute. Qed.
