(* ===== verification/ParamMigration.v ===== *)
(** * Migrations between versions (types/parameter_set_migration.go)

    A migration is carried out by its own goroutine, in steps that each take the
    manager's lock, while other calls start and cancel migrations.  A migration
    is an address in the manager's store; the goroutine of each is a list of the
    steps still to be done.  One label is one critical section, in any order;
    versions and validator may change at any time. *)

From stdpp Require Import strings.
From S2P Require Import Prelude.
From S2P Require ParamValidator ParamVersions.
Import ParamVersions(VersionManager, version_error, ValidateVersion).

Inductive MigrationStrategy : Type := Immediate | Gradual | IDR | Validated | OtherStrategy (n : Z).
Inductive MigrationState : Type := Pending | Validating | InProgress | Completed | Failed | RolledBack.
#[export] Instance MigrationState_eq_dec : EqDecision MigrationState.
Proof. solve_decision. Defined.

Inductive fail_reason : Type :=
| TargetNotNewer
| CrossReferences
| SourceIntegrity (e : version_error)
| TargetIntegrity (e : version_error)
| UnknownStrategy (n : Z)
| ReferencesDuring
| Cancelled (reason : string).

Record ParameterSetValidationStep := mkStep { Name : string; StepCompleted : bool; Passed : bool; Timestamp : option Z }.
(** [Progress] in percent. *)
Record ParameterSetMigration := mkMigration {
  StartTime : Z; EndTime : option Z; Strategy : MigrationStrategy; SourceVersion : Z; TargetVersion : Z; State : MigrationState;
  Progress : Z; ValidationSteps : list ParameterSetValidationStep; ErrorReason : option fail_reason
}.
#[export] Instance eta_Migration : Eta ParameterSetMigration := fun g =>
  mkMigration (StartTime g) (EndTime g) (Strategy g) (SourceVersion g) (TargetVersion g) (State g) (Progress g) (ValidationSteps g) (ErrorReason g).

(** The steps of a goroutine; sleeping is not a step. *)
Inductive action : Type :=
| SetState (s : MigrationState)
| CheckCompatibility
| CheckDependencies
| CheckSource
| CheckTarget
| StepDone (i : nat)
| ByStrategy
| SetProgress (p : Z)
| CheckReferences
| Complete
| Fail_ (r : fail_reason).

(** Callbacks made. *)
Inductive event : Type := OnStart (a : Z) | OnComplete (a : Z) | OnFailed (a : Z) (r : fail_reason).

Record ParameterSetMigrationManager := mkManager {
  store : gmap Z ParameterSetMigration; next : Z; threads : gmap Z (list action);
  activeMigration : option Z; migrationHistory : list Z; maxHistorySize : Z;
  versionManager : VersionManager; validator : option ParamValidator.ParameterSetValidator;
  totalMigrations : Z; successfulMigrations : Z; failedMigrations : Z; events : list event
}.
#[export] Instance eta_MigrationManager : Eta ParameterSetMigrationManager := fun m =>
  mkManager (store m) (next m) (threads m) (activeMigration m) (migrationHistory m) (maxHistorySize m) (versionManager m) (validator m)
    (totalMigrations m) (successfulMigrations m) (failedMigrations m) (events m).
Implicit Types (m : ParameterSetMigrationManager) (a : Z).

Definition NewParameterSetMigrationManager (vm : VersionManager) (v : option ParamValidator.ParameterSetValidator) : ParameterSetMigrationManager :=
  mkManager ∅ 0 ∅ None [] 100 vm v 0 0 0 [].

Inductive migration_error : Type :=
| AlreadyInProgress (a : Z)
| InvalidSource (e : version_error)
| InvalidTarget (e : version_error)
| NoActiveMigration
| NotCancellable (s : MigrationState).

(** ** Operations *)

Definition addToHistory (a : Z) m : ParameterSetMigrationManager :=
  let h := migrationHistory m ++ [a] in
  m <| migrationHistory := if maxHistorySize m <? len h then dropZ (len h - maxHistorySize m) h else h |>.

(** [runValidationSteps] and the strategy behind it. *)
Definition executeMigration : list action :=
  [SetState Validating; CheckCompatibility; StepDone 0; CheckDependencies; StepDone 1; CheckSource; CheckTarget; StepDone 2; StepDone 3;
   SetState InProgress; ByStrategy].
Definition executeImmediateMigration : list action := [SetProgress 100; Complete].
Definition executeGradualMigration : list action := ((fun i => SetProgress (10 * Z.of_nat i)) <$> seq 0 11) ++ [Complete].
Definition executeIDRMigration : list action := [SetProgress 50; SetProgress 100; Complete].
Definition executeValidatedMigration : list action := [SetProgress 25; CheckReferences; SetProgress 100; Complete].
Definition execute (s : MigrationStrategy) : list action :=
  match s with
  | Immediate => executeImmediateMigration
  | Gradual => executeGradualMigration
  | IDR => executeIDRMigration
  | Validated => executeValidatedMigration
  | OtherStrategy n => [Fail_ (UnknownStrategy n)]
  end.

Definition set_migration (a : Z) (f : ParameterSetMigration -> ParameterSetMigration) m : ParameterSetMigrationManager :=
  m <| store := alter f a (store m) |>.
Definition updateMigrationState (a : Z) (s : MigrationState) := set_migration a (fun g => g <| State := s |>).
Definition updateMigrationProgress (a : Z) (p : Z) := set_migration a (fun g => g <| Progress := p |>).
Definition updateValidationStep (now a : Z) (i : nat) :=
  set_migration a (fun g => g <| ValidationSteps := alter (fun s => mkStep (Name s) true true (Some now)) i (ValidationSteps g) |>).

(** [if mm.activeMigration == migration { mm.activeMigration = nil }] *)
Definition deactivate (a : Z) m : ParameterSetMigrationManager :=
  if bool_decide (activeMigration m = Some a) then m <| activeMigration := None |> else m.
Definition completeMigration (now a : Z) m : ParameterSetMigrationManager :=
  let m := set_migration a (fun g => g <| State := Completed |> <| EndTime := Some now |> <| Progress := 100 |>) m in
  let m := addToHistory a (m <| successfulMigrations := u64 (successfulMigrations m + 1) |>) in
  deactivate a (m <| events := events m ++ [OnComplete a] |>).
Definition failMigration (now a : Z) (r : fail_reason) m : ParameterSetMigrationManager :=
  let m := set_migration a (fun g => g <| State := Failed |> <| EndTime := Some now |> <| ErrorReason := Some r |>) m in
  let m := addToHistory a (m <| failedMigrations := u64 (failedMigrations m + 1) |>) in
  deactivate a (m <| events := events m ++ [OnFailed a r] |>).

(** [mm.validator == nil || mm.validator.ValidateCrossReferences() == nil] *)
Definition references_ok m : bool :=
  match validator m with Some v => ParamValidator.ValidateCrossReferences v | None => true end.

Section manager.
Context (sha256 : list Z -> list Z).

(** What a check finds wrong with the migration. *)
Definition check (act : action) (g : ParameterSetMigration) m : option fail_reason :=
  match act with
  | CheckCompatibility => if TargetVersion g <=? SourceVersion g then Some TargetNotNewer else None
  | CheckDependencies => if references_ok m then None else Some CrossReferences
  | CheckSource => SourceIntegrity <$> ValidateVersion sha256 (SourceVersion g) (versionManager m)
  | CheckTarget => TargetIntegrity <$> ValidateVersion sha256 (TargetVersion g) (versionManager m)
  | CheckReferences => if references_ok m then None else Some ReferencesDuring
  | _ => None
  end.

(** One step of the goroutine of [a]: what it changes, and what is left to do. *)
Definition perform (now a : Z) (act : action) (g : ParameterSetMigration) m : ParameterSetMigrationManager :=
  match act with
  | SetState s => updateMigrationState a s m
  | StepDone i => updateValidationStep now a i m
  | SetProgress p => updateMigrationProgress a p m
  | Complete => completeMigration now a m
  | Fail_ r => failMigration now a r m
  | _ => m
  end.
Definition continue (act : action) (rest : list action) (g : ParameterSetMigration) m : list action :=
  match check act g m with
  | Some r => [Fail_ r]
  | None => match act with ByStrategy => execute (Strategy g) | _ => rest end
  end.
Definition run_thread (now a : Z) m : ParameterSetMigrationManager :=
  match threads m !! a, store m !! a with
  | Some (act :: rest), Some g => (perform now a act g m) <| threads := <[a := continue act rest g m]> (threads m) |>
  | _, _ => m
  end.

Definition validation_steps : list ParameterSetValidationStep :=
  (fun n => mkStep n false false None) <$> ["version_compatibility"; "dependency_check"; "integrity_verification"; "performance_impact"]%string.

Definition in_state (s : MigrationState) (o : option ParameterSetMigration) : bool :=
  match o with Some g => bool_decide (State g = s) | None => false end.

Definition StartMigration (now sourceVersion targetVersion : Z) (strategy : MigrationStrategy) m
    : ParameterSetMigrationManager * exn migration_error Z :=
  match match activeMigration m with
        | Some a => if in_state InProgress (store m !! a) then Some (AlreadyInProgress a) else None
        | None => None
        end with
  | Some e => (m, Err e)
  | None =>
      match ValidateVersion sha256 sourceVersion (versionManager m) with
      | Some e => (m, Err (InvalidSource e))
      | None =>
          match ValidateVersion sha256 targetVersion (versionManager m) with
          | Some e => (m, Err (InvalidTarget e))
          | None =>
              let a := next m in
              let g := mkMigration now None strategy sourceVersion targetVersion Pending 0 validation_steps None in
              (m <| store := <[a := g]> (store m) |> <| next := a + 1 |> <| threads := <[a := executeMigration]> (threads m) |>
                 <| activeMigration := Some a |> <| totalMigrations := u64 (totalMigrations m + 1) |>
                 <| events := events m ++ [OnStart a] |>, Val a)
          end
      end
  end.

(** The goroutine of the cancelled migration goes on. *)
Definition CancelMigration (now : Z) (reason : string) m : ParameterSetMigrationManager * exn migration_error unit :=
  match activeMigration m with
  | None => (m, Err NoActiveMigration)
  | Some a =>
      match store m !! a with
      | None => (m, Err NoActiveMigration)
      | Some g =>
          if negb (bool_decide (State g = InProgress)) && negb (bool_decide (State g = Validating)) then (m, Err (NotCancellable (State g)))
          else
            let m := set_migration a (fun g => g <| State := Failed |> <| ErrorReason := Some (Cancelled reason) |> <| EndTime := Some now |>) m in
            let m := addToHistory a (m <| failedMigrations := u64 (failedMigrations m + 1) |>) in
            (m <| events := events m ++ [OnFailed a (Cancelled reason)] |> <| activeMigration := None |>, Val tt)
      end
  end.

Definition GetActiveMigration m : option Z := activeMigration m.
Definition GetMigrationHistory m : list Z := migrationHistory m.
Definition GetStatistics m : list Z * bool :=
  ([totalMigrations m; successfulMigrations m; failedMigrations m; len (migrationHistory m)], bool_decide (activeMigration m <> None)).

(** ** Interleavings *)

Inductive label : Type :=
| LStart (now source target : Z) (s : MigrationStrategy)
| LCancel (now : Z) (reason : string)
| LRun (now a : Z)
| LEnv (vm : VersionManager) (v : option ParamValidator.ParameterSetValidator).
(** The manager behind a label, and whether the label cancelled a migration. *)
Definition step (l : label) m : ParameterSetMigrationManager * bool :=
  match l with
  | LStart now s t st => ((StartMigration now s t st m).1, false)
  | LCancel now r => let '(m, r) := CancelMigration now r m in (m, match r with Val _ => true | Err _ => false end)
  | LRun now a => (run_thread now a m, false)
  | LEnv vm v => (m <| versionManager := vm |> <| validator := v |>, false)
  end.
Fixpoint run (ls : list label) m : ParameterSetMigrationManager * Z :=
  match ls with
  | [] => (m, 0)
  | l :: ls => let '(m, c) := step l m in let '(m, n) := run ls m in (m, (if c then 1 else 0) + n)
  end.
End manager.

(** ** The books *)

(** A goroutine's steps end with the one that ends the migration, or with the
    choice of the strategy, whose steps do. *)
Definition ending (act : action) : bool := match act with Complete | Fail_ _ => true | _ => false end.
Fixpoint well_ended (l : list action) : bool :=
  match l with
  | [] => false
  | [act] => match act with ByStrategy => true | _ => ending act end
  | act :: l => negb (ending act) && negb (match act with ByStrategy => true | _ => false end) && well_ended l
  end.
Lemma well_ended_execute s : well_ended (execute s) = true.
Proof. by destruct s. Qed.

(** How far a goroutine is from its end. *)
Definition weight (act : action) : nat := match act with ByStrategy => 13 | CheckCompatibility | CheckDependencies | CheckSource | CheckTarget | CheckReferences => 2 | _ => 1 end.
Definition distance (l : list action) : nat := sum_list_with weight l.
Lemma distance_execute s : (distance (execute s) <= 12)%nat.
Proof. destruct s; vm_compute; lia. Qed.

Definition terminal (s : MigrationState) : bool := match s with Completed | Failed => true | _ => false end.
Definition finished m : Z := Z.of_nat (size (filter (fun kv => kv.2 = []) (threads m))).

Record books m (cancels : Z) : Prop := mkBooks {
  b_threads : forall a, threads m !! a = None <-> store m !! a = None;
  b_next : forall a g, store m !! a = Some g -> 0 <= a < next m;
  b_total : totalMigrations m = next m /\ Z.of_nat (size (store m)) = next m;
  b_scripts : forall a l, threads m !! a = Some l -> l = [] \/ well_ended l = true;
  b_ends : successfulMigrations m + failedMigrations m = finished m + cancels;
  b_counts : 0 <= successfulMigrations m /\ 0 <= failedMigrations m /\ 0 <= cancels;
  b_history : len (migrationHistory m) = Z.min (maxHistorySize m) (successfulMigrations m + failedMigrations m);
  b_max : maxHistorySize m = 100;
  b_active : forall a, activeMigration m = Some a -> exists l, threads m !! a = Some l /\ l <> [];
  b_states : forall a g, store m !! a = Some g -> threads m !! a = Some [] -> terminal (State g) = true;
  b_running : cancels = 0 -> forall a g l, store m !! a = Some g -> threads m !! a = Some l -> l <> [] -> terminal (State g) = false
}.

Lemma finished_insert m a l old :
  threads m !! a = Some old -> old <> [] ->
  finished (m <| threads := <[a := l]> (threads m) |>) = finished m + if bool_decide (l = []) then 1 else 0.
Proof.
  intros Hold Hne. unfold finished. cbn. case_bool_decide as Hl.
  - rewrite map_filter_insert_True by done. rewrite map_size_insert_None; [lia|]. apply map_lookup_filter_None. right. intros l' E. cbn. congruence.
  - rewrite map_filter_insert_False by done. rewrite Z.add_0_r. do 2 f_equal. rewrite map_filter_delete.
    apply delete_id. apply map_lookup_filter_None. right. intros l' E. cbn. congruence.
Qed.

(** *** Each critical section keeps the books *)

Lemma history_len a m : maxHistorySize m = 100 ->
  len (migrationHistory (addToHistory a m)) = Z.min (maxHistorySize m) (len (migrationHistory m) + 1).
Proof.
  intros H. unfold addToHistory. cbn.
  destruct (Z.ltb_spec (maxHistorySize m) (len (migrationHistory m ++ [a]))) as [Hl|Hl]; [rewrite len_dropZ|]; rewrite len_app in *;
    change (len [a]) with 1 in *; lia.
Qed.

Lemma size_alter {A} (f : A -> A) (m : gmap Z A) a : size (alter f a m) = size m.
Proof. by rewrite <- !size_dom, dom_alter_L. Qed.

(** A change of one migration that is running: its state may change to one that
    is not terminal. *)
Lemma books_update m c a f :
  (forall g, terminal (State g) = false -> terminal (State (f g)) = false) ->
  (exists l, threads m !! a = Some l /\ l <> []) -> books m c -> books (set_migration a f m) c.
Proof.
  intros Hf (l & Hl & Hne) [B1 B2 B3 B4 B5 B6 B7 Bm B8 B9 B10].
  split; cbn; try done.
  - intros k. by rewrite lookup_alter_None.
  - intros k g Hk. destruct (decide (k = a)) as [->|Hka]; [|rewrite lookup_alter_ne in Hk by done; by eapply B2].
    rewrite lookup_alter_eq in Hk. apply fmap_Some in Hk as (g0 & Hk & _). by eapply B2.
  - destruct B3 as [B3 B3']. split; [done|]. by rewrite size_alter.
  - intros k g Hk Ht. destruct (decide (k = a)) as [->|Hka]; [congruence|]. rewrite lookup_alter_ne in Hk by done. by eapply B9.
  - intros Hc k g l' Hk Ht Hne'. destruct (decide (k = a)) as [->|Hka]; [|rewrite lookup_alter_ne in Hk by done; by eapply B10].
    rewrite lookup_alter_eq in Hk. apply fmap_Some in Hk as (g0 & Hk & ->). apply Hf. by eapply B10.
Qed.
(** The goroutine goes on, and has something left to do. *)
Lemma books_continue m c a l old :
  threads m !! a = Some old -> old <> [] -> well_ended l = true -> books m c -> books (m <| threads := <[a := l]> (threads m) |>) c.
Proof.
  intros Hold Hne Hl [B1 B2 B3 B4 B5 B6 B7 Bm B8 B9 B10].
  assert (l <> []) as Hlne by by intros ->.
  split; cbn; try done.
  - intros k. destruct (decide (k = a)) as [->|Hka]; [rewrite lookup_insert_eq|by rewrite lookup_insert_ne].
    split; [done|]. intros E. apply B1 in E. congruence.
  - intros k l' Hk. destruct (decide (k = a)) as [->|Hka]; [|rewrite lookup_insert_ne in Hk by done; by eapply B4].
    rewrite lookup_insert_eq in Hk. injection Hk as <-. by right.
  - pose proof (finished_insert m a l old Hold Hne) as Hf. rewrite bool_decide_false in Hf by done. cbn in Hf. lia.
  - intros k Hk. destruct (B8 k Hk) as (l' & Hl' & Hne'). destruct (decide (k = a)) as [->|Hka]; [exists l; by rewrite lookup_insert_eq|].
    exists l'. by rewrite lookup_insert_ne.
  - intros k g Hk Ht. destruct (decide (k = a)) as [->|Hka]; [rewrite lookup_insert_eq in Ht; congruence|].
    rewrite lookup_insert_ne in Ht by done. by eapply B9.
  - intros Hc k g l' Hk Ht Hne'. destruct (decide (k = a)) as [->|Hka]; [by eapply B10|]. rewrite lookup_insert_ne in Ht by done. by eapply B10.
Qed.

(** The migration ends. *)
Lemma books_end m m' c a f old :
  threads m !! a = Some old -> old <> [] -> (forall g, terminal (State (f g)) = true) -> books m c ->
  store m' = alter f a (store m) -> threads m' = <[a := []]> (threads m) -> next m' = next m -> totalMigrations m' = totalMigrations m ->
  maxHistorySize m' = maxHistorySize m ->
  0 <= successfulMigrations m' -> 0 <= failedMigrations m' ->
  successfulMigrations m' + failedMigrations m' = successfulMigrations m + failedMigrations m + 1 ->
  len (migrationHistory m') = Z.min (maxHistorySize m) (len (migrationHistory m) + 1) ->
  (forall k, activeMigration m' = Some k -> activeMigration m = Some k /\ k <> a) ->
  books m' c.
Proof.
  intros Hold Hne Hf [B1 B2 B3 B4 B5 B6 B7 Bm B8 B9 B10] E1 E2 E3 E4 E5 P1 P2 E6 E7 E8.
  split.
  - intros k. rewrite E1, E2, lookup_alter_None. destruct (decide (k = a)) as [->|Hka]; [rewrite lookup_insert_eq|by rewrite lookup_insert_ne].
    split; [done|]. intros E. apply B1 in E. congruence.
  - intros k g. rewrite E1, E3. intros Hk. destruct (decide (k = a)) as [->|Hka]; [|rewrite lookup_alter_ne in Hk by done; by eapply B2].
    rewrite lookup_alter_eq in Hk. apply fmap_Some in Hk as (g0 & Hk & _). by eapply B2.
  - rewrite E4, E3, E1, size_alter. done.
  - intros k l. rewrite E2. intros Hk. destruct (decide (k = a)) as [->|Hka]; [rewrite lookup_insert_eq in Hk; injection Hk as <-; by left|].
    rewrite lookup_insert_ne in Hk by done. by eapply B4.
  - pose proof (finished_insert m a [] old Hold Hne) as Hfin. rewrite bool_decide_true in Hfin by done.
    unfold finished in *. rewrite E2. cbn [threads upd] in Hfin. cbn in Hfin. lia.
  - lia.
  - rewrite E7, E5, E6, B7. lia.
  - by rewrite E5.
  - intros k Hk. destruct (E8 k Hk) as [Hk' Hka]. destruct (B8 k Hk') as (l' & Hl' & Hne'). exists l'. by rewrite E2, lookup_insert_ne.
  - intros k g. rewrite E1, E2. intros Hk Ht. destruct (decide (k = a)) as [->|Hka].
    + rewrite lookup_alter_eq in Hk. apply fmap_Some in Hk as (g0 & _ & ->). apply Hf.
    + rewrite lookup_alter_ne in Hk by done. rewrite lookup_insert_ne in Ht by done. by eapply B9.
  - intros Hc k g l'. rewrite E1, E2. intros Hk Ht Hne'. destruct (decide (k = a)) as [->|Hka]; [rewrite lookup_insert_eq in Ht; congruence|].
    rewrite lookup_alter_ne in Hk by done. rewrite lookup_insert_ne in Ht by done. by eapply B10.
Qed.

Section preserved.
Context (sha256 : list Z -> list Z).

Lemma continue_ended act rest g m : well_ended (act :: rest) = true -> ending act = false -> well_ended (continue sha256 act rest g m) = true.
Proof.
  intros Hw He. unfold continue. destruct (check sha256 act g m); [done|].
  destruct rest as [|b rest]; [destruct act; try done; apply well_ended_execute|].
  cbn [well_ended] in Hw. apply andb_true_iff in Hw as [Hw1 Hw]. apply andb_true_iff in Hw1 as [_ Hs]. by destruct act.
Qed.
Lemma ending_last act rest : well_ended (act :: rest) = true -> ending act = true -> rest = [].
Proof. intros Hw He. destruct rest as [|b rest]; [done|]. cbn [well_ended] in Hw. by rewrite He in Hw. Qed.

(** The scripts set only states a running migration has. *)
Definition running_states (l : list action) : Prop := Forall (fun act => match act with SetState s => terminal s = false | _ => True end) l.

Definition safe_scripts m : Prop := forall a l, threads m !! a = Some l -> running_states l.
Lemma execute_states s : running_states (execute s).
Proof. destruct s; vm_compute; repeat constructor. Qed.
Lemma continue_states act rest g m : running_states (act :: rest) -> running_states (continue sha256 act rest g m).
Proof.
  intros Hr. apply Forall_cons in Hr as [_ Hr]. unfold continue. destruct (check sha256 act g m); [by repeat constructor|].
  destruct act; try done. apply execute_states.
Qed.

Lemma finished_bound m c : books m c -> 0 <= finished m <= next m.
Proof.
  intros [B1 B2 [B3 B3'] B4 B5 B6 B7 Bm B8 B9 B10]. unfold finished. split; [lia|].
  assert (size (threads m) = size (store m)) as Hs.
  { rewrite <- !size_dom. f_equal. apply set_eq. intros k. rewrite !elem_of_dom, <- !not_eq_None_Some. by rewrite B1. }
  rewrite <- B3', <- Hs. pose proof (map_size_filter (fun kv : Z * list action => kv.2 = []) (threads m)). lia.
Qed.


Lemma perform_books now a act rest g m c :
  threads m !! a = Some (act :: rest) -> ending act = false -> running_states (act :: rest) -> books m c -> books (perform now a act g m) c.
Proof.
  intros Hl He Hr Hb. apply Forall_cons in Hr as [Hr _].
  assert (exists l, threads m !! a = Some l /\ l <> []) as Hex by eauto.
  destruct act; try done; apply books_update; try done; by intros ? E.
Qed.
Lemma perform_threads now a act g m : ending act = false -> threads (perform now a act g m) = threads m.
Proof. by destruct act. Qed.
Lemma deactivate_rest a m :
  exists o, deactivate a m = m <| activeMigration := o |> /\ forall k, o = Some k -> activeMigration m = Some k /\ k <> a.
Proof.
  unfold deactivate. case_bool_decide as Ha; [by eexists|]. exists (activeMigration m). split; [by destruct m|].
  intros k Hk. split; [done|]. congruence.
Qed.

(** Either way to end a migration. *)
Lemma perform_end_books now a act g m c :
  threads m !! a = Some [act] -> ending act = true -> books m c -> next m + c + 1 < 2 ^ 64 ->
  books ((perform now a act g m) <| threads := <[a := []]> (threads m) |>) c.
Proof.
  intros Hl He Hb Hn. pose proof (finished_bound m c Hb) as Hfin. pose proof Hb as [B1 B2 B3 B4 B5 B6 B7 Bm B8 B9 B10].
  destruct act; try done.
  1: set (f := fun g : ParameterSetMigration => g <| State := Completed |> <| EndTime := Some now |> <| Progress := 100 |>).
  2: set (f := fun g : ParameterSetMigration => g <| State := Failed |> <| EndTime := Some now |> <| ErrorReason := Some r |>).
  all: eapply (books_end m _ c a f _ Hl); try done; unfold perform, completeMigration, failMigration;
    (edestruct deactivate_rest as (o & Ho & Hk); rewrite Ho); cbn; rewrite ?u64_id by lia; first [done | lia | exact (history_len a m Bm) | exact Hk].
Qed.

(** One step of a goroutine. *)
Lemma run_thread_books now a m c : books m c -> safe_scripts m -> next m + c + 1 < 2 ^ 64 -> books (run_thread sha256 now a m) c.
Proof.
  intros Hb Hs Hn. unfold run_thread. destruct (threads m !! a) as [[|act rest]|] eqn:El; [done| |done].
  destruct (store m !! a) as [g|] eqn:Eg; [|done].
  destruct (b_scripts m c Hb a _ El) as [|Hw]; [done|]. destruct (ending act) eqn:He.
  - pose proof (ending_last act rest Hw He) as ->. replace (continue sha256 act [] g m) with (@nil action) by by destruct act.
    by apply perform_end_books.
  - rewrite <- (perform_threads now a act g m He). eapply books_continue.
    + rewrite perform_threads by done. exact El.
    + done.
    + by apply continue_ended.
    + eapply perform_books; eauto.
Qed.
Lemma run_thread_safe now a m : safe_scripts m -> safe_scripts (run_thread sha256 now a m).
Proof.
  intros Hs k l. unfold run_thread. destruct (threads m !! a) as [[|act rest]|] eqn:El; [apply Hs| |apply Hs].
  destruct (store m !! a) as [g|]; [|apply Hs]. cbn. destruct (decide (k = a)) as [->|Hka].
  - rewrite lookup_insert_eq. intros [= <-]. apply continue_states. by eapply Hs.
  - rewrite lookup_insert_ne by done. apply Hs.
Qed.
Lemma execute_ok : well_ended executeMigration = true /\ running_states executeMigration.
Proof. split; [done|]. repeat constructor. Qed.

Lemma start_books now s t st m c : books m c -> next m + c + 1 < 2 ^ 64 -> books (StartMigration sha256 now s t st m).1 c.
Proof.
  intros Hb Hn. pose proof (finished_bound m c Hb) as Hfin. unfold StartMigration.
  destruct (match activeMigration m with Some _ => _ | None => None end); [done|].
  destruct (ValidateVersion _ s _); [done|]. destruct (ValidateVersion _ t _); [done|].
  pose proof Hb as [B1 B2 [B3 B3'] B4 B5 B6 B7 Bm B8 B9 B10].
  assert (store m !! next m = None) as Hfresh by (apply eq_None_not_Some; intros [g Hg]; apply B2 in Hg; lia).
  assert (threads m !! next m = None) as Hfresh' by by apply B1.
  cbn [fst]. split; cbn.
  - intros k. destruct (decide (k = next m)) as [->|Hk]; [by rewrite !lookup_insert_eq|]. by rewrite !lookup_insert_ne by done.
  - intros k g Hg. destruct (decide (k = next m)) as [->|Hk]; [lia|]. rewrite lookup_insert_ne in Hg by done. apply B2 in Hg. lia.
  - rewrite u64_id, map_size_insert_None by (done || lia). lia.
  - intros k l Hl. destruct (decide (k = next m)) as [->|Hk].
    + rewrite lookup_insert_eq in Hl. injection Hl as <-. by right.
    + rewrite lookup_insert_ne in Hl by done. by eapply B4.
  - unfold finished in *. cbn. rewrite map_filter_insert_False by done. rewrite delete_id by done. lia.
  - done.
  - done.
  - done.
  - intros k [= <-]. exists executeMigration. by rewrite lookup_insert_eq.
  - intros k g Hg Ht. destruct (decide (k = next m)) as [->|Hk]; [rewrite lookup_insert_eq in Ht; discriminate|].
    rewrite lookup_insert_ne in Hg by done. rewrite lookup_insert_ne in Ht by done. by eapply B9.
  - intros Hc k g l Hg Ht Hl. destruct (decide (k = next m)) as [->|Hk]; [rewrite lookup_insert_eq in Hg; by injection Hg as <-|].
    rewrite lookup_insert_ne in Hg by done. rewrite lookup_insert_ne in Ht by done. by eapply B10.
Qed.
Lemma start_safe now s t st m : safe_scripts m -> safe_scripts (StartMigration sha256 now s t st m).1.
Proof.
  intros Hs. unfold StartMigration. destruct (match activeMigration m with Some _ => _ | None => None end); [done|].
  destruct (ValidateVersion _ s _); [done|]. destruct (ValidateVersion _ t _); [done|]. intros k l. cbn.
  destruct (decide (k = next m)) as [->|Hk]; [rewrite lookup_insert_eq; intros [= <-]; apply execute_ok|]. rewrite lookup_insert_ne by done. apply Hs.
Qed.

Lemma cancel_books now r m c : books m c -> next m + c + 1 < 2 ^ 64 ->
  match CancelMigration now r m with (m', Val _) => books m' (c + 1) | (m', Err _) => books m' c end.
Proof.
  intros Hb Hn. pose proof (finished_bound m c Hb) as Hfin. unfold CancelMigration. destruct (activeMigration m) as [a|] eqn:Ea; [|done].
  destruct (store m !! a) as [g|] eqn:Eg; [|done]. destruct (negb _ && negb _); [done|].
  pose proof Hb as [B1 B2 B3 B4 B5 B6 B7 Bm B8 B9 B10]. split; cbn.
  - intros k. by rewrite lookup_alter_None.
  - intros k g' Hg. destruct (decide (k = a)) as [->|Hk]; [by eapply B2|]. rewrite lookup_alter_ne in Hg by done. by eapply B2.
  - by rewrite size_alter.
  - done.
  - rewrite u64_id by lia. unfold finished in *. cbn. lia.
  - rewrite u64_id by lia. lia.
  - etransitivity; [exact (history_len a m Bm)|]. rewrite u64_id, B7 by lia. lia.
  - done.
  - done.
  - intros k g' Hg Ht. destruct (decide (k = a)) as [->|Hk].
    + rewrite lookup_alter_eq in Hg. apply fmap_Some in Hg as (g0 & _ & ->). done.
    + rewrite lookup_alter_ne in Hg by done. by eapply B9.
  - lia.
Qed.
Lemma cancel_threads now r m : threads (CancelMigration now r m).1 = threads m /\ next (CancelMigration now r m).1 = next m.
Proof.
  unfold CancelMigration. destruct (activeMigration m) as [a|]; [|done]. destruct (store m !! a) as [g|]; [|done]. by destruct (negb _ && negb _).
Qed.

(** Every critical section. *)
Lemma step_books l m c : books m c -> safe_scripts m -> next m + c + 1 < 2 ^ 64 ->
  let '(m', d) := step sha256 l m in
  let c' := (if d then 1 else 0) + c in books m' c' /\ safe_scripts m' /\ next m' + c' <= next m + c + 1.
Proof.
  intros Hb Hs Hn. destruct l as [now s t st|now r|now a|vm v]; cbn [step].
  - split; [by apply start_books|]. split; [by apply start_safe|].
    unfold StartMigration. destruct (match activeMigration m with Some _ => _ | None => None end); [cbn; lia|].
    destruct (ValidateVersion _ s _); [cbn; lia|]. destruct (ValidateVersion _ t _); cbn; lia.
  - pose proof (cancel_books now r m c Hb Hn) as H. pose proof (cancel_threads now r m) as [H1 H2].
    destruct (CancelMigration now r m) as [m' [u|e]]; cbn in *; unfold safe_scripts; rewrite H1, H2; (split_and!; [|done|lia]);
      by rewrite ?(Z.add_comm 1 c).
  - split; [by apply run_thread_books|]. split; [by apply run_thread_safe|]. cbn [Z.add].
    unfold run_thread. destruct (threads m !! a) as [[|act rest]|]; [lia| |lia]. destruct (store m !! a); [|lia]. cbn.
    destruct act; cbn; try lia; unfold completeMigration, failMigration;
      (edestruct deactivate_rest as (o & Ho & _); rewrite Ho); cbn; lia.
  - cbn [Z.add]. split; [by destruct Hb|]. split; [done|]. cbn. lia.
Qed.
Lemma interleaved_books ls m c : books m c -> safe_scripts m -> next m + c + len ls < 2 ^ 64 ->
  let '(m', n) := run sha256 ls m in books m' (n + c) /\ safe_scripts m' /\ next m' + (n + c) <= next m + c + len ls.
Proof.
  revert m c. induction ls as [|l ls IH]; intros m c Hb Hs Hn; cbn [run]; [split_and!; [done|done|change (len (@nil label)) with 0; lia]|].
  rewrite len_cons in *. pose proof (len_nonneg ls). pose proof (step_books l m c Hb Hs ltac:(lia)) as H1.
  destruct (step sha256 l m) as [m1 d]. destruct H1 as (H1 & H2 & H3). specialize (IH m1 _ H1 H2 ltac:(lia)).
  destruct (run sha256 ls m1) as [m2 n]. replace ((if d then 1 else 0) + n + c) with (n + ((if d then 1 else 0) + c)) by lia.
  destruct IH as (IH1 & IH2 & IH3). split_and!; [done|done|lia].
Qed.

(** *** The history *)

(** The migrations that end at a step: the one that is cancelled, the one whose
    goroutine returns; and those of a run, in order. *)
Definition ended_by (l : label) m : list Z :=
  match l with
  | LCancel _ _ => if (step sha256 l m).2 then option_list (activeMigration m) else []
  | LRun _ a => match threads m !! a, threads (step sha256 l m).1 !! a with Some (_ :: _), Some [] => [a] | _, _ => [] end
  | _ => []
  end.
Fixpoint ends (ls : list label) m : list Z :=
  match ls with [] => [] | l :: ls => ended_by l m ++ ends ls (step sha256 l m).1 end.
Definition last_hundred (l : list Z) : list Z := dropZ (len l - 100) l.

Lemma last_hundred_app l k : last_hundred (last_hundred l ++ k) = last_hundred (l ++ k).
Proof.
  unfold last_hundred, dropZ, len. rewrite !length_app, !length_drop, !drop_app, drop_drop, !length_drop. f_equal; f_equal; lia.
Qed.
Lemma history_added a m : maxHistorySize m = 100 -> migrationHistory (addToHistory a m) = last_hundred (migrationHistory m ++ [a]).
Proof.
  intros H. unfold addToHistory, last_hundred. cbn. rewrite H. set (h := migrationHistory m ++ [a]).
  destruct (Z.ltb_spec 100 (len h)); [done|]. unfold dropZ. replace (Z.to_nat (len h - 100)) with 0%nat by lia. done.
Qed.
Lemma short_history m c : books m c -> last_hundred (migrationHistory m) = migrationHistory m.
Proof.
  intros Hb. pose proof (b_history m c Hb) as H. rewrite (b_max m c Hb) in H. unfold last_hundred, dropZ.
  by replace (Z.to_nat (len (migrationHistory m) - 100)) with 0%nat by lia.
Qed.
Lemma step_history l m c : books m c -> safe_scripts m ->
  migrationHistory (step sha256 l m).1 = last_hundred (migrationHistory m ++ ended_by l m).
Proof.
  intros Hb Hs. pose proof (short_history m c Hb) as Hshort. pose proof (b_max m c Hb) as Hmax.
  destruct l as [now s t st|now r|now a|vm v]; cbn [step ended_by].
  - rewrite app_nil_r, Hshort. unfold StartMigration. destruct (match activeMigration m with Some _ => _ | None => None end); [done|].
    destruct (ValidateVersion _ s _); [done|]. by destruct (ValidateVersion _ t _).
  - unfold CancelMigration. destruct (activeMigration m) as [a|]; [|by rewrite app_nil_r].
    destruct (store m !! a) as [g|]; [|by rewrite app_nil_r]. destruct (negb _ && negb _); [by rewrite app_nil_r|]. exact (history_added a m Hmax).
  - cbn [fst]. unfold run_thread. destruct (threads m !! a) as [[|act rest]|] eqn:El; [by rewrite app_nil_r| |by rewrite app_nil_r].
    destruct (store m !! a) as [g|] eqn:Eg; [|by rewrite El, app_nil_r]. cbn. rewrite lookup_insert_eq.
    destruct (b_scripts m c Hb a _ El) as [|Hw]; [done|]. destruct (ending act) eqn:He.
    + pose proof (ending_last act rest Hw He) as ->. replace (continue sha256 act [] g m) with (@nil action) by by destruct act.
      destruct act; try done; cbn [perform]; unfold completeMigration, failMigration; (edestruct deactivate_rest as (o & Ho & _); rewrite Ho); exact (history_added a m Hmax).
    + assert (well_ended (continue sha256 act rest g m) = true) as Hc by by apply continue_ended.
      destruct (continue sha256 act rest g m) as [|x y]; [done|]. rewrite app_nil_r, Hshort. by destruct act.
  - by rewrite app_nil_r.
Qed.
Lemma run_history ls m c : books m c -> safe_scripts m -> next m + c + len ls < 2 ^ 64 ->
  migrationHistory (run sha256 ls m).1 = last_hundred (migrationHistory m ++ ends ls m).
Proof.
  revert m c. induction ls as [|l ls IH]; intros m c Hb Hs Hn; cbn [run ends]; [by rewrite app_nil_r, (short_history m c)|].
  rewrite len_cons in Hn. pose proof (len_nonneg ls). pose proof (step_books l m c Hb Hs ltac:(lia)) as H1.
  pose proof (step_history l m c Hb Hs) as Hh. destruct (step sha256 l m) as [m1 d]. cbn [fst] in *. destruct H1 as (H1 & H2 & H3).
  specialize (IH m1 _ H1 H2 ltac:(lia)). destruct (run sha256 ls m1) as [m2 n]. cbn [fst] in *.
  by rewrite IH, Hh, last_hundred_app, app_assoc.
Qed.

(** What a step leaves of a goroutine. *)
Definition run_of (a : Z) (l : label) : nat := match l with LRun _ b => if decide (b = a) then 1 else 0 | _ => 0 end.
Definition runs_of (a : Z) (ls : list label) : nat := sum_list_with (run_of a) ls.
Lemma continue_distance act rest g m : (S (distance (continue sha256 act rest g m)) <= distance (act :: rest))%nat.
Proof.
  unfold continue. change (distance (act :: rest)) with (weight act + distance rest)%nat.
  assert (1 <= weight act)%nat as Hw by (destruct act; cbn; lia).
  destruct (check sha256 act g m) as [r|] eqn:E; [|destruct act; try lia].
  - change (distance [Fail_ r]) with 1%nat. destruct act; try discriminate E; cbn; lia.
  - pose proof (distance_execute (Strategy g)). cbn [weight]. lia.
Qed.
Lemma step_distance l m c a ll : books m c -> threads m !! a = Some ll ->
  exists ll', threads (step sha256 l m).1 !! a = Some ll' /\ (distance ll' <= distance ll - run_of a l)%nat.
Proof.
  intros Hb Hl. assert (is_Some (store m !! a)) as [g Hg].
  { apply not_eq_None_Some. intros E. apply (b_threads m c Hb) in E. congruence. }
  destruct l as [now s t st|now r|now b|vm v]; cbn [step].
  - exists ll. split; [|cbn; lia]. unfold StartMigration.
    destruct (match activeMigration m with Some _ => _ | None => None end); [done|].
    destruct (ValidateVersion _ s _); [done|]. destruct (ValidateVersion _ t _); [done|]. cbn.
    rewrite lookup_insert_ne; [done|]. intros E. apply (b_next m c Hb) in Hg. lia.
  - exists ll. split; [|cbn; lia]. pose proof (cancel_threads now r m) as [H _]. destruct (CancelMigration now r m). cbn in *. by rewrite H.
  - cbn [fst]. unfold run_thread. destruct (decide (b = a)) as [->|Hba].
    + cbn [run_of]. rewrite decide_True by done. rewrite Hl. destruct ll as [|act rest]; [exists []; split; [done|apply Nat.le_0_l]|].
      rewrite Hg. cbn -[distance]. rewrite lookup_insert_eq. eexists. split; [done|]. pose proof (continue_distance act rest g m). lia.
    + cbn [run_of]. rewrite decide_False by done. exists ll. split; [|lia].
      destruct (threads m !! b) as [[|act rest]|]; [done| |done]. destruct (store m !! b); [|done]. cbn. by rewrite lookup_insert_ne.
  - exists ll. split; [done|cbn; lia].
Qed.
Lemma run_distance ls m c a ll : books m c -> safe_scripts m -> next m + c + len ls < 2 ^ 64 -> threads m !! a = Some ll ->
  exists ll', threads (run sha256 ls m).1 !! a = Some ll' /\ (distance ll' <= distance ll - runs_of a ls)%nat.
Proof.
  revert m c ll. induction ls as [|l ls IH]; intros m c ll Hb Hs Hn Hl; cbn [run]; [exists ll; split; [done|cbn; lia]|].
  rewrite len_cons in Hn. pose proof (len_nonneg ls). pose proof (step_books l m c Hb Hs ltac:(lia)) as H1.
  destruct (step_distance l m c a ll Hb Hl) as (l1 & Hl1 & Hd1).
  destruct (step sha256 l m) as [m1 d]. destruct H1 as (H1 & H2 & H3). destruct (IH m1 _ l1 H1 H2 ltac:(lia) Hl1) as (l2 & Hl2 & Hd2).
  exists l2. destruct (run sha256 ls m1) as [m2 n]. split; [done|].
  change (runs_of a (l :: ls)) with (run_of a l + runs_of a ls)%nat. lia.
Qed.
Lemma distance_0 l : distance l = 0%nat -> l = [].
Proof. destruct l as [|act l]; [done|]. change (distance (act :: l)) with (weight act + distance l)%nat. destruct act; cbn; lia. Qed.

Lemma initial_books vm v : books (NewParameterSetMigrationManager vm v) 0 /\ safe_scripts (NewParameterSetMigrationManager vm v).
Proof.
  split; [|intros a l H; cbn in H; by rewrite lookup_empty in H].
  by split.
Qed.

(** C18: whatever starts, cancellations, goroutine steps and changes of the
    versions come in between, in any order: the manager counts every migration
    it started; its successes and failures are the goroutines that have ended
    and the cancellations, so a migration that was cancelled counts a second
    time when its goroutine ends; the history is exactly the last hundred of
    these, in the order in which they came;
    a migration whose goroutine has ended is completed or failed; as long as
    nothing was cancelled, it is completed or failed only then; and the active
    migration is one whose goroutine still runs. *)
Theorem migrations_accounted vm v ls m n : len ls + 1 < 2 ^ 64 ->
  run sha256 ls (NewParameterSetMigrationManager vm v) = (m, n) ->
  totalMigrations m = Z.of_nat (size (store m)) /\
  successfulMigrations m + failedMigrations m = finished m + n /\
  migrationHistory m = last_hundred (ends ls (NewParameterSetMigrationManager vm v)) /\
  len (migrationHistory m) = Z.min 100 (finished m + n) /\
  (forall a g, store m !! a = Some g -> threads m !! a = Some [] -> terminal (State g) = true) /\
  (n = 0 -> forall a g, store m !! a = Some g -> terminal (State g) = true -> threads m !! a = Some []) /\
  (forall a, activeMigration m = Some a -> exists act l, threads m !! a = Some (act :: l)).
Proof.
  intros Hl Hr. destruct (initial_books vm v) as [Hb Hs].
  pose proof (interleaved_books ls _ 0 Hb Hs) as H. cbn [next NewParameterSetMigrationManager] in H. specialize (H ltac:(lia)).
  pose proof (run_history ls _ 0 Hb Hs) as Hh. cbn [next migrationHistory NewParameterSetMigrationManager app] in Hh. specialize (Hh ltac:(lia)).
  rewrite Hr in H, Hh. destruct H as [[B1 B2 [B3 B3'] B4 B5 B6 B7 Bm B8 B9 B10] _].
  split_and!; [lia|lia|exact Hh|lia|done| |].
  - intros -> a g Hg Ht. destruct (threads m !! a) as [l|] eqn:El; [|apply B1 in El; congruence].
    destruct l as [|act l]; [done|]. rewrite (B10 eq_refl a g _ Hg El) in Ht by done. done.
  - intros a Ha. destruct (B8 a Ha) as ([|act l] & Hl' & Hne); [done|]. eauto.
Qed.

(** C19: a migration that is started ends: whatever else is done meanwhile -
    other migrations started, this one cancelled, the versions changed - once its
    goroutine has been scheduled for 27 steps it has returned, and the migration
    is completed or failed. *)
Theorem migration_ends vm v before after now s t st m n m1 a : len before + len after + 2 < 2 ^ 64 ->
  run sha256 before (NewParameterSetMigrationManager vm v) = (m, n) -> StartMigration sha256 now s t st m = (m1, Val a) ->
  (27 <= runs_of a after)%nat ->
  let '(m', _) := run sha256 after m1 in
  exists g, store m' !! a = Some g /\ threads m' !! a = Some [] /\ terminal (State g) = true.
Proof.
  intros Hl Hr Hst Ha. pose proof (len_nonneg before). pose proof (len_nonneg after). destruct (initial_books vm v) as [Hb Hs].
  pose proof (interleaved_books before _ 0 Hb Hs) as H1. cbn [next NewParameterSetMigrationManager] in H1. specialize (H1 ltac:(lia)).
  rewrite Hr, Z.add_0_r in H1. destruct H1 as (Hb1 & Hs1 & Hn).
  pose proof (step_books (LStart now s t st) m n Hb1 Hs1 ltac:(lia)) as H1. cbn [step] in H1. rewrite Hst in H1. cbn in H1.
  destruct H1 as (Hb2 & Hs2 & Hn2).
  assert (threads m1 !! a = Some executeMigration) as Ht.
  { unfold StartMigration in Hst. destruct (match activeMigration m with Some _ => _ | None => None end); [done|].
    destruct (ValidateVersion _ s _); [done|]. destruct (ValidateVersion _ t _); [done|]. injection Hst as <- <-. cbn. by rewrite lookup_insert_eq. }
  destruct (run_distance after m1 n a _ Hb2 Hs2 ltac:(lia) Ht) as (l' & Hl' & Hd).
  pose proof (interleaved_books after m1 n Hb2 Hs2 ltac:(lia)) as H1. destruct (run sha256 after m1) as [m' n']. destruct H1 as [Hb3 _].
  assert (l' = []) as -> by (apply distance_0; change (distance executeMigration) with 27%nat in Hd; lia).
  cbn in Hl'. assert (is_Some (store m' !! a)) as [g Hg].
  { apply not_eq_None_Some. intros E. apply (b_threads _ _ Hb3) in E. congruence. }
  exists g. split_and!; [done|done|]. by eapply b_states.
Qed.
End preserved.

(** Two versions of the same sets. *)
Definition two_versions : VersionManager :=
  let vm := (ParamVersions.CreateVersion id 1 ParamVersions.sample_sps ParamVersions.sample_pps 0 (ParamVersions.NewParameterSetVersionManager 5)).1 in
  (ParamVersions.CreateVersion id 2 ParamVersions.sample_sps ParamVersions.sample_pps 7 vm).1.
Definition sample_manager : ParameterSetMigrationManager := NewParameterSetMigrationManager two_versions None.
(** Cancelled while validating, then completed by its goroutine. *)
Definition sample_labels : list label := [LStart 10 1 2 Immediate; LRun 11 0; LCancel 12 "stop"] ++ replicate 12 (LRun 13 0).

(** The counters, the length of the history and the state of a migration. *)
Definition summary (m : ParameterSetMigrationManager) (a : Z) : list Z * bool * option (MigrationState * option fail_reason) :=
  (GetStatistics m, (fun g => (State g, ErrorReason g)) <$> store m !! a).
Example cancelled_then_completed :
  summary (run id sample_labels sample_manager).1 0 = ([1; 1; 1; 2], false, Some (Completed, Some (Cancelled "stop"))).
Proof. by vm_compute. Qed.
(** A second migration starts while the first is validating, and replaces it as
    the active one. *)
Example second_migration :
  let m := (run id [LStart 10 1 2 Gradual; LRun 11 0; LStart 12 1 2 Immediate] sample_manager).1 in
  (GetActiveMigration m, finished m, totalMigrations m) = (Some 1, 0, 2).
Proof. by vm_compute. Qed.
(** Backwards is refused by the goroutine, not by [StartMigration]. *)
Example backwards_fails :
  summary (run id (LStart 10 2 1 Immediate :: replicate 3 (LRun 11 0)) sample_manager).1 0 = ([1; 0; 1; 1], false, Some (Failed, Some TargetNotNewer)).
Proof. by vm_compute. Qed.

Lemma migrations_accounted_witness :
  exists m n, run id sample_labels sample_manager = (m, n) /\ n = 1 /\ finished m = 1 /\
    successfulMigrations m + failedMigrations m = finished m + n /\ len (migrationHistory m) = Z.min 100 (finished m + n).
Proof.
  destruct (run id sample_labels sample_manager) as [m n] eqn:E. exists m, n.
  pose proof (migrations_accounted id two_versions None sample_labels m n ltac:(by vm_compute) E) as (_ & H1 & _ & H2 & _).
  split_and!; [done| | |done|done].
  - change n with (m, n).2. rewrite <- E. by vm_compute.
  - change m with (m, n).1. rewrite <- E. by vm_compute.
Defined.

Lemma migration_ends_witness :
  let m1 := (StartMigration id 10 1 2 Gradual sample_manager).1 in
  let '(m', _) := run id (LCancel 11 "no" :: replicate 27 (LRun 12 0)) m1 in
  exists g, store m' !! 0 = Some g /\ threads m' !! 0 = Some [] /\ terminal (State g) = true.
Proof.
  intros m1.
  apply (migration_ends id two_versions None [] (LCancel 11 "no" :: replicate 27 (LRun 12 0)) 10 1 2 Gradual sample_manager 0 m1 0);
    [by vm_compute|done|unfold m1; by vm_compute|vm_compute; lia].
Defined.
