(* ===== verification/KeyFrames.v ===== *)
(** * Key frame detection (frame/idr_detector.go)

    Which frames a decoder can start at, the intervals between them and what
    they predict, and the points recovery may resume from.  The detectors of the
    single codecs, which the code stores and never asks, and the log calls are
    left out. *)

From Stdlib Require Import SpecFloat.
From stdpp Require Import strings sorting.
From S2P Require Import Prelude Returns Float64 Codec Frame.
From S2P Require BitReader.
Import BitReader(bits_of, bits_w, bits_value, ue_bits).

(** ** Exp-Golomb at a bit offset *)

Inductive golomb_error : Type := InsufficientData | TooManyZeros | InsufficientSuffix.

Definition getBit (data : list Z) (bitOffset : Z) : res Z :=
  byte ← idx data (Z.quot bitOffset 8);
  Ret (Z.land (Z.shiftr byte (7 - Z.rem bitOffset 8)) 1).

Fixpoint zeros_loop (fuel : nat) (data : list Z) (offset leadingZeros : Z) : res (Z * exn golomb_error Z) :=
  match fuel with
  | O => NoFuel
  | S fuel =>
      if len data <=? Z.quot offset 8 then Ret (offset, Err InsufficientData)
      else
        bit ← getBit data offset;
        if bit =? 0
        then if 32 <? leadingZeros + 1 then Ret (offset + 1, Err TooManyZeros) else zeros_loop fuel data (offset + 1) (leadingZeros + 1)
        else Ret (offset + 1, Val leadingZeros)
  end.

(** [for i := leadingZeros - 1; i >= 0; i-- { info |= uint32(bit) << i }] *)
Fixpoint suffix_loop (n : nat) (data : list Z) (offset info : Z) : res (Z * exn golomb_error Z) :=
  match n with
  | O => Ret (offset, Val (u32 (info - 1)))
  | S i =>
      if len data <=? Z.quot offset 8 then Ret (offset, Err InsufficientSuffix)
      else bit ← getBit data offset; suffix_loop i data (offset + 1) (Z.lor info (u32 (Z.shiftl bit (Z.of_nat i))))
  end.

(** The offset behind what was read, and the value. *)
Definition decodeExpGolomb (data : list Z) (offset : Z) : res (Z * exn golomb_error Z) :=
  '(offset, r) ← zeros_loop 34 data offset 0;
  match r with
  | Err e => Ret (offset, Err e)
  | Val leadingZeros => suffix_loop (Z.to_nat leadingZeros) data offset (u32 (Z.shiftl 1 leadingZeros))
  end.

Definition isIntraSlice (data : list Z) : res bool :=
  if len data =? 0 then Ret false
  else
    '(offset, r) ← decodeExpGolomb data 0;
    match r with
    | Err _ => Ret false
    | Val _ =>
        '(_, r) ← decodeExpGolomb data offset;
        Ret match r with Err _ => false | Val sliceType => (sliceType mod 5 =? 2) || (sliceType mod 5 =? 4) end
    end.

(** ** The detector *)

Record IDRDetector := mkIDR {
  codec : CodecType; lastKeyframe : Z; keyframeHistory : list Z; avgGOPSize : float64; firstKeyframeSeen : bool;
  suspectedCorruption : bool; missingReferences : Z
}.
#[export] Instance eta_IDR : Eta IDRDetector := fun d =>
  mkIDR (codec d) (lastKeyframe d) (keyframeHistory d) (avgGOPSize d) (firstKeyframeSeen d) (suspectedCorruption d) (missingReferences d).
Implicit Types (d : IDRDetector) (f : VideoFrame).

Definition NewIDRDetector (c : CodecType) : IDRDetector := mkIDR c 0 [] (f64_of_Z 0) false false 0.

Definition average (history : list Z) : float64 :=
  f64_div (f64_of_Z (fold_left (fun sum interval => u64 (sum + interval)) history 0)) (f64_of_Z (len history)).

Definition updateKeyframeStats (frameNumber : Z) d : IDRDetector :=
  let d :=
    if firstKeyframeSeen d then
      let interval := u64 (frameNumber - lastKeyframe d) in
      if 0 <? interval then
        let h := keyframeHistory d ++ [interval] in
        let h := if 100 <? len h then dropZ 1 h else h in
        d <| keyframeHistory := h |> <| avgGOPSize := average h |>
      else d
    else d <| firstKeyframeSeen := true |> in
  d <| lastKeyframe := frameNumber |> <| suspectedCorruption := false |> <| missingReferences := 0 |>.

Definition ReportCorruption d : IDRDetector := d <| suspectedCorruption := true |> <| missingReferences := i64 (missingReferences d + 1) |>.

Definition hasRecoveryPointSEI (data : list Z) : res bool :=
  if len data <? 2 then Ret false else payloadType ← idx data 0; Ret (payloadType =? 6).

(** What the units of an H.264 frame show. *)
Record h264_signs := mkSigns { hasIDR : bool; hasSPS : bool; hasPPS : bool; hasRecoveryPoint : bool }.
#[export] Instance eta_signs : Eta h264_signs := fun s => mkSigns (hasIDR s) (hasSPS s) (hasPPS s) (hasRecoveryPoint s).
Definition h264_sign (data : list Z) (s : h264_signs) : res h264_signs :=
  if len data =? 0 then Ret s
  else
    b ← idx data 0;
    let nalType := Z.land b 0x1F in
    payload ← slice data 1 (len data);
    if nalType =? 5 then Ret (s <| hasIDR := true |>)
    else if nalType =? 7 then Ret (s <| hasSPS := true |>)
    else if nalType =? 8 then Ret (s <| hasPPS := true |>)
    else if nalType =? 6 then r ← hasRecoveryPointSEI payload; Ret (if (r : bool) then s <| hasRecoveryPoint := true |> else s)
    else if nalType =? 1 then r ← isIntraSlice payload; Ret (if (r : bool) then s <| hasRecoveryPoint := true |> else s)
    else Ret s.
Fixpoint h264_scan (nals : list NALUnit) (s : h264_signs) : res h264_signs :=
  match nals with [] => Ret s | n :: nals => s ← h264_sign (nal_Data n) s; h264_scan nals s end.

Definition isH264IDR f d : res (IDRDetector * bool) :=
  s ← h264_scan (NALUnits f) (mkSigns false false false false);
  Ret (if hasIDR s || (hasRecoveryPoint s && hasSPS s && hasPPS s) then (updateKeyframeStats (FrameNumber f) d, true) else (d, false)).

(** [(nal.Data[0] >> 1) & 0x3F] *)
Definition hevc_unit (data : list Z) : res (option Z) :=
  if len data <? 2 then Ret None else b ← idx data 0; Ret (Some (Z.land (Z.shiftr b 1) 0x3F)).
Fixpoint hevc_scan (nals : list NALUnit) (irap : bool) : res bool :=
  match nals with
  | [] => Ret irap
  | n :: nals => t ← hevc_unit (nal_Data n); hevc_scan nals (match t with Some t => irap || ((16 <=? t) && (t <=? 21)) | None => irap end)
  end.
Definition isHEVCIDR f d : res (IDRDetector * bool) :=
  irap ← hevc_scan (NALUnits f) false;
  Ret (if (irap : bool) then (updateKeyframeStats (FrameNumber f) d, true) else (d, false)).

Definition isAV1KeyframeOBU (data : list Z) : res bool :=
  if len data <? 1 then Ret false
  else
    b ← idx data 0;
    if Z.land (Z.shiftr b 7) 1 =? 1 then Ret false else Ret (Z.land (Z.shiftr b 5) 3 =? 0).
Fixpoint av1_scan (nals : list NALUnit) : res bool :=
  match nals with
  | [] => Ret false
  | n :: nals =>
      let data := nal_Data n in
      if len data <? 2 then av1_scan nals
      else
        b ← idx data 0;
        if Z.land (Z.shiftr b 3) 0x0F =? 6
        then payload ← slice data 1 (len data); k ← isAV1KeyframeOBU payload; if (k : bool) then Ret true else av1_scan nals
        else av1_scan nals
  end.
Definition isAV1Keyframe f d : res (IDRDetector * bool) :=
  k ← av1_scan (NALUnits f); Ret (if (k : bool) then (updateKeyframeStats (FrameNumber f) d, true) else (d, false)).
Definition isJPEGXSKeyframe f d : res (IDRDetector * bool) := Ret (updateKeyframeStats (FrameNumber f) d, true).

(** [None] is a nil frame. *)
Definition IsIDRFrame (frame : option VideoFrame) d : res (IDRDetector * bool) :=
  match frame with
  | None => Ret (d, false)
  | Some f =>
      if len (NALUnits f) =? 0 then Ret (d, false)
      else if HasFlag FrameFlagKeyframe f then Ret (d, true)
      else match codec d with
           | CodecH264 => isH264IDR f d
           | CodecHEVC => isHEVCIDR f d
           | CodecAV1 => isAV1Keyframe f d
           | CodecJPEGXS => isJPEGXSKeyframe f d
           | _ => Ret (d, ft_eqb (FType f) FrameTypeI || ft_eqb (FType f) FrameTypeIDR)
           end
  end.

(** ** Predictions *)

(** [uint64(x)] of a number that is not negative; above the range the language
    leaves the result to the implementation, amd64 gives 0. *)
Definition f64_to_u64 (x : float64) : Z :=
  match x with
  | S754_finite false m e =>
      let v := if e <? 0 then Z.pos m / 2 ^ (- e) else Z.pos m * 2 ^ e in if v <? 2 ^ 64 then v else 0
  | _ => 0
  end.
Definition is_zero (x : float64) : bool := match x with S754_zero _ => true | _ => false end.

Definition GetKeyframeInterval d : float64 := avgGOPSize d.
Definition PredictNextKeyframe (currentFrame : Z) d : Z :=
  if is_zero (avgGOPSize d) then u64 (currentFrame + 30)
  else if f64_to_u64 (avgGOPSize d) <=? u64 (currentFrame - lastKeyframe d) then u64 (currentFrame + 1)
  else u64 (lastKeyframe d + f64_to_u64 (avgGOPSize d)).
Definition NeedsKeyframe (currentFrame : Z) (hasErrors : bool) d : bool :=
  if hasErrors || suspectedCorruption d then true
  else
    let maxGOPSize := f64_mul (avgGOPSize d) (f64_of_Z 2) in
    let maxGOPSize := if f64_ltb maxGOPSize (f64_of_Z 60) then f64_of_Z 60 else maxGOPSize in
    f64_to_u64 maxGOPSize <? u64 (currentFrame - lastKeyframe d).

Inductive RecoveryStrategy : Type :=
| RecoveryStrategyWaitForKeyframe | RecoveryStrategyRequestKeyframe | RecoveryStrategyFindRecoveryPoint | RecoveryStrategyReset.
Definition GetRecoveryStrategy d : RecoveryStrategy :=
  if is_zero (avgGOPSize d) then RecoveryStrategyWaitForKeyframe
  else if f64_ltb (avgGOPSize d) (f64_of_Z 30) then RecoveryStrategyWaitForKeyframe
  else if suspectedCorruption d && f64_ltb (f64_of_Z 60) (avgGOPSize d) then RecoveryStrategyRequestKeyframe
  else if 2 <? missingReferences d then RecoveryStrategyFindRecoveryPoint
  else RecoveryStrategyWaitForKeyframe.

Definition Clone d : IDRDetector := d <| suspectedCorruption := false |> <| missingReferences := 0 |>.

(** ** Recovery points *)

Record RecoveryPoint := mkPoint { p_FrameNumber : Z; p_PTS : Z; IsIDR : bool; p_HasSPS : bool; p_HasPPS : bool; Confidence : float64 }.
#[export] Instance eta_Point : Eta RecoveryPoint := fun p =>
  mkPoint (p_FrameNumber p) (p_PTS p) (IsIDR p) (p_HasSPS p) (p_HasPPS p) (Confidence p).

(** A unit that carries a parameter set raises the confidence. *)
Definition set_found (c : CodecType) (data : list Z) : res (option bool) :=
  if len data =? 0 then Ret None
  else
    match c with
    | CodecH264 =>
        b ← idx data 0;
        let t := Z.land b 0x1F in Ret (if t =? 7 then Some true else if t =? 8 then Some false else None)
    | CodecHEVC =>
        t ← hevc_unit data;
        Ret match t with Some t => if t =? 33 then Some true else if t =? 34 then Some false else None | None => None end
    | _ => Ret None
    end.
Fixpoint weigh (c : CodecType) (nals : list NALUnit) (p : RecoveryPoint) : res RecoveryPoint :=
  match nals with
  | [] => Ret p
  | n :: nals =>
      s ← set_found c (nal_Data n);
      weigh c nals match s with
                   | None => p
                   | Some sps =>
                       let p := if (sps : bool) then p <| p_HasSPS := true |> else p <| p_HasPPS := true |> in
                       p <| Confidence := f64_add (Confidence p) (f64_dec 15 2) |>
                   end
  end.

Fixpoint FindRecoveryPoints (frames : list (option VideoFrame)) d : res (IDRDetector * list RecoveryPoint) :=
  match frames with
  | [] => Ret (d, [])
  | None :: frames => FindRecoveryPoints frames d
  | Some f :: frames =>
      '(d, idr) ← IsIDRFrame (Some f) d;
      let point := mkPoint (FrameNumber f) (PTS f) false false false (f64_of_Z 0) in
      if (idr : bool) then
        '(d, points) ← FindRecoveryPoints frames d;
        Ret (d, point <| IsIDR := true |> <| Confidence := f64_of_Z 1 |> :: points)
      else
        let confidence := if ft_eqb (FType f) FrameTypeI then f64_add (f64_of_Z 0) (f64_dec 7 1) else f64_of_Z 0 in
        p ← weigh (codec d) (NALUnits f) (point <| Confidence := confidence |>);
        '(d, points) ← FindRecoveryPoints frames d;
        Ret (d, if f64_leb (f64_dec 7 1) (Confidence p) then p :: points else points)
  end.

(** ** The codes *)

(** The bits from an offset on. *)
Definition from (off : Z) (data : list Z) : list Z := dropZ off (bits_of data).

Lemma from_cons data off b rest : bytes data -> 0 <= off -> from off data = b :: rest ->
  Z.quot off 8 < len data /\ getBit data off = Ret b /\ from (off + 1) data = rest /\ (b = 0 \/ b = 1).
Proof.
  intros Hd Ho Hr. unfold from in *.
  assert (off < 8 * len data) as Hlt.
  { rewrite <- BitReader.len_bits_of. destruct (Z.ltb_spec off (len (bits_of data))) as [|Hge]; [done|].
    unfold dropZ in Hr. rewrite drop_ge in Hr; [done|]. unfold len in Hge. lia. }
  rewrite Z.quot_div_nonneg by lia. split; [mlia|].
  destruct (idx_Ret data (off / 8)) as (x & Ex & Hx); [mlia|].
  pose proof (BitReader.bits_of_lookup _ _ (Z.to_nat (off mod 8)) _ Hx ltac:(mlia)) as Hbit.
  replace (8 * Z.to_nat (off / 8) + Z.to_nat (off mod 8))%nat with (Z.to_nat off) in Hbit by mlia.
  rewrite (BitReader.dropZ_cons_lookup _ off _ Ho Hbit) in Hr. injection Hr as Hb Hr.
  unfold getBit. rewrite Z.quot_div_nonneg by lia. rewrite Ex, bind_Ret, Z.rem_mod_nonneg by lia.
  rewrite Z.shiftr_div_pow2, land_1 by mlia.
  replace (Z.of_nat (7 - Z.to_nat (off mod 8))) with (7 - off mod 8) in Hb by mlia. rewrite Hb.
  split; [done|]. split; [done|]. rewrite <- Hb. pose proof (Z.mod_pos_bound (x / 2 ^ (7 - off mod 8)) 2). lia.
Qed.
Lemma from_nil data off : 0 <= off -> from off data = [] -> len data <= Z.quot off 8.
Proof.
  intros Ho Hr. rewrite Z.quot_div_nonneg by lia. unfold from in Hr.
  assert (len (bits_of data) <= off); [|rewrite BitReader.len_bits_of in *; mlia].
  destruct (Z.leb_spec (len (bits_of data)) off) as [|Hlt]; [done|].
  pose proof (len_dropZ off (bits_of data) ltac:(lia)) as Hl. rewrite Hr in Hl. change (len (@nil Z)) with 0 in Hl. lia.
Qed.

Lemma suffix_spec n data off info l rest :
  bytes data -> 0 <= off -> from off data = l ++ rest -> length l = n -> (n <= 32)%nat -> 0 <= info < 2 ^ 32 -> info mod 2 ^ Z.of_nat n = 0 ->
  suffix_loop n data off info = Ret (off + Z.of_nat n, Val (u32 (info + bits_value l - 1))) /\ from (off + Z.of_nat n) data = rest.
Proof.
  intros Hd. revert off info l. induction n as [|n IH]; intros off info l Ho Hr Hl Hn Hi Hm.
  { destruct l; [|done]. cbn. split; [do 3 f_equal; f_equal; lia|]. rewrite Z.add_0_r. exact Hr. }
  destruct l as [|b l]; [done|]. injection Hl as Hl. destruct (from_cons data off b (l ++ rest) Hd Ho Hr) as (Hlt & Hg & Hr' & Hb).
  cbn [suffix_loop]. rewrite (proj2 (Z.leb_gt _ _)), Hg, bind_Ret by lia.
  rewrite Nat2Z.inj_succ, Z.pow_succ_r in Hm by lia. pose proof (Z.pow_pos_nonneg 2 (Z.of_nat n) ltac:(lia) ltac:(lia)) as Hp.
  assert (2 ^ Z.of_nat n <= 2 ^ 31) as Hp' by (apply Z.pow_le_mono_r; lia).
  assert (u32 (Z.shiftl b (Z.of_nat n)) = b * 2 ^ Z.of_nat n) as ->.
  { rewrite Z.shiftl_mul_pow2 by lia. apply u32_id. pow_consts. destruct Hb; subst; lia. }
  assert (Z.lor info (b * 2 ^ Z.of_nat n) = info + b * 2 ^ Z.of_nat n) as ->.
  { apply Z.mod_divide in Hm as [q ->]; [|lia]. assert (q * (2 * 2 ^ Z.of_nat n) = Z.shiftl q (Z.of_nat n + 1)) as ->
      by (rewrite Z.shiftl_mul_pow2, Z.pow_add_r by lia; lia).
    rewrite lor_shl_join; [by rewrite Z.shiftl_mul_pow2, Z.add_comm by lia|lia|].
    rewrite Z.pow_add_r by lia. destruct Hb; subst; lia. }
  apply Z.mod_divide in Hm as [q Hq]; [|lia]. pow_consts.
  assert (info + 2 * 2 ^ Z.of_nat n <= 4294967296) as Hbound.
  { assert (2 ^ 32 = 2 ^ (31 - Z.of_nat n) * (2 * 2 ^ Z.of_nat n)) as H32.
    { rewrite <- Z.pow_succ_r, <- Z.pow_add_r by lia. f_equal. lia. }
    pow_consts. assert (q < 2 ^ (31 - Z.of_nat n)) by nia. nia. }
  destruct (IH (off + 1) (info + b * 2 ^ Z.of_nat n) l) as [-> Hf]; try done; try lia.
  - apply Z.mod_divide; [lia|]. exists (2 * q + b). rewrite Hq. lia.
  - split; [|rewrite <- Hf; f_equal; lia]. cbn [bits_value]. replace (len l) with (Z.of_nat n) by (unfold len; lia).
    do 2 f_equal; [lia|]. do 2 f_equal. lia.
Qed.
Lemma suffix_short n data off info :
  bytes data -> 0 <= off -> len (from off data) < Z.of_nat n ->
  exists off', suffix_loop n data off info = Ret (off', Err InsufficientSuffix) /\ 0 <= off'.
Proof.
  intros Hd. revert off info. induction n as [|n IH]; intros off info Ho Hl; [pose proof (len_nonneg (from off data)); lia|].
  cbn [suffix_loop]. destruct (from off data) as [|b rest] eqn:Hr.
  - pose proof (from_nil data off Ho Hr). rewrite (proj2 (Z.leb_le _ _)) by lia. eauto.
  - destruct (from_cons data off b rest Hd Ho Hr) as (Hlt & Hg & Hr' & Hb). rewrite (proj2 (Z.leb_gt _ _)), Hg, bind_Ret by lia.
    apply IH; [lia|]. rewrite Hr'. rewrite len_cons in Hl. lia.
Qed.

Lemma zeros_spec fuel k data off lz rest :
  bytes data -> 0 <= off -> from off data = replicate k 0 ++ 1 :: rest -> lz + Z.of_nat k <= 32 -> (k < fuel)%nat ->
  zeros_loop fuel data off lz = Ret (off + Z.of_nat k + 1, Val (lz + Z.of_nat k)) /\ from (off + Z.of_nat k + 1) data = rest.
Proof.
  intros Hd. revert k off lz. induction fuel as [|fuel IH]; intros k off lz Ho Hr Hlz Hf; [lia|]. cbn [zeros_loop]. destruct k as [|k].
  - destruct (from_cons data off 1 rest Hd Ho Hr) as (Hlt & Hg & Hr' & _). rewrite (proj2 (Z.leb_gt _ _)), Hg, bind_Ret by lia. cbn.
    rewrite !Z.add_0_r. done.
  - destruct (from_cons data off 0 _ Hd Ho Hr) as (Hlt & Hg & Hr' & _). rewrite (proj2 (Z.leb_gt _ _)), Hg, bind_Ret by lia. cbn [Z.eqb].
    rewrite (proj2 (Z.ltb_ge _ _)) by lia.
    destruct (IH k (off + 1) (lz + 1)) as [-> Hf']; [lia|done|lia|lia|].
    replace (off + 1 + Z.of_nat k + 1) with (off + Z.of_nat (S k) + 1) in * by lia. split; [|done]. do 2 f_equal. f_equal. lia.
Qed.
Lemma zeros_total fuel data off lz :
  bytes data -> 0 <= off -> 0 <= lz <= 32 -> 33 - lz < Z.of_nat fuel ->
  exists off' r, zeros_loop fuel data off lz = Ret (off', r) /\ 0 <= off' /\
    forall n, r = Val n -> lz <= n <= 32 /\ off' = off + (n - lz) + 1 /\ from off data = replicate (Z.to_nat (n - lz)) 0 ++ 1 :: from off' data.
Proof.
  intros Hd. revert off lz. induction fuel as [|fuel IH]; intros off lz Ho Hlz Hf; [lia|]. cbn [zeros_loop].
  destruct (from off data) as [|b rest] eqn:Hr.
  { pose proof (from_nil data off Ho Hr). rewrite (proj2 (Z.leb_le _ _)) by lia. by eexists _, _. }
  destruct (from_cons data off b rest Hd Ho Hr) as (Hlt & Hg & Hr' & Hb). rewrite (proj2 (Z.leb_gt _ _)), Hg, bind_Ret by lia.
  destruct Hb as [-> | ->]; cbn [Z.eqb].
  - destruct (Z.ltb_spec 32 (lz + 1)); [eexists _, _; split; [done|]; split; [lia|done]|].
    destruct (IH (off + 1) (lz + 1)) as (off' & r & -> & Ho' & H1); [lia|lia|lia|]. exists off', r. split; [done|]. split; [done|].
    intros n Hn. destruct (H1 n Hn) as (H2 & H3 & H4). split; [lia|]. split; [lia|]. rewrite <- Hr', H4.
    by replace (Z.to_nat (n - lz)) with (S (Z.to_nat (n - (lz + 1)))) by lia.
  - eexists _, _. split; [done|]. split; [lia|]. intros n [= <-]. rewrite Z.sub_diag, Hr'. split; [lia|]. split; [lia|done].
Qed.

Lemma log2_33 v : 0 <= v < 2 ^ 33 - 1 -> let k := Z.log2 (v + 1) in 0 <= k <= 32 /\ 2 ^ k <= v + 1 < 2 * 2 ^ k.
Proof.
  intros Hv k. pose proof (Z.log2_nonneg (v + 1)). pose proof (Z.log2_spec (v + 1) ltac:(lia)) as Hs.
  fold k in H, Hs. rewrite Z.pow_succ_r in Hs by done. split; [|done].
  split; [done|]. assert (k < 33); [|lia]. apply Z.log2_lt_pow2; lia.
Qed.
Lemma code_value k s : 0 <= k <= 32 -> 0 <= s < 2 ^ k -> u32 (u32 (Z.shiftl 1 k) + s - 1) = u32 (2 ^ k - 1 + s).
Proof.
  intros Hk Hs. rewrite Z.shiftl_1_l. unfold u32. replace (2 ^ k - 1 + s) with (2 ^ k + (s - 1)) by lia.
  replace (2 ^ k mod 2 ^ 32 + s - 1) with (2 ^ k mod 2 ^ 32 + (s - 1)) by lia. by rewrite Z.add_mod_idemp_l by (pow_consts; lia).
Qed.
Lemma one_bit_info k : 0 <= k <= 32 -> 0 <= u32 (Z.shiftl 1 k) < 2 ^ 32 /\ u32 (Z.shiftl 1 k) mod 2 ^ k = 0.
Proof.
  intros Hk. split; [apply u32_range|]. rewrite Z.shiftl_1_l. destruct (decide (k = 32)) as [->|Hne]; [by vm_compute|].
  assert (2 ^ k <= 2 ^ 31) by (apply Z.pow_le_mono_r; lia). pose proof (Z.pow_pos_nonneg 2 k).
  rewrite u32_id by (pow_consts; lia). apply Z.mod_same. lia.
Qed.

(** Thirty-two zeros are accepted, the value is then cut to 32 bits. *)
Lemma golomb_complete data off v rest :
  bytes data -> 0 <= off -> 0 <= v < 2 ^ 33 - 1 -> from off data = ue_bits v ++ rest ->
  exists off', decodeExpGolomb data off = Ret (off', Val (u32 v)) /\ 0 <= off' /\ from off' data = rest.
Proof.
  intros Hd Ho Hv Hr. pose proof (log2_33 v Hv) as (Hk & Hlo & Hhi). unfold ue_bits in Hr. set (k := Z.log2 (v + 1)) in *.
  rewrite <- app_assoc in Hr. cbn in Hr. unfold decodeExpGolomb.
  destruct (zeros_spec 34 (Z.to_nat k) data off 0 _ Hd Ho Hr ltac:(lia) ltac:(lia)) as [-> Hr1]. rewrite bind_Ret, Z.add_0_l.
  rewrite Z2Nat.id in * by lia. pose proof (one_bit_info k Hk) as [Hi Hm].
  destruct (suffix_spec (Z.to_nat k) data (off + k + 1) (u32 (Z.shiftl 1 k)) _ rest Hd ltac:(lia) Hr1) as [-> Hr2];
    [apply BitReader.length_bits_w|lia|done|by rewrite Z2Nat.id by lia|].
  eexists. split; [|split; [|exact Hr2]; lia]. rewrite BitReader.bits_value_w, Z2Nat.id by lia.
  pose proof (Z.mod_pos_bound (v + 1) (2 ^ k) ltac:(lia)). rewrite code_value by lia. do 3 f_equal. f_equal.
  assert ((v + 1) mod 2 ^ k = v + 1 - 2 ^ k) as ->; [|lia]. symmetry. apply Z.mod_unique with 1; lia.
Qed.
Lemma golomb_sound data off : bytes data -> 0 <= off ->
  exists off' r, decodeExpGolomb data off = Ret (off', r) /\ 0 <= off' /\
    forall x, r = Val x -> exists v, 0 <= v < 2 ^ 33 - 1 /\ x = u32 v /\ from off data = ue_bits v ++ from off' data.
Proof.
  intros Hd Ho. unfold decodeExpGolomb. destruct (zeros_total 34 data off 0 Hd Ho ltac:(lia) ltac:(lia)) as (o1 & r & -> & Ho1 & H1).
  rewrite bind_Ret. destruct r as [n|e]; [|by eexists _, _]. destruct (H1 n eq_refl) as (Hn & -> & Hr). rewrite Z.sub_0_r in *.
  pose proof (one_bit_info n ltac:(lia)) as [Hi Hm]. set (o1 := off + n + 1) in *.
  destruct (Z.lt_ge_cases (len (from o1 data)) n) as [Hlt|Hge].
  { destruct (suffix_short (Z.to_nat n) data o1 (u32 (Z.shiftl 1 n)) Hd ltac:(lia) ltac:(lia)) as (off' & -> & ?).
    by eexists _, _. }
  set (l := takeZ n (from o1 data)). assert (len l = n) as Hl by (apply len_takeZ; lia).
  destruct (suffix_spec (Z.to_nat n) data o1 (u32 (Z.shiftl 1 n)) l (dropZ n (from o1 data)) Hd ltac:(lia)) as [-> Hr2];
    [symmetry; apply takeZ_dropZ|unfold len in Hl; lia|lia|done|by rewrite Z2Nat.id by lia|].
  eexists _, _. split; [done|]. split; [lia|]. intros x [= <-].
  assert (Forall (fun b => b = 0 \/ b = 1) l) as Hrange by apply Forall_take, Forall_drop, BitReader.bits_of_range.
  pose proof (BitReader.bits_value_bound l Hrange) as Hb. rewrite Hl in Hb.
  exists (2 ^ n - 1 + bits_value l). assert (2 ^ n <= 2 ^ 32) by (apply Z.pow_le_mono_r; lia). pose proof (Z.pow_pos_nonneg 2 n).
  split; [pow_consts; lia|]. split; [apply code_value; lia|].
  assert (Z.log2 (2 ^ n - 1 + bits_value l + 1) = n) as Hlog by (apply Z.log2_unique; [lia|]; rewrite Z.pow_succ_r; lia).
  unfold ue_bits. rewrite Hlog, Hr, <- app_assoc. f_equal. cbn. f_equal.
  replace (Z.to_nat n) with (length l) at 1 by (unfold len in Hl; lia).
  rewrite BitReader.bits_w_value; [rewrite Hr2; symmetry; apply takeZ_dropZ|done|].
  rewrite Hl. symmetry. apply Z.mod_unique with 1; lia.
Qed.

(** ** What a key frame is *)

(** A slice header that begins with the address of the first macroblock and an
    intra slice type. *)
Definition intra (data : list Z) : Prop := exists first kind rest,
  0 <= first < 2 ^ 33 - 1 /\ 0 <= kind < 2 ^ 33 - 1 /\ bits_of data = ue_bits first ++ ue_bits kind ++ rest /\
  (u32 kind mod 5 = 2 \/ u32 kind mod 5 = 4).

Lemma isIntraSlice_spec data : bytes data -> exists b, isIntraSlice data = Ret b /\ (b = true <-> intra data).
Proof.
  intros Hd. unfold isIntraSlice. destruct (Z.eqb_spec (len data) 0) as [Hl|Hl].
  { exists false. split; [done|]. split; [done|]. intros (first & kind & rest & _ & _ & Hb & _). destruct data; [|rewrite len_cons in Hl; pose proof (len_nonneg data); lia].
    change (bits_of []) with (@nil Z) in Hb. symmetry in Hb. apply app_eq_nil in Hb as [Hb _]. unfold ue_bits in Hb. by destruct (Z.to_nat _). }
  clear Hl. assert (Hex : intra data -> exists o1 o2 v, decodeExpGolomb data 0 = Ret (o1, v) /\ (exists x, v = Val x) /\
    exists x, decodeExpGolomb data o1 = Ret (o2, Val x) /\ (x mod 5 = 2 \/ x mod 5 = 4)).
  { intros (first & kind & rest & H1 & H2 & Hb & Hm).
    destruct (golomb_complete data 0 first (ue_bits kind ++ rest) Hd ltac:(lia) H1) as (o1 & E1 & Ho1 & Hr1); [exact Hb|].
    destruct (golomb_complete data o1 kind rest Hd Ho1 H2 Hr1) as (o2 & E2 & _). eauto 10. }
  destruct (golomb_sound data 0 Hd ltac:(lia)) as (o1 & r1 & E1 & Ho1 & H1). rewrite E1, bind_Ret. destruct r1 as [x1|e1].
  2: { exists false. split; [done|]. split; [done|]. intros Hi. destruct (Hex Hi) as (? & ? & ? & E & (? & ->) & _). congruence. }
  destruct (golomb_sound data o1 Hd Ho1) as (o2 & r2 & E2 & Ho2 & H2). rewrite E2, bind_Ret. eexists. split; [done|]. split.
  - destruct r2 as [x2|e2]; [|done]. intros Hm. apply orb_true_iff in Hm.
    destruct (H1 x1 eq_refl) as (first & Hf & _ & Hb1). destruct (H2 x2 eq_refl) as (kind & Hk & -> & Hb2).
    exists first, kind, (from o2 data). split; [done|]. split; [done|]. split; [rewrite <- Hb2; exact Hb1|].
    destruct Hm as [Hm|Hm]; apply Z.eqb_eq in Hm; auto.
  - intros Hi. destruct (Hex Hi) as (? & ? & ? & E & _ & x & E' & Hm). rewrite E1 in E. injection E as <- <-. rewrite E2 in E'. injection E' as -> ->.
    apply orb_true_iff. destruct Hm as [-> | ->]; auto.
Qed.

(** What single units show. *)
Definition h264_type (t : Z) (data : list Z) : Prop := exists b rest, data = b :: rest /\ Z.land b 0x1F = t.
Definition recovery_unit (data : list Z) : Prop :=
  (exists b c rest, data = b :: 6 :: c :: rest /\ Z.land b 0x1F = 6) \/
  (exists b rest, data = b :: rest /\ Z.land b 0x1F = 1 /\ intra rest).
Definition irap_unit (data : list Z) : Prop := exists b c rest, data = b :: c :: rest /\ 16 <= Z.land (Z.shiftr b 1) 0x3F <= 21.
(** An AV1 unit by its syntax (AV1 5.3): the header byte with the type and the
    flags of the extension and the size, the extension, the size in LEB128, the
    payload. *)
Definition obu_type (b : Z) : Z := Z.land (Z.shiftr b 3) 0x0F.
Fixpoint behind_size (l : list Z) : list Z := match l with [] => [] | x :: l => if x <? 128 then l else behind_size l end.
Definition obu_payload (data : list Z) : list Z :=
  match data with
  | [] => []
  | b :: l =>
      let l := if Z.testbit b 2 then drop 1 l else l in
      if Z.testbit b 1 then behind_size l else l
  end.
(** A frame, or the header of one, that begins with show_existing_frame 0 and
    the frame type of a key frame, 0 (5.9.2; not a reduced still picture, which
    codes neither). *)
Definition av1_key_unit (data : list Z) : Prop :=
  exists b l c rest, data = b :: l /\ (obu_type b = 3 \/ obu_type b = 6) /\ obu_payload data = c :: rest /\ c < 32.
(** The units the detector understands: without extension and size, as RTP
    carries them, and no header of a frame that comes without it. *)
Definition plain_obu (data : list Z) : Prop :=
  match data with [] => True | b :: _ => Z.testbit b 2 = false /\ Z.testbit b 1 = false /\ obu_type b <> 3 end.

Definition some_unit (P : list Z -> Prop) f : Prop := exists n, n ∈ NALUnits f /\ P (nal_Data n).
Definition key_frame (c : CodecType) f : Prop :=
  NALUnits f <> [] /\
  (HasFlag FrameFlagKeyframe f = true \/
   match c with
   | CodecH264 => some_unit (h264_type 5) f \/ (some_unit recovery_unit f /\ some_unit (h264_type 7) f /\ some_unit (h264_type 8) f)
   | CodecHEVC => some_unit irap_unit f
   | CodecAV1 => some_unit av1_key_unit f
   | CodecJPEGXS => True
   | _ => FType f = FrameTypeI \/ FType f = FrameTypeIDR
   end).
(** The frames whose detection enters the statistics. *)
Definition counted (c : CodecType) f : bool :=
  negb (HasFlag FrameFlagKeyframe f) && match c with CodecH264 | CodecHEVC | CodecAV1 | CodecJPEGXS => true | _ => false end.

Definition readable (c : CodecType) f : Prop := c = CodecAV1 -> Forall (fun n => plain_obu (nal_Data n)) (NALUnits f).

Definition whole (f : VideoFrame) : Prop := Forall (fun n => bytes (nal_Data n)) (NALUnits f).

Lemma slice_rest {A} (b : A) l : slice (b :: l) 1 (len (b :: l)) = Ret l.
Proof. exact (slice_tail [b] l 1 eq_refl). Qed.
Lemma type_nil t : ~ h264_type t [].
Proof. by intros (b & rest & E & _). Qed.
Lemma type_cons t b l : h264_type t (b :: l) <-> Z.land b 0x1F = t.
Proof. split; [by intros (? & ? & [= <- <-] & ?)|intros ?; by exists b, l]. Qed.
Lemma recovery_cons b l : recovery_unit (b :: l) <->
  (Z.land b 0x1F = 6 /\ exists c rest, l = 6 :: c :: rest) \/ (Z.land b 0x1F = 1 /\ intra l).
Proof.
  split.
  - intros [(? & c & rest & [= -> ->] & ?)|(? & ? & [= -> ->] & ? & ?)]; [left|by right]. split; [done|]. by exists c, rest.
  - intros [(? & c & rest & ->)|[? ?]]; [left; by exists b, c, rest|right; by exists b, l].
Qed.
Lemma sei_spec l : exists r, hasRecoveryPointSEI l = Ret r /\ (r = true <-> exists c rest, l = 6 :: c :: rest).
Proof.
  unfold hasRecoveryPointSEI. destruct l as [|a [|c l]]; [eexists; split; [done|]; by split; [|intros (? & ? & ?)]..|].
  assert (len (a :: c :: l) <? 2 = false) as -> by (apply Z.ltb_ge; rewrite !len_cons; pose proof (len_nonneg l); lia).
  cbn. eexists. split; [done|]. rewrite Z.eqb_eq. split; [intros ->; eauto|]. by intros (? & ? & [= -> _ _]).
Qed.

Lemma h264_sign_spec data s : bytes data -> exists s', h264_sign data s = Ret s' /\
  (hasIDR s' = true <-> hasIDR s = true \/ h264_type 5 data) /\ (hasSPS s' = true <-> hasSPS s = true \/ h264_type 7 data) /\
  (hasPPS s' = true <-> hasPPS s = true \/ h264_type 8 data) /\
  (hasRecoveryPoint s' = true <-> hasRecoveryPoint s = true \/ recovery_unit data).
Proof.
  intros Hd. unfold h264_sign. destruct data as [|b l].
  { exists s. split; [done|]. pose proof type_nil. assert (~ recovery_unit []) by (by intros [(? & ? & ? & ? & _)|(? & ? & ? & _)]). naive_solver. }
  assert (len (b :: l) =? 0 = false) as -> by (apply Z.eqb_neq; rewrite len_cons; pose proof (len_nonneg l); lia).
  change (idx (b :: l) 0) with (Ret b). rewrite bind_Ret, slice_rest, bind_Ret. setoid_rewrite type_cons. setoid_rewrite recovery_cons.
  apply Forall_cons in Hd as [_ Hd]. destruct (sei_spec l) as (r1 & E1 & H1). destruct (isIntraSlice_spec l Hd) as (r2 & E2 & H2).
  setoid_rewrite <- H1. setoid_rewrite <- H2. rewrite E1, E2. clear. generalize (Z.land b 0x1F). intros t.
  destruct (Z.eqb_spec t 5); [eexists; split; [done|]; cbn; split_and!; split; intros; intuition (done || lia)|].
  destruct (Z.eqb_spec t 7); [eexists; split; [done|]; cbn; split_and!; split; intros; intuition (done || lia)|].
  destruct (Z.eqb_spec t 8); [eexists; split; [done|]; cbn; split_and!; split; intros; intuition (done || lia)|].
  destruct (Z.eqb_spec t 6); [eexists; split; [done|]; destruct r1; cbn; split_and!; split; intros; intuition (done || lia)|].
  destruct (Z.eqb_spec t 1); [eexists; split; [done|]; destruct r2; cbn; split_and!; split; intros; intuition (done || lia)|].
  exists s. split; [done|]. split_and!; split; intros; intuition (done || lia).
Qed.
Lemma some_unit_cons (P : list Z -> Prop) n nals : (exists k, k ∈ n :: nals /\ P (nal_Data k)) <-> P (nal_Data n) \/ exists k, k ∈ nals /\ P (nal_Data k).
Proof.
  split; [intros (k & Hk & Hp); apply elem_of_cons in Hk as [->|Hk]; eauto|].
  intros [Hp|(k & Hk & Hp)]; [exists n|exists k]; split; try done; by constructor.
Qed.
Lemma h264_scan_spec nals s : Forall (fun n => bytes (nal_Data n)) nals -> exists s', h264_scan nals s = Ret s' /\
  (hasIDR s' = true <-> hasIDR s = true \/ exists n, n ∈ nals /\ h264_type 5 (nal_Data n)) /\
  (hasSPS s' = true <-> hasSPS s = true \/ exists n, n ∈ nals /\ h264_type 7 (nal_Data n)) /\
  (hasPPS s' = true <-> hasPPS s = true \/ exists n, n ∈ nals /\ h264_type 8 (nal_Data n)) /\
  (hasRecoveryPoint s' = true <-> hasRecoveryPoint s = true \/ exists n, n ∈ nals /\ recovery_unit (nal_Data n)).
Proof.
  intros Hn. revert s. induction Hn as [|n nals Hd _ IH]; intros s.
  { exists s. split; [done|]. assert (forall P : list Z -> Prop, ~ exists n : NALUnit, n ∈ [] /\ P (nal_Data n)) as Hno by (intros P (? & E & _); by apply elem_of_nil in E).
    split_and!; (split; [auto|intros [|E]; [done|by apply Hno in E]]). }
  cbn [h264_scan]. destruct (h264_sign_spec (nal_Data n) s Hd) as (s1 & -> & A1 & A2 & A3 & A4). rewrite bind_Ret.
  destruct (IH s1) as (s2 & -> & B1 & B2 & B3 & B4). exists s2. split; [done|].
  rewrite B1, B2, B3, B4, A1, A2, A3, A4, !some_unit_cons. split_and!; tauto.
Qed.

Lemma hevc_unit_spec data : exists o, hevc_unit data = Ret o /\
  (irap_unit data <-> exists t, o = Some t /\ 16 <= t <= 21).
Proof.
  unfold hevc_unit. destruct data as [|b [|c l]]; [eexists; split; [done|]; split; [by intros (? & ? & ? & ? & _)|by intros (? & ? & _)]..|].
  assert (len (b :: c :: l) <? 2 = false) as -> by (apply Z.ltb_ge; rewrite !len_cons; pose proof (len_nonneg l); lia).
  change (idx (b :: c :: l) 0) with (Ret b). rewrite bind_Ret. eexists. split; [done|]. split.
  - intros (? & ? & ? & [= <- <- <-] & H). eauto.
  - intros (? & [= <-] & H). by exists b, c, l.
Qed.
Lemma hevc_scan_spec nals irap : exists r, hevc_scan nals irap = Ret r /\
  (r = true <-> irap = true \/ exists n, n ∈ nals /\ irap_unit (nal_Data n)).
Proof.
  revert irap. induction nals as [|n nals IH]; intros irap.
  { exists irap. split; [done|]. split; [auto|]. intros [|(? & E & _)]; [done|by apply elem_of_nil in E]. }
  cbn [hevc_scan]. destruct (hevc_unit_spec (nal_Data n)) as (o & -> & Ho). rewrite bind_Ret.
  destruct (IH match o with Some t => irap || ((16 <=? t) && (t <=? 21)) | None => irap end) as (r & -> & Hr). exists r. split; [done|].
  rewrite Hr, some_unit_cons, Ho. destruct o as [t|].
  - rewrite orb_true_iff, andb_true_iff, !Z.leb_le. split; [naive_solver lia|]. intros [|[(? & [= <-] & ?)|]]; auto.
  - split; [tauto|]. intros [|[(? & ? & _)|]]; [auto|done|auto].
Qed.

Lemma byte_bits c : is_byte c -> (Z.land (Z.shiftr c 7) 1 =? 1 = false /\ Z.land (Z.shiftr c 5) 3 =? 0 = true) <-> c < 32.
Proof.
  intros Hc. unfold is_byte in Hc. rewrite land_1, !Z.shiftr_div_pow2 by lia. change 3 with (Z.ones 2). rewrite Z.land_ones by lia.
  rewrite Z.eqb_neq, Z.eqb_eq. change (2 ^ 7) with 128. change (2 ^ 5) with 32. change (2 ^ 2) with 4. mlia.
Qed.
Lemma plain_key b l : plain_obu (b :: l) ->
  (av1_key_unit (b :: l) <-> obu_type b = 6 /\ exists c rest, l = c :: rest /\ c < 32).
Proof.
  intros (E2 & E1 & H3). unfold av1_key_unit, obu_payload. split.
  - intros (? & ? & c & rest & [= <- <-] & Ht & Hp & Hc). rewrite E2, E1 in Hp. split; [by destruct Ht|eauto].
  - intros (Ht & c & rest & -> & Hc). exists b, (c :: rest), c, rest. rewrite E2, E1. auto.
Qed.
Lemma av1_scan_spec nals : Forall (fun n => bytes (nal_Data n)) nals -> exists r, av1_scan nals = Ret r /\
  (Forall (fun n => plain_obu (nal_Data n)) nals -> (r = true <-> exists n, n ∈ nals /\ av1_key_unit (nal_Data n))).
Proof.
  induction 1 as [|n nals Hd _ IH].
  { exists false. split; [done|]. split; [done|]. intros (? & E & _). by apply elem_of_nil in E. }
  destruct IH as (r & IH & Hr). cbn [av1_scan]. setoid_rewrite Forall_cons. setoid_rewrite some_unit_cons. rewrite IH.
  destruct (nal_Data n) as [|b [|c l]].
  { exists r. split; [done|]. intros [_ Hp]. rewrite (Hr Hp). split; [auto|]. intros [(? & ? & ? & ? & ? & _)|]; done. }
  { exists r. split; [done|]. intros [Hb Hp]. rewrite (Hr Hp), (plain_key _ _ Hb). split; [auto|]. intros [(_ & ? & ? & ? & _)|]; done. }
  assert (len (b :: c :: l) <? 2 = false) as -> by (apply Z.ltb_ge; rewrite !len_cons; pose proof (len_nonneg l); lia).
  change (idx (b :: c :: l) 0) with (Ret b). rewrite bind_Ret, slice_rest.
  apply Forall_cons in Hd as [_ Hd]. apply Forall_cons in Hd as [Hc _].
  assert (plain_obu (b :: c :: l) -> (av1_key_unit (b :: c :: l) <-> obu_type b = 6 /\ c < 32)) as Hk.
  { intros Hb. rewrite (plain_key _ _ Hb). split; [intros (? & ? & ? & [= <- <-] & ?); done|]. intros [? ?]. split; [done|]. by exists c, l. }
  rewrite <- (byte_bits c Hc) in Hk. unfold obu_type in Hk.
  destruct (Z.eqb_spec (Z.land (Z.shiftr b 3) 0x0F) 6) as [H6|H6].
  2: { exists r. split; [done|]. intros [Hb Hp]. rewrite (Hr Hp), (Hk Hb). tauto. }
  rewrite bind_Ret. unfold isAV1KeyframeOBU.
  assert (len (c :: l) <? 1 = false) as -> by (apply Z.ltb_ge; rewrite !len_cons; pose proof (len_nonneg l); lia).
  change (idx (c :: l) 0) with (Ret c). rewrite bind_Ret. destruct (_ =? 1).
  { exists r. split; [done|]. intros [Hb Hp]. rewrite (Hr Hp), (Hk Hb). naive_solver. }
  rewrite bind_Ret. destruct (_ =? 0); [exists true|exists r]; (split; [done|]); intros [Hb Hp]; rewrite ?(Hr Hp), (Hk Hb); naive_solver.
Qed.

Lemma detection_spec f d : whole f ->
  exists b, IsIDRFrame (Some f) d = Ret (if b && counted (codec d) f then updateKeyframeStats (FrameNumber f) d else d, b) /\
    (readable (codec d) f -> (b = true <-> key_frame (codec d) f)).
Proof.
  intros Hw. unfold IsIDRFrame, counted, key_frame, readable.
  destruct (NALUnits f) as [|n nals] eqn:En.
  { exists false. split; [done|]. intros _. split; [done|]. by intros []. }
  assert (len (n :: nals) =? 0 = false) as -> by (apply Z.eqb_neq; rewrite len_cons; pose proof (len_nonneg nals); lia).
  destruct (HasFlag FrameFlagKeyframe f); [exists true; split; [done|]; intros _; split; [|done]; by split; [|left]|].
  assert (n :: nals <> []) as Hne by done.
  destruct (codec d) eqn:Ec; cbn [negb andb];
    try (eexists; split; [rewrite andb_false_r; done|]; intros _; rewrite orb_true_iff, !ft_eqb_spec; naive_solver).
  - unfold isH264IDR. destruct (h264_scan_spec (NALUnits f) (mkSigns false false false false) Hw) as (s & -> & H1 & H2 & H3 & H4).
    rewrite bind_Ret. exists (hasIDR s || (hasRecoveryPoint s && hasSPS s && hasPPS s)). split; [by destruct (hasIDR s || _)|]. intros _.
    rewrite orb_true_iff, !andb_true_iff, H1, H2, H3, H4. cbn. unfold some_unit. naive_solver.
  - unfold isHEVCIDR. destruct (hevc_scan_spec (NALUnits f) false) as (r & -> & H). rewrite bind_Ret.
    exists r. split; [by destruct r|]. intros _. rewrite H. unfold some_unit. naive_solver.
  - unfold isAV1Keyframe. destruct (av1_scan_spec (NALUnits f) Hw) as (r & -> & H). rewrite bind_Ret.
    exists r. split; [by destruct r|]. intros Hp. specialize (Hp eq_refl). rewrite En in H. rewrite (H Hp). unfold some_unit. rewrite En. naive_solver.
  - exists true. split; [done|]. intros _. split; [|done]. intros _. split; [done|by right].
Qed.

(** C20: for every frame, whatever its bytes, the detection returns, and it
    enters the statistics exactly when it says yes, it was not the flag that said
    so, and the codec is one of the four below.  It says yes exactly for a frame with units that is flagged as a key
    frame or shows one of the signs it looks for: for H.264 an IDR slice, or both
    parameter sets with a recovery point (an SEI unit that begins with one) or a
    slice of an intra type; for HEVC a unit of a type from 16 to 21; for AV1 a
    frame whose header, by the syntax of AV1, codes a key frame; for JPEG XS any
    unit; for another codec the frame type I or IDR.  For AV1 only where no unit has an extension or a size field
    and no frame header comes in a unit of its own ([readable]); elsewhere it is
    wrong both ways, see [av1_size_is_header] and [av1_header_is_missed]. *)
Theorem key_frames_detected f d : whole f ->
  exists b, IsIDRFrame (Some f) d = Ret (if b && counted (codec d) f then updateKeyframeStats (FrameNumber f) d else d, b) /\
    (readable (codec d) f -> (b = true <-> key_frame (codec d) f)).
Proof. apply detection_spec. Qed.

(** ** The statistics of a stream *)

Fixpoint detect_all (fs : list VideoFrame) d : res (IDRDetector * list bool) :=
  match fs with
  | [] => Ret (d, [])
  | f :: fs => '(d, b) ← IsIDRFrame (Some f) d; '(d, bs) ← detect_all fs d; Ret (d, b :: bs)
  end.
(** The numbers of the frames that enter the statistics. *)
Definition keys (c : CodecType) (fs : list VideoFrame) (bs : list bool) : list Z :=
  omap (fun fb : VideoFrame * bool => if fb.2 && counted c fb.1 then Some (FrameNumber fb.1) else None) (zip fs bs).
Fixpoint diffs (l : list Z) : list Z :=
  match l with a :: (b :: _) as t => (b - a) :: diffs t | _ => [] end.
Definition last_hundred (l : list Z) : list Z := dropZ (len l - 100) l.
Definition sum (l : list Z) : Z := foldr Z.add 0 l.

Lemma diffs_snoc l a b : diffs (l ++ [a; b]) = diffs (l ++ [a]) ++ [b - a].
Proof. induction l as [|x l IH]; [done|]. destruct l as [|y l]; [done|]. cbn in *. by rewrite IH. Qed.
Lemma last_hundred_snoc l x :
  last_hundred (l ++ [x]) = let h := last_hundred l ++ [x] in if 100 <? len h then dropZ 1 h else h.
Proof.
  unfold last_hundred. cbn zeta. rewrite !len_app. change (len [x]) with 1. pose proof (len_nonneg l).
  destruct (Z.leb_spec (len l) 100) as [Hl|Hl].
  - rewrite (dropZ_0 _ l) by lia. destruct (Z.ltb_spec 100 (len l + 1)); [f_equal; lia|by rewrite dropZ_0 by lia].
  - rewrite len_dropZ by lia. replace (len l - (len l - 100) + 1) with 101 by lia. cbn [Z.ltb].
    rewrite <- dropZ_app_le by lia. rewrite dropZ_dropZ by lia. change (100 <? 101) with true. cbv iota. f_equal. lia.
Qed.
Lemma update_first k d : firstKeyframeSeen d = false ->
  updateKeyframeStats k d = mkIDR (codec d) k (keyframeHistory d) (avgGOPSize d) true false 0.
Proof. intros H. unfold updateKeyframeStats. by rewrite H. Qed.
Lemma update_next k d : firstKeyframeSeen d = true -> 0 <= lastKeyframe d < k -> k < 2 ^ 64 ->
  let h := keyframeHistory d ++ [k - lastKeyframe d] in let h := if 100 <? len h then dropZ 1 h else h in
  updateKeyframeStats k d = mkIDR (codec d) k h (average h) true false 0.
Proof. intros H Hk Hr. cbn zeta. unfold updateKeyframeStats. rewrite H, u64_id by lia. rewrite (proj2 (Z.ltb_lt 0 _)) by lia. destruct d. cbn in H. by subst. Qed.

Lemma average_exact l : Forall (fun x => 0 <= x) l -> sum l < 2 ^ 64 -> average l = f64_div (f64_of_Z (sum l)) (f64_of_Z (len l)).
Proof.
  intros Hl Hs. unfold average. do 2 f_equal.
  assert (forall acc, 0 <= acc -> acc + sum l < 2 ^ 64 -> fold_left (fun s interval => u64 (s + interval)) l acc = acc + sum l) as Hf.
  { clear Hs. induction Hl as [|x l Hx Hl IH]; intros acc Ha Hs; cbn in *; [lia|].
    assert (0 <= sum l) by (clear -Hl; unfold sum; induction Hl; cbn; lia). unfold sum in *. rewrite u64_id by lia. rewrite IH by lia. lia. }
  by rewrite Hf.
Qed.
Lemma sum_app l k : sum (l ++ k) = sum l + sum k.
Proof. unfold sum. induction l as [|x l IH]; [done|]. cbn. lia. Qed.

(** The detector behind a list of key frames with increasing numbers. *)
Record counts (c : CodecType) (ks : list Z) d : Prop := mkCounts {
  c_codec : codec d = c;
  c_seen : firstKeyframeSeen d = negb (len ks =? 0);
  c_last : lastKeyframe d = default 0 (last ks);
  c_history : keyframeHistory d = last_hundred (diffs ks);
  c_average : avgGOPSize d = if len (diffs ks) =? 0 then f64_of_Z 0 else average (last_hundred (diffs ks))
}.
Lemma counts_snoc c ks k d : counts c ks d -> Forall (fun x => 0 <= x < k) ks -> 0 <= k < 2 ^ 64 -> counts c (ks ++ [k]) (updateKeyframeStats k d).
Proof.
  intros [C1 C2 C3 C4 C5] Hk Hr.
  assert (forall (l : list Z) x, len (l ++ [x]) =? 0 = false) as Hne
    by (intros l x; apply Z.eqb_neq; rewrite len_app; change (len [x]) with 1; pose proof (len_nonneg l); lia).
  destruct ks as [|a ks _] using rev_ind; [rewrite update_first by done; split; [done|done|done|exact C4|exact C5]|].
  rewrite Hne in C2. rewrite last_snoc in C3. cbn in C3. apply Forall_app in Hk as [_ Hk]. apply Forall_cons in Hk as [Hk _].
  pose proof (last_hundred_snoc (diffs (ks ++ [a])) (k - a)) as Hs. rewrite <- C4, <- diffs_snoc in Hs.
  rewrite update_next, C3 by (done || lia). rewrite <- app_assoc. cbn [app].
  split; cbn [codec firstKeyframeSeen lastKeyframe keyframeHistory avgGOPSize]; [done| | |by symmetry|].
  - change [a; k] with ([a] ++ [k]). by rewrite app_assoc, Hne.
  - change [a; k] with ([a] ++ [k]). by rewrite app_assoc, last_snoc.
  - rewrite diffs_snoc, Hne, <- diffs_snoc, Hs. done.
Qed.

Lemma keys_cons c f fs b bs : keys c (f :: fs) (b :: bs) = (if b && counted c f then [FrameNumber f] else []) ++ keys c fs bs.
Proof. unfold keys. cbn. by destruct (b && counted c f). Qed.

Lemma detect_all_spec c ks fs d :
  counts c ks d -> Forall whole fs -> Forall (readable c) fs -> StronglySorted Z.lt (FrameNumber <$> fs) -> Forall (fun f => 0 <= FrameNumber f < 2 ^ 64) fs ->
  Forall (fun k => 0 <= k /\ Forall (fun f => k < FrameNumber f) fs) ks ->
  exists d' bs, detect_all fs d = Ret (d', bs) /\ Forall2 (fun f b => b = true <-> key_frame c f) fs bs /\ counts c (ks ++ keys c fs bs) d'.
Proof.
  revert ks d. induction fs as [|f fs IH]; intros ks d Hc Hw Hre Hs Hr Hk.
  { exists d, []. split; [done|]. split; [constructor|]. by rewrite app_nil_r. }
  apply Forall_cons in Hw as [Hf Hw]. apply Forall_cons in Hre as [Hre1 Hre]. apply Forall_cons in Hr as [Hrf Hr]. apply StronglySorted_inv in Hs as [Hs Hlt].
  cbn [detect_all]. destruct (detection_spec f d Hf) as (b & E & Hb). rewrite E, bind_Ret. rewrite (c_codec _ _ _ Hc) in *. specialize (Hb Hre1).
  assert (exists ks', ks' = (if b && counted c f then [FrameNumber f] else []) /\
    counts c (ks ++ ks') (if b && counted c f then updateKeyframeStats (FrameNumber f) d else d)) as (ks' & Eks & Hc').
  { eexists. split; [done|]. destruct (b && counted c f); [|by rewrite app_nil_r]. apply counts_snoc; [done| |done].
    eapply Forall_impl; [exact Hk|]. intros k [? H]. apply Forall_cons in H as [? _]. lia. }
  destruct (IH (ks ++ ks') _ Hc' Hw Hre Hs Hr) as (d' & bs & -> & H1 & H2).
  { apply Forall_app. split.
    - eapply Forall_impl; [exact Hk|]. intros k [? H]. by apply Forall_cons in H as [_ H].
    - rewrite Eks. destruct (b && counted c f); [|constructor]. constructor; [|constructor]. split; [lia|]. 
      apply Forall_forall. intros g Hg. rewrite Forall_forall in Hlt. apply Hlt, list_elem_of_fmap. by exists g. }
  rewrite bind_Ret. exists d', (b :: bs). split; [done|]. split; [by constructor|]. rewrite keys_cons, <- Eks, app_assoc. done.
Qed.

Lemma last_hundred_short l : len (last_hundred l) <= 100.
Proof. unfold last_hundred. pose proof (len_nonneg l). destruct (Z.leb_spec (len l) 100); [by rewrite dropZ_0 by lia|rewrite len_dropZ; lia]. Qed.

Lemma diffs_bound a l M : StronglySorted Z.lt (a :: l) -> Forall (fun x => x <= M) (a :: l) ->
  Forall (fun x => 0 <= x) (diffs (a :: l)) /\ sum (diffs (a :: l)) <= M - a.
Proof.
  revert a. induction l as [|b l IH]; intros a Hs Hm.
  { split; [constructor|]. apply Forall_cons in Hm as [Hm _]. cbn. lia. }
  apply StronglySorted_inv in Hs as [Hs Ha]. apply Forall_cons in Ha as [Ha _]. apply Forall_cons in Hm as [_ Hm].
  destruct (IH b Hs Hm) as [H1 H2]. change (diffs (a :: b :: l)) with ((b - a) :: diffs (b :: l)).
  split; [constructor; [lia|done]|]. change (sum (?x :: ?r)) with (x + sum r). lia.
Qed.
Lemma keys_sorted c fs bs : StronglySorted Z.lt (FrameNumber <$> fs) -> StronglySorted Z.lt (keys c fs bs) /\ forall k, k ∈ keys c fs bs -> k ∈ FrameNumber <$> fs.
Proof.
  revert bs. induction fs as [|f fs IH]; intros bs Hs; [split; [constructor|by intros k Hk]|].
  destruct bs as [|b bs]; [split; [constructor|intros k Hk; by apply elem_of_nil in Hk]|].
  apply StronglySorted_inv in Hs as [Hs Hf]. destruct (IH bs Hs) as [H1 H2]. rewrite keys_cons.
  destruct (b && counted c f); cbn [app].
  - split; [constructor; [done|]; apply Forall_forall; intros k Hk; rewrite Forall_forall in Hf; by apply Hf, H2|].
    intros k Hk. apply elem_of_cons in Hk as [->|Hk]; [by constructor|]. rewrite fmap_cons. constructor. by apply H2.
  - split; [done|]. intros k Hk. rewrite fmap_cons. constructor. by apply H2.
Qed.
Lemma sum_nonneg l : Forall (fun x => 0 <= x) l -> 0 <= sum l.
Proof. unfold sum. induction 1; cbn; lia. Qed.
Lemma history_exact ks : StronglySorted Z.lt ks -> Forall (fun k => 0 <= k < 2 ^ 64) ks ->
  Forall (fun x => 0 <= x) (last_hundred (diffs ks)) /\ sum (last_hundred (diffs ks)) < 2 ^ 64.
Proof.
  intros Hs Hr. destruct ks as [|a l]; [split; [constructor|done]|].
  destruct (diffs_bound a l (2 ^ 64 - 1) Hs) as [H1 H2]; [eapply Forall_impl; [exact Hr|]; cbv beta; lia|].
  apply Forall_cons in Hr as [Ha _]. unfold last_hundred. set (n := len (diffs (a :: l)) - 100). set (ds := diffs (a :: l)) in *. clearbody ds n.
  split; [by apply Forall_drop|]. rewrite <- (takeZ_dropZ n ds), sum_app in H2.
  assert (0 <= sum (takeZ n ds)) by (apply sum_nonneg; by apply Forall_take). lia.
Qed.

(** over a stream of frames with increasing numbers (of AV1, ones the detector
    can read) the detector finds exactly the key frames, and its statistics are those of the key frames that
    carry no flag: the history is the last hundred distances between them, the
    last key frame the last of them and the average the mean of the history,
    computed without overflow. *)
Theorem keyframe_intervals c fs :
  Forall whole fs -> Forall (readable c) fs -> StronglySorted Z.lt (FrameNumber <$> fs) -> Forall (fun f => 0 <= FrameNumber f < 2 ^ 64) fs ->
  exists d bs, detect_all fs (NewIDRDetector c) = Ret (d, bs) /\ Forall2 (fun f b => b = true <-> key_frame c f) fs bs /\
    let ks := keys c fs bs in
    lastKeyframe d = default 0 (last ks) /\ keyframeHistory d = last_hundred (diffs ks) /\ len (keyframeHistory d) <= 100 /\
    GetKeyframeInterval d = (if len (diffs ks) =? 0 then f64_of_Z 0
                             else f64_div (f64_of_Z (sum (keyframeHistory d))) (f64_of_Z (len (keyframeHistory d)))).
Proof.
  intros Hw Hre Hs Hr. destruct (detect_all_spec c [] fs (NewIDRDetector c)) as (d & bs & E & Hb & [C1 C2 C3 C4 C5]); [by split|done|done|done|done|constructor|].
  exists d, bs. split; [done|]. split; [done|]. cbn [app] in *. cbn zeta. split; [done|]. split; [done|].
  split; [rewrite C4; apply last_hundred_short|]. unfold GetKeyframeInterval. rewrite C5. destruct (len (diffs (keys c fs bs)) =? 0); [done|].
  rewrite C4.
  destruct (keys_sorted c fs bs Hs) as [Hk Hin]. destruct (history_exact (keys c fs bs) Hk) as [H1 H2].
  { apply Forall_forall. intros k Hk'. apply Hin, list_elem_of_fmap in Hk' as (f & -> & Hf). rewrite Forall_forall in Hr. by apply Hr. }
  by apply average_exact.
Qed.


(** *** Examples *)

Definition nal (data : list Z) : NALUnit := mkNAL 0 data 0 0.
Definition sample (number : Z) (t : FrameType) (units : list (list Z)) : VideoFrame :=
  (frame_of number t number number 0) <| FrameNumber := number |> <| NALUnits := nal <$> units |>.
Definition idr (number : Z) : VideoFrame := sample number FrameTypeIDR [[0x65; 0x88]].
(** Slices of types P (5) and I (7) of the macroblock 0. *)
Definition slice_p (number : Z) : VideoFrame := sample number FrameTypeP [[0x41; 0x98]].
Definition open_gop (number : Z) : VideoFrame := sample number FrameTypeI [[0x67; 66; 0; 30]; [0x68; 0xCE]; [0x41; 0x88; 0x80]].

Lemma key_frames_detected_witness :
  exists b, IsIDRFrame (Some (open_gop 7)) (NewIDRDetector CodecH264) =
    Ret (if b && true then updateKeyframeStats 7 (NewIDRDetector CodecH264) else NewIDRDetector CodecH264, b) /\
    (b = true <-> key_frame CodecH264 (open_gop 7)).
Proof.
  destruct (key_frames_detected (open_gop 7) (NewIDRDetector CodecH264)) as (b & E & Hb); [unfold whole, is_byte; decide_goal|].
  exists b. split; [exact E|]. by apply Hb.
Defined.

Definition sample_stream : list VideoFrame := [slice_p 3; idr 5; slice_p 6; open_gop 35; slice_p 36; idr 65].
Lemma keyframe_intervals_witness :
  exists d bs, detect_all sample_stream (NewIDRDetector CodecH264) = Ret (d, bs) /\
    keyframeHistory d = last_hundred (diffs (keys CodecH264 sample_stream bs)) /\ keys CodecH264 sample_stream bs = [5; 35; 65].
Proof.
  destruct (keyframe_intervals CodecH264 sample_stream) as (d & bs & E & _ & _ & H & _).
  - unfold whole, is_byte. decide_goal.
  - by repeat constructor.
  - repeat constructor.
  - decide_goal.
  - exists d, bs. split; [done|]. split; [done|]. vm_compute in E. injection E as <- <-. by vm_compute.
Defined.

(** A frame whose flag says key frame, as the assembler sends them, never enters
    the statistics, and a suspicion of corruption stays. *)
Example flagged_not_counted :
  let d := ReportCorruption (NewIDRDetector CodecH264) in
  let fs := SetFlag FrameFlagKeyframe <$> [idr 5; idr 35; idr 65] in
  exists d', detect_all fs d = Ret (d', [true; true; true]) /\ keyframeHistory d' = [] /\ suspectedCorruption d' = true /\
    PredictNextKeyframe 66 d' = 96.
Proof. eexists. split; [vm_compute; reflexivity|]. by vm_compute. Qed.
(** Looking for recovery points counts the key frames of the buffer again, the
    first one at a distance that wraps around. *)
Example search_counts_again :
  let fs := Some <$> [idr 5; idr 35] in
  exists d d' p p', FindRecoveryPoints fs (NewIDRDetector CodecH264) = Ret (d, p) /\ FindRecoveryPoints fs d = Ret (d', p') /\
    keyframeHistory d = [30] /\ keyframeHistory d' = [30; 2 ^ 64 - 30; 30].
Proof. eexists _, _, _, _. split; [vm_compute; reflexivity|]. split; [vm_compute; reflexivity|]. by vm_compute. Qed.
(** The size byte behind an OBU header is read as the frame header: an inter frame
    of ten bytes is a key frame, a key frame of forty bytes is none. *)
Example av1_size_is_header :
  let inter := 0x32 :: 10 :: 0x20 :: replicate 9 0 in let key := 0x32 :: 40 :: 0x10 :: replicate 39 0 in
  av1_scan [nal inter] = Ret true /\ ~ av1_key_unit inter /\ av1_scan [nal key] = Ret false /\ av1_key_unit key.
Proof.
  split; [by vm_compute|]. split; [|split; [by vm_compute|]].
  - intros (b & l & c & rest & _ & _ & Hp & Hc). vm_compute in Hp. injection Hp as <- _. lia.
  - eexists _, _, _, _. split; [done|]. split; [by right|]. split; [by vm_compute|lia].
Qed.
(** A key frame whose header comes in a unit of its own, before the tiles, is
    missed. *)
Example av1_header_is_missed : av1_scan (nal <$> [[0x18; 0x10; 0]; [0x20; 1; 2]]) = Ret false /\ av1_key_unit [0x18; 0x10; 0].
Proof. split; [by vm_compute|]. eexists _, _, _, _. split; [done|]. split; [by left|]. split; [by vm_compute|lia]. Qed.
(** Repeated parameter sets make any frame a recovery point. *)
Example sets_are_recovery_point :
  exists d p, FindRecoveryPoints [Some (sample 9 FrameTypeP (replicate 5 [0x67; 66; 0; 30]))] (NewIDRDetector CodecH264) = Ret (d, [p]) /\
    IsIDR p = false /\ p_HasPPS p = false.
Proof. eexists _, _. split; [vm_compute; reflexivity|]. by vm_compute. Qed.
