(* ===== verification/Recovery.v ===== *)
(** * Error recovery of a stream (recovery/recovery.go)

    Errors start a recovery: from the buffered groups of pictures, or by asking
    the source for a key frame and waiting for it.  Each wait is a goroutine,
    cancelled by the next; it gives up after [keyframeTimeout].  An error is
    handled in one step, a wake-up of a waiter is another; they come in any
    order.  [now] is the time at the beginning of a call and [later] at its end.
    Callbacks are the list of their calls. *)

From stdpp Require Import strings.
From S2P Require Import Prelude Frame Gop.
From S2P Require GopBuffer GopBooks.
Import GopBuffer(Buffer, gops, gop_of, gop_ref, gopIndex, frames_at, buf_ok, same_queue, DropFramesFromGOP, SizedGOPs).

Inductive ErrorType : Type :=
| ErrorTypePacketLoss | ErrorTypeCorruption | ErrorTypeTimeout | ErrorTypeSequenceGap | ErrorTypeTimestampJump | ErrorTypeCodecError
| OtherError (n : Z).
Inductive RecoveryState : Type := StateNormal | StateRecovering | StateResyncing | StateFailed.
#[export] Instance RecoveryState_eq_dec : EqDecision RecoveryState.
Proof. solve_decision. Defined.
(** The dynamic type of [details]. *)
Inductive details : Type := NoDetails | GapOf (n : Z) | JumpOf (d : Z) | FrameDetails.

Inductive event : Type := OnStart (e : ErrorType) | OnEnd (duration : Z) (success : bool) | OnForceKeyframe.

(** A goroutine in [waitForKeyframe]: what its context says, and once it runs
    when it began and whether [onRecoveryEnd] was set then. *)
Record waiter := mkWaiter { cancelled : bool; began : option (Z * bool) }.

Record Handler := mkHandler {
  state : RecoveryState; gopBuffer : Buffer; lastKeyframe : option Z;
  recoveryCount : Z; corruptionCount : Z; resyncCount : Z; lastRecoveryTime : Z;
  maxRecoveryTime : Z; keyframeTimeout : Z; corruptionWindow : Z;
  onRecoveryStart : bool; onRecoveryEnd : bool; onForceKeyframe : bool;
  keyframeCancel : option Z; waiters : gmap Z waiter; next : Z; events : list event
}.
#[export] Instance eta_Handler : Eta Handler := fun h =>
  mkHandler (state h) (gopBuffer h) (lastKeyframe h) (recoveryCount h) (corruptionCount h) (resyncCount h) (lastRecoveryTime h)
    (maxRecoveryTime h) (keyframeTimeout h) (corruptionWindow h) (onRecoveryStart h) (onRecoveryEnd h) (onForceKeyframe h)
    (keyframeCancel h) (waiters h) (next h) (events h).
Implicit Types (h : Handler) (b : Buffer).

Record Config := mkConfig { MaxRecoveryTime : Z; KeyframeTimeout : Z; CorruptionWindow : Z }.
Definition NewHandler (c : Config) (b : Buffer) : Handler :=
  mkHandler StateNormal b None 0 0 0 zero_time
    (if MaxRecoveryTime c =? 0 then 30 * second else MaxRecoveryTime c) (if KeyframeTimeout c =? 0 then 5 * second else KeyframeTimeout c)
    (CorruptionWindow c) false false false None ∅ 0 [].

(** ** Steps of a recovery *)

Definition setState (now : Z) (s : RecoveryState) h : Handler :=
  let old := state h in
  let h := h <| state := s |> in
  if bool_decide (old = s) then h
  else match s with StateRecovering | StateResyncing => h <| lastRecoveryTime := now |> | _ => h end.

Definition call (set : bool) (e : event) h : Handler := if set then h <| events := events h ++ [e] |> else h.

(** Cancels the waiter before and starts one. *)
Definition start_waiter h : Handler :=
  let h := match keyframeCancel h with
           | Some a => h <| waiters := alter (fun w => mkWaiter true (began w)) a (waiters h) |>
           | None => h
           end in
  h <| keyframeCancel := Some (next h) |> <| waiters := <[next h := mkWaiter false None]> (waiters h) |> <| next := next h + 1 |>.
Definition requestKeyframe h : Handler := start_waiter (call (onForceKeyframe h) OnForceKeyframe h).

(** The GOP objects of [GetRecentGOPs]. *)
Definition recent (limit : Z) b : list gop_ref := rev (takeZ limit (rev (gops b))).

Fixpoint first_corrupted (i : Z) (l : list VideoFrame) : option Z :=
  match l with [] => None | f :: l => if IsCorrupted f then Some i else first_corrupted (i + 1) l end.
Fixpoint drop_loop (rs : list gop_ref) b (dropped : list VideoFrame) : res (Buffer * list VideoFrame) :=
  match rs with
  | [] => Ret (b, dropped)
  | r :: rs =>
      let g := gop_of b r in
      match first_corrupted 0 (Gop.Frames g) with
      | None => drop_loop rs b dropped
      | Some i => '(b, l) ← DropFramesFromGOP (Gop.ID g) i b; drop_loop rs b (dropped ++ l)
      end
  end.
Definition dropCorruptedFrames h : res (Handler * list VideoFrame) :=
  '(b, dropped) ← drop_loop (recent 10 (gopBuffer h)) (gopBuffer h) []; Ret (h <| gopBuffer := b |>, dropped).

Fixpoint healthy_keyframe (gs : list GOP) : option VideoFrame :=
  match gs with
  | [] => None
  | g :: gs => match Gop.Keyframe g with
               | Some k => if IsCorrupted k then healthy_keyframe gs else Some k
               | None => healthy_keyframe gs
               end
  end.
Definition findNextKeyframe h : option VideoFrame := healthy_keyframe (gop_of (gopBuffer h) <$> recent 5 (gopBuffer h)).

Definition recoverFromPacketLoss (now later : Z) h : Handler :=
  let h := setState now StateRecovering h in
  let h := call (onRecoveryStart h) (OnStart ErrorTypePacketLoss) (h <| recoveryCount := u64 (recoveryCount h + 1) |>) in
  if existsb (fun r => Closed (gop_of (gopBuffer h) r)) (recent 3 (gopBuffer h))
  then call (onRecoveryEnd h) (OnEnd (time_sub later now) true) (setState later StateNormal h)
  else requestKeyframe h.

Definition recoverFromCorruption (now later : Z) h : res Handler :=
  let h := setState now StateRecovering h in
  let h := call (onRecoveryStart h) (OnStart ErrorTypeCorruption) (h <| corruptionCount := u64 (corruptionCount h + 1) |>) in
  '(h, _) ← dropCorruptedFrames h;
  Ret match findNextKeyframe h with
      | Some _ => call (onRecoveryEnd h) (OnEnd (time_sub later now) true) (setState later StateNormal h)
      | None => requestKeyframe h
      end.

Definition recoverFromTimeout (now later : Z) h : Handler :=
  let h := setState now StateResyncing h in
  let h := h <| resyncCount := u64 (resyncCount h + 1) |> in
  match lastKeyframe h with
  | Some t => if keyframeTimeout h <? time_sub later t then requestKeyframe h else start_waiter h
  | None => start_waiter h
  end.

Definition recoverFromSequenceGap (now later : Z) (d : details) h : Handler :=
  match d with
  | GapOf gap => if gap <? 5 then h else recoverFromPacketLoss now later h
  | _ => h
  end.
Definition recoverFromTimestampJump (now : Z) (d : details) h : Handler :=
  match d with JumpOf _ => requestKeyframe (setState now StateResyncing h) | _ => h end.
Definition recoverFromCodecError (now : Z) h : Handler := requestKeyframe (setState now StateResyncing h).

Definition escalateRecovery (now : Z) h : Handler :=
  if maxRecoveryTime h <? time_sub now (lastRecoveryTime h) then setState now StateFailed h else requestKeyframe h.

(** The error it returns is always nil. *)
Definition HandleError (now later : Z) (e : ErrorType) (d : details) h : res Handler :=
  if bool_decide (state h = StateRecovering) then Ret (escalateRecovery now h)
  else match e with
       | ErrorTypePacketLoss => Ret (recoverFromPacketLoss now later h)
       | ErrorTypeCorruption => recoverFromCorruption now later h
       | ErrorTypeTimeout => Ret (recoverFromTimeout now later h)
       | ErrorTypeSequenceGap => Ret (recoverFromSequenceGap now later d h)
       | ErrorTypeTimestampJump => Ret (recoverFromTimestampJump now d h)
       | ErrorTypeCodecError => Ret (recoverFromCodecError now h)
       | OtherError _ => Ret h
       end.

Definition UpdateKeyframe (frame : option VideoFrame) h : Handler :=
  match frame with
  | Some f => if IsKeyframe f then h <| lastKeyframe := Some (CaptureTime f) |> else h
  | None => h
  end.
Definition SetCallbacks (start stop force : bool) h : Handler :=
  h <| onRecoveryStart := start |> <| onRecoveryEnd := stop |> <| onForceKeyframe := force |>.
Definition GetState h : RecoveryState := state h.

Record Statistics := mkStats {
  st_State : RecoveryState; st_RecoveryCount : Z; st_CorruptionCount : Z; st_ResyncCount : Z; st_LastRecoveryTime : Z; IsHealthy : bool }.
Definition GetStatistics h : Statistics :=
  mkStats (state h) (recoveryCount h) (corruptionCount h) (resyncCount h) (lastRecoveryTime h) (bool_decide (state h = StateNormal)).

(** ** Waiters *)

(** The case its [select] takes: each only when it is ready. *)
Inductive wake : Type := WakeDone | WakeTimer | WakeTick.

Definition begin_wait (now a : Z) h : Handler :=
  match waiters h !! a with
  | Some (mkWaiter c None) => h <| waiters := <[a := mkWaiter c (Some (now, onRecoveryEnd h))]> (waiters h) |>
  | _ => h
  end.
(** [None]: the case is not ready. *)
Definition waitForKeyframe (now a : Z) (k : wake) h : option Handler :=
  match waiters h !! a with
  | Some (mkWaiter c (Some (start, onEnd))) =>
      let ended := h <| waiters := delete a (waiters h) |> in
      match k with
      | WakeDone => if c then Some ended else None
      | WakeTimer =>
          if keyframeTimeout h <=? now - start
          then Some (call onEnd (OnEnd (time_sub now start) false) (setState now StateFailed ended)) else None
      | WakeTick =>
          Some match lastKeyframe h with
               | Some t => if start <? t then call onEnd (OnEnd (time_sub now start) true) (setState now StateNormal ended) else h
               | None => h
               end
      end
  | _ => None
  end.

Inductive label : Type :=
| LError (now later : Z) (e : ErrorType) (d : details)
| LKeyframe (f : option VideoFrame)
| LCallbacks (start stop force : bool)
| LBuffer (b : Buffer)
| LBegin (now a : Z)
| LWake (now a : Z) (k : wake).
Definition step (l : label) h : res Handler :=
  match l with
  | LError now later e d => HandleError now later e d h
  | LKeyframe f => Ret (UpdateKeyframe f h)
  | LCallbacks s t f => Ret (SetCallbacks s t f h)
  | LBuffer b => Ret (h <| gopBuffer := b |>)
  | LBegin now a => Ret (begin_wait now a h)
  | LWake now a k => Ret (default h (waitForKeyframe now a k h))
  end.
Fixpoint run (ls : list label) h : res Handler :=
  match ls with [] => Ret h | l :: ls => h ← step l h; run ls h end.

(** ** Supervision *)

Definition recovering h : Prop := state h = StateRecovering \/ state h = StateResyncing.

Section supervision.
Context `{SizedGOPs}.

(** At most one waiter is not cancelled: the one that [keyframeCancel] cancels. *)
Record waits h : Prop := mkWaits {
  w_buffer : buf_ok (gopBuffer h);
  w_next : forall a w, waiters h !! a = Some w -> a < next h;
  w_one : forall a w, waiters h !! a = Some w -> cancelled w = false -> keyframeCancel h = Some a
}.
Definition waited h : Prop := exists a w, waiters h !! a = Some w /\ cancelled w = false.
Definition supervised h : Prop := waits h /\ (recovering h -> waited h).

Lemma set_state_rest now s h : exists t, setState now s h = h <| state := s |> <| lastRecoveryTime := t |>.
Proof. unfold setState. case_bool_decide; [|destruct s]; (by exists now) || exists (lastRecoveryTime h); by destruct h. Qed.
Lemma set_state_waits now s h : waits h -> waits (setState now s h).
Proof. intros [W1 W2 W3]. destruct (set_state_rest now s h) as [t ->]. by split. Qed.
Lemma set_state_state now s h : state (setState now s h) = s.
Proof. by destruct (set_state_rest now s h) as [t ->]. Qed.
Lemma call_waits c e h : waits h -> waits (call c e h).
Proof. intros [W1 W2 W3]. by destruct c. Qed.
Lemma call_state c e h : state (call c e h) = state h.
Proof. by destruct c. Qed.

Lemma start_waiter_ok h : waits h -> supervised (start_waiter h) /\ state (start_waiter h) = state h.
Proof.
  intros [W1 W2 W3]. unfold start_waiter.
  set (ws := match keyframeCancel h with Some a => alter (fun w => mkWaiter true (began w)) a (waiters h) | None => waiters h end).
  assert (forall a w, ws !! a = Some w -> a < next h /\ cancelled w = true) as Hws.
  { intros a w. subst ws. destruct (keyframeCancel h) as [k|] eqn:Ek.
    - destruct (decide (a = k)) as [->|Hne].
      + rewrite lookup_alter_eq. intros (w0 & Hw & ->)%fmap_Some. split; [by eapply W2|done].
      + rewrite lookup_alter_ne by done. intros Hw. split; [by eapply W2|]. destruct (cancelled w) eqn:Ec; [done|].
        pose proof (W3 a w Hw Ec). congruence.
    - intros Hw. split; [by eapply W2|]. destruct (cancelled w) eqn:Ec; [done|]. pose proof (W3 a w Hw Ec). congruence. }
  assert (exists h0, h0 = match keyframeCancel h with
           | Some a => h <| waiters := alter (fun w => mkWaiter true (began w)) a (waiters h) |>
           | None => h end /\ waiters h0 = ws /\ gopBuffer h0 = gopBuffer h /\ next h0 = next h /\ state h0 = state h) as (h0 & <- & E1 & E2 & E3 & E4).
  { eexists. split; [done|]. subst ws. by destruct (keyframeCancel h). }
  split; [split|exact E4].
  - split; cbn; rewrite ?E1, ?E2, ?E3; [done|..].
    + intros a w. destruct (decide (a = next h)) as [->|Hne]; [lia|]. rewrite lookup_insert_ne by done. intros Hw. apply Hws in Hw. lia.
    + intros a w. destruct (decide (a = next h)) as [->|Hne]; [done|]. rewrite lookup_insert_ne by done. intros Hw Hc.
      apply Hws in Hw as [_ ?]. congruence.
  - intros _. exists (next h), (mkWaiter false None). cbn. rewrite E1, E3, lookup_insert_eq. done.
Qed.
Lemma request_ok h : waits h -> supervised (requestKeyframe h) /\ state (requestKeyframe h) = state h.
Proof.
  intros Hw. unfold requestKeyframe. destruct (start_waiter_ok _ (call_waits (onForceKeyframe h) OnForceKeyframe h Hw)) as [H1 H2].
  split; [done|]. by rewrite H2, call_state.
Qed.
Lemma settled h : waits h -> state h = StateNormal \/ state h = StateFailed -> supervised h.
Proof. intros Hw Hs. split; [done|]. intros [Hr|Hr]; destruct Hs; congruence. Qed.

(** *** Corrupted frames are dropped *)

(** The frames in front of the first corrupted one. *)
Fixpoint clean (l : list VideoFrame) : list VideoFrame :=
  match l with [] => [] | f :: l => if IsCorrupted f then [] else f :: clean l end.
Lemma first_corrupted_spec l i : 0 <= i ->
  match first_corrupted i l with
  | None => clean l = l
  | Some k => i <= k < i + len l /\ clean l = take (Z.to_nat (k - i)) l
  end.
Proof.
  revert i. induction l as [|f l IH]; intros i Hi; [done|]. cbn [first_corrupted clean]. rewrite len_cons. pose proof (len_nonneg l).
  destruct (IsCorrupted f); [rewrite Z.sub_diag; cbn; split; [lia|done]|].
  specialize (IH (i + 1) ltac:(lia)). destruct (first_corrupted (i + 1) l) as [k|]; [|by rewrite IH].
  destruct IH as [Hk ->]. split; [lia|]. by replace (Z.to_nat (k - i)) with (S (Z.to_nat (k - (i + 1)))) by lia.
Qed.
Lemma clean_uncorrupted l : Forall (fun f => IsCorrupted f = false) (clean l).
Proof. induction l as [|f l IH]; cbn; [constructor|]. destruct (IsCorrupted f) eqn:E; [constructor|]. by constructor. Qed.

Lemma drop_loop_ok rs b acc : buf_ok b -> NoDup rs -> (forall r, r ∈ rs -> r ∈ gops b) ->
  exists b' dropped, drop_loop rs b acc = Ret (b', acc ++ dropped) /\ buf_ok b' /\ same_queue b b' /\
    (forall r, frames_at b' r = if decide (r ∈ rs) then clean (frames_at b r) else frames_at b r) /\
    dropped = mjoin ((fun r => drop (length (clean (frames_at b r))) (frames_at b r)) <$> rs).
Proof.
  revert b acc. induction rs as [|r rs IH]; intros b acc Hok Hnd Hin.
  { exists b, []. rewrite app_nil_r. split; [done|]. split; [done|]. split; [apply GopBuffer.same_queue_refl|]. done. }
  apply NoDup_cons in Hnd as [Hr Hnd]. assert (r ∈ gops b) as Hrg by (apply Hin; constructor). cbn [drop_loop].
  pose proof (first_corrupted_spec (Gop.Frames (gop_of b r)) 0 ltac:(lia)) as Hf. fold (frames_at b r) in *.
  destruct (first_corrupted 0 (frames_at b r)) as [i|] eqn:Ei.
  - destruct Hf as [Hi Hc]. rewrite Z.sub_0_r, Z.add_0_l in *.
    destruct (GopBooks.DropFramesFromGOP_ok (Gop.ID (gop_of b r)) i b Hok) as (b1 & l & -> & Hok1 & Hq1 & Ho1 & Hr1).
    pose proof (GopBuffer.bo_gop b Hok r Hrg) as Hidx. destruct (Hr1 r Hidx Hi) as [Hf1 ->]. rewrite bind_Ret.
    assert (forall r', r' <> r -> frames_at b1 r' = frames_at b r') as Hoth by (intros r' Hne; apply Ho1; rewrite Hidx; congruence).
    destruct (IH b1 (acc ++ drop (Z.to_nat i) (frames_at b r))) as (b2 & dr & -> & Hok2 & Hq2 & Hfr & ->); [done|done| |].
    { intros r' Hr'. destruct Hq1 as [-> _]. apply Hin. by constructor. }
    eexists b2, _. split; [by rewrite <- app_assoc|]. split; [done|]. split; [by eapply GopBuffer.same_queue_trans|]. split.
    + intros r'. rewrite Hfr. destruct (decide (r' = r)) as [->|Hne].
      * rewrite decide_False by done. rewrite decide_True by constructor. by rewrite Hf1, Hc.
      * rewrite (Hoth r' Hne). destruct (decide (r' ∈ rs)) as [Hd|Hd].
        { by rewrite decide_True by (by constructor). }
        { rewrite decide_False; [done|]. by rewrite not_elem_of_cons. }
    + rewrite fmap_cons. cbn [mjoin list_join]. f_equal.
      * rewrite Hc. f_equal. rewrite length_take. unfold len in Hi. lia.
      * f_equal. apply list_fmap_ext. intros k r' Hk. rewrite Hoth; [done|]. intros ->. apply Hr. by eapply list_elem_of_lookup_2.
  - destruct (IH b acc Hok Hnd) as (b2 & dr & -> & Hok2 & Hq2 & Hfr & ->); [intros r' Hr'; apply Hin; by constructor|].
    eexists b2, _. split; [done|]. split; [done|]. split; [done|]. split.
    + intros r'. rewrite Hfr. destruct (decide (r' = r)) as [->|Hne].
      * rewrite decide_False by done. rewrite decide_True by constructor. by rewrite Hf.
      * destruct (decide (r' ∈ rs)) as [Hd|Hd].
        { by rewrite decide_True by (by constructor). }
        { rewrite decide_False; [done|]. by rewrite not_elem_of_cons. }
    + rewrite fmap_cons. cbn [mjoin list_join]. rewrite Hf, drop_all. done.
Qed.

Lemma recent_ok limit b r : r ∈ recent limit b -> r ∈ gops b.
Proof.
  unfold recent, takeZ. intros Hr. apply list_elem_of_In, in_rev, list_elem_of_In in Hr. apply list_elem_of_In, in_rev, list_elem_of_In.
  rewrite <- (take_drop (Z.to_nat limit) (rev (gops b))). apply elem_of_app. by left.
Qed.
Lemma recent_nodup limit b : NoDup (gops b) -> NoDup (recent limit b).
Proof.
  intros Hnd. unfold recent. apply NoDup_ListNoDup, List.NoDup_rev, NoDup_ListNoDup.
  eapply sublist_NoDup; [apply NoDup_ListNoDup, List.NoDup_rev, NoDup_ListNoDup, Hnd|apply sublist_take].
Qed.

(** *** Every step keeps a recovery supervised *)

Lemma packet_loss_ok now later h : waits h -> supervised (recoverFromPacketLoss now later h).
Proof.
  intros Hw. unfold recoverFromPacketLoss. set (h1 := call _ _ _).
  assert (waits h1) as Hw1.
  { subst h1. apply call_waits. pose proof (set_state_waits now StateRecovering h Hw) as [W1 W2 W3]. by split. }
  destruct (existsb _ _); [|by apply request_ok].
  apply settled; [by apply call_waits, set_state_waits|]. left. by rewrite call_state, set_state_state.
Qed.

(** The buffer behind a corruption. *)
Definition cleaned b b' : Prop :=
  buf_ok b' /\ same_queue b b' /\
  forall r, frames_at b' r = if decide (r ∈ recent 10 b) then clean (frames_at b r) else frames_at b r.

Lemma corruption_spec now later h : waits h ->
  exists h', recoverFromCorruption now later h = Ret h' /\ supervised h' /\ cleaned (gopBuffer h) (gopBuffer h') /\
    corruptionCount h' = u64 (corruptionCount h + 1) /\
    (state h' = StateNormal <-> findNextKeyframe h' <> None) /\ (state h' <> StateNormal -> state h' = StateRecovering).
Proof.
  intros Hw. unfold recoverFromCorruption. set (h1 := call _ _ _).
  assert (waits h1) as Hw1.
  { subst h1. apply call_waits. pose proof (set_state_waits now StateRecovering h Hw) as [W1 W2 W3]. by split. }
  assert (gopBuffer h1 = gopBuffer h /\ state h1 = StateRecovering /\ corruptionCount h1 = u64 (corruptionCount h + 1)) as (Eb & Es & Ec).
  { subst h1. destruct (set_state_rest now StateRecovering h) as [t ->]. cbn. by destruct (onRecoveryStart h). }
  clearbody h1. pose proof Hw1 as [W1 W2 W3]. unfold dropCorruptedFrames.
  destruct (drop_loop_ok (recent 10 (gopBuffer h1)) (gopBuffer h1) [] W1) as (b' & dr & -> & Hok & Hq & Hfr & _);
    [apply recent_nodup; apply (GopBuffer.bo_refs _ W1)|intros r; apply recent_ok|].
  rewrite !bind_Ret. set (h2 := h1 <| gopBuffer := b' |>). assert (waits h2) as Hw2 by by split.
  assert (cleaned (gopBuffer h) (gopBuffer h2)) as Hcl by (split; [done|]; rewrite <- Eb; done).
  assert (corruptionCount h2 = u64 (corruptionCount h + 1)) as Ec2 by done. assert (state h2 = StateRecovering) as Es2 by done.
  clearbody h2. eexists. split; [done|]. destruct (findNextKeyframe h2) as [k|] eqn:Ek.
  - set (h3 := call _ _ _).
    assert (gopBuffer h3 = gopBuffer h2 /\ state h3 = StateNormal /\ corruptionCount h3 = corruptionCount h2) as (E1 & E2 & E3).
    { subst h3. destruct (set_state_rest later StateNormal h2) as [t ->]. cbn. by destruct (onRecoveryEnd h2). }
    assert (waits h3) as Hw3 by (by apply call_waits, set_state_waits).
    split; [by apply settled; [|left]|]. split; [by rewrite E1|]. split; [by rewrite E3|]. rewrite E2. split; [|done].
    split; [|done]. intros _. unfold findNextKeyframe in *. rewrite E1, Ek. done.
  - destruct (request_ok h2 Hw2) as [Hs Hst].
    assert (gopBuffer (requestKeyframe h2) = gopBuffer h2 /\ corruptionCount (requestKeyframe h2) = corruptionCount h2) as (E1 & E3).
    { unfold requestKeyframe, start_waiter. set (h3 := call _ _ _). assert (gopBuffer h3 = gopBuffer h2 /\ corruptionCount h3 = corruptionCount h2) as [<- <-] by (subst h3; by destruct (onForceKeyframe h2)).
      by destruct (keyframeCancel h3). }
    split; [done|]. split; [by rewrite E1|]. split; [by rewrite E3|]. rewrite Hst, Es2. split; [|done].
    split; [done|]. unfold findNextKeyframe in *. by rewrite E1, Ek.
Qed.

(** An error is supervised, or changes nothing. *)
Lemma handle_error_cases now later e d h : waits h -> exists h', HandleError now later e d h = Ret h' /\ (supervised h' \/ h' = h).
Proof.
  intros Hw. unfold HandleError. case_bool_decide as Hr.
  - eexists. split; [done|]. left. unfold escalateRecovery. case_bool; [|by apply request_ok].
    apply settled; [by apply set_state_waits|]. right. apply set_state_state.
  - destruct e; try (eexists; split; [done|]); try by left; apply packet_loss_ok.
    + destruct (corruption_spec now later h Hw) as (h' & E & ? & _). exists h'. auto.
    + left. unfold recoverFromTimeout. set (h1 := _ <| resyncCount := _ |>).
      assert (waits h1) as Hw1 by (subst h1; pose proof (set_state_waits now StateResyncing h Hw) as [W1 W2 W3]; by split).
      destruct (lastKeyframe h1) as [t|]; [|by apply start_waiter_ok]. case_bool; [by apply request_ok|by apply start_waiter_ok].
    + unfold recoverFromSequenceGap. destruct d; auto. case_bool; [by right|]. left. by apply packet_loss_ok.
    + unfold recoverFromTimestampJump. destruct d; auto. left. by apply request_ok, set_state_waits.
    + left. by apply request_ok, set_state_waits.
    + by right.
Qed.
Lemma handle_error_supervised now later e d h : supervised h -> exists h', HandleError now later e d h = Ret h' /\ supervised h'.
Proof. intros Hs. destruct (handle_error_cases now later e d h (proj1 Hs)) as (h' & E & [?| ->]); by eexists. Qed.
Lemma handle_error_waits now later e d h : waits h -> exists h', HandleError now later e d h = Ret h' /\ waits h'.
Proof. intros Hw. destruct (handle_error_cases now later e d h Hw) as (h' & E & [[? ?]| ->]); by eexists. Qed.

Definition label_ok (l : label) : Prop := match l with LBuffer b => buf_ok b | _ => True end.

Lemma begin_waits now a h : waits h -> waits (begin_wait now a h).
Proof.
  intros Hw. unfold begin_wait. destruct (waiters h !! a) as [[c [v|]]|] eqn:E; [done| |done]. destruct Hw as [W1 W2 W3]. split; cbn; [done|..].
  - intros k w. destruct (decide (k = a)) as [->|Hne]; [intros _; by eapply W2|]. rewrite lookup_insert_ne by done. apply W2.
  - intros k w. destruct (decide (k = a)) as [->|Hne]; [|rewrite lookup_insert_ne by done; apply W3].
    rewrite lookup_insert_eq. intros [= <-] Hc. by eapply W3.
Qed.
Lemma begin_ok now a h : supervised h -> supervised (begin_wait now a h).
Proof.
  intros [Hw Hs]. split; [by apply begin_waits|]. unfold begin_wait.
  destruct (waiters h !! a) as [[c [v|]]|] eqn:E; [done| |done]. intros Hr. destruct (Hs Hr) as (k & w & Hk & Hc).
  destruct (decide (k = a)) as [->|Hne]; [|exists k, w; cbn; by rewrite lookup_insert_ne].
  exists a, (mkWaiter c (Some (now, onRecoveryEnd h))). cbn. rewrite lookup_insert_eq. split; [done|].
  rewrite E in Hk. by injection Hk as <-.
Qed.
Lemma ended_waits a h : waits h -> waits (h <| waiters := delete a (waiters h) |>).
Proof.
  intros [W1 W2 W3]. split; cbn; [done|..]; intros k w Hk; apply lookup_delete_Some in Hk as [_ Hk]; [by eapply W2|by apply W3].
Qed.
Lemma wake_waits now a k h h' : waits h -> waitForKeyframe now a k h = Some h' -> waits h'.
Proof.
  intros Hw. unfold waitForKeyframe. destruct (waiters h !! a) as [[c [[start oe]|]]|]; [|done|done].
  pose proof (ended_waits a h Hw) as Hw'. destruct k.
  - destruct c; [|done]. by intros [= <-].
  - case_bool; [|done]. intros [= <-]. by apply call_waits, set_state_waits.
  - intros [= <-]. destruct (lastKeyframe h); [|done]. case_bool; [|done]. apply call_waits, set_state_waits. by destruct Hw' as [X1 X2 X3]; split.
Qed.
Lemma wake_ok now a k h h' : supervised h -> waitForKeyframe now a k h = Some h' -> supervised h'.
Proof.
  intros [Hw Hs]. unfold waitForKeyframe. destruct (waiters h !! a) as [[c [[start oe]|]]|] eqn:E; [|done|done].
  pose proof (ended_waits a h Hw) as Hw'. destruct k.
  - destruct c; [|done]. intros [= <-]. split; [done|]. intros Hr. destruct (Hs Hr) as (k & w & Hk & Hc). exists k, w. cbn.
    rewrite lookup_delete_ne; [done|]. intros ->. rewrite E in Hk. by injection Hk as <-.
  - case_bool; [|done]. intros [= <-]. apply settled; [by apply call_waits, set_state_waits|]. right. by rewrite call_state, set_state_state.
  - intros [= <-]. destruct (lastKeyframe h) as [t|]; [|by split]. case_bool; [|by split].
    apply settled; [apply call_waits, set_state_waits; destruct Hw' as [X1 X2 X3]; by split|]. left. by rewrite call_state, set_state_state.
Qed.
Lemma step_supervised l h : supervised h -> label_ok l -> exists h', step l h = Ret h' /\ supervised h'.
Proof.
  intros Hs Hl. destruct l as [now later e d|f|s t f|b|now a|now a k]; cbn [step].
  - by apply handle_error_supervised.
  - eexists. split; [done|]. unfold UpdateKeyframe. destruct f as [f|]; [|done]. destruct (IsKeyframe f); [|done].
    destruct Hs as [[W1 W2 W3] Hs]. by split; [split|].
  - eexists. split; [done|]. destruct Hs as [[W1 W2 W3] Hs]. by split; [split|].
  - eexists. split; [done|]. destruct Hs as [[W1 W2 W3] Hs]. by split; [split|].
  - eexists. split; [done|]. by apply begin_ok.
  - eexists. split; [done|]. destruct (waitForKeyframe now a k h) as [h'|] eqn:E; cbn; [by eapply wake_ok|done].
Qed.
Lemma run_supervised ls h : supervised h -> Forall label_ok ls -> exists h', run ls h = Ret h' /\ supervised h'.
Proof.
  intros Hs Hl. revert h Hs. induction Hl as [|l ls Hl _ IH]; intros h Hs; [by exists h|]. cbn [run].
  destruct (step_supervised l h Hs Hl) as (h1 & -> & H1). rewrite bind_Ret. by apply IH.
Qed.
Lemma new_supervised c b : buf_ok b -> supervised (NewHandler c b).
Proof. intros Hb. apply settled; [|by left]. split; cbn; [done|..]; intros a w Hw; by rewrite lookup_empty in Hw. Qed.

(** Waiting comes to an end: with a key frame, or when the time is over. *)
Definition comes_to_end (a : Z) (w : waiter) h : Prop :=
  match began w with
  | None => forall t0 t1, keyframeTimeout h <= t1 - t0 ->
      exists h', run [LBegin t0 a; LWake t1 a WakeTimer] h = Ret h' /\ state h' = StateFailed
  | Some (start, _) =>
      (forall now, keyframeTimeout h <= now - start -> exists h', waitForKeyframe now a WakeTimer h = Some h' /\ state h' = StateFailed) /\
      (forall now t, lastKeyframe h = Some t -> start < t -> exists h', waitForKeyframe now a WakeTick h = Some h' /\ state h' = StateNormal)
  end.
Lemma waiter_ends a w h : waiters h !! a = Some w -> comes_to_end a w h.
Proof.
  intros Hw. unfold comes_to_end. destruct w as [c [[start oe]|]]; cbn [began].
  - unfold waitForKeyframe. rewrite Hw. split.
    + intros now Ht. rewrite (proj2 (Z.leb_le _ _)) by lia. eexists. split; [done|]. by rewrite call_state, set_state_state.
    + intros now t Hk Ht. rewrite Hk, (proj2 (Z.ltb_lt _ _)) by lia. eexists. split; [done|]. by rewrite call_state, set_state_state.
  - intros t0 t1 Ht. cbn [run step]. rewrite bind_Ret. unfold begin_wait. rewrite Hw. unfold waitForKeyframe at 1. cbn.
    rewrite lookup_insert_eq, (proj2 (Z.leb_le _ _)) by lia. cbn. eexists. split; [done|]. by rewrite call_state, set_state_state.
Qed.

(** C11: whatever errors, key frames, changes of the buffer and wake-ups come,
    in whatever order, handling them never panics, and a stream that is recovering
    or resynchronising is supervised: exactly one waiter is not cancelled, and
    it ends the state, with a key frame that came after it began or when its
    time is over. *)
Theorem recovery_supervised c b ls : buf_ok b -> Forall label_ok ls ->
  exists h, run ls (NewHandler c b) = Ret h /\
    (forall a a' w w', waiters h !! a = Some w -> waiters h !! a' = Some w' -> cancelled w = false -> cancelled w' = false -> a = a') /\
    (recovering h -> exists a w, waiters h !! a = Some w /\ cancelled w = false /\ comes_to_end a w h).
Proof.
  intros Hb Hl. destruct (run_supervised ls (NewHandler c b) (new_supervised c b Hb) Hl) as (h & E & [W1 W2 W3] & Hs).
  exists h. split; [done|]. split.
  - intros a a' w w' Ha Ha' Hc Hc'. pose proof (W3 a w Ha Hc). pose proof (W3 a' w' Ha' Hc'). congruence.
  - intros Hr. destruct (Hs Hr) as (a & w & Ha & Hc). exists a, w. split; [done|]. split; [done|]. by apply waiter_ends.
Qed.

(** What an error reported during a recovery does. *)
Lemma escalated now h :
  gopBuffer (escalateRecovery now h) = gopBuffer h /\
  (state h = StateRecovering ->
   state (escalateRecovery now h) = if maxRecoveryTime h <? time_sub now (lastRecoveryTime h) then StateFailed else StateRecovering).
Proof.
  unfold escalateRecovery. destruct (_ <? _).
  - split; [|by intros _; rewrite set_state_state]. unfold setState. by destruct (bool_decide _).
  - unfold requestKeyframe, start_waiter, call. destruct (onForceKeyframe h); cbn; by destruct (keyframeCancel h).
Qed.

(** C12: a corruption reported while no recovery is under way removes from the
    last ten groups of pictures exactly the first corrupted frame of each and all
    behind it, keeps the buffer's indices, and ends the recovery at once exactly
    when one of the last five groups has a sound key frame; otherwise the stream
    goes on recovering.  One reported while the stream is recovering removes
    nothing: the stream goes on recovering, or has failed when it began to
    recover longer ago than the longest recovery time. *)
Theorem corruption_recovery c b ls h now later d : buf_ok b -> Forall label_ok ls -> run ls (NewHandler c b) = Ret h ->
  exists h', HandleError now later ErrorTypeCorruption d h = Ret h' /\
    buf_ok (gopBuffer h') /\ same_queue (gopBuffer h) (gopBuffer h') /\
    (state h <> StateRecovering ->
     (forall r, frames_at (gopBuffer h') r = if decide (r ∈ recent 10 (gopBuffer h)) then clean (frames_at (gopBuffer h) r) else frames_at (gopBuffer h) r) /\
     (forall r, r ∈ recent 10 (gopBuffer h) -> Forall (fun f => IsCorrupted f = false) (frames_at (gopBuffer h') r)) /\
     (state h' = StateNormal <-> findNextKeyframe h' <> None) /\ (state h' <> StateNormal -> state h' = StateRecovering)) /\
    (state h = StateRecovering ->
     gopBuffer h' = gopBuffer h /\
     state h' = if maxRecoveryTime h <? time_sub now (lastRecoveryTime h) then StateFailed else StateRecovering).
Proof.
  intros Hb Hl Hr. destruct (run_supervised ls (NewHandler c b) (new_supervised c b Hb) Hl) as (h0 & E & [Hw _]).
  rewrite Hr in E. injection E as <-. unfold HandleError. destruct (decide (state h = StateRecovering)) as [Hs|Hs].
  - rewrite bool_decide_true by done. destruct (escalated now h) as [Eb Es]. exists (escalateRecovery now h). rewrite Eb.
    split; [done|]. split; [apply Hw|]. split; [apply GopBuffer.same_queue_refl|]. split; [done|]. intros _. split; [done|]. by apply Es.
  - rewrite bool_decide_false by done. destruct (corruption_spec now later h Hw) as (h' & E & _ & (C1 & C2 & C3) & _ & H1 & H2).
    exists h'. split; [done|]. split; [done|]. split; [done|]. split; [|done]. intros _. split; [done|].
    split; [|done]. intros r Hr'. rewrite C3, decide_True by done. apply clean_uncorrupted.
Qed.
End supervision.

(** ** Concrete runs *)

Section demo.
#[local] Instance demo_unsized : SizedGOPs := false.

Definition damaged_gop : GOP :=
  GopBooks.add_frames [GopBooks.demo_frame 10 FrameTypeIDR 100 9000; SetFlag FrameFlagCorrupted (GopBooks.demo_frame 11 FrameTypeP 40 12000);
                       GopBooks.demo_frame 12 FrameTypeP 40 15000] (GopBooks.demo_empty 1 9000).
Definition damaged : Buffer := GopBooks.run_demo (GopBooks.OpAdd 0%nat damaged_gop) (GopBuffer.NewBuffer "s" GopBooks.demo_config).
Definition empty_buffer : Buffer := GopBuffer.NewBuffer "s" GopBooks.demo_config.
Lemma damaged_ok : buf_ok damaged.
Proof.
  destruct (GopBooks.exec_ok (GopBooks.OpAdd 0%nat damaged_gop) empty_buffer) as (b' & E & H & _).
  - apply GopBooks.NewBuffer_ok.
  - by vm_compute.
  - split; [|done]. split; [decide_goal|decide_goal|decide_goal|apply Forall_forall; decide_goal|vm_compute; reflexivity|vm_compute; lia].
  - unfold damaged, GopBooks.run_demo. fold empty_buffer. by rewrite E.
Qed.
Definition sample_config : Config := mkConfig (5 * second) (2 * second) 10.
Definition sample_handler (b : Buffer) : Handler := SetCallbacks true true true (NewHandler sample_config b).

Definition sample_run : list label :=
  [LCallbacks true true true; LError 0 1 ErrorTypeCodecError NoDetails; LBegin 5 0; LError second second ErrorTypeTimeout NoDetails; LWake second 0 WakeDone].
Lemma recovery_supervised_witness :
  exists h, run sample_run (NewHandler sample_config empty_buffer) = Ret h /\ state h = StateResyncing /\
    exists a w, waiters h !! a = Some w /\ cancelled w = false /\ comes_to_end a w h.
Proof.
  destruct (recovery_supervised sample_config empty_buffer sample_run) as (h & E & _ & H).
  - apply GopBooks.NewBuffer_ok.
  - repeat constructor.
  - exists h. assert (state h = StateResyncing) as Hs by (vm_compute in E; by injection E as <-). split; [done|]. split; [done|].
    apply H. by right.
Defined.
Lemma corruption_recovery_witness :
  exists h', HandleError 7 8 ErrorTypeCorruption FrameDetails (NewHandler sample_config damaged) = Ret h' /\
    frames_at (gopBuffer h') 0%nat = clean (frames_at damaged 0%nat) /\ len (frames_at (gopBuffer h') 0%nat) = 1 /\ state h' = StateNormal.
Proof.
  destruct (corruption_recovery sample_config damaged [] (NewHandler sample_config damaged) 7 8 FrameDetails damaged_ok (Forall_nil_2 _) eq_refl) as (h' & E & _ & _ & Hf & _).
  destruct Hf as [Hf _]; [done|].
  exists h'. split; [done|]. assert (frames_at (gopBuffer h') 0%nat = clean (frames_at damaged 0%nat)) as Hc by (rewrite Hf; by vm_compute).
  split; [done|]. split; [rewrite Hc; by vm_compute|]. vm_compute in E. by injection E as <-.
Defined.

Definition outcome (m : res Handler) : option (RecoveryState * list event) := match m with Ret h => Some (state h, events h) | _ => None end.

(** A recovery from the buffer does not cancel the wait for a key frame before it:
    when that wait is over the healthy stream is marked as failed. *)
Example stale_waiter_fails :
  outcome (run [LError 0 0 ErrorTypeCodecError NoDetails; LBegin 0 0; LError second second ErrorTypePacketLoss NoDetails; LWake (2 * second) 0 WakeTimer]
             (sample_handler damaged)) =
  Some (StateFailed, [OnForceKeyframe; OnStart ErrorTypePacketLoss; OnEnd 0 true; OnEnd (2 * second) false]).
Proof. by vm_compute. Qed.
(** A cancelled waiter whose time is over as well may choose to fail the stream,
    although the waiter that replaced it has just begun. *)
Example cancelled_waiter_fails :
  outcome (run [LError 0 0 ErrorTypeCodecError NoDetails; LBegin 0 0; LError (2 * second) (2 * second) ErrorTypeCodecError NoDetails; LBegin (2 * second) 1;
                LWake (2 * second) 0 WakeTimer] (sample_handler empty_buffer)) =
  Some (StateFailed, [OnForceKeyframe; OnForceKeyframe; OnEnd (2 * second) false]).
Proof. by vm_compute. Qed.
(** Timeouts that keep coming restart the wait for ever: only [StateRecovering] is
    escalated. *)
Example resync_without_end :
  outcome (run ((fun k => LError (Z.of_nat k * second) (Z.of_nat k * second) ErrorTypeTimeout NoDetails) <$> seq 0 100) (sample_handler empty_buffer)) =
  Some (StateResyncing, []).
Proof. by vm_compute. Qed.
(** A key frame does not bring a failed stream back. *)
Example failed_stays :
  outcome (run [LError 0 0 ErrorTypeCodecError NoDetails; LBegin 0 0; LWake (2 * second) 0 WakeTimer;
                LKeyframe (Some (GopBooks.demo_frame 20 FrameTypeIDR 100 (3 * second))); LWake (4 * second) 0 WakeTick] (sample_handler empty_buffer)) =
  Some (StateFailed, [OnForceKeyframe; OnEnd (2 * second) false]).
Proof. by vm_compute. Qed.
End demo.
