(* ===== verification/StreamRecovery.v ===== *)
(** * Stream recovery behind a circuit breaker (recovery/stream_recovery.go)

    An error starts a goroutine that tries to recover, with growing pauses between
    the attempts; a health check starts one when the stream has failed; a
    circuit breaker turns errors away.  The goroutine's steps, calls and health
    checks come in any order.  What the callbacks answer is an argument; they and
    the store are the list of their calls. *)

From S2P Require Import Prelude Float64.

(** ** The circuit breaker *)

Inductive breaker_state : Type := Closed | Open | HalfOpen.
#[export] Instance breaker_state_eq_dec : EqDecision breaker_state.
Proof. solve_decision. Defined.
Record CircuitBreaker := mkBreaker {
  cb_failures : Z; lastFailureTime : Z; threshold : Z; timeout : Z; cb_state : breaker_state; halfOpenUsed : bool }.
#[export] Instance eta_Breaker : Eta CircuitBreaker := fun c =>
  mkBreaker (cb_failures c) (lastFailureTime c) (threshold c) (timeout c) (cb_state c) (halfOpenUsed c).
Implicit Types (c : CircuitBreaker).

Definition NewCircuitBreaker (threshold timeout : Z) : CircuitBreaker := mkBreaker 0 zero_time threshold timeout Closed false.
Definition Allow (now : Z) c : CircuitBreaker * bool :=
  match cb_state c with
  | Open =>
      if timeout c <? time_sub now (lastFailureTime c) then (c <| cb_state := HalfOpen |> <| halfOpenUsed := true |>, true) else (c, false)
  | HalfOpen => if halfOpenUsed c then (c, false) else (c <| halfOpenUsed := true |>, true)
  | Closed => (c, true)
  end.
Definition RecordSuccess c : CircuitBreaker := c <| cb_failures := 0 |> <| cb_state := Closed |> <| halfOpenUsed := false |>.
Definition RecordFailure (now : Z) c : CircuitBreaker :=
  let c := c <| cb_failures := i64 (cb_failures c + 1) |> <| lastFailureTime := now |> in
  if threshold c <=? cb_failures c then c <| cb_state := Open |> else c.
Definition Reset c : CircuitBreaker := c <| cb_failures := 0 |> <| cb_state := Closed |> <| halfOpenUsed := false |>.

(** ** The manager *)

Inductive StreamRecoveryState : Type := Healthy | Recovering | Failed | Degraded.
#[export] Instance StreamRecoveryState_eq_dec : EqDecision StreamRecoveryState.
Proof. solve_decision. Defined.
Definition maxTotalRecoveryAttempts : Z := 50.

Record RecoveryConfig := mkConfig {
  MaxRetries : Z; InitialBackoff : Z; MaxBackoff : Z; BackoffMultiplier : float64; CircuitBreakerThreshold : Z; CircuitBreakerTimeout : Z;
  HealthCheckInterval : Z; EnableStatePreservation : bool }.
Definition DefaultRecoveryConfig : RecoveryConfig :=
  mkConfig 5 (1 * second) (30 * second) (f64_of_Z 2) 3 (60 * second) (10 * second) true.

(** What the goroutine reads when it begins: which callbacks are set, and whether
    a state was preserved. *)
Record snapshot := mkSnapshot { s_onRecover : bool; s_onStateRestore : bool; s_onRecoveryFailed : bool; s_preserved : bool }.
(** Where it is: not begun, before an attempt, in the pause after it. *)
Inductive thread : Type :=
| TStart
| TAttempt (attempt backoff : Z) (s : snapshot)
| TPause (attempt backoff : Z) (s : snapshot).

Inductive event : Type := OnStateRestore | OnRecover | OnBreakerOpen | OnRecoveryFailed (attempts : Z) | StoreSave | StoreDelete.

Record StreamRecovery := mkRecovery {
  config : RecoveryConfig; state : StreamRecoveryState; failures : Z; recoveries : Z; totalRecoveryAttempts : Z;
  lastError : option Z; lastRecovery : Z; circuitBreaker : CircuitBreaker; preservedState : option Z; stateStore : bool;
  recovering : bool; onRecover : bool; onStateRestore : bool; onRecoveryFailed : bool; cancelled : bool;
  threads : gmap Z thread; next : Z; events : list event
}.
#[export] Instance eta_Recovery : Eta StreamRecovery := fun r =>
  mkRecovery (config r) (state r) (failures r) (recoveries r) (totalRecoveryAttempts r) (lastError r) (lastRecovery r) (circuitBreaker r)
    (preservedState r) (stateStore r) (recovering r) (onRecover r) (onStateRestore r) (onRecoveryFailed r) (cancelled r) (threads r) (next r) (events r).
Implicit Types (r : StreamRecovery) (s : snapshot).

Definition NewStreamRecovery (now : Z) (cfg : RecoveryConfig) : StreamRecovery :=
  mkRecovery cfg Healthy 0 0 0 None now (NewCircuitBreaker (CircuitBreakerThreshold cfg) (CircuitBreakerTimeout cfg)) None false
    false false false false false ∅ 0 [].
Definition SetCallbacks (recover restore failed : bool) r : StreamRecovery :=
  r <| onRecover := recover |> <| onStateRestore := restore |> <| onRecoveryFailed := failed |>.
Definition SetStateStore r : StreamRecovery := r <| stateStore := true |>.
Definition GetState r : StreamRecoveryState := state r.
Definition Stop r : StreamRecovery := r <| cancelled := true |>.

Definition note (set : bool) (e : event) r : StreamRecovery := if set then r <| events := events r ++ [e] |> else r.
Definition setState (st : StreamRecoveryState) r : StreamRecovery := r <| state := st |>.
(** [if sr.recovering.CompareAndSwap(false, true) { go sr.recover() }] *)
Definition start_recovery r : StreamRecovery :=
  if recovering r then r
  else r <| recovering := true |> <| threads := <[next r := TStart]> (threads r) |> <| next := next r + 1 |>.

Definition preserveState (now : Z) r : StreamRecovery :=
  if stateStore r then note true StoreSave (r <| preservedState := Some now |>) else r.

Definition HandleError (now err : Z) r : StreamRecovery :=
  let r := r <| lastError := Some err |> <| failures := i32 (failures r + 1) |> in
  let '(c, allowed) := Allow now (circuitBreaker r) in
  let r := r <| circuitBreaker := c |> in
  if negb allowed then note (onRecoveryFailed r) OnBreakerOpen (setState Failed r)
  else start_recovery (if EnableStatePreservation (config r) then preserveState now r else r).

Definition checkHealth (now : Z) r : StreamRecovery :=
  match state r with
  | Failed =>
      if maxTotalRecoveryAttempts <=? totalRecoveryAttempts r then r
      else if HealthCheckInterval (config r) <? time_sub now (lastRecovery r)
      then start_recovery (r <| totalRecoveryAttempts := i32 (totalRecoveryAttempts r + 1) |> <| circuitBreaker := Reset (circuitBreaker r) |>)
      else r
  | _ => r
  end.

(** ** The goroutine *)

Definition grow (cfg : RecoveryConfig) (backoff : Z) : Z :=
  let b := f64_trunc (f64_mul (f64_of_Z backoff) (BackoffMultiplier cfg)) in if MaxBackoff cfg <? b then MaxBackoff cfg else b.

(** What the callbacks answer to an attempt; which case the pause ends with. *)
Record answer := mkAnswer { restore_fails : bool; recover_fails : bool }.
Inductive wake : Type := WakeTimer | WakeDone.

(** [defer sr.recovering.Store(false)] *)
Definition return_ (a : Z) r : StreamRecovery := r <| threads := delete a (threads r) |> <| recovering := false |>.
Definition goto (a : Z) (t : thread) r : StreamRecovery := r <| threads := <[a := t]> (threads r) |>.

Definition attempt_step (now a attempt backoff : Z) s (w : answer) r : StreamRecovery :=
  if attempt <=? MaxRetries (config r) then
    let r := note (EnableStatePreservation (config r) && s_preserved s && s_onStateRestore s) OnStateRestore r in
    let r := note (s_onRecover s) OnRecover r in
    if s_onRecover s && recover_fails w
    then goto a (TPause attempt backoff s) (r <| circuitBreaker := RecordFailure now (circuitBreaker r) |>)
    else
      let r := r <| recoveries := i32 (recoveries r + 1) |> <| circuitBreaker := RecordSuccess (circuitBreaker r) |>
                 <| lastRecovery := now |> <| lastError := None |> in
      let r := setState Healthy r in
      return_ a (note (stateStore r && bool_decide (preservedState r <> None)) StoreDelete r)
  else return_ a (note (s_onRecoveryFailed s) (OnRecoveryFailed (MaxRetries (config r))) (setState Failed r)).

(** One step of the goroutine [a]. *)
Definition recover (now a : Z) (w : answer) (k : wake) r : StreamRecovery :=
  match threads r !! a with
  | None => r
  | Some TStart =>
      let s := mkSnapshot (onRecover r) (onStateRestore r) (onRecoveryFailed r) (bool_decide (preservedState r <> None)) in
      goto a (TAttempt 1 (InitialBackoff (config r)) s) (setState Recovering r)
  | Some (TAttempt n b s) => attempt_step now a n b s w r
  | Some (TPause n b s) =>
      match k with
      | WakeTimer => goto a (TAttempt (n + 1) (grow (config r) b) s) r
      | WakeDone => if cancelled r then return_ a r else r
      end
  end.

Inductive label : Type :=
| LError (now err : Z)
| LHealth (now : Z)
| LCallbacks (recover restore failed : bool)
| LStore
| LStop
| LRun (now a : Z) (w : answer) (k : wake).
Definition step (l : label) r : StreamRecovery :=
  match l with
  | LError now e => HandleError now e r
  | LHealth now => checkHealth now r
  | LCallbacks a b c => SetCallbacks a b c r
  | LStore => SetStateStore r
  | LStop => Stop r
  | LRun now a w k => recover now a w k r
  end.
Definition run (ls : list label) r : StreamRecovery := fold_left (fun r l => step l r) ls r.

(** ** One recovery at a time *)

Definition retries r : Z := Z.max 0 (MaxRetries (config r)).
Definition thread_ok r (t : thread) : Prop :=
  match t with TStart => True | TAttempt n _ _ => 1 <= n <= retries r + 1 | TPause n _ _ => 1 <= n <= retries r end.
(** One request only while the breaker is half open, none waits for the second branch. *)
Definition breaker_ok c : Prop :=
  match cb_state c with
  | Closed => halfOpenUsed c = false /\ (cb_failures c = 0 \/ cb_failures c < threshold c)
  | Open => True
  | HalfOpen => halfOpenUsed c = true
  end.

Record single r : Prop := mkSingle {
  s_one : forall a a' t t', threads r !! a = Some t -> threads r !! a' = Some t' -> a = a';
  s_flag : recovering r = true <-> exists a t, threads r !! a = Some t;
  s_next : forall a t, threads r !! a = Some t -> a < next r /\ thread_ok r t;
  s_breaker : breaker_ok (circuitBreaker r);
  s_total : 0 <= totalRecoveryAttempts r <= maxTotalRecoveryAttempts;
  s_state : state r = Recovering -> recovering r = true \/ cancelled r = true
}.

Lemma allow_ok now c : breaker_ok c -> breaker_ok (Allow now c).1.
Proof.
  intros H. unfold Allow. destruct (cb_state c) eqn:E; [done|case_bool; [done|]; unfold breaker_ok; cbn; by rewrite E|].
  destruct (halfOpenUsed c) eqn:Eu; cbn; [by unfold breaker_ok in *; rewrite E in *|]. unfold breaker_ok in H. rewrite E in H. congruence.
Qed.
Lemma failure_ok now c : breaker_ok c -> breaker_ok (RecordFailure now c).
Proof.
  intros H. unfold RecordFailure. cbn. destruct (Z.leb_spec (threshold c) (i64 (cb_failures c + 1))); [done|].
  unfold breaker_ok in *. cbn. destruct (cb_state c); [|done|done]. destruct H as [H _]. split; [done|]. by right.
Qed.

Lemma note_rest b e r : exists l, note b e r = r <| events := l |>.
Proof. destruct b; [by eexists|]. exists (events r). by destruct r. Qed.
Lemma note_single b e r : single r -> single (note b e r).
Proof. destruct (note_rest b e r) as [l ->]. intros []. by split. Qed.

Lemma start_single r : single r -> single (start_recovery r).
Proof.
  intros Hs. unfold start_recovery. destruct (recovering r) eqn:Er; [done|]. destruct Hs as [S1 S2 S3 S4 S5 S6].
  assert (threads r = ∅) as He.
  { apply map_empty. intros a. apply eq_None_not_Some. intros [t Ht]. assert (recovering r = true) by (apply S2; eauto). congruence. }
  split; cbn; rewrite ?He.
  - intros a a' t t'. rewrite !lookup_insert_Some, !lookup_empty. naive_solver.
  - split; [|done]. intros _. exists (next r), TStart. by rewrite lookup_insert_eq.
  - intros a t. rewrite lookup_insert_Some, lookup_empty. intros [[<- <-]|[_ ?]]; [split; [lia|done]|done].
  - done.
  - done.
  - by left.
Qed.
Lemma return_single a r t : single r -> threads r !! a = Some t -> (state r = Recovering -> cancelled r = true) -> single (return_ a r).
Proof.
  intros [S1 S2 S3 S4 S5 S6] Ht Hst. unfold return_.
  assert (delete a (threads r) = ∅) as He.
  { apply map_empty. intros b. apply eq_None_not_Some. intros [t' Hb]. apply lookup_delete_Some in Hb as [Hne Hb].
    apply Hne. by eapply S1. }
  split; cbn; rewrite ?He; try done; try (intros *; by rewrite !lookup_empty).
  - split; [done|]. intros (b & t' & Hb). by rewrite lookup_empty in Hb.
  - intros H. right. by apply Hst.
Qed.
Lemma goto_single a t t0 r : single r -> threads r !! a = Some t0 -> thread_ok r t -> single (goto a t r).
Proof.
  intros [S1 S2 S3 S4 S5 S6] Ht Hok. unfold goto. split; cbn; try done.
  - intros b b' u u' Hb Hb'. assert (forall k v, <[a:=t]> (threads r) !! k = Some v -> exists v', threads r !! k = Some v') as Hk.
    { intros k v [[<- _]|[_ ?]]%lookup_insert_Some; eauto. }
    destruct (Hk _ _ Hb) as [? ?], (Hk _ _ Hb') as [? ?]. by eapply S1.
  - rewrite S2. split.
    + intros _. exists a, t. by rewrite lookup_insert_eq.
    + intros _. by exists a, t0.
  - intros b u [[<- <-]|[_ Hb]]%lookup_insert_Some; [split; [by eapply S3|done]|]. by apply S3.
Qed.

Lemma error_single now err r : single r -> single (HandleError now err r).
Proof.
  intros Hs. unfold HandleError. set (r1 := _ <| failures := _ |>). assert (single r1) as H1 by (destruct Hs; by split). clearbody r1.
  pose proof (allow_ok now (circuitBreaker r1) (s_breaker r1 H1)) as Hb. destruct (Allow now (circuitBreaker r1)) as [c allowed]. cbn in Hb.
  set (r2 := r1 <| circuitBreaker := c |>). assert (single r2) as H2 by (destruct H1; by split). clearbody r2.
  destruct allowed; cbn [negb].
  - apply start_single. destruct (EnableStatePreservation _); [|done]. unfold preserveState. destruct (stateStore r2); [|done].
    apply note_single. destruct H2. by split.
  - apply note_single. unfold setState. destruct H2. by split.
Qed.
Lemma health_single now r : single r -> single (checkHealth now r).
Proof.
  intros Hs. unfold checkHealth. destruct (state r) eqn:Est; try done. case_bool; [done|]. zbool. case_bool; [|done].
  apply start_single. destruct Hs as [S1 S2 S3 S4 S5 S6]. split; cbn; try done; [by split; [|left]|].
  unfold maxTotalRecoveryAttempts in *. unfold i32. rewrite Z.mod_small; pow_consts; lia.
Qed.
Lemma attempt_single now a n b s w r : single r -> threads r !! a = Some (TAttempt n b s) -> single (attempt_step now a n b s w r).
Proof.
  intros Hs Ht. pose proof (s_next r Hs a _ Ht) as [_ Hn]. cbn in Hn. unfold attempt_step.
  destruct (Z.leb_spec n (MaxRetries (config r))) as [Hle|Hgt].
  - set (r1 := note _ _ r). set (r2 := note _ _ r1). assert (single r2) as H2 by by apply note_single, note_single.
    assert (threads r2 = threads r /\ config r2 = config r) as [Et Ec].
    { subst r2 r1. destruct (note_rest (s_onRecover s) OnRecover (note (EnableStatePreservation (config r) && s_preserved s && s_onStateRestore s) OnStateRestore r)) as [l ->].
      by destruct (note_rest (EnableStatePreservation (config r) && s_preserved s && s_onStateRestore s) OnStateRestore r) as [l' ->]. }
    clearbody r2. clear r1. rewrite <- Et in Ht. destruct (s_onRecover s && recover_fails w).
    + eapply goto_single; [|exact Ht|].
      * destruct H2 as [S1 S2 S3 S4 S5 S6]. split; cbn; try done. by apply failure_ok.
      * cbn. unfold retries. cbn. rewrite Ec. lia.
    + set (r3 := setState Healthy _). assert (single r3 /\ threads r3 = threads r2 /\ state r3 = Healthy) as (H3 & E3 & Es3).
      { destruct H2 as [S1 S2 S3 S4 S5 S6]. split; [|done]. split; cbn; try done. by split; [|left]. }
      clearbody r3. set (r4 := note _ _ r3). assert (single r4) as H4 by by apply note_single.
      assert (threads r4 = threads r3 /\ state r4 = state r3) as [E4 Es4]
        by (subst r4; by destruct (note_rest (stateStore r3 && bool_decide (preservedState r3 <> None)) StoreDelete r3) as [l ->]).
      apply (return_single a r4 (TAttempt n b s)); [done|congruence|]. rewrite Es4, Es3. done.
  - set (r1 := note _ _ _). assert (single r1 /\ threads r1 = threads r /\ state r1 = Failed) as (H1 & E1 & Es1).
    { subst r1. split; [apply note_single; unfold setState; destruct Hs; by split|].
      by destruct (note_rest (s_onRecoveryFailed s) (OnRecoveryFailed (MaxRetries (config r))) (setState Failed r)) as [l ->]. }
    apply (return_single a r1 (TAttempt n b s)); [done|congruence|]. by rewrite Es1.
Qed.
Lemma recover_single now a w k r : single r -> single (recover now a w k r).
Proof.
  intros Hs. unfold recover. destruct (threads r !! a) as [[|n b s|n b s]|] eqn:Et; [| | |done].
  - eapply goto_single; [|exact Et|cbn; unfold retries; cbn; lia].
    destruct Hs as [S1 S2 S3 S4 S5 S6]. split; cbn; try done. intros _. left. apply S2. eauto.
  - by apply attempt_single.
  - pose proof (s_next r Hs a _ Et) as [_ Hn]. cbn in Hn. destruct k.
    + eapply goto_single; [done|exact Et|]. cbn. lia.
    + destruct (cancelled r) eqn:Ec; [|done]. by eapply return_single.
Qed.
Lemma label_single l r : single r -> single (step l r).
Proof.
  intros Hs. destruct l; cbn [step]; [by apply error_single|by apply health_single|destruct Hs; by split|destruct Hs; by split| |by apply recover_single].
  destruct Hs as [S1 S2 S3 S4 S5 S6]. split; cbn; try done. by right.
Qed.
Lemma run_single ls r : single r -> single (run ls r).
Proof. revert r. induction ls as [|l ls IH]; intros r Hs; [done|]. apply IH. by apply label_single. Qed.
Lemma new_single now cfg : single (NewStreamRecovery now cfg).
Proof.
  split; cbn; try done; try (intros *; by rewrite ?lookup_empty).
  - split; [done|]. intros (a & t & Ht). by rewrite lookup_empty in Ht.
  - by split; [|left].
Qed.

(** *** Every recovery ends *)

(** Steps left of a goroutine. *)
Definition distance r (t : thread) : Z :=
  match t with
  | TStart => 2 * retries r + 2
  | TAttempt n _ _ => 2 * (retries r - n) + 3
  | TPause n _ _ => 2 * (retries r - n) + 2
  end.
Definition left_of r (a : Z) : Z := match threads r !! a with Some t => distance r t | None => 0 end.
(** The steps of [a], those that find the pause over. *)
Definition run_of (a : Z) (l : label) : Z := match l with LRun _ b _ WakeTimer => if decide (b = a) then 1 else 0 | _ => 0 end.
Definition runs_of (a : Z) (ls : list label) : Z := foldr (fun l n => run_of a l + n) 0 ls.

Lemma left_nonneg r a : single r -> 0 <= left_of r a.
Proof.
  intros Hs. unfold left_of. destruct (threads r !! a) as [t|] eqn:E; [|done]. pose proof (s_next r Hs a t E) as [_ Ht].
  unfold thread_ok, distance, retries in *. destruct t; lia.
Qed.
Lemma start_left r a : a < next r -> left_of (start_recovery r) a = left_of r a /\ a < next (start_recovery r) /\ config (start_recovery r) = config r.
Proof.
  intros Ha. unfold start_recovery. destruct (recovering r); [done|]. cbn. unfold left_of. cbn.
  rewrite lookup_insert_ne by lia. split; [done|]. split; [lia|done].
Qed.
Lemma label_config l r : config (step l r) = config r.
Proof.
  assert (forall b e r, config (note b e r) = config r) as Hn by (intros b e q; by destruct (note_rest b e q) as [l' ->]).
  destruct l; cbn [step]; try done.
  - unfold HandleError. destruct (Allow _ _) as [c al]. cbn zeta. destruct al; cbn [negb]; [|by rewrite Hn].
    assert (forall q, config (start_recovery q) = config q) as Hst by (intros q; unfold start_recovery; by destruct (recovering q)).
    rewrite Hst. destruct (EnableStatePreservation _); [|done]. unfold preserveState. destruct (stateStore _); [|done]. by rewrite Hn.
  - unfold checkHealth. destruct (state r); try done. repeat case_bool; try done. unfold start_recovery. by destruct (recovering _).
  - unfold recover. destruct (threads r !! a) as [[|n b s|n b s]|]; try done.
    + unfold attempt_step. repeat case_bool; unfold goto, return_; cbn; by rewrite ?Hn.
    + destruct k; [done|]. by destruct (cancelled r).
Qed.
Lemma retries_step l r : retries (step l r) = retries r.
Proof. unfold retries. by rewrite label_config. Qed.

(** A goroutine other than [a] leaves [a] as it is; [a] itself comes closer to its end. *)
Lemma goto_left a b t r : left_of (goto b t r) a = if decide (b = a) then distance r t else left_of r a.
Proof. unfold left_of, goto. cbn. case_decide as E; [subst; by rewrite lookup_insert_eq|by rewrite lookup_insert_ne]. Qed.
Lemma return_left a b r : left_of (return_ b r) a = if decide (b = a) then 0 else left_of r a.
Proof. unfold left_of, return_. cbn. case_decide as E; [subst; by rewrite lookup_delete_eq|by rewrite lookup_delete_ne]. Qed.
Lemma same_left r r' a : threads r' = threads r -> config r' = config r -> left_of r' a = left_of r a.
Proof. intros E1 E2. unfold left_of, distance, retries. by rewrite E1, E2. Qed.

Lemma recover_left now b w k r a : single r -> left_of (recover now b w k r) a <= Z.max 0 (left_of r a - run_of a (LRun now b w k)).
Proof.
  intros Hs. pose proof (left_nonneg r a Hs) as H0. unfold recover. destruct (threads r !! b) as [t|] eqn:Et.
  2: { unfold run_of. destruct k; [|lia]. case_decide; [|lia]. subst. unfold left_of. rewrite Et. lia. }
  assert (0 <= run_of a (LRun now b w k) <= 1) as Hr by (cbn; destruct k; [case_decide|]; lia).
  destruct (decide (b = a)) as [->|Hne].
  - assert (left_of r a = distance r t) as Hl by (unfold left_of; by rewrite Et). rewrite Hl in *.
    assert (k = WakeDone -> run_of a (LRun now a w k) = 0) as Hk by by intros ->.
    set (x := run_of a (LRun now a w k)) in *. clearbody x.
    pose proof (s_next r Hs a t Et) as [_ Hok]. unfold thread_ok in Hok. destruct t as [|n bo s|n bo s].
    + rewrite goto_left, decide_True by done. cbn [distance]. change (retries (setState Recovering r)) with (retries r). lia.
    + unfold attempt_step. destruct (Z.leb_spec n (MaxRetries (config r))); [|rewrite return_left, decide_True by done; lia].
      destruct (s_onRecover s && recover_fails w); [|rewrite return_left, decide_True by done; lia].
      rewrite goto_left, decide_True by done. cbn [distance]. unfold retries at 1. cbn.
      assert (forall b e q, config (note b e q) = config q) as Hn by (intros b e q; by destruct (note_rest b e q) as [l' ->]).
      rewrite !Hn. fold (retries r). cbn [distance] in *. lia.
    + destruct k.
      * rewrite goto_left, decide_True by done. cbn [distance] in *. lia.
      * rewrite (Hk eq_refl) in *. destruct (cancelled r); [rewrite return_left, decide_True by done; lia|lia].
  - assert (run_of a (LRun now b w k) = 0) as -> by (cbn; destruct k; [by rewrite decide_False|done]).
    assert (left_of r a <= Z.max 0 (left_of r a - 0)) as Hle by lia. etransitivity; [|exact Hle]. apply Z.eq_le_incl.
    assert (forall b e q, threads (note b e q) = threads q /\ config (note b e q) = config q) as Hn by (intros c e q; by destruct (note_rest c e q) as [l' ->]).
    destruct t as [|n bo s|n bo s].
    + rewrite goto_left, decide_False by done. by apply same_left.
    + unfold attempt_step. repeat case_bool; rewrite ?goto_left, ?return_left, decide_False by done; apply same_left; unfold setState; cbn;
        rewrite ?(proj1 (Hn _ _ _)), ?(proj2 (Hn _ _ _)); cbn; rewrite ?(proj1 (Hn _ _ _)), ?(proj2 (Hn _ _ _)); try done.
    + destruct k; [by rewrite goto_left, decide_False|]. destruct (cancelled r); [by rewrite return_left, decide_False|done].
Qed.

Lemma recover_next now b w k r : next (recover now b w k r) = next r.
Proof.
  assert (forall x e q, next (note x e q) = next q) as Hn by (intros x e q; by destruct (note_rest x e q) as [l' ->]).
  unfold recover. destruct (threads r !! b) as [[|n bo s|n bo s]|]; [done| | |done].
  - unfold attempt_step. repeat case_bool; unfold goto, return_; cbn; rewrite ?Hn; cbn; by rewrite ?Hn.
  - destruct k; [done|]. by destruct (cancelled r).
Qed.
Lemma step_left l r a : single r -> a < next r -> left_of (step l r) a <= Z.max 0 (left_of r a - run_of a l) /\ a < next (step l r).
Proof.
  intros Hs Ha. pose proof (left_nonneg r a Hs) as H0.
  assert (forall b e q, left_of (note b e q) a = left_of q a /\ next (note b e q) = next q) as Hn
    by (intros b e q; destruct (note_rest b e q) as [l' ->]; done).
  assert (forall q, left_of q a = left_of r a -> next q = next r ->
    left_of (start_recovery q) a <= Z.max 0 (left_of r a - 0) /\ a < next (start_recovery q)) as Hst.
  { intros q E1 E2. destruct (start_left q a) as (H1 & H2 & _); [lia|]. rewrite H1, E1. lia. }
  destruct l as [now e|now|x y z| | |now b w k]; cbn [step].
  - unfold HandleError. destruct (Allow _ _) as [c al]. cbn zeta. destruct al; cbn [negb run_of].
    + apply Hst; (destruct (EnableStatePreservation _); [|done]); unfold preserveState; (destruct (stateStore _); [|done]);
        [by rewrite (proj1 (Hn _ _ _))|by rewrite (proj2 (Hn _ _ _))].
    + rewrite (proj1 (Hn _ _ _)), (proj2 (Hn _ _ _)). split; [|done]. rewrite Z.sub_0_r. change (left_of r a <= Z.max 0 (left_of r a)). lia.
  - unfold checkHealth. cbn [run_of]. destruct (state r); try (split; [lia|done]). repeat case_bool; try (split; [lia|done]). by apply Hst.
  - split; [|done]. cbn [run_of]. change (left_of r a <= Z.max 0 (left_of r a - 0)). lia.
  - split; [|done]. cbn [run_of]. change (left_of r a <= Z.max 0 (left_of r a - 0)). lia.
  - split; [|done]. cbn [run_of]. change (left_of r a <= Z.max 0 (left_of r a - 0)). lia.
  - split; [by apply recover_left|]. by rewrite recover_next.
Qed.
Lemma run_of_nonneg a l : 0 <= run_of a l.
Proof. destruct l as [| | | | |now b w k]; cbn; try done. destruct k; [case_decide|]; done. Qed.
Lemma runs_of_nonneg a ls : 0 <= runs_of a ls.
Proof. induction ls as [|l ls IH]; [done|]. change (runs_of a (l :: ls)) with (run_of a l + runs_of a ls). pose proof (run_of_nonneg a l). lia. Qed.
Lemma run_left ls r a : single r -> a < next r -> left_of (run ls r) a <= Z.max 0 (left_of r a - runs_of a ls).
Proof.
  revert r. induction ls as [|l ls IH]; intros r Hs Ha; [cbn; pose proof (left_nonneg r a Hs); lia|].
  destruct (step_left l r a Hs Ha) as [H1 H2]. pose proof (IH (step l r) (label_single l r Hs) H2) as H3.
  change (run (l :: ls) r) with (run ls (step l r)). change (runs_of a (l :: ls)) with (run_of a l + runs_of a ls).
  pose proof (run_of_nonneg a l). pose proof (runs_of_nonneg a ls). lia.
Qed.

(** The recoveries that health checks start along a run ([next] counts the
    goroutines). *)
Fixpoint health_starts (ls : list label) r : Z :=
  match ls with
  | [] => 0
  | l :: ls => (match l with LHealth _ => next (step l r) - next r | _ => 0 end) + health_starts ls (step l r)
  end.

Lemma start_total r : totalRecoveryAttempts (start_recovery r) = totalRecoveryAttempts r /\ next r <= next (start_recovery r) <= next r + 1.
Proof. unfold start_recovery. destruct (recovering r); cbn; split; (done || lia). Qed.
Lemma recover_total now b w k r : totalRecoveryAttempts (recover now b w k r) = totalRecoveryAttempts r.
Proof.
  assert (forall x e q, totalRecoveryAttempts (note x e q) = totalRecoveryAttempts q) as Hn by (intros x e q; by destruct (note_rest x e q) as [l' ->]).
  unfold recover. destruct (threads r !! b) as [[|n bo s|n bo s]|]; [done| | |done].
  - unfold attempt_step. repeat case_bool; unfold goto, return_; cbn; rewrite ?Hn; cbn; by rewrite ?Hn.
  - destruct k; [done|]. by destruct (cancelled r).
Qed.
(** A health check that starts a recovery is counted. *)
Lemma step_total l r : single r ->
  match l with LHealth _ => next (step l r) - next r | _ => 0 end <= totalRecoveryAttempts (step l r) - totalRecoveryAttempts r.
Proof.
  intros Hs. assert (forall x e q, totalRecoveryAttempts (note x e q) = totalRecoveryAttempts q) as Hn by (intros x e q; by destruct (note_rest x e q) as [l' ->]).
  destruct l as [now e|now|x y z| | |now b w k]; cbn [step]; try (cbn; lia).
  - unfold HandleError. destruct (Allow _ _) as [c al]. cbn zeta. destruct al; cbn [negb]; [|rewrite Hn; cbn; lia].
    rewrite (proj1 (start_total _)). destruct (EnableStatePreservation _); [|cbn; lia]. unfold preserveState. destruct (stateStore _); [rewrite Hn|]; cbn; lia.
  - pose proof (s_total r Hs) as Ht. unfold maxTotalRecoveryAttempts in Ht. unfold checkHealth. destruct (state r); try lia.
    destruct (Z.leb_spec maxTotalRecoveryAttempts (totalRecoveryAttempts r)) as [|Hlt]; [lia|]. case_bool; [|lia].
    set (q := r <| totalRecoveryAttempts := _ |> <| circuitBreaker := _ |>). destruct (start_total q) as [-> Hnx].
    change (totalRecoveryAttempts q) with (i32 (totalRecoveryAttempts r + 1)). change (next q) with (next r) in Hnx.
    unfold maxTotalRecoveryAttempts in Hlt. unfold i32. rewrite Z.mod_small; pow_consts; lia.
  - rewrite recover_total. lia.
Qed.
Lemma health_bounded ls r : single r -> health_starts ls r <= totalRecoveryAttempts (run ls r) - totalRecoveryAttempts r.
Proof.
  revert r. induction ls as [|l ls IH]; intros r Hs; [cbn; lia|]. cbn [health_starts].
  change (run (l :: ls) r) with (run ls (step l r)). pose proof (IH (step l r) (label_single l r Hs)). pose proof (step_total l r Hs). lia.
Qed.

(** C13: whatever errors, health checks, calls and answers come, in any order:
    at most one recovery runs, and the flag says whether one does; it makes at
    most [MaxRetries] attempts and is gone once it has been scheduled twice for
    each and twice more; a stream is left in the state Recovering only by a
    running recovery or a stopped manager; the goroutines that health checks
    have started since the beginning are at most fifty; and a half-open breaker
    has let its one request pass. *)
Theorem one_recovery now cfg before after a :
  let r := run before (NewStreamRecovery now cfg) in
  (forall b b' t t', threads r !! b = Some t -> threads r !! b' = Some t' -> b = b') /\
  (recovering r = true <-> exists b t, threads r !! b = Some t) /\
  (forall b n bo s, threads r !! b = Some (TPause n bo s) -> 1 <= n <= Z.max 0 (MaxRetries cfg)) /\
  (a < next r -> 2 * Z.max 0 (MaxRetries cfg) + 2 <= runs_of a after -> threads (run after r) !! a = None) /\
  (state r = Recovering -> recovering r = true \/ cancelled r = true) /\
  health_starts before (NewStreamRecovery now cfg) <= totalRecoveryAttempts r <= 50 /\
  (cb_state (circuitBreaker r) = HalfOpen -> forall t, snd (Allow t (circuitBreaker r)) = false).
Proof.
  intros r. assert (single r) as Hs by (apply run_single, new_single).
  assert (retries r = Z.max 0 (MaxRetries cfg)) as Hret.
  { subst r. assert (forall ls q, retries (run ls q) = retries q) as Hr; [|by rewrite Hr].
    induction ls as [|l ls IH]; intros q; [done|]. change (retries (run ls (step l q)) = retries q). by rewrite IH, retries_step. }
  assert (health_starts before (NewStreamRecovery now cfg) <= totalRecoveryAttempts r) as Hh.
  { pose proof (health_bounded before _ (new_single now cfg)) as Hh. cbn [NewStreamRecovery totalRecoveryAttempts] in Hh.
    fold r in Hh. change (totalRecoveryAttempts (NewStreamRecovery now cfg)) with 0 in Hh. lia. }
  pose proof Hs as [S1 S2 S3 S4 S5 S6]. split; [done|]. split; [done|]. split; [|split; [|split; [done|split; [split; [done|apply S5]|]]]].
  - intros b n bo s Hb. apply S3 in Hb as [_ Hb]. cbn in Hb. by rewrite <- Hret.
  - intros Ha Hruns. assert (single (run after r)) as Hs' by by apply run_single.
    assert (left_of r a <= 2 * retries r + 2) as Hl.
    { unfold left_of. destruct (threads r !! a) as [t|] eqn:E; [|unfold retries; lia]. apply S3 in E as [_ E].
      unfold thread_ok, distance in *. destruct t; lia. }
    pose proof (run_left after r a Hs Ha) as H. rewrite <- Hret in Hruns.
    destruct (threads (run after r) !! a) as [t|] eqn:E; [|done]. exfalso.
    pose proof (s_next _ Hs' a t E) as [_ Ht]. unfold left_of at 1 in H. rewrite E in H.
    unfold thread_ok, distance, retries in *. destruct t; lia.
  - intros Ho t. unfold Allow. rewrite Ho. unfold breaker_ok in S4. rewrite Ho in S4. by rewrite S4.
Qed.

(** *** Examples *)

Definition failing : answer := mkAnswer false true.
Definition working : answer := mkAnswer false false.
Definition runs (n : nat) (now : Z) (w : answer) : list label := replicate n (LRun now 0 w WakeTimer).
Definition begun : list label := [LCallbacks true false true; LError (1 * second) 7].

Lemma one_recovery_witness :
  let r := run begun (NewStreamRecovery 0 DefaultRecoveryConfig) in
  threads r !! 0 = Some TStart /\ threads (run (runs 12 (2 * second) failing) r) !! 0 = None.
Proof.
  intros r. split; [by vm_compute|].
  destruct (one_recovery 0 DefaultRecoveryConfig begun (runs 12 (2 * second) failing) 0) as (_ & _ & _ & H & _).
  apply H; by vm_compute.
Defined.

Definition outcome r : StreamRecoveryState * breaker_state * list event := (state r, cb_state (circuitBreaker r), events r).
(** The breaker opens at the third failure; the recovery under way goes on trying
    all the same. *)
Example open_breaker_does_not_stop :
  outcome (run (begun ++ runs 12 (2 * second) failing) (NewStreamRecovery 0 DefaultRecoveryConfig)) =
  (Failed, Open, replicate 5 OnRecover ++ [OnRecoveryFailed 5]).
Proof. by vm_compute. Qed.
(** An error that the breaker turns away marks the stream as failed while it is
    recovering, and health checks then use up their fifty tries without starting
    anything. *)
Example health_tries_wasted :
  let r := run (begun ++ runs 6 (2 * second) failing ++ [LError (3 * second) 8] ++ replicate 60 (LHealth (90 * second)))
             (NewStreamRecovery 0 DefaultRecoveryConfig) in
  state r = Failed /\ recovering r = true /\ next r = 1 /\ totalRecoveryAttempts r = 50.
Proof. by vm_compute. Qed.
(** Stopped in a pause the manager stays in the state Recovering. *)
Example stopped_recovering :
  let r := run (begun ++ runs 2 (2 * second) failing ++ [LStop; LRun (3 * second) 0 failing WakeDone]) (NewStreamRecovery 0 DefaultRecoveryConfig) in
  state r = Recovering /\ recovering r = false.
Proof. by vm_compute. Qed.
