(* ===== verification/Quality.v ===== *)
(** * Adaptive quality (recovery/adaptive_quality.go)

    Five profiles, and a tick per second that scores the load and moves one
    profile up or down.  A tick reads each of the atomic metrics once; the
    callback is the list of its calls.  [transitionRate] is never read. *)

From stdpp Require Import strings.
From S2P Require Import Prelude Float64.

(** [QualityLevel] is an int. *)
Definition QualityLevelUltra : Z := 0.
Definition QualityLevelHigh : Z := 1.
Definition QualityLevelMedium : Z := 2.
Definition QualityLevelLow : Z := 3.
Definition QualityLevelMinimum : Z := 4.
Definition QualityLevel_String (q : Z) : string :=
  if q =? 0 then "ultra" else if q =? 1 then "high" else if q =? 2 then "medium" else if q =? 3 then "low" else if q =? 4 then "minimum" else "unknown".

Record QualityProfile := mkProfile {
  Name : string; Level : Z; Bitrate : Z; Framerate : float64; Width : Z; Height : Z; GOPSize : Z; BufferSize : Z; MaxPacketLoss : float64;
  ProcessingPriority : Z }.
Definition profiles : list QualityProfile :=
  [mkProfile "Ultra" QualityLevelUltra 50000000 (f64_of_Z 60) 3840 2160 120 (10 * 1024 * 1024) (f64_dec 1 3) 10;
   mkProfile "High" QualityLevelHigh 25000000 (f64_of_Z 30) 1920 1080 60 (5 * 1024 * 1024) (f64_dec 5 3) 8;
   mkProfile "Medium" QualityLevelMedium 10000000 (f64_of_Z 30) 1280 720 30 (2 * 1024 * 1024) (f64_dec 1 2) 6;
   mkProfile "Low" QualityLevelLow 5000000 (f64_of_Z 24) 854 480 24 (1 * 1024 * 1024) (f64_dec 2 2) 4;
   mkProfile "Minimum" QualityLevelMinimum 1000000 (f64_of_Z 15) 640 360 15 (512 * 1024) (f64_dec 5 2) 2].

Record MLDataPoint := mkPoint {
  Timestamp : Z; CPUUsage : float64; MemoryUsage : float64; NetworkBandwidth : Z; PacketLoss : float64; FrameDropRate : float64;
  ProcessingLatency : Z; p_Level : Z; QualityScore : float64 }.

Record AdaptiveQuality := mkQuality {
  currentProfile : Z; targetProfile : Z;
  cpuUsage : Z; memoryUsage : Z; networkBandwidth : Z; packetLoss : Z;
  currentBitrate : Z; frameDropRate : Z; processingLatency : Z;
  lastAdaptation : Z; adaptationCount : Z; qualityScore : float64;
  dataPoints : list MLDataPoint; maxPoints : Z;
  onQualityChange : bool; changes : list (Z * Z)
}.
#[export] Instance eta_Quality : Eta AdaptiveQuality := fun q =>
  mkQuality (currentProfile q) (targetProfile q) (cpuUsage q) (memoryUsage q) (networkBandwidth q) (packetLoss q) (currentBitrate q)
    (frameDropRate q) (processingLatency q) (lastAdaptation q) (adaptationCount q) (qualityScore q) (dataPoints q) (maxPoints q)
    (onQualityChange q) (changes q).
Implicit Types (q : AdaptiveQuality).

Definition NewAdaptiveQuality (now : Z) : AdaptiveQuality :=
  mkQuality QualityLevelHigh QualityLevelHigh 0 0 0 0 0 0 0 now 0 (f64_of_Z 0) [] 1000 false [].

(** [uint64(x)]: what lies outside the range is left to the implementation; this
    is amd64's. *)
Definition u64_of_f64 (x : float64) : Z :=
  if f64_ltb x (f64_of_Z (2 ^ 63)) then u64 (f64_trunc x) else Z.lxor (u64 (f64_trunc (f64_sub x (f64_of_Z (2 ^ 63))))) (2 ^ 63).
Definition scaled (x : float64) (n : Z) : Z := u64_of_f64 (f64_mul x (f64_of_Z n)).
Definition unscaled (z n : Z) : float64 := f64_div (f64_of_Z z) (f64_of_Z n).

Definition UpdateSystemMetrics (cpu memory : float64) (bandwidth : Z) q : AdaptiveQuality :=
  q <| cpuUsage := scaled cpu 100 |> <| memoryUsage := scaled memory 100 |> <| networkBandwidth := bandwidth |>.
Definition UpdateStreamMetrics (bitrate : Z) (drops loss : float64) (latency : Z) q : AdaptiveQuality :=
  q <| currentBitrate := bitrate |> <| frameDropRate := scaled drops 1000 |> <| packetLoss := scaled loss 1000 |> <| processingLatency := latency |>.

Definition GetCurrentProfile q : res QualityProfile :=
  let i := currentProfile q in
  if (0 <=? i) && (i <? len profiles) then idx profiles i else idx profiles QualityLevelMedium.
Definition SetTargetQuality (level : Z) q : AdaptiveQuality := if level <? len profiles then q <| targetProfile := level |> else q.
Definition SetCallback (set : bool) q : AdaptiveQuality := q <| onQualityChange := set |>.
Definition GetQualityScore q : float64 := qualityScore q.

(** ** A tick *)

Definition f64_one : float64 := f64_of_Z 1.
(** [math.Min(x, 1.0)] and [math.Max(0, x)] on numbers. *)
Definition min_one (x : float64) : float64 := if f64_ltb x f64_one then x else f64_one.
Definition max_zero (x : float64) : float64 := if f64_ltb (f64_of_Z 0) x then x else f64_of_Z 0.

Definition calculateQualityScore q : float64 :=
  let penalty x limit := f64_sub f64_one (min_one (f64_div x limit)) in
  let cpuScore := penalty (unscaled (cpuUsage q) 100) (f64_dec 8 1) in
  let memoryScore := penalty (unscaled (memoryUsage q) 100) (f64_dec 8 1) in
  let dropScore := penalty (unscaled (frameDropRate q) 1000) (f64_dec 5 2) in
  let lossScore := penalty (unscaled (packetLoss q) 1000) (f64_dec 2 2) in
  let latencyScore :=
    if 100 * millisecond <? processingLatency q
    then max_zero (f64_sub f64_one (f64_div (f64_of_Z (i64 (processingLatency q - 100 * millisecond))) (f64_of_Z (400 * millisecond))))
    else f64_one in
  f64_add (f64_add (f64_add (f64_add (f64_mul cpuScore (f64_dec 25 2)) (f64_mul memoryScore (f64_dec 20 2)))
                            (f64_mul dropScore (f64_dec 25 2))) (f64_mul lossScore (f64_dec 20 2))) (f64_mul latencyScore (f64_dec 10 2)).

(** The three conditions, in the order they are tested. *)
Definition healthy (score : float64) q : bool :=
  f64_ltb (f64_dec 8 1) score && f64_ltb (unscaled (cpuUsage q) 100) (f64_dec 6 1) && f64_ltb (unscaled (memoryUsage q) 100) (f64_dec 6 1).
Definition emergency (score : float64) q : bool :=
  f64_ltb score (f64_dec 3 1) || f64_ltb (f64_dec 95 2) (unscaled (cpuUsage q) 100) || f64_ltb (f64_dec 95 2) (unscaled (memoryUsage q) 100).
Definition struggling (score : float64) q : bool :=
  f64_ltb score (f64_dec 5 1) || f64_ltb (f64_dec 85 2) (unscaled (cpuUsage q) 100) || f64_ltb (f64_dec 85 2) (unscaled (memoryUsage q) 100).

Definition determineTargetProfile (score : float64) q : res Z :=
  let current := currentProfile q in
  if healthy score q then
    if 0 <? current then
      p ← idx profiles (current - 1);
      Ret (if Z.quot (Bitrate p * 120) 100 <? networkBandwidth q then current - 1 else current)
    else Ret current
  else if emergency score q then Ret (Z.min (len profiles - 1) (current + 2))
  else if struggling score q then Ret (if current <? len profiles - 1 then current + 1 else current)
  else Ret current.

Definition transitionQuality (now current target : Z) q : res AdaptiveQuality :=
  if current =? target then Ret q
  else
    let newProfile := current + (if target <? current then -1 else 1) in
    if (0 <=? newProfile) && (newProfile <? len profiles) then
      _ ← idx profiles current;
      let q := q <| currentProfile := newProfile |> <| adaptationCount := u64 (adaptationCount q + 1) |> <| lastAdaptation := now |> in
      Ret (if onQualityChange q then q <| changes := changes q ++ [(current, newProfile)] |> else q)
    else Ret q.

Definition AddPoint (p : MLDataPoint) q : AdaptiveQuality :=
  let l := dataPoints q ++ [p] in
  q <| dataPoints := if maxPoints q <? len l then dropZ (len l - maxPoints q) l else l |>.
Definition GetMLData q : list MLDataPoint := dataPoints q.
Definition collectMLData (now : Z) (score : float64) q : AdaptiveQuality :=
  AddPoint (mkPoint now (unscaled (cpuUsage q) 100) (unscaled (memoryUsage q) 100) (networkBandwidth q) (unscaled (packetLoss q) 1000)
              (unscaled (frameDropRate q) 1000) (processingLatency q) (currentProfile q) score) q.

Definition evaluateAndAdapt (now : Z) q : res AdaptiveQuality :=
  let score := calculateQualityScore q in
  let q := q <| qualityScore := score |> in
  newTarget ← determineTargetProfile score q;
  let q := q <| targetProfile := newTarget |> in
  q ← (if currentProfile q =? newTarget then Ret q else transitionQuality now (currentProfile q) newTarget q);
  Ret (collectMLData now score q).

Record statistics := mkStatistics {
  current_level : string; target_level : string; quality_score : float64; adaptation_count : Z; last_adaptation : Z; current_bitrate : Z;
  cpu_usage : float64; memory_usage : float64; frame_drop_rate : float64; packet_loss : float64 }.
Definition GetStatistics q : res statistics :=
  current ← GetCurrentProfile q;
  target ← idx profiles (targetProfile q);
  Ret (mkStatistics (Name current) (Name target) (qualityScore q) (adaptationCount q) (lastAdaptation q) (currentBitrate q)
         (unscaled (cpuUsage q) 100) (unscaled (memoryUsage q) 100) (unscaled (frameDropRate q) 1000) (unscaled (packetLoss q) 1000)).

Inductive op : Type :=
| OpSystem (cpu memory : float64) (bandwidth : Z)
| OpStream (bitrate : Z) (drops loss : float64) (latency : Z)
| OpTarget (level : Z)
| OpCallback (set : bool)
| OpTick (now : Z).
Definition exec (o : op) q : res AdaptiveQuality :=
  match o with
  | OpSystem c m b => Ret (UpdateSystemMetrics c m b q)
  | OpStream b d l t => Ret (UpdateStreamMetrics b d l t q)
  | OpTarget l => Ret (SetTargetQuality l q)
  | OpCallback s => Ret (SetCallback s q)
  | OpTick now => evaluateAndAdapt now q
  end.
Fixpoint run (l : list op) q : res AdaptiveQuality := match l with [] => Ret q | o :: l => q ← exec o q; run l q end.

(** ** A tick moves one profile at most *)

Record ok q : Prop := mkOk {
  ok_current : 0 <= currentProfile q < len profiles;
  ok_points : maxPoints q = 1000 /\ len (dataPoints q) <= 1000;
  ok_changes : Forall (fun c : Z * Z => (0 <= c.2 < len profiles) /\ (c.2 = c.1 + 1 \/ c.2 = c.1 - 1)) (changes q)
}.
Definition critical q : bool :=
  let score := calculateQualityScore q in negb (healthy score q) && (emergency score q || struggling score q).
(** The bandwidth a profile needs, with its fifth on top. *)
Definition affords q (p : QualityProfile) : bool := Z.quot (Bitrate p * 120) 100 <? networkBandwidth q.
Definition next_profile q : Z :=
  let c := currentProfile q in
  if healthy (calculateQualityScore q) q
  then match profiles !! Z.to_nat (c - 1) with Some p => if (0 <? c) && affords q p then c - 1 else c | None => c end
  else if critical q then Z.min (len profiles - 1) (c + 1) else c.

(** What a tick leaves alone. *)
Definition same_load q q' : Prop :=
  cpuUsage q' = cpuUsage q /\ memoryUsage q' = memoryUsage q /\ networkBandwidth q' = networkBandwidth q /\ packetLoss q' = packetLoss q /\
  frameDropRate q' = frameDropRate q /\ processingLatency q' = processingLatency q.
Lemma same_load_trans q1 q2 q3 : same_load q1 q2 -> same_load q2 q3 -> same_load q1 q3.
Proof. unfold same_load. intuition congruence. Qed.
Lemma same_load_score q q' : same_load q q' -> calculateQualityScore q' = calculateQualityScore q.
Proof. intros (E1 & E2 & E3 & E4 & E5 & E6). unfold calculateQualityScore. by rewrite E1, E2, E4, E5, E6. Qed.
Lemma same_load_conditions q q' s : same_load q q' -> healthy s q' = healthy s q /\ emergency s q' = emergency s q /\ struggling s q' = struggling s q.
Proof. intros (E1 & E2 & _). unfold healthy, emergency, struggling. by rewrite E1, E2. Qed.
Lemma same_load_critical q q' : same_load q q' -> critical q' = critical q.
Proof. intros H. unfold critical. rewrite (same_load_score q q' H). by destruct (same_load_conditions q q' (calculateQualityScore q) H) as (-> & -> & ->). Qed.

Lemma add_point_ok p q : ok q -> ok (AddPoint p q) /\ same_load q (AddPoint p q) /\ currentProfile (AddPoint p q) = currentProfile q /\ targetProfile (AddPoint p q) = targetProfile q.
Proof.
  intros [O1 [O2 O2'] O3]. split; [|by repeat split]. split; [done| |done]. split; [done|]. unfold AddPoint. cbn. rewrite O2, len_app. change (len [p]) with 1.
  pose proof (len_nonneg (dataPoints q)). destruct (Z.ltb_spec 1000 (len (dataPoints q) + 1)); [rewrite len_dropZ; rewrite len_app; change (len [p]) with 1; lia|].
  rewrite len_app. change (len [p]) with 1. lia.
Qed.
Lemma transition_ok now target q : ok q -> 0 <= target < len profiles ->
  let c := currentProfile q in
  exists q', (if c =? target then Ret q else transitionQuality now c target q) = Ret q' /\ ok q' /\ same_load q q' /\ targetProfile q' = targetProfile q /\
    currentProfile q' = (if target <? c then c - 1 else if c <? target then c + 1 else c).
Proof.
  intros Hok Ht c. pose proof Hok as [O1 O2 O3]. fold c in O1. unfold transitionQuality.
  destruct (Z.eqb_spec c target) as [He|He].
  { exists q. split; [done|]. split; [done|]. split; [by repeat split|]. split; [done|]. rewrite (proj2 (Z.ltb_ge target c)), (proj2 (Z.ltb_ge c target)) by lia. done. }
  set (new := c + _). assert (0 <= new < len profiles /\ (new = c + 1 \/ new = c - 1) /\ new = (if target <? c then c - 1 else if c <? target then c + 1 else c)) as (Hn & Hs & Hd).
  { subst new. destruct (Z.ltb_spec target c); [lia|]. rewrite (proj2 (Z.ltb_lt c target)) by lia. lia. }
  clearbody new. rewrite (proj2 (Z.leb_le _ _)), (proj2 (Z.ltb_lt _ _)) by lia. cbn [andb].
  destruct (idx_Ret profiles c) as (p & -> & _); [lia|]. rewrite bind_Ret. eexists. split; [done|]. rewrite <- Hd.
  destruct (onQualityChange _); (split; [split|]); cbn; try done. apply Forall_app. split; [done|]. constructor; [done|constructor].
Qed.
Lemma determine_ok q : ok q -> exists target, determineTargetProfile (calculateQualityScore q) q = Ret target /\ 0 <= target < len profiles /\
  (let c := currentProfile q in if target <? c then c - 1 else if c <? target then c + 1 else c) = next_profile q.
Proof.
  intros [O1 _ _]. unfold determineTargetProfile, next_profile, critical. set (c := currentProfile q) in *. set (s := calculateQualityScore q).
  change (len profiles) with 5 in *. destruct (healthy s q); cbn [negb andb].
  - destruct (Z.ltb_spec 0 c) as [Hc|Hc].
    + destruct (idx_Ret profiles (c - 1)) as (p & -> & ->); [change (len profiles) with 5; lia|]. rewrite bind_Ret. eexists. split; [done|].
      cbn [andb]. unfold affords. destruct (_ <? networkBandwidth q); cbn zeta; repeat case_bool; lia.
    + exists c. split; [done|]. split; [lia|]. cbn zeta. rewrite (proj2 (Z.ltb_ge c c)) by lia. by destruct (profiles !! _).
  - destruct (emergency s q); cbn [orb]; [eexists; split; [done|]; cbn zeta; repeat case_bool; lia|].
    destruct (struggling s q); (eexists; split; [done|]); cbn zeta; repeat case_bool; lia.
Qed.
Lemma tick_ok now q : ok q -> exists q', evaluateAndAdapt now q = Ret q' /\ ok q' /\ same_load q q' /\ currentProfile q' = next_profile q /\ 0 <= targetProfile q' < len profiles.
Proof.
  intros Hok. unfold evaluateAndAdapt. set (s := calculateQualityScore q). set (q1 := q <| qualityScore := s |>).
  assert (ok q1 /\ same_load q q1 /\ currentProfile q1 = currentProfile q) as (Hok1 & Hl1 & Hc1) by (destruct Hok; by split).
  destruct (determine_ok q Hok) as (target & Hd & Ht & Hn). fold s in Hd.
  assert (determineTargetProfile s q1 = Ret target) as -> by exact Hd. rewrite bind_Ret.
  set (q2 := q1 <| targetProfile := target |>). assert (ok q2) as Hok2 by (destruct Hok1; by split).
  destruct (transition_ok now target q2 Hok2 Ht) as (q3 & E & Hok3 & Hl3 & Ht3 & Hc3). rewrite E, bind_Ret.
  unfold collectMLData. set (p := mkPoint _ _ _ _ _ _ _ _ _). destruct (add_point_ok p q3 Hok3) as (Hok4 & Hl4 & Hc4 & Ht4).
  eexists. split; [done|]. split; [done|]. split; [by eapply same_load_trans; [|exact Hl4]|]. split; [|by rewrite Ht4, Ht3].
  rewrite Hc4, Hc3, <- Hn. done.
Qed.
Lemma new_quality_ok now : ok (NewAdaptiveQuality now).
Proof. split; [split; by vm_compute|split; [done|by vm_compute]|constructor]. Qed.
Lemma exec_quality_ok o q : ok q -> exists q', exec o q = Ret q' /\ ok q'.
Proof.
  intros Hok. destruct o; cbn [exec]; try (eexists; split; [done|]; destruct Hok; by split).
  - eexists. split; [done|]. unfold SetTargetQuality. destruct Hok. case_bool; by split.
  - destruct (tick_ok now q Hok) as (q' & E & ? & _). by exists q'.
Qed.
Lemma run_quality_ok l q : ok q -> exists q', run l q = Ret q' /\ ok q'.
Proof.
  revert q. induction l as [|o l IH]; intros q Hok; [by exists q|]. cbn [run]. destruct (exec_quality_ok o q Hok) as (q1 & -> & H1).
  rewrite bind_Ret. by apply IH.
Qed.

Lemma all_afforded q p : 60000000 < networkBandwidth q -> p ∈ profiles -> affords q p = true.
Proof.
  intros Hb Hp. unfold affords. apply Z.ltb_lt. assert (Z.quot (Bitrate p * 120) 100 <= 60000000); [|lia].
  revert p Hp. apply Forall_forall. decide_goal.
Qed.
Lemma ticks_ok (ns : list Z) q : ok q ->
  exists q', run (OpTick <$> ns) q = Ret q' /\ ok q' /\
    (critical q = true -> currentProfile q' = Z.min 4 (currentProfile q + len ns)) /\
    (healthy (calculateQualityScore q) q = true -> 60000000 < networkBandwidth q -> currentProfile q' = Z.max 0 (currentProfile q - len ns)).
Proof.
  revert q. induction ns as [|n ns IH]; intros q Hok.
  { exists q. split; [done|]. split; [done|]. change (len (@nil Z)) with 0. pose proof (ok_current q Hok) as Hc. change (len profiles) with 5 in Hc. split; intros; lia. }
  rewrite fmap_cons. cbn [run exec]. destruct (tick_ok n q Hok) as (q1 & -> & Hok1 & Hl & Hc & _). rewrite bind_Ret.
  destruct (IH q1 Hok1) as (q' & E & Hok' & H1 & H2). exists q'. split; [done|]. split; [done|]. rewrite len_cons. pose proof (len_nonneg ns).
  pose proof (ok_current q Hok) as Hr. change (len profiles) with 5 in Hr. unfold next_profile in Hc. change (len profiles) with 5 in Hc. split.
  - intros Hcr. rewrite H1 by by rewrite (same_load_critical q q1 Hl). rewrite Hc, Hcr. unfold critical in Hcr.
    apply andb_true_iff in Hcr as [Hh _]. apply negb_true_iff in Hh. rewrite Hh. lia.
  - intros Hh Hb. rewrite H2.
    + rewrite Hc, Hh. destruct (Z.ltb_spec 0 (currentProfile q)) as [Hp|Hp].
      * destruct (profiles !! Z.to_nat (currentProfile q - 1)) as [p|] eqn:Ep.
        { rewrite all_afforded by (done || by eapply list_elem_of_lookup_2). cbn [andb]. lia. }
        { apply lookup_ge_None in Ep. cbn in Ep. lia. }
      * destruct (profiles !! _); cbn [andb]; lia.
    + rewrite (same_load_score q q1 Hl). by destruct (same_load_conditions q q1 (calculateQualityScore q) Hl) as (-> & _).
    + destruct Hl as (_ & _ & -> & _). done.
Qed.

(** C21: however metrics, targets and ticks are interleaved, the current profile is
    one of the five, every change is a single step and at most a thousand data
    points are kept; and when the load stays as it is, four ticks take a critical
    stream to the least profile, and a healthy one with more than 60 Mbit/s to
    the best. *)
Theorem quality_follows_load now (l : list op) (ns : list Z) :
  exists q, run l (NewAdaptiveQuality now) = Ret q /\ 0 <= currentProfile q < len profiles /\ len (GetMLData q) <= 1000 /\
    Forall (fun c : Z * Z => c.2 = c.1 + 1 \/ c.2 = c.1 - 1) (changes q) /\
    exists q', run (OpTick <$> ns) q = Ret q' /\
      (critical q = true -> 4 <= len ns -> currentProfile q' = QualityLevelMinimum) /\
      (healthy (calculateQualityScore q) q = true -> 60000000 < networkBandwidth q -> 4 <= len ns -> currentProfile q' = QualityLevelUltra).
Proof.
  destruct (run_quality_ok l (NewAdaptiveQuality now) (new_quality_ok now)) as (q & E & Hok). exists q. split; [done|].
  pose proof Hok as [O1 [O2 O2'] O3]. split; [done|]. split; [done|]. split; [eapply Forall_impl; [exact O3|]; by intros c [_ ?]|].
  destruct (ticks_ok ns q Hok) as (q' & E' & _ & H1 & H2). exists q'. split; [done|]. change (len profiles) with 5 in O1.
  split; intros; [rewrite H1 by done|rewrite H2 by done]; unfold QualityLevelMinimum, QualityLevelUltra; lia.
Qed.

Lemma quality_follows_load_witness :
  let l := [OpSystem (f64_dec 99 2) (f64_dec 50 2) 0] in
  exists q q', run l (NewAdaptiveQuality 0) = Ret q /\ critical q = true /\ run (OpTick <$> [1; 2; 3; 4]) q = Ret q' /\
    currentProfile q' = QualityLevelMinimum.
Proof.
  intros l. destruct (quality_follows_load 0 l [1; 2; 3; 4]) as (q & E & _ & _ & _ & q' & E' & H & _). exists q, q'.
  assert (critical q = true) as Hc by (vm_compute in E; injection E as <-; by vm_compute).
  split; [done|]. split; [done|]. split; [done|]. apply H; [done|by vm_compute].
Defined.

(** *** Examples *)

Definition profile_after (l : list op) : option (Z * Z) :=
  match run l (NewAdaptiveQuality 0) with Ret q => Some (currentProfile q, targetProfile q) | _ => None end.
Definition full (n : Z) : float64 := f64_dec n 2.

(** The two steps of an emergency are never taken: the next tick sets the target
    anew, one step ahead of where it is. *)
Example emergency_is_one_step :
  profile_after [OpSystem (full 99) (full 99) 0; OpTick 1] = Some (2, 3) /\
  profile_after [OpSystem (full 99) (full 99) 0; OpTick 1; OpSystem (full 55) (full 10) 0; OpTick 2] = Some (2, 2).
Proof. by vm_compute. Qed.
(** A target set by hand lasts until the next tick and is never moved to. *)
Example manual_target_is_lost :
  profile_after [OpSystem (full 70) (full 10) 0; OpTarget QualityLevelMinimum] = Some (1, 4) /\
  profile_after [OpSystem (full 70) (full 10) 0; OpTarget QualityLevelMinimum; OpTick 1] = Some (1, 1).
Proof. by vm_compute. Qed.
(** A negative level is accepted, and the statistics then panic. *)
Example negative_target_panics :
  GetStatistics (SetTargetQuality (-1) (NewAdaptiveQuality 0)) = Panic.
Proof. by vm_compute. Qed.
(** The "penalty above 80 percent" begins at zero: at 40 percent of processor and
    memory the score is below the 0.8 that a better profile needs. *)
Example penalty_from_zero :
  let q := UpdateSystemMetrics (full 25) (full 25) 100000000 (NewAdaptiveQuality 0) in
  healthy (calculateQualityScore q) q = true /\
  (let q := UpdateSystemMetrics (full 40) (full 40) 100000000 (NewAdaptiveQuality 0) in healthy (calculateQualityScore q) q = false).
Proof. by vm_compute. Qed.
