(* ===== verification/SmartRecovery.v ===== *)
(** * Recovery by error patterns (recovery/smart_recovery.go)

    A handler on top of [Recovery] that chooses a strategy from the errors it has
    seen and the frames it keeps.  It has a lock of its own, which [HandleError]
    holds while it calls the handler below; that one calls back
    [UpdateRecoveryMetrics], which takes the same lock.  A call that waits for a
    lock it holds is [Deadlock].  Log calls, and the statistics map with its count
    of error types, are left out. *)

From stdpp Require Import strings.
From S2P Require Import Prelude Returns Float64 Frame Codec.
From S2P Require Gop GopBuffer GopBooks KeyFrames Recovery.
Import GopBuffer(Buffer, gop_of, buf_ok, SizedGOPs).
Import KeyFrames(IDRDetector, NewIDRDetector, IsIDRFrame, FindRecoveryPoints, RecoveryPoint, PredictNextKeyframe, NeedsKeyframe, GetRecoveryStrategy,
  ReportCorruption, whole).
Import Recovery(Handler, ErrorType, RecoveryState, details, waits, requestKeyframe, recent).
#[local] Existing Instances Recovery.eta_Handler Recovery.RecoveryState_eq_dec KeyFrames.eta_IDR KeyFrames.eta_Point.

Record ErrorEvent := mkEvent { Type_ : ErrorType; Timestamp : Z; FrameNum : Z; Recovered : bool; Duration : Z }.

(** The goroutines it starts, with the time they began. *)
Inductive task : Type :=
| TWait (timeout : Z) (began : option Z)
| TMonitor (frame : Z) (began : option Z).

Record SmartRecoveryHandler := mkSmart {
  base : Handler; idrDetector : IDRDetector; recoveryAttempts : Z; lastErrorType : ErrorType; errorHistory : list ErrorEvent;
  adaptiveGOPSize : bool; fastRecovery : bool; preemptiveMode : bool; avgRecoveryTime : Z; successRate : float64;
  frameBuffer : list VideoFrame; bufferSize : Z; tasks : gmap Z task; next : Z; stopped : bool
}.
#[export] Instance eta_Smart : Eta SmartRecoveryHandler := fun h =>
  mkSmart (base h) (idrDetector h) (recoveryAttempts h) (lastErrorType h) (errorHistory h) (adaptiveGOPSize h) (fastRecovery h) (preemptiveMode h)
    (avgRecoveryTime h) (successRate h) (frameBuffer h) (bufferSize h) (tasks h) (next h) (stopped h).
Implicit Types (h : SmartRecoveryHandler) (f : VideoFrame).

Record SmartConfig := mkSmartConfig {
  sc_Config : Recovery.Config; EnableAdaptiveGOP : bool; EnableFastRecovery : bool; EnablePreemptive : bool; FrameBufferSize : Z }.
(** [make] of a negative capacity panics. *)
Definition NewSmartRecoveryHandler (c : SmartConfig) (b : Buffer) (codec : CodecType) : res SmartRecoveryHandler :=
  if FrameBufferSize c <? 0 then Panic
  else Ret (mkSmart (Recovery.SetCallbacks true true true (Recovery.NewHandler (sc_Config c) b)) (NewIDRDetector codec) 0 Recovery.ErrorTypePacketLoss []
         (EnableAdaptiveGOP c) (EnableFastRecovery c) (EnablePreemptive c) 0 (f64_of_Z 0) [] (FrameBufferSize c) ∅ 0 false).

(** ** What the strategies look at *)

Inductive RecoveryStrategyType : Type := RecoveryStrategyDefault | RecoveryStrategyFast | RecoveryStrategyAdaptive | RecoveryStrategyPreemptive.
#[export] Instance RecoveryStrategyType_eq_dec : EqDecision RecoveryStrategyType.
Proof. solve_decision. Defined.

Definition getRecentErrors (now duration : Z) h : list ErrorEvent :=
  filter (fun e => now - duration < Timestamp e) (errorHistory h).

Fixpoint intervals (l : list ErrorEvent) : list Z :=
  match l with a :: (b :: _) as t => time_sub (Timestamp b) (Timestamp a) :: intervals t | _ => [] end.
Definition similar (avg interval : Z) : bool :=
  let ratio := f64_div (f64_of_Z interval) (f64_of_Z avg) in negb (f64_ltb ratio (f64_dec 8 1) || f64_ltb (f64_dec 12 1) ratio).
Definition hasRepeatingPattern h : bool :=
  if len (errorHistory h) <? 4 then false
  else
    match intervals (dropZ (len (errorHistory h) - 4) (errorHistory h)) with
    | (a :: b :: _) as l => forallb (similar (Z.quot (i64 (a + b)) 2)) l
    | _ => false
    end.

Definition is_corruption (e : ErrorType) : bool := match e with Recovery.ErrorTypeCorruption => true | _ => false end.
Definition analyzeErrorPattern (now : Z) h : RecoveryStrategyType :=
  if len (errorHistory h) <? 2 then RecoveryStrategyDefault
  else
    let recentErrors := getRecentErrors now (5 * 60 * second) h in
    let errorRate := f64_div (f64_of_Z (len recentErrors)) (f64_of_Z 5) in
    if f64_ltb (f64_of_Z 2) errorRate && fastRecovery h then RecoveryStrategyFast
    else if hasRepeatingPattern h && adaptiveGOPSize h then RecoveryStrategyAdaptive
    else if (2 <? len (filter (fun e => is_corruption (Type_ e) = true) recentErrors)) && preemptiveMode h then RecoveryStrategyPreemptive
    else RecoveryStrategyDefault.

Definition getCurrentFrameNumber h : Z := match last (frameBuffer h) with Some f => FrameNumber f | None => 0 end.

Definition selectBestRecoveryPoint (points : list RecoveryPoint) : option RecoveryPoint :=
  match List.find KeyFrames.IsIDR points with
  | Some p => Some p
  | None =>
      match points with
      | [] => None
      | p :: points => Some (fold_left (fun best q => if f64_ltb (KeyFrames.Confidence best) (KeyFrames.Confidence q) then q else best) points p)
      end
  end.

(** The average size of the frames of a type. *)
Definition getExpectedFrameSize (t : FrameType) h : Z :=
  let sizes := TotalSize <$> filter (fun f => FType f = t) (frameBuffer h) in
  if len sizes =? 0 then 0 else Z.quot (fold_left (fun s n => i64 (s + n)) sizes 0) (len sizes).
Definition assessFrameQuality f h : float64 :=
  let score := f64_of_Z 1 in
  let score := if IsCorrupted f then f64_mul score (f64_dec 1 1) else score in
  let expectedSize := getExpectedFrameSize (FType f) h in
  let score :=
    if 0 <? expectedSize then
      let sizeRatio := f64_div (f64_of_Z (TotalSize f)) (f64_of_Z expectedSize) in
      if f64_ltb sizeRatio (f64_dec 5 1) || f64_ltb (f64_of_Z 2) sizeRatio then f64_mul score (f64_dec 7 1) else score
    else score in
  let score := if PTS f <? DTS f then f64_mul score (f64_dec 5 1) else score in
  if 40 <? QP f then f64_mul score (f64_dec 8 1) else score.
Definition checkMissingReferences f h : Z :=
  len (filter (fun ref => existsb (fun b => FrameNumber b =? ref) (frameBuffer h) = false) (References f)).
Definition shouldTriggerPreemptiveRecovery f h : SmartRecoveryHandler * bool :=
  if f64_ltb (assessFrameQuality f h) (f64_dec 5 1) && NeedsKeyframe (FrameNumber f) false (idrDetector h) then (h, true)
  else if (0 <? len (References f)) && (0 <? checkMissingReferences f h)
       then (h <| idrDetector := ReportCorruption (idrDetector h) |>, false) else (h, false).

Definition findUpcomingRecoveryPoint h : option Z :=
  let currentFrame := getCurrentFrameNumber h in
  let predicted := PredictNextKeyframe currentFrame (idrDetector h) in
  if u64 (predicted - currentFrame) <? 10 then Some predicted else None.

Definition getCurrentStrategy h : string :=
  if fastRecovery h && match lastErrorType h with Recovery.ErrorTypePacketLoss => true | _ => false end then "fast"
  else if adaptiveGOPSize h then "adaptive" else if preemptiveMode h then "preemptive" else "default".

(** ** Errors *)

Inductive locked (A : Type) : Type := Deadlock | Went (a : A).
Arguments Deadlock {A}.
Arguments Went {A} a.

Definition start_task (t : task) h : SmartRecoveryHandler := h <| tasks := <[next h := t]> (tasks h) |> <| next := next h + 1 |>.

Definition requestKeyframeImmediate (now : Z) h : SmartRecoveryHandler :=
  let b := Recovery.setState now Recovery.StateResyncing (base h) in
  h <| base := Recovery.call (Recovery.onForceKeyframe b) Recovery.OnForceKeyframe b |>.

Definition applyFastRecovery (now : Z) h : res SmartRecoveryHandler :=
  let h := h <| recoveryAttempts := i64 (recoveryAttempts h + 1) |> in
  '(d, points) ← FindRecoveryPoints (Some <$> frameBuffer h) (idrDetector h);
  let h := h <| idrDetector := d |> in
  Ret match points with
      | [] => requestKeyframeImmediate now h
      | _ => h <| base := Recovery.setState now Recovery.StateNormal (base h) |>
      end.

Definition applyAdaptiveRecovery h : SmartRecoveryHandler :=
  let h := h <| recoveryAttempts := i64 (recoveryAttempts h + 1) |> in
  let current := getCurrentFrameNumber h in
  let framesUntilKeyframe := u64 (PredictNextKeyframe current (idrDetector h) - current) in
  let waitTime := i64 (f64_trunc (f64_mul (f64_of_Z framesUntilKeyframe) (f64_dec 3333 2)) * millisecond) in
  if waitTime <? 500 * millisecond then start_task (TWait (i64 (waitTime + 100 * millisecond)) None) h
  else h <| base := requestKeyframe (base h) |>.

Definition applyPreemptiveRecovery h : SmartRecoveryHandler :=
  let h := h <| recoveryAttempts := i64 (recoveryAttempts h + 1) |> in
  match GetRecoveryStrategy (idrDetector h) with
  | KeyFrames.RecoveryStrategyRequestKeyframe => h <| base := requestKeyframe (base h) |>
  | KeyFrames.RecoveryStrategyFindRecoveryPoint =>
      match findUpcomingRecoveryPoint h with Some p => start_task (TMonitor p None) h | None => h end
  | _ => h
  end.

(** The handler below has called [onRecoveryEnd]. *)
Definition is_end (e : Recovery.event) : bool := match e with Recovery.OnEnd _ _ => true | _ => false end.
Definition new_events (b b' : Handler) : list Recovery.event := drop (length (Recovery.events b)) (Recovery.events b').

Definition logged (now : Z) (e : ErrorType) h : SmartRecoveryHandler :=
  h <| errorHistory := errorHistory h ++ [mkEvent e now (getCurrentFrameNumber h) false 0] |> <| lastErrorType := e |>.
Definition HandleError (now later : Z) (e : ErrorType) (d : details) h : res (locked SmartRecoveryHandler) :=
  let h := logged now e h in
  match analyzeErrorPattern now h with
  | RecoveryStrategyFast => h ← applyFastRecovery now h; Ret (Went h)
  | RecoveryStrategyAdaptive => Ret (Went (applyAdaptiveRecovery h))
  | RecoveryStrategyPreemptive => Ret (Went (applyPreemptiveRecovery h))
  | RecoveryStrategyDefault =>
      let h := h <| recoveryAttempts := i64 (recoveryAttempts h + 1) |> in
      b ← Recovery.HandleError now later e d (base h);
      Ret (if existsb is_end (new_events (base h) b) then Deadlock else Went (h <| base := b |>))
  end.

Definition set_last (success : bool) (duration : Z) (l : list ErrorEvent) : list ErrorEvent :=
  match last l with
  | Some e => removelast l ++ [mkEvent (Type_ e) (Timestamp e) (FrameNum e) success duration]
  | None => l
  end.
Definition UpdateRecoveryMetrics (duration : Z) (success : bool) h : SmartRecoveryHandler :=
  let h := h <| avgRecoveryTime := if avgRecoveryTime h =? 0 then duration else Z.quot (i64 (avgRecoveryTime h + duration)) 2 |> in
  let n := f64_of_Z (Recovery.recoveryCount (base h)) in
  let scaled := f64_mul (successRate h) (f64_sub n (f64_of_Z 1)) in
  let h :=
    if Recovery.recoveryCount (base h) =? 0 then h
    else if success then h <| successRate := f64_div (f64_add scaled (f64_of_Z 1)) n |>
    else h <| successRate := f64_div scaled n |> in
  h <| errorHistory := set_last success duration (errorHistory h) |>.

(** ** Frames and goroutines *)

Definition ProcessFrame (now later : Z) (frame : option VideoFrame) h : res (locked SmartRecoveryHandler) :=
  match frame with
  | None => Ret (Went h)
  | Some f =>
      '(d, idr) ← IsIDRFrame (Some f) (idrDetector h);
      let h := h <| idrDetector := d |> in
      let h := if idr : bool then h <| base := Recovery.UpdateKeyframe (Some f) (base h) |> else h in
      let l := frameBuffer h ++ [f] in
      let h := h <| frameBuffer := if bufferSize h <? len l then dropZ 1 l else l |> in
      let h := if IsCorrupted f then h <| idrDetector := ReportCorruption (idrDetector h) |> else h in
      let '(h, needsRecovery) := if preemptiveMode h then shouldTriggerPreemptiveRecovery f h else (h, false) in
      if needsRecovery then HandleError now later Recovery.ErrorTypeCorruption Recovery.FrameDetails h else Ret (Went h)
  end.

Definition begin_task (now a : Z) h : SmartRecoveryHandler :=
  match tasks h !! a with
  | Some (TWait t None) => h <| tasks := <[a := TWait t (Some now)]> (tasks h) |>
  | Some (TMonitor p None) => h <| tasks := <[a := TMonitor p (Some now)]> (tasks h) |>
  | _ => h
  end.
Inductive wake : Type := WakeDone | WakeTimer | WakeTick.
Definition end_task (a : Z) h : SmartRecoveryHandler := h <| tasks := delete a (tasks h) |>.

(** A case of the [select] of a goroutine; [Went h] unchanged when it is not ready. *)
Definition wake_task (now later a : Z) (k : wake) h : res (locked SmartRecoveryHandler) :=
  match tasks h !! a with
  | Some (TWait timeout (Some start)) =>
      match k with
      | WakeDone => Ret (Went (if stopped h then end_task a h else h))
      | WakeTimer =>
          if timeout <=? now - start
          then r ← HandleError now later Recovery.ErrorTypeTimeout Recovery.NoDetails (UpdateRecoveryMetrics (time_sub now start) false h);
               Ret match r with Went h => Went (end_task a h) | Deadlock => Deadlock end
          else Ret (Went h)
      | WakeTick =>
          Ret (Went (match Recovery.GetState (base h) with
                     | Recovery.StateNormal => end_task a (UpdateRecoveryMetrics (time_sub now start) true h)
                     | _ => h
                     end))
      end
  | Some (TMonitor p (Some start)) =>
      match k with
      | WakeDone => Ret (Went (if stopped h then end_task a h else h))
      | WakeTimer => Ret (Went (if 2 * second <=? now - start then end_task a h else h))
      | WakeTick =>
          Ret (Went (if p <=? getCurrentFrameNumber h
                     then end_task a (h <| base := Recovery.setState now Recovery.StateNormal (base h) |>) else h))
      end
  | _ => Ret (Went h)
  end.
(** A call or a waiter of the handler below, with its calls back. *)
Definition on_base (l : Recovery.label) h : res SmartRecoveryHandler :=
  b ← Recovery.step l (base h);
  Ret (fold_left (fun h e => match e with Recovery.OnEnd d s => UpdateRecoveryMetrics d s h | _ => h end) (new_events (base h) b) (h <| base := b |>)).
(** The context of the goroutines is cancelled. *)
Definition cancel h : SmartRecoveryHandler := h <| stopped := true |>.

#[export] Instance ErrorType_eq_dec : EqDecision ErrorType.
Proof. solve_decision. Defined.
Definition typeCounts (t : ErrorType) h : Z := len (filter (fun e => Type_ e = t) (errorHistory h)).
(** The most common types: the order of the map decides which is shown. *)
Definition mostCommon h : list ErrorType :=
  let types := Type_ <$> errorHistory h in filter (fun t => Forall (fun u => typeCounts u h <= typeCounts t h) types) types.
Record patterns := mkPatterns { most_common_error : list ErrorType; error_count : Z; recovery_rate : float64 }.
Definition analyzeErrorPatterns h : option patterns :=
  if len (errorHistory h) =? 0 then None else Some (mkPatterns (mostCommon h) (len (errorHistory h)) (successRate h)).

Record SmartStatistics := mkSmartStats {
  ss_Statistics : Recovery.Statistics; ss_RecoveryAttempts : Z; ss_AvgRecoveryTime : Z; ss_SuccessRate : float64;
  ss_ErrorPatterns : option patterns; ss_GOPInterval : float64; ss_Strategy : string }.
Definition GetSmartStatistics h : SmartStatistics :=
  mkSmartStats (Recovery.GetStatistics (base h)) (recoveryAttempts h) (avgRecoveryTime h) (successRate h) (analyzeErrorPatterns h)
    (KeyFrames.GetKeyframeInterval (idrDetector h)) (getCurrentStrategy h).

Inductive label : Type :=
| SError (now later : Z) (e : ErrorType) (d : details)
| SFrame (now later : Z) (f : VideoFrame)
| SBegin (now a : Z)
| SWake (now later a : Z) (k : wake)
| SBase (l : Recovery.label)
| SCancel.
Definition step (l : label) h : res (locked SmartRecoveryHandler) :=
  match l with
  | SError now later e d => HandleError now later e d h
  | SFrame now later f => ProcessFrame now later (Some f) h
  | SBegin now a => Ret (Went (begin_task now a h))
  | SWake now later a k => wake_task now later a k h
  | SBase l => h ← on_base l h; Ret (Went h)
  | SCancel => Ret (Went (cancel h))
  end.
Fixpoint run (ls : list label) h : res (locked SmartRecoveryHandler) :=
  match ls with
  | [] => Ret (Went h)
  | l :: ls => r ← step l h; match r with Deadlock => Ret Deadlock | Went h => run ls h end
  end.

(** ** What the handler below calls back *)

Section smart.
Context `{SizedGOPs}.

Definition has_closed (b : Handler) : bool := existsb (fun r => Gop.Closed (gop_of (Recovery.gopBuffer b) r)) (recent 3 (Recovery.gopBuffer b)).
(** A group has a sound key frame once the corrupted frames are dropped. *)
Definition sound_after_drop (b : Handler) : bool :=
  match Recovery.dropCorruptedFrames b with Ret (b, _) => bool_decide (Recovery.findNextKeyframe b <> None) | _ => false end.
(** A recovery that is over before the call returns. *)
Definition ends_at_once (e : ErrorType) (d : details) (b : Handler) : bool :=
  negb (bool_decide (Recovery.state b = Recovery.StateRecovering)) &&
  match e with
  | Recovery.ErrorTypePacketLoss => has_closed b
  | Recovery.ErrorTypeSequenceGap => match d with Recovery.GapOf n => (5 <=? n) && has_closed b | _ => false end
  | Recovery.ErrorTypeCorruption => sound_after_drop b
  | _ => false
  end.

(** [b'] has called [l] more. *)
Definition called (l : list Recovery.event) (b b' : Handler) : Prop :=
  Recovery.events b' = Recovery.events b ++ l /\ Recovery.onRecoveryEnd b' = Recovery.onRecoveryEnd b /\ Recovery.onRecoveryStart b' = Recovery.onRecoveryStart b /\ Recovery.onForceKeyframe b' = Recovery.onForceKeyframe b.
Lemma called_new l b b' : called l b b' -> new_events b b' = l.
Proof. intros [E _]. unfold new_events. by rewrite E, drop_app_length. Qed.
Lemma called_trans l1 l2 b1 b2 b3 : called l1 b1 b2 -> called l2 b2 b3 -> called (l1 ++ l2) b1 b3.
Proof. intros (E1 & E2 & E3 & E4) (F1 & F2 & F3 & F4). repeat split; [by rewrite F1, E1, app_assoc|congruence..]. Qed.
Lemma called_r l b1 b2 b3 : called l b1 b2 -> called [] b2 b3 -> called l b1 b3.
Proof. intros H1 H2. rewrite <- (app_nil_r l). by eapply called_trans. Qed.
Lemma called_l l b1 b2 b3 : called [] b1 b2 -> called l b2 b3 -> called l b1 b3.
Proof. intros H1 H2. by eapply (called_trans []). Qed.
Lemma called_state now s b : called [] b (Recovery.setState now s b).
Proof. destruct (Recovery.set_state_rest now s b) as [t ->]. repeat split. cbn. by rewrite app_nil_r. Qed.
Lemma called_call (c : bool) e b : called (if c then [e] else []) b (Recovery.call c e b).
Proof. destruct c; repeat split. cbn. by rewrite app_nil_r. Qed.
Lemma called_start b : called [] b (Recovery.start_waiter b).
Proof. unfold Recovery.start_waiter. repeat split; destruct (Recovery.keyframeCancel b); cbn; by rewrite ?app_nil_r. Qed.
Lemma called_request b : called (if Recovery.onForceKeyframe b then [Recovery.OnForceKeyframe] else []) b (requestKeyframe b).
Proof. unfold requestKeyframe. eapply called_r; [apply called_call|apply called_start]. Qed.

Definition ends (l : list Recovery.event) : bool := existsb is_end l.
Lemma ends_request b : ends (if Recovery.onForceKeyframe b then [Recovery.OnForceKeyframe] else []) = false.
Proof. by destruct (Recovery.onForceKeyframe b). Qed.

(** [setState], a count and [onRecoveryStart]: how a recovery begins. *)
Lemma called_begin now s e (f : Handler -> Handler) b :
  (forall b, called [] b (f b)) -> (forall b, Recovery.gopBuffer (f b) = Recovery.gopBuffer b) ->
  let b1 := Recovery.call (Recovery.onRecoveryStart (Recovery.setState now s b)) (Recovery.OnStart e) (f (Recovery.setState now s b)) in
  Recovery.gopBuffer b1 = Recovery.gopBuffer b /\ exists l, called l b b1 /\ ends l = false.
Proof.
  intros Hf Hg b1. split.
  - subst b1. destruct (Recovery.set_state_rest now s b) as [t ->]. cbn. destruct (Recovery.onRecoveryStart b); cbn; by rewrite Hg.
  - eexists. split; [eapply called_trans; [apply (called_state now s)|]; eapply called_trans; [apply Hf|apply called_call]|].
    by destruct (Recovery.onRecoveryStart _).
Qed.
Lemma called_end now later s b :
  called (if Recovery.onRecoveryEnd b then [Recovery.OnEnd (time_sub later now) s] else []) b
    (Recovery.call (Recovery.onRecoveryEnd b) (Recovery.OnEnd (time_sub later now) s)
       (Recovery.setState later Recovery.StateNormal b)).
Proof.
  eapply called_l; [apply called_state|apply called_call].
Qed.
Lemma loss_called now later b :
  exists l, called l b (Recovery.recoverFromPacketLoss now later b) /\ ends l = has_closed b && Recovery.onRecoveryEnd b.
Proof.
  unfold Recovery.recoverFromPacketLoss, has_closed.
  destruct (called_begin now Recovery.StateRecovering Recovery.ErrorTypePacketLoss (fun g : Handler => g <| Recovery.recoveryCount := u64 (Recovery.recoveryCount g + 1) |>) b)
    as (Hg & l & Hl & He); [by repeat split; cbn; rewrite app_nil_r|done|].
  cbv zeta beta in Hg, Hl. rewrite Hg. set (b1 := Recovery.call _ _ _) in *. pose proof Hl as (_ & Hend & _).
  destruct (existsb _ _); cbn [andb].
  - eexists. split; [eapply called_trans; [exact Hl|apply called_end]|]. rewrite Hend. unfold ends in *. rewrite existsb_app, He.
    by destruct (Recovery.onRecoveryEnd b).
  - eexists. split; [eapply called_trans; [exact Hl|apply called_request]|]. unfold ends in *. rewrite existsb_app, He. apply ends_request.
Qed.

Lemma corruption_called now later b b' : Recovery.recoverFromCorruption now later b = Ret b' ->
  exists l, called l b b' /\ ends l = sound_after_drop b && Recovery.onRecoveryEnd b.
Proof.
  unfold Recovery.recoverFromCorruption, sound_after_drop, Recovery.dropCorruptedFrames.
  destruct (called_begin now Recovery.StateRecovering Recovery.ErrorTypeCorruption (fun g : Handler => g <| Recovery.corruptionCount := u64 (Recovery.corruptionCount g + 1) |>) b)
    as (Hg & l & Hl & He); [by repeat split; cbn; rewrite app_nil_r|done|].
  cbv zeta beta in Hg, Hl |- *. set (b1 := Recovery.call _ _ _) in *. rewrite Hg.
  destruct (Recovery.drop_loop _ _ _) as [[g dropped]| |]; rewrite ?bind_Ret; [|done..].
  assert (called l b (b1 <| Recovery.gopBuffer := g |>)) as Hc by exact Hl.
  assert (Recovery.findNextKeyframe (b <| Recovery.gopBuffer := g |>) = Recovery.findNextKeyframe (b1 <| Recovery.gopBuffer := g |>)) as -> by done.
  generalize dependent (b1 <| Recovery.gopBuffer := g |>). intros c Hc. pose proof Hc as (_ & Hend & _).
  destruct (Recovery.findNextKeyframe c) as [k|]; intros [= <-].
  - eexists. split; [eapply called_trans; [exact Hc|apply called_end]|]. rewrite Hend. unfold ends in *. rewrite existsb_app, He.
    by destruct (Recovery.onRecoveryEnd b).
  - eexists. split; [eapply called_trans; [exact Hc|apply called_request]|]. unfold ends in *. rewrite existsb_app, He. apply ends_request.
Qed.

Lemma handle_called now later e d b b' : Recovery.HandleError now later e d b = Ret b' ->
  exists l, called l b b' /\ ends l = ends_at_once e d b && Recovery.onRecoveryEnd b.
Proof.
  assert (forall c, exists l, called l c (requestKeyframe c) /\ ends l = false) as Hreq by (intros c; eexists; split; [apply called_request|apply ends_request]).
  assert (forall c c', called [] b c -> (exists l, called l c c' /\ ends l = false) -> exists l, called l b c' /\ ends l = false) as Hthen.
  { intros c c' H1 (l & H2 & H3). exists l. split; [by eapply called_l|done]. }
  assert (called [] b b) as Hsame by (repeat split; by rewrite app_nil_r).
  assert (exists l, called l b b /\ ends l = false) as Hnone by by exists [].
  unfold Recovery.HandleError, ends_at_once. case_bool_decide as Hr; cbn [negb andb].
  { intros [= <-]. unfold Recovery.escalateRecovery. case_bool; [|apply Hreq]. exists []. split; [apply called_state|done]. }
  destruct e; cbn [andb]; try (intros [= <-]).
  - apply loss_called.
  - apply corruption_called.
  - unfold Recovery.recoverFromTimeout. set (c := _ <| Recovery.resyncCount := _ |>).
    assert (called [] b c) as Hc by (subst c; exact (called_state now Recovery.StateResyncing b)).
    destruct (Recovery.lastKeyframe c); [case_bool|]; (eapply Hthen; [exact Hc|]); [apply Hreq|exists []; split; [apply called_start|done]..].
  - unfold Recovery.recoverFromSequenceGap. destruct d as [|n| |]; try done. destruct (Z.ltb_spec n 5).
    + assert (5 <=? n = false) as -> by lia. done.
    + assert (5 <=? n = true) as -> by lia. apply loss_called.
  - unfold Recovery.recoverFromTimestampJump. destruct d; try done. eapply Hthen; [apply called_state|apply Hreq].
  - unfold Recovery.recoverFromCodecError. eapply Hthen; [apply called_state|apply Hreq].
  - done.
Qed.

(** ** Every call returns, or waits for its own lock *)

Lemma set_found_total c data : exists o, KeyFrames.set_found c data = Ret o.
Proof.
  unfold KeyFrames.set_found. destruct data as [|x l]; [by eexists|].
  assert (len (x :: l) =? 0 = false) as -> by (apply Z.eqb_neq; rewrite len_cons; pose proof (len_nonneg l); lia).
  destruct c; try by eexists. destruct (KeyFrames.hevc_unit_spec (x :: l)) as (o & -> & _). by eexists.
Qed.
Lemma weigh_total c nals p : exists q, KeyFrames.weigh c nals p = Ret q.
Proof.
  revert p. induction nals as [|n nals IH]; intros p; [by eexists|]. cbn [KeyFrames.weigh].
  destruct (set_found_total c (nal_Data n)) as [o E]. rewrite E, bind_Ret. apply IH.
Qed.
Lemma find_points_total fs d : Forall whole fs -> exists d' ps, FindRecoveryPoints (Some <$> fs) d = Ret (d', ps).
Proof.
  intros Hw. revert d. induction Hw as [|f fs Hf _ IH]; intros d; [by do 2 eexists|]. cbn [fmap list_fmap FindRecoveryPoints].
  destruct (KeyFrames.detection_spec f d Hf) as (b & -> & _). rewrite bind_Ret. set (d1 := if _ && _ then _ else _).
  destruct b.
  - destruct (IH d1) as (d2 & ps & ->). by do 2 eexists.
  - cbv zeta. match goal with |- context [KeyFrames.weigh ?c ?l ?p] => destruct (weigh_total c l p) as [q ->] end.
    rewrite bind_Ret. destruct (IH d1) as (d2 & ps & ->). by do 2 eexists.
Qed.

Record smart_ok (n : Z) h : Prop := mkOk {
  so_base : waits (base h);
  so_end : Recovery.onRecoveryEnd (base h) = true;
  so_frames : Forall whole (frameBuffer h);
  so_size : len (frameBuffer h) <= bufferSize h;
  so_n : bufferSize h = n
}.
Lemma same_ok n h h' : base h' = base h -> frameBuffer h' = frameBuffer h -> bufferSize h' = bufferSize h -> smart_ok n h -> smart_ok n h'.
Proof. intros E1 E2 E3 [O1 O2 O3 O4 O5]. split; by rewrite ?E1, ?E2, ?E3. Qed.
Lemma base_ok n b h : smart_ok n h -> waits b -> Recovery.onRecoveryEnd b = Recovery.onRecoveryEnd (base h) -> smart_ok n (h <| base := b |>).
Proof. intros [O1 O2 O3 O4 O5] Hb He. by split; cbn; rewrite ?He. Qed.
Lemma called_ok n l b h : smart_ok n h -> waits b -> called l (base h) b -> smart_ok n (h <| base := b |>).
Proof. intros Hok Hb (_ & He & _). by apply base_ok. Qed.
Lemma metrics_ok n d s h : smart_ok n h -> smart_ok n (UpdateRecoveryMetrics d s h) /\ base (UpdateRecoveryMetrics d s h) = base h.
Proof.
  intros Hok. unfold UpdateRecoveryMetrics. set (h0 := h <| avgRecoveryTime := _ |>).
  assert (smart_ok n h0 /\ base h0 = base h) as [H1 H2] by (split; [by eapply same_ok; [..|exact Hok]|done]). clearbody h0.
  destruct (_ =? 0); [|destruct s]; (split; [by eapply same_ok; [..|exact H1]|exact H2]).
Qed.
Lemma set_state_ok n now s h : smart_ok n h -> smart_ok n (h <| base := Recovery.setState now s (base h) |>).
Proof. intros Hok. eapply called_ok; [done|apply Recovery.set_state_waits, Hok|apply called_state]. Qed.
Lemma request_smart_ok n h : smart_ok n h -> smart_ok n (h <| base := requestKeyframe (base h) |>).
Proof. intros Hok. eapply called_ok; [done|apply Recovery.request_ok, Hok|apply called_request]. Qed.

(** *** The strategies *)

Lemma fast_ok n now h : smart_ok n h -> exists h', applyFastRecovery now h = Ret h' /\ smart_ok n h' /\ errorHistory h' = errorHistory h.
Proof.
  intros Hok. unfold applyFastRecovery. set (h0 := h <| recoveryAttempts := _ |>).
  assert (smart_ok n h0 /\ errorHistory h0 = errorHistory h) as [H0 E0] by (split; [by eapply same_ok; [..|exact Hok]|done]). clearbody h0.
  destruct (find_points_total (frameBuffer h0) (idrDetector h0) (so_frames _ _ H0)) as (d & ps & ->). rewrite bind_Ret.
  assert (smart_ok n (h0 <| idrDetector := d |>)) as H1 by by eapply same_ok; [..|exact H0].
  eexists. split; [done|]. destruct ps.
  - split; [|done]. unfold requestKeyframeImmediate. eapply called_ok; [done|apply Recovery.call_waits, Recovery.set_state_waits, H1|].
    eapply called_l; [apply called_state|apply called_call].
  - split; [|done]. apply set_state_ok, H1.
Qed.
Lemma task_start_ok n t h : smart_ok n h -> smart_ok n (start_task t h) /\ errorHistory (start_task t h) = errorHistory h.
Proof. intros Hok. split; [|done]. by eapply same_ok; [..|exact Hok]. Qed.
Lemma adaptive_ok n h : smart_ok n h -> smart_ok n (applyAdaptiveRecovery h) /\ errorHistory (applyAdaptiveRecovery h) = errorHistory h.
Proof.
  intros Hok. unfold applyAdaptiveRecovery. set (h0 := h <| recoveryAttempts := _ |>).
  assert (smart_ok n h0 /\ errorHistory h0 = errorHistory h) as [H0 <-] by (split; [by eapply same_ok; [..|exact Hok]|done]). clearbody h0.
  case_bool; [by apply task_start_ok|]. split; [by apply request_smart_ok|done].
Qed.
Lemma preemptive_ok n h : smart_ok n h -> smart_ok n (applyPreemptiveRecovery h) /\ errorHistory (applyPreemptiveRecovery h) = errorHistory h.
Proof.
  intros Hok. unfold applyPreemptiveRecovery. set (h0 := h <| recoveryAttempts := _ |>).
  assert (smart_ok n h0 /\ errorHistory h0 = errorHistory h) as [H0 <-] by (split; [by eapply same_ok; [..|exact Hok]|done]). clearbody h0.
  destruct (GetRecoveryStrategy _); [done|split; [by apply request_smart_ok|done]| |done].
  destruct (findUpcomingRecoveryPoint h0); [by apply task_start_ok|done].
Qed.

(** An error waits for ever for the lock it holds when the handler below is
    asked and is done at once. *)
Definition deadlocks (now : Z) (e : ErrorType) (d : details) h : Prop :=
  analyzeErrorPattern now (logged now e h) = RecoveryStrategyDefault /\ ends_at_once e d (base h) = true.
Lemma error_spec n now later e d h : smart_ok n h ->
  exists r, HandleError now later e d h = Ret r /\ (r = Deadlock <-> deadlocks now e d h) /\
    forall h', r = Went h' -> smart_ok n h' /\ errorHistory h' = errorHistory h ++ [mkEvent e now (getCurrentFrameNumber h) false 0].
Proof.
  intros Hok. unfold HandleError, deadlocks.
  assert (smart_ok n (logged now e h)) as H0 by by eapply same_ok; [..|exact Hok].
  change (errorHistory h ++ _) with (errorHistory (logged now e h)). change (base h) with (base (logged now e h)).
  generalize dependent (logged now e h). clear Hok. intros h0 H0.
  destruct (analyzeErrorPattern now h0).
  - set (h1 := h0 <| recoveryAttempts := _ |>). change (base h0) with (base h1).
    assert (smart_ok n h1 /\ errorHistory h1 = errorHistory h0) as [H1 <-] by (split; [by eapply same_ok; [..|exact H0]|done]). clearbody h1.
    destruct (Recovery.handle_error_waits now later e d (base h1) (so_base _ _ H1)) as (b & Eb & Hb). rewrite Eb, bind_Ret.
    destruct (handle_called now later e d (base h1) b Eb) as (l & Hl & He). rewrite (called_new l _ _ Hl), (so_end _ _ H1), andb_true_r in *.
    fold (ends l). rewrite He. eexists. split; [done|]. destruct (ends_at_once _ _ _); (split; [by split; [|intros [_ ?]]|]); [done|].
    intros h' [= <-]. split; [|done]. by eapply called_ok.
  - destruct (fast_ok n now h0 H0) as (h' & -> & H' & E'). eexists. split; [done|]. split; [by split; [|intros []]|]. by intros ? [= <-].
  - eexists. split; [done|]. split; [by split; [|intros []]|]. intros ? [= <-]. by apply adaptive_ok.
  - eexists. split; [done|]. split; [by split; [|intros []]|]. intros ? [= <-]. by apply preemptive_ok.
Qed.

(** *** Frames, goroutines and the handler below *)

Definition went_ok (n : Z) (r : locked SmartRecoveryHandler) : Prop := forall h, r = Went h -> smart_ok n h.
Lemma went n h : smart_ok n h -> went_ok n (Went h).
Proof. by intros Hok ? [= <-]. Qed.
Lemma error_went n now later e d h : smart_ok n h -> exists r, HandleError now later e d h = Ret r /\ went_ok n r.
Proof. intros Hok. destruct (error_spec n now later e d h Hok) as (r & E & _ & H'). exists r. split; [done|]. intros h' Hr. by apply (H' h'). Qed.

Lemma buffered_ok n f h : 0 <= n -> whole f -> smart_ok n h ->
  smart_ok n (let l := frameBuffer h ++ [f] in h <| frameBuffer := if bufferSize h <? len l then dropZ 1 l else l |>).
Proof.
  intros Hn Hf [O1 O2 O3 O4 O5]. assert (Forall whole (frameBuffer h ++ [f])) as Hl by (apply Forall_app; by split; [|apply Forall_singleton]).
  pose proof (len_app (frameBuffer h) [f]) as Hlen. change (len [f]) with 1 in Hlen.
  split; cbn; [done..| | |done]; case_bool; [by apply Forall_drop|done| |lia].
  rewrite len_dropZ; lia.
Qed.
Lemma smart_frame_ok n now later f h : 0 <= n -> whole f -> smart_ok n h -> exists r, ProcessFrame now later (Some f) h = Ret r /\ went_ok n r.
Proof.
  intros Hn Hf Hok. unfold ProcessFrame. destruct (KeyFrames.detection_spec f (idrDetector h) Hf) as (b & -> & _). rewrite bind_Ret.
  set (h1 := h <| idrDetector := _ |>). assert (smart_ok n h1) as H1 by by eapply same_ok; [..|exact Hok].
  set (h2 := if b then _ else h1). assert (smart_ok n h2) as H2.
  { subst h2. destruct b; [|done]. apply base_ok; [done| |unfold Recovery.UpdateKeyframe; by destruct (IsKeyframe f)].
    destruct (so_base _ _ H1) as [W1 W2 W3]. unfold Recovery.UpdateKeyframe. by destruct (IsKeyframe f). }
  clearbody h2. pose proof (buffered_ok n f h2 Hn Hf H2) as H3. cbv zeta in H3. cbv zeta.
  set (h3 := h2 <| frameBuffer := _ |>) in *. clearbody h3.
  set (h4 := if IsCorrupted f then _ else h3). assert (smart_ok n h4) as H4 by (subst h4; destruct (IsCorrupted f); [by eapply same_ok; [..|exact H3]|done]).
  clearbody h4. assert (smart_ok n (if preemptiveMode h4 then shouldTriggerPreemptiveRecovery f h4 else (h4, false)).1) as H5.
  { destruct (preemptiveMode h4); [|exact H4]. unfold shouldTriggerPreemptiveRecovery. case_match; [exact H4|]. case_match; [|exact H4].
    by eapply same_ok; [..|exact H4]. }
  destruct (if preemptiveMode h4 then _ else _) as [h5 needs]. destruct needs; [by apply error_went|]. eexists. split; [done|]. by apply went.
Qed.

Lemma end_ok n a h : smart_ok n h -> smart_ok n (end_task a h).
Proof. intros Hok. by eapply same_ok; [..|exact Hok]. Qed.
Lemma begin_task_ok n now a h : smart_ok n h -> smart_ok n (begin_task now a h).
Proof. intros Hok. unfold begin_task. destruct (tasks h !! a) as [[t [v|]|p [v|]]|]; try done; by eapply same_ok; [..|exact Hok]. Qed.
Lemma task_ok n now later a k h : smart_ok n h -> exists r, wake_task now later a k h = Ret r /\ went_ok n r.
Proof.
  intros Hok. assert (forall h', smart_ok n h' -> exists r, Ret (Went h') = Ret r /\ went_ok n r) as Hret by (intros h' H'; eexists; split; [done|by apply went]).
  unfold wake_task. destruct (tasks h !! a) as [[t [start|]|p [start|]]|]; try by apply Hret.
  - destruct k.
    + apply Hret. destruct (stopped h); [by apply end_ok|done].
    + case_bool; [|by apply Hret]. pose proof (metrics_ok n (time_sub now start) false h Hok) as [H1 _].
      destruct (error_went n now later Recovery.ErrorTypeTimeout Recovery.NoDetails _ H1) as (r & -> & Hr). rewrite bind_Ret.
      eexists. split; [done|]. destruct r as [|h']; [done|]. intros ? [= <-]. by apply end_ok, Hr.
    + apply Hret. destruct (Recovery.GetState (base h)); try done. apply end_ok. by apply metrics_ok.
  - destruct k; apply Hret; [destruct (stopped h); [by apply end_ok|done]|case_bool; [by apply end_ok|done]|case_bool; [|done]].
    by apply end_ok, set_state_ok.
Qed.

(** What is called on the handler below: not its errors, nor other callbacks. *)
Definition base_label (l : Recovery.label) : Prop :=
  match l with Recovery.LError _ _ _ _ | Recovery.LCallbacks _ _ _ => False | Recovery.LBuffer b => buf_ok b | _ => True end.
Lemma base_step_ok l b : base_label l -> waits b ->
  exists b', Recovery.step l b = Ret b' /\ waits b' /\ Recovery.onRecoveryEnd b' = Recovery.onRecoveryEnd b.
Proof.
  intros Hl Hb. destruct l as [now later e d|f|s t f|c|now a|now a k]; try done; cbn [Recovery.step]; eexists; (split; [done|]).
  - unfold Recovery.UpdateKeyframe. destruct f as [f|]; [|done]. destruct (IsKeyframe f); [|done]. destruct Hb as [W1 W2 W3]. by split.
  - destruct Hb as [W1 W2 W3]. by split.
  - split; [by apply Recovery.begin_waits|]. unfold Recovery.begin_wait. by destruct (Recovery.waiters b !! a) as [[? [?|]]|].
  - destruct (Recovery.waitForKeyframe now a k b) as [b'|] eqn:E; [|done]. cbn. split; [by eapply Recovery.wake_waits|].
    revert E. unfold Recovery.waitForKeyframe. destruct (Recovery.waiters b !! a) as [[c [[start oe]|]]|]; [|done|done].
    assert (forall e s c, Recovery.onRecoveryEnd (Recovery.call oe e (Recovery.setState now s c)) = Recovery.onRecoveryEnd c) as Hoe.
    { intros e s c0. destruct (called_trans _ _ _ _ _ (called_state now s c0) (called_call oe e _)) as (_ & -> & _). done. }
    destruct k; [destruct c; [by intros [= <-]|done]|case_bool; [|done]; intros [= <-]; by rewrite Hoe|].
    intros [= <-]. destruct (Recovery.lastKeyframe b); [|done]. case_bool; [|done]. by rewrite Hoe.
Qed.
Lemma on_base_ok n l h : base_label l -> smart_ok n h -> exists h', on_base l h = Ret h' /\ smart_ok n h'.
Proof.
  intros Hl Hok. unfold on_base. destruct (base_step_ok l (base h) Hl (so_base _ _ Hok)) as (b & -> & Hb & He). rewrite bind_Ret.
  eexists. split; [done|]. assert (smart_ok n (h <| base := b |>)) as H0 by by apply base_ok. revert H0.
  generalize (h <| base := b |>). induction (new_events (base h) b) as [|e es IH]; intros h0 H0; [done|]. cbn [fold_left]. apply IH.
  destruct e; try done. by apply metrics_ok.
Qed.

Definition label_ok (l : label) : Prop := match l with SFrame _ _ f => whole f | SBase l => base_label l | _ => True end.
Lemma smart_step_ok n l h : 0 <= n -> label_ok l -> smart_ok n h -> exists r, step l h = Ret r /\ went_ok n r.
Proof.
  intros Hn Hl Hok. destruct l as [now later e d|now later f|now a|now later a k|l|]; cbn [step].
  - by apply error_went.
  - by apply smart_frame_ok.
  - eexists. split; [done|]. by apply went, begin_task_ok.
  - by apply task_ok.
  - destruct (on_base_ok n l h Hl Hok) as (h' & -> & H'). rewrite bind_Ret. eexists. split; [done|]. by apply went.
  - eexists. split; [done|]. apply went. by eapply same_ok; [..|exact Hok].
Qed.
Lemma smart_run_ok n ls h : 0 <= n -> Forall label_ok ls -> smart_ok n h -> exists r, run ls h = Ret r /\ went_ok n r.
Proof.
  intros Hn Hl. revert h. induction Hl as [|l ls Hl _ IH]; intros h Hok; [eexists; split; [done|by apply went]|]. cbn [run].
  destruct (smart_step_ok n l h Hn Hl Hok) as (r & -> & Hr). rewrite bind_Ret. destruct r as [|h']; [by exists Deadlock|]. apply IH, Hr. done.
Qed.
Lemma new_smart_ok c b codec : 0 <= FrameBufferSize c -> buf_ok b ->
  exists h, NewSmartRecoveryHandler c b codec = Ret h /\ smart_ok (FrameBufferSize c) h.
Proof.
  intros Hc Hb. unfold NewSmartRecoveryHandler. assert (FrameBufferSize c <? 0 = false) as -> by lia. eexists. split; [done|].
  destruct (Recovery.new_supervised (sc_Config c) b Hb) as [[W1 W2 W3] _]. by split.
Qed.

(** C22: with units of bytes, and whatever errors, frames, wake-ups and buffer
    changes come, no call panics and the frames kept are at most as many as
    configured; an error waits for ever for the handler's own lock exactly when
    its pattern asks for no strategy and the handler below recovers from the
    buffer at once, so the first packet loss of a stream with a closed group does;
    and any other error is added to a history that nothing shortens. *)
Theorem smart_deadlock c b codec ls : 0 <= FrameBufferSize c -> buf_ok b -> Forall label_ok ls ->
  exists h0 r, NewSmartRecoveryHandler c b codec = Ret h0 /\ run ls h0 = Ret r /\
    forall h, r = Went h -> len (frameBuffer h) <= FrameBufferSize c /\
      (forall now later e d, exists r, HandleError now later e d h = Ret r /\ (r = Deadlock <-> deadlocks now e d h) /\
         forall h', r = Went h' -> errorHistory h' = errorHistory h ++ [mkEvent e now (getCurrentFrameNumber h) false 0]) /\
      (errorHistory h = [] -> Recovery.state (base h) <> Recovery.StateRecovering -> has_closed (base h) = true ->
         forall now later d, HandleError now later Recovery.ErrorTypePacketLoss d h = Ret Deadlock).
Proof.
  intros Hc Hb Hl. destruct (new_smart_ok c b codec Hc Hb) as (h0 & E0 & H0). exists h0.
  destruct (smart_run_ok (FrameBufferSize c) ls h0 Hc Hl H0) as (r & E & Hr). exists r. split; [done|]. split; [done|]. intros h Hh.
  pose proof (Hr h Hh) as Hok. pose proof Hok as [_ _ _ Hs Hn]. split; [by rewrite <- Hn|]. split.
  - intros now later e d. destruct (error_spec _ now later e d h Hok) as (r' & E' & Hd & H'). exists r'. split; [done|]. split; [done|].
    intros h' Hr'. by apply (H' h').
  - intros Hh0 Hst Hcl now later d. destruct (error_spec _ now later Recovery.ErrorTypePacketLoss d h Hok) as (r' & E' & Hd & _).
    rewrite E'. f_equal. apply Hd. split; [unfold analyzeErrorPattern; cbn; by rewrite Hh0|].
    unfold ends_at_once. by rewrite bool_decide_false, Hcl.
Qed.

End smart.

(** ** Concrete runs *)

Section demo.
#[local] Instance demo_unsized : SizedGOPs := false.

Definition smart_config : SmartConfig := mkSmartConfig Recovery.sample_config true true true 30.
Definition fast_config : SmartConfig := mkSmartConfig Recovery.sample_config false true false 30.

Lemma smart_deadlock_witness :
  exists h0 h, NewSmartRecoveryHandler smart_config Recovery.damaged CodecH264 = Ret h0 /\
    run [SFrame 0 0 (KeyFrames.open_gop 7)] h0 = Ret (Went h) /\ HandleError 1 2 Recovery.ErrorTypePacketLoss Recovery.NoDetails h = Ret Deadlock.
Proof.
  destruct (smart_deadlock smart_config Recovery.damaged CodecH264 [SFrame 0 0 (KeyFrames.open_gop 7)]) as (h0 & r & E0 & E & H).
  - by vm_compute.
  - apply Recovery.damaged_ok.
  - repeat constructor; by vm_compute.
  - exists h0. destruct r as [|h]; [vm_compute in E0; injection E0 as <-; by vm_compute in E|]. exists h. split; [done|]. split; [done|].
    destruct (H h eq_refl) as (_ & _ & H1). vm_compute in E0. injection E0 as <-. vm_compute in E. injection E as <-. apply H1; by vm_compute.
Defined.

Definition outcome (c : SmartConfig) (b : Buffer) (ls : list label) : option (RecoveryState * list Recovery.event * nat * nat) :=
  match NewSmartRecoveryHandler c b CodecH264 with
  | Ret h => match run ls h with
             | Ret (Went h) => Some (Recovery.state (base h), Recovery.events (base h), size (Recovery.waiters (base h)), size (tasks h))
             | _ => None
             end
  | _ => None
  end.
(** The fast strategy asks for a key frame and marks the stream as resynchronising,
    but nobody waits for it: the key frame comes and the state stays. *)
Example immediate_request_unwatched :
  outcome fast_config Recovery.empty_buffer
    (replicate 11 (SError 0 0 Recovery.ErrorTypeSequenceGap (Recovery.GapOf 1)) ++ [SFrame second second (KeyFrames.idr 5)]) =
  Some (Recovery.StateResyncing, [Recovery.OnForceKeyframe], 0%nat, 0%nat).
Proof. by vm_compute. Qed.
(** Errors at one instant have the ratio 0/0, which is in no way too far from 1. *)
Example pattern_of_no_interval :
  match NewSmartRecoveryHandler smart_config Recovery.empty_buffer CodecH264 with
  | Ret h => let h := logged 5 Recovery.ErrorTypeTimeout (logged 5 Recovery.ErrorTypeTimeout (logged 5 Recovery.ErrorTypeTimeout h)) in
             analyzeErrorPattern 5 (logged 5 Recovery.ErrorTypeTimeout h) = RecoveryStrategyAdaptive
  | _ => False
  end.
Proof. by vm_compute. Qed.
(** The point that is chosen is the first key frame, not the most recent. *)
Example first_point_is_chosen :
  match FindRecoveryPoints (Some <$> [KeyFrames.idr 5; KeyFrames.slice_p 6; KeyFrames.idr 35]) (NewIDRDetector CodecH264) with
  | Ret (_, points) => KeyFrames.p_FrameNumber <$> selectBestRecoveryPoint points = Some 5
  | _ => False
  end.
Proof. by vm_compute. Qed.
End demo.
