(* ===== verification/SessionSets.v ===== *)
(** * The parameter sets of a session (gop/buffer.go, stream_handler.go)

    Parameter sets are taken out of every frame into the session's context and
    out of every added GOP into the buffer's; when the buffer drops a GOP, the
    sets of its context are copied into the session's.  Log calls, and the id
    that is read for them, are left out. *)

From stdpp Require Import strings.
From S2P Require Import Prelude Returns Frame.
From S2P Require Codec SpsH264 Rbsp ParamSets ParamSession ParamContext Gop GopBuffer GopBooks.
Import Codec(CodecType, CodecH264).
Import ParamSession(MapOrder).
#[local] Existing Instances ParamSession.default_order ParamContext.eta_ParameterSetContext Codec.CodecType_eq_dec.
Import ParamContext(ParameterSetContext, AddSPS, AddPPS, ctx_error, spsMap, ppsMap, vpsMap, hevcSpsMap, hevcPpsMap, totalSets, count_sets,
  CopyParameterSetsFrom, ClearOldest, IncrementFrameCount, ErrorCodeCriticalFailure, ErrorCodeMemoryPressure, reachable, ctx_ok, copy_exact).
Import Gop(GOP, Frames).

(** ** One unit *)

(** Behind a start code, if there is one. *)
Definition ExtractNALTypeFromData (data : list Z) : res Z :=
  if len data =? 0 then Ret 0
  else
    offset ← (if 3 <=? len data then
                b0 ← idx data 0;
                b1 ← idx data 1;
                if (b0 =? 0) && (b1 =? 0) then
                  b2 ← idx data 2;
                  if b2 =? 1 then Ret 3
                  else if (4 <=? len data) && (b2 =? 0) then b3 ← idx data 3; Ret (if b3 =? 1 then 4 else 0)
                  else Ret 0
                else Ret 0
              else Ret 0);
    if len data <=? offset then Ret 0 else b ← idx data offset; Ret (Z.land b 0x1F).

(** Up to nine bytes behind the header are all 0xFF. *)
Definition all_ff (data : list Z) : bool := (1 <? len data) && forallb (Z.eqb 0xFF) (takeZ 9 (dropZ 1 data)).

Definition added (r : ParameterSetContext * exn ctx_error unit) : ParameterSetContext * bool :=
  (r.1, match r.2 with Val _ => true | Err _ => false end).

Section sets.
Context (sha256 : list Z -> list Z).

Definition ExtractParameterSetFromNAL (now : Z) (ctx : ParameterSetContext) (data : list Z) (nalType : Z) : res (ParameterSetContext * bool) :=
  if nalType =? 7 then
    spsData ← (if 0 <? len data then b ← idx data 0; Ret (if negb (b =? 0x67) then 0x67 :: data else data) else Ret data);
    r ← AddSPS sha256 now spsData ctx;
    Ret (added r)
  else if nalType =? 8 then
    if all_ff data then Ret (ctx, false)
    else
      fixed ← ParamSets.ValidateAndFixNALUnit data 8;
      match fixed with
      | Err _ => Ret (ctx, false)
      | Val ppsData =>
          ids ← ParamSets.ValidatePPSData ppsData;
          match ids with
          | Err _ => Ret (ctx, false)
          | Val _ => r ← AddPPS sha256 now ppsData ctx; Ret (added r)
          end
      end
  else Ret (ctx, false).

(** ** A GOP, for the buffer's context *)

Fixpoint extract_units (now : Z) (nals : list NALUnit) (ctx : ParameterSetContext) : res ParameterSetContext :=
  match nals with
  | [] => Ret ctx
  | n :: nals =>
      if len (nal_Data n) =? 0 then extract_units now nals ctx
      else
        nalType ← (if nal_Type n =? 0 then ExtractNALTypeFromData (nal_Data n) else Ret (nal_Type n));
        if (nalType =? 7) || (nalType =? 8)
        then '(ctx, _) ← ExtractParameterSetFromNAL now ctx (nal_Data n) nalType; extract_units now nals ctx
        else extract_units now nals ctx
  end.
Fixpoint extractParameterSetsFromGOP (now : Z) (frames : list VideoFrame) (ctx : ParameterSetContext) : res ParameterSetContext :=
  match frames with
  | [] => Ret ctx
  | f :: frames => ctx ← extract_units now (NALUnits f) ctx; extractParameterSetsFromGOP now frames ctx
  end.

(** ** A frame, for the session's context *)

(** [nalType := nalUnit.Type], or the low bits of the first byte. *)
Definition unit_type (n : NALUnit) : res Z :=
  if (nal_Type n =? 0) && (0 <? len (nal_Data n)) then b ← idx (nal_Data n) 0; Ret (Z.land b 0x1F) else Ret (nal_Type n).
Fixpoint session_units (now : Z) (nals : list NALUnit) (ctx : ParameterSetContext) : res ParameterSetContext :=
  match nals with
  | [] => Ret ctx
  | n :: nals =>
      nalType ← unit_type n;
      '(ctx, _) ← ExtractParameterSetFromNAL now ctx (nal_Data n) nalType;
      session_units now nals ctx
  end.
Definition extractParameterSetsFromFrame (now : Z) (f : VideoFrame) (ctx : ParameterSetContext) : res ParameterSetContext :=
  session_units now (NALUnits f) (IncrementFrameCount ctx).

(** Every buffered GOP once more, into the session's context. *)
Fixpoint gop_units (now : Z) (nals : list NALUnit) (ctx : ParameterSetContext) : res ParameterSetContext :=
  match nals with
  | [] => Ret ctx
  | n :: nals =>
      nalType ← unit_type n;
      if (nalType =? 7) || (nalType =? 8)
      then '(ctx, _) ← ExtractParameterSetFromNAL now ctx (nal_Data n) nalType; gop_units now nals ctx
      else gop_units now nals ctx
  end.
Fixpoint extractParameterSetsFromGOPForFrame (now : Z) (frames : list VideoFrame) (ctx : ParameterSetContext) : res ParameterSetContext :=
  match frames with
  | [] => Ret ctx
  | f :: frames => ctx ← gop_units now (NALUnits f) ctx; extractParameterSetsFromGOPForFrame now frames ctx
  end.

(** ** The session *)

Context `{MapOrder}.

(** [errors] counts for the stream's metrics. *)
Record Session := mkSession { sessionParameterCache : ParameterSetContext; errors : Z }.

Definition onGOPBufferDrop (now : Z) (gopBufferContext : ParameterSetContext) (s : Session) : Session :=
  if 500 <? totalSets (sessionParameterCache s) then s
  else
    let '(ctx, copiedCount) := CopyParameterSetsFrom now (Some gopBufferContext) (sessionParameterCache s) in
    let errors := if copiedCount <=? ErrorCodeCriticalFailure then u64 (errors s + 10)
                  else if copiedCount <=? ErrorCodeMemoryPressure then u64 (errors s + 1) else errors s in
    mkSession ctx errors.

Definition seedSessionCacheFromTransport (now : Z) (transport : ParameterSetContext) (ctx : ParameterSetContext) : ParameterSetContext :=
  (CopyParameterSetsFrom now (Some transport) ctx).1.

Definition enforceSessionCacheLimits (now : Z) (ctx : ParameterSetContext) : ParameterSetContext :=
  if totalSets ctx <=? 500 then ctx else (ClearOldest now (Z.quot (totalSets ctx) 2) ctx).1.

(** [AddGOP] with the extraction, and the call back for every GOP it removes:
    each gets the context as it is then, and none changes it. *)
Definition AddGOP (now : Z) (r : GopBuffer.gop_ref) (g : GOP) (b : GopBuffer.Buffer) (ctx : ParameterSetContext) (s : Session)
    : res (GopBuffer.Buffer * ParameterSetContext * Session) :=
  b' ← GopBuffer.AddGOP r g b;
  if negb (Gop.IsComplete g) && negb (Gop.Closed g) then Ret (b', ctx, s)
  else
    ctx ← extractParameterSetsFromGOP now (Frames g) ctx;
    let removed := (length (GopBuffer.gops b) + 1 - length (GopBuffer.gops b'))%nat in
    Ret (b', ctx, Nat.iter removed (onGOPBufferDrop now ctx) s).

(** ** No set is lost by extraction *)

(** The ids are still there; nothing else than H.264 sets changes. *)
Definition keeps (c c' : ParameterSetContext) : Prop :=
  dom (spsMap c) ⊆ dom (spsMap c') /\ dom (ppsMap c) ⊆ dom (ppsMap c') /\
  vpsMap c' = vpsMap c /\ hevcSpsMap c' = hevcSpsMap c /\ hevcPpsMap c' = hevcPpsMap c /\ ParamContext.codec c' = ParamContext.codec c.
Lemma keeps_refl c : keeps c c.
Proof. done. Qed.
Lemma keeps_trans c1 c2 c3 : keeps c1 c2 -> keeps c2 c3 -> keeps c1 c3.
Proof. intros (A1 & A2 & A3 & A4 & A5 & A6) (B1 & B2 & B3 & B4 & B5 & B6). repeat split; [set_solver|set_solver|congruence..]. Qed.
Lemma keeps_validator c c' : ParamContext.keep_validator c c' -> keeps c c'.
Proof. by intros [v ->]. Qed.

Lemma cleanup_small now c : count_sets c <= 1000 -> keeps c (ParamContext.checkAndPerformCleanup now c) /\ spsMap (ParamContext.checkAndPerformCleanup now c) = spsMap c.
Proof.
  intros Hc. unfold ParamContext.checkAndPerformCleanup, ParamContext.MaxParameterSetsPerSession. case_bool; [done|]. case_bool; [done|].
  rewrite (proj2 (Z.ltb_ge _ _)) by done. done.
Qed.
Lemma size_put {A} (m : gmap Z A) k a : Z.of_nat (size (<[k := a]> m)) <= Z.of_nat (size m) + 1.
Proof. rewrite map_size_insert. case_match; simpl; lia. Qed.

Lemma store_sps_keeps now sps c : ctx_ok c -> keeps c (ParamContext.store_sps sha256 now sps c).
Proof.
  intros Hok%ParamContext.few_sets. unfold ParamContext.store_sps. cbv zeta.
  set (c1 := upd totalSets _ _). assert (keeps c c1) as H1 by (repeat split; cbn; set_solver).
  assert (count_sets c1 <= 1000) as Hs1 by (unfold count_sets in *; cbn; pose proof (size_put (spsMap c) (ParamSets.ID sps) sps); lia).
  clearbody c1. set (b := ParamContext.session_changed _ _). set (c2 := if b then _ else c1).
  assert (keeps c c2 /\ count_sets c2 <= 1000) as [H2 Hs2] by (subst c2; by destruct b). clearbody c2.
  destruct (cleanup_small now c2 Hs2) as [H3 _]. eapply keeps_trans; [exact H2|]. eapply keeps_trans; [exact H3|].
  destruct (ParamContext.versionManager _); [|done]. by destruct b.
Qed.
Lemma store_pps_keeps now pps c : ctx_ok c -> keeps c (ParamContext.store_pps now pps c).
Proof.
  intros Hok%ParamContext.few_sets. unfold ParamContext.store_pps. set (q := ParamContext.remap_reference c pps).
  set (c1 := upd totalSets _ _). assert (keeps c c1) as H1 by (repeat split; cbn; set_solver).
  assert (count_sets c1 <= 1000) as Hs1
    by (unfold count_sets in *; cbn; pose proof (size_put (ppsMap c) (ParamSets.ID (ParamSets.pps_set q)) q); lia).
  clearbody c1. eapply keeps_trans; [exact H1|]. by apply cleanup_small.
Qed.

Lemma AddSPS_keeps now data c : bytes data -> data <> [] -> reachable sha256 c ->
  exists r, AddSPS sha256 now data c = Ret r /\ reachable sha256 r.1 /\ keeps c r.1.
Proof.
  intros Hb Hne Hc. pose proof (ParamContext.AddSPS_returns sha256 now data c Hb Hne) as Hr.
  destruct Hr as (r & E & Hr). exists r. split; [done|]. split; [by destruct r; eapply ParamContext.reach_sps|].
  destruct Hr as [[Hk _]|(_ & _ & sps & c' & _ & _ & _ & _ & Hk & ->)]; [by apply keeps_validator|].
  eapply keeps_trans; [by apply keeps_validator|]. apply store_sps_keeps. eapply ParamContext.ok_validator; [exact Hk|]. by eapply ParamContext.reachable_ok.
Qed.
Lemma AddPPS_keeps now data c : bytes data -> reachable sha256 c ->
  exists r, AddPPS sha256 now data c = Ret r /\ reachable sha256 r.1 /\ keeps c r.1.
Proof.
  intros Hb Hc. pose proof (ParamContext.AddPPS_returns sha256 now data c Hb) as Hr.
  destruct Hr as (r & E & Hr). exists r. split; [done|]. split; [by destruct r; eapply ParamContext.reach_pps|].
  destruct Hr as [[Hk _]|(_ & _ & pps & c' & _ & _ & _ & _ & _ & _ & Hk & ->)]; [by apply keeps_validator|].
  eapply keeps_trans; [by apply keeps_validator|]. apply store_pps_keeps. eapply ParamContext.ok_validator; [exact Hk|]. by eapply ParamContext.reachable_ok.
Qed.

Lemma validate_as_total t data : bytes data -> exists r, ParamSets.validate_as t data = Ret r.
Proof.
  intros Hb. unfold ParamSets.validate_as. repeat case_bool; try by eexists.
  - destruct (ParamSets.ValidateSPSData_returns data Hb) as (r & -> & _). by eexists.
  - destruct (ParamSets.ValidatePPSData_returns data Hb) as (r & -> & _). by eexists.
Qed.
Lemma fix_total data : bytes data -> exists r, ParamSets.ValidateAndFixNALUnit data 8 = Ret r /\ forall d, r = Val d -> bytes d.
Proof.
  intros Hb. unfold ParamSets.ValidateAndFixNALUnit. destruct data as [|x l]; [by eexists|].
  assert (len (x :: l) =? 0 = false) as -> by (apply Z.eqb_neq; rewrite len_cons; pose proof (len_nonneg l); lia).
  change (idx (x :: l) 0) with (Ret x). rewrite bind_Ret. cbv zeta. case_bool.
  - destruct (validate_as_total 8 (x :: l) Hb) as [[v|err] ->]; rewrite bind_Ret; (eexists; split; [done|]); [by intros d [= <-]|done].
  - cbn [Z.eqb Pos.eqb]. case_bool; [|by eexists]. assert (bytes (Z.lor 0x60 8 :: x :: l)) as Hf by (constructor; [|done]; by vm_compute).
    destruct (validate_as_total 8 _ Hf) as [[v|err] ->]; rewrite bind_Ret; (eexists; split; [done|]); [by intros d [= <-]|done].
Qed.

Lemma extract_keeps now c data t : bytes data -> (t = 7 -> data <> []) -> reachable sha256 c ->
  exists c' ok, ExtractParameterSetFromNAL now c data t = Ret (c', ok) /\ reachable sha256 c' /\ keeps c c'.
Proof.
  intros Hb Hne Hc. unfold ExtractParameterSetFromNAL. destruct (Z.eqb_spec t 7) as [->|].
  - destruct data as [|x l]; [by destruct Hne|].
    assert (0 <? len (x :: l) = true) as -> by (apply Z.ltb_lt; rewrite len_cons; pose proof (len_nonneg l); lia).
    change (idx (x :: l) 0) with (Ret x). rewrite !bind_Ret.
    assert (bytes (if negb (x =? 0x67) then 0x67 :: x :: l else x :: l)) as Hd by (destruct (x =? 0x67); cbn [negb]; [done|constructor; [by vm_compute|done]]).
    destruct (AddSPS_keeps now _ c Hd ltac:(by case_match) Hc) as (r & -> & Hr & Hk). by do 2 eexists.
  - destruct (t =? 8); [|by do 2 eexists]. destruct (all_ff data); [by do 2 eexists|].
    destruct (fix_total data Hb) as ([d|e] & -> & Hd); rewrite bind_Ret; [|by do 2 eexists].
    destruct (ParamSets.ValidatePPSData_returns d (Hd d eq_refl)) as ([ids|e] & -> & _); rewrite bind_Ret; [|by do 2 eexists].
    destruct (AddPPS_keeps now d c (Hd d eq_refl) Hc) as (r & -> & Hr & Hk). by do 2 eexists.
Qed.

(** Units of bytes, and the condition under which extraction from a frame does
    not panic: a unit with the type 7 has data ([AddSPS] reads its first byte
    without a check). *)
Definition bytes_only (f : VideoFrame) : Prop := Forall (fun n => bytes (nal_Data n)) (NALUnits f).
Definition nal_ok (n : NALUnit) : Prop := bytes (nal_Data n) /\ (nal_Type n = 7 -> nal_Data n <> []).
Definition units_ok (f : VideoFrame) : Prop := Forall nal_ok (NALUnits f).
Lemma units_bytes fs : Forall units_ok fs -> Forall bytes_only fs.
Proof. intros Hfs. eapply Forall_impl; [exact Hfs|]. intros f Hf. eapply Forall_impl; [exact Hf|]. by intros n [? _]. Qed.
(** Extraction returns, into a context that came about by additions and keeps its ids. *)
Definition extracts (c : ParameterSetContext) (m : res ParameterSetContext) : Prop :=
  exists c', m = Ret c' /\ reachable sha256 c' /\ keeps c c'.
Lemma extracts_self c : reachable sha256 c -> extracts c (Ret c).
Proof. by exists c. Qed.
Lemma extracts_then c c1 m : keeps c c1 -> extracts c1 m -> extracts c m.
Proof. intros H1 (c' & E & Hr & H2). exists c'. split; [done|]. split; [done|]. by eapply keeps_trans. Qed.

Lemma type_total data : bytes data -> exists t, ExtractNALTypeFromData data = Ret t.
Proof.
  intros Hb. cut (returns (ExtractNALTypeFromData data) (fun _ => True)); [by intros (t & E & _); exists t|]. unfold ExtractNALTypeFromData.
  pose proof (len_nonneg data). destruct (Z.eqb_spec (len data) 0); [by apply returns_Ret|].
  eapply (returns_bind _ _ (fun o => 0 <= o)).
  - destruct (Z.leb_spec 3 (len data)); [|by apply returns_Ret].
    eapply returns_bind; [apply returns_idx; [done|lia]|]. intros b0 _. eapply returns_bind; [apply returns_idx; [done|lia]|]. intros b1 _.
    case_bool; [|by apply returns_Ret]. eapply returns_bind; [apply returns_idx; [done|lia]|]. intros b2 _.
    case_bool; [by apply returns_Ret|]. destruct (Z.leb_spec 4 (len data)); cbn [andb]; [|by apply returns_Ret].
    case_bool; [|by apply returns_Ret]. eapply returns_bind; [apply returns_idx; [done|lia]|]. intros b3 _. apply returns_Ret. by case_bool.
  - intros o Ho. destruct (Z.leb_spec (len data) o); [by apply returns_Ret|].
    eapply returns_bind; [apply returns_idx; [done|lia]|]. intros b _. by apply returns_Ret.
Qed.
Lemma unit_type_total n : nal_ok n -> exists t, unit_type n = Ret t /\ (t = 7 -> nal_Data n <> []).
Proof.
  intros [Hb Hne]. unfold unit_type. destruct (nal_Data n) as [|x l] eqn:E.
  - rewrite andb_false_r. by exists (nal_Type n).
  - destruct (_ && _); [|by exists (nal_Type n)]. change (idx (x :: l) 0) with (Ret x). rewrite bind_Ret. by eexists.
Qed.

Lemma extract_units_ok now nals c : Forall (fun n => bytes (nal_Data n)) nals -> reachable sha256 c -> extracts c (extract_units now nals c).
Proof.
  intros Hn. revert c. induction Hn as [|n nals Hb _ IH]; intros c Hc; [by apply extracts_self|]. cbn [extract_units].
  destruct (Z.eqb_spec (len (nal_Data n)) 0) as [|Hl]; [by apply IH|].
  assert (exists t, (if nal_Type n =? 0 then ExtractNALTypeFromData (nal_Data n) else Ret (nal_Type n)) = Ret t) as [t ->]
    by (destruct (_ =? 0); [by apply type_total|by eexists]).
  rewrite bind_Ret. case_bool; [|by apply IH].
  destruct (extract_keeps now c (nal_Data n) t Hb ltac:(by intros _ E; rewrite E in Hl) Hc) as (c' & ok & -> & Hr & Hk). rewrite bind_Ret.
  eapply extracts_then; [exact Hk|by apply IH].
Qed.
Lemma extract_gop_ok now frames c : Forall bytes_only frames -> reachable sha256 c -> extracts c (extractParameterSetsFromGOP now frames c).
Proof.
  intros Hf. revert c. induction Hf as [|f frames Hf _ IH]; intros c Hc; [by apply extracts_self|]. cbn [extractParameterSetsFromGOP].
  destruct (extract_units_ok now _ c Hf Hc) as (c' & -> & Hr & Hk). rewrite bind_Ret. eapply extracts_then; [exact Hk|by apply IH].
Qed.
Lemma session_units_ok now nals c : Forall nal_ok nals -> reachable sha256 c -> extracts c (session_units now nals c).
Proof.
  intros Hn. revert c. induction Hn as [|n nals Hn _ IH]; intros c Hc; [by apply extracts_self|]. cbn [session_units].
  destruct (unit_type_total n Hn) as (t & -> & Ht). rewrite bind_Ret.
  destruct (extract_keeps now c (nal_Data n) t (proj1 Hn) Ht Hc) as (c' & ok & -> & Hr & Hk). rewrite bind_Ret.
  eapply extracts_then; [exact Hk|by apply IH].
Qed.
Lemma extract_frame_ok now f c : units_ok f -> reachable sha256 c -> extracts c (extractParameterSetsFromFrame now f c).
Proof.
  intros Hf Hc. unfold extractParameterSetsFromFrame. eapply (extracts_then c (IncrementFrameCount c)); [done|].
  apply session_units_ok; [exact Hf|by apply ParamContext.reach_frame].
Qed.
(** An empty unit with the type 7 panics, if the context is one of H.264. *)
Lemma empty_sps now c : ParamContext.codec c = CodecH264 -> ExtractParameterSetFromNAL now c [] 7 = Panic.
Proof. intros Hc. unfold ExtractParameterSetFromNAL, AddSPS. cbn. by rewrite Hc. Qed.
Lemma session_units_panic now nals c :
  Forall (fun n => bytes (nal_Data n)) nals -> ~ Forall nal_ok nals -> reachable sha256 c -> ParamContext.codec c = CodecH264 ->
  session_units now nals c = Panic.
Proof.
  intros Hb. revert c. induction Hb as [|n nals Hb _ IH]; intros c Hn Hc H264; [by destruct Hn|]. cbn [session_units].
  destruct (decide (nal_Type n = 7 /\ nal_Data n = [])) as [[H7 E]|Hd].
  - unfold unit_type. rewrite H7, E. cbn [Z.eqb andb Z.ltb Z.compare]. rewrite bind_Ret, empty_sps by done. done.
  - assert (nal_ok n) as Hok by (split; [done|]; tauto). destruct (unit_type_total n Hok) as (t & -> & Ht). rewrite bind_Ret.
    destruct (extract_keeps now c (nal_Data n) t Hb Ht Hc) as (c' & ok & -> & Hr & Hk). rewrite bind_Ret.
    apply IH; [|done|]; [by intros Hns; apply Hn; constructor|]. destruct Hk as (_ & _ & _ & _ & _ & ->). done.
Qed.
Lemma gop_units_ok now nals c : Forall nal_ok nals -> reachable sha256 c -> extracts c (gop_units now nals c).
Proof.
  intros Hn. revert c. induction Hn as [|n nals Hn _ IH]; intros c Hc; [by apply extracts_self|]. cbn [gop_units].
  destruct (unit_type_total n Hn) as (t & -> & Ht). rewrite bind_Ret. case_bool; [|by apply IH].
  destruct (extract_keeps now c (nal_Data n) t (proj1 Hn) Ht Hc) as (c' & ok & -> & Hr & Hk). rewrite bind_Ret.
  eapply extracts_then; [exact Hk|by apply IH].
Qed.
Lemma extract_again_ok now frames c : Forall units_ok frames -> reachable sha256 c -> extracts c (extractParameterSetsFromGOPForFrame now frames c).
Proof.
  intros Hf. revert c. induction Hf as [|f frames Hf _ IH]; intros c Hc; [by apply extracts_self|]. cbn [extractParameterSetsFromGOPForFrame].
  destruct (gop_units_ok now _ c Hf Hc) as (c' & -> & Hr & Hk). rewrite bind_Ret. eapply extracts_then; [exact Hk|by apply IH].
Qed.

(** *** Copies into the session, and their limit *)

Lemma drop_copies now b s : reachable sha256 b -> reachable sha256 (sessionParameterCache s) -> totalSets (sessionParameterCache s) <= 500 ->
  exists c n, onGOPBufferDrop now b s = mkSession c (errors s) /\ copy_exact b (sessionParameterCache s) c n /\ reachable sha256 c.
Proof.
  intros Hb Hs Ht. unfold onGOPBufferDrop. rewrite (proj2 (Z.ltb_ge _ _)) by done.
  pose proof (ParamContext.CopyParameterSetsFrom_all now b _ (ParamContext.reachable_ok sha256 b Hb) (ParamContext.reachable_ok sha256 _ Hs)) as Hx.
  pose proof (ParamContext.reach_copy sha256 now b _ Hb Hs) as Hr.
  destruct (CopyParameterSetsFrom now (Some b) (sessionParameterCache s)) as [c n]. exists c, n. split; [|by split].
  assert (0 <= n) as Hn by (destruct Hx as (_ & _ & _ & _ & _ & _ & _ & ->); destruct (ParamContext.codec_is _ _); lia).
  unfold ErrorCodeCriticalFailure, ErrorCodeMemoryPressure, ParamContext.MaxParameterSetsPerSession.
  by rewrite !(proj2 (Z.leb_gt _ _)) by lia.
Qed.
Lemma enforce_spec now c : let c' := enforceSessionCacheLimits now c in
  (totalSets c <= 500 -> c' = c) /\ (500 < totalSets c -> 2 * count_sets c <= totalSets c -> count_sets c' = 0).
Proof.
  cbv zeta. unfold enforceSessionCacheLimits. split; intros Ht; [by rewrite (proj2 (Z.leb_le _ _))|]. intros Hn.
  rewrite (proj2 (Z.leb_gt _ _)) by done. set (k := Z.quot (totalSets c) 2). assert (250 <= k /\ count_sets c <= k) as [Hk Hck] by (subst k; rewrite Z.quot_div_nonneg by lia; split; [apply Z.div_le_lower_bound|apply Z.div_le_lower_bound]; lia).
  unfold ClearOldest. rewrite (proj2 (Z.leb_gt _ _)) by lia.
  pose proof (ParamContext.clearOldestUnsafe_spec k c ltac:(lia)) as Hx. destruct (ParamContext.clearOldestUnsafe k c) as [c' n].
  destruct Hx as (-> & _ & _ & _ & gone & Hg & Hp & _). cbn [fst].
  assert (count_sets (c' <| totalSets := totalSets c' - Z.min k (count_sets c) |> <| ParamContext.lastCleanup := now |>) = count_sets c') as -> by done.
  apply Permutation_length in Hp. rewrite length_app in Hp. rewrite <- !ParamContext.length_aged in *. unfold len in *. lia.
Qed.
Lemma enforce_reachable now c : reachable sha256 c -> reachable sha256 (enforceSessionCacheLimits now c).
Proof. intros Hc. unfold enforceSessionCacheLimits. case_bool; [done|by apply ParamContext.reach_oldest]. Qed.

(** C23: the sets of a stream: extraction from a GOP of any bytes returns and
    keeps every id that was known, and so does extraction from a frame of any
    bytes in which no unit with the type 7 is empty; one that is makes it panic,
    in a context of H.264.  A GOP that is dropped while the session's counter is
    at most 500 leaves every set of the buffer's context in the session's, and no
    error is counted; above 500 nothing is copied any more, and the next
    enforcement of the limit removes every set of the session if there are at
    most half as many as the counter says. *)
Theorem session_sets now f frames b s :
  reachable sha256 b -> reachable sha256 (sessionParameterCache s) -> bytes_only f -> Forall bytes_only frames ->
  ((forall n, n ∈ NALUnits f -> nal_Type n = 7 -> nal_Data n <> []) ->
   exists c, extractParameterSetsFromFrame now f (sessionParameterCache s) = Ret c /\ keeps (sessionParameterCache s) c) /\
  ((exists n, n ∈ NALUnits f /\ nal_Type n = 7 /\ nal_Data n = []) -> ParamContext.codec (sessionParameterCache s) = CodecH264 ->
   extractParameterSetsFromFrame now f (sessionParameterCache s) = Panic) /\
  (exists c, extractParameterSetsFromGOP now frames b = Ret c /\ keeps b c) /\
  (totalSets (sessionParameterCache s) <= 500 ->
     exists c n, onGOPBufferDrop now b s = mkSession c (errors s) /\ copy_exact b (sessionParameterCache s) c n /\
       dom (spsMap b) ⊆ dom (spsMap c) /\ dom (ppsMap b) ⊆ dom (ppsMap c)) /\
  (500 < totalSets (sessionParameterCache s) ->
     onGOPBufferDrop now b s = s /\
     (2 * count_sets (sessionParameterCache s) <= totalSets (sessionParameterCache s) ->
      count_sets (enforceSessionCacheLimits now (sessionParameterCache s)) = 0)).
Proof.
  intros Hb Hs Hf Hfs. split; [|split; [|split; [|split]]].
  - intros Hne. assert (units_ok f) as Hok.
    { unfold units_ok, bytes_only in *. rewrite Forall_forall in Hf |- *. intros n Hn. split; [by apply Hf|by apply Hne]. }
    destruct (extract_frame_ok now f _ Hok Hs) as (c & E & _ & Hk). by exists c.
  - intros (n & Hn & H7 & E) H264. unfold extractParameterSetsFromFrame. apply session_units_panic; [done| |by apply ParamContext.reach_frame|done].
    intros Hall. rewrite Forall_forall in Hall. by destruct (Hall n Hn) as [_ []].
  - destruct (extract_gop_ok now frames b Hfs Hb) as (c & E & _ & Hk). by exists c.
  - intros Ht. destruct (drop_copies now b s Hb Hs Ht) as (c & n & E & Hx & _). exists c, n. split; [done|]. split; [done|].
    destruct Hx as (-> & -> & _). by rewrite !dom_union_L, !dom_fmap_L; split; set_solver.
  - intros Ht. split; [unfold onGOPBufferDrop; by rewrite (proj2 (Z.ltb_lt _ _))|]. by apply enforce_spec.
Qed.
End sets.

(** *** Examples *)

Section demo.
Import ParamContext(no_digest, hd_sps, hd_pps, NewParameterSetContext).

Definition unit_of (data : list Z) : NALUnit := mkNAL 0 data 0 0.
Definition set_frame : VideoFrame := (frame_of 1 FrameTypeIDR 0 0 0) <| NALUnits := [unit_of hd_sps; unit_of hd_pps] |>.
Definition fresh : ParameterSetContext := NewParameterSetContext CodecH264 "cam" 0.
Fixpoint frames_in (n : nat) (ctx : ParameterSetContext) : res ParameterSetContext :=
  match n with O => Ret ctx | S n => ctx ← extractParameterSetsFromFrame no_digest 7 set_frame ctx; frames_in n ctx end.
Definition sets_after (m : res ParameterSetContext) : option (Z * Z) := match m with Ret c => Some (totalSets c, count_sets c) | _ => None end.

Lemma session_sets_witness :
  exists c n, onGOPBufferDrop 9 ParamContext.fed (mkSession fresh 4) = mkSession c 4 /\ copy_exact ParamContext.fed fresh c n /\
    dom (spsMap ParamContext.fed) ⊆ dom (spsMap c) /\ dom (ppsMap ParamContext.fed) ⊆ dom (ppsMap c).
Proof.
  destruct (session_sets no_digest 9 set_frame [set_frame] ParamContext.fed (mkSession fresh 4)) as (_ & _ & _ & H & _).
  - apply ParamContext.fed_reachable.
  - apply ParamContext.reach_new.
  - unfold bytes_only, is_byte. decide_goal.
  - unfold bytes_only, is_byte. decide_goal.
  - apply H. by vm_compute.
Defined.

(** A key frame per second with its two sets: after some four minutes the counter
    is above 500, and the two sets there are are removed. *)
Example sets_removed_after_repeats :
  sets_after (frames_in 251 fresh) = Some (502, 2) /\
  sets_after (c ← frames_in 251 fresh; Ret (enforceSessionCacheLimits 8 c)) = Some (500, 0).
Proof. split; by vm_compute. Qed.
(** The header 0x27 is that of a set with another importance; a second header is
    put before it, and the set is lost. *)
Example other_header_is_data :
  sets_after (extractParameterSetsFromFrame no_digest 7 (set_frame <| NALUnits := [unit_of (0x27 :: tail hd_sps)] |>) fresh) = Some (0, 0).
Proof. by vm_compute. Qed.
End demo.
