(* ===== verification/StreamHandler.v ===== *)
(** * The frames of a stream (stream_handler.go)

    What happens to a frame the pipeline delivers: sets extracted, corruption
    checked, groups formed and buffered, the clock synchronised, the frame kept
    for the preview, and dropped or queued by the pressure of the queue; with the
    periodic check of the pressure, the rate of the connection and the calls back
    from the recovery.  One frame, tick or wake-up is one step, so the
    goroutines interleave by steps.  The frame is a value: of the fields set
    after it has joined its group only the presentation time is missing in the
    group, where nothing reads it.  Log calls, the statistics record, the choice
    of the key frame for the API, start and stop are left out. *)

From stdpp Require Import strings.
From S2P Require Import Prelude Returns Float64 Frame.
From S2P Require Codec SpsH264 Resolution Gop GopBuffer GopBooks GopDetector GopPipeline AVSync Backpressure HybridQueue ParamSession ParamContext Recovery SessionSets.
Import Codec(CodecType, CodecH264, CodecHEVC).
Import ParamSession(MapOrder).
Import ParamContext(ParameterSetContext).
Import GopBuffer(Buffer, gop_ref, gop_of, GetRecentGOPs).
Import HybridQueue(HybridQueue, queue_error, Enqueue, GetPressure).
Import SpsH264(Resolution).
Import SessionSets(Session, onGOPBufferDrop, extractParameterSetsFromFrame, enforceSessionCacheLimits).
#[local] Existing Instances Recovery.eta_Handler GopBuffer.eta_buffer GopBuffer.GOP_inhabited.

Record bitratePoint := mkPoint { timestamp : Z; point_bytes : Z }.

(** The session's cache and the error counter are the [Session]'s; the GOP
    buffer is the recovery handler's; [parameterContext] is the buffer's.
    [srt]: the connection is an SRT adapter with a connection, and
    [max_bandwidth] the limits it was given. *)
Record StreamHandler := mkHandler {
  codec : CodecType;
  srt : bool;
  gopDetector : GopDetector.Detector;
  recoveryHandler : Recovery.Handler;
  parameterContext : ParameterSetContext;
  session : Session;
  syncManager : AVSync.Manager;
  detectedResolution : Resolution;
  bpController : Backpressure.Controller;
  frameQueue : HybridQueue;
  framesAssembled : Z; framesDropped : Z; bytesProcessed : Z;
  keyframeCount : Z; pFrameCount : Z; bFrameCount : Z;
  backpressure : bool; lastBackpressure : option Z; lastEnforcement : Z;
  recentFrames : list VideoFrame; maxRecentFrames : Z;
  startTime : Z; bitrateWindow : list bitratePoint; started : bool;
  max_bandwidth : list Z
}.
#[export] Instance eta_StreamHandler : Eta StreamHandler := fun h =>
  mkHandler (codec h) (srt h) (gopDetector h) (recoveryHandler h) (parameterContext h) (session h) (syncManager h) (detectedResolution h)
    (bpController h) (frameQueue h) (framesAssembled h) (framesDropped h) (bytesProcessed h) (keyframeCount h) (pFrameCount h) (bFrameCount h)
    (backpressure h) (lastBackpressure h) (lastEnforcement h) (recentFrames h) (maxRecentFrames h) (startTime h) (bitrateWindow h) (started h)
    (max_bandwidth h).
Implicit Types (h : StreamHandler) (f : VideoFrame).

Definition gopBuffer h : Buffer := Recovery.gopBuffer (recoveryHandler h).
Definition set_buffer (b : Buffer) h : StreamHandler := h <| recoveryHandler := (recoveryHandler h) <| Recovery.gopBuffer := b |> |>.

Definition sessionParameterCache h : ParameterSetContext := SessionSets.sessionParameterCache (session h).
Definition set_cache (c : ParameterSetContext) h : StreamHandler := h <| session := SessionSets.mkSession c (SessionSets.errors (session h)) |>.
Definition add_error h : StreamHandler :=
  h <| session := SessionSets.mkSession (sessionParameterCache h) (u64 (SessionSets.errors (session h) + 1)) |>.
Definition add_dropped (n : Z) h : StreamHandler := h <| framesDropped := u64 (framesDropped h + n) |>.

(** What a step meets: the clock when it begins and ends and where the
    synchronisation reads it, the rate limiter and the file of the queue, the
    bandwidth the connection has. *)
Record world := mkWorld { now : Z; later : Z; ck : AVSync.clock; allowed : bool; disk_fails : option nat; current_bandwidth : Z }.
Implicit Types (w : world).

(** ** Bytes of a frame *)

Definition uint64ToBytes (v : Z) : list Z := (fun i => u8 (Z.shiftr v (8 * (7 - i)))) <$> [0; 1; 2; 3; 4; 5; 6; 7].
Definition int64ToBytes (v : Z) : list Z := uint64ToBytes (u64 v).
Definition uint32ToBytes (v : Z) : list Z := (fun i => u8 (Z.shiftr v (8 * (3 - i)))) <$> [0; 1; 2; 3].
Definition type_byte (t : FrameType) : Z :=
  match t with
  | FrameTypeI => 0 | FrameTypeP => 1 | FrameTypeB => 2 | FrameTypeIDR => 3 | FrameTypeSPS => 4 | FrameTypePPS => 5 | FrameTypeVPS => 6
  | FrameTypeSEI => 7 | FrameTypeAUD => 8 | FrameTypeCRA => 9 | FrameTypeBLA => 10
  end.
Definition serialize_unit (n : NALUnit) : list Z := uint32ToBytes (u32 (len (nal_Data n))) ++ nal_Data n.
Definition serializeFrame f : list Z :=
  uint64ToBytes (ID f) ++ int64ToBytes (PTS f) ++ int64ToBytes (DTS f) ++ [type_byte (FType f)] ++ uint32ToBytes (u32 (TotalSize f)) ++
  flat_map serialize_unit (NALUnits f).

(** ** Corruption *)

(** A unit with a broken start code, or a header with the forbidden bit. *)
Definition unit_corrupted (data : list Z) : res bool :=
  if len data =? 0 then Ret true
  else
    '(bad, headerOffset) ←
      (if 4 <=? len data then
         b0 ← idx data 0; b1 ← idx data 1; b2 ← idx data 2; b3 ← idx data 3;
         let zeros := (b0 =? 0) && (b1 =? 0) in
         let hasStartCode := zeros && ((b2 =? 1) || ((b2 =? 0) && (b3 =? 1))) in
         Ret (zeros && negb hasStartCode,
              if zeros then (if b2 =? 1 then 3 else if (b2 =? 0) && (b3 =? 1) then 4 else 0) else 0)
       else Ret (false, 0));
    if (bad : bool) then Ret true
    else if headerOffset <? len data then b ← idx data headerOffset; Ret (negb (Z.land b 0x80 =? 0)) else Ret false.
Fixpoint any_corrupted (nals : list NALUnit) : res bool :=
  match nals with [] => Ret false | n :: nals => c ← unit_corrupted (nal_Data n); if (c : bool) then Ret true else any_corrupted nals end.
Definition detectFrameCorruption (now : Z) (c : CodecType) f : res bool :=
  if len (NALUnits f) =? 0 then Ret true
  else if (TotalSize f <=? 0) || (10 * 1024 * 1024 <? TotalSize f) then Ret true
  else if is_zero_time (CaptureTime f) || (now + 3600 * second <? CaptureTime f) then Ret true
  else if IsCorrupted f then Ret true
  else match c with CodecH264 | CodecHEVC => any_corrupted (NALUnits f) | _ => Ret false end.
Definition is_metadata f : bool := ft_eqb (FType f) FrameTypeSPS || ft_eqb (FType f) FrameTypePPS || ft_eqb (FType f) FrameTypeSEI.

(** ** Calls back from the recovery *)

Definition on_recovery (e : Recovery.event) h : StreamHandler :=
  match e with
  | Recovery.OnStart _ => h <| backpressure := true |>
  | Recovery.OnEnd _ success => if success then h <| backpressure := false |> else h
  | Recovery.OnForceKeyframe => add_error h
  end.
(** The recovery handler is as [r] now, and has called back. *)
Definition recovered_as (r : Recovery.Handler) h : StreamHandler :=
  fold_left (fun h e => on_recovery e h) (drop (length (Recovery.events (recoveryHandler h))) (Recovery.events r)) (h <| recoveryHandler := r |>).
Definition recovery_step (l : Recovery.label) h : res StreamHandler := r ← Recovery.step l (recoveryHandler h); Ret (recovered_as r h).

(** ** The size of the picture *)

(** Once, from key frames and parameter sets. *)
Definition tryDetectResolution f h : res StreamHandler :=
  if Resolution.found (detectedResolution h) then Ret h
  else if negb (IsKeyframe f) && negb (ft_eqb (FType f) FrameTypeSPS) && negb (ft_eqb (FType f) FrameTypePPS) && negb (ft_eqb (FType f) FrameTypeVPS)
  then Ret h
  else
    let nalUnits := filter (fun d => (0 <? len d) = true) (nal_Data <$> NALUnits f) in
    if len nalUnits =? 0 then Ret h
    else
      detectedRes ← Resolution.DetectFromNALUnits nalUnits (codec h);
      Ret (if Resolution.found detectedRes then h <| detectedResolution := detectedRes |> else h).

(** ** The last frames, for the preview *)

(** A copy with the first 32 bytes of the first unit. *)
Definition first_unit (nals : list NALUnit) : list NALUnit :=
  match nals with
  | n :: _ => if 0 <? len (nal_Data n) then [mkNAL (nal_Type n) (takeZ 32 (nal_Data n)) 0 0] else []
  | [] => []
  end.
Definition frame_copy f : VideoFrame :=
  mkFrame (ID f) (StreamID f) (FrameNumber f) (first_unit (NALUnits f)) (TotalSize f) (PTS f) (DTS f) (Duration f) (CaptureTime f) (CompleteTime f)
    (FType f) (Flags f) 0 (GOPPosition f) [] [] 0 (f64_of_Z 0) (PresentationTime f).
Definition storeRecentFrame f h : StreamHandler :=
  let frames := recentFrames h ++ [frame_copy f] in
  h <| recentFrames := if maxRecentFrames h <? len frames then dropZ (len frames - maxRecentFrames h) frames else frames |>.
Definition enforceRecentFramesLimits h : StreamHandler :=
  if len (recentFrames h) <=? maxRecentFrames h then h
  else
    let targetSize := f64_trunc (f64_mul (f64_of_Z (maxRecentFrames h)) (f64_dec 8 1)) in
    h <| recentFrames := dropZ (len (recentFrames h) - targetSize) (recentFrames h) |>.

(** ** Backpressure *)

Definition SetMaxBW (bw : Z) h : StreamHandler := if srt h then h <| max_bandwidth := max_bandwidth h ++ [bw] |> else h.
Definition applyBackpressure w h : StreamHandler :=
  let recent := match lastBackpressure h with Some t => time_sub (now w) t <? second | None => false end in
  if recent then h
  else SetMaxBW (f64_trunc (f64_mul (f64_of_Z (current_bandwidth w)) (f64_dec 8 1))) (h <| backpressure := true |> <| lastBackpressure := Some (now w) |>).
Definition releaseBackpressure h : StreamHandler := if backpressure h then SetMaxBW 0 (h <| backpressure := false |>) else h.

(** The pressure above which the frame is dropped. *)
Definition drop_threshold f (current : option Gop.GOP) : float64 :=
  let droppable := match current with Some g => (0 <? GOPPosition f) && Gop.CanDropFrame (GOPPosition f) g | None => false end in
  match FType f with
  | FrameTypeB => if droppable then f64_dec 5 1 else f64_dec 6 1
  | FrameTypeP => if droppable then f64_dec 7 1 else f64_dec 8 1
  | FrameTypeI | FrameTypeIDR => f64_dec 95 2
  | _ => f64_dec 7 1
  end.

Section handler.
Context (sha256 : list Z -> list Z) `{MapOrder}.

(** The buffer as [b] now; it has called back for every GOP it removed. *)
Definition after_drop (now : Z) (b : Buffer) h : StreamHandler :=
  let removed := (length (GopBuffer.gops (gopBuffer h)) - length (GopBuffer.gops b))%nat in
  set_buffer b h <| session := Nat.iter removed (onGOPBufferDrop now (parameterContext h)) (session h) |>.
Definition drop_for_pressure (now : Z) (pressure : float64) h : res (StreamHandler * list VideoFrame) :=
  '(b, dropped) ← GopBuffer.DropFramesForPressure pressure (gopBuffer h);
  Ret (add_dropped (len dropped) (after_drop now b h), dropped).

Definition shouldDropFrame w f h : res (StreamHandler * bool) :=
  let pressure := GetPressure (frameQueue h) in
  if IsKeyframe f && f64_ltb pressure (f64_dec 95 2) then Ret (h, false)
  else
    h ← (if f64_ltb (f64_dec 5 1) pressure then '(h, _) ← drop_for_pressure (now w) pressure h; Ret h else Ret h);
    let currentGOP := GopDetector.GetCurrentGOP (GopBuffer.store (gopBuffer h)) (gopDetector h) in
    Ret (h, f64_ltb (drop_threshold f currentGOP) pressure).

(** ** A frame *)

(** The frame as it is in its group: the last one there. *)
Definition positioned (b : Buffer) (d : GopDetector.Detector) f : VideoFrame :=
  match GopDetector.currentGOP d with Some c => default f (last (Gop.Frames (gop_of b c))) | None => f end.

(** [r] is the address of the group a key frame opens. *)
Definition into_gops w (r : gop_ref) f h : res (StreamHandler * VideoFrame) :=
  let b := gopBuffer h in
  let '(heap, d, closed) := GopDetector.ProcessFrame r f (GopBuffer.store b) (gopDetector h) in
  let b := b <| GopBuffer.store := heap |> in
  '(b, ctx, s) ← match closed with
                 | Some c => SessionSets.AddGOP sha256 (now w) c (gop_of b c) b (parameterContext h) (session h)
                 | None => Ret (b, parameterContext h, session h)
                 end;
  Ret (set_buffer b h <| gopDetector := d |> <| parameterContext := ctx |> <| session := s |>, positioned b d f).

Definition count_type f h : StreamHandler :=
  match FType f with
  | FrameTypeI | FrameTypeIDR => h <| keyframeCount := u64 (keyframeCount h + 1) |>
  | FrameTypeP => h <| pFrameCount := u64 (pFrameCount h + 1) |>
  | FrameTypeB => h <| bFrameCount := u64 (bFrameCount h + 1) |>
  | _ => h
  end.

Inductive verdict : Type := Corrupt | Dropped | Queued | Refused.

Definition handle_corruption w h : res StreamHandler :=
  r ← Recovery.HandleError (now w) (later w) Recovery.ErrorTypeCorruption Recovery.FrameDetails (recoveryHandler h);
  Ret (add_dropped 1 (recovered_as r h)).

Definition queue_frame w f h : StreamHandler * verdict :=
  let '(q, r) := Enqueue (serializeFrame f) (allowed w) (disk_fails w) (frameQueue h) in
  let h := h <| frameQueue := q |> in
  let '(h, v) := match r with Val _ => (h, Queued) | Err _ => (applyBackpressure w (add_error h), Refused) end in
  (h <| bytesProcessed := u64 (bytesProcessed h + u64 (TotalSize f)) |>, v).

(** The part behind the corruption check. *)
Definition accept_frame w (r : gop_ref) f h : res (StreamHandler * verdict) :=
  let h := if IsKeyframe f then h <| recoveryHandler := Recovery.UpdateKeyframe (Some f) (recoveryHandler h) |> else h in
  h ← tryDetectResolution f h;
  '(h, f) ← into_gops w r f h;
  '(m, f, _) ← AVSync.ProcessVideoFrame f (ck w) (syncManager h);
  let h := storeRecentFrame f (h <| syncManager := m |>) in
  '(h, drop) ← shouldDropFrame w f h;
  if (drop : bool) then Ret (add_dropped 1 h <| syncManager := AVSync.ReportVideoDropped 1 (syncManager h) |>, Dropped)
  else Ret (queue_frame w f h).

Definition processFrame w (r : gop_ref) f h : res (StreamHandler * verdict) :=
  let h := h <| framesAssembled := u64 (framesAssembled h + 1) |> in
  c ← extractParameterSetsFromFrame sha256 (now w) f (sessionParameterCache h);
  let h := count_type f (set_cache c h) in
  corrupt ← (if is_metadata f then Ret false else detectFrameCorruption (now w) (codec h) f);
  if (corrupt : bool) then h ← handle_corruption w h; Ret (h, Corrupt)
  else accept_frame w r f h.

(** ** The other goroutines *)

Definition dropOldestGOP w h : res StreamHandler :=
  recentGOPs ← GetRecentGOPs 10 (gopBuffer h);
  if len recentGOPs =? 0 then Ret h
  else
    '(h, dropped) ← drop_for_pressure (now w) (f64_dec 99 2) h;
    Ret (if 0 <? len dropped then h <| bpController := Backpressure.IncrementGOPsDropped (bpController h) |> else h).

(** A tick of [monitorBackpressure]. *)
Definition monitorBackpressure w h : res StreamHandler :=
  let pressure := GetPressure (frameQueue h) in
  let stats := GopDetector.detector_GetStatistics (GopBuffer.store (gopBuffer h)) (gopDetector h) in
  let bp := Backpressure.UpdateGOPStats stats (Backpressure.UpdatePressure pressure (bpController h)) in
  let h := h <| bpController := bp |> in
  h ← (if Backpressure.ShouldDropGOP pressure bp then dropOldestGOP w h else Ret h);
  let h := if f64_ltb pressure (f64_dec 5 1) then releaseBackpressure h else h in
  Ret (if 10 * second <? time_sub (now w) (lastEnforcement h)
       then enforceRecentFramesLimits (set_cache (enforceSessionCacheLimits (now w) (sessionParameterCache h)) h) <| lastEnforcement := now w |>
       else h).

(** A tick of the controller; [onRateChange] sets the limit of the connection. *)
Definition adjust_rate (now : Z) h : StreamHandler :=
  let bp := Backpressure.adjustRate now (bpController h) in
  let called := drop (length (Backpressure.rates_called (bpController h))) (Backpressure.rates_called bp) in
  fold_left (fun h rate => SetMaxBW rate h) called (h <| bpController := bp |>).

Definition processAudio w (p : Codec.TimestampedPacket) h : res StreamHandler :=
  '(m, _, _) ← AVSync.ProcessAudioPacket p (ck w) (syncManager h); Ret (h <| syncManager := m |>).

(** ** A stream *)

Definition buffer_config : GopBuffer.BufferConfig :=
  {| GopBuffer.MaxGOPs := 10; GopBuffer.MaxBytes := 50 * 1024 * 1024; GopBuffer.MaxDuration := 30 * second |}.
Definition bp_config : Backpressure.Config :=
  Backpressure.mkConfig (100 * 1024) (10 * 1024 * 1024) (f64_dec 5 1) (f64_dec 12 1) (f64_dec 8 1) second 10.
Definition recovery_config : Recovery.Config := Recovery.mkConfig (5 * second) (2 * second) 10.

(** [audio]: there is a source of audio packets; [transport]: the sets an SRT
    connection has seen. *)
Definition NewStreamHandler (now : Z) (streamID : string) (c : CodecType) (is_srt audio : bool) (transport : option ParameterSetContext) (queue : HybridQueue)
    : res StreamHandler :=
  bp ← Backpressure.NewController streamID bp_config;
  let buffer := GopBuffer.NewBuffer streamID buffer_config in
  let m := (AVSync.InitializeVideo (mkRational 1 90000) (AVSync.NewManager streamID None)).1 in
  let audioTimeBase := mkRational 1 (if Codec.IsAudio c then Codec.GetClockRate c else 48000) in
  let m := if audio then (AVSync.InitializeAudio audioTimeBase m).1 else m in
  let cache := ParamContext.NewParameterSetContext c streamID now in
  let cache := match transport with Some t => SessionSets.seedSessionCacheFromTransport now t cache | None => cache end in
  Ret (mkHandler c is_srt (GopDetector.NewDetector streamID)
         (Recovery.SetCallbacks true true true (Recovery.NewHandler recovery_config buffer))
         (ParamContext.NewParameterSetContext c streamID now) (SessionSets.mkSession cache 0) m (SpsH264.mkRes 0 0)
         (Backpressure.SetRateChangeCallback true bp) queue 0 0 0 0 0 0 false None now [] 300 now [] false []).

(** ** Putting the newest group back *)

(** The number of frames put back; [None] without a group. *)
Fixpoint requeue (ws : list world) (fs : list VideoFrame) (q : HybridQueue) (n : Z) : HybridQueue * Z :=
  match fs, ws with
  | f :: fs, w :: ws =>
      let '(q, r) := Enqueue (serializeFrame f) (allowed w) (disk_fails w) q in
      requeue ws fs q (match r with Val _ => n + 1 | Err _ => n end)
  | _, _ => (q, n)
  end.
Definition RecoverFromError (ws : list world) h : res (StreamHandler * option Z) :=
  gs ← GetRecentGOPs 1 (gopBuffer h);
  match gs with
  | [] => Ret (h, None)
  | g :: _ => let '(q, n) := requeue ws (Gop.Frames g) (frameQueue h) 0 in Ret (h <| frameQueue := q |>, Some n)
  end.

(** What happens to a stream: a frame, a tick of the monitor, one of the rate
    controller, an audio packet, a goroutine of the recovery that begins or wakes
    up, the newest group put back into the queue (which nothing in the program
    asks for).  Nothing takes messages from the queue. *)
Inductive label : Type :=
| LFrame (w : world) (r : gop_ref) (f : VideoFrame)
| LMonitor (w : world)
| LAdjust (now : Z)
| LAudio (w : world) (p : Codec.TimestampedPacket)
| LBegin (now a : Z)
| LWake (now a : Z) (k : Recovery.wake)
| LRequeue (ws : list world).
Definition step (l : label) h : res (StreamHandler * option verdict) :=
  match l with
  | LFrame w r f => '(h, v) ← processFrame w r f h; Ret (h, Some v)
  | LMonitor w => h ← monitorBackpressure w h; Ret (h, None)
  | LAdjust now => Ret (adjust_rate now h, None)
  | LAudio w p => h ← processAudio w p h; Ret (h, None)
  | LBegin now a => h ← recovery_step (Recovery.LBegin now a) h; Ret (h, None)
  | LWake now a k => h ← recovery_step (Recovery.LWake now a k) h; Ret (h, None)
  | LRequeue ws => '(h, _) ← RecoverFromError ws h; Ret (h, None)
  end.
End handler.

(** ** Requests *)

(** The best key frame not behind [targetPTS]. *)
Fixpoint best_keyframe (gs : list Gop.GOP) (targetPTS : Z) (best : option VideoFrame) : option VideoFrame :=
  match gs with
  | [] => best
  | g :: gs =>
      let best := match Gop.Keyframe g with
                  | Some k =>
                      if (PTS k <=? targetPTS) && match best with None => true | Some b => PTS b <? PTS k end then Some k else best
                  | None => best
                  end in
      best_keyframe gs targetPTS best
  end.
Definition SeekToKeyframe (targetPTS : Z) h : res (option VideoFrame) :=
  gs ← GetRecentGOPs 10 (gopBuffer h); Ret (best_keyframe gs targetPTS None).

Definition kind_counts (fs : list VideoFrame) : Z * Z * Z :=
  let count (p : VideoFrame -> bool) := len (filter (fun f => p f = true) fs) in
  (count (fun f => ft_eqb (FType f) FrameTypeI || ft_eqb (FType f) FrameTypeIDR), count (fun f => ft_eqb (FType f) FrameTypeP),
   count (fun f => ft_eqb (FType f) FrameTypeB)).
(** The frames that are shown, at 30 a second. *)
Definition GetFramePreview (durationSeconds : float64) h : res (list VideoFrame) :=
  let targetFrames := f64_trunc (f64_mul durationSeconds (f64_of_Z 30)) in
  let targetFrames := if targetFrames =? 0 then 1 else targetFrames in
  let startIdx := i64 (len (recentFrames h) - targetFrames) in
  let startIdx := if startIdx <? 0 then 0 else startIdx in
  if len (recentFrames h) <? startIdx then Panic else Ret (dropZ startIdx (recentFrames h)).

(** ** A stream keeps its invariants *)

Section stream.
Context (sha256 : list Z -> list Z) `{MapOrder}.
#[local] Existing Instance GopPipeline.detector_sizes.
Notation reachable := (ParamContext.reachable sha256).

(** Memory holds at most its [10000] messages, the file none. *)
Record queue_ok (q : HybridQueue) : Prop := mkQueueOk {
  qo_open : HybridQueue.closed q = false;
  qo_size : HybridQueue.memSize q = 10000;
  qo_count : HybridQueue.memCount q = len (HybridQueue.memQueue q);
  qo_bound : len (HybridQueue.memQueue q) <= 10000;
  qo_disk : HybridQueue.diskBytes q = 0
}.

Record handler_ok h : Prop := mkHandlerOk {
  ho_pipe : GopPipeline.pipe_ok (gopDetector h) (gopBuffer h);
  ho_waits : Recovery.waits (recoveryHandler h);
  ho_context : reachable (parameterContext h);
  ho_cache : reachable (sessionParameterCache h);
  ho_units : forall c, GopDetector.currentGOP (gopDetector h) = Some c -> Forall SessionSets.units_ok (GopBuffer.frames_at (gopBuffer h) c);
  ho_sync : AVSync.sync_inv AVSync.DefaultSyncConfig (syncManager h);
  ho_recent : len (recentFrames h) <= 300 /\ maxRecentFrames h = 300;
  ho_bp : Backpressure.bp_ok bp_config (bpController h);
  ho_queue : queue_ok (frameQueue h)
}.
(** A frame with a new id, of bytes, no unit with the type 7 empty (the assembler
    leaves out empty units); its group has a new address. *)
Record frame_ok (r : gop_ref) f h : Prop := mkFrameOk {
  fo_units : SessionSets.units_ok f;
  fo_ref : GopPipeline.fresh_ref r (gopDetector h) (gopBuffer h);
  fo_id : Frame.ID f ∉ GopPipeline.held (gopDetector h) (gopBuffer h);
  fo_count : GopDetector.gopCounter (gopDetector h) + 1 < 2 ^ 64
}.
(** A group is put back only where memory has room for it: the file stays
    unused. *)
Definition room_for (h : StreamHandler) (fs : list VideoFrame) : Prop := len (HybridQueue.memQueue (frameQueue h)) + len fs <= 10000.
Definition label_ok (l : label) h : Prop :=
  match l with
  | LFrame w r f => frame_ok r f h
  | LRequeue _ => forall g gs, GetRecentGOPs 1 (gopBuffer h) = Ret (g :: gs) -> room_for h (Gop.Frames g)
  | _ => True
  end.

(** *** Recovery *)

Lemma request_buffer r : Recovery.gopBuffer (Recovery.requestKeyframe r) = Recovery.gopBuffer r.
Proof.
  unfold Recovery.requestKeyframe, Recovery.start_waiter, Recovery.call. by destruct (Recovery.onForceKeyframe r); cbn; destruct (Recovery.keyframeCancel r).
Qed.
Lemma set_state_buffer t s r : Recovery.gopBuffer (Recovery.setState t s r) = Recovery.gopBuffer r.
Proof. by destruct (Recovery.set_state_rest t s r) as [? ->]. Qed.
Lemma call_buffer c e r : Recovery.gopBuffer (Recovery.call c e r) = Recovery.gopBuffer r.
Proof. by destruct c. Qed.

(** The calls back only set the flag and count errors. *)
Lemma recovered_as_spec r h : exists bp e,
  recovered_as r h = h <| recoveryHandler := r |> <| backpressure := bp |> <| session := SessionSets.mkSession (sessionParameterCache h) e |>.
Proof.
  unfold recovered_as. generalize (drop (length (Recovery.events (recoveryHandler h))) (Recovery.events r)) as es. intros es.
  enough (forall g, (exists bp e, g = h <| recoveryHandler := r |> <| backpressure := bp |> <| session := SessionSets.mkSession (sessionParameterCache h) e |>) ->
    exists bp e, fold_left (fun h e => on_recovery e h) es g = h <| recoveryHandler := r |> <| backpressure := bp |> <| session := SessionSets.mkSession (sessionParameterCache h) e |>) as Hs.
  { apply Hs. exists (backpressure h), (SessionSets.errors (session h)). unfold sessionParameterCache. destruct h as [? ? ? ? ? [? ?]]. done. }
  induction es as [|e es IH]; intros g (bp & n & ->); [by exists bp, n|]. cbn [fold_left]. apply IH.
  destruct e as [e|d [|]|]; cbn [on_recovery]; by eexists _, _.
Qed.

Lemma corruption_handled t t' r : Recovery.waits r ->
  exists r', Recovery.HandleError t t' Recovery.ErrorTypeCorruption Recovery.FrameDetails r = Ret r' /\ Recovery.waits r' /\
    GopBooks.queue_suffix (Recovery.gopBuffer r) (Recovery.gopBuffer r').
Proof.
  intros Hw. destruct (Recovery.handle_error_waits t t' Recovery.ErrorTypeCorruption Recovery.FrameDetails r Hw) as (r' & E & Hw').
  exists r'. split; [done|]. split; [done|]. unfold Recovery.HandleError in E. case_bool_decide as Hs.
  - injection E as <-. unfold Recovery.escalateRecovery.
    assert (GopBooks.queue_suffix (Recovery.gopBuffer r) (Recovery.gopBuffer r)) as Hq by apply GopBooks.same_queue_suffix, GopBuffer.same_queue_refl.
    case_bool; [by rewrite set_state_buffer|by rewrite request_buffer].
  - destruct (Recovery.corruption_spec t t' r Hw) as (r2 & E2 & _ & (_ & Hq & _) & _). rewrite E in E2. injection E2 as <-.
    by apply GopBooks.same_queue_suffix.
Qed.

(** The buffer has shrunk behind the detector's back. *)
Lemma shrunk_ok d b b' : GopPipeline.pipe_ok d b -> GopBooks.queue_suffix b b' -> GopBuffer.buf_ok b' ->
  GopPipeline.pipe_ok d b' /\ (forall c, GopDetector.currentGOP d = Some c -> GopBuffer.frames_at b' c = GopBuffer.frames_at b c) /\
  GopDetector.GetCurrentGOP (GopBuffer.store b') d = GopDetector.GetCurrentGOP (GopBuffer.store b) d.
Proof.
  intros Hp Hq Hb. split; [by apply (GopPipeline.suffix_ok d b)|].
  assert (forall c, GopDetector.currentGOP d = Some c -> gop_of b' c = gop_of b c) as Hg.
  2:{ split; [intros c Hc; unfold GopBuffer.frames_at; by rewrite Hg|]. unfold GopDetector.GetCurrentGOP.
      destruct (GopDetector.currentGOP d) as [c|]; [|done]. cbn. f_equal. by apply (Hg c). }
  intros c Hc. destruct Hq as (_ & _ & Ho & _). apply Ho.
  by apply (GopPipeline.co_ref d b c (GopPipeline.po_current d b Hp c Hc)).
Qed.

Lemma handle_corruption_ok w h : handler_ok h ->
  exists r bp e, let h' := h <| recoveryHandler := r |> <| backpressure := bp |> <| session := SessionSets.mkSession (sessionParameterCache h) e |>
      <| framesDropped := u64 (framesDropped h + 1) |> in
    handle_corruption w h = Ret h' /\ handler_ok h' /\ GopBooks.queue_suffix (gopBuffer h) (gopBuffer h').
Proof.
  intros Ho. destruct (corruption_handled (now w) (later w) _ (ho_waits h Ho)) as (r & E & Hw & Hq).
  destruct (recovered_as_spec r h) as (bp & e & E2). exists r, bp, e. cbv zeta. unfold handle_corruption. rewrite E, bind_Ret, E2.
  split; [done|]. split; [|done]. destruct (shrunk_ok _ _ _ (ho_pipe h Ho) Hq (Recovery.w_buffer r Hw)) as (Hp & Hc & _).
  destruct Ho as [_ _ O3 O4 O5 O6 O7 O8 O9]. split; try done. intros c Ec. pose proof (O5 c Ec) as Hu. by rewrite <- (Hc c Ec) in Hu.
Qed.

(** *** Groups *)

Lemma loop_store fuel : (forall b b', GopBuffer.count_loop fuel b = Ret b' -> GopBuffer.store b' = GopBuffer.store b) /\
  (forall b b', GopBuffer.bytes_loop fuel b = Ret b' -> GopBuffer.store b' = GopBuffer.store b) /\
  (forall t b b', GopBuffer.duration_loop fuel t b = Ret b' -> GopBuffer.store b' = GopBuffer.store b).
Proof.
  assert (forall b, GopBuffer.store (GopBuffer.removeOldestGOP b) = GopBuffer.store b) as Hr
    by (intros b; destruct (GopBooks.removeOldest_evicted b) as (_ & ? & _); done).
  induction fuel as [|fuel (IH1 & IH2 & IH3)]; [done|]. cbn [GopBuffer.count_loop GopBuffer.bytes_loop GopBuffer.duration_loop]. split_and!.
  - intros b b'. case_bool; [|by intros [= <-]]. intros E. by rewrite (IH1 _ _ E).
  - intros b b'. case_bool; [|by intros [= <-]]. intros E. by rewrite (IH2 _ _ E).
  - intros t b b'. repeat case_match; try (by intros [= <-]); try done; intros E; by rewrite (IH3 _ _ _ E).
Qed.
Lemma AddGOP_store c g b b' : GopBuffer.AddGOP c g b = Ret b' -> GopBuffer.store b' = <[c := g]> (GopBuffer.store b).
Proof.
  unfold GopBuffer.AddGOP. case_bool; [by intros [= <-]|]. unfold GopBuffer.enforceBufferLimits. intros E.
  apply bind_Ret_inv in E as (b1 & E1 & E). apply bind_Ret_inv in E as (b2 & E2 & E).
  assert (GopBuffer.store b' = GopBuffer.store b2) as -> by (revert E; case_bool; [apply loop_store|by intros [= <-]]).
  apply loop_store in E1, E2. rewrite E2, E1.
  by destruct (GopBooks.widen_fields g (GopBuffer.enqueue c g (GopBuffer.set_gop c g b))) as (_ & -> & _).
Qed.

Definition in_group f (f' : VideoFrame) : Prop := exists g p, f' = f <| GOPId := g |> <| GOPPosition := p |>.
Lemma in_group_self f : in_group f f.
Proof. exists (GOPId f), (GOPPosition f). by destruct f. Qed.

Lemma process_units r f heap d heap' d' closed :
  GopDetector.ProcessFrame r f heap d = (heap', d', closed) -> GopDetector.currentGOP d <> Some r -> SessionSets.units_ok f ->
  (forall c, GopDetector.currentGOP d = Some c -> Forall SessionSets.units_ok (Gop.Frames (heap !!! c))) ->
  (forall c, closed = Some c -> Forall SessionSets.units_ok (Gop.Frames (heap' !!! c)) /\ GopDetector.currentGOP d' <> Some c) /\
  (forall c, GopDetector.currentGOP d' = Some c -> Forall SessionSets.units_ok (Gop.Frames (heap' !!! c)) /\
     exists f', last (Gop.Frames (heap' !!! c)) = Some f' /\ in_group f f').
Proof.
  intros E Hr Hf Hc. unfold GopDetector.ProcessFrame in E. destruct (IsKeyframe f).
  - destruct (GopDetector.currentGOP d) as [c|] eqn:Ec.
    + destruct (GopDetector.closeCurrentGOP_spec (PTS f) heap d c Ec) as (g & d1 & E1 & _ & Hfr & _ & _ & _ & _ & _ & _ & _ & _ & Hc1 & _).
      rewrite E1 in E. cbv beta iota zeta in E. injection E as <- <- <-. rewrite Hc1. assert (r <> c) as Hne by congruence. split.
      * intros c' [= <-]. rewrite lookup_total_insert_ne, lookup_total_insert_eq, Hfr by done. split; [by apply Hc|]. cbn. congruence.
      * intros c' [= <-]. rewrite lookup_total_insert_eq. cbn. split; [by constructor|]. eexists. split; [done|]. by eexists _, _.
    + unfold GopDetector.closeCurrentGOP in E. rewrite Ec in E. cbv beta iota zeta in E. injection E as <- <- <-. rewrite Ec. split; [done|].
      intros c' [= <-]. rewrite lookup_total_insert_eq. cbn. split; [by constructor|]. eexists. split; [done|]. by eexists _, _.
  - destruct (GopDetector.currentGOP d) as [c|] eqn:Ec; injection E as <- <- <-; [|split; [done|by rewrite Ec]]. split; [done|].
    rewrite Ec. intros c' [= <-]. rewrite lookup_total_insert_eq.
    destruct (GopDetector.checkGOPCompletion_fields (GopDetector.joined f (heap !!! c))) as (_ & -> & _).
    destruct (GopDetector.joined_fields f (heap !!! c)) as (_ & -> & _). rewrite last_snoc. split.
    + apply Forall_app. split; [by apply Hc|by constructor].
    + eexists. split; [done|]. by eexists _, _.
Qed.

Lemma drop_reachable t b s : reachable b -> reachable (SessionSets.sessionParameterCache s) ->
  reachable (SessionSets.sessionParameterCache (onGOPBufferDrop t b s)).
Proof.
  intros Hb Hs. destruct (Z.le_gt_cases (ParamContext.totalSets (SessionSets.sessionParameterCache s)) 500) as [Ht|Ht].
  - by destruct (SessionSets.drop_copies sha256 t b s Hb Hs Ht) as (c & n & -> & _ & Hr).
  - unfold onGOPBufferDrop. by rewrite (proj2 (Z.ltb_lt _ _)).
Qed.
Lemma drops_reachable t b s n : reachable b -> reachable (SessionSets.sessionParameterCache s) ->
  reachable (SessionSets.sessionParameterCache (Nat.iter n (onGOPBufferDrop t b) s)).
Proof. intros Hb Hs. induction n as [|n IH]; [done|]. by apply drop_reachable. Qed.

Lemma added_gop t c g b b' ctx s : GopBuffer.AddGOP c g b = Ret b' -> Forall SessionSets.units_ok (Gop.Frames g) ->
  reachable ctx -> reachable (SessionSets.sessionParameterCache s) ->
  exists ctx' s', SessionSets.AddGOP sha256 t c g b ctx s = Ret (b', ctx', s') /\ reachable ctx' /\ reachable (SessionSets.sessionParameterCache s').
Proof.
  intros E Hg Hc Hs. unfold SessionSets.AddGOP. rewrite E, bind_Ret. case_bool; [by eexists _, _|].
  destruct (SessionSets.extract_gop_ok sha256 t (Gop.Frames g) ctx (SessionSets.units_bytes _ Hg) Hc) as (ctx' & -> & Hr & _). rewrite bind_Ret.
  eexists _, _. split; [done|]. split; [done|]. by apply drops_reachable.
Qed.

Lemma into_gops_ok w r f h : handler_ok h -> frame_ok r f h ->
  exists b d ctx s f', let h' := set_buffer b h <| gopDetector := d |> <| parameterContext := ctx |> <| session := s |> in
    into_gops sha256 w r f h = Ret (h', f') /\ handler_ok h' /\ in_group f f' /\
    GopPipeline.frame_into r f (gopDetector h) (gopBuffer h) = Ret (d, b).
Proof.
  intros [O1 O2 O3 O4 O5 O6 O7 O8 O9] [F1 F2 F3 F4].
  destruct (GopPipeline.frame_ok r f (gopDetector h) (gopBuffer h) O1 F2 F3 F4) as (d & b & E & Hp).
  pose proof E as E'. unfold GopPipeline.frame_into in E. unfold into_gops.
  destruct (GopDetector.ProcessFrame r f (GopBuffer.store (gopBuffer h)) (gopDetector h)) as [[heap d1] closed] eqn:Ep.
  destruct (process_units _ _ _ _ _ _ _ Ep (proj2 F2) F1 O5) as [Hclosed Hcur]. set (b0 := (gopBuffer h) <| GopBuffer.store := heap |>) in *.
  assert (exists ctx s, match closed with
      | Some c => SessionSets.AddGOP sha256 (now w) c (gop_of b0 c) b0 (parameterContext h) (session h)
      | None => Ret (b0, parameterContext h, session h) end = Ret (b, ctx, s) /\ d1 = d /\
      reachable ctx /\ reachable (SessionSets.sessionParameterCache s) /\
      (forall c, GopDetector.currentGOP d = Some c -> gop_of b c = heap !!! c)) as (ctx & s & -> & -> & Hctx & Hs & Hgop).
  { destruct closed as [c|].
    - apply bind_Ret_inv in E as (b1 & E1 & [= <- <-]). destruct (Hclosed c eq_refl) as [Hu Hne].
      destruct (added_gop (now w) c (heap !!! c) b0 b1 (parameterContext h) (session h) E1 Hu O3 O4) as (ctx & s & Ea & Hctx & Hs).
      exists ctx, s. split; [exact Ea|]. split; [done|]. split; [done|]. split; [done|].
      intros c' Hc'. unfold gop_of. rewrite (AddGOP_store _ _ _ _ E1). rewrite lookup_total_insert_ne; [done|]. congruence.
    - injection E as <- <-. by eexists _, _. }
  rewrite bind_Ret. exists b, d, ctx, s, (positioned b d f). cbv zeta. split; [done|]. split; [|split; [|done]].
  - split; try done. { destruct O2 as [_ W2 W3]. split; [apply (GopPipeline.po_buf d b Hp)|done..]. }
    intros c Hc. destruct (Hcur c Hc) as [Hu _]. unfold GopBuffer.frames_at. change (gopBuffer _) with b. by rewrite (Hgop c Hc).
  - unfold positioned. destruct (GopDetector.currentGOP d) as [c|] eqn:Ec; [|apply in_group_self].
    rewrite (Hgop c eq_refl). by destruct (Hcur c eq_refl) as (_ & f' & -> & ?).
Qed.

(** *** Parts of a frame's way *)

Lemma unit_corrupted_total data : bytes data -> exists c, unit_corrupted data = Ret c.
Proof.
  intros Hb. cut (returns (unit_corrupted data) (fun _ => True)); [by intros (c & E & _); exists c|]. unfold unit_corrupted.
  pose proof (len_nonneg data). case_bool; [by apply returns_Ret|]. eapply (returns_bind _ _ (fun p => 0 <= p.2)).
  - destruct (Z.leb_spec 4 (len data)); [|by apply returns_Ret].
    do 4 (eapply returns_bind; [apply returns_idx; [done|lia]|]; intros ? _). apply returns_Ret. cbn. repeat case_bool; lia.
  - intros [[|] o] Ho; [by apply returns_Ret|]. destruct (Z.ltb_spec o (len data)); [|by apply returns_Ret].
    eapply returns_bind; [apply returns_idx; [done|cbn in Ho; lia]|]. intros b _. by apply returns_Ret.
Qed.
Lemma corruption_total t c f : SessionSets.units_ok f -> exists b, detectFrameCorruption t c f = Ret b.
Proof.
  intros Hf. unfold detectFrameCorruption. assert (exists b, any_corrupted (NALUnits f) = Ret b) as Ha; [|repeat (case_bool; [by eexists|]); by destruct c; eauto].
  induction Hf as [|u nals [Hu _] _ IH]; [by eexists|]. cbn [any_corrupted].
  destruct (unit_corrupted_total _ Hu) as ([|] & ->); rewrite bind_Ret; [by eexists|done].
Qed.

Lemma resolution_total f h : SessionSets.units_ok f -> exists r, tryDetectResolution f h = Ret (h <| detectedResolution := r |>).
Proof.
  intros Hf. assert (h = h <| detectedResolution := detectedResolution h |>) as Hsame by by destruct h.
  assert (forall m, m = Ret h -> exists r, m = Ret (h <| detectedResolution := r |>)) as Hret by (intros m ->; eexists; by f_equal).
  unfold tryDetectResolution. do 2 (case_bool; [by apply Hret|]). set (units := filter _ _). case_bool; [by apply Hret|].
  assert (Forall bytes units) as Hu.
  { apply Forall_forall. intros d [_ (u & -> & Hu)%list_elem_of_fmap]%list_elem_of_filter. by apply (proj1 (Forall_forall _ _) Hf u). }
  assert (exists r, Resolution.DetectFromNALUnits units (codec h) = Ret r) as [r ->].
  { unfold Resolution.DetectFromNALUnits. case_bool; [by eexists|]. destruct (Resolution.returns_units_loop units (codec h) Hu) as (r & -> & _). by eexists. }
  rewrite bind_Ret. case_bool; [by exists r|by apply Hret].
Qed.

Lemma video_synced f ck m : AVSync.sync_inv AVSync.DefaultSyncConfig m ->
  exists m' p e, AVSync.ProcessVideoFrame f ck m = Ret (m', f <| PresentationTime := p |>, e) /\ AVSync.sync_inv AVSync.DefaultSyncConfig m'.
Proof.
  intros Hm. destruct (AVSync.handle_inv AVSync.DefaultSyncConfig (AVSync.Video f ck) m Hm ltac:(by vm_compute)) as (m' & E & Hm' & _).
  cbn [AVSync.handle] in E. apply bind_Ret_inv in E as ([[m1 f'] e] & E & [= ->]). rewrite E.
  enough (exists p, f' = f <| PresentationTime := p |>) as [p ->] by (by exists m', p, e). revert E. unfold AVSync.ProcessVideoFrame.
  destruct (AVSync.videoSync m) as [v|]; [|intros [= _ <- _]; exists (PresentationTime f); by destruct f].
  intros E. apply bind_Ret_inv in E as (v' & _ & E). apply bind_Ret_inv in E as (p & _ & E). apply bind_Ret_inv in E as (m2 & _ & [= _ <- _]). by exists p.
Qed.
Lemma audio_synced p ck m : AVSync.sync_inv AVSync.DefaultSyncConfig m ->
  exists m' p' e, AVSync.ProcessAudioPacket p ck m = Ret (m', p', e) /\ AVSync.sync_inv AVSync.DefaultSyncConfig m'.
Proof.
  intros Hm. destruct (AVSync.handle_inv AVSync.DefaultSyncConfig (AVSync.Audio p ck) m Hm ltac:(by vm_compute)) as (m' & E & Hm' & _).
  cbn [AVSync.handle] in E. apply bind_Ret_inv in E as ([[m1 p'] e] & E & [= ->]). by exists m', p', e.
Qed.
Lemma reported_ok n m : AVSync.sync_inv AVSync.DefaultSyncConfig m -> AVSync.sync_inv AVSync.DefaultSyncConfig (AVSync.ReportVideoDropped n m).
Proof.
  intros Hm. destruct (AVSync.handle_inv AVSync.DefaultSyncConfig (AVSync.VideoDropped n) m Hm ltac:(by vm_compute)) as (m' & E & Hm' & _).
  by injection E as <-.
Qed.

Lemma len_dropZ_le {A} n (l : list A) : len (dropZ n l) <= len l.
Proof. unfold len, dropZ. rewrite length_drop. lia. Qed.
Lemma recent_stored f h : len (recentFrames h) <= 300 -> maxRecentFrames h = 300 ->
  exists fs, storeRecentFrame f h = h <| recentFrames := fs |> /\ len fs <= 300 /\ last fs = Some (frame_copy f).
Proof.
  intros Hl Hm. unfold storeRecentFrame. rewrite Hm. set (fs := recentFrames h ++ [frame_copy f]). eexists. split; [done|].
  assert (len fs = len (recentFrames h) + 1) as Hf by (unfold fs; by rewrite len_app). destruct (Z.ltb_spec 300 (len fs)) as [|]; [|split; [lia|apply last_snoc]].
  replace (len fs - 300) with 1 by lia. split; [unfold dropZ, len in *; rewrite length_drop; lia|].
  unfold fs, dropZ. destruct (recentFrames h) as [|x l]; [unfold len in *; cbn in *; lia|]. cbn. apply last_snoc.
Qed.

Definition current h : option Gop.GOP := GopDetector.GetCurrentGOP (GopBuffer.store (gopBuffer h)) (gopDetector h).

Lemma drop_for_pressure_ok t p h : handler_ok h ->
  exists b s n l, let h' := set_buffer b h <| session := s |> <| framesDropped := n |> in
    drop_for_pressure t p h = Ret (h', l) /\ handler_ok h' /\ GopBooks.queue_suffix (gopBuffer h) b /\ current h' = current h.
Proof.
  intros [O1 O2 O3 O4 O5 O6 O7 O8 O9]. destruct (GopBooks.DropFramesForPressure_ok p (gopBuffer h) (GopPipeline.po_buf _ _ O1)) as (b & l & E & Hb & Hq & _).
  destruct (shrunk_ok _ _ _ O1 Hq Hb) as (Hp & Hc & Hg). unfold drop_for_pressure. rewrite E, bind_Ret. exists b, (session (after_drop t b h)), (u64 (framesDropped h + len l)), l. split; [done|]. split; [|by split].
  split; try done; [by destruct O2|by apply drops_reachable|]. intros c Ec. pose proof (O5 c Ec) as Hu. by rewrite <- (Hc c Ec) in Hu.
Qed.

(** The condition under which a frame is dropped. *)
Definition drops f h : bool :=
  let pressure := GetPressure (frameQueue h) in
  negb (IsKeyframe f && f64_ltb pressure (f64_dec 95 2)) && f64_ltb (drop_threshold f (current h)) pressure.
Lemma should_drop_ok w f h : handler_ok h ->
  exists b s n, let h' := set_buffer b h <| session := s |> <| framesDropped := n |> in
    shouldDropFrame w f h = Ret (h', drops f h) /\ handler_ok h' /\ GopBooks.queue_suffix (gopBuffer h) b.
Proof.
  intros Ho. assert (exists b s n, h = set_buffer b h <| session := s |> <| framesDropped := n |> /\ handler_ok h /\ GopBooks.queue_suffix (gopBuffer h) b) as Hsame.
  { exists (gopBuffer h), (session h), (framesDropped h). split; [by destruct h as [? ? ? [] ? ? ? ? ? ?]|]. split; [done|]. apply GopBooks.same_queue_suffix, GopBuffer.same_queue_refl. }
  unfold shouldDropFrame, drops. case_bool; cbn [negb andb].
  { destruct Hsame as (b & s & n & E & _ & Hq). exists b, s, n. cbv zeta. by rewrite <- E. }
  case_bool.
  - destruct (drop_for_pressure_ok (now w) (GetPressure (frameQueue h)) h Ho) as (b & s & n & l & E & Ho' & Hq & Hc). exists b, s, n. cbv zeta in *.
    rewrite E, !bind_Ret. split; [|done]. unfold current in Hc. by rewrite Hc.
  - destruct Hsame as (b & s & n & E & _ & Hq). exists b, s, n. cbv zeta. rewrite <- E, bind_Ret. done.
Qed.

(** *** The queue *)

Lemma queue_pressure q : queue_ok q -> GetPressure q = f64_div (f64_of_Z (len (HybridQueue.memQueue q))) (f64_of_Z 10000).
Proof. intros [_ Q2 Q3 _ Q5]. unfold GetPressure, HybridQueue.HasDiskData. by rewrite Q2, Q3, Q5. Qed.
(** From 9501 messages on the pressure is above every threshold. *)
Lemma full_pressures : forallb (fun k =>
  let p := f64_div (f64_of_Z (Z.of_nat k)) (f64_of_Z 10000) in
  negb (f64_ltb p (f64_dec 95 2)) && forallb (fun x => f64_ltb x p) [f64_dec 5 1; f64_dec 6 1; f64_dec 7 1; f64_dec 8 1; f64_dec 95 2])
  (seq (Z.to_nat 9501) 500) = true.
Proof. by vm_compute. Qed.
Lemma full_drops f h : queue_ok (frameQueue h) -> 9501 <= len (HybridQueue.memQueue (frameQueue h)) -> drops f h = true.
Proof.
  intros Hq Hl. unfold drops. rewrite (queue_pressure _ Hq). pose proof (qo_bound _ Hq) as Hb. pose proof full_pressures as Hp. rewrite forallb_forall in Hp.
  specialize (Hp (length (HybridQueue.memQueue (frameQueue h)))). unfold len in Hl, Hb |- *.
  assert (In (length (HybridQueue.memQueue (frameQueue h))) (seq (Z.to_nat 9501) 500)) as Hin by (apply in_seq; lia).
  apply Hp in Hin. cbv zeta in Hin. clear Hp. set (p := f64_div _ _) in *. clearbody p. apply andb_true_iff in Hin as [Hlow Hin].
  apply negb_true_iff in Hlow. rewrite Hlow, andb_false_r. cbn [forallb] in Hin. rewrite !andb_true_iff in Hin. destruct Hin as (H5 & H6 & H7 & H8 & H95 & _).
  unfold drop_threshold. set (droppable := match current h with Some _ => _ | None => _ end). clearbody droppable.
  destruct (FType f), droppable; done.
Qed.

Lemma enqueue_ok data a fails q : queue_ok q -> len (HybridQueue.memQueue q) < 10000 ->
  exists q' r, Enqueue data a fails q = (q', r) /\ queue_ok q' /\
    match r with
    | Val _ => a = true /\ HybridQueue.memQueue q' = HybridQueue.memQueue q ++ [data]
    | Err _ => a = false /\ q' = q
    end.
Proof.
  intros [Q1 Q2 Q3 Q4 Q5] Hl. unfold Enqueue. rewrite Q1. destruct a; cbn [negb]; [|by eexists _, _].
  rewrite Q2, (proj2 (Z.ltb_lt _ _)) by lia. eexists _, _. split; [done|]. split; [|done]. pose proof (len_nonneg (HybridQueue.memQueue q)).
  split; cbn; rewrite ?len_app, ?Q3; change (len [data]) with 1; try done; [apply i64_id; pow_consts; lia|lia].
Qed.

(** *** A frame *)

(** What the handler says of a frame, and what it has done: [f'] is the frame as
    it is in its group. *)
Definition outcome (r : gop_ref) f h (v : verdict) (h' : StreamHandler) : Prop :=
  match v with
  | Corrupt =>
      gopDetector h' = gopDetector h /\ GopBooks.queue_suffix (gopBuffer h) (gopBuffer h') /\
      recentFrames h' = recentFrames h /\ frameQueue h' = frameQueue h /\ bytesProcessed h' = bytesProcessed h
  | _ =>
      (exists b, GopPipeline.frame_into r f (gopDetector h) (gopBuffer h) = Ret (gopDetector h', b) /\ GopBooks.queue_suffix b (gopBuffer h')) /\
      (exists f' p, in_group f f' /\ last (recentFrames h') = Some (frame_copy (f' <| PresentationTime := p |>))) /\
      match v with
      | Queued => HybridQueue.memQueue (frameQueue h') = HybridQueue.memQueue (frameQueue h) ++ [serializeFrame f]
      | _ => frameQueue h' = frameQueue h
      end /\
      bytesProcessed h' = match v with Dropped => bytesProcessed h | _ => u64 (bytesProcessed h + u64 (TotalSize f)) end
  end.

Lemma grouped_serialized f f' p : in_group f f' -> serializeFrame (f' <| PresentationTime := p |>) = serializeFrame f.
Proof. by intros (g & q & ->). Qed.

Lemma set_bw_spec bw h : exists l, SetMaxBW bw h = h <| max_bandwidth := l |>.
Proof. unfold SetMaxBW. destruct (srt h); [by eexists|]. exists (max_bandwidth h). by destruct h. Qed.

Lemma queue_frame_ok w f h : handler_ok h -> len (HybridQueue.memQueue (frameQueue h)) < 10000 ->
  exists h' v, queue_frame w f h = (h', v) /\ handler_ok h' /\ gopDetector h' = gopDetector h /\ gopBuffer h' = gopBuffer h /\
    recentFrames h' = recentFrames h /\ framesAssembled h' = framesAssembled h /\
    bytesProcessed h' = u64 (bytesProcessed h + u64 (TotalSize f)) /\
    ((v = Queued /\ allowed w = true /\ HybridQueue.memQueue (frameQueue h') = HybridQueue.memQueue (frameQueue h) ++ [serializeFrame f]) \/
     (v = Refused /\ allowed w = false /\ frameQueue h' = frameQueue h)).
Proof.
  intros Ho Hl. destruct (enqueue_ok (serializeFrame f) (allowed w) (disk_fails w) _ (ho_queue h Ho) Hl) as (q & e & E & Hq & He).
  unfold queue_frame. rewrite E. destruct Ho as [O1 O2 O3 O4 O5 O6 O7 O8 O9]. destruct e as [[]|e]; destruct He as [Ha Hm]; [|subst q].
  - eexists _, _. split; [done|]. split; [by split|]. by repeat split; [..|left].
  - set (h1 := add_error _). assert (exists bp t bw, applyBackpressure w h1 = h1 <| backpressure := bp |> <| lastBackpressure := t |> <| max_bandwidth := bw |>) as (bp & t & bw & ->).
    { unfold applyBackpressure. case_match; [exists (backpressure h1), (lastBackpressure h1), (max_bandwidth h1); done|].
      destruct (set_bw_spec (f64_trunc (f64_mul (f64_of_Z (current_bandwidth w)) (f64_dec 8 1))) (h1 <| backpressure := true |> <| lastBackpressure := Some (now w) |>)) as [bw ->].
      by exists true, (Some (now w)), bw. }
    eexists _, _. split; [done|]. split; [by split|]. by repeat split; [..|right].
Qed.

(** Whether a frame is dropped, where that does not depend on its group. *)
Definition drop_condition f h : option bool :=
  let pressure := GetPressure (frameQueue h) in
  if IsKeyframe f && f64_ltb pressure (f64_dec 95 2) then Some false
  else match FType f with
       | FrameTypeI | FrameTypeIDR => Some (f64_ltb (f64_dec 95 2) pressure)
       | FrameTypeB | FrameTypeP => None
       | _ => Some (f64_ltb (f64_dec 7 1) pressure)
       end.
Lemma drops_condition f h k : drop_condition f h = Some k -> drops f h = k.
Proof.
  unfold drop_condition, drops, drop_threshold. case_bool; [by intros [= <-]|]. destruct (FType f); by intros [= <-].
Qed.

Lemma accept_frame_ok w r f h : handler_ok h -> frame_ok r f h ->
  exists h' v, accept_frame sha256 w r f h = Ret (h', v) /\ handler_ok h' /\ v <> Corrupt /\ outcome r f h v h' /\
    framesAssembled h' = framesAssembled h /\ (v = Queued -> allowed w = true) /\
    (9501 <= len (HybridQueue.memQueue (frameQueue h)) -> v = Dropped) /\
    (forall k, drop_condition f h = Some k -> v = (if k then Dropped else if allowed w then Queued else Refused)).
Proof.
  intros Ho Hf. unfold accept_frame. set (h1 := if IsKeyframe f then _ else h).
  assert (exists k, h1 = h <| recoveryHandler := (recoveryHandler h) <| Recovery.lastKeyframe := k |> |>) as (k & Ek).
  { subst h1. unfold Recovery.UpdateKeyframe. destruct (IsKeyframe f); [by eexists|]. exists (Recovery.lastKeyframe (recoveryHandler h)). by destruct h as [? ? ? [] ? ? ? ? ? ?]. }
  destruct (resolution_total f h1 (fo_units r f h Hf)) as (res & ->). rewrite bind_Ret, Ek. clear h1 Ek. set (h1 := upd detectedResolution _ _).
  assert (handler_ok h1) as Ho1 by (destruct Ho as [? [] ? ? ? ? ? ? ?]; by split). assert (frame_ok r f h1) as Hf1 by (by destruct Hf).
  destruct (into_gops_ok w r f h1 Ho1 Hf1) as (b & d & ctx & s & f' & -> & Ho2 & Hin & Hrun). rewrite bind_Ret. cbv beta iota. set (h2 := set_buffer b _) in *.
  destruct (video_synced f' (ck w) _ (ho_sync h2 Ho2)) as (m & p & e & -> & Hm). rewrite bind_Ret. cbv beta iota.
  set (h2' := upd syncManager m h2). assert (handler_ok h2') as Ho2' by (destruct Ho2; by split).
  destruct (ho_recent h2' Ho2') as [Hr1 Hr2]. destruct (recent_stored (f' <| PresentationTime := p |>) h2' Hr1 Hr2) as (fs & -> & Hfs & Hlast).
  set (h3 := upd recentFrames fs _). assert (handler_ok h3) as Ho3 by (destruct Ho2'; by split).
  destruct (should_drop_ok w (f' <| PresentationTime := p |>) h3 Ho3) as (b' & s' & n & -> & Ho4 & Hq). rewrite bind_Ret. cbv beta iota. set (h4 := set_buffer b' _) in *.
  assert (forall h5, gopDetector h5 = d -> gopBuffer h5 = b' -> recentFrames h5 = fs ->
    (exists b, GopPipeline.frame_into r f (gopDetector h) (gopBuffer h) = Ret (gopDetector h5, b) /\ GopBooks.queue_suffix b (gopBuffer h5)) /\
    (exists f' p, in_group f f' /\ last (recentFrames h5) = Some (frame_copy (f' <| PresentationTime := p |>)))) as Hway.
  { intros h5 -> -> ->. split; [by exists b|]. by exists f', p. }
  assert (forall k, drop_condition f h = Some k -> drops (f' <| PresentationTime := p |>) h3 = k) as Hcond.
  { intros q Hk. apply drops_condition. by destruct Hin as (? & ? & ->). }
  destruct (drops _ h3) eqn:Ed.
  - eexists _, Dropped. split; [done|]. split; [|split; [done|split; [|split; [done|split; [done|split; [done|]]]]]].
    + destruct Ho4. split; try done. by apply reported_ok.
    + set (h5 := add_dropped 1 _). destruct (Hway h5) as [W1 W2]; [done..|]. by repeat split.
    + intros q Hk%Hcond. by subst q.
  - assert (~ 9501 <= len (HybridQueue.memQueue (frameQueue h3))) as Hne by (intros Hl; by rewrite (full_drops _ _ (ho_queue h3 Ho3) Hl) in Ed).
    assert (len (HybridQueue.memQueue (frameQueue h)) < 9501) as Hl by (change (frameQueue h3) with (frameQueue h) in Hne; lia).
    destruct (queue_frame_ok w (f' <| PresentationTime := p |>) h4 Ho4) as (h5 & v & -> & Ho5 & E1 & E2 & E3 & E4 & E5 & Hv); [change (frameQueue h4) with (frameQueue h); lia|]. exists h5, v.
    split; [done|]. split; [done|]. destruct (Hway h5 E1 E2 E3) as [W1 W2]. rewrite (grouped_serialized _ _ p Hin) in Hv.
    assert (TotalSize (f' <| PresentationTime := p |>) = TotalSize f) as Hsize by (by destruct Hin as (? & ? & ->)). rewrite Hsize in E5.
    destruct Hv as [(-> & Ha & Hv)|(-> & Ha & Hv)]; (split; [done|]; split; [by repeat split|]; split; [done|]; split; [done|]; split; [intros; lia|]; intros q Hk%Hcond; subst q; by rewrite Ha).
Qed.

(** A frame that is not metadata fails the check. *)
Definition fails w f h : Prop := is_metadata f = false /\ detectFrameCorruption (now w) (codec h) f = Ret true.

Lemma counted_type f h : exists k p b, count_type f h = h <| keyframeCount := k |> <| pFrameCount := p |> <| bFrameCount := b |>.
Proof. exists (keyframeCount (count_type f h)), (pFrameCount (count_type f h)), (bFrameCount (count_type f h)). unfold count_type. by destruct (FType f), h. Qed.

Lemma process_frame_ok w r f h : handler_ok h -> frame_ok r f h ->
  exists h' v, processFrame sha256 w r f h = Ret (h', v) /\ handler_ok h' /\ outcome r f h v h' /\
    framesAssembled h' = u64 (framesAssembled h + 1) /\ (v = Corrupt <-> fails w f h) /\ (v = Queued -> allowed w = true) /\
    (9501 <= len (HybridQueue.memQueue (frameQueue h)) -> v = Corrupt \/ v = Dropped) /\
    (~ fails w f h -> forall k, drop_condition f h = Some k -> v = (if k then Dropped else if allowed w then Queued else Refused)).
Proof.
  intros Ho Hf. unfold processFrame. set (h0 := upd framesAssembled _ h). assert (handler_ok h0) as Ho0 by (destruct Ho; by split).
  destruct (SessionSets.extract_frame_ok sha256 (now w) f _ (fo_units r f h Hf) (ho_cache h0 Ho0)) as (c & -> & Hc & _). rewrite bind_Ret. cbv zeta.
  destruct (counted_type f (set_cache c h0)) as (k & p & b & ->). set (h1 := upd bFrameCount b _).
  assert (handler_ok h1) as Ho1 by (destruct Ho0; by split). assert (frame_ok r f h1) as Hf1 by (by destruct Hf).
  assert (exists x, (if is_metadata f then Ret false else detectFrameCorruption (now w) (codec h1) f) = Ret x /\ (x = true <-> fails w f h)) as (x & -> & Hx).
  { unfold fails. change (codec h1) with (codec h). destruct (is_metadata f); [exists false; split; [done|]; split; [done|by intros [? _]]|].
    destruct (corruption_total (now w) (codec h) f (fo_units r f h Hf)) as (x & ->). exists x. split; [done|]. split; [by intros ->|by intros [_ [=]]]. }
  rewrite bind_Ret. destruct x.
  - destruct (handle_corruption_ok w h1 Ho1) as (r' & bp & e & -> & Ho2 & Hq). rewrite bind_Ret. eexists _, Corrupt. split; [done|]. split; [done|].
    split; [split; [done|split; [exact Hq|done]]|]. split; [done|]. split; [split; [by intros _; apply Hx|done]|]. split; [done|]. split; [by left|]. intros Hn. by destruct Hn; apply Hx.
  - destruct (accept_frame_ok w r f h1 Ho1 Hf1) as (h' & v & -> & Ho2 & Hv & Hout & Hfa & Ha & Hd & Hk). exists h', v. split; [done|]. split; [done|].
    split; [exact Hout|]. split; [exact Hfa|]. split; [split; [done|]; intros Hfl; by apply Hx in Hfl|]. split; [done|].
    split; [intros Hl; right; by apply Hd|]. intros _. exact Hk.
Qed.

(** *** The other steps *)

Lemma wake_buffer t a k r r' : Recovery.waitForKeyframe t a k r = Some r' -> Recovery.gopBuffer r' = Recovery.gopBuffer r.
Proof.
  unfold Recovery.waitForKeyframe. destruct (Recovery.waiters r !! a) as [[c [[start onEnd]|]]|]; [|done|done].
  destruct k; [destruct c; [by intros [= <-]|done]| |].
  - case_bool; [|done]. intros [= <-]. by rewrite call_buffer, set_state_buffer.
  - destruct (Recovery.lastKeyframe r) as [t'|]; [|by intros [= <-]]. case_bool; intros [= <-]; [by rewrite call_buffer, set_state_buffer|done].
Qed.
Lemma recovery_waits_ok r h : handler_ok h -> Recovery.waits r -> Recovery.gopBuffer r = gopBuffer h ->
  handler_ok (recovered_as r h) /\ frameQueue (recovered_as r h) = frameQueue h.
Proof.
  intros [O1 O2 O3 O4 O5 O6 O7 O8 O9] Hw Hb. destruct (recovered_as_spec r h) as (bp & e & ->). split; [|done].
  assert (gopBuffer (h <| recoveryHandler := r |> <| backpressure := bp |> <| session := SessionSets.mkSession (sessionParameterCache h) e |>) = gopBuffer h) as Eb by exact Hb.
  split; rewrite ?Eb; done.
Qed.

Lemma limits_enforced_ok t h : handler_ok h ->
  let h' := enforceRecentFramesLimits (set_cache (enforceSessionCacheLimits t (sessionParameterCache h)) h <| lastEnforcement := t |>) in
  handler_ok h' /\ frameQueue h' = frameQueue h.
Proof.
  intros [O1 O2 O3 O4 O5 O6 [O7 O7'] O8 O9]. unfold enforceRecentFramesLimits. cbv zeta. rewrite (proj2 (Z.leb_le _ _)) by (cbn; lia).
  split; [|done]. split; try done. by apply SessionSets.enforce_reachable.
Qed.
Lemma monitor_ok w h : handler_ok h -> exists h', monitorBackpressure w h = Ret h' /\ handler_ok h' /\ frameQueue h' = frameQueue h.
Proof.
  intros Ho. unfold monitorBackpressure. cbv zeta. set (bp := Backpressure.UpdateGOPStats _ _). set (h1 := h <| bpController := bp |>).
  assert (handler_ok h1) as Ho1.
  { destruct Ho. split; try done. apply (Backpressure.handle_ok _ (Backpressure.Gops _)); [done|]. by apply (Backpressure.handle_ok _ (Backpressure.Pressure _)). }
  assert (exists h2, (if Backpressure.ShouldDropGOP (GetPressure (frameQueue h)) bp then dropOldestGOP w h1 else Ret h1) = Ret h2 /\
    handler_ok h2 /\ frameQueue h2 = frameQueue h) as (h2 & -> & Ho2 & Eq).
  { case_bool; [|by eexists]. unfold dropOldestGOP, GetRecentGOPs. cbn [Z.ltb Z.compare]. rewrite bind_Ret. case_bool; [by eexists|].
    destruct (drop_for_pressure_ok (now w) (f64_dec 99 2) h1 Ho1) as (b & s & n' & l & -> & Ho' & _). rewrite bind_Ret. eexists. split; [done|]. case_bool; [|done].
    split; [|done]. destruct Ho'. split; try done. by apply (Backpressure.handle_ok _ Backpressure.Dropped). }
  rewrite bind_Ret. set (h3 := if f64_ltb _ _ then _ else h2). assert (handler_ok h3 /\ frameQueue h3 = frameQueue h) as [Ho3 Eq3].
  { subst h3. case_bool; [|done]. unfold releaseBackpressure. destruct (backpressure h2); [|done].
    destruct (set_bw_spec 0 (h2 <| backpressure := false |>)) as (l & ->). split; [|done]. destruct Ho2; by split. }
  eexists. split; [done|]. case_bool; [|done]. destruct (limits_enforced_ok (now w) h3 Ho3) as [Ho4 Eq4]. split; [exact Ho4|]. by rewrite <- Eq3.
Qed.
Lemma adjust_ok t h : handler_ok h -> handler_ok (adjust_rate t h) /\ frameQueue (adjust_rate t h) = frameQueue h.
Proof.
  intros Ho. unfold adjust_rate. cbv zeta. set (h1 := upd bpController _ h). assert (handler_ok h1) as Ho1.
  { destruct Ho. split; try done. by apply (Backpressure.handle_ok _ (Backpressure.Adjust t)). }
  assert (frameQueue h1 = frameQueue h) as <- by done. clearbody h1. generalize (drop (length (Backpressure.rates_called (bpController h))) (Backpressure.rates_called (Backpressure.adjustRate t (bpController h)))) as l.
  intros l. revert h1 Ho1. induction l as [|x l IH]; intros h1 Ho1; [done|]. cbn [fold_left].
  destruct (set_bw_spec x h1) as (bw & ->). 
  destruct (IH (h1 <| max_bandwidth := bw |>)) as [Ho2 Eq]; [destruct Ho1; by split|]. by rewrite Eq.
Qed.

Lemma requeue_ok ws fs q n : queue_ok q -> len (HybridQueue.memQueue q) + len fs <= 10000 ->
  exists q' n' l, requeue ws fs q n = (q', n') /\ queue_ok q' /\ HybridQueue.memQueue q' = HybridQueue.memQueue q ++ l.
Proof.
  revert ws q n. induction fs as [|f fs IH]; intros ws q n Hq Hl; [exists q, n, []; rewrite app_nil_r; by destruct ws|].
  destruct ws as [|w ws]; [exists q, n, []; by rewrite app_nil_r|]. rewrite len_cons in Hl. pose proof (len_nonneg fs).
  destruct (enqueue_ok (serializeFrame f) (allowed w) (disk_fails w) q Hq ltac:(lia)) as (q1 & e & E & Hq1 & He). cbn [requeue]. rewrite E.
  assert (exists l1, HybridQueue.memQueue q1 = HybridQueue.memQueue q ++ l1 /\ len l1 <= 1) as (l1 & E1 & Hl1).
  { destruct e; destruct He as [_ He]; [by exists [serializeFrame f]|subst q1; exists []; rewrite app_nil_r; split; [done|by vm_compute]]. }
  destruct (IH ws q1 (match e with Val _ => n + 1 | Err _ => n end) Hq1) as (q2 & n2 & l2 & E2 & Hq2 & Em); [rewrite E1, len_app; lia|].
  exists q2, n2, (l1 ++ l2). split; [by destruct e|]. split; [done|]. by rewrite Em, E1, app_assoc.
Qed.
Lemma recover_ok ws h : handler_ok h -> label_ok (LRequeue ws) h ->
  exists h' n l, RecoverFromError ws h = Ret (h', n) /\ handler_ok h' /\
    HybridQueue.memQueue (frameQueue h') = HybridQueue.memQueue (frameQueue h) ++ l.
Proof.
  intros Ho Hl. cbn [label_ok] in Hl. unfold RecoverFromError. destruct (GetRecentGOPs 1 (gopBuffer h)) as [gs| |] eqn:E; [|done..].
  rewrite bind_Ret. destruct gs as [|g gs]; [exists h, None, []; by rewrite app_nil_r|].
  destruct (requeue_ok ws (Gop.Frames g) (frameQueue h) 0 (ho_queue h Ho) (Hl g gs eq_refl)) as (q & n & l & -> & Hq & Em).
  eexists _, _, l. split; [done|]. split; [|done]. destruct Ho. by split.
Qed.

(** *** The life of a stream *)

(** The states a stream comes into, with the queue its manager gives it. *)
Inductive lives : StreamHandler -> Prop :=
| lives_new now id c is_srt audio transport old q h :
    (forall t, transport = Some t -> reachable t) -> HybridQueue.NewHybridQueue 10000 old = Ret q ->
    NewStreamHandler now id c is_srt audio transport q = Ret h -> lives h
| lives_step h l h' v : lives h -> label_ok l h -> step sha256 l h = Ret (h', v) -> lives h'.

Lemma new_handler_ok t id c is_srt audio transport old q :
  (forall t, transport = Some t -> reachable t) -> HybridQueue.NewHybridQueue 10000 old = Ret q ->
  exists h, NewStreamHandler t id c is_srt audio transport q = Ret h /\ handler_ok h /\ frameQueue h = q /\ HybridQueue.memQueue q = [] /\
    gopDetector h = GopDetector.NewDetector id /\ codec h = c.
Proof.
  intros Ht [= <-]. unfold NewStreamHandler. change (Backpressure.NewController id bp_config) with (Ret (Backpressure.mkController id (f64_of_Z 0) (f64_dec 5 1) (10 * 1024 * 1024)
    (100 * 1024) (10 * 1024 * 1024) None 0 0 (f64_dec 12 1) (f64_dec 8 1) second [] 10 false 0 0 zero_time [])). rewrite bind_Ret.
  eexists. split; [done|]. split; [|done]. pose proof (GopPipeline.pipeline_ok _ _ (GopPipeline.pipeline_new id id buffer_config ltac:(by vm_compute))) as Hp. split; try done.
  - pose proof (Recovery.new_supervised recovery_config (GopBuffer.NewBuffer id buffer_config) (GopPipeline.po_buf _ _ Hp)) as [[W1 W2 W3] _]. by split.
  - apply ParamContext.reach_new.
  - destruct transport as [tr|]; [|apply ParamContext.reach_new]. apply ParamContext.reach_copy; [by apply Ht|apply ParamContext.reach_new].
  - cbn [syncManager]. assert (forall m, AVSync.sync_inv AVSync.DefaultSyncConfig m -> forall e m', AVSync.handle e m = Ret m' -> AVSync.sync_inv AVSync.DefaultSyncConfig m') as Hstep.
    { intros m Hm e m' E. destruct (AVSync.handle_inv AVSync.DefaultSyncConfig e m Hm ltac:(by vm_compute)) as (m2 & E2 & Hm2 & _). rewrite E in E2. by injection E2 as <-. }
    assert (AVSync.sync_inv AVSync.DefaultSyncConfig (AVSync.NewManager id None)) as Hm by (split; try done; [by left|intros [?|(v & ? & _)]; done]).
    set (m := (AVSync.InitializeVideo _ _).1). assert (AVSync.sync_inv AVSync.DefaultSyncConfig m) as Hm' by (by eapply (Hstep _ Hm (AVSync.InitVideo _))).
    destruct audio; [|done]. by eapply (Hstep _ Hm' (AVSync.InitAudio _)).
Qed.

Lemma stream_step_ok l h : handler_ok h -> label_ok l h ->
  exists h' v, step sha256 l h = Ret (h', v) /\ handler_ok h' /\
    match l, v with
    | LFrame w r f, Some v => outcome r f h v h'
    | LFrame _ _ _, None => False
    | LRequeue _, None => exists l, HybridQueue.memQueue (frameQueue h') = HybridQueue.memQueue (frameQueue h) ++ l
    | _, None => frameQueue h' = frameQueue h
    | _, Some _ => False
    end.
Proof.
  intros Ho Hl. destruct l as [w r f|w|t|w p|t a|t a k|ws]; cbn [step].
  - destruct (process_frame_ok w r f h Ho Hl) as (h' & v & -> & Ho' & Hout & _). rewrite bind_Ret. by eexists _, _.
  - destruct (monitor_ok w h Ho) as (h' & -> & ? & ?). rewrite bind_Ret. by eexists _, _.
  - destruct (adjust_ok t h Ho). by eexists _, _.
  - unfold processAudio. destruct (audio_synced p (ck w) _ (ho_sync h Ho)) as (m & p' & e & -> & Hm). rewrite !bind_Ret. eexists _, _. split; [done|].
    split; [|done]. destruct Ho; by split.
  - unfold recovery_step. cbn [Recovery.step]. rewrite !bind_Ret. eexists _, _. split; [done|]. apply recovery_waits_ok; [done|by apply Recovery.begin_waits, ho_waits|].
    unfold Recovery.begin_wait, gopBuffer. by destruct (Recovery.waiters _ !! a) as [[c [?|]]|].
  - unfold recovery_step. cbn [Recovery.step]. rewrite !bind_Ret. eexists _, _. split; [done|].
    destruct (Recovery.waitForKeyframe t a k (recoveryHandler h)) as [r|] eqn:E; cbn [default id].
    + apply recovery_waits_ok; [done|by eapply Recovery.wake_waits; [apply ho_waits|exact E]|by eapply wake_buffer].
    + apply recovery_waits_ok; [done|by apply ho_waits|done].
  - destruct (recover_ok ws h Ho Hl) as (h' & n & l & -> & Ho' & Em). rewrite bind_Ret. eexists _, _. split; [done|]. split; [done|]. by exists l.
Qed.
Lemma lives_ok h : lives h -> handler_ok h.
Proof.
  induction 1 as [t id c is_srt audio transport old q h Ht Hq E|h l h' v _ IH Hl E].
  - destruct (new_handler_ok t id c is_srt audio transport old q Ht Hq) as (h' & E' & Ho & _). rewrite E in E'. by injection E' as <-.
  - destruct (stream_step_ok l h IH Hl) as (h2 & v2 & E2 & Ho & _). rewrite E in E2. by injection E2 as <- <-.
Qed.

(** C9: what happens to a frame of a stream in any state it comes into: the
    handler never panics; a frame that fails the check, and no other, is
    rejected before any group, history or queue sees it; every other frame
    goes through the detector of groups into the buffer and into the history of
    at most 300 frames, whatever is dropped from the buffer at once, and then its
    bytes are queued last or the queue is left alone; a key frame is not dropped below a pressure of 0.95. *)
Theorem frame_outcome w r f h : lives h -> frame_ok r f h ->
  exists h' v, processFrame sha256 w r f h = Ret (h', v) /\ lives h' /\ outcome r f h v h' /\
    framesAssembled h' = u64 (framesAssembled h + 1) /\ len (recentFrames h') <= 300 /\
    (v = Corrupt <-> fails w f h) /\ (v = Queued -> allowed w = true) /\
    (IsKeyframe f = true -> f64_ltb (GetPressure (frameQueue h)) (f64_dec 95 2) = true -> v <> Dropped).
Proof.
  intros Hl Hf. destruct (process_frame_ok w r f h (lives_ok h Hl) Hf) as (h' & v & E & Ho & Hout & Ha & Hc & Hq & _ & Hk). exists h', v. split; [done|].
  split; [apply (lives_step h (LFrame w r f) h' (Some v)); [done|done|cbn [step]; by rewrite E]|]. do 2 (split; [done|]). split; [apply Ho|]. do 2 (split; [done|]).
  intros Hkey Hp Hv. assert (~ fails w f h) as Hn by (intros Hx%Hc; congruence). specialize (Hk Hn false). unfold drop_condition in Hk. rewrite Hkey, Hp in Hk.
  specialize (Hk eq_refl). destruct (allowed w); congruence.
Qed.

(** *** The queue fills *)

Inductive after h : StreamHandler -> Prop :=
| after_now : after h h
| after_step h1 l h2 v : after h h1 -> label_ok l h1 -> step sha256 l h1 = Ret (h2, v) -> after h h2.

Definition requeues (l : label) : bool := match l with LRequeue _ => true | _ => false end.
Lemma full_step l h h' v : handler_ok h -> label_ok l h -> 9501 <= len (HybridQueue.memQueue (frameQueue h)) -> step sha256 l h = Ret (h', v) ->
  9501 <= len (HybridQueue.memQueue (frameQueue h')) /\ (v = None \/ v = Some Corrupt \/ v = Some Dropped) /\
  (requeues l = false -> frameQueue h' = frameQueue h).
Proof.
  intros Ho Hl Hfull E. destruct (stream_step_ok l h Ho Hl) as (h2 & v2 & E2 & _ & Hr). rewrite E in E2. injection E2 as <- <-.
  assert (frameQueue h' = frameQueue h -> 9501 <= len (HybridQueue.memQueue (frameQueue h'))) as Hsame by (by intros ->).
  destruct l as [w r f|w|t|w p|t a|t a k|ws]; [|destruct v as [v|]; [done|]; by repeat split; [apply Hsame|left|]..|].
  - destruct v as [v|]; [|done]. cbn [step] in E. destruct (process_frame_ok w r f h Ho Hl) as (h2 & v2 & E2 & _ & _ & _ & _ & _ & Hd & _).
    rewrite E2, bind_Ret in E. injection E as -> ->.
    assert (frameQueue h' = frameQueue h) as Eq by (destruct (Hd Hfull) as [-> | ->]; [by destruct Hr as (_ & _ & _ & ? & _)|by destruct Hr as (_ & _ & ? & _)]).
    split; [by apply Hsame|]. split; [|done]. right. destruct (Hd Hfull) as [-> | ->]; auto.
  - destruct v as [v|]; [done|]. destruct Hr as [l Em]. split; [|by split; [left|]]. rewrite Em, len_app. pose proof (len_nonneg l). lia.
Qed.
Lemma full_stays h h' : lives h -> 9501 <= len (HybridQueue.memQueue (frameQueue h)) -> after h h' ->
  lives h' /\ 9501 <= len (HybridQueue.memQueue (frameQueue h')).
Proof.
  intros Hl Hfull. induction 1 as [|h1 l h2 v _ [IH1 IH2] Hlab E]; [done|]. split; [by eapply lives_step|].
  by apply (full_step l h1 h2 v (lives_ok h1 IH1) Hlab).
Qed.

Lemma pressures : forallb (fun k => negb (f64_ltb (f64_dec 95 2) (f64_div (f64_of_Z (Z.of_nat k)) (f64_of_Z 10000)))) (seq 0 (Z.to_nat 9501)) = true.
Proof. by vm_compute. Qed.
Lemma room_pressure q : queue_ok q -> len (HybridQueue.memQueue q) <= 9500 -> f64_ltb (f64_dec 95 2) (GetPressure q) = false.
Proof.
  intros Hq Hl. rewrite (queue_pressure _ Hq). pose proof pressures as Hp. rewrite forallb_forall in Hp.
  specialize (Hp (length (HybridQueue.memQueue q))). apply negb_true_iff, Hp. apply in_seq. unfold len in Hl. lia.
Qed.
(** A step that puts no group back makes at most 9501 messages. *)
Lemma step_bound l h h' v : handler_ok h -> label_ok l h -> requeues l = false -> step sha256 l h = Ret (h', v) ->
  len (HybridQueue.memQueue (frameQueue h')) <= Z.max 9501 (len (HybridQueue.memQueue (frameQueue h))).
Proof.
  intros Ho Hl Hn E. destruct (Z.le_gt_cases 9501 (len (HybridQueue.memQueue (frameQueue h)))) as [Hf|Hf].
  { destruct (full_step l h h' v Ho Hl Hf E) as (_ & _ & Eq). rewrite (Eq Hn). lia. }
  destruct (stream_step_ok l h Ho Hl) as (h2 & v2 & E2 & _ & Hr). rewrite E in E2. injection E2 as <- <-.
  assert (frameQueue h' = frameQueue h -> len (HybridQueue.memQueue (frameQueue h')) <= Z.max 9501 (len (HybridQueue.memQueue (frameQueue h)))) as Hsame by (intros ->; lia).
  destruct l as [w r f|w|t|w p|t a|t a k|ws]; [|destruct v as [v|]; [done|by apply Hsame]..|done].
  destruct v as [[]|]; [| | | |done]; cbn [outcome] in Hr; [by apply Hsame, Hr..|destruct Hr as (_ & _ & -> & _)|by apply Hsame, Hr].
  rewrite len_app. change (len [_]) with 1. lia.
Qed.
Definition intra f : Prop := FType f = FrameTypeI \/ FType f = FrameTypeIDR.
Lemma key_queued w r f h : handler_ok h -> frame_ok r f h -> intra f -> ~ fails w f h -> allowed w = true ->
  len (HybridQueue.memQueue (frameQueue h)) <= 9500 -> exists h', processFrame sha256 w r f h = Ret (h', Queued).
Proof.
  intros Ho Hf Hi Hn Ha Hl. destruct (process_frame_ok w r f h Ho Hf) as (h' & v & E & _ & _ & _ & _ & _ & _ & Hk). exists h'.
  assert (drop_condition f h = Some false) as Hd.
  { unfold drop_condition. rewrite (room_pressure _ (ho_queue h Ho) Hl). case_bool; [done|]. by destruct Hi as [-> | ->]. }
  specialize (Hk Hn false Hd). rewrite Ha in Hk. by rewrite E, Hk.
Qed.

(** C10: nothing takes messages from the queue of a stream.  While memory holds
    at most 9500 of its 10000 messages every intact frame of type I or IDR that
    the rate limiter admits is queued (other frames, the key frames of other
    types among them, are dropped from lower pressures on); no frame makes more
    than 9501 of them, and the file is not used.  From 9501 on no frame is ever
    queued again, whatever comes: every frame is rejected or dropped, and only
    [RecoverFromError], which nothing in the program calls, still adds to the
    queue, here as long as memory has room for the group it puts back. *)
Theorem queue_saturates h : lives h ->
  len (HybridQueue.memQueue (frameQueue h)) <= 10000 /\ HybridQueue.diskBytes (frameQueue h) = 0 /\
  (forall l h' v, label_ok l h -> requeues l = false -> step sha256 l h = Ret (h', v) ->
     len (HybridQueue.memQueue (frameQueue h')) <= Z.max 9501 (len (HybridQueue.memQueue (frameQueue h)))) /\
  (forall w r f, frame_ok r f h -> intra f -> ~ fails w f h -> allowed w = true -> len (HybridQueue.memQueue (frameQueue h)) <= 9500 ->
     exists h', processFrame sha256 w r f h = Ret (h', Queued)) /\
  (9501 <= len (HybridQueue.memQueue (frameQueue h)) -> forall h', after h h' ->
     9501 <= len (HybridQueue.memQueue (frameQueue h')) /\
     (forall l h2 v, label_ok l h' -> requeues l = false -> step sha256 l h' = Ret (h2, v) -> frameQueue h2 = frameQueue h') /\
     forall w r f, frame_ok r f h' -> exists h2 v, processFrame sha256 w r f h' = Ret (h2, v) /\ (v = Corrupt \/ v = Dropped)).
Proof.
  intros Hl. pose proof (lives_ok h Hl) as Ho. split; [apply Ho|]. split; [apply Ho|].
  split; [intros l h' v Hlab Hn E; by apply (step_bound l h h' v Ho Hlab Hn E)|]. split; [intros w r f; by apply key_queued|].
  intros Hfull h' Ha. destruct (full_stays h h' Hl Hfull Ha) as [Hl' Hfull']. split; [done|]. split.
  - intros l h2 v Hlab Hn E. by apply (full_step l h' h2 v (lives_ok h' Hl') Hlab Hfull' E).
  - intros w r f Hf. destruct (process_frame_ok w r f h' (lives_ok h' Hl') Hf) as (h2 & v & E & _ & _ & _ & _ & _ & Hd & _). exists h2, v. split; [done|]. by apply Hd.
Qed.

(** A stream of key frames comes there. *)
Definition key_frame (id : Z) : VideoFrame := (frame_of id FrameTypeIDR 0 0 1) <| NALUnits := [mkNAL 5 [101; 136] 0 0] |> <| TotalSize := 2 |>.
Definition quiet (t : Z) : world := mkWorld t t (AVSync.at_all t) true None 0.
Lemma key_frame_intact id h : ~ fails (quiet 10) (key_frame id) h.
Proof. intros [_ E]. revert E. unfold detectFrameCorruption. by destruct (codec h). Qed.

Lemma key_counted r f d b d' b' : IsKeyframe f = true -> GopPipeline.frame_into r f d b = Ret (d', b') -> GopDetector.gopCounter d' = u64 (GopDetector.gopCounter d + 1).
Proof.
  intros Hk E. unfold GopPipeline.frame_into, GopDetector.ProcessFrame in E. rewrite Hk in E.
  assert (exists heap d1, GopDetector.closeCurrentGOP (PTS f) (GopBuffer.store b) d = (heap, d1) /\ GopDetector.gopCounter d1 = GopDetector.gopCounter d) as (heap & d1 & E1 & Ec).
  { destruct (GopDetector.currentGOP d) as [c|] eqn:Ec.
    - destruct (GopDetector.closeCurrentGOP_spec (PTS f) (GopBuffer.store b) d c Ec) as (g & d1 & E1 & _ & _ & _ & _ & _ & _ & _ & _ & _ & _ & _ & En & _). by eexists _, _.
    - unfold GopDetector.closeCurrentGOP. rewrite Ec. by eexists _, _. }
  rewrite E1 in E. cbv beta iota zeta in E. destruct (GopDetector.currentGOP d1) as [c|]; [apply bind_Ret_inv in E as (b1 & _ & E)|]; injection E as <- _; cbn; by rewrite Ec.
Qed.
Definition new_ref h : gop_ref := fresh (GopBuffer.gops (gopBuffer h) ++ option_list (GopDetector.currentGOP (gopDetector h))).
Definition new_key h : VideoFrame := key_frame (fresh (GopPipeline.held (gopDetector h) (gopBuffer h))).
Lemma new_key_ok h : GopDetector.gopCounter (gopDetector h) + 1 < 2 ^ 64 -> frame_ok (new_ref h) (new_key h) h.
Proof.
  intros Hc. split; [|split|apply (infinite_is_fresh (GopPipeline.held (gopDetector h) (gopBuffer h)))|done].
  - unfold SessionSets.units_ok, SessionSets.nal_ok, is_byte. decide_goal.
  - intros Hr. apply (infinite_is_fresh (GopBuffer.gops (gopBuffer h) ++ option_list (GopDetector.currentGOP (gopDetector h)))). apply elem_of_app. by left.
  - intros Ec. apply (infinite_is_fresh (GopBuffer.gops (gopBuffer h) ++ option_list (GopDetector.currentGOP (gopDetector h)))). apply elem_of_app. right.
    rewrite Ec at 2. unfold new_ref. by constructor.
Qed.
Lemma queue_fills (n : nat) : Z.of_nat n <= 9501 ->
  exists h, lives h /\ len (HybridQueue.memQueue (frameQueue h)) = Z.of_nat n /\ GopDetector.gopCounter (gopDetector h) = Z.of_nat n.
Proof.
  induction n as [|n IH]; intros Hn.
  - destruct (new_handler_ok 0 "cam" CodecH264 false false None [] _ ltac:(done) eq_refl) as (h & E & _ & Eq & Em & Ed & _). exists h.
    split; [by apply (lives_new 0 "cam" CodecH264 false false None [] _ h ltac:(done) eq_refl E)|]. by rewrite Eq, Ed.
  - destruct IH as (h & Hl & Hq & Hc); [lia|]. set (r := new_ref h). set (f := new_key h).
    assert (frame_ok r f h) as Hf by (apply new_key_ok; rewrite Hc; pow_consts; lia).
    destruct (key_queued (quiet 10) r f h (lives_ok h Hl) Hf ltac:(by right) (key_frame_intact _ h) eq_refl ltac:(lia)) as (h' & E).
    destruct (process_frame_ok (quiet 10) r f h (lives_ok h Hl) Hf) as (h2 & v & E2 & _ & Hout & _). rewrite E in E2. injection E2 as <- <-.
    destruct Hout as ((b & Hi & _) & _ & Hm & _). exists h'. split; [apply (lives_step h (LFrame (quiet 10) r f) h' (Some Queued)); [done|done|cbn [step]; by rewrite E]|].
    rewrite Hm, len_app, Hq. change (len [_]) with 1. split; [lia|]. rewrite (key_counted r f _ _ _ _ eq_refl Hi), Hc, u64_id by (pow_consts; lia). lia.
Qed.
End stream.

(** *** Requests *)

Lemma best_spec t gs best :
  match best_keyframe gs t best with
  | Some k => (best = Some k \/ exists g, g ∈ gs /\ Gop.Keyframe g = Some k /\ PTS k <= t) /\
              (forall b, best = Some b -> PTS b <= PTS k) /\ (forall g b, g ∈ gs -> Gop.Keyframe g = Some b -> PTS b <= t -> PTS b <= PTS k)
  | None => best = None /\ forall g b, g ∈ gs -> Gop.Keyframe g = Some b -> t < PTS b
  end.
Proof.
  revert best. induction gs as [|g gs IH]; intros best; cbn [best_keyframe].
  { destruct best as [b|]; [|split; [done|]; intros ? ? []%elem_of_nil]. split; [by left|]. split; [by intros ? [= ->]|]. intros ? ? []%elem_of_nil. }
  set (best' := match Gop.Keyframe g with Some k => _ | None => _ end). specialize (IH best').
  assert (forall P : option VideoFrame -> Prop, (forall k, Gop.Keyframe g = Some k -> PTS k <= t -> (forall b, best = Some b -> PTS b < PTS k) -> P (Some k)) ->
    ((forall k, Gop.Keyframe g = Some k -> t < PTS k \/ exists b, best = Some b /\ PTS k <= PTS b) -> P best) -> P best') as Hcase.
  { intros P H1 H2. subst best'. destruct (Gop.Keyframe g) as [k|]; [|by apply H2]. destruct (Z.leb_spec (PTS k) t); cbn [andb].
    - destruct best as [b|]; [|by apply H1]. destruct (Z.ltb_spec (PTS b) (PTS k)); [by apply H1; intros; simplify_eq|].
      apply H2. intros k' [= <-]. right. by exists b.
    - apply H2. intros k' [= <-]. by left. }
  clearbody best'. destruct (best_keyframe gs t best') as [k|].
  - destruct IH as (I1 & I2 & I3). revert I1 I2. apply (Hcase (fun best' => (best' = Some k \/ _) -> (forall b, best' = Some b -> _) -> _)).
    + intros q Hq Hle Hlt I1 I2. split; [|split].
      * right. destruct I1 as [[= ->]|(g' & ? & ?)]; [exists g|exists g']; (split; [by constructor|done]).
      * intros b Hb. pose proof (Hlt b Hb). pose proof (I2 q eq_refl). lia.
      * intros g' b [->|Hin]%elem_of_cons Eb Hb; [rewrite Hq in Eb; injection Eb as <-; by apply I2|by apply (I3 g')].
    + intros Hno I1 I2. split; [destruct I1 as [?|(g' & ? & ?)]; [by left|right; exists g'; split; [by constructor|done]]|]. split; [done|].
      intros g' b [->|Hin]%elem_of_cons Eb Hb; [|by apply (I3 g')]. destruct (Hno b Eb) as [?|(q & Hq & ?)]; [lia|]. pose proof (I2 q Hq). lia.
  - destruct IH as [I1 I2]. revert I1. apply (Hcase (fun best' => best' = None -> _)); [done|]. intros Hno ->. split; [done|].
    intros g' b [->|Hin]%elem_of_cons Eb; [|by apply (I2 g')]. destruct (Hno b Eb) as [?|(q & [=] & _)]. done.
Qed.
(** The latest key frame, of the last ten groups, not behind the target. *)
Lemma seek_nearest t h : exists o, SeekToKeyframe t h = Ret o /\
  let gs := gop_of (gopBuffer h) <$> rev (takeZ 10 (rev (GopBuffer.gops (gopBuffer h)))) in
  match o with
  | Some k => (exists g, g ∈ gs /\ Gop.Keyframe g = Some k) /\ PTS k <= t /\ (forall g b, g ∈ gs -> Gop.Keyframe g = Some b -> PTS b <= t -> PTS b <= PTS k)
  | None => forall g b, g ∈ gs -> Gop.Keyframe g = Some b -> t < PTS b
  end.
Proof.
  unfold SeekToKeyframe, GetRecentGOPs. cbn [Z.ltb Z.compare]. rewrite bind_Ret. eexists. split; [done|]. cbv zeta. set (gs := _ <$> _).
  pose proof (best_spec t gs None) as Hb. destruct (best_keyframe gs t None) as [k|]; [|apply Hb].
  destruct Hb as ([[=]|(g & Hg & Ek & Hle)] & _ & Hb). split; [by exists g|]. by split.
Qed.

(** *** A run *)

Section demo.
Import ParamContext(no_digest).
#[local] Existing Instance ParamSession.default_order.

Definition new_stream : res StreamHandler := NewStreamHandler 0 "cam" CodecH264 true false None (HybridQueue.mkQueue [] 10000 [] false 0 0 0 0 false HybridQueue.PumpTop).
Fixpoint verdicts (l : list label) h : list (option verdict) :=
  match l with
  | [] => []
  | e :: l => match step no_digest e h with Ret (h, v) => v :: verdicts l h | _ => [] end
  end.
Definition inter_frame (id : Z) (data : list Z) : VideoFrame := (frame_of id FrameTypeP 3000 3000 1) <| NALUnits := [mkNAL 1 data 0 0] |> <| TotalSize := 2 |>.
Definition busy (t : Z) : world := mkWorld t t (AVSync.at_all t) false None 1000.
Definition sample_labels : list label :=
  [LFrame (quiet 10) 1%nat (key_frame 1); LFrame (quiet 11) 2%nat (inter_frame 2 [65; 1]); LFrame (quiet 12) 3%nat (inter_frame 3 [193; 1]);
   LMonitor (quiet 13); LFrame (busy 14) 4%nat (inter_frame 4 [65; 2])].
(** A key frame and one that refers to it, one with the forbidden bit, one the
    rate limiter refuses. *)
Example sample_verdicts : verdicts sample_labels <$> match new_stream with Ret h => Some h | _ => None end = Some [Some Queued; Some Queued; Some Corrupt; None; Some Refused].
Proof. by vm_compute. Qed.

Lemma frame_outcome_witness : exists h h', lives no_digest h /\ processFrame no_digest (quiet 10) (new_ref h) (new_key h) h = Ret (h', Queued) /\ lives no_digest h'.
Proof.
  destruct (queue_fills no_digest 3 ltac:(lia)) as (h & Hl & Hq & Hc).
  assert (frame_ok (new_ref h) (new_key h) h) as Hf by (apply new_key_ok; rewrite Hc; by vm_compute).
  destruct (key_queued no_digest (quiet 10) (new_ref h) (new_key h) h (lives_ok no_digest h Hl) Hf ltac:(by right) (key_frame_intact _ h) eq_refl ltac:(lia)) as (h2 & E).
  destruct (frame_outcome no_digest (quiet 10) (new_ref h) (new_key h) h Hl Hf) as (h' & v & E' & Hl' & _).
  exists h, h'. split; [exact Hl|]. split; [|exact Hl']. rewrite E in E'. injection E' as <- <-. exact E.
Defined.
Lemma queue_saturates_witness : exists h, lives no_digest h /\ len (HybridQueue.memQueue (frameQueue h)) = 9501 /\
  exists h2 v, processFrame no_digest (quiet 10) (new_ref h) (new_key h) h = Ret (h2, v) /\ (v = Corrupt \/ v = Dropped).
Proof.
  destruct (queue_fills no_digest (Z.to_nat 9501) ltac:(lia)) as (h & Hl & Hq & Hc). rewrite Z2Nat.id in Hq, Hc by lia. exists h. split; [exact Hl|]. split; [exact Hq|].
  destruct (queue_saturates no_digest h Hl) as (_ & _ & _ & _ & H). destruct (H ltac:(lia) h (after_now no_digest h)) as (_ & _ & Hd).
  apply Hd. apply new_key_ok. rewrite Hc. by vm_compute.
Defined.
End demo.
